(* ===== verification/_CoqProject ===== *)
-Q . S2P
Prelude.v
Errors.v
Json.v
Db.v
Permission.v
TokenCache.v
Concrete.v
TokenCheck.v
TokenAdmin.v
KvAuth.v
KvStore.v
KvRefine.v
KvRpc.v
UuidCache.v
Traffic.v
TrafficFlush.v
Buffer.v
LastCache.v
Reports.v
StaticPath.v
StaticFs.v
StaticBucket.v
StaticAdmin.v
Purge.v
Selection.v
MonDelete.v
TaskTypes.v
Retention.v
RetentionSpec.v
RetentionThms.v
TaskManager.v
Tasks.v
TaskThms.v
TaskSessions.v
TaskQuery.v
Terminal.v
JsPool.v
CronCache.v
CronSched.v
CronRpc.v
CronThms.v
CronTask.v
TaskRun.v
CronExamples.v
CronResult.v
JsWorker.v
JsRun.v
JsThms.v
JsSystem.v
JsResults.v
Snapshots.v
SnapshotQuery.v
SnapshotPages.v
TrafficCurrent.v
MonQuery.v
MonQueryThms.v
MonQueryExamples.v
DbRegistry.v
DbRegistryThms.v
DbSystem.v
NgConfig.v
ConfigRpc.v
AgentConn.v
AgentTasks.v
AgentTaskThms.v
AgentPool.v
AgentMain.v
AgentExec.v
Summary.v
StaticHttp.v
StaticHttpThms.v
StaticRpc.v
JsRoute.v
AgentReports.v
Logging.v
Timescale.v
SelfUpdate.v
AgentProbes.v
AgentPty.v
JsAudit.v
