(* ===== verification/Prelude.v ===== *)
(** * NodeGet, verified

    NodeGet monitors fleets of hosts.  Agents on the hosts report to one server over
    JSON-RPC; the server keeps an SQL database and serves dashboards, a key-value store,
    scheduled tasks and scripts.  Every request presents a token or a user name and
    password, and every component asks the same permission model whether it may act.  This
    library models the core of the server, under [src/crates], and the connections and tasks
    of the agent, under [src/agent], and proves them correct: authentication and
    authorisation, token administration, the key-value store, the identity cache of the
    agents, monitoring reports, queries and traffic statistics, static file buckets, user
    databases, the retention of results, the task dispatcher with the agent's end of it,
    the web terminal, stored scripts and the pool that runs them, the scheduler and the
    configuration.

    ** How the parts interact

    A request carries a credential text.  [from_full_token] splits it; [ng-token] looks it
    up in an in-memory copy of the [token] table and decides with the limits stored there.
    Administrative methods change the table and then reload the copy.  The key-value RPC
    validates names, asks for permission and runs statements against the table [kv].
    Monitoring reports are attributed to an agent by its UUID, which the UUID cache maps to
    a row number; a report updates the latest values of the agent, is queued for
    the database and, if it carries interface counters, advances the traffic statistics, which
    are written to the database once a minute.  The static file service keeps named
    buckets in a table with an in-memory copy and their files below one directory; every
    file path of a request is resolved by one guard before the disk is touched.  A task is
    a row of the table [task] and an event in the bounded queue of the agent's session; the
    agent uploads the result, which settles the row and wakes a caller that waits for it.
    A terminal task opens a pair of web sockets that the server joins.  The scheduler keeps
    the table [crontab] in memory, sleeps until the next deadline and gives every due job
    to the agents (through the task sessions) or to a script worker of the pool.  An hourly
    sweep deletes old tasks and results, with limits read from the key-value store.
    Scripts are rows with compiled bytecode; a run leaves a row with its outcome.  Users
    create SQLite files of their own, registered in a table.  The configuration is a file
    that an RPC method replaces and a reload reads again.  The agent keeps one connection
    per server, checks the identity of the peer, registers for tasks, and answers each
    task it is sent with one upload.

    ** Files

    - [Prelude] (this file): results, the state-and-error monad of [async] methods,
      strings, machine integers, hash maps, automation.
    - [Errors]: [ng-core/src/error.rs], the clock of [ng-core/src/utils/mod.rs] and
      [to_rpc_error] of [ng-db/src/rpc/mod.rs].
    - [Json]: [serde_json::Value] as far as the sources inspect it.
    - [Db]: the interface to the database: [TableOps] lists the statements issued against a
      table, [TableLaws] what is relied on, [KeyGenerator] that primary keys are never given
      out twice; [ListTable] is a table in memory with scripted outages that satisfies the laws.
    - [Permission]: [ng-core/src/permission] and the matching rules of
      [ng-token/src/get.rs], with their declarative reading [limits_grant].
    - [TokenCache]: [ng-token/src/cache.rs], the parser of stored limits, hashing.
    - [TokenCheck]: [get_token], [check_super_token], [check_token_limit].
    - [TokenAdmin]: [ng-token/src/super_token.rs], [generate_token.rs], [rpc/*.rs] and the
      cache life cycle of [ng-infra/src/server.rs].
    - [Concrete]: a toy digest, a codec in serde's format and sample tables that satisfy
      the laws assumed elsewhere; used by the examples only.
    - [KvAuth]: [ng-kv/src/auth.rs], [reserved.rs] and the server's [PermissionChecker].
    - [KvStore], [KvRefine], [KvRpc]: [ng-kv/src/kv.rs] and [db.rs]; the abstract store they
      refine; the handlers of [ng-kv/src/rpc].
    - [UuidCache]: [ng-monitoring/src/monitoring_uuid_cache.rs].
    - [Traffic], [TrafficFlush]: [ng-monitoring/src/traffic_stats.rs], accounting and
      persistence.
    - [StaticPath]: the path validators and [resolve_safe_file_path] of
      [ng-static/src/ops.rs], on a model of [std::path].
    - [StaticFs]: the disk as an interface with laws, and a disk in memory.
    - [StaticBucket], [StaticAdmin]: [ng-static/src/cache.rs] and the bucket and file
      operations of [ops.rs]; the invariant and effects of bucket administration.
    - [Purge], [Retention], [RetentionSpec], [RetentionThms]: [ng-task/src/retention.rs], its
      chunked deletion, the sweep, a specification of it on row lists, and the theorems.
    - [TaskTypes]: [ng-task/src/types/mod.rs], the task types and their wire form.
    - [TaskManager], [Tasks]: the session manager of [ng-task/src/rpc/mod.rs] and the methods
      [create_task], [create_task_blocking] and [upload_task_result]; [TaskThms] has the
      theorems on single calls, [TaskSessions] those on sessions and their queues,
      [TaskRun] those on sequences of requests, deletions, sweeps and cron runs on the table [task].
    - [TaskQuery]: [ng-task/src/rpc/query.rs] and [delete.rs].
    - [Terminal]: [ng-terminal/src].
    - [JsPool]: [ng-js-runtime/src/runtime_pool.rs] and the limits of [server_runtime.rs].
    - [CronCache], [CronSched]: [ng-crontab/src/cron_type.rs], [cache.rs] and the loop of
      [server_cron.rs]; [CronRpc], [CronThms]: [ng-crontab/src/rpc/crontab] and the cache
      invariant; [CronTask]: [ng-crontab/src/task.rs]; [CronExamples]: a
      concrete schedule language and examples.
    - [Buffer]: [ng-monitoring/src/monitoring_buffer.rs]; [LastCache]:
      [monitoring_last_cache.rs] and the scaling of [query.rs]; [Reports]: the report methods
      of [rpc/agent] and [static_hash_cache.rs]; [MonDelete]: the deletions of [rpc/agent] and
      the agent directory of [rpc/agent_uuid] and [rpc/nodeget].
    - [Selection]: deleting the newest matching rows, shared by [MonDelete], [TaskQuery] and
      [CronResult], which models [ng-crontab/src/rpc/crontab_result].
    - [JsWorker], [JsRun]: [ng-js-worker/src/js_worker], [auth.rs] and [service.rs], the stored
      scripts and their runs; [JsThms], [JsSystem]: theorems on single calls and on sequences of
      requests, runs and failures; [JsResults]: [ng-js-worker/src/js_result].
    - [Snapshots]: writing and deleting traffic snapshots; [SnapshotQuery],
      [SnapshotPages], [TrafficCurrent]: the traffic queries of [rpc/agent] and their pages.
    - [MonQuery], [MonQueryThms], [MonQueryExamples]: the queries of monitoring data and of
      latest values in [rpc/agent].
    - [DbRegistry], [DbRegistryThms], [DbSystem]: the databases of users,
      [ng-db/src/db_registry.rs] and [ng-db/src/rpc/db], and the console of [ng-db/src/rpc/nodeget].
    - [NgConfig], [ConfigRpc]: [ng-config/src/config] and [ng-core/src/config.rs];
      [ng-config/src/server_rpc.rs] and the reload of [server/src/main.rs].
    - [AgentConn]: the connections of the agent and their bounded channels, [agent/src/rpc/multi_server.rs];
      [AgentTasks], [AgentTaskThms], [AgentPool], [AgentMain], [AgentExec]: its tasks,
      [agent/src/tasks/mod.rs] and [execute.rs], and its start-up in [agent/src/main.rs].
    - [Summary]: [ng-monitoring/src/data_structure.rs], the summary of collected data and the hash
      of static data.
    - [StaticHttp], [StaticHttpThms], [StaticRpc]: files over HTTP and WebDAV,
      [ng-static/src/router.rs] and [server/src/subcommands/serve.rs]; the methods of
      [ng-static/src/rpc].
    - [JsRoute]: scripts behind HTTP routes, [handle_js_worker_route] of [serve.rs].
    - [JsAudit]: the audit of the calls scripts make, [ng-js-runtime/src/js_audit.rs] and [nodeget.rs].
    - [AgentReports]: the reporting loops of [agent/src/rpc/monitoring_data_report.rs] and
      [agent/src/monitoring/outlet_interface.rs].
    - [Logging]: [server/src/logging/mod.rs] and the log methods of
      [server/src/rpc_nodeget.rs].
    - [Timescale]: [ng-db/src/timescale.rs].
    - [SelfUpdate]: [ng-core/src/self_update.rs] and the update of agent and server.
    - [AgentProbes], [AgentPty]: [agent/src/tasks/http_request.rs], [ip.rs], [dns.rs] and [pty.rs].

    ** Modelling

    Pure functions are Rocq functions.  A method that reads or writes shared state is a
    function from that state to the state it leaves and a result ([M]); an early return
    keeps the writes made so far.  Where concurrent requests can observe intermediate
    states (the two writes of a token reload, the steps of a flush, the statement and the
    cache write of [get_or_insert], a blocking task call before and after its wait, the
    ends of sessions and terminals) the steps are separate definitions and the theorems
    quantify over interleavings or exhibit one.  Where the code starts tasks together
    and joins them, the order in which they complete is a parameter ([send_order],
    [join_order]), and what other requests do in between is an arbitrary function
    ([meanwhile]) restricted only by what the theorem says.  Integers are [Z] with the width of each
    operation written out: saturation, two's-complement casts, checked conversions, and
    wrapping subtraction as in the shipped build profiles.  A Rust [str] is its bytes.
    Hash-map iteration order, the collation of the database and the codec of the
    permission types are parameters with the laws the code relies on.  Log lines and the
    final JSON text of a response are left out.

    ** What is proved

    - Authorisation: the permission decision equals its declarative reading on the token
      table; the one-lookup authentication agrees with the two-step one; a reload opens no
      window of extra authority; wildcard requests reach no further than exact ones for
      well-formed grants; credentials round-trip through their text; stored limits of
      newer versions lose exactly the unknown permissions.
    - Administration: any sequence of operations keeps the super token, the unique indexes
      and a coherent cache; only the super token administers; created tokens can log in;
      rolling and deleting do what they say and nothing else.
    - Key-value store: every history refines a map of maps; values stored are read back;
      writing handlers are guarded and have the abstract effect; batch reads return the
      abstract values and leak nothing; listings are complete and sorted.
    - UUID cache: the cache mirrors the table through every operation and failure; ids are
      stable, injective and fit 16 bits.
    - Traffic: the total of an interface is the sum over its history, whatever else is
      reported; totals are monotone and bounded; losses are conserved through failing flushes; a restart restores what
      was flushed; statements respect the parameter limits.
    - Static files: accepted paths never leave their bucket and harmless paths are
      accepted; file operations are isolated to the buckets they name and do what they
      say; bucket administration keeps names and the HTTP root unique and the cache in step.
    - Retention: the chunked deletion ends and deletes exactly what matches; a sweep equals
      its specification, never loses recent rows, and is forecast by a dry run.
    - Tasks: a task is a row and an event or neither; results are recorded once and never
      changed; no waiter leaks, whatever deletes rows, and each call is answered; sessions stay deliverable;
      deletions stay within their conditions and permissions.
    - Terminals: who may join which, one user per session, messages in order, both sides end.
    - Scripts: requests one after the other run the bytecode they came with.
    - Scheduler: every occurrence starts its job in time and once; the cache is the table's;
      a dispatched job accounts for every agent.
    - Monitoring data: reports are authorised and reach buffer, statistics and latest values
      under one agent number; the buffers neither lose silently nor duplicate nor reorder rows and
      are emptied on shutdown; deletions stay within conditions and permissions.
    - Stored scripts: writes are guarded; runs execute the stored source with bytecode of the
      running engine; every result row is settled once.
    - Traffic snapshots and monitoring queries: writing is all or nothing and idempotent; pages
      together are the whole answer; queries and latest values return exactly the matching rows, to
      those who may read them.
    - User databases: requests reach only the databases they name, names stay unique, a statement
      runs on the connection of its own database, which is to its own file as long as no statement attaches others.
    - Configuration: a generated identifier is kept; edits need the super token, are all or nothing
      and are what the reload takes.
    - Agent: nothing but the identity request is written to an unverified peer; every task of a connected
      server is answered once and in time, and the answer settles the row the server created; the
      pool is bounded and fair; command output is valid text, marked where its middle is cut; summaries
      fit their columns and are the totals of what counts.
    - HTTP: answers are whole files of the bucket asked for; file methods act within the
      buckets the caller has permissions for; a worker route runs its own worker on a
      request whose peer address cannot be forged.
    - Reports and log: reports go out on schedule; the log keeps the last entries, and its
      streams deliver what their filter asks for, to the super token only.
    - Audit: calls of scripts are counted under the worker their thread runs, in bounded memory, and
      reported at known intervals; the record is out of their reach and the switch follows the policy.
    - TimescaleDB: set-up follows the configuration whatever fails, deletion stops when it is switched
      off, and set-up is idempotent.  Updates: only a wanted release of the own platform is
      installed, and the running program is never lost.
    - Agent, network tasks and terminals: a result is the answer byte for byte within its limit; a
      terminal passes output and what is typed in order and unchanged while it runs, one session at a time.

    Further theorems document defects: a granted pattern with two stars allows wildcard reads
    beyond its exact reads; [create] accepts namespace names no other method accepts; a
    soft deletion racing with a registration leaves the UUID cache out of step; a permission for a
    bucket name with blanks around it reaches the bucket of the trimmed name; deleting a
    static bucket destroys the files of buckets nested in its directory; on SQLite the
    query by task type misses the types without arguments; the late end of an old terminal
    connection removes the session of its successor; overlapping requests can run the
    wrong version of a script; racing edits of a job leave the scheduler with the
    superseded one; a job that has never run is skipped by a pass more than a second late;
    a static report dropped at a full queue is remembered as stored; two queued static
    rows with the same hash spoil the batch of all agents; deleted static rows are not
    stored again when they are reported again; a failed deletion of a user database is
    reported as done; a deletion during a renaming brings deleted data back; a failed
    identity check reconnects without any wait; an edit of the agent's configuration that
    was accepted can stop the agent; a failed update is reported as a success; the limit
    of HTTP requests is never reached; long output of a command loses its end without a mark;
    a disabled root bucket is still served, without the limit on its size; a directory is never
    answered with its page; WebDAV takes no password and can stay on an old directory; an interval of zero stops
    static reports; the count of log subscribers can fall behind; a failing query leaves a
    retention policy deleting that should be removed; a slow socket ends a terminal; a script
    hides its calls from the audit by escaping a letter of the method.

    ** Bounds and fuel

    Recursion is structural except for [chunks], whose fuel is the length of the list:
    each chunk takes at least one element, and [chunks_concat] shows nothing is left over.
    [purge_loop] counts down the 2000 rounds of the source, each of at most 500 rows, so
    a million rows are deleted per call; the theorems that claim a complete deletion
    assume no more than that and the ones on safety and termination assume nothing.  Queue
    sizes (32 events per agent session, 4096 messages per terminal direction) are those of
    the source.  The flush loop of a buffer is a step function; [work] bounds the steps it
    takes after its queue is closed.  The scheduler theorems name the time a pass takes ([busy]) and the
    lateness of a wake-up ([delay]) and bound the start of a job by their sum.

    ** Not modelled

    The WebDAV protocol and the recursive listing of static files, the JavaScript engine behind
    the pool, migrations, process set-up and restart, command
    lines, and on the agent the probes of the system, the ping tasks and TLS.  These are calls into the
    operating system, the network or other packages with little logic of their own.  In the modelled components:
    lock poisoning, the timers and shutdown handshakes of the background loops, web-socket
    upgrades, and the statistics refresh after a sweep.  Symbolic links on the disk are not
    modelled.  The TOML, UUID and JSON crates, SHA-256, SQLite and the fair semaphore of tokio are
    parameters with laws; what commands and updates do to the files of an agent is a parameter
    without laws. *)
From stdpp Require Import base strings gmap list numbers.
From Stdlib Require Import Lia ZArith Ascii.

Declare Scope ng_scope.
Delimit Scope ng_scope with ng.
Open Scope ng_scope.

#[global] Arguments String.append !_ _ / : simpl nomatch.

(** ** Results: Rust's [Result<T, E>] *)

Inductive result (E A : Type) : Type :=
| Ok (a : A)
| Err (e : E).
Arguments Ok {E A} a.
Arguments Err {E A} e.

#[global] Instance result_eq_dec {E A} `{EqDecision E, EqDecision A} :
  EqDecision (result E A).
Proof. solve_decision. Defined.

Definition map_err {E F A} (f : E -> F) (r : result E A) : result F A :=
  match r with Ok a => Ok a | Err e => Err (f e) end.

Definition ok_or {E A} (e : E) (o : option A) : result E A :=
  match o with Some a => Ok a | None => Err e end.

Definition rbind {E A B} (r : result E A) (k : A -> result E B) : result E B :=
  match r with Ok a => k a | Err e => Err e end.

(** The [?] operator of a pure computation. *)
Notation "'let?' x := r 'in' k" := (rbind r (fun x => k))
  (at level 10, x pattern, r at level 100, k at level 200) : ng_scope.

Definition is_ok {E A} (r : result E A) : bool :=
  match r with Ok _ => true | Err _ => false end.

(** ** Stateful fallible code

    An [async fn] that reads and writes shared state is a function from the
    state to the state it leaves behind and its result.  The state is kept when
    the computation fails: an early return does not undo earlier writes. *)

Definition M (S E A : Type) : Type := S -> S * result E A.

Definition mret {S E A} (a : A) : M S E A := fun s => (s, Ok a).
Definition mfail {S E A} (e : E) : M S E A := fun s => (s, Err e).
Definition mbind {S E A B} (m : M S E A) (k : A -> M S E B) : M S E B :=
  fun s => match m s with
           | (s', Ok a) => k a s'
           | (s', Err e) => (s', Err e)
           end.

Notation "'let!' x := m 'in' k" := (mbind m (fun x => k))
  (at level 10, x pattern, m at level 100, k at level 200) : ng_scope.

(** A pure result inside stateful code. *)
Definition lift {S E A} (r : result E A) : M S E A := fun s => (s, r).

(** Reading the state. *)
Definition asks {S E A} (f : S -> A) : M S E A := fun s => (s, Ok (f s)).

Lemma mbind_ok {S E A B} (m : M S E A) (k : A -> M S E B) s s2 b :
  mbind m k s = (s2, Ok b) <->
  exists s1 a, m s = (s1, Ok a) /\ k a s1 = (s2, Ok b).
Proof.
  unfold mbind. destruct (m s) as [s' [a|e]]; split; try naive_solver.
Qed.

(** One step of a run. *)
Lemma mbind_run {S E A B} (m : M S E A) (k : A -> M S E B) s :
  mbind m k s = match m s with (s', Ok a) => k a s' | (s', Err e) => (s', Err e) end.
Proof. done. Qed.

Lemma mbind_lift {S E A B} (r : result E A) (k : A -> M S E B) s :
  mbind (lift r) k s = match r with Ok a => k a s | Err e => (s, Err e) end.
Proof. unfold mbind, lift. by destruct r. Qed.

Lemma mbind_asks {S E A B} (f : S -> A) (k : A -> M S E B) s : mbind (asks f) k s = k (f s) s.
Proof. done. Qed.

Lemma rbind_ok {E A B} (r : result E A) (k : A -> result E B) b :
  rbind r k = Ok b <-> exists a, r = Ok a /\ k a = Ok b.
Proof. unfold rbind. destruct r; naive_solver. Qed.

Lemma ok_or_ok {E A} (e : E) (o : option A) a :
  ok_or e o = Ok a <-> o = Some a.
Proof. unfold ok_or. destruct o; naive_solver. Qed.

Lemma map_err_ok {E F A} (f : E -> F) (r : result E A) a :
  map_err f r = Ok a <-> r = Ok a.
Proof. unfold map_err. destruct r; naive_solver. Qed.

(** ** Automation *)

Create HintDb nodeget.
#[export] Hint Constants Transparent : nodeget.

(** Turn hypotheses [computation = Ok v] into what each of their steps did. *)
Ltac inv_ok :=
  repeat match goal with
  | H : mbind _ _ _ = (_, Ok _) |- _ => apply mbind_ok in H as (? & ? & ? & ?)
  | H : rbind _ _ = Ok _ |- _ => apply rbind_ok in H as (? & ? & ?)
  | H : ok_or _ _ = Ok _ |- _ => apply ok_or_ok in H
  | H : map_err _ _ = Ok _ |- _ => apply map_err_ok in H
  | H : lift _ _ = (_, Ok _) |- _ => unfold lift in H
  | H : mret _ _ = (_, Ok _) |- _ => unfold mret in H
  | H : mfail _ _ = (_, Ok _) |- _ => unfold mfail in H
  | H : asks _ _ = (_, Ok _) |- _ => unfold asks in H
  | H : (_, _) = (_, _) |- _ => injection H; clear H; intros; subst
  | H : Ok _ = Ok _ |- _ => injection H; clear H; intros; subst
  | H : Err _ = Ok _ |- _ => discriminate H
  | H : Ok _ = Err _ |- _ => discriminate H
  | H : false = true |- _ => discriminate H
  | H : true = false |- _ => discriminate H
  end.

(** The same through the guards of the code: an early error return contradicts success. *)
Ltac inv_guards :=
  inv_ok;
  repeat (match goal with
          | H : (if ?b then _ else _) _ = (_, Ok _) |- _ =>
              destruct b eqn:?; [try discriminate H|try discriminate H]
          | H : (if ?b then _ else _) = Ok _ |- _ =>
              destruct b eqn:?; [try discriminate H|try discriminate H]
          end; inv_ok).

(** ** Invariants of stateful code *)

(** Whether it succeeds or fails, [m] leads from [P] states to [P] states. *)
Definition preserves {S E A} (P : S -> Prop) (m : M S E A) : Prop :=
  forall s, P s -> P (fst (m s)).

Lemma preserves_bind {S E A B} (P : S -> Prop) (m : M S E A) (k : A -> M S E B) :
  preserves P m -> (forall a, preserves P (k a)) -> preserves P (mbind m k).
Proof.
  intros Hm Hk s Hs. specialize (Hm s Hs). unfold mbind.
  destruct (m s) as [s' [a|e]]; simpl in *; [by apply Hk|done].
Qed.

Lemma preserves_ret {S E A} (P : S -> Prop) (a : A) : preserves P (mret (E := E) a).
Proof. by intros s Hs. Qed.

Lemma preserves_lift {S E A} (P : S -> Prop) (r : result E A) : preserves P (lift r).
Proof. by intros s Hs. Qed.

Lemma preserves_asks {S E A} (P : S -> Prop) (f : S -> A) : preserves P (asks (E := E) f).
Proof. by intros s Hs. Qed.

#[export] Hint Resolve preserves_bind preserves_ret preserves_lift preserves_asks : nodeget.

(** Walk through the steps of a computation, splitting its branches. *)
Ltac preserve :=
  repeat match goal with
  | |- preserves _ (mbind _ _) => apply preserves_bind; [|intros ?]
  | |- preserves _ (match ?x with _ => _ end) => destruct x
  | |- preserves _ _ => solve [eauto with nodeget]
  end.

(** ** Strings

    A Rust [str] is its UTF-8 bytes; a Rocq [string] is a sequence of 8-bit
    characters, one per byte.  The searched characters below ([:], [|], [*],
    [_], ...) are ASCII, so searching characters and searching bytes agree. *)

Fixpoint contains_char (c : ascii) (s : string) : bool :=
  match s with
  | EmptyString => false
  | String d s' => Ascii.eqb c d || contains_char c s'
  end.

(** [str::split_once(c)]: the parts before and after the first [c]. *)
Fixpoint split_once (c : ascii) (s : string) : option (string * string) :=
  match s with
  | EmptyString => None
  | String d s' =>
      if Ascii.eqb c d then Some (EmptyString, s')
      else match split_once c s' with
           | Some (a, b) => Some (String d a, b)
           | None => None
           end
  end.

(** [str::strip_suffix(c)] for a character. *)
Fixpoint strip_suffix (c : ascii) (s : string) : option string :=
  match s with
  | EmptyString => None
  | String d EmptyString => if Ascii.eqb c d then Some EmptyString else None
  | String d s' =>
      match strip_suffix c s' with
      | Some p => Some (String d p)
      | None => None
      end
  end.

(** [str::starts_with(prefix)]. *)
Definition starts_with (s p : string) : bool := String.prefix p s.

Fixpoint count_char (c : ascii) (s : string) : nat :=
  match s with
  | EmptyString => 0
  | String d s' => (if Ascii.eqb c d then 1 else 0) + count_char c s'
  end.

Definition str_is_empty (s : string) : bool :=
  match s with EmptyString => true | _ => false end.

(** The byte values of a string, as [str::as_bytes] gives them. *)
Definition byte_of (c : ascii) : Z := Z.of_N (N_of_ascii c).
Fixpoint as_bytes (s : string) : list Z :=
  match s with
  | EmptyString => []
  | String c s' => byte_of c :: as_bytes s'
  end.

Lemma string_app_nil_r (s : string) : s +:+ EmptyString = s.
Proof. induction s; simpl; congruence. Qed.

Lemma string_app_assoc (a b c : string) : (a +:+ b) +:+ c = a +:+ (b +:+ c).
Proof. induction a; simpl; congruence. Qed.

Lemma string_length_app (a b : string) :
  String.length (a +:+ b) = String.length a + String.length b.
Proof. induction a; simpl; congruence. Qed.

Lemma contains_char_app c a b :
  contains_char c (a +:+ b) = contains_char c a || contains_char c b.
Proof. induction a as [|d a IH]; simpl; [done|]. by rewrite IH, orb_assoc. Qed.

Lemma count_char_app c a b :
  count_char c (a +:+ b) = count_char c a + count_char c b.
Proof. induction a as [|d a IH]; simpl; [done|]. rewrite IH. lia. Qed.

Lemma contains_char_count c s : contains_char c s = negb (count_char c s =? 0)%nat.
Proof.
  induction s as [|d s IH]; simpl; [done|].
  destruct (Ascii.eqb c d); simpl; [done|]. exact IH.
Qed.

Lemma split_once_None c s : split_once c s = None <-> contains_char c s = false.
Proof.
  induction s as [|d s IH]; simpl; [done|].
  destruct (Ascii.eqb c d); simpl; [done|].
  rewrite <-IH. destruct (split_once c s) as [[]|]; done.
Qed.

Lemma split_once_app c a b :
  contains_char c a = false -> split_once c (a +:+ String c b) = Some (a, b).
Proof.
  induction a as [|e a IH]; simpl; [by rewrite Ascii.eqb_refl|].
  intros [-> H]%orb_false_iff. by rewrite (IH H).
Qed.

Lemma split_once_Some c s a b :
  split_once c s = Some (a, b) <-> s = a +:+ String c b /\ contains_char c a = false.
Proof.
  split; [|intros [-> H]; by apply split_once_app].
  revert a b. induction s as [|d s IH]; intros a b H; simpl in H; [done|].
  destruct (Ascii.eqb c d) eqn:E.
  - apply Ascii.eqb_eq in E as ->. by simplify_eq/=.
  - destruct (split_once c s) as [[a' b']|]; [|done].
    destruct (IH a' b' eq_refl) as [-> Hc]. injection H as <- <-. simpl. by rewrite E, Hc.
Qed.

Lemma strip_suffix_Some c s p : strip_suffix c s = Some p <-> s = p +:+ String c EmptyString.
Proof.
  revert p. induction s as [|d s IH]; intros p.
  { simpl. split; [done|]. by destruct p. }
  destruct s as [|e s].
  - simpl. destruct (Ascii.eqb_spec c d) as [->|Hne].
    + split; [intros [= <-]; done|]. destruct p as [|? [|??]]; naive_solver.
    + split; [done|]. destruct p as [|? [|??]]; naive_solver.
  - change (strip_suffix c (String d (String e s)))
      with (match strip_suffix c (String e s) with
            | Some p => Some (String d p) | None => None end).
    destruct (strip_suffix c (String e s)) as [q|] eqn:E.
    + destruct (IH q) as [IHq _]. specialize (IHq eq_refl).
      split; [intros [= <-]; simpl; by rewrite IHq|].
      intros H. destruct p as [|f p]; [done|]. injection H as -> H.
      destruct (IH p) as [_ IHp]. specialize (IHp H). congruence.
    + split; [done|]. intros H. destruct p as [|f p]; [done|]. injection H as -> H.
      destruct (IH p) as [_ IHp]. by specialize (IHp H).
Qed.

Lemma strip_suffix_snoc c p : strip_suffix c (p +:+ String c EmptyString) = Some p.
Proof. by apply strip_suffix_Some. Qed.

Lemma starts_with_spec s p : starts_with s p = true <-> exists t, s = p +:+ t.
Proof.
  unfold starts_with. revert s. induction p as [|c p IH]; intros s; simpl.
  { split; [intros _; by exists s|]. by destruct s. }
  destruct s as [|d s]; simpl.
  { split; [done|]. by intros [t ?]. }
  destruct (ascii_dec c d) as [->|Hne].
  - rewrite IH. split; intros [t Ht]; exists t; congruence.
  - split; [done|]. intros [t Ht]. congruence.
Qed.

Lemma starts_with_refl s : starts_with s s = true.
Proof. apply starts_with_spec. exists EmptyString. by rewrite string_app_nil_r. Qed.

Lemma starts_with_trans s p q :
  starts_with s p = true -> starts_with p q = true -> starts_with s q = true.
Proof.
  rewrite !starts_with_spec. intros [t ->] [u ->]. exists (u +:+ t).
  by rewrite string_app_assoc.
Qed.

#[export] Hint Resolve starts_with_refl : nodeget.

(** [s.trim().is_empty()]: [s] is a sequence of Unicode white space characters,
    in their UTF-8 encodings (1, 2 or 3 bytes long). *)
Definition ws1 (a : Z) : bool := ((9 <=? a) && (a <=? 13) || (a =? 32))%Z.
Definition ws2 (a b : Z) : bool := ((a =? 0xC2) && ((b =? 0x85) || (b =? 0xA0)))%Z.
Definition ws3 (a b c : Z) : bool :=
  ((a =? 0xE1) && (b =? 0x9A) && (c =? 0x80)
   || (a =? 0xE2) && (b =? 0x80)
      && ((0x80 <=? c) && (c <=? 0x8A) || (c =? 0xA8) || (c =? 0xA9) || (c =? 0xAF))
   || (a =? 0xE2) && (b =? 0x81) && (c =? 0x9F)
   || (a =? 0xE3) && (b =? 0x80) && (c =? 0x80))%Z.
Fixpoint all_whitespace (bs : list Z) : bool :=
  match bs with
  | [] => true
  | a :: bs1 =>
      if ws1 a then all_whitespace bs1
      else match bs1 with
           | b :: bs2 =>
               if ws2 a b then all_whitespace bs2
               else match bs2 with
                    | c :: bs3 => if ws3 a b c then all_whitespace bs3 else false
                    | [] => false
                    end
           | [] => false
           end
  end.
Definition trim_is_empty (s : string) : bool := all_whitespace (as_bytes s).

(** [str::trim]: white space at both ends goes, in its UTF-8 encodings; the end is read backwards. *)
Fixpoint trim_front (s : list ascii) : list ascii :=
  match s with
  | a :: s1 =>
      if ws1 (byte_of a) then trim_front s1
      else match s1 with
           | b :: s2 =>
               if ws2 (byte_of a) (byte_of b) then trim_front s2
               else match s2 with
                    | c :: s3 =>
                        if ws3 (byte_of a) (byte_of b) (byte_of c) then trim_front s3 else s
                    | [] => s
                    end
           | [] => s
           end
  | [] => []
  end.

Fixpoint trim_back (r : list ascii) : list ascii :=
  match r with
  | c :: r1 =>
      if ws1 (byte_of c) then trim_back r1
      else match r1 with
           | b :: r2 =>
               if ws2 (byte_of b) (byte_of c) then trim_back r2
               else match r2 with
                    | a :: r3 =>
                        if ws3 (byte_of a) (byte_of b) (byte_of c) then trim_back r3 else r
                    | [] => r
                    end
           | [] => r
           end
  | [] => []
  end.

Definition trim (s : string) : string :=
  String.string_of_list_ascii (rev (trim_back (rev (trim_front (String.list_ascii_of_string s))))).

Example trim_ex : trim "	 a b 
" = "a b".
Proof. reflexivity. Qed.

(** [str::strip_prefix]. *)
Fixpoint strip_prefix (p s : string) : option string :=
  match p, s with
  | EmptyString, _ => Some s
  | String c p', String d s' => if Ascii.eqb c d then strip_prefix p' s' else None
  | String _ _, EmptyString => None
  end.

(** Decimal digits, most significant first. *)
Fixpoint parse_digits (acc : Z) (l : list ascii) : option Z :=
  match l with
  | [] => Some acc
  | c :: l' =>
      let d := (byte_of c - 48)%Z in
      if ((0 <=? d) && (d <=? 9))%Z then parse_digits (acc * 10 + d)%Z l' else None
  end.

(** ** Machine integers

    A [w]-bit integer is its value in [Z]; the operations that can leave the
    range write their wrap-around or saturation out. *)

Definition i16_min : Z := -32768.
Definition i16_max : Z := 32767.
Definition i32_max : Z := 2147483647.
Definition i32_min : Z := -2147483648.
Definition i64_min : Z := -9223372036854775808.
Definition i64_max : Z := 9223372036854775807.
Definition u32_max : Z := 4294967295.
Definition u64_max : Z := 18446744073709551615.

Definition in_i16 (z : Z) : Prop := (i16_min <= z <= i16_max)%Z.
Definition in_i32 (z : Z) : Prop := (i32_min <= z <= i32_max)%Z.
Definition in_i64 (z : Z) : Prop := (i64_min <= z <= i64_max)%Z.
Definition in_u32 (z : Z) : Prop := (0 <= z <= u32_max)%Z.
Definition in_u64 (z : Z) : Prop := (0 <= z <= u64_max)%Z.

(** [i64::saturating_add], [u64::saturating_add], [u64::saturating_sub],
    [u64::saturating_mul]. *)
Definition sat_add_i64 (a b : Z) : Z := Z.max i64_min (Z.min i64_max (a + b)).
Definition sat_add_u64 (a b : Z) : Z := Z.min u64_max (a + b).
Definition sat_sub_u64 (a b : Z) : Z := Z.max 0 (a - b).
Definition sat_mul_u64 (a b : Z) : Z := Z.min u64_max (a * b).

(** Two's-complement reinterpretation: [cast_signed], [cast_unsigned]. *)
Definition cast_signed64 (z : Z) : Z :=
  if (z <=? i64_max)%Z then z else (z - 18446744073709551616)%Z.
Definition cast_unsigned64 (z : Z) : Z :=
  if (0 <=? z)%Z then z else (z + 18446744073709551616)%Z.
Definition cast_signed32 (z : Z) : Z :=
  if (z <=? i32_max)%Z then z else (z - 4294967296)%Z.
Definition cast_unsigned32 (z : Z) : Z :=
  if (0 <=? z)%Z then z else (z + 4294967296)%Z.

(** [a - b] on [i64] with overflow checks off, as the shipped profiles build it. *)
Definition wrapping_sub_i64 (a b : Z) : Z := cast_signed64 ((a - b) mod 18446744073709551616).

(** [i16::try_from(i32)]. *)
Definition i16_try_from (z : Z) : option Z :=
  if ((i16_min <=? z) && (z <=? i16_max))%Z then Some z else None.

(** Unfold the integer ranges, then decide with [lia]. *)
(** [str::parse::<i64>()]: an optional sign and at least one digit, in range.  The value
    read so far only grows in magnitude, so the final value is in range exactly when no
    intermediate one overflows. *)
Definition parse_i64 (s : string) : option Z :=
  let in_range z := if ((i64_min <=? z) && (z <=? i64_max))%Z then Some z else None in
  match String.list_ascii_of_string s with
  | [] => None
  | c :: l =>
      if Ascii.eqb c "-" then
        match l with [] => None | _ => z ← parse_digits 0 l; in_range (- z)%Z end
      else if Ascii.eqb c "+" then
        match l with [] => None | _ => z ← parse_digits 0 l; in_range z end
      else z ← parse_digits 0 (c :: l); in_range z
  end.

Example parse_i64_ex :
  map parse_i64 ["604800000"; "-7"; "+0"; "-"; ""; "1e3"; "9223372036854775808"; "-9223372036854775808"] =
  [Some 604800000; Some (-7); Some 0; None; None; None; None; Some i64_min]%Z.
Proof. reflexivity. Qed.

Ltac int_lia :=
  unfold in_i16, in_i32, in_i64, in_u32, in_u64, sat_add_i64, sat_add_u64, sat_sub_u64,
    sat_mul_u64, i16_min, i16_max, i32_min, i32_max, i64_min, i64_max, u32_max, u64_max in *;
  lia.

Lemma cast_signed_unsigned64 z : in_i64 z -> cast_signed64 (cast_unsigned64 z) = z.
Proof.
  intros H. unfold cast_signed64, cast_unsigned64.
  repeat (case_match; rewrite ?Z.leb_le, ?Z.leb_gt in *); int_lia.
Qed.

Lemma cast_unsigned_signed64 z : in_u64 z -> cast_unsigned64 (cast_signed64 z) = z.
Proof.
  intros H. unfold cast_signed64, cast_unsigned64.
  repeat (case_match; rewrite ?Z.leb_le, ?Z.leb_gt in *); int_lia.
Qed.

Lemma cast_unsigned_signed32 z : in_u32 z -> cast_unsigned32 (cast_signed32 z) = z.
Proof.
  intros H. unfold cast_signed32, cast_unsigned32.
  repeat (case_match; rewrite ?Z.leb_le, ?Z.leb_gt in *); int_lia.
Qed.

Lemma i16_try_from_Some z i : i16_try_from z = Some i <-> i = z /\ in_i16 z.
Proof.
  unfold i16_try_from. case_match eqn:E; rewrite ?andb_true_iff, ?andb_false_iff,
    ?Z.leb_le, ?Z.leb_gt in E; int_lia || (split; [naive_solver|int_lia]) ||
    (split; [intros [= <-]; int_lia|intros [-> ?]; done]).
Qed.

(** ** Hash maps

    A [HashMap] is a finite map; the order in which it iterates is unspecified, but every
    entry comes exactly once. *)
Class HashOrder : Type := {
  hash_iter : forall (K A : Type) (eqK : EqDecision K) (cK : Countable K), gmap K A -> list (K * A);
  hash_iter_perm : forall K A eqK cK (m : gmap K A), hash_iter K A eqK cK m ≡ₚ map_to_list m;
}.
Arguments hash_iter {_ K A _ _} m.

Lemma hash_iter_elem `{HashOrder} {K A} `{Countable K} (m : gmap K A) k v :
  (k, v) ∈ hash_iter m <-> m !! k = Some v.
Proof. rewrite hash_iter_perm. apply elem_of_map_to_list. Qed.

Lemma hash_iter_keys_NoDup `{HashOrder} {K A} `{Countable K} (m : gmap K A) :
  NoDup (hash_iter m).*1.
Proof. rewrite hash_iter_perm. apply NoDup_fst_map_to_list. Qed.

(** Iteration in the order of the model's own representation. *)
Definition list_order : HashOrder := {|
  hash_iter K A _ _ m := map_to_list m; hash_iter_perm K A _ _ m := Permutation_refl _ |}.

Lemma list_filter_elem {A} (p : A -> bool) l x : x ∈ List.filter p l <-> x ∈ l /\ p x = true.
Proof. rewrite !list_elem_of_In. apply filter_In. Qed.
