(* ===== verification/Errors.v ===== *)
(** * Errors, the RPC error object and the server clock

    [ng-core/src/error.rs] (the error enum, its [Display] texts and numeric
    codes), [ng-db/src/rpc/mod.rs] ([to_rpc_error]) and the clock of
    [ng-core/src/utils/mod.rs]. *)
From stdpp Require Import base strings list numbers.
From S2P Require Import Prelude.

Inductive NodegetError : Type :=
| ParseError (m : string)
| InvalidInput (m : string)
| PermissionDenied (m : string)
| DatabaseError (m : string)
| AgentConnectionError (m : string)
| AgentOffline (m : string)
| NotFound (m : string)
| UuidNotFound (m : string)
| ConfigNotFound (m : string)
| SerializationError (m : string)
| IoError (m : string)
| Other (m : string).

#[global] Instance NodegetError_eq_dec : EqDecision NodegetError.
Proof. solve_decision. Defined.

(** The [#[error("...")]] texts of the enum. *)
Definition display (e : NodegetError) : string :=
  match e with
  | ParseError m => "Parse error: " +:+ m
  | InvalidInput m => "Invalid input: " +:+ m
  | PermissionDenied m => "Permission denied: " +:+ m
  | DatabaseError m => "Database error: " +:+ m
  | AgentConnectionError m => "Unable to connect agent: " +:+ m
  | AgentOffline m => m
  | NotFound m => "Not found in database: " +:+ m
  | UuidNotFound m => "UUID not found: " +:+ m
  | ConfigNotFound m => "Config not found: " +:+ m
  | SerializationError m => "Serialization error: " +:+ m
  | IoError m => "IO error: " +:+ m
  | Other m => "Other error: " +:+ m
  end.

Definition error_code (e : NodegetError) : Z :=
  match e with
  | InvalidInput _ => 108
  | PermissionDenied _ => 102
  | DatabaseError _ => 103
  | AgentConnectionError _ => 104
  | NotFound _ => 105
  | UuidNotFound _ => 106
  | ConfigNotFound _ => 107
  | AgentOffline _ => 109
  | Other _ => 999
  | ParseError _ | SerializationError _ | IoError _ => 101
  end.

Record JsonError : Type := { error_id : Z; error_message : string }.

Definition to_json_error (e : NodegetError) : JsonError :=
  {| error_id := error_code e; error_message := display e |}.

(** An [anyhow::Error]: a [NodegetError] it can be downcast to, or any other
    error, of which only the text is observable. *)
Inductive anyhow : Type :=
| OfNodeget (e : NodegetError)
| OfText (m : string).

#[global] Instance anyhow_eq_dec : EqDecision anyhow.
Proof. solve_decision. Defined.

Definition anyhow_display (e : anyhow) : string :=
  match e with OfNodeget e => display e | OfText m => m end.

Definition anyhow_to_nodeget_error (e : anyhow) : NodegetError :=
  match e with
  | OfNodeget e => e
  | OfText m => Other m
  end.

(** jsonrpsee's [ErrorObject]: the code (an [i32]) and the message. *)
Record ErrorObject : Type := { code : Z; message : string }.

(** [as i32] on an [i128]: keep the low 32 bits, two's complement. *)
Definition as_i32 (z : Z) : Z := cast_signed32 (z mod 4294967296).

Definition to_rpc_error (e : anyhow) : ErrorObject :=
  let nodeget_err := anyhow_to_nodeget_error e in
  {| code := as_i32 (error_code nodeget_err); message := display nodeget_err |}.

(** The end of every RPC method: [match process_logic.await]. *)
Definition rpc_result {A} (r : result anyhow A) : result ErrorObject A :=
  map_err to_rpc_error r.

(** Shorthands for the two ways an error becomes an [anyhow::Error]. *)
Definition fail_with {A} (e : NodegetError) : result anyhow A := Err (OfNodeget e).
Definition denied {A} (m : string) : result anyhow A := fail_with (PermissionDenied m).

(** [.map_err(|e| NodegetError::PermissionDenied(format!("{e}")))?]. *)
Definition to_denied (e : anyhow) : anyhow := OfNodeget (PermissionDenied (anyhow_display e)).

(** [RpcHelper::try_set_json], given what [to_value] returned. *)
Definition try_set_json {A} (to_value : result string A) : result anyhow A :=
  map_err (fun e => OfNodeget (SerializationError ("Serialization error: " +:+ e))) to_value.

(** ** The clock

    What the operating system and the NTP task supply: the time since the epoch
    in milliseconds (or the text of the system-time error), and the signed
    correction stored in [NTP_OFFSET_MS]. *)
Record Clock : Type := { since_epoch_ms : result string Z; NTP_OFFSET_MS : Z }.

Definition int_conversion_msg : string :=
  "Timestamp conversion error: out of range integral type conversion attempted".

Definition get_local_timestamp_ms (c : Clock) : result anyhow Z :=
  let? duration := map_err (fun e => OfNodeget (Other ("System time error: " +:+ e)))
                     (since_epoch_ms c) in
  let? millis0 := if (duration <=? i64_max)%Z then Ok duration
                  else fail_with (Other int_conversion_msg) in
  let millis := sat_add_i64 millis0 (NTP_OFFSET_MS c) in
  if (millis <? 0)%Z
  then fail_with (Other "Timestamp underflow after NTP offset")
  else if (millis <=? u64_max)%Z then Ok millis
  else fail_with (Other int_conversion_msg).

Definition get_local_timestamp_ms_i64 (c : Clock) : result anyhow Z :=
  let? ts := get_local_timestamp_ms c in
  if (ts <=? i64_max)%Z then Ok ts else fail_with (Other int_conversion_msg).

(** ** Properties *)

(** A non-negative duration: what [SystemTime::duration_since] can return. *)
Definition clock_wf (c : Clock) : Prop :=
  in_i64 (NTP_OFFSET_MS c) /\
  match since_epoch_ms c with Ok d => (0 <= d)%Z | Err _ => True end.

Lemma timestamp_range c t : get_local_timestamp_ms c = Ok t -> (0 <= t <= i64_max)%Z.
Proof.
  unfold get_local_timestamp_ms. intros H. inv_ok.
  repeat case_match; unfold fail_with in *; simplify_eq; inv_ok;
    rewrite ?Z.ltb_lt, ?Z.ltb_ge, ?Z.leb_le in *; int_lia.
Qed.

(** The signed variant adds no failure: whenever the unsigned timestamp is
    produced, it fits an [i64] and the conversion succeeds with the same value. *)
Lemma timestamp_i64_agrees c t :
  get_local_timestamp_ms c = Ok t -> get_local_timestamp_ms_i64 c = Ok t.
Proof.
  intros H. unfold get_local_timestamp_ms_i64. rewrite H. simpl.
  apply timestamp_range in H. by rewrite (proj2 (Z.leb_le _ _)) by lia.
Qed.
