(* ===== verification/Json.v ===== *)
(** * JSON values

    [serde_json::Value] as the sources use it.  Objects are serde_json's default
    map (a [BTreeMap], keys unique): an association list without duplicate keys.
    A number is an integer or a float (kept as its 64 bits). *)
From stdpp Require Import base strings list numbers.
From S2P Require Import Prelude.

Inductive JNumber : Type :=
| NumInt (z : Z)
| NumFloat (bits : Z).

Inductive Json : Type :=
| JNull
| JBool (b : bool)
| JNum (n : JNumber)
| JString (s : string)
| JArray (l : list Json)
| JObject (o : list (string * Json)).

Fixpoint assoc {A} (k : string) (o : list (string * A)) : option A :=
  match o with
  | [] => None
  | (k', v) :: o' => if String.eqb k k' then Some v else assoc k o'
  end.

(** [Value::get_mut(k)] followed by a write: replace the value stored at [k]. *)
Fixpoint assoc_alter {A} (f : A -> A) (k : string) (o : list (string * A)) :
  list (string * A) :=
  match o with
  | [] => []
  | (k', v) :: o' =>
      if String.eqb k k' then (k', f v) :: o' else (k', v) :: assoc_alter f k o'
  end.

(** [Map::insert]: overwrite the value of an existing key, add a new one. *)
Fixpoint assoc_insert {A} (k : string) (v : A) (o : list (string * A)) : list (string * A) :=
  match o with
  | [] => [(k, v)]
  | (k', v') :: o' =>
      if String.eqb k k' then (k', v) :: o' else (k', v') :: assoc_insert k v o'
  end.

Definition as_object (v : Json) : option (list (string * Json)) :=
  match v with JObject o => Some o | _ => None end.

Lemma assoc_alter_lookup {A} (f : A -> A) k k' o :
  assoc k' (assoc_alter f k o) =
  if String.eqb k k' then option_map f (assoc k' o) else assoc k' o.
Proof.
  induction o as [|[k1 v1] o IH]; simpl; [by case_match|].
  destruct (String.eqb_spec k k1) as [->|Hn]; simpl.
  - destruct (String.eqb_spec k' k1) as [->|Hn']; [by rewrite String.eqb_refl|].
    destruct (String.eqb_spec k1 k'); congruence.
  - destruct (String.eqb_spec k' k1) as [->|Hn']; [|exact IH].
    destruct (String.eqb_spec k k1); congruence.
Qed.

Lemma assoc_insert_lookup {A} k (v : A) k' o :
  assoc k' (assoc_insert k v o) = if String.eqb k k' then Some v else assoc k' o.
Proof.
  induction o as [|[k1 v1] o IH]; simpl.
  - destruct (String.eqb_spec k' k) as [->|]; [by rewrite String.eqb_refl|].
    destruct (String.eqb_spec k k'); congruence.
  - destruct (String.eqb_spec k k1) as [->|Hn]; simpl.
    + destruct (String.eqb_spec k' k1) as [->|Hn']; [by rewrite String.eqb_refl|].
      destruct (String.eqb_spec k1 k'); congruence.
    + destruct (String.eqb_spec k' k1) as [->|Hn']; [|exact IH].
      destruct (String.eqb_spec k k1); congruence.
Qed.
