(* ===== verification/Db.v ===== *)
(** * The database behind the server

    The sources reach PostgreSQL/SQLite through sea-orm, which is not part of the
    repository.  [TableOps] lists the statements they issue against one table and
    [TableLaws] the documented behaviour they rely on: a read does not change the
    table, a failed statement has no effect, a successful one has exactly the effect
    its SQL says, unique indexes are enforced, and a transaction is all or nothing.
    [ListTable] is a small table with scripted outages that satisfies the laws; it
    serves as the concrete table of the examples. *)
From stdpp Require Import base strings list numbers.
From S2P Require Import Prelude.

(** A [sea_orm::DbErr]: [sql_err()] tells unique-constraint violations apart. *)
Inductive DbErr : Type :=
| UniqueConstraintViolation (m : string)
| DbFailure (m : string).

Definition db_msg (e : DbErr) : string :=
  match e with UniqueConstraintViolation m => m | DbFailure m => m end.

Definition is_unique_violation (e : DbErr) : bool :=
  match e with UniqueConstraintViolation _ => true | DbFailure _ => false end.

Class TableOps (DB Row : Type) : Type := {
  rows : DB -> list Row;
  (** [Entity::find().filter(p).one(db)] *)
  find_one : (Row -> bool) -> M DB DbErr (option Row);
  (** [Entity::find().filter(p).all(db)] *)
  find_all : (Row -> bool) -> M DB DbErr (list Row);
  (** [Entity::insert(model).exec(db)], the primary key given *)
  insert : Row -> M DB DbErr unit;
  (** the same with the primary key left to the database; returns the key *)
  insert_auto : (Z -> Row) -> M DB DbErr Z;
  (** [Entity::insert_many(models).exec_with_returning(db)], the keys left to the database;
      returns the rows in the order of the models *)
  insert_many : list (Z -> Row) -> M DB DbErr (list Row);
  (** [INSERT ... ON CONFLICT (target) DO UPDATE]: [same] recognises the row the
      conflict target designates, [upd] is the update *)
  upsert : (Row -> bool) -> (Row -> Row) -> (Z -> Row) -> M DB DbErr unit;
  (** [active_model.update(db)]; returns the updated row *)
  update_one : (Row -> bool) -> (Row -> Row) -> M DB DbErr Row;
  (** [Entity::update_many().set(f).filter(p).exec(db)]; returns [rows_affected] *)
  update_many : (Row -> bool) -> (Row -> Row) -> M DB DbErr Z;
  (** [Entity::delete_many().filter(p).exec(db)]; returns [rows_affected] *)
  delete_many : (Row -> bool) -> M DB DbErr Z;
  (** [db.transaction(body)] *)
  transaction : forall A : Type, M DB DbErr A -> M DB DbErr A;
  (** [SELECT setval(pg_get_serial_sequence(...), MAX(id))]: moves the key generator *)
  advance_sequence : M DB DbErr unit;
  (** [db.get_database_backend() == DatabaseBackend::Postgres] *)
  is_postgres : DB -> bool;
}.
Arguments transaction {DB Row _ A} _.

(** No two rows of the table violate a unique index together. *)
Fixpoint unique_rows {Row} (conflict : Row -> Row -> bool) (l : list Row) : bool :=
  match l with
  | [] => true
  | r :: l' => forallb (fun r' => negb (conflict r r')) l' && unique_rows conflict l'
  end.

Definition update_if {Row} (p : Row -> bool) (f : Row -> Row) (r : Row) : Row :=
  if p r then f r else r.

Definition no_match {Row} (p : Row -> bool) (l : list Row) : Prop :=
  forall r, r ∈ l -> p r = false.

Class TableLaws {DB Row : Type} (ops : TableOps DB Row) (conflict : Row -> Row -> bool) : Prop := {
  conflict_sym : forall a b, conflict a b = conflict b a;
  find_one_rows : forall p d d' r, find_one p d = (d', r) -> rows d' = rows d;
  find_one_some : forall p d d' r, find_one p d = (d', Ok (Some r)) -> r ∈ rows d /\ p r = true;
  find_one_none : forall p d d', find_one p d = (d', Ok None) -> no_match p (rows d);
  find_all_rows : forall p d d' r, find_all p d = (d', r) -> rows d' = rows d;
  find_all_ok : forall p d d' l, find_all p d = (d', Ok l) -> l ≡ₚ List.filter p (rows d);
  insert_ok : forall x d d', insert x d = (d', Ok tt) ->
    rows d' ≡ₚ x :: rows d /\ no_match (conflict x) (rows d);
  insert_err : forall x d d' e, insert x d = (d', Err e) ->
    rows d' = rows d /\ (is_unique_violation e = true -> ~ no_match (conflict x) (rows d));
  insert_auto_ok : forall mk d d' i, insert_auto mk d = (d', Ok i) ->
    rows d' ≡ₚ mk i :: rows d /\ no_match (conflict (mk i)) (rows d);
  insert_auto_range : forall mk d d' i, insert_auto mk d = (d', Ok i) -> in_i64 i;
  insert_auto_err : forall mk d d' e, insert_auto mk d = (d', Err e) ->
    rows d' = rows d /\
    (is_unique_violation e = true -> exists i, ~ no_match (conflict (mk i)) (rows d));
  insert_many_ok : forall mks d d' l, insert_many mks d = (d', Ok l) ->
    rows d' ≡ₚ l ++ rows d /\ Forall2 (fun mk r => exists i, in_i64 i /\ r = mk i) mks l;
  insert_many_err : forall mks d d' e, insert_many mks d = (d', Err e) -> rows d' = rows d;
  insert_many_unique : forall mks d d' r, insert_many mks d = (d', r) ->
    unique_rows conflict (rows d) = true -> unique_rows conflict (rows d') = true;
  upsert_ok : forall same upd mk d d', upsert same upd mk d = (d', Ok tt) ->
    (no_match same (rows d) /\ exists i, rows d' ≡ₚ mk i :: rows d) \/
    (~ no_match same (rows d) /\ rows d' ≡ₚ map (update_if same upd) (rows d));
  upsert_err : forall same upd mk d d' e,
    upsert same upd mk d = (d', Err e) -> rows d' = rows d;
  update_one_ok : forall p f d d' r, update_one p f d = (d', Ok r) ->
    rows d' ≡ₚ map (update_if p f) (rows d) /\
    exists r0, r0 ∈ rows d /\ p r0 = true /\ r = f r0;
  update_one_err : forall p f d d' e, update_one p f d = (d', Err e) -> rows d' = rows d;
  update_many_ok : forall p f d d' n, update_many p f d = (d', Ok n) ->
    rows d' ≡ₚ map (update_if p f) (rows d) /\
    n = Z.of_nat (length (List.filter p (rows d)));
  update_many_err : forall p f d d' e, update_many p f d = (d', Err e) -> rows d' = rows d;
  delete_many_ok : forall p d d' n, delete_many p d = (d', Ok n) ->
    rows d' ≡ₚ List.filter (fun r => negb (p r)) (rows d) /\
    n = Z.of_nat (length (List.filter p (rows d)));
  delete_many_err : forall p d d' e, delete_many p d = (d', Err e) -> rows d' = rows d;
  transaction_ok : forall A (body : M DB DbErr A) d d' a,
    transaction body d = (d', Ok a) ->
    exists d1 d2, rows d1 = rows d /\ body d1 = (d2, Ok a) /\ rows d' = rows d2;
  transaction_err : forall A (body : M DB DbErr A) d d' e,
    transaction body d = (d', Err e) -> rows d' = rows d;
  advance_sequence_rows : forall d d' r, advance_sequence d = (d', r) -> rows d' = rows d;
  upsert_unique : forall same upd mk d d' r, upsert same upd mk d = (d', r) ->
    unique_rows conflict (rows d) = true -> unique_rows conflict (rows d') = true;
  update_unique : forall p f d d' r, update_one p f d = (d', r) ->
    unique_rows conflict (rows d) = true -> unique_rows conflict (rows d') = true;
  update_many_unique : forall p f d d' r, update_many p f d = (d', r) ->
    unique_rows conflict (rows d) = true -> unique_rows conflict (rows d') = true;
}.

(** Keys the database hands out itself ([AUTOINCREMENT], a PostgreSQL sequence): [issued] are
    those handed out so far.  No key is handed out twice, also not one whose row has been
    deleted since; reading, updating and deleting forget none. *)
Class KeyGenerator {DB Row : Type} (ops : TableOps DB Row) : Type := {
  issued : DB -> Z -> Prop;
  issued_insert_auto : forall mk d d' r, insert_auto mk d = (d', r) ->
    (forall i, issued d i -> issued d' i) /\ (forall i, r = Ok i -> ~ issued d i /\ issued d' i);
  issued_insert_many : forall mks d d' r, insert_many mks d = (d', r) ->
    (forall i, issued d i -> issued d' i) /\
    (forall l, r = Ok l -> Forall2 (fun mk x => exists i, in_i64 i /\ x = mk i /\ ~ issued d i /\ issued d' i) mks l);
  issued_find_one : forall p d d' r, find_one p d = (d', r) -> forall i, issued d i -> issued d' i;
  issued_find_all : forall p d d' r, find_all p d = (d', r) -> forall i, issued d i -> issued d' i;
  issued_update_many : forall p f d d' r, update_many p f d = (d', r) -> forall i, issued d i -> issued d' i;
  issued_delete_many : forall p d d' r, delete_many p d = (d', r) -> forall i, issued d i -> issued d' i;
}.

(** ** Consequences of the laws *)

#[global] Instance list_filter_perm {A} (f : A -> bool) :
  Proper ((≡ₚ) ==> (≡ₚ)) (List.filter f).
Proof.
  intros l l'. induction 1 as [|x l l' _ IH|x y l|l1 l2 l3 _ IH1 _ IH2]; simpl; auto.
  - destruct (f x); [by f_equiv|done].
  - destruct (f x), (f y); try done. constructor.
  - by etrans.
Qed.

Section unique.
Context {Row : Type} (conflict : Row -> Row -> bool).
Context (sym : forall a b, conflict a b = conflict b a).

Lemma unique_rows_cons r l :
  unique_rows conflict (r :: l) = true <-> no_match (conflict r) l /\ unique_rows conflict l = true.
Proof.
  simpl. rewrite andb_true_iff, forallb_forall. unfold no_match.
  setoid_rewrite negb_true_iff. setoid_rewrite list_elem_of_In. done.
Qed.

Lemma unique_rows_lookup l a b :
  unique_rows conflict l = true -> a ∈ l -> b ∈ l -> conflict a b = true -> a = b.
Proof using sym.
  induction l as [|r l IH]; [by intros _ ?%not_elem_of_nil|].
  rewrite unique_rows_cons. intros [Hr Hl] Ha Hb Hc.
  apply elem_of_cons in Ha as [->|Ha]; apply elem_of_cons in Hb as [->|Hb]; auto.
  - by rewrite (Hr _ Hb) in Hc.
  - rewrite sym in Hc. by rewrite (Hr _ Ha) in Hc.
Qed.

Lemma unique_rows_perm l l' :
  l ≡ₚ l' -> unique_rows conflict l = true -> unique_rows conflict l' = true.
Proof using sym.
  induction 1 as [|x l l' Hp IH|x y l|l1 l2 l3 _ IH1 _ IH2]; auto.
  - rewrite !unique_rows_cons. intros [Hx Hl]. split; [|auto].
    intros r Hr. apply Hx. by rewrite Hp.
  - rewrite !unique_rows_cons. unfold no_match. setoid_rewrite elem_of_cons.
    intros [Hx [Hy Hl]]. repeat split; auto. intros r [->|Hr]; auto.
    rewrite sym. auto.
Qed.

Lemma unique_rows_filter p l :
  unique_rows conflict l = true -> unique_rows conflict (List.filter p l) = true.
Proof.
  induction l as [|r l IH]; [done|]. rewrite unique_rows_cons. intros [Hr Hl]. simpl.
  destruct (p r); [|auto]. rewrite unique_rows_cons. split; [|auto].
  intros r' Hr'. apply Hr. apply list_elem_of_In in Hr'. apply filter_In in Hr' as [? _].
  by apply list_elem_of_In.
Qed.
End unique.

Section laws.
Context {DB Row : Type} {ops : TableOps DB Row} {conflict : Row -> Row -> bool}.
Context {laws : TableLaws ops conflict}.

Definition table_unique (d : DB) : Prop := unique_rows conflict (rows d) = true.

Lemma insert_unique x d d' r : insert x d = (d', r) -> table_unique d -> table_unique d'.
Proof using laws.
  unfold table_unique. destruct r as [[]|e]; intros H Hu.
  - apply insert_ok in H as [Hp Hn]. eapply unique_rows_perm; [apply conflict_sym|by symmetry|].
    by apply unique_rows_cons.
  - apply insert_err in H as [-> _]. done.
Qed.

Lemma insert_auto_unique mk d d' r :
  insert_auto mk d = (d', r) -> table_unique d -> table_unique d'.
Proof using laws.
  unfold table_unique. destruct r as [i|e]; intros H Hu.
  - apply insert_auto_ok in H as [Hp Hn].
    eapply unique_rows_perm; [apply conflict_sym|by symmetry|]. by apply unique_rows_cons.
  - apply insert_auto_err in H as [-> _]. done.
Qed.

Lemma delete_many_unique p d d' r :
  delete_many p d = (d', r) -> table_unique d -> table_unique d'.
Proof using laws.
  unfold table_unique. destruct r as [n|e]; intros H Hu.
  - apply delete_many_ok in H as [Hp _].
    eapply unique_rows_perm; [apply conflict_sym|by symmetry|]. by apply unique_rows_filter.
  - by rewrite (delete_many_err _ _ _ _ H).
Qed.

(** Two stored rows that a unique index identifies are the same row. *)
Lemma table_unique_eq d a b :
  table_unique d -> a ∈ rows d -> b ∈ rows d -> conflict a b = true -> a = b.
Proof using laws. apply unique_rows_lookup. apply conflict_sym. Qed.

(** The zero [rows_affected] test means that no row matched. *)
Lemma delete_many_count p d d' n :
  delete_many p d = (d', Ok n) -> ((0 <? n)%Z = false <-> no_match p (rows d)).
Proof using laws.
  intros [_ ->]%delete_many_ok. rewrite Z.ltb_ge. split.
  - intros Hn r Hr. destruct (p r) eqn:E; [|done]. exfalso.
    assert (In r (List.filter p (rows d))) as Hin
      by (apply filter_In; split; [by apply list_elem_of_In|done]).
    destruct (List.filter p (rows d)); [done|]. simpl in Hn. lia.
  - intros Hn. enough (List.filter p (rows d) = []) as -> by (simpl; lia).
    destruct (List.filter p (rows d)) as [|r l] eqn:E; [done|]. exfalso.
    assert (In r (List.filter p (rows d))) as Hin by (rewrite E; by left).
    apply filter_In in Hin as [Hin Hp]. rewrite Hn in Hp; [done|]. by apply list_elem_of_In.
Qed.
End laws.

(** ** A concrete table

    Its rows, the next key to hand out, and for each statement to come whether the
    connection is down when it runs. *)
Record ListTable (Row : Type) : Type := {
  tbl : list Row; next_id : Z; outages : list bool }.
Arguments tbl {Row}. Arguments next_id {Row}. Arguments outages {Row}.

Section list_table.
Context {Row : Type} (conflict : Row -> Row -> bool).
Context (sym : forall a b, conflict a b = conflict b a).

Definition with_tbl (t : ListTable Row) (l : list Row) (n : Z) : ListTable Row :=
  {| tbl := l; next_id := n; outages := tail (outages t) |}.

(** Run a statement unless the connection is down. *)
Definition stmt {A} (f : ListTable Row -> (list Row * Z) * result DbErr A) :
  M (ListTable Row) DbErr A :=
  fun t => match outages t with
           | true :: _ => (with_tbl t (tbl t) (next_id t), Err (DbFailure "connection lost"))
           | _ => let '((l, n), r) := f t in (with_tbl t l n, r)
           end.

Definition unique_msg : DbErr := UniqueConstraintViolation "unique constraint".

(** Replace the contents unless a unique index would be violated. *)
Definition checked {A} (t : ListTable Row) (l : list Row) (n : Z) (a : A) :
  (list Row * Z) * result DbErr A :=
  if unique_rows conflict l then ((l, n), Ok a) else ((tbl t, next_id t), Err unique_msg).

Definition lt_insert (x : Row) : M (ListTable Row) DbErr unit :=
  stmt (fun t => if existsb (conflict x) (tbl t)
                 then ((tbl t, next_id t), Err unique_msg)
                 else ((x :: tbl t, next_id t), Ok tt)).

Definition lt_insert_auto (mk : Z -> Row) : M (ListTable Row) DbErr Z :=
  stmt (fun t => if negb ((i64_min <=? next_id t) && (next_id t <=? i64_max))%Z
                 then ((tbl t, next_id t), Err (DbFailure "integer out of range")) else
                 if existsb (conflict (mk (next_id t))) (tbl t)
                 then ((tbl t, next_id t + 1)%Z, Err unique_msg)
                 else ((mk (next_id t) :: tbl t, next_id t + 1)%Z, Ok (next_id t))).

(** The keys of a batch are consecutive here; the laws do not say so. *)
Fixpoint apply_keys (mks : list (Z -> Row)) (n : Z) : list Row :=
  match mks with [] => [] | mk :: mks' => mk n :: apply_keys mks' (n + 1)%Z end.

Definition lt_insert_many (mks : list (Z -> Row)) : M (ListTable Row) DbErr (list Row) :=
  stmt (fun t =>
    let last := (next_id t + Z.of_nat (length mks))%Z in
    if negb ((i64_min <=? next_id t) && (last <=? i64_max))%Z
    then ((tbl t, next_id t), Err (DbFailure "integer out of range"))
    else checked t (apply_keys mks (next_id t) ++ tbl t) last (apply_keys mks (next_id t))).

Definition lt_upsert (same : Row -> bool) (upd : Row -> Row) (mk : Z -> Row) :
  M (ListTable Row) DbErr unit :=
  stmt (fun t => if existsb same (tbl t)
                 then checked t (map (update_if same upd) (tbl t)) (next_id t) tt
                 else checked t (mk (next_id t) :: tbl t) (next_id t + 1)%Z tt).

Definition lt_update_one (p : Row -> bool) (f : Row -> Row) : M (ListTable Row) DbErr Row :=
  stmt (fun t => match List.find p (tbl t) with
                 | Some r => checked t (map (update_if p f) (tbl t)) (next_id t) (f r)
                 | None => ((tbl t, next_id t), Err (DbFailure "record not updated"))
                 end).

Definition lt_update_many (p : Row -> bool) (f : Row -> Row) : M (ListTable Row) DbErr Z :=
  stmt (fun t => checked t (map (update_if p f) (tbl t)) (next_id t)
                   (Z.of_nat (length (List.filter p (tbl t))))).

Definition lt_transaction (A : Type) (body : M (ListTable Row) DbErr A) :
  M (ListTable Row) DbErr A :=
  fun t => match body t with
           | (t', Ok a) => (t', Ok a)
           | (t', Err e) =>
               ({| tbl := tbl t; next_id := next_id t'; outages := outages t' |}, Err e)
           end.

Definition ListTable_ops : TableOps (ListTable Row) Row := {|
  rows := tbl;
  find_one p := stmt (fun t => ((tbl t, next_id t), Ok (List.find p (tbl t))));
  find_all p := stmt (fun t => ((tbl t, next_id t), Ok (List.filter p (tbl t))));
  insert := lt_insert;
  insert_auto := lt_insert_auto;
  insert_many := lt_insert_many;
  upsert := lt_upsert;
  update_one := lt_update_one;
  update_many := lt_update_many;
  delete_many p := stmt (fun t =>
    ((List.filter (fun r => negb (p r)) (tbl t), next_id t),
     Ok (Z.of_nat (length (List.filter p (tbl t))))));
  transaction := lt_transaction;
  advance_sequence := stmt (fun t => ((tbl t, next_id t), Ok tt));
  is_postgres _ := false;
|}.

Lemma existsb_no_match (p : Row -> bool) l : existsb p l = false <-> no_match p l.
Proof.
  unfold no_match. induction l as [|r l IH]; simpl.
  - split; [by intros _ r ?%not_elem_of_nil|done].
  - rewrite orb_false_iff, IH. setoid_rewrite elem_of_cons. naive_solver.
Qed.

Lemma existsb_match (p : Row -> bool) l : existsb p l = true <-> ~ no_match p l.
Proof. rewrite <-existsb_no_match. by destruct (existsb p l). Qed.

Lemma stmt_inv {A} f (t t' : ListTable Row) (r : result DbErr A) :
  stmt f t = (t', r) ->
  (tbl t' = tbl t /\ r = Err (DbFailure "connection lost")) \/
  exists n, f t = ((tbl t', n), r).
Proof.
  unfold stmt, with_tbl. destruct (outages t) as [|[] ?].
  - destruct (f t) as [[tl n] r'] eqn:E. intros [= <- <-]. right. by exists n.
  - intros [= <- <-]. by left.
  - destruct (f t) as [[tl n] r'] eqn:E. intros [= <- <-]. right. by exists n.
Qed.
Lemma find_spec (p : Row -> bool) l :
  match List.find p l with
  | Some r => r ∈ l /\ p r = true
  | None => no_match p l
  end.
Proof.
  destruct (List.find p l) eqn:E.
  - apply find_some in E as [? ?]. by rewrite list_elem_of_In.
  - intros r Hr. apply (find_none p l E). by apply list_elem_of_In.
Qed.

(** Split a run of a statement of the concrete table into its cases. *)
Local Ltac run_stmt :=
  let H := fresh "Hrun" in
  let n := fresh "n" in
  intros H; apply stmt_inv in H as [[? ?]|[n H]]; [try discriminate; try done|].

Lemma lt_unique_checked {A} t l n (a : A) l' n' r :
  checked t l n a = ((l', n'), r) ->
  unique_rows conflict (tbl t) = true -> unique_rows conflict l' = true.
Proof. unfold checked. case_match; naive_solver. Qed.

Lemma lt_upsert_ok same upd mk (d d' : ListTable Row) :
  lt_upsert same upd mk d = (d', Ok tt) ->
  (no_match same (tbl d) /\ exists i, tbl d' ≡ₚ mk i :: tbl d) \/
  (~ no_match same (tbl d) /\ tbl d' ≡ₚ map (update_if same upd) (tbl d)).
Proof.
  unfold lt_upsert, checked. run_stmt. destruct (existsb same (tbl d)) eqn:E.
  - apply existsb_match in E. right. split; [done|].
    destruct (unique_rows _ _); [|done]. by injection Hrun as <- _.
  - apply existsb_no_match in E. left. split; [done|]. exists (next_id d).
    destruct (unique_rows _ _); [|done]. by injection Hrun as <- _.
Qed.

Lemma lt_update_one_ok p f (d d' : ListTable Row) r :
  lt_update_one p f d = (d', Ok r) ->
  tbl d' ≡ₚ map (update_if p f) (tbl d) /\ exists r0, r0 ∈ tbl d /\ p r0 = true /\ r = f r0.
Proof.
  unfold lt_update_one, checked. run_stmt.
  pose proof (find_spec p (tbl d)) as Hf. destruct (List.find p (tbl d)) as [r1|]; [|done].
  destruct (unique_rows _ _); [|done]. injection Hrun as <- _ <-.
  split; [done|]. exists r1. naive_solver.
Qed.

Lemma lt_insert_auto_spec mk (d d' : ListTable Row) r :
  lt_insert_auto mk d = (d', r) ->
  match r with
  | Ok i => tbl d' = mk i :: tbl d /\ no_match (conflict (mk i)) (tbl d) /\ in_i64 i
  | Err e => tbl d' = tbl d /\
      (is_unique_violation e = true -> exists i, ~ no_match (conflict (mk i)) (tbl d))
  end.
Proof.
  unfold lt_insert_auto. intros H. apply stmt_inv in H as [[? ->]|[n H]]; [done|].
  destruct (negb _) eqn:Er; [by injection H as <- _ <-|].
  case_match eqn:E; injection H as <- _ <-; split_and!; try done.
  - intros _. exists (next_id d). by apply existsb_match.
  - by apply existsb_no_match.
  - unfold in_i64. lia.
Qed.

Lemma apply_keys_spec (mks : list (Z -> Row)) : forall n,
  (i64_min <= n)%Z -> (n + Z.of_nat (length mks) <= i64_max)%Z ->
  Forall2 (fun mk r => exists i, in_i64 i /\ r = mk i) mks (apply_keys mks n).
Proof.
  induction mks as [|mk mks IH]; intros n H1 H2; simpl in *; constructor.
  - exists n. unfold in_i64. split; [lia|done].
  - apply IH; lia.
Qed.

Lemma lt_insert_many_spec mks (d d' : ListTable Row) r :
  lt_insert_many mks d = (d', r) ->
  match r with
  | Ok l => tbl d' = l ++ tbl d /\ unique_rows conflict (tbl d') = true /\
            Forall2 (fun mk x => exists i, in_i64 i /\ x = mk i) mks l
  | Err _ => tbl d' = tbl d
  end.
Proof.
  unfold lt_insert_many, checked. intros H. apply stmt_inv in H as [[? ->]|[n H]]; [done|].
  destruct (negb _) eqn:Er; [by injection H as <- _ <-|].
  destruct (unique_rows conflict _) eqn:E; injection H as <- _ <-; [|done].
  split_and!; [done|done|]. apply apply_keys_spec; lia.
Qed.

Lemma lt_insert_spec x (d d' : ListTable Row) r :
  lt_insert x d = (d', r) ->
  match r with
  | Ok _ => tbl d' = x :: tbl d /\ no_match (conflict x) (tbl d)
  | Err e => tbl d' = tbl d /\ (is_unique_violation e = true -> ~ no_match (conflict x) (tbl d))
  end.
Proof.
  unfold lt_insert. intros H. apply stmt_inv in H as [[? ->]|[n H]]; [done|].
  case_match eqn:E; injection H as <- _ <-; split; try done.
  - intros _. by apply existsb_match.
  - by apply existsb_no_match.
Qed.

Lemma ListTable_laws : TableLaws ListTable_ops conflict.
Proof using sym.
  split; simpl.
  - exact sym.
  - intros p d d' r. run_stmt. naive_solver.
  - intros p d d' r. run_stmt. pose proof (find_spec p (tbl d)) as Hf.
    injection Hrun as _ _ Hrun. by rewrite Hrun in Hf.
  - intros p d d'. run_stmt. pose proof (find_spec p (tbl d)) as Hf.
    injection Hrun as _ _ Hrun. by rewrite Hrun in Hf.
  - intros p d d' r. run_stmt. naive_solver.
  - intros p d d' l. run_stmt. by injection Hrun as _ _ <-.
  - intros x d d' H. apply lt_insert_spec in H as [-> ?]. done.
  - intros x d d' e H. by apply lt_insert_spec in H.
  - intros mk d d' i H. apply lt_insert_auto_spec in H as (-> & ? & _). done.
  - intros mk d d' i H. by apply lt_insert_auto_spec in H as (_ & _ & ?).
  - intros mk d d' e H. by apply lt_insert_auto_spec in H.
  - intros mks d d' l H. apply lt_insert_many_spec in H as (-> & _ & ?). done.
  - intros mks d d' e H. by apply lt_insert_many_spec in H.
  - intros mks d d' [l|e] H; apply lt_insert_many_spec in H; [by destruct H as (_ & ? & _)|by rewrite H].
  - apply lt_upsert_ok.
  - intros same upd mk d d' e. unfold lt_upsert, checked. run_stmt.
    repeat case_match; by simplify_eq.
  - apply lt_update_one_ok.
  - intros p f d d' e. unfold lt_update_one, checked. run_stmt.
    repeat case_match; by simplify_eq.
  - intros p f d d' k. unfold lt_update_many, checked. run_stmt. case_match; [|done]. by injection Hrun as <- _ <-.
  - intros p f d d' e. unfold lt_update_many, checked. run_stmt. case_match; by simplify_eq.
  - intros p d d' k. run_stmt. by injection Hrun as <- _ <-.
  - intros p d d' e. run_stmt. by simplify_eq.
  - intros A body d d' a. unfold lt_transaction. destruct (body d) as [t' [?|]] eqn:E;
      intros [= <- <-]. by exists d, t'.
  - intros A body d d' e. unfold lt_transaction. destruct (body d) as [t' [?|]] eqn:E; intros; by simplify_eq/=.
  - intros d d' r. run_stmt. naive_solver.
  - intros same upd mk d d' r H. unfold lt_upsert in H.
    apply stmt_inv in H as [[-> _]|[n H]]; [done|].
    case_match; by eapply lt_unique_checked.
  - intros p f d d' r H. unfold lt_update_one in H.
    apply stmt_inv in H as [[-> _]|[n H]]; [done|].
    case_match; [by eapply lt_unique_checked|by injection H as <- _ _].
  - intros p f d d' r H. unfold lt_update_many in H.
    apply stmt_inv in H as [[-> _]|[n H]]; [done|]. by eapply lt_unique_checked.
Qed.

(** The next key to hand out never goes back. *)
Lemma stmt_next {A} f (t t' : ListTable Row) (r : result DbErr A) :
  stmt f t = (t', r) ->
  (next_id t' = next_id t /\ r = Err (DbFailure "connection lost")) \/ f t = ((tbl t', next_id t'), r).
Proof.
  unfold stmt, with_tbl. destruct (outages t) as [|[] ?].
  - destruct (f t) as [[tl n] r'] eqn:E. intros [= <- <-]. by right.
  - intros [= <- <-]. by left.
  - destruct (f t) as [[tl n] r'] eqn:E. intros [= <- <-]. by right.
Qed.

Lemma apply_keys_fresh (mks : list (Z -> Row)) : forall n lo hi,
  (i64_min <= lo <= n)%Z -> (n + Z.of_nat (length mks) <= hi)%Z -> (hi <= i64_max)%Z ->
  Forall2 (fun mk r => exists i, in_i64 i /\ r = mk i /\ ~ (i < lo)%Z /\ (i < hi)%Z) mks (apply_keys mks n).
Proof.
  induction mks as [|mk mks IH]; intros n lo hi H1 H2 H3; simpl in *; constructor.
  - exists n. unfold in_i64. split_and!; [lia|lia|done|lia|lia].
  - apply IH; lia.
Qed.

#[refine] Instance ListTable_keys : KeyGenerator ListTable_ops := {| issued t i := (i < next_id t)%Z |}.
Proof.
  - intros mk d d' r H. apply stmt_next in H as [[-> ->]|H]; [by split|]. revert H.
    repeat case_match; intros [= _ <- <-]; (split; [intros; lia|]); intros i; [done|done|]. intros [= <-]. lia.
  - intros mks d d' r H. apply stmt_next in H as [[-> ->]|H]; [by split|]. revert H. unfold checked. cbv zeta.
    destruct (negb _) eqn:Er; [by intros [= _ <- <-]|].
    destruct (unique_rows _ _); intros [= _ Hn <-]; [|by rewrite Hn]. rewrite <-Hn. split; [intros; lia|]. intros l [= <-].
    apply apply_keys_fresh; lia.
  - intros p d d' r H. apply stmt_next in H as [[-> ->]|H]; [done|]. by injection H as _ <- _.
  - intros p d d' r H. apply stmt_next in H as [[-> ->]|H]; [done|]. by injection H as _ <- _.
  - intros p f d d' r H. apply stmt_next in H as [[-> ->]|H]; [done|]. revert H. unfold checked.
    case_match; by intros [= _ <- _].
  - intros p d d' r H. apply stmt_next in H as [[-> ->]|H]; [done|]. by injection H as _ <- _.
Defined.
End list_table.
