(* ===== verification/Permission.v ===== *)
(** * The permission model

    [ng-core/src/permission/data_structure.rs] (tokens, limits, scopes, permissions),
    [token_auth.rs] (credentials) and the pure matching rules of
    [ng-token/src/get.rs] ([wildcard_matches_pattern], [permission_matches],
    [scope_matches], [check_limits_cover]). *)
From stdpp Require Import base strings gmap list numbers.
From Stdlib Require Import Ascii.
From S2P Require Import Prelude Errors.

(** A [uuid::Uuid]: its 128-bit value. *)
Definition Uuid : Type := N.
#[global] Instance Uuid_eq_dec : EqDecision Uuid := N.eq_dec.
#[global] Instance Uuid_countable : Countable Uuid := N_countable.

Inductive StaticDataQueryField : Type := SField_Cpu | SField_System | SField_Gpu.
Inductive DynamicDataQueryField : Type :=
| DField_Cpu | DField_Ram | DField_Load | DField_System | DField_Disk | DField_Network | DField_Gpu.

Inductive Scope : Type :=
| Scope_Global
| Scope_AgentUuid (u : Uuid)
| Scope_KvNamespace (ns : string)
| Scope_JsWorker (name : string)
| Scope_StaticBucket (name : string)
| Scope_Db (name : string).

Inductive NodeGet : Type :=
| NodeGet_ListAllAgentUuid | NodeGet_GetRtPool | NodeGet_DeleteAgentUuid
| NodeGet_ExecSql | NodeGet_GetDatabaseType.
Inductive MonitoringUuid : Type := MonitoringUuid_List | MonitoringUuid_Delete.
Inductive StaticMonitoring : Type :=
| StaticMonitoring_Read (f : StaticDataQueryField)
| StaticMonitoring_Write | StaticMonitoring_Delete.
Inductive DynamicMonitoring : Type :=
| DynamicMonitoring_Read (f : DynamicDataQueryField)
| DynamicMonitoring_Write | DynamicMonitoring_Delete.
Inductive DynamicMonitoringSummary : Type :=
| Summary_Read | Summary_Write | Summary_Delete.
Inductive Task : Type :=
| Task_Create (n : string) | Task_Read (n : string) | Task_Write (n : string)
| Task_Delete (n : string) | Task_Listen.
Inductive Crontab : Type := Crontab_Read | Crontab_Write | Crontab_Delete.
Inductive CrontabResult : Type :=
| CrontabResult_Read (n : string) | CrontabResult_Delete (n : string).
Inductive Kv : Type :=
| Kv_ListAllNamespace | Kv_ListAllKeys
| Kv_Read (k : string) | Kv_Write (k : string) | Kv_Delete (k : string).
Inductive Terminal : Type := Terminal_Connect.
Inductive JsWorker : Type :=
| JsWorker_ListAllJsWorker | JsWorker_Create | JsWorker_Read | JsWorker_Write
| JsWorker_Delete | JsWorker_RunDefinedJsWorker | JsWorker_RunRawJsWorker.
Inductive JsResult : Type := JsResult_Read (n : string) | JsResult_Delete (n : string).
Inductive StaticBucket : Type :=
| StaticBucket_Read | StaticBucket_Write | StaticBucket_Delete.
Inductive StaticBucketFile : Type :=
| StaticBucketFile_Read | StaticBucketFile_Write | StaticBucketFile_Delete | StaticBucketFile_List.
Inductive DbPerm : Type :=
| Db_List | Db_Read | Db_Create | Db_Update | Db_Delete | Db_ExecSql.

Inductive Permission : Type :=
| P_StaticMonitoring (p : StaticMonitoring)
| P_DynamicMonitoring (p : DynamicMonitoring)
| P_Task (p : Task)
| P_Crontab (p : Crontab)
| P_CrontabResult (p : CrontabResult)
| P_Kv (p : Kv)
| P_Terminal (p : Terminal)
| P_NodeGet (p : NodeGet)
| P_MonitoringUuid (p : MonitoringUuid)
| P_JsWorker (p : JsWorker)
| P_JsResult (p : JsResult)
| P_DynamicMonitoringSummary (p : DynamicMonitoringSummary)
| P_StaticBucket (p : StaticBucket)
| P_StaticBucketFile (p : StaticBucketFile)
| P_Db (p : DbPerm).

(** Each sub-enum derives [PartialEq]/[Eq]. *)
#[global] Instance SField_eq_dec : EqDecision StaticDataQueryField.
Proof. solve_decision. Defined.
#[global] Instance DField_eq_dec : EqDecision DynamicDataQueryField.
Proof. solve_decision. Defined.
#[global] Instance Scope_eq_dec : EqDecision Scope.
Proof. solve_decision. Defined.
#[global] Instance Permission_eq_dec : EqDecision Permission.
Proof.
  assert (EqDecision NodeGet) by solve_decision.
  assert (EqDecision MonitoringUuid) by solve_decision.
  assert (EqDecision StaticMonitoring) by solve_decision.
  assert (EqDecision DynamicMonitoring) by solve_decision.
  assert (EqDecision DynamicMonitoringSummary) by solve_decision.
  assert (EqDecision Task) by solve_decision.
  assert (EqDecision Crontab) by solve_decision.
  assert (EqDecision CrontabResult) by solve_decision.
  assert (EqDecision Kv) by solve_decision.
  assert (EqDecision Terminal) by solve_decision.
  assert (EqDecision JsWorker) by solve_decision.
  assert (EqDecision JsResult) by solve_decision.
  assert (EqDecision StaticBucket) by solve_decision.
  assert (EqDecision StaticBucketFile) by solve_decision.
  assert (EqDecision DbPerm) by solve_decision.
  solve_decision.
Defined.

Record Limit : Type := { scopes : list Scope; permissions : list Permission }.
#[global] Instance Limit_eq_dec : EqDecision Limit.
Proof. solve_decision. Defined.

(** A verified token, as the authentication layer returns it. *)
Record Token : Type := {
  version : Z;
  token_key : string;
  timestamp_from : option Z;
  timestamp_to : option Z;
  token_limit : list Limit;
  username : option string;
}.

Inductive TokenOrAuth : Type :=
| Auth_Token (key secret : string)
| Auth_Auth (username password : string).

#[global] Instance TokenOrAuth_eq_dec : EqDecision TokenOrAuth.
Proof. solve_decision. Defined.

Definition from_full_token (full_token : string) : result string TokenOrAuth :=
  match split_once ":"%char full_token with
  | Some (key, secret) => Ok (Auth_Token key secret)
  | None =>
      match split_once "|"%char full_token with
      | Some (u, p) => Ok (Auth_Auth u p)
      | None => Err "Invalid token format: must be 'key:secret' or 'username|password'"
      end
  end.

Definition toa_token_key (t : TokenOrAuth) : option string :=
  match t with Auth_Token key _ => Some key | Auth_Auth _ _ => None end.
Definition toa_token_secret (t : TokenOrAuth) : option string :=
  match t with Auth_Token _ secret => Some secret | Auth_Auth _ _ => None end.
Definition toa_username (t : TokenOrAuth) : option string :=
  match t with Auth_Token _ _ => None | Auth_Auth u _ => Some u end.
Definition toa_password (t : TokenOrAuth) : option string :=
  match t with Auth_Token _ _ => None | Auth_Auth _ p => Some p end.

(** [.map_err(|e| NodegetError::ParseError(format!("Failed to parse token: {e}")))?],
    the way every RPC entry point parses its token. *)
Definition parse_token (token : string) : result anyhow TokenOrAuth :=
  map_err (fun e => OfNodeget (ParseError ("Failed to parse token: " +:+ e)))
    (from_full_token token).

Definition wildcard_matches_pattern (value pattern : string) : bool :=
  match strip_suffix "*"%char pattern with
  | None => String.eqb value pattern
  | Some prefix => starts_with value prefix
  end.

Definition permission_matches (granted required : Permission) : bool :=
  if decide (granted = required) then true else
  match granted, required with
  | P_Kv (Kv_Read pattern), P_Kv (Kv_Read key)
  | P_Kv (Kv_Write pattern), P_Kv (Kv_Write key)
  | P_Kv (Kv_Delete pattern), P_Kv (Kv_Delete key) => wildcard_matches_pattern key pattern
  | P_CrontabResult (CrontabResult_Read pattern), P_CrontabResult (CrontabResult_Read cron_name)
  | P_CrontabResult (CrontabResult_Delete pattern), P_CrontabResult (CrontabResult_Delete cron_name) =>
      wildcard_matches_pattern cron_name pattern
  | P_JsResult (JsResult_Read pattern), P_JsResult (JsResult_Read worker_name)
  | P_JsResult (JsResult_Delete pattern), P_JsResult (JsResult_Delete worker_name) =>
      wildcard_matches_pattern worker_name pattern
  | P_Task (Task_Create pattern), P_Task (Task_Create task_name)
  | P_Task (Task_Read pattern), P_Task (Task_Read task_name)
  | P_Task (Task_Write pattern), P_Task (Task_Write task_name)
  | P_Task (Task_Delete pattern), P_Task (Task_Delete task_name) =>
      wildcard_matches_pattern task_name pattern
  | _, _ => false
  end.

Definition scope_matches (limit_scope req_scope : Scope) : bool :=
  match limit_scope, req_scope with
  | Scope_Global, _ => true
  | Scope_AgentUuid limit_id, Scope_AgentUuid req_id => bool_decide (limit_id = req_id)
  | Scope_KvNamespace limit_ns, Scope_KvNamespace req_ns => String.eqb limit_ns req_ns
  | Scope_JsWorker limit_name, Scope_JsWorker req_name
  | Scope_StaticBucket limit_name, Scope_StaticBucket req_name
  | Scope_Db limit_name, Scope_Db req_name => wildcard_matches_pattern req_name limit_name
  | _, _ => false
  end.

(** The [for limit in limits] loop with its [continue] and early [return]. *)
Fixpoint check_limits_cover (limits : list Limit) (req_scope : Scope) (req_perm : Permission) : bool :=
  match limits with
  | [] => false
  | limit :: rest =>
      let scope_covered := existsb (fun s => scope_matches s req_scope) (scopes limit) in
      if negb scope_covered then check_limits_cover rest req_scope req_perm
      else if existsb (fun p => permission_matches p req_perm) (permissions limit) then true
      else check_limits_cover rest req_scope req_perm
  end.

(** ** What a token grants, declaratively *)

(** The strings a pattern stands for: itself, and with a final [*] every string
    that starts with what precedes the star. *)
Inductive pattern_denotes : string -> string -> Prop :=
| denotes_exact p : pattern_denotes p p
| denotes_prefix pre suf : pattern_denotes (pre +:+ "*") (pre +:+ suf).

(** The operations that carry a name or key. *)
Inductive ParamOp : Type :=
| OpKvRead | OpKvWrite | OpKvDelete | OpCronRead | OpCronDelete | OpJsRead | OpJsDelete
| OpTaskCreate | OpTaskRead | OpTaskWrite | OpTaskDelete.

Definition with_param (op : ParamOp) (s : string) : Permission :=
  match op with
  | OpKvRead => P_Kv (Kv_Read s)
  | OpKvWrite => P_Kv (Kv_Write s)
  | OpKvDelete => P_Kv (Kv_Delete s)
  | OpCronRead => P_CrontabResult (CrontabResult_Read s)
  | OpCronDelete => P_CrontabResult (CrontabResult_Delete s)
  | OpJsRead => P_JsResult (JsResult_Read s)
  | OpJsDelete => P_JsResult (JsResult_Delete s)
  | OpTaskCreate => P_Task (Task_Create s)
  | OpTaskRead => P_Task (Task_Read s)
  | OpTaskWrite => P_Task (Task_Write s)
  | OpTaskDelete => P_Task (Task_Delete s)
  end.

Inductive grants : Permission -> Permission -> Prop :=
| grants_same p : grants p p
| grants_param op pattern value :
    pattern_denotes pattern value -> grants (with_param op pattern) (with_param op value).

Inductive scope_covers : Scope -> Scope -> Prop :=
| covers_global s : scope_covers Scope_Global s
| covers_agent u : scope_covers (Scope_AgentUuid u) (Scope_AgentUuid u)
| covers_ns n : scope_covers (Scope_KvNamespace n) (Scope_KvNamespace n)
| covers_worker p n : pattern_denotes p n -> scope_covers (Scope_JsWorker p) (Scope_JsWorker n)
| covers_bucket p n :
    pattern_denotes p n -> scope_covers (Scope_StaticBucket p) (Scope_StaticBucket n)
| covers_db p n : pattern_denotes p n -> scope_covers (Scope_Db p) (Scope_Db n).

(** A single limit must cover both the scope and the permission: a scope of one
    limit never combines with a permission of another. *)
Definition limits_grant (limits : list Limit) (s : Scope) (p : Permission) : Prop :=
  exists l, l ∈ limits /\
    (exists s', s' ∈ scopes l /\ scope_covers s' s) /\
    (exists p', p' ∈ permissions l /\ grants p' p).

(** A pattern whose only star, if any, is its last character. *)
Definition pattern_wf (p : string) : Prop :=
  contains_char "*" p = false \/ exists pre, p = pre +:+ "*" /\ contains_char "*" pre = false.

Definition permission_wf (p : Permission) : Prop :=
  forall op s, p = with_param op s -> pattern_wf s.

Definition limits_wf (limits : list Limit) : Prop :=
  forall l p, l ∈ limits -> p ∈ permissions l -> permission_wf p.

(** ** Lemmas *)

Lemma wildcard_spec value pattern :
  wildcard_matches_pattern value pattern = true <-> pattern_denotes pattern value.
Proof.
  unfold wildcard_matches_pattern. destruct (strip_suffix _ pattern) as [pre|] eqn:E.
  - apply strip_suffix_Some in E as ->. rewrite starts_with_spec. split.
    + intros [t ->]. constructor.
    + inversion 1 as [|pre' suf Hp]; subst; [by exists "*"%string|].
      assert (strip_suffix "*" (pre' +:+ "*") = strip_suffix "*" (pre +:+ "*")) as Hs by congruence.
      rewrite !strip_suffix_snoc in Hs. injection Hs as ->. by exists suf.
  - rewrite String.eqb_eq. split; [intros ->; constructor|].
    inversion 1 as [|pre suf]; subst; [done|]. by rewrite strip_suffix_snoc in E.
Qed.

Lemma permission_matches_spec g r : permission_matches g r = true <-> grants g r.
Proof.
  unfold permission_matches. destruct (decide (g = r)) as [->|Hne].
  { split; [constructor|done]. }
  split.
  - intros H. repeat case_match; try discriminate; apply wildcard_spec in H.
    all: match goal with
         | |- grants (P_Kv (Kv_Read _)) _ => apply (grants_param OpKvRead _ _ H)
         | |- grants (P_Kv (Kv_Write _)) _ => apply (grants_param OpKvWrite _ _ H)
         | |- grants (P_Kv (Kv_Delete _)) _ => apply (grants_param OpKvDelete _ _ H)
         | |- grants (P_CrontabResult (CrontabResult_Read _)) _ => apply (grants_param OpCronRead _ _ H)
         | |- grants (P_CrontabResult (CrontabResult_Delete _)) _ =>
             apply (grants_param OpCronDelete _ _ H)
         | |- grants (P_JsResult (JsResult_Read _)) _ => apply (grants_param OpJsRead _ _ H)
         | |- grants (P_JsResult (JsResult_Delete _)) _ => apply (grants_param OpJsDelete _ _ H)
         | |- grants (P_Task (Task_Create _)) _ => apply (grants_param OpTaskCreate _ _ H)
         | |- grants (P_Task (Task_Read _)) _ => apply (grants_param OpTaskRead _ _ H)
         | |- grants (P_Task (Task_Write _)) _ => apply (grants_param OpTaskWrite _ _ H)
         | |- grants (P_Task (Task_Delete _)) _ => apply (grants_param OpTaskDelete _ _ H)
         end.
  - inversion 1 as [|op pattern value Hd]; subst; [done|]. apply wildcard_spec in Hd.
    by destruct op.
Qed.

Lemma scope_matches_spec s r : scope_matches s r = true <-> scope_covers s r.
Proof.
  destruct s, r; simpl; rewrite ?bool_decide_eq_true, ?String.eqb_eq, ?wildcard_spec;
    (split; [intros H; try discriminate H; subst; try by constructor|by inversion 1]).
Qed.

Lemma existsb_elem_of {A} (f : A -> bool) (P : A -> Prop) l :
  (forall x, f x = true <-> P x) -> existsb f l = true <-> exists x, x ∈ l /\ P x.
Proof.
  intros Hf. rewrite existsb_exists. setoid_rewrite list_elem_of_In. naive_solver.
Qed.

Lemma with_param_inj op op' s s' : with_param op s = with_param op' s' -> op = op' /\ s = s'.
Proof. destruct op, op'; simpl; intros; by simplify_eq. Qed.

(** A granted pattern that stands for the request [pre*] stands for every name
    starting with [pre], provided its star is its last character. *)
Lemma denotes_wildcard_request pattern pre value :
  pattern_wf pattern -> contains_char "*" pre = false ->
  pattern_denotes pattern (pre +:+ "*") -> starts_with value pre = true ->
  pattern_denotes pattern value.
Proof.
  intros Hwf Hpre Hd [t ->]%starts_with_spec.
  inversion Hd as [|q suf Hp Hq]; subst; [constructor|].
  destruct Hwf as [Hwf|(q' & Hq' & Hwf)].
  { rewrite contains_char_app in Hwf. simpl in Hwf. by rewrite orb_true_r in Hwf. }
  assert (strip_suffix "*" (q +:+ "*") = strip_suffix "*" (q' +:+ "*")) as E by congruence.
  rewrite !strip_suffix_snoc in E. injection E as ->.
  apply wildcard_spec. unfold wildcard_matches_pattern. rewrite strip_suffix_snoc.
  enough (starts_with pre q' = true) as Hs.
  { eapply starts_with_trans; [|exact Hs]. apply starts_with_spec. by exists t. }
  apply starts_with_spec. clear -Hq Hwf Hpre. revert pre Hq Hpre.
  induction q' as [|c q' IH]; intros pre Hq Hpre; [by exists pre|].
  destruct pre as [|d pre]; simpl in *.
  - injection Hq as -> Hq. done.
  - injection Hq as -> Hq. apply orb_false_iff in Hwf as [_ Hwf].
    apply orb_false_iff in Hpre as [_ Hpre].
    destruct (IH Hwf pre Hq Hpre) as [u ->]. by exists u.
Qed.

(** The decision loop against its specification. *)
Lemma limits_cover_iff limits s p :
  check_limits_cover limits s p = true <-> limits_grant limits s p.
Proof.
  unfold limits_grant. induction limits as [|l limits IH]; simpl.
  { split; [done|]. by intros (l & Hl%not_elem_of_nil & _). }
  destruct (existsb _ (scopes l)) eqn:Es, (existsb _ (permissions l)) eqn:Ep; simpl;
    rewrite <-?not_true_iff_false, ?(existsb_elem_of _ _ _ (fun x => scope_matches_spec x s)) in Es;
    rewrite <-?not_true_iff_false, ?(existsb_elem_of _ _ _ (fun x => permission_matches_spec x p)) in Ep;
    rewrite ?IH; setoid_rewrite elem_of_cons; naive_solver.
Qed.

(** More limits never take a right away. *)
Lemma limits_cover_mono limits limits' s p :
  limits ⊆ limits' -> check_limits_cover limits s p = true ->
  check_limits_cover limits' s p = true.
Proof.
  rewrite !limits_cover_iff. unfold limits_grant. intros Hsub (l & Hl & H). exists l.
  split; [by apply Hsub|done].
Qed.

Lemma limits_wildcard limits s op pre value :
  limits_wf limits -> contains_char "*" pre = false -> starts_with value pre = true ->
  check_limits_cover limits s (with_param op (pre +:+ "*")) = true ->
  check_limits_cover limits s (with_param op value) = true.
Proof.
  intros Hwf Hpre Hv. rewrite !limits_cover_iff.
  intros (l & Hl & Hs & p & Hp & Hg). exists l. split; [done|]. split; [done|].
  exists p. split; [done|].
  inversion Hg as [q Hq|op' pattern v Hd Hq Hv']; subst.
  - apply (grants_param op). apply starts_with_spec in Hv as [t ->]. constructor.
  - apply with_param_inj in Hv' as [-> ->]. apply grants_param.
    eapply denotes_wildcard_request; eauto. by eapply Hwf.
Qed.

(** Splitting a credential at its separator. *)
Definition full_token (t : TokenOrAuth) : string :=
  match t with
  | Auth_Token key secret => key +:+ String ":" secret
  | Auth_Auth u p => u +:+ String "|" p
  end.

(** The credentials that survive being written out and parsed back. *)
Definition printable (t : TokenOrAuth) : Prop :=
  match t with
  | Auth_Token key _ => contains_char ":" key = false
  | Auth_Auth u p =>
      contains_char ":" u = false /\ contains_char "|" u = false /\ contains_char ":" p = false
  end.

Lemma from_full_token_printable t : printable t -> from_full_token (full_token t) = Ok t.
Proof.
  unfold from_full_token. destruct t as [k s|u p]; simpl.
  - intros Hk. by rewrite split_once_app.
  - intros (Hu & Hb & Hp).
    rewrite (proj2 (split_once_None ":" (u +:+ String "|" p))).
    + by rewrite split_once_app.
    + rewrite contains_char_app. simpl. by rewrite Hu, Hp.
Qed.

(** ** Theorems *)

(** Parsing a credential inverts writing it out, for exactly the credentials that
    have no separator in the wrong place: no colon in a token key; no colon anywhere in
    a username or password and no bar in the username. *)
Theorem from_full_token_roundtrip t :
  from_full_token (full_token t) = Ok t <-> printable t.
Proof.
  split; [|apply from_full_token_printable]. unfold from_full_token.
  destruct (split_once ":" (full_token t)) as [[a b]|] eqn:E.
  - intros [= <-]. by apply split_once_Some in E as [_ Ha].
  - destruct (split_once "|" (full_token t)) as [[a b]|] eqn:E2; [|done]. intros [= <-].
    apply split_once_None in E. simpl in E. rewrite contains_char_app in E. simpl in E.
    apply orb_false_iff in E as [Hu Hp]. by apply split_once_Some in E2 as [_ Ha].
Qed.

(** A wildcard request never reaches further than exact requests.  When a token
    whose granted patterns carry at most a final star is allowed an operation on the
    pattern [pre*], it is allowed the same operation on every name starting with [pre]. *)
Theorem wildcard_request_no_escalation limits s op pre value :
  limits_wf limits -> contains_char "*" pre = false -> starts_with value pre = true ->
  check_limits_cover limits s (with_param op (pre +:+ "*")) = true ->
  check_limits_cover limits s (with_param op value) = true.
Proof.
  apply limits_wildcard.
Qed.

Definition witness_limits : list Limit :=
  [{| scopes := [Scope_KvNamespace "ns"]; permissions := [P_Kv (Kv_Read "meta*")] |}].

Lemma wildcard_request_no_escalation_witness :
  check_limits_cover witness_limits (Scope_KvNamespace "ns") (P_Kv (Kv_Read "metadata_cpu")) = true.
Proof.
  apply (wildcard_request_no_escalation witness_limits (Scope_KvNamespace "ns") OpKvRead "metadata_").
  - intros l p Hl Hp op s E. apply list_elem_of_singleton in Hl as ->.
    apply list_elem_of_singleton in Hp as ->. right. exists "meta"%string.
    destruct op; simplify_eq/=; done.
  - reflexivity.
  - reflexivity.
  - reflexivity.
Defined.

(** The restriction on granted patterns is needed.  A token holding the pattern
    [a**] may run a wildcard read of [a*], which returns the key [ab], although an exact
    read of [ab] is refused to it. *)
Theorem double_star_escalation :
  let limits := [{| scopes := [Scope_Global]; permissions := [P_Kv (Kv_Read "a**")] |}] in
  check_limits_cover limits (Scope_KvNamespace "ns") (P_Kv (Kv_Read "a*")) = true /\
  starts_with "ab" "a" = true /\
  check_limits_cover limits (Scope_KvNamespace "ns") (P_Kv (Kv_Read "ab")) = false.
Proof. by vm_compute. Qed.
