(* ===== verification/TokenCache.v ===== *)
(** * The token cache

    [ng-token/src/cache.rs] (the in-memory index of the [token] table, the super token
    kept apart, hex decoding of the stored digests, [authenticate]) together with the
    hashing of [ng-token/src/lib.rs] and the compatibility parser of
    [ng-token/src/get.rs].  SHA-256, hex encoding and constant-time comparison
    ([Crypto]) and serde's decoders ([Serde]) are external and come with the laws the
    code relies on. *)
From stdpp Require Import base strings gmap list numbers.
From Stdlib Require Import Ascii.
From S2P Require Import Prelude Errors Json Db Permission.

(** ** What comes from other crates *)

Definition is_byte (b : Z) : Prop := (0 <= b < 256)%Z.

Definition hex_digit (n : Z) : ascii :=
  ascii_of_N (Z.to_N (if (n <? 10)%Z then 48 + n else 87 + n)%Z).

Fixpoint hex_lower (bs : list Z) : string :=
  match bs with
  | [] => EmptyString
  | b :: bs' => String (hex_digit (b / 16)) (String (hex_digit (b mod 16)) (hex_lower bs'))
  end.

Class Crypto : Type := {
  (** [Sha256::digest] *)
  sha256 : list Z -> list Z;
  (** [hex::encode] *)
  hex_encode : list Z -> string;
  (** [subtle::ConstantTimeEq::ct_eq] on byte slices *)
  ct_eq : list Z -> list Z -> bool;
  sha256_length : forall m, length (sha256 m) = 32;
  sha256_bytes : forall m, Forall is_byte (sha256 m);
  hex_encode_spec : forall bs, Forall is_byte bs -> hex_encode bs = hex_lower bs;
  ct_eq_spec : forall a b, ct_eq a b = true <-> a = b;
}.

(** serde_json's derived decoders and encoder of the permission types. *)
Class Serde : Type := {
  from_value_scopes : Json -> result string (list Scope);
  from_value_permission : Json -> result string Permission;
  from_value_limits : Json -> result string (list Limit);
  to_value_limits : list Limit -> result string Json;
}.

(** A JSON object decodes to a limit: its two fields decode, elementwise. *)
Definition limit_of_object `{Serde} (o : list (string * Json)) (l : Limit) : Prop :=
  exists sv ps,
    assoc "scopes" o = Some sv /\ from_value_scopes sv = Ok (scopes l) /\
    assoc "permissions" o = Some (JArray ps) /\
    Forall2 (fun j p => from_value_permission j = Ok p) ps (permissions l).

Class SerdeLaws (S : Serde) : Prop := {
  limits_roundtrip : forall l v, to_value_limits l = Ok v -> from_value_limits v = Ok l;
  limits_of_array : forall os ls,
    from_value_limits (JArray (map JObject os)) = Ok ls <-> Forall2 limit_of_object os ls;
}.

(** ** Data *)

(** A row of the [token] table ([ng-db/src/entity/token.rs]). *)
Record Model : Type := {
  m_id : Z;
  m_version : Z;
  m_token_key : string;
  m_token_hash : string;
  m_time_stamp_from : option Z;
  m_time_stamp_to : option Z;
  m_token_limit : Json;
  m_username : option string;
  m_password_hash : option string;
}.

Record CachedToken : Type := {
  model : Model;
  parsed_limits : list Limit;
  token_hash_bytes : list Z;
  password_hash_bytes : option (list Z);
}.

Record TokenCacheInner : Type := {
  by_key : gmap string CachedToken;
  by_username : gmap string CachedToken;
}.

(** The process-wide state: the once-initialised cache and the separate super token. *)
Record Globals : Type := {
  TOKEN_CACHE_GLOBAL : option TokenCacheInner;
  SUPER_TOKEN_GLOBAL : option CachedToken;
}.

(** ** Hex digests *)

Definition hex_nibble (b : Z) : option Z :=
  if ((48 <=? b) && (b <=? 57))%Z then Some (b - 48)%Z
  else if ((97 <=? b) && (b <=? 102))%Z then Some (b - 97 + 10)%Z
  else if ((65 <=? b) && (b <=? 70))%Z then Some (b - 65 + 10)%Z
  else None.

(** One iteration of the decoding loop: the byte written at index [i]. *)
Definition hex_byte_at (bs : list Z) (i : nat) : option Z :=
  hi ← bs !! (i * 2);
  lo ← bs !! (i * 2 + 1);
  h ← hex_nibble hi;
  l ← hex_nibble lo;
  Some (Z.lor (Z.shiftl h 4) l).

Definition hex_to_bytes (hex_str : string) : option (list Z) :=
  if negb (String.length hex_str =? 64)%nat then None
  else mapM (hex_byte_at (as_bytes hex_str)) (seq 0 32).

Section token_cache.
Context `{Crypto} `{Serde}.

(** [hash_to_bytes] and [hash_string] of [ng-token/src/lib.rs]. *)
Definition hash_to_bytes (need_hash : string) : list Z :=
  sha256 (as_bytes "NODEGET" ++ as_bytes need_hash).

Definition hash_string (need_hash : string) : string :=
  hex_encode (hash_to_bytes need_hash).

(** ** Compatibility parsing of [token_limit] *)

Definition drop_unknown_in_limit (limit : Json) : Json :=
  match limit with
  | JObject o =>
      match assoc "permissions" o with
      | Some (JArray perms) =>
          let kept := List.filter (fun perm => is_ok (from_value_permission perm)) perms in
          JObject (assoc_alter (fun _ => JArray kept) "permissions" o)
      | _ => limit
      end
  | _ => limit
  end.

Definition drop_unknown_permissions (token_limit_value : Json) : Json :=
  match token_limit_value with
  | JArray limits => JArray (map drop_unknown_in_limit limits)
  | _ => token_limit_value
  end.

Definition parse_token_limit_with_compat (token_limit_value : Json) : result anyhow (list Limit) :=
  match from_value_limits token_limit_value with
  | Ok v => Ok v
  | Err original_err =>
      let filtered := drop_unknown_permissions token_limit_value in
      map_err (fun e => OfNodeget (SerializationError
                 ("Failed to parse token permissions: " +:+ e +:+ "; original error: "
                  +:+ original_err)))
        (from_value_limits filtered)
  end.

(** ** Building the indexes *)

Definition zero_digest : list Z := repeat 0%Z 32.

Definition cached_of (m : Model) : CachedToken := {|
  model := m;
  parsed_limits :=
    match parse_token_limit_with_compat (m_token_limit m) with Ok l => l | Err _ => [] end;
  token_hash_bytes := default zero_digest (hex_to_bytes (m_token_hash m));
  password_hash_bytes := m_password_hash m ≫= hex_to_bytes;
|}.

Definition Maps : Type :=
  gmap string CachedToken * gmap string CachedToken * option CachedToken.

(** The body of the [for model in all_tokens] loop. *)
Definition build_step (acc : Maps) (m : Model) : Maps :=
  let '(k, u, super_token) := acc in
  let cached := cached_of m in
  (<[m_token_key m := cached]> k,
   match m_username m with Some uname => <[uname := cached]> u | None => u end,
   if (m_id m =? 1)%Z then Some cached else super_token).

Definition build_maps (all_tokens : list Model) : Maps :=
  fold_left build_step all_tokens (∅, ∅, None).

(** [build_cache] (first initialisation): the super token is written before the
    instance is published. *)
Definition build_cache (models : list Model) (g : Globals) : Globals * TokenCacheInner :=
  let '(k, u, s) := build_maps models in
  ({| TOKEN_CACHE_GLOBAL := TOKEN_CACHE_GLOBAL g; SUPER_TOKEN_GLOBAL := s |},
   {| by_key := k; by_username := u |}).

(** [reload_from_models] is two writes under two locks: the main index first, the
    super token second.  Other tasks can run in between. *)
Definition reload_write_inner (models : list Model) (g : Globals) : Globals :=
  let '(k, u, _) := build_maps models in
  {| TOKEN_CACHE_GLOBAL := Some {| by_key := k; by_username := u |};
     SUPER_TOKEN_GLOBAL := SUPER_TOKEN_GLOBAL g |}.

Definition reload_write_super (models : list Model) (g : Globals) : Globals :=
  let '(_, _, s) := build_maps models in
  {| TOKEN_CACHE_GLOBAL := TOKEN_CACHE_GLOBAL g; SUPER_TOKEN_GLOBAL := s |}.

Definition reload_from_models (models : list Model) (g : Globals) : Globals :=
  reload_write_super models (reload_write_inner models g).

(** ** Lookups *)

Definition find_by_key (c : TokenCacheInner) (key : string) : option CachedToken :=
  by_key c !! key.
Definition find_by_username (c : TokenCacheInner) (u : string) : option CachedToken :=
  by_username c !! u.
Definition get_super_token (g : Globals) : option CachedToken := SUPER_TOKEN_GLOBAL g.
Definition get_all (c : TokenCacheInner) : list CachedToken := (map_to_list (by_key c)).*2.

(** ** Authentication in one pass *)

Definition auth_failed {A} : result anyhow A := denied "Invalid credentials".

Definition super_missing {A} : result anyhow A :=
  fail_with (NotFound "Super Token record (ID 1) not found in cache").

(** [model.username.is_some_and(|u| u.ct_eq(username))]. *)
Definition username_is (c : CachedToken) (u : string) : bool :=
  match m_username (model c) with
  | Some n => ct_eq (as_bytes n) (as_bytes u)
  | None => false
  end.

Definition authenticate (g : Globals) (c : TokenCacheInner) (t : TokenOrAuth) :
  result anyhow (CachedToken * bool) :=
  match get_super_token g with
  | None => super_missing
  | Some super_entry =>
      match t with
      | Auth_Token key secret =>
          if ct_eq (as_bytes key) (as_bytes (m_token_key (model super_entry))) then
            if ct_eq (hash_to_bytes secret) (token_hash_bytes super_entry)
            then Ok (super_entry, true)
            else auth_failed
          else
            match find_by_key c key with
            | Some cached =>
                if ct_eq (hash_to_bytes secret) (token_hash_bytes cached)
                then Ok (cached, false)
                else auth_failed
            | None => auth_failed
            end
      | Auth_Auth u password =>
          if username_is super_entry u then
            match password_hash_bytes super_entry with
            | Some stored =>
                if ct_eq (hash_to_bytes password) stored
                then Ok (super_entry, true)
                else auth_failed
            | None => auth_failed
            end
          else
            match find_by_username c u with
            | Some cached =>
                match password_hash_bytes cached with
                | None => auth_failed
                | Some stored =>
                    if ct_eq (hash_to_bytes password) stored
                    then Ok (cached, false)
                    else auth_failed
                end
            | None => auth_failed
            end
      end
  end.
End token_cache.
#[global] Arguments cached_of : simpl never.
#[global] Arguments hash_to_bytes : simpl never.

(** ** Hex decoding inverts hex encoding *)

Lemma byte_of_hex_digit n : (0 <= n < 16)%Z ->
  byte_of (hex_digit n) = if (n <? 10)%Z then (48 + n)%Z else (87 + n)%Z.
Proof.
  intros Hn. unfold byte_of, hex_digit. rewrite N_ascii_embedding; [|case_match; lia].
  rewrite Z2N.id; [done|]. case_match; lia.
Qed.

Lemma hex_nibble_digit n : (0 <= n < 16)%Z -> hex_nibble (byte_of (hex_digit n)) = Some n.
Proof.
  intros Hn. rewrite byte_of_hex_digit by done. unfold hex_nibble.
  destruct (n <? 10)%Z eqn:E; rewrite ?Z.ltb_lt, ?Z.ltb_ge in E;
    repeat (case_match; rewrite ?andb_true_iff, ?andb_false_iff, ?Z.leb_le, ?Z.leb_gt in *);
    try f_equal; lia.
Qed.

Lemma as_bytes_length s : length (as_bytes s) = String.length s.
Proof. induction s; simpl; congruence. Qed.

Lemma hex_lower_length bs : String.length (hex_lower bs) = length bs * 2.
Proof. induction bs as [|b bs IH]; simpl; [done|]. rewrite IH. lia. Qed.

Lemma nibbles_join b : is_byte b -> Z.lor (Z.shiftl (b / 16) 4) (b mod 16) = b.
Proof.
  unfold is_byte. intros Hb. rewrite Z.shiftl_mul_pow2 by lia.
  change (2 ^ 4)%Z with 16%Z.
  assert (Z.land (b / 16 * 16) (b mod 16) = 0)%Z as E.
  { change 16%Z with (2 ^ 4)%Z. rewrite <-Z.shiftl_mul_pow2, <-Z.land_ones by lia.
    apply Z.bits_inj_0. intros i. rewrite !Z.land_spec.
    destruct (Z.ltb_spec i 0); [by rewrite Z.testbit_neg_r|].
    rewrite Z.testbit_ones_nonneg by lia. destruct (Z.ltb_spec i 4).
    - by rewrite Z.shiftl_spec_low.
    - by rewrite !andb_false_r. }
  pose proof (Z.add_lor_land (b / 16 * 16) (b mod 16)) as Hadd.
  pose proof (Z.div_mod b 16). lia.
Qed.

Lemma hex_bytes_at bs : Forall is_byte bs -> forall n k pre,
  length pre = (k * 2)%nat -> n = length bs ->
  mapM (hex_byte_at (pre ++ as_bytes (hex_lower bs))) (seq k n) = Some bs.
Proof.
  induction 1 as [|b bs Hb _ IH]; intros n k pre Hk ->; [done|]. simpl.
  assert (hex_byte_at (pre ++ byte_of (hex_digit (b / 16)) :: byte_of (hex_digit (b mod 16))
            :: as_bytes (hex_lower bs)) k = Some b) as ->.
  { unfold hex_byte_at. rewrite lookup_app_r by lia. rewrite lookup_app_r by lia.
    replace (k * 2 - length pre) with 0 by lia.
    replace (k * 2 + 1 - length pre) with 1 by lia. simpl.
    unfold is_byte in Hb.
    pose proof (Z.div_pos b 16 ltac:(lia) ltac:(lia)).
    pose proof (Z.div_lt_upper_bound b 16 16 ltac:(lia) ltac:(lia)).
    pose proof (Z.mod_pos_bound b 16 ltac:(lia)).
    rewrite !hex_nibble_digit by lia. simpl. by rewrite nibbles_join. }
  simpl.
  specialize (IH (length bs) (S k)
    (pre ++ [byte_of (hex_digit (b / 16)); byte_of (hex_digit (b mod 16))])).
  rewrite <-app_assoc in IH. simpl in IH. rewrite IH; [done| |done].
  rewrite length_app. simpl. lia.
Qed.

Lemma hex_to_bytes_lower bs :
  length bs = 32 -> Forall is_byte bs -> hex_to_bytes (hex_lower bs) = Some bs.
Proof.
  intros Hl Hb. unfold hex_to_bytes. rewrite hex_lower_length, Hl. simpl negb.
  apply (hex_bytes_at bs Hb 32 0 []); done.
Qed.

(** The unique indexes of the [token] table: primary key, [idx-token-key],
    [idx-token-username] (absent usernames do not collide). *)
Definition token_conflict (a b : Model) : bool :=
  (m_id a =? m_id b)%Z || String.eqb (m_token_key a) (m_token_key b) ||
  match m_username a, m_username b with
  | Some u, Some v => String.eqb u v
  | _, _ => false
  end.

Lemma token_conflict_sym a b : token_conflict a b = token_conflict b a.
Proof.
  unfold token_conflict. rewrite Z.eqb_sym, (String.eqb_sym (m_token_key a)).
  destruct (m_username a), (m_username b); try done. by rewrite (String.eqb_sym s).
Qed.

Definition models_unique (ms : list Model) : Prop := unique_rows token_conflict ms = true.

Lemma models_unique_id ms a b :
  models_unique ms -> a ∈ ms -> b ∈ ms -> m_id a = m_id b -> a = b.
Proof.
  intros Hu Ha Hb E. eapply (unique_rows_lookup _ token_conflict_sym); eauto.
  unfold token_conflict. by rewrite E, Z.eqb_refl.
Qed.

Lemma models_unique_key ms a b :
  models_unique ms -> a ∈ ms -> b ∈ ms -> m_token_key a = m_token_key b -> a = b.
Proof.
  intros Hu Ha Hb E. eapply (unique_rows_lookup _ token_conflict_sym); eauto.
  unfold token_conflict. by rewrite E, String.eqb_refl, orb_true_r.
Qed.

Lemma models_unique_username ms a b u :
  models_unique ms -> a ∈ ms -> b ∈ ms ->
  m_username a = Some u -> m_username b = Some u -> a = b.
Proof.
  intros Hu Ha Hb Ea Eb. eapply (unique_rows_lookup _ token_conflict_sym); eauto.
  unfold token_conflict. by rewrite Ea, Eb, String.eqb_refl, orb_true_r.
Qed.

Section index.
Context {K V R : Type} `{Countable K} (f : R -> option K) (v : R -> V).

(** The index a loop of [HashMap::insert]s leaves: the last row of a key wins. *)
Definition index (ms : list R) : gmap K V :=
  fold_left (fun acc m => match f m with Some k => <[k := v m]> acc | None => acc end) ms ∅.

Lemma index_snoc ms m :
  index (ms ++ [m]) = match f m with Some k => <[k := v m]> (index ms) | None => index ms end.
Proof. unfold index. by rewrite fold_left_app. Qed.

Lemma index_spec ms k c :
  (forall a b, a ∈ ms -> b ∈ ms -> f a = Some k -> f b = Some k -> a = b) ->
  index ms !! k = Some c <-> exists m, m ∈ ms /\ f m = Some k /\ c = v m.
Proof.
  induction ms as [|m ms IH] using rev_ind; intros Hu.
  { split; [done|]. by intros (m & ?%not_elem_of_nil & _). }
  assert (forall a b, a ∈ ms -> b ∈ ms -> f a = Some k -> f b = Some k -> a = b) as Hu'
    by (intros a b Ha Hb; apply Hu; apply elem_of_app; by left).
  rewrite index_snoc. setoid_rewrite elem_of_app. setoid_rewrite list_elem_of_singleton.
  destruct (f m) as [k'|] eqn:E.
  - rewrite lookup_insert. case_decide as Hk; [subst|rewrite (IH Hu'); naive_solver].
    split; [intros [= <-]; eauto|]. intros (m' & Hm' & E' & ->). f_equal. f_equal.
    apply Hu; [set_solver| |done|done]. rewrite elem_of_app, list_elem_of_singleton. tauto.
  - rewrite (IH Hu'). naive_solver.
Qed.
End index.

Section cache_facts.
Context `{Crypto} `{Serde}.

Definition super_of (ms : list Model) : option CachedToken :=
  fold_left (fun acc m => if (m_id m =? 1)%Z then Some (cached_of m) else acc) ms None.

Lemma build_maps_eq ms :
  build_maps ms = (index (fun m => Some (m_token_key m)) cached_of ms,
                   index m_username cached_of ms, super_of ms).
Proof.
  unfold build_maps, super_of. induction ms as [|m ms IH] using rev_ind; [done|].
  rewrite !index_snoc, !fold_left_app, IH. done.
Qed.

Lemma super_of_spec ms c :
  models_unique ms ->
  super_of ms = Some c <-> exists m, m ∈ ms /\ m_id m = 1%Z /\ c = cached_of m.
Proof.
  intros Hu.
  pose proof (index_spec (K := Z) (fun m => if (m_id m =? 1)%Z then Some 1%Z else None)
                cached_of ms 1%Z c) as Hi.
  assert (super_of ms = index (K := Z) (fun m => if (m_id m =? 1)%Z then Some 1%Z else None)
                          cached_of ms !! 1%Z) as ->.
  { clear. unfold super_of. induction ms as [|m ms IH] using rev_ind; [done|].
    rewrite index_snoc, fold_left_app. simpl. destruct (m_id m =? 1)%Z; [|done].
    by rewrite lookup_insert_eq. }
  rewrite Hi.
  - setoid_rewrite <-Z.eqb_eq. split; intros (m & Hm & E & ->); exists m; split; try done;
      destruct (m_id m =? 1)%Z; done.
  - intros a b Ha Hb Ea Eb. apply (models_unique_id ms); try done.
    repeat case_match; try done. rewrite ?Z.eqb_eq in *. congruence.
Qed.

(** What the cache holds once built from the rows of a table with unique indexes. *)
Record cache_of (ms : list Model) (c : TokenCacheInner) : Prop := {
  cache_by_key : forall k e, by_key c !! k = Some e <->
    exists m, m ∈ ms /\ m_token_key m = k /\ e = cached_of m;
  cache_by_username : forall u e, by_username c !! u = Some e <->
    exists m, m ∈ ms /\ m_username m = Some u /\ e = cached_of m;
}.

Lemma build_maps_cache ms k u s :
  models_unique ms -> build_maps ms = (k, u, s) ->
  cache_of ms {| by_key := k; by_username := u |} /\ s = super_of ms.
Proof.
  intros Hu. rewrite build_maps_eq. intros [= <- <- <-]. split; [|done]. split; simpl.
  - intros k e. rewrite index_spec; [naive_solver|].
    intros a b Ha Hb [= <-] [= E]. by apply (models_unique_key ms).
  - intros u e. rewrite index_spec; [naive_solver|].
    intros a b Ha Hb Ea Eb. by apply (models_unique_username ms _ _ u).
Qed.

Lemma ct_eq_false a b : ct_eq a b = false <-> a <> b.
Proof. rewrite <-ct_eq_spec. by destruct (ct_eq a b). Qed.

Lemma byte_of_inj c c' : byte_of c = byte_of c' -> c = c'.
Proof.
  unfold byte_of. intros E%N2Z.inj. rewrite <-(ascii_N_embedding c), <-(ascii_N_embedding c').
  by rewrite E.
Qed.

Lemma as_bytes_inj s s' : as_bytes s = as_bytes s' -> s = s'.
Proof.
  revert s'. induction s as [|c s IH]; intros [|c' s']; simpl; try done.
  intros [= Ec%byte_of_inj Es%IH]. by subst.
Qed.

Lemma ct_eq_str s s' : ct_eq (as_bytes s) (as_bytes s') = String.eqb s s'.
Proof.
  destruct (String.eqb_spec s s') as [->|Hn]; [by apply ct_eq_spec|].
  apply ct_eq_false. by intros ?%as_bytes_inj.
Qed.

(** A digest stored by [hash_string] is read back as the digest itself. *)
Lemma hash_string_decodes s : hex_to_bytes (hash_string s) = Some (hash_to_bytes s).
Proof.
  unfold hash_string. rewrite hex_encode_spec by apply sha256_bytes.
  apply hex_to_bytes_lower; [apply sha256_length|apply sha256_bytes].
Qed.
End cache_facts.

(** ** Forward compatibility of stored limits *)

Section compat.
Context `{Crypto} {S : Serde} {laws : SerdeLaws S}.

(** The permissions of a stored list this version knows, in order. *)
Definition known (ps : list Json) : list Permission :=
  flat_map (fun j => match from_value_permission j with Ok p => [p] | Err _ => [] end) ps.

(** A stored limit with decodable scopes [ss] and the permission values [ps]. *)
Definition stored_limit (o : list (string * Json)) (l : list Scope * list Json) : Prop :=
  exists sv, assoc "scopes" o = Some sv /\ from_value_scopes sv = Ok l.1 /\
    assoc "permissions" o = Some (JArray l.2).

Definition restrict (l : list Scope * list Json) : Limit :=
  {| scopes := l.1; permissions := known l.2 |}.

Lemma known_all ps qs :
  Forall2 (fun j p => from_value_permission j = Ok p) ps qs -> known ps = qs.
Proof using. unfold known. induction 1 as [|j p ps qs E _ IH]; simpl; [done|]. by rewrite E, IH. Qed.

Lemma known_filter ps :
  Forall2 (fun j p => from_value_permission j = Ok p)
    (List.filter (fun j => is_ok (from_value_permission j)) ps) (known ps).
Proof using.
  unfold known. induction ps as [|j ps IH]; simpl; [constructor|].
  destruct (from_value_permission j) eqn:E; simpl; [by constructor|done].
Qed.

Lemma drop_unknown_object o l :
  stored_limit o l ->
  exists o', drop_unknown_in_limit (JObject o) = JObject o' /\ limit_of_object o' (restrict l).
Proof using.
  intros (sv & Hs & Hd & Hp). unfold drop_unknown_in_limit. rewrite Hp. eexists. split; [done|].
  exists sv, (List.filter (fun j => is_ok (from_value_permission j)) l.2).
  rewrite !assoc_alter_lookup, Hs, Hp. simpl. repeat split; try done. apply known_filter.
Qed.

(** Stored limits written by a newer version degrade safely.  When the scopes of
    every stored limit decode, the compatibility parser returns exactly those limits
    restricted to the permissions this version knows: unknown permissions are dropped,
    known ones are all kept in order, and no scope changes. *)
Theorem compat_keeps_exactly_known os ls :
  Forall2 stored_limit os ls ->
  parse_token_limit_with_compat (JArray (map JObject os)) = Ok (map restrict ls).
Proof using laws.
  intros Hst. unfold parse_token_limit_with_compat.
  destruct (from_value_limits (JArray (map JObject os))) as [v|e] eqn:E.
  - f_equal. apply limits_of_array in E. revert v E.
    induction Hst as [|o l os ls (sv & Hs & Hd & Hp) _ IH]; intros v E;
      inversion E as [|? v0 ? v1 Hv]; subst; [done|]. simpl. f_equal; [|by apply IH].
    destruct Hv as (sv' & ps & Hs' & Hd' & Hp' & Hq). unfold restrict.
    destruct v0 as [ss qs]; simplify_eq/=. f_equal; [congruence|].
    symmetry. apply known_all. congruence.
  - simpl. assert (exists os', map drop_unknown_in_limit (map JObject os) = map JObject os' /\
                     Forall2 limit_of_object os' (map restrict ls)) as (os' & -> & Hos).
    { clear E. induction Hst as [|o l os ls Hl _ (os' & E & IH)]; [by exists []|].
      destruct (drop_unknown_object _ _ Hl) as (o' & E' & Ho'). exists (o' :: os').
      split; [|by constructor]. change (drop_unknown_in_limit (JObject o) ::
        map drop_unknown_in_limit (map JObject os) = map JObject (o' :: os')).
      by rewrite E', E. }
    apply limits_of_array in Hos. by rewrite Hos.
Qed.
End compat.
