(* ===== verification/Concrete.v ===== *)
(** * Concrete instances of the external interfaces

    [Crypto], [Serde] and the [token] table as small computable instances, used by the
    examples that run the model.  The digest is a stand-in with SHA-256's interface (32
    bytes); the JSON codec writes serde's externally tagged, snake-case format. *)
From stdpp Require Import base strings gmap list numbers.
From Stdlib Require Import Ascii.
From S2P Require Import Prelude Errors Json Db Permission TokenCache.

Definition toy_digest (m : list Z) : list Z :=
  take 32 (map (fun b => (b mod 256)%Z) m ++ repeat 0%Z 32).

#[global] Program Instance toy_crypto : Crypto := {|
  sha256 := toy_digest;
  hex_encode := hex_lower;
  ct_eq a b := bool_decide (a = b);
|}.
Next Obligation.
  intros m. unfold toy_digest. rewrite length_take, length_app, repeat_length. lia.
Qed.
Next Obligation.
  intros m. unfold toy_digest. apply Forall_take, Forall_app. split.
  - apply Forall_fmap, Forall_true. intros x. unfold is_byte; simpl.
    apply Z.mod_pos_bound. lia.
  - apply Forall_forall. intros x Hx%repeat_spec. subst.
    unfold is_byte. lia.
Qed.
Next Obligation. done. Qed.
Next Obligation. intros a b. simpl. apply bool_decide_eq_true. Qed.

(** ** serde's format of the permission types *)

(** [{"outer": "inner"}] or [{"outer": {"inner": arg}}]. *)
Definition tag : Type := string * string * option string.

Definition unit_permissions : list (tag * Permission) := [
  (("static_monitoring", "read", Some "cpu"), P_StaticMonitoring (StaticMonitoring_Read SField_Cpu));
  (("static_monitoring", "read", Some "system"), P_StaticMonitoring (StaticMonitoring_Read SField_System));
  (("static_monitoring", "read", Some "gpu"), P_StaticMonitoring (StaticMonitoring_Read SField_Gpu));
  (("static_monitoring", "write", None), P_StaticMonitoring StaticMonitoring_Write);
  (("static_monitoring", "delete", None), P_StaticMonitoring StaticMonitoring_Delete);
  (("dynamic_monitoring", "read", Some "cpu"), P_DynamicMonitoring (DynamicMonitoring_Read DField_Cpu));
  (("dynamic_monitoring", "read", Some "ram"), P_DynamicMonitoring (DynamicMonitoring_Read DField_Ram));
  (("dynamic_monitoring", "read", Some "load"), P_DynamicMonitoring (DynamicMonitoring_Read DField_Load));
  (("dynamic_monitoring", "read", Some "system"), P_DynamicMonitoring (DynamicMonitoring_Read DField_System));
  (("dynamic_monitoring", "read", Some "disk"), P_DynamicMonitoring (DynamicMonitoring_Read DField_Disk));
  (("dynamic_monitoring", "read", Some "network"), P_DynamicMonitoring (DynamicMonitoring_Read DField_Network));
  (("dynamic_monitoring", "read", Some "gpu"), P_DynamicMonitoring (DynamicMonitoring_Read DField_Gpu));
  (("dynamic_monitoring", "write", None), P_DynamicMonitoring DynamicMonitoring_Write);
  (("dynamic_monitoring", "delete", None), P_DynamicMonitoring DynamicMonitoring_Delete);
  (("task", "listen", None), P_Task Task_Listen);
  (("crontab", "read", None), P_Crontab Crontab_Read);
  (("crontab", "write", None), P_Crontab Crontab_Write);
  (("crontab", "delete", None), P_Crontab Crontab_Delete);
  (("kv", "list_all_namespace", None), P_Kv Kv_ListAllNamespace);
  (("kv", "list_all_keys", None), P_Kv Kv_ListAllKeys);
  (("terminal", "connect", None), P_Terminal Terminal_Connect);
  (("node_get", "list_all_agent_uuid", None), P_NodeGet NodeGet_ListAllAgentUuid);
  (("node_get", "get_rt_pool", None), P_NodeGet NodeGet_GetRtPool);
  (("node_get", "delete_agent_uuid", None), P_NodeGet NodeGet_DeleteAgentUuid);
  (("node_get", "exec_sql", None), P_NodeGet NodeGet_ExecSql);
  (("node_get", "get_database_type", None), P_NodeGet NodeGet_GetDatabaseType);
  (("monitoring_uuid", "list", None), P_MonitoringUuid MonitoringUuid_List);
  (("monitoring_uuid", "delete", None), P_MonitoringUuid MonitoringUuid_Delete);
  (("js_worker", "list_all_js_worker", None), P_JsWorker JsWorker_ListAllJsWorker);
  (("js_worker", "create", None), P_JsWorker JsWorker_Create);
  (("js_worker", "read", None), P_JsWorker JsWorker_Read);
  (("js_worker", "write", None), P_JsWorker JsWorker_Write);
  (("js_worker", "delete", None), P_JsWorker JsWorker_Delete);
  (("js_worker", "run_defined_js_worker", None), P_JsWorker JsWorker_RunDefinedJsWorker);
  (("js_worker", "run_raw_js_worker", None), P_JsWorker JsWorker_RunRawJsWorker);
  (("dynamic_monitoring_summary", "read", None), P_DynamicMonitoringSummary Summary_Read);
  (("dynamic_monitoring_summary", "write", None), P_DynamicMonitoringSummary Summary_Write);
  (("dynamic_monitoring_summary", "delete", None), P_DynamicMonitoringSummary Summary_Delete);
  (("static_bucket", "read", None), P_StaticBucket StaticBucket_Read);
  (("static_bucket", "write", None), P_StaticBucket StaticBucket_Write);
  (("static_bucket", "delete", None), P_StaticBucket StaticBucket_Delete);
  (("static_bucket_file", "read", None), P_StaticBucketFile StaticBucketFile_Read);
  (("static_bucket_file", "write", None), P_StaticBucketFile StaticBucketFile_Write);
  (("static_bucket_file", "delete", None), P_StaticBucketFile StaticBucketFile_Delete);
  (("static_bucket_file", "list", None), P_StaticBucketFile StaticBucketFile_List);
  (("db", "list", None), P_Db Db_List);
  (("db", "read", None), P_Db Db_Read);
  (("db", "create", None), P_Db Db_Create);
  (("db", "update", None), P_Db Db_Update);
  (("db", "delete", None), P_Db Db_Delete);
  (("db", "exec_sql", None), P_Db Db_ExecSql)]%string.

Definition param_permissions : list (string * string * ParamOp) := [
  ("kv", "read", OpKvRead); ("kv", "write", OpKvWrite); ("kv", "delete", OpKvDelete);
  ("crontab_result", "read", OpCronRead); ("crontab_result", "delete", OpCronDelete);
  ("js_result", "read", OpJsRead); ("js_result", "delete", OpJsDelete);
  ("task", "create", OpTaskCreate); ("task", "read", OpTaskRead);
  ("task", "write", OpTaskWrite); ("task", "delete", OpTaskDelete)]%string.

Definition decode_tag (outer inner : string) (arg : option string) : result string Permission :=
  match List.find (fun '(t, _) => bool_decide (t = (outer, inner, arg))) unit_permissions with
  | Some (_, p) => Ok p
  | None =>
      match List.find (fun '(o, i, _) => String.eqb o outer && String.eqb i inner) param_permissions, arg with
      | Some (_, _, op), Some a => Ok (with_param op a)
      | _, _ => Err "unknown variant"%string
      end
  end.

Definition json_permission (j : Json) : result string Permission :=
  match j with
  | JObject [(outer, JString inner)] => decode_tag outer inner None
  | JObject [(outer, JObject [(inner, JString arg)])] => decode_tag outer inner (Some arg)
  | _ => Err "expected a permission"%string
  end.

Definition json_scope (j : Json) : result string Scope :=
  match j with
  | JString "global"%string => Ok Scope_Global
  | JObject [("kv_namespace"%string, JString n)] => Ok (Scope_KvNamespace n)
  | JObject [("js_worker"%string, JString n)] => Ok (Scope_JsWorker n)
  | JObject [("static_bucket"%string, JString n)] => Ok (Scope_StaticBucket n)
  | JObject [("db"%string, JString n)] => Ok (Scope_Db n)
  | _ => Err "expected a scope"%string
  end.

Fixpoint traverse {A B} (f : A -> result string B) (l : list A) : result string (list B) :=
  match l with
  | [] => Ok []
  | x :: l' => let? y := f x in let? ys := traverse f l' in Ok (y :: ys)
  end.

Definition json_array {B} (f : Json -> result string B) (j : Json) : result string (list B) :=
  match j with JArray l => traverse f l | _ => Err "expected an array"%string end.

Definition json_limit (j : Json) : result string Limit :=
  match j with
  | JObject o =>
      let? ss := match assoc "scopes" o with
                 | Some v => json_array json_scope v | None => Err "missing scopes"%string end in
      let? ps := match assoc "permissions" o with
                 | Some v => json_array json_permission v | None => Err "missing permissions"%string end in
      Ok {| scopes := ss; permissions := ps |}
  | _ => Err "expected a limit"%string
  end.

(** The encoder of the examples; agent scopes are outside its domain. *)
Definition scope_json (s : Scope) : result string Json :=
  match s with
  | Scope_Global => Ok (JString "global")
  | Scope_AgentUuid _ => Err "agent scopes are not encoded"%string
  | Scope_KvNamespace n => Ok (JObject [("kv_namespace"%string, JString n)])
  | Scope_JsWorker n => Ok (JObject [("js_worker"%string, JString n)])
  | Scope_StaticBucket n => Ok (JObject [("static_bucket"%string, JString n)])
  | Scope_Db n => Ok (JObject [("db"%string, JString n)])
  end.

Definition tag_json (t : tag) : Json :=
  let '(outer, inner, arg) := t in
  match arg with
  | None => JObject [(outer, JString inner)]
  | Some a => JObject [(outer, JObject [(inner, JString a)])]
  end.

Definition param_of (p : Permission) : option (ParamOp * string) :=
  match p with
  | P_Kv (Kv_Read s) => Some (OpKvRead, s)
  | P_Kv (Kv_Write s) => Some (OpKvWrite, s)
  | P_Kv (Kv_Delete s) => Some (OpKvDelete, s)
  | P_CrontabResult (CrontabResult_Read s) => Some (OpCronRead, s)
  | P_CrontabResult (CrontabResult_Delete s) => Some (OpCronDelete, s)
  | P_JsResult (JsResult_Read s) => Some (OpJsRead, s)
  | P_JsResult (JsResult_Delete s) => Some (OpJsDelete, s)
  | P_Task (Task_Create s) => Some (OpTaskCreate, s)
  | P_Task (Task_Read s) => Some (OpTaskRead, s)
  | P_Task (Task_Write s) => Some (OpTaskWrite, s)
  | P_Task (Task_Delete s) => Some (OpTaskDelete, s)
  | _ => None
  end.

Definition op_tag (op : ParamOp) : string * string :=
  match op with
  | OpKvRead => ("kv", "read") | OpKvWrite => ("kv", "write") | OpKvDelete => ("kv", "delete")
  | OpCronRead => ("crontab_result", "read") | OpCronDelete => ("crontab_result", "delete")
  | OpJsRead => ("js_result", "read") | OpJsDelete => ("js_result", "delete")
  | OpTaskCreate => ("task", "create") | OpTaskRead => ("task", "read")
  | OpTaskWrite => ("task", "write") | OpTaskDelete => ("task", "delete")
  end%string.

Definition permission_json (p : Permission) : result string Json :=
  match param_of p with
  | Some (op, a) => Ok (tag_json ((op_tag op).1, (op_tag op).2, Some a))
  | None =>
      match List.find (fun '(_, q) => bool_decide (q = p)) unit_permissions with
      | Some (t, _) => Ok (tag_json t)
      | None => Err "unknown permission"%string
      end
  end.

Definition limit_json (l : Limit) : result string Json :=
  let? ss := traverse scope_json (scopes l) in
  let? ps := traverse permission_json (permissions l) in
  Ok (JObject [("scopes"%string, JArray ss); ("permissions"%string, JArray ps)]).

#[global] Instance toy_serde : Serde := {|
  from_value_scopes := json_array json_scope;
  from_value_permission := json_permission;
  from_value_limits := json_array json_limit;
  to_value_limits l := let? js := traverse limit_json l in Ok (JArray js);
|}.

(** ** The codec satisfies serde's laws *)

Lemma traverse_Forall2 {A B} (f : A -> result string B) l ys :
  traverse f l = Ok ys <-> Forall2 (fun x y => f x = Ok y) l ys.
Proof.
  revert ys. induction l as [|x l IH]; intros ys; simpl.
  - split; [by intros [= <-]|by inversion 1].
  - split.
    + intros Hr. inv_ok. constructor; [done|]. by apply IH.
    + inversion 1 as [|? y ? ys' Hx Hl]; subst. rewrite Hx. simpl.
      apply IH in Hl. by rewrite Hl.
Qed.

Lemma traverse_roundtrip {A} (f : A -> result string Json) (g : Json -> result string A) l js :
  (forall x j, f x = Ok j -> g j = Ok x) -> traverse f l = Ok js -> traverse g js = Ok l.
Proof.
  rewrite !traverse_Forall2. intros Hfg Hl. clear -Hfg Hl.
  induction Hl; constructor; auto.
Qed.

Lemma scope_roundtrip s j : scope_json s = Ok j -> json_scope j = Ok s.
Proof. destruct s; simpl; intros; by simplify_eq. Qed.

Lemma unit_decodes :
  forallb (fun '(t, p) => bool_decide (json_permission (tag_json t) = Ok p)) unit_permissions = true.
Proof. by vm_compute. Qed.

Lemma permission_roundtrip p j : permission_json p = Ok j -> json_permission j = Ok p.
Proof.
  unfold permission_json. destruct (param_of p) as [[op a]|] eqn:E.
  - intros [= <-]. assert (p = with_param op a) as ->.
    { destruct p as [| |[]| |[]|[]| | | | |[]| | | |]; simplify_eq/=; done. }
    by destruct op.
  - destruct (List.find _ unit_permissions) as [[t q]|] eqn:Ef; [|done]. intros [= <-].
    apply find_some in Ef as [Hin Hq]. apply bool_decide_eq_true in Hq as ->.
    pose proof (proj1 (forallb_forall _ _) unit_decodes _ Hin) as Hd. simpl in Hd.
    by apply bool_decide_eq_true in Hd.
Qed.

Lemma limit_roundtrip l j : limit_json l = Ok j -> json_limit j = Ok l.
Proof.
  unfold limit_json. intros Hr. inv_ok. simpl.
  rewrite (traverse_roundtrip _ _ _ _ scope_roundtrip H). simpl.
  rewrite (traverse_roundtrip _ _ _ _ permission_roundtrip H0). simpl. by destruct l.
Qed.

Lemma json_limit_object o l : json_limit (JObject o) = Ok l <-> limit_of_object o l.
Proof.
  unfold limit_of_object. simpl. split.
  - intros Hr. inv_ok. simpl. destruct (assoc "scopes" o) as [sv|] eqn:Es; [|done].
    destruct (assoc "permissions" o) as [[]|] eqn:Ep; try done. simpl in *.
    eexists _, _. repeat split; try done. by apply traverse_Forall2.
  - intros (sv & ps & -> & Hs & -> & Hp). rewrite Hs. simpl.
    apply traverse_Forall2 in Hp. rewrite Hp. by destruct l.
Qed.

#[global] Instance toy_serde_laws : SerdeLaws toy_serde.
Proof.
  split; simpl.
  - intros l v Hr. inv_ok. simpl. by eapply traverse_roundtrip; [apply limit_roundtrip|].
  - intros os ls. rewrite traverse_Forall2. revert ls.
    induction os as [|o os IH]; intros ls; simpl; (split; inversion 1; subst; constructor);
      try done; by (apply json_limit_object || apply IH).
Qed.

(** ** A sample token table *)

Definition row (id : Z) (key secret : string) (limits : Json) (user : option string)
    (pw : option string) (to : option Z) : Model := {|
  m_id := id; m_version := 1; m_token_key := key; m_token_hash := hash_string secret;
  m_time_stamp_from := None; m_time_stamp_to := to; m_token_limit := limits;
  m_username := user; m_password_hash := option_map hash_string pw |}.

Definition meta_limits : Json :=
  JArray [JObject [("scopes"%string, JArray [JObject [("kv_namespace"%string, JString "ns")]]);
                   ("permissions"%string,
                     JArray [JObject [("kv"%string, JObject [("read"%string, JString "meta*")])];
                             JObject [("hologram"%string, JString "project")]])]].

Definition super_row : Model := row 1 "rootkey" "rootsecret" (JArray []) (Some "root") (Some "rootpw") None.
Definition super_row' : Model := row 1 "newkey" "newsecret" (JArray []) (Some "root") (Some "newpw") None.
Definition alice_row : Model := row 2 "alicekey" "alicesecret" meta_limits (Some "alice") (Some "alicepw") (Some 5000%Z).

Definition sample_models : list Model := [super_row; alice_row].
Definition rolled_models : list Model := [alice_row; super_row'].

Definition empty_globals : Globals := {| TOKEN_CACHE_GLOBAL := None; SUPER_TOKEN_GLOBAL := None |}.
Definition sample_globals : Globals := reload_from_models sample_models empty_globals.
Definition sample_clock : Clock := {| since_epoch_ms := Ok 4000%Z; NTP_OFFSET_MS := 0 |}.

#[global] Instance token_table : TableOps (ListTable Model) Model := ListTable_ops token_conflict.
#[global] Instance token_table_laws : TableLaws token_table token_conflict :=
  ListTable_laws token_conflict token_conflict_sym.

Definition sample_db : ListTable Model := {| tbl := sample_models; next_id := 3; outages := [] |}.
