(* ===== verification/TokenCheck.v ===== *)
(** * Token verification and the authorisation decision

    [ng-token/src/get.rs] ([get_token], [get_token_by_key_or_username],
    [check_token_limit]) and [check_super_token] of [ng-token/src/super_token.rs], over
    the cache of [TokenCache].  The theorems relate the decision to the rows of the
    [token] table, and cover the moment in which a cache reload is half done. *)
From stdpp Require Import base strings gmap list numbers.
From Stdlib Require Import Ascii.
From S2P Require Import Prelude Errors Json Db Permission TokenCache Concrete.

Section token_check.
Context `{Crypto} `{Serde}.

Definition cache_missing {A} : result anyhow A :=
  fail_with (ConfigNotFound "TokenCache not initialized").

(** The [Token] built from a cache entry (no digests). *)
Definition token_of (e : CachedToken) : Token := {|
  version := m_version (model e);
  token_key := m_token_key (model e);
  timestamp_from := m_time_stamp_from (model e);
  timestamp_to := m_time_stamp_to (model e);
  token_limit := parsed_limits e;
  username := m_username (model e);
|}.

Definition get_token (g : Globals) (t : TokenOrAuth) : result anyhow Token :=
  let? cache := match TOKEN_CACHE_GLOBAL g with
                | Some c => Ok c
                | None => cache_missing
                end in
  let? cached_token :=
    match t with
    | Auth_Token key secret =>
        match find_by_key cache key with
        | None => auth_failed
        | Some entry =>
            if negb (ct_eq (hash_to_bytes secret) (token_hash_bytes entry))
            then auth_failed
            else Ok entry
        end
    | Auth_Auth u password =>
        match find_by_username cache u with
        | None => auth_failed
        | Some entry =>
            match password_hash_bytes entry with
            | None => auth_failed
            | Some stored =>
                if negb (ct_eq (hash_to_bytes password) stored)
                then auth_failed
                else Ok entry
            end
        end
    end in
  Ok (token_of cached_token).

Definition get_token_by_key_or_username (g : Globals) (identifier : string) :
  result anyhow Token :=
  let? cache := match TOKEN_CACHE_GLOBAL g with
                | Some c => Ok c
                | None => cache_missing
                end in
  let? cached_token :=
    match find_by_key cache identifier with
    | Some entry => Ok entry
    | None =>
        match find_by_username cache identifier with
        | Some entry => Ok entry
        | None => fail_with (NotFound ("Token not found by key/username: " +:+ identifier))
        end
    end in
  Ok (token_of cached_token).

Definition check_super_token (g : Globals) (t : TokenOrAuth) : result anyhow bool :=
  match TOKEN_CACHE_GLOBAL g with
  | None => cache_missing
  | Some _ =>
      match get_super_token g with
      | None => super_missing
      | Some super_entry =>
          match t with
          | Auth_Token key secret =>
              if negb (ct_eq (as_bytes key) (as_bytes (m_token_key (model super_entry))))
              then Ok false
              else Ok (ct_eq (hash_to_bytes secret) (token_hash_bytes super_entry))
          | Auth_Auth u password =>
              if negb (username_is super_entry u) then Ok false
              else match password_hash_bytes super_entry with
                   | None => Ok false
                   | Some stored => Ok (ct_eq (hash_to_bytes password) stored)
                   end
          end
      end
  end.

(** [now < from] rejects, [now > to] rejects; both bounds are inclusive. *)
Definition time_valid (token : Token) (now : Z) : bool :=
  negb (match timestamp_from token with Some from => (now <? from)%Z | None => false end) &&
  negb (match timestamp_to token with Some to => (to <? now)%Z | None => false end).

(** The two nested loops over the requested scopes and permissions. *)
Definition covers_all (limits : list Limit) (ss : list Scope) (ps : list Permission) : bool :=
  forallb (fun req_scope =>
    forallb (fun req_perm => check_limits_cover limits req_scope req_perm) ps) ss.

(** The super-token test reads the state [g1]; the token lookup, which runs later,
    reads [g2].  A reload can happen in between. *)
Definition check_token_limit_at (g1 g2 : Globals) (clk : Clock) (t : TokenOrAuth)
    (ss : list Scope) (ps : list Permission) : result anyhow bool :=
  let? is_super_token := map_err to_denied (check_super_token g1 t) in
  if (is_super_token : bool) then Ok true else
  let? token := get_token g2 t in
  let? now := get_local_timestamp_ms_i64 clk in
  if negb (time_valid token now) then Ok false
  else Ok (covers_all (token_limit token) ss ps).

Definition check_token_limit (g : Globals) := check_token_limit_at g g.

(** ** Specification: authority as a property of the table *)

(** The entry [e] accepts the credential [t]. *)
Definition holds_credential (e : CachedToken) (t : TokenOrAuth) : Prop :=
  match t with
  | Auth_Token key secret =>
      m_token_key (model e) = key /\ token_hash_bytes e = hash_to_bytes secret
  | Auth_Auth u password =>
      m_username (model e) = Some u /\ password_hash_bytes e = Some (hash_to_bytes password)
  end.

Definition valid_at (e : CachedToken) (now : Z) : Prop :=
  (forall from, m_time_stamp_from (model e) = Some from -> (from <= now)%Z) /\
  (forall to, m_time_stamp_to (model e) = Some to -> (now <= to)%Z).

Definition entry_grants (e : CachedToken) (now : Z) (ss : list Scope) (ps : list Permission) : Prop :=
  valid_at e now /\
  forall s p, s ∈ ss -> p ∈ ps -> limits_grant (parsed_limits e) s p.

(** The cache in its stable state: built from the rows [ms] of a table that enforces
    its unique indexes and holds a super token. *)
Record globals_of (ms : list Model) (g : Globals) : Prop := {
  g_unique : models_unique ms;
  g_super : exists m, m ∈ ms /\ m_id m = 1%Z;
  g_cache : exists c, TOKEN_CACHE_GLOBAL g = Some c /\ cache_of ms c;
  g_super_token : SUPER_TOKEN_GLOBAL g = super_of ms;
}.

(** ** Lemmas *)

Lemma time_valid_spec e now : time_valid (token_of e) now = true <-> valid_at e now.
Proof.
  unfold time_valid, valid_at. simpl.
  destruct (m_time_stamp_from (model e)), (m_time_stamp_to (model e));
    rewrite andb_true_iff, !negb_true_iff, ?Z.ltb_ge; naive_solver lia.
Qed.

Lemma covers_all_spec limits ss ps :
  covers_all limits ss ps = true <->
  forall s p, s ∈ ss -> p ∈ ps -> limits_grant limits s p.
Proof using.
  unfold covers_all. rewrite forallb_forall. setoid_rewrite forallb_forall.
  setoid_rewrite limits_cover_iff. setoid_rewrite list_elem_of_In. naive_solver.
Qed.

Lemma model_cached_of m : model (cached_of m) = m.
Proof. done. Qed.

Lemma username_is_spec e u : username_is e u = true <-> m_username (model e) = Some u.
Proof.
  unfold username_is. destruct (m_username (model e)); [|naive_solver].
  rewrite ct_eq_str, String.eqb_eq. naive_solver.
Qed.

(** The super-token test accepts exactly the credentials of the super entry. *)
Lemma check_super_spec g c e t :
  TOKEN_CACHE_GLOBAL g = Some c -> SUPER_TOKEN_GLOBAL g = Some e ->
  exists b, check_super_token g t = Ok b /\ (b = true <-> holds_credential e t).
Proof.
  intros Hc He. unfold check_super_token, get_super_token. rewrite Hc, He.
  destruct t as [key secret|u password]; simpl.
  - rewrite ct_eq_str. destruct (String.eqb_spec key (m_token_key (model e))) as [->|Hne]; simpl.
    + eexists. split; [done|]. rewrite ct_eq_spec. naive_solver.
    + eexists. split; [done|]. naive_solver.
  - destruct (username_is e u) eqn:E; simpl.
    + apply username_is_spec in E. rewrite E.
      destruct (password_hash_bytes e) as [stored|]; eexists; (split; [done|]);
        rewrite ?ct_eq_spec; naive_solver.
    + eexists. split; [done|]. rewrite <-username_is_spec, E. naive_solver.
Qed.

(** [get_token] succeeds exactly for a row whose credential is presented. *)
Lemma get_token_spec ms g c t tok :
  TOKEN_CACHE_GLOBAL g = Some c -> cache_of ms c ->
  get_token g t = Ok tok <->
  exists m, m ∈ ms /\ holds_credential (cached_of m) t /\ tok = token_of (cached_of m).
Proof.
  intros Hc [Hk Hu]. unfold get_token. rewrite Hc. simpl.
  destruct t as [key secret|u password]; simpl.
  - unfold find_by_key. specialize (Hk key).
    assert (forall m', m' ∈ ms -> m_token_key m' = key -> by_key c !! key = Some (cached_of m'))
      as Hin by (intros; apply Hk; eauto).
    destruct (by_key c !! key) as [e|]; simpl.
    + destruct (proj1 (Hk e) eq_refl) as (m & Hm & <- & ->).
      destruct (ct_eq _ _) eqn:E; simpl; [apply ct_eq_spec in E|apply ct_eq_false in E].
      * split; [intros [= <-]; eauto|].
        intros (m' & Hm' & [Ek _] & ->). by rewrite ((inj Some) _ _ (Hin m' Hm' Ek)).
      * split; [done|]. intros (m' & Hm' & [Ek Es] & _).
        change (token_hash_bytes (cached_of m') = hash_to_bytes secret) in Es.
        pose proof ((inj Some) _ _ (Hin m' Hm' Ek)) as E'. congruence.
    + split; [done|]. intros (m' & Hm' & [Ek _] & _). by specialize (Hin m' Hm' Ek).
  - unfold find_by_username. specialize (Hu u).
    assert (forall m', m' ∈ ms -> m_username m' = Some u ->
            by_username c !! u = Some (cached_of m')) as Hin by (intros; apply Hu; eauto).
    destruct (by_username c !! u) as [e|]; simpl.
    + destruct (proj1 (Hu e) eq_refl) as (m & Hm & Eu & ->).
      destruct (password_hash_bytes (cached_of m)) as [stored|] eqn:Es.
      * destruct (ct_eq _ _) eqn:E; simpl; [apply ct_eq_spec in E as <-|apply ct_eq_false in E].
        -- split; [intros [= <-]; exists m; simpl; naive_solver|].
           intros (m' & Hm' & [Ek _] & ->). by rewrite ((inj Some) _ _ (Hin m' Hm' Ek)).
        -- split; [done|]. intros (m' & Hm' & [Ek Es'] & _).
           change (password_hash_bytes (cached_of m') = Some (hash_to_bytes password)) in Es'.
           pose proof ((inj Some) _ _ (Hin m' Hm' Ek)) as E'. congruence.
      * split; [done|]. intros (m' & Hm' & [Ek Es'] & _).
        change (password_hash_bytes (cached_of m') = Some (hash_to_bytes password)) in Es'.
        pose proof ((inj Some) _ _ (Hin m' Hm' Ek)) as E'. congruence.
    + split; [done|]. intros (m' & Hm' & [Ek _] & _). by specialize (Hin m' Hm' Ek).
Qed.
End token_check.

(** ** A reload seen by concurrent requests *)

Section reload.
Context `{Crypto} `{Serde}.

(** How far a running reload has come: nothing written, the main index written,
    the super token written as well. *)
Inductive phase : Type := Before | Between | After.

Definition state_at (g : Globals) (ms_new : list Model) (ph : phase) : Globals :=
  match ph with
  | Before => g
  | Between => reload_write_inner ms_new g
  | After => reload_from_models ms_new g
  end.

(** A request reads twice; the second read is not earlier than the first. *)
Inductive phase_le : phase -> phase -> Prop :=
| le_before ph : phase_le Before ph
| le_between : phase_le Between Between
| le_between_after : phase_le Between After
| le_after : phase_le After After.

Lemma globals_super_entry ms g :
  globals_of ms g -> exists m, m ∈ ms /\ m_id m = 1%Z /\ SUPER_TOKEN_GLOBAL g = Some (cached_of m).
Proof.
  intros [Hu (m & Hm & Hid) _ Hs]. exists m. rewrite Hs. repeat split; try done.
  apply super_of_spec; eauto.
Qed.

Lemma reload_globals_of ms g :
  models_unique ms -> (exists m, m ∈ ms /\ m_id m = 1%Z) ->
  globals_of ms (reload_from_models ms g).
Proof.
  intros Hu Hs. unfold reload_from_models, reload_write_super, reload_write_inner.
  destruct (build_maps ms) as [[k u] s] eqn:E.
  destruct (build_maps_cache _ _ _ _ Hu E) as [Hc ->]. split; try done. simpl. eauto.
Qed.

Lemma between_cache ms g :
  TOKEN_CACHE_GLOBAL (reload_write_inner ms g) = TOKEN_CACHE_GLOBAL (reload_from_models ms g)
  /\ SUPER_TOKEN_GLOBAL (reload_write_inner ms g) = SUPER_TOKEN_GLOBAL g.
Proof.
  unfold reload_from_models, reload_write_super, reload_write_inner.
  by destruct (build_maps ms) as [[k u] s].
Qed.

Lemma get_token_cache g g' t :
  TOKEN_CACHE_GLOBAL g = TOKEN_CACHE_GLOBAL g' -> get_token g t = get_token g' t.
Proof. unfold get_token. by intros ->. Qed.

(** The super-token test needs the cache only to exist. *)
Lemma check_super_cache g g' t :
  is_Some (TOKEN_CACHE_GLOBAL g) -> is_Some (TOKEN_CACHE_GLOBAL g') ->
  SUPER_TOKEN_GLOBAL g = SUPER_TOKEN_GLOBAL g' ->
  check_super_token g t = check_super_token g' t.
Proof.
  intros [c Hc] [c' Hc'] Hs. unfold check_super_token, get_super_token. by rewrite Hc, Hc', Hs.
Qed.

Lemma globals_cache_some ms g : globals_of ms g -> is_Some (TOKEN_CACHE_GLOBAL g).
Proof. intros [_ _ (c & -> & _) _]. done. Qed.

(** In a stable state the super-token test never fails. *)
Lemma check_super_total ms g t :
  globals_of ms g -> exists b, check_super_token g t = Ok b /\
    (b = true <-> exists m, m ∈ ms /\ m_id m = 1%Z /\ holds_credential (cached_of m) t).
Proof.
  intros Hg. destruct (globals_super_entry _ _ Hg) as (m & Hm & Hid & Hs).
  destruct (globals_cache_some _ _ Hg) as [c Hc].
  destruct (check_super_spec g c _ t Hc Hs) as (b & Hb & Hh). exists b. split; [done|].
  rewrite Hh. split; [eauto|]. intros (m' & Hm' & Hid' & Hh').
  assert (m = m') as -> by (eapply models_unique_id; [apply Hg| | |]; congruence || done). done.
Qed.

(** The decision when the super-token test answers [b]. *)
Lemma check_at_unfold g1 g2 clk t ss ps b :
  check_super_token g1 t = Ok b ->
  check_token_limit_at g1 g2 clk t ss ps = Ok true <->
  b = true \/
  exists tok now, get_token g2 t = Ok tok /\ get_local_timestamp_ms_i64 clk = Ok now /\
    time_valid tok now = true /\ covers_all (token_limit tok) ss ps = true.
Proof.
  intros Hb. unfold check_token_limit_at. rewrite Hb. simpl. destruct b; [by split; [left|]|].
  split.
  - intros Hr. right. inv_ok. destruct (time_valid _ _) eqn:Ev; simpl in *; inv_ok. eauto 6.
  - intros [?|(tok & now & -> & -> & Hv & Hl)]; [done|]. simpl. by rewrite Hv, Hl.
Qed.

(** ** Theorems *)

(** C1: the authorisation decision, end to end.  With the cache in step with the
    [token] table, a request is allowed exactly when some row of the table accepts the
    presented credential and that row is the super token, or it is within its validity
    period and for every requested scope and permission one of its limits grants both. *)
Theorem check_token_limit_spec ms g clk now t ss ps :
  globals_of ms g -> get_local_timestamp_ms_i64 clk = Ok now ->
  check_token_limit g clk t ss ps = Ok true <->
  exists m, m ∈ ms /\ holds_credential (cached_of m) t /\
    (m_id m = 1%Z \/ entry_grants (cached_of m) now ss ps).
Proof.
  intros Hg Hnow. destruct (check_super_total _ _ t Hg) as (b & Hb & Hs).
  unfold check_token_limit. rewrite (check_at_unfold _ _ _ _ _ _ _ Hb), Hs, Hnow.
  destruct (g_cache _ _ Hg) as (c & Hc & Hcache).
  setoid_rewrite (get_token_spec ms g c t _ Hc Hcache). split.
  - intros [(m & Hm & Hid & Hh)|(tok & n & (m & Hm & Hh & ->) & [= <-] & Hv & Hl)]; [by eauto|].
    apply time_valid_spec in Hv. rewrite covers_all_spec in Hl. exists m. unfold entry_grants. eauto.
  - intros (m & Hm & Hh & [Hid|[Hv Hl]]); [by eauto|]. right. exists (token_of (cached_of m)), now.
    rewrite time_valid_spec, covers_all_spec. split; [by exists m|]. done.
Qed.

(** [authenticate], which decides with a single look-up and never consults the main
    index for the super token, agrees with the two-step path of [check_super_token]
    and [get_token]: same acceptance, same token, same super flag, same error. *)
Theorem authenticate_agrees ms g c t :
  globals_of ms g -> TOKEN_CACHE_GLOBAL g = Some c ->
  match authenticate g c t with
  | Ok (e, is_super) =>
      check_super_token g t = Ok is_super /\ get_token g t = Ok (token_of e)
  | Err err => check_super_token g t = Ok false /\ get_token g t = Err err
  end.
Proof.
  intros Hg Hc. destruct (globals_super_entry _ _ Hg) as (m & Hm & Hid & Hs).
  destruct (g_cache _ _ Hg) as (c' & Hc' & [Hk Hu]). assert (c' = c) as -> by congruence.
  assert (exists e, SUPER_TOKEN_GLOBAL g = Some e /\ by_key c !! m_token_key (model e) = Some e /\
            forall u, m_username (model e) = Some u -> by_username c !! u = Some e)
    as (e & He & Hek & Heu).
  { exists (cached_of m). rewrite Hk. setoid_rewrite Hu. rewrite model_cached_of. eauto 10. }
  clear Hs Hk Hu. unfold authenticate, check_super_token, get_token, get_super_token,
    find_by_key, find_by_username, auth_failed, denied, fail_with.
  rewrite Hc, He. destruct t as [key secret|u password]; simpl.
  - rewrite ct_eq_str. destruct (String.eqb_spec key (m_token_key (model e))) as [->|Hne]; simpl.
    + rewrite Hek. by destruct (ct_eq _ _).
    + destruct (by_key c !! key); simpl; [|done]. by destruct (ct_eq _ _).
  - destruct (username_is e u) eqn:E; simpl.
    + apply username_is_spec in E. rewrite (Heu _ E).
      destruct (password_hash_bytes e); simpl; [|done]. by destruct (ct_eq _ _).
    + destruct (by_username c !! u) as [e'|]; simpl; [|done].
      destruct (password_hash_bytes e'); simpl; [|done]. by destruct (ct_eq _ _).
Qed.

(** a reload never opens a window of extra authority.  Whatever phases of a running
    reload the two reads of a request see, a request is granted only if the state before
    the reload or the state after it grants it. *)
Theorem reload_window_no_extra_authority ms_old ms_new g clk t ss ps ph1 ph2 :
  globals_of ms_old g ->
  models_unique ms_new -> (exists m, m ∈ ms_new /\ m_id m = 1%Z) ->
  phase_le ph1 ph2 ->
  check_token_limit_at (state_at g ms_new ph1) (state_at g ms_new ph2) clk t ss ps = Ok true ->
  check_token_limit g clk t ss ps = Ok true \/
  check_token_limit (reload_from_models ms_new g) clk t ss ps = Ok true.
Proof.
  intros Hg Hu Hsup Hph.
  pose proof (reload_globals_of ms_new g Hu Hsup) as Hg'.
  destruct (between_cache ms_new g) as [Hbc Hbs].
  destruct (check_super_total _ _ t Hg) as (b & Hb & _).
  destruct (check_super_total _ _ t Hg') as (b' & Hb' & _).
  assert (check_super_token (reload_write_inner ms_new g) t = Ok b) as Hbb.
  { rewrite <-Hb. apply check_super_cache; [|by eapply globals_cache_some|done].
    rewrite Hbc. by eapply globals_cache_some. }
  assert (check_super_token (state_at g ms_new ph1) t = Ok (match ph1 with After => b' | _ => b end))
    as H1 by by destruct ph1.
  rewrite (check_at_unfold _ _ _ _ _ _ _ H1). unfold check_token_limit.
  rewrite (check_at_unfold _ _ _ _ _ _ _ Hb), (check_at_unfold _ _ _ _ _ _ _ Hb').
  destruct Hph as [ph| | |]; try destruct ph; simpl;
    rewrite ?(get_token_cache _ _ t Hbc); tauto.
Qed.
End reload.

(** ** Examples *)

Lemma sample_globals_of : globals_of sample_models sample_globals.
Proof.
  apply reload_globals_of; [by vm_compute|]. exists super_row. split; [|done].
  apply list_elem_of_here.
Qed.

Lemma check_token_limit_spec_witness :
  check_token_limit sample_globals sample_clock (Auth_Token "alicekey" "alicesecret")
    [Scope_KvNamespace "ns"] [P_Kv (Kv_Read "metadata")] = Ok true.
Proof.
  apply (check_token_limit_spec sample_models sample_globals sample_clock 4000);
    [exact sample_globals_of|reflexivity|].
  exists alice_row. split; [right; left|]. split; [split; reflexivity|].
  right. split; [split; [done|intros to [= <-]; lia]|].
  intros s p Hs Hp. apply limits_cover_iff.
  apply list_elem_of_singleton in Hs as ->. apply list_elem_of_singleton in Hp as ->.
  by vm_compute.
Defined.

Lemma authenticate_agrees_witness :
  get_token sample_globals (Auth_Auth "root" "rootpw") = Ok (token_of (cached_of super_row)).
Proof.
  destruct (TOKEN_CACHE_GLOBAL sample_globals) as [c|] eqn:Hc; [|discriminate Hc].
  pose proof (authenticate_agrees sample_models sample_globals c (Auth_Auth "root" "rootpw")
                sample_globals_of Hc) as Ha.
  assert (authenticate sample_globals c (Auth_Auth "root" "rootpw") = Ok (cached_of super_row, true))
    as Hauth by reflexivity.
  rewrite Hauth in Ha. exact (proj2 Ha).
Defined.

(** During a roll of the super token the new credential is not yet accepted and the old
    one still is; both verdicts are among those of the two stable states. *)
Lemma reload_window_witness :
  check_token_limit sample_globals sample_clock (Auth_Token "rootkey" "rootsecret")
    [Scope_Global] [P_Db Db_List] = Ok true \/
  check_token_limit (reload_from_models rolled_models sample_globals) sample_clock
    (Auth_Token "rootkey" "rootsecret") [Scope_Global] [P_Db Db_List] = Ok true.
Proof.
  apply (reload_window_no_extra_authority sample_models rolled_models sample_globals sample_clock
           (Auth_Token "rootkey" "rootsecret") [Scope_Global] [P_Db Db_List] Between Between).
  - exact sample_globals_of.
  - by vm_compute.
  - exists super_row'. split; [right; left|reflexivity].
  - constructor.
  - by vm_compute.
Defined.

(** The limits [alice_row] stores, as the compatibility parser sees them. *)
Definition alice_object : list (string * Json) :=
  [("scopes"%string, JArray [JObject [("kv_namespace"%string, JString "ns")]]);
   ("permissions"%string,
     JArray [JObject [("kv"%string, JObject [("read"%string, JString "meta*")])];
             JObject [("hologram"%string, JString "project")]])].

Lemma compat_keeps_exactly_known_witness :
  parse_token_limit_with_compat meta_limits =
  Ok [{| scopes := [Scope_KvNamespace "ns"]; permissions := [P_Kv (Kv_Read "meta*")] |}].
Proof.
  etransitivity; [apply (compat_keeps_exactly_known [alice_object]
           [([Scope_KvNamespace "ns"],
             [JObject [("kv"%string, JObject [("read"%string, JString "meta*")])];
              JObject [("hologram"%string, JString "project")]])])|reflexivity].
  constructor; [|constructor].
  exists (JArray [JObject [("kv_namespace"%string, JString "ns")]]). repeat split; reflexivity.
Defined.
