(* ===== verification/TokenAdmin.v ===== *)
(** * Token administration

    The operations that change the [token] table and then reload the cache:
    [ng-token/src/super_token.rs] (generation and roll of the super token),
    [generate_token.rs], and the RPC methods [create], [edit], [delete],
    [change_password], [roll_token_secret], [get], [list_all_tokens] of
    [ng-token/src/rpc], with the cache life cycle of [ng-infra/src/server.rs].

    The state is the database handle (absent until the server is connected) and the
    cache.  Random strings are inputs.  A reload that fails is only logged: the
    operation still succeeds and the cache stays as it was. *)
From stdpp Require Import base strings gmap list numbers.
From Stdlib Require Import Ascii.
From S2P Require Import Prelude Errors Json Db Permission TokenCache Concrete TokenCheck.

Record World (DB : Type) : Type := { w_db : option DB; w_globals : Globals }.
Arguments w_db {DB}. Arguments w_globals {DB}.

Section token_admin.
Context {C : Crypto} {S : Serde} {DB : Type} {ops : TableOps DB Model}.

Definition Admin (A : Type) : Type := M (World DB) anyhow A.

(** [ng_db::get_db().ok_or_else(...)?]. *)
Definition get_db (e : NodegetError) : Admin unit :=
  fun w => match w_db w with Some _ => (w, Ok tt) | None => (w, Err (OfNodeget e)) end.

(** Run a statement on the connection and convert its error. *)
Definition exec {A} (conv : DbErr -> anyhow) (stmt : M DB DbErr A) : Admin A :=
  fun w => match w_db w with
           | Some d =>
               let '(d', r) := stmt d in
               ({| w_db := Some d'; w_globals := w_globals w |}, map_err conv r)
           | None => (w, Err (OfNodeget (DatabaseError "Database not initialized")))
           end.

Definition db_error (prefix : string) (e : DbErr) : anyhow :=
  OfNodeget (DatabaseError (prefix +:+ db_msg e)).

Definition globals : Admin Globals := asks w_globals.

(** ** The cache life cycle *)

Definition load_all : Admin (list Model) :=
  let! _ := get_db (ConfigNotFound "Database connection not initialized") in
  exec (fun e => OfText ("Failed to load from DB: " +:+ db_msg e)) (find_all (fun _ => true)).

Definition set_globals (f : Globals -> Globals) : Admin unit :=
  fun w => ({| w_db := w_db w; w_globals := f (w_globals w) |}, Ok tt).

Definition reload : Admin unit :=
  let! g := globals in
  match TOKEN_CACHE_GLOBAL g with
  | None => mret tt
  | Some _ =>
      let! models := load_all in
      set_globals (reload_from_models models)
  end.

(** [init]: build and publish; an already published instance is reloaded instead. *)
Definition init : Admin unit :=
  let! models := load_all in
  let! g := globals in
  let '(g', instance) := build_cache models g in
  let! _ := set_globals (fun _ => g') in
  match TOKEN_CACHE_GLOBAL g' with
  | Some _ => reload
  | None => set_globals (fun h => {| TOKEN_CACHE_GLOBAL := Some instance;
                                     SUPER_TOKEN_GLOBAL := SUPER_TOKEN_GLOBAL h |})
  end.

(** [if let Err(e) = TokenCache::reload().await { error!(...) }]. *)
Definition reload_logged : Admin unit := fun w => (fst (reload w), Ok tt).

(** ** The super token *)

Definition super_model (token_key token_secret raw_password : string) : Model := {|
  m_id := 1;
  m_version := 1;
  m_token_key := token_key;
  m_token_hash := hash_string token_secret;
  m_time_stamp_from := None;
  m_time_stamp_to := None;
  m_token_limit := JArray [];
  m_username := Some "root"%string;
  m_password_hash := Some (hash_string raw_password);
|}.

Definition sync_token_id_sequence : M DB DbErr unit :=
  fun d => if negb (is_postgres d) then (d, Ok tt) else (fst (advance_sequence d), Ok tt).

Definition insert_new_super_token (token_key token_secret raw_password : string) :
  M DB DbErr (string * string) :=
  let! _ := insert (super_model token_key token_secret raw_password) in
  let! _ := sync_token_id_sequence in
  mret (token_key +:+ ":" +:+ token_secret, raw_password).

Definition generate_super_token (token_key token_secret raw_password : string) :
  Admin (option (string * string)) :=
  let! _ := get_db (DatabaseError "Database connection not initialized") in
  fun w =>
    match w_db w with
    | None => (w, Err (OfNodeget (DatabaseError "Database connection not initialized")))
    | Some d =>
        let '(d', r) := insert_new_super_token token_key token_secret raw_password d in
        let w' := {| w_db := Some d'; w_globals := w_globals w |} in
        match r with
        | Ok res => (fst (reload_logged w'), Ok (Some res))
        | Err db_err =>
            if is_unique_violation db_err then (w', Ok None)
            else (w', Err (OfNodeget (DatabaseError
                             ("Failed to initialize super token: " +:+ db_msg db_err))))
        end
    end.

(** The body of the roll's transaction. *)
Definition roll_txn (token_key token_secret raw_password : string) : M DB DbErr (string * string) :=
  let! _ := delete_many (fun m => (m_id m =? 1)%Z) in
  let! _ := insert (super_model token_key token_secret raw_password) in
  mret (token_key +:+ ":" +:+ token_secret, raw_password).

Definition roll_super_token (token_key token_secret raw_password : string) :
  Admin (string * string) :=
  let! _ := get_db (DatabaseError "Database connection not initialized") in
  let! res := exec (db_error "Transaction failed: ") 
                (transaction (roll_txn token_key token_secret raw_password)) in
  let! _ := reload_logged in
  mret res.

(** ** Creating a token *)

Definition has_separator (s : string) : bool := contains_char ":" s || contains_char "|" s.

Definition new_token_model (token_key token_secret : string) (ts_from ts_to : option Z)
    (limits : Json) (uname pw : option string) (id : Z) : Model := {|
  m_id := id;
  m_version := 1;
  m_token_key := token_key;
  m_token_hash := hash_string token_secret;
  m_time_stamp_from := ts_from;
  m_time_stamp_to := ts_to;
  m_token_limit := limits;
  m_username := uname;
  m_password_hash := option_map hash_string pw;
|}.

Definition generate_and_store_token (father : TokenOrAuth) (ts_from ts_to : option Z)
    (limits : list Limit) (uname pw : option string) (token_key token_secret : string) :
  Admin (string * string) :=
  let! g := globals in
  let! is_authorized := lift (map_err to_denied (check_super_token g father)) in
  if negb is_authorized
  then lift (denied "Permission Denied: Only Super Token can create new tokens") else
  let! _ := get_db (ConfigNotFound "Database connection not initialized") in
  if negb (Bool.eqb (bool_decide (is_Some uname)) (bool_decide (is_Some pw)))
  then lift (fail_with (ParseError "Username and Password must be both provided or both absent")) else
  if match uname with Some u => has_separator u | None => false end
  then lift (fail_with (InvalidInput "Username cannot contain ':' or '|' characters")) else
  if match pw with Some p => has_separator p | None => false end
  then lift (fail_with (InvalidInput "Password cannot contain ':' or '|' characters")) else
  let! limits_json := lift (map_err (fun e => OfNodeget (SerializationError
                        ("Failed to serialize token limits: " +:+ e))) (to_value_limits limits)) in
  let! _ := exec (db_error "Database insert error: ")
              (insert_auto (new_token_model token_key token_secret ts_from ts_to limits_json uname pw)) in
  let! _ := reload_logged in
  mret (token_key, token_secret).

Definition create (father_token : string) (ts_from ts_to : option Z) (limits : list Limit)
    (uname pw : option string) (rnd_key rnd_secret : string) : Admin (string * string) :=
  let! father := lift (parse_token father_token) in
  generate_and_store_token father ts_from ts_to limits uname pw rnd_key rnd_secret.

(** ** Finding a target *)

Definition extract_target_identifier (identifier : string) : string :=
  match split_once ":" identifier with
  | Some (k, _) => k
  | None => match split_once "|" identifier with Some (u, _) => u | None => identifier end
  end.

Definition key_is (k : string) (m : Model) : bool := String.eqb (m_token_key m) k.
Definition user_is (u : string) (m : Model) : bool :=
  match m_username m with Some n => String.eqb n u | None => false end.

Definition find_by_key_or_username (key_or_name : string) : Admin (option Model) :=
  let! by_key := exec (db_error "DB query error: ") (find_one (key_is key_or_name)) in
  match by_key with
  | Some m => mret (Some m)
  | None => exec (db_error "DB query error: ") (find_one (user_is key_or_name))
  end.

Fixpoint find_first (candidates : list string) : Admin (option Model) :=
  match candidates with
  | [] => mret None
  | c :: rest =>
      let! found := find_by_key_or_username c in
      match found with Some m => mret (Some m) | None => find_first rest end
  end.

Definition find_target_token (identifier : string) : Admin Model :=
  let! _ := get_db (DatabaseError "Database connection not initialized") in
  let extracted := extract_target_identifier identifier in
  let candidates := identifier :: (if String.eqb extracted identifier then [] else [extracted]) in
  let! found := find_first candidates in
  match found with
  | Some m => mret m
  | None => lift (fail_with (NotFound ("Target token not found by key/username: " +:+ extracted)))
  end.

Definition verify_supertoken (token : string) : Admin unit :=
  let! t := lift (map_err (fun e => OfNodeget (ParseError e)) (from_full_token token)) in
  let! g := globals in
  let! is_super := lift (map_err to_denied (check_super_token g t)) in
  if negb is_super then lift (denied "Only SuperToken can perform this operation") else mret tt.

(** ** Changing a token *)

Definition same_id (m m' : Model) : bool := (m_id m' =? m_id m)%Z.

Definition set_token_limit (v : Json) (m : Model) : Model :=
  {| m_id := m_id m; m_version := m_version m; m_token_key := m_token_key m;
     m_token_hash := m_token_hash m; m_time_stamp_from := m_time_stamp_from m;
     m_time_stamp_to := m_time_stamp_to m; m_token_limit := v; m_username := m_username m;
     m_password_hash := m_password_hash m |}.
Definition set_password_hash (h : string) (m : Model) : Model :=
  {| m_id := m_id m; m_version := m_version m; m_token_key := m_token_key m;
     m_token_hash := m_token_hash m; m_time_stamp_from := m_time_stamp_from m;
     m_time_stamp_to := m_time_stamp_to m; m_token_limit := m_token_limit m;
     m_username := m_username m; m_password_hash := Some h |}.
Definition set_token_hash (h : string) (m : Model) : Model :=
  {| m_id := m_id m; m_version := m_version m; m_token_key := m_token_key m;
     m_token_hash := h; m_time_stamp_from := m_time_stamp_from m;
     m_time_stamp_to := m_time_stamp_to m; m_token_limit := m_token_limit m;
     m_username := m_username m; m_password_hash := m_password_hash m |}.

Definition edit (token_input target_token : string) (limit : list Limit) : Admin (Z * string) :=
  let! t := lift (parse_token token_input) in
  let! g := globals in
  let! is_super_token := lift (map_err to_denied (check_super_token g t)) in
  if negb is_super_token then lift (denied "Only SuperToken can edit token limits") else
  let! _ := get_db (ConfigNotFound "Database connection not initialized") in
  let! by_key := exec (db_error "Database query error: ") (find_one (key_is target_token)) in
  let! m :=
    match by_key with
    | Some m => mret m
    | None =>
        let! by_name := exec (db_error "Database query error: ") (find_one (user_is target_token)) in
        match by_name with
        | Some m => mret m
        | None => lift (fail_with (NotFound ("Token not found by key/username: "
                                             +:+ extract_target_identifier target_token)))
        end
    end in
  if (m_id m =? 1)%Z then lift (denied "SuperToken cannot be edited") else
  let! v := lift (map_err (fun e => OfNodeget (SerializationError
              ("Failed to serialize token limit: " +:+ e))) (to_value_limits limit)) in
  let! updated := exec (db_error "Database update error: ")
                    (update_one (same_id m) (set_token_limit v)) in
  let! _ := reload_logged in
  mret (m_id updated, m_token_key updated).

Definition change_password (token target_token new_password : string) : Admin unit :=
  let! _ := verify_supertoken token in
  if str_is_empty new_password
  then lift (fail_with (InvalidInput "New password cannot be empty")) else
  if (String.length new_password <? 6)%nat
  then lift (fail_with (InvalidInput "New password must be at least 6 characters long")) else
  if has_separator new_password
  then lift (fail_with (InvalidInput "Password cannot contain ':' or '|' characters")) else
  let! target_model := find_target_token target_token in
  let! _ := get_db (DatabaseError "Database connection not initialized") in
  let! _ := exec (db_error "Failed to update password: ")
              (update_one (same_id target_model) (set_password_hash (hash_string new_password))) in
  let! _ := reload_logged in
  mret tt.

Definition roll_token_secret (token target_token new_secret : string) : Admin (string * string) :=
  let! _ := verify_supertoken token in
  let! target_model := find_target_token target_token in
  let! _ := get_db (DatabaseError "Database connection not initialized") in
  let! updated := exec (db_error "Failed to update token secret: ")
                    (update_one (same_id target_model) (set_token_hash (hash_string new_secret))) in
  let! _ := reload_logged in
  mret (m_token_key updated, new_secret).

(** ** Deleting a token *)

(** [delete_many().filter(Id.ne(1)).filter(p)], then a reload when something went. *)
Definition delete_tokens (p : Model -> bool) : Admin Z :=
  let! n := exec (fun e => OfNodeget (DatabaseError (db_msg e)))
              (delete_many (fun m => negb (m_id m =? 1)%Z && p m)) in
  let! _ := if (0 <? n)%Z then reload_logged else mret tt in
  mret n.

Definition delete_token_by_key (k : string) : Admin Z := delete_tokens (key_is k).
Definition delete_token_by_username (u : string) : Admin Z := delete_tokens (user_is u).

(** The deletion proper: by key first, by user name when no key matched. *)
Definition delete_target (target_token : string) : Admin (Z * string) :=
  let! n := delete_token_by_key target_token in
  if (0 <? n)%Z then mret (n, "token_key"%string) else
  let! n' := delete_token_by_username target_token in
  if (0 <? n')%Z then mret (n', "username"%string) else
  lift (fail_with (NotFound ("Token not found by key/username: "
                             +:+ extract_target_identifier target_token))).

Definition delete (token target_token : string) : Admin (Z * string) :=
  let! t := lift (parse_token token) in
  let! g := globals in
  let! is_super_token := lift (map_err to_denied (check_super_token g t)) in
  if negb is_super_token then lift (denied "Only SuperToken can delete tokens") else
  if trim_is_empty target_token
  then lift (fail_with (InvalidInput "target_token cannot be empty")) else
  let! _ := get_db (DatabaseError "Database connection not initialized") in
  let! found := exec (db_error "Database error: ") (find_one (fun m => (m_id m =? 1)%Z)) in
  let! super_record := lift (ok_or (OfNodeget (NotFound
                         "Super Token record (ID 1) not found in database")) found) in
  if key_is target_token super_record || user_is target_token super_record
  then lift (denied "SuperToken cannot be deleted") else
  delete_target target_token.

(** ** Reading *)

Definition get (token : string) (supertoken : option string) : Admin Token :=
  let! g := globals in
  match supertoken with
  | Some st =>
      let! s := lift (map_err (fun e => OfNodeget (ParseError ("Failed to parse supertoken: " +:+ e)))
                  (from_full_token st)) in
      let! is_super_token := lift (map_err to_denied (check_super_token g s)) in
      if negb is_super_token
      then lift (denied "Only SuperToken can query by username/token_key in token_get") else
      match from_full_token token with
      | Ok t => lift (get_token g t)
      | Err _ => lift (get_token_by_key_or_username g token)
      end
  | None =>
      let! t := lift (parse_token token) in
      lift (get_token g t)
  end.

Definition list_all_tokens (token : string) : Admin (list Token) :=
  let! t := lift (parse_token token) in
  let! g := globals in
  let! is_super_token := lift (map_err to_denied (check_super_token g t)) in
  if negb is_super_token then lift (denied "Only SuperToken can list all tokens") else
  match TOKEN_CACHE_GLOBAL g with
  | None => lift cache_missing
  | Some c => mret (map token_of (get_all c))
  end.
End token_admin.

(** ** Invariants *)

Section admin_facts.
Context {C : Crypto} {S : Serde} {DB : Type} {ops : TableOps DB Model}.
Context {laws : TableLaws ops token_conflict}.

Definition has_super (l : list Model) : Prop := exists m, m ∈ l /\ m_id m = 1%Z.

(** The table enforces its indexes and holds the super token; the cache is that of
    the table at some moment (the last successful load). *)
Definition world_ok (w : World DB) : Prop :=
  (forall d, w_db w = Some d -> models_unique (rows d) /\ has_super (rows d)) /\
  exists ms, globals_of ms (w_globals w).

(** A statement that keeps the index and super-token facts of the table. *)
Definition keeps_table {A} (stmt : M DB DbErr A) : Prop :=
  preserves (fun d => models_unique (rows d) /\ has_super (rows d)) stmt.

Lemma exec_world_ok {A} conv (stmt : M DB DbErr A) :
  keeps_table stmt -> preserves world_ok (exec conv stmt).
Proof using.
  intros Hk w Hw. pose proof Hw as [Hd Hg]. unfold exec.
  destruct (w_db w) as [d|] eqn:E; [|exact Hw].
  specialize (Hk d (Hd d eq_refl)). destruct (stmt d) as [d' r] eqn:Es. simpl in *.
  split; [|done]. simpl. by intros ? [= <-].
Qed.

Lemma find_one_keeps p : keeps_table (find_one p).
Proof using laws.
  intros d Hd. destruct (find_one p d) as [d' r] eqn:E. simpl.
  by rewrite (find_one_rows _ _ _ _ E).
Qed.

Lemma find_all_keeps p : keeps_table (find_all p).
Proof using laws.
  intros d Hd. destruct (find_all p d) as [d' r] eqn:E. simpl.
  by rewrite (find_all_rows _ _ _ _ E).
Qed.

Lemma has_super_perm l l' : l ≡ₚ l' -> has_super l -> has_super l'.
Proof using. intros Hp (m & Hm & Hid). exists m. by rewrite <-Hp. Qed.

Lemma has_super_cons x l : has_super l -> has_super (x :: l).
Proof using. intros (m & Hm & Hid). exists m. split; [by right|done]. Qed.

Lemma insert_auto_keeps mk : keeps_table (insert_auto mk).
Proof using laws.
  intros d [Hu Hs]. destruct (insert_auto mk d) as [d' r] eqn:E. simpl. split.
  - by eapply (insert_auto_unique (laws := laws)).
  - destruct r as [i|e].
    + apply insert_auto_ok in E as [Hp _]. eapply has_super_perm; [by symmetry|].
      by apply has_super_cons.
    + by apply insert_auto_err in E as [-> _].
Qed.

Lemma update_one_keeps p f : (forall m, m_id (f m) = m_id m) -> keeps_table (update_one p f).
Proof using laws.
  intros Hid d [Hu Hs]. destruct (update_one p f d) as [d' r] eqn:E. simpl. split.
  - by eapply update_unique.
  - destruct r as [x|e]; [|by rewrite (update_one_err _ _ _ _ _ E)].
    apply update_one_ok in E as [Hp _]. eapply has_super_perm; [by symmetry|].
    destruct Hs as (m & Hm & Hm1). exists (update_if p f m). split.
    + by apply list_elem_of_fmap_2.
    + unfold update_if. case_match; [by rewrite Hid|done].
Qed.

Lemma delete_many_keeps p :
  (forall m, m_id m = 1%Z -> p m = false) -> keeps_table (delete_many p).
Proof using laws.
  intros Hp1 d [Hu (m & Hm & Hm1)]. destruct (delete_many p d) as [d' r] eqn:E. simpl. split.
  - by eapply (delete_many_unique (laws := laws)).
  - destruct r as [n|e]; [|rewrite (delete_many_err _ _ _ _ E); by exists m].
    apply delete_many_ok in E as [Hp _]. eapply has_super_perm; [by symmetry|].
    exists m. split; [|done]. apply list_elem_of_In, filter_In.
    split; [by apply list_elem_of_In|]. by rewrite Hp1.
Qed.

Lemma roll_txn_rows k s p d1 d2 res :
  roll_txn k s p d1 = (d2, Ok res) ->
  rows d2 ≡ₚ super_model k s p :: List.filter (fun m => negb (m_id m =? 1)%Z) (rows d1) /\
  (models_unique (rows d1) -> models_unique (rows d2)) /\ res = (k +:+ ":" +:+ s, p).
Proof using laws.
  unfold roll_txn. intros H. inv_ok.
  match goal with
  | H1 : delete_many _ _ = _, H2 : insert _ _ = (_, Ok ?x) |- _ =>
      destruct x; pose proof (insert_unique (laws := laws) _ _ _ _ H2) as Hi;
      pose proof (delete_many_unique (laws := laws) _ _ _ _ H1) as Hd;
      apply delete_many_ok in H1 as [Hp1 _]; apply insert_ok in H2 as [Hp2 _]
  end.
  split; [by rewrite Hp2, Hp1|]. split; [|done]. intros Hu. by apply Hi, Hd.
Qed.

Lemma roll_keeps k s p : keeps_table (transaction (roll_txn k s p)).
Proof using laws.
  intros d [Hu Hs]. destruct (transaction _ d) as [d' [r|e]] eqn:E; simpl.
  - apply transaction_ok in E as (d1 & d2 & H1 & Hb & ->).
    apply roll_txn_rows in Hb as (Hp & Hu' & _). rewrite H1 in *. split; [auto|].
    eapply has_super_perm; [by symmetry|]. eexists. split; [by left|done].
  - by rewrite (transaction_err _ _ _ _ _ E).
Qed.

Lemma insert_keeps x : keeps_table (insert x).
Proof using laws.
  intros d [Hu Hs]. destruct (insert x d) as [d' r] eqn:E. simpl. split.
  - by eapply (insert_unique (laws := laws)).
  - destruct r as [[]|e].
    + apply insert_ok in E as [Hp _]. eapply has_super_perm; [by symmetry|].
      by apply has_super_cons.
    + by apply insert_err in E as [-> _].
Qed.

Lemma sync_keeps : keeps_table sync_token_id_sequence.
Proof using laws.
  intros d Hd. unfold sync_token_id_sequence. destruct (negb (is_postgres d)); [done|].
  destruct (advance_sequence d) as [d' r] eqn:E. simpl.
  by rewrite (advance_sequence_rows _ _ _ E).
Qed.

Lemma insert_new_super_keeps k s p : keeps_table (insert_new_super_token k s p).
Proof using laws.
  apply preserves_bind; [apply insert_keeps|intros _].
  apply preserves_bind; [apply sync_keeps|intros _]. apply preserves_ret.
Qed.

(** ** Reloading *)

Lemma globals_of_perm ms ms' g : ms ≡ₚ ms' -> globals_of ms g -> globals_of ms' g.
Proof using.
  intros Hp [Hu Hs (c & Hc & [Hk Hn]) Hst].
  assert (models_unique ms') as Hu' by by eapply unique_rows_perm; [apply token_conflict_sym| |].
  split; [done|by eapply has_super_perm| |].
  - exists c. split; [done|]. split; setoid_rewrite <-Hp; done.
  - rewrite Hst. destruct (super_of ms') as [e|] eqn:E.
    + apply super_of_spec; [done|]. apply super_of_spec in E; [|done]. by setoid_rewrite Hp.
    + destruct Hs as (m & Hm & Hid). exfalso.
      enough (super_of ms' = Some (cached_of m)) by congruence.
      apply super_of_spec; [done|]. exists m. by rewrite <-Hp.
Qed.

(** A reload leaves the rows alone; it brings the cache in step with them, or fails
    and leaves the cache alone too. *)
Lemma reload_spec w d w' r :
  world_ok w -> w_db w = Some d -> reload w = (w', r) ->
  exists d', w_db w' = Some d' /\ rows d' = rows d /\
    match r with
    | Ok _ => globals_of (rows d) (w_globals w')
    | Err _ => w_globals w' = w_globals w
    end.
Proof using laws.
  intros [Hd [ms Hg]] Hw. destruct (Hd d Hw) as [Hu Hs].
  destruct (globals_cache_some _ _ Hg) as [c Hc].
  unfold reload, globals, asks, load_all, get_db, exec, mbind. rewrite Hc, Hw. simpl. rewrite Hw.
  destruct (find_all (fun _ => true) d) as [d' [l|e]] eqn:E; simpl; intros [= <- <-]; exists d'; simpl;
    rewrite (find_all_rows _ _ _ _ E); split_and!; try done.
  apply find_all_ok in E. rewrite List.filter_true in E.
  eapply globals_of_perm; [exact E|]. apply reload_globals_of.
  - by eapply unique_rows_perm; [apply token_conflict_sym|by symmetry|].
  - by eapply has_super_perm; [by symmetry|].
Qed.

Lemma reload_logged_ok : preserves world_ok (reload_logged (DB := DB)).
Proof using laws.
  intros w Hw. unfold reload_logged. destruct (reload w) as [w' r] eqn:E. simpl.
  destruct (w_db w) as [d|] eqn:Ed.
  - destruct (reload_spec _ _ _ _ Hw Ed E) as (d' & Hd' & Hr & Hg).
    destruct Hw as [Hd Hms]. split.
    + intros d'' H. assert (d'' = d') as -> by congruence. rewrite Hr. by apply Hd.
    + destruct r; [by eexists|]. by rewrite Hg.
  - destruct Hw as [Hd [ms Hms]]. destruct (globals_cache_some _ _ Hms) as [c Hc].
    unfold reload, globals, asks, mbind, load_all, get_db, mbind in E. rewrite Hc, Ed in E.
    injection E as <- <-. split; [|by eexists]. intros d. by rewrite Ed.
Qed.

Lemma get_db_ok e : preserves world_ok (get_db (DB := DB) e).
Proof using. intros w Hw. unfold get_db. by destruct (w_db w). Qed.

Hint Resolve exec_world_ok find_one_keeps find_all_keeps insert_auto_keeps roll_keeps
  reload_logged_ok get_db_ok : nodeget.

Lemma find_target_ok t : preserves world_ok (find_target_token (DB := DB) t).
Proof using laws.
  unfold find_target_token. preserve.
  generalize (t :: (if String.eqb (extract_target_identifier t) t
                    then [] else [extract_target_identifier t])).
  induction l as [|x l IH]; simpl; unfold find_by_key_or_username; preserve.
Qed.

Lemma verify_supertoken_ok t : preserves world_ok (verify_supertoken (DB := DB) t).
Proof using. unfold verify_supertoken, globals. preserve. Qed.

Lemma update_ok conv m f :
  (forall m, m_id (f m) = m_id m) -> preserves world_ok (exec conv (update_one (same_id m) f)).
Proof using laws. intros Hf. by apply exec_world_ok, update_one_keeps. Qed.

Lemma delete_tokens_ok p : preserves world_ok (delete_tokens (DB := DB) p).
Proof using laws.
  unfold delete_tokens. preserve. apply exec_world_ok, delete_many_keeps. by intros m ->.
Qed.

Hint Resolve find_target_ok verify_supertoken_ok update_ok delete_tokens_ok : nodeget.

Lemma generate_super_ok k s p : preserves world_ok (generate_super_token (DB := DB) k s p).
Proof using laws.
  unfold generate_super_token. apply preserves_bind; [apply get_db_ok|intros _].
  intros w Hw. destruct (w_db w) as [d|] eqn:Ed; [|done].
  pose proof (insert_new_super_keeps k s p d) as Hk.
  destruct (insert_new_super_token k s p d) as [d' r]. simpl in Hk.
  assert (world_ok {| w_db := Some d'; w_globals := w_globals w |}) as Hw'.
  { destruct Hw as [Hd Hg]. split; [|done]. simpl. intros ? [= <-]. by apply Hk, Hd. }
  destruct r as [res|e]; [by apply reload_logged_ok|]. by destruct (is_unique_violation e).
Qed.

(** One administrative operation, whatever its arguments and outcome. *)
Inductive admin_step (w : World DB) : World DB -> Prop :=
| step_create tok f t l u p k s : admin_step w (fst (create tok f t l u p k s w))
| step_edit tok target l : admin_step w (fst (edit tok target l w))
| step_delete tok target : admin_step w (fst (delete tok target w))
| step_change_password tok target p : admin_step w (fst (change_password tok target p w))
| step_roll_token_secret tok target s : admin_step w (fst (roll_token_secret tok target s w))
| step_roll_super k s p : admin_step w (fst (roll_super_token k s p w))
| step_generate_super k s p : admin_step w (fst (generate_super_token k s p w))
| step_reload : admin_step w (fst (reload_logged w)).

Lemma admin_step_ok w w' : world_ok w -> admin_step w w' -> world_ok w'.
Proof using laws.
  intros Hw Hs. destruct Hs; revert Hw; revert w.
  - fold (preserves world_ok (create (DB := DB) tok f t l u p k s)).
    unfold create, generate_and_store_token, globals. preserve.
  - fold (preserves world_ok (edit (DB := DB) tok target l)).
    unfold edit, globals. preserve.
  - fold (preserves world_ok (delete (DB := DB) tok target)).
    unfold delete, delete_target, delete_token_by_key, delete_token_by_username, globals. preserve.
  - fold (preserves world_ok (change_password (DB := DB) tok target p)).
    unfold change_password. preserve.
  - fold (preserves world_ok (roll_token_secret (DB := DB) tok target s)).
    unfold roll_token_secret. preserve.
  - fold (preserves world_ok (roll_super_token (DB := DB) k s p)).
    unfold roll_super_token. preserve.
  - apply generate_super_ok.
  - apply reload_logged_ok.
Qed.

(** C3: token administration keeps the system administrable.  Through any sequence of
    administrative operations, successful or not, the token table keeps its unique
    keys, user names and ids and always holds the super token, and the cache is always
    the complete index of some table contents with a super token. *)
Theorem admin_invariant w w' :
  world_ok w -> rtc admin_step w w' -> world_ok w'.
Proof using laws.
  intros Hw Hr. induction Hr as [|w1 w2 w3 Hs _ IH]; [done|].
  apply IH. by eapply admin_step_ok.
Qed.

(** Only the super token administers.  When the presented token does not parse to a
    credential the super-token test accepts, every administrative method fails and
    changes nothing, neither the database nor the cache. *)
Theorem admin_requires_super w tok :
  (forall t, from_full_token tok = Ok t -> check_super_token (w_globals w) t <> Ok true) ->
  (forall f t l u p k s, exists e, create tok f t l u p k s w = (w, Err e)) /\
  (forall target l, exists e, edit tok target l w = (w, Err e)) /\
  (forall target, exists e, delete tok target w = (w, Err e)) /\
  (forall target p, exists e, change_password tok target p w = (w, Err e)) /\
  (forall target s, exists e, roll_token_secret tok target s w = (w, Err e)) /\
  (exists e, list_all_tokens tok w = (w, Err e)).
Proof using.
  intros Hno. unfold create, generate_and_store_token, edit, delete, change_password,
    roll_token_secret, list_all_tokens, verify_supertoken, parse_token, globals, mbind, lift, asks.
  destruct (from_full_token tok) as [t|e]; simpl; [|by split_and!; eauto].
  specialize (Hno t eq_refl). destruct (check_super_token (w_globals w) t) as [[]|]; simpl;
    [done|by split_and!; eauto|by split_and!; eauto].
Qed.

(** ** What a successful operation leaves behind *)

Lemma exec_some {A} conv (stmt : M DB DbErr A) w d w' r :
  w_db w = Some d -> exec conv stmt w = (w', r) ->
  exists d' r0, stmt d = (d', r0) /\
    w' = {| w_db := Some d'; w_globals := w_globals w |} /\ r = map_err conv r0.
Proof using.
  intros Hd. unfold exec. rewrite Hd. destruct (stmt d) as [d' r0]. intros [= <- <-]. eauto.
Qed.

Lemma get_db_some e (w : World DB) d : w_db w = Some d -> get_db e w = (w, Ok tt).
Proof using. unfold get_db. by intros ->. Qed.

Lemma reload_logged_spec w d w' r :
  world_ok w -> w_db w = Some d -> reload_logged w = (w', r) ->
  exists d', w_db w' = Some d' /\ rows d' = rows d /\
    (w_globals w' = w_globals w \/ globals_of (rows d) (w_globals w')).
Proof using laws.
  intros Hw Hd. unfold reload_logged. destruct (reload w) as [w1 r1] eqn:E.
  intros [= <- <-]. destruct (reload_spec _ _ _ _ Hw Hd E) as (d' & Hd' & Hr & Hg).
  exists d'. simpl. destruct r1; eauto.
Qed.

Lemma hash_cached k s f t l u p i :
  token_hash_bytes (cached_of (new_token_model k s f t l u p i)) = hash_to_bytes s.
Proof using. unfold cached_of. simpl. by rewrite hash_string_decodes. Qed.

Lemma password_cached k s f t l u p i :
  password_hash_bytes (cached_of (new_token_model k s f t l u (Some p) i)) =
  Some (hash_to_bytes p).
Proof using. unfold cached_of. simpl. by rewrite hash_string_decodes. Qed.

(** A cache in step with a table holding [m] accepts the credentials of [m]. *)
Lemma get_token_row ms g m t :
  globals_of ms g -> m ∈ ms -> holds_credential (cached_of m) t ->
  get_token g t = Ok (token_of (cached_of m)).
Proof using.
  intros Hg Hm Hh. destruct (g_cache _ _ Hg) as (c & Hc & Hcache).
  apply (get_token_spec ms g c t _ Hc Hcache). eauto.
Qed.

(** The credentials handed out for a new token. *)
Definition issued (key secret : string) (uname pw : option string) : list TokenOrAuth :=
  Auth_Token key secret ::
  match uname, pw with Some u, Some p => [Auth_Auth u p] | _, _ => [] end.

Lemma generate_ok father ts_from ts_to limits uname pw key secret w w' d res :
  world_ok w -> w_db w = Some d ->
  generate_and_store_token father ts_from ts_to limits uname pw key secret w = (w', Ok res) ->
  (forall u p, uname = Some u -> pw = Some p -> has_separator u = false /\ has_separator p = false) /\
  res = (key, secret) /\
  exists d' v id, w_db w' = Some d' /\ to_value_limits limits = Ok v /\
    rows d' ≡ₚ new_token_model key secret ts_from ts_to v uname pw id :: rows d /\
    (w_globals w' = w_globals w \/ globals_of (rows d') (w_globals w')).
Proof using laws.
  intros Hw Hd. unfold generate_and_store_token, globals. intros H. inv_guards.
  rewrite (get_db_some _ _ _ Hd) in *. inv_guards.
  match goal with H : exec ?c ?st ?w0 = _ |- _ =>
    rename w0 into w; pose proof (exec_world_ok c st (insert_auto_keeps _) w Hw) as Hw1;
    rewrite H in Hw1; destruct (exec_some _ _ _ _ _ _ Hd H) as (d1 & r1 & Hi & -> & Hr) end.
  symmetry in Hr. apply map_err_ok in Hr as ->.
  match goal with H : reload_logged _ = _ |- _ => rename H into Hrl end.
  destruct (reload_logged_spec _ _ _ _ Hw1 eq_refl Hrl) as (d' & Hd' & Hrows & Hg).
  apply insert_auto_ok in Hi as [Hp _].
  split; [|split; [done|]].
  - by intros u p -> ->.
  - eexists d', _, _. split; [done|]. split; [done|]. rewrite Hrows. eauto.
Qed.

Lemma no_separator s :
  has_separator s = false -> contains_char ":" s = false /\ contains_char "|" s = false.
Proof using. unfold has_separator. by intros [? ?]%orb_false_iff. Qed.

(** The credentials of a new token can be written out, parsed back and held. *)
Lemma issued_works key secret f t v uname pw id c :
  contains_char ":" key = false ->
  (forall u p, uname = Some u -> pw = Some p -> has_separator u = false /\ has_separator p = false) ->
  c ∈ issued key secret uname pw ->
  from_full_token (full_token c) = Ok c /\
  holds_credential (cached_of (new_token_model key secret f t v uname pw id)) c.
Proof using.
  intros Hk Hsep Hc. unfold issued in Hc. apply elem_of_cons in Hc as [->|Hc].
  - split; [by apply from_full_token_printable|]. split; [done|]. apply hash_cached.
  - destruct uname as [u|], pw as [p|]; try by apply not_elem_of_nil in Hc.
    apply list_elem_of_singleton in Hc as ->.
    destruct (Hsep u p eq_refl eq_refl) as [[? ?]%no_separator [? ?]%no_separator].
    split; [by apply from_full_token_printable|]. split; [done|]. apply password_cached.
Qed.

Context {serde_laws : SerdeLaws S}.

(** a created token can log in.  When [create] succeeds, exactly one row was added
    to the table; and once the reload it triggers went through, the token's key and
    secret, and its user name and password if it has them, written out in the wire
    format, parse and authenticate to a token with exactly the requested limits, validity
    period and user name. *)
Theorem create_then_login father ts_from ts_to limits uname pw key secret w w' d res :
  world_ok w -> w_db w = Some d -> contains_char ":" key = false ->
  create father ts_from ts_to limits uname pw key secret w = (w', Ok res) ->
  res = (key, secret) /\
  exists d' m, w_db w' = Some d' /\ rows d' ≡ₚ m :: rows d /\ m_token_key m = key /\
    (w_globals w' = w_globals w \/
     forall c, c ∈ issued key secret uname pw ->
       from_full_token (full_token c) = Ok c /\
       get_token (w_globals w') c =
         Ok {| version := 1; token_key := key; timestamp_from := ts_from; timestamp_to := ts_to;
               token_limit := limits; username := uname |}).
Proof using laws serde_laws.
  intros Hw Hd Hk. unfold create. intros H. inv_ok.
  match goal with H : generate_and_store_token _ _ _ _ _ _ _ _ ?w0 = _ |- _ =>
    rename w0 into w; destruct (generate_ok _ _ _ _ _ _ _ _ _ _ _ _ Hw Hd H)
      as (Hsep & -> & d' & v & id & Hd' & Hv & Hp & Hg) end.
  split; [done|]. eexists d', _. split; [done|]. split; [exact Hp|]. split; [done|].
  destruct Hg as [Hg|Hg]; [by left|right]. intros c Hc.
  destruct (issued_works _ _ ts_from ts_to v _ _ id _ Hk Hsep Hc) as [Hparse Hholds].
  split; [done|]. etransitivity.
  - eapply get_token_row; [exact Hg| |exact Hholds]. rewrite Hp. by left.
  - unfold token_of, cached_of, parse_token_limit_with_compat. simpl.
    apply limits_roundtrip in Hv. by rewrite Hv.
Qed.

(** Rolling the super token is atomic and final.  A failed roll leaves the table and
    the cache as they were; a successful one replaces the super-token row and no other,
    and once the reload went through the returned credential parses and is accepted as
    the super token, and no credential other than the new ones is. *)
Theorem roll_super_token_spec k s p w w' d r :
  world_ok w -> w_db w = Some d -> contains_char ":" k = false ->
  roll_super_token k s p w = (w', r) ->
  exists d', w_db w' = Some d' /\
  match r with
  | Err _ => rows d' = rows d /\ w_globals w' = w_globals w
  | Ok (full, password) =>
      password = p /\
      rows d' ≡ₚ super_model k s p :: List.filter (fun m => negb (m_id m =? 1)%Z) (rows d) /\
      (w_globals w' = w_globals w \/
       (exists t, from_full_token full = Ok t /\ check_super_token (w_globals w') t = Ok true) /\
       forall t, check_super_token (w_globals w') t = Ok true ->
         holds_credential (cached_of (super_model k s p)) t)
  end.
Proof using laws.
  intros Hw Hd Hk. unfold roll_super_token, mbind. rewrite (get_db_some _ _ _ Hd).
  pose proof (exec_world_ok (db_error "Transaction failed: ") _ (roll_keeps k s p) w Hw) as Hw1.
  destruct (exec _ _ w) as [w1 r1] eqn:E.
  destruct (exec_some _ _ _ _ _ _ Hd E) as (d1 & r0 & Ht & -> & ->). simpl in Hw1.
  destruct r0 as [[full pw]|e]; cbn [map_err].
  - destruct (reload_logged _) as [w2 r2] eqn:Erl.
    assert (r2 = Ok tt) as -> by (unfold reload_logged in Erl; congruence).
    intros [= <- <-].
    destruct (reload_logged_spec _ _ _ _ Hw1 eq_refl Erl) as (d2 & Hd2 & Hrows & Hg).
    apply transaction_ok in Ht as (d3 & d4 & H3 & Hb & H4).
    apply roll_txn_rows in Hb as (Hp & _ & [= -> ->]). exists d2. split; [done|]. split; [done|].
    rewrite H3 in Hp. rewrite Hrows, H4. split; [done|].
    destruct Hg as [Hg|Hg]; [by left|right]. rewrite H4 in Hg.
    destruct (check_super_total _ _ (Auth_Token k s) Hg) as (b & Hb & Hsup).
    assert (super_model k s p ∈ rows d4) as Hin by (rewrite Hp; by left).
    split.
    + exists (Auth_Token k s). split; [by apply (from_full_token_printable (Auth_Token k s))|].
      rewrite Hb. f_equal. apply Hsup. exists (super_model k s p). split; [done|].
      split; [done|]. split; [done|]. unfold cached_of. simpl. by rewrite hash_string_decodes.
    + intros t Hok. destruct (check_super_total _ _ t Hg) as (b' & Hb' & Hsup').
      assert (b' = true) as -> by congruence. destruct (proj1 Hsup' eq_refl) as (m & Hm & Hid & Hh).
      assert (m = super_model k s p) as ->
        by (eapply models_unique_id; [apply Hg| | |]; done). done.
  - intros [= <- <-]. exists d1. by rewrite (transaction_err _ _ _ _ _ Ht).
Qed.

Lemma filter_ext_in (p q : Model -> bool) l :
  (forall m, m ∈ l -> p m = q m) -> List.filter p l = List.filter q l.
Proof using.
  intros H. apply filter_ext_in. intros m Hm. apply H. by apply list_elem_of_In.
Qed.

Lemma filter_no_match (p : Model -> bool) l :
  no_match p l -> List.filter (fun m => negb (p m)) l = l.
Proof using.
  intros H. rewrite (filter_ext_in _ (fun _ => true)); [apply List.filter_true|].
  intros m Hm. by rewrite (H m Hm).
Qed.

Lemma delete_tokens_spec p w w' d r :
  world_ok w -> w_db w = Some d ->
  (forall m, m ∈ rows d -> m_id m = 1%Z -> p m = false) ->
  delete_tokens p w = (w', r) ->
  exists d', w_db w' = Some d' /\ world_ok w' /\
    match r with
    | Ok n => rows d' ≡ₚ List.filter (fun m => negb (p m)) (rows d) /\
              ((0 <? n)%Z = false <-> no_match p (rows d))
    | Err _ => rows d' = rows d
    end.
Proof using laws.
  intros Hw Hd Hp1 H. pose proof (delete_tokens_ok p w Hw) as Hw'. rewrite H in Hw'.
  simpl in Hw'. revert H. unfold delete_tokens, mbind.
  set (q := fun m => negb (m_id m =? 1)%Z && p m).
  assert (forall m, m ∈ rows d -> q m = p m) as Hq.
  { intros m Hm. unfold q. destruct (m_id m =? 1)%Z eqn:E; [|done].
    apply Z.eqb_eq in E. by rewrite (Hp1 m Hm E). }
  assert (keeps_table (delete_many q)) as Hkeep 
    by (apply delete_many_keeps; unfold q; by intros m ->).
  pose proof (exec_world_ok (fun e => OfNodeget (DatabaseError (db_msg e))) _ Hkeep w Hw) as Hw1.
  destruct (exec _ _ w) as [w1 r1] eqn:E.
  destruct (exec_some _ _ _ _ _ _ Hd E) as (d1 & r0 & Ht & -> & ->). clear E.
  destruct r0 as [n|e]; cbn [map_err fst] in *.
  - assert ((0 <? n)%Z = false <-> no_match p (rows d)) as Hn.
    { rewrite (delete_many_count (laws := laws) _ _ _ _ Ht). unfold no_match.
      split; intros Hm m Hin; specialize (Hm m Hin); by rewrite (Hq m Hin) in *. }
    apply delete_many_ok in Ht as [Hp _].
    rewrite (filter_ext_in _ (fun m => negb (p m))) in Hp by (intros m Hm; by rewrite (Hq m Hm)).
    destruct (0 <? n)%Z eqn:En.
    + destruct (reload_logged _) as [w2 r2] eqn:Erl.
      assert (r2 = Ok tt) as -> by (unfold reload_logged in Erl; congruence).
      intros [= <- <-].
      destruct (reload_logged_spec _ _ _ _ Hw1 eq_refl Erl) as (d2 & Hd2 & Hrows & _).
      exists d2. by rewrite Hrows, En.
    + intros [= <- <-]. exists d1. by rewrite En.
  - intros [= <- <-]. exists d1. by rewrite (delete_many_err _ _ _ _ Ht).
Qed.

(** How the response names the column a target was found by. *)
Definition matched_by (by_col : string) (target : string) : Model -> bool :=
  if String.eqb by_col "token_key" then key_is target else user_is target.

Definition delete_outcome (d : DB) (target : string) (w' : World DB) (r : result anyhow (Z * string)) : Prop :=
  exists d', w_db w' = Some d' /\
    match r with
    | Err _ => rows d' ≡ₚ rows d
    | Ok (_, by_col) =>
        let p := matched_by by_col target in
        ~ no_match p (rows d) /\
        (forall m, m ∈ rows d -> m_id m = 1%Z -> p m = false) /\
        rows d' ≡ₚ List.filter (fun m => negb (p m)) (rows d)
    end.

Lemma delete_target_spec target w w' d r :
  world_ok w -> w_db w = Some d ->
  (forall m, m ∈ rows d -> m_id m = 1%Z -> key_is target m = false /\ user_is target m = false) ->
  delete_target target w = (w', r) -> delete_outcome d target w' r.
Proof using laws.
  intros Hw Hd Honly. unfold delete_target, mbind, lift, mret, delete_outcome.
  destruct (delete_token_by_key target w) as [w2 r2] eqn:E2.
  destruct (delete_tokens_spec (key_is target) _ _ d _ Hw Hd
              ltac:(intros m Hm H1; by destruct (Honly m Hm H1)) E2) as (d2 & Hd2 & Hw2 & Hr2).
  destruct r2 as [n|e]; [|intros [= <- <-]; exists d2; by rewrite Hr2].
  destruct Hr2 as [Hp2 Hn2]. destruct (0 <? n)%Z eqn:En.
  { intros [= <- <-]. exists d2. split; [done|]. cbn.
    split_and!; [by intros Hno%Hn2|intros m Hm H1; by destruct (Honly m Hm H1)|done]. }
  rewrite filter_no_match in Hp2 by (by apply Hn2).
  destruct (delete_token_by_username target w2) as [w3 r3] eqn:E3.
  destruct (delete_tokens_spec (user_is target) _ _ d2 _ Hw2 Hd2
              ltac:(intros m Hm H1; rewrite Hp2 in Hm; by destruct (Honly m Hm H1)) E3)
    as (d3 & Hd3 & _ & Hr3).
  destruct r3 as [n'|e]; [|intros [= <- <-]; exists d3; by rewrite Hr3].
  destruct Hr3 as [Hp3 Hn3].
  assert (no_match (user_is target) (rows d2) <-> no_match (user_is target) (rows d)) as Hiff
    by (unfold no_match; by setoid_rewrite Hp2).
  destruct (0 <? n')%Z eqn:En'; intros [= <- <-]; exists d3; (split; [done|]); cbn.
  - split_and!; [by intros Hno%Hiff%Hn3|intros m Hm H1; by destruct (Honly m Hm H1)|].
    by rewrite Hp3, Hp2.
  - rewrite Hp3, filter_no_match by (by apply Hn3). done.
Qed.

(** Deleting removes the target and nothing else.  A failed [delete] leaves the
    table contents as they were; a successful one reports the column the target was
    found by, removed at least one row, and removed exactly the rows with that key (or,
    when no key matches, with that user name).  The super token is never among them. *)
Theorem delete_spec tok target w w' d r :
  world_ok w -> w_db w = Some d -> delete tok target w = (w', r) ->
  delete_outcome d target w' r.
Proof using laws.
  intros Hw Hd. unfold delete, mbind, lift, globals, asks.
  assert (forall e : anyhow, (w, Err e) = (w', r) -> delete_outcome d target w' r) as Herr
    by (intros e [= <- <-]; by exists d).
  destruct (parse_token tok) as [t|]; [|apply Herr].
  destruct (map_err _ _) as [[]|]; cbn beta iota delta [negb]; try apply Herr.
  destruct (trim_is_empty target); [apply Herr|]. clear Herr. cbn beta iota.
  rewrite (get_db_some _ _ _ Hd). cbn beta iota.
  destruct (exec _ (find_one _) w) as [w1 r1] eqn:E.
  pose proof (exec_world_ok (db_error "Database error: ") _
                (find_one_keeps (fun m => (m_id m =? 1)%Z)) w Hw) as Hw1. rewrite E in Hw1.
  destruct (exec_some _ _ _ _ _ _ Hd E) as (d1 & r0 & Hf & -> & ->).
  pose proof (find_one_rows _ _ _ _ Hf) as Hrows1. unfold delete_outcome.
  destruct r0 as [[sr|]|]; cbn [map_err ok_or];
    try (intros [= <- <-]; exists d1; by rewrite Hrows1).
  destruct (key_is target sr || user_is target sr) eqn:Es;
    [intros [= <- <-]; exists d1; split; [done|]; cbn; by rewrite Hrows1|].
  apply orb_false_iff in Es as [Ek Eu]. apply find_one_some in Hf as [Hsr Hid%Z.eqb_eq].
  rewrite <-Hrows1 in *. apply delete_target_spec; [done|done|].
  intros m Hm Hm1. destruct Hw1 as [Hu _]. destruct (Hu d1 eq_refl) as [Huniq _].
  assert (m = sr) as -> by (eapply models_unique_id; [exact Huniq|done|done|congruence]). done.
Qed.
End admin_facts.

(** ** Examples *)

Definition sample_world : World (ListTable Model) :=
  {| w_db := Some sample_db; w_globals := sample_globals |}.

Lemma sample_world_ok : world_ok sample_world.
Proof.
  split; [|exists sample_models; exact sample_globals_of].
  intros d [= <-]. split; [by vm_compute|]. exists super_row. split; [by left|done].
Qed.

(** Roll the super token, then delete alice with the new credential. *)
Definition after_roll : World (ListTable Model) :=
  fst (roll_super_token "newkey" "newsecret" "newpw" sample_world).
Definition after_delete : World (ListTable Model) :=
  fst (delete "newkey:newsecret" "alice" after_roll).

Example after_delete_rows :
  option_map tbl (w_db after_delete) = Some [super_model "newkey" "newsecret" "newpw"].
Proof. by vm_compute. Qed.

Lemma admin_invariant_witness : world_ok after_delete.
Proof.
  apply (admin_invariant sample_world); [exact sample_world_ok|].
  eapply rtc_l; [apply (step_roll_super _ "newkey" "newsecret" "newpw")|].
  eapply rtc_l; [apply (step_delete _ "newkey:newsecret" "alice")|]. apply rtc_refl.
Defined.

Lemma admin_requires_super_witness :
  exists e, delete "alicekey:alicesecret" "root" sample_world = (sample_world, Err e).
Proof.
  apply (admin_requires_super sample_world "alicekey:alicesecret").
  intros t Ht. assert (t = Auth_Token "alicekey" "alicesecret") as -> by (by injection Ht as <-).
  by vm_compute.
Defined.

Lemma create_then_login_witness :
  exists w', create "rootkey:rootsecret" None (Some 9000%Z) witness_limits (Some "bob"%string)
    (Some "bobpw"%string) "bobkey" "bobsecret" sample_world = (w', Ok ("bobkey"%string, "bobsecret"%string)) /\
  get_token (w_globals w') (Auth_Auth "bob" "bobpw") =
    Ok {| version := 1; token_key := "bobkey"; timestamp_from := None; timestamp_to := Some 9000%Z;
          token_limit := witness_limits; username := Some "bob"%string |}.
Proof.
  destruct (create "rootkey:rootsecret" None (Some 9000%Z) witness_limits (Some "bob"%string)
    (Some "bobpw"%string) "bobkey" "bobsecret" sample_world) as [w' r] eqn:E.
  assert (r = Ok ("bobkey"%string, "bobsecret"%string)) as -> by (by vm_compute in E; injection E).
  exists w'. split; [reflexivity|].
  destruct (create_then_login _ _ _ _ _ _ "bobkey" _ _ _ sample_db _ sample_world_ok eq_refl
              eq_refl E)
    as (_ & d' & m & _ & _ & _ & [Hg|Hlogin]).
  - exfalso. assert (get_token (w_globals w') (Auth_Auth "bob" "bobpw")
      <> get_token (w_globals sample_world) (Auth_Auth "bob" "bobpw")) as Hne
      by (vm_compute in E; injection E as <-; by vm_compute). by rewrite Hg in Hne.
  - apply Hlogin. right; left.
Defined.

Lemma roll_super_token_spec_witness :
  exists d', w_db after_roll = Some d' /\
    rows d' ≡ₚ super_model "newkey" "newsecret" "newpw" ::
               List.filter (fun m => negb (m_id m =? 1)%Z) (rows sample_db).
Proof.
  destruct (roll_super_token "newkey" "newsecret" "newpw" sample_world) as [w' r] eqn:E.
  assert (w' = after_roll) as -> by (unfold after_roll; by rewrite E).
  destruct (roll_super_token_spec "newkey" _ _ _ _ sample_db r sample_world_ok eq_refl eq_refl E)
    as (d' & Hd' & Hr).
  exists d'. split; [exact Hd'|].
  assert (is_ok r = true) as Hok
    by (transitivity (is_ok (snd (roll_super_token "newkey" "newsecret" "newpw" sample_world)));
        [by rewrite E|by vm_compute]).
  destruct r as [[full pw]|e]; [apply Hr|discriminate Hok].
Defined.

Lemma delete_spec_witness :
  delete_outcome (ops := token_table) sample_db "alice" (fst (delete "rootkey:rootsecret" "alice" sample_world))
    (snd (delete "rootkey:rootsecret" "alice" sample_world)).
Proof.
  apply (delete_spec "rootkey:rootsecret" "alice" sample_world);
    [exact sample_world_ok|reflexivity|apply surjective_pairing].
Defined.
