(* ===== verification/KvAuth.v ===== *)
(** * Permissions of the key-value store

    [ng-kv/src/auth.rs] and [ng-kv/src/reserved.rs]: name validation and one permission
    check per operation.  Listing and creating namespaces go through the registered
    [PermissionChecker] ([ng-core/src/permission/permission_checker.rs], implemented in
    [server/src/subcommands/serve.rs]); the others call [ng-token] directly. *)
From stdpp Require Import base strings gmap list numbers.
From Stdlib Require Import Ascii.
From S2P Require Import Prelude Errors Json Db Permission TokenCache Concrete TokenCheck.

(** The trait object every crate authorises through. *)
Record PermissionChecker : Type := {
  pc_check_token_limit : TokenOrAuth -> list Scope -> list Permission -> result anyhow bool;
  pc_check_super_token : TokenOrAuth -> result anyhow bool;
  pc_get_token : TokenOrAuth -> result anyhow Token;
}.

Definition ServerPermissionChecker `{Crypto} `{Serde} (g : Globals) (clk : Clock) : PermissionChecker := {|
  pc_check_token_limit := check_token_limit g clk;
  pc_check_super_token := check_super_token g;
  pc_get_token := get_token g;
|}.

(** What an authorisation check sees: the token state, the clock, the registered checker. *)
Record Env : Type := {
  e_globals : Globals;
  e_clock : Clock;
  PERMISSION_CHECKER : option PermissionChecker;
}.

Definition require_permission_checker (e : Env) : result anyhow PermissionChecker :=
  ok_or (OfNodeget (ConfigNotFound "PermissionChecker not initialized")) (PERMISSION_CHECKER e).

Inductive KvNamespaceListPermission : Type :=
| ListAll
| ListScoped (allowed : gset string).

(** ** Validation *)

Definition validate_namespace (namespace : string) : result anyhow unit :=
  if str_is_empty namespace then fail_with (InvalidInput "Namespace cannot be empty")
  else if contains_char "*" namespace
       then fail_with (InvalidInput "Namespace cannot contain '*' character")
       else Ok tt.

Definition validate_key (key : string) : result anyhow unit :=
  if contains_char "*" key
  then fail_with (InvalidInput "Key cannot contain '*' character")
  else Ok tt.

Definition validate_key_pattern (key : string) : result anyhow unit :=
  if str_is_empty key then fail_with (InvalidInput "Key cannot be empty") else
  if negb (contains_char "*" key) then Ok tt else
  let star_count := count_char "*" key in
  let ends_with_star := match strip_suffix "*" key with Some _ => true | None => false end in
  if negb (star_count =? 1)%nat || negb ends_with_star
  then fail_with (InvalidInput "Wildcard key must contain exactly one '*' and it must be at the end")
  else Ok tt.

Definition RESERVED_NAMESPACE_PREFIX : string := "__".

Definition is_reserved_namespace (namespace : string) : bool :=
  starts_with namespace RESERVED_NAMESPACE_PREFIX.

Definition ensure_namespace_writable (namespace : string) : result anyhow unit :=
  if is_reserved_namespace namespace
  then denied ("namespace `" +:+ namespace +:+
               "` is reserved for server-internal use and cannot be written via RPC")
  else Ok tt.

Section kv_auth.
Context `{Crypto} `{Serde}.

Inductive KvTokenState : Type :=
| Granted
| Denied
| KvToken (t : Token).

Definition resolve_token_for_kv_check (e : Env) (t : TokenOrAuth) : result anyhow KvTokenState :=
  let? is_super_token := map_err to_denied (check_super_token (e_globals e) t) in
  if (is_super_token : bool) then Ok Granted else
  let? token := get_token (e_globals e) t in
  let? now := get_local_timestamp_ms_i64 (e_clock e) in
  if negb (time_valid token now) then Ok Denied else Ok (KvToken token).

Definition limits_cover_global_or_specific (limits : list Limit) (scope : Scope)
    (global_perm specific_perm : Permission) : bool :=
  check_limits_cover limits scope global_perm || check_limits_cover limits scope specific_perm.

(** Resolve the token and decide on its limits; [msg] is the refusal text. *)
Definition kv_decide (e : Env) (token msg : string) (covered : list Limit -> bool) :
  result anyhow unit :=
  let? t := parse_token token in
  let? st := resolve_token_for_kv_check e t in
  match st with
  | Granted => Ok tt
  | Denied => denied msg
  | KvToken token_info =>
      if covered (token_limit token_info) then Ok tt else denied msg
  end.

Definition no_permission (op key namespace : string) : string :=
  "No " +:+ op +:+ " permission for key '" +:+ key +:+ "' in namespace '" +:+ namespace +:+ "'".

Definition check_kv_read_permission (e : Env) (token namespace key : string) : result anyhow unit :=
  let? _ := validate_namespace namespace in
  let? _ := validate_key key in
  kv_decide e token (no_permission "read" key namespace) (fun limits =>
    limits_cover_global_or_specific limits (Scope_KvNamespace namespace)
      (P_Kv (Kv_Read "*")) (P_Kv (Kv_Read key))).

Definition check_kv_read_permission_with_pattern (e : Env) (token namespace key_pattern : string) :
  result anyhow unit :=
  let? _ := validate_namespace namespace in
  let? _ := validate_key_pattern key_pattern in
  kv_decide e token (no_permission "read" key_pattern namespace) (fun limits =>
    limits_cover_global_or_specific limits (Scope_KvNamespace namespace)
      (P_Kv (Kv_Read "*")) (P_Kv (Kv_Read key_pattern))).

Definition check_kv_write_permission (e : Env) (token namespace key : string) : result anyhow unit :=
  let? _ := validate_namespace namespace in
  let? _ := validate_key key in
  kv_decide e token (no_permission "write" key namespace) (fun limits =>
    limits_cover_global_or_specific limits (Scope_KvNamespace namespace)
      (P_Kv (Kv_Write "*")) (P_Kv (Kv_Write key))).

Definition check_kv_delete_permission (e : Env) (token namespace key : string) : result anyhow unit :=
  let? _ := validate_namespace namespace in
  let? _ := validate_key key in
  kv_decide e token (no_permission "delete" key namespace) (fun limits =>
    limits_cover_global_or_specific limits (Scope_KvNamespace namespace)
      (P_Kv (Kv_Delete "*")) (P_Kv (Kv_Delete key))).

Definition check_kv_delete_namespace_permission (e : Env) (token namespace : string) :
  result anyhow unit :=
  let? _ := validate_namespace namespace in
  kv_decide e token ("No permission to delete namespace '" +:+ namespace +:+ "'") (fun limits =>
    check_limits_cover limits (Scope_KvNamespace namespace) (P_Kv (Kv_Delete "*"))).

Definition check_kv_list_keys_permission (e : Env) (token namespace : string) : result anyhow unit :=
  let? _ := validate_namespace namespace in
  kv_decide e token ("No permission to list keys in namespace '" +:+ namespace +:+ "'") (fun limits =>
    check_limits_cover limits (Scope_KvNamespace namespace) (P_Kv Kv_ListAllKeys)).

(** The inner [for scope in &limit.scopes] loop: [None] is the early return [All]. *)
Fixpoint collect_scopes (ss : list Scope) (allowed : gset string) : option (gset string) :=
  match ss with
  | [] => Some allowed
  | Scope_Global :: _ => None
  | Scope_KvNamespace ns :: rest => collect_scopes rest ({[ns]} ∪ allowed)
  | _ :: rest => collect_scopes rest allowed
  end.

Fixpoint collect_limits (limits : list Limit) (allowed : gset string) : option (gset string) :=
  match limits with
  | [] => Some allowed
  | limit :: rest =>
      if negb (existsb (fun p => bool_decide (p = P_Kv Kv_ListAllNamespace)) (permissions limit))
      then collect_limits rest allowed
      else match collect_scopes (scopes limit) allowed with
           | None => None
           | Some allowed' => collect_limits rest allowed'
           end
  end.

Definition resolve_kv_list_namespace_permission (e : Env) (token : string) :
  result anyhow KvNamespaceListPermission :=
  let? checker := require_permission_checker e in
  let? t := parse_token token in
  let? is_super_token := map_err to_denied (pc_check_super_token checker t) in
  if (is_super_token : bool) then Ok ListAll else
  let? token_info := pc_get_token checker t in
  let? now := get_local_timestamp_ms_i64 (e_clock e) in
  if match timestamp_from token_info with Some from => (now <? from)%Z | None => false end
  then denied "Token is not yet valid for listing KV namespaces" else
  if match timestamp_to token_info with Some to => (to <? now)%Z | None => false end
  then denied "Token has expired for listing KV namespaces" else
  match collect_limits (token_limit token_info) ∅ with
  | None => Ok ListAll
  | Some allowed =>
      if bool_decide (allowed = ∅) then denied "No permission to list KV namespaces"
      else Ok (ListScoped allowed)
  end.

Definition check_kv_create_permission (e : Env) (token : string) : result anyhow unit :=
  let? checker := require_permission_checker e in
  let? t := parse_token token in
  let? is_super_token := map_err to_denied (pc_check_super_token checker t) in
  if (is_super_token : bool) then Ok tt
  else denied "Only SuperToken can create KV namespace".

(** ** Lemmas *)

(** One resolution and an in-memory test decide like a full [check_token_limit]. *)
Lemma kv_decide_spec e token msg covered :
  kv_decide e token msg covered = Ok tt <->
  exists t, parse_token token = Ok t /\
    (check_super_token (e_globals e) t = Ok true \/
     check_super_token (e_globals e) t = Ok false /\
     exists tok now, get_token (e_globals e) t = Ok tok /\
       get_local_timestamp_ms_i64 (e_clock e) = Ok now /\
       time_valid tok now = true /\ covered (token_limit tok) = true).
Proof.
  unfold kv_decide, resolve_token_for_kv_check. split.
  - destruct (parse_token token) as [t|er]; simpl; [|done]. intros H1. exists t. split; [done|].
    destruct (check_super_token (e_globals e) t) as [[]|er]; simpl in *; [by left| |done].
    right. split; [done|].
    destruct (get_token (e_globals e) t) as [tok|er]; simpl in *; [|done].
    destruct (get_local_timestamp_ms_i64 _) as [now|er]; simpl in *; [|done].
    exists tok, now. destruct (time_valid tok now); simpl in *; [|done].
    by destruct (covered _).
  - intros (t & -> & [Hs|(Hs & tok & now & Ht & Hn & Hv & Hc)]); simpl; rewrite Hs; simpl; [done|].
    by rewrite Ht, Hn; simpl; rewrite Hv; simpl; rewrite Hc.
Qed.

Lemma check_limit_true e t s p :
  check_token_limit (e_globals e) (e_clock e) t [s] [p] = Ok true <->
  check_super_token (e_globals e) t = Ok true \/
  check_super_token (e_globals e) t = Ok false /\
  exists tok now, get_token (e_globals e) t = Ok tok /\
    get_local_timestamp_ms_i64 (e_clock e) = Ok now /\
    time_valid tok now = true /\ check_limits_cover (token_limit tok) s p = true.
Proof.
  unfold check_token_limit. destruct (check_super_token (e_globals e) t) as [b|er] eqn:Hb.
  - rewrite (check_at_unfold _ _ _ _ _ _ _ Hb). unfold covers_all. simpl.
    setoid_rewrite andb_true_r. setoid_rewrite andb_true_r. destruct b; naive_solver.
  - unfold check_token_limit_at. rewrite Hb. simpl. naive_solver.
Qed.

(** A request granted for several scopes and permissions is granted for each pair. *)
Lemma check_limit_each e t ss ps s p :
  check_token_limit (e_globals e) (e_clock e) t ss ps = Ok true -> s ∈ ss -> p ∈ ps ->
  check_token_limit (e_globals e) (e_clock e) t [s] [p] = Ok true.
Proof.
  intros Hok Hs Hp. apply check_limit_true. unfold check_token_limit in Hok.
  destruct (check_super_token (e_globals e) t) as [b|] eqn:Eb; [|unfold check_token_limit_at in Hok; by rewrite Eb in Hok].
  apply (check_at_unfold _ _ _ _ _ _ _ Eb) in Hok as [->|(tok & now & Htok & Hnow & Hv & Hcov)]; [by left|].
  destruct b; [by left|]. right. split; [done|]. exists tok, now. split_and!; try done.
  unfold covers_all in Hcov. rewrite forallb_forall in Hcov. apply list_elem_of_In in Hs, Hp.
  specialize (Hcov _ Hs). rewrite forallb_forall in Hcov. by apply Hcov.
Qed.

(** The verdict of the general rule on a textual token. *)
Definition authorised (e : Env) (token : string) (s : Scope) (p : Permission) : Prop :=
  exists t, parse_token token = Ok t /\
    check_token_limit (e_globals e) (e_clock e) t [s] [p] = Ok true.

Lemma kv_decide_one e token msg s p :
  kv_decide e token msg (fun limits => check_limits_cover limits s p) = Ok tt <->
  authorised e token s p.
Proof.
  rewrite kv_decide_spec. unfold authorised. by setoid_rewrite check_limit_true.
Qed.

Lemma kv_decide_two e token msg s p q :
  kv_decide e token msg (fun limits => limits_cover_global_or_specific limits s p q) = Ok tt <->
  authorised e token s p \/ authorised e token s q.
Proof.
  rewrite kv_decide_spec. unfold authorised, limits_cover_global_or_specific.
  setoid_rewrite check_limit_true. setoid_rewrite orb_true_iff. naive_solver.
Qed.

Lemma validated {A} (v : result anyhow unit) (k : result anyhow A) a :
  (let? _ := v in k) = Ok a <-> v = Ok tt /\ k = Ok a.
Proof. destruct v as [[]|]; simpl; naive_solver. Qed.

Lemma ok_exists {A} (a : A) (P : A -> Prop) :
  (exists x, @Ok anyhow A a = Ok x /\ P x) <-> P a.
Proof. naive_solver. Qed.

Lemma validate_namespace_ok ns :
  validate_namespace ns = Ok tt <-> ns <> ""%string /\ contains_char "*" ns = false.
Proof.
  unfold validate_namespace. destruct ns as [|c ns]; [naive_solver|]. simpl str_is_empty.
  destruct (contains_char _ _); naive_solver.
Qed.

Lemma validate_key_ok key : validate_key key = Ok tt <-> contains_char "*" key = false.
Proof. unfold validate_key. destruct (contains_char _ _); naive_solver. Qed.

(** The inner and the outer loop of [resolve_kv_list_namespace_permission]. *)
Definition lists_ns (l : Limit) (s : Scope) : Prop :=
  P_Kv Kv_ListAllNamespace ∈ permissions l /\ s ∈ scopes l.

Lemma collect_scopes_spec ss allowed :
  match collect_scopes ss allowed with
  | None => Scope_Global ∈ ss
  | Some a => Scope_Global ∉ ss /\ forall n, n ∈ a <-> n ∈ allowed \/ Scope_KvNamespace n ∈ ss
  end.
Proof.
  revert allowed. induction ss as [|s ss IH]; intros allowed; simpl; [set_solver|].
  destruct s as [| |ns| | |]; [by left|..].
  2: specialize (IH ({[ns]} ∪ allowed)).
  1,3-5: specialize (IH allowed).
  all: destruct (collect_scopes _ _); [|by right]; destruct IH as [Hg IH];
    split; [rewrite not_elem_of_cons; done|]; intros n; rewrite IH, elem_of_cons; set_solver.
Qed.

Lemma collect_limits_spec limits allowed :
  match collect_limits limits allowed with
  | None => exists l, l ∈ limits /\ lists_ns l Scope_Global
  | Some a =>
      (forall l, l ∈ limits -> ~ lists_ns l Scope_Global) /\
      forall n, n ∈ a <-> n ∈ allowed \/ exists l, l ∈ limits /\ lists_ns l (Scope_KvNamespace n)
  end.
Proof.
  revert allowed. induction limits as [|l limits IH]; intros allowed; simpl; [set_solver|].
  assert (existsb (fun p => bool_decide (p = P_Kv Kv_ListAllNamespace)) (permissions l) = true <->
          P_Kv Kv_ListAllNamespace ∈ permissions l) as Hp.
  { rewrite (existsb_elem_of _ (fun p => p = P_Kv Kv_ListAllNamespace));
      [naive_solver|]. intros. apply bool_decide_eq_true. }
  destruct (existsb _ _); simpl.
  - pose proof (proj1 Hp eq_refl) as Hin. pose proof (collect_scopes_spec (scopes l) allowed) as Hs.
    destruct (collect_scopes _ _) as [a'|]; [|by exists l; split; [left|]].
    destruct Hs as [Hg Hs]. specialize (IH a'). destruct (collect_limits _ _); setoid_rewrite elem_of_cons.
    + destruct IH as [Hn IH]. split; [intros l' [->|?]; [by intros [? ?]|auto]|].
      intros n. rewrite IH, Hs. unfold lists_ns. naive_solver.
    + naive_solver.
  - assert (forall s, ~ lists_ns l s) as Hnot by (intros s [Hin%Hp _]; done).
    specialize (IH allowed). destruct (collect_limits _ _); setoid_rewrite elem_of_cons; naive_solver.
Qed.

Lemma list_cover_spec limits n :
  check_limits_cover limits (Scope_KvNamespace n) (P_Kv Kv_ListAllNamespace) = true <->
  exists l, l ∈ limits /\ (lists_ns l Scope_Global \/ lists_ns l (Scope_KvNamespace n)).
Proof.
  rewrite limits_cover_iff. unfold limits_grant, lists_ns. split.
  - intros (l & Hl & (s & Hs & Hc) & (p & Hp & Hgr)). exists l. split; [done|].
    assert (p = P_Kv Kv_ListAllNamespace) as ->.
    { inversion Hgr as [|op pat val Hd Hq Hw]; [done|]. by destruct op. }
    inversion Hc; subst; auto.
  - intros (l & Hl & [[Hp Hs]|[Hp Hs]]); exists l; (split; [done|]);
      (split; [eexists; split; [exact Hs|constructor]|eexists; split; [exact Hp|constructor]]).
Qed.

Definition listing_allows (r : KvNamespaceListPermission) (ns : string) : Prop :=
  match r with ListAll => True | ListScoped allowed => ns ∈ allowed end.

Lemma listing_limits limits ns :
  check_limits_cover limits (Scope_KvNamespace ns) (P_Kv Kv_ListAllNamespace) = true <->
  match collect_limits limits ∅ with None => True | Some a => ns ∈ a end.
Proof.
  rewrite list_cover_spec. pose proof (collect_limits_spec limits ∅) as Hc.
  destruct (collect_limits _ _) as [a|]; [|naive_solver].
  destruct Hc as [Hg Hc]. setoid_rewrite Hc. set_solver.
Qed.

Lemma listing_agrees e token ns :
  PERMISSION_CHECKER e = Some (ServerPermissionChecker (e_globals e) (e_clock e)) ->
  (exists r, resolve_kv_list_namespace_permission e token = Ok r /\ listing_allows r ns) <->
  authorised e token (Scope_KvNamespace ns) (P_Kv Kv_ListAllNamespace).
Proof.
  intros Hpc. unfold resolve_kv_list_namespace_permission, require_permission_checker, authorised.
  rewrite Hpc. simpl. destruct (parse_token token) as [t|er]; simpl; [|naive_solver].
  rewrite ok_exists, check_limit_true. setoid_rewrite listing_limits.
  destruct (check_super_token (e_globals e) t) as [[]|er]; simpl; [| |naive_solver].
  { split; [by left|]. by exists ListAll. }
  destruct (get_token (e_globals e) t) as [tok|er]; simpl; [|naive_solver].
  destruct (get_local_timestamp_ms_i64 _) as [now|er]; simpl; [|naive_solver].
  unfold time_valid. split.
  - intros (r & Hr & Ha). right. split; [done|]. exists tok, now.
    destruct (match timestamp_from tok with Some _ => _ | None => _ end); [done|].
    destruct (match timestamp_to tok with Some _ => _ | None => _ end); [done|].
    repeat split. destruct (collect_limits _ _); [|done].
    destruct (bool_decide _); [done|]. by injection Hr as <-.
  - intros [?|(_ & ? & ? & [= <-] & [= <-] & [Hf Ht]%andb_true_iff & Ha)]; [done|].
    apply negb_true_iff in Hf, Ht. rewrite Hf, Ht.
    destruct (collect_limits _ _) as [a|]; [|by exists ListAll].
    rewrite bool_decide_false by set_solver. by exists (ListScoped a).
Qed.

(** ** Theorems *)

(** The permission checks of the key-value operations, which resolve the token once
    and then test its limits twice in memory, decide exactly like validating the names
    and running the general [check_token_limit] for the wildcard permission and, if that
    fails, for the permission on the key. *)
Theorem kv_checks_spec e token ns key :
  (check_kv_read_permission e token ns key = Ok tt <->
   validate_namespace ns = Ok tt /\ validate_key key = Ok tt /\
   (authorised e token (Scope_KvNamespace ns) (P_Kv (Kv_Read "*")) \/
    authorised e token (Scope_KvNamespace ns) (P_Kv (Kv_Read key)))) /\
  (check_kv_write_permission e token ns key = Ok tt <->
   validate_namespace ns = Ok tt /\ validate_key key = Ok tt /\
   (authorised e token (Scope_KvNamespace ns) (P_Kv (Kv_Write "*")) \/
    authorised e token (Scope_KvNamespace ns) (P_Kv (Kv_Write key)))) /\
  (check_kv_delete_permission e token ns key = Ok tt <->
   validate_namespace ns = Ok tt /\ validate_key key = Ok tt /\
   (authorised e token (Scope_KvNamespace ns) (P_Kv (Kv_Delete "*")) \/
    authorised e token (Scope_KvNamespace ns) (P_Kv (Kv_Delete key)))) /\
  (check_kv_delete_namespace_permission e token ns = Ok tt <->
   validate_namespace ns = Ok tt /\
   authorised e token (Scope_KvNamespace ns) (P_Kv (Kv_Delete "*"))) /\
  (check_kv_list_keys_permission e token ns = Ok tt <->
   validate_namespace ns = Ok tt /\
   authorised e token (Scope_KvNamespace ns) (P_Kv Kv_ListAllKeys)).
Proof.
  unfold check_kv_read_permission, check_kv_write_permission, check_kv_delete_permission,
    check_kv_delete_namespace_permission, check_kv_list_keys_permission.
  rewrite !validated, !kv_decide_two, !kv_decide_one. done.
Qed.

(** Listing namespaces collects the namespaces of the token's limits by hand; what
    it allows is exactly what the general rule allows for [ListAllNamespace], one
    namespace at a time, when the server's own checker is registered.  A token that may
    list nothing is refused. *)
Theorem list_namespace_spec e token ns :
  PERMISSION_CHECKER e = Some (ServerPermissionChecker (e_globals e) (e_clock e)) ->
  (exists r, resolve_kv_list_namespace_permission e token = Ok r /\ listing_allows r ns) <->
  authorised e token (Scope_KvNamespace ns) (P_Kv Kv_ListAllNamespace).
Proof. apply listing_agrees. Qed.
End kv_auth.

(** ** Example *)

Definition sample_env : Env := {|
  e_globals := sample_globals; e_clock := sample_clock;
  PERMISSION_CHECKER := Some (ServerPermissionChecker sample_globals sample_clock) |}.

Lemma list_namespace_spec_witness :
  authorised sample_env "rootkey:rootsecret" (Scope_KvNamespace "ns") (P_Kv Kv_ListAllNamespace).
Proof.
  apply (list_namespace_spec sample_env "rootkey:rootsecret" "ns"); [reflexivity|].
  exists ListAll. split; [vm_compute; reflexivity|exact I].
Defined.
