(* ===== verification/KvStore.v ===== *)
(** * The key-value store

    [ng-kv/src/kv.rs] (one namespace in memory) and [ng-kv/src/db.rs] (all namespaces
    in the single table [kv], a marker row per namespace), with the abstract store they
    implement: a finite map from namespaces to finite maps from keys to JSON values. *)
From stdpp Require Import base strings gmap list numbers sorting.
From S2P Require Import Prelude Errors Json Db.

(** ** [KVStore] *)

Module KVStore.
Record t : Type := mk { namespace : string; kv : gmap string Json }.

Definition new (namespace : string) : t := mk namespace ∅.
Definition get (s : t) (key : string) : option Json := kv s !! key.
Definition set (s : t) (key : string) (value : Json) : t :=
  mk (namespace s) (<[key := value]> (kv s)).
Definition remove (s : t) (key : string) : t * option Json :=
  (mk (namespace s) (delete key (kv s)), kv s !! key).
Definition contains_key (s : t) (key : string) : bool := bool_decide (is_Some (kv s !! key)).
Definition keys `{HashOrder} (s : t) : list string := (hash_iter (kv s)).*1.
Definition values `{HashOrder} (s : t) : list Json := (hash_iter (kv s)).*2.
Definition len (s : t) : nat := size (kv s).
Definition is_empty (s : t) : bool := (len s =? 0)%nat.
Definition clear (s : t) : t := mk (namespace s) ∅.
End KVStore.

(** ** The table *)

Record KvRow : Type := { r_id : Z; r_namespace : string; r_key : string; r_value : Json }.

(** The primary key, and the unique index on [(namespace, key)]. *)
Definition kv_conflict (a b : KvRow) : bool :=
  (r_id a =? r_id b)%Z ||
  (String.eqb (r_namespace a) (r_namespace b) && String.eqb (r_key a) (r_key b)).

Lemma kv_conflict_sym a b : kv_conflict a b = kv_conflict b a.
Proof.
  unfold kv_conflict. by rewrite Z.eqb_sym, (String.eqb_sym (r_namespace a)), (String.eqb_sym (r_key a)).
Qed.

(** [ORDER BY column ASC]: the database sorts by its collation, a total order on text. *)
Class Collation : Type := {
  db_le : relation string;
  #[global] db_le_po :: PartialOrder db_le;
  order_by_asc : forall A : Type, (A -> string) -> list A -> list A;
  order_by_perm : forall A (f : A -> string) l, order_by_asc A f l ≡ₚ l;
  order_by_sorted : forall A (f : A -> string) l,
    StronglySorted (fun a b => db_le (f a) (f b)) (order_by_asc A f l);
}.
Arguments order_by_asc {_ A}.

Definition NAMESPACE_MARKER_KEY : string := "__nodeget_namespace_marker__".

Section kv_db.
Context {DB : Type} {ops : TableOps DB KvRow} {coll : Collation}.

(** The connection of [ng_db::get_db()], absent before the server is connected. *)
Definition Kv (A : Type) : Type := M (option DB) anyhow A.

Definition get_db_conn : Kv unit :=
  fun w => match w with Some _ => (w, Ok tt) | None => (w, Err (OfText "DB not initialized")) end.

(** A statement; its [DbErr] becomes an [anyhow::Error] through [?]. *)
Definition kexec {A} (stmt : M DB DbErr A) : Kv A :=
  fun w => match w with
           | Some d => let '(d', r) := stmt d in (Some d', map_err (fun e => OfText (db_msg e)) r)
           | None => (w, Err (OfText "DB not initialized"))
           end.

Definition in_namespace (namespace : string) (r : KvRow) : bool :=
  String.eqb (r_namespace r) namespace.
Definition has_key (namespace key : string) (r : KvRow) : bool :=
  in_namespace namespace r && String.eqb (r_key r) key.
Definition visible_in (namespace : string) (r : KvRow) : bool :=
  in_namespace namespace r && negb (String.eqb (r_key r) NAMESPACE_MARKER_KEY).

Definition kv_row (namespace key : string) (value : Json) (id : Z) : KvRow :=
  {| r_id := id; r_namespace := namespace; r_key := key; r_value := value |}.

Definition namespace_exists (namespace : string) : Kv bool :=
  let! row := kexec (find_one (in_namespace namespace)) in
  mret (match row with Some _ => true | None => false end).

Definition ensure_namespace_exists (namespace : string) : Kv unit :=
  let! b := namespace_exists namespace in
  if (b : bool) then mret tt
  else lift (fail_with (DatabaseError ("Namespace '" +:+ namespace +:+ "' not found"))).

Definition create_kv (namespace : string) : Kv KVStore.t :=
  let! _ := get_db_conn in
  let! b := namespace_exists namespace in
  if (b : bool)
  then lift (fail_with (DatabaseError ("Namespace '" +:+ namespace +:+ "' already exists")))
  else
    let! _ := kexec (insert_auto (kv_row namespace NAMESPACE_MARKER_KEY JNull)) in
    mret (KVStore.new namespace).

Definition get_v_from_kv_lenient (namespace key : string) : Kv (option Json) :=
  if String.eqb key NAMESPACE_MARKER_KEY then mret None else
  let! _ := get_db_conn in
  let! model := kexec (find_one (has_key namespace key)) in
  mret (option_map r_value model).

Definition get_v_from_kv (namespace key : string) : Kv (option Json) :=
  if String.eqb key NAMESPACE_MARKER_KEY then mret None else
  let! _ := get_db_conn in
  let! _ := ensure_namespace_exists namespace in
  let! model := kexec (find_one (has_key namespace key)) in
  mret (option_map r_value model).

Definition set_row_value (value : Json) (r : KvRow) : KvRow :=
  {| r_id := r_id r; r_namespace := r_namespace r; r_key := r_key r; r_value := value |}.

Definition set_v_to_kv (namespace key : string) (value : Json) : Kv unit :=
  let! _ := get_db_conn in
  let! _ := ensure_namespace_exists namespace in
  kexec (upsert (has_key namespace key) (set_row_value value) (kv_row namespace key value)).

Definition delete_key_from_kv (namespace key : string) : Kv unit :=
  if String.eqb key NAMESPACE_MARKER_KEY
  then lift (fail_with (InvalidInput
         ("Cannot delete namespace marker key '" +:+ NAMESPACE_MARKER_KEY +:+ "'")))
  else
    let! _ := get_db_conn in
    let! _ := ensure_namespace_exists namespace in
    let! _ := kexec (delete_many (has_key namespace key)) in
    mret tt.

Definition delete_kv (namespace : string) : Kv unit :=
  let! _ := get_db_conn in
  let! _ := ensure_namespace_exists namespace in
  let! _ := kexec (delete_many (in_namespace namespace)) in
  mret tt.

Definition get_keys_from_kv (namespace : string) : Kv (list string) :=
  let! _ := get_db_conn in
  let! _ := ensure_namespace_exists namespace in
  let! models := kexec (find_all (visible_in namespace)) in
  mret (map r_key (order_by_asc r_key models)).

(** The loop [for model in models { kv_store.set(model.key, model.value) }]. *)
Definition fill (store : KVStore.t) (models : list KvRow) : KVStore.t :=
  fold_left (fun s model => KVStore.set s (r_key model) (r_value model)) models store.

Definition get_kv_store (namespace : string) : Kv KVStore.t :=
  let! _ := get_db_conn in
  let! _ := ensure_namespace_exists namespace in
  let! models := kexec (find_all (visible_in namespace)) in
  mret (fill (KVStore.new namespace) (order_by_asc r_key models)).

Definition get_kv_store_optional (namespace : string) : Kv (option KVStore.t) :=
  let! _ := get_db_conn in
  let! b := namespace_exists namespace in
  if negb b then mret None else
  let! models := kexec (find_all (visible_in namespace)) in
  mret (Some (fill (KVStore.new namespace) (order_by_asc r_key models))).

Definition get_or_create_kv (namespace : string) : Kv KVStore.t :=
  let! _ := get_db_conn in
  let! b := namespace_exists namespace in
  if (b : bool) then get_kv_store namespace else create_kv namespace.

(** [SELECT DISTINCT namespace ... ORDER BY namespace ASC]. *)
Definition list_all_namespaces : Kv (list string) :=
  let! _ := get_db_conn in
  let! models := kexec (find_all (fun _ => true)) in
  mret (order_by_asc (fun n => n) (remove_dups (map r_namespace models))).
End kv_db.
