(* ===== verification/KvRefine.v ===== *)
(** * The key-value table implements a map of maps

    The abstract store is a finite map from namespaces to finite maps; [spec] gives each
    operation of [ng-kv/src/db.rs] its meaning on it.  [represents] relates the rows of
    the table to an abstract store, and the refinement theorem runs both side by side. *)
From stdpp Require Import base strings gmap list numbers sorting.
From S2P Require Import Prelude Errors Json Db KvStore.

Notation Spaces := (gmap string (gmap string Json)).

Inductive KvOp : Type -> Type :=
| CreateKv (n : string) : KvOp KVStore.t
| GetOrCreateKv (n : string) : KvOp KVStore.t
| GetV (n k : string) : KvOp (option Json)
| GetVLenient (n k : string) : KvOp (option Json)
| SetV (n k : string) (v : Json) : KvOp unit
| DeleteKey (n k : string) : KvOp unit
| DeleteKv (n : string) : KvOp unit
| GetKeys (n : string) : KvOp (list string)
| GetStore (n : string) : KvOp KVStore.t
| GetStoreOptional (n : string) : KvOp (option KVStore.t)
| ListAllNamespaces : KvOp (list string).

Definition not_found {A} (n : string) : result anyhow A :=
  fail_with (DatabaseError ("Namespace '" +:+ n +:+ "' not found")).
Definition already_exists {A} (n : string) : result anyhow A :=
  fail_with (DatabaseError ("Namespace '" +:+ n +:+ "' already exists")).
Definition marker_protected {A} : result anyhow A :=
  fail_with (InvalidInput ("Cannot delete namespace marker key '" +:+ NAMESPACE_MARKER_KEY +:+ "'")).

Definition is_marker (k : string) : bool := String.eqb k NAMESPACE_MARKER_KEY.

(** The value of a cell; the marker key never has one. *)
Definition cell_value (S : Spaces) (n k : string) : option Json :=
  if is_marker k then None else S !! n ≫= fun m => m !! k.

(** A write to the marker key succeeds and has no visible effect. *)
Definition set_cell (m : gmap string Json) (k : string) (v : Json) : gmap string Json :=
  if is_marker k then m else <[k := v]> m.

Definition spec `{Collation} {A} (op : KvOp A) (S : Spaces) : Spaces * result anyhow A :=
  match op in KvOp A return Spaces * result anyhow A with
  | CreateKv n =>
      match S !! n with
      | Some _ => (S, already_exists n)
      | None => (<[n := ∅]> S, Ok (KVStore.new n))
      end
  | GetOrCreateKv n =>
      match S !! n with
      | Some m => (S, Ok (KVStore.mk n m))
      | None => (<[n := ∅]> S, Ok (KVStore.new n))
      end
  | GetV n k =>
      (S, if is_marker k then Ok None
          else match S !! n with Some m => Ok (m !! k) | None => not_found n end)
  | GetVLenient n k => (S, Ok (cell_value S n k))
  | SetV n k v =>
      match S !! n with
      | Some m => (<[n := set_cell m k v]> S, Ok tt)
      | None => (S, not_found n)
      end
  | DeleteKey n k =>
      if is_marker k then (S, marker_protected)
      else match S !! n with
           | Some m => (<[n := delete k m]> S, Ok tt)
           | None => (S, not_found n)
           end
  | DeleteKv n =>
      match S !! n with Some _ => (delete n S, Ok tt) | None => (S, not_found n) end
  | GetKeys n =>
      (S, match S !! n with
          | Some m => Ok (order_by_asc (fun k => k) (elements (dom m)))
          | None => not_found n
          end)
  | GetStore n =>
      (S, match S !! n with Some m => Ok (KVStore.mk n m) | None => not_found n end)
  | GetStoreOptional n => (S, Ok (option_map (KVStore.mk n) (S !! n)))
  | ListAllNamespaces => (S, Ok (order_by_asc (fun n => n) (elements (dom S))))
  end.

(** ** Rows as cells *)

Definition cell (l : list KvRow) (n k : string) (v : Json) : Prop :=
  exists r, r ∈ l /\ r_namespace r = n /\ r_key r = k /\ r_value r = v.

Record represents (l : list KvRow) (S : Spaces) : Prop := {
  rep_unique : unique_rows kv_conflict l = true;
  rep_cell : forall n k v, k <> NAMESPACE_MARKER_KEY ->
    cell l n k v <-> exists m, S !! n = Some m /\ m !! k = Some v;
  rep_marker : forall n, (exists v, cell l n NAMESPACE_MARKER_KEY v) <-> is_Some (S !! n);
  rep_hidden : forall n m, S !! n = Some m -> m !! NAMESPACE_MARKER_KEY = None;
}.

Lemma is_marker_spec k : is_marker k = bool_decide (k = NAMESPACE_MARKER_KEY).
Proof. unfold is_marker. destruct (String.eqb_spec k NAMESPACE_MARKER_KEY); by case_bool_decide. Qed.

Lemma in_namespace_true n r : in_namespace n r = true <-> r_namespace r = n.
Proof. apply String.eqb_eq. Qed.

Lemma has_key_true n k r : has_key n k r = true <-> r_namespace r = n /\ r_key r = k.
Proof. unfold has_key. by rewrite andb_true_iff, in_namespace_true, String.eqb_eq. Qed.

Lemma visible_true n r :
  visible_in n r = true <-> r_namespace r = n /\ r_key r <> NAMESPACE_MARKER_KEY.
Proof. unfold visible_in. by rewrite andb_true_iff, in_namespace_true, negb_true_iff, String.eqb_neq. Qed.

Lemma cell_perm l l' n k v : l ≡ₚ l' -> cell l n k v <-> cell l' n k v.
Proof. intros Hp. unfold cell. by setoid_rewrite Hp. Qed.

Lemma cell_cons r l n k v :
  cell (r :: l) n k v <->
  (r_namespace r = n /\ r_key r = k /\ r_value r = v) \/ cell l n k v.
Proof. unfold cell. setoid_rewrite elem_of_cons. naive_solver. Qed.

Lemma cell_filter (p : KvRow -> bool) (q : string -> string -> Prop) l n k v :
  (forall r, p r = true <-> q (r_namespace r) (r_key r)) ->
  cell (List.filter (fun r => negb (p r)) l) n k v <-> ~ q n k /\ cell l n k v.
Proof.
  intros Hp. unfold cell. setoid_rewrite list_filter_elem. setoid_rewrite negb_true_iff.
  split.
  - intros (r & [Hr Hn] & <- & <- & <-). rewrite <-not_true_iff_false, Hp in Hn. eauto 6.
  - intros (Hq & r & Hr & <- & <- & <-). exists r. rewrite <-not_true_iff_false, Hp. auto.
Qed.

Lemma cell_update n0 k0 v0 l n k v :
  cell (map (update_if (has_key n0 k0) (set_row_value v0)) l) n k v <->
  (n = n0 /\ k = k0 /\ v = v0 /\ exists v', cell l n0 k0 v') \/
  (~ (n = n0 /\ k = k0) /\ cell l n k v).
Proof.
  unfold cell. setoid_rewrite list_elem_of_fmap. unfold update_if. split.
  - intros (r & (r' & -> & Hr) & Hcell). destruct (has_key n0 k0 r') eqn:E.
    + apply has_key_true in E as [En Ek]. simpl in Hcell. naive_solver.
    + right. split; [|naive_solver]. intros [-> ->]. apply not_true_iff_false in E. apply E.
      apply has_key_true. naive_solver.
  - intros [(-> & -> & -> & v' & r & Hr & Hn & Hk & Hv)|(Hne & r & Hr & <- & <- & <-)].
    + exists (set_row_value v0 r). split; [|done]. exists r.
      by rewrite (proj2 (has_key_true n0 k0 r)).
    + exists r. split; [|done]. exists r. split; [|done].
      destruct (has_key n0 k0 r) eqn:E; [|done]. by apply has_key_true in E.
Qed.

Lemma conflict_same a b :
  r_namespace a = r_namespace b -> r_key a = r_key b -> kv_conflict a b = true.
Proof. intros Hn Hk. unfold kv_conflict. by rewrite Hn, Hk, !String.eqb_refl, orb_true_r. Qed.

Lemma rep_same_row l S a b :
  represents l S -> a ∈ l -> b ∈ l -> r_namespace a = r_namespace b -> r_key a = r_key b -> a = b.
Proof.
  intros HR Ha Hb Hn Hk.
  by apply (unique_rows_lookup kv_conflict kv_conflict_sym l); [apply HR|..|apply conflict_same].
Qed.

Lemma rep_in l S r : represents l S -> r ∈ l -> is_Some (S !! r_namespace r).
Proof.
  intros HR Hr. destruct (decide (r_key r = NAMESPACE_MARKER_KEY)) as [Hk|Hk].
  - apply (rep_marker _ _ HR). exists (r_value r), r. done.
  - destruct (rep_cell _ _ HR (r_namespace r) (r_key r) (r_value r) Hk) as [H1 _].
    destruct H1 as (m & Hm & _); [by exists r|]. by rewrite Hm.
Qed.

Lemma rep_nonempty l S n : represents l S -> (exists r, r ∈ l /\ r_namespace r = n) <-> is_Some (S !! n).
Proof.
  intros HR. split.
  - intros (r & Hr & <-). by eapply rep_in.
  - intros (v & r & Hr & Hn & _)%(rep_marker _ _ HR). eauto.
Qed.

(** ** The effect of each write on the represented store *)

Lemma rep_perm l l' S : l ≡ₚ l' -> represents l S -> represents l' S.
Proof.
  intros Hp [Hu Hc Hm Hh]. split; [by eapply unique_rows_perm; [apply kv_conflict_sym|..]|..|done].
  - intros n k v Hk. by rewrite <-(cell_perm l l'), Hc.
  - intros n. setoid_rewrite <-(cell_perm l l'); [|done]. apply Hm.
Qed.

Lemma rep_create l S n i :
  represents l S -> S !! n = None ->
  unique_rows kv_conflict (kv_row n NAMESPACE_MARKER_KEY JNull i :: l) = true ->
  represents (kv_row n NAMESPACE_MARKER_KEY JNull i :: l) (<[n := ∅]> S).
Proof.
  intros HR Hn Hu. split; [done|..].
  - intros n' k v Hk. rewrite cell_cons, (rep_cell _ _ HR) by done. simpl.
    destruct (decide (n = n')) as [->|Hne].
    + rewrite lookup_insert_eq, Hn. split; [naive_solver|].
      intros (m & [= <-] & Hv). by rewrite lookup_empty in Hv.
    + rewrite lookup_insert_ne by done. naive_solver.
  - intros n'. setoid_rewrite cell_cons. simpl. destruct (decide (n = n')) as [->|Hne].
    + rewrite lookup_insert_eq. split; [done|]. eauto.
    + rewrite lookup_insert_ne, <-(rep_marker _ _ HR) by done. naive_solver.
  - intros n' m [[-> <-]|[_ Hm]]%lookup_insert_Some; [by rewrite lookup_empty|].
    by eapply rep_hidden.
Qed.

(** A new table contents in which the cell [(n, k)] holds [v] and nothing else changed. *)
Lemma rep_set l l' S n m k v :
  represents l S -> S !! n = Some m -> unique_rows kv_conflict l' = true ->
  (forall n' k' v', cell l' n' k' v' <->
     (n' = n /\ k' = k /\ v' = v) \/ (~ (n' = n /\ k' = k) /\ cell l n' k' v')) ->
  represents l' (<[n := set_cell m k v]> S).
Proof.
  intros HR Hm Hu Hl'. unfold set_cell. rewrite is_marker_spec. split; [done|..].
  - intros n' k' v' Hk'. rewrite Hl', (rep_cell _ _ HR) by done.
    destruct (decide (n = n')) as [->|Hn]; [|rewrite lookup_insert_ne by done; naive_solver].
    rewrite lookup_insert_eq, Hm. destruct (decide (k = k')) as [->|Hk].
    + rewrite bool_decide_false by done. split.
      { intros [(_ & _ & ->)|?]; [|naive_solver]. eexists. by rewrite lookup_insert_eq. }
      intros (m' & [= <-] & Hv). rewrite lookup_insert_eq in Hv. naive_solver.
    + case_bool_decide; [naive_solver|]. split; [|intros (m' & [= <-] & Hv)].
      * intros [?|(_ & m' & [= <-] & Hv)]; [naive_solver|]. eexists. by rewrite lookup_insert_ne.
      * rewrite lookup_insert_ne in Hv by done. naive_solver.
  - intros n'. setoid_rewrite Hl'. destruct (decide (n = n')) as [->|Hn].
    + rewrite lookup_insert_eq. split; [done|]. intros _.
      destruct (proj2 (rep_marker _ _ HR n')) as [v' Hv']; [by rewrite Hm|].
      destruct (decide (k = NAMESPACE_MARKER_KEY)) as [->|Hk]; [by eauto|].
      exists v'. right. naive_solver.
    + rewrite lookup_insert_ne, <-(rep_marker _ _ HR) by done. naive_solver.
  - intros n' m' [[<- <-]|[_ Hm']]%lookup_insert_Some; [|by eapply rep_hidden].
    case_bool_decide; [by eapply rep_hidden|].
    rewrite lookup_insert_ne by done. by eapply rep_hidden.
Qed.

Lemma rep_delete_key l l' S n m k :
  represents l S -> S !! n = Some m -> k <> NAMESPACE_MARKER_KEY ->
  unique_rows kv_conflict l' = true ->
  l' ≡ₚ List.filter (fun r => negb (has_key n k r)) l ->
  represents l' (<[n := delete k m]> S).
Proof.
  intros HR Hm Hk Hu Hp. split; [done|..].
  - intros n' k' v' Hk'. rewrite (cell_perm _ _ _ _ _ Hp).
    rewrite (cell_filter _ (fun n' k' => n' = n /\ k' = k)) by (intros; apply has_key_true).
    rewrite (rep_cell _ _ HR) by done.
    destruct (decide (n = n')) as [->|Hn]; [|rewrite lookup_insert_ne by done; naive_solver].
    rewrite lookup_insert_eq, Hm. split.
    + intros (Hne & m' & [= <-] & Hv). eexists. split; [done|].
      rewrite lookup_delete_ne by naive_solver. done.
    + intros (m' & [= <-] & Hv). apply lookup_delete_Some in Hv. naive_solver.
  - intros n'. setoid_rewrite (fun v => cell_perm _ _ n' NAMESPACE_MARKER_KEY v Hp).
    setoid_rewrite (cell_filter _ (fun n' k' => n' = n /\ k' = k)); [|intros; apply has_key_true].
    destruct (decide (n = n')) as [->|Hn].
    + rewrite lookup_insert_eq. split; [done|]. intros _.
      destruct (proj2 (rep_marker _ _ HR n')) as [v' Hv']; [by rewrite Hm|]. naive_solver.
    + rewrite lookup_insert_ne, <-(rep_marker _ _ HR) by done. naive_solver.
  - intros n' m' [[<- <-]|[_ Hm']]%lookup_insert_Some; [|by eapply rep_hidden].
    rewrite lookup_delete_ne by done. by eapply rep_hidden.
Qed.

Lemma rep_delete_ns l l' S n :
  represents l S -> unique_rows kv_conflict l' = true ->
  l' ≡ₚ List.filter (fun r => negb (in_namespace n r)) l ->
  represents l' (delete n S).
Proof.
  intros HR Hu Hp. split; [done|..].
  - intros n' k' v' Hk'. rewrite (cell_perm _ _ _ _ _ Hp).
    rewrite (cell_filter _ (fun n' _ => n' = n)) by (intros; apply in_namespace_true).
    rewrite (rep_cell _ _ HR) by done. setoid_rewrite lookup_delete_Some. naive_solver.
  - intros n'. setoid_rewrite (fun v => cell_perm _ _ n' NAMESPACE_MARKER_KEY v Hp).
    setoid_rewrite (cell_filter _ (fun n' _ => n' = n)); [|intros; apply in_namespace_true].
    unfold is_Some. setoid_rewrite lookup_delete_Some.
    pose proof (rep_marker _ _ HR n') as Hm. unfold is_Some in Hm. naive_solver.
  - intros n' m' [_ Hm']%lookup_delete_Some. by eapply rep_hidden.
Qed.

(** ** The results of the reads *)

Lemma fill_lookup n l k :
  (forall a b, a ∈ l -> b ∈ l -> r_key a = r_key b -> a = b) ->
  forall v, KVStore.kv (fill (KVStore.new n) l) !! k = Some v <->
    exists r, r ∈ l /\ r_key r = k /\ r_value r = v.
Proof.
  unfold fill. induction l as [|r l IH] using rev_ind; intros Hf v.
  { simpl. rewrite lookup_empty. split; [done|]. by intros (r & ?%not_elem_of_nil & _). }
  rewrite fold_left_app. simpl. rewrite lookup_insert_Some, IH
    by (intros a b Ha Hb; apply Hf; apply elem_of_app; auto).
  setoid_rewrite elem_of_app. setoid_rewrite list_elem_of_singleton. split; [naive_solver|].
  intros (r' & [Hr'| ->] & Hk & Hv); [|auto]. destruct (decide (r_key r = k)) as [He|He]; [|naive_solver].
  left. split; [done|]. rewrite <-Hv. f_equal. apply Hf; [set_solver..|congruence].
Qed.

Lemma fill_namespace s l : KVStore.namespace (fill s l) = KVStore.namespace s.
Proof. unfold fill. revert s. induction l as [|r l IH]; intros s; simpl; [done|]. by rewrite IH. Qed.

Lemma rep_visible l S n m models :
  represents l S -> S !! n = Some m -> models ≡ₚ List.filter (visible_in n) l ->
  fill (KVStore.new n) models = KVStore.mk n m.
Proof.
  intros HR Hm Hp. destruct (fill _ _) as [n' m'] eqn:E.
  pose proof (fill_namespace (KVStore.new n) models) as Hn. rewrite E in Hn. simpl in Hn. subst n'.
  f_equal. apply map_eq. intros k. apply option_eq. intros v.
  change m' with (KVStore.kv (KVStore.mk n m')). rewrite <-E, fill_lookup.
  - setoid_rewrite Hp. setoid_rewrite list_filter_elem. setoid_rewrite visible_true.
    destruct (decide (k = NAMESPACE_MARKER_KEY)) as [->|Hk].
    + rewrite (rep_hidden _ _ HR _ _ Hm). naive_solver.
    + pose proof (rep_cell _ _ HR n k v Hk) as Hc. rewrite Hm in Hc.
      unfold cell in Hc. naive_solver.
  - intros a b. rewrite Hp, !list_filter_elem, !visible_true. intros (Ha & Hna & _) (Hb & Hnb & _) Hk.
    eapply rep_same_row; [done..|congruence|done].
Qed.

Lemma rep_get l S n k o :
  represents l S -> k <> NAMESPACE_MARKER_KEY ->
  match o with
  | Some r => r ∈ l /\ has_key n k r = true
  | None => no_match (has_key n k) l
  end -> option_map r_value o = S !! n ≫= fun m => m !! k.
Proof.
  intros HR Hk Ho. pose proof (rep_cell _ _ HR n k) as Hc. destruct o as [r|]; simpl.
  - destruct Ho as [Hr [Hn Hkr]%has_key_true].
    destruct (proj1 (Hc (r_value r) Hk)) as (m & -> & Hv); [by exists r|]. done.
  - symmetry. apply eq_None_not_Some. intros [v Hv]. apply bind_Some in Hv as (m & Hm & Hv).
    destruct (proj2 (Hc v Hk)) as (r & Hr & Hn & Hkr & _); [eauto|].
    specialize (Ho r Hr). apply not_true_iff_false in Ho. apply Ho. by apply has_key_true.
Qed.

Lemma rep_exists l S n (o : option KvRow) :
  represents l S ->
  match o with
  | Some r => r ∈ l /\ in_namespace n r = true
  | None => no_match (in_namespace n) l
  end -> match o with Some _ => true | None => false end = bool_decide (is_Some (S !! n)).
Proof.
  intros HR Ho. symmetry. destruct o as [r|].
  - apply bool_decide_eq_true, (rep_nonempty l S n HR). destruct Ho as [Hr Hn%in_namespace_true]. eauto.
  - apply bool_decide_eq_false. intros (r & Hr & Hn)%(rep_nonempty l S n HR). specialize (Ho r Hr).
    apply not_true_iff_false in Ho. apply Ho. by apply in_namespace_true.
Qed.

Section ordered.
Context {coll : Collation}.

(** A sorted permutation of a list without duplicates is determined by its members. *)
Lemma order_by_determined {A} (f : A -> string) l (X : gset string) :
  NoDup (map f l) -> (forall k, k ∈ map f l <-> k ∈ X) ->
  map f (order_by_asc f l) = order_by_asc (fun k => k) (elements X).
Proof.
  intros Hnd Hin. apply (StronglySorted_unique db_le).
  - pose proof (order_by_sorted A f l) as Hs. induction Hs as [|a l' Hl IH Ha]; simpl; constructor; [done|].
    by apply Forall_fmap.
  - apply order_by_sorted.
  - rewrite (order_by_perm _ f l), (order_by_perm _ (fun k => k)). apply NoDup_Permutation;
      [done|apply NoDup_elements|]. intros k. by rewrite Hin, elem_of_elements.
Qed.

Lemma rep_NoDup l S : represents l S -> NoDup l.
Proof.
  intros [Hu _ _ _]. induction l as [|r l IH]; [constructor|].
  apply unique_rows_cons in Hu as [Hr Hu]. constructor; [|auto].
  intros Hin. specialize (Hr r Hin). unfold kv_conflict in Hr. by rewrite Z.eqb_refl in Hr.
Qed.

Lemma rep_keys l S n m models :
  represents l S -> S !! n = Some m -> models ≡ₚ List.filter (visible_in n) l ->
  map r_key (order_by_asc r_key models) = order_by_asc (fun k => k) (elements (dom m)).
Proof.
  intros HR Hm Hp. apply order_by_determined.
  - rewrite Hp. apply NoDup_fmap_2_strong.
    + intros a b. rewrite !list_filter_elem, !visible_true. intros (Ha & Hna & _) (Hb & Hnb & _) Hk.
      eapply rep_same_row; [done..|congruence|done].
    + apply NoDup_ListNoDup, List.NoDup_filter, NoDup_ListNoDup. by eapply rep_NoDup.
  - intros k. rewrite Hp, elem_of_dom, list_elem_of_fmap. setoid_rewrite list_filter_elem.
    setoid_rewrite visible_true. unfold is_Some.
    destruct (decide (k = NAMESPACE_MARKER_KEY)) as [->|Hk].
    + rewrite (rep_hidden _ _ HR _ _ Hm). naive_solver.
    + pose proof (fun v => rep_cell _ _ HR n k v Hk) as Hc. rewrite Hm in Hc. unfold cell in Hc.
      naive_solver.
Qed.

Lemma rep_namespaces l S models :
  represents l S -> models ≡ₚ List.filter (fun _ => true) l ->
  order_by_asc (fun n => n) (remove_dups (map r_namespace models)) =
  order_by_asc (fun n => n) (elements (dom S)).
Proof.
  intros HR Hp. rewrite <-(map_id (order_by_asc _ (remove_dups _))).
  apply (order_by_determined (fun n => n)); rewrite map_id; [apply NoDup_remove_dups|].
  intros n. rewrite elem_of_remove_dups, Hp, elem_of_dom, <-(rep_nonempty l S n HR), list_elem_of_fmap.
  setoid_rewrite list_filter_elem. naive_solver.
Qed.
End ordered.

(** ** Simulation *)

Section simulation.
Context {DB : Type} {ops : TableOps DB KvRow} {laws : TableLaws ops kv_conflict}.
Context {coll : Collation}.

Definition run_op {A} (op : KvOp A) : Kv A :=
  match op in KvOp A return Kv A with
  | CreateKv n => create_kv n
  | GetOrCreateKv n => get_or_create_kv n
  | GetV n k => get_v_from_kv n k
  | GetVLenient n k => get_v_from_kv_lenient n k
  | SetV n k v => set_v_to_kv n k v
  | DeleteKey n k => delete_key_from_kv n k
  | DeleteKv n => delete_kv n
  | GetKeys n => get_keys_from_kv n
  | GetStore n => get_kv_store n
  | GetStoreOptional n => get_kv_store_optional n
  | ListAllNamespaces => list_all_namespaces
  end.

(** The server is connected and the table represents [S]. *)
Definition kv_rel (w : option DB) (S : Spaces) : Prop :=
  exists d, w = Some d /\ represents (rows d) S.

(** A failure of the database, reported as such, with the store as it was. *)
Definition db_failed {A} (S : Spaces) (out : option DB * result anyhow A) : Prop :=
  kv_rel out.1 S /\ exists t, out.2 = Err (OfText t).

(** Started in [S], [m] reports a database failure, or ends in [S'] with [r]. *)
Definition sim {A} (S : Spaces) (m : Kv A) (out : Spaces * result anyhow A) : Prop :=
  forall w, kv_rel w S -> db_failed S (m w) \/ (kv_rel (m w).1 out.1 /\ (m w).2 = out.2).

(** [m] reports a failure, or returns a value satisfying [P]; the store is unchanged. *)
Definition reads {A} (S : Spaces) (m : Kv A) (P : A -> Prop) : Prop :=
  forall w, kv_rel w S -> db_failed S (m w) \/ (kv_rel (m w).1 S /\ exists a, (m w).2 = Ok a /\ P a).

Lemma sim_ret {A} S (a : A) : sim S (mret a) (S, Ok a).
Proof. intros w Hw. by right. Qed.

Lemma sim_lift {A} S (r : result anyhow A) : sim S (lift r) (S, r).
Proof. intros w Hw. by right. Qed.

Lemma sim_bind {A B} S (m : Kv A) (P : A -> Prop) (k : A -> Kv B) out :
  reads S m P -> (forall a, P a -> sim S (k a) out) -> sim S (mbind m k) out.
Proof.
  intros Hm Hk w Hw. unfold mbind.
  destruct (Hm w Hw) as [[Hf [t Ht]]|[Hr (a & Ha & HP)]]; destruct (m w) as [w' r]; simpl in *; subst.
  - left. split; [done|]. by exists t.
  - by apply Hk.
Qed.

Lemma reads_bind {A B} S (m : Kv A) (P : A -> Prop) (k : A -> Kv B) (Q : B -> Prop) :
  reads S m P -> (forall a, P a -> reads S (k a) Q) -> reads S (mbind m k) Q.
Proof.
  intros Hm Hk w Hw. unfold mbind.
  destruct (Hm w Hw) as [[Hf [t Ht]]|[Hr (a & Ha & HP)]]; destruct (m w) as [w' r]; simpl in *; subst.
  - left. split; [done|]. by exists t.
  - by apply Hk.
Qed.

Lemma reads_ret {A} S (a : A) (P : A -> Prop) : P a -> reads S (mret a) P.
Proof. intros Ha w Hw. right. split; [done|]. by exists a. Qed.

Lemma reads_conn S : reads S get_db_conn (fun _ => True).
Proof. intros w (d & -> & Hd). right. split; [by exists d|]. by exists tt. Qed.

Lemma reads_find_one S p (P : option KvRow -> Prop) :
  (forall l o, represents l S ->
     match o with Some r => r ∈ l /\ p r = true | None => no_match p l end -> P o) ->
  reads S (kexec (find_one p)) P.
Proof using laws.
  intros HP w (d & -> & Hd). simpl. destruct (find_one p d) as [d' r] eqn:E. simpl.
  pose proof (find_one_rows _ _ _ _ E) as Hrows.
  destruct r as [o|e]; [right|left]; split; try (exists d'; by rewrite Hrows); [|by eexists].
  exists o. split; [done|]. apply (HP (rows d)); [done|].
  destruct o; [by eapply find_one_some|by eapply find_one_none].
Qed.

Lemma reads_find_all S p (P : list KvRow -> Prop) :
  (forall l o, represents l S -> o ≡ₚ List.filter p l -> P o) -> reads S (kexec (find_all p)) P.
Proof using laws.
  intros HP w (d & -> & Hd). simpl. destruct (find_all p d) as [d' r] eqn:E. simpl.
  pose proof (find_all_rows _ _ _ _ E) as Hrows.
  destruct r as [o|e]; [right|left]; split; try (exists d'; by rewrite Hrows); [|by eexists].
  exists o. split; [done|]. apply (HP (rows d)); [done|]. by eapply find_all_ok.
Qed.

Lemma reads_exists S n :
  reads S (namespace_exists n) (fun b => b = bool_decide (is_Some (S !! n))).
Proof using laws.
  eapply reads_bind; [apply reads_find_one; intros l o HR; apply (rep_exists l S n o HR)|].
  intros o Ho. by apply reads_ret.
Qed.

(** After [ensure_namespace_exists(db, namespace).await?]. *)
Lemma sim_ensure {A} S n (k : Kv A) out :
  (S !! n = None -> out = (S, not_found n)) ->
  (forall m, S !! n = Some m -> sim S k out) ->
  sim S (let! _ := ensure_namespace_exists n in k) out.
Proof using laws.
  intros Hnone Hsome w Hw. unfold ensure_namespace_exists, mbind.
  pose proof (reads_exists S n w Hw) as Hr.
  destruct (namespace_exists n w) as [w' [b|e]]; simpl in *.
  - destruct Hr as [[_ [t Ht]]|[Hw' (b' & [= <-] & ->)]]; [done|].
    destruct (S !! n) as [m|] eqn:E.
    + rewrite bool_decide_true by done. simpl. by eapply Hsome.
    + rewrite bool_decide_false by (by intros [? ?]). simpl. right. by rewrite (Hnone eq_refl).
  - destruct Hr as [[Hw' [t [= ->]]]|[_ (b' & ? & _)]]; [|done]. left. split; [done|]. by exists t.
Qed.

(** A final write statement. *)
Lemma sim_write {A} S (stmt : M DB DbErr A) S' a :
  (forall d d', represents (rows d) S -> stmt d = (d', Ok a) -> represents (rows d') S') ->
  (forall d d' a', stmt d = (d', Ok a') -> a' = a) ->
  (forall d d' e, stmt d = (d', Err e) -> rows d' = rows d) ->
  sim S (kexec stmt) (S', Ok a).
Proof.
  intros Hok Hdet Herr w (d & -> & Hd). simpl. destruct (stmt d) as [d' [a'|e]] eqn:E; simpl.
  - pose proof (Hdet _ _ _ E) as ->. right. split; [|done]. exists d'. eauto.
  - left. split; [|by eexists]. exists d'. by rewrite (Herr _ _ _ E).
Qed.

(** A write whose result is not used. *)
Lemma sim_write_then {A B} S (stmt : M DB DbErr A) S' (b : B) :
  (forall d d' a, represents (rows d) S -> stmt d = (d', Ok a) -> represents (rows d') S') ->
  (forall d d' e, stmt d = (d', Err e) -> rows d' = rows d) ->
  sim S (let! _ := kexec stmt in mret b) (S', Ok b).
Proof.
  intros Hok Herr w (d & -> & Hd). unfold mbind. simpl.
  destruct (stmt d) as [d' [a|e]] eqn:E; simpl.
  - right. split; [|done]. exists d'. eauto.
  - left. split; [|by eexists]. exists d'. by rewrite (Herr _ _ _ E).
Qed.

(** ** Each operation *)

(** Step over [let db = get_db_conn()?]. *)
Local Ltac conn :=
  unfold create_kv, get_kv_store, set_v_to_kv, delete_kv, get_keys_from_kv, list_all_namespaces,
    get_kv_store_optional, get_or_create_kv;
  eapply sim_bind; [apply reads_conn|]; intros _ _.

(** [namespace_exists] decides between the two cases of the abstract operation. *)
Lemma sim_exists {A} S n (k : bool -> Kv A) out :
  (S !! n = None -> sim S (k false) out) ->
  (forall m, S !! n = Some m -> sim S (k true) out) ->
  sim S (mbind (namespace_exists n) k) out.
Proof using laws.
  intros Hnone Hsome. eapply sim_bind; [apply reads_exists|]. intros b ->.
  destruct (S !! n) as [m|] eqn:E.
  - rewrite bool_decide_true by done. by eapply Hsome.
  - rewrite bool_decide_false by (by intros [? ?]). auto.
Qed.

Lemma sim_create S n : sim S (create_kv n) (spec (CreateKv n) S).
Proof using laws.
  conn. apply sim_exists; simpl.
  - intros Hn. rewrite Hn. apply sim_write_then.
    + intros d d' i HR Hi. pose proof (insert_auto_unique _ _ _ _ Hi (rep_unique _ _ HR)) as Hu.
      apply insert_auto_ok in Hi as [Hp _]. eapply rep_perm; [symmetry; exact Hp|].
      apply rep_create; [done..|]. eapply unique_rows_perm; [apply kv_conflict_sym|exact Hp|done].
    + intros d d' e He. by apply insert_auto_err in He as [? _].
  - intros m ->. apply sim_lift.
Qed.

Lemma sim_store S n : sim S (get_kv_store n) (spec (GetStore n) S).
Proof using laws.
  conn. apply sim_ensure; [by simpl; intros ->|]. intros m Hm. simpl. rewrite Hm.
  eapply sim_bind; [apply reads_find_all|].
  - intros l o HR Ho. apply (rep_visible l S n m (order_by_asc r_key o) HR Hm). by rewrite order_by_perm.
  - intros o Ho. simpl in Ho. rewrite Ho. apply sim_ret.
Qed.

Lemma sim_get_or_create S n : sim S (get_or_create_kv n) (spec (GetOrCreateKv n) S).
Proof using laws.
  conn. apply sim_exists.
  - intros Hn. pose proof (sim_create S n) as Hc. simpl in *. by rewrite Hn in *.
  - intros m Hm. pose proof (sim_store S n) as Hs. simpl in *. by rewrite Hm in *.
Qed.

Lemma sim_store_optional S n : sim S (get_kv_store_optional n) (spec (GetStoreOptional n) S).
Proof using laws.
  conn. apply sim_exists; simpl.
  - intros ->. apply sim_ret.
  - intros m Hm. rewrite Hm. eapply sim_bind; [apply reads_find_all|].
    + intros l o HR Ho. apply (rep_visible l S n m (order_by_asc r_key o) HR Hm).
      by rewrite order_by_perm.
    + intros o Ho. simpl in Ho. rewrite Ho. apply sim_ret.
Qed.

Lemma sim_get_lenient S n k : sim S (get_v_from_kv_lenient n k) (spec (GetVLenient n k) S).
Proof using laws.
  unfold get_v_from_kv_lenient. simpl. unfold cell_value, is_marker.
  destruct (String.eqb_spec k NAMESPACE_MARKER_KEY) as [->|Hk]; [apply sim_ret|].
  conn. eapply sim_bind; [apply reads_find_one|].
  - intros l o HR Ho. exact (rep_get l S n k o HR Hk Ho).
  - intros o ->. apply sim_ret.
Qed.

Lemma sim_get S n k : sim S (get_v_from_kv n k) (spec (GetV n k) S).
Proof using laws.
  unfold get_v_from_kv. simpl. unfold is_marker.
  destruct (String.eqb_spec k NAMESPACE_MARKER_KEY) as [->|Hk]; [apply sim_ret|].
  conn. apply sim_ensure; [by intros ->|]. intros m Hm. rewrite Hm.
  eapply sim_bind; [apply reads_find_one|].
  - intros l o HR Ho. pose proof (rep_get l S n k o HR Hk Ho) as Hg. rewrite Hm in Hg. exact Hg.
  - simpl. intros o ->. apply sim_ret.
Qed.

Lemma sim_set S n k v : sim S (set_v_to_kv n k v) (spec (SetV n k v) S).
Proof using laws.
  conn. apply sim_ensure; [by simpl; intros ->|]. intros m Hm. simpl. rewrite Hm.
  apply sim_write; [|by intros ? ? []|apply upsert_err].
  intros d d' HR Hu. pose proof (upsert_unique _ _ _ _ _ _ Hu (rep_unique _ _ HR)) as Hq.
  apply (rep_set (rows d)); [done..|]. intros n' k' v'.
  apply upsert_ok in Hu as [[Hno [i Hp]]|[Hsome Hp]]; rewrite (cell_perm _ _ _ _ _ Hp).
  - rewrite cell_cons. simpl. split; [intros [(-> & -> & ->)|Hc]; [by left|right]|naive_solver].
    split; [|done]. intros [-> ->]. destruct Hc as (r & Hr & Hn & Hk & _).
    specialize (Hno r Hr). apply not_true_iff_false in Hno. apply Hno. by apply has_key_true.
  - rewrite cell_update. split; [naive_solver|]. intros [(-> & -> & ->)|?]; [left|by right].
    repeat split. apply existsb_match, existsb_exists in Hsome as (r & Hr & [Hn Hk]%has_key_true).
    exists (r_value r), r. by rewrite list_elem_of_In.
Qed.

Lemma sim_delete_key S n k : sim S (delete_key_from_kv n k) (spec (DeleteKey n k) S).
Proof using laws.
  unfold delete_key_from_kv. simpl. unfold is_marker.
  destruct (String.eqb_spec k NAMESPACE_MARKER_KEY) as [->|Hk]; [apply sim_lift|].
  conn. apply sim_ensure; [by intros ->|]. intros m Hm. rewrite Hm.
  apply sim_write_then; [|apply delete_many_err].
  intros d d' c HR Hd. pose proof (delete_many_unique _ _ _ _ Hd (rep_unique _ _ HR)).
  apply delete_many_ok in Hd as [Hp _]. by eapply rep_delete_key.
Qed.

Lemma sim_delete_kv S n : sim S (delete_kv n) (spec (DeleteKv n) S).
Proof using laws.
  conn. apply sim_ensure; [by simpl; intros ->|]. intros m Hm. simpl. rewrite Hm.
  apply sim_write_then; [|apply delete_many_err].
  intros d d' c HR Hd. pose proof (delete_many_unique _ _ _ _ Hd (rep_unique _ _ HR)).
  apply delete_many_ok in Hd as [Hp _]. by eapply rep_delete_ns.
Qed.

Lemma sim_keys S n : sim S (get_keys_from_kv n) (spec (GetKeys n) S).
Proof using laws.
  conn. apply sim_ensure; [by simpl; intros ->|]. intros m Hm. simpl. rewrite Hm.
  eapply sim_bind; [apply reads_find_all|].
  - intros l o HR Ho. exact (rep_keys l S n m o HR Hm Ho).
  - simpl. intros o ->. apply sim_ret.
Qed.

Lemma sim_namespaces S : sim S list_all_namespaces (spec ListAllNamespaces S).
Proof using laws.
  conn. eapply sim_bind; [apply reads_find_all|].
  - intros l o HR Ho. exact (rep_namespaces l S o HR Ho).
  - simpl. intros o ->. apply sim_ret.
Qed.

Lemma sim_all {A} (op : KvOp A) S : sim S (run_op op) (spec op S).
Proof using laws.
  destruct op; [apply sim_create|apply sim_get_or_create|apply sim_get|apply sim_get_lenient|
    apply sim_set|apply sim_delete_key|apply sim_delete_kv|apply sim_keys|apply sim_store|
    apply sim_store_optional|apply sim_namespaces].
Qed.

(** ** Histories *)

(** An operation of a history with the result it returned. *)
Definition Event : Type := {A : Type & (KvOp A * result anyhow A)%type}.
Definition Call : Type := {A : Type & KvOp A}.

Fixpoint run_all (calls : list Call) (w : option DB) : option DB * list Event :=
  match calls with
  | [] => (w, [])
  | existT A op :: rest =>
      let '(w1, r) := run_op op w in
      let '(w2, events) := run_all rest w1 in
      (w2, existT A (op, r) :: events)
  end.

(** What the abstract store allows: each call has its abstract effect and result, or
    fails with a database error and no effect. *)
Inductive spec_trace : Spaces -> list Event -> Spaces -> Prop :=
| trace_done S : spec_trace S [] S
| trace_step A (op : KvOp A) S events S' :
    spec_trace (spec op S).1 events S' ->
    spec_trace S (existT A (op, (spec op S).2) :: events) S'
| trace_db_failed A (op : KvOp A) t S events S' :
    spec_trace S events S' -> spec_trace S (existT A (op, Err (OfText t)) :: events) S'.

Lemma run_all_trace calls w S :
  kv_rel w S ->
  exists S', spec_trace S (run_all calls w).2 S' /\ kv_rel (run_all calls w).1 S'.
Proof using laws.
  revert w S. induction calls as [|[A op] calls IH]; intros w S Hw; simpl.
  { exists S. split; [constructor|done]. }
  destruct (sim_all op S w Hw) as [[Hf [t Ht]]|[Hr Hres]];
    destruct (run_op op w) as [w1 r]; simpl in *; subst r.
  - destruct (IH w1 S Hf) as (S' & Htr & Hrel). destruct (run_all calls w1); simpl in *.
    exists S'. split; [by constructor|done].
  - destruct (IH w1 _ Hr) as (S' & Htr & Hrel). destruct (run_all calls w1); simpl in *.
    exists S'. split; [by constructor|done].
Qed.

(** The operations that may change the cell [(n, k)]. *)
Definition touches (n k : string) (c : Call) : bool :=
  match c with
  | existT _ (SetV n' k' _) | existT _ (DeleteKey n' k') => String.eqb n n' && String.eqb k k'
  | existT _ (DeleteKv n') => String.eqb n n'
  | _ => false
  end.

Lemma spec_untouched {A} (op : KvOp A) n k S m v :
  touches n k (existT A op) = false -> S !! n = Some m -> m !! k = Some v ->
  exists m', (spec op S).1 !! n = Some m' /\ m' !! k = Some v.
Proof.
  intros Ht Hm Hv. destruct op as [n'|n'| | |n' k' v'|n' k'|n'| | | |]; simpl in *; try by exists m.
  1,2: destruct (decide (n = n')) as [<-|Hn]; [rewrite Hm; by exists m|];
    destruct (S !! n'); [by exists m|]; exists m; simpl; by rewrite lookup_insert_ne.
  - destruct (S !! n') as [m1|] eqn:E; [|by exists m]. simpl. unfold set_cell.
    destruct (decide (n = n')) as [<-|Hn]; [|exists m; by rewrite lookup_insert_ne].
    rewrite lookup_insert_eq. simplify_eq. rewrite String.eqb_refl in Ht. simpl in Ht.
    apply String.eqb_neq in Ht. eexists. split; [done|].
    destruct (is_marker k'); [done|]. by rewrite lookup_insert_ne.
  - destruct (is_marker k'); [by exists m|]. destruct (S !! n') as [m1|] eqn:E; [|by exists m]. simpl.
    destruct (decide (n = n')) as [<-|Hn]; [|exists m; by rewrite lookup_insert_ne].
    rewrite lookup_insert_eq. simplify_eq. rewrite String.eqb_refl in Ht. simpl in Ht.
    apply String.eqb_neq in Ht. eexists. split; [done|]. by rewrite lookup_delete_ne.
  - apply String.eqb_neq in Ht. destruct (S !! n'); [|by exists m]. exists m. simpl.
    by rewrite lookup_delete_ne.
Qed.

Lemma run_all_untouched calls w S n k m v :
  kv_rel w S -> S !! n = Some m -> m !! k = Some v ->
  forallb (fun c => negb (touches n k c)) calls = true ->
  exists S' m', kv_rel (run_all calls w).1 S' /\ S' !! n = Some m' /\ m' !! k = Some v.
Proof using laws.
  revert w S m. induction calls as [|[A op] calls IH]; intros w S m Hw Hm Hv Hc; simpl in *.
  { by exists S, m. }
  apply andb_true_iff in Hc as [Ht%negb_true_iff Hc].
  destruct (sim_all op S w Hw) as [[Hf [t Hte]]|[Hr Hres]];
    destruct (run_op op w) as [w1 r]; simpl in *; subst r.
  - destruct (IH w1 S m Hf Hm Hv Hc) as (S' & m' & ?). destruct (run_all calls w1). by exists S', m'.
  - destruct (spec_untouched op n k S m v Ht Hm Hv) as (m1 & Hm1 & Hv1).
    destruct (IH w1 _ m1 Hr Hm1 Hv1 Hc) as (S' & m' & ?). destruct (run_all calls w1). by exists S', m'.
Qed.

(** ** Theorems *)

(** C2: the key-value table refines a map of maps.  Every history of operations of
    [ng-kv/src/db.rs] run on a table that represents an abstract store returns, call by
    call, what the abstract store returns (values, key lists in collation order,
    not-found and already-exists errors), except that a call may fail with a database
    error, in which case it has no effect; and the final table represents the final
    abstract store. *)
Theorem kv_refines calls w S :
  kv_rel w S ->
  exists S', spec_trace S (run_all calls w).2 S' /\ kv_rel (run_all calls w).1 S'.
Proof using laws. apply run_all_trace. Qed.

(** A value that was stored is read back: after a successful [set_v_to_kv] of an
    ordinary key, whatever other calls run as long as none of them sets or deletes that
    key or deletes the namespace, a read that reaches the database returns the value. *)
Theorem set_then_get calls w w1 S n k v :
  kv_rel w S -> k <> NAMESPACE_MARKER_KEY ->
  set_v_to_kv n k v w = (w1, Ok tt) ->
  forallb (fun c => negb (touches n k c)) calls = true ->
  forall w3 o, get_v_from_kv n k (run_all calls w1).1 = (w3, Ok o) -> o = Some v.
Proof using laws.
  intros Hw Hk Hset Hc w3 o Hget.
  destruct (sim_set S n k v w Hw) as [[_ [t Ht]]|[Hw1 Hr]]; rewrite Hset in *; simpl in *; [done|].
  destruct (S !! n) as [m|]; [|done]. simpl in Hw1.
  assert (set_cell m k v !! k = Some v) as Hcell.
  { unfold set_cell. rewrite is_marker_spec, bool_decide_false by done. apply lookup_insert_eq. }
  destruct (run_all_untouched calls w1 _ n k _ v Hw1 (lookup_insert_eq _ _ _) Hcell Hc)
    as (S' & m' & Hw2 & Hm' & Hv).
  destruct (sim_get S' n k _ Hw2) as [[_ [t Ht]]|[_ Hr']]; rewrite Hget in *; simpl in *; [done|].
  rewrite is_marker_spec, bool_decide_false, Hm' in Hr' by done. congruence.
Qed.
End simulation.

(** ** Example: a table in byte order *)

#[global] Program Instance byte_collation : Collation := {|
  db_le := String.le;
  order_by_asc A f l := merge_sort (fun a b => String.le (f a) (f b)) l;
|}.
Next Obligation. intros A f l. apply merge_sort_Permutation. Qed.
Next Obligation.
  intros A f l. apply StronglySorted_merge_sort.
  - intros a b c H1 H2. by etrans.
  - intros a b. apply (total String.le).
Qed.

#[global] Instance kv_table : TableOps (ListTable KvRow) KvRow := ListTable_ops kv_conflict.
#[global] Instance kv_table_laws : TableLaws kv_table kv_conflict :=
  ListTable_laws kv_conflict kv_conflict_sym.

(** An empty table whose third statement finds the connection down. *)
Definition empty_kv : option (ListTable KvRow) :=
  Some {| tbl := []; next_id := 1; outages := [false; false; true] |}.

Lemma empty_represents : represents [] ∅.
Proof.
  split; [done|..].
  - intros n k v _. unfold cell. split; [|by intros (m & Hm & _)]. by intros (r & ?%not_elem_of_nil & _).
  - intros n. rewrite lookup_empty. unfold cell. split; [|by intros [? ?]].
    by intros (v & r & ?%not_elem_of_nil & _).
  - done.
Qed.

Lemma empty_kv_rel : kv_rel empty_kv ∅.
Proof. eexists. split; [done|]. exact empty_represents. Qed.

Definition sample_calls : list Call := [
  existT _ (CreateKv "conf"); existT _ (SetV "conf" "a" (JBool true));
  existT _ (SetV "conf" "b" JNull); existT _ (SetV "conf" "a" (JString "x"));
  existT _ (DeleteKey "conf" "b"); existT _ (GetKeys "conf"); existT _ (GetV "conf" "a")].

Lemma kv_refines_witness :
  exists S', spec_trace ∅ (run_all sample_calls empty_kv).2 S' /\
    kv_rel (run_all sample_calls empty_kv).1 S'.
Proof. exact (kv_refines sample_calls empty_kv ∅ empty_kv_rel). Defined.

Definition one_ns_kv : option (ListTable KvRow) :=
  Some {| tbl := [kv_row "conf" NAMESPACE_MARKER_KEY JNull 1]; next_id := 2; outages := [] |}.

Lemma one_ns_rel : kv_rel one_ns_kv (<["conf"%string := ∅]> ∅).
Proof.
  eexists. split; [done|]. simpl. apply rep_create; [apply empty_represents|done|by vm_compute].
Qed.

Definition other_calls : list Call := [existT _ (SetV "conf" "b" JNull); existT _ (CreateKv "z")].

Lemma set_then_get_witness :
  (get_v_from_kv "conf" "a"
     (run_all other_calls (set_v_to_kv "conf" "a" (JBool true) one_ns_kv).1).1).2 = Ok (Some (JBool true)).
Proof.
  destruct (get_v_from_kv _ _ _) as [w3 [o|e]] eqn:E; [|vm_compute in E; discriminate E].
  simpl. f_equal.
  apply (set_then_get other_calls one_ns_kv (set_v_to_kv "conf" "a" (JBool true) one_ns_kv).1
           (<["conf"%string := ∅]> ∅) "conf" "a" (JBool true) one_ns_rel) with (w3 := w3).
  - discriminate.
  - vm_compute. reflexivity.
  - reflexivity.
  - exact E.
Defined.
