(* ===== verification/KvRpc.v ===== *)
(** * The key-value RPC methods

    [ng-kv/src/rpc]: every handler checks the reserved name space and the permission,
    then calls [db.rs].  A handler's result is the value it serialises, or the JSON-RPC
    error object.  The token state and the clock do not change during a call. *)
From stdpp Require Import base strings gmap list numbers sorting.
From Stdlib Require Import Ascii.
From S2P Require Import Prelude Errors Json Db Permission TokenCache Concrete TokenCheck.
From S2P Require Import KvAuth KvStore KvRefine.

Record NamespaceKeyItem : Type := { item_namespace : string; item_key : string }.
Record KvValueItem : Type := { kv_namespace : string; kv_key : string; kv_value : Json }.

(** The prefix of a pattern that ends in its star. *)
Definition wildcard_prefix (key_pattern : string) : option string :=
  if negb (contains_char "*" key_pattern) then None else strip_suffix "*" key_pattern.

(** [sort_unstable] on [&str]: byte order, no two keys are equal. *)
Definition sort_unstable (l : list string) : list string := merge_sort String.le l.

Section kv_rpc.
Context `{Crypto} `{Serde}.
Context {DB : Type} {ops : TableOps DB KvRow} {coll : Collation} {ho : HashOrder}.
Variable e : Env.

Definition Rpc (A : Type) : Type := M (option DB) ErrorObject A.

(** [match process_logic.await { Ok(r) => Ok(r), Err(e) => Err(to_rpc_error(&e)) }]. *)
Definition respond {A} (process_logic : Kv A) : Rpc A :=
  fun w => let '(w', r) := process_logic w in (w', rpc_result r).

Definition create (token name : string) : Rpc KVStore.t :=
  respond (
    let! _ := lift (ensure_namespace_writable name) in
    let! _ := lift (check_kv_create_permission e token) in
    create_kv name).

Definition get_value (token namespace key : string) : Rpc Json :=
  respond (
    let! _ := lift (check_kv_read_permission e token namespace key) in
    let! value := get_v_from_kv namespace key in
    mret (match value with Some v => v | None => JNull end)).

(** [json!({"success": true})]. *)
Definition success : Json := JObject [("success"%string, JBool true)].

Definition set_value (token namespace key : string) (value : Json) : Rpc Json :=
  respond (
    let! _ := lift (ensure_namespace_writable namespace) in
    let! _ := lift (check_kv_write_permission e token namespace key) in
    let! _ := set_v_to_kv namespace key value in
    mret success).

Definition delete_key (token namespace key : string) : Rpc Json :=
  respond (
    let! _ := lift (ensure_namespace_writable namespace) in
    let! _ := lift (check_kv_delete_permission e token namespace key) in
    let! _ := delete_key_from_kv namespace key in
    mret success).

Definition delete_namespace (token namespace : string) : Rpc Json :=
  respond (
    let! _ := lift (ensure_namespace_writable namespace) in
    let! _ := lift (check_kv_delete_namespace_permission e token namespace) in
    let! _ := delete_kv namespace in
    mret success).

Definition get_all_keys (token namespace : string) : Rpc (list string) :=
  respond (
    let! _ := lift (check_kv_list_keys_permission e token namespace) in
    get_keys_from_kv namespace).

Definition list_all_namespace (token : string) : Rpc (list string) :=
  respond (
    let! permission := lift (resolve_kv_list_namespace_permission e token) in
    let! namespaces := list_all_namespaces in
    mret (match permission with
          | ListAll => namespaces
          | ListScoped allowed => List.filter (fun n => bool_decide (n ∈ allowed)) namespaces
          end)).

(** The first loop: any refusal ends the request. *)
Fixpoint check_items (token : string) (items : list NamespaceKeyItem) : result anyhow unit :=
  match items with
  | [] => Ok tt
  | item :: rest =>
      let? _ := check_kv_read_permission_with_pattern e token (item_namespace item) (item_key item) in
      check_items token rest
  end.

(** The keys of a loaded namespace that start with [prefix], in byte order, with their values. *)
Definition matched_items (namespace prefix : string) (kv_store : KVStore.t) : list KvValueItem :=
  let matched_keys :=
    sort_unstable (List.filter (fun k => starts_with k prefix) (KVStore.keys kv_store)) in
  omap (fun key =>
    match KVStore.get kv_store key with
    | Some value => Some {| kv_namespace := namespace; kv_key := key; kv_value := value |}
    | None => None
    end) matched_keys.

(** One iteration of the second loop: the cache and the items to push. *)
Definition get_item (namespace_cache : gmap string KVStore.t) (item : NamespaceKeyItem) :
  Kv (gmap string KVStore.t * list KvValueItem) :=
  let namespace := item_namespace item in
  let key_pattern := item_key item in
  match wildcard_prefix key_pattern with
  | None =>
      let! value :=
        match namespace_cache !! namespace with
        | Some store => mret (default JNull (KVStore.get store key_pattern))
        | None => let! v := get_v_from_kv_lenient namespace key_pattern in mret (default JNull v)
        end in
      mret (namespace_cache,
            [{| kv_namespace := namespace; kv_key := key_pattern; kv_value := value |}])
  | Some prefix =>
      let! namespace_cache' :=
        match namespace_cache !! namespace with
        | Some _ => mret namespace_cache
        | None =>
            let! loaded := get_kv_store_optional namespace in
            mret (match loaded with
                  | Some kv_store => <[namespace := kv_store]> namespace_cache
                  | None => namespace_cache
                  end)
        end in
      mret (namespace_cache',
            match namespace_cache' !! namespace with
            | Some kv_store => matched_items namespace prefix kv_store
            | None => []
            end)
  end.

Fixpoint get_items (namespace_cache : gmap string KVStore.t) (output : list KvValueItem)
    (items : list NamespaceKeyItem) : Kv (list KvValueItem) :=
  match items with
  | [] => mret output
  | item :: rest =>
      let! out := get_item namespace_cache item in
      get_items (fst out) (output ++ snd out) rest
  end.

Definition get_multi_value (token : string) (namespace_key : list NamespaceKeyItem) :
  Rpc (list KvValueItem) :=
  respond (
    match namespace_key with
    | [] => lift (fail_with (InvalidInput "namespace_key cannot be empty"))
    | _ =>
        let! _ := lift (check_items token namespace_key) in
        get_items ∅ [] namespace_key
    end).

(** ** What a batch read returns, on the abstract store *)

Definition value_item (n k : string) (v : option Json) : KvValueItem :=
  {| kv_namespace := n; kv_key := k; kv_value := default JNull v |}.

Definition item_spec (S : Spaces) (item : NamespaceKeyItem) : list KvValueItem :=
  let n := item_namespace item in
  match wildcard_prefix (item_key item) with
  | None => [value_item n (item_key item) (cell_value S n (item_key item))]
  | Some prefix =>
      match S !! n with
      | None => []
      | Some m =>
          map (fun k => value_item n k (m !! k))
            (sort_unstable (List.filter (fun k => starts_with k prefix) (elements (dom m))))
      end
  end.

Lemma sort_determined l l' : l ≡ₚ l' -> sort_unstable l = sort_unstable l'.
Proof.
  intros Hp. apply (StronglySorted_unique String.le);
    [apply StronglySorted_merge_sort; apply _..|]. unfold sort_unstable.
  by rewrite !merge_sort_Permutation.
Qed.

Lemma keys_perm n m : KVStore.keys (KVStore.mk n m) ≡ₚ elements (dom m).
Proof.
  unfold KVStore.keys. simpl. rewrite hash_iter_perm. apply NoDup_Permutation.
  - apply NoDup_fst_map_to_list.
  - apply NoDup_elements.
  - intros k. rewrite elem_of_elements, elem_of_dom, list_elem_of_fmap. unfold is_Some. split.
    + intros ([k' v] & -> & Hv%elem_of_map_to_list). eauto.
    + intros [v Hv]. exists (k, v). by rewrite elem_of_map_to_list.
Qed.

Lemma matched_items_spec S n m prefix key :
  S !! n = Some m -> wildcard_prefix key = Some prefix ->
  matched_items n prefix (KVStore.mk n m) =
  item_spec S {| item_namespace := n; item_key := key |}.
Proof.
  intros Hm Hp. unfold matched_items, item_spec. simpl. rewrite Hp, Hm.
  rewrite (sort_determined _ _ (list_filter_perm _ _ _ (keys_perm n m))).
  assert (forall k, k ∈ sort_unstable (List.filter (fun k => starts_with k prefix) (elements (dom m))) ->
          is_Some (m !! k)) as Hin.
  { intros k. unfold sort_unstable. rewrite merge_sort_Permutation, list_filter_elem, elem_of_elements.
    by intros [Hk%elem_of_dom _]. }
  induction (sort_unstable _) as [|k l IH]; simpl; [done|].
  unfold KVStore.get in *. simpl in *.
  destruct (Hin k (list_elem_of_here _ _)) as [v Hv]. rewrite Hv.
  f_equal. apply IH. intros k' Hk'. apply Hin. by right.
Qed.

Context {laws : TableLaws ops kv_conflict}.

Lemma reads_of_sim {A} S (m : Kv A) a : sim S m (S, Ok a) -> reads S m (fun x => x = a).
Proof.
  intros Hm w Hw. destruct (Hm w Hw) as [?|[Hr Ha]]; [by left|right]. split; [done|]. by exists a.
Qed.

Lemma sim_of_reads {A} S (m : Kv A) a : reads S m (fun x => x = a) -> sim S m (S, Ok a).
Proof.
  intros Hm w Hw. destruct (Hm w Hw) as [?|[Hr (x & Hx & ->)]]; [by left|by right].
Qed.

(** Every cached namespace is loaded in full. *)
Definition cache_ok (S : Spaces) (c : gmap string KVStore.t) : Prop :=
  forall n st, c !! n = Some st -> exists m, S !! n = Some m /\ st = KVStore.mk n m.

Lemma rep_cached_get w S n m k :
  kv_rel w S -> S !! n = Some m -> KVStore.get (KVStore.mk n m) k = cell_value S n k.
Proof.
  intros (d & -> & HR) Hm. unfold KVStore.get, cell_value. rewrite is_marker_spec, Hm. simpl.
  case_bool_decide as Hk; [|done]. subst. by eapply rep_hidden.
Qed.

Lemma get_item_spec S c item :
  cache_ok S c ->
  reads S (get_item c item) (fun out => cache_ok S out.1 /\ out.2 = item_spec S item).
Proof using laws.
  intros Hc. destruct item as [n k]. unfold get_item. simpl.
  destruct (wildcard_prefix k) as [prefix|] eqn:Hp.
  - eapply (reads_bind _ _ (fun c' => cache_ok S c' /\
      match c' !! n with Some st => Some st = option_map (KVStore.mk n) (S !! n) | None => S !! n = None end)).
    + destruct (c !! n) as [st|] eqn:Hn.
      * apply reads_ret. split; [done|]. rewrite Hn. destruct (Hc n st Hn) as (m & -> & ->). done.
      * eapply reads_bind; [apply reads_of_sim, (sim_store_optional S n)|].
        intros o ->. apply reads_ret. destruct (S !! n) as [m|] eqn:Hm; simpl.
        -- split; [|by rewrite lookup_insert_eq]. intros n' st.
           rewrite lookup_insert_Some. intros [[<- <-]|[_ Hst]]; [eauto|by apply Hc].
        -- split; [done|]. by rewrite Hn.
    + intros c' [Hc' Hl]. apply reads_ret. simpl. split; [done|].
      destruct (c' !! n) as [st|] eqn:Hst.
      * destruct (Hc' n st Hst) as (m & Hm & ->). by apply matched_items_spec.
      * unfold item_spec. simpl. by rewrite Hp, Hl.
  - eapply (reads_bind _ _ (fun v => v = default JNull (cell_value S n k))).
    + destruct (c !! n) as [st|] eqn:Hn.
      * intros w Hw. destruct (Hc n st Hn) as (m & Hm & ->). right. split; [done|].
        eexists. split; [done|]. by rewrite (rep_cached_get w S n m k Hw Hm).
      * eapply reads_bind; [apply reads_of_sim, (sim_get_lenient S n k)|].
        intros o ->. by apply reads_ret.
    + intros v ->. apply reads_ret. split; [done|]. unfold item_spec. simpl. by rewrite Hp.
Qed.

Lemma get_items_spec S items c out :
  cache_ok S c -> reads S (get_items c out items) (fun r => r = out ++ flat_map (item_spec S) items).
Proof using laws.
  revert c out. induction items as [|item items IH]; intros c out Hc; simpl.
  { apply reads_ret. by rewrite app_nil_r. }
  eapply reads_bind; [by apply get_item_spec|]. intros [c' new] [Hc' Hnew]. simpl in *. subst new.
  rewrite app_assoc. by apply IH.
Qed.

(** ** Guards before a database call *)

Definition rpc_db_failed {A} (S : Spaces) (out : option DB * result ErrorObject A) : Prop :=
  kv_rel out.1 S /\ exists t, out.2 = Err (to_rpc_error (OfText t)).

Lemma respond_sim {A} S (m : Kv A) out w :
  sim S m out -> kv_rel w S ->
  rpc_db_failed S (respond m w) \/
  (kv_rel (respond m w).1 out.1 /\ (respond m w).2 = rpc_result out.2).
Proof.
  intros Hm Hw. unfold respond, rpc_db_failed.
  destruct (Hm w Hw) as [[Hf [t Ht]]|[Hr Ha]]; destruct (m w) as [w' r]; simpl in *; subst.
  - left. split; [done|]. by exists t.
  - by right.
Qed.

Lemma sim_then {A B} S (m : Kv A) (b : B) out :
  sim S m out ->
  sim S (let! _ := m in mret b)
    (out.1, match out.2 with Ok _ => Ok b | Err er => Err er end).
Proof.
  intros Hm w Hw. unfold mbind.
  destruct (Hm w Hw) as [[Hf [t Ht]]|[Hr Ha]]; destruct (m w) as [w' r]; simpl in *; subst.
  - left. split; [done|]. by exists t.
  - right. by destruct out.2.
Qed.

(** ** Writing handlers *)

(** A refused or failed write leaves the store alone, for one of four reasons; a
    successful one was allowed and has the abstract effect. *)
Definition guarded_write {A B} (S : Spaces) (out : option DB * result ErrorObject A)
    (ns : string) (permitted : Prop) (abstract : Spaces * result anyhow B) : Prop :=
  (kv_rel out.1 S /\ exists er, out.2 = Err (to_rpc_error er) /\
     ((exists t, er = OfText t) \/ is_reserved_namespace ns = true \/ ~ permitted \/
      abstract.2 = Err er)) \/
  (is_reserved_namespace ns = false /\ permitted /\ (exists b, abstract.2 = Ok b) /\
   kv_rel out.1 abstract.1 /\ exists a, out.2 = Ok a).

Lemma writable_ok ns : ensure_namespace_writable ns = Ok tt <-> is_reserved_namespace ns = false.
Proof. unfold ensure_namespace_writable. by destruct (is_reserved_namespace ns). Qed.

Lemma guarded_handler {A B} S w ns (chk : result anyhow unit) permitted (m : Kv A) r
    (abstract : Spaces * result anyhow B) :
  kv_rel w S -> (chk = Ok tt <-> permitted) ->
  sim S m (abstract.1, r) ->
  match abstract.2 with Ok _ => exists a, r = Ok a | Err er => r = Err er /\ abstract.1 = S end ->
  guarded_write S
    (respond (let! _ := lift (ensure_namespace_writable ns) in let! _ := lift chk in m) w)
    ns permitted abstract.
Proof.
  intros Hw Hchk Hm Hr. unfold guarded_write, respond. rewrite mbind_lift.
  unfold ensure_namespace_writable. destruct (is_reserved_namespace ns).
  { left. split; [done|]. simpl. eexists. split; [done|]. auto. }
  rewrite mbind_lift. destruct chk as [[]|er].
  - destruct (Hm w Hw) as [[Hf [t Ht]]|[Hrel Hres]]; destruct (m w) as [w' r']; simpl in *; subst r'.
    { left. split; [done|]. eexists. split; [done|]. eauto. }
    destruct abstract as [S2 [b|er]]; simpl in *.
    + destruct Hr as [a ->]. right. repeat split; [by apply Hchk|by exists b|done|by exists a].
    + destruct Hr as [-> ->]. left. split; [done|]. eexists. split; [done|]. auto.
  - left. split; [done|]. simpl. eexists. split; [done|]. right. right. left. by rewrite <-Hchk.
Qed.

Definition is_super (token : string) : Prop :=
  exists t, parse_token token = Ok t /\ check_super_token (e_globals e) t = Ok true.

Lemma create_permission_ok token :
  PERMISSION_CHECKER e = Some (ServerPermissionChecker (e_globals e) (e_clock e)) ->
  check_kv_create_permission e token = Ok tt <-> is_super token.
Proof.
  intros Hpc. unfold check_kv_create_permission, require_permission_checker, is_super.
  rewrite Hpc. simpl. destruct (parse_token token) as [t|er]; simpl; [|naive_solver].
  rewrite ok_exists. destruct (check_super_token (e_globals e) t) as [[]|er]; simpl; naive_solver.
Qed.

Definition key_op_permitted (token ns k : string) (p : string -> Permission) : Prop :=
  validate_namespace ns = Ok tt /\ validate_key k = Ok tt /\
  (authorised e token (Scope_KvNamespace ns) (p "*"%string) \/
   authorised e token (Scope_KvNamespace ns) (p k)).

Lemma write_permission_ok token ns k :
  check_kv_write_permission e token ns k = Ok tt <->
  key_op_permitted token ns k (fun k => P_Kv (Kv_Write k)).
Proof. unfold check_kv_write_permission. by rewrite !validated, kv_decide_two. Qed.

Lemma delete_permission_ok token ns k :
  check_kv_delete_permission e token ns k = Ok tt <->
  key_op_permitted token ns k (fun k => P_Kv (Kv_Delete k)).
Proof. unfold check_kv_delete_permission. by rewrite !validated, kv_decide_two. Qed.

Lemma delete_ns_permission_ok token ns :
  check_kv_delete_namespace_permission e token ns = Ok tt <->
  validate_namespace ns = Ok tt /\
  authorised e token (Scope_KvNamespace ns) (P_Kv (Kv_Delete "*")).
Proof. unfold check_kv_delete_namespace_permission. by rewrite !validated, kv_decide_one. Qed.

Lemma spec_result {A B} (op : KvOp A) S (b : B) :
  let r := match (spec op S).2 with Ok _ => Ok b | Err er => Err er end in
  match (spec op S).2 with Ok _ => exists a, r = Ok a | Err er => r = Err er /\ (spec op S).1 = S end.
Proof.
  destruct op; simpl; repeat (case_match; simpl in *; simplify_eq); eauto;
    unfold not_found, already_exists, marker_protected, fail_with in *; by simplify_eq.
Qed.

Lemma create_result S ns :
  match (spec (CreateKv ns) S).2 with
  | Ok _ => exists a, (spec (CreateKv ns) S).2 = Ok a
  | Err er => (spec (CreateKv ns) S).2 = Err er /\ (spec (CreateKv ns) S).1 = S
  end.
Proof. simpl. destruct (S !! ns); simpl; eauto. Qed.

(** C15: the four writing methods of the key-value RPC.  Each either leaves the store
    unchanged and reports an error (the database failed, the namespace is reserved, the
    token is not permitted, or the abstract operation has that error), or succeeds, and
    then the namespace is not reserved and the effect is the abstract one; for [set_value], [delete_key]
    and [delete_namespace] the names are then valid and the token is authorised by the general rule,
    for [create], which looks at the name no further, the token is the super token. *)
Theorem kv_writes_guarded token ns k v w S :
  PERMISSION_CHECKER e = Some (ServerPermissionChecker (e_globals e) (e_clock e)) ->
  kv_rel w S ->
  guarded_write S (create token ns w) ns (is_super token) (spec (CreateKv ns) S) /\
  guarded_write S (set_value token ns k v w) ns
    (key_op_permitted token ns k (fun k => P_Kv (Kv_Write k))) (spec (SetV ns k v) S) /\
  guarded_write S (delete_key token ns k w) ns
    (key_op_permitted token ns k (fun k => P_Kv (Kv_Delete k))) (spec (DeleteKey ns k) S) /\
  guarded_write S (delete_namespace token ns w) ns
    (validate_namespace ns = Ok tt /\
     authorised e token (Scope_KvNamespace ns) (P_Kv (Kv_Delete "*"))) (spec (DeleteKv ns) S).
Proof using laws.
  intros Hpc Hw.
  split; [|split; [|split]]; (eapply guarded_handler; [exact Hw|..]).
  - by apply create_permission_ok.
  - rewrite <-surjective_pairing. apply sim_create.
  - apply create_result.
  - apply write_permission_ok.
  - apply (sim_then S _ success), sim_set.
  - apply spec_result.
  - apply delete_permission_ok.
  - apply (sim_then S _ success), sim_delete_key.
  - apply spec_result.
  - apply delete_ns_permission_ok.
  - apply (sim_then S _ success), sim_delete_kv.
  - apply spec_result.
Qed.

(** ** Reading handlers *)

Lemma multi_value_cases token items w S :
  kv_rel w S ->
  let out := get_multi_value token items w in
  kv_rel out.1 S /\
  match out.2 with
  | Ok values => items <> [] /\ check_items token items = Ok tt /\
                 values = flat_map (item_spec S) items
  | Err er => items = [] \/ (exists e', check_items token items = Err e') \/
              exists t, er = to_rpc_error (OfText t)
  end.
Proof using laws.
  intros Hw. unfold get_multi_value. destruct items as [|item items]; [by split; [|left]|].
  set (l := item :: items). unfold respond. rewrite mbind_lift.
  destruct (check_items token l) as [[]|er]; [|by split; [|right; left; eexists]].
  destruct (get_items_spec S l ∅ [] (fun n st Hn => ltac:(by rewrite lookup_empty in Hn)) w Hw)
    as [[Hf [t Ht]]|[Hr (x & Hx & ->)]]; destruct (get_items _ _ _ _) as [w' r]; simpl in *; subst r.
  - split; [done|]. right. right. by exists t.
  - done.
Qed.

Lemma check_items_ok token items :
  check_items token items = Ok tt <->
  forall item, item ∈ items ->
    check_kv_read_permission_with_pattern e token (item_namespace item) (item_key item) = Ok tt.
Proof.
  induction items as [|item items IH]; simpl.
  { split; [|done]. by intros _ item ?%not_elem_of_nil. }
  rewrite validated, IH. setoid_rewrite elem_of_cons. naive_solver.
Qed.

Lemma pattern_permission_ok token ns pat :
  check_kv_read_permission_with_pattern e token ns pat = Ok tt <->
  validate_namespace ns = Ok tt /\ validate_key_pattern pat = Ok tt /\
  (authorised e token (Scope_KvNamespace ns) (P_Kv (Kv_Read "*")) \/
   authorised e token (Scope_KvNamespace ns) (P_Kv (Kv_Read pat))).
Proof. unfold check_kv_read_permission_with_pattern. by rewrite !validated, kv_decide_two. Qed.

(** A valid pattern is a plain key, or a star-free prefix followed by one star. *)
Lemma validate_pattern_prefix pat prefix :
  validate_key_pattern pat = Ok tt -> wildcard_prefix pat = Some prefix ->
  pat = prefix +:+ "*" /\ contains_char "*" prefix = false.
Proof.
  unfold validate_key_pattern, wildcard_prefix. destruct (str_is_empty pat); [done|].
  destruct (contains_char "*" pat) eqn:Hc; simpl; [|done].
  intros Hv Hp. rewrite Hp in Hv. apply strip_suffix_Some in Hp as ->. split; [done|].
  rewrite count_char_app in Hv. simpl in Hv. rewrite contains_char_count.
  destruct (count_char "*" prefix) as [|n]; [done|]. simpl in Hv.
  by replace (n + 1 =? 0)%nat with false in Hv by (symmetry; apply Nat.eqb_neq; lia).
Qed.

(** Every token the text stands for grants patterns with at most a final star. *)
Definition token_patterns_wf (token : string) : Prop :=
  forall t tok, parse_token token = Ok t -> get_token (e_globals e) t = Ok tok ->
    limits_wf (token_limit tok).

Lemma authorised_wildcard token s op prefix key :
  token_patterns_wf token -> contains_char "*" prefix = false -> starts_with key prefix = true ->
  authorised e token s (with_param op (prefix +:+ "*")) -> authorised e token s (with_param op key).
Proof.
  intros Hwf Hp Hk (t & Ht & Ha). exists t. split; [done|].
  apply check_limit_true in Ha. apply check_limit_true.
  destruct Ha as [?|(Hs & tok & now & Htok & Hnow & Hv & Hc)]; [by left|right].
  split; [done|]. exists tok, now. repeat split; [done..|]. eapply limits_wildcard; eauto.
Qed.

Lemma starts_with_empty key : starts_with key "" = true.
Proof. apply starts_with_spec. by exists key. Qed.

(** A batch read returns exactly what the abstract store holds, in the order of the
    request: for a plain key its value or [null], for a wildcard all keys with that
    prefix in byte order, nothing for a missing namespace.  The per-request namespace
    cache and the order in which hash maps iterate never show.  An empty request and
    any item that is refused give an error, and no request changes the store. *)
Theorem get_multi_value_spec token items w S :
  kv_rel w S ->
  let out := get_multi_value token items w in
  kv_rel out.1 S /\
  match out.2 with
  | Ok values => items <> [] /\ check_items token items = Ok tt /\
                 values = flat_map (item_spec S) items
  | Err er => items = [] \/ (exists e', check_items token items = Err e') \/
              exists t, er = to_rpc_error (OfText t)
  end.
Proof using laws. apply multi_value_cases. Qed.

(** C16: a batch read discloses nothing a single read would refuse: every item it
    returns, also one matched by a wildcard, is one whose key the token is authorised to
    read, provided the patterns the token grants carry at most a final star. *)
Theorem get_multi_value_no_leak token items w S w' values :
  kv_rel w S -> token_patterns_wf token ->
  get_multi_value token items w = (w', Ok values) ->
  forall x, x ∈ values ->
    authorised e token (Scope_KvNamespace (kv_namespace x)) (P_Kv (Kv_Read (kv_key x))).
Proof using laws.
  intros Hw Hwf Hrun x Hx.
  pose proof (multi_value_cases token items w S Hw) as [_ Hc]. rewrite Hrun in Hc. simpl in Hc.
  destruct Hc as (_ & Hchk & ->).
  apply list_elem_of_In, in_flat_map in Hx as (item & Hitem & Hx%list_elem_of_In).
  apply list_elem_of_In in Hitem.
  pose proof (proj1 (check_items_ok _ _) Hchk item Hitem) as (_ & Hpat & Hauth)%pattern_permission_ok.
  assert (authorised e token (Scope_KvNamespace (item_namespace item)) (P_Kv (Kv_Read "*")) ->
          forall k, authorised e token (Scope_KvNamespace (item_namespace item)) (P_Kv (Kv_Read k)))
    as Hall.
  { intros Ha k. by apply (authorised_wildcard token _ OpKvRead "" k Hwf eq_refl (starts_with_empty k)). }
  unfold item_spec in Hx. destruct (wildcard_prefix (item_key item)) as [prefix|] eqn:Hp.
  - destruct (validate_pattern_prefix _ _ Hpat Hp) as [Hk Hpre].
    destruct (S !! item_namespace item) as [m|]; [|by apply not_elem_of_nil in Hx].
    apply list_elem_of_fmap in Hx as (k & -> & Hin). simpl.
    unfold sort_unstable in Hin. rewrite merge_sort_Permutation, list_filter_elem in Hin.
    destruct Hin as [_ Hst]. destruct Hauth as [Ha|Ha]; [by apply Hall|].
    rewrite Hk in Ha. by apply (authorised_wildcard token _ OpKvRead prefix k Hwf Hpre Hst).
  - apply list_elem_of_singleton in Hx as ->. simpl. destruct Hauth; auto.
Qed.

(** Listing namespaces returns, in collation order, exactly the existing namespaces
    the general rule allows the token to list; it is refused otherwise. *)
Theorem list_all_namespace_spec token w S w' names :
  PERMISSION_CHECKER e = Some (ServerPermissionChecker (e_globals e) (e_clock e)) ->
  kv_rel w S -> list_all_namespace token w = (w', Ok names) ->
  StronglySorted db_le names /\ NoDup names /\
  forall n, n ∈ names <-> is_Some (S !! n) /\
    authorised e token (Scope_KvNamespace n) (P_Kv Kv_ListAllNamespace).
Proof using laws.
  intros Hpc Hw Hrun. unfold list_all_namespace, respond in Hrun. rewrite mbind_lift in Hrun.
  destruct (resolve_kv_list_namespace_permission e token) as [perm|er] eqn:Hres; [|done].
  pose proof (sim_namespaces S w Hw) as Hs. unfold mbind in Hrun.
  destruct (list_all_namespaces w) as [w1 [l|er]]; [|done].
  destruct Hs as [[_ [t Ht]]|[_ [= ->]]]; [done|].
  set (l := order_by_asc (fun n => n) (elements (dom S))) in *.
  pose proof (order_by_sorted _ (fun n => n) (elements (dom S))) as Hsorted. fold l in Hsorted.
  assert (l ≡ₚ elements (dom S)) as Hperm by apply order_by_perm.
  assert (NoDup l) as Hnd by (rewrite Hperm; apply NoDup_elements).
  assert (forall n, n ∈ l <-> is_Some (S !! n)) as Hin
    by (intros n; by rewrite Hperm, elem_of_elements, elem_of_dom).
  setoid_rewrite <-(fun n => listing_agrees e token n Hpc). rewrite Hres.
  setoid_rewrite ok_exists. destruct perm as [|allowed]; simpl in *; injection Hrun as _ <-.
  - split; [done|]. split; [done|]. intros n. rewrite Hin. naive_solver.
  - split; [|split].
    + clear -Hsorted. induction Hsorted as [|a l' Hl IH Ha]; simpl; [constructor|].
      case_bool_decide; [|done]. constructor; [done|]. rewrite Forall_forall in *.
      intros x Hx. apply list_filter_elem in Hx as [? _]. auto.
    + by apply NoDup_ListNoDup, List.NoDup_filter, NoDup_ListNoDup.
    + intros n. by rewrite list_filter_elem, Hin, bool_decide_eq_true.
Qed.

(** Names that fail validation are refused by every other method, whatever the token. *)
Lemma invalid_namespace_stuck ns token w :
  validate_namespace ns <> Ok tt -> is_reserved_namespace ns = false ->
  exists m, delete_namespace token ns w = (w, Err (to_rpc_error (OfNodeget (InvalidInput m)))).
Proof.
  intros Hv Hr. unfold delete_namespace, respond. rewrite mbind_lift.
  unfold ensure_namespace_writable. rewrite Hr, mbind_lift.
  unfold check_kv_delete_namespace_permission, validate_namespace in *.
  destruct (str_is_empty ns); [by eexists|]. destruct (contains_char "*" ns); [by eexists|done].
Qed.
End kv_rpc.

(** ** Examples *)

#[local] Existing Instance list_order.

Lemma kv_writes_guarded_witness :
  guarded_write (<["conf"%string := ∅]> ∅)
    (set_value sample_env "rootkey:rootsecret" "conf" "a" (JBool true) one_ns_kv) "conf"
    (key_op_permitted sample_env "rootkey:rootsecret" "conf" "a" (fun k => P_Kv (Kv_Write k)))
    (spec (SetV "conf" "a" (JBool true)) (<["conf"%string := ∅]> ∅)).
Proof.
  apply (kv_writes_guarded sample_env "rootkey:rootsecret" "conf" "a" (JBool true) one_ns_kv
           (<["conf"%string := ∅]> ∅) eq_refl one_ns_rel).
Defined.

(** A table with the namespace [ns], which the sample token of alice may read in part. *)
Definition ns_kv : option (ListTable KvRow) :=
  Some {| tbl := [kv_row "ns" "metab" (JBool true) 3; kv_row "ns" "metaa" JNull 2;
                  kv_row "ns" NAMESPACE_MARKER_KEY JNull 1]; next_id := 4; outages := [] |}.

Definition ns_spaces : Spaces :=
  <["ns"%string := {["metaa"%string := JNull; "metab"%string := JBool true]}]> ∅.

Lemma ns_kv_rel : kv_rel ns_kv ns_spaces.
Proof.
  assert (kv_rel (Some {| tbl := [kv_row "ns" NAMESPACE_MARKER_KEY JNull 1]; next_id := 2;
                          outages := [] |}) (<["ns"%string := ∅]> ∅)) as H0.
  { eexists. split; [done|]. simpl. apply rep_create; [apply empty_represents|done|by vm_compute]. }
  destruct (sim_set _ "ns" "metaa" JNull _ H0) as [[_ [t Ht]]|[H1 _]]; [discriminate Ht|].
  destruct (sim_set _ "ns" "metab" (JBool true) _ H1) as [[_ [t Ht]]|[H2 _]]; [discriminate Ht|].
  vm_compute in H2 |- *. exact H2.
Qed.

Definition meta_request : list NamespaceKeyItem :=
  [{| item_namespace := "ns"; item_key := "meta*" |}; {| item_namespace := "ns"; item_key := "metac" |}].

Lemma get_multi_value_spec_witness :
  (get_multi_value sample_env "alicekey:alicesecret" meta_request ns_kv).2 =
  Ok [value_item "ns" "metaa" (Some JNull); value_item "ns" "metab" (Some (JBool true));
      value_item "ns" "metac" None].
Proof.
  pose proof (get_multi_value_spec sample_env "alicekey:alicesecret" meta_request ns_kv ns_spaces
                ns_kv_rel) as [_ Hout].
  destruct (get_multi_value _ _ _ _).2 as [values|er] eqn:E.
  - destruct Hout as (_ & _ & ->). vm_compute. reflexivity.
  - vm_compute in E. discriminate E.
Defined.

Lemma get_multi_value_no_leak_witness :
  authorised sample_env "alicekey:alicesecret" (Scope_KvNamespace "ns") (P_Kv (Kv_Read "metab")).
Proof.
  apply (get_multi_value_no_leak sample_env "alicekey:alicesecret" meta_request ns_kv ns_spaces
           ns_kv [value_item "ns" "metaa" (Some JNull); value_item "ns" "metab" (Some (JBool true));
                  value_item "ns" "metac" None] ns_kv_rel)
    with (x := value_item "ns" "metab" (Some (JBool true))).
  - intros t tok [= <-] [= <-] l p Hl Hp op s E. apply list_elem_of_singleton in Hl as ->.
    apply list_elem_of_singleton in Hp as ->. right. exists "meta"%string.
    destruct op; simplify_eq/=; done.
  - vm_compute. reflexivity.
  - right. left.
Defined.

Lemma list_all_namespace_spec_witness :
  "ns"%string ∈ ["ns"%string] <-> is_Some (ns_spaces !! "ns"%string) /\
    authorised sample_env "rootkey:rootsecret" (Scope_KvNamespace "ns") (P_Kv Kv_ListAllNamespace).
Proof.
  apply (list_all_namespace_spec sample_env "rootkey:rootsecret" ns_kv ns_spaces ns_kv ["ns"%string]
           eq_refl ns_kv_rel).
  vm_compute. reflexivity.
Defined.

(** [create] does not validate the name it is given.  The super token can create the
    namespace [a*]; from then on no token, the super token included, can delete it, since
    every other method rejects the name as invalid. *)
Theorem created_namespace_undeletable :
  (create sample_env "rootkey:rootsecret" "a*" one_ns_kv).2 = Ok (KVStore.new "a*") /\
  forall token w, exists m,
    delete_namespace (DB := ListTable KvRow) sample_env token "a*" w =
    (w, Err (to_rpc_error (OfNodeget (InvalidInput m)))).
Proof.
  split; [by vm_compute|]. intros token w. by apply invalid_namespace_stuck.
Qed.
