(* ===== verification/UuidCache.v ===== *)
(** * The cache of agent identities

    [ng-monitoring/src/monitoring_uuid_cache.rs]: agents are known by a UUID, the
    monitoring tables by the number of its row in [monitoring_uuid].  The cache holds the
    table in both directions; identities are soft-deleted and resurrected, never removed.
    Row numbers are [i32] in the table and [i16] everywhere else. *)
From stdpp Require Import base strings gmap list numbers sorting pretty.
From S2P Require Import Prelude Errors Json Db Permission.

Record UuidModel : Type := { u_id : Z; u_uuid : Uuid; u_soft_delete : bool }.

#[global] Instance UuidModel_eq_dec : EqDecision UuidModel.
Proof. solve_decision. Defined.

(** The primary key and [UNIQUE(uuid)]. *)
Definition uuid_conflict (a b : UuidModel) : bool :=
  (u_id a =? u_id b)%Z || bool_decide (u_uuid a = u_uuid b).

Lemma uuid_conflict_sym a b : uuid_conflict a b = uuid_conflict b a.
Proof.
  unfold uuid_conflict. rewrite Z.eqb_sym. f_equal. apply bool_decide_ext. split; congruence.
Qed.

Record MonitoringUuidCacheInner : Type := {
  by_uuid : gmap Uuid (Z * bool);
  by_id : gmap Z (Uuid * bool);
}.

Definition try_id_i16 (model_id : Z) : option Z := i16_try_from model_id.

(** The two [insert] calls that every update of the cache makes. *)
Definition put (uuid : Uuid) (id : Z) (soft_delete : bool) (c : MonitoringUuidCacheInner) :
  MonitoringUuidCacheInner := {|
  by_uuid := <[uuid := (id, soft_delete)]> (by_uuid c);
  by_id := <[id := (uuid, soft_delete)]> (by_id c);
|}.

Definition build_step (c : MonitoringUuidCacheInner) (model : UuidModel) : MonitoringUuidCacheInner :=
  match try_id_i16 (u_id model) with
  | None => c
  | Some id => put (u_uuid model) id (u_soft_delete model) c
  end.

Definition build_cache (models : list UuidModel) : MonitoringUuidCacheInner :=
  fold_left build_step models {| by_uuid := ∅; by_id := ∅ |}.

(** Both maps are replaced under one write lock. *)
Definition reload_from_models (models : list UuidModel) (c : MonitoringUuidCacheInner) :
  MonitoringUuidCacheInner := build_cache models.

(** ** Look-ups *)

Definition get_id (c : MonitoringUuidCacheInner) (uuid : Uuid) : option Z := option_map fst (by_uuid c !! uuid).
Definition get_uuid (c : MonitoringUuidCacheInner) (id : Z) : option Uuid := option_map fst (by_id c !! id).
Definition is_active (c : MonitoringUuidCacheInner) (uuid : Uuid) : bool :=
  match by_uuid c !! uuid with Some (_, soft_delete) => negb soft_delete | None => false end.
Definition exists_uuid (c : MonitoringUuidCacheInner) (uuid : Uuid) : bool :=
  match by_uuid c !! uuid with Some _ => true | None => false end.

(** [Uuid] orders by its bytes, most significant first: by its value. *)
Definition list_all `{HashOrder} (c : MonitoringUuidCacheInner) : list Uuid :=
  merge_sort N.le
    (map fst (List.filter (fun '(_, (_, soft_delete)) => negb soft_delete) (hash_iter (by_uuid c)))).

Definition uuid_key_le (a b : Uuid * bool) : Prop := N.le a.1 b.1.
#[global] Instance uuid_key_le_dec : RelDecision uuid_key_le.
Proof. intros a b. unfold uuid_key_le. apply _. Defined.

Definition list_all_with_agent_mode `{HashOrder} (c : MonitoringUuidCacheInner) : list (Uuid * bool) :=
  merge_sort uuid_key_le
    (map (fun '(uuid, (_, soft_delete)) => (uuid, soft_delete)) (hash_iter (by_uuid c))).

(** ** Operations on the table and the cache *)

Record UuidWorld (DB : Type) : Type := {
  uw_db : option DB;
  uw_cache : option MonitoringUuidCacheInner;   (** [MONITORING_UUID_CACHE_GLOBAL] *)
}.
Arguments uw_db {DB}. Arguments uw_cache {DB}.

Section uuid_ops.
Context {DB : Type} {ops : TableOps DB UuidModel}.
(** [impl Display for Uuid]. *)
Variable uuid_display : Uuid -> string.

Definition Um (A : Type) : Type := M (UuidWorld DB) NodegetError A.

Definition umap {A} (e : NodegetError) (conv : DbErr -> NodegetError) (stmt : M DB DbErr A) : Um A :=
  fun w => match uw_db w with
           | Some d => let '(d', r) := stmt d in
                       ({| uw_db := Some d'; uw_cache := uw_cache w |}, map_err conv r)
           | None => (w, Err e)
           end.

Definition no_db : NodegetError := DatabaseError "Database connection not initialized".

Definition need_db : Um unit :=
  fun w => match uw_db w with Some _ => (w, Ok tt) | None => (w, Err no_db) end.

Definition query {A} (prefix : string) (stmt : M DB DbErr A) : Um A :=
  umap no_db (fun e => DatabaseError (prefix +:+ db_msg e)) stmt.

(** Write the cache of the instance the method runs on. *)
Definition cache_put (uuid : Uuid) (id : Z) (soft_delete : bool) : Um unit :=
  fun w => ({| uw_db := uw_db w; uw_cache := option_map (put uuid id soft_delete) (uw_cache w) |}, Ok tt).

Definition is_uuid (uuid : Uuid) (r : UuidModel) : bool := bool_decide (u_uuid r = uuid).
Definition is_id (id : Z) (r : UuidModel) : bool := (u_id r =? id)%Z.
Definition set_soft_delete (b : bool) (r : UuidModel) : UuidModel :=
  {| u_id := u_id r; u_uuid := u_uuid r; u_soft_delete := b |}.
Definition new_model (uuid : Uuid) (id : Z) : UuidModel :=
  {| u_id := id; u_uuid := uuid; u_soft_delete := false |}.

(** [load_from_db]: every row. *)
Definition load_all : M (UuidWorld DB) anyhow (list UuidModel) :=
  fun w => match uw_db w with
           | Some d =>
               let '(d', r) := find_all (fun _ => true) d in
               ({| uw_db := Some d'; uw_cache := uw_cache w |},
                map_err (fun e => OfText ("Failed to load from DB: " +:+ db_msg e)) r)
           | None => (w, Err (OfNodeget (ConfigNotFound "Database connection not initialized")))
           end.

Definition reload : M (UuidWorld DB) anyhow unit :=
  fun w => match uw_cache w with
           | None => (w, Ok tt)
           | Some _ =>
               (let! models := load_all in
                fun w' => ({| uw_db := uw_db w';
                              uw_cache := option_map (reload_from_models models) (uw_cache w') |}, Ok tt)) w
           end.

Definition init : M (UuidWorld DB) anyhow unit :=
  let! models := load_all in
  fun w => match uw_cache w with
           | Some _ => reload w
           | None => ({| uw_db := uw_db w; uw_cache := Some (build_cache models) |}, Ok tt)
           end.

Definition exceeds (model : UuidModel) (uuid : Uuid) : NodegetError :=
  DatabaseError ("monitoring_uuid id " +:+ pretty (u_id model) +:+ " for " +:+ uuid_display uuid +:+
                 " exceeds i16 range; migrate uuid_id columns to i32 (see REVIEW H1)").

(** The lookup in the cache: an active entry answers at once. *)
Definition cache_hit (uuid : Uuid) (c : option MonitoringUuidCacheInner) : option Z :=
  match c with
  | None => None
  | Some c => match by_uuid c !! uuid with
              | Some (id, false) => Some id
              | _ => None
              end
  end.

(** Clear the soft-delete mark of a row, by primary key. *)
Definition resurrect (prefix : string) (model : UuidModel) : Um unit :=
  let! _ := query prefix (update_one (is_id (u_id model)) (set_soft_delete false)) in mret tt.

(** The branch taken when the row was found. *)
Definition use_existing (uuid : Uuid) (model : UuidModel) : Um Z :=
  let! id := lift (ok_or (exceeds model uuid) (try_id_i16 (u_id model))) in
  let! _ := if u_soft_delete model
            then resurrect "Failed to resurrect monitoring_uuid: " model
            else mret tt in
  let! _ := cache_put uuid id false in
  mret id.

(** After a unique violation: another request inserted the row first. *)
Definition after_conflict (uuid : Uuid) (e : DbErr) : Um (option (Z * bool)) :=
  let! m := query "Failed to query monitoring_uuid after unique conflict: " (find_one (is_uuid uuid)) in
  let! m := lift (ok_or (DatabaseError ("monitoring_uuid insert conflicted but row not found: "
                                        +:+ db_msg e)) m) in
  match try_id_i16 (u_id m) with
  | None => mret None
  | Some id =>
      if u_soft_delete m
      then let! _ := resurrect "Failed to resurrect monitoring_uuid after conflict: " m in
           mret (Some (id, false))
      else mret (Some (id, u_soft_delete m))
  end.

(** The branch taken when no row was found. *)
Definition insert_row (uuid : Uuid) : Um (option (Z * bool)) :=
  fun w => match uw_db w with
           | None => (w, Err no_db)
           | Some d =>
               let '(d', r) := insert_auto (new_model uuid) d in
               let w' := {| uw_db := Some d'; uw_cache := uw_cache w |} in
               match r with
               | Ok last_insert_id => (w', Ok (option_map (fun id => (id, false)) (try_id_i16 last_insert_id)))
               | Err e =>
                   if is_unique_violation e then after_conflict uuid e w'
                   else (w', Err (DatabaseError ("Failed to insert monitoring_uuid: " +:+ db_msg e)))
               end
           end.

Definition insert_new (uuid : Uuid) : Um Z :=
  let! r := insert_row uuid in
  let! ids := lift (ok_or (DatabaseError ("monitoring_uuid id for " +:+ uuid_display uuid +:+
    " exceeds i16 range after insert/conflict; migrate uuid_id columns to i32 (see REVIEW H1)")) r) in
  let! _ := cache_put uuid (fst ids) (snd ids) in
  mret (fst ids).

(** The query that follows a cache miss. *)
Definition find_uuid (prefix : string) (uuid : Uuid) : Um (option UuidModel) :=
  let! _ := need_db in query prefix (find_one (is_uuid uuid)).

Definition store_uuid (uuid : Uuid) (existing : option UuidModel) : Um Z :=
  match existing with
  | Some model => use_existing uuid model
  | None => insert_new uuid
  end.

Definition get_or_insert (uuid : Uuid) : Um Z :=
  let! hit := asks (fun w => cache_hit uuid (uw_cache w)) in
  match hit with
  | Some id => mret id
  | None =>
      let! existing := find_uuid "Failed to query monitoring_uuid: " uuid in
      store_uuid uuid existing
  end.

Definition soft_delete (uuid : Uuid) : Um bool :=
  let! existing := find_uuid "Failed to query monitoring_uuid for soft_delete: " uuid in
  match existing with
  | None => mret false
  | Some model =>
      if u_soft_delete model then mret true else
      let! id := lift (ok_or (exceeds model uuid) (try_id_i16 (u_id model))) in
      let! _ := query "Failed to soft_delete monitoring_uuid: "
                  (update_one (is_id (u_id model)) (set_soft_delete true)) in
      let! _ := cache_put uuid id true in
      mret true
  end.
End uuid_ops.

(** ** The cache mirrors the table *)

(** A row that the cache can hold. *)
Definition entry (l : list UuidModel) (u : Uuid) (id : Z) (sd : bool) : Prop :=
  {| u_id := id; u_uuid := u; u_soft_delete := sd |} ∈ l /\ in_i16 id.

Record mirrors (c : MonitoringUuidCacheInner) (l : list UuidModel) : Prop := {
  mirror_uuid : forall u id sd, by_uuid c !! u = Some (id, sd) <-> entry l u id sd;
  mirror_id : forall id u sd, by_id c !! id = Some (u, sd) <-> entry l u id sd;
}.

Lemma entry_perm l l' u id sd : l ≡ₚ l' -> entry l u id sd <-> entry l' u id sd.
Proof. intros Hp. unfold entry. by rewrite Hp. Qed.

Lemma mirrors_perm c l l' : l ≡ₚ l' -> mirrors c l -> mirrors c l'.
Proof.
  intros Hp [Hu Hi]. split; intros; rewrite <-(entry_perm l l') by done; [apply Hu|apply Hi].
Qed.

Lemma try_id_spec z id : try_id_i16 z = Some id <-> z = id /\ in_i16 id.
Proof.
  unfold try_id_i16, i16_try_from, in_i16. destruct (_ && _)%bool eqn:E.
  - apply andb_true_iff in E as [?%Z.leb_le ?%Z.leb_le]. naive_solver lia.
  - apply andb_false_iff in E. rewrite !Z.leb_gt in E. naive_solver lia.
Qed.

Lemma conflict_id a b : u_id a = u_id b -> uuid_conflict a b = true.
Proof. intros He. unfold uuid_conflict. by rewrite He, Z.eqb_refl. Qed.

Lemma conflict_uuid a b : u_uuid a = u_uuid b -> uuid_conflict a b = true.
Proof. intros He. unfold uuid_conflict. by rewrite bool_decide_true, orb_true_r. Qed.

(** The cache after [put], when the new entry replaces the old one of its UUID and id. *)
Lemma mirrors_put c l l' u id sd :
  in_i16 id ->
  (forall u' id' sd', entry l' u' id' sd' <->
     (u' = u /\ id' = id /\ sd' = sd) \/ (u' <> u /\ id' <> id /\ entry l u' id' sd')) ->
  (forall u' id' sd', entry l u' id' sd' -> u' = u <-> id' = id) ->
  mirrors c l -> mirrors (put u id sd c) l'.
Proof.
  intros Hid Hl' Hinj [Hu Hi]. split; intros; simpl; rewrite Hl', lookup_insert_Some.
  - rewrite Hu. split.
    + intros [[<- [= <- <-]]|[Hne He]]; [by left|]. right. split; [done|]. split; [|done].
      intros ->. apply Hne. symmetry. by apply (Hinj _ _ _ He).
    + naive_solver.
  - rewrite Hi. split.
    + intros [[<- [= <- <-]]|[Hne He]]; [by left|]. right. split; [|done].
      intros ->. apply Hne. symmetry. by apply (Hinj _ _ _ He).
    + naive_solver.
Qed.

Lemma mirrors_insert c l u id sd :
  in_i16 id -> no_match (uuid_conflict {| u_id := id; u_uuid := u; u_soft_delete := sd |}) l ->
  mirrors c l -> mirrors (put u id sd c) ({| u_id := id; u_uuid := u; u_soft_delete := sd |} :: l).
Proof.
  intros Hid Hno. apply mirrors_put; [done|..].
  - intros u' id' sd'. unfold entry. rewrite elem_of_cons. split.
    + intros [[[= -> -> ->]|Hin] Hr]; [by left|]. right. specialize (Hno _ Hin). split; [|split; [|done]];
        intros ->; apply not_true_iff_false in Hno; apply Hno; [by apply conflict_uuid|by apply conflict_id].
    + naive_solver.
  - intros u' id' sd' [Hin _]. specialize (Hno _ Hin). apply not_true_iff_false in Hno.
    split; intros ->; exfalso; apply Hno; [by apply conflict_uuid|by apply conflict_id].
Qed.

Lemma mirrors_skip c l r : ~ in_i16 (u_id r) -> mirrors c l -> mirrors c (r :: l).
Proof.
  intros Hr [Hu Hi].
  assert (forall u id sd, entry l u id sd <-> entry (r :: l) u id sd) as He.
  { intros u id sd. unfold entry. rewrite elem_of_cons. split; [naive_solver|].
    intros [[<-|?] ?]; [done|auto]. }
  split; intros; rewrite <-He; [apply Hu|apply Hi].
Qed.

Lemma build_cache_mirrors l : unique_rows uuid_conflict l = true -> mirrors (build_cache l) l.
Proof.
  unfold build_cache. induction l as [|r l IH] using rev_ind; intros Hu.
  { split; intros; simpl; rewrite lookup_empty; unfold entry; split; try done;
      by intros [?%not_elem_of_nil _]. }
  assert (l ++ [r] ≡ₚ r :: l) as Hp by (by rewrite Permutation_app_comm).
  rewrite fold_left_app. simpl. eapply mirrors_perm; [by symmetry|].
  apply (unique_rows_perm _ uuid_conflict_sym _ _ Hp), unique_rows_cons in Hu as [Hno Hu].
  unfold build_step at 1. destruct (try_id_i16 (u_id r)) as [id|] eqn:E.
  - apply try_id_spec in E as [<- Hr]. destruct r as [id u sd]. simpl in *.
    apply mirrors_insert; [done..|by apply IH].
  - apply mirrors_skip; [|by apply IH]. intros Hr.
    by rewrite (proj2 (try_id_spec _ (u_id r)) (conj eq_refl Hr)) in E.
Qed.

(** Setting the mark of one row. *)
Lemma entry_set_mark l r b u id sd :
  unique_rows uuid_conflict l = true -> r ∈ l -> in_i16 (u_id r) ->
  entry (map (update_if (is_id (u_id r)) (set_soft_delete b)) l) u id sd <->
  (u = u_uuid r /\ id = u_id r /\ sd = b) \/ (u <> u_uuid r /\ id <> u_id r /\ entry l u id sd).
Proof.
  intros Hu Hr Hid.
  assert (forall x, x ∈ l -> uuid_conflict x r = true -> x = r) as Hsame
    by (intros x Hx Hc; by apply (unique_rows_lookup uuid_conflict uuid_conflict_sym l)).
  unfold entry. rewrite list_elem_of_fmap. unfold update_if, is_id. split.
  - intros [(x & Hx & Hin) Hi]. destruct (Z.eqb_spec (u_id x) (u_id r)) as [He|He].
    + rewrite (Hsame x Hin (conflict_id _ _ He)) in Hx. left. by inversion Hx.
    + right. rewrite <-Hx in *. simpl in *. split; [|done].
      intros ->. apply He. rewrite <-(Hsame _ Hin); [done|by apply conflict_uuid].
  - intros [(-> & -> & ->)|(Hne & Hni & Hin & Hi)].
    + split; [|done]. exists r. by rewrite Z.eqb_refl.
    + split; [|done]. eexists. split; [|exact Hin]. simpl.
      by rewrite (proj2 (Z.eqb_neq id (u_id r)) Hni).
Qed.

Lemma entry_inj l r u id sd :
  unique_rows uuid_conflict l = true -> r ∈ l -> entry l u id sd -> u = u_uuid r <-> id = u_id r.
Proof.
  intros Hu Hr [Hin _].
  pose proof (unique_rows_lookup uuid_conflict uuid_conflict_sym l _ _ Hu Hin Hr) as Hsame.
  split; intros He; (rewrite <-Hsame; [done|]); [by apply conflict_uuid|by apply conflict_id].
Qed.

Lemma mirrors_mark c l l' r b :
  unique_rows uuid_conflict l = true -> r ∈ l -> in_i16 (u_id r) ->
  l' ≡ₚ map (update_if (is_id (u_id r)) (set_soft_delete b)) l ->
  mirrors c l -> mirrors (put (u_uuid r) (u_id r) b c) l'.
Proof.
  intros Hu Hr Hid Hp Hm. apply (mirrors_put c l); [done|..|done].
  - intros. rewrite (entry_perm _ _ _ _ _ Hp). by apply entry_set_mark.
  - intros u id sd. by apply entry_inj.
Qed.

Lemma mirrors_touch c l r :
  unique_rows uuid_conflict l = true -> r ∈ l -> in_i16 (u_id r) ->
  mirrors c l -> mirrors (put (u_uuid r) (u_id r) (u_soft_delete r) c) l.
Proof.
  intros Hu Hr Hid Hm. apply (mirrors_put c l); [done|..|done].
  - intros u id sd. split.
    + intros He. destruct (decide (u = u_uuid r)) as [->|Hne].
      * left. destruct He as [Hin _].
        rewrite <-(unique_rows_lookup uuid_conflict uuid_conflict_sym l _ _ Hu Hin Hr); [done|].
        by apply conflict_uuid.
      * right. split; [done|]. split; [|done]. intros ->. by apply Hne, (entry_inj l r _ _ _ Hu Hr He).
    + intros [(-> & -> & ->)|(_ & _ & He)]; [|done]. split; [|done]. by destruct r.
  - intros u id sd. by apply entry_inj.
Qed.

Section uuid_proofs.
Context {DB : Type} {ops : TableOps DB UuidModel} {laws : TableLaws ops uuid_conflict}.
Variable uuid_display : Uuid -> string.

Notation Um := (M (UuidWorld DB) NodegetError).

Definition world (d : DB) (cc : option MonitoringUuidCacheInner) : UuidWorld DB :=
  {| uw_db := Some d; uw_cache := cc |}.

(** Connected; the table is unique and the cache, once initialised, mirrors it. *)
Definition uuid_ok (w : UuidWorld DB) : Prop :=
  exists d cc, w = world d cc /\ unique_rows uuid_conflict (rows d) = true /\
    forall c, cc = Some c -> mirrors c (rows d).

(** What the steps after the look-up leave behind, started on the rows [l] with the
    cache [cc]: on success the row is active under [id] and the cache was updated
    accordingly; on failure the invariant still holds. *)
Definition stored (l : list UuidModel) (cc : option MonitoringUuidCacheInner) (u : Uuid)
    (out : UuidWorld DB * result NodegetError Z) : Prop :=
  uuid_ok out.1 /\
  match out.2 with
  | Err _ => True
  | Ok id => exists d, out.1 = world d (option_map (put u id false) cc) /\
               entry (rows d) u id false /\
               forall id0 sd0, entry l u id0 sd0 -> id0 = id
  end.

Lemma query_world {A} p (stmt : M DB DbErr A) d cc :
  query p stmt (world d cc) =
  (world (stmt d).1 cc, map_err (fun e => DatabaseError (p +:+ db_msg e)) (stmt d).2).
Proof. unfold query, umap. simpl. by destruct (stmt d). Qed.

(** Setting the mark of a stored row, then recording it in the cache. *)
Lemma mark_ok d d' cc r b x :
  unique_rows uuid_conflict (rows d) = true -> (forall c, cc = Some c -> mirrors c (rows d)) ->
  r ∈ rows d -> in_i16 (u_id r) ->
  update_one (is_id (u_id r)) (set_soft_delete b) d = (d', Ok x) ->
  uuid_ok (world d' (option_map (put (u_uuid r) (u_id r) b) cc)) /\
  entry (rows d') (u_uuid r) (u_id r) b.
Proof using laws.
  intros Hu Hc Hr Hid Hup. pose proof (update_unique _ _ _ _ _ Hup Hu) as Hu'.
  apply update_one_ok in Hup as [Hp _]. split.
  - exists d'. eexists. split; [done|]. split; [done|]. intros c. destruct cc as [c0|]; [|done].
    intros [= <-]. by apply (mirrors_mark c0 (rows d)); auto.
  - rewrite (entry_perm _ _ _ _ _ Hp). apply entry_set_mark; [done..|]. by left.
Qed.

Lemma entry_same_id d r u id0 sd0 :
  unique_rows uuid_conflict (rows d) = true -> r ∈ rows d -> u_uuid r = u ->
  entry (rows d) u id0 sd0 -> id0 = u_id r.
Proof. intros Hu Hr <- He. by apply (entry_inj _ _ _ _ _ Hu Hr He). Qed.

(** Resurrect if needed; the cache write that follows keeps the invariant. *)
Lemma resurrect_spec p d cc r :
  unique_rows uuid_conflict (rows d) = true -> (forall c, cc = Some c -> mirrors c (rows d)) ->
  r ∈ rows d -> in_i16 (u_id r) ->
  let out := (if u_soft_delete r then resurrect p r else mret tt) (world d cc) in
  match out.2 with
  | Err _ => uuid_ok out.1
  | Ok _ => exists d', out.1 = world d' cc /\
              uuid_ok (world d' (option_map (put (u_uuid r) (u_id r) false) cc)) /\
              entry (rows d') (u_uuid r) (u_id r) false
  end.
Proof using laws.
  intros Hu Hc Hr Hid. destruct (u_soft_delete r) eqn:Hsd; simpl.
  - unfold resurrect, mbind. rewrite query_world.
    destruct (update_one _ _ d) as [d' [x|e]] eqn:E; simpl.
    + exists d'. split; [done|]. by eapply mark_ok.
    + exists d', cc. split; [done|]. by rewrite (update_one_err _ _ _ _ _ E).
  - exists d. split; [done|]. split.
    + exists d. eexists. split; [done|]. split; [done|]. intros c. destruct cc as [c0|]; [|done].
      intros [= <-]. rewrite <-Hsd. apply mirrors_touch; auto.
    + split; [|done]. rewrite <-Hsd. by destruct r.
Qed.

Lemma use_existing_spec d cc r u :
  unique_rows uuid_conflict (rows d) = true -> (forall c, cc = Some c -> mirrors c (rows d)) ->
  r ∈ rows d -> u_uuid r = u ->
  stored (rows d) cc u (use_existing uuid_display u r (world d cc)).
Proof using laws.
  intros Hu Hc Hr <-. unfold use_existing. rewrite mbind_lift.
  destruct (try_id_i16 (u_id r)) as [id|] eqn:E; simpl; [|by split; [exists d, cc|]].
  apply try_id_spec in E as [<- Hid]. unfold mbind at 1.
  pose proof (resurrect_spec "Failed to resurrect monitoring_uuid: " d cc r Hu Hc Hr Hid) as Hres.
  cbv zeta in Hres. set (step := if u_soft_delete r then _ else _) in *.
  destruct (step (world d cc)) as [w1 [[]|e]]; simpl in Hres; [|by split].
  destruct Hres as (d' & -> & Hok & He). split; [done|]. simpl. exists d'. split; [done|].
  split; [done|]. intros id0 sd0. by eapply entry_same_id.
Qed.

Lemma after_conflict_spec d cc u e :
  unique_rows uuid_conflict (rows d) = true -> (forall c, cc = Some c -> mirrors c (rows d)) ->
  let out := after_conflict u e (world d cc) in
  match out.2 with
  | Err _ | Ok None => uuid_ok out.1
  | Ok (Some (id, sd)) => sd = false /\ exists d', out.1 = world d' cc /\
      uuid_ok (world d' (option_map (put u id false) cc)) /\ entry (rows d') u id false /\
      forall id0 sd0, entry (rows d) u id0 sd0 -> id0 = id
  end.
Proof using laws.
  clear uuid_display. intros Hu Hc. cbv zeta. unfold after_conflict. rewrite mbind_run, query_world.
  destruct (find_one (is_uuid u) d) as [d1 r] eqn:E. pose proof (find_one_rows _ _ _ _ E) as Hrows. simpl.
  assert (uuid_ok (world d1 cc)) as Hok by (exists d1, cc; rewrite Hrows; auto).
  destruct r as [[m|]|]; simpl; [|exact Hok..]. rewrite mbind_lift. simpl.
  apply find_one_some in E as [Hm Hmu%bool_decide_eq_true].
  destruct (try_id_i16 (u_id m)) as [id|] eqn:Ei; [|exact Hok]. apply try_id_spec in Ei as [<- Hid].
  rewrite <-Hrows in *. pose proof (fun i s => entry_same_id d1 m u i s Hu Hm Hmu) as Hid0.
  pose proof (resurrect_spec "Failed to resurrect monitoring_uuid after conflict: " d1 cc m Hu Hc Hm Hid)
    as Hres. rewrite Hmu in Hres. destruct (u_soft_delete m); simpl in *.
  - rewrite mbind_run. destruct (resurrect _ m (world d1 cc)) as [w1 [[]|er]]; simpl in *; [|done].
    destruct Hres as (d' & -> & ?). split; [done|]. exists d'. split; [done|]. naive_solver.
  - destruct Hres as (d' & [= <-] & ?). split; [done|]. exists d1. split; [done|]. naive_solver.
Qed.

Lemma insert_new_spec d cc u :
  unique_rows uuid_conflict (rows d) = true -> (forall c, cc = Some c -> mirrors c (rows d)) ->
  stored (rows d) cc u (insert_new uuid_display u (world d cc)).
Proof using laws.
  intros Hu Hc. unfold insert_new. rewrite mbind_run. unfold insert_row. simpl.
  destruct (insert_auto (new_model u) d) as [d1 [id|e]] eqn:E.
  - pose proof (insert_auto_unique _ _ _ _ E Hu) as Hu1. apply insert_auto_ok in E as [Hp Hno].
    rewrite mbind_lift. destruct (try_id_i16 id) as [i|] eqn:Ei; simpl.
    + apply try_id_spec in Ei as [<- Hid]. split; simpl.
      * eexists d1, _. split; [done|]. split; [done|]. intros c. destruct cc as [c0|]; [|done].
        intros [= <-]. eapply mirrors_perm; [by symmetry|]. apply mirrors_insert; auto.
      * exists d1. split; [done|]. split; [split; [rewrite Hp; by left|done]|].
        intros id0 sd0 [Hin _]. specialize (Hno _ Hin). apply not_true_iff_false in Hno.
        exfalso. apply Hno. by apply conflict_uuid.
    + split; [|done]. exists d1, cc. split; [done|]. split; [done|]. intros c Hcc.
      eapply mirrors_perm; [by symmetry|]. apply mirrors_skip; [|by apply Hc]. simpl. intros Hid.
      by rewrite (proj2 (try_id_spec id id) (conj eq_refl Hid)) in Ei.
  - apply insert_auto_err in E as [Hrows _]. rewrite <-Hrows in *.
    destruct (is_unique_violation e); [|by split; [exists d1, cc|]].
    pose proof (after_conflict_spec d1 cc u e Hu Hc) as Hac. fold (world d1 cc).
    destruct (after_conflict u e (world d1 cc)) as [w1 [[[id sd]|]|er]]; simpl in Hac; [|by split..].
    destruct Hac as (-> & d' & -> & Hok & He). split; [done|]. simpl. by exists d'.
Qed.

Lemma find_uuid_spec p u d cc :
  exists d', (find_uuid p u (world d cc)).1 = world d' cc /\ rows d' = rows d /\
  match (find_uuid p u (world d cc)).2 with
  | Ok (Some r) => r ∈ rows d /\ u_uuid r = u
  | Ok None => no_match (is_uuid u) (rows d)
  | Err _ => True
  end.
Proof using laws.
  unfold find_uuid, mbind. simpl. rewrite query_world.
  destruct (find_one (is_uuid u) d) as [d1 r] eqn:E. pose proof (find_one_rows _ _ _ _ E) as Hrows.
  exists d1. simpl. split; [done|]. split; [done|]. destruct r as [[r|]|]; simpl; [| |done].
  - apply find_one_some in E as [Hr Hru%bool_decide_eq_true]. done.
  - by eapply find_one_none.
Qed.

(** The outcome of [get_or_insert] from any consistent state. *)
Lemma get_or_insert_cases d cc u :
  unique_rows uuid_conflict (rows d) = true -> (forall c, cc = Some c -> mirrors c (rows d)) ->
  let out := get_or_insert uuid_display u (world d cc) in
  stored (rows d) cc u out \/ exists id, out = (world d cc, Ok id) /\ cache_hit u cc = Some id.
Proof using laws.
  intros Hu Hc. cbv zeta. unfold get_or_insert. rewrite mbind_run. simpl.
  destruct (cache_hit u cc) as [id|] eqn:Hhit; [right; by exists id|left].
  destruct (find_uuid_spec "Failed to query monitoring_uuid: " u d cc) as (d' & Hw & Hrows & Hr).
  rewrite mbind_run. destruct (find_uuid _ u (world d cc)) as [w1 [ex|er]]; simpl in *; subst w1.
  - rewrite <-Hrows in *. destruct ex as [r|]; simpl.
    + destruct Hr. by apply use_existing_spec.
    + by apply insert_new_spec.
  - split; [|done]. exists d', cc. by rewrite Hrows.
Qed.

Lemma soft_delete_cases d cc u :
  unique_rows uuid_conflict (rows d) = true -> (forall c, cc = Some c -> mirrors c (rows d)) ->
  let out := soft_delete uuid_display u (world d cc) in
  uuid_ok out.1 /\
  match out.2 with
  | Err _ => True
  | Ok true => exists d' r, uw_db out.1 = Some d' /\ r ∈ rows d' /\ u_uuid r = u /\ u_soft_delete r = true
  | Ok false => no_match (is_uuid u) (rows d)
  end.
Proof using laws.
  intros Hu Hc. cbv zeta. unfold soft_delete. rewrite mbind_run.
  destruct (find_uuid_spec "Failed to query monitoring_uuid for soft_delete: " u d cc)
    as (d' & Hw & Hrows & Hr).
  destruct (find_uuid _ u (world d cc)) as [w1 [[r|]|er]]; simpl in *; subst w1; rewrite <-Hrows in *;
    [|by split; [exists d', cc|]..].
  destruct Hr as [Hr <-]. destruct (u_soft_delete r) eqn:Hsd.
  { split; [by exists d', cc|]. simpl. by exists d', r. }
  rewrite mbind_lift. destruct (try_id_i16 (u_id r)) as [id|] eqn:Ei; simpl; [|by split; [exists d', cc|]].
  apply try_id_spec in Ei as [<- Hid]. rewrite mbind_run, query_world.
  destruct (update_one _ _ d') as [d1 [x|e]] eqn:E; simpl.
  - destruct (mark_ok d' d1 cc r true x Hu Hc Hr Hid E) as [Hok [He _]]. split; [exact Hok|].
    exists d1. eexists. split; [done|]. split; [exact He|]. done.
  - split; [|done]. exists d1, cc. by rewrite (update_one_err _ _ _ _ _ E).
Qed.

Lemma load_all_spec d cc :
  exists d', (load_all (world d cc)).1 = world d' cc /\ rows d' = rows d /\
    forall models, (load_all (world d cc)).2 = Ok models -> models ≡ₚ rows d.
Proof using laws.
  clear uuid_display. unfold load_all. simpl. destruct (find_all (fun _ => true) d) as [d1 r] eqn:E.
  exists d1. split; [done|]. split; [by eapply find_all_rows|]. simpl. intros models Hm.
  destruct r as [l|]; [|done]. injection Hm as <-. apply find_all_ok in E as ->.
  induction (rows d); simpl; [done|]. by f_equiv.
Qed.

Lemma models_mirror models d :
  models ≡ₚ rows d -> unique_rows uuid_conflict (rows d) = true ->
  mirrors (build_cache models) (rows d).
Proof.
  intros Hp Hu. eapply mirrors_perm; [exact Hp|]. apply build_cache_mirrors.
  eapply unique_rows_perm; [apply uuid_conflict_sym|by symmetry|done].
Qed.

Lemma reload_ok w : uuid_ok w -> uuid_ok (reload w).1.
Proof using laws.
  clear uuid_display. intros (d & cc & -> & Hu & Hc). unfold reload. simpl.
  destruct cc as [c|]; [|by exists d, None].
  destruct (load_all_spec d (Some c)) as (d' & Hw & Hrows & Hm). rewrite mbind_run.
  destruct (load_all (world d (Some c))) as [w1 [models|e]]; simpl in *; subst w1.
  - eexists d', _. split; [done|]. rewrite Hrows. split; [done|]. intros c' [= <-].
    rewrite <-Hrows. apply models_mirror; rewrite Hrows; auto.
  - exists d', (Some c). by rewrite Hrows.
Qed.

Lemma init_ok w : uuid_ok w -> uuid_ok (init w).1.
Proof using laws.
  clear uuid_display. intros (d & cc & -> & Hu & Hc). unfold init. rewrite mbind_run.
  destruct (load_all_spec d cc) as (d' & Hw & Hrows & Hm).
  destruct (load_all (world d cc)) as [w1 [models|e]]; simpl in *; subst w1; simpl.
  - destruct cc as [c|].
    + apply reload_ok. exists d', (Some c). by rewrite Hrows.
    + eexists d', _. split; [done|]. rewrite Hrows. split; [done|]. intros c' [= <-].
      rewrite <-Hrows. apply models_mirror; rewrite Hrows; auto.
  - exists d', cc. by rewrite Hrows.
Qed.

(** The cache is written last: when something fails it is as before. *)
Definition cache_kept {A} (m : M (UuidWorld DB) NodegetError A) : Prop := forall w, uw_cache (m w).1 = uw_cache w.
Definition cache_last {A} (m : M (UuidWorld DB) NodegetError A) : Prop := forall w, is_ok (m w).2 = false -> uw_cache (m w).1 = uw_cache w.

Lemma kept_bind {A B} (m : M (UuidWorld DB) NodegetError A) (k : A -> M (UuidWorld DB) NodegetError B) : cache_kept m -> (forall a, cache_kept (k a)) -> cache_kept (mbind m k).
Proof using. intros Hm Hk w. rewrite mbind_run. specialize (Hm w). destruct (m w) as [w1 [a|]]; [|done]. simpl in Hm. by rewrite Hk. Qed.
Lemma kept_then {A B} (m : M (UuidWorld DB) NodegetError A) (k : A -> M (UuidWorld DB) NodegetError B) : cache_kept m -> (forall a, cache_last (k a)) -> cache_last (mbind m k).
Proof using.
  intros Hm Hk w. rewrite mbind_run. specialize (Hm w). destruct (m w) as [w1 [a|]]; [|done]. simpl in Hm. rewrite <- Hm. apply Hk.
Qed.
Lemma kept_query {A} prefix (stmt : M DB DbErr A) : cache_kept (query prefix stmt).
Proof using. intros w. unfold query, umap. destruct (uw_db w); [|done]. by destruct (stmt _). Qed.
Lemma kept_lift {A} (r : result NodegetError A) : cache_kept (lift r).
Proof using. by intros w. Qed.
Lemma kept_resurrect prefix r : cache_kept (resurrect prefix r).
Proof using. apply kept_bind; [apply kept_query|by intros ? ?]. Qed.
Lemma put_last {A} u id b (x : A) : cache_last (let! _ := cache_put u id b in mret x).
Proof using. by intros w. Qed.

Lemma get_or_insert_last u : cache_last (get_or_insert uuid_display u).
Proof using.
  apply kept_then; [by intros w|]. intros [id|]; [by intros w|]. apply kept_then.
  { apply kept_bind; [|intros _; apply kept_query]. intros w. unfold need_db. by destruct (uw_db w). }
  intros [r|]; simpl.
  - apply kept_then; [apply kept_lift|]. intros id. apply kept_then; [|intros _; apply put_last].
    destruct (u_soft_delete r); [apply kept_resurrect|by intros w].
  - apply kept_then; [|intros x; apply kept_then; [apply kept_lift|intros ids; apply put_last]].
    intros w. unfold insert_row. destruct (uw_db w) as [d|]; [|done]. destruct (insert_auto _ d) as [d' [i|err]]; [done|].
    destruct (is_unique_violation err); [|done]. revert err. intros err.
    assert (cache_kept (after_conflict u err)) as H; [|by rewrite H].
    apply kept_bind; [apply kept_query|]. intros m. apply kept_bind; [apply kept_lift|]. intros r.
    destruct (try_id_i16 (u_id r)); [|by intros ?]. destruct (u_soft_delete r); [|by intros ?].
    apply kept_bind; [apply kept_resurrect|by intros ? ?].
Qed.

(** A known agent stays known under its number, whoever else is looked up, and nobody else is given it. *)
Lemma get_or_insert_known u id u' w w' r : uuid_ok w -> cache_hit u (uw_cache w) = Some id ->
  get_or_insert uuid_display u' w = (w', r) ->
  uuid_ok w' /\ cache_hit u (uw_cache w') = Some id /\ (u' <> u -> r <> Ok id).
Proof using laws.
  intros (d & cc & -> & Hu & Hc) Hhit Hrun. pose proof (get_or_insert_cases d cc u' Hu Hc) as Hcase. pose proof (get_or_insert_last u' (world d cc)) as Hlast.
  rewrite Hrun in Hcase, Hlast. simpl in Hhit. cbn [fst snd uw_cache world] in *. destruct cc as [c|]; [|done]. specialize (Hc c eq_refl) as Hm.
  assert (by_uuid c !! u = Some (id, false)) as Hid by (simpl in Hhit; destruct (by_uuid c !! u) as [[i [|]]|]; congruence).
  destruct Hcase as [[Hok Hs]|(i & [= -> ->] & Hi)].
  - split; [exact Hok|]. destruct r as [i|err]; cbn [snd fst] in *; [|by rewrite Hlast].
    destruct Hs as (d' & -> & He & Hsame). simpl. destruct (decide (u' = u)) as [->|Hne].
    + rewrite lookup_insert_eq. split; [|done]. f_equal. symmetry. eapply Hsame. by apply (mirror_uuid _ _ Hm).
    + rewrite lookup_insert_ne, Hid by done. split; [done|]. intros _ [= ->].
      destruct Hok as (d2 & cc2 & Hw & _ & Hc2). unfold world in Hw. injection Hw as <- <-. specialize (Hc2 _ eq_refl) as Hm2.
      assert (by_uuid (put u' id false c) !! u = Some (id, false)) as H1 by (simpl; by rewrite lookup_insert_ne).
      apply (mirror_uuid _ _ Hm2), (mirror_id _ _ Hm2) in H1. simpl in H1. rewrite lookup_insert_eq in H1. congruence.
  - split; [by exists d, (Some c)|]. split; [done|]. intros Hne [= ->]. simpl in Hi.
    destruct (by_uuid c !! u') as [[i0 [|]]|] eqn:E; try done. injection Hi as ->.
    apply (mirror_uuid _ _ Hm), (mirror_id _ _ Hm) in E. apply (mirror_uuid _ _ Hm), (mirror_id _ _ Hm) in Hid. congruence.
Qed.

(** ** Theorems *)

(** C12: the UUID cache always mirrors the table.  Initialisation, reload,
    [get_or_insert] and [soft_delete], whether they succeed or fail at any statement,
    lead from states where both maps of the cache hold exactly the rows whose id fits
    an [i16] to such states; in particular the two maps stay inverse to each other and
    two UUIDs never share an id, whatever ids the database hands out. *)
Theorem uuid_cache_invariant u :
  preserves uuid_ok init /\ preserves uuid_ok reload /\
  preserves uuid_ok (get_or_insert uuid_display u) /\
  preserves uuid_ok (soft_delete uuid_display u).
Proof using laws.
  repeat split; [exact init_ok|exact reload_ok|..]; intros w (d & cc & -> & Hu & Hc).
  - destruct (get_or_insert_cases d cc u Hu Hc) as [[Hok _]|(id & -> & _)]; [done|]. by exists d, cc.
  - by apply soft_delete_cases.
Qed.

(** [get_or_insert] registers an agent.  On success the id fits an [i16], the row
    of the UUID is stored as active under it, look-ups in both directions return it,
    every other UUID is untouched, and a UUID the cache already knew keeps its id, also
    when it had been soft-deleted. *)
Theorem get_or_insert_spec w c u w' id :
  uuid_ok w -> uw_cache w = Some c -> get_or_insert uuid_display u w = (w', Ok id) ->
  in_i16 id /\
  (exists d', uw_db w' = Some d' /\ entry (rows d') u id false) /\
  (forall id0, get_id c u = Some id0 -> id = id0) /\
  exists c', uw_cache w' = Some c' /\
    get_id c' u = Some id /\ get_uuid c' id = Some u /\ is_active c' u = true /\
    forall u', u' <> u -> get_id c' u' = get_id c u' /\ is_active c' u' = is_active c u'.
Proof using laws.
  intros (d & cc & -> & Hu & Hc) Hcc Hrun. simpl in Hcc. subst cc.
  specialize (Hc c eq_refl) as Hm.
  assert (forall id0, get_id c u = Some id0 -> exists sd0, entry (rows d) u id0 sd0) as Hknown.
  { intros id0. unfold get_id. destruct (by_uuid c !! u) as [[i s]|] eqn:E; [|done].
    intros [= <-]. exists s. by apply (mirror_uuid _ _ Hm). }
  destruct (get_or_insert_cases d (Some c) u Hu Hc) as [[_ Hs]|(i & Hout & Hhit)];
    rewrite Hrun in *; simpl in *.
  - destruct Hs as (d' & -> & He & Hsame). split; [apply He|]. split; [by exists d'|]. split.
    { intros id0 [sd0 Hk]%Hknown. symmetry. by eapply Hsame. }
    exists (put u id false c). split; [done|]. unfold get_id, get_uuid, is_active. simpl.
    rewrite !lookup_insert_eq. repeat split. all: by rewrite lookup_insert_ne.
  - injection Hout as -> ->. destruct (by_uuid c !! u) as [[i0 [|]]|] eqn:E; simplify_eq/=.
    apply (mirror_uuid _ _ Hm) in E as He. split; [apply He|]. split; [by exists d|]. split.
    { unfold get_id. rewrite E. by intros id0 [= <-]. }
    exists c. unfold get_id, get_uuid, is_active.
    by rewrite E, (proj2 (mirror_id _ _ Hm i u false) He).
Qed.

(** Listing the agents returns the UUIDs of the active rows the cache can hold, each
    once, in ascending order, and the listing with deletion marks returns every row. *)
Theorem list_all_spec `{HashOrder} d c :
  unique_rows uuid_conflict (rows d) = true -> mirrors c (rows d) ->
  StronglySorted N.le (list_all c) /\ NoDup (list_all c) /\
  (forall u, u ∈ list_all c <-> exists id, entry (rows d) u id false) /\
  (forall u sd, (u, sd) ∈ list_all_with_agent_mode c <-> exists id, entry (rows d) u id sd).
Proof.
  intros Hu Hm. unfold list_all, list_all_with_agent_mode. split; [|split; [|split]].
  - apply StronglySorted_merge_sort; apply _.
  - rewrite merge_sort_Permutation. eapply sublist_NoDup; [apply (hash_iter_keys_NoDup (by_uuid c))|].
    induction (hash_iter (by_uuid c)) as [|[u [id []]] l IH]; simpl; by constructor.
  - intros u. rewrite merge_sort_Permutation, list_elem_of_fmap.
    setoid_rewrite list_filter_elem. setoid_rewrite <-(mirror_uuid _ _ Hm). split.
    + intros ([u' [id [|]]] & -> & Hin%hash_iter_elem & ?); [done|]. by exists id.
    + intros [id Hid%hash_iter_elem]. by exists (u, (id, false)).
  - intros u sd. rewrite merge_sort_Permutation, list_elem_of_fmap.
    setoid_rewrite <-(mirror_uuid _ _ Hm). split.
    + intros ([u' [id s]] & [= -> ->] & Hin%hash_iter_elem). by exists id.
    + intros [id Hid%hash_iter_elem]. by exists (u, (id, sd)).
Qed.
End uuid_proofs.

(** ** Examples *)

#[global] Instance uuid_table : TableOps (ListTable UuidModel) UuidModel := ListTable_ops uuid_conflict.
#[global] Instance uuid_table_laws : TableLaws uuid_table uuid_conflict :=
  ListTable_laws uuid_conflict uuid_conflict_sym.

(** An active agent, a soft-deleted one, and one whose id does not fit. *)
Definition sample_agents : list UuidModel := [
  {| u_id := 1; u_uuid := 10%N; u_soft_delete := false |};
  {| u_id := 2; u_uuid := 20%N; u_soft_delete := true |};
  {| u_id := 40000; u_uuid := 30%N; u_soft_delete := false |}].

Definition agents_db : ListTable UuidModel := {| tbl := sample_agents; next_id := 7; outages := [] |}.
Definition agents_world : UuidWorld (ListTable UuidModel) := world agents_db (Some (build_cache sample_agents)).
Definition show_uuid (u : Uuid) : string := pretty u.

Lemma agents_ok : uuid_ok agents_world.
Proof.
  exists agents_db. eexists. split; [done|]. split; [by vm_compute|]. intros c [= <-].
  by apply build_cache_mirrors.
Qed.

Lemma uuid_cache_invariant_witness : uuid_ok (soft_delete show_uuid 10%N agents_world).1.
Proof. apply (uuid_cache_invariant show_uuid 10%N). exact agents_ok. Defined.

(** Registering the soft-deleted agent again resurrects it under its old id. *)
Lemma get_or_insert_spec_witness :
  exists c', uw_cache (get_or_insert show_uuid 20%N agents_world).1 = Some c' /\
    get_id c' 20%N = Some 2%Z /\ is_active c' 20%N = true.
Proof.
  destruct (get_or_insert show_uuid 20%N agents_world) as [w' r] eqn:E.
  assert (r = Ok 2%Z) as -> by (vm_compute in E; by injection E).
  destruct (get_or_insert_spec show_uuid agents_world (build_cache sample_agents) 20%N w' 2%Z
              agents_ok eq_refl E) as (_ & _ & _ & c' & Hc' & Hid & _ & Hact & _).
  exists c'. auto.
Defined.

Lemma list_all_spec_witness :
  10%N ∈ list_all (H := list_order) (build_cache sample_agents) <->
    exists id, entry sample_agents 10%N id false.
Proof.
  assert (unique_rows uuid_conflict (rows agents_db) = true) as Hu by (vm_compute; reflexivity).
  exact (proj1 (proj2 (proj2 (list_all_spec (H := list_order) agents_db _ Hu
    (build_cache_mirrors sample_agents Hu)))) 10%N).
Defined.

(** The database statement and the cache update of [get_or_insert] are separate
    steps.  If a complete [soft_delete] of the same agent runs between them, the row ends
    up deleted while the cache lists the agent as active; a later [get_or_insert] is then
    answered from the cache and does not resurrect the row. *)
Theorem get_or_insert_soft_delete_race :
  let '(wa, inserted) := insert_row 50%N agents_world in
  let '(wb, deleted) := soft_delete show_uuid 50%N wa in
  let '(wd, _) := cache_put 50%N 7 false wb in
  inserted = Ok (Some (7%Z, false)) /\ deleted = Ok true /\
  (exists d c, wd = world d (Some c) /\ is_active c 50%N = true /\
     {| u_id := 7; u_uuid := 50%N; u_soft_delete := true |} ∈ rows d) /\
  get_or_insert show_uuid 50%N wd = (wd, Ok 7%Z).
Proof.
  vm_compute. split; [done|]. split; [done|]. split; [|done].
  eexists _, _. split; [done|]. split; [done|]. left.
Qed.
