(* ===== verification/Traffic.v ===== *)
(** * Traffic statistics

    [ng-monitoring/src/traffic_stats.rs]: agents report the cumulative counters of their
    outbound interfaces; the server accumulates a total per interface across counter
    resets, remembers the intervals in which data may have been lost, and writes both to
    the database once a minute, in one transaction. *)
From stdpp Require Import base strings gmap list numbers.
From S2P Require Import Prelude Errors Db.

Definition POSSIBLE_DATA_LOSS_THRESHOLD_MS : Z := 10 * 60 * 1000.
Definition SQLITE_MAX_VARIABLES : nat := 999.
Definition POSTGRES_MAX_VARIABLES : nat := Z.to_nat 65535.

(** ** Reports: the fields of [DynamicMonitoringData] the statistics read *)

Record Interface : Type := {
  interface_name : string;
  if_ifindex : option Z;
  if_is_outlet : option bool;
  if_total_received : Z;
  if_total_transmitted : Z;
}.

Record Report : Type := {
  rp_time : Z;
  rp_boot_id : option string;
  rp_uptime : Z;
  rp_interfaces : list Interface;
}.

(** ** State *)

Record NetworkInterfaceReading : Type := {
  boot_id : option string;
  ifindex : option Z;
  counter_received : Z;
  counter_transmitted : Z;
  report_time : Z;
  created_at : Z;
  updated_at : Z;
}.

Record Traffic : Type := { received : Z; transmitted : Z }.
Definition Traffic_default : Traffic := {| received := 0; transmitted := 0 |}.

Record PossibleDataLoss : Type := { loss_uuid_id : Z; start_time : Z; end_time : Z }.

(** A device number and an interface name. *)
Notation IfKey := (Z * string)%type.

Record State : Type := {
  prev_readings : gmap IfKey NetworkInterfaceReading;
  totals : gmap IfKey Traffic;
  pending_possible_data_losses : list PossibleDataLoss;
}.

Definition State_default : State :=
  {| prev_readings := ∅; totals := ∅; pending_possible_data_losses := [] |}.

Definition total_of (s : State) (key : IfKey) : Traffic := default Traffic_default (totals s !! key).

(** ** Counter resets *)

Record CounterReset : Type := { reset_received : bool; reset_transmitted : bool }.
Definition CounterReset_NONE : CounterReset := {| reset_received := false; reset_transmitted := false |}.
Definition CounterReset_BOTH : CounterReset := {| reset_received := true; reset_transmitted := true |}.
Definition any (r : CounterReset) : bool := reset_received r || reset_transmitted r.

Definition is_ifindex_changed (prev_reading current_reading : NetworkInterfaceReading) : bool :=
  match ifindex prev_reading, ifindex current_reading with
  | Some prev, Some current => negb (prev =? current)%Z
  | _, _ => false
  end.

Definition is_boot_id_changed (prev_reading current_reading : NetworkInterfaceReading) : bool :=
  match boot_id prev_reading, boot_id current_reading with
  | Some prev, Some current => negb (String.eqb prev current)
  | _, _ => false
  end.

Definition is_full_reset (prev_reading current_reading : NetworkInterfaceReading) : bool :=
  is_boot_id_changed prev_reading current_reading || is_ifindex_changed prev_reading current_reading.

Definition detect_counter_reset (prev_reading current_reading : NetworkInterfaceReading) : CounterReset :=
  if is_full_reset prev_reading current_reading then CounterReset_BOTH
  else {| reset_received := (counter_received current_reading <? counter_received prev_reading)%Z;
          reset_transmitted := (counter_transmitted current_reading <? counter_transmitted prev_reading)%Z |}.

Definition increase_for_direction (prev current : Z) (reset : bool) : Z :=
  if reset then current else sat_sub_u64 current prev.

Definition compute_traffic_increase (prev_reading : option NetworkInterfaceReading)
    (current_reading : NetworkInterfaceReading) (reset : CounterReset) : Traffic :=
  match prev_reading with
  | None => {| received := 0; transmitted := 0 |}
  | Some prev => {|
      received := increase_for_direction (counter_received prev) (counter_received current_reading)
                    (reset_received reset);
      transmitted := increase_for_direction (counter_transmitted prev)
                       (counter_transmitted current_reading) (reset_transmitted reset) |}
  end.

Definition detect_possible_data_loss (uuid_id : Z) (prev_reading : NetworkInterfaceReading)
    (reset_at : Z) : option PossibleDataLoss :=
  if (wrapping_sub_i64 reset_at (updated_at prev_reading) <=? POSSIBLE_DATA_LOSS_THRESHOLD_MS)%Z
  then None
  else Some {| loss_uuid_id := uuid_id; start_time := updated_at prev_reading; end_time := reset_at |}.

(** ** [State::apply_report] *)

Definition make_reading (data : Report) (interface : Interface) (prev : option NetworkInterfaceReading)
    (received_at : Z) : NetworkInterfaceReading := {|
  boot_id := rp_boot_id data;
  ifindex := if_ifindex interface;
  counter_received := if_total_received interface;
  counter_transmitted := if_total_transmitted interface;
  report_time := cast_signed64 (rp_time data);
  created_at := match prev with Some p => created_at p | None => received_at end;
  updated_at := received_at;
|}.

Definition add_traffic (total increase : Traffic) : Traffic := {|
  received := sat_add_u64 (received total) (received increase);
  transmitted := sat_add_u64 (transmitted total) (transmitted increase) |}.

(** [received_at - uptime.saturating_mul(1000).cast_signed()]. *)
Definition boot_at (data : Report) (received_at : Z) : Z :=
  wrapping_sub_i64 received_at (cast_signed64 (sat_mul_u64 (rp_uptime data) 1000)).

(** The loss to record for an interface, if any; [recorded] is
    [possible_data_loss_recorded]. *)
Definition loss_of (uuid_id : Z) (data : Report) (received_at : Z) (recorded : bool)
    (prev_reading : option NetworkInterfaceReading) (current_reading : NetworkInterfaceReading)
    (reset : CounterReset) : option PossibleDataLoss :=
  if any reset && negb recorded then
    match prev_reading with
    | Some prev =>
        let reset_at := if is_boot_id_changed prev current_reading then boot_at data received_at
                        else received_at in
        detect_possible_data_loss uuid_id prev reset_at
    | None => None
    end
  else None.

(** One iteration of the loop over the outbound interfaces. *)
Definition apply_interface (uuid_id : Z) (data : Report) (received_at : Z)
    (acc : State * bool) (interface : Interface) : State * bool :=
  let '(s, recorded) := acc in
  let key := (uuid_id, interface_name interface) in
  let prev_reading := prev_readings s !! key in
  if match prev_reading with
     | Some prev => (cast_signed64 (rp_time data) <? report_time prev)%Z
     | None => false
     end
  then acc else
  let current_reading := make_reading data interface prev_reading received_at in
  let reset := match prev_reading with
               | Some prev => detect_counter_reset prev current_reading
               | None => CounterReset_NONE
               end in
  let increase := compute_traffic_increase prev_reading current_reading reset in
  let loss := loss_of uuid_id data received_at recorded prev_reading current_reading reset in
  ({| prev_readings := <[key := current_reading]> (prev_readings s);
      totals := <[key := add_traffic (total_of s key) increase]> (totals s);
      pending_possible_data_losses := pending_possible_data_losses s ++ option_list loss |},
   recorded || match loss with Some _ => true | None => false end).

Definition is_outlet_true (i : Interface) : bool :=
  match if_is_outlet i with Some b => b | None => false end.

Definition apply_report (uuid_id : Z) (data : Report) (received_at : Z) (s : State) : State :=
  if existsb (fun i => match if_is_outlet i with None => true | Some _ => false end) (rp_interfaces data)
  then s
  else fst (fold_left (apply_interface uuid_id data received_at)
              (List.filter is_outlet_true (rp_interfaces data)) (s, false)).

(** ** Queries *)

Record InterfaceCurrentTotal : Type := {
  ct_uuid_id : Z; ct_interface_name : string; ct_total_received : Z; ct_total_transmitted : Z;
  ct_updated_at : Z;
}.

Definition current_totals `{HashOrder} (s : State) : list InterfaceCurrentTotal :=
  map (fun '(key, reading) =>
    let total := total_of s key in
    {| ct_uuid_id := fst key; ct_interface_name := snd key; ct_total_received := received total;
       ct_total_transmitted := transmitted total; ct_updated_at := updated_at reading |})
    (hash_iter (prev_readings s)).

(** ** One interface at a time

    [track] is the accounting of a single interface: what it remembers of the last reading
    and the total.  A [Sample] is one appearance of the interface in a report. *)

Record Sample : Type := { sm_report : Report; sm_interface : Interface; sm_received_at : Z }.

Definition stale (prev : option NetworkInterfaceReading) (data : Report) : bool :=
  match prev with
  | Some p => (cast_signed64 (rp_time data) <? report_time p)%Z
  | None => false
  end.

Definition reset_between (prev : option NetworkInterfaceReading) (cur : NetworkInterfaceReading) :
  CounterReset :=
  match prev with Some p => detect_counter_reset p cur | None => CounterReset_NONE end.

Definition track (acc : option NetworkInterfaceReading * Traffic) (x : Sample) :
  option NetworkInterfaceReading * Traffic :=
  let '(prev, total) := acc in
  if stale prev (sm_report x) then acc else
  let cur := make_reading (sm_report x) (sm_interface x) prev (sm_received_at x) in
  (Some cur, add_traffic total (compute_traffic_increase prev cur (reset_between prev cur))).

(** A call of [update_total_traffic]. *)
Record Call : Type := { c_uuid_id : Z; c_report : Report; c_received_at : Z }.

Definition apply_calls (calls : list Call) (s : State) : State :=
  fold_left (fun s c => apply_report (c_uuid_id c) (c_report c) (c_received_at c) s) calls s.

(** The samples a call contributes to an interface: none if any interface of the report
    lacks [is_outlet]. *)
Definition samples_of (key : IfKey) (c : Call) : list Sample :=
  if existsb (fun i => match if_is_outlet i with None => true | Some _ => false end)
       (rp_interfaces (c_report c)) || negb (c_uuid_id c =? key.1)%Z
  then []
  else map (fun i => {| sm_report := c_report c; sm_interface := i; sm_received_at := c_received_at c |})
         (List.filter (fun i => String.eqb (interface_name i) key.2)
            (List.filter is_outlet_true (rp_interfaces (c_report c)))).

Definition view (s : State) (key : IfKey) : option NetworkInterfaceReading * Traffic :=
  (prev_readings s !! key, total_of s key).

Lemma apply_interface_view u data at_ s b i key :
  view (fst (apply_interface u data at_ (s, b) i)) key =
  if bool_decide ((u, interface_name i) = key)
  then track (view s key) {| sm_report := data; sm_interface := i; sm_received_at := at_ |}
  else view s key.
Proof.
  unfold apply_interface, view, track, total_of. simpl. case_bool_decide as Hk.
  - subst key. unfold stale, reset_between.
    destruct (match prev_readings s !! _ with Some _ => _ | None => false end) eqn:E; simpl; [done|].
    by rewrite !lookup_insert_eq.
  - destruct (match prev_readings s !! (u, _) with Some _ => _ | None => false end); simpl; [done|].
    by rewrite !lookup_insert_ne.
Qed.

#[local] Arguments apply_interface : simpl never.

Lemma fold_interfaces_view u data at_ l s b key :
  view (fst (fold_left (apply_interface u data at_) l (s, b))) key =
  fold_left track
    (map (fun i => {| sm_report := data; sm_interface := i; sm_received_at := at_ |})
       (List.filter (fun i => bool_decide ((u, interface_name i) = key)) l)) (view s key).
Proof.
  revert s b. induction l as [|i l IH]; intros s b; simpl; [done|].
  pose proof (apply_interface_view u data at_ s b i key) as Hv.
  destruct (apply_interface u data at_ (s, b) i) as [s1 b1]. simpl in Hv. rewrite IH, Hv.
  by destruct (bool_decide _).
Qed.

Lemma samples_filter u key l :
  (u =? key.1)%Z = true ->
  List.filter (fun i => bool_decide ((u, interface_name i) = key)) l =
  List.filter (fun i => String.eqb (interface_name i) key.2) l.
Proof.
  destruct key as [u' n]. simpl. intros ->%Z.eqb_eq. induction l as [|i l IH]; simpl; [done|].
  rewrite IH. destruct (String.eqb_spec (interface_name i) n) as [->|Hn].
  - by rewrite bool_decide_true.
  - rewrite bool_decide_false; [done|]. congruence.
Qed.

Lemma samples_other u key l :
  (u =? key.1)%Z = false -> List.filter (fun i => bool_decide ((u, interface_name i) = key)) l = [].
Proof.
  intros Hu%Z.eqb_neq. induction l as [|i l IH]; simpl; [done|].
  rewrite bool_decide_false; [done|]. intros <-. by apply Hu.
Qed.

Lemma apply_call_view c s key :
  view (apply_report (c_uuid_id c) (c_report c) (c_received_at c) s) key =
  fold_left track (samples_of key c) (view s key).
Proof.
  unfold apply_report, samples_of. destruct (existsb _ _); simpl; [done|].
  rewrite fold_interfaces_view. destruct (c_uuid_id c =? key.1)%Z eqn:E; simpl.
  - by rewrite samples_filter.
  - by rewrite samples_other.
Qed.

Lemma apply_calls_view calls s key :
  view (apply_calls calls s) key = fold_left track (flat_map (samples_of key) calls) (view s key).
Proof.
  revert s. induction calls as [|c calls IH]; intros s; simpl; [done|].
  unfold apply_calls in *. simpl. by rewrite IH, apply_call_view, fold_left_app.
Qed.

(** ** Ranges *)

Definition traffic_wf (t : Traffic) : Prop := in_u64 (received t) /\ in_u64 (transmitted t).

Definition reading_wf (r : NetworkInterfaceReading) : Prop :=
  in_u64 (counter_received r) /\ in_u64 (counter_transmitted r) /\
  (forall i, ifindex r = Some i -> in_u32 i) /\ in_i64 (report_time r).

Definition sample_wf (x : Sample) : Prop :=
  in_u64 (rp_time (sm_report x)) /\
  in_u64 (if_total_received (sm_interface x)) /\ in_u64 (if_total_transmitted (sm_interface x)) /\
  (forall i, if_ifindex (sm_interface x) = Some i -> in_u32 i).

Definition call_wf (c : Call) : Prop :=
  in_u64 (rp_time (c_report c)) /\
  forall i, i ∈ rp_interfaces (c_report c) ->
    in_u64 (if_total_received i) /\ in_u64 (if_total_transmitted i) /\
    (forall x, if_ifindex i = Some x -> in_u32 x).

Definition view_wf (v : option NetworkInterfaceReading * Traffic) : Prop :=
  (forall r, v.1 = Some r -> reading_wf r) /\ traffic_wf v.2.

Lemma cast_signed_range z : in_u64 z -> in_i64 (cast_signed64 z).
Proof. unfold cast_signed64. intros Hz. case_match; rewrite ?Z.leb_le, ?Z.leb_gt in *; int_lia. Qed.

Lemma increase_range p c b : in_u64 p -> in_u64 c -> in_u64 (increase_for_direction p c b).
Proof. unfold increase_for_direction. intros. destruct b; int_lia. Qed.

Lemma add_traffic_wf t i :
  traffic_wf t -> in_u64 (received i) -> in_u64 (transmitted i) ->
  traffic_wf (add_traffic t i) /\ (received t <= received (add_traffic t i))%Z /\
  (transmitted t <= transmitted (add_traffic t i))%Z.
Proof. intros [H1 H2] H3 H4. unfold traffic_wf, add_traffic. simpl. int_lia. Qed.

Lemma compute_increase_wf prev cur r :
  (forall p, prev = Some p -> reading_wf p) -> reading_wf cur ->
  in_u64 (received (compute_traffic_increase prev cur r)) /\
  in_u64 (transmitted (compute_traffic_increase prev cur r)).
Proof.
  intros Hp (Hc1 & Hc2 & _). destruct prev as [p|]; simpl; [|int_lia].
  destruct (Hp p eq_refl) as (? & ? & _). split; by apply increase_range.
Qed.

Lemma track_wf v x :
  view_wf v -> sample_wf x ->
  view_wf (track v x) /\ (received v.2 <= received (track v x).2)%Z /\
  (transmitted v.2 <= transmitted (track v x).2)%Z.
Proof.
  destruct v as [prev total]. intros [Hp Ht] (Htime & Hr & Htr & Hi). unfold track.
  destruct (stale prev (sm_report x)); [split; [by split|]; simpl; lia|].
  set (cur := make_reading _ _ _ _).
  assert (reading_wf cur) as Hcur
    by (split; [done|]; split; [done|]; split; [done|]; by apply cast_signed_range).
  destruct (compute_increase_wf prev cur (reset_between prev cur) Hp Hcur) as [H1 H2].
  destruct (add_traffic_wf total _ Ht H1 H2) as [Hwf Hle]. split; [|done]. split; [|done].
  simpl. by intros r [= <-].
Qed.

Lemma fold_track_wf xs v :
  view_wf v -> Forall sample_wf xs ->
  view_wf (fold_left track xs v) /\ (received v.2 <= received (fold_left track xs v).2)%Z /\
  (transmitted v.2 <= transmitted (fold_left track xs v).2)%Z.
Proof.
  revert v. induction xs as [|x xs IH]; intros v Hv Hxs; simpl; [split; [done|]; lia|].
  apply Forall_cons_1 in Hxs as [Hx Hxs]. destruct (track_wf v x Hv Hx) as (Hwf & Hle1 & Hle2).
  destruct (IH _ Hwf Hxs) as (Hwf' & Hle3 & Hle4). split; [done|]. lia.
Qed.

Lemma samples_wf key calls : Forall call_wf calls -> Forall sample_wf (flat_map (samples_of key) calls).
Proof.
  induction 1 as [|c calls [Ht Hi] _ IH]; simpl; [constructor|]. apply Forall_app. split; [|done].
  unfold samples_of. case_match; [constructor|]. apply Forall_fmap, Forall_forall.
  intros i [[Hin%list_elem_of_In _]%filter_In _]%filter_In. by destruct (Hi i Hin) as (? & ? & ?).
Qed.

(** ** Steady counting *)

(** A sample that continues a reading: not older, the same boot and interface as far as
    known, and no counter smaller than before. *)
Definition continues (p : NetworkInterfaceReading) (x : Sample) : Prop :=
  let cur := make_reading (sm_report x) (sm_interface x) (Some p) (sm_received_at x) in
  stale (Some p) (sm_report x) = false /\ is_full_reset p cur = false /\
  (counter_received p <= counter_received cur)%Z /\
  (counter_transmitted p <= counter_transmitted cur)%Z.

Fixpoint steady (p : NetworkInterfaceReading) (xs : list Sample) : Prop :=
  match xs with
  | [] => True
  | x :: xs => continues p x /\
      steady (make_reading (sm_report x) (sm_interface x) (Some p) (sm_received_at x)) xs
  end.

Fixpoint last_counters (r t : Z) (xs : list Sample) : Z * Z :=
  match xs with
  | [] => (r, t)
  | x :: xs => last_counters (if_total_received (sm_interface x)) (if_total_transmitted (sm_interface x)) xs
  end.

Lemma track_continues p total x :
  continues p x ->
  let cur := make_reading (sm_report x) (sm_interface x) (Some p) (sm_received_at x) in
  track (Some p, total) x =
  (Some cur, {| received := sat_add_u64 (received total) (counter_received cur - counter_received p);
                transmitted := sat_add_u64 (transmitted total)
                                 (counter_transmitted cur - counter_transmitted p) |}).
Proof.
  intros (Hs & Hf & Hr & Ht). unfold track. rewrite Hs. simpl in *.
  unfold detect_counter_reset, increase_for_direction. rewrite Hf. simpl.
  rewrite (proj2 (Z.ltb_ge _ _) Hr), (proj2 (Z.ltb_ge _ _) Ht).
  unfold add_traffic, sat_sub_u64. simpl. by rewrite !Z.max_r by lia.
Qed.

#[local] Arguments track : simpl never.

Lemma fold_track_steady xs p total :
  steady p xs -> traffic_wf total ->
  (fold_left track xs (Some p, total)).2 =
  {| received := sat_add_u64 (received total)
       ((last_counters (counter_received p) (counter_transmitted p) xs).1 - counter_received p);
     transmitted := sat_add_u64 (transmitted total)
       ((last_counters (counter_received p) (counter_transmitted p) xs).2 - counter_transmitted p) |} /\
  (counter_received p <= (last_counters (counter_received p) (counter_transmitted p) xs).1)%Z /\
  (counter_transmitted p <= (last_counters (counter_received p) (counter_transmitted p) xs).2)%Z.
Proof.
  revert p total. induction xs as [|x xs IH]; intros p total; simpl.
  - intros _ [Hr Ht]. rewrite !Z.sub_diag. unfold sat_add_u64. destruct total; simpl in *.
    rewrite !Z.add_0_r, !Z.min_r by int_lia. split; [done|]. lia.
  - intros [Hc Hst] [Hr Ht]. rewrite (track_continues p total x Hc).
    destruct Hc as (_ & _ & Hcr & Hct). simpl in Hcr, Hct.
    edestruct IH as (-> & H1 & H2); [exact Hst|split; simpl; int_lia|]. simpl in *.
    split; [|lia]. f_equal; unfold sat_add_u64, u64_max; lia.
Qed.

(** ** The history of an interface *)

(** What one appearance of an interface tells. *)
Record Count : Type := { k_boot : option string; k_index : option Z; k_received : Z; k_transmitted : Z }.
Definition sample_count (x : Sample) : Count := {|
  k_boot := rp_boot_id (sm_report x); k_index := if_ifindex (sm_interface x);
  k_received := if_total_received (sm_interface x); k_transmitted := if_total_transmitted (sm_interface x) |}.
Definition reading_count (p : NetworkInterfaceReading) : Count := {|
  k_boot := boot_id p; k_index := ifindex p; k_received := counter_received p; k_transmitted := counter_transmitted p |}.

(** The appearances of an interface in a call: as an outlet, in a report where that is known of every interface. *)
Definition appearances (key : IfKey) (c : Call) : list Sample :=
  if bool_decide (Forall (fun i => if_is_outlet i <> None) (rp_interfaces (c_report c)) /\ c_uuid_id c = key.1)
  then map (fun i => {| sm_report := c_report c; sm_interface := i; sm_received_at := c_received_at c |})
         (filter (fun i => if_is_outlet i = Some true /\ interface_name i = key.2) (rp_interfaces (c_report c)))
  else [].

(** Those that are not older than the one before; [t] is the time of that. *)
Fixpoint accepted (t : option Z) (xs : list Sample) : list Sample :=
  match xs with
  | [] => []
  | x :: xs =>
      let now := cast_signed64 (rp_time (sm_report x)) in
      if (now <? default now t)%Z then accepted t xs else x :: accepted (Some now) xs
  end.

Definition differ {A} `{EqDecision A} (a b : option A) : bool :=
  match a, b with Some x, Some y => bool_decide (x <> y) | _, _ => false end.
Definition restarted (a b : Count) : bool := differ (k_boot a) (k_boot b) || differ (k_index a) (k_index b).
Definition gain (counter : Count -> Z) (a b : Count) : Z :=
  if restarted a b || (counter b <? counter a)%Z then counter b else (counter b - counter a)%Z.
Fixpoint gains (counter : Count -> Z) (l : list Count) : Z :=
  match l with
  | a :: ((b :: _) as rest) => (gain counter a b + gains counter rest)%Z
  | _ => 0%Z
  end.

Definition reading_after (prev : option NetworkInterfaceReading) (xs : list Sample) : option NetworkInterfaceReading :=
  match list.last xs with
  | None => prev
  | Some x => Some {|
      boot_id := rp_boot_id (sm_report x); ifindex := if_ifindex (sm_interface x);
      counter_received := if_total_received (sm_interface x); counter_transmitted := if_total_transmitted (sm_interface x);
      report_time := cast_signed64 (rp_time (sm_report x));
      created_at := match prev with Some p => created_at p | None => from_option sm_received_at 0%Z (head xs) end;
      updated_at := sm_received_at x |}
  end.

Lemma samples_appearances key c : samples_of key c = appearances key c.
Proof.
  unfold samples_of, appearances. destruct key as [u n]. cbn [fst snd].
  destruct (existsb _ _) eqn:Ex; cbn [orb].
  { apply existsb_exists in Ex as (i & Hi & Hn). rewrite bool_decide_false; [done|]. rewrite Forall_forall.
    intros [H _]. specialize (H i Hi). by destruct (if_is_outlet i). }
  assert (Forall (fun i => if_is_outlet i <> None) (rp_interfaces (c_report c))) as Hall.
  { apply Forall_forall. intros i Hi Hn. assert (existsb (fun i => match if_is_outlet i with None => true | Some _ => false end) (rp_interfaces (c_report c)) = true); [|congruence].
    apply existsb_exists. exists i. split; [done|by rewrite Hn]. }
  destruct (Z.eqb_spec (c_uuid_id c) u) as [->|Hne]; cbn [negb]; [|by rewrite bool_decide_false by tauto]. rewrite bool_decide_true by done. f_equal.
  induction (rp_interfaces (c_report c)) as [|i l IH]; [done|]. cbn [List.filter existsb] in *. apply orb_false_iff in Ex as [_ Ex]. inversion_clear Hall.
  rewrite filter_cons. unfold is_outlet_true in *. destruct (if_is_outlet i) as [[]|] eqn:Eo; cbn [List.filter].
  - destruct (String.eqb_spec (interface_name i) n); [rewrite decide_True by done|rewrite decide_False by tauto]; rewrite IH by done; done.
  - rewrite decide_False by (intros [? _]; congruence). by apply IH.
  - done.
Qed.
Lemma flat_map_samples key calls : flat_map (samples_of key) calls = flat_map (appearances key) calls.
Proof. induction calls as [|c calls IH]; [done|]. simpl. by rewrite samples_appearances, IH. Qed.

Lemma full_reset_restarted p cur : is_full_reset p cur = restarted (reading_count p) (reading_count cur).
Proof.
  unfold is_full_reset, restarted, differ, is_boot_id_changed, is_ifindex_changed. simpl. f_equal.
  - destruct (boot_id p) as [x|], (boot_id cur) as [y|]; try done. destruct (String.eqb_spec x y) as [->|]; [by rewrite bool_decide_false by tauto|by rewrite bool_decide_true].
  - destruct (ifindex p) as [x|], (ifindex cur) as [y|]; try done. destruct (Z.eqb_spec x y) as [->|]; [by rewrite bool_decide_false by tauto|by rewrite bool_decide_true].
Qed.

Lemma increase_gain p cur :
  compute_traffic_increase (Some p) cur (reset_between (Some p) cur) =
  {| received := gain k_received (reading_count p) (reading_count cur); transmitted := gain k_transmitted (reading_count p) (reading_count cur) |}.
Proof.
  unfold compute_traffic_increase, reset_between, detect_counter_reset, gain. rewrite full_reset_restarted.
  destruct (restarted _ _); [done|]. cbn [orb reset_received reset_transmitted reading_count k_received k_transmitted]. unfold increase_for_direction, sat_sub_u64.
  f_equal; case_match eqn:E; try done; apply Z.ltb_ge in E; lia.
Qed.

Definition count_wf (c : Count) : Prop := (0 <= k_received c)%Z /\ (0 <= k_transmitted c)%Z.
Lemma gain_nonneg counter a b : (0 <= counter b)%Z -> (0 <= gain counter a b)%Z.
Proof. intros Hb. unfold gain. destruct (restarted a b); [done|]. cbn [orb]. destruct (Z.ltb_spec (counter b) (counter a)); lia. Qed.
Lemma gains_nonneg counter l : Forall (fun c => 0 <= counter c)%Z l -> (0 <= gains counter l)%Z.
Proof.
  induction l as [|a [|b l] IH]; intros Hl; [done..|]. inversion_clear Hl as [|? ? _ Hl']. change (0 <= gain counter a b + gains counter (b :: l))%Z.
  specialize (IH Hl'). inversion_clear Hl'. pose proof (gain_nonneg counter a b). lia.
Qed.
Lemma accepted_sub t xs x : x ∈ accepted t xs -> x ∈ xs.
Proof.
  revert t. induction xs as [|y xs IH]; intros t; [done|]. simpl. destruct (_ <? _)%Z; [intros ?%IH; by right|].
  rewrite !elem_of_cons. intros [->|?%IH]; auto.
Qed.

(** Following an interface step by step gives what its history says. *)
Lemma fold_track_history prev total xs :
  (forall p, prev = Some p -> reading_wf p) -> traffic_wf total -> Forall sample_wf xs ->
  let ys := accepted (report_time <$> prev) xs in
  let history := option_list (reading_count <$> prev) ++ map sample_count ys in
  fold_left track xs (prev, total) =
  (reading_after prev ys, {| received := Z.min u64_max (received total + gains k_received history);
                             transmitted := Z.min u64_max (transmitted total + gains k_transmitted history) |}).
Proof.
  revert prev total. induction xs as [|x xs IH]; intros prev total Hp [Hr Ht] Hxs; cbv zeta.
  { simpl. rewrite app_nil_r. destruct prev as [p|]; simpl; rewrite !Z.add_0_r, !Z.min_r by int_lia; by destruct total. }
  inversion_clear Hxs as [|? ? Hx Hxs']. cbn [fold_left]. unfold track at 2.
  set (now := cast_signed64 (rp_time (sm_report x))).
  assert (stale prev (sm_report x) = (now <? default now (report_time <$> prev))%Z) as Hst
    by (destruct prev; simpl; [done|symmetry; apply Z.ltb_irrefl]).
  rewrite Hst. cbn [accepted]. fold now. destruct (_ <? _)%Z; [by apply IH|].
  set (cur := make_reading (sm_report x) (sm_interface x) prev (sm_received_at x)).
  set (inc := compute_traffic_increase prev cur (reset_between prev cur)).
  destruct Hx as (Htime & Hxr & Hxt & Hxi).
  assert (reading_wf cur) as Hcur by (split; [done|]; split; [done|]; split; [done|]; by apply cast_signed_range).
  destruct (compute_increase_wf prev cur (reset_between prev cur) Hp Hcur) as [Hi1 Hi2].
  rewrite IH; [|by intros p [= <-]|by apply add_traffic_wf|done]. change (report_time <$> Some cur) with (Some now). clear IH.
  set (ys := accepted (Some now) xs). change (reading_count <$> Some cur) with (Some (sample_count x)). cbn [option_list app map].
  assert (forall counter, (forall c, counter c = k_received c) \/ (forall c, counter c = k_transmitted c) -> (0 <= gains counter (sample_count x :: map sample_count ys))%Z) as Hg.
  { intros counter Hc. apply gains_nonneg. apply Forall_forall. intros c [->|(y & -> & Hy%accepted_sub)%list_elem_of_fmap]%list_elem_of_In%elem_of_cons.
    - destruct Hc as [->| ->]; simpl; int_lia.
    - rewrite Forall_forall in Hxs'. destruct (Hxs' y (proj1 (list_elem_of_In _ _) Hy)) as (_ & ? & ? & _). destruct Hc as [->| ->]; simpl; int_lia. }
  assert (forall counter, gains counter (option_list (reading_count <$> prev) ++ sample_count x :: map sample_count ys) =
    (match prev with Some p => gain counter (reading_count p) (sample_count x) | None => 0 end + gains counter (sample_count x :: map sample_count ys))%Z) as Hs.
  { intros counter. destruct prev as [p|]; [done|]. simpl. lia. }
  assert (inc = {| received := match prev with Some p => gain k_received (reading_count p) (sample_count x) | None => 0%Z end;
                   transmitted := match prev with Some p => gain k_transmitted (reading_count p) (sample_count x) | None => 0%Z end |}) as Hinc
    by (unfold inc; destruct prev as [p|]; [apply increase_gain|done]).
  assert (reading_after (Some cur) ys = reading_after prev (x :: ys)) as Hra.
  { unfold reading_after. destruct ys as [|y ys']; [reflexivity|]. change (list.last (x :: y :: ys')) with (list.last (y :: ys')).
    destruct (list.last (y :: ys')) eqn:El; [reflexivity|by apply last_None in El]. }
  rewrite Hra, !Hs. f_equal. unfold add_traffic. pose proof (Hg k_received (or_introl (fun _ => eq_refl))) as Hg1. pose proof (Hg k_transmitted (or_intror (fun _ => eq_refl))) as Hg2.
  fold inc in Hi1, Hi2. rewrite Hinc in Hi1, Hi2 |- *. cbn [received transmitted] in *. change (option_list (Some (sample_count x)) ++ map sample_count ys) with (sample_count x :: map sample_count ys). f_equal; int_lia.
Qed.

(** ** Possible data losses *)

Lemma apply_interface_loss u data at_ s b i :
  exists l, pending_possible_data_losses (fst (apply_interface u data at_ (s, b) i)) =
            pending_possible_data_losses s ++ l /\
    (l = [] /\ snd (apply_interface u data at_ (s, b) i) = b \/
     b = false /\ snd (apply_interface u data at_ (s, b) i) = true /\
     exists x, l = [x] /\ loss_uuid_id x = u /\
       (POSSIBLE_DATA_LOSS_THRESHOLD_MS < wrapping_sub_i64 (end_time x) (start_time x))%Z).
Proof.
  unfold apply_interface. destruct (match prev_readings s !! _ with Some _ => _ | None => false end).
  { exists []. rewrite app_nil_r. auto. }
  simpl. destruct (loss_of _ _ _ _ _ _ _) as [x|] eqn:El.
  - exists [x]. split; [done|]. right. unfold loss_of in El.
    destruct (any _ && negb b) eqn:Eb; [|done]. apply andb_true_iff in Eb as [_ ->%negb_true_iff].
    split; [done|]. split; [done|]. exists x. destruct (prev_readings s !! _); [|done].
    unfold detect_possible_data_loss in El. case_match eqn:Hd; [done|].
    injection El as <-. apply Z.leb_gt in Hd. done.
  - exists []. split; [done|]. left. by rewrite orb_false_r.
Qed.

Lemma fold_interfaces_loss u data at_ l s b :
  exists ls, pending_possible_data_losses (fst (fold_left (apply_interface u data at_) l (s, b))) =
             pending_possible_data_losses s ++ ls /\
    length ls <= (if b then 0 else 1) /\
    Forall (fun x => loss_uuid_id x = u /\
       (POSSIBLE_DATA_LOSS_THRESHOLD_MS < wrapping_sub_i64 (end_time x) (start_time x))%Z) ls.
Proof.
  revert s b. induction l as [|i l IH]; intros s b; simpl.
  { exists []. rewrite app_nil_r. split; [done|]. split; [simpl; lia|constructor]. }
  destruct (apply_interface_loss u data at_ s b i) as (l1 & Hl1 & Hcase).
  destruct (apply_interface u data at_ (s, b) i) as [s1 b1]. simpl in *.
  destruct (IH s1 b1) as (l2 & Hl2 & Hlen & Hall). exists (l1 ++ l2).
  rewrite Hl2, Hl1, app_assoc. split; [done|]. rewrite length_app.
  destruct Hcase as [[-> ->]|(-> & -> & x & -> & Hx)]; simpl; [done|]. split; [lia|]. by constructor.
Qed.

(** ** Theorems *)

(** C40: the accounting of each interface, over its history.  After any sequence of reports from any devices, the total of an interface
    has grown, up to the largest [u64], by exactly the sum, over its successive appearances as an
    outlet, of the growth of the counter, or of the whole counter where the boot id or the index changed or the counter went
    back; appearances in reports older than the one before, and reports in which some interface is
    not known to be an outlet or not, do not count.  The reading kept is the last appearance, with
    the time of the first.  Other interfaces and devices have no influence. *)
Theorem accounting_is_per_interface calls s key :
  Forall call_wf calls -> view_wf (view s key) ->
  let prev := prev_readings s !! key in
  let xs := accepted (report_time <$> prev) (flat_map (appearances key) calls) in
  let history := option_list (reading_count <$> prev) ++ map sample_count xs in
  total_of (apply_calls calls s) key =
    {| received := Z.min u64_max (received (total_of s key) + gains k_received history);
       transmitted := Z.min u64_max (transmitted (total_of s key) + gains k_transmitted history) |} /\
  prev_readings (apply_calls calls s) !! key = reading_after prev xs.
Proof.
  intros Hc [Hp Ht] prev xs history. pose proof (apply_calls_view calls s key) as Hv. rewrite flat_map_samples in Hv.
  pose proof (samples_wf key calls Hc) as Hwf. rewrite flat_map_samples in Hwf.
  rewrite (surjective_pairing (view s key)), (fold_track_history _ _ _ Hp Ht Hwf) in Hv. by injection Hv as -> ->.
Qed.

(** no traffic is counted twice or missed while an interface counts on.  If every
    sample of the interface continues the previous one, then after any number of reports
    the total has grown by exactly the last counter minus the first, saturating at the
    largest [u64]. *)
Theorem totals_telescope calls s key p :
  prev_readings s !! key = Some p -> traffic_wf (total_of s key) ->
  steady p (flat_map (samples_of key) calls) ->
  let final := last_counters (counter_received p) (counter_transmitted p)
                 (flat_map (samples_of key) calls) in
  total_of (apply_calls calls s) key =
  {| received := sat_add_u64 (received (total_of s key)) (final.1 - counter_received p);
     transmitted := sat_add_u64 (transmitted (total_of s key)) (final.2 - counter_transmitted p) |}.
Proof.
  intros Hp Hwf Hst final. change (total_of (apply_calls calls s) key) with (view (apply_calls calls s) key).2.
  rewrite apply_calls_view. unfold view. rewrite Hp. by apply fold_track_steady.
Qed.

(** Totals never decrease and never leave the range of [u64], whatever agents report,
    counter resets, reboots, stale and repeated reports included; stored readings stay
    within the ranges of their fields. *)
Theorem totals_monotone calls s key :
  Forall call_wf calls -> view_wf (view s key) ->
  view_wf (view (apply_calls calls s) key) /\
  (received (total_of s key) <= received (total_of (apply_calls calls s) key))%Z /\
  (transmitted (total_of s key) <= transmitted (total_of (apply_calls calls s) key))%Z.
Proof.
  intros Hc Hv. change (total_of (apply_calls calls s) key) with (view (apply_calls calls s) key).2.
  rewrite apply_calls_view. exact (fold_track_wf _ _ Hv (samples_wf key calls Hc)).
Qed.

(** A report records at most one possible data loss, for the reporting device, and only
    for an interval longer than ten minutes; recorded losses are never dropped. *)
Theorem one_loss_per_report c s :
  exists ls, pending_possible_data_losses (apply_report (c_uuid_id c) (c_report c) (c_received_at c) s) =
             pending_possible_data_losses s ++ ls /\
    length ls <= 1 /\
    Forall (fun x => loss_uuid_id x = c_uuid_id c /\
       (POSSIBLE_DATA_LOSS_THRESHOLD_MS < wrapping_sub_i64 (end_time x) (start_time x))%Z) ls.
Proof.
  unfold apply_report. destruct (existsb _ _); [|apply fold_interfaces_loss].
  exists []. rewrite app_nil_r. split; [done|]. split; [simpl; lia|constructor].
Qed.

(** ** Examples *)

Definition eth (r t : Z) : Interface := {|
  interface_name := "eth0"; if_ifindex := Some 2%Z; if_is_outlet := Some true;
  if_total_received := r; if_total_transmitted := t |}.

Definition sample_call (time r t : Z) : Call := {|
  c_uuid_id := 5;
  c_report := {| rp_time := time; rp_boot_id := Some "boot"%string; rp_uptime := 60;
                 rp_interfaces := [eth r t] |};
  c_received_at := time |}.

Definition first_state : State := apply_calls [sample_call 1000 700 70] State_default.
Definition eth_key : IfKey := (5%Z, "eth0"%string).
Definition later_calls : list Call := [sample_call 2000 900 75; sample_call 3000 1000 80].

Lemma sample_call_wf time r t : in_u64 time -> in_u64 r -> in_u64 t -> call_wf (sample_call time r t).
Proof.
  intros Ht Hr Htr. split; [done|]. intros i ->%list_elem_of_singleton. split; [done|]. split; [done|].
  intros x [= <-]. int_lia.
Qed.

Lemma totals_telescope_witness :
  total_of (apply_calls later_calls first_state) eth_key = {| received := 300; transmitted := 10 |}.
Proof.
  pose (p := make_reading (c_report (sample_call 1000 700 70)) (eth 700 70) None 1000).
  etransitivity; [apply (totals_telescope later_calls first_state eth_key p)|].
  - vm_compute. reflexivity.
  - split; vm_compute; split; discriminate.
  - vm_compute. repeat split; discriminate.
  - vm_compute. reflexivity.
Defined.

Lemma totals_monotone_witness :
  (received (total_of first_state eth_key) <= received (total_of (apply_calls later_calls first_state) eth_key))%Z.
Proof.
  apply (totals_monotone later_calls first_state eth_key).
  - unfold later_calls. apply Forall_cons_2; [|apply Forall_cons_2; [|constructor]];
      apply sample_call_wf; int_lia.
  - split; [|split; vm_compute; split; discriminate]. intros r Hr. vm_compute in Hr. injection Hr as <-.
    unfold reading_wf. simpl. split; [int_lia|]. split; [int_lia|]. split; [|int_lia].
    intros x [= <-]. int_lia.
Defined.

(** A reboot, a late report and an interface that is not known to be an outlet. *)
Definition rebooted_calls : list Call := [
  sample_call 2000 900 75; sample_call 1500 5000 5000;
  {| c_uuid_id := 5; c_report := {| rp_time := 3000; rp_boot_id := Some "other"%string; rp_uptime := 1; rp_interfaces := [eth 950 8] |}; c_received_at := 3000 |};
  {| c_uuid_id := 5; c_report := {| rp_time := 4000; rp_boot_id := None; rp_uptime := 1;
       rp_interfaces := [{| interface_name := "eth0"; if_ifindex := None; if_is_outlet := None; if_total_received := 9000; if_total_transmitted := 9000 |}] |};
     c_received_at := 4000 |}].

Lemma accounting_is_per_interface_witness :
  total_of (apply_calls rebooted_calls first_state) eth_key = {| received := 200 + 950; transmitted := 5 + 8 |}.
Proof.
  refine (eq_trans (proj1 (accounting_is_per_interface rebooted_calls first_state eth_key _ _)) _).
  - repeat apply Forall_cons_2; [apply sample_call_wf; int_lia|apply sample_call_wf; int_lia| | |constructor].
    all: split; [simpl; int_lia|]; intros i ->%list_elem_of_singleton; simpl; (split; [int_lia|split; [int_lia|]]); intros x [= <-]; int_lia.
  - split; [|split; vm_compute; split; discriminate]. intros r Hr. vm_compute in Hr. injection Hr as <-.
    unfold reading_wf. simpl. split; [int_lia|]. split; [int_lia|]. split; [|int_lia]. intros x [= <-]. int_lia.
  - vm_compute. reflexivity.
Defined.
