(* ===== verification/TrafficFlush.v ===== *)
(** * Persisting the traffic statistics

    The writing half of [ng-monitoring/src/traffic_stats.rs]: [flush] takes a snapshot of
    the state under its lock, writes it in one transaction with the lock released, and
    puts the data losses back if that failed; [init] rebuilds the state from the table. *)
From stdpp Require Import base strings gmap list numbers.
From S2P Require Import Prelude Errors Db Traffic.

(** A row of [traffic_current_total]; its [id] is left to the database. *)
Record TotalModel : Type := {
  tm_uuid_id : Z;
  tm_interface_name : string;
  tm_boot_id : option string;
  tm_ifindex : option Z;
  tm_counter_received : Z;
  tm_counter_transmitted : Z;
  tm_report_time : Z;
  tm_total_received : Z;
  tm_total_transmitted : Z;
  tm_created_at : Z;
  tm_updated_at : Z;
}.

(** [Column::iter().count()] of the two tables. *)
Definition CURRENT_TOTAL_COLUMNS : nat := 12.
Definition POSSIBLE_DATA_LOSS_COLUMNS : nat := 4.

Definition model_key (m : TotalModel) : IfKey := (tm_uuid_id m, tm_interface_name m).

Inductive DatabaseBackend : Type := MySql | Postgres | Sqlite.

(** The columns [ON CONFLICT (uuid_id, interface_name) DO UPDATE] overwrites: all but
    [created_at]. *)
Definition upsert_total (t : gmap IfKey TotalModel) (m : TotalModel) : gmap IfKey TotalModel :=
  <[model_key m := {|
      tm_uuid_id := tm_uuid_id m; tm_interface_name := tm_interface_name m;
      tm_boot_id := tm_boot_id m; tm_ifindex := tm_ifindex m;
      tm_counter_received := tm_counter_received m;
      tm_counter_transmitted := tm_counter_transmitted m;
      tm_report_time := tm_report_time m;
      tm_total_received := tm_total_received m; tm_total_transmitted := tm_total_transmitted m;
      tm_created_at := match t !! model_key m with Some old => tm_created_at old | None => tm_created_at m end;
      tm_updated_at := tm_updated_at m |}]> t.

(** The statements issued, and what is relied on: a statement or transaction that fails has
    no effect, one that succeeds has the effect its SQL says. *)
Class TrafficDb (DB : Type) : Type := {
  totals_of : DB -> gmap IfKey TotalModel;
  losses_of : DB -> list PossibleDataLoss;
  get_database_backend : DB -> DatabaseBackend;
  find_totals : M DB DbErr (list TotalModel);
  insert_many_totals : list TotalModel -> M DB DbErr unit;
  insert_many_losses : list PossibleDataLoss -> M DB DbErr unit;
  txn : M DB DbErr unit -> M DB DbErr unit;
}.

Class TrafficDbLaws {DB : Type} (db : TrafficDb DB) : Prop := {
  totals_keyed : forall d k m, totals_of d !! k = Some m -> model_key m = k;
  find_totals_ok : forall d d' l, find_totals d = (d', Ok l) -> l ≡ₚ (map_to_list (totals_of d)).*2;
  insert_totals_ok : forall c d d', insert_many_totals c d = (d', Ok tt) ->
    totals_of d' = fold_left upsert_total c (totals_of d) /\ losses_of d' = losses_of d;
  insert_losses_ok : forall c d d', insert_many_losses c d = (d', Ok tt) ->
    totals_of d' = totals_of d /\ losses_of d' = losses_of d ++ c;
  txn_ok : forall body d d', txn body d = (d', Ok tt) ->
    exists d1 d2, totals_of d1 = totals_of d /\ losses_of d1 = losses_of d /\ body d1 = (d2, Ok tt) /\
      totals_of d' = totals_of d2 /\ losses_of d' = losses_of d2;
  txn_err : forall body d d' e, txn body d = (d', Err e) ->
    totals_of d' = totals_of d /\ losses_of d' = losses_of d;
}.

(** ** Batching *)

Definition max_rows_per_statement (backend : DatabaseBackend) (columns : nat) : nat :=
  let max_variables := match backend with
                       | Sqlite => SQLITE_MAX_VARIABLES
                       | _ => POSTGRES_MAX_VARIABLES
                       end in
  (max_variables / columns `max` 1) `max` 1.

(** [slice::chunks]; the length of the list is fuel enough, each chunk taking at least one
    element. *)
Fixpoint chunks_fuel {A} (fuel n : nat) (l : list A) : list (list A) :=
  match fuel, l with
  | O, _ | _, [] => []
  | S fuel, _ => take n l :: chunks_fuel fuel n (drop n l)
  end.
Definition chunks {A} (n : nat) (l : list A) : list (list A) := chunks_fuel (length l) n l.

Section flush.
Context {DB : Type} {db : TrafficDb DB} {ho : HashOrder}.

(** [for chunk in ... { insert_many(chunk).exec(&txn).await? }]. *)
Fixpoint for_each {A} (f : A -> M DB DbErr unit) (l : list A) : M DB DbErr unit :=
  match l with
  | [] => mret tt
  | x :: l => let! _ := f x in for_each f l
  end.

Definition write_to_db (current : list TotalModel) (losses : list PossibleDataLoss) : M DB DbErr unit :=
  fun d =>
    let backend := get_database_backend d in
    txn (let! _ := for_each insert_many_totals
                     (chunks (max_rows_per_statement backend CURRENT_TOTAL_COLUMNS) current) in
         for_each insert_many_losses
           (chunks (max_rows_per_statement backend POSSIBLE_DATA_LOSS_COLUMNS) losses)) d.

Definition current_total_model (key : IfKey) (reading : NetworkInterfaceReading) (total : Traffic) :
  TotalModel := {|
  tm_uuid_id := key.1;
  tm_interface_name := key.2;
  tm_boot_id := boot_id reading;
  tm_ifindex := option_map cast_signed32 (ifindex reading);
  tm_counter_received := cast_signed64 (counter_received reading);
  tm_counter_transmitted := cast_signed64 (counter_transmitted reading);
  tm_report_time := report_time reading;
  tm_total_received := cast_signed64 (received total);
  tm_total_transmitted := cast_signed64 (transmitted total);
  tm_created_at := created_at reading;
  tm_updated_at := updated_at reading;
|}.

(** ** [flush], in its three steps *)

Record Batch : Type := { b_totals : list TotalModel; b_losses : list PossibleDataLoss }.

(** Under the lock: copy the totals, take the pending losses. *)
Definition take_batch (s : State) : State * Batch :=
  ({| prev_readings := prev_readings s; totals := totals s; pending_possible_data_losses := [] |},
   {| b_totals := map (fun '(key, reading) => current_total_model key reading (total_of s key))
                    (hash_iter (prev_readings s));
      b_losses := pending_possible_data_losses s |}).

(** With the lock released: nothing to do, or one transaction. *)
Definition write_batch (b : Batch) : M (option DB) DbErr unit :=
  fun w => match b_totals b, b_losses b with
           | [], [] => (w, Ok tt)
           | _, _ =>
               match w with
               | Some d => let '(d', r) := write_to_db (b_totals b) (b_losses b) d in (Some d', r)
               | None => (w, Err (DbFailure "database not initialized"))
               end
           end.

(** Under the lock again, on failure: [splice(0..0, possible_data_losses)]. *)
Definition put_back (b : Batch) (r : result DbErr unit) (s : State) : State :=
  match r with
  | Ok _ => s
  | Err _ => {| prev_readings := prev_readings s; totals := totals s;
                pending_possible_data_losses := b_losses b ++ pending_possible_data_losses s |}
  end.

Definition flush (w : State * option DB) : State * option DB :=
  let '(s, batch) := take_batch (fst w) in
  let '(d, r) := write_batch batch (snd w) in
  (put_back batch r s, d).

(** ** [init] *)

Definition load_row (s : State) (row : TotalModel) : State :=
  let key := model_key row in {|
  prev_readings := <[key := {|
      boot_id := tm_boot_id row;
      ifindex := option_map cast_unsigned32 (tm_ifindex row);
      counter_received := cast_unsigned64 (tm_counter_received row);
      counter_transmitted := cast_unsigned64 (tm_counter_transmitted row);
      report_time := tm_report_time row;
      created_at := tm_created_at row;
      updated_at := tm_updated_at row |}]> (prev_readings s);
  totals := <[key := {| received := cast_unsigned64 (tm_total_received row);
                        transmitted := cast_unsigned64 (tm_total_transmitted row) |}]> (totals s);
  pending_possible_data_losses := pending_possible_data_losses s |}.

Definition load_rows (rows : list TotalModel) : State := fold_left load_row rows State_default.

Definition init : M (option DB) anyhow State :=
  fun w => match w with
           | None => (w, Err (OfText "database not initialized"))
           | Some d => let '(d', r) := find_totals d in
                       (Some d', map_err (fun e => OfText (db_msg e)) (match r with
                                 | Ok rows => Ok (load_rows rows)
                                 | Err e => Err e
                                 end))
           end.
End flush.

(** ** Batching respects the limits *)

Lemma chunks_concat {A} n (l : list A) : 1 <= n -> concat (chunks n l) = l.
Proof.
  intros Hn. unfold chunks. assert (forall fuel (l : list A), length l <= fuel ->
    concat (chunks_fuel fuel n l) = l) as H; [|by apply H].
  induction fuel as [|fuel IH]; intros l' Hl; simpl.
  { destruct l'; simpl in *; [done|lia]. }
  destruct l' as [|x l']; [done|]. simpl concat. rewrite IH; [apply take_drop|].
  rewrite length_drop. simpl in *. lia.
Qed.

Lemma chunks_length {A} n (l c : list A) : c ∈ chunks n l -> length c <= n.
Proof.
  unfold chunks. generalize (length l). intros fuel. revert l.
  induction fuel as [|fuel IH]; intros l; simpl; [by intros ?%not_elem_of_nil|].
  destruct l; [by intros ?%not_elem_of_nil|].
  intros [->|Hc]%elem_of_cons; [rewrite length_take; lia|by eapply IH].
Qed.

Lemma max_rows_fits backend columns :
  1 <= columns -> columns <= SQLITE_MAX_VARIABLES ->
  max_rows_per_statement backend columns * columns <=
  match backend with Sqlite => SQLITE_MAX_VARIABLES | _ => POSTGRES_MAX_VARIABLES end.
Proof.
  intros H1 H2. unfold max_rows_per_statement. rewrite (Nat.max_l columns 1) by lia.
  assert (SQLITE_MAX_VARIABLES <= POSTGRES_MAX_VARIABLES) as Hle
    by (unfold SQLITE_MAX_VARIABLES, POSTGRES_MAX_VARIABLES; lia).
  set (mv := match backend with Sqlite => SQLITE_MAX_VARIABLES | _ => POSTGRES_MAX_VARIABLES end).
  assert (columns <= mv) as Hmv by (subst mv; destruct backend; lia).
  assert (1 <= mv / columns) by (apply Nat.div_le_lower_bound; lia).
  rewrite Nat.max_l by lia. rewrite Nat.mul_comm. apply Nat.Div0.mul_div_le.
Qed.

(** ** What a write leaves in the tables *)

Section written.
Context {DB : Type} {db : TrafficDb DB} {laws : TrafficDbLaws db} {ho : HashOrder}.

Lemma for_each_totals cs d d' :
  for_each insert_many_totals cs d = (d', Ok tt) ->
  totals_of d' = fold_left upsert_total (concat cs) (totals_of d) /\ losses_of d' = losses_of d.
Proof using laws.
  revert d. induction cs as [|c cs IH]; intros d; simpl; [by intros [= <-]|]. rewrite mbind_run.
  destruct (insert_many_totals c d) as [d1 [[]|e]] eqn:E; [|done]. intros [Ht' Hl']%IH.
  apply insert_totals_ok in E as [Ht Hl].
  rewrite fold_left_app. by rewrite Ht', Ht, Hl', Hl.
Qed.

Lemma for_each_losses cs d d' :
  for_each insert_many_losses cs d = (d', Ok tt) ->
  totals_of d' = totals_of d /\ losses_of d' = losses_of d ++ concat cs.
Proof using laws.
  revert d. induction cs as [|c cs IH]; intros d; simpl.
  { intros [= <-]. by rewrite app_nil_r. }
  rewrite mbind_run. destruct (insert_many_losses c d) as [d1 [[]|e]] eqn:E; [|done].
  intros [Ht' Hl']%IH. apply insert_losses_ok in E as [Ht Hl].
  by rewrite Ht', Ht, Hl', Hl, app_assoc.
Qed.

Lemma max_rows_pos backend columns : 1 <= max_rows_per_statement backend columns.
Proof. unfold max_rows_per_statement. lia. Qed.

Lemma write_to_db_ok current losses d d' :
  write_to_db current losses d = (d', Ok tt) ->
  totals_of d' = fold_left upsert_total current (totals_of d) /\ losses_of d' = losses_of d ++ losses.
Proof using laws.
  unfold write_to_db. intros (d1 & d2 & Ht1 & Hl1 & Hb & Ht & Hl)%txn_ok.
  rewrite mbind_run in Hb. destruct (for_each insert_many_totals _ d1) as [d3 [[]|e]] eqn:E; [|done].
  apply for_each_totals in E as [Ht2 Hl2]. apply for_each_losses in Hb as [Ht3 Hl3].
  rewrite chunks_concat in Ht2 by apply max_rows_pos. rewrite chunks_concat in Hl3 by apply max_rows_pos.
  by rewrite Ht, Ht3, Ht2, Ht1, Hl, Hl3, Hl2, Hl1.
Qed.

Lemma write_to_db_err current losses d d' e :
  write_to_db current losses d = (d', Err e) -> totals_of d' = totals_of d /\ losses_of d' = losses_of d.
Proof using laws. unfold write_to_db. apply txn_err. Qed.

Definition db_losses (w : option DB) : list PossibleDataLoss :=
  match w with Some d => losses_of d | None => [] end.
Definition db_totals (w : option DB) : gmap IfKey TotalModel :=
  match w with Some d => totals_of d | None => ∅ end.

Lemma write_batch_spec b w :
  match write_batch b w with
  | (w', Ok _) => db_totals w' = fold_left upsert_total (b_totals b) (db_totals w) /\
                  db_losses w' = db_losses w ++ b_losses b
  | (w', Err _) => db_totals w' = db_totals w /\ db_losses w' = db_losses w
  end.
Proof using laws.
  unfold write_batch. destruct b as [bt bl]. simpl.
  assert (match (match w with
           | Some d => let '(d', r) := write_to_db bt bl d in (Some d', r)
           | None => (w, Err (DbFailure "database not initialized"))
           end) with
    | (w', Ok _) => db_totals w' = fold_left upsert_total bt (db_totals w) /\
                  db_losses w' = db_losses w ++ bl
    | (w', Err _) => db_totals w' = db_totals w /\ db_losses w' = db_losses w end) as Hw.
  { destruct w as [d|]; [|done]. destruct (write_to_db bt bl d) as [d' [[]|e]] eqn:E; simpl.
    - by apply write_to_db_ok.
    - by apply write_to_db_err in E. }
  destruct bt as [|m bt]; [|exact Hw]. destruct bl as [|x bl]; [|exact Hw]. by rewrite app_nil_r.
Qed.

(** ** The running system *)

(** The state behind its lock, the database, the batch a [flush] is writing, and a log of
    every data loss ever recorded. *)
Record Sys : Type := {
  sy_state : State;
  sy_db : option DB;
  sy_inflight : option Batch;
  sy_log : list PossibleDataLoss;
}.

(** The losses a report appended. *)
Definition new_losses (s s' : State) : list PossibleDataLoss :=
  drop (length (pending_possible_data_losses s)) (pending_possible_data_losses s').

(** Reports arrive at any time, also while a batch is being written. *)
Inductive sys_step : Sys -> Sys -> Prop :=
| step_report c y :
    let s' := apply_report (c_uuid_id c) (c_report c) (c_received_at c) (sy_state y) in
    sys_step y {| sy_state := s'; sy_db := sy_db y; sy_inflight := sy_inflight y;
                  sy_log := sy_log y ++ new_losses (sy_state y) s' |}
| step_flush_begin y :
    sy_inflight y = None ->
    sys_step y {| sy_state := fst (take_batch (sy_state y)); sy_db := sy_db y;
                  sy_inflight := Some (snd (take_batch (sy_state y))); sy_log := sy_log y |}
| step_flush_end y b w r :
    sy_inflight y = Some b -> write_batch b (sy_db y) = (w, r) ->
    sys_step y {| sy_state := put_back b r (sy_state y); sy_db := w; sy_inflight := None;
                  sy_log := sy_log y |}.

Definition inflight_losses (y : Sys) : list PossibleDataLoss :=
  match sy_inflight y with Some b => b_losses b | None => [] end.

(** Every loss is in exactly one place, in the order it was recorded. *)
Definition conserved (y : Sys) : Prop :=
  db_losses (sy_db y) ++ inflight_losses y ++ pending_possible_data_losses (sy_state y) = sy_log y.

Lemma step_conserved y y' : sys_step y y' -> conserved y -> conserved y'.
Proof using laws.
  unfold conserved, inflight_losses. intros Hstep Hy.
  destruct Hstep as [c y s'|y Hnone|y b w r Hb Hw]; simpl.
  - subst s'. rewrite <-Hy. unfold new_losses.
    assert (exists ls, pending_possible_data_losses
              (apply_report (c_uuid_id c) (c_report c) (c_received_at c) (sy_state y)) =
            pending_possible_data_losses (sy_state y) ++ ls) as [ls ->].
    { unfold apply_report. destruct (existsb _ _); [exists []; by rewrite app_nil_r|].
      destruct (fold_interfaces_loss (c_uuid_id c) (c_report c) (c_received_at c)
        (List.filter is_outlet_true (rp_interfaces (c_report c))) (sy_state y) false) as (ls & -> & _).
      by exists ls. }
    by rewrite drop_app_length, !app_assoc.
  - rewrite Hnone in Hy. simpl in Hy. by rewrite app_nil_r.
  - pose proof (write_batch_spec b (sy_db y)) as Hs. rewrite Hw in Hs. rewrite Hb in Hy.
    destruct r as [[]|e]; simpl in *; destruct Hs as [_ ->].
    + by rewrite <-Hy, app_assoc.
    + done.
Qed.

(** ** Reading back what was written *)

(** The written state is one [init] or a run could have left: totals and readings cover the
    same interfaces, values are in range, and the table knows no other interface and
    agrees on creation times. *)
Record persistable (s : State) (t : gmap IfKey TotalModel) : Prop := {
  ps_dom : forall k, is_Some (totals s !! k) <-> is_Some (prev_readings s !! k);
  ps_readings : forall k r, prev_readings s !! k = Some r -> reading_wf r;
  ps_totals : forall k v, totals s !! k = Some v -> traffic_wf v;
  ps_table : forall k m, t !! k = Some m ->
    exists r, prev_readings s !! k = Some r /\ tm_created_at m = created_at r;
}.

Definition batch_of (s : State) : list TotalModel := b_totals (snd (take_batch s)).

Lemma batch_elem s m :
  m ∈ batch_of s <-> exists k r, prev_readings s !! k = Some r /\ m = current_total_model k r (total_of s k).
Proof.
  unfold batch_of. simpl. rewrite list_elem_of_fmap. split.
  - intros ([k r] & -> & Hk%hash_iter_elem). eauto.
  - intros (k & r & Hk & ->). exists (k, r). by rewrite hash_iter_elem.
Qed.

Lemma batch_keys s : map model_key (batch_of s) = (hash_iter (prev_readings s)).*1.
Proof.
  unfold batch_of. simpl. induction (hash_iter (prev_readings s)) as [|[[u n] r] l IH]; simpl; [done|].
  by rewrite IH.
Qed.

Lemma fold_upsert_notin l t k :
  k ∉ map model_key l -> fold_left upsert_total l t !! k = t !! k.
Proof.
  revert t. induction l as [|m l IH]; intros t; simpl; [done|]. rewrite not_elem_of_cons.
  intros [Hne Hl]. rewrite IH by done. unfold upsert_total. by rewrite lookup_insert_ne.
Qed.

(** Every row of a batch ends up in the table as it is, if creation times agree. *)
Lemma fold_upsert_in l t m :
  NoDup (map model_key l) -> m ∈ l ->
  (forall old, t !! model_key m = Some old -> tm_created_at old = tm_created_at m) ->
  fold_left upsert_total l t !! model_key m = Some m.
Proof.
  revert t. induction l as [|m0 l IH]; intros t; simpl; [by intros _ ?%not_elem_of_nil|].
  intros Hnd0. inversion Hnd0 as [|? ? Hnin Hnd]; subst. intros [->|Hm]%elem_of_cons Hold.
  - rewrite fold_upsert_notin by done. unfold upsert_total. rewrite lookup_insert_eq. f_equal.
    destruct (t !! model_key m0) as [old|] eqn:E; [rewrite (Hold old eq_refl)|]; by destruct m0.
  - apply IH; [done..|]. intros old. unfold upsert_total. rewrite lookup_insert_ne; [apply Hold|].
    intros He. apply Hnin. rewrite He. apply list_elem_of_fmap. by exists m.
Qed.

(** The table after writing a persistable state is exactly its models. *)
Lemma written_totals s t k :
  persistable s t ->
  fold_left upsert_total (batch_of s) t !! k =
  match prev_readings s !! k with
  | Some r => Some (current_total_model k r (total_of s k))
  | None => None
  end.
Proof.
  intros [_ _ _ Ht]. destruct (prev_readings s !! k) as [r|] eqn:E.
  - assert (model_key (current_total_model k r (total_of s k)) = k) as Hk by (by destruct k).
    rewrite <-Hk at 1. apply fold_upsert_in.
    + rewrite batch_keys. apply hash_iter_keys_NoDup.
    + apply batch_elem. eauto.
    + rewrite Hk. intros old Hold. destruct (Ht k old Hold) as (r' & Hr' & ->). simpl. congruence.
  - rewrite fold_upsert_notin.
    + destruct (t !! k) as [m|] eqn:Em; [|done]. destruct (Ht k m Em) as (r & Hr & _). congruence.
    + rewrite batch_keys. intros ([k' r] & -> & Hk%hash_iter_elem)%list_elem_of_fmap. simpl in E. congruence.
Qed.

(** What [init] makes of a row. *)
Definition reading_of (m : TotalModel) : NetworkInterfaceReading := {|
  boot_id := tm_boot_id m; ifindex := option_map cast_unsigned32 (tm_ifindex m);
  counter_received := cast_unsigned64 (tm_counter_received m);
  counter_transmitted := cast_unsigned64 (tm_counter_transmitted m);
  report_time := tm_report_time m; created_at := tm_created_at m; updated_at := tm_updated_at m |}.
Definition traffic_of (m : TotalModel) : Traffic := {|
  received := cast_unsigned64 (tm_total_received m);
  transmitted := cast_unsigned64 (tm_total_transmitted m) |}.

Lemma reading_roundtrip k r t : reading_wf r -> reading_of (current_total_model k r t) = r.
Proof.
  intros (Hr & Ht & Hi & _). unfold reading_of, current_total_model. destruct r. simpl in *. f_equal.
  - destruct ifindex; simpl; [|done]. f_equal. by apply cast_unsigned_signed32, Hi.
  - by apply cast_unsigned_signed64.
  - by apply cast_unsigned_signed64.
Qed.

Lemma traffic_roundtrip k r t : traffic_wf t -> traffic_of (current_total_model k r t) = t.
Proof.
  intros [Hr Ht]. unfold traffic_of, current_total_model. destruct t. simpl in *.
  by rewrite !cast_unsigned_signed64.
Qed.

Lemma load_rows_spec l :
  (forall a b, a ∈ l -> b ∈ l -> model_key a = model_key b -> a = b) ->
  (forall k r, prev_readings (load_rows l) !! k = Some r <->
     exists m, m ∈ l /\ model_key m = k /\ reading_of m = r) /\
  (forall k v, totals (load_rows l) !! k = Some v <->
     exists m, m ∈ l /\ model_key m = k /\ traffic_of m = v) /\
  pending_possible_data_losses (load_rows l) = [].
Proof.
  unfold load_rows. induction l as [|m0 l IH] using rev_ind; intros Hf.
  { simpl. repeat split; try done; by intros (m & ?%not_elem_of_nil & _). }
  rewrite fold_left_app. simpl.
  destruct IH as (IHr & IHt & ->); [intros a b Ha Hb; apply Hf; apply elem_of_app; auto|].
  assert (forall m, m ∈ l ++ [m0] -> model_key m = model_key m0 -> m = m0) as Hm0
    by (intros m Hm He; apply Hf; [done|set_solver|done]).
  split; [|split; [|done]]; intros k v; rewrite lookup_insert_Some;
    [rewrite IHr|rewrite IHt]; setoid_rewrite elem_of_app in Hm0; setoid_rewrite elem_of_app;
    setoid_rewrite list_elem_of_singleton; split.
  1,3: intros [[Hk Hv]|(Hne & m & Hm & Hk & Hv)]; eauto 8.
  all: intros (m & [Hm| ->] & Hk & Hv); [|by left].
  all: destruct (decide (model_key m0 = k)) as [He|He]; [|right; eauto 6].
  all: left; split; [done|]; rewrite <-Hv, (Hm0 m); [done|by left|congruence].
Qed.

(** ** The state stays persistable *)

Lemma apply_interface_persistable u data at_ s b i t :
  persistable s t -> in_u64 (rp_time data) ->
  in_u64 (if_total_received i) -> in_u64 (if_total_transmitted i) ->
  (forall x, if_ifindex i = Some x -> in_u32 x) ->
  persistable (fst (apply_interface u data at_ (s, b) i)) t.
Proof.
  intros [Hd Hr Ht Htab] Htime H1 H2 H3. unfold apply_interface.
  set (key := (u, interface_name i)).
  destruct (match prev_readings s !! key with Some _ => _ | None => false end); [by split|]. simpl.
  set (cur := make_reading data i (prev_readings s !! key) at_).
  assert (reading_wf cur) as Hcur
    by (split; [done|]; split; [done|]; split; [done|]; by apply cast_signed_range).
  assert (traffic_wf (total_of s key)) as Htot.
  { unfold total_of. destruct (totals s !! key) as [v|] eqn:E; [by eapply Ht|].
    split; simpl; int_lia. }
  split; simpl.
  - intros k. destruct (decide (key = k)) as [<-|Hne]; [by rewrite !lookup_insert_eq|].
    by rewrite !lookup_insert_ne.
  - intros k r [[_ <-]|[_ Hk]]%lookup_insert_Some; [done|by eapply Hr].
  - intros k v [[_ <-]|[_ Hk]]%lookup_insert_Some; [|by eapply Ht].
    apply add_traffic_wf; [done|apply compute_increase_wf; [|done]..]; intros p; apply Hr.
  - intros k m Hm. destruct (Htab k m Hm) as (r & Hk & Hc).
    destruct (decide (key = k)) as [<-|Hne].
    + exists cur. rewrite lookup_insert_eq. split; [done|]. unfold cur. by rewrite Hk.
    + exists r. by rewrite lookup_insert_ne.
Qed.

Lemma fold_interfaces_persistable u data at_ l s b t :
  persistable s t -> in_u64 (rp_time data) ->
  (forall i, i ∈ l -> in_u64 (if_total_received i) /\ in_u64 (if_total_transmitted i) /\
     (forall x, if_ifindex i = Some x -> in_u32 x)) ->
  persistable (fst (fold_left (apply_interface u data at_) l (s, b))) t.
Proof.
  intros Hs Ht. revert s b Hs. induction l as [|i l IH]; intros s b Hs Hl; [done|]. cbn [fold_left].
  destruct (Hl i (list_elem_of_here _ _)) as (H1 & H2 & H3).
  pose proof (apply_interface_persistable u data at_ s b i t Hs Ht H1 H2 H3) as Hs1.
  destruct (apply_interface u data at_ (s, b) i) as [s1 b1]. apply IH; [done|].
  intros j Hj. apply Hl. by right.
Qed.

Lemma apply_report_persistable c s t :
  call_wf c -> persistable s t ->
  persistable (apply_report (c_uuid_id c) (c_report c) (c_received_at c) s) t.
Proof.
  intros [Ht Hi] Hs. unfold apply_report. destruct (existsb _ _); [done|].
  apply fold_interfaces_persistable; [done..|]. intros i [Hin _]%list_filter_elem. by apply Hi.
Qed.

(** The columns of the table are signed 64- and 32-bit integers. *)
Definition row_wf (m : TotalModel) : Prop :=
  in_i64 (tm_counter_received m) /\ in_i64 (tm_counter_transmitted m) /\
  in_i64 (tm_total_received m) /\ in_i64 (tm_total_transmitted m) /\ in_i64 (tm_report_time m) /\
  (forall i, tm_ifindex m = Some i -> in_i32 i).

Lemma cast_unsigned_range64 z : in_i64 z -> in_u64 (cast_unsigned64 z).
Proof. unfold cast_unsigned64. intros Hz. case_match; rewrite ?Z.leb_le, ?Z.leb_gt in *; int_lia. Qed.
Lemma cast_unsigned_range32 z : in_i32 z -> in_u32 (cast_unsigned32 z).
Proof. unfold cast_unsigned32. intros Hz. case_match; rewrite ?Z.leb_le, ?Z.leb_gt in *; int_lia. Qed.

Lemma table_rows d d' l :
  find_totals d = (d', Ok l) ->
  (forall m, m ∈ l <-> totals_of d !! model_key m = Some m) /\
  (forall a b, a ∈ l -> b ∈ l -> model_key a = model_key b -> a = b).
Proof using laws.
  intros Hl%find_totals_ok.
  assert (forall m, m ∈ l <-> totals_of d !! model_key m = Some m) as Hin.
  { intros m. rewrite Hl, list_elem_of_fmap. split.
    - intros ([k m'] & -> & Hk%elem_of_map_to_list). simpl. by rewrite (totals_keyed d k m' Hk).
    - intros Hm. exists (model_key m, m). by rewrite elem_of_map_to_list. }
  split; [done|]. intros a b Ha%Hin Hb%Hin Hk. rewrite Hk in Ha. congruence.
Qed.

Lemma init_persistable d d' s :
  (forall k m, totals_of d !! k = Some m -> row_wf m) ->
  init (Some d) = (Some d', Ok s) -> persistable s (totals_of d).
Proof using laws.
  intros Hwf Hinit. unfold init in Hinit. destruct (find_totals d) as [d1 [l|e]] eqn:E; [|done].
  injection Hinit as _ <-. destruct (table_rows d d1 l E) as [Hin Hf].
  destruct (load_rows_spec l Hf) as (Hr & Ht & _). split.
  - intros k. unfold is_Some. setoid_rewrite Hr. setoid_rewrite Ht. naive_solver.
  - intros k r (m & Hm%Hin & _ & <-)%Hr. destruct (Hwf _ m Hm) as (? & ? & _ & _ & ? & Hi).
    split; [by apply cast_unsigned_range64|]. split; [by apply cast_unsigned_range64|]. split; [|done].
    simpl. destruct (tm_ifindex m) as [j|]; [|done]. intros i [= <-]. by apply cast_unsigned_range32, Hi.
  - intros k v (m & Hm%Hin & _ & <-)%Ht. destruct (Hwf _ m Hm) as (_ & _ & ? & ? & _).
    split; by apply cast_unsigned_range64.
  - intros k m Hk. exists (reading_of m). split; [|done]. apply Hr. exists m.
    pose proof (totals_keyed d k m Hk) as Hkey. split; [|done]. apply Hin. by rewrite Hkey.
Qed.

Lemma write_persistable s t :
  persistable s t -> persistable s (fold_left upsert_total (batch_of s) t).
Proof.
  intros Hs. split; [apply Hs..|]. intros k m. rewrite (written_totals s t k Hs).
  destruct (prev_readings s !! k) as [r|]; [|done]. intros [= <-]. by exists r.
Qed.

(** ** Theorems *)

(** no data loss record is lost or written twice.  Whatever reports arrive, also
    while a batch is being written, and whichever writes fail, the rows of the table
    followed by the batch in flight followed by the pending ones are always exactly the
    losses recorded so far, in order. *)
Theorem losses_conserved y y' : rtc sys_step y y' -> conserved y -> conserved y'.
Proof using laws. induction 1 as [|y1 y2 y3 Hs _ IH]; [done|]. intros Hy. by eapply IH, step_conserved. Qed.

(** C11: a restart loses nothing that was flushed.  After a successful write of a state,
    initialising from the database yields the same last readings and the same totals
    for every interface, although the table stores the unsigned counters as signed
    columns, and no pending losses. *)
Theorem restart_restores s d d' d'' st :
  persistable s (totals_of d) ->
  write_batch (snd (take_batch s)) (Some d) = (Some d', Ok tt) ->
  init (Some d') = (Some d'', Ok st) ->
  prev_readings st = prev_readings s /\ totals st = totals s /\ pending_possible_data_losses st = [].
Proof using laws.
  intros Hs Hw Hinit. pose proof (write_batch_spec (snd (take_batch s)) (Some d)) as Hspec.
  rewrite Hw in Hspec. destruct Hspec as [Ht _]. simpl in Ht. fold (batch_of s) in Ht.
  unfold init in Hinit. destruct (find_totals d') as [d1 [l|e]] eqn:E; [|done].
  injection Hinit as _ <-. destruct (table_rows d' d1 l E) as [Hin Hf].
  destruct (load_rows_spec l Hf) as (Hr & Htot & Hp).
  assert (forall m, m ∈ l <-> exists k r, prev_readings s !! k = Some r /\
            m = current_total_model k r (total_of s k)) as Hrows.
  { intros m. rewrite Hin. replace (totals_of d') with (fold_left upsert_total (batch_of s) (totals_of d)).
    rewrite (written_totals s _ _ Hs). split.
    - destruct (prev_readings s !! model_key m) as [r|] eqn:Er; [|done]. intros [= Hm]. eauto.
    - intros (k & r & Hk & ->). replace (model_key _) with k by (by destruct k). by rewrite Hk. }
  destruct Hs as [Hd Hwr Hwt _].
  assert (forall k r v, prev_readings s !! k = Some r -> totals s !! k = Some v -> total_of s k = v) as Htv
    by (intros k r v _ Hv; unfold total_of; by rewrite Hv).
  split; [|split; [|done]]; apply map_eq; intros k; apply option_eq; intros v.
  - rewrite Hr. setoid_rewrite Hrows. split.
    + intros (m & (k' & r & Hk & ->) & <- & <-). replace (model_key _) with k' by (by destruct k').
      rewrite Hk. f_equal. symmetry. by apply reading_roundtrip, (Hwr k').
    + intros Hk. eexists. split; [by exists k, v|]. split; [by destruct k|].
      by apply reading_roundtrip, (Hwr k).
  - rewrite Htot. setoid_rewrite Hrows. split.
    + intros (m & (k' & r & Hk & ->) & <- & <-). replace (model_key _) with k' by (by destruct k').
      destruct (proj2 (Hd k')) as [v Hv]; [by rewrite Hk|].
      rewrite (Htv k' r v Hk Hv), traffic_roundtrip by by eapply Hwt. done.
    + intros Hv. destruct (proj1 (Hd k)) as [r Hk]; [by rewrite Hv|].
      eexists. split; [by exists k, r|]. split; [by destruct k|].
      rewrite (Htv k r v Hk Hv). by eapply traffic_roundtrip, Hwt.
Qed.

(** the hypothesis of the restart theorem holds throughout: initialising from a
    table of integer columns establishes it, and every report with fields in range and
    every write, successful or not, preserves it. *)
Theorem persistable_invariant :
  (forall d d' s, (forall k m, totals_of d !! k = Some m -> row_wf m) ->
     init (Some d) = (Some d', Ok s) -> persistable s (totals_of d)) /\
  (forall c s t, call_wf c -> persistable s t ->
     persistable (apply_report (c_uuid_id c) (c_report c) (c_received_at c) s) t) /\
  (forall s w, persistable s (db_totals w) ->
     persistable (fst (flush (s, w))) (db_totals (snd (flush (s, w))))).
Proof using laws.
  split; [apply init_persistable|]. split; [apply apply_report_persistable|].
  intros s w Hs. unfold flush. simpl.
  pose proof (write_batch_spec (snd (take_batch s)) w) as Hw. simpl in Hw.
  destruct (write_batch _ w) as [w' [[]|e]]; simpl in *; destruct Hw as [-> _].
  - destruct (write_persistable s _ Hs) as [H1 H2 H3 H4]. by split.
  - destruct Hs as [H1 H2 H3 H4]. by split.
Qed.
End written.

(** batching writes everything, in order, within the limits of the database: the chunks
    concatenate to the rows, and no statement binds more parameters than the backend
    allows, for both tables. *)
Theorem statements_fit {A} (backend : DatabaseBackend) (l : list A) :
  forall columns, columns ∈ [CURRENT_TOTAL_COLUMNS; POSSIBLE_DATA_LOSS_COLUMNS] ->
  let rows := max_rows_per_statement backend columns in
  concat (chunks rows l) = l /\
  forall c, c ∈ chunks rows l -> length c * columns <=
    match backend with Sqlite => SQLITE_MAX_VARIABLES | _ => POSTGRES_MAX_VARIABLES end.
Proof.
  intros columns Hc rows. split; [by apply chunks_concat, max_rows_pos|].
  intros c Hin%chunks_length. etrans; [apply Nat.mul_le_mono_r, Hin|]. apply max_rows_fits.
  all: apply elem_of_cons in Hc as [->|Hc]; [|apply list_elem_of_singleton in Hc as ->];
    unfold CURRENT_TOTAL_COLUMNS, POSSIBLE_DATA_LOSS_COLUMNS, SQLITE_MAX_VARIABLES; lia.
Qed.

(** ** Example: a database in memory, with scripted outages *)

Record MemDb : Type := {
  md_rows : list TotalModel; md_losses : list PossibleDataLoss; md_outages : list bool }.

Definition keyed (l : list TotalModel) : gmap IfKey TotalModel :=
  list_to_map (map (fun m => (model_key m, m)) l).

Lemma keyed_lookup l k m : keyed l !! k = Some m -> model_key m = k.
Proof.
  intros Hk%elem_of_list_to_map_2. apply list_elem_of_fmap in Hk as (m' & [= -> ->] & _). done.
Qed.

Lemma upsert_keyed c t :
  (forall k m, t !! k = Some m -> model_key m = k) ->
  forall k m, fold_left upsert_total c t !! k = Some m -> model_key m = k.
Proof.
  revert t. induction c as [|m0 c IH]; intros t Ht; simpl; [done|]. apply IH.
  unfold upsert_total. intros k m [[<- <-]|[_ Hk]]%lookup_insert_Some; [done|by apply Ht].
Qed.

Lemma keyed_values t :
  (forall k m, t !! k = Some m -> model_key m = k) -> keyed (map_to_list t).*2 = t.
Proof.
  intros Ht. unfold keyed. rewrite <-(list_to_map_to_list t) at 2. f_equal.
  assert (forall p, p ∈ map_to_list t -> model_key p.2 = p.1) as Hp
    by (intros [k m] Hk%elem_of_map_to_list; by apply Ht).
  induction (map_to_list t) as [|[k m] l IH]; simpl; [done|]. f_equal.
  - f_equal. exact (Hp (k, m) (list_elem_of_here _ _)).
  - apply IH. intros p Hin. apply Hp. by right.
Qed.

(** A statement, unless the connection is down. *)
Definition mem_stmt {A} (f : MemDb -> MemDb * A) : M MemDb DbErr A :=
  fun d => match md_outages d with
           | true :: o => ({| md_rows := md_rows d; md_losses := md_losses d; md_outages := o |},
                           Err (DbFailure "connection lost"))
           | _ => let '(d', a) := f d in
                  ({| md_rows := md_rows d'; md_losses := md_losses d'; md_outages := tail (md_outages d) |}, Ok a)
           end.

#[global] Instance mem_db : TrafficDb MemDb := {|
  totals_of d := keyed (md_rows d);
  losses_of := md_losses;
  get_database_backend _ := Sqlite;
  find_totals := mem_stmt (fun d => (d, (map_to_list (keyed (md_rows d))).*2));
  insert_many_totals c := mem_stmt (fun d =>
    ({| md_rows := (map_to_list (fold_left upsert_total c (keyed (md_rows d)))).*2;
        md_losses := md_losses d; md_outages := md_outages d |}, tt));
  insert_many_losses c := mem_stmt (fun d =>
    ({| md_rows := md_rows d; md_losses := md_losses d ++ c; md_outages := md_outages d |}, tt));
  txn body d := match body d with
                | (d', Ok a) => (d', Ok a)
                | (d', Err e) => ({| md_rows := md_rows d; md_losses := md_losses d;
                                     md_outages := md_outages d' |}, Err e)
                end;
|}.

#[global] Instance mem_db_laws : TrafficDbLaws mem_db.
Proof.
  assert (forall A (f : MemDb -> MemDb * A) d d' a, mem_stmt f d = (d', Ok a) ->
            md_rows d' = md_rows (f d).1 /\ md_losses d' = md_losses (f d).1 /\ a = (f d).2) as Hstmt.
  { intros A f d d' a. unfold mem_stmt. destruct (f d) as [d1 a1].
    destruct (md_outages d) as [|[] o]; intros; by simplify_eq/=. }
  split; simpl.
  - intros d k m. apply keyed_lookup.
  - intros d d' l (_ & _ & ->)%Hstmt. done.
  - intros c d d' (-> & -> & _)%Hstmt. simpl. split; [|done]. apply keyed_values, upsert_keyed.
    intros k m. apply keyed_lookup.
  - intros c d d' (-> & -> & _)%Hstmt. done.
  - intros body d d'. destruct (body d) as [d1 [[]|e]] eqn:E; intros; simplify_eq. by exists d, d'.
  - intros body d d' e. destruct (body d) as [d1 [[]|e1]] eqn:E; intros; by simplify_eq/=.
Qed.

#[local] Existing Instance list_order.

Definition empty_mem : MemDb := {| md_rows := []; md_losses := []; md_outages := [] |}.

(** A counter in the upper half of the unsigned range is stored as a negative number. *)
Definition big_state : State :=
  apply_calls [sample_call 1000 1 1; sample_call 2000 18446744073709551615 5] State_default.

Lemma big_state_persistable : persistable big_state (totals_of empty_mem).
Proof.
  assert (persistable State_default (totals_of empty_mem)) as H0.
  { split; intros k; simpl; unfold keyed; simpl; rewrite ?lookup_empty; try done; by intros. }
  unfold big_state, apply_calls. cbn [fold_left].
  apply (apply_report_persistable (sample_call 2000 18446744073709551615 5));
    [apply sample_call_wf; int_lia|].
  apply (apply_report_persistable (sample_call 1000 1 1)); [apply sample_call_wf; int_lia|]. exact H0.
Qed.

Lemma restart_restores_witness :
  match write_batch (snd (take_batch big_state)) (Some empty_mem) with
  | (Some d', _) => match init (Some d') with
                    | (_, Ok st) => totals st = totals big_state
                    | _ => False
                    end
  | _ => False
  end.
Proof.
  destruct (write_batch (snd (take_batch big_state)) (Some empty_mem)) as [w r] eqn:Hw.
  assert (exists d', w = Some d' /\ r = Ok tt /\ exists d'' st, init (Some d') = (Some d'', Ok st))
    as (d' & -> & -> & d'' & st & Hinit).
  { vm_compute in Hw. injection Hw as <- <-. eexists. split; [reflexivity|]. split; [reflexivity|].
    eexists _, _. vm_compute. reflexivity. }
  rewrite Hinit.
  exact (proj1 (proj2 (restart_restores big_state empty_mem d' d'' st big_state_persistable Hw Hinit))).
Defined.

(** A report that records a loss, a failed flush, a second report, a successful flush. *)
Definition rebooted_call (time : Z) : Call := {|
  c_uuid_id := 5;
  c_report := {| rp_time := time; rp_boot_id := Some "rebooted"%string;
                 rp_uptime := 0; rp_interfaces := [eth 1 1] |};
  c_received_at := time |}.

Definition sys0 : Sys (DB := MemDb) := {|
  sy_state := first_state;
  sy_db := Some {| md_rows := []; md_losses := []; md_outages := [true; false; false] |};
  sy_inflight := None; sy_log := [] |}.

Definition sys1 : Sys (DB := MemDb) :=
  let s' := apply_report 5 (c_report (rebooted_call 2000000)) 2000000 first_state in
  {| sy_state := s'; sy_db := sy_db sys0; sy_inflight := None; sy_log := new_losses first_state s' |}.

Lemma losses_conserved_witness : sy_log sys1 <> [] /\ conserved sys1.
Proof.
  split; [vm_compute; discriminate|].
  apply (losses_conserved sys0 sys1); [|reflexivity].
  eapply rtc_l; [apply (step_report (rebooted_call 2000000) sys0)|]. apply rtc_refl.
Defined.

Lemma persistable_invariant_witness :
  persistable (fst (flush (big_state, Some empty_mem))) (db_totals (snd (flush (big_state, Some empty_mem)))).
Proof. apply (persistable_invariant (DB := MemDb)). exact big_state_persistable. Defined.

Lemma statements_fit_witness :
  concat (chunks (max_rows_per_statement Sqlite CURRENT_TOTAL_COLUMNS) (seq 0 200)) = seq 0 200.
Proof. apply (statements_fit Sqlite (seq 0 200) CURRENT_TOTAL_COLUMNS). left. Defined.
