(* ===== verification/Buffer.v ===== *)
(** * The write buffers of the monitoring data

    [ng-monitoring/src/monitoring_buffer.rs]: a bounded queue per table that report methods
    push into, and a loop that collects what has arrived and inserts it in batches.  Senders
    and the loop interleave freely; [bstep] has one step per atomic action of either.  A model
    waiting for its key is a function from the key to the row. *)
From stdpp Require Import base strings list numbers.
From S2P Require Import Prelude Errors Db.

Definition DEFAULT_FLUSH_INTERVAL_MS : Z := 500.
Definition DEFAULT_MAX_BATCH_SIZE : nat := 1000.
Definition DEFAULT_CHANNEL_CAPACITY : nat := Z.to_nat 10000.
Definition SQLITE_MAX_VARIABLE_NUMBER : nat := 999.

(** [BufferSender] with the channel behind it: [tx] tells whether the sender is still there. *)
Record BufferSender (A : Type) : Type := {
  channel : list A; tx : bool; cap : nat; dropped : Z; closed : bool }.
Arguments channel {A}. Arguments tx {A}. Arguments cap {A}. Arguments dropped {A}. Arguments closed {A}.

(** Where the loop stands: waiting in [select!], collecting into [buf], working off a batch, or
    returned. *)
Inductive Phase (A : Type) : Type :=
| Waiting
| Draining (buf : list A)
| Flushing (chunk_size : nat) (batch : list A)
| Exited.
Arguments Waiting {A}. Arguments Draining {A}. Arguments Flushing {A}. Arguments Exited {A}.

(** What happens to a model: taken into the queue, turned away at a full or a closed one;
    inserted with others in one statement, lost with a failing statement, or lost for lack
    of a database. *)
Inductive BufEvent (Row : Type) : Type :=
| Accepted (x : Z -> Row)
| Overflowed (x : Z -> Row)
| Refused (x : Z -> Row)
| Inserted (sub : list (Z -> Row)) (l : list Row)
| Failed (sub : list (Z -> Row))
| Discarded (batch : list (Z -> Row)).
Arguments Accepted {Row}. Arguments Overflowed {Row}. Arguments Refused {Row}.
Arguments Inserted {Row}. Arguments Failed {Row}. Arguments Discarded {Row}.

Section buffer.
Context {D Row : Type} {ops : TableOps D Row}.
(** The parameters of [flush_loop]. *)
Variables (max_batch_size num_columns : nat).

#[local] Notation Item := (Z -> Row).

Definition new_sender (capacity : nat) : BufferSender Item :=
  {| channel := []; tx := true; cap := capacity; dropped := 0; closed := false |}.

Definition set_channel (l : list Item) (b : BufferSender Item) : BufferSender Item :=
  {| channel := l; tx := tx b; cap := cap b; dropped := dropped b; closed := closed b |}.

(** [send] behind the test of [closed]: under the lock, [try_send]; the counter wraps. *)
Definition send_locked (x : Item) (b : BufferSender Item) : BufferSender Item * BufEvent Row :=
  if negb (tx b) then (b, Refused x)
  else if (length (channel b) <? cap b)%nat then (set_channel (channel b ++ [x]) b, Accepted x)
  else ({| channel := channel b; tx := tx b; cap := cap b;
           dropped := (dropped b + 1) mod 2 ^ 64; closed := closed b |}, Overflowed x).

Definition send (x : Item) (b : BufferSender Item) : BufferSender Item * BufEvent Row :=
  if closed b then (b, Refused x) else send_locked x b.

(** [close] raises the flag and then drops the sender. *)
Definition close_flag (b : BufferSender Item) : BufferSender Item :=
  {| channel := channel b; tx := tx b; cap := cap b; dropped := dropped b; closed := true |}.
Definition close_take (b : BufferSender Item) : BufferSender Item :=
  {| channel := channel b; tx := false; cap := cap b; dropped := dropped b; closed := closed b |}.
Definition close (b : BufferSender Item) : BufferSender Item :=
  if closed b then b else close_take (close_flag b).

Definition chunk_size_of (is_sqlite : bool) (total : nat) : nat :=
  if is_sqlite then Nat.min (SQLITE_MAX_VARIABLE_NUMBER / Nat.max num_columns 1) total else total.

Record BufState : Type := { sender : BufferSender Item; phase : Phase Item; table : option D }.

(** The beginning of [do_flush], up to its loop. *)
Definition flush_start (buf : list Item) (s : BufState) : BufState * list (BufEvent Row) :=
  match buf, table s with
  | [], _ => ({| sender := sender s; phase := Waiting; table := table s |}, [])
  | _, None => ({| sender := sender s; phase := Waiting; table := None |}, [Discarded buf])
  | _, Some d =>
      ({| sender := sender s; phase := Flushing (chunk_size_of (negb (is_postgres d)) (length buf)) buf;
          table := Some d |}, [])
  end.

(** One round of the loop of [do_flush]; afterwards the batch is worked off.  Keys are left to
    the database, so the conflict clause of SQLite on the key never applies. *)
Definition flush_chunk (chunk : nat) (batch : list Item) (s : BufState) : BufState * list (BufEvent Row) :=
  match batch, table s with
  | [], _ => ({| sender := sender s; phase := Waiting; table := table s |}, [])
  | _, None => (s, [])
  | _, Some d =>
      let n := Nat.min chunk (length batch) in
      let sub := take n batch in
      let '(d', r) := insert_many sub d in
      ({| sender := sender s; phase := Flushing chunk (drop n batch); table := Some d' |},
       [match r with Ok l => Inserted sub l | Err _ => Failed sub end])
  end.

(** One action of [flush_loop]: [recv] comes first in the biased [select!]; without a message
    and with the sender alive the next tick lets it go on. *)
Definition loop_step (s : BufState) : BufState * list (BufEvent Row) :=
  let goto ch p := ({| sender := set_channel ch (sender s); phase := p; table := table s |}, []) in
  match phase s with
  | Waiting =>
      match channel (sender s) with
      | x :: ch => goto ch (Draining [x])
      | [] => if tx (sender s) then goto [] (Draining []) else goto [] Exited
      end
  | Draining buf =>
      if (length buf <? max_batch_size)%nat then
        match channel (sender s) with
        | x :: ch => goto ch (Draining (buf ++ [x]))
        | [] => flush_start buf s
        end
      else flush_start buf s
  | Flushing chunk batch => flush_chunk chunk batch s
  | Exited => (s, [])
  end.

Definition with_sender (b : BufferSender Item) (s : BufState) : BufState :=
  {| sender := b; phase := phase s; table := table s |}.

(** A report method may have passed the test of [closed] long before it locks. *)
Inductive bstep : BufState -> list (BufEvent Row) -> BufState -> Prop :=
| bstep_send x s : bstep s [(send_locked x (sender s)).2] (with_sender (send_locked x (sender s)).1 s)
| bstep_refused x s : closed (sender s) = true -> bstep s [Refused x] s
| bstep_close_flag s : bstep s [] (with_sender (close_flag (sender s)) s)
| bstep_close_take s : closed (sender s) = true -> bstep s [] (with_sender (close_take (sender s)) s)
| bstep_loop s : bstep s (loop_step s).2 (loop_step s).1.

Inductive bsteps : BufState -> list (BufEvent Row) -> BufState -> Prop :=
| bsteps_refl s : bsteps s [] s
| bsteps_trans s1 s2 s3 l1 l2 : bstep s1 l1 s2 -> bsteps s2 l2 s3 -> bsteps s1 (l1 ++ l2) s3.

Definition init_buffer (capacity : nat) (t : option D) : BufState :=
  {| sender := new_sender capacity; phase := Waiting; table := t |}.

(** ** The life of a model *)

Definition accepted_of (ev : BufEvent Row) : list Item := match ev with Accepted x => [x] | _ => [] end.
(** The models a statement was issued for, or that were given up for lack of a database. *)
Definition settled_of (ev : BufEvent Row) : list Item :=
  match ev with Inserted sub _ => sub | Failed sub => sub | Discarded batch => batch | _ => [] end.
Definition stored_of (ev : BufEvent Row) : list Row := match ev with Inserted _ l => l | _ => [] end.

Definition in_flight (p : Phase Item) : list Item :=
  match p with Draining buf => buf | Flushing _ batch => batch | _ => [] end.
Definition pending (s : BufState) : list Item := in_flight (phase s) ++ channel (sender s).

Definition table_rows (s : BufState) : list Row := match table s with Some d => rows d | None => [] end.

(** A statement inserts at least one row, and no more than the parameters of SQLite allow. *)
Definition fits (is_sqlite : bool) (ev : BufEvent Row) : Prop :=
  match ev with
  | Inserted sub _ | Failed sub =>
      (1 <= length sub)%nat /\ (is_sqlite = true -> (length sub * num_columns <= SQLITE_MAX_VARIABLE_NUMBER)%nat)
  | _ => True
  end.

Definition on_sqlite (s : BufState) : bool := match table s with Some d => negb (is_postgres d) | None => false end.

(** The chunk size stored in the loop is positive and respects the limit; the loop returns
    only when the queue is empty and its sender gone. *)
Definition phase_ok (sqlite : bool) (s : BufState) : Prop :=
  match phase s with
  | Flushing chunk _ => (1 <= chunk)%nat /\ is_Some (table s) /\
      (sqlite = true -> (chunk * num_columns <= SQLITE_MAX_VARIABLE_NUMBER)%nat)
  | Exited => channel (sender s) = [] /\ tx (sender s) = false
  | _ => True
  end.

Definition bounded (s : BufState) : Prop := (length (channel (sender s)) <= cap (sender s))%nat.

Context (columns : (1 <= num_columns <= SQLITE_MAX_VARIABLE_NUMBER)%nat).
Context {conflict : Row -> Row -> bool} {laws : TableLaws ops conflict}.
(** A statement does not change the kind of the database. *)
Context (backend_stable : forall (d d' : D) sub r, insert_many sub d = (d', r) -> is_postgres d' = is_postgres d).

Lemma chunk_size_of_ok sqlite total :
  (1 <= total)%nat ->
  (1 <= chunk_size_of sqlite total)%nat /\
  (sqlite = true -> (chunk_size_of sqlite total * num_columns <= SQLITE_MAX_VARIABLE_NUMBER)%nat).
Proof using columns.
  intros Ht. unfold chunk_size_of. rewrite (Nat.max_l num_columns 1) by lia. destruct sqlite; [|done].
  assert (1 <= SQLITE_MAX_VARIABLE_NUMBER / num_columns)%nat as H1.
  { apply Nat.div_le_lower_bound; lia. }
  pose proof (Nat.Div0.mul_div_le SQLITE_MAX_VARIABLE_NUMBER num_columns) as H2.
  split; [lia|]. intros _. nia.
Qed.

(** What a step does to the models it meets. *)
Record step_ok (s : BufState) (l : list (BufEvent Row)) (s' : BufState) : Prop := {
  so_order : pending s ++ flat_map accepted_of l = flat_map settled_of l ++ pending s';
  so_rows : table_rows s' ≡ₚ flat_map stored_of l ++ table_rows s;
  so_stored : Forall (fun ev => match ev with Inserted sub r =>
                Forall2 (fun mk x => exists i, in_i64 i /\ x = mk i) sub r | _ => True end) l;
  so_fits : Forall (fits (on_sqlite s)) l;
  so_backend : on_sqlite s' = on_sqlite s;
  so_phase : phase_ok (on_sqlite s') s';
  so_bounded : bounded s' }.

Lemma flush_start_ok buf s :
  phase s = Draining buf -> bounded s -> step_ok s (flush_start buf s).2 (flush_start buf s).1.
Proof using columns.
  intros Hp Hb. unfold flush_start. destruct buf as [|x buf]; [|destruct (table s) as [d|] eqn:Et]; simpl.
  - split; unfold pending; simpl; rewrite ?Hp, ?app_nil_r; try done; by constructor.
  - split; unfold pending, on_sqlite, table_rows, phase_ok; simpl; rewrite ?Hp, ?Et, ?app_nil_r; try done.
    destruct (chunk_size_of_ok (negb (is_postgres d)) (S (length buf))) as [H1 H2]; [lia|]. by split_and!.
  - split; unfold pending, on_sqlite, table_rows; simpl; rewrite ?Hp, ?Et, ?app_nil_r; try done; by repeat constructor.
Qed.

Lemma flush_chunk_ok chunk batch s :
  phase s = Flushing chunk batch -> phase_ok (on_sqlite s) s -> bounded s ->
  step_ok s (flush_chunk chunk batch s).2 (flush_chunk chunk batch s).1.
Proof using laws backend_stable columns.
  intros Hp Hok Hb. unfold phase_ok in Hok. rewrite Hp in Hok. destruct Hok as (H1 & [d Hd] & H2).
  unfold flush_chunk. destruct batch as [|x batch].
  { split; unfold pending; simpl; rewrite ?Hp, ?app_nil_r; try done; by constructor. }
  rewrite Hd. set (b := x :: batch) in *. set (n := Nat.min chunk (length b)).
  destruct (insert_many (take n b) d) as [d' r] eqn:Ei. pose proof (backend_stable _ _ _ _ Ei) as Hpg.
  assert (1 <= length (take n b))%nat as Hlen by (rewrite length_take; unfold n, b; simpl; lia).
  assert (length (take n b) <= chunk)%nat as Hle by (rewrite length_take; unfold n; lia).
  assert (on_sqlite s = negb (is_postgres d)) as Hs by (unfold on_sqlite; by rewrite Hd).
  split; simpl; unfold on_sqlite, phase_ok, table_rows; simpl; rewrite ?Hd, ?Hpg.
  - unfold pending. rewrite Hp. destruct r; cbn [flat_map accepted_of settled_of in_flight phase sender];
      by rewrite !app_nil_r, app_assoc, take_drop.
  - destruct r as [l|err]; simpl.
    + apply insert_many_ok in Ei as [Hr _]. by rewrite app_nil_r.
    + by apply insert_many_err in Ei as ->.
  - constructor; [|done]. destruct r; [|done]. by apply insert_many_ok in Ei as [_ ?].
  - constructor; [|done]. rewrite Hs in H2. destruct r; simpl; (split; [done|]); intros Hsq; specialize (H2 Hsq); nia.
  - done.
  - split_and!; [done|done|]. by rewrite <-Hs.
  - done.
Qed.

Lemma sender_step_ok s b l :
  phase_ok (on_sqlite s) s -> flat_map settled_of l = [] -> flat_map stored_of l = [] ->
  Forall (fits (on_sqlite s)) l -> Forall (fun ev => match ev with Inserted _ _ => False | _ => True end) l ->
  channel b = channel (sender s) ++ flat_map accepted_of l -> (length (channel b) <= cap b)%nat ->
  (tx (sender s) = false -> tx b = false /\ flat_map accepted_of l = []) ->
  step_ok s l (with_sender b s).
Proof using.
  intros Hp Hs Hst Hf Hni Hc Hb Htx. split; try done.
  - unfold pending. simpl. rewrite Hs, Hc. simpl. by rewrite <-app_assoc.
  - by rewrite Hst.
  - eapply Forall_impl; [|exact Hni]. by intros [].
  - unfold phase_ok in *. simpl. destruct (phase s); try done. destruct Hp as [Hch Ht].
    destruct (Htx Ht) as [Ht' Ha]. by rewrite Hc, Hch, Ha.
Qed.

Lemma bstep_ok s l s' : phase_ok (on_sqlite s) s -> bounded s -> bstep s l s' -> step_ok s l s'.
Proof using columns laws backend_stable.
  intros Hp Hb Hstep. destruct Hstep as [x s|x s Hc|s|s Hc|s].
  - unfold send_locked. destruct (tx (sender s)) eqn:Et; simpl; [destruct (length (channel (sender s)) <? cap (sender s))%nat eqn:E|];
      apply sender_step_ok; simpl; rewrite ?app_nil_r; try done; try congruence; try by repeat constructor.
    rewrite length_app. simpl. apply Nat.ltb_lt in E. lia.
  - assert (step_ok s [Refused x] (with_sender (sender s) s)) as H;
      [|by destruct s as [[]]].
    apply sender_step_ok; simpl; rewrite ?app_nil_r; try done; by repeat constructor.
  - apply sender_step_ok; simpl; rewrite ?app_nil_r; try done; by repeat constructor.
  - apply sender_step_ok; simpl; rewrite ?app_nil_r; try done; by repeat constructor.
  - unfold loop_step. unfold bounded in Hb.
    assert (forall ch p, in_flight (phase s) ++ channel (sender s) = in_flight p ++ ch ->
      (length ch <= cap (sender s))%nat ->
      match p with Flushing _ _ => False | Exited => ch = [] /\ tx (sender s) = false | _ => True end ->
      step_ok s [] {| sender := set_channel ch (sender s); phase := p; table := table s |}) as Hgoto.
    { intros ch p Hio Hlen Hnf. split; try done; unfold pending; simpl; rewrite ?app_nil_r; try done.
      unfold phase_ok. simpl. by destruct p. }
    destruct (phase s) as [|buf|chunk batch|] eqn:Ep.
    + destruct (channel (sender s)) as [|x ch] eqn:Ec; [destruct (tx (sender s))|];
        apply Hgoto; simpl in *; try done; lia.
    + destruct (length buf <? max_batch_size)%nat; [|by apply flush_start_ok].
      destruct (channel (sender s)) as [|x ch] eqn:Ec; [apply flush_start_ok; [done|]; unfold bounded; by rewrite Ec|].
      apply Hgoto; simpl in *; [by rewrite <-app_assoc|lia|done].
    + by apply flush_chunk_ok.
    + simpl. split; try done; unfold pending; rewrite ?app_nil_r; done.
Qed.

(** Stored rows are the models of the statement with the keys they got. *)
Definition keyed (ev : BufEvent Row) : Prop :=
  match ev with Inserted sub r => Forall2 (fun mk x => exists i, in_i64 i /\ x = mk i) sub r | _ => True end.

(** What holds of a run. *)
Definition run_ok (s : BufState) (l : list (BufEvent Row)) (s' : BufState) : Prop :=
  pending s ++ flat_map accepted_of l = flat_map settled_of l ++ pending s' /\
  table_rows s' ≡ₚ flat_map stored_of l ++ table_rows s /\
  Forall keyed l /\ Forall (fits (on_sqlite s)) l.

(** The steps compose. *)
Lemma bsteps_ok s l s' :
  phase_ok (on_sqlite s) s -> bounded s -> bsteps s l s' ->
  run_ok s l s' /\ phase_ok (on_sqlite s') s' /\ bounded s' /\ on_sqlite s' = on_sqlite s.
Proof using columns laws backend_stable.
  unfold run_ok. intros Hp Hb Hsteps. induction Hsteps as [s|s1 s2 s3 l1 l2 H1 _ IH].
  { rewrite !app_nil_r. by split_and!. }
  apply bstep_ok in H1 as [Ho Hr Hk1 Hf Hk Hp2 Hb2]; [|done|done].
  destruct (IH Hp2 Hb2) as ((Ho' & Hr' & Hk1' & Hf') & Hp3 & Hb3 & Hk'). rewrite !flat_map_app.
  split_and!; [|by rewrite Hr', Hr, <-app_assoc, Permutation_app_swap_app| | |done|done|congruence].
  - rewrite app_assoc, Ho, <-!app_assoc, Ho'. by rewrite app_assoc.
  - apply Forall_app. by split.
  - apply Forall_app. split; [done|]. by rewrite Hk in Hf'.
Qed.

(** C38: whatever order report methods, the closing of the queue and the flush loop act in,
    no model is lost silently, duplicated or overtaken: the models taken into the queue
    are, in this order, those a statement was issued for (or that were given up for
    lack of a database) followed by those in the loop and in the queue; the table has
    gained exactly the models of the successful statements; at most [cap] models wait,
    and no statement needs more parameters than SQLite allows. *)
Theorem buffer_conserves capacity t l s :
  bsteps (init_buffer capacity t) l s ->
  flat_map accepted_of l = flat_map settled_of l ++ pending s /\
  table_rows s ≡ₚ flat_map stored_of l ++ match t with Some d => rows d | None => [] end /\
  Forall keyed l /\ Forall (fits (on_sqlite (init_buffer capacity t))) l /\
  (length (channel (sender s)) <= cap (sender s))%nat.
Proof using columns laws backend_stable.
  intros H. apply bsteps_ok in H as ((Ho & Hr & Hk & Hf) & _ & Hb & _); [|done|unfold bounded; simpl; lia].
  by split_and!.
Qed.

(** ** Shutting down *)

Fixpoint loop_run (n : nat) (s : BufState) : BufState * list (BufEvent Row) :=
  match n with
  | O => (s, [])
  | S n' => let '(s1, l1) := loop_step s in let '(s2, l2) := loop_run n' s1 in (s2, l1 ++ l2)
  end.

Lemma loop_run_steps n : forall s, bsteps s (loop_run n s).2 (loop_run n s).1.
Proof using.
  induction n as [|n IH]; intros s; simpl; [constructor|].
  pose proof (bstep_loop s) as Hs. destruct (loop_step s) as [s1 l1]. specialize (IH s1).
  destruct (loop_run n s1) as [s2 l2]. econstructor; [exact Hs|exact IH].
Qed.

Lemma loop_step_accepts s : flat_map accepted_of (loop_step s).2 = [].
Proof using.
  unfold loop_step. destruct (phase s) as [|buf|chunk batch|].
  - by destruct (channel (sender s)), (tx (sender s)).
  - destruct (_ <? _)%nat, (channel (sender s)), buf; unfold flush_start; by destruct (table s).
  - unfold flush_chunk. destruct batch, (table s); try done. by destruct (insert_many _ _) as [? []].
  - done.
Qed.

Lemma loop_run_accepts k : forall s, flat_map accepted_of (loop_run k s).2 = [].
Proof using.
  induction k as [|k IH]; intros s; simpl; [done|]. pose proof (loop_step_accepts s) as H1.
  destruct (loop_step s) as [s1 l1]. specialize (IH s1). destruct (loop_run k s1). simpl in *.
  by rewrite flat_map_app, H1, IH.
Qed.

(** A model has to leave the queue, the collection and the batch. *)
Definition work (s : BufState) : nat :=
  5 * length (channel (sender s)) +
  match phase s with
  | Waiting => 1
  | Draining buf => 2 * length buf + 3
  | Flushing _ batch => length batch + 2
  | Exited => 0
  end.

Lemma flush_start_work buf s :
  phase s = Draining buf ->
  (work (flush_start buf s).1 < work s)%nat /\ sender (flush_start buf s).1 = sender s.
Proof using columns.
  intros Hp. unfold work. rewrite Hp. unfold flush_start.
  destruct buf as [|x buf], (table s); simpl; split; try done; lia.
Qed.

Lemma loop_step_work s :
  phase_ok (on_sqlite s) s -> tx (sender s) = false -> phase s <> Exited ->
  (work (loop_step s).1 < work s)%nat /\ tx (sender (loop_step s).1) = false.
Proof using columns.
  intros Hok Htx He. unfold loop_step. destruct (phase s) as [|buf|chunk batch|] eqn:Ep; [| | |done].
  - unfold work. rewrite Ep. destruct (channel (sender s)) as [|x ch]; rewrite ?Htx; simpl; split; try done; lia.
  - destruct (flush_start_work buf s Ep) as [Hw Hs].
    destruct (length buf <? max_batch_size)%nat; [|by rewrite Hs].
    destruct (channel (sender s)) as [|x ch] eqn:Ec; [by rewrite Hs|].
    unfold work. rewrite Ep, Ec. simpl. rewrite length_app. simpl. split; [lia|done].
  - unfold phase_ok in Hok. rewrite Ep in Hok. destruct Hok as (H1 & [d Hd] & _).
    unfold flush_chunk, work. rewrite Ep. destruct batch as [|x batch]; [simpl; split; [lia|done]|]. rewrite Hd.
    destruct (insert_many _ d) as [d' r]. cbn [fst phase sender tx channel]. split; [|done].
    rewrite length_drop. cbn [length]. lia.
Qed.

Lemma loop_run_exits n : forall s,
  phase_ok (on_sqlite s) s -> bounded s -> tx (sender s) = false -> (work s <= n)%nat ->
  exists k, (k <= work s)%nat /\ phase (loop_run k s).1 = Exited /\ channel (sender (loop_run k s).1) = [].
Proof using columns laws backend_stable.
  induction n as [|n IH]; intros s Hok Hb Htx Hn.
  - exists 0%nat. unfold work in *. simpl. destruct (phase s); try lia. split_and!; [lia|done|].
    destruct (channel (sender s)); [done|simpl in *; lia].
  - destruct (decide (work s = 0%nat)) as [Hz|Hz].
    { exists 0%nat. unfold work in *. simpl. destruct (phase s); try lia. split_and!; [lia|done|].
      destruct (channel (sender s)); [done|simpl in *; lia]. }
    assert (phase s <> Exited) as He.
    { intros He. apply Hz. unfold work, phase_ok in *. rewrite He in *. by destruct Hok as [-> _]. }
    destruct (loop_step_work s Hok Htx He) as [Hw Htx'].
    pose proof (bstep_ok _ _ _ Hok Hb (bstep_loop s)) as Hstep.
    destruct (IH (loop_step s).1 (so_phase _ _ _ Hstep) (so_bounded _ _ _ Hstep) Htx') as (k & Hk & H1 & H2); [lia|].
    exists (S k). split; [lia|]. simpl. destruct (loop_step s) as [s1 l1]. simpl in *.
    by destruct (loop_run k s1).
Qed.

(** once the sender of a queue is gone, the loop returns after at most five steps per
    model still waiting and three more, by then a statement has been issued for every model
    ever taken in (or it was given up for lack of a database), and later sends change
    nothing. *)
Theorem shutdown_drains capacity t l s :
  bsteps (init_buffer capacity t) l s -> tx (sender s) = false ->
  exists k s' l', (k <= 5 * length (pending s) + 3)%nat /\ loop_run k s = (s', l') /\ phase s' = Exited /\
    flat_map settled_of (l ++ l') = flat_map accepted_of l /\
    forall x, (send_locked x (sender s')).1 = sender s'.
Proof using columns laws backend_stable.
  intros Hrun Htx. pose proof Hrun as Hrun'.
  apply bsteps_ok in Hrun as ((Ho & _) & Hok & Hb & _); [|done|unfold bounded; simpl; lia].
  destruct (loop_run_exits (work s) s Hok Hb Htx) as (k & Hk & He & Hc); [lia|].
  pose proof (loop_run_steps k s) as Hsteps. destruct (loop_run k s) as [s' l'] eqn:El. simpl in *.
  destruct (bsteps_ok s l' s' Hok Hb Hsteps) as ((Ho' & _) & Hok' & _).
  exists k, s', l'. split_and!; [|done|done| |].
  - unfold work, pending in *. rewrite length_app. destruct (phase s); simpl in *; lia.
  - pose proof (loop_run_accepts k s) as Ha. rewrite El in Ha. simpl in Ha.
    rewrite Ha, app_nil_r in Ho'. rewrite flat_map_app, Ho, Ho'. unfold pending. by rewrite He, Hc, app_nil_r.
  - intros x. unfold phase_ok in Hok'. rewrite He in Hok'. destruct Hok' as [_ Htx']. unfold send_locked. by rewrite Htx'.
Qed.
End buffer.

(** ** Settings *)

Record MonitoringBufferConfig : Type := {
  flush_interval_ms : option Z; cfg_max_batch_size : option nat; channel_capacity : option nat }.

(** The interval, batch size and capacity [init] uses. *)
Definition buffer_settings (config : option MonitoringBufferConfig) : Z * nat * nat :=
  (default DEFAULT_FLUSH_INTERVAL_MS (config ≫= flush_interval_ms),
   default DEFAULT_MAX_BATCH_SIZE (config ≫= cfg_max_batch_size),
   default DEFAULT_CHANNEL_CAPACITY (config ≫= channel_capacity)).

(** The number of columns [init] gives for each table. *)
Definition STATIC_COLUMNS : nat := 8.
Definition DYNAMIC_COLUMNS : nat := 11.
Definition SUMMARY_COLUMNS : nat := 27.

(** ** Examples *)

Definition tag_conflict (a b : Z * string) : bool := (a.1 =? b.1)%Z.
Lemma tag_conflict_sym a b : tag_conflict a b = tag_conflict b a.
Proof. apply Z.eqb_sym. Qed.
#[local] Instance tag_table : TableOps (ListTable (Z * string)) (Z * string) := ListTable_ops tag_conflict.
#[local] Instance tag_table_laws : TableLaws tag_table tag_conflict := ListTable_laws tag_conflict tag_conflict_sym.

Definition tagged (s : string) (i : Z) : Z * string := (i, s).

(** Two models arrive, the loop collects them, a third arrives, the queue is closed. *)
Definition tag_db : ListTable (Z * string) := {| tbl := []; next_id := 1; outages := [false; true] |}.
Definition b0 : BufState (D := ListTable (Z * string)) (Row := Z * string) := init_buffer 2 (Some tag_db).
Definition sent (x : string) (s : BufState) : BufState (D := ListTable (Z * string)) :=
  with_sender (send_locked (tagged x) (sender s)).1 s.
Definition b2 := sent "b" (sent "a" b0).
Definition b3 := (loop_step 2 27 b2).1.
Definition b4 := with_sender (close (sender (sent "c" b3))) (sent "c" b3).

Lemma b4_reached : bsteps 2 27 b0 [Accepted (tagged "a"); Accepted (tagged "b"); Accepted (tagged "c")] b4.
Proof.
  apply (bsteps_trans _ _ _ (sent "a" b0) _ [_]); [apply (bstep_send _ _ (tagged "a") b0)|].
  apply (bsteps_trans _ _ _ b2 _ [_]); [apply (bstep_send _ _ (tagged "b") (sent "a" b0))|].
  apply (bsteps_trans _ _ _ b3 _ []); [apply (bstep_loop _ _ b2)|].
  apply (bsteps_trans _ _ _ (sent "c" b3) _ [_]); [apply (bstep_send _ _ (tagged "c") b3)|].
  apply (bsteps_trans _ _ _ (with_sender (close_flag (sender (sent "c" b3))) (sent "c" b3)) _ []);
    [apply (bstep_close_flag _ _ (sent "c" b3))|].
  apply (bsteps_trans _ _ _ b4 _ []); [|constructor].
  by apply (bstep_close_take _ _ (with_sender (close_flag (sender (sent "c" b3))) (sent "c" b3))).
Qed.

Lemma tag_backend (d d' : ListTable (Z * string)) (sub : list (Z -> Z * string)) r :
  insert_many sub d = (d', r) -> is_postgres d' = is_postgres d.
Proof. done. Qed.

Lemma buffer_conserves_witness : map (fun mk => mk 0%Z) (pending b4) = map (fun mk => mk 0%Z) [tagged "a"; tagged "b"; tagged "c"].
Proof.
  destruct (buffer_conserves 2 27 ltac:(unfold SQLITE_MAX_VARIABLE_NUMBER; lia) (laws := tag_table_laws) tag_backend
              2 (Some tag_db) _ b4 b4_reached) as (H & _).
  simpl in H. by rewrite <-H.
Defined.

(** The second statement fails: its model is lost, the first two are stored. *)
Lemma shutdown_drains_witness : exists k, (k <= 18)%nat /\ phase (loop_run 2 27 k b4).1 = Exited.
Proof.
  destruct (shutdown_drains 2 27 ltac:(unfold SQLITE_MAX_VARIABLE_NUMBER; lia) (laws := tag_table_laws) tag_backend
              2 (Some tag_db) _ b4 b4_reached eq_refl) as (k & s' & l' & Hk & Hrun & He & _).
  exists k. split; [exact Hk|]. by rewrite Hrun.
Defined.

Example second_statement_fails :
  match (loop_run 2 27 18 b4).1 with
  | {| phase := Exited; table := Some d |} => map snd (rows d) = ["a"; "b"]%string
  | _ => False
  end.
Proof. reflexivity. Qed.
