(* ===== verification/LastCache.v ===== *)
(** * The latest monitoring values

    [ng-monitoring/src/monitoring_last_cache.rs] and the field names and scaling of
    [query.rs]: for every agent the last static, dynamic and summary report as JSON, kept
    together with its text.  [serde_json::to_string] is a parameter. *)
From Stdlib Require Import SpecFloat.
From stdpp Require Import base strings gmap list numbers.
From S2P Require Import Prelude Json Permission.

(** ** Binary64 numbers

    A float of a JSON number is its 64 bits; arithmetic is that of [SpecFloat]. *)

Definition f64 : Type := spec_float.
Definition f64_of_int (z : Z) : f64 := binary_normalize 53 1024 z 0 false.
Definition f64_div : f64 -> f64 -> f64 := SFdiv 53 1024.

Definition f64_to_bits (x : f64) : Z :=
  let sign (s : bool) := if s then (2 ^ 63)%Z else 0%Z in
  match x with
  | S754_zero s => sign s
  | S754_infinity s => (sign s + 2047 * 2 ^ 52)%Z
  | S754_nan => (2047 * 2 ^ 52 + 2 ^ 51)%Z
  | S754_finite s m e =>
      if (Zpos m <? 2 ^ 52)%Z then (sign s + Zpos m)%Z
      else (sign s + (e + 1075) * 2 ^ 52 + (Zpos m - 2 ^ 52))%Z
  end.

Definition f64_of_bits (b : Z) : f64 :=
  let s := (2 ^ 63 <=? b)%Z in
  let e := (b / 2 ^ 52 mod 2048)%Z in
  let m := (b mod 2 ^ 52)%Z in
  if (e =? 2047)%Z then (if (m =? 0)%Z then S754_infinity s else S754_nan)
  else if (e =? 0)%Z then match m with Zpos p => S754_finite s p (-1074) | _ => S754_zero s end
  else match (m + 2 ^ 52)%Z with Zpos p => S754_finite s p (e - 1075) | _ => S754_nan end.

(** [Number::from_f64]. *)
Definition number_from_f64 (x : f64) : option JNumber :=
  match x with
  | S754_infinity _ | S754_nan => None
  | _ => Some (NumFloat (f64_to_bits x))
  end.

Definition number_as_f64 (n : JNumber) : f64 :=
  match n with NumInt z => f64_of_int z | NumFloat b => f64_of_bits b end.

Definition SCALED_SUMMARY_COLUMNS : list string := ["cpu_usage"; "load_one"; "load_five"; "load_fifteen"]%string.

Definition descale_value (v : Json) : Json :=
  match v with
  | JNum n => match number_from_f64 (f64_div (number_as_f64 n) (f64_of_int 10)) with
              | Some scaled => JNum scaled
              | None => v
              end
  | _ => v
  end.

Definition apply_descaling_to_json_object (obj : list (string * Json)) : list (string * Json) :=
  fold_left (fun o key => assoc_alter descale_value key o) SCALED_SUMMARY_COLUMNS obj.

Example descale_505 : descale_value (JNum (NumInt 505)) = JNum (NumFloat 0x4049400000000000).
Proof. vm_compute. reflexivity. Qed.

(** ** Field names *)

Definition static_json_key (f : StaticDataQueryField) : string :=
  match f with SField_Cpu => "cpu" | SField_System => "system" | SField_Gpu => "gpu" end.

Definition dynamic_json_key (f : DynamicDataQueryField) : string :=
  match f with
  | DField_Cpu => "cpu" | DField_Ram => "ram" | DField_Load => "load" | DField_System => "system"
  | DField_Disk => "disk" | DField_Network => "network" | DField_Gpu => "gpu"
  end.

Inductive DynamicSummaryQueryField : Type :=
| Sum_CpuUsage | Sum_GpuUsage | Sum_UsedSwap | Sum_TotalSwap | Sum_UsedMemory
| Sum_TotalMemory | Sum_AvailableMemory | Sum_LoadOne | Sum_LoadFive | Sum_LoadFifteen
| Sum_Uptime | Sum_BootTime | Sum_ProcessCount | Sum_TotalSpace | Sum_AvailableSpace
| Sum_ReadSpeed | Sum_WriteSpeed | Sum_TcpConnections | Sum_UdpConnections | Sum_TotalReceived
| Sum_TotalTransmitted | Sum_TransmitSpeed | Sum_ReceiveSpeed.

Definition summary_json_key (f : DynamicSummaryQueryField) : string :=
  match f with
  | Sum_CpuUsage => "cpu_usage" | Sum_GpuUsage => "gpu_usage" | Sum_UsedSwap => "used_swap"
  | Sum_TotalSwap => "total_swap" | Sum_UsedMemory => "used_memory" | Sum_TotalMemory => "total_memory"
  | Sum_AvailableMemory => "available_memory" | Sum_LoadOne => "load_one" | Sum_LoadFive => "load_five"
  | Sum_LoadFifteen => "load_fifteen" | Sum_Uptime => "uptime" | Sum_BootTime => "boot_time"
  | Sum_ProcessCount => "process_count" | Sum_TotalSpace => "total_space" | Sum_AvailableSpace => "available_space"
  | Sum_ReadSpeed => "read_speed" | Sum_WriteSpeed => "write_speed" | Sum_TcpConnections => "tcp_connections"
  | Sum_UdpConnections => "udp_connections" | Sum_TotalReceived => "total_received" | Sum_TotalTransmitted => "total_transmitted"
  | Sum_TransmitSpeed => "transmit_speed" | Sum_ReceiveSpeed => "receive_speed"
  end.

Definition is_scaled (f : DynamicSummaryQueryField) : bool :=
  bool_decide (summary_json_key f ∈ SCALED_SUMMARY_COLUMNS).

(** ** The reports *)

Record DynamicMonitoringSummaryData : Type := {
  su_uuid : Uuid; su_time : Z;
  su_cpu_usage : option Z; su_gpu_usage : option Z; su_used_swap : option Z;
  su_total_swap : option Z; su_used_memory : option Z; su_total_memory : option Z;
  su_available_memory : option Z; su_load_one : option Z; su_load_five : option Z;
  su_load_fifteen : option Z; su_uptime : option Z; su_boot_time : option Z;
  su_process_count : option Z; su_total_space : option Z; su_available_space : option Z;
  su_read_speed : option Z; su_write_speed : option Z; su_tcp_connections : option Z;
  su_udp_connections : option Z; su_total_received : option Z; su_total_transmitted : option Z;
  su_transmit_speed : option Z; su_receive_speed : option Z; }.

(** ** The cache *)

Record CachedEntry : Type := { ce_value : Json; ce_serialized : option string }.

Record MonitoringLastCache : Type := {
  static_cache : gmap Uuid CachedEntry;
  dynamic_cache : gmap Uuid CachedEntry;
  dynamic_summary_cache : gmap Uuid CachedEntry }.

Definition new_last_cache : MonitoringLastCache :=
  {| static_cache := ∅; dynamic_cache := ∅; dynamic_summary_cache := ∅ |}.

Definition build_filtered_map (full_obj : list (string * Json)) (extra_keys : list string) : Json :=
  let copy k o := match assoc k full_obj with Some v => assoc_insert k v o | None => o end in
  JObject (fold_left (fun o key =>
             if negb (String.eqb key "uuid") && negb (String.eqb key "timestamp") then copy key o else o)
             extra_keys (copy "timestamp" (copy "uuid" [])))%string.

Section cache.
(** [serde_json::to_string] and [impl Display for Uuid]. *)
Variables (to_string : Json -> option string) (uuid_display : Uuid -> string).

Definition new_entry (value : Json) : CachedEntry := {| ce_value := value; ce_serialized := to_string value |}.

(** The text of a summary is that of the descaled value; the value is kept as it is. *)
Definition new_summary (value : Json) : CachedEntry :=
  let descaled := match value with JObject o => JObject (apply_descaling_to_json_object o) | v => v end in
  {| ce_value := value; ce_serialized := to_string descaled |}.

Definition update_static_prebuilt (uuid : Uuid) (value : Json) (c : MonitoringLastCache) : MonitoringLastCache :=
  {| static_cache := <[uuid := new_entry value]> (static_cache c);
     dynamic_cache := dynamic_cache c; dynamic_summary_cache := dynamic_summary_cache c |}.
Definition update_dynamic_prebuilt (uuid : Uuid) (value : Json) (c : MonitoringLastCache) : MonitoringLastCache :=
  {| static_cache := static_cache c; dynamic_cache := <[uuid := new_entry value]> (dynamic_cache c);
     dynamic_summary_cache := dynamic_summary_cache c |}.
Definition update_dynamic_summary_prebuilt (uuid : Uuid) (value : Json) (c : MonitoringLastCache) : MonitoringLastCache :=
  {| static_cache := static_cache c; dynamic_cache := dynamic_cache c;
     dynamic_summary_cache := <[uuid := new_summary value]> (dynamic_summary_cache c) |}.

Definition get_static_last (c : MonitoringLastCache) (uuid : Uuid) (fields : list StaticDataQueryField) : option Json :=
  entry ← static_cache c !! uuid; full_obj ← as_object (ce_value entry);
  Some (build_filtered_map full_obj (map static_json_key fields)).
Definition get_dynamic_last (c : MonitoringLastCache) (uuid : Uuid) (fields : list DynamicDataQueryField) : option Json :=
  entry ← dynamic_cache c !! uuid; full_obj ← as_object (ce_value entry);
  Some (build_filtered_map full_obj (map dynamic_json_key fields)).
Definition get_dynamic_summary_last (c : MonitoringLastCache) (uuid : Uuid) (fields : list DynamicSummaryQueryField) :
    option Json :=
  entry ← dynamic_summary_cache c !! uuid;
  match fields with
  | [] => Some (ce_value entry)
  | _ => full_obj ← as_object (ce_value entry); Some (build_filtered_map full_obj (map summary_json_key fields))
  end.

Definition get_static_last_raw (c : MonitoringLastCache) (uuid : Uuid) : option string :=
  static_cache c !! uuid ≫= ce_serialized.
Definition get_dynamic_last_raw (c : MonitoringLastCache) (uuid : Uuid) : option string :=
  dynamic_cache c !! uuid ≫= ce_serialized.
Definition get_dynamic_summary_last_raw (c : MonitoringLastCache) (uuid : Uuid) : option string :=
  dynamic_summary_cache c !! uuid ≫= ce_serialized.

(** ** Building the values *)

(** [obj.insert(k, v)] in order. *)
Definition object_of (l : list (string * Json)) : Json := JObject (fold_left (fun o '(k, v) => assoc_insert k v o) l []).

Definition value_head (uuid : Uuid) (timestamp : Z) : list (string * Json) :=
  [("uuid"%string, JString (uuid_display uuid)); ("timestamp"%string, JNum (NumInt timestamp))].

Definition build_static_value_prebuilt (uuid : Uuid) (timestamp : Z) (cpu system gpu : Json) : Json :=
  object_of (value_head uuid timestamp ++ [("cpu", cpu); ("system", system); ("gpu", gpu)]%string).

Definition build_dynamic_value_prebuilt (uuid : Uuid) (timestamp : Z)
    (cpu ram load system disk network gpu : Json) : Json :=
  object_of (value_head uuid timestamp ++
    [("cpu", cpu); ("ram", ram); ("load", load); ("system", system); ("disk", disk); ("network", network);
     ("gpu", gpu)]%string).

Definition opt_field (key : string) (v : option Z) : list (string * Json) :=
  match v with Some z => [(key, JNum (NumInt z))] | None => [] end.

(** The value of a field of the summary. *)
Definition summary_field (data : DynamicMonitoringSummaryData) (f : DynamicSummaryQueryField) : option Z :=
  match f with
  | Sum_CpuUsage => su_cpu_usage data | Sum_GpuUsage => su_gpu_usage data
  | Sum_UsedSwap => su_used_swap data | Sum_TotalSwap => su_total_swap data
  | Sum_UsedMemory => su_used_memory data | Sum_TotalMemory => su_total_memory data
  | Sum_AvailableMemory => su_available_memory data | Sum_LoadOne => su_load_one data
  | Sum_LoadFive => su_load_five data | Sum_LoadFifteen => su_load_fifteen data
  | Sum_Uptime => su_uptime data | Sum_BootTime => su_boot_time data
  | Sum_ProcessCount => su_process_count data | Sum_TotalSpace => su_total_space data
  | Sum_AvailableSpace => su_available_space data | Sum_ReadSpeed => su_read_speed data
  | Sum_WriteSpeed => su_write_speed data | Sum_TcpConnections => su_tcp_connections data
  | Sum_UdpConnections => su_udp_connections data | Sum_TotalReceived => su_total_received data
  | Sum_TotalTransmitted => su_total_transmitted data | Sum_TransmitSpeed => su_transmit_speed data
  | Sum_ReceiveSpeed => su_receive_speed data
  end.

(** The fields in the order they are inserted. *)
Definition summary_fields : list DynamicSummaryQueryField :=
  [Sum_CpuUsage; Sum_GpuUsage; Sum_UsedSwap; Sum_TotalSwap; Sum_UsedMemory;
   Sum_TotalMemory; Sum_AvailableMemory; Sum_LoadOne; Sum_LoadFive; Sum_LoadFifteen;
   Sum_Uptime; Sum_BootTime; Sum_ProcessCount; Sum_TotalSpace; Sum_AvailableSpace;
   Sum_ReadSpeed; Sum_WriteSpeed; Sum_TcpConnections; Sum_UdpConnections; Sum_TotalReceived;
   Sum_TotalTransmitted; Sum_TransmitSpeed; Sum_ReceiveSpeed].

Definition build_dynamic_summary_value (uuid : Uuid) (timestamp : Z) (data : DynamicMonitoringSummaryData) : Json :=
  object_of (value_head uuid timestamp ++
    flat_map (fun f => opt_field (summary_json_key f) (summary_field data f)) summary_fields).
End cache.

(** ** What is read back *)

Lemma insert_all_lookup (l : list (string * Json)) k : forall o,
  NoDup (map fst l) ->
  assoc k (fold_left (fun o '(k, v) => assoc_insert k v o) l o) =
  match assoc k l with Some v => Some v | None => assoc k o end.
Proof.
  induction l as [|[k1 v1] l IH]; intros o Hnd; simpl; [done|]. apply list.NoDup_cons in Hnd as [Hn Hnd].
  rewrite IH, assoc_insert_lookup by done. destruct (String.eqb_spec k k1) as [->|Hne].
  - rewrite String.eqb_refl. replace (assoc k1 l) with (@None Json); [done|].
    clear -Hn. induction l as [|[k2 v2] l IH]; [done|]. simpl in *. apply not_elem_of_cons in Hn as [Hne Hn].
    destruct (String.eqb_spec k1 k2); [done|auto].
  - destruct (String.eqb_spec k1 k); [congruence|done].
Qed.

Lemma object_of_lookup l k : NoDup (map fst l) -> exists o, object_of l = JObject o /\ assoc k o = assoc k l.
Proof.
  intros Hnd. eexists. split; [reflexivity|]. rewrite insert_all_lookup by done. by destruct (assoc k l).
Qed.

Definition base_key (k : string) : Prop := k = "uuid"%string \/ k = "timestamp"%string.
#[global] Instance base_key_dec k : Decision (base_key k).
Proof. unfold base_key. apply _. Defined.

(** A filtered value has the two base keys and the requested ones, as far as the full one has them. *)
Lemma filtered_lookup full keys k :
  exists o, build_filtered_map full keys = JObject o /\
    assoc k o = if decide (base_key k \/ k ∈ keys) then assoc k full else None.
Proof.
  eexists. split; [reflexivity|].
  set (copy := fun k o => match assoc k full with Some v => assoc_insert k v o | None => o end).
  assert (Hcopy : forall k k' o, assoc k' (copy k o) =
    if String.eqb k k' then match assoc k full with Some v => Some v | None => assoc k' o end else assoc k' o).
  { intros a b o. unfold copy. destruct (assoc a full); [apply assoc_insert_lookup|by destruct (String.eqb a b)]. }
  set (add := fun o key => if negb (String.eqb key "uuid") && negb (String.eqb key "timestamp") then copy key o else o).
  assert (Hbase : base_key k -> forall l o, assoc k (fold_left add l o) = assoc k o).
  { intros Hb. induction l as [|a l IH]; intros o; cbn [fold_left]; [done|]. rewrite IH. unfold add.
    destruct (String.eqb_spec a "uuid") as [|Hu]; [done|]. destruct (String.eqb_spec a "timestamp") as [|Ht]; [done|].
    simpl. rewrite Hcopy. destruct (String.eqb_spec a k) as [->|]; [|done]. by destruct Hb. }
  assert (Hextra : ~ base_key k -> forall l o, assoc k (fold_left add l o) =
    if decide (k ∈ l) then match assoc k full with Some v => Some v | None => assoc k o end else assoc k o).
  { intros Hb. induction l as [|a l IH]; intros o; cbn [fold_left].
    { case_decide as H; [by apply not_elem_of_nil in H|done]. }
    assert (assoc k (add o a) = if decide (k = a) then match assoc k full with Some v => Some v | None => assoc k o end
                                else assoc k o) as Ha.
    { unfold add. destruct (String.eqb_spec a "uuid") as [->|Hu]; simpl.
      { rewrite decide_False; [done|]. intros ->. apply Hb. by left. }
      destruct (String.eqb_spec a "timestamp") as [->|Ht]; simpl.
      { rewrite decide_False; [done|]. intros ->. apply Hb. by right. }
      rewrite Hcopy. destruct (String.eqb_spec a k) as [->|Hne]; [by rewrite decide_True|by rewrite decide_False]. }
    rewrite IH, Ha. destruct (decide (k = a)) as [->|Hne].
    - rewrite (decide_True (P := a ∈ a :: l)) by (by left). case_decide; by destruct (assoc a full).
    - destruct (decide (k ∈ l)) as [Hl|Hl]; [rewrite decide_True by (by right); done|].
      rewrite decide_False; [done|]. by intros [?|?]%elem_of_cons. }
  change (assoc k (fold_left add keys (copy "timestamp" (copy "uuid" [])))%string =
          if decide (base_key k \/ k ∈ keys) then assoc k full else None).
  destruct (decide (base_key k)) as [Hb|Hb].
  - rewrite Hbase, decide_True by auto. rewrite !Hcopy.
    destruct Hb as [->| ->]; simpl; by destruct (assoc _ full).
  - rewrite Hextra, !Hcopy by done.
    destruct (String.eqb_spec "timestamp" k) as [<-|_]; [by destruct Hb; right|].
    destruct (String.eqb_spec "uuid" k) as [<-|_]; [by destruct Hb; left|]. simpl.
    destruct (decide (k ∈ keys)); [rewrite decide_True by auto|rewrite decide_False by tauto; done].
    by destruct (assoc k full).
Qed.
