(* ===== verification/Reports.v ===== *)
(** * Receiving monitoring reports

    [report_static], [report_dynamic] and [report_dynamic_summary] of
    [ng-monitoring/src/rpc/agent] with [static_hash_cache.rs]: authorise, find the number of the
    agent, remember the latest value, drop repeated static reports and hand the rest to
    the write buffers and the traffic statistics.  How serde renders the parts of a report is
    a parameter. *)
From stdpp Require Import base strings gmap list numbers.
From S2P Require Import Prelude Errors Json Db Permission TokenCache Concrete TokenCheck KvAuth UuidCache Traffic Buffer LastCache.

(** ** Rows *)

Record StaticRow : Type := {
  sr_id : Z; sr_uuid_id : Z; sr_timestamp : Z; sr_storage_time : option Z;
  sr_cpu_data : Json; sr_system_data : Json; sr_gpu_data : Json; sr_data_hash : list Z }.

Record DynamicRow : Type := {
  dr_id : Z; dr_uuid_id : Z; dr_timestamp : Z; dr_storage_time : option Z;
  dr_cpu_data : Json; dr_ram_data : Json; dr_load_data : Json; dr_system_data : Json;
  dr_disk_data : Json; dr_network_data : Json; dr_gpu_data : Json }.

(** The columns of the summary are the fields of the report. *)
Record SummaryRow : Type := {
  mr_id : Z; mr_uuid_id : Z; mr_timestamp : Z; mr_storage_time : option Z;
  mr_column : DynamicSummaryQueryField -> option Z }.

(** The primary key and the unique index on [(uuid_id, data_hash)]. *)
Definition static_conflict (a b : StaticRow) : bool :=
  (sr_id a =? sr_id b)%Z ||
  (sr_uuid_id a =? sr_uuid_id b)%Z && bool_decide (sr_data_hash a = sr_data_hash b).

(** ** The hash of the last static report *)

Notation StaticHashCache := (gmap Z (list Z)).

Definition truncate_to_16 (bytes : list Z) : list Z := take 16 bytes ++ replicate (16 - length bytes) 0%Z.

Definition is_duplicate (c : StaticHashCache) (uuid_id : Z) (data_hash : list Z) : bool :=
  match c !! uuid_id with
  | Some cached => bool_decide (cached = truncate_to_16 data_hash)
  | None => false
  end.

Definition update_hash (uuid_id : Z) (data_hash : list Z) (c : StaticHashCache) : StaticHashCache :=
  <[uuid_id := truncate_to_16 data_hash]> c.

(** ** State *)

Record MonitoringBuffers : Type := {
  static_mon : BufferSender (Z -> StaticRow);
  dynamic_mon : BufferSender (Z -> DynamicRow);
  dynamic_summary : BufferSender (Z -> SummaryRow) }.

Definition init_buffers (config : option MonitoringBufferConfig) : MonitoringBuffers :=
  let '(_, _, capacity) := buffer_settings config in
  {| static_mon := new_sender capacity; dynamic_mon := new_sender capacity; dynamic_summary := new_sender capacity |}.

(** The globals the methods reach; each may not be set up. *)
Record IngestWorld (U S : Type) : Type := {
  iw_uuid : UuidWorld U;
  iw_last : option MonitoringLastCache;
  iw_hash : option StaticHashCache;
  iw_buffers : option MonitoringBuffers;
  iw_traffic : option State;
  iw_static : option S }.
Arguments iw_uuid {U S}. Arguments iw_last {U S}. Arguments iw_hash {U S}.
Arguments iw_buffers {U S}. Arguments iw_traffic {U S}. Arguments iw_static {U S}.

Inductive ReportStatus : Type := Buffered | SkippedDuplicateHash.

Section reports.
Context {Part : Type} (part_to_value : Part -> result string Json).
Variables (to_string : Json -> option string) (uuid_display : Uuid -> string).
Context {crypto : Crypto} {serde : Serde}.
Context {U S : Type} {uops : TableOps U UuidModel} {sops : TableOps S StaticRow}.
Variable e : Env.

#[local] Notation W := (IngestWorld U S).
#[local] Notation Im := (M W anyhow).

(** [StaticMonitoringData] and [DynamicMonitoringData]: a part is rendered by serde as a whole;
    of the system and network parts the traffic statistics read the fields listed last. *)
Record StaticMonitoringData : Type := {
  sd_uuid : Uuid; sd_time : Z; sd_data_hash : list Z; sd_cpu : Part; sd_system : Part; sd_gpu : Part }.
Record DynamicMonitoringData : Type := {
  dd_uuid : Uuid; dd_time : Z; dd_cpu : Part; dd_ram : Part; dd_load : Part; dd_system : Part;
  dd_disk : Part; dd_network : Part; dd_gpu : Part;
  dd_boot_id : option string; dd_uptime : Z; dd_interfaces : list Interface }.

Definition traffic_report (d : DynamicMonitoringData) : Report :=
  {| rp_time := dd_time d; rp_boot_id := dd_boot_id d; rp_uptime := dd_uptime d; rp_interfaces := dd_interfaces d |}.

Definition set_uuid (x : UuidWorld U) (w : W) : W :=
  {| iw_uuid := x; iw_last := iw_last w; iw_hash := iw_hash w; iw_buffers := iw_buffers w;
     iw_traffic := iw_traffic w; iw_static := iw_static w |}.
Definition set_last (x : MonitoringLastCache) (w : W) : W :=
  {| iw_uuid := iw_uuid w; iw_last := Some x; iw_hash := iw_hash w; iw_buffers := iw_buffers w;
     iw_traffic := iw_traffic w; iw_static := iw_static w |}.
Definition set_hash (x : StaticHashCache) (w : W) : W :=
  {| iw_uuid := iw_uuid w; iw_last := iw_last w; iw_hash := Some x; iw_buffers := iw_buffers w;
     iw_traffic := iw_traffic w; iw_static := iw_static w |}.
Definition set_buffers (x : MonitoringBuffers) (w : W) : W :=
  {| iw_uuid := iw_uuid w; iw_last := iw_last w; iw_hash := iw_hash w; iw_buffers := Some x;
     iw_traffic := iw_traffic w; iw_static := iw_static w |}.
Definition set_traffic (x : option State) (w : W) : W :=
  {| iw_uuid := iw_uuid w; iw_last := iw_last w; iw_hash := iw_hash w; iw_buffers := iw_buffers w;
     iw_traffic := x; iw_static := iw_static w |}.
Definition set_static (x : S) (w : W) : W :=
  {| iw_uuid := iw_uuid w; iw_last := iw_last w; iw_hash := iw_hash w; iw_buffers := iw_buffers w;
     iw_traffic := iw_traffic w; iw_static := Some x |}.

(** ** Steps the methods share *)

Definition authorise (token : string) (uuid : Uuid) (p : Permission) (msg : string) : result anyhow unit :=
  let? token_or_auth := parse_token token in
  let? is_allowed := check_token_limit (e_globals e) (e_clock e) token_or_auth [Scope_AgentUuid uuid] [p] in
  if (is_allowed : bool) then Ok tt else denied msg.

Definition not_found {A} (m : string) : Im A := mfail (OfNodeget (ConfigNotFound m)).

(** [MonitoringUuidCache::global()?.get_or_insert(uuid)]. *)
Definition uuid_id_of (uuid : Uuid) : Im Z := fun w =>
  match uw_cache (iw_uuid w) with
  | None => not_found "MonitoringUuidCache not initialized" w
  | Some _ =>
      let '(u, r) := get_or_insert uuid_display uuid (iw_uuid w) in
      (set_uuid u w, map_err (fun err => OfNodeget (DatabaseError ("UUID cache error: " +:+ display err))) r)
  end.

Definition part_value (what : string) (p : Part) : result anyhow Json :=
  map_err (fun m => OfNodeget (SerializationError (what +:+ ": " +:+ m))) (part_to_value p).

Definition update_last (f : MonitoringLastCache -> MonitoringLastCache) : Im unit := fun w =>
  match iw_last w with
  | None => not_found "MonitoringLastCache not initialized" w
  | Some c => (set_last (f c) w, Ok tt)
  end.

(** [with_buffers(|b| b.<buffer>.send(..))]. *)
Definition with_buffers (f : MonitoringBuffers -> MonitoringBuffers) : Im unit := fun w =>
  match iw_buffers w with
  | None => not_found "MonitoringBuffers not initialized" w
  | Some b => (set_buffers (f b) w, Ok tt)
  end.

Definition send_static (x : Z -> StaticRow) (b : MonitoringBuffers) : MonitoringBuffers :=
  {| static_mon := (send x (static_mon b)).1; dynamic_mon := dynamic_mon b; dynamic_summary := dynamic_summary b |}.
Definition send_dynamic (x : Z -> DynamicRow) (b : MonitoringBuffers) : MonitoringBuffers :=
  {| static_mon := static_mon b; dynamic_mon := (send x (dynamic_mon b)).1; dynamic_summary := dynamic_summary b |}.
Definition send_summary (x : Z -> SummaryRow) (b : MonitoringBuffers) : MonitoringBuffers :=
  {| static_mon := static_mon b; dynamic_mon := dynamic_mon b; dynamic_summary := (send x (dynamic_summary b)).1 |}.

(** [TrafficStats::update_total_traffic]: nothing when the statistics are not running. *)
Definition update_total_traffic (uuid_id : Z) (data : Report) (received_at : Z) : Im unit := fun w =>
  (set_traffic (option_map (apply_report uuid_id data received_at) (iw_traffic w)) w, Ok tt).

(** ** report_static *)

Definition is_static_of (uuid_id : Z) (data_hash : list Z) (r : StaticRow) : bool :=
  (sr_uuid_id r =? uuid_id)%Z && bool_decide (sr_data_hash r = data_hash).

Definition find_static (uuid_id : Z) (data_hash : list Z) : Im (option StaticRow) := fun w =>
  match iw_static w with
  | None => (w, Err (OfNodeget (DatabaseError "DB not initialized")))
  | Some d => let '(d', r) := find_one (is_static_of uuid_id data_hash) d in
              (set_static d' w, map_err (fun err => OfNodeget (DatabaseError (db_msg err))) r)
  end.

Definition get_hash_cache : Im StaticHashCache := fun w =>
  match iw_hash w with
  | None => not_found "StaticHashCache not initialized" w
  | Some c => (w, Ok c)
  end.

Definition hash_update (uuid_id : Z) (data_hash : list Z) : Im unit := fun w =>
  match iw_hash w with
  | Some c => (set_hash (update_hash uuid_id data_hash c) w, Ok tt)
  | None => (w, Ok tt)
  end.

Definition static_model (uuid_id timestamp received_at : Z) (data : StaticMonitoringData) (cpu system gpu : Json)
    (id : Z) : StaticRow :=
  {| sr_id := id; sr_uuid_id := uuid_id; sr_timestamp := timestamp; sr_storage_time := Some received_at;
     sr_cpu_data := cpu; sr_system_data := system; sr_gpu_data := gpu; sr_data_hash := sd_data_hash data |}.

Definition report_static (token : string) (data : StaticMonitoringData) : Im ReportStatus :=
  let! _ := lift (authorise token (sd_uuid data) (P_StaticMonitoring StaticMonitoring_Write)
              "Permission Denied: Missing StaticMonitoring Write permission for this Agent") in
  let! uuid_id := uuid_id_of (sd_uuid data) in
  let timestamp := cast_signed64 (sd_time data) in
  let! cpu_val := lift (part_value "cpu_data" (sd_cpu data)) in
  let! system_val := lift (part_value "system_data" (sd_system data)) in
  let! gpu_val := lift (part_value "gpu_data" (sd_gpu data)) in
  let! _ := update_last (update_static_prebuilt to_string (sd_uuid data)
              (build_static_value_prebuilt uuid_display (sd_uuid data) timestamp cpu_val system_val gpu_val)) in
  let! hash_cache := get_hash_cache in
  if is_duplicate hash_cache uuid_id (sd_data_hash data) then mret SkippedDuplicateHash else
  let! existing := find_static uuid_id (sd_data_hash data) in
  match existing with
  | Some _ =>
      let! _ := hash_update uuid_id (sd_data_hash data) in
      mret SkippedDuplicateHash
  | None =>
      let! received_at := lift (get_local_timestamp_ms_i64 (e_clock e)) in
      let! _ := with_buffers (send_static
                  (static_model uuid_id timestamp received_at data cpu_val system_val gpu_val)) in
      let! _ := hash_update uuid_id (sd_data_hash data) in
      mret Buffered
  end.

(** ** report_dynamic *)

Definition dynamic_model (uuid_id timestamp received_at : Z) (cpu ram load system disk network gpu : Json)
    (id : Z) : DynamicRow :=
  {| dr_id := id; dr_uuid_id := uuid_id; dr_timestamp := timestamp; dr_storage_time := Some received_at;
     dr_cpu_data := cpu; dr_ram_data := ram; dr_load_data := load; dr_system_data := system;
     dr_disk_data := disk; dr_network_data := network; dr_gpu_data := gpu |}.

Definition report_dynamic (token : string) (data : DynamicMonitoringData) : Im ReportStatus :=
  let! _ := lift (authorise token (dd_uuid data) (P_DynamicMonitoring DynamicMonitoring_Write)
              "Permission Denied: Missing DynamicMonitoring Write permission for this Agent") in
  let! uuid_id := uuid_id_of (dd_uuid data) in
  let timestamp := cast_signed64 (dd_time data) in
  let! received_at := lift (get_local_timestamp_ms_i64 (e_clock e)) in
  let! cpu_val := lift (part_value "cpu_data" (dd_cpu data)) in
  let! ram_val := lift (part_value "ram_data" (dd_ram data)) in
  let! load_val := lift (part_value "load_data" (dd_load data)) in
  let! system_val := lift (part_value "system_data" (dd_system data)) in
  let! disk_val := lift (part_value "disk_data" (dd_disk data)) in
  let! network_val := lift (part_value "network_data" (dd_network data)) in
  let! gpu_val := lift (part_value "gpu_data" (dd_gpu data)) in
  let! _ := with_buffers (send_dynamic
              (dynamic_model uuid_id timestamp received_at cpu_val ram_val load_val system_val disk_val network_val gpu_val)) in
  let! _ := update_total_traffic uuid_id (traffic_report data) received_at in
  let! _ := update_last (update_dynamic_prebuilt to_string (dd_uuid data)
              (build_dynamic_value_prebuilt uuid_display (dd_uuid data) timestamp
                 cpu_val ram_val load_val system_val disk_val network_val gpu_val)) in
  mret Buffered.

(** ** report_dynamic_summary *)

Definition summary_model (uuid_id received_at : Z) (data : DynamicMonitoringSummaryData) (id : Z) : SummaryRow :=
  {| mr_id := id; mr_uuid_id := uuid_id; mr_timestamp := cast_signed64 (su_time data);
     mr_storage_time := Some received_at; mr_column := summary_field data |}.

Definition report_dynamic_summary (token : string) (data : DynamicMonitoringSummaryData) : Im ReportStatus :=
  let! _ := lift (authorise token (su_uuid data) (P_DynamicMonitoringSummary Summary_Write)
              "Permission Denied: Missing DynamicMonitoringSummary Write permission for this Agent") in
  let! uuid_id := uuid_id_of (su_uuid data) in
  let! received_at := lift (get_local_timestamp_ms_i64 (e_clock e)) in
  let! _ := with_buffers (send_summary (summary_model uuid_id received_at data)) in
  let! _ := update_last (update_dynamic_summary_prebuilt to_string (su_uuid data)
              (build_dynamic_summary_value uuid_display (su_uuid data) (cast_signed64 (su_time data)) data)) in
  mret Buffered.

(** ** Facts *)

Lemma uuid_id_of_run uuid w w' r :
  uuid_id_of uuid w = (w', r) ->
  (uw_cache (iw_uuid w) = None /\ w' = w /\ is_ok r = false) \/
  exists u r0, get_or_insert uuid_display uuid (iw_uuid w) = (u, r0) /\ w' = set_uuid u w /\
    is_Some (uw_cache (iw_uuid w)) /\
    match r, r0 with Ok i, Ok i0 => i = i0 | Err _, Err _ => True | _, _ => False end.
Proof using.
  unfold uuid_id_of, not_found. destruct (uw_cache (iw_uuid w)) as [c|] eqn:Ec.
  - destruct (get_or_insert _ _ _) as [u r0]. intros [= <- <-]. right. exists u, r0.
    split_and!; [done|done|by exists c|by destruct r0].
  - intros [= <- <-]. by left.
Qed.

(** The parts of a dynamic report by field. *)
Definition dynamic_part (data : DynamicMonitoringData) (f : DynamicDataQueryField) : Part :=
  match f with
  | DField_Cpu => dd_cpu data | DField_Ram => dd_ram data | DField_Load => dd_load data
  | DField_System => dd_system data | DField_Disk => dd_disk data | DField_Network => dd_network data
  | DField_Gpu => dd_gpu data
  end.
Definition dynamic_column (r : DynamicRow) (f : DynamicDataQueryField) : Json :=
  match f with
  | DField_Cpu => dr_cpu_data r | DField_Ram => dr_ram_data r | DField_Load => dr_load_data r
  | DField_System => dr_system_data r | DField_Disk => dr_disk_data r | DField_Network => dr_network_data r
  | DField_Gpu => dr_gpu_data r
  end.

(** The row of a dynamic report, whatever key it gets. *)
Definition dynamic_row_of (data : DynamicMonitoringData) (uuid_id received_at : Z) (model : Z -> DynamicRow) : Prop :=
  forall i, dr_id (model i) = i /\ dr_uuid_id (model i) = uuid_id /\
    dr_timestamp (model i) = cast_signed64 (dd_time data) /\ dr_storage_time (model i) = Some received_at /\
    forall f, part_to_value (dynamic_part data f) = Ok (dynamic_column (model i) f).

(** What a look-up of the latest dynamic values returns afterwards. *)
Definition answers_dynamic (c : MonitoringLastCache) (data : DynamicMonitoringData) : Prop :=
  forall fields k, exists o, get_dynamic_last c (dd_uuid data) fields = Some (JObject o) /\
    (k = "uuid"%string -> assoc k o = Some (JString (uuid_display (dd_uuid data)))) /\
    (k = "timestamp"%string -> assoc k o = Some (JNum (NumInt (cast_signed64 (dd_time data))))) /\
    (forall f, k = dynamic_json_key f ->
       if bool_decide (k ∈ map dynamic_json_key fields)
       then exists v, part_to_value (dynamic_part data f) = Ok v /\ assoc k o = Some v
       else assoc k o = None).

Lemma part_value_ok what p v : part_value what p = Ok v -> part_to_value p = Ok v.
Proof using. unfold part_value. by intros ?%map_err_ok. Qed.

Lemma dynamic_value_answers c data cpu ram load system disk network gpu :
  part_to_value (dd_cpu data) = Ok cpu -> part_to_value (dd_ram data) = Ok ram ->
  part_to_value (dd_load data) = Ok load -> part_to_value (dd_system data) = Ok system ->
  part_to_value (dd_disk data) = Ok disk -> part_to_value (dd_network data) = Ok network ->
  part_to_value (dd_gpu data) = Ok gpu ->
  answers_dynamic (update_dynamic_prebuilt to_string (dd_uuid data)
    (build_dynamic_value_prebuilt uuid_display (dd_uuid data) (cast_signed64 (dd_time data))
       cpu ram load system disk network gpu) c) data.
Proof using.
  intros H1 H2 H3 H4 H5 H6 H7 fields k. unfold get_dynamic_last, update_dynamic_prebuilt. simpl.
  rewrite lookup_insert_eq. simpl.
  match goal with |- context [build_filtered_map ?full ?keys] =>
    destruct (filtered_lookup full keys k) as (o & Eo & Ho); rewrite Eo end.
  exists o. split; [reflexivity|]. split_and!.
  - intros ->. rewrite Ho, decide_True by (left; by left). reflexivity.
  - intros ->. rewrite Ho, decide_True by (left; by right). reflexivity.
  - intros f ->. rewrite Ho. case_bool_decide as Hin.
    + rewrite decide_True by auto. destruct f; simpl; eauto.
    + rewrite decide_False; [done|]. intros [[Hb|Hb]|Hb]; [by destruct f|by destruct f|done].
Qed.

(** a dynamic report is taken only from a token that may write for this agent.  When it
    succeeds, a row with the agent's number, the two times and the rendered parts was
    offered to the write buffer, the traffic statistics were advanced by the report
    under the same number, and every look-up of the latest values answers with its
    parts; when it fails (the caches and buffers being set up), nothing but the
    registration of the agent may have changed. *)
Theorem report_dynamic_spec token data w w' r c :
  iw_last w = Some c -> report_dynamic token data w = (w', r) ->
  match r with
  | Ok st => exists uuid_id received_at u b c' model,
      st = Buffered /\
      authorise token (dd_uuid data) (P_DynamicMonitoring DynamicMonitoring_Write)
        "Permission Denied: Missing DynamicMonitoring Write permission for this Agent" = Ok tt /\
      get_or_insert uuid_display (dd_uuid data) (iw_uuid w) = (u, Ok uuid_id) /\
      iw_buffers w = Some b /\ dynamic_row_of data uuid_id received_at model /\
      answers_dynamic c' data /\
      (forall other, other <> dd_uuid data -> dynamic_cache c' !! other = dynamic_cache c !! other) /\
      w' = {| iw_uuid := u; iw_last := Some c'; iw_hash := iw_hash w; iw_buffers := Some (send_dynamic model b);
              iw_traffic := option_map (apply_report uuid_id (traffic_report data) received_at) (iw_traffic w);
              iw_static := iw_static w |}
  | Err _ => exists u, w' = set_uuid u w
  end.
Proof using.
  intros Hl. unfold report_dynamic. assert (w = set_uuid (iw_uuid w) w) as Hsame by (by destruct w).
  rewrite mbind_lift. destruct (authorise _ _ _ _) as [[]|err] eqn:Ea; [|intros [= <- <-]; by exists (iw_uuid w)].
  rewrite mbind_run. destruct (uuid_id_of (dd_uuid data) w) as [w1 r1] eqn:Eu.
  apply uuid_id_of_run in Eu as [(_ & -> & Hr)|(u & r0 & Hg & -> & _ & Hr)].
  { destruct r1; [done|]. intros [= <- <-]. by exists (iw_uuid w). }
  destruct r1 as [uuid_id|err]; [|intros [= <- <-]; by exists u]. destruct r0 as [i|]; [subst i|done].
  cbv zeta. rewrite mbind_lift. destruct (get_local_timestamp_ms_i64 _) as [received_at|]; [|intros [= <- <-]; by exists u].
  do 7 (rewrite mbind_lift;
    match goal with |- context [part_value ?s ?p] => destruct (part_value s p) eqn:?; [|intros [= <- <-]; by exists u] end).
  rewrite mbind_run. unfold with_buffers at 1. cbn [iw_buffers set_uuid].
  destruct (iw_buffers w) as [b|] eqn:Eb; [|intros [= <- <-]; by exists u].
  rewrite mbind_run. unfold update_total_traffic at 1. rewrite mbind_run. unfold update_last at 1.
  cbn [iw_last set_traffic set_buffers set_uuid]. rewrite Hl. intros [= <- <-].
  repeat match goal with H : part_value _ _ = Ok _ |- _ => apply part_value_ok in H end.
  do 6 eexists. split_and!; [done|done|exact Hg|done| | | |reflexivity].
  - intros i. split_and!; try done. by intros [].
  - by apply dynamic_value_answers.
  - intros other Hne. simpl. by rewrite lookup_insert_ne.
Qed.

(** ** Static reports *)

Context {slaws : TableLaws sops static_conflict}.

(** The static model of a report. *)
Definition static_row_of (data : StaticMonitoringData) (uuid_id : Z) (model : Z -> StaticRow) : Prop :=
  forall i, sr_id (model i) = i /\ sr_uuid_id (model i) = uuid_id /\
    sr_timestamp (model i) = cast_signed64 (sd_time data) /\ sr_data_hash (model i) = sd_data_hash data /\
    part_to_value (sd_cpu data) = Ok (sr_cpu_data (model i)) /\
    part_to_value (sd_system data) = Ok (sr_system_data (model i)) /\
    part_to_value (sd_gpu data) = Ok (sr_gpu_data (model i)).

Definition static_rows (w : W) : list StaticRow := match iw_static w with Some d => rows d | None => [] end.

(** How a successful static report left the hash cache and the buffers. *)
Definition static_outcome (data : StaticMonitoringData) (uuid_id : Z) (w w' : W) (st : ReportStatus) : Prop :=
  exists h, iw_hash w = Some h /\
  match st with
  | SkippedDuplicateHash => iw_buffers w' = iw_buffers w /\
      (is_duplicate h uuid_id (sd_data_hash data) = true /\ iw_hash w' = iw_hash w \/
       (exists r, r ∈ static_rows w /\ sr_uuid_id r = uuid_id /\ sr_data_hash r = sd_data_hash data) /\
       iw_hash w' = Some (update_hash uuid_id (sd_data_hash data) h))
  | Buffered => is_duplicate h uuid_id (sd_data_hash data) = false /\
      (forall r, r ∈ static_rows w -> sr_uuid_id r = uuid_id -> sr_data_hash r <> sd_data_hash data) /\
      iw_hash w' = Some (update_hash uuid_id (sd_data_hash data) h) /\
      exists b model, iw_buffers w = Some b /\ static_row_of data uuid_id model /\
        iw_buffers w' = Some (send_static model b)
  end.

(** The steps of a successful static report. *)
Lemma report_static_ok token data w w' st :
  report_static token data w = (w', Ok st) ->
  exists uuid_id u c', get_or_insert uuid_display (sd_uuid data) (iw_uuid w) = (u, Ok uuid_id) /\
    is_Some (uw_cache (iw_uuid w)) /\
    authorise token (sd_uuid data) (P_StaticMonitoring StaticMonitoring_Write)
      "Permission Denied: Missing StaticMonitoring Write permission for this Agent" = Ok tt /\
    iw_uuid w' = u /\ iw_last w' = Some c' /\ iw_traffic w' = iw_traffic w /\ static_rows w' = static_rows w /\
    static_outcome data uuid_id w w' st.
Proof using slaws.
  unfold report_static. rewrite mbind_lift. destruct (authorise _ _ _ _) as [[]|] eqn:Ea; [|done].
  rewrite mbind_run. destruct (uuid_id_of (sd_uuid data) w) as [w1 r1] eqn:Eu.
  apply uuid_id_of_run in Eu as [(_ & -> & Hr)|(u & r0 & Hg & -> & Hc & Hr)]; [by destruct r1|].
  destruct r1 as [uuid_id|]; [|done]. destruct r0 as [i|]; [subst i|done]. cbv zeta.
  do 3 (rewrite mbind_lift;
    match goal with |- context [part_value ?s ?p] => destruct (part_value s p) eqn:?; [|done] end).
  repeat match goal with H : part_value _ _ = Ok _ |- _ => apply part_value_ok in H end.
  rewrite mbind_run. unfold update_last at 1. cbn [iw_last set_uuid]. destruct (iw_last w) as [c|]; [|done].
  rewrite mbind_run. unfold get_hash_cache at 1. cbn [iw_hash set_last set_uuid].
  destruct (iw_hash w) as [h|] eqn:Eh; [|done]. unfold static_outcome. rewrite Eh.
  destruct (is_duplicate h uuid_id (sd_data_hash data)) eqn:Ed.
  { intros [= <- <-]. eexists _, _, _. split_and!; try done. exists h. split; [done|]. split; [done|]. by left. }
  rewrite mbind_run. unfold find_static at 1. cbn [iw_static set_last set_uuid].
  destruct (iw_static w) as [d|] eqn:Es; [|done].
  destruct (find_one _ d) as [d' r] eqn:Ef. pose proof (find_one_rows _ _ _ _ Ef) as Hrows.
  destruct r as [existing|]; [|done]. cbn [map_err]. destruct existing as [r|].
  - rewrite mbind_run. unfold hash_update at 1. cbn [iw_hash set_static set_last set_uuid]. rewrite Eh. intros [= <- <-].
    apply find_one_some in Ef as [Hin [Hid Hh]%andb_true_iff]. apply Z.eqb_eq in Hid. apply bool_decide_eq_true in Hh.
    eexists _, _, _. unfold static_rows. rewrite Es. split_and!; try done.
    exists h. split; [done|]. split; [done|]. right. split; [by exists r|done].
  - rewrite mbind_lift. destruct (get_local_timestamp_ms_i64 _) as [received_at|]; [|done].
    rewrite mbind_run. unfold with_buffers at 1. cbn [iw_buffers set_static set_last set_uuid].
    destruct (iw_buffers w) as [b|] eqn:Eb; [|done].
    rewrite mbind_run. unfold hash_update at 1. cbn [iw_hash set_buffers set_static set_last set_uuid]. rewrite Eh.
    intros [= <- <-]. apply find_one_none in Ef. eexists _, _, _. unfold static_rows. rewrite Es. split_and!; try done.
    exists h. split; [done|]. split_and!; [done| |done|].
    + intros r Hr Hid Hh. specialize (Ef r Hr). unfold is_static_of in Ef.
      by rewrite Hid, Hh, Z.eqb_refl, bool_decide_eq_true_2 in Ef.
    + eexists b, _. split_and!; [done| |reflexivity]. by intros i.
Qed.

Lemma is_duplicate_update h uuid_id hash : is_duplicate (update_hash uuid_id hash h) uuid_id hash = true.
Proof using. unfold is_duplicate, update_hash. rewrite lookup_insert_eq. by apply bool_decide_eq_true_2. Qed.

(** A report whose hash is remembered is never buffered. *)
Lemma remembered_skipped token data w w' r h uuid_id :
  iw_hash w = Some h -> is_duplicate h uuid_id (sd_data_hash data) = true ->
  cache_hit (sd_uuid data) (uw_cache (iw_uuid w)) = Some uuid_id ->
  report_static token data w = (w', r) ->
  r <> Ok Buffered /\ iw_buffers w' = iw_buffers w /\ iw_hash w' = iw_hash w.
Proof using.
  intros Hh Hd Hc. unfold report_static. rewrite mbind_lift. destruct (authorise _ _ _ _) as [[]|]; [|by intros [= <- <-]].
  rewrite mbind_run. destruct (uuid_id_of (sd_uuid data) w) as [w1 r1] eqn:Eu.
  apply uuid_id_of_run in Eu as [(Hn & _)|(u & r0 & Hg & -> & _ & Hr)]; [by rewrite Hn in Hc|].
  assert (r0 = Ok uuid_id) as ->.
  { unfold get_or_insert in Hg. rewrite mbind_asks, Hc in Hg. by injection Hg. }
  destruct r1 as [i|]; [subst i|done]. cbv zeta.
  do 3 (rewrite mbind_lift;
    match goal with |- context [part_value ?s ?p] => destruct (part_value s p) eqn:?; [|by intros [= <- <-]] end).
  rewrite mbind_run. unfold update_last at 1, not_found. cbn [iw_last set_uuid].
  destruct (iw_last w) as [c|]; [|by intros [= <- <-]].
  rewrite mbind_run. unfold get_hash_cache at 1. cbn [iw_hash set_last set_uuid]. rewrite Hh, Hd. by intros [= <- <-].
Qed.

(** ** What is remembered *)

Context {ulaws : TableLaws uops uuid_conflict}.

(** The agent has the number [id], under which the first 16 bytes of [hash] are remembered. *)
Definition remembered (uuid : Uuid) (id : Z) (hash : list Z) (w : W) : Prop :=
  uuid_ok (iw_uuid w) /\ cache_hit uuid (uw_cache (iw_uuid w)) = Some id /\
  exists h, iw_hash w = Some h /\ h !! id = Some (truncate_to_16 hash).

(** Nothing but buffers, latest values, statistics and the table of reports changes. *)
Definition frame {A} (m : Im A) : Prop := forall w, iw_uuid (m w).1 = iw_uuid w /\ iw_hash (m w).1 = iw_hash w.

Lemma frame_bind {A B} (m : Im A) (k : A -> Im B) : frame m -> (forall a, frame (k a)) -> frame (mbind m k).
Proof using.
  intros Hm Hk w. rewrite mbind_run. specialize (Hm w). destruct (m w) as [w1 [a|]]; [|done]. simpl in Hm. destruct Hm as [<- <-]. apply Hk.
Qed.
Lemma frame_same {A} (m : Im A) : (forall w, (m w).1 = w) -> frame m.
Proof using. intros H w. by rewrite H. Qed.
Lemma frame_last f : frame (update_last f).
Proof using. intros w. unfold update_last. by destruct (iw_last w). Qed.
Lemma frame_buffers f : frame (with_buffers f).
Proof using. intros w. unfold with_buffers. by destruct (iw_buffers w). Qed.
Lemma frame_traffic i d t : frame (update_total_traffic i d t).
Proof using. by intros w. Qed.
Lemma frame_find i h : frame (find_static i h).
Proof using. intros w. unfold find_static. destruct (iw_static w); [|done]. by destruct (find_one _ _). Qed.

Lemma frame_keeps {A} uuid id hash (m : Im A) : frame m -> preserves (remembered uuid id hash) m.
Proof using. intros Hm w. unfold remembered. by destruct (Hm w) as [-> ->]. Qed.

Ltac frames := repeat first
  [ apply frame_bind; [|intros ?] | apply frame_last | apply frame_buffers | apply frame_traffic | apply frame_find | by apply frame_same ].

(** Finding the number of any agent forgets nothing, and gives the number to nobody else. *)
Lemma uuid_then {A} uuid id hash u (k : Z -> Im A) :
  (forall i, (u <> uuid -> i <> id) -> preserves (remembered uuid id hash) (k i)) ->
  preserves (remembered uuid id hash) (let! i := uuid_id_of u in k i).
Proof using ulaws.
  intros Hk w Hw. rewrite mbind_run. destruct (uuid_id_of u w) as [w1 r] eqn:E.
  apply uuid_id_of_run in E as [(_ & -> & Hr)|(x & r0 & Hg & -> & _ & Hr)]; [by destruct r|]. destruct Hw as (Hok & Hhit & Hh).
  destruct (get_or_insert_known uuid_display uuid id u _ _ _ Hok Hhit Hg) as (Hok' & Hhit' & Hne).
  assert (remembered uuid id hash (set_uuid x w)) as Hw by done. destruct r as [i|]; [|done]. apply Hk; [|done].
  intros Hu ->. destruct r0 as [i0|]; [|done]. subst i0. by destruct (Hne Hu).
Qed.

Lemma report_dynamic_forgets_nothing uuid id hash token data : preserves (remembered uuid id hash) (report_dynamic token data).
Proof using ulaws.
  unfold report_dynamic. intros w Hw. rewrite mbind_lift. destruct (authorise _ _ _ _); [|done]. revert w Hw.
  apply uuid_then. intros i _. cbv zeta. apply frame_keeps. frames.
Qed.
Lemma report_summary_forgets_nothing uuid id hash token data : preserves (remembered uuid id hash) (report_dynamic_summary token data).
Proof using ulaws.
  unfold report_dynamic_summary. intros w Hw. rewrite mbind_lift. destruct (authorise _ _ _ _); [|done]. revert w Hw.
  apply uuid_then. intros i _. apply frame_keeps. frames.
Qed.

Lemma hash_update_keeps uuid id hash i d : i <> id \/ truncate_to_16 d = truncate_to_16 hash -> preserves (remembered uuid id hash) (hash_update i d).
Proof using.
  intros Hi w (Hok & Hhit & h & Hh & Hid). unfold hash_update. rewrite Hh. split; [done|]. split; [done|].
  exists (update_hash i d h). split; [done|]. unfold update_hash. destruct (decide (i = id)) as [->|Hne]; [|by rewrite lookup_insert_ne].
  rewrite lookup_insert_eq. destruct Hi as [|Heq]; [done|by rewrite Heq].
Qed.

(** A static report of another agent, or of the same one with the same beginning of the hash. *)
Lemma report_static_forgets_nothing uuid id hash token data :
  (sd_uuid data = uuid -> truncate_to_16 (sd_data_hash data) = truncate_to_16 hash) ->
  preserves (remembered uuid id hash) (report_static token data).
Proof using ulaws.
  intros Hd. unfold report_static. intros w Hw. rewrite mbind_lift. destruct (authorise _ _ _ _); [|done]. revert w Hw.
  apply uuid_then. intros i Hi. cbv zeta.
  assert (i <> id \/ truncate_to_16 (sd_data_hash data) = truncate_to_16 hash) as Hc
    by (destruct (decide (sd_uuid data = uuid)) as [He|Hne]; [right; by apply Hd|left; by apply Hi]).
  assert (forall A (m : Im A) B (k : A -> Im B), frame m -> (forall a, preserves (remembered uuid id hash) (k a)) -> preserves (remembered uuid id hash) (mbind m k)) as Hb.
  { intros A m B k Hm Hk w Hw. rewrite mbind_run. pose proof (frame_keeps uuid id hash m Hm w Hw) as H. destruct (m w) as [w1 [?|]]; [by apply Hk|done]. }
  assert (forall st : ReportStatus, preserves (remembered uuid id hash) (let! _ := hash_update i (sd_data_hash data) in mret st)) as Hup.
  { intros st w Hw. rewrite mbind_run. pose proof (hash_update_keeps uuid id hash i _ Hc w Hw) as H. by destruct (hash_update _ _ w) as [w1 [?|]]. }
  do 4 (apply Hb; [frames|intros ?]). apply Hb; [apply frame_same; intros w; unfold get_hash_cache; by destruct (iw_hash w)|]. intros h.
  destruct (is_duplicate _ _ _); [by intros w|]. apply Hb; [frames|]. intros [x|]; [apply Hup|].
  apply Hb; [frames|intros t]. apply Hb; [frames|intros _]. apply Hup.
Qed.

Lemma remembered_skips uuid id hash token data w w' r : remembered uuid id hash w ->
  sd_uuid data = uuid -> truncate_to_16 (sd_data_hash data) = truncate_to_16 hash ->
  report_static token data w = (w', r) -> r <> Ok Buffered /\ iw_buffers w' = iw_buffers w.
Proof using.
  intros (_ & Hhit & h & Hh & Hid) <- Hd Hrun. destruct (remembered_skipped token data w w' r h id Hh) as (? & ? & _); [|done|done|done].
  unfold is_duplicate. rewrite Hid, Hd. by apply bool_decide_eq_true_2.
Qed.

(** A report that was buffered is remembered. *)
Lemma buffered_remembered token data w w' : uuid_ok (iw_uuid w) -> report_static token data w = (w', Ok Buffered) ->
  exists id, remembered (sd_uuid data) id (sd_data_hash data) w'.
Proof using slaws ulaws.
  intros Hok Hrun. apply report_static_ok in Hrun as (uuid_id & u & c' & Hg & [cc Hcc] & _ & Hu & _ & _ & _ & Hout).
  destruct Hout as (h & Hh & _ & _ & Hh' & _). exists uuid_id.
  destruct (get_or_insert_spec uuid_display _ _ _ _ _ Hok Hcc Hg) as (_ & _ & _ & c1 & Hc1 & Hid & _ & Hact & _). split; [|split].
  - rewrite Hu. destruct Hok as (d & cc0 & Hw & Huq & Hm). rewrite Hw in Hg. pose proof (get_or_insert_cases uuid_display d cc0 (sd_uuid data) Huq Hm) as Hcase.
    rewrite Hg in Hcase. destruct Hcase as [[Hok' _]|(i & [= -> ->] & _)]; [exact Hok'|by exists d, cc0].
  - rewrite Hu, Hc1. unfold cache_hit, get_id, is_active in *. destruct (by_uuid c1 !! sd_uuid data) as [[i [|]]|]; done.
  - eexists. split; [exact Hh'|]. unfold update_hash. by rewrite lookup_insert_eq.
Qed.

(** A full queue takes nothing. *)
Lemma full_queue_drops token data w w' b : iw_buffers w = Some b -> (cap (static_mon b) <= length (channel (static_mon b)))%nat ->
  report_static token data w = (w', Ok Buffered) -> exists b', iw_buffers w' = Some b' /\ channel (static_mon b') = channel (static_mon b).
Proof using slaws.
  intros Hb Hfull Hrun. apply report_static_ok in Hrun as (uuid_id & u & c' & _ & _ & _ & _ & _ & _ & _ & Hout).
  destruct Hout as (h & Hh & _ & _ & Hh' & b0 & model & Hb0 & _ & Hb'). rewrite Hb in Hb0. injection Hb0 as <-.
  eexists. split; [exact Hb'|]. unfold send_static, send, send_locked. simpl.
  destruct (closed (static_mon b)); [done|]. destruct (tx (static_mon b)); [|done]. simpl.
  destruct (Nat.ltb_spec (length (channel (static_mon b))) (cap (static_mon b))); [lia|done].
Qed.
End reports.

(** ** The lost report *)

Section lost.
Context {Part : Type} (part_to_value : Part -> result string Json).
Variables (to_string : Json -> option string) (uuid_display : Uuid -> string).
Context {crypto : Crypto} {serde : Serde}.
Context {U S : Type} {uops : TableOps U UuidModel} {sops : TableOps S StaticRow}.
Context {slaws : TableLaws sops static_conflict} {ulaws : TableLaws uops uuid_conflict}.
#[local] Notation W := (IngestWorld U S).

(** What happens later: reports of any agents with any tokens, at any time; buffers are written, tables and statistics change. *)
Inductive Later : Type :=
| LStatic (e : Env) (token : string) (data : StaticMonitoringData (Part := Part))
| LDynamic (e : Env) (token : string) (data : DynamicMonitoringData (Part := Part))
| LSummary (e : Env) (token : string) (data : DynamicMonitoringSummaryData)
| LBackground (buffers : option MonitoringBuffers) (static : option S) (traffic : option State).

Definition later_step (w : W) (x : Later) : W :=
  match x with
  | LStatic e token data => (report_static part_to_value to_string uuid_display e token data w).1
  | LDynamic e token data => (report_dynamic part_to_value to_string uuid_display e token data w).1
  | LSummary e token data => (report_dynamic_summary to_string uuid_display e token data w).1
  | LBackground buffers static traffic =>
      {| iw_uuid := iw_uuid w; iw_last := iw_last w; iw_hash := iw_hash w; iw_buffers := buffers; iw_traffic := traffic; iw_static := static |}
  end.

(** The agent reports no other contents, as far as the first 16 bytes of the hash tell. *)
Definition same_contents (uuid : Uuid) (hash : list Z) (x : Later) : Prop :=
  match x with LStatic _ _ data => sd_uuid data = uuid -> truncate_to_16 (sd_data_hash data) = truncate_to_16 hash | _ => True end.

Lemma later_remembers uuid id hash events w : Forall (same_contents uuid hash) events -> remembered uuid id hash w ->
  remembered uuid id hash (fold_left later_step events w).
Proof using ulaws.
  intros HF. revert w. induction HF as [|x events Hx _ IH]; intros w Hw; [done|]. apply IH. destruct x as [e token data|e token data|e token data|b s t]; simpl.
  - by apply report_static_forgets_nothing.
  - by apply report_dynamic_forgets_nothing.
  - by apply report_summary_forgets_nothing.
  - done.
Qed.

(** C39: a static report that finds the queue full is answered as buffered although its row is
    dropped, and its hash is remembered.  Until the agent reports other contents (or is deleted, or the server restarts),
    whatever other agents report and whatever happens to the queues and the table, however much room there is, each
    further report of these contents is refused or dropped as a repetition: it puts nothing into the queue. *)
Theorem static_report_lost e token data (w w' : W) b :
  uuid_ok (iw_uuid w) -> iw_buffers w = Some b ->
  (cap (static_mon b) <= length (channel (static_mon b)))%nat ->
  report_static part_to_value to_string uuid_display e token data w = (w', Ok Buffered) ->
  (exists b', iw_buffers w' = Some b' /\ channel (static_mon b') = channel (static_mon b)) /\
  forall events e2 token2 data2 w3 r,
    Forall (same_contents (sd_uuid data) (sd_data_hash data)) events ->
    sd_uuid data2 = sd_uuid data -> truncate_to_16 (sd_data_hash data2) = truncate_to_16 (sd_data_hash data) ->
    let w2 := fold_left later_step events w' in
    report_static part_to_value to_string uuid_display e2 token2 data2 w2 = (w3, r) ->
    r <> Ok Buffered /\ iw_buffers w3 = iw_buffers w2.
Proof using slaws ulaws.
  intros Hok Hb Hfull Hrun. split; [by eapply full_queue_drops|]. destruct (buffered_remembered _ _ _ _ _ _ _ _ Hok Hrun) as [id Hid].
  intros events e2 token2 data2 w3 r HF Hu Hd w2. eapply remembered_skips; [by apply later_remembers|done|done].
Qed.
End lost.

(** ** Examples *)

Lemma static_row_conflict_sym a b : static_conflict a b = static_conflict b a.
Proof.
  unfold static_conflict. f_equal; [apply Z.eqb_sym|]. f_equal; [apply Z.eqb_sym|].
  apply bool_decide_ext. split; congruence.
Qed.
#[global] Instance static_table : TableOps (ListTable StaticRow) StaticRow := ListTable_ops static_conflict.
#[global] Instance static_table_laws : TableLaws static_table static_conflict :=
  ListTable_laws static_conflict static_row_conflict_sym.

(** Two reports of one agent with the same hash that both passed the tests before either was
    written make the statement fail for the whole batch, the row of another agent
    included: the conflict clause covers the key only. *)
Theorem duplicate_spoils_batch uuid_id other hash1 hash2 (mk1 mk2 mk3 : Z -> StaticRow) :
  (forall i, sr_id (mk1 i) = i /\ sr_uuid_id (mk1 i) = uuid_id /\ sr_data_hash (mk1 i) = hash1) ->
  (forall i, sr_id (mk2 i) = i /\ sr_uuid_id (mk2 i) = uuid_id /\ sr_data_hash (mk2 i) = hash1) ->
  (forall i, sr_id (mk3 i) = i /\ sr_uuid_id (mk3 i) = other /\ sr_data_hash (mk3 i) = hash2) ->
  match flush_chunk 3 [mk1; mk3; mk2]
    {| sender := new_sender 8; phase := Flushing 3 [mk1; mk3; mk2];
       table := Some {| tbl := []; next_id := 1; outages := [] |} |} with
  | (s, [Failed sub]) => length sub = 3%nat /\ table_rows s = []
  | _ => False
  end.
Proof.
  intros H1 H2 H3. unfold flush_chunk. cbn [table take drop length Nat.min].
  destruct (insert_many _ _) as [d r] eqn:E. unfold insert_many in E. simpl in E. unfold lt_insert_many, stmt, checked in E. simpl in E.
  assert (static_conflict (mk1 1%Z) (mk2 3%Z) = true) as Hc.
  { unfold static_conflict. destruct (H1 1%Z) as (_ & -> & ->), (H2 3%Z) as (_ & -> & ->).
    rewrite Z.eqb_refl, bool_decide_eq_true_2 by done. apply orb_true_r. }
  change (1 + 1 + 1)%Z with 3%Z in E. change (1 + 1)%Z with 2%Z in E.
  rewrite Hc in E. simpl in E. rewrite andb_false_r in E. simpl in E. injection E as <- <-. done.
Qed.

(** An agent is known, the queues hold one row each, and that of the static reports is full. *)
Definition demo_buffers : MonitoringBuffers :=
  let b := init_buffers (Some {| flush_interval_ms := None; cfg_max_batch_size := None; channel_capacity := Some 1%nat |}) in
  {| static_mon := (send (fun id => {| sr_id := id; sr_uuid_id := 2; sr_timestamp := 0; sr_storage_time := None;
       sr_cpu_data := JNull; sr_system_data := JNull; sr_gpu_data := JNull; sr_data_hash := [] |}) (static_mon b)).1;
     dynamic_mon := dynamic_mon b; dynamic_summary := dynamic_summary b |}.

Definition demo_ingest : IngestWorld (ListTable UuidModel) (ListTable StaticRow) := {|
  iw_uuid := agents_world; iw_last := Some new_last_cache; iw_hash := Some ∅; iw_buffers := Some demo_buffers;
  iw_traffic := Some State_default; iw_static := Some {| tbl := []; next_id := 1; outages := [] |} |}.

Definition demo_static : StaticMonitoringData (Part := Json) := {|
  sd_uuid := 10%N; sd_time := 5; sd_data_hash := [1; 2; 3]%Z; sd_cpu := JString "cpu"; sd_system := JNull; sd_gpu := JArray [] |}.

Definition demo_dynamic : DynamicMonitoringData (Part := Json) := {|
  dd_uuid := 10%N; dd_time := 1000; dd_cpu := JString "cpu"; dd_ram := JNull; dd_load := JNull; dd_system := JNull;
  dd_disk := JArray []; dd_network := JNull; dd_gpu := JArray [];
  dd_boot_id := Some "boot"%string; dd_uptime := 60; dd_interfaces := [eth 700 70] |}.

Definition no_text (v : Json) : option string := None.

Lemma report_dynamic_spec_witness :
  exists uuid_id c', iw_last (report_dynamic Ok no_text show_uuid sample_env "rootkey:rootsecret" demo_dynamic demo_ingest).1 = Some c' /\
    answers_dynamic Ok show_uuid c' demo_dynamic /\
    get_or_insert show_uuid 10%N agents_world = (agents_world, Ok uuid_id).
Proof.
  destruct (report_dynamic Ok no_text show_uuid sample_env "rootkey:rootsecret" demo_dynamic demo_ingest) as [w' r] eqn:E.
  assert (is_ok r = true) as Hr by (replace r with (report_dynamic Ok no_text show_uuid sample_env "rootkey:rootsecret" demo_dynamic demo_ingest).2
                                      by (by rewrite E); reflexivity).
  pose proof (report_dynamic_spec Ok no_text show_uuid sample_env "rootkey:rootsecret" demo_dynamic demo_ingest w' r
                new_last_cache eq_refl E) as H.
  destruct r as [st|]; [|done]. destruct H as (uuid_id & t & u & b & c' & model & _ & _ & Hg & _ & _ & Ha & _ & ->).
  exists uuid_id, c'. split; [done|]. split; [done|]. change (iw_uuid demo_ingest) with agents_world in Hg.
  replace agents_world with u at 2; [exact Hg|]. change u with (u, Ok uuid_id : result NodegetError Z).1. by rewrite <-Hg.
Defined.

(** The queue is full, the report is lost; then another agent reports, the queue is emptied, and the report comes again. *)
Definition other_static : StaticMonitoringData (Part := Json) := {|
  sd_uuid := 20%N; sd_time := 6; sd_data_hash := [9]%Z; sd_cpu := JNull; sd_system := JNull; sd_gpu := JNull |}.
Definition emptied : list (Later (Part := Json) (S := ListTable StaticRow)) := [
  LStatic sample_env "rootkey:rootsecret" other_static;
  LBackground (Some (init_buffers None)) (Some {| tbl := []; next_id := 1; outages := [] |}) None].

Lemma static_report_lost_witness :
  exists w', (report_static Ok no_text show_uuid sample_env "rootkey:rootsecret" demo_static demo_ingest) = (w', Ok Buffered) /\
    let w2 := fold_left (later_step Ok no_text show_uuid) emptied w' in
    (report_static Ok no_text show_uuid sample_env "rootkey:rootsecret" demo_static w2).2 = Ok SkippedDuplicateHash /\
    iw_buffers (report_static Ok no_text show_uuid sample_env "rootkey:rootsecret" demo_static w2).1 = iw_buffers w2.
Proof.
  destruct (report_static Ok no_text show_uuid sample_env "rootkey:rootsecret" demo_static demo_ingest) as [w' r] eqn:E.
  assert (r = Ok Buffered) as -> by (replace r with (report_static Ok no_text show_uuid sample_env "rootkey:rootsecret" demo_static demo_ingest).2
                                      by (by rewrite E); reflexivity).
  exists w'. split; [done|]. intros w2.
  assert (cap (static_mon demo_buffers) <= length (channel (static_mon demo_buffers)))%nat as Hfull by (by apply Nat.leb_le).
  destruct (static_report_lost Ok no_text show_uuid sample_env "rootkey:rootsecret" demo_static demo_ingest w' demo_buffers
    agents_ok eq_refl Hfull E) as [_ H].
  assert (Forall (same_contents 10%N [1; 2; 3]%Z) emptied) as HF by (repeat constructor; discriminate). split.
  - unfold w2. replace w' with (report_static Ok no_text show_uuid sample_env "rootkey:rootsecret" demo_static demo_ingest).1 by (by rewrite E). reflexivity.
  - destruct (report_static Ok no_text show_uuid sample_env "rootkey:rootsecret" demo_static w2) as [w3 r] eqn:E3.
    exact (proj2 (H emptied sample_env "rootkey:rootsecret"%string demo_static w3 r HF eq_refl eq_refl E3)).
Defined.
