(* ===== verification/StaticPath.v ===== *)
(** * Paths of the static file service

    [ng-static/src/ops.rs]: the name and sub-directory validators and
    [resolve_safe_file_path], the guard every disk access of the service goes through.
    The part of [std::path] they use ([components], [push], [parent], [pop],
    [starts_with] and path equality, as they behave on Unix) is modelled on the text of
    the path; the guard is proved correct against walking a list of components. *)
From stdpp Require Import base strings list numbers.
From Stdlib Require Import Ascii.
From S2P Require Import Prelude Errors.

#[local] Arguments Ascii.eqb : simpl never.
#[local] Arguments String.eqb : simpl never.

(** ** [std::path] on Unix *)

Definition path_sep : ascii := "/"%char.

(** The text between the separators; never the empty list. *)
Fixpoint split_sep (s : string) : list string :=
  match s with
  | EmptyString => [EmptyString]
  | String c s' =>
      if Ascii.eqb c path_sep then EmptyString :: split_sep s'
      else match split_sep s' with
           | seg :: segs => String c seg :: segs
           | [] => [String c EmptyString]
           end
  end.

Fixpoint join_sep (segs : list string) : string :=
  match segs with
  | [] => EmptyString
  | [seg] => seg
  | seg :: segs' => seg +:+ String path_sep (join_sep segs')
  end.

Inductive Component : Type :=
| Prefix (p : string)
| RootDir
| CurDir
| ParentDir
| Normal (c : string).

#[global] Instance Component_eq_dec : EqDecision Component.
Proof. solve_decision. Defined.

(** Empty segments (repeated separators) and interior [.] are not components. *)
Definition parse_single_component (seg : string) : option Component :=
  if String.eqb seg "" then None
  else if String.eqb seg "." then None
  else if String.eqb seg ".." then Some ParentDir
  else Some (Normal seg).

(** A leading separator is the root; a leading [.] is kept. *)
Definition start_component (segs : list string) : list Component :=
  match segs with
  | seg :: rest =>
      if String.eqb seg "" then match rest with [] => [] | _ :: _ => [RootDir] end
      else if String.eqb seg "." then [CurDir] else []
  | [] => []
  end.

Definition seg_components (segs : list string) : list Component :=
  start_component segs ++ omap parse_single_component segs.

Definition components (p : string) : list Component := seg_components (split_sep p).

Definition has_root (p : string) : bool :=
  match p with String c _ => Ascii.eqb c path_sep | EmptyString => false end.

Fixpoint ends_with_sep (p : string) : bool :=
  match p with
  | EmptyString => false
  | String c EmptyString => Ascii.eqb c path_sep
  | String _ p' => ends_with_sep p'
  end.

(** [PathBuf::push]; [Path::join] is the same on a copy. *)
Definition path_push (p q : string) : string :=
  if has_root q then q
  else if String.eqb p "" || ends_with_sep p then p +:+ q
  else p +:+ String path_sep q.

Definition is_component (seg : string) : bool :=
  match parse_single_component seg with Some _ => true | None => false end.

(** [Components::trim_right] on reversed segments. *)
Fixpoint trim_right (rsegs : list string) : list string :=
  match rsegs with
  | seg :: rest => if is_component seg then rsegs else trim_right rest
  | [] => []
  end.

(** [next_back] on the body of the path, then [as_path]. *)
Definition body_parent (segs : list string) : option (list string) :=
  match trim_right (rev segs) with
  | _ :: rest => Some (rev (trim_right rest))
  | [] => None
  end.

Definition parent (p : string) : option string :=
  let segs := split_sep p in
  match start_component segs with
  | RootDir :: _ =>
      match body_parent (tail segs) with
      | Some b => Some (String path_sep (join_sep b))
      | None => None
      end
  | CurDir :: _ =>
      match body_parent (tail segs) with
      | Some b => Some (join_sep ("." :: b))
      | None => Some ""
      end
  | _ =>
      match body_parent segs with
      | Some b => Some (join_sep b)
      | None => None
      end
  end.

(** [PathBuf::pop]: the shortened path, or [None] for [false]. *)
Definition path_pop (p : string) : option string := parent p.

Fixpoint is_prefix (a b : list Component) : bool :=
  match a, b with
  | [], _ => true
  | x :: a', y :: b' => bool_decide (x = y) && is_prefix a' b'
  | _ :: _, [] => false
  end.

(** [Path::starts_with] compares components, not text; so does [==]. *)
Definition path_starts_with (p base : string) : bool :=
  is_prefix (components base) (components p).
Definition path_eq (p q : string) : bool := bool_decide (components p = components q).

Example components_ex : components "./a//b/./../c/" = [CurDir; Normal "a"; Normal "b"; ParentDir; Normal "c"].
Proof. reflexivity. Qed.
Example components_root : components "//a/." = [RootDir; Normal "a"] /\ components "/" = [RootDir] /\ components "" = [].
Proof. repeat split; reflexivity. Qed.
Example parent_ex : map parent ["/a//b/"; "./a"; "."; "a"; "/"; ""; "/a"; "a/../b"] =
  [Some "/a"; Some "."; Some ""; Some ""; None; None; Some "/"; Some "a/.."].
Proof. reflexivity. Qed.

(** ** The validators of [ops.rs] *)

Definition is_ascii_alphanumeric (c : ascii) : bool :=
  let b := byte_of c in
  ((48 <=? b) && (b <=? 57) || (65 <=? b) && (b <=? 90) || (97 <=? b) && (b <=? 122))%Z.

Definition name_char (c : ascii) : bool :=
  is_ascii_alphanumeric c || Ascii.eqb c "_" || Ascii.eqb c "-" || Ascii.eqb c ".".

Fixpoint all_chars (p : ascii -> bool) (s : string) : bool :=
  match s with
  | EmptyString => true
  | String c s' => p c && all_chars p s'
  end.

Definition validate_name (name : string) : result NodegetError unit :=
  if String.eqb name "" then Err (InvalidInput "name cannot be empty")
  else if (128 <? String.length name)%nat then Err (InvalidInput "name too long (max 128 chars)")
  else if negb (all_chars name_char name) then
    Err (InvalidInput "name contains invalid characters (only [A-Za-z0-9_.-] are allowed)")
  else if all_chars (Ascii.eqb ".") name then Err (InvalidInput "name cannot be '.' or '..'")
  else Ok tt.

(** The loop over the components of a sub path; [has] is [has_component]. *)
Fixpoint check_sub_components (cs : list Component) (has : bool) : result NodegetError bool :=
  match cs with
  | [] => Ok has
  | Normal segment :: cs' => let? _ := validate_name segment in check_sub_components cs' true
  | CurDir :: cs' => check_sub_components cs' has
  | ParentDir :: _ => Err (InvalidInput "path cannot contain '..'")
  | RootDir :: _ => Err (InvalidInput "path cannot be absolute (leading '/')")
  | Prefix _ :: _ => Err (InvalidInput "path cannot contain drive prefix")
  end.

Definition validate_sub_path (path : string) : result NodegetError unit :=
  if String.eqb path "" then Err (InvalidInput "path cannot be empty")
  else if (512 <? String.length path)%nat then Err (InvalidInput "path too long (max 512 chars)")
  else if contains_char "\" path then Err (InvalidInput "path cannot contain backslash")
  else
    let? has_component := check_sub_components (components path) false in
    if negb has_component then Err (InvalidInput "path has no valid component") else Ok tt.

(** ** [resolve_safe_file_path] *)

Definition traversal_error : NodegetError :=
  InvalidInput "Invalid path: path traversal detected".

(** The loop over the components of the file path. *)
Fixpoint resolve_components (resolved : string) (cs : list Component) : result NodegetError string :=
  match cs with
  | [] => Ok resolved
  | Normal c :: cs' => resolve_components (path_push resolved c) cs'
  | RootDir :: cs' | CurDir :: cs' => resolve_components resolved cs'
  | ParentDir :: cs' =>
      match path_pop resolved with
      | Some p => resolve_components p cs'
      | None => Err traversal_error
      end
  | Prefix _ :: _ => Err (InvalidInput "Invalid path: absolute path not allowed")
  end.

Definition resolve_safe_file_path (static_path sub_path file_path : string) :
  result NodegetError string :=
  let? _ := validate_sub_path sub_path in
  let base := path_push static_path sub_path in
  let? resolved := resolve_components base (components file_path) in
  if negb (path_starts_with resolved base) then Err traversal_error else Ok resolved.

Example resolve_ex :
  resolve_safe_file_path "./static/" "sites/blog" "/a/./b/../c.html" = Ok "./static/sites/blog/a/c.html" /\
  resolve_safe_file_path "./static/" "sites/blog" "../other/x" = Err traversal_error /\
  resolve_safe_file_path "./static/" "sites/blog" "../blog2" = Err traversal_error.
Proof. repeat split; reflexivity. Qed.

(** ** The walk the guard stands for

    The same loop on a stack of components instead of text, and the lexical
    normalisation of a path that stays below its starting point. *)

Fixpoint walk (stack cs : list Component) : option (list Component) :=
  match cs with
  | [] => Some stack
  | Normal c :: cs' => walk (stack ++ [Normal c]) cs'
  | RootDir :: cs' | CurDir :: cs' => walk stack cs'
  | ParentDir :: cs' =>
      match stack with
      | [] | [RootDir] => None
      | _ => walk (removelast stack) cs'
      end
  | Prefix _ :: _ => None
  end.

Fixpoint normalize (below : list string) (cs : list Component) : option (list string) :=
  match cs with
  | [] => Some below
  | Normal c :: cs' => normalize (below ++ [c]) cs'
  | RootDir :: cs' | CurDir :: cs' => normalize below cs'
  | ParentDir :: cs' =>
      match below with
      | [] => None
      | _ => normalize (removelast below) cs'
      end
  | Prefix _ :: _ => None
  end.

(** ** Segments *)

Notation no_sep s := (contains_char path_sep s = false).

(** What a [Normal] component holds: a name without separators other than [.] and [..]. *)
Definition plain_name (c : string) : Prop :=
  no_sep c /\ parse_single_component c = Some (Normal c).

Lemma split_sep_cons s : exists seg segs, split_sep s = seg :: segs.
Proof.
  induction s as [|c s (seg & segs & IH)]; simpl; [eauto|].
  destruct (Ascii.eqb c path_sep); [eauto|]. rewrite IH. eauto.
Qed.

Lemma split_sep_app a b : split_sep (a +:+ String path_sep b) = split_sep a ++ split_sep b.
Proof.
  induction a as [|c a IH]; simpl; [done|].
  destruct (Ascii.eqb c path_sep); [by rewrite IH|].
  rewrite IH. destruct (split_sep_cons a) as (seg & segs & ->). done.
Qed.

Lemma split_sep_no_sep s : no_sep s -> split_sep s = [s].
Proof.
  induction s as [|c s IH]; simpl; [done|].
  intros [Hc Hs]%orb_false_iff. rewrite Ascii.eqb_sym, Hc, (IH Hs). done.
Qed.

Lemma split_sep_segs s : Forall (fun seg => no_sep seg) (split_sep s).
Proof.
  induction s as [|c s IH]; simpl; [by repeat constructor|].
  destruct (Ascii.eqb c path_sep) eqn:E; [by constructor|].
  destruct (split_sep_cons s) as (seg & segs & Hs). rewrite Hs in *.
  inversion IH as [|? ? IH1 IH2]; subst. constructor; [|done].
  cbn [contains_char]. by rewrite Ascii.eqb_sym, E, IH1.
Qed.

Lemma split_join l : l <> [] -> Forall (fun seg => no_sep seg) l -> split_sep (join_sep l) = l.
Proof.
  intros Hne Hl. induction Hl as [|x l Hx Hl IH]; [done|].
  destruct l as [|y l]; [by apply split_sep_no_sep|].
  change (join_sep (x :: y :: l)) with (x +:+ String path_sep (join_sep (y :: l))).
  rewrite split_sep_app, IH, split_sep_no_sep by done. done.
Qed.

Lemma ends_with_sep_spec p : ends_with_sep p = true -> exists q, p = q +:+ String path_sep "".
Proof.
  induction p as [|c p IH]; [done|]. destruct p as [|d p].
  - simpl. intros ->%Ascii.eqb_eq. by exists "".
  - change (ends_with_sep (String c (String d p))) with (ends_with_sep (String d p)).
    intros (q & ->)%IH. by exists (String c q).
Qed.

Lemma split_sep_empty s : split_sep s = [""] -> s = "".
Proof.
  destruct s as [|c s]; [done|]. simpl. destruct (split_sep_cons s) as (? & ? & ->).
  by case_match.
Qed.

(** Appending segments leaves the start of a path other than the empty one alone. *)
Lemma start_component_app a b :
  a <> [] -> a <> [""] -> start_component (a ++ b) = start_component a.
Proof.
  destruct a as [|x a]; [done|]. intros _ H. simpl.
  destruct (String.eqb_spec x ""); [|done]. subst x. by destruct a.
Qed.

Lemma seg_components_app a b :
  a <> [] -> a <> [""] ->
  seg_components (a ++ b) = seg_components a ++ omap parse_single_component b.
Proof.
  intros H1 H2. unfold seg_components.
  by rewrite start_component_app, omap_app, app_assoc by done.
Qed.

(** ** The text operations on components *)

Lemma components_push p q :
  has_root q = false -> p <> "" ->
  components (path_push p q) = components p ++ omap parse_single_component (split_sep q).
Proof.
  intros Hq Hp. unfold path_push, components. rewrite Hq.
  destruct (String.eqb_spec p "") as [?|_]; [done|]. simpl.
  assert (split_sep p <> []) as Hs1 by (by destruct (split_sep_cons p) as (? & ? & ->)).
  assert (split_sep p <> [""]) as Hs2 by (by intros ?%split_sep_empty).
  destruct (ends_with_sep p) eqn:E.
  - apply ends_with_sep_spec in E as (p0 & ->). rewrite string_app_assoc. simpl.
    rewrite !split_sep_app in *. destruct (split_sep_cons p0) as (x & l & ->).
    unfold seg_components. rewrite !omap_app, <-!app_assoc.
    assert (omap parse_single_component (split_sep "") = []) as -> by reflexivity.
    f_equal. simpl. destruct (split_sep_cons q) as (y & m & ->).
    destruct (String.eqb x ""); [|done]. by destruct l.
  - rewrite split_sep_app, seg_components_app by done. done.
Qed.

Lemma plain_name_root c : plain_name c -> has_root c = false.
Proof.
  intros [H _]. destruct c as [|x c]; [done|]. cbn [contains_char] in H. simpl.
  apply orb_false_iff in H as [H _]. by rewrite Ascii.eqb_sym.
Qed.

Lemma components_push_normal p c :
  plain_name c -> components (path_push p c) = components p ++ [Normal c].
Proof.
  intros Hc. pose proof (plain_name_root c Hc) as Hr. destruct Hc as [Hn Hp].
  destruct (String.eqb_spec p "") as [->|Hne].
  - unfold path_push. rewrite Hr. simpl. unfold components, seg_components.
    rewrite split_sep_no_sep by done. simpl. rewrite Hp.
    unfold parse_single_component in Hp. repeat case_match; simplify_eq; done.
  - rewrite components_push, split_sep_no_sep by done. simpl. by rewrite Hp.
Qed.

Lemma trim_right_spec l :
  exists d, l = d ++ trim_right l /\ omap parse_single_component d = [].
Proof.
  induction l as [|x l (d & IH1 & IH2)]; simpl; [by exists []|].
  unfold is_component. destruct (parse_single_component x) eqn:E; [by exists []|].
  exists (x :: d). split; [by rewrite <-app_comm_cons, <-IH1|]. csimpl. by rewrite E.
Qed.

Lemma trim_right_head l x r :
  trim_right l = x :: r -> exists c, parse_single_component x = Some c.
Proof.
  induction l as [|y l IH]; simpl; [done|]. unfold is_component.
  destruct (parse_single_component y) eqn:E; [|done]. intros [= -> ->]. eauto.
Qed.

Lemma omap_rev_nil {A B} (f : A -> option B) l : omap f l = [] -> omap f (rev l) = [].
Proof.
  induction l as [|x l IH]; [done|]. csimpl. rewrite omap_app. csimpl.
  destruct (f x); [done|]. intros H. by rewrite IH.
Qed.

Lemma body_parent_spec segs :
  match body_parent segs with
  | Some b => exists c rest, segs = b ++ rest /\ c <> RootDir /\
      omap parse_single_component segs = omap parse_single_component b ++ [c]
  | None => omap parse_single_component segs = []
  end.
Proof.
  unfold body_parent. destruct (trim_right_spec (rev segs)) as (d & Hd & Hn).
  destruct (trim_right (rev segs)) as [|x r] eqn:E.
  - rewrite app_nil_r in Hd. rewrite <-(rev_involutive segs), Hd. by apply omap_rev_nil.
  - destruct (trim_right_head _ _ _ E) as [c Hc].
    destruct (trim_right_spec r) as (d2 & Hd2 & Hn2). exists c.
    exists (rev d2 ++ x :: rev d).
    assert (segs = rev (trim_right r) ++ rev d2 ++ x :: rev d) as Hs.
    { rewrite <-(rev_involutive segs), Hd, rev_app_distr. simpl. rewrite Hd2 at 1.
      by rewrite rev_app_distr, <-!app_assoc. }
    split; [done|]. split; [unfold parse_single_component in Hc; by repeat case_match; simplify_eq|].
    rewrite Hs at 1. rewrite !omap_app. csimpl. rewrite Hc.
    by rewrite (omap_rev_nil _ d2), (omap_rev_nil _ d).
Qed.

Lemma split_join_body b :
  Forall (fun seg => no_sep seg) b ->
  omap parse_single_component (split_sep (join_sep b)) = omap parse_single_component b.
Proof. intros Hb. destruct b as [|x b]; [done|]. by rewrite split_join. Qed.

(** The body found by [body_parent], cut from the segments of a path. *)
Lemma body_parent_segs segs b :
  Forall (fun seg => no_sep seg) segs -> body_parent segs = Some b ->
  exists c rest, segs = b ++ rest /\ Forall (fun seg => no_sep seg) b /\ c <> RootDir /\
    omap parse_single_component segs = omap parse_single_component b ++ [c].
Proof.
  intros Hs E. pose proof (body_parent_spec segs) as Hb. rewrite E in Hb.
  destruct Hb as (c & rest & -> & Hc & ->). exists c, rest. split; [done|].
  apply Forall_app in Hs as [? _]. done.
Qed.

Lemma omap_skip x l : parse_single_component x = None ->
  omap parse_single_component (x :: l) = omap parse_single_component l.
Proof. intros H. csimpl. by rewrite H. Qed.

Lemma split_join_root b :
  Forall (fun seg => no_sep seg) b ->
  seg_components (split_sep (String path_sep (join_sep b))) =
  RootDir :: omap parse_single_component b.
Proof.
  intros Hb. change (String path_sep (join_sep b)) with ("" +:+ String path_sep (join_sep b)).
  rewrite split_sep_app. change (split_sep "") with [""]. unfold seg_components.
  rewrite <-(split_join_body b Hb), <-app_comm_cons, app_nil_l, omap_skip by done.
  by destruct (split_sep_cons (join_sep b)) as (z & k & ->).
Qed.

(** [parent] removes the last component; only the empty path and the root have none. *)
Lemma parent_components p :
  match parent p with
  | Some q => exists c, components p = components q ++ [c] /\ c <> RootDir
  | None => components p = [] \/ components p = [RootDir]
  end.
Proof.
  unfold parent, components. pose proof (split_sep_segs p) as Hs.
  destruct (split_sep_cons p) as (x & l & Hp). rewrite Hp in *. clear Hp.
  inversion Hs as [|? ? Hx Hl]; subst. unfold seg_components at 1 3 4. cbn [start_component].
  destruct (String.eqb_spec x "") as [->|Hne]; [destruct l as [|y l]|].
  - simpl. by left.
  - cbv beta iota zeta. cbn [tail]. rewrite omap_skip by done.
    pose proof (body_parent_spec (y :: l)) as Hb.
    destruct (body_parent (y :: l)) as [b|] eqn:E; [|rewrite Hb; by right].
    destruct (body_parent_segs _ b Hl E) as (c & rest & _ & Hf & Hc & ->). exists c.
    by rewrite split_join_root.
  - destruct (String.eqb_spec x ".") as [->|Hne2]; cbv beta iota zeta.
    + cbn [tail]. rewrite omap_skip by done. pose proof (body_parent_spec l) as Hb.
      destruct (body_parent l) as [b|] eqn:E; [|rewrite Hb; by exists CurDir].
      destruct (body_parent_segs _ b Hl E) as (c & rest & _ & Hf & Hc & ->). exists c.
      rewrite split_join by (try done; by constructor). unfold seg_components.
      by rewrite omap_skip.
    + pose proof (body_parent_spec (x :: l)) as Hb.
      destruct (body_parent (x :: l)) as [b|] eqn:E; [|rewrite Hb; by left].
      destruct (body_parent_segs _ b Hs E) as (c & rest & Hr & Hf & Hc & ->). exists c.
      destruct b as [|z b]; [done|]. injection Hr as <- _. rewrite split_join by done.
      unfold seg_components. cbn [start_component].
      by destruct (String.eqb_spec x ""), (String.eqb_spec x ".").
Qed.

Lemma components_plain p : Forall (fun c => forall n, c = Normal n -> plain_name n) (components p).
Proof.
  unfold components, seg_components. apply Forall_app. split.
  - destruct (split_sep p) as [|x l]; [constructor|]. simpl.
    repeat case_match; repeat constructor; by intros.
  - pose proof (split_sep_segs p) as Hs. induction Hs as [|x l Hx Hl IH]; [constructor|].
    csimpl. destruct (parse_single_component x) as [c|] eqn:E; [|done]. constructor; [|done].
    intros n ->. assert (x = n) as <-; [|done].
    unfold parse_single_component in E. by repeat case_match; simplify_eq.
Qed.

Lemma walk_parent st c cs :
  c <> RootDir -> walk (st ++ [c]) (ParentDir :: cs) = walk st cs.
Proof.
  intros Hc. pose proof (removelast_last st c) as Hr. cbn [walk].
  destruct (st ++ [c]) as [|x [|y l]] eqn:E.
  - by destruct st.
  - destruct st as [|? []]; simplify_eq/=. by destruct x.
  - destruct x; by rewrite Hr.
Qed.

(** The text loop is the walk. *)
Lemma resolve_components_walk cs : forall p,
  Forall (fun c => forall n, c = Normal n -> plain_name n) cs ->
  match resolve_components p cs with
  | Ok r => walk (components p) cs = Some (components r)
  | Err _ => walk (components p) cs = None
  end.
Proof.
  induction cs as [|c cs IH]; intros p Hcs; [done|].
  inversion Hcs as [|? ? Hc Hcs']; subst. destruct c; cbn [resolve_components];
    [done|by apply IH|by apply IH| |].
  - unfold path_pop. pose proof (parent_components p) as Hp. destruct (parent p) as [q|].
    + destruct Hp as (c & Hp & Hroot). rewrite Hp. rewrite walk_parent by done. by apply IH.
    + by destruct Hp as [-> | ->].
  - specialize (Hc _ eq_refl). cbn [walk].
    rewrite <-components_push_normal by done. by apply IH.
Qed.


(** ** The walk *)

Notation plain_components cs := (Forall (fun c => forall n, c = Normal n -> plain_name n) cs).

Lemma list_snoc_cases {A} (l : list A) : l = [] \/ exists l0 x, l = l0 ++ [x].
Proof. destruct l using rev_ind; eauto. Qed.

Lemma take_removelast {A} k (l : list A) : exists k', removelast (take k l) = take k' l.
Proof.
  revert k. induction l as [|x l IH]; intros [|k]; try by exists 0.
  destruct (IH k) as [k' Hk]. simpl. destruct (take k l) as [|y m] eqn:E; [by exists 0|].
  exists (S k'). simpl in *. by rewrite Hk.
Qed.

(** A walk leaves some of the components it started from, followed by plain names. *)
Lemma walk_shape cs : forall base k ns l,
  plain_components cs -> Forall plain_name ns ->
  walk (take k base ++ map Normal ns) cs = Some l ->
  exists k' ns', l = take k' base ++ map Normal ns' /\ Forall plain_name ns'.
Proof.
  induction cs as [|c cs IH]; intros base k ns l Hcs Hns H.
  { injection H as <-. eauto. }
  inversion Hcs as [|? ? Hc Hcs']; subst.
  destruct c as [| | | |c]; [done|by eapply IH|by eapply IH| |].
  - assert (exists k' ns', Forall plain_name ns' /\
              walk (take k' base ++ map Normal ns') cs = Some l) as (k' & ns' & ? & ?);
      [|by eapply IH].
    cbn [walk] in H.
    destruct (take k base ++ map Normal ns) as [|x st'] eqn:E; [done|].
    assert (walk (removelast (x :: st')) cs = Some l) as Hw.
    { destruct x; [done| |done..]. by destruct st'. }
    clear H. rewrite <-E in Hw. destruct (list_snoc_cases ns) as [->|(ns0 & n & ->)].
    + destruct (take_removelast k base) as [k' Hk]. exists k', []. split; [constructor|].
      rewrite app_nil_r in *. by rewrite Hk in Hw.
    + apply Forall_app in Hns as [Hns _]. exists k, ns0. split; [done|].
      rewrite map_app, app_assoc in Hw. change (map Normal [n]) with [Normal n] in Hw.
      by rewrite removelast_last in Hw.
  - cbn [walk] in H. rewrite <-app_assoc in H. apply (IH base k (ns ++ [c])); [done| |by rewrite map_app].
    apply Forall_app. split; [done|]. constructor; [by apply Hc|constructor].
Qed.

Lemma is_prefix_spec a b : is_prefix a b = true <-> exists t, b = a ++ t.
Proof.
  revert b. induction a as [|x a IH]; intros b; simpl.
  { split; [intros _; by exists b|done]. }
  destruct b as [|y b]; [split; [done|by intros [t ?]]|].
  rewrite andb_true_iff, bool_decide_eq_true, IH. split.
  - intros [-> [t ->]]. by exists t.
  - intros [t [= -> ->]]. eauto.
Qed.

Lemma walk_normalize cs : forall base ns ns',
  normalize ns cs = Some ns' ->
  walk (base ++ map Normal ns) cs = Some (base ++ map Normal ns').
Proof.
  induction cs as [|c cs IH]; intros base ns ns' H.
  { by injection H as <-. }
  destruct c as [| | | |c]; [done|by apply IH|by apply IH| |].
  - destruct (list_snoc_cases ns) as [->|(ns0 & n & ->)]; [done|].
    rewrite map_app, app_assoc. change (map Normal [n]) with [Normal n].
    rewrite walk_parent by done. apply IH. cbn [normalize] in H.
    pose proof (removelast_last ns0 n) as Hr.
    destruct (ns0 ++ [n]) as [|x l] eqn:E; [by destruct ns0|]. by rewrite Hr in H.
  - cbn [walk]. rewrite <-app_assoc. cbn [normalize] in H. specialize (IH base _ _ H).
    by rewrite map_app in IH.
Qed.

Lemma map_Normal_inj a b : map Normal a = map Normal b -> a = b.
Proof. revert b. induction a as [|x a IH]; intros [|y b] H; simplify_eq/=; [done|]. f_equal. auto. Qed.

(** ** Accepted sub paths *)

Definition valid_name (n : string) : Prop := validate_name n = Ok tt.

Lemma check_sub_components_ok cs : forall has b,
  check_sub_components cs has = Ok b ->
  Forall (fun c => c = CurDir \/ exists n, c = Normal n /\ valid_name n) cs /\
  (b = true -> has = true \/ exists n, Normal n ∈ cs).
Proof.
  induction cs as [|c cs IH]; intros has b H; simpl in H.
  { injection H as ->. split; [constructor|by left]. }
  destruct c as [| | | |n]; try done.
  - apply IH in H as [H1 H2]. split; [constructor; [by left|done]|].
    intros [?|[n Hn]]%H2; [by left|]. right. exists n. by right.
  - apply rbind_ok in H as ([] & Hn & H). apply IH in H as [H1 H2].
    split; [constructor; [|done]; eauto|]. intros _. right. exists n. by left.
Qed.

Lemma omap_normals segs :
  Forall (fun c => c = CurDir \/ exists n, c = Normal n /\ valid_name n)
    (omap parse_single_component segs) ->
  exists ns, omap parse_single_component segs = map Normal ns /\ Forall valid_name ns.
Proof.
  induction segs as [|x segs IH]; [by exists []|]. csimpl.
  destruct (parse_single_component x) as [c|] eqn:E; [|done].
  intros H. inversion H as [|? ? Hc Hr]; subst. apply IH in Hr as (ns & -> & Hns).
  destruct Hc as [->|(n & -> & Hn)].
  { unfold parse_single_component in E. by repeat case_match. }
  exists (n :: ns). split; [done|by constructor].
Qed.

(** An accepted sub path is relative and a non-empty sequence of valid names. *)
Lemma validate_sub_path_shape sub :
  validate_sub_path sub = Ok tt ->
  has_root sub = false /\
  exists segs, omap parse_single_component (split_sep sub) = map Normal segs /\
    segs <> [] /\ Forall valid_name segs.
Proof.
  unfold validate_sub_path. intros H. do 3 (destruct (_ : bool) in H at 1; [done|]).
  apply rbind_ok in H as (b & Hb & H). destruct b; [|done].
  apply check_sub_components_ok in Hb as [H1 H2].
  destruct (H2 eq_refl) as [?|[n Hn]]; [done|]. clear H H2.
  unfold components, seg_components in *. apply Forall_app in H1 as [Hs Ho].
  destruct (omap_normals _ Ho) as (segs & Hsegs & Hv). rewrite Hsegs in *.
  split; [|exists segs; split_and!; try done].
  - destruct sub as [|c s]; [done|]. simpl. destruct (Ascii.eqb c path_sep) eqn:E; [|done].
    exfalso. simpl in Hs. rewrite E in Hs. destruct (split_sep_cons s) as (x & l & Hx).
    rewrite Hx in Hs. inversion Hs as [|? ? [?|(? & ? & _)] _]; done.
  - intros ->. rewrite app_nil_r in Hn. unfold start_component in Hn.
    repeat case_match; try (by apply not_elem_of_nil in Hn);
      apply list_elem_of_singleton in Hn; done.
Qed.

Lemma bucket_dir_components static_path sub_path :
  validate_sub_path sub_path = Ok tt -> static_path <> "" ->
  exists segs, components (path_push static_path sub_path) =
    components static_path ++ map Normal segs /\ segs <> [] /\ Forall valid_name segs.
Proof.
  intros (Hr & segs & Ho & Hne & Hv)%validate_sub_path_shape Hsp. exists segs.
  split; [|done]. by rewrite components_push, Ho.
Qed.

(** The accepted path, its walk being a prefix of base components and then names. *)
Lemma resolve_ok_components static_path sub_path file_path resolved :
  resolve_safe_file_path static_path sub_path file_path = Ok resolved ->
  exists ns, components resolved = components (path_push static_path sub_path) ++ map Normal ns /\
    Forall plain_name ns /\ validate_sub_path sub_path = Ok tt.
Proof.
  unfold resolve_safe_file_path. set (base := path_push _ _).
  intros ([] & Hsub & (r & Hr & H)%rbind_ok)%rbind_ok.
  destruct (negb _) eqn:E; [done|]. injection H as <-. apply negb_false_iff in E.
  apply is_prefix_spec in E as [t Ht].
  pose proof (resolve_components_walk _ base (components_plain file_path)) as Hw.
  rewrite Hr in Hw.
  rewrite <-(take_ge (components base) (length (components base))) in Hw at 1 by done.
  rewrite <-(app_nil_r (take _ _)) in Hw.
  destruct (walk_shape _ _ _ [] _ (components_plain file_path) (Forall_nil_2 _) Hw)
    as (k & ns & Hl & Hns).
  exists (drop (length (components base) - length (take k (components base))) ns).
  split_and!; [|by apply Forall_drop|done]. rewrite Ht. f_equal.
  rewrite Ht in Hl. apply (f_equal (drop (length (components base)))) in Hl.
  rewrite drop_app_length in Hl. rewrite Hl, drop_app, <-fmap_drop.
  rewrite (drop_ge (take _ _)) by (rewrite length_take; lia). done.
Qed.

(** ** What the guard guarantees *)

(** a path [resolve_safe_file_path] accepts never leaves its bucket: its components
    are those of the bucket directory [static_path/sub_path] followed by plain names only
    (no [..], no [.], no root, no separator inside a name), whatever the file path was;
    and the bucket directory itself is a proper descendant of the configured root. *)
Theorem resolve_confined static_path sub_path file_path resolved :
  resolve_safe_file_path static_path sub_path file_path = Ok resolved ->
  exists ns, components resolved = components (path_push static_path sub_path) ++ map Normal ns /\
    Forall plain_name ns /\
    (static_path <> "" -> exists segs, components (path_push static_path sub_path) =
       components static_path ++ map Normal segs /\ segs <> [] /\ Forall valid_name segs).
Proof.
  intros (ns & Hc & Hns & Hsub)%resolve_ok_components. exists ns. split_and!; [done..|].
  by apply bucket_dir_components.
Qed.

Lemma resolve_confined_witness :
  resolve_safe_file_path "/srv/static" "./sites//blog" "a/../../blog/./b.html" = Ok "/srv/static/./sites/blog/b.html" /\
  exists ns, components "/srv/static/./sites/blog/b.html" =
    components (path_push "/srv/static" "./sites//blog") ++ map Normal ns /\ Forall plain_name ns.
Proof.
  split; [vm_compute; reflexivity|].
  destruct (resolve_confined "/srv/static" "./sites//blog" "a/../../blog/./b.html"
              "/srv/static/./sites/blog/b.html") as (ns & H1 & H2 & _);
    [vm_compute; reflexivity|]. by exists ns.
Defined.

(** The guard refuses nothing it need not: for a valid bucket directory, a file path
    that never climbs above its starting point is accepted, and names what lexical
    normalisation says. *)
Theorem resolve_complete static_path sub_path file_path ns :
  validate_sub_path sub_path = Ok tt ->
  normalize [] (components file_path) = Some ns ->
  exists resolved, resolve_safe_file_path static_path sub_path file_path = Ok resolved /\
    components resolved = components (path_push static_path sub_path) ++ map Normal ns.
Proof.
  intros Hsub Hn. unfold resolve_safe_file_path. rewrite Hsub. cbn [rbind].
  set (base := path_push _ _).
  pose proof (resolve_components_walk _ base (components_plain file_path)) as Hw.
  pose proof (walk_normalize _ (components base) [] ns Hn) as Hk. rewrite app_nil_r in Hk.
  destruct (resolve_components base (components file_path)) as [r|]; [|congruence].
  exists r. rewrite Hk in Hw. injection Hw as Hw. split; [|done]. cbn [rbind].
  unfold path_starts_with. rewrite <-Hw.
  by rewrite (proj2 (is_prefix_spec (components base) _)) by eauto.
Qed.

Lemma resolve_complete_witness :
  exists resolved, resolve_safe_file_path "" "blog" "/css/../a.html" = Ok resolved /\
    components resolved = components (path_push "" "blog") ++ map Normal ["a.html"].
Proof. apply resolve_complete; vm_compute; reflexivity. Defined.
