(* ===== verification/StaticFs.v ===== *)
(** * The disk under the static file service

    The file-system calls of [ng-static/src/ops.rs] ([tokio::fs], [Path::exists]) as an
    interface, with the documented behaviour the service relies on.  Files are known by
    the place a path names: its components walked from the process's working directory,
    in a tree without symbolic links.  [MemFs] is a small in-memory disk that satisfies
    the laws and serves the examples. *)
From stdpp Require Import base strings gmap list numbers.
From S2P Require Import Prelude Errors StaticPath.

Inductive IoErrorKind : Type := KindNotFound | KindOther.

(** [std::io::Error]: its kind and its text. *)
Record IoErr : Type := { io_kind : IoErrorKind; io_msg : string }.

Definition is_not_found (e : IoErr) : bool :=
  match io_kind e with KindNotFound => true | KindOther => false end.

Class FsOps (FS : Type) : Type := {
  create_dir_all : string -> M FS IoErr unit;
  remove_dir_all : string -> M FS IoErr unit;
  (** [Path::exists] *)
  fs_exists : string -> FS -> bool;
  fs_write : string -> list Z -> M FS IoErr unit;
  (** [fs::metadata(p).len()] *)
  fs_len : string -> FS -> result IoErr Z;
  fs_read : string -> FS -> result IoErr (list Z);
  remove_file : string -> M FS IoErr unit;
  fs_rename : string -> string -> M FS IoErr unit;
}.

(** ** Places *)

Definition loc_step (at_ : list string) (c : Component) : list string :=
  match c with
  | Normal n => at_ ++ [n]
  | ParentDir => removelast at_
  | RootDir => []
  | CurDir | Prefix _ => at_
  end.

(** The absolute place a path names, for a process working in [cwd]. *)
Definition locate (cwd : list string) (p : string) : list string :=
  fold_left loc_step (components p) cwd.

(** [q] is the directory [d] or lies below it. *)
Definition under (d q : list string) : Prop := exists ns, q = d ++ ns.

Lemma locate_below cwd p base ns :
  components p = components base ++ map Normal ns -> locate cwd p = locate cwd base ++ ns.
Proof.
  unfold locate. intros ->. rewrite fold_left_app. generalize (fold_left loc_step (components base) cwd).
  induction ns as [|n ns IH]; intros d; simpl; [by rewrite app_nil_r|].
  by rewrite IH, <-app_assoc.
Qed.

(** The guard of [resolve_safe_file_path], on places. *)
Lemma resolve_under cwd static_path sub_path file_path resolved :
  resolve_safe_file_path static_path sub_path file_path = Ok resolved ->
  under (locate cwd (path_push static_path sub_path)) (locate cwd resolved).
Proof.
  intros (ns & Hns & _)%resolve_ok_components. exists ns. by apply locate_below.
Qed.

Lemma under_trans d e q : under d e -> under e q -> under d q.
Proof. intros [a ->] [b ->]. exists (a ++ b). by rewrite app_assoc. Qed.

Class FsLaws {FS : Type} (ops : FsOps FS) (cwd : list string)
    (file : FS -> list string -> option (list Z)) : Prop := {
  create_dir_all_frame : forall p s q, file (fst (create_dir_all p s)) q = file s q;
  remove_dir_all_frame : forall p s q,
    ~ under (locate cwd p) q -> file (fst (remove_dir_all p s)) q = file s q;
  remove_dir_all_ok : forall p s s' q,
    remove_dir_all p s = (s', Ok tt) -> under (locate cwd p) q -> file s' q = None;
  fs_write_frame : forall p d s q,
    q <> locate cwd p -> file (fst (fs_write p d s)) q = file s q;
  fs_write_ok : forall p d s s',
    fs_write p d s = (s', Ok tt) -> file s' (locate cwd p) = Some d;
  fs_len_ok : forall p s n d,
    fs_len p s = Ok n -> file s (locate cwd p) = Some d -> n = Z.of_nat (length d);
  fs_read_ok : forall p s d, fs_read p s = Ok d -> file s (locate cwd p) = Some d;
  remove_file_frame : forall p s q,
    q <> locate cwd p -> file (fst (remove_file p s)) q = file s q;
  remove_file_ok : forall p s s', remove_file p s = (s', Ok tt) -> file s' (locate cwd p) = None;
  remove_file_err : forall p s s' e, remove_file p s = (s', Err e) ->
    file s' (locate cwd p) = file s (locate cwd p) /\
    (is_not_found e = true -> file s (locate cwd p) = None);
  fs_rename_frame : forall p q s x,
    ~ under (locate cwd p) x -> ~ under (locate cwd q) x ->
    file (fst (fs_rename p q s)) x = file s x;
  fs_rename_ok : forall p q s s' d,
    fs_rename p q s = (s', Ok tt) -> locate cwd p <> locate cwd q ->
    file s (locate cwd p) = Some d ->
    file s' (locate cwd q) = Some d /\ file s' (locate cwd p) = None;
  fs_rename_err : forall p q s s' e x, fs_rename p q s = (s', Err e) -> file s' x = file s x;
}.

(** ** An in-memory disk *)

Record MemFs : Type := { mem : gmap (list string) (list Z); read_only : bool }.

Definition io_error (k : IoErrorKind) (m : string) : IoErr := {| io_kind := k; io_msg := m |}.
Definition enoent : IoErr := io_error KindNotFound "No such file or directory (os error 2)".
Definition erofs : IoErr := io_error KindOther "Read-only file system (os error 30)".

Definition underb (d q : list string) : bool := bool_decide (take (length d) q = d).

Lemma underb_spec d q : underb d q = true <-> under d q.
Proof.
  unfold underb. rewrite bool_decide_eq_true. split.
  - intros H. exists (drop (length d) q). by rewrite <-H at 1; rewrite take_drop.
  - intros [ns ->]. by rewrite take_app_length.
Qed.

Definition mem_update {A} (f : gmap (list string) (list Z) -> gmap (list string) (list Z) * result IoErr A) :
  M MemFs IoErr A :=
  fun s => if read_only s then (s, Err erofs)
           else let '(m, r) := f (mem s) in ({| mem := m; read_only := false |}, r).

Definition mem_ops (cwd : list string) : FsOps MemFs := {|
  create_dir_all _ := mem_update (fun m => (m, Ok tt));
  remove_dir_all p := mem_update (fun m =>
    (filter (fun kv => underb (locate cwd p) kv.1 = false) m, Ok tt));
  fs_exists p s := existsb (fun kv => underb (locate cwd p) kv.1) (map_to_list (mem s));
  fs_write p d := mem_update (fun m => (<[locate cwd p := d]> m, Ok tt));
  fs_len p s := match mem s !! locate cwd p with
                | Some d => Ok (Z.of_nat (length d)) | None => Err enoent end;
  fs_read p s := match mem s !! locate cwd p with Some d => Ok d | None => Err enoent end;
  remove_file p := mem_update (fun m =>
    match m !! locate cwd p with
    | Some _ => (delete (locate cwd p) m, Ok tt) | None => (m, Err enoent) end);
  fs_rename p q := mem_update (fun m =>
    match m !! locate cwd p with
    | Some d => (<[locate cwd q := d]> (delete (locate cwd p) m), Ok tt)
    | None => (m, Err enoent) end);
|}.

Definition mem_file (s : MemFs) (q : list string) : option (list Z) := mem s !! q.

Lemma mem_laws cwd : FsLaws (mem_ops cwd) cwd mem_file.
Proof.
  assert (forall d, under d d) as Hrefl by (intros d; exists []; by rewrite app_nil_r).
  split; unfold mem_file; cbn [create_dir_all remove_dir_all fs_write fs_len fs_read
    remove_file fs_rename mem_ops]; unfold mem_update.
  - intros p s q. by destruct (read_only s).
  - intros p s q Hq. destruct (read_only s); [done|]. simpl.
    destruct (mem s !! q) eqn:E.
    + apply map_lookup_filter_Some. split; [done|]. simpl. apply not_true_iff_false.
      by rewrite underb_spec.
    + apply map_lookup_filter_None. by left.
  - intros p s s' q H Hq. destruct (read_only s); [done|]. injection H as <-. simpl.
    apply map_lookup_filter_None. right. intros x _. simpl. apply not_false_iff_true.
    by apply underb_spec.
  - intros p d s q Hq. destruct (read_only s); [done|]. simpl. by apply lookup_insert_ne.
  - intros p d s s' H. destruct (read_only s); [done|]. injection H as <-. simpl.
    by rewrite lookup_insert_eq.
  - intros p s n d H Hd. rewrite Hd in H. congruence.
  - intros p s d H. destruct (mem s !! _); congruence.
  - intros p s q Hq. destruct (read_only s); [done|]. destruct (mem s !! locate cwd p); [|done].
    simpl. by apply lookup_delete_ne.
  - intros p s s' H. destruct (read_only s); [done|].
    destruct (mem s !! locate cwd p); [|done]. injection H as <-. simpl. by rewrite lookup_delete_eq.
  - intros p s s' e H. destruct (read_only s); [by injection H as <- <-|].
    destruct (mem s !! locate cwd p) eqn:E; [done|]. injection H as <- <-. by simpl.
  - intros p q s x Hp Hq. destruct (read_only s); [done|].
    destruct (mem s !! locate cwd p); [|done]. simpl.
    rewrite lookup_insert_ne by (intros <-; auto). apply lookup_delete_ne. intros <-; auto.
  - intros p q s s' d H Hne Hd. destruct (read_only s); [done|]. rewrite Hd in H.
    injection H as <-. simpl. rewrite lookup_insert_eq. split; [done|].
    rewrite lookup_insert_ne by done. by rewrite lookup_delete_eq.
  - intros p q s s' e x H. destruct (read_only s); [by injection H as <- <-|].
    destruct (mem s !! locate cwd p); [done|]. by injection H as <- <-.
Qed.
