(* ===== verification/StaticBucket.v ===== *)
(** * Static file buckets

    [ng-static/src/cache.rs] (the in-memory index of the [static_file] table) and the
    operations of [ng-static/src/ops.rs]: creating, reading, updating and deleting a
    bucket, and uploading, reading, deleting and renaming the files inside one.  The
    state is everything they share: the table, the cache, the cached [static_path], the
    WebDAV handlers bound to disk directories, and the disk. *)
From stdpp Require Import base strings gmap list numbers pretty.
From Stdlib Require Import Ascii.
From S2P Require Import Prelude Errors Db StaticPath StaticFs.

(** ** Data *)

(** A row of the [static_file] table. *)
Record StaticModel : Type := {
  s_id : Z;
  s_name : string;
  s_path : string;
  s_is_http_root : bool;
  s_cors : bool;
  s_enable : bool;
}.

#[global] Instance StaticModel_eq_dec : EqDecision StaticModel.
Proof. solve_decision. Defined.

(** The primary key, [UNIQUE(name)] and the partial unique index on [is_http_root]. *)
Definition static_conflict (a b : StaticModel) : bool :=
  (s_id a =? s_id b)%Z || String.eqb (s_name a) (s_name b) || (s_is_http_root a && s_is_http_root b).

Lemma static_conflict_sym a b : static_conflict a b = static_conflict b a.
Proof.
  unfold static_conflict. by rewrite Z.eqb_sym, String.eqb_sym, (andb_comm (s_is_http_root a)).
Qed.

Record StaticCacheInner : Type := {
  by_name : gmap string StaticModel;
  http_root_name : option string;
}.

Definition build_step (c : StaticCacheInner) (model : StaticModel) : StaticCacheInner := {|
  by_name := <[s_name model := model]> (by_name c);
  http_root_name :=
    if s_is_http_root model then
      match http_root_name c with None => Some (s_name model) | Some n => Some n end
    else http_root_name c;
|}.

Definition build_maps (models : list StaticModel) : StaticCacheInner :=
  fold_left build_step models {| by_name := ∅; http_root_name := None |}.

Definition get_by_name (c : StaticCacheInner) (name : string) : option StaticModel := by_name c !! name.

Definition get_http_root (c : StaticCacheInner) : option StaticModel :=
  name ← http_root_name c; by_name c !! name.

(** ** State *)

Record SWorld (DB FS : Type) : Type := {
  sw_db : option DB;
  sw_cache : option StaticCacheInner;      (** [STATIC_CACHE_GLOBAL] *)
  sw_dav : gmap string string;             (** [DAV_HANDLER_CACHE]: the directory each handler serves *)
  sw_static_path : string;                 (** [STATIC_PATH] *)
  sw_config : option (option string);      (** the server configuration's [static_path] *)
  sw_fs : FS;
}.
Arguments sw_db {DB FS}. Arguments sw_cache {DB FS}. Arguments sw_dav {DB FS}.
Arguments sw_static_path {DB FS}. Arguments sw_config {DB FS}. Arguments sw_fs {DB FS}.

(** The [base64] crate's [STANDARD] engine. *)
Class Base64 : Type := {
  b64_encode : list Z -> string;
  b64_decode : string -> result string (list Z);
}.

Definition MAX_STATIC_FILE_SIZE : Z := 8 * 1024 * 1024.

Section static_ops.
Context {DB FS : Type} {ops : TableOps DB StaticModel} {fs : FsOps FS} {b64 : Base64}.

Definition Sm (A : Type) : Type := M (SWorld DB FS) anyhow A.

Definition set_db (d : option DB) (w : SWorld DB FS) : SWorld DB FS :=
  {| sw_db := d; sw_cache := sw_cache w; sw_dav := sw_dav w;
     sw_static_path := sw_static_path w; sw_config := sw_config w; sw_fs := sw_fs w |}.
Definition set_cache (c : option StaticCacheInner) (w : SWorld DB FS) : SWorld DB FS :=
  {| sw_db := sw_db w; sw_cache := c; sw_dav := sw_dav w;
     sw_static_path := sw_static_path w; sw_config := sw_config w; sw_fs := sw_fs w |}.
Definition set_dav (h : gmap string string) (w : SWorld DB FS) : SWorld DB FS :=
  {| sw_db := sw_db w; sw_cache := sw_cache w; sw_dav := h;
     sw_static_path := sw_static_path w; sw_config := sw_config w; sw_fs := sw_fs w |}.
Definition set_static_path (p : string) (w : SWorld DB FS) : SWorld DB FS :=
  {| sw_db := sw_db w; sw_cache := sw_cache w; sw_dav := sw_dav w;
     sw_static_path := p; sw_config := sw_config w; sw_fs := sw_fs w |}.
Definition set_fs (s : FS) (w : SWorld DB FS) : SWorld DB FS :=
  {| sw_db := sw_db w; sw_cache := sw_cache w; sw_dav := sw_dav w;
     sw_static_path := sw_static_path w; sw_config := sw_config w; sw_fs := s |}.

Definition fail {A} (e : NodegetError) : Sm A := mfail (OfNodeget e).
Definition pure {A} (r : result NodegetError A) : Sm A := lift (map_err OfNodeget r).

(** [get_db().context("DB not initialized")?]. *)
Definition get_db : Sm unit :=
  fun w => match sw_db w with Some _ => (w, Ok tt) | None => (w, Err (OfText "DB not initialized")) end.

Definition exec {A} (conv : DbErr -> anyhow) (stmt : M DB DbErr A) : Sm A :=
  fun w => match sw_db w with
           | Some d => let '(d', r) := stmt d in (set_db (Some d') w, map_err conv r)
           | None => (w, Err (OfText "DB not initialized"))
           end.

(** A bare [?] on a statement. *)
Definition db_any (e : DbErr) : anyhow := OfText (db_msg e).

(** A disk call whose failure is only logged. *)
Definition disk_logged {A} (call : M FS IoErr A) : Sm unit :=
  fun w => (set_fs (fst (call (sw_fs w))) w, Ok tt).
Definition disk {A} (conv : IoErr -> anyhow) (call : M FS IoErr A) : Sm A :=
  fun w => let '(s, r) := call (sw_fs w) in (set_fs s w, map_err conv r).

(** ** The configured root *)

Definition read_static_path_from_config (w : SWorld DB FS) : string :=
  match sw_config w with
  | Some (Some p) => p
  | Some None | None => "./static/"
  end.

Definition get_static_path : Sm string :=
  fun w => if str_is_empty (sw_static_path w)
           then let val := read_static_path_from_config w in (set_static_path val w, Ok val)
           else (w, Ok (sw_static_path w)).

Definition reload_static_path : Sm unit :=
  fun w => (set_static_path (read_static_path_from_config w) w, Ok tt).

Definition clear_dav_handler_cache : Sm unit := fun w => (set_dav ∅ w, Ok tt).

(** ** The cache life cycle *)

Definition load_all : Sm (list StaticModel) :=
  fun w => match sw_db w with
           | Some d =>
               let '(d', r) := find_all (fun _ => true) d in
               (set_db (Some d') w, map_err (fun e => OfText ("Failed to load from DB: " +:+ db_msg e)) r)
           | None => (w, Err (OfNodeget (ConfigNotFound "Database connection not initialized")))
           end.

Definition reload : Sm unit :=
  fun w => match sw_cache w with
           | None => (w, Ok tt)
           | Some _ => (let! models := load_all in
                        fun w' => (set_cache (Some (build_maps models)) w', Ok tt)) w
           end.

Definition init : Sm unit :=
  let! models := load_all in
  fun w => match sw_cache w with
           | Some _ => reload w
           | None => (set_cache (Some (build_maps models)) w, Ok tt)
           end.

(** ** Buckets *)

Definition has_name (name : string) (r : StaticModel) : bool := String.eqb (s_name r) name.
Definition has_id (id : Z) (r : StaticModel) : bool := (s_id r =? id)%Z.

Definition new_row (name path : string) (is_http_root cors : bool) (id : Z) : StaticModel := {|
  s_id := id; s_name := name; s_path := path; s_is_http_root := is_http_root;
  s_cors := cors; s_enable := true;   (* the column's default *)
|}.

Definition another_root : NodegetError :=
  InvalidInput "Another static already has is_http_root enabled".

Definition create_static (name path : string) (is_http_root cors : bool) : Sm StaticModel :=
  let! _ := get_db in
  let name_trimmed := trim name in
  let! _ := pure (validate_name name_trimmed) in
  let path_trimmed := trim path in
  let! _ := pure (validate_sub_path path_trimmed) in
  let! existing := exec db_any (find_one (has_name name_trimmed)) in
  match existing with
  | Some _ => fail (DatabaseError ("Static '" +:+ name_trimmed +:+ "' already exists"))
  | None =>
      let! has_root := (if is_http_root then exec db_any (find_one s_is_http_root) else mret None) in
      match has_root with
      | Some _ => fail another_root
      | None =>
          let! id := exec (fun e => OfNodeget (DatabaseError ("Failed to create static: " +:+ db_msg e)))
                       (insert_auto (new_row name_trimmed path_trimmed is_http_root cors)) in
          let! static_path := get_static_path in
          let! _ := disk_logged (create_dir_all (path_push static_path path_trimmed)) in
          let! _ := reload in
          mret (new_row name_trimmed path_trimmed is_http_root cors id)
      end
  end.

Definition the_cache : Sm StaticCacheInner :=
  fun w => (w, ok_or (OfNodeget (ConfigNotFound "StaticCache not initialized")) (sw_cache w)).

Definition read_static (name : string) : Sm (option StaticModel) :=
  let! cache := the_cache in
  mret (get_by_name cache name).

Definition update_row (path : string) (is_http_root cors : bool) (enable : option bool)
    (r : StaticModel) : StaticModel := {|
  s_id := s_id r; s_name := s_name r; s_path := path; s_is_http_root := is_http_root;
  s_cors := cors;
  s_enable := match enable with Some v => v | None => s_enable r end;
|}.

Definition static_not_found (name : string) : NodegetError :=
  NotFound ("Static '" +:+ name +:+ "' not found").

Definition update_static (name new_path : string) (new_is_http_root new_cors : bool)
    (new_enable : option bool) : Sm StaticModel :=
  let! _ := get_db in
  let name_trimmed := trim name in
  let! _ := pure (validate_name name_trimmed) in
  let new_path_trimmed := trim new_path in
  let! _ := pure (validate_sub_path new_path_trimmed) in
  let! found := exec db_any (find_one (has_name name_trimmed)) in
  let! model := lift (ok_or (OfNodeget (static_not_found name_trimmed)) found) in
  let! has_root :=
    (if new_is_http_root && negb (s_is_http_root model)
     then exec db_any (find_one (fun r => s_is_http_root r && negb (has_id (s_id model) r)))
     else mret None) in
  match has_root with
  | Some _ => fail another_root
  | None =>
      let! updated := exec (fun e => OfNodeget (DatabaseError ("Failed to update static: " +:+ db_msg e)))
                        (update_one (has_id (s_id model))
                           (update_row new_path_trimmed new_is_http_root new_cors new_enable)) in
      let! static_path := get_static_path in
      let! _ := disk_logged (create_dir_all (path_push static_path new_path_trimmed)) in
      let! _ := reload in
      let! _ := clear_dav_handler_cache in
      mret updated
  end.

Definition delete_static_bucket_dir (bucket_sub_path : string) : Sm unit :=
  let! _ := pure (validate_sub_path bucket_sub_path) in
  let! static_path := get_static_path in
  let dir := path_push static_path bucket_sub_path in
  fun w => if fs_exists dir (sw_fs w)
           then disk (fun e => OfText (io_msg e)) (remove_dir_all dir) w
           else (w, Ok tt).

Definition delete_static (name : string) : Sm unit :=
  let! _ := get_db in
  let name_trimmed := trim name in
  let! _ := pure (validate_name name_trimmed) in
  let! found := exec db_any (find_one (has_name name_trimmed)) in
  let! model := lift (ok_or (OfNodeget (static_not_found name_trimmed)) found) in
  let bucket_sub_path := s_path model in
  let! _ := exec db_any (delete_many (has_id (s_id model))) in
  let! _ := (fun w => (fst (delete_static_bucket_dir bucket_sub_path w), Ok tt)) in
  let! _ := reload in
  let! _ := clear_dav_handler_cache in
  mret tt.

(** ** Files *)

(** The look-up every file operation starts with. *)
Definition bucket_of (name : string) : Sm StaticModel :=
  let! _ := pure (validate_name name) in
  let! cache := the_cache in
  lift (ok_or (OfNodeget (static_not_found name)) (get_by_name cache name)).

(** Resolve a path inside a bucket. *)
Definition resolve_in (model : StaticModel) (file_path : string) : Sm string :=
  let! static_path := get_static_path in
  pure (resolve_safe_file_path static_path (s_path model) file_path).

(** [if let Some(parent) = p.parent() && let Err(e) = create_dir_all(parent)]. *)
Definition make_parent (p : string) : Sm unit :=
  match parent p with
  | Some dir => disk_logged (create_dir_all dir)
  | None => mret tt
  end.

(** The bytes to store: the body, or the decoded string; exactly one is given. *)
Definition upload_payload (body : option (list Z)) (base64_str : option string) :
  result NodegetError (result NodegetError (list Z)) :=
  match body, base64_str with
  | Some _, Some _ => Err (InvalidInput "Cannot provide both body and base64")
  | None, None => Err (InvalidInput "Must provide either body or base64")
  | Some b, None => Ok (Ok b)
  | None, Some s => Ok (map_err (fun e => InvalidInput ("Invalid base64: " +:+ e)) (b64_decode s))
  end.

Definition upload_file (name file_path : string) (body : option (list Z)) (base64_str : option string) :
  Sm unit :=
  let! decoded := pure (upload_payload body base64_str) in
  let! model := bucket_of name in
  let! data := pure decoded in
  let! resolved := resolve_in model file_path in
  let! _ := make_parent resolved in
  disk (fun e => OfNodeget (IoError ("Failed to write file: " +:+ io_msg e))) (fs_write resolved data).

Definition file_io_error (what file_path : string) (e : IoErr) : anyhow :=
  OfNodeget (if is_not_found e then NotFound ("File not found: " +:+ file_path)
             else IoError ("Failed to " +:+ what +:+ " file: " +:+ io_msg e)).

Definition too_large (len : Z) : NodegetError :=
  InvalidInput ("File too large (" +:+ pretty len +:+ " bytes, max " +:+ pretty MAX_STATIC_FILE_SIZE
                +:+ "); use WebDAV for large files").

Definition read_file (name file_path : string) : Sm string :=
  let! model := bucket_of name in
  let! resolved := resolve_in model file_path in
  let! len := (fun w => (w, map_err (file_io_error "stat" file_path) (fs_len resolved (sw_fs w)))) in
  if (MAX_STATIC_FILE_SIZE <? len)%Z then fail (too_large len)
  else
    let! data := (fun w => (w, map_err (file_io_error "read" file_path) (fs_read resolved (sw_fs w)))) in
    mret (b64_encode data).

Definition delete_file (name file_path : string) : Sm unit :=
  let! model := bucket_of name in
  let! resolved := resolve_in model file_path in
  fun w => let '(s, r) := remove_file resolved (sw_fs w) in
           (set_fs s w,
            match r with
            | Ok _ => Ok tt
            | Err e => if is_not_found e then Ok tt
                       else Err (OfNodeget (IoError ("Failed to delete file: " +:+ io_msg e)))
            end).

Definition rename_file (name from to : string) : Sm unit :=
  let! model := bucket_of name in
  let! static_path := get_static_path in
  let! from_resolved := pure (resolve_safe_file_path static_path (s_path model) from) in
  let! to_resolved := pure (resolve_safe_file_path static_path (s_path model) to) in
  if path_eq from_resolved to_resolved then mret tt
  else
    let! _ := make_parent to_resolved in
    disk (fun e => OfNodeget (if is_not_found e then NotFound ("Source file not found: " +:+ from)
                              else IoError ("Failed to rename file: " +:+ io_msg e)))
      (fs_rename from_resolved to_resolved).
End static_ops.

(** ** Runs of file operations *)

Inductive FileOp : Type :=
| Upload (file_path : string) (body : option (list Z)) (base64_str : option string)
| ReadFile (file_path : string)
| DeleteFile (file_path : string)
| RenameFile (from to : string).

Section static_runs.
Context {DB FS : Type} {ops : TableOps DB StaticModel} {fs : FsOps FS} {b64 : Base64}.

(** The state one request leaves behind, successful or not. *)
Definition file_step (w : SWorld DB FS) (req : string * FileOp) : SWorld DB FS :=
  let '(name, op) := req in
  match op with
  | Upload p b s => fst (upload_file name p b s w)
  | ReadFile p => fst (read_file name p w)
  | DeleteFile p => fst (delete_file name p w)
  | RenameFile f t => fst (rename_file name f t w)
  end.

Definition file_run (reqs : list (string * FileOp)) (w : SWorld DB FS) : SWorld DB FS :=
  fold_left file_step reqs w.

Inductive AdminOp : Type :=
| Init | Reload | ReloadStaticPath
| Create (name path : string) (is_http_root cors : bool)
| Update (name path : string) (is_http_root cors : bool) (enable : option bool)
| Delete (name : string)
| File (name : string) (op : FileOp).

Definition admin_step (w : SWorld DB FS) (op : AdminOp) : SWorld DB FS :=
  match op with
  | Init => fst (init w)
  | Reload => fst (reload w)
  | ReloadStaticPath => fst (reload_static_path w)
  | Create n p h c => fst (create_static n p h c w)
  | Update n p h c e => fst (update_static n p h c e w)
  | Delete n => fst (delete_static n w)
  | File n op => file_step w (n, op)
  end.

Definition admin_run (l : list AdminOp) (w : SWorld DB FS) : SWorld DB FS := fold_left admin_step l w.

(** The root directory the next request uses, and the directory of a bucket. *)
Definition effective_path (w : SWorld DB FS) : string :=
  if str_is_empty (sw_static_path w) then read_static_path_from_config w else sw_static_path w.

Definition bucket_dir (cwd : list string) (w : SWorld DB FS) (m : StaticModel) : list string :=
  locate cwd (path_push (effective_path w) (s_path m)).

(** *** What file operations leave alone *)

(** Same table, cache and root directory; only the disk may differ. *)
Record only_disk (w w' : SWorld DB FS) : Prop := {
  od_db : sw_db w' = sw_db w;
  od_cache : sw_cache w' = sw_cache w;
  od_path : effective_path w' = effective_path w;
}.

Lemma only_disk_refl w : only_disk w w.
Proof using. by split. Qed.

Lemma only_disk_trans w1 w2 w3 : only_disk w1 w2 -> only_disk w2 w3 -> only_disk w1 w3.
Proof using. intros [] []. split; congruence. Qed.

Lemma get_static_path_run (w : SWorld DB FS) :
  exists w', get_static_path w = (w', Ok (effective_path w)) /\ only_disk w w' /\ sw_fs w' = sw_fs w.
Proof using.
  unfold get_static_path, effective_path. destruct (str_is_empty (sw_static_path w)) eqn:E.
  - eexists. split; [done|]. split; [|done]. split; [done..|]. unfold effective_path. simpl.
    rewrite E. by destruct (str_is_empty (read_static_path_from_config w)).
  - exists w. split; [done|]. by split; [apply only_disk_refl|].
Qed.

Lemma only_disk_fs (w : SWorld DB FS) s : only_disk w (set_fs s w).
Proof using. by split. Qed.

Lemma bucket_of_run name (w : SWorld DB FS) :
  bucket_of name w = (w, snd (bucket_of name w)) /\
  forall m, snd (bucket_of name w) = Ok m ->
    exists c, sw_cache w = Some c /\ get_by_name c name = Some m.
Proof using.
  unfold bucket_of, pure, the_cache, mbind, lift. destruct (validate_name name); simpl; [|naive_solver].
  destruct (sw_cache w) as [c|]; simpl; [|naive_solver].
  split; [done|]. destruct (get_by_name c name) eqn:E; naive_solver.
Qed.

Lemma resolve_in_run m p (w : SWorld DB FS) :
  exists w', resolve_in m p w =
    (w', map_err OfNodeget (resolve_safe_file_path (effective_path w) (s_path m) p)) /\
    only_disk w w' /\ sw_fs w' = sw_fs w.
Proof using.
  destruct (get_static_path_run w) as (w' & H & Hd & Hf). exists w'.
  unfold resolve_in, mbind. by rewrite H.
Qed.
End static_runs.

Section isolation.
Context {DB FS : Type} {ops : TableOps DB StaticModel} {fs : FsOps FS} {b64 : Base64}.
Context {cwd : list string} {file : FS -> list string -> option (list Z)}.
Context {fs_laws : FsLaws fs cwd file}.

(** From [w] to [w'] only files at places in [D] changed. *)
Record confined (D : list string -> Prop) (w w' : SWorld DB FS) : Prop := {
  conf_disk : only_disk w w';
  conf_files : forall q, ~ D q -> file (sw_fs w') q = file (sw_fs w) q;
}.

Lemma confined_same D w w' : only_disk w w' -> sw_fs w' = sw_fs w -> confined D w w'.
Proof using. intros ? Hf. split; [done|]. intros q _. by rewrite Hf. Qed.

Lemma confined_trans D w1 w2 w3 : confined D w1 w2 -> confined D w2 w3 -> confined D w1 w3.
Proof using.
  intros [H1 F1] [H2 F2]. split; [by eapply only_disk_trans|].
  intros q Hq. by rewrite F2, F1.
Qed.

Lemma make_parent_run D p w :
  exists w', make_parent p w = (w', Ok tt) /\ confined D w w'.
Proof using fs_laws.
  unfold make_parent, disk_logged, mret. destruct (parent p) as [dir|]; eexists; (split; [done|]).
  - split; [apply only_disk_fs|]. intros q _. simpl. apply create_dir_all_frame.
  - by apply confined_same; [apply only_disk_refl|].
Qed.

Lemma disk_confined {A} (D : list string -> Prop) conv (call : M FS IoErr A) (w : SWorld DB FS) :
  (forall q, ~ D q -> file (fst (call (sw_fs w))) q = file (sw_fs w) q) ->
  confined D w (fst (disk conv call w)).
Proof using.
  unfold disk. destruct (call (sw_fs w)) as [s r]. intros H. split; [apply only_disk_fs|done].
Qed.

Lemma upload_confined name p body s w :
  confined (fun _ => False) w (fst (upload_file name p body s w)) \/
  exists c m, sw_cache w = Some c /\ get_by_name c name = Some m /\
    confined (under (bucket_dir cwd w m)) w (fst (upload_file name p body s w)).
Proof using fs_laws.
  assert (forall D, confined D w w) as Hrefl
    by (intros; apply confined_same; [apply only_disk_refl|done]).
  unfold upload_file, pure. rewrite mbind_lift. destruct (upload_payload body s) as [decoded|]; simpl; [|by left].
  rewrite mbind_run. destruct (bucket_of_run name w) as [-> Hb].
  destruct (snd (bucket_of name w)) as [m|]; [|by left]. right.
  destruct (Hb m eq_refl) as (c & Hc & Hm). exists c, m. split_and!; try done.
  rewrite mbind_lift. destruct decoded as [data|]; simpl; [|done].
  rewrite mbind_run. destruct (resolve_in_run m p w) as (w1 & -> & H1 & Hf1).
  destruct (resolve_safe_file_path _ _ _) as [r|] eqn:Er; simpl; [|by apply confined_same].
  rewrite mbind_run. destruct (make_parent_run (under (bucket_dir cwd w m)) r w1) as (w2 & -> & H2).
  eapply confined_trans; [by apply confined_same|]. eapply confined_trans; [exact H2|].
  apply disk_confined. intros q Hq. apply fs_write_frame. intros ->. apply Hq.
  by eapply resolve_under.
Qed.

Lemma read_confined name p w : confined (fun _ => False) w (fst (read_file name p w)).
Proof using.
  unfold read_file. rewrite mbind_run. destruct (bucket_of_run name w) as [-> _].
  destruct (snd (bucket_of name w)) as [m|]; [|by apply confined_same; [apply only_disk_refl|]].
  rewrite mbind_run. destruct (resolve_in_run m p w) as (w1 & -> & H1 & Hf1).
  destruct (resolve_safe_file_path _ _ _) as [r|]; simpl; [|by apply confined_same].
  rewrite mbind_run. destruct (fs_len r (sw_fs w1)); simpl; [|by apply confined_same].
  case_match; [by apply confined_same|]. rewrite mbind_run.
  destruct (fs_read r (sw_fs w1)); by apply confined_same.
Qed.

Lemma delete_confined name p w :
  confined (fun _ => False) w (fst (delete_file name p w)) \/
  exists c m, sw_cache w = Some c /\ get_by_name c name = Some m /\
    confined (under (bucket_dir cwd w m)) w (fst (delete_file name p w)).
Proof using fs_laws.
  unfold delete_file. rewrite mbind_run. destruct (bucket_of_run name w) as [-> Hb].
  destruct (snd (bucket_of name w)) as [m|];
    [|left; by apply confined_same; [apply only_disk_refl|]]. right.
  destruct (Hb m eq_refl) as (c & Hc & Hm). exists c, m. split_and!; try done.
  rewrite mbind_run. destruct (resolve_in_run m p w) as (w1 & -> & H1 & Hf1).
  destruct (resolve_safe_file_path _ _ _) as [r|] eqn:Er; simpl; [|by apply confined_same].
  eapply confined_trans; [by apply confined_same|].
  destruct (remove_file r (sw_fs w1)) as [s res] eqn:E. split; [apply only_disk_fs|].
  intros q Hq. simpl. replace s with (fst (remove_file r (sw_fs w1))) by (by rewrite E).
  apply remove_file_frame. intros ->. apply Hq. by eapply resolve_under.
Qed.

Lemma rename_confined name f t w :
  confined (fun _ => False) w (fst (rename_file name f t w)) \/
  exists c m, sw_cache w = Some c /\ get_by_name c name = Some m /\
    confined (under (bucket_dir cwd w m)) w (fst (rename_file name f t w)).
Proof using fs_laws.
  unfold rename_file, pure. rewrite mbind_run. destruct (bucket_of_run name w) as [-> Hb].
  destruct (snd (bucket_of name w)) as [m|];
    [|left; by apply confined_same; [apply only_disk_refl|]]. right.
  destruct (Hb m eq_refl) as (c & Hc & Hm). exists c, m. split_and!; try done.
  rewrite mbind_run. destruct (get_static_path_run w) as (w1 & -> & H1 & Hf1).
  rewrite mbind_lift.
  destruct (resolve_safe_file_path _ _ f) as [rf|] eqn:Ef; simpl; [|by apply confined_same].
  rewrite mbind_lift.
  destruct (resolve_safe_file_path _ _ t) as [rt|] eqn:Et; simpl; [|by apply confined_same].
  destruct (path_eq rf rt); [by apply confined_same|]. rewrite mbind_run.
  destruct (make_parent_run (under (bucket_dir cwd w m)) rt w1) as (w2 & -> & H2).
  eapply confined_trans; [by apply confined_same|]. eapply confined_trans; [exact H2|].
  apply disk_confined. intros q Hq.
  apply fs_rename_frame; intros Hu; apply Hq.
  - exact (under_trans _ _ _ (resolve_under cwd _ _ _ _ Ef) Hu).
  - exact (under_trans _ _ _ (resolve_under cwd _ _ _ _ Et) Hu).
Qed.

Lemma file_step_confined name op w :
  confined (fun _ => False) w (file_step w (name, op)) \/
  exists c m, sw_cache w = Some c /\ get_by_name c name = Some m /\
    confined (under (bucket_dir cwd w m)) w (file_step w (name, op)).
Proof using fs_laws.
  destruct op; simpl; auto using upload_confined, delete_confined, rename_confined, read_confined.
Qed.

(** buckets are isolated.  Whatever sequence of uploads, reads, deletions and renames
    is run, with any file paths and whether or not the requests succeed, a file outside the
    directories of the buckets named in the requests keeps its contents, and the table, the
    cache and the root directory are untouched. *)
Theorem bucket_isolation reqs (w : SWorld DB FS) q :
  (forall name op c m, (name, op) ∈ reqs -> sw_cache w = Some c ->
     get_by_name c name = Some m -> ~ under (bucket_dir cwd w m) q) ->
  file (sw_fs (file_run reqs w)) q = file (sw_fs w) q /\ only_disk w (file_run reqs w).
Proof using fs_laws.
  revert w. induction reqs as [|[name op] reqs IH]; intros w Hq.
  { split; [done|apply only_disk_refl]. }
  change (file_run ((name, op) :: reqs) w) with (file_run reqs (file_step w (name, op))).
  assert (confined (fun x => x <> q) w (file_step w (name, op))) as [Hd Hf].
  { destruct (file_step_confined name op w) as [[Hd Hf]|(c & m & Hc & Hm & [Hd Hf])]; split; try done.
    - intros x _. apply Hf. tauto.
    - intros x Hx. apply Hf. destruct (decide (x = q)) as [->|]; [|tauto].
      eapply Hq; [by left|done..]. }
  destruct (IH (file_step w (name, op))) as [H1 H2].
  - intros name' op' c m Hin Hc Hm. rewrite (od_cache _ _ Hd) in Hc. unfold bucket_dir.
    rewrite (od_path _ _ Hd). by eapply Hq; [right| |].
  - rewrite H1. split; [apply Hf; tauto|]. by eapply only_disk_trans.
Qed.

(** *** What file operations do *)

(** The place a file path of bucket [name] names, when it is accepted. *)
Definition place (w : SWorld DB FS) (name p : string) : option (list string) :=
  c ← sw_cache w; m ← get_by_name c name;
  match resolve_safe_file_path (effective_path w) (s_path m) p with
  | Ok r => Some (locate cwd r)
  | Err _ => None
  end.

Lemma bucket_of_ok name (w w' : SWorld DB FS) m :
  bucket_of name w = (w', Ok m) -> w' = w /\ exists c, sw_cache w = Some c /\ get_by_name c name = Some m.
Proof using.
  destruct (bucket_of_run name w) as [Hr Hb]. rewrite Hr. intros [= <- H]. eauto.
Qed.

Lemma resolve_in_ok m p (w w' : SWorld DB FS) r :
  resolve_in m p w = (w', Ok r) ->
  only_disk w w' /\ sw_fs w' = sw_fs w /\
  resolve_safe_file_path (effective_path w) (s_path m) p = Ok r.
Proof using.
  destruct (resolve_in_run m p w) as (w1 & -> & Hd & Hf). intros [= -> Hr].
  by apply map_err_ok in Hr.
Qed.

Lemma place_ok (w : SWorld DB FS) name p c m r :
  sw_cache w = Some c -> get_by_name c name = Some m ->
  resolve_safe_file_path (effective_path w) (s_path m) p = Ok r ->
  place w name p = Some (locate cwd r).
Proof using. intros Hc Hm Hr. unfold place. rewrite Hc. simpl. rewrite Hm. simpl. by rewrite Hr. Qed.

Lemma make_parent_ok p (w w' : SWorld DB FS) :
  make_parent p w = (w', Ok tt) -> confined (fun _ => False) w w'.
Proof using fs_laws.
  destruct (make_parent_run (fun _ => False) p w) as (w1 & -> & H). by intros [= <-].
Qed.

Lemma disk_ok {A} conv (call : M FS IoErr A) (w w' : SWorld DB FS) a :
  disk conv call w = (w', Ok a) ->
  exists s, call (sw_fs w) = (s, Ok a) /\ w' = set_fs s w.
Proof using.
  unfold disk. destruct (call (sw_fs w)) as [s [x|]]; [|done]. intros [= <- <-]. eauto.
Qed.

Lemma upload_ok name p body s (w w' : SWorld DB FS) :
  upload_file name p body s w = (w', Ok tt) ->
  exists data q, upload_payload body s = Ok (Ok data) /\ place w name p = Some q /\
    file (sw_fs w') q = Some data /\
    forall q', q' <> q -> file (sw_fs w') q' = file (sw_fs w) q'.
Proof using fs_laws.
  unfold upload_file, pure. intros H. inv_ok.
  match goal with H : bucket_of _ _ = _ |- _ => apply bucket_of_ok in H as (-> & c & Hc & Hm) end.
  match goal with H : resolve_in _ _ _ = _ |- _ => apply resolve_in_ok in H as (Hd1 & Hf1 & Hr) end.
  match goal with H : make_parent _ _ = (_, Ok ?x) |- _ => destruct x; apply make_parent_ok in H as [_ Hf2] end.
  match goal with H : disk _ _ _ = _ |- _ => apply disk_ok in H as (s' & Hw & ->) end.
  eexists _, _. split_and!; [done|by eapply place_ok|by eapply fs_write_ok|].
  intros q' Hq. simpl. replace s' with (fst (s', Ok (E := IoErr) tt)) by done.
  rewrite <-Hw, fs_write_frame by done. rewrite Hf2 by tauto. by rewrite Hf1.
Qed.

Lemma read_ok name p (w w' : SWorld DB FS) e :
  read_file name p w = (w', Ok e) ->
  exists q data, place w name p = Some q /\ file (sw_fs w) q = Some data /\
    e = b64_encode data /\ (Z.of_nat (length data) <= MAX_STATIC_FILE_SIZE)%Z.
Proof using fs_laws.
  unfold read_file, pure. intros H. apply mbind_ok in H as (w1 & m & Hb & H).
  apply bucket_of_ok in Hb as (-> & c & Hc & Hm).
  apply mbind_ok in H as (w2 & r & Hr & H). apply resolve_in_ok in Hr as (_ & Hf & Hr).
  apply mbind_ok in H as (w3 & len & Hl & H). injection Hl as <- Hl. apply map_err_ok in Hl.
  destruct (MAX_STATIC_FILE_SIZE <? len)%Z eqn:E; [done|].
  apply mbind_ok in H as (w4 & data & Hd & H). injection Hd as <- Hd. apply map_err_ok in Hd.
  injection H as _ <-. rewrite Hf in *. apply fs_read_ok in Hd.
  rewrite (fs_len_ok _ _ _ _ Hl Hd) in E. apply Z.ltb_ge in E.
  eexists _, data. split_and!; [by eapply place_ok|done..].
Qed.

Lemma delete_ok name p (w w' : SWorld DB FS) :
  delete_file name p w = (w', Ok tt) ->
  exists q, place w name p = Some q /\ file (sw_fs w') q = None /\
    forall q', q' <> q -> file (sw_fs w') q' = file (sw_fs w) q'.
Proof using fs_laws.
  unfold delete_file. intros H. apply mbind_ok in H as (w1 & m & Hb & H).
  apply bucket_of_ok in Hb as (-> & c & Hc & Hm).
  apply mbind_ok in H as (w2 & r & Hr & H). apply resolve_in_ok in Hr as (_ & Hf & Hr).
  rewrite Hf in H. destruct (remove_file r (sw_fs w)) as [s res] eqn:E.
  injection H as <- Hres. eexists. split_and!; [by eapply place_ok| |].
  - simpl. destruct res as [[]|e]; [by eapply remove_file_ok|].
    destruct (is_not_found e) eqn:Ek; [|done].
    destruct (remove_file_err _ _ _ _ E) as [-> H]. auto.
  - intros q' Hq. simpl. replace s with (fst (s, res)) by done.
    by rewrite <-E, remove_file_frame.
Qed.

(** Distinct accepted paths of one bucket are distinct places. *)
Lemma resolved_distinct sp sub f t rf rt :
  resolve_safe_file_path sp sub f = Ok rf -> resolve_safe_file_path sp sub t = Ok rt ->
  path_eq rf rt = false <-> locate cwd rf <> locate cwd rt.
Proof using.
  intros (nf & Hf & _)%resolve_ok_components (nt & Ht & _)%resolve_ok_components.
  unfold path_eq. rewrite bool_decide_eq_false, Hf, Ht.
  rewrite (locate_below cwd _ _ _ Hf), (locate_below cwd _ _ _ Ht).
  rewrite !app_inv_head_iff. split; intros H Heq; apply H; [by subst|].
  by apply map_Normal_inj.
Qed.

Lemma rename_ok name f t (w w' : SWorld DB FS) data :
  rename_file name f t w = (w', Ok tt) ->
  exists qf qt, place w name f = Some qf /\ place w name t = Some qt /\
    (file (sw_fs w) qf = Some data ->
     file (sw_fs w') qt = Some data /\ (qf <> qt -> file (sw_fs w') qf = None)) /\
    forall q', ~ under qf q' -> ~ under qt q' -> file (sw_fs w') q' = file (sw_fs w) q'.
Proof using fs_laws.
  unfold rename_file, pure. intros H. apply mbind_ok in H as (w1 & m & Hb & H).
  apply bucket_of_ok in Hb as (-> & c & Hc & Hm).
  apply mbind_ok in H as (w2 & sp & Hp & H).
  destruct (get_static_path_run w) as (w1 & Hp' & Hd1 & Hf1). rewrite Hp' in Hp.
  injection Hp as <- <-.
  apply mbind_ok in H as (? & rf & Hrf & H). injection Hrf as <- Hrf. apply map_err_ok in Hrf.
  apply mbind_ok in H as (? & rt & Hrt & H). injection Hrt as <- Hrt. apply map_err_ok in Hrt.
  exists (locate cwd rf), (locate cwd rt). split_and!; [by eapply place_ok..| |].
  all: pose proof (resolved_distinct _ _ _ _ _ _ Hrf Hrt) as Hdist.
  all: destruct (path_eq rf rt) eqn:Epe.
  - injection H as <-. rewrite Hf1. intros Hd.
    destruct (decide (locate cwd rf = locate cwd rt)) as [<-|Hne]; [done|].
    by apply Hdist in Hne.
  - intros Hd. apply mbind_ok in H as (w2 & [] & Hmp & H). apply make_parent_ok in Hmp as [_ Hf2].
    apply disk_ok in H as (s & Hs & ->). simpl.
    destruct (fs_rename_ok _ _ _ _ data Hs) as [H1 H2]; [by apply Hdist| |done].
    by rewrite Hf2, Hf1 by tauto.
  - injection H as <-. by rewrite Hf1.
  - intros q' H1 H2. apply mbind_ok in H as (w2 & [] & Hmp & H).
    apply make_parent_ok in Hmp as [_ Hf2]. apply disk_ok in H as (s & Hs & ->). simpl.
    replace s with (fst (s, Ok (E := IoErr) tt)) by done.
    rewrite <-Hs, fs_rename_frame by done. by rewrite Hf2, Hf1 by tauto.
Qed.

(** what the file operations of a bucket do when they succeed.  An upload stores the
    payload (the body, or the decoded string) at the place the path names and changes no
    other file; a read returns the encoded contents of that place, never more than 8 MiB;
    a deletion leaves no file there and changes no other; a rename moves the contents and
    changes nothing outside the two places.  The places all lie in the bucket. *)
Theorem file_ops_spec (w w' : SWorld DB FS) name :
  (forall p body s, upload_file name p body s w = (w', Ok tt) ->
     exists data q, upload_payload body s = Ok (Ok data) /\ place w name p = Some q /\
       file (sw_fs w') q = Some data /\ forall q', q' <> q -> file (sw_fs w') q' = file (sw_fs w) q') /\
  (forall p e, read_file name p w = (w', Ok e) ->
     exists q data, place w name p = Some q /\ file (sw_fs w) q = Some data /\
       e = b64_encode data /\ (Z.of_nat (length data) <= MAX_STATIC_FILE_SIZE)%Z) /\
  (forall p, delete_file name p w = (w', Ok tt) ->
     exists q, place w name p = Some q /\ file (sw_fs w') q = None /\
       forall q', q' <> q -> file (sw_fs w') q' = file (sw_fs w) q') /\
  (forall f t data, rename_file name f t w = (w', Ok tt) ->
     exists qf qt, place w name f = Some qf /\ place w name t = Some qt /\
       (file (sw_fs w) qf = Some data ->
        file (sw_fs w') qt = Some data /\ (qf <> qt -> file (sw_fs w') qf = None)) /\
       forall q', ~ under qf q' -> ~ under qt q' -> file (sw_fs w') q' = file (sw_fs w) q') /\
  (forall p q, place w name p = Some q -> exists c m, sw_cache w = Some c /\
     get_by_name c name = Some m /\ under (bucket_dir cwd w m) q).
Proof using fs_laws.
  split_and!; intros; [by eapply upload_ok|by eapply read_ok|by eapply delete_ok|by eapply rename_ok|].
  match goal with H : place _ _ _ = _ |- _ => unfold place in H; rename H into Hp end.
  destruct (sw_cache w) as [c|]; [|done]. simpl in Hp.
  destruct (get_by_name c name) as [m|] eqn:Hm; [|done]. simpl in Hp.
  destruct (resolve_safe_file_path _ _ _) as [r|] eqn:Er; [|done]. injection Hp as <-.
  exists c, m. split_and!; [done..|]. by eapply resolve_under.
Qed.
End isolation.
