(* ===== verification/StaticAdmin.v ===== *)
(** * Administration of static file buckets

    Properties of creating, updating and deleting buckets ([StaticBucket]): the invariant
    of the [static_file] table and of its cache over every sequence of operations, and the
    effect of each operation that succeeds. *)
From stdpp Require Import base strings gmap list numbers pretty.
From Stdlib Require Import Ascii.
From S2P Require Import Prelude Errors Db StaticPath StaticFs StaticBucket.

(** ** The cache as a function of the rows *)

(** What the validators established when a row was written. *)
Definition row_valid (r : StaticModel) : Prop :=
  valid_name (s_name r) /\ validate_sub_path (s_path r) = Ok tt.

Definition rows_ok (l : list StaticModel) : Prop :=
  unique_rows static_conflict l = true /\ Forall row_valid l.

Lemma static_conflict_name a b : s_name a = s_name b -> static_conflict a b = true.
Proof. intros H. unfold static_conflict. by rewrite H, String.eqb_refl, orb_true_r. Qed.

Lemma static_conflict_id a b : s_id a = s_id b -> static_conflict a b = true.
Proof. intros H. unfold static_conflict. by rewrite H, Z.eqb_refl. Qed.

Lemma static_conflict_root a b :
  s_is_http_root a = true -> s_is_http_root b = true -> static_conflict a b = true.
Proof. intros H1 H2. unfold static_conflict. by rewrite H1, H2, !orb_true_r. Qed.

Lemma fold_by_name ms : forall c n m,
  unique_rows static_conflict ms = true ->
  (by_name (fold_left build_step ms c) !! n = Some m <->
   (m ∈ ms /\ s_name m = n) \/ (by_name c !! n = Some m /\ forall r, r ∈ ms -> s_name r <> n)).
Proof.
  induction ms as [|x ms IH]; intros c n m.
  { intros _. set_solver. }
  intros [Hx Hu]%unique_rows_cons. simpl fold_left.
  rewrite IH by done. simpl. setoid_rewrite elem_of_cons.
  assert (forall r, r ∈ ms -> s_name r <> s_name x) as Hne.
  { intros r Hr Hn. pose proof (Hx r Hr) as Hf. by rewrite static_conflict_name in Hf. }
  destruct (decide (s_name x = n)) as [<-|Hn].
  - rewrite lookup_insert_eq. naive_solver.
  - rewrite lookup_insert_ne by done. naive_solver.
Qed.

Lemma build_maps_name ms n m :
  unique_rows static_conflict ms = true ->
  (get_by_name (build_maps ms) n = Some m <-> m ∈ ms /\ s_name m = n).
Proof.
  intros Hu. unfold get_by_name, build_maps. rewrite fold_by_name by done. simpl.
  rewrite lookup_empty. naive_solver.
Qed.

Lemma fold_http_root ms : forall c,
  http_root_name (fold_left build_step ms c) =
  match http_root_name c with
  | Some n => Some n
  | None => option_map s_name (List.find s_is_http_root ms)
  end.
Proof.
  induction ms as [|x ms IH]; intros c; simpl; [by destruct (http_root_name c)|].
  rewrite IH. simpl. destruct (s_is_http_root x); by destruct (http_root_name c).
Qed.

Lemma build_maps_root ms m :
  unique_rows static_conflict ms = true ->
  (get_http_root (build_maps ms) = Some m <-> m ∈ ms /\ s_is_http_root m = true).
Proof.
  intros Hu. unfold get_http_root.
  assert (http_root_name (build_maps ms) = option_map s_name (List.find s_is_http_root ms)) as ->
    by apply fold_http_root.
  pose proof (find_spec s_is_http_root ms) as Hf.
  destruct (List.find s_is_http_root ms) as [r|]; simpl.
  - destruct Hf as [Hr Hroot]. change (by_name (build_maps ms) !! s_name r)
      with (get_by_name (build_maps ms) (s_name r)).
    rewrite (build_maps_name _ _ _ Hu). split.
    + intros [Hm Hn]. assert (m = r) as ->; [|done].
      eapply (unique_rows_lookup static_conflict); [apply static_conflict_sym|done..|].
      by apply static_conflict_name.
    + intros [Hm Hmr]. assert (m = r) as ->; [|done].
      eapply (unique_rows_lookup static_conflict); [apply static_conflict_sym|done..|].
      by apply static_conflict_root.
  - split; [done|]. intros [Hm Hmr]. by rewrite (Hf m Hm) in Hmr.
Qed.

(** ** The invariant *)

(** A step whose result is known to be good before the rest runs. *)
Lemma preserves_bind_lift {S E A B} (P : S -> Prop) (r : result E A) (k : A -> M S E B) :
  (forall a, r = Ok a -> preserves P (k a)) -> preserves P (mbind (lift r) k).
Proof. intros H s Hs. rewrite mbind_lift. destruct r; [by apply H|done]. Qed.

Section admin.
Context {DB FS : Type} {ops : TableOps DB StaticModel} {laws : TableLaws ops static_conflict}.
Context {fs : FsOps FS} {b64 : Base64}.

Record static_ok (w : SWorld DB FS) : Prop := {
  so_db : forall d, sw_db w = Some d -> rows_ok (rows d);
  so_cache : forall c, sw_cache w = Some c -> exists ms, c = build_maps ms /\ rows_ok ms;
}.

Lemma rows_ok_perm l l' : l ≡ₚ l' -> rows_ok l -> rows_ok l'.
Proof using.
  intros Hp [Hu Hv]. split; [|by rewrite <-Hp].
  by eapply unique_rows_perm; [apply static_conflict_sym|..].
Qed.

(** A statement that keeps the table well formed. *)
Definition keeps {A} (stmt : M DB DbErr A) : Prop :=
  forall d, rows_ok (rows d) -> rows_ok (rows (fst (stmt d))).

Lemma exec_keeps {A} conv (stmt : M DB DbErr A) :
  keeps stmt -> preserves static_ok (exec (FS := FS) conv stmt).
Proof using.
  intros Hk w Hw. unfold exec. destruct (sw_db w) as [d|] eqn:E; [|done].
  pose proof (Hk d) as Hk'. destruct (stmt d) as [d' r]. simpl in *.
  destruct Hw as [Hd Hc]. split; simpl; [|done]. intros ? [= <-]. auto.
Qed.

Lemma static_find_one_keeps p : keeps (find_one p).
Proof using laws.
  intros d Hd. destruct (find_one p d) as [d' r] eqn:E. simpl. by rewrite (find_one_rows _ _ _ _ E).
Qed.

Lemma static_insert_keeps mk : (forall i, row_valid (mk i)) -> keeps (insert_auto mk).
Proof using laws.
  intros Hv d [Hu Hr]. destruct (insert_auto mk d) as [d' r] eqn:E. simpl. split.
  - by eapply insert_auto_unique.
  - destruct r as [i|e].
    + apply insert_auto_ok in E as [-> _]. by constructor.
    + by apply insert_auto_err in E as [-> _].
Qed.

Lemma update_keeps p f :
  (forall r, row_valid r -> row_valid (f r)) -> keeps (update_one p f).
Proof using laws.
  intros Hv d [Hu Hr]. destruct (update_one p f d) as [d' r] eqn:E. simpl. split.
  - by eapply update_unique.
  - destruct r as [r|e].
    + apply update_one_ok in E as [-> _]. apply List.Forall_map.
      eapply Forall_impl; [exact Hr|]. intros x Hx. unfold update_if. destruct (p x); auto.
    + by rewrite (update_one_err _ _ _ _ _ E).
Qed.

Lemma delete_keeps p : keeps (delete_many p).
Proof using laws.
  intros d [Hu Hr]. destruct (delete_many p d) as [d' r] eqn:E. simpl. split.
  - by eapply delete_many_unique.
  - destruct r as [n|e].
    + apply delete_many_ok in E as [-> _]. apply Forall_forall. intros x Hx.
      apply list_filter_elem in Hx as [Hx _]. by eapply Forall_forall.
    + by rewrite (delete_many_err _ _ _ _ E).
Qed.

Lemma disk_logged_ok {A} (call : M FS IoErr A) : preserves static_ok (disk_logged (DB := DB) call).
Proof using. intros w [Hd Hc]. by split. Qed.

Lemma get_static_path_ok : preserves static_ok (get_static_path (DB := DB) (FS := FS)).
Proof using. intros w [Hd Hc]. unfold get_static_path. by destruct (str_is_empty _); split. Qed.

Lemma get_db_static_ok : preserves static_ok (get_db (DB := DB) (FS := FS)).
Proof using. intros w Hw. unfold get_db. by destruct (sw_db w). Qed.

Lemma clear_dav_ok : preserves static_ok (clear_dav_handler_cache (DB := DB) (FS := FS)).
Proof using. intros w [Hd Hc]. by split. Qed.

(** Loading every row: the rows are well formed and the table unchanged. *)
Lemma load_all_run w :
  static_ok w ->
  exists w', fst (load_all w) = w' /\ static_ok w' /\ sw_cache w' = sw_cache w /\
    forall ms, snd (load_all w) = Ok ms ->
      rows_ok ms /\ exists d d', sw_db w = Some d /\ sw_db w' = Some d' /\
        rows d' = rows d /\ ms ≡ₚ rows d.
Proof using laws.
  intros Hw. eexists. split; [done|]. unfold load_all. destruct (sw_db w) as [d|] eqn:E; [|done].
  destruct (find_all (fun _ => true) d) as [d' r] eqn:Ef. simpl.
  pose proof (find_all_rows _ _ _ _ Ef) as Hr. pose proof (so_db _ Hw d E) as Hd. split_and!; [|done|].
  - split; simpl; [|apply Hw]. intros ? [= <-]. by rewrite Hr.
  - intros ms Hms. apply map_err_ok in Hms. subst r. apply find_all_ok in Ef.
    rewrite List.filter_true in Ef. split; [by eapply rows_ok_perm; [symmetry|]|]. naive_solver.
Qed.

Definition synced (w : SWorld DB FS) : Prop :=
  forall d c, sw_db w = Some d -> sw_cache w = Some c -> exists ms, ms ≡ₚ rows d /\ c = build_maps ms.

(** A reload keeps the rows; when it succeeds the cache mirrors them. *)
Lemma reload_run w :
  static_ok w ->
  static_ok (fst (reload w)) /\
  option_map rows (sw_db (fst (reload w))) = option_map rows (sw_db w) /\
  (forall x, snd (reload w) = Ok x -> synced (fst (reload w))).
Proof using laws.
  intros Hw. unfold reload. destruct (sw_cache w) as [c|] eqn:Ec.
  - destruct (load_all_run w Hw) as (w' & Hw' & Hok & Hcc & Hms). rewrite mbind_run.
    assert (option_map rows (sw_db w') = option_map rows (sw_db w)) as Hrows.
    { subst w'. clear -laws. unfold load_all. destruct (sw_db w) as [d|] eqn:E; [|simpl; by rewrite E].
      destruct (find_all _ d) as [d' r] eqn:Ef. simpl. by rewrite (find_all_rows _ _ _ _ Ef). }
    destruct (load_all w) as [w1 [ms|e]]; simpl in Hw'; subst w'; simpl; [|naive_solver].
    destruct (Hms ms eq_refl) as (Hr & d & d' & Hd & Hd' & Hrr & Hp). split_and!; [|done|].
    + split; simpl; [apply Hok|]. intros ? [= <-]. eauto.
    + intros _ _ d0 c0. simpl. rewrite Hd'. intros [= <-] [= <-]. exists ms. by rewrite Hrr.
  - split_and!; [done..|]. intros x _ d c Hd. simpl. by rewrite Ec.
Qed.

Lemma static_reload_ok : preserves static_ok (reload (DB := DB) (FS := FS)).
Proof using laws. intros w Hw. by apply reload_run. Qed.

Lemma static_init_ok : preserves static_ok (init (DB := DB) (FS := FS)).
Proof using laws.
  intros w Hw. unfold init. rewrite mbind_run.
  destruct (load_all_run w Hw) as (w' & Hw' & Hok & Hcc & Hms).
  destruct (load_all w) as [w1 [ms|e]]; simpl in Hw'; subst w'; [|done].
  destruct (sw_cache w1) as [c|]; [by apply static_reload_ok|]. destruct (Hms ms eq_refl) as [Hr _].
  split; simpl; [apply Hok|]. intros ? [= <-]. eauto.
Qed.

Hint Resolve exec_keeps static_find_one_keeps static_insert_keeps update_keeps delete_keeps disk_logged_ok
  get_static_path_ok get_db_static_ok clear_dav_ok static_reload_ok static_init_ok : nodeget.

Lemma fail_ok {A} e : preserves static_ok (fail (A := A) (DB := DB) (FS := FS) e).
Proof using. by intros w Hw. Qed.

Lemma disk_ok' {A} conv (call : M FS IoErr A) : preserves static_ok (disk (DB := DB) conv call).
Proof using. intros w [Hd Hc]. unfold disk. destruct (call (sw_fs w)). by split. Qed.

Lemma the_cache_ok : preserves static_ok (the_cache (DB := DB) (FS := FS)).
Proof using. by intros w Hw. Qed.

Hint Resolve fail_ok disk_ok' the_cache_ok : nodeget.

Lemma new_row_valid n p h c :
  validate_name n = Ok tt -> validate_sub_path p = Ok tt -> forall i, row_valid (new_row n p h c i).
Proof using. by intros Hn Hp i. Qed.

Lemma update_row_valid p h c e r :
  validate_sub_path p = Ok tt -> row_valid r -> row_valid (update_row p h c e r).
Proof using. by intros Hp [Hn _]. Qed.

(** Walk through the validators, remembering what they established. *)
Ltac validated :=
  unfold pure; apply preserves_bind_lift; intros [] ?%map_err_ok.

Lemma create_ok n p h c : preserves static_ok (create_static (DB := DB) (FS := FS) n p h c).
Proof using laws.
  unfold create_static. apply preserves_bind; [auto with nodeget|intros _].
  validated. validated. pose proof (new_row_valid (trim n) (trim p) h c) as Hnew.
  preserve.
Qed.

Lemma static_update_ok n p h c e : preserves static_ok (update_static (DB := DB) (FS := FS) n p h c e).
Proof using laws.
  unfold update_static. apply preserves_bind; [auto with nodeget|intros _].
  validated. validated. pose proof (update_row_valid (trim p) h c e) as Hupd.
  preserve.
Qed.

Lemma delete_dir_ok p : preserves static_ok (delete_static_bucket_dir (DB := DB) (FS := FS) p).
Proof using.
  unfold delete_static_bucket_dir, pure. preserve.
  intros w Hw. case_match; [by apply disk_ok'|done].
Qed.

Lemma delete_static_ok n : preserves static_ok (delete_static (DB := DB) (FS := FS) n).
Proof using laws.
  unfold delete_static, pure. preserve. intros w Hw. by apply delete_dir_ok.
Qed.

Lemma file_step_ok w req : static_ok w -> static_ok (file_step w req).
Proof using.
  destruct req as [name op]. revert w.
  assert (preserves static_ok (bucket_of (DB := DB) (FS := FS) name)) as Hb
    by (unfold bucket_of, pure; preserve).
  assert (forall m p, preserves static_ok (resolve_in (DB := DB) (FS := FS) m p)) as Hr
    by (intros; unfold resolve_in, pure; preserve).
  assert (forall p, preserves static_ok (make_parent (DB := DB) (FS := FS) p)) as Hm
    by (intros; unfold make_parent; preserve).
  destruct op; simpl; intros w Hw; revert w Hw.
  - change (preserves static_ok (upload_file (DB := DB) name file_path body base64_str)).
    unfold upload_file, pure. preserve.
  - change (preserves static_ok (read_file (DB := DB) name file_path)).
    unfold read_file. preserve; by intros w Hw.
  - change (preserves static_ok (delete_file (DB := DB) name file_path)).
    unfold delete_file. preserve. intros w [Hd Hc]. destruct (remove_file _ _). by split.
  - change (preserves static_ok (rename_file (DB := DB) name from to)).
    unfold rename_file, pure. preserve.
Qed.

Lemma static_admin_step_ok w op : static_ok w -> static_ok (admin_step w op).
Proof using laws.
  intros Hw. destruct op; simpl.
  - by apply static_init_ok.
  - by apply static_reload_ok.
  - destruct Hw. by split.
  - by apply create_ok.
  - by apply static_update_ok.
  - by apply delete_static_ok.
  - by apply (file_step_ok _ (name, op)).
Qed.

Lemma admin_run_ok l w : static_ok w -> static_ok (admin_run l w).
Proof using laws.
  revert w. induction l as [|op l IH]; intros w Hw; [done|]. apply IH. by apply static_admin_step_ok.
Qed.

(** over any sequence of bucket and file operations, with any outages of the database
    and any disk failures, from a well-formed state: names stay unique, at most one bucket
    is the HTTP root, every stored name and directory passes the validators; and the cache,
    even when stale, finds a bucket under its own name only and serves as HTTP root exactly
    the cached bucket that has the flag. *)
Theorem bucket_invariant l (w : SWorld DB FS) :
  static_ok w ->
  (forall d a b, sw_db (admin_run l w) = Some d -> a ∈ rows d -> b ∈ rows d ->
     row_valid a /\
     (s_name a = s_name b \/ (s_is_http_root a = true /\ s_is_http_root b = true) -> a = b)) /\
  (forall c n m, sw_cache (admin_run l w) = Some c -> get_by_name c n = Some m ->
     s_name m = n /\ row_valid m /\
     (s_is_http_root m = true <-> get_http_root c = Some m)).
Proof using laws.
  intros [Hd Hc]%(admin_run_ok l). split.
  - intros d a b Hdb Ha Hb. destruct (Hd d Hdb) as [Hu Hv].
    split; [by eapply Forall_forall|]. intros Hab.
    eapply (unique_rows_lookup static_conflict); [apply static_conflict_sym|done..|].
    destruct Hab as [?|[? ?]]; [by apply static_conflict_name|by apply static_conflict_root].
  - intros c n m Hcc Hm. destruct (Hc c Hcc) as (ms & -> & Hu & Hv).
    apply build_maps_name in Hm as [Hm Hn]; [|done]. split_and!; [done|by eapply Forall_forall|].
    rewrite build_maps_root by done. naive_solver.
Qed.

(** *** Effects *)

Lemma exec_ok {A} conv (stmt : M DB DbErr A) (w w' : SWorld DB FS) a :
  exec conv stmt w = (w', Ok a) ->
  exists d d', sw_db w = Some d /\ stmt d = (d', Ok a) /\ w' = set_db (Some d') w.
Proof using.
  unfold exec. destruct (sw_db w) as [d|]; [|done]. destruct (stmt d) as [d' r] eqn:E.
  intros [= <- H]. apply map_err_ok in H. subst r. eauto.
Qed.

Definition table (w : SWorld DB FS) : option (list StaticModel) := option_map rows (sw_db w).

Lemma find_step conv p (w w' : SWorld DB FS) o :
  exec conv (find_one p) w = (w', Ok o) ->
  table w' = table w /\ sw_cache w' = sw_cache w /\
  exists l, table w = Some l /\
    match o with Some r => r ∈ l /\ p r = true | None => no_match p l end.
Proof using laws.
  intros (d & d' & Hd & Hf & ->)%exec_ok. unfold table. rewrite Hd. simpl.
  rewrite (find_one_rows _ _ _ _ Hf). split_and!; [done..|]. exists (rows d). split; [done|].
  destruct o; [by eapply find_one_some|by eapply find_one_none].
Qed.

Lemma get_static_path_table (w w' : SWorld DB FS) p :
  get_static_path w = (w', Ok p) -> table w' = table w.
Proof using. unfold get_static_path. case_match; by intros [= <- _]. Qed.

(** The last steps of every operation: directory, reload. *)
Lemma reload_step (w w' : SWorld DB FS) x :
  static_ok w -> reload w = (w', Ok x) -> table w' = table w /\ synced w'.
Proof using laws.
  intros Hw H. destruct (reload_run w Hw) as (_ & H1 & H2). rewrite H in *. simpl in *. eauto.
Qed.

Lemma preserves_run {A} (m : Sm A) (w w' : SWorld DB FS) r :
  preserves static_ok m -> m w = (w', r) -> static_ok w -> static_ok w'.
Proof using. intros Hp H Hw. specialize (Hp w Hw). by rewrite H in Hp. Qed.

Lemma get_db_run (w w' : SWorld DB FS) x : get_db w = (w', Ok x) -> w' = w.
Proof using. unfold get_db. destruct (sw_db w); naive_solver. Qed.

Lemma pure_run {A} (r : result NodegetError A) (w w' : SWorld DB FS) a :
  pure r w = (w', Ok a) -> w' = w /\ r = Ok a.
Proof using. intros [= -> H]. by apply map_err_ok in H. Qed.

(** The steps after the statement: find the root directory, create the bucket's
    directory, reload. *)
Lemma finish_run {B} p (k : Sm B) (w w' : SWorld DB FS) b :
  static_ok w ->
  (let! static_path := get_static_path in
   let! _ := disk_logged (create_dir_all (path_push static_path p)) in
   let! _ := reload in k) w = (w', Ok b) ->
  exists w1, table w1 = table w /\ synced w1 /\ k w1 = (w', Ok b).
Proof using laws.
  intros Hw H. apply mbind_ok in H as (w1 & sp & H1 & H).
  apply mbind_ok in H as (w2 & ? & H2 & H). apply mbind_ok in H as (w3 & ? & H3 & H).
  pose proof (preserves_run _ _ _ _ get_static_path_ok H1 Hw) as Hw1.
  pose proof (preserves_run _ _ _ _ (disk_logged_ok _) H2 Hw1) as Hw2.
  destruct (reload_step _ _ _ Hw2 H3) as [Ht Hs]. exists w3. split_and!; try done.
  rewrite Ht. apply get_static_path_table in H1. rewrite <-H1. injection H2 as <- _. done.
Qed.

Lemma create_run n p h c (w w' : SWorld DB FS) m :
  static_ok w -> create_static n p h c w = (w', Ok m) ->
  exists l l', table w = Some l /\ table w' = Some l' /\ synced w' /\
    l' ≡ₚ m :: l /\ m = new_row (trim n) (trim p) h c (s_id m) /\
    no_match (has_name (trim n)) l /\ (h = true -> no_match s_is_http_root l).
Proof using laws.
  intros Hw H. unfold create_static in H.
  apply mbind_ok in H as (? & ? & ->%get_db_run & H).
  apply mbind_ok in H as (? & [] & [-> Hn]%pure_run & H).
  apply mbind_ok in H as (? & [] & [-> Hp]%pure_run & H).
  apply mbind_ok in H as (w1 & o & H1 & H).
  pose proof (preserves_run _ _ _ _ (exec_keeps _ _ (static_find_one_keeps _)) H1 Hw) as Hw1.
  apply find_step in H1 as (Ht1 & _ & l & Hl & Ho). destruct o; [done|].
  apply mbind_ok in H as (w2 & o & H2 & H). destruct o; [done|].
  assert (static_ok w2 /\ table w2 = Some l /\ (h = true -> no_match s_is_http_root l)) as (Hw2 & Ht2 & Hroot).
  { destruct h.
    - pose proof (preserves_run _ _ _ _ (exec_keeps _ _ (static_find_one_keeps _)) H2 Hw1).
      apply find_step in H2 as (Ht2 & _ & l2 & Hl2 & Hroot).
      assert (l2 = l) as -> by congruence. by rewrite Ht2.
    - injection H2 as <-. by rewrite Ht1. }
  apply mbind_ok in H as (w3 & i & H3 & H).
  pose proof (preserves_run _ _ _ _ (exec_keeps _ _ (static_insert_keeps _ (new_row_valid _ _ h c Hn Hp))) H3 Hw2) as Hw3.
  apply exec_ok in H3 as (d & d' & Hd & [Hi _]%insert_auto_ok & ->).
  apply finish_run in H as (w4 & Ht & Hs & H); [|done]. injection H as <- <-.
  assert (rows d = l) as Hdl by (unfold table in Ht2; rewrite Hd in Ht2; simpl in Ht2; congruence).
  exists l, (rows d'). rewrite Hdl in Hi. by split_and!.
Qed.

Lemma update_run n p h c e (w w' : SWorld DB FS) m :
  static_ok w -> update_static n p h c e w = (w', Ok m) ->
  exists l l' r, table w = Some l /\ table w' = Some l' /\ synced w' /\
    r ∈ l /\ s_name r = trim n /\ m = update_row (trim p) h c e r /\
    l' ≡ₚ map (update_if (has_id (s_id r)) (update_row (trim p) h c e)) l /\ sw_dav w' = ∅.
Proof using laws.
  intros Hw H. unfold update_static in H.
  apply mbind_ok in H as (? & ? & ->%get_db_run & H).
  apply mbind_ok in H as (? & [] & [-> Hn]%pure_run & H).
  apply mbind_ok in H as (? & [] & [-> Hp]%pure_run & H).
  apply mbind_ok in H as (w1 & o & H1 & H).
  pose proof (preserves_run _ _ _ _ (exec_keeps _ _ (static_find_one_keeps _)) H1 Hw) as Hw1.
  apply find_step in H1 as (Ht1 & _ & l & Hl & Ho).
  apply mbind_ok in H as (? & r & Hr & H). injection Hr as <- Hr. apply ok_or_ok in Hr as ->.
  destruct Ho as [Hrl Hrn%String.eqb_eq].
  apply mbind_ok in H as (w2 & o & H2 & H). destruct o; [done|].
  assert (static_ok w2 /\ table w2 = Some l) as (Hw2 & Ht2).
  { destruct (h && negb (s_is_http_root r)).
    - pose proof (preserves_run _ _ _ _ (exec_keeps _ _ (static_find_one_keeps _)) H2 Hw1).
      apply find_step in H2 as (Ht2 & _). split; [done|congruence].
    - injection H2 as <-. by rewrite Ht1. }
  apply mbind_ok in H as (w3 & x & H3 & H).
  pose proof (preserves_run _ _ _ _ (exec_keeps _ _ (update_keeps _ _ (fun r => update_row_valid _ h c e r Hp))) H3 Hw2) as Hw3.
  apply exec_ok in H3 as (d & d' & Hd & [Hi (r0 & Hr0 & Hid & ->)]%update_one_ok & ->).
  apply finish_run in H as (w4 & Ht & Hs & H); [|done].
  apply mbind_ok in H as (w5 & ? & [= <- <-] & H). injection H as <- <-.
  assert (rows d = l) as Hdl by (unfold table in Ht2; rewrite Hd in Ht2; simpl in Ht2; congruence).
  rewrite Hdl in *. exists l, (rows d'), r.
  assert (r0 = r) as ->.
  { destruct (so_db _ Hw2 d Hd) as [Hu _]. rewrite Hdl in Hu.
    eapply (unique_rows_lookup static_conflict); [apply static_conflict_sym|done..|].
    apply static_conflict_id. by apply Z.eqb_eq. }
  by split_and!.
Qed.

Lemma delete_dir_table p (w w' : SWorld DB FS) r :
  delete_static_bucket_dir p w = (w', r) -> table w' = table w.
Proof using.
  unfold delete_static_bucket_dir, pure. rewrite mbind_lift. destruct (validate_sub_path p); simpl.
  - rewrite mbind_run. destruct (get_static_path_run w) as (w1 & -> & [Hd _ _] & _).
    unfold table. rewrite <-Hd. case_match; [|by intros [= <- _]].
    unfold disk. destruct (remove_dir_all _ _). by intros [= <- _].
  - by intros [= <- _].
Qed.

Lemma delete_static_run n (w w' : SWorld DB FS) :
  static_ok w -> delete_static n w = (w', Ok tt) ->
  exists l l' r, table w = Some l /\ table w' = Some l' /\ synced w' /\
    r ∈ l /\ s_name r = trim n /\
    l' ≡ₚ List.filter (fun x => negb (has_id (s_id r) x)) l /\ sw_dav w' = ∅.
Proof using laws.
  intros Hw H. unfold delete_static in H.
  apply mbind_ok in H as (? & ? & ->%get_db_run & H).
  apply mbind_ok in H as (? & [] & [-> Hn]%pure_run & H).
  apply mbind_ok in H as (w1 & o & H1 & H).
  pose proof (preserves_run _ _ _ _ (exec_keeps _ _ (static_find_one_keeps _)) H1 Hw) as Hw1.
  apply find_step in H1 as (Ht1 & _ & l & Hl & Ho).
  apply mbind_ok in H as (? & r & Hr & H). injection Hr as <- Hr. apply ok_or_ok in Hr as ->.
  destruct Ho as [Hrl Hrn%String.eqb_eq].
  apply mbind_ok in H as (w2 & k & H2 & H).
  pose proof (preserves_run _ _ _ _ (exec_keeps _ _ (delete_keeps _)) H2 Hw1) as Hw2.
  apply exec_ok in H2 as (d & d' & Hd & [Hi _]%delete_many_ok & ->).
  apply mbind_ok in H as (w3 & ? & H3 & H).
  destruct (delete_static_bucket_dir (s_path r) (set_db (Some d') w1)) as [w3' res] eqn:E3.
  injection H3 as <- _.
  pose proof (preserves_run _ _ _ _ (delete_dir_ok _) E3 Hw2) as Hw3.
  apply delete_dir_table in E3. apply mbind_ok in H as (w4 & ? & H4 & H).
  destruct (reload_step _ _ _ Hw3 H4) as [Ht4 Hs4].
  apply mbind_ok in H as (w5 & ? & [= <- <-] & H). injection H as <-.
  assert (rows d = l) as Hdl by (unfold table in *; rewrite Hd in *; simpl in *; congruence).
  rewrite Hdl in Hi. exists l, (rows d'), r. split_and!; try done.
  change (table w4 = Some (rows d')). by rewrite Ht4, E3.
Qed.

(** What the administration operations do when they report success.  A creation adds
    exactly the row it returns, enabled, under the trimmed name no other bucket had, and as
    HTTP root only if there was none; an update rewrites that bucket's row and no other, and
    leaves [enable] alone unless told otherwise; a deletion removes that bucket's row and no
    other.  Afterwards the cache mirrors the table, and no WebDAV handler bound to an old
    directory survives an update or a deletion. *)
Theorem bucket_admin_spec (w w' : SWorld DB FS) :
  static_ok w ->
  (forall n p h c m, create_static n p h c w = (w', Ok m) ->
     exists l l', table w = Some l /\ table w' = Some l' /\ synced w' /\
       l' ≡ₚ m :: l /\ m = new_row (trim n) (trim p) h c (s_id m) /\
       no_match (has_name (trim n)) l /\ (h = true -> no_match s_is_http_root l)) /\
  (forall n p h c e m, update_static n p h c e w = (w', Ok m) ->
     exists l l' r, table w = Some l /\ table w' = Some l' /\ synced w' /\
       r ∈ l /\ s_name r = trim n /\ m = update_row (trim p) h c e r /\
       l' ≡ₚ map (update_if (has_id (s_id r)) (update_row (trim p) h c e)) l /\ sw_dav w' = ∅) /\
  (forall n, delete_static n w = (w', Ok tt) ->
     exists l l' r, table w = Some l /\ table w' = Some l' /\ synced w' /\
       r ∈ l /\ s_name r = trim n /\
       l' ≡ₚ List.filter (fun x => negb (has_id (s_id r) x)) l /\ sw_dav w' = ∅).
Proof using laws.
  intros Hw. split_and!; intros; [by apply create_run|by apply update_run|by apply delete_static_run].
Qed.
End admin.

(** ** A concrete service *)

#[global] Instance static_table : TableOps (ListTable StaticModel) StaticModel :=
  ListTable_ops static_conflict.
#[global] Instance static_table_laws : TableLaws static_table static_conflict :=
  ListTable_laws static_conflict static_conflict_sym.
#[local] Instance demo_fs : FsOps MemFs := mem_ops ["srv"].
#[local] Instance demo_fs_laws : FsLaws demo_fs ["srv"] mem_file := mem_laws ["srv"].

(** A small base64 codec for the examples. *)
Definition b64_alphabet : string :=
  "ABCDEFGHIJKLMNOPQRSTUVWXYZabcdefghijklmnopqrstuvwxyz0123456789+/".
Definition b64_digit (n : Z) : ascii := default "="%char (String.get (Z.to_nat n) b64_alphabet).
Fixpoint b64_enc (bs : list Z) : string :=
  match bs with
  | [] => ""
  | [a] => String (b64_digit (a / 4)) (String (b64_digit (a mod 4 * 16)) "==")
  | [a; b] => String (b64_digit (a / 4)) (String (b64_digit (a mod 4 * 16 + b / 16))
                (String (b64_digit (b mod 16 * 4)) "="))
  | a :: b :: c :: r =>
      String (b64_digit (a / 4)) (String (b64_digit (a mod 4 * 16 + b / 16))
        (String (b64_digit (b mod 16 * 4 + c / 64)) (String (b64_digit (c mod 64)) (b64_enc r))))
  end%Z.
Definition b64_value (c : ascii) : Z :=
  match String.index 0 (String c "") b64_alphabet with Some n => Z.of_nat n | None => 0 end.
Fixpoint b64_dec (s : string) : result string (list Z) :=
  match s with
  | "" => Ok []
  | String a (String b (String "=" (String "=" ""))) => Ok [b64_value a * 4 + b64_value b / 16]
  | String a (String b (String c (String "=" ""))) =>
      Ok [b64_value a * 4 + b64_value b / 16; b64_value b mod 16 * 16 + b64_value c / 4]
  | String a (String b (String c (String d r))) =>
      let? bs := b64_dec r in
      Ok (b64_value a * 4 + b64_value b / 16 :: b64_value b mod 16 * 16 + b64_value c / 4
          :: b64_value c mod 4 * 64 + b64_value d :: bs)
  | _ => Err "Invalid padding"
  end%Z.
#[local] Instance demo_b64 : Base64 := {| b64_encode := b64_enc; b64_decode := b64_dec |}.

Example b64_ex : b64_enc [104; 105; 33; 10]%Z = "aGkhCg==" /\ b64_dec "aGkhCg==" = Ok [104; 105; 33; 10]%Z.
Proof. split; reflexivity. Qed.

Definition demo_world (tbl : list StaticModel) : SWorld (ListTable StaticModel) MemFs := {|
  sw_db := Some {| tbl := tbl; next_id := 10; outages := [] |};
  sw_cache := Some (build_maps tbl);
  sw_dav := ∅;
  sw_static_path := "";
  sw_config := Some (Some "static");
  sw_fs := {| mem := {[ ["srv"; "secret"] := [1%Z] ]}; read_only := false |};
|}.

Definition demo_rows : list StaticModel :=
  [ new_row "site" "pub/site" true false 1; new_row "docs" "pub/docs" false true 2 ].

Lemma demo_ok : static_ok (demo_world demo_rows).
Proof.
  assert (rows_ok demo_rows) as Hr.
  { split; [vm_compute; reflexivity|]. repeat constructor; vm_compute; reflexivity. }
  split; simpl.
  - by intros d [= <-].
  - intros c [= <-]. eauto.
Qed.

Lemma bucket_isolation_witness :
  mem_file (sw_fs (file_run [("site", Upload "../docs/../../../secret" (Some [7%Z]) None);
                             ("site", RenameFile "a" "../../../secret")]
                    (demo_world demo_rows))) ["srv"; "secret"] = Some [1%Z].
Proof.
  refine (eq_trans (proj1 (bucket_isolation (cwd := ["srv"]) (file := mem_file)
    [("site", Upload "../docs/../../../secret" (Some [7%Z]) None);
     ("site", RenameFile "a" "../../../secret")] (demo_world demo_rows) ["srv"; "secret"] _)) eq_refl).
  intros name op c m Hin Hc Hm [ns Hns].
  assert (name = "site") as -> by set_solver. injection Hc as <-.
  vm_compute in Hm. injection Hm as <-. vm_compute in Hns. discriminate.
Defined.

(** What the concrete service holds after storing a page. *)
Definition demo_page : SWorld (ListTable StaticModel) MemFs :=
  fst (upload_file "site" "/css/../index.html" None (Some "aGkh") (demo_world demo_rows)).

Lemma file_ops_spec_witness :
  exists data q, upload_payload None (Some "aGkh") = Ok (Ok data) /\
    place (cwd := ["srv"]) (demo_world demo_rows) "site" "/css/../index.html" = Some q /\
    mem_file (sw_fs demo_page) q = Some data.
Proof.
  destruct (file_ops_spec (cwd := ["srv"]) (file := mem_file) (demo_world demo_rows) demo_page "site")
    as (Hup & _).
  destruct (Hup "/css/../index.html" None (Some "aGkh")) as (data & q & H1 & H2 & H3 & _);
    [vm_compute; reflexivity|].
  exists data, q. exact (conj H1 (conj H2 H3)).
Defined.

Lemma bucket_invariant_witness :
  static_ok (demo_world demo_rows) /\
  forall d a b, sw_db (admin_run [Create "blog" "pub/blog" true false; Delete "site";
                                  Create " blog " "pub/blog" true false] (demo_world demo_rows)) = Some d ->
    a ∈ rows d -> b ∈ rows d -> s_is_http_root a = true -> s_is_http_root b = true -> a = b.
Proof.
  split; [exact demo_ok|]. intros d a b Hd Ha Hb Hra Hrb.
  apply (proj1 (bucket_invariant [Create "blog" "pub/blog" true false; Delete "site";
    Create " blog " "pub/blog" true false] (demo_world demo_rows) demo_ok) d a b Hd Ha Hb).
  right. exact (conj Hra Hrb).
Defined.

Lemma bucket_admin_spec_witness :
  exists l l', table (demo_world demo_rows) = Some l /\
    table (fst (create_static " blog " "pub/blog" false true (demo_world demo_rows))) = Some l' /\
    l' ≡ₚ new_row "blog" "pub/blog" false true 10 :: l.
Proof.
  destruct (proj1 (bucket_admin_spec (demo_world demo_rows)
              (fst (create_static " blog " "pub/blog" false true (demo_world demo_rows))) demo_ok)
              " blog " "pub/blog" false true (new_row "blog" "pub/blog" false true 10))
    as (l & l' & H1 & H2 & _ & H3 & _); [vm_compute; reflexivity|].
  exists l, l'. exact (conj H1 (conj H2 H3)).
Defined.

(** Nothing keeps the directories of two buckets apart, and deleting a bucket removes
    its directory with everything below.  Here the bucket [docs] lives in [pub/docs]; a
    bucket created over [pub] and then deleted takes the page of [docs] with it, while
    [docs] itself is still configured and enabled. *)
Theorem delete_wipes_nested_bucket :
  let w0 := admin_run [File "docs" (Upload "a.html" (Some [104; 105]%Z) None);
                       Create "all" "pub" false false] (demo_world demo_rows) in
  let w1 := admin_step w0 (Delete "all") in
  snd (read_file "docs" "a.html" w0) = Ok "aGk=" /\
  snd (delete_static "all" w0) = Ok tt /\
  (c ← sw_cache w1; get_by_name c "docs") = Some (new_row "docs" "pub/docs" false true 2) /\
  snd (read_file "docs" "a.html" w1) = Err (OfNodeget (NotFound "File not found: a.html")).
Proof. vm_compute. repeat split; reflexivity. Qed.
