(* ===== verification/Purge.v ===== *)
(** * Deleting in chunks

    [purge] of [ng-task/src/retention.rs]: count or delete the rows that match a condition,
    500 at a time along the primary key, at most 2000 chunks.  The loop is proved to visit
    exactly the matching rows, whether or not it deletes them as it goes. *)
From stdpp Require Import base strings list numbers sorting.
From S2P Require Import Prelude Db.

Definition CHUNK_SIZE : nat := 500.
Definition MAX_CHUNKS_PER_TARGET : nat := 2000.

Section purge.
Context {DB Row : Type} {ops : TableOps DB Row}.
Variable pk : Row -> Z.

Definition after (cursor : option Z) (r : Row) : bool :=
  match cursor with Some c => (c <? pk r)%Z | None => true end.

Definition is_in (ids : list Z) (r : Row) : bool := existsb (Z.eqb (pk r)) ids.

(** [SELECT pk WHERE filter AND pk > cursor ORDER BY pk LIMIT 500]. *)
Definition select_ids (filter : Row -> bool) (cursor : option Z) : M DB DbErr (list Z) :=
  let! found := find_all (fun r => filter r && after cursor r) in
  mret (take CHUNK_SIZE (merge_sort Z.le (map pk found))).

(** The [for] loop; [n] iterations are left. *)
Fixpoint purge_loop (filter : Row -> bool) (dry_run : bool) (n : nat) (cursor : option Z)
    (total : Z) : M DB DbErr Z :=
  match n with
  | O => mret total
  | S n' =>
      let! ids := select_ids filter cursor in
      match last ids with
      | None => mret total
      | Some last_id =>
          let total' := (total + Z.of_nat (length ids))%Z in
          let! _ := (if dry_run then mret 0%Z else delete_many (is_in ids)) in
          if (length ids <? CHUNK_SIZE)%nat then mret total'
          else purge_loop filter dry_run n' (Some last_id) total'
      end
  end.

Definition purge (filter : Row -> bool) (dry_run : bool) : M DB DbErr Z :=
  purge_loop filter dry_run MAX_CHUNKS_PER_TARGET None 0.

(** ** The rows still to visit, in order *)

Definition ids_of (p : Row -> bool) (l : list Row) : list Z := merge_sort Z.le (map pk (List.filter p l)).

Definition pk_unique (l : list Row) : Prop := NoDup (map pk l).

Lemma is_in_spec ids r : is_in ids r = true <-> pk r ∈ ids.
Proof using.
  unfold is_in. rewrite existsb_exists. setoid_rewrite Z.eqb_eq.
  setoid_rewrite <-list_elem_of_In. naive_solver.
Qed.

#[local] Instance filter_perm_proper p : Proper ((≡ₚ) ==> eq) (fun l => ids_of p l).
Proof using.
  intros l l' Hl. unfold ids_of. apply (StronglySorted_unique Z.le).
  - apply (StronglySorted_merge_sort Z.le).
  - apply (StronglySorted_merge_sort Z.le).
  - rewrite !merge_sort_Permutation. by rewrite Hl.
Qed.

Lemma ids_of_sorted p l : StronglySorted Z.le (ids_of p l).
Proof using. apply (StronglySorted_merge_sort Z.le). Qed.

Lemma ids_of_perm p l : ids_of p l ≡ₚ map pk (List.filter p l).
Proof using. apply merge_sort_Permutation. Qed.

Lemma sublist_map_filter p l : sublist (map pk (List.filter p l)) (map pk l).
Proof using.
  induction l as [|x l IH]; simpl; [constructor|]. destruct (p x); simpl; by constructor.
Qed.

Lemma ids_of_NoDup p l : pk_unique l -> NoDup (ids_of p l).
Proof using.
  intros H. rewrite ids_of_perm. eapply sublist_NoDup; [exact H|apply sublist_map_filter].
Qed.

Lemma elem_of_ids p l i : i ∈ ids_of p l <-> exists r, r ∈ l /\ p r = true /\ pk r = i.
Proof using.
  rewrite ids_of_perm, list_elem_of_In, in_map_iff.
  setoid_rewrite filter_In. setoid_rewrite <-list_elem_of_In. naive_solver.
Qed.

(** Two sorted lists without repetition that have the same elements are the same. *)
Lemma sorted_ext (a b : list Z) :
  StronglySorted Z.le a -> StronglySorted Z.le b -> NoDup a -> NoDup b ->
  (forall x, x ∈ a <-> x ∈ b) -> a = b.
Proof using.
  intros Ha Hb Na Nb H. apply (StronglySorted_unique Z.le); [done..|]. by apply NoDup_Permutation.
Qed.

(** Beyond the last of the first [n] ids lie exactly the others. *)
Lemma sorted_after n (s : list Z) c i :
  StronglySorted Z.le s -> NoDup s -> last (take n s) = Some c -> i ∈ s ->
  ((c <? i)%Z = true <-> i ∈ drop n s).
Proof using.
  intros Hs Hd Hc Hi. rewrite Z.ltb_lt. rewrite <-(take_drop n s) in Hs, Hd, Hi.
  apply last_Some in Hc as [l' Hl']. rewrite Hl' in *.
  apply NoDup_app in Hd as (_ & Hd & _). apply elem_of_app in Hi.
  assert (forall x, x ∈ drop n s -> (c <= x)%Z) as Hge.
  { intros x Hx. eapply (StronglySorted_app_1_elem_of Z.le); [exact Hs| |exact Hx].
    apply elem_of_app. right. by left. }
  assert (forall x, x ∈ l' ++ [c] -> (x <= c)%Z) as Hle.
  { intros x Hx. apply elem_of_app in Hx as [Hx|Hx%list_elem_of_singleton]; [|lia].
    apply StronglySorted_app_1_l in Hs.
    eapply (StronglySorted_app_1_elem_of Z.le); [exact Hs|done|by left]. }
  split.
  - intros Hlt. destruct Hi as [Hi|Hi]; [|done]. apply Hle in Hi. lia.
  - intros Hin. pose proof (Hge _ Hin). assert (i <> c); [|lia]. intros ->.
    apply (Hd c); [|done]. apply elem_of_app. right. by left.
Qed.

(** *** One chunk *)

(** The ids the loop still has to visit: those of matching rows beyond the cursor. *)
Definition remaining (p : Row -> bool) (cursor : option Z) (l : list Row) : list Z :=
  ids_of (fun r => p r && after cursor r) l.

(** Moving the cursor past a chunk leaves the other ids, whether or not the rows of the
    chunk have been deleted meanwhile. *)
Lemma remaining_next p cursor c l l' n :
  pk_unique l ->
  last (take n (remaining p cursor l)) = Some c ->
  l' = l \/ l' ≡ₚ List.filter (fun r => negb (is_in (take n (remaining p cursor l)) r)) l ->
  remaining p (Some c) l' = drop n (remaining p cursor l).
Proof using.
  intros Hu Hc Hl'. set (s := remaining p cursor l) in *.
  assert (StronglySorted Z.le s) as Hss by apply ids_of_sorted.
  assert (NoDup s) as Hnd by by apply ids_of_NoDup.
  assert (forall i, i ∈ s -> exists r, r ∈ l /\ p r = true /\ after cursor r = true /\ pk r = i) as Hs1.
  { intros i (r & ? & [? ?]%andb_true_iff & ?)%elem_of_ids. eauto. }
  assert (forall r, r ∈ l -> p r = true -> after cursor r = true -> pk r ∈ s) as Hs2.
  { intros r ???. apply elem_of_ids. exists r. split_and!; [done| |done]. by apply andb_true_iff. }
  assert (forall i, i ∈ drop n s -> i ∈ s) as Hdrop.
  { intros i Hi. rewrite <-(take_drop n s). apply elem_of_app. by right. }
  assert (pk_unique l') as Hu'.
  { destruct Hl' as [->|Hp]; [done|]. unfold pk_unique. rewrite Hp.
    eapply sublist_NoDup; [exact Hu|apply sublist_map_filter]. }
  assert (c ∈ s) as Hcs.
  { apply last_Some in Hc as [k Hk]. rewrite <-(take_drop n s), Hk.
    apply elem_of_app. left. apply elem_of_app. right. by left. }
  destruct (Hs1 c Hcs) as (rc & _ & _ & Hac & Hpc).
  assert (forall r, (c <? pk r)%Z = true -> after cursor r = true) as Hafter.
  { intros r Hr. unfold after in *. destruct cursor as [z|]; [|done]. lia. }
  apply sorted_ext; [apply ids_of_sorted| |by apply ids_of_NoDup| |].
  { rewrite <-(take_drop n s) in Hss. by apply StronglySorted_app_1_r in Hss. }
  { rewrite <-(take_drop n s) in Hnd. by apply NoDup_app in Hnd as (_ & _ & ?). }
  intros i. unfold remaining. rewrite elem_of_ids. split.
  - intros (r & Hr & [Hp Ha]%andb_true_iff & <-). simpl in Ha.
    assert (r ∈ l) as Hrl.
    { destruct Hl' as [->|Hperm]; [done|]. rewrite Hperm in Hr. by apply list_filter_elem in Hr as [? _]. }
    apply (sorted_after n s c); auto.
  - intros Hi. destruct (Hs1 i (Hdrop i Hi)) as (r & Hr & Hp & _ & <-). exists r.
    assert ((c <? pk r)%Z = true) as Hlt by (by apply (sorted_after n s c); auto).
    split_and!; [|simpl; by rewrite Hp|done].
    destruct Hl' as [->|Hperm]; [done|]. rewrite Hperm. apply list_filter_elem. split; [done|].
    apply negb_true_iff, not_true_iff_false. rewrite is_in_spec. intros Hin.
    rewrite <-(take_drop n s) in Hnd. apply NoDup_app in Hnd as (_ & Hnd & _). by apply (Hnd (pk r)).
Qed.

(** Rows left when those with a visited id are gone. *)
Definition without (ids : list Z) (l : list Row) : list Row := List.filter (fun r => negb (is_in ids r)) l.

Lemma without_app a b l : without (a ++ b) l = without b (without a l).
Proof using.
  unfold without, is_in. induction l as [|x l IH]; simpl; [done|].
  rewrite existsb_app, negb_orb. destruct (existsb (Z.eqb (pk x)) a); simpl; [done|].
  by destruct (existsb (Z.eqb (pk x)) b); simpl; rewrite IH.
Qed.

Lemma without_nil l : without [] l = l.
Proof using. unfold without. simpl. apply List.filter_true. Qed.

#[global] Instance without_perm ids : Proper ((≡ₚ) ==> (≡ₚ)) (without ids).
Proof using. intros l l' H. unfold without. by rewrite H. Qed.

Context {conflict : Row -> Row -> bool} {laws : TableLaws ops conflict}.

Lemma select_ids_run p cursor d :
  exists d' r, select_ids p cursor d = (d', r) /\ rows d' = rows d /\
    forall ids, r = Ok ids -> ids = take CHUNK_SIZE (remaining p cursor (rows d)).
Proof using laws.
  unfold select_ids. rewrite mbind_run.
  destruct (find_all _ d) as [d' [l|e]] eqn:E; eexists _, _; (split; [done|]);
    (split; [by eapply find_all_rows|]); [|done].
  intros ids [= <-]. f_equal. apply find_all_ok in E. unfold remaining, ids_of.
  apply (StronglySorted_unique Z.le); [apply (StronglySorted_merge_sort Z.le)..|].
  rewrite !merge_sort_Permutation. by rewrite E.
Qed.

(** What a run of the loop visits: on success the first [500 * n] remaining ids; on a
    failed statement some of the first.  The visited rows are gone unless it is a dry run. *)
Lemma purge_loop_spec p dry n : forall cursor total d d' r,
  pk_unique (rows d) ->
  purge_loop p dry n cursor total d = (d', r) ->
  exists k, (k <= n * CHUNK_SIZE)%nat /\
    rows d' ≡ₚ (if dry then rows d else without (take k (remaining p cursor (rows d))) (rows d)) /\
    match r with
    | Ok t => t = (total + Z.of_nat (length (take k (remaining p cursor (rows d)))))%Z /\
              take k (remaining p cursor (rows d)) = take (n * CHUNK_SIZE) (remaining p cursor (rows d))
    | Err _ => True
    end.
Proof using laws.
  induction n as [|n IH]; intros cursor total d d' r Hu H.
  { injection H as <- <-. exists 0%nat. rewrite take_0, without_nil. split_and!; [lia|by destruct dry|simpl; lia|done]. }
  cbn [purge_loop] in H. rewrite mbind_run in H.
  destruct (select_ids_run p cursor d) as (d1 & r1 & Hs & Hr1 & Hids). rewrite Hs in H.
  assert (forall x, x = rows d -> rows d1 ≡ₚ (if dry then x else without (take 0 (remaining p cursor x)) x)) as Hzero.
  { intros x ->. rewrite take_0, without_nil, Hr1. by destruct dry. }
  destruct r1 as [ids|e]; [|injection H as <- <-; exists 0%nat; split_and!; [lia|by apply Hzero|done]].
  specialize (Hids ids eq_refl). set (s := remaining p cursor (rows d)) in *.
  destruct (last ids) as [c|] eqn:Hlast.
  2:{ injection H as <- <-. apply last_None in Hlast as ->.
      assert (s = []) as Hsn by (by destruct s).
      exists 0%nat. rewrite Hsn, !take_nil. split_and!; [lia|by apply Hzero|simpl; lia|done]. }
  rewrite mbind_run in H.
  (* the deletion of the chunk *)
  assert (exists d2 r2, (if dry then mret 0%Z else delete_many (is_in ids)) d1 = (d2, r2) /\
            match r2 with
            | Ok _ => rows d2 ≡ₚ (if dry then rows d else without ids (rows d))
            | Err _ => rows d2 = rows d
            end) as (d2 & r2 & Hdel & Hd2).
  { destruct dry; [by exists d1, (Ok 0%Z); rewrite Hr1|].
    destruct (delete_many (is_in ids) d1) as [d2 r2] eqn:E. exists d2, r2. split; [done|].
    destruct r2; [|by rewrite (delete_many_err _ _ _ _ E)].
    apply delete_many_ok in E as [E _]. by rewrite E, Hr1. }
  rewrite Hdel in H. destruct r2 as [x|e].
  2:{ injection H as <- <-. exists 0%nat. rewrite take_0, without_nil, Hd2.
      split_and!; [lia|by destruct dry|done]. }
  destruct (length ids <? CHUNK_SIZE)%nat eqn:Hshort.
  - (* the last chunk *)
    injection H as <- <-. exists CHUNK_SIZE. rewrite <-Hids. split_and!; [lia|done|done|].
    apply Nat.ltb_lt in Hshort. rewrite Hids, length_take in Hshort.
    rewrite Hids, !take_ge; [done|lia|lia].
  - (* a full chunk *)
    assert (exists l2, l2 ≡ₚ rows d2 /\ (l2 = rows d \/ l2 ≡ₚ without (take CHUNK_SIZE s) (rows d))) as (l2 & Hl2 & Hcase).
    { destruct dry; [exists (rows d)|exists (rows d2)]; (split; [by rewrite ?Hd2|]); [by left|].
      right. by rewrite <-Hids. }
    assert (remaining p (Some c) (rows d2) = drop CHUNK_SIZE s) as Hrem.
    { trans (remaining p (Some c) l2); [symmetry; by apply filter_perm_proper|].
      apply (remaining_next p cursor c (rows d) l2 CHUNK_SIZE); [done|fold s; by rewrite <-Hids|done]. }
    assert (pk_unique (rows d2)) as Hu2.
    { unfold pk_unique. rewrite <-Hl2. destruct Hcase as [->|Hcase]; [done|]. rewrite Hcase.
      eapply sublist_NoDup; [exact Hu|apply sublist_map_filter]. }
    destruct (IH _ _ _ _ _ Hu2 H) as (k & Hk & Hrows & Hres). rewrite Hrem in Hrows, Hres.
    apply Nat.ltb_ge in Hshort.
    assert (take (CHUNK_SIZE + k) s = ids ++ take k (drop CHUNK_SIZE s)) as Htake
      by (rewrite Hids; symmetry; apply take_take_drop).
    exists (CHUNK_SIZE + k)%nat. rewrite Htake. split_and!; [simpl; lia| |].
    + rewrite Hrows. destruct dry; [done|]. rewrite without_app. by rewrite Hd2.
    + destruct r as [t|]; [|done]. destruct Hres as [-> Hres]. split.
      * rewrite length_app. lia.
      * rewrite Hres, Hids. change (S n * CHUNK_SIZE) with (CHUNK_SIZE + n * CHUNK_SIZE). apply take_take_drop.
Qed.

(** ** The whole loop *)

#[local] Opaque CHUNK_SIZE MAX_CHUNKS_PER_TARGET.

Definition purge_cap : nat := MAX_CHUNKS_PER_TARGET * CHUNK_SIZE.

Lemma pk_unique_eq l r r' : pk_unique l -> r ∈ l -> r' ∈ l -> pk r = pk r' -> r = r'.
Proof using.
  unfold pk_unique. induction l as [|x l IH]; [by intros _ ?%not_elem_of_nil|].
  simpl. intros [Hx Hl]%NoDup_cons. rewrite !elem_of_cons.
  intros [->|Hr] [->|Hr'] He; [done| | |auto]; exfalso; apply Hx.
  - rewrite He. by apply list_elem_of_In, in_map, list_elem_of_In.
  - rewrite <-He. by apply list_elem_of_In, in_map, list_elem_of_In.
Qed.

Lemma is_in_ids p l r : pk_unique l -> r ∈ l -> is_in (ids_of p l) r = p r.
Proof using.
  intros Hu Hr. apply eq_true_iff_eq. rewrite is_in_spec, elem_of_ids. split; [|by eauto].
  intros (r' & Hr' & Hp & He). by rewrite (pk_unique_eq l r r') by congruence.
Qed.

Lemma filter_ext_elem {A} (f g : A -> bool) l :
  (forall x, x ∈ l -> f x = g x) -> List.filter f l = List.filter g l.
Proof using.
  induction l as [|x l IH]; [done|]. intros H. simpl. rewrite (H x) by (by left).
  rewrite IH; [done|]. intros y Hy. apply H. by right.
Qed.

Lemma without_all p l : pk_unique l -> without (ids_of p l) l = List.filter (fun r => negb (p r)) l.
Proof using. intros Hu. apply filter_ext_elem. intros r Hr. by rewrite is_in_ids. Qed.

Lemma remaining_start p l : remaining p None l = ids_of p l.
Proof using.
  unfold remaining, ids_of. f_equal. f_equal. apply filter_ext_elem. intros r _. apply andb_true_r.
Qed.

Lemma ids_of_length p l : length (ids_of p l) = length (List.filter p l).
Proof using. rewrite (Permutation_length (ids_of_perm p l)). apply length_map. Qed.

(** A purge, successful or not, removes matching rows only, and none in a dry run; when it
    succeeds it has visited all of them, up to the cap. *)
Lemma purge_run p dry d d' r :
  pk_unique (rows d) -> purge p dry d = (d', r) ->
  exists k, rows d' ≡ₚ (if dry then rows d else without (take k (ids_of p (rows d))) (rows d)) /\
    match r with
    | Ok t => t = Z.of_nat (length (List.filter p (rows d)) `min` purge_cap) /\
              take k (ids_of p (rows d)) = take purge_cap (ids_of p (rows d))
    | Err _ => True
    end.
Proof using laws.
  intros Hu H. apply purge_loop_spec in H as (k & _ & Hrows & Hres); [|done].
  rewrite remaining_start in *. exists k. split; [done|]. destruct r as [t|]; [|done].
  destruct Hres as [-> Hres]. fold purge_cap in Hres. split; [|done].
  rewrite Hres, length_take, ids_of_length. lia.
Qed.

Lemma purge_unique p dry d d' r :
  pk_unique (rows d) -> purge p dry d = (d', r) -> pk_unique (rows d').
Proof using laws.
  intros Hu (k & Hr & _)%purge_run; [|done]. unfold pk_unique. rewrite Hr. destruct dry; [done|].
  eapply sublist_NoDup; [exact Hu|apply sublist_map_filter].
Qed.

(** A database whose statements all succeed. *)
Definition reliable : Prop :=
  (forall q d, is_ok (snd (find_all q d)) = true) /\ (forall q d, is_ok (snd (delete_many q d)) = true).

Lemma purge_loop_returns p dry n : reliable -> forall cursor total d,
  is_ok (snd (purge_loop p dry n cursor total d)) = true.
Proof using.
  intros [Hf Hd]. induction n as [|n IH]; intros cursor total d; [done|].
  cbn [purge_loop]. unfold select_ids. rewrite !mbind_run.
  specialize (Hf (fun r => p r && after cursor r) d).
  destruct (find_all _ d) as [d1 [l|]]; [|done]. unfold mret at 1.
  destruct (last _); [|done]. rewrite mbind_run. destruct dry.
  - unfold mret at 1. case_match; [done|apply IH].
  - match goal with |- context [delete_many ?q d1] => specialize (Hd q d1); destruct (delete_many q d1) as [d2 [x|]] end;
      [|done]. case_match; [done|apply IH].
Qed.

Lemma purge_returns p dry d : reliable -> is_ok (snd (purge p dry d)) = true.
Proof using. intros Hrel. by apply purge_loop_returns. Qed.

(** the chunked deletion ends after at most 2000 rounds, with a result if no statement
    fails; when at most a million rows match it has then deleted exactly the matching rows
    and returned their number; a dry run returns the same number and changes nothing. *)
Theorem purge_exact p dry d :
  pk_unique (rows d) -> (length (List.filter p (rows d)) <= purge_cap)%nat ->
  (reliable -> exists d' t, purge p dry d = (d', Ok t)) /\
  (forall d' t, purge p dry d = (d', Ok t) ->
     t = Z.of_nat (length (List.filter p (rows d))) /\
     rows d' ≡ₚ (if dry then rows d else List.filter (fun r => negb (p r)) (rows d))).
Proof using laws.
  intros Hu Hle. split.
  - intros Hrel. pose proof (purge_returns p dry d Hrel) as H. destruct (purge p dry d) as [d' [t|]]; [eauto|done].
  - intros d' t (k & Hr & -> & Hk)%purge_run; [|done]. split; [f_equal; lia|].
    rewrite Hr. destruct dry; [done|].
    by rewrite Hk, take_ge, without_all by (by rewrite ?ids_of_length).
Qed.
End purge.
