(* ===== verification/Selection.v ===== *)
(** * Deleting the newest matching rows

    Several methods delete by conditions and let the caller bound how many rows go: they
    select the keys of the matching rows, newest first and limited, and then delete by key;
    without a bound they delete all matching rows at once.  [delete_selected] is this
    sequence over any table, with the texts of its errors and the order as arguments. *)
From stdpp Require Import base strings list numbers sorting.
From S2P Require Import Prelude Errors Db Purge.

(** The largest number of rows a request may ask for. *)
Definition MAX_QUERY_LIMIT : Z := 10000.

(** A NULL column is the largest for PostgreSQL and the smallest for SQLite. *)
Definition ts_le (postgres : bool) (a b : option Z) : bool :=
  match a, b with
  | Some x, Some y => (x <=? y)%Z
  | None, None => true
  | None, Some _ => negb postgres
  | Some _, None => postgres
  end.

#[global] Instance ts_le_total pg : Total (fun a b => ts_le pg a b = true).
Proof. intros [x|] [y|]; simpl; destruct pg; auto. all: destruct (Z.leb_spec x y); auto; right; lia. Qed.

Lemma ts_le_trans pg a b c : ts_le pg a b = true -> ts_le pg b c = true -> ts_le pg a c = true.
Proof. destruct a, b, c, pg; simpl; try done; lia. Qed.

(** Comparisons of a nullable column with a constant: never true of NULL. *)
Definition at_least (t : Z) (x : option Z) : bool := match x with Some x => (t <=? x)%Z | None => false end.
Definition at_most (t : Z) (x : option Z) : bool := match x with Some x => (x <=? t)%Z | None => false end.

(** [ORDER BY column DESC], rows with equal values in any order. *)
Definition desc {Row} (column : Row -> option Z) (postgres : bool) (a b : Row) : Prop :=
  ts_le postgres (column b) (column a) = true.
#[global] Instance desc_dec {Row} (column : Row -> option Z) pg : RelDecision (desc column pg).
Proof. intros a b. unfold desc. apply _. Defined.
#[global] Instance desc_total {Row} (column : Row -> option Z) pg : Total (desc column pg).
Proof. intros a b. apply ts_le_total. Qed.
#[global] Instance desc_trans {Row} (column : Row -> option Z) pg : Transitive (desc column pg).
Proof. intros a b c. unfold desc. intros H1 H2. by eapply ts_le_trans. Qed.

(** [ORDER BY column DESC, id DESC]. *)
Definition desc_by_id {Row} (column : Row -> option Z) (id : Row -> Z) (postgres : bool) (a b : Row) : Prop :=
  ts_le postgres (column b) (column a) = true /\
  (ts_le postgres (column a) (column b) = true -> (id b <= id a)%Z).
#[global] Instance desc_by_id_dec {Row} (column : Row -> option Z) id pg : RelDecision (desc_by_id column id pg).
Proof. intros a b. unfold desc_by_id. apply _. Defined.
#[global] Instance desc_by_id_total {Row} (column : Row -> option Z) id pg : Total (desc_by_id column id pg).
Proof.
  intros a b. unfold desc_by_id. destruct (ts_le_total pg (column a) (column b)) as [H|H];
    rewrite H; [destruct (ts_le pg (column b) (column a)) eqn:E
               |destruct (ts_le pg (column a) (column b)) eqn:E]; simpl;
    try (left; split; [done|]; intros; done); try (right; split; [done|]; intros; done);
    destruct (Z.le_ge_cases (id a) (id b)); [right|left|right|left]; split; auto; lia.
Qed.
#[global] Instance desc_by_id_trans {Row} (column : Row -> option Z) id pg : Transitive (desc_by_id column id pg).
Proof.
  intros a b c [H1 H1'] [H2 H2']. split; [by eapply ts_le_trans|]. intros H.
  trans (id b); [apply H2'|apply H1']; by eapply ts_le_trans.
Qed.

Section selection.
Context {DB Row : Type} {ops : TableOps DB Row}.
Variables (pk : Row -> Z) (R : Row -> Row -> Prop).
Context {HRdec : RelDecision R} {HRtot : Total R} {HRtrans : Transitive R}.

(** The rows of a limited [SELECT ... ORDER BY ... LIMIT n]. *)
Definition newest (n : Z) (found : list Row) : list Row := take (Z.to_nat n) (merge_sort R found).

Definition stmt_as {A} (msg : string) (m : M DB DbErr A) : M DB anyhow A := fun d =>
  let '(d', r) := m d in (d', map_err (fun err => OfNodeget (DatabaseError (msg +:+ db_msg err))) r).

Definition delete_selected (select_msg delete_msg : string) (p : Row -> bool) (limit : option Z) : M DB anyhow Z :=
  match limit with
  | Some n =>
      let! found := stmt_as select_msg (find_all p) in
      match map pk (newest n found) with
      | [] => mret 0%Z
      | ids => stmt_as delete_msg (delete_many (is_in pk ids))
      end
  | None => stmt_as delete_msg (delete_many p)
  end.

(** [kept] remain and [gone] go of the rows [l] when a deletion with this condition and
    bound succeeds. *)
Definition deletion (p : Row -> bool) (limit : option Z) (l : list Row) (n : Z) (kept gone : list Row) : Prop :=
  l ≡ₚ kept ++ gone /\ n = Z.of_nat (length gone) /\
  (forall x, x ∈ gone -> p x = true) /\
  match limit with
  | None => forall x, x ∈ kept -> p x = false
  | Some b => (n <= Z.max 0 b)%Z /\ ((n < b)%Z -> forall x, x ∈ kept -> p x = false) /\
      forall x y, x ∈ gone -> y ∈ kept -> p y = true -> R x y
  end.

Lemma newest_elem n found x : x ∈ newest n found -> x ∈ found.
Proof using.
  unfold newest. intros Hx. rewrite <-(merge_sort_Permutation R found).
  rewrite <-(take_drop (Z.to_nat n)). apply elem_of_app. by left.
Qed.

Lemma newest_sorted n found : StronglySorted R (newest n found).
Proof using HRtot HRtrans.
  unfold newest. pose proof (StronglySorted_merge_sort R found) as Hs.
  rewrite <-(take_drop (Z.to_nat n) (merge_sort R found)) in Hs. by apply StronglySorted_app_1_l in Hs.
Qed.

Lemma newest_length n found : (Z.of_nat (length (newest n found)) <= Z.max 0 n)%Z.
Proof using. unfold newest. rewrite length_take. lia. Qed.

(** What is not selected is not newer than what is. *)
Lemma newest_first n found x y : x ∈ newest n found -> y ∈ found -> y ∈ newest n found \/ R x y.
Proof using HRtot HRtrans.
  unfold newest. intros Hx Hy. pose proof (StronglySorted_merge_sort R found) as Hs.
  rewrite <-(merge_sort_Permutation R found) in Hy. rewrite <-(take_drop (Z.to_nat n)) in Hy, Hs.
  apply elem_of_app in Hy as [Hy|Hy]; [by left|right].
  eapply (StronglySorted_app_1_elem_of R); [exact Hs|done|done].
Qed.

Lemma newest_all n found : (Z.of_nat (length (newest n found)) < n)%Z -> forall x, x ∈ found -> x ∈ newest n found.
Proof using.
  unfold newest. rewrite length_take. intros Hn x Hx. rewrite take_ge by lia.
  by rewrite merge_sort_Permutation.
Qed.

(** Deleting by the keys of the selection deletes the selection. *)
Lemma delete_by_key l p found n :
  pk_unique pk l -> found ≡ₚ List.filter p l ->
  List.filter (is_in pk (map pk (newest n found))) l ≡ₚ newest n found.
Proof using.
  intros Hpk Hf.
  assert (forall x, x ∈ newest n found -> x ∈ l) as Hin.
  { intros x Hx%newest_elem. rewrite Hf in Hx. by apply list_filter_elem in Hx as [? _]. }
  assert (NoDup l) as Hl by (apply (NoDup_fmap_1 pk); exact Hpk).
  assert (forall q, NoDup (List.filter q l)) as Hnd.
  { intros q. apply NoDup_ListNoDup, List.NoDup_filter, NoDup_ListNoDup, Hl. }
  apply NoDup_Permutation; [apply Hnd| |].
  - eapply sublist_NoDup; [|apply sublist_take]. rewrite merge_sort_Permutation, Hf. apply Hnd.
  - intros x. rewrite list_filter_elem. split.
    + intros [Hx Hi%is_in_spec]. apply list_elem_of_In, in_map_iff in Hi as (y & Hid & Hy%list_elem_of_In).
      by rewrite <-(pk_unique_eq pk l y x Hpk (Hin y Hy) Hx Hid).
    + intros Hx. split; [auto|]. apply is_in_spec. apply list_elem_of_In, in_map. by apply list_elem_of_In.
Qed.

Lemma filter_split (p : Row -> bool) (l : list Row) : l ≡ₚ List.filter (fun x => negb (p x)) l ++ List.filter p l.
Proof using.
  induction l as [|x l IH]; [done|]. simpl. destruct (p x); simpl; [|by constructor].
  rewrite <-Permutation_middle. by constructor.
Qed.

(** The selection splits the table as [deletion] says. *)
Lemma newest_deletion p n l found :
  pk_unique pk l -> found ≡ₚ List.filter p l ->
  let ids := map pk (newest n found) in
  deletion p (Some n) l (Z.of_nat (length (newest n found)))
    (List.filter (fun x => negb (is_in pk ids x)) l) (newest n found).
Proof using HRtot HRtrans.
  intros Hpk Hf ids. pose proof (delete_by_key l p found n Hpk Hf) as Hsel. fold ids in Hsel.
  assert (forall y, y ∈ l -> is_in pk ids y = false -> p y = true -> y ∈ found /\ y ∉ newest n found) as Hout.
  { intros y Hy Hni Hp. split; [by rewrite Hf; apply list_filter_elem|]. intros Hin.
    apply not_true_iff_false in Hni. apply Hni, is_in_spec, list_elem_of_In, in_map, list_elem_of_In. exact Hin. }
  split_and!; [etrans; [apply filter_split|by rewrite Hsel]|done| |apply newest_length| |].
  - intros x Hx%newest_elem. rewrite Hf in Hx. by apply list_filter_elem in Hx as [_ ?].
  - intros Hn x [Hx Hni%negb_true_iff]%list_filter_elem. apply not_true_iff_false. intros Hp.
    destruct (Hout x Hx Hni Hp) as [Hf' Hnot]. apply Hnot. by apply newest_all.
  - intros x y Hx [Hy Hni%negb_true_iff]%list_filter_elem Hp. destruct (Hout y Hy Hni Hp) as [Hf' Hnot].
    by destruct (newest_first n found x y Hx Hf').
Qed.

Context {conflict : Row -> Row -> bool} {laws : TableLaws ops conflict}.

Lemma stmt_as_run {A} msg (m : M DB DbErr A) d d' r :
  stmt_as msg m d = (d', r) -> exists r0, m d = (d', r0) /\
    r = map_err (fun err => OfNodeget (DatabaseError (msg +:+ db_msg err))) r0.
Proof using. unfold stmt_as. destruct (m d) as [d1 r0]. intros [= <- <-]. eauto. Qed.

(** A successful deletion splits the table; a failed one leaves it. *)
Lemma delete_selected_run sm dm p limit d d' r :
  pk_unique pk (rows d) -> delete_selected sm dm p limit d = (d', r) ->
  match r with
  | Ok n => exists kept gone, deletion p limit (rows d) n kept gone /\ rows d' ≡ₚ kept
  | Err _ => rows d' = rows d
  end.
Proof using HRtot HRtrans laws.
  intros Hpk. unfold delete_selected. destruct limit as [n|].
  - rewrite mbind_run. destruct (stmt_as sm _ d) as [d1 r1] eqn:E1.
    apply stmt_as_run in E1 as (r0 & Hf & ->). pose proof (find_all_rows _ _ _ _ Hf) as Hr1.
    destruct r0 as [found|err]; cbn [map_err]; [|intros [= <- <-]; done].
    apply find_all_ok in Hf. pose proof (newest_deletion p n (rows d) found Hpk Hf) as Hdel.
    pose proof (delete_by_key (rows d) p found n Hpk Hf) as Hsel. cbv zeta in *.
    destruct (map pk (newest n found)) as [|i ids] eqn:Ei.
    + intros [= <- <-]. apply map_eq_nil in Ei. rewrite Ei in Hdel. eexists _, []. split; [exact Hdel|].
      rewrite Hr1. simpl. clear. induction (rows d); simpl; by constructor.
    + intros (r0 & Hd & ->)%stmt_as_run. destruct r0 as [k|err]; cbn [map_err].
      * apply delete_many_ok in Hd as [Hrows ->]. rewrite Hr1 in Hrows |- *.
        eexists _, (newest n found). split; [rewrite Hsel; exact Hdel|exact Hrows].
      * apply delete_many_err in Hd. congruence.
  - intros (r0 & Hd & ->)%stmt_as_run. destruct r0 as [k|err]; cbn [map_err].
    + apply delete_many_ok in Hd as [Hrows ->].
      exists (List.filter (fun x => negb (p x)) (rows d)), (List.filter p (rows d)).
      split; [|exact Hrows]. split_and!; [apply filter_split|done| |].
      * by intros x [_ ?]%list_filter_elem.
      * by intros x [_ ?%negb_true_iff]%list_filter_elem.
    + by apply delete_many_err in Hd.
Qed.

Lemma delete_selected_unique sm dm p limit d :
  unique_rows conflict (rows d) = true -> unique_rows conflict (rows (fst (delete_selected sm dm p limit d))) = true.
Proof using laws.
  intros Hu. unfold delete_selected.
  assert (forall q d0, unique_rows conflict (rows d0) = true ->
    unique_rows conflict (rows (fst (stmt_as dm (delete_many q) d0))) = true) as Hdel.
  { intros q d0 H0. unfold stmt_as. destruct (delete_many q d0) as [d1 r] eqn:E. simpl.
    exact (delete_many_unique q d0 d1 r E H0). }
  destruct limit as [n|]; [|by apply Hdel]. unfold mbind, stmt_as at 1.
  destruct (find_all p d) as [d1 r] eqn:E. apply find_all_rows in E.
  destruct r as [found|err]; simpl; [|congruence]. destruct (map pk _); simpl; [congruence|].
  apply Hdel. congruence.
Qed.
End selection.
