(* ===== verification/MonDelete.v ===== *)
(** * Deleting monitoring data, and the agent directory

    [delete_common.rs], [delete_static.rs], [delete_dynamic.rs] and [delete_dynamic_summary.rs] of
    [ng-monitoring/src/rpc/agent], and the methods of [rpc/agent_uuid] and [rpc/nodeget].  The
    three deletions are one sequence over different tables, permissions and texts. *)
From stdpp Require Import base strings gmap list numbers sorting.
From S2P Require Import Prelude Errors Json Db Permission TokenCache Concrete TokenCheck KvAuth UuidCache Traffic Buffer LastCache Reports Purge Selection.

Inductive QueryCondition : Type :=
| QUuid (uuid : Uuid)
| QTimestampFromTo (from to : Z)
| QTimestampFrom (from : Z)
| QTimestampTo (to : Z)
| QStorageTimeFromTo (from to : Z)
| QStorageTimeFrom (from : Z)
| QStorageTimeTo (to : Z)
| QLimit (n : Z)
| QLast.

Inductive ResolvedCondition : Type :=
| UuidId (uuid_id : Z)
| RTimestampFromTo (from to : Z)
| RTimestampFrom (from : Z)
| RTimestampTo (to : Z)
| RStorageTimeFromTo (from to : Z)
| RStorageTimeFrom (from : Z)
| RStorageTimeTo (to : Z).

(** Each agent once, in the order of the conditions. *)
Definition add_scope (acc : list Uuid * list Scope) (cond : QueryCondition) : list Uuid * list Scope :=
  match cond with
  | QUuid uuid => if bool_decide (uuid ∈ acc.1) then acc else (uuid :: acc.1, acc.2 ++ [Scope_AgentUuid uuid])
  | _ => acc
  end.
Definition scopes_from_conditions (conditions : list QueryCondition) : list Scope :=
  match (fold_left add_scope conditions ([], [])).2 with
  | [] => [Scope_Global]
  | scopes => scopes
  end.

Definition limit_and_last_step (acc : option Z * bool) (cond : QueryCondition) : option Z * bool :=
  match cond with
  | QLimit n => (Some (Z.min n MAX_QUERY_LIMIT), acc.2)
  | QLast => (acc.1, true)
  | _ => acc
  end.
Definition extract_limit_and_last (conditions : list QueryCondition) : option Z * bool :=
  fold_left limit_and_last_step conditions (None, false).

Section resolve.
Variable uuid_display : Uuid -> string.

Definition resolve_condition (c : MonitoringUuidCacheInner) (cond : QueryCondition) : result anyhow (option ResolvedCondition) :=
  match cond with
  | QUuid uuid =>
      let? uuid_id := ok_or (OfNodeget (NotFound ("Agent UUID not found in monitoring registry: " +:+ uuid_display uuid)))
                        (get_id c uuid) in
      Ok (Some (UuidId uuid_id))
  | QTimestampFromTo from to => Ok (Some (RTimestampFromTo from to))
  | QTimestampFrom from => Ok (Some (RTimestampFrom from))
  | QTimestampTo to => Ok (Some (RTimestampTo to))
  | QStorageTimeFromTo from to => Ok (Some (RStorageTimeFromTo from to))
  | QStorageTimeFrom from => Ok (Some (RStorageTimeFrom from))
  | QStorageTimeTo to => Ok (Some (RStorageTimeTo to))
  | QLimit _ | QLast => Ok None
  end.

Fixpoint resolve_all (c : MonitoringUuidCacheInner) (conditions : list QueryCondition) : result anyhow (list ResolvedCondition) :=
  match conditions with
  | [] => Ok []
  | cond :: rest =>
      let? r := resolve_condition c cond in
      let? rs := resolve_all c rest in
      Ok (option_list r ++ rs)
  end.

Definition resolve_conditions (cache : option MonitoringUuidCacheInner) (conditions : list QueryCondition) :
    result anyhow (list ResolvedCondition) :=
  let? c := ok_or (OfNodeget (ConfigNotFound "MonitoringUuidCache not initialized")) cache in
  resolve_all c conditions.
End resolve.

Section delete.
Context {D Row : Type} {ops : TableOps D Row}.
Variables (pk : Row -> Z) (uuid_id_col : Row -> Z) (timestamp_col : Row -> Z) (storage_time_col : Row -> option Z).
Variable uuid_display : Uuid -> string.

Definition resolved_matches (cond : ResolvedCondition) (r : Row) : bool :=
  match cond with
  | UuidId uuid_id => (uuid_id_col r =? uuid_id)%Z
  | RTimestampFromTo from to => (from <=? timestamp_col r)%Z && (timestamp_col r <=? to)%Z
  | RTimestampFrom from => (from <=? timestamp_col r)%Z
  | RTimestampTo to => (timestamp_col r <=? to)%Z
  | RStorageTimeFromTo from to => at_least from (storage_time_col r) && at_most to (storage_time_col r)
  | RStorageTimeFrom from => at_least from (storage_time_col r)
  | RStorageTimeTo to => at_most to (storage_time_col r)
  end.

Definition apply_resolved_conditions (resolved : list ResolvedCondition) (r : Row) : bool :=
  forallb (fun c => resolved_matches c r) resolved.

(** The body of a deletion once the request is authorised. *)
Definition delete_rows (cache : option MonitoringUuidCacheInner) (conditions : list QueryCondition) :
    M (option D) anyhow (Z * nat) := fun db =>
  match db with
  | None => (None, Err (OfNodeget (DatabaseError "DB not initialized")))
  | Some d =>
      let '(limit_count, is_last) := extract_limit_and_last conditions in
      match resolve_conditions uuid_display cache conditions with
      | Err err => (Some d, Err err)
      | Ok resolved =>
          let limit := if is_last then Some 1%Z else limit_count in
          let '(d', r) := delete_selected pk (desc (fun r => Some (timestamp_col r)) (is_postgres d))
                            "Database query error: " "Database delete error: "
                            (apply_resolved_conditions resolved) limit d in
          (Some d', let? n := r in Ok (n, length conditions))
      end
  end.

(** ** What a deletion removes *)

Context {conflict : Row -> Row -> bool} {laws : TableLaws ops conflict}.

(** The condition as a property of a row, agents looked up in the cache. *)
Definition row_satisfies (c : MonitoringUuidCacheInner) (cond : QueryCondition) (r : Row) : Prop :=
  match cond with
  | QUuid uuid => get_id c uuid = Some (uuid_id_col r)
  | QTimestampFromTo from to => (from <= timestamp_col r <= to)%Z
  | QTimestampFrom from => (from <= timestamp_col r)%Z
  | QTimestampTo to => (timestamp_col r <= to)%Z
  | QStorageTimeFromTo from to => exists t, storage_time_col r = Some t /\ (from <= t <= to)%Z
  | QStorageTimeFrom from => exists t, storage_time_col r = Some t /\ (from <= t)%Z
  | QStorageTimeTo to => exists t, storage_time_col r = Some t /\ (t <= to)%Z
  | QLimit _ | QLast => True
  end.

Lemma resolve_condition_spec c cond rc r :
  resolve_condition uuid_display c cond = Ok rc ->
  (forallb (fun x => resolved_matches x r) (option_list rc) = true <-> row_satisfies c cond r).
Proof using.
  clear pk. destruct cond; simpl; try (intros [= <-]; simpl; rewrite ?andb_true_r, ?andb_true_iff, ?Z.leb_le).
  - intros (i & ->%ok_or_ok & [= <-])%rbind_ok. simpl. rewrite andb_true_r, Z.eqb_eq. naive_solver.
  - done.
  - done.
  - done.
  - unfold at_least, at_most. destruct (storage_time_col r); rewrite ?Z.leb_le; naive_solver.
  - unfold at_least. destruct (storage_time_col r); rewrite ?Z.leb_le; naive_solver.
  - unfold at_most. destruct (storage_time_col r); rewrite ?Z.leb_le; naive_solver.
  - done.
  - done.
Qed.

Lemma resolve_conditions_spec cache conditions resolved :
  resolve_conditions uuid_display cache conditions = Ok resolved ->
  exists c, cache = Some c /\
    forall r, apply_resolved_conditions resolved r = true <-> Forall (fun cond => row_satisfies c cond r) conditions.
Proof using.
  intros (c & ->%ok_or_ok & H)%rbind_ok. exists c. split; [done|]. intros r. revert resolved H. unfold apply_resolved_conditions.
  induction conditions as [|cond rest IH]; intros resolved; simpl.
  - intros [= <-]. simpl. split; [constructor|done].
  - intros (rc & Hrc & (rs & Hrs & [= <-])%rbind_ok)%rbind_ok.
    rewrite forallb_app, andb_true_iff, (resolve_condition_spec _ _ _ _ Hrc), (IH _ Hrs), Forall_cons. done.
Qed.

Lemma extract_limit_cap conditions l : (extract_limit_and_last conditions).1 = Some l -> (l <= MAX_QUERY_LIMIT)%Z.
Proof using.
  unfold extract_limit_and_last.
  assert (forall acc, (forall l, acc.1 = Some l -> (l <= MAX_QUERY_LIMIT)%Z) ->
    forall l, (fold_left limit_and_last_step conditions acc).1 = Some l -> (l <= MAX_QUERY_LIMIT)%Z) as H; [|by apply H].
  induction conditions as [|c rest IH]; intros acc Hacc l'; simpl; [auto|]. apply IH.
  intros k. destruct c; simpl; try apply Hacc. intros [= <-]. lia.
Qed.

(** A successful deletion removes rows that satisfy every condition, as many as it reports,
    at most ten thousand and the newest ones when it is bounded, otherwise all; a failed
    one removes nothing. *)
Lemma delete_rows_spec cache conditions d db' r :
  pk_unique pk (rows d) -> delete_rows cache conditions (Some d) = (db', r) ->
  exists d', db' = Some d' /\
  match r with
  | Ok (n, count) => exists c kept gone p limit, cache = Some c /\ count = length conditions /\ rows d' ≡ₚ kept /\
      (forall x, p x = true <-> Forall (fun cond => row_satisfies c cond x) conditions) /\
      deletion (desc (fun r => Some (timestamp_col r)) (is_postgres d)) p limit (rows d) n kept gone /\
      (forall l, limit = Some l -> (l <= MAX_QUERY_LIMIT)%Z)
  | Err _ => rows d' = rows d
  end.
Proof using laws.
  intros Hpk. unfold delete_rows. pose proof (extract_limit_cap conditions) as Hcap.
  destruct (extract_limit_and_last conditions) as [limit_count is_last]. simpl in Hcap.
  destruct (resolve_conditions uuid_display cache conditions) as [resolved|] eqn:Er; [|intros [= <- <-]; by exists d].
  destruct (delete_selected _ _ _ _ _ _ d) as [d' r'] eqn:Ed. intros [= <- <-]. exists d'. split; [done|].
  apply (delete_selected_run _ _ (conflict := conflict)) in Ed; [|done].
  destruct r' as [n|]; [|done]. cbn [rbind]. destruct Ed as (kept & gone & Hdel & Hrows).
  apply resolve_conditions_spec in Er as (c & -> & Hspec).
  exists c, kept, gone, (apply_resolved_conditions resolved), (if is_last then Some 1%Z else limit_count).
  split_and!; try done. intros l. destruct is_last; [by intros [= <-]|auto].
Qed.

(** A request that names an agent removes rows of that agent only. *)
Lemma delete_rows_agent cache conditions d d' n count uuid c :
  pk_unique pk (rows d) -> delete_rows cache conditions (Some d) = (Some d', Ok (n, count)) ->
  cache = Some c -> QUuid uuid ∈ conditions ->
  forall x, x ∈ rows d -> get_id c uuid <> Some (uuid_id_col x) -> x ∈ rows d'.
Proof using laws.
  intros Hpk Hrun -> Hu x Hx Hid.
  destruct (delete_rows_spec _ _ _ _ _ Hpk Hrun) as (d1 & [= <-] & c1 & kept & gone & p & limit & [= <-] & _ & Hkept & Hp & Hdel & _).
  destruct Hdel as (Hsplit & _ & Hgone & _). rewrite Hsplit in Hx. rewrite Hkept.
  apply elem_of_app in Hx as [Hx|Hx]; [done|]. exfalso. apply Hid.
  apply Hgone, Hp in Hx. rewrite Forall_forall in Hx. exact (Hx _ Hu).
Qed.
End delete.

(** ** The methods *)

Section methods.
Context {crypto : Crypto} {serde : Serde} {ho : HashOrder}.
Variable uuid_display : Uuid -> string.
Variable e : Env.

Definition require_allowed (r : result anyhow bool) (msg : string) : result anyhow unit :=
  let? is_allowed := r in if (is_allowed : bool) then Ok tt else denied msg.

Definition check_delete_static (token : string) (conditions : list QueryCondition) : result anyhow unit :=
  let? t := parse_token token in
  require_allowed (check_token_limit (e_globals e) (e_clock e) t (scopes_from_conditions conditions)
                     [P_StaticMonitoring StaticMonitoring_Delete])
    "Permission Denied: Missing StaticMonitoring Delete permission for requested scope".

Definition check_delete_dynamic (token : string) (conditions : list QueryCondition) : result anyhow unit :=
  let? t := parse_token token in
  let? checker := require_permission_checker e in
  require_allowed (pc_check_token_limit checker t (scopes_from_conditions conditions)
                     [P_DynamicMonitoring DynamicMonitoring_Delete])
    "Permission Denied: Missing DynamicMonitoring Delete permission for requested scope".

Definition check_delete_dynamic_summary (token : string) (conditions : list QueryCondition) : result anyhow unit :=
  let? t := parse_token token in
  let? checker := require_permission_checker e in
  require_allowed (pc_check_token_limit checker t (scopes_from_conditions conditions)
                     [P_DynamicMonitoringSummary Summary_Delete])
    "Permission Denied: Missing DynamicMonitoringSummary Delete permission".

Definition delete_static {S} {sops : TableOps S StaticRow} (token : string) (cache : option MonitoringUuidCacheInner)
    (conditions : list QueryCondition) : M (option S) anyhow (Z * nat) :=
  let! _ := lift (check_delete_static token conditions) in
  delete_rows sr_id sr_uuid_id sr_timestamp sr_storage_time uuid_display cache conditions.

Definition delete_dynamic {S} {sops : TableOps S DynamicRow} (token : string) (cache : option MonitoringUuidCacheInner)
    (conditions : list QueryCondition) : M (option S) anyhow (Z * nat) :=
  let! _ := lift (check_delete_dynamic token conditions) in
  delete_rows dr_id dr_uuid_id dr_timestamp dr_storage_time uuid_display cache conditions.

Definition delete_dynamic_summary {S} {sops : TableOps S SummaryRow} (token : string) (cache : option MonitoringUuidCacheInner)
    (conditions : list QueryCondition) : M (option S) anyhow (Z * nat) :=
  let! _ := lift (check_delete_dynamic_summary token conditions) in
  delete_rows mr_id mr_uuid_id mr_timestamp mr_storage_time uuid_display cache conditions.

(** ** The agent directory *)

Definition check_directory (token : string) (p : MonitoringUuid) (msg : string) : result anyhow unit :=
  let? t := parse_token token in
  require_allowed (check_token_limit (e_globals e) (e_clock e) t [Scope_Global] [P_MonitoringUuid p]) msg.

Definition directory (cache : option MonitoringUuidCacheInner) : result anyhow MonitoringUuidCacheInner :=
  ok_or (OfNodeget (ConfigNotFound "MonitoringUuidCache not initialized")) cache.

(** Whether the agent was known. *)
Definition delete_agent_uuid {U} {uops : TableOps U UuidModel} (token : string) (agent_uuid : Uuid) :
    M (UuidWorld U) anyhow bool :=
  let! _ := lift (check_directory token MonitoringUuid_Delete "Permission Denied: Missing MonitoringUuid::Delete permission") in
  let! _ := fun w => (w, directory (uw_cache w)) in
  fun w => let '(w', r) := soft_delete uuid_display agent_uuid w in
    (w', map_err (fun err => OfNodeget (DatabaseError ("Failed to soft delete agent UUID: " +:+ display err))) r).

Definition list_all_agent_uuids (token : string) (cache : option MonitoringUuidCacheInner) : result anyhow (list Uuid) :=
  let? _ := check_directory token MonitoringUuid_List "Permission Denied: Missing MonitoringUuid::List permission" in
  let? c := directory cache in
  Ok (list_all c).

Definition list_all_agent_uuids_with_agent_mode (token : string) (cache : option MonitoringUuidCacheInner) :
    result anyhow (list (Uuid * bool)) :=
  let? _ := check_directory token MonitoringUuid_List "Permission Denied: Missing MonitoringUuid::List permission" in
  let? c := directory cache in
  Ok (list_all_with_agent_mode c).

Inductive AgentUuidListPermission : Type := ListAllAgents | ListScopedAgents (allowed : gset Uuid).

Definition is_list_permission (p : Permission) : bool :=
  bool_decide (p = P_NodeGet NodeGet_ListAllAgentUuid) || bool_decide (p = P_MonitoringUuid MonitoringUuid_List).

Definition agent_scopes (limits : list Limit) : gset Uuid :=
  list_to_set (flat_map (fun l => flat_map (fun s => match s with Scope_AgentUuid u => [u] | _ => [] end) (scopes l)) limits).

Definition resolve_list_agent_uuid_permission (token : string) : result anyhow AgentUuidListPermission :=
  let? token_or_auth := parse_token token in
  let? is_super_token := map_err to_denied (check_super_token (e_globals e) token_or_auth) in
  if (is_super_token : bool) then Ok ListAllAgents else
  let? token_info := get_token (e_globals e) token_or_auth in
  let? now := get_local_timestamp_ms_i64 (e_clock e) in
  if match timestamp_from token_info with Some from => (now <? from)%Z | None => false end
  then denied "Token is not yet valid" else
  if match timestamp_to token_info with Some to => (to <? now)%Z | None => false end
  then denied "Token has expired" else
  let listing := List.filter (fun l => existsb is_list_permission (permissions l)) (token_limit token_info) in
  let operating := List.filter (fun l => existsb (fun p => negb (is_list_permission p)) (permissions l)) (token_limit token_info) in
  if existsb (fun l => existsb (fun s => bool_decide (s = Scope_Global)) (scopes l)) listing then Ok ListAllAgents
  else if bool_decide (agent_scopes listing = ∅)
  then denied "Permission Denied: Insufficient NodeGet ListAllAgentUuid permissions"
  else Ok (ListScopedAgents (agent_scopes listing ∩ agent_scopes operating)).

Definition list_all_agent_uuid (token : string) (cache : option MonitoringUuidCacheInner) : result anyhow (list Uuid) :=
  let? permission := resolve_list_agent_uuid_permission token in
  let? c := directory cache in
  Ok (match permission with
      | ListAllAgents => list_all c
      | ListScopedAgents allowed => List.filter (fun u => bool_decide (u ∈ allowed)) (list_all c)
      end).

(** ** Theorems *)

(** A deletion request on one table: what it removed and under which authority. *)
Definition scoped_delete {D Row} {ops : TableOps D Row} (uuid_id_col timestamp_col : Row -> Z)
    (storage_time_col : Row -> option Z) (check : result anyhow unit) (cache : option MonitoringUuidCacheInner)
    (conditions : list QueryCondition) (d : D) (db' : option D) (r : result anyhow (Z * nat)) : Prop :=
  exists d', db' = Some d' /\
  match r with
  | Ok (n, count) => check = Ok tt /\ count = length conditions /\
      exists c kept gone p limit, cache = Some c /\ rows d' ≡ₚ kept /\
        (forall x, p x = true <->
           Forall (fun cond => row_satisfies uuid_id_col timestamp_col storage_time_col c cond x) conditions) /\
        deletion (desc (fun r => Some (timestamp_col r)) (is_postgres d)) p limit (rows d) n kept gone /\
        (forall l, limit = Some l -> (l <= MAX_QUERY_LIMIT)%Z) /\
        (forall uuid x, QUuid uuid ∈ conditions -> x ∈ gone -> get_id c uuid = Some (uuid_id_col x))
  | Err _ => rows d' = rows d
  end.

Lemma guarded_delete {D Row} {ops : TableOps D Row} {conflict} {laws : TableLaws ops conflict} pk uid ts st check cache conditions d db' r :
  pk_unique pk (rows d) ->
  (let! _ := lift check in delete_rows pk uid ts st uuid_display cache conditions) (Some d) = (db', r) ->
  scoped_delete uid ts st check cache conditions d db' r.
Proof using.
  intros Hpk. rewrite mbind_lift. destruct check as [[]|err]; [|intros [= <- <-]; by exists d].
  intros H. destruct (delete_rows_spec pk uid ts st uuid_display cache conditions d db' r Hpk H) as (d' & -> & Hr).
  exists d'. split; [done|]. destruct r as [[n count]|]; [|done].
  destruct Hr as (c & kept & gone & p & limit & Hc & Hn & Hk & Hp & Hdel & Hl). split_and!; [done|done|].
  exists c, kept, gone, p, limit. split_and!; try done. intros uuid x Hu Hx.
  destruct Hdel as (_ & _ & Hg & _). apply Hg, Hp in Hx. rewrite Forall_forall in Hx. exact (Hx _ Hu).
Qed.

(** each of the three deletions removes rows only with the delete permission of its kind
    for every agent its conditions name (for all agents if they name none); the rows
    removed satisfy every condition, belong to the named agent, are as many as reported,
    and are the newest and at most ten thousand when the request is bounded, otherwise all;
    a failed request removes nothing. *)
Theorem monitoring_delete_scoped {S1 S2 S3} {o1 : TableOps S1 StaticRow} {o2 : TableOps S2 DynamicRow} {o3 : TableOps S3 SummaryRow}
    {c1 c2 c3} {l1 : TableLaws o1 c1} {l2 : TableLaws o2 c2} {l3 : TableLaws o3 c3} token cache conditions d1 d2 d3 :
  pk_unique sr_id (rows d1) -> pk_unique dr_id (rows d2) -> pk_unique mr_id (rows d3) ->
  (forall db' r, delete_static token cache conditions (Some d1) = (db', r) ->
     scoped_delete sr_uuid_id sr_timestamp sr_storage_time (check_delete_static token conditions) cache conditions d1 db' r) /\
  (forall db' r, delete_dynamic token cache conditions (Some d2) = (db', r) ->
     scoped_delete dr_uuid_id dr_timestamp dr_storage_time (check_delete_dynamic token conditions) cache conditions d2 db' r) /\
  (forall db' r, delete_dynamic_summary token cache conditions (Some d3) = (db', r) ->
     scoped_delete mr_uuid_id mr_timestamp mr_storage_time (check_delete_dynamic_summary token conditions) cache conditions d3 db' r).
Proof using.
  intros H1 H2 H3. split_and!; intros db' r.
  - by apply (guarded_delete (conflict := c1)).
  - by apply (guarded_delete (conflict := c2)).
  - by apply (guarded_delete (conflict := c3)).
Qed.

(** Every agent of a request is among the scopes that are checked. *)
Lemma scopes_complete conditions uuid : QUuid uuid ∈ conditions -> Scope_AgentUuid uuid ∈ scopes_from_conditions conditions.
Proof using.
  unfold scopes_from_conditions.
  assert (forall acc, (forall u, u ∈ acc.1 -> Scope_AgentUuid u ∈ acc.2) ->
    (QUuid uuid ∈ conditions \/ uuid ∈ acc.1) -> Scope_AgentUuid uuid ∈ (fold_left add_scope conditions acc).2) as H.
  { induction conditions as [|c rest IH]; intros acc Hacc Hu; simpl.
    - destruct Hu as [Hu|Hu]; [by apply not_elem_of_nil in Hu|auto].
    - apply IH.
      + intros u. destruct c; simpl; try apply Hacc. case_bool_decide; [apply Hacc|]. simpl.
        intros [->|Hin]%elem_of_cons; apply elem_of_app; [right; by left|left; auto].
      + destruct Hu as [[<-|Hu]%elem_of_cons|Hu]; [|by left|].
        * right. simpl. case_bool_decide; [done|by left].
        * right. destruct c; simpl; try done. case_bool_decide; [done|by right]. }
  intros Hu. specialize (H ([], []) (fun u Hin => match not_elem_of_nil u Hin with end) (or_introl Hu)).
  destruct (fold_left add_scope conditions ([], [])).2; [by apply not_elem_of_nil in H|done].
Qed.

(** The directory shows an agent to a token only if it is active and the token is the super
    token, may list all agents, or may both list this agent and do something with it. *)
Theorem agents_listed_permitted token cache l u :
  list_all_agent_uuid token cache = Ok l -> u ∈ l ->
  exists t c, parse_token token = Ok t /\ cache = Some c /\ u ∈ list_all c /\
    (check_super_token (e_globals e) t = Ok true \/
     exists tok now, get_token (e_globals e) t = Ok tok /\ get_local_timestamp_ms_i64 (e_clock e) = Ok now /\
       (forall from, timestamp_from tok = Some from -> (from <= now)%Z) /\
       (forall to, timestamp_to tok = Some to -> (now <= to)%Z) /\
       exists lim, lim ∈ token_limit tok /\ existsb is_list_permission (permissions lim) = true /\
         (Scope_Global ∈ scopes lim \/
          Scope_AgentUuid u ∈ scopes lim /\
          exists lim', lim' ∈ token_limit tok /\ Scope_AgentUuid u ∈ scopes lim' /\
            existsb (fun p => negb (is_list_permission p)) (permissions lim') = true)).
Proof using.
  intros (perm & Hperm & (c & ->%ok_or_ok & [= <-])%rbind_ok)%rbind_ok Hu.
  unfold resolve_list_agent_uuid_permission in Hperm. apply rbind_ok in Hperm as (t & Ht & Hperm).
  apply rbind_ok in Hperm as (is_super & Hs%map_err_ok & Hperm). exists t, c.
  assert (u ∈ list_all c) as Hin.
  { destruct perm; [done|]. apply list_elem_of_In, filter_In in Hu as [Hu _]. by apply list_elem_of_In. }
  split_and!; try done. destruct is_super; [by left|right].
  apply rbind_ok in Hperm as (tok & Htok & Hperm). apply rbind_ok in Hperm as (now & Hnow & Hperm).
  exists tok, now. split_and!; try done.
  { intros from Hf. rewrite Hf in Hperm. destruct (now <? from)%Z eqn:E; [done|]. lia. }
  { intros to Hto. destruct (match timestamp_from tok with Some _ => _ | None => _ end); [done|]. rewrite Hto in Hperm.
    destruct (to <? now)%Z eqn:E; [done|]. lia. }
  destruct (match timestamp_from tok with Some _ => _ | None => _ end); [done|].
  destruct (match timestamp_to tok with Some _ => _ | None => _ end); [done|].
  assert (forall q v, v ∈ agent_scopes (List.filter q (token_limit tok)) ->
    exists lim, lim ∈ token_limit tok /\ q lim = true /\ Scope_AgentUuid v ∈ scopes lim) as Hscope.
  { intros q v. unfold agent_scopes. rewrite elem_of_list_to_set. intros Hv.
    apply list_elem_of_In, in_flat_map in Hv as (lim & [Hl Hq]%filter_In & (s & Hs' & Hv)%in_flat_map).
    exists lim. split_and!; [by apply list_elem_of_In|done|]. destruct s; simpl in Hv; try done.
    destruct Hv as [->|[]]. by apply list_elem_of_In. }
  destruct (existsb _ (List.filter _ (token_limit tok))) eqn:Eg.
  - apply existsb_exists in Eg as (lim & [Hl Hq]%filter_In & Hg). exists lim. split_and!; [by apply list_elem_of_In|done|left].
    apply existsb_exists in Hg as (s & Hs' & ->%bool_decide_eq_true). by apply list_elem_of_In.
  - case_bool_decide; [done|]. injection Hperm as <-. apply list_elem_of_In, filter_In in Hu as [_ Hu%bool_decide_eq_true].
    apply elem_of_intersection in Hu as [(lim & Hl & Hq & Hs1)%Hscope (lim' & Hl' & Hq' & Hs2)%Hscope].
    exists lim. split_and!; [done|done|right]. split; [done|]. by exists lim'.
Qed.
End methods.

(** ** A deleted static row does not come back

    The deletion does not touch the hash cache: while it remembers the hash of the deleted
    row, the agent's reports with the same contents are dropped as repetitions. *)
Theorem deleted_static_not_restored {Part} (part_to_value : Part -> result string Json) to_string uuid_display
    `{Crypto} `{Serde} {U S} {uops : TableOps U UuidModel} {sops : TableOps S StaticRow} e token conditions n
    (w : IngestWorld U S) db' h data uuid_id :
  delete_static uuid_display e token (uw_cache (iw_uuid w)) conditions (iw_static w) = (db', Ok n) ->
  iw_hash w = Some h -> is_duplicate h uuid_id (sd_data_hash data) = true ->
  cache_hit (sd_uuid data) (uw_cache (iw_uuid w)) = Some uuid_id ->
  let w1 := {| iw_uuid := iw_uuid w; iw_last := iw_last w; iw_hash := iw_hash w; iw_buffers := iw_buffers w;
               iw_traffic := iw_traffic w; iw_static := db' |} in
  forall token2 w2 r, report_static part_to_value to_string uuid_display e token2 data w1 = (w2, r) ->
    r <> Ok Buffered /\ iw_buffers w2 = iw_buffers w.
Proof.
  intros _ Hh Hd Hc w1 token2 w2 r Hrun.
  destruct (remembered_skipped part_to_value to_string uuid_display e token2 data w1 w2 r h uuid_id Hh Hd Hc Hrun) as (? & ? & _).
  by split.
Qed.

(** ** Example *)

Definition dynamic_conflict (a b : DynamicRow) : bool := (dr_id a =? dr_id b)%Z.
Definition summary_conflict (a b : SummaryRow) : bool := (mr_id a =? mr_id b)%Z.
Lemma dynamic_conflict_sym a b : dynamic_conflict a b = dynamic_conflict b a.
Proof. apply Z.eqb_sym. Qed.
Lemma summary_conflict_sym a b : summary_conflict a b = summary_conflict b a.
Proof. apply Z.eqb_sym. Qed.
#[global] Instance dynamic_table : TableOps (ListTable DynamicRow) DynamicRow := ListTable_ops dynamic_conflict.
#[global] Instance dynamic_table_laws : TableLaws dynamic_table dynamic_conflict :=
  ListTable_laws dynamic_conflict dynamic_conflict_sym.
#[global] Instance summary_table : TableOps (ListTable SummaryRow) SummaryRow := ListTable_ops summary_conflict.
#[global] Instance summary_table_laws : TableLaws summary_table summary_conflict :=
  ListTable_laws summary_conflict summary_conflict_sym.

Definition demo_row (id uuid_id timestamp : Z) : StaticRow :=
  {| sr_id := id; sr_uuid_id := uuid_id; sr_timestamp := timestamp; sr_storage_time := Some timestamp;
     sr_cpu_data := JNull; sr_system_data := JNull; sr_gpu_data := JNull; sr_data_hash := [id] |}.
Definition demo_static_table : ListTable StaticRow :=
  {| tbl := [demo_row 1 1 10; demo_row 2 2 20; demo_row 3 1 30]; next_id := 4; outages := [] |}.
Definition no_rows {Row} : ListTable Row := {| tbl := []; next_id := 1; outages := [] |}.

(** The newest row of agent 10, whose number is 1, goes. *)
Definition demo_delete :=
  delete_static show_uuid sample_env "rootkey:rootsecret" (Some (build_cache sample_agents)) [QUuid 10%N; QLast]
    (Some demo_static_table).

Example newest_deleted : option_map (fun d => map sr_id (rows d)) demo_delete.1 = Some [1; 2]%Z.
Proof. reflexivity. Qed.

Lemma monitoring_delete_scoped_witness :
  scoped_delete sr_uuid_id sr_timestamp sr_storage_time
    (check_delete_static sample_env "rootkey:rootsecret" [QUuid 10%N; QLast]) (Some (build_cache sample_agents))
    [QUuid 10%N; QLast] demo_static_table demo_delete.1 demo_delete.2.
Proof.
  assert (pk_unique sr_id (rows demo_static_table)) as H1 by (apply NoDup_ListNoDup; repeat constructor; simpl; lia).
  refine (proj1 (monitoring_delete_scoped (S2 := ListTable DynamicRow) (S3 := ListTable SummaryRow) show_uuid sample_env "rootkey:rootsecret"
    (Some (build_cache sample_agents)) [QUuid 10%N; QLast] demo_static_table no_rows no_rows H1 _ _) _ _ _);
    [apply NoDup_nil_2|apply NoDup_nil_2|unfold demo_delete; by destruct (delete_static _ _ _ _ _ _)].
Defined.
