(* ===== verification/TaskTypes.v ===== *)
(** * Tasks: data types

    [ng-task/src/types/mod.rs] and the row of the [task] table.  A [url::Url] is kept as its
    text, an [f64] as its 64 bits, an IP address as its number.  The JSON codec of the task
    type is serde's, a parameter with the law the code relies on. *)
From stdpp Require Import base strings gmap list numbers.
From S2P Require Import Prelude Errors Json Permission.

Record WebShellTask : Type := { ws_url : string; ws_terminal_id : Uuid }.
Record ExecuteTask : Type := { ex_cmd : string; ex_args : list string }.
Record HttpRequestTask : Type := {
  hr_url : string;
  hr_method : string;
  hr_headers : list (string * string);
  hr_body : option string;
  hr_body_base64 : option string;
  hr_ip : option string;
}.
Inductive DnsRecordType : Type :=
| DnsA | DnsAaaa | DnsCname | DnsMx | DnsTxt | DnsNs | DnsSrv | DnsPtr | DnsSoa | DnsCaa.
Record DnsTask : Type := {
  dns_domain : string; dns_record_types : list DnsRecordType; dns_server : option string }.
Record DnsRecordResult : Type := { drr_type : DnsRecordType; drr_time : Z; drr_data : string }.
Record HttpRequestTaskResult : Type := {
  hrr_status : Z;
  hrr_headers : list (list (string * string));
  hrr_body : option string;
  hrr_body_base64 : option string;
}.

Inductive TaskEventType : Type :=
| Ping (host : string)
| TcpPing (addr : string)
| HttpPing (url : string)
| WebShell (t : WebShellTask)
| Execute (t : ExecuteTask)
| HttpRequest (t : HttpRequestTask)
| Dns (t : DnsTask)
| ReadConfig
| EditConfig (text : string)
| Ip
| Version
| SelfUpdate (version : string).

Definition task_name (t : TaskEventType) : string :=
  match t with
  | Ping _ => "ping"
  | TcpPing _ => "tcp_ping"
  | HttpPing _ => "http_ping"
  | WebShell _ => "web_shell"
  | Execute _ => "execute"
  | HttpRequest _ => "http_request"
  | Dns _ => "dns"
  | EditConfig _ => "edit_config"
  | ReadConfig => "read_config"
  | Ip => "ip"
  | Version => "version"
  | SelfUpdate _ => "self_update"
  end.

Definition is_ping_task (t : TaskEventType) : bool :=
  match t with Ping _ | TcpPing _ | HttpPing _ => true | _ => false end.

Definition permission_field (t : TaskEventType) : string :=
  match t with
  | Ping _ => "allow_icmp_ping"
  | TcpPing _ => "allow_tcp_ping"
  | HttpPing _ => "allow_http_ping"
  | WebShell _ => "allow_web_shell"
  | Execute _ => "allow_execute"
  | HttpRequest _ => "allow_http_request"
  | Dns _ => "allow_dns"
  | ReadConfig => "allow_read_config"
  | EditConfig _ => "allow_edit_config"
  | Ip => "allow_ip"
  | Version => "allow_version"
  | SelfUpdate _ => "allow_self_update"
  end.

Record TaskEvent : Type := {
  ev_task_id : Z; ev_task_token : string; ev_task_event_type : TaskEventType }.

Record NodeGetVersion : Type := {
  nv_binary_type : string; nv_cargo_version : string;
  nv_git_branch : string; nv_git_commit_sha : string; nv_git_commit_date : string;
  nv_git_commit_message : string; nv_build_time : string; nv_cargo_target_triple : string;
  nv_rustc_channel : string; nv_rustc_version : string; nv_rustc_commit_date : string;
  nv_rustc_commit_hash : string; nv_rustc_llvm_version : string;
}.

Inductive TaskEventResult : Type :=
| RPing (ms : Z)
| RTcpPing (ms : Z)
| RHttpPing (ms : Z)
| RWebShell (ok : bool)
| RExecute (out : string)
| RHttpRequest (r : HttpRequestTaskResult)
| RDns (l : list DnsRecordResult)
| RReadConfig (text : string)
| REditConfig (ok : bool)
| RIp (v4 v6 : option Z)
| RVersion (v : NodeGetVersion)
| RSelfUpdate (ok : bool).

Definition result_task_name (r : TaskEventResult) : string :=
  match r with
  | RPing _ => "ping"
  | RTcpPing _ => "tcp_ping"
  | RHttpPing _ => "http_ping"
  | RWebShell _ => "web_shell"
  | RExecute _ => "execute"
  | RHttpRequest _ => "http_request"
  | RDns _ => "dns"
  | RReadConfig _ => "read_config"
  | REditConfig _ => "edit_config"
  | RIp _ _ => "ip"
  | RVersion _ => "version"
  | RSelfUpdate _ => "self_update"
  end.

Record TaskEventResponse : Type := {
  tr_task_id : Z;
  tr_agent_uuid : Uuid;
  tr_task_token : string;
  tr_timestamp : Z;
  tr_success : bool;
  tr_error_message : option string;
  tr_task_event_result : option TaskEventResult;
}.

(** A row of the [task] table ([ng-db/src/entity/task.rs]). *)
Record TaskModel : Type := {
  t_id : Z;
  t_uuid : Uuid;
  t_token : string;
  t_cron_source : option string;
  t_timestamp : option Z;
  t_success : option bool;
  t_error_message : option string;
  t_task_event_type : Json;
  t_task_event_result : option Json;
  t_created_at : option Z;
}.

(** Only the primary key is unique. *)
Definition task_conflict (a b : TaskModel) : bool := (t_id a =? t_id b)%Z.

Lemma task_conflict_sym a b : task_conflict a b = task_conflict b a.
Proof. apply Z.eqb_sym. Qed.

Class TaskSerde : Type := {
  task_type_to_value : TaskEventType -> result string Json;
  task_type_from_value : Json -> result string TaskEventType;
  task_result_to_value : TaskEventResult -> result string Json;
}.

Class TaskSerdeLaws (S : TaskSerde) : Prop := {
  task_type_roundtrip : forall t v,
    task_type_to_value t = Ok v -> task_type_from_value v = Ok t;
}.
