(* ===== verification/Retention.v ===== *)
(** * The retention sweeper

    [ng-task/src/retention.rs]: delete the expired rows of [task], [crontab_result] and
    [js_result] according to the periods stored in the key-value table.  Each table is
    reached through its own part of the connection, so a statement on one does not touch
    the others.  [ANALYZE] changes no row and is left out; the clock reading is an input. *)
From stdpp Require Import base strings gmap list numbers sorting.
From Stdlib Require Import Ascii.
From S2P Require Import Prelude Errors Json Db Permission KvStore UuidCache TaskTypes Purge.

Record CrontabResult : Type := {
  cr_id : Z; cr_cron_id : Z; cr_cron_name : string; cr_relative_id : option Z;
  cr_run_time : option Z; cr_success : option bool; cr_message : option string }.
Record JsResultModel : Type := {
  jr_id : Z; jr_js_worker_id : Z; jr_js_worker_name : string; jr_run_type : string;
  jr_start_time : option Z; jr_finish_time : option Z;
  jr_param : option Json; jr_result : option Json; jr_error_message : option string }.

Definition crontab_result_conflict (a b : CrontabResult) : bool := (cr_id a =? cr_id b)%Z.
Definition js_result_conflict (a b : JsResultModel) : bool := (jr_id a =? jr_id b)%Z.

Definition LIMIT_KEY_PREFIX : string := "database_limit_".
Definition GLOBAL_NAMESPACE : string := "global".
Definition SOFT_DELETE_GRACE_MS : Z := 600000.
Definition MIN_TASK_LIMIT_MS : Z := 600000.
Definition MIN_RESULT_LIMIT_MS : Z := 3600000.
Definition MIN_LEGACY_ID_MARGIN : Z := 1000.

Record SweepReport : Type := {
  task_active : Z;
  task_soft_deleted : Z;
  task_legacy : Z;
  task_orphan : Z;
  agents_without_limit : Z;
  crontab_result : Z;
  js_result : Z;
  errors : Z;
}.

Definition empty_report : SweepReport :=
  {| task_active := 0; task_soft_deleted := 0; task_legacy := 0; task_orphan := 0;
     agents_without_limit := 0; crontab_result := 0; js_result := 0; errors := 0 |}.

Definition total (r : SweepReport) : Z :=
  (task_active r + task_soft_deleted r + task_legacy r + task_orphan r
   + crontab_result r + js_result r)%Z.

(** ** Limits *)

Definition min_limit_ms (table : string) : Z :=
  if String.eqb table "task" then MIN_TASK_LIMIT_MS else MIN_RESULT_LIMIT_MS.

(** [Number::as_i64]. *)
Definition as_i64 (n : JNumber) : option Z :=
  match n with
  | NumInt z => if ((i64_min <=? z) && (z <=? i64_max))%Z then Some z else None
  | NumFloat _ => None
  end.

Definition parse_limit_ms (value : Json) : option Z :=
  ms ← match value with
       | JNum number => as_i64 number
       | JString text => parse_i64 (trim text)
       | _ => None
       end;
  if (0 <=? ms)%Z then Some ms else None.

Definition Limits : Type := gmap (string * string) Z.

Definition limit_key (table : string) : string := LIMIT_KEY_PREFIX +:+ table.

Definition limit_keys : list string := map limit_key ["task"; "crontab_result"; "js_result"].

(** One iteration of the loop over the configured rows. *)
Definition load_limit (limits : Limits) (row : KvRow) : Limits :=
  let table := default "" (strip_prefix LIMIT_KEY_PREFIX (r_key row)) in
  match parse_limit_ms (r_value row) with
  | Some ms =>
      if (ms <? min_limit_ms table)%Z then limits
      else <[(r_namespace row, r_key row) := ms]> limits
  | None => limits
  end.

Definition limit_for (limits : Limits) (namespace table : string) : option Z :=
  limits !! (namespace, limit_key table).

(** [now.saturating_sub(x)]. *)
Definition sat_sub_i64 (a b : Z) : Z := Z.max i64_min (Z.min i64_max (a - b)).

(** [created_at IS NOT NULL AND created_at < t]: a comparison with NULL does not hold. *)
Definition older_than (t : Z) (column : option Z) : bool :=
  match column with Some x => (x <? t)%Z | None => false end.

(** ** The sweep *)

Record RWorld (T C J K U : Type) : Type := {
  rw_task : T; rw_crontab_result : C; rw_js_result : J; rw_kv : K; rw_uuid : U }.
Arguments rw_task {T C J K U}. Arguments rw_crontab_result {T C J K U}.
Arguments rw_js_result {T C J K U}. Arguments rw_kv {T C J K U}. Arguments rw_uuid {T C J K U}.

Section sweep.
Context {T C J K U : Type}.
Context {task_ops : TableOps T TaskModel} {cron_ops : TableOps C CrontabResult}.
Context {js_ops : TableOps J JsResultModel} {kv_ops : TableOps K KvRow}.
Context {uuid_ops : TableOps U UuidModel}.
(** [impl Display for Uuid]. *)
Variable uuid_display : Uuid -> string.

Definition Rm (A : Type) : Type := M (RWorld T C J K U) DbErr A.

Definition on_task {A} (m : M T DbErr A) : Rm A := fun w =>
  let '(t, r) := m (rw_task w) in
  ({| rw_task := t; rw_crontab_result := rw_crontab_result w; rw_js_result := rw_js_result w;
      rw_kv := rw_kv w; rw_uuid := rw_uuid w |}, r).
Definition on_crontab_result {A} (m : M C DbErr A) : Rm A := fun w =>
  let '(c, r) := m (rw_crontab_result w) in
  ({| rw_task := rw_task w; rw_crontab_result := c; rw_js_result := rw_js_result w;
      rw_kv := rw_kv w; rw_uuid := rw_uuid w |}, r).
Definition on_js_result {A} (m : M J DbErr A) : Rm A := fun w =>
  let '(j, r) := m (rw_js_result w) in
  ({| rw_task := rw_task w; rw_crontab_result := rw_crontab_result w; rw_js_result := j;
      rw_kv := rw_kv w; rw_uuid := rw_uuid w |}, r).
Definition on_kv {A} (m : M K DbErr A) : Rm A := fun w =>
  let '(k, r) := m (rw_kv w) in
  ({| rw_task := rw_task w; rw_crontab_result := rw_crontab_result w;
      rw_js_result := rw_js_result w; rw_kv := k; rw_uuid := rw_uuid w |}, r).
Definition on_uuid {A} (m : M U DbErr A) : Rm A := fun w =>
  let '(u, r) := m (rw_uuid w) in
  ({| rw_task := rw_task w; rw_crontab_result := rw_crontab_result w;
      rw_js_result := rw_js_result w; rw_kv := rw_kv w; rw_uuid := u |}, r).

Definition load_limits : Rm Limits :=
  let! rows := on_kv (find_all (fun r => existsb (String.eqb (r_key r)) limit_keys)) in
  mret (fold_left load_limit rows ∅).

(** A failed target is counted in [errors] and contributes no rows. *)
Definition purge_isolated (target : Rm Z) (report : SweepReport) : Rm (SweepReport * Z) := fun w =>
  match target w with
  | (w', Ok count) => (w', Ok (report, count))
  | (w', Err _) =>
      (w', Ok ({| task_active := task_active report; task_soft_deleted := task_soft_deleted report;
                  task_legacy := task_legacy report; task_orphan := task_orphan report;
                  agents_without_limit := agents_without_limit report;
                  crontab_result := crontab_result report; js_result := js_result report;
                  errors := errors report + 1 |}, 0%Z))
  end.

Definition add_active (n : Z) (r : SweepReport) : SweepReport :=
  {| task_active := task_active r + n; task_soft_deleted := task_soft_deleted r;
     task_legacy := task_legacy r; task_orphan := task_orphan r;
     agents_without_limit := agents_without_limit r; crontab_result := crontab_result r;
     js_result := js_result r; errors := errors r |}.
Definition add_soft_deleted (n : Z) (r : SweepReport) : SweepReport :=
  {| task_active := task_active r; task_soft_deleted := task_soft_deleted r + n;
     task_legacy := task_legacy r; task_orphan := task_orphan r;
     agents_without_limit := agents_without_limit r; crontab_result := crontab_result r;
     js_result := js_result r; errors := errors r |}.
Definition add_without_limit (r : SweepReport) : SweepReport :=
  {| task_active := task_active r; task_soft_deleted := task_soft_deleted r;
     task_legacy := task_legacy r; task_orphan := task_orphan r;
     agents_without_limit := agents_without_limit r + 1; crontab_result := crontab_result r;
     js_result := js_result r; errors := errors r |}.
Definition set_legacy (n : Z) (r : SweepReport) : SweepReport :=
  {| task_active := task_active r; task_soft_deleted := task_soft_deleted r;
     task_legacy := n; task_orphan := task_orphan r;
     agents_without_limit := agents_without_limit r; crontab_result := crontab_result r;
     js_result := js_result r; errors := errors r |}.
Definition set_orphan (n : Z) (r : SweepReport) : SweepReport :=
  {| task_active := task_active r; task_soft_deleted := task_soft_deleted r;
     task_legacy := task_legacy r; task_orphan := n;
     agents_without_limit := agents_without_limit r; crontab_result := crontab_result r;
     js_result := js_result r; errors := errors r |}.
Definition set_crontab_result (n : Z) (r : SweepReport) : SweepReport :=
  {| task_active := task_active r; task_soft_deleted := task_soft_deleted r;
     task_legacy := task_legacy r; task_orphan := task_orphan r;
     agents_without_limit := agents_without_limit r; crontab_result := n;
     js_result := js_result r; errors := errors r |}.
Definition set_js_result (n : Z) (r : SweepReport) : SweepReport :=
  {| task_active := task_active r; task_soft_deleted := task_soft_deleted r;
     task_legacy := task_legacy r; task_orphan := task_orphan r;
     agents_without_limit := agents_without_limit r; crontab_result := crontab_result r;
     js_result := n; errors := errors r |}.

Section one_sweep.
Variables (now_ms : Z) (dry_run : bool).

(** The condition of the rows of one agent, unless it has no period at all. *)
Definition agent_limit (limits : Limits) (agent : UuidModel) : option Z :=
  if u_soft_delete agent then Some SOFT_DELETE_GRACE_MS
  else match limit_for limits (uuid_display (u_uuid agent)) "task" with
       | Some ms => Some ms
       | None => limit_for limits GLOBAL_NAMESPACE "task"
       end.

Definition agent_filter (uuid : Uuid) (limit_ms : Z) (r : TaskModel) : bool :=
  bool_decide (t_uuid r = uuid) && older_than (sat_sub_i64 now_ms limit_ms) (t_created_at r).

(** 1. one agent *)
Definition sweep_agent (limits : Limits) (agent : UuidModel) (report : SweepReport) : Rm SweepReport :=
  match agent_limit limits agent with
  | None => mret (add_without_limit report)
  | Some limit_ms =>
      let! rd := purge_isolated (on_task (purge t_id (agent_filter (u_uuid agent) limit_ms) dry_run)) report in
      let '(report, deleted) := rd in
      mret (if u_soft_delete agent then add_soft_deleted deleted report else add_active deleted report)
  end.

Fixpoint sweep_agents (limits : Limits) (agents : list UuidModel) (report : SweepReport) : Rm SweepReport :=
  match agents with
  | [] => mret report
  | agent :: agents' =>
      let! report := sweep_agent limits agent report in
      sweep_agents limits agents' report
  end.

(** [SELECT id ORDER BY id DESC LIMIT 1]. *)
Definition max_task_id : Rm (option Z) :=
  let! found := on_task (find_all (fun _ => true)) in
  mret (last (merge_sort Z.le (map t_id found))).

Definition legacy_filter (watermark : Z) (r : TaskModel) : bool :=
  match t_created_at r with None => (t_id r <=? watermark)%Z | Some _ => false end.

(** 2. rows written before [created_at] existed *)
Definition sweep_legacy (legacy_id_margin : Z) (report : SweepReport) : Rm SweepReport :=
  let! max_id := max_task_id in
  match max_id with
  | None => mret report
  | Some max_id =>
      let watermark := sat_sub_i64 max_id legacy_id_margin in
      let! rd := purge_isolated (on_task (purge t_id (legacy_filter watermark) dry_run)) report in
      let '(report, deleted) := rd in
      mret (set_legacy deleted report)
  end.

Definition orphan_filter (uuids : list Uuid) (limit_ms : Z) (r : TaskModel) : bool :=
  older_than (sat_sub_i64 now_ms limit_ms) (t_created_at r) && negb (bool_decide (t_uuid r ∈ uuids)).

(** 3. rows of agents that are gone *)
Definition sweep_orphans (limits : Limits) (agents : list UuidModel) (report : SweepReport) : Rm SweepReport :=
  match limit_for limits GLOBAL_NAMESPACE "task", agents with
  | Some global_limit_ms, _ :: _ =>
      let! rd := purge_isolated
                   (on_task (purge t_id (orphan_filter (map u_uuid agents) global_limit_ms) dry_run)) report in
      let '(report, deleted) := rd in
      mret (set_orphan deleted report)
  | _, _ => mret report
  end.

Definition run_time_filter (limit_ms : Z) (r : CrontabResult) : bool :=
  older_than (sat_sub_i64 now_ms limit_ms) (cr_run_time r).
Definition start_time_filter (limit_ms : Z) (r : JsResultModel) : bool :=
  older_than (sat_sub_i64 now_ms limit_ms) (jr_start_time r).

(** 4. and 5. *)
Definition sweep_crontab_result (limits : Limits) (report : SweepReport) : Rm SweepReport :=
  match limit_for limits GLOBAL_NAMESPACE "crontab_result" with
  | None => mret report
  | Some limit_ms =>
      let! rd := purge_isolated (on_crontab_result (purge cr_id (run_time_filter limit_ms) dry_run)) report in
      let '(report, deleted) := rd in
      mret (set_crontab_result deleted report)
  end.
Definition sweep_js_result (limits : Limits) (report : SweepReport) : Rm SweepReport :=
  match limit_for limits GLOBAL_NAMESPACE "js_result" with
  | None => mret report
  | Some limit_ms =>
      let! rd := purge_isolated (on_js_result (purge jr_id (start_time_filter limit_ms) dry_run)) report in
      let '(report, deleted) := rd in
      mret (set_js_result deleted report)
  end.

Definition sweep_once (legacy_id_margin : Z) : Rm SweepReport :=
  let legacy_id_margin := Z.max legacy_id_margin MIN_LEGACY_ID_MARGIN in
  let! limits := load_limits in
  let! agents := on_uuid (find_all (fun _ => true)) in
  let! report := sweep_agents limits agents empty_report in
  let! report := sweep_legacy legacy_id_margin report in
  let! report := sweep_orphans limits agents report in
  let! report := sweep_crontab_result limits report in
  let! report := sweep_js_result limits report in
  mret report.
End one_sweep.
End sweep.
