(* ===== verification/RetentionSpec.v ===== *)
(** * What a retention sweep deletes

    The policy of [ng-task/src/retention.rs] stated on the rows of the tables, and the
    proofs that [sweep_once] ([Retention]) never deletes anything else, deletes all of it
    when nothing fails, and that a dry run forecasts it. *)
From stdpp Require Import base strings gmap list numbers sorting.
From Stdlib Require Import Ascii.
From S2P Require Import Prelude Errors Json Db Permission KvStore UuidCache TaskTypes Purge Retention.

(** ** The policy *)

(** The period stored for a namespace and table, unless it is unusable. *)
Definition configured_limit (kv : list KvRow) (namespace table : string) : option Z :=
  row ← List.find (fun r => String.eqb (r_namespace r) namespace && String.eqb (r_key r) (limit_key table)) kv;
  ms ← parse_limit_ms (r_value row);
  if (ms <? min_limit_ms table)%Z then None else Some ms.

Section policy.
Variable uuid_display : Uuid -> string.
Variables (kv : list KvRow) (agents : list UuidModel) (now_ms : Z).

(** The period that applies to the tasks of an agent. *)
Definition agent_period (agent : UuidModel) : option Z :=
  if u_soft_delete agent then Some SOFT_DELETE_GRACE_MS
  else match configured_limit kv (uuid_display (u_uuid agent)) "task" with
       | Some ms => Some ms
       | None => configured_limit kv GLOBAL_NAMESPACE "task"
       end.

Definition agent_hit (agent : UuidModel) (r : TaskModel) : bool :=
  match agent_period agent with
  | Some ms => agent_filter now_ms (u_uuid agent) ms r
  | None => false
  end.

Definition orphan_hit (r : TaskModel) : bool :=
  match configured_limit kv GLOBAL_NAMESPACE "task", agents with
  | Some ms, _ :: _ => orphan_filter now_ms (map u_uuid agents) ms r
  | _, _ => false
  end.

Definition crontab_hit (r : CrontabResult) : bool :=
  match configured_limit kv GLOBAL_NAMESPACE "crontab_result" with
  | Some ms => run_time_filter now_ms ms r
  | None => false
  end.
Definition js_hit (r : JsResultModel) : bool :=
  match configured_limit kv GLOBAL_NAMESPACE "js_result" with
  | Some ms => start_time_filter now_ms ms r
  | None => false
  end.
End policy.

(** ** The sweep on row lists

    What a sweep without failed statements does to the rows of the three tables and to its
    report, step by step. *)

Record Snapshot : Type := {
  s_task : list TaskModel; s_cron : list CrontabResult; s_js : list JsResultModel;
  s_report : SweepReport }.

(** Tables are compared up to the order of their rows. *)
#[global] Instance snapshot_equiv : Equiv Snapshot := fun a b =>
  s_task a ≡ₚ s_task b /\ s_cron a ≡ₚ s_cron b /\ s_js a ≡ₚ s_js b /\ s_report a = s_report b.

#[global] Instance snapshot_equivalence : Equivalence (≡@{Snapshot}).
Proof.
  split.
  - by intros a.
  - intros a b (? & ? & ? & ?). by repeat split.
  - intros a b c (? & ? & ? & ?) (? & ? & ? & ?). repeat split; by etrans.
Qed.

Section sweep_spec.
Variable uuid_display : Uuid -> string.
Variables (now_ms : Z) (dry : bool) (margin : Z) (kv : list KvRow).

#[local] Notation hit := (agent_hit uuid_display kv now_ms).
#[local] Notation period := (agent_period uuid_display kv).

Definition after_purge {Row} (p : Row -> bool) (l : list Row) : list Row :=
  if dry then l else List.filter (fun r => negb (p r)) l.

Definition count {Row} (p : Row -> bool) (l : list Row) : Z := Z.of_nat (length (List.filter p l)).

Definition hit_by (sel : UuidModel -> bool) (agents : list UuidModel) (r : TaskModel) : bool :=
  existsb (fun a => sel a && hit a r) agents.

Definition agents_spec (agents : list UuidModel) (s : Snapshot) : Snapshot := {|
  s_task := after_purge (hit_by (fun _ => true) agents) (s_task s);
  s_cron := s_cron s;
  s_js := s_js s;
  s_report := {|
    task_active := task_active (s_report s) + count (hit_by (fun a => negb (u_soft_delete a)) agents) (s_task s);
    task_soft_deleted := task_soft_deleted (s_report s) + count (hit_by u_soft_delete agents) (s_task s);
    task_legacy := task_legacy (s_report s); task_orphan := task_orphan (s_report s);
    agents_without_limit := agents_without_limit (s_report s)
      + count (fun a => negb (bool_decide (is_Some (period a)))) agents;
    crontab_result := crontab_result (s_report s); js_result := js_result (s_report s);
    errors := errors (s_report s) |} |}.

Definition max_id (l : list TaskModel) : option Z := last (merge_sort Z.le (map t_id l)).

Definition legacy_hit (l : list TaskModel) (r : TaskModel) : bool :=
  match max_id l with
  | Some m => legacy_filter (sat_sub_i64 m (Z.max margin MIN_LEGACY_ID_MARGIN)) r
  | None => false
  end.

Definition legacy_spec (s : Snapshot) : Snapshot := {|
  s_task := after_purge (legacy_hit (s_task s)) (s_task s); s_cron := s_cron s; s_js := s_js s;
  s_report := match max_id (s_task s) with
              | Some _ => set_legacy (count (legacy_hit (s_task s)) (s_task s)) (s_report s)
              | None => s_report s
              end |}.

Definition orphan_spec (agents : list UuidModel) (s : Snapshot) : Snapshot := {|
  s_task := after_purge (orphan_hit kv agents now_ms) (s_task s); s_cron := s_cron s; s_js := s_js s;
  s_report := match configured_limit kv GLOBAL_NAMESPACE "task", agents with
              | Some _, _ :: _ => set_orphan (count (orphan_hit kv agents now_ms) (s_task s)) (s_report s)
              | _, _ => s_report s
              end |}.

Definition cron_spec (s : Snapshot) : Snapshot := {|
  s_task := s_task s; s_cron := after_purge (crontab_hit kv now_ms) (s_cron s); s_js := s_js s;
  s_report := match configured_limit kv GLOBAL_NAMESPACE "crontab_result" with
              | Some _ => set_crontab_result (count (crontab_hit kv now_ms) (s_cron s)) (s_report s)
              | None => s_report s
              end |}.

Definition js_spec (s : Snapshot) : Snapshot := {|
  s_task := s_task s; s_cron := s_cron s; s_js := after_purge (js_hit kv now_ms) (s_js s);
  s_report := match configured_limit kv GLOBAL_NAMESPACE "js_result" with
              | Some _ => set_js_result (count (js_hit kv now_ms) (s_js s)) (s_report s)
              | None => s_report s
              end |}.

Definition sweep_spec (agents : list UuidModel) (s : Snapshot) : Snapshot :=
  js_spec (cron_spec (orphan_spec agents (legacy_spec (agents_spec agents s)))).

(** *** The steps respect the order of rows *)

#[global] Instance after_purge_perm {Row} (p : Row -> bool) : Proper ((≡ₚ) ==> (≡ₚ)) (after_purge p).
Proof using. intros l l' H. unfold after_purge. destruct dry; by rewrite H. Qed.

#[global] Instance count_perm {Row} (p : Row -> bool) : Proper ((≡ₚ) ==> (=)) (count p).
Proof using. intros l l' H. unfold count. f_equal. apply Permutation_length. by rewrite H. Qed.

#[global] Instance max_id_perm : Proper ((≡ₚ) ==> (=)) max_id.
Proof using.
  intros l l' H. unfold max_id. f_equal.
  apply (StronglySorted_unique Z.le); [apply (StronglySorted_merge_sort Z.le)..|].
  by rewrite !merge_sort_Permutation, H.
Qed.

Lemma existsb_perm {A} (p : A -> bool) l l' : l ≡ₚ l' -> existsb p l = existsb p l'.
Proof using.
  intros H. apply eq_true_iff_eq. rewrite !existsb_exists.
  split; intros (x & Hx & Hp); exists x; (split; [|done]); apply list_elem_of_In;
    apply list_elem_of_In in Hx; [by rewrite <-H|by rewrite H].
Qed.

#[global] Instance agents_spec_proper agents : Proper ((≡) ==> (≡)) (agents_spec agents).
Proof using. intros a b (Ht & Hc & Hj & Hr). split_and!; simpl; rewrite ?Ht, ?Hc, ?Hj, ?Hr; done. Qed.

#[global] Instance legacy_spec_proper : Proper ((≡) ==> (≡)) legacy_spec.
Proof using.
  intros a b (Ht & Hc & Hj & Hr). unfold legacy_spec, legacy_hit.
  rewrite (max_id_perm _ _ Ht), (count_perm _ _ _ Ht), Hr. split_and!; simpl; [by rewrite Ht|done..].
Qed.

#[global] Instance orphan_spec_proper agents : Proper ((≡) ==> (≡)) (orphan_spec agents).
Proof using.
  intros a b (Ht & Hc & Hj & Hr). unfold orphan_spec. rewrite (count_perm _ _ _ Ht), Hr.
  split_and!; simpl; rewrite ?Ht, ?Hc, ?Hj; done.
Qed.

#[global] Instance cron_spec_proper : Proper ((≡) ==> (≡)) cron_spec.
Proof using.
  intros a b (Ht & Hc & Hj & Hr). unfold cron_spec. rewrite (count_perm _ _ _ Hc), Hr.
  split_and!; simpl; rewrite ?Ht, ?Hc, ?Hj; done.
Qed.

#[global] Instance js_spec_proper : Proper ((≡) ==> (≡)) js_spec.
Proof using.
  intros a b (Ht & Hc & Hj & Hr). unfold js_spec. rewrite (count_perm _ _ _ Hj), Hr.
  split_and!; simpl; rewrite ?Ht, ?Hc, ?Hj; done.
Qed.
End sweep_spec.

(** ** Tables that only lose rows *)

Definition shrinks {Row} (P : Row -> Prop) (l l' : list Row) : Prop :=
  exists q, l' ≡ₚ List.filter q l /\ forall r, r ∈ l -> q r = false -> P r.

Lemma shrinks_perm {Row} (P : Row -> Prop) l l' : l' ≡ₚ l -> shrinks P l l'.
Proof. intros H. exists (fun _ => true). by rewrite List.filter_true. Qed.

Lemma shrinks_trans {Row} (P : Row -> Prop) l1 l2 l3 :
  shrinks P l1 l2 -> shrinks P l2 l3 -> shrinks P l1 l3.
Proof.
  intros (q & Hq & HP) (q' & Hq' & HP'). exists (fun r => q r && q' r). split.
  - rewrite Hq', Hq. clear. induction l1 as [|x l IH]; [done|]. simpl.
    destruct (q x) eqn:E; simpl; [|done]. destruct (q' x); by rewrite IH.
  - intros r Hr. destruct (q r) eqn:E; [|auto]. simpl. intros E'. apply HP'; [|done].
    rewrite Hq. by apply list_filter_elem.
Qed.

Lemma shrinks_weaken {Row} (P Q : Row -> Prop) l l' :
  (forall r, r ∈ l -> P r -> Q r) -> shrinks P l l' -> shrinks Q l l'.
Proof. intros H (q & Hq & HP). exists q. split; [done|]. eauto. Qed.

Lemma shrinks_elem {Row} (P : Row -> Prop) l l' r : shrinks P l l' -> r ∈ l' -> r ∈ l.
Proof. intros (q & -> & _). by intros [? _]%list_filter_elem. Qed.

Lemma unique_pk {Row} (pk : Row -> Z) (l : list Row) :
  unique_rows (fun a b => (pk a =? pk b)%Z) l = true -> pk_unique pk l.
Proof.
  unfold pk_unique. induction l as [|x l IH]; [constructor|].
  intros [Hx Hl]%unique_rows_cons. simpl. constructor; [|auto].
  intros (y & Hy & Hin)%list_elem_of_In%in_map_iff.
  apply list_elem_of_In in Hin. pose proof (Hx y Hin) as Hxy. simpl in Hxy. lia.
Qed.

Section purge_facts.
Context {DB Row : Type} {ops : TableOps DB Row} {conflict : Row -> Row -> bool}.
Context {laws : TableLaws ops conflict} (pk : Row -> Z).

Lemma purge_shrinks p dry d d' r :
  pk_unique pk (rows d) -> purge pk p dry d = (d', r) ->
  shrinks (fun x => dry = false /\ p x = true) (rows d) (rows d').
Proof using laws.
  intros Hu (k & Hr & _)%(purge_run pk (conflict:=conflict)); [|done]. destruct dry; [by apply shrinks_perm|].
  exists (fun x => negb (is_in pk (take k (ids_of pk p (rows d))) x)). split; [done|].
  intros x Hx Hq%negb_false_iff. split; [done|]. rewrite <-(is_in_ids pk p (rows d)) by done.
  apply is_in_spec. apply is_in_spec in Hq.
  rewrite <-(take_drop k (ids_of pk p (rows d))). apply elem_of_app. by left.
Qed.
End purge_facts.

(** ** Reading the limits *)

Lemma strip_limit_key table : strip_prefix LIMIT_KEY_PREFIX (limit_key table) = Some table.
Proof. reflexivity. Qed.

Lemma load_limits_lookup rows : forall limits ns table,
  unique_rows kv_conflict rows = true ->
  fold_left load_limit rows limits !! (ns, limit_key table) =
  match List.find (fun r => String.eqb (r_namespace r) ns && String.eqb (r_key r) (limit_key table)) rows with
  | Some row =>
      match (ms ← parse_limit_ms (r_value row); if (ms <? min_limit_ms table)%Z then None else Some ms) with
      | Some ms => Some ms
      | None => limits !! (ns, limit_key table)
      end
  | None => limits !! (ns, limit_key table)
  end.
Proof.
  induction rows as [|x rows IH]; intros limits ns table Hu; [done|].
  apply unique_rows_cons in Hu as [Hx Hu]. simpl fold_left. rewrite IH by done. simpl List.find.
  destruct (String.eqb_spec (r_namespace x) ns) as [Hns|Hns];
    [destruct (String.eqb_spec (r_key x) (limit_key table)) as [Hk|Hk]|]; simpl.
  - (* the row is found; no other has its namespace and key *)
    pose proof (find_spec (fun r => String.eqb (r_namespace r) ns && String.eqb (r_key r) (limit_key table)) rows) as Hf.
    destruct (List.find _ rows) as [y|] eqn:E.
    { exfalso. destruct Hf as [Hy [Hyn%String.eqb_eq Hyk%String.eqb_eq]%andb_true_iff].
      specialize (Hx y Hy). unfold kv_conflict in Hx. rewrite Hns, Hk, Hyn, Hyk, !String.eqb_refl in Hx.
      by rewrite orb_true_r in Hx. }
    unfold load_limit. rewrite Hk, strip_limit_key. simpl.
    destruct (parse_limit_ms (r_value x)) as [ms|]; simpl; [|done].
    destruct (ms <? min_limit_ms table)%Z; [done|]. rewrite Hns. apply lookup_insert_eq.
  - assert (load_limit limits x !! (ns, limit_key table) = limits !! (ns, limit_key table)) as ->; [|done].
    unfold load_limit. repeat case_match; try done. apply lookup_insert_ne. congruence.
  - assert (load_limit limits x !! (ns, limit_key table) = limits !! (ns, limit_key table)) as ->; [|done].
    unfold load_limit. repeat case_match; try done. apply lookup_insert_ne. congruence.
Qed.

Lemma find_perm_unique {A} (p : A -> bool) (conflict : A -> A -> bool) l l' :
  (forall a b, conflict a b = conflict b a) ->
  (forall a b, p a = true -> p b = true -> conflict a b = true) ->
  unique_rows conflict l = true -> (forall x, p x = true -> (x ∈ l <-> x ∈ l')) ->
  List.find p l = List.find p l'.
Proof.
  intros Hsym Hp Hu Hl. pose proof (find_spec p l) as H1. pose proof (find_spec p l') as H2.
  destruct (List.find p l) as [a|], (List.find p l') as [b|]; [|exfalso..|done].
  - f_equal. destruct H1 as [Ha Hpa], H2 as [Hb Hpb].
    eapply (unique_rows_lookup conflict); [done|done|done|by apply Hl|by apply Hp].
  - destruct H1 as [Ha Hpa]. rewrite (H2 a) in Hpa; [done|]. by apply Hl.
  - destruct H2 as [Hb Hpb]. rewrite (H1 b) in Hpb; [done|]. by apply Hl.
Qed.

(** ** One target *)

Section outcomes.
Context {DB Row : Type} {ops : TableOps DB Row} {conflict : Row -> Row -> bool}.
Context {laws : TableLaws ops conflict} (pk : Row -> Z).

(** What a purge did: it removed matching rows only; when it returned a number, and the
    matching rows are within the cap, it visited them all. *)
Definition outcome (p : Row -> bool) (dry : bool) (d d' : DB) (r : option Z) : Prop :=
  shrinks (fun x => dry = false /\ p x = true) (rows d) (rows d') /\
  (forall n, r = Some n -> (length (rows d) <= purge_cap)%nat ->
     n = Z.of_nat (length (List.filter p (rows d))) /\
     rows d' ≡ₚ (if dry then rows d else List.filter (fun x => negb (p x)) (rows d))).

Lemma purge_outcome p dry d d' r :
  pk_unique pk (rows d) -> purge pk p dry d = (d', r) ->
  outcome p dry d d' (match r with Ok n => Some n | Err _ => None end).
Proof using laws.
  intros Hu H. split; [by eapply purge_shrinks|]. intros n Hn Hle. destruct r as [t|]; [|done].
  injection Hn as ->. apply (purge_run pk (conflict:=conflict)) in H as (k & Hr & -> & Hk); [|done].
  assert (length (List.filter p (rows d)) <= purge_cap)%nat as Hf.
  { etrans; [apply List.filter_length_le|done]. }
  split; [f_equal; lia|]. rewrite Hr. destruct dry; [done|].
  rewrite Hk, take_ge, without_all by (by rewrite ?ids_of_length). done.
Qed.
End outcomes.

Lemma shrinks_pk_unique {Row} (P : Row -> Prop) (pk : Row -> Z) l l' :
  shrinks P l l' -> pk_unique pk l -> pk_unique pk l'.
Proof.
  intros (q & Hq & _) Hu. unfold pk_unique. rewrite Hq.
  eapply sublist_NoDup; [exact Hu|apply sublist_map_filter].
Qed.

Section sweep_facts.
Context {T C J K U : Type}.
Context {task_ops : TableOps T TaskModel} {cron_ops : TableOps C CrontabResult}.
Context {js_ops : TableOps J JsResultModel} {kv_ops : TableOps K KvRow}.
Context {uuid_ops : TableOps U UuidModel}.
Context {task_laws : TableLaws task_ops task_conflict}.
Context {cron_laws : TableLaws cron_ops crontab_result_conflict}.
Context {js_laws : TableLaws js_ops js_result_conflict}.
Context {kv_laws : TableLaws kv_ops kv_conflict}.
Context {uuid_laws : TableLaws uuid_ops uuid_conflict}.
Variable uuid_display : Uuid -> string.
Variables (now_ms : Z) (dry : bool) (margin : Z).

#[local] Notation W := (RWorld T C J K U).

(** The database enforces its primary keys and unique indexes. *)
Definition tables_unique (w : W) : Prop :=
  unique_rows task_conflict (rows (rw_task w)) = true /\
  unique_rows crontab_result_conflict (rows (rw_crontab_result w)) = true /\
  unique_rows js_result_conflict (rows (rw_js_result w)) = true /\
  unique_rows kv_conflict (rows (rw_kv w)) = true /\
  unique_rows uuid_conflict (rows (rw_uuid w)) = true.

(** Between two worlds the three swept tables only lost rows of the given kinds, and the
    other two kept theirs. *)
Record swept (Pt : TaskModel -> Prop) (Pc : CrontabResult -> Prop) (Pj : JsResultModel -> Prop)
    (w w' : W) : Prop := {
  swept_task : shrinks Pt (rows (rw_task w)) (rows (rw_task w'));
  swept_cron : shrinks Pc (rows (rw_crontab_result w)) (rows (rw_crontab_result w'));
  swept_js : shrinks Pj (rows (rw_js_result w)) (rows (rw_js_result w'));
  swept_kv : rows (rw_kv w') = rows (rw_kv w);
  swept_uuid : rows (rw_uuid w') = rows (rw_uuid w);
}.

Definition nothing {A} (x : A) : Prop := False.

Lemma swept_refl Pt Pc Pj w : swept Pt Pc Pj w w.
Proof using. by split; try apply shrinks_perm. Qed.

Lemma swept_trans Pt Pc Pj w1 w2 w3 :
  swept Pt Pc Pj w1 w2 -> swept Pt Pc Pj w2 w3 -> swept Pt Pc Pj w1 w3.
Proof using.
  intros [] []. split; [by eapply shrinks_trans..|congruence|congruence].
Qed.

Lemma swept_weaken (Pt Pt' : _ -> Prop) (Pc Pc' : _ -> Prop) (Pj Pj' : _ -> Prop) w w' :
  (forall x, x ∈ rows (rw_task w) -> Pt x -> Pt' x) -> (forall x, Pc x -> Pc' x) ->
  (forall x, Pj x -> Pj' x) -> swept Pt Pc Pj w w' -> swept Pt' Pc' Pj' w w'.
Proof using.
  intros ??? []. split; [by (eapply shrinks_weaken; [|done]; auto)..|done|done].
Qed.

(** The primary keys of the swept tables. *)
Definition keyed (w : W) : Prop :=
  pk_unique t_id (rows (rw_task w)) /\ pk_unique cr_id (rows (rw_crontab_result w)) /\
  pk_unique jr_id (rows (rw_js_result w)).

Lemma tables_keyed w : tables_unique w -> keyed w.
Proof using. intros (? & ? & ? & _). split_and!; by apply unique_pk. Qed.

Lemma swept_keyed Pt Pc Pj w w' : swept Pt Pc Pj w w' -> keyed w -> keyed w'.
Proof using. intros [] (? & ? & ?). split_and!; by eapply shrinks_pk_unique. Qed.

Definition bump (r : SweepReport) : SweepReport :=
  {| task_active := task_active r; task_soft_deleted := task_soft_deleted r;
     task_legacy := task_legacy r; task_orphan := task_orphan r;
     agents_without_limit := agents_without_limit r; crontab_result := crontab_result r;
     js_result := js_result r; errors := errors r + 1 |}.

(** A target never fails; a failure inside it is counted. *)
Definition counted (report report' : SweepReport) (n : Z) (r : option Z) : Prop :=
  match r with Some m => report' = report /\ n = m | None => report' = bump report /\ n = 0%Z end.

Lemma isolated_task p report w :
  keyed w ->
  exists w' report' n r,
    purge_isolated (on_task (purge t_id p dry)) report w = (w', Ok (report', n)) /\
    counted report report' n r /\
    outcome p dry (rw_task w) (rw_task w') r /\
    rw_crontab_result w' = rw_crontab_result w /\ rw_js_result w' = rw_js_result w /\
    rw_kv w' = rw_kv w /\ rw_uuid w' = rw_uuid w.
Proof using task_laws.
  intros (Hu & _ & _). unfold purge_isolated, on_task.
  destruct (purge t_id p dry (rw_task w)) as [d' [n|e]] eqn:E;
    apply (purge_outcome (conflict:=task_conflict)) in E; [|done| |done]; eexists _, _, _, _; (split; [done|]);
    (split; [|split; [exact E|done]]); done.
Qed.

Lemma isolated_cron p report w :
  keyed w ->
  exists w' report' n r,
    purge_isolated (on_crontab_result (purge cr_id p dry)) report w = (w', Ok (report', n)) /\
    counted report report' n r /\
    outcome p dry (rw_crontab_result w) (rw_crontab_result w') r /\
    rw_task w' = rw_task w /\ rw_js_result w' = rw_js_result w /\
    rw_kv w' = rw_kv w /\ rw_uuid w' = rw_uuid w.
Proof using cron_laws.
  intros (_ & Hu & _). unfold purge_isolated, on_crontab_result.
  destruct (purge cr_id p dry (rw_crontab_result w)) as [d' [n|e]] eqn:E;
    apply (purge_outcome (conflict:=crontab_result_conflict)) in E; [|done| |done]; eexists _, _, _, _; (split; [done|]);
    (split; [|split; [exact E|done]]); done.
Qed.

Lemma isolated_js p report w :
  keyed w ->
  exists w' report' n r,
    purge_isolated (on_js_result (purge jr_id p dry)) report w = (w', Ok (report', n)) /\
    counted report report' n r /\
    outcome p dry (rw_js_result w) (rw_js_result w') r /\
    rw_task w' = rw_task w /\ rw_crontab_result w' = rw_crontab_result w /\
    rw_kv w' = rw_kv w /\ rw_uuid w' = rw_uuid w.
Proof using js_laws.
  intros (_ & _ & Hu). unfold purge_isolated, on_js_result.
  destruct (purge jr_id p dry (rw_js_result w)) as [d' [n|e]] eqn:E;
    apply (purge_outcome (conflict:=js_result_conflict)) in E; [|done| |done]; eexists _, _, _, _; (split; [done|]);
    (split; [|split; [exact E|done]]); done.
Qed.

(** ** The stages *)

Definition small (w : W) : Prop :=
  (length (rows (rw_task w)) <= purge_cap)%nat /\
  (length (rows (rw_crontab_result w)) <= purge_cap)%nat /\
  (length (rows (rw_js_result w)) <= purge_cap)%nat.

Definition snapshot (w : W) (report : SweepReport) : Snapshot := {|
  s_task := rows (rw_task w); s_cron := rows (rw_crontab_result w);
  s_js := rows (rw_js_result w); s_report := report |}.

(** A stage took [w] and its report to [w'] and [report']: it only removed rows of the given
    kinds, counted its failures, and without one did what the specification says. *)
Record stage (Pt : TaskModel -> Prop) (Pc : CrontabResult -> Prop) (Pj : JsResultModel -> Prop)
    (f : Snapshot -> Snapshot) (w : W) (report : SweepReport) (w' : W) (report' : SweepReport) : Prop := {
  stage_swept : swept Pt Pc Pj w w';
  stage_errors : (errors report <= errors report')%Z;
  stage_exact : errors report' = errors report -> small w -> snapshot w' report' ≡ f (snapshot w report);
}.

Lemma shrinks_length {Row} (P : Row -> Prop) l l' : shrinks P l l' -> (length l' <= length l)%nat.
Proof using. intros (q & -> & _). apply List.filter_length_le. Qed.

Lemma swept_small Pt Pc Pj w w' : swept Pt Pc Pj w w' -> small w -> small w'.
Proof using.
  intros [Ht Hc Hj _ _] (? & ? & ?). apply shrinks_length in Ht, Hc, Hj.
  split_and!; lia.
Qed.

Lemma stage_trans Pt Pc Pj f g w r w1 r1 w2 r2 `{!Proper ((≡) ==> (≡)) g} :
  stage Pt Pc Pj f w r w1 r1 -> stage Pt Pc Pj g w1 r1 w2 r2 ->
  stage Pt Pc Pj (fun s => g (f s)) w r w2 r2.
Proof using.
  intros [S1 E1 X1] [S2 E2 X2]. split; [by eapply swept_trans|lia|].
  intros He Hs. rewrite X2 by (try lia; by eapply swept_small). by rewrite X1 by (done || lia).
Qed.

Lemma stage_weaken (Pt Pt' : _ -> Prop) (Pc Pc' : _ -> Prop) (Pj Pj' : _ -> Prop) f w r w' r' :
  (forall x, x ∈ rows (rw_task w) -> Pt x -> Pt' x) -> (forall x, Pc x -> Pc' x) ->
  (forall x, Pj x -> Pj' x) -> stage Pt Pc Pj f w r w' r' -> stage Pt' Pc' Pj' f w r w' r'.
Proof using. intros ??? []. split; [by eapply swept_weaken|done|done]. Qed.

Definition deleted {Row} (p : Row -> bool) (x : Row) : Prop := dry = false /\ p x = true.

Lemma outcome_same (r : option Z) n report report' :
  counted report report' n r -> errors report' = errors report -> r = Some n /\ report' = report.
Proof using. destruct r; simpl; intros [-> ->]; simpl; [done|lia]. Qed.

Lemma counted_errors (r : option Z) n report report' :
  counted report report' n r -> (errors report <= errors report')%Z.
Proof using. destruct r; simpl; intros [-> ->]; simpl; lia. Qed.

(** The target of a stage on the [task] table: [upd] puts the number into the report. *)
Lemma task_stage p (upd : Z -> SweepReport -> SweepReport) (f : Snapshot -> Snapshot) report w :
  (forall n r, errors (upd n r) = errors r) ->
  (forall t c j r, f {| s_task := t; s_cron := c; s_js := j; s_report := r |} ≡
     {| s_task := after_purge dry p t; s_cron := c; s_js := j; s_report := upd (count p t) r |}) ->
  keyed w ->
  exists w' report', (let! rd := purge_isolated (on_task (purge t_id p dry)) report in
                      let '(report, n) := rd in mret (upd n report)) w = (w', Ok report') /\
    stage (deleted p) nothing nothing f w report w' report'.
Proof using task_laws.
  intros Hupd Hf (w' & rep & n & r & Hrun & Hc & [Hsh Hex] & Ec & Ej & Ek & Eu)%(isolated_task p report).
  exists w', (upd n rep). rewrite mbind_run, Hrun. split; [done|]. split.
  - split; [done|by rewrite Ec; apply shrinks_perm|by rewrite Ej; apply shrinks_perm|congruence|congruence].
  - rewrite Hupd. by eapply counted_errors.
  - rewrite Hupd. intros He (Hs & _). destruct (outcome_same _ _ _ _ Hc He) as [-> ->].
    destruct (Hex n eq_refl Hs) as [-> Hrows]. unfold snapshot. rewrite Hf, Ec, Ej.
    by repeat split; try exact Hrows.
Qed.

Lemma cron_stage p report w :
  keyed w ->
  exists w' report', (let! rd := purge_isolated (on_crontab_result (purge cr_id p dry)) report in
                      let '(report, n) := rd in mret (set_crontab_result n report)) w = (w', Ok report') /\
    stage nothing (deleted p) nothing
      (fun s => {| s_task := s_task s; s_cron := after_purge dry p (s_cron s); s_js := s_js s;
                   s_report := set_crontab_result (count p (s_cron s)) (s_report s) |}) w report w' report'.
Proof using cron_laws.
  intros (w' & rep & n & r & Hrun & Hc & [Hsh Hex] & Et & Ej & Ek & Eu)%(isolated_cron p report).
  exists w', (set_crontab_result n rep). rewrite mbind_run, Hrun. split; [done|]. split.
  - split; [by rewrite Et; apply shrinks_perm|done|by rewrite Ej; apply shrinks_perm|congruence|congruence].
  - exact (counted_errors _ _ _ _ Hc).
  - intros He (_ & Hs & _). destruct (outcome_same _ _ _ _ Hc He) as [-> ->].
    destruct (Hex n eq_refl Hs) as [-> Hrows]. unfold snapshot. rewrite Et, Ej.
    by repeat split; try exact Hrows.
Qed.

Lemma js_stage p report w :
  keyed w ->
  exists w' report', (let! rd := purge_isolated (on_js_result (purge jr_id p dry)) report in
                      let '(report, n) := rd in mret (set_js_result n report)) w = (w', Ok report') /\
    stage nothing nothing (deleted p)
      (fun s => {| s_task := s_task s; s_cron := s_cron s; s_js := after_purge dry p (s_js s);
                   s_report := set_js_result (count p (s_js s)) (s_report s) |}) w report w' report'.
Proof using js_laws.
  intros (w' & rep & n & r & Hrun & Hc & [Hsh Hex] & Et & Ec & Ek & Eu)%(isolated_js p report).
  exists w', (set_js_result n rep). rewrite mbind_run, Hrun. split; [done|]. split.
  - split; [by rewrite Et; apply shrinks_perm|by rewrite Ec; apply shrinks_perm|done|congruence|congruence].
  - exact (counted_errors _ _ _ _ Hc).
  - intros He (_ & _ & Hs). destruct (outcome_same _ _ _ _ Hc He) as [-> ->].
    destruct (Hex n eq_refl Hs) as [-> Hrows]. unfold snapshot. rewrite Et, Ec.
    by repeat split; try exact Hrows.
Qed.

(** ** The periods in use *)

Definition limits_ok (kv : list KvRow) (limits : Limits) : Prop :=
  forall ns table, limit_key table ∈ limit_keys -> limit_for limits ns table = configured_limit kv ns table.

Lemma load_limits_run (w : W) :
  unique_rows kv_conflict (rows (rw_kv w)) = true ->
  exists (w' : W) r, load_limits w = (w', r) /\
    rw_task w' = rw_task w /\ rw_crontab_result w' = rw_crontab_result w /\
    rw_js_result w' = rw_js_result w /\ rows (rw_kv w') = rows (rw_kv w) /\ rw_uuid w' = rw_uuid w /\
    forall limits, r = Ok limits -> limits_ok (rows (rw_kv w)) limits.
Proof using kv_laws.
  intros Hu. unfold load_limits. rewrite mbind_run. unfold on_kv.
  destruct (find_all _ (rw_kv w)) as [d r] eqn:E. pose proof (find_all_rows _ _ _ _ E) as Hd.
  destruct r as [l|e]; eexists _, _; (split; [done|]); split_and!; try done.
  intros limits [= <-] ns table Ht. unfold limit_for, configured_limit.
  apply find_all_ok in E.
  assert (unique_rows kv_conflict l = true) as Hul.
  { eapply unique_rows_perm; [apply (conflict_sym (ops:=kv_ops))|by symmetry|by apply unique_rows_filter]. }
  rewrite load_limits_lookup by done.
  rewrite (find_perm_unique _ kv_conflict l (rows (rw_kv w))).
  - assert ((∅ : Limits) !! (ns, limit_key table) = None) as He by apply lookup_empty.
    destruct (List.find _ _) as [row|]; [|done]. cbn.
    destruct (parse_limit_ms (r_value row)) as [ms|]; cbn; [|done]. by case_match.
  - apply (conflict_sym (ops:=kv_ops)).
  - intros a b [Ha%String.eqb_eq Ha'%String.eqb_eq]%andb_true_iff [Hb%String.eqb_eq Hb'%String.eqb_eq]%andb_true_iff.
    unfold kv_conflict. rewrite Ha, Ha', Hb, Hb', !String.eqb_refl. apply orb_true_r.
  - done.
  - intros x [_ Hk%String.eqb_eq]%andb_true_iff. rewrite E, list_filter_elem. split; [by intros []|].
    intros Hx. split; [done|]. apply existsb_exists. exists (limit_key table).
    split; [by apply list_elem_of_In|]. rewrite Hk. apply String.eqb_refl.
Qed.

Section with_limits.
Variables (kv : list KvRow) (limits : Limits).
Hypothesis Hlimits : limits_ok kv limits.

Lemma agent_limit_period agent : agent_limit uuid_display limits agent = agent_period uuid_display kv agent.
Proof using Hlimits.
  unfold agent_limit, agent_period. by rewrite !Hlimits by (by left).
Qed.

#[local] Notation hit := (agent_hit uuid_display kv now_ms).
#[local] Notation agents_spec := (agents_spec uuid_display now_ms dry kv).

Lemma count_none {Row} (p : Row -> bool) l : (forall x, p x = false) -> count p l = 0%Z.
Proof using.
  intros H. unfold count. induction l as [|x l IH]; simpl; [done|]. by rewrite H.
Qed.

Lemma after_none {Row} (p : Row -> bool) l : (forall x, p x = false) -> after_purge dry p l = l.
Proof using.
  intros H. unfold after_purge. destruct dry; [done|].
  induction l as [|x l IH]; simpl; [done|]. by rewrite H; simpl; rewrite IH.
Qed.

Lemma count_ext {Row} (p q : Row -> bool) l : (forall x, p x = q x) -> count p l = count q l.
Proof using. intros H. unfold count. by rewrite (filter_ext_elem p q). Qed.

Lemma after_ext {Row} (p q : Row -> bool) l : (forall x, p x = q x) -> after_purge dry p l = after_purge dry q l.
Proof using.
  intros H. unfold after_purge. destruct dry; [done|]. apply filter_ext_elem. intros x _. by rewrite H.
Qed.

Lemma hit_by_one sel agent r :
  hit_by uuid_display now_ms kv sel [agent] r = sel agent && hit agent r.
Proof using. unfold hit_by. simpl. apply orb_false_r. Qed.

Lemma sweep_agent_stage agent report w :
  keyed w ->
  exists w' report', sweep_agent uuid_display now_ms dry limits agent report w = (w', Ok report') /\
    stage (deleted (hit agent)) nothing nothing (agents_spec [agent]) w report w' report'.
Proof using Hlimits task_laws.
  intros Hk. unfold sweep_agent. rewrite agent_limit_period.
  destruct (agent_period uuid_display kv agent) as [ms|] eqn:Hp.
  - set (upd := fun n r => if u_soft_delete agent then add_soft_deleted n r else add_active n r).
    apply (task_stage (hit agent) upd (agents_spec [agent]) report w) in Hk as (w' & r' & Hrun & Hst).
    + exists w', r'. split; [|done]. rewrite <-Hrun. unfold agent_hit. by rewrite Hp.
    + intros n r. unfold upd. by case_match.
    + intros t c j r. split_and!; simpl; try done.
      * by rewrite (after_ext _ (hit agent)) by (intros; by rewrite hit_by_one).
      * assert (count (fun a => negb (bool_decide (is_Some (agent_period uuid_display kv a)))) [agent] = 0%Z) as ->.
        { unfold count. simpl. by rewrite Hp. }
        unfold upd. destruct (u_soft_delete agent) eqn:Hs.
        -- rewrite (count_none (hit_by _ _ _ (fun a => negb _) _)) by (intros; by rewrite hit_by_one, Hs).
           rewrite (count_ext _ (hit agent)) by (intros; by rewrite hit_by_one, Hs).
           unfold add_soft_deleted. by rewrite !Z.add_0_r.
        -- rewrite (count_none (hit_by _ _ _ u_soft_delete _)) by (intros; by rewrite hit_by_one, Hs).
           rewrite (count_ext _ (hit agent)) by (intros; by rewrite hit_by_one, Hs).
           unfold add_active. by rewrite !Z.add_0_r.
  - exists w, (add_without_limit report). split; [done|]. split; [apply swept_refl|done|].
    assert (forall sel r, hit_by uuid_display now_ms kv sel [agent] r = false) as Hno.
    { intros sel r. rewrite hit_by_one. unfold agent_hit. rewrite Hp. apply andb_false_r. }
    intros _ _. split_and!; simpl; try done.
    + by rewrite after_none by done.
    + rewrite !count_none by done. unfold count. simpl. rewrite Hp. unfold add_without_limit. simpl.
      by rewrite !Z.add_0_r.
Qed.

(** Two agents with different uuids have no row in common. *)
Lemma hit_by_other sel agent agents r :
  u_uuid agent ∉ map u_uuid agents -> hit agent r = true -> hit_by uuid_display now_ms kv sel agents r = false.
Proof using.
  intros Hn Hh. apply not_true_iff_false. unfold hit_by. rewrite existsb_exists.
  intros (b & Hb & [_ Hbh]%andb_true_iff). apply Hn. apply list_elem_of_In, in_map_iff. exists b. split; [|done].
  unfold agent_hit, agent_filter in *. do 2 case_match; try done.
  apply andb_true_iff in Hh as [Hh%bool_decide_eq_true _].
  apply andb_true_iff in Hbh as [Hbh%bool_decide_eq_true _]. congruence.
Qed.

Lemma count_split {Row} (p p' q : Row -> bool) l :
  (forall x, p' x = true -> p x = true) -> (forall x, p x = true -> q x = false) ->
  count (fun x => p' x || q x) l = (count p' l + count q (after_purge dry p l))%Z.
Proof using.
  intros Hp Hq. unfold count, after_purge. induction l as [|x l IH]; [by destruct dry|].
  simpl. specialize (Hp x). specialize (Hq x).
  destruct (p' x) eqn:E1, (p x) eqn:E2, (q x) eqn:E3, dry; simpl; rewrite ?E3; simpl;
    try (by specialize (Hp eq_refl)); try (by specialize (Hq eq_refl)); lia.
Qed.

Lemma after_split {Row} (p q : Row -> bool) l :
  after_purge dry (fun x => p x || q x) l = after_purge dry q (after_purge dry p l).
Proof using.
  unfold after_purge. destruct dry; [done|]. induction l as [|x l IH]; [done|]. simpl.
  destruct (p x), (q x) eqn:E; simpl; rewrite ?E; simpl; by rewrite ?IH.
Qed.

Lemma agents_spec_cons agent agents s :
  u_uuid agent ∉ map u_uuid agents ->
  agents_spec (agent :: agents) s = agents_spec agents (agents_spec [agent] s).
Proof using.
  intros Hn. unfold RetentionSpec.agents_spec. simpl.
  assert (forall sel t, count (hit_by uuid_display now_ms kv sel (agent :: agents)) t =
    (count (hit_by uuid_display now_ms kv sel [agent]) t +
     count (hit_by uuid_display now_ms kv sel agents)
       (after_purge dry (hit_by uuid_display now_ms kv (fun _ => true) [agent]) t))%Z) as Hcount.
  { intros sel t. rewrite <-count_split.
    - apply count_ext. intros x. by rewrite hit_by_one.
    - intros x. rewrite !hit_by_one. by intros [_ ->]%andb_true_iff.
    - intros x. rewrite hit_by_one. by apply hit_by_other. }
  f_equal.
  - rewrite <-after_split. apply after_ext. intros x. by rewrite hit_by_one.
  - rewrite !Hcount. f_equal; [lia..|]. unfold count. simpl. case_match; simpl; lia.
Qed.

Definition agents_hit (agents : list UuidModel) (x : TaskModel) : Prop :=
  dry = false /\ exists agent, agent ∈ agents /\ hit agent x = true.

Lemma sweep_agents_stage agents : forall report w,
  NoDup (map u_uuid agents) -> keyed w ->
  exists w' report', sweep_agents uuid_display now_ms dry limits agents report w = (w', Ok report') /\
    stage (agents_hit agents) nothing nothing (agents_spec agents) w report w' report'.
Proof using Hlimits task_laws.
  induction agents as [|agent agents IH]; intros report w Hn Hk.
  - exists w, report. split; [done|]. split; [apply swept_refl|lia|]. intros _ _.
    split_and!; simpl; try done; [by rewrite after_none by done|].
    destruct report. rewrite !count_none by done. simpl. by rewrite !Z.add_0_r.
  - simpl in Hn. apply NoDup_cons in Hn as [Hn Hnd]. cbn [sweep_agents]. rewrite mbind_run.
    destruct (sweep_agent_stage agent report w Hk) as (w1 & r1 & Hrun1 & Hst1). rewrite Hrun1.
    destruct (IH r1 w1) as (w2 & r2 & Hrun2 & Hst2); [done|by eapply swept_keyed, Hk; apply Hst1|].
    exists w2, r2. split; [done|].
    assert (stage (agents_hit (agent :: agents)) nothing nothing
              (fun s => agents_spec agents (agents_spec [agent] s)) w report w2 r2) as [S E X].
    { eapply stage_trans; [apply _|eapply stage_weaken, Hst1|eapply stage_weaken, Hst2]; try done.
      - intros x _ [Hd Hh]. split; [done|]. exists agent. split; [by left|done].
      - intros x _ (Hd & a & Ha & Hh). split; [done|]. exists a. split; [by right|done]. }
    split; [done|done|]. intros He Hs. rewrite agents_spec_cons by done. auto.
Qed.

(** An undated row that lies the margin below some row of the table. *)
Definition legacy_row (l : list TaskModel) (x : TaskModel) : Prop :=
  dry = false /\
  exists y, y ∈ l /\ legacy_filter (sat_sub_i64 (t_id y) (Z.max margin MIN_LEGACY_ID_MARGIN)) x = true.

Lemma max_id_elem l m : max_id l = Some m -> exists y, y ∈ l /\ t_id y = m.
Proof using.
  unfold max_id. intros Hm%last_Some_elem_of. rewrite merge_sort_Permutation in Hm.
  apply list_elem_of_In, in_map_iff in Hm as (y & <- & Hy). exists y. by rewrite list_elem_of_In.
Qed.

Lemma max_task_id_run (w : W) :
  exists (w' : W) r, max_task_id w = (w', r) /\
    rows (rw_task w') = rows (rw_task w) /\ rw_crontab_result w' = rw_crontab_result w /\
    rw_js_result w' = rw_js_result w /\ rw_kv w' = rw_kv w /\ rw_uuid w' = rw_uuid w /\
    forall m, r = Ok m -> m = max_id (rows (rw_task w)).
Proof using task_laws.
  unfold max_task_id. rewrite mbind_run. unfold on_task.
  destruct (find_all _ (rw_task w)) as [d r] eqn:E. pose proof (find_all_rows _ _ _ _ E) as Hd.
  destruct r as [l|e]; eexists _, _; (split; [done|]); split_and!; try done.
  intros m [= <-]. apply find_all_ok in E. rewrite List.filter_true in E. by apply max_id_perm.
Qed.

(** A stage that starts from a world with the same rows. *)
Lemma stage_start Pt Pc Pj f w w1 report w' report' :
  rows (rw_task w1) = rows (rw_task w) -> rows (rw_crontab_result w1) = rows (rw_crontab_result w) ->
  rows (rw_js_result w1) = rows (rw_js_result w) -> rows (rw_kv w1) = rows (rw_kv w) ->
  rows (rw_uuid w1) = rows (rw_uuid w) ->
  stage Pt Pc Pj f w1 report w' report' -> stage Pt Pc Pj f w report w' report'.
Proof using.
  intros Et Ec Ej Ek Eu [[] E X]. unfold small, snapshot in *. rewrite Et, Ec, Ej, Ek, Eu in *. by split.
Qed.

Lemma sweep_legacy_stage report w :
  keyed w ->
  exists w' r', sweep_legacy dry (Z.max margin MIN_LEGACY_ID_MARGIN) report w = (w', r') /\
    match r' with
    | Ok report' => stage (legacy_row (rows (rw_task w))) nothing nothing (legacy_spec dry margin) w
                      report w' report'
    | Err _ => swept nothing nothing nothing w w'
    end.
Proof using task_laws.
  intros Hk. unfold sweep_legacy. rewrite mbind_run.
  destruct (max_task_id_run w) as (w1 & r & -> & Et & Ec & Ej & Ek & Eu & Hm).
  assert (swept nothing nothing nothing w w1) as Hsw
    by (split; [by rewrite Et; apply shrinks_perm|by rewrite Ec; apply shrinks_perm
               |by rewrite Ej; apply shrinks_perm|congruence|congruence]).
  destruct r as [m|e]; [|by eexists _, _].
  specialize (Hm m eq_refl). destruct m as [m|].
  - set (p := legacy_filter (sat_sub_i64 m (Z.max margin MIN_LEGACY_ID_MARGIN))).
    assert (keyed w1) as Hk1 by (by eapply swept_keyed).
    apply (task_stage p set_legacy (fun s => {| s_task := after_purge dry p (s_task s); s_cron := s_cron s;
        s_js := s_js s; s_report := set_legacy (count p (s_task s)) (s_report s) |}) report) in Hk1
      as (w' & r' & Hrun & Hst); [|done|done].
    exists w', (Ok r'). split; [exact Hrun|]. apply (stage_start _ _ _ _ w) in Hst; [|by congruence..].
    destruct Hst as [S E X]. split; [|done|].
    + eapply swept_weaken, S; try done. intros x _ [Hd Hx]. split; [done|].
      symmetry in Hm. apply max_id_elem in Hm as (y & Hy & Hid). exists y. by rewrite Hid.
    + intros He Hs. rewrite X by done. unfold legacy_spec, legacy_hit. simpl. rewrite <-Hm. done.
  - exists w1, (Ok report). split; [done|].
    assert (rows (rw_task w) = []) as Hnil.
    { unfold max_id in Hm. symmetry in Hm. apply last_None in Hm.
      destruct (rows (rw_task w)) as [|x l]; [done|]. exfalso.
      pose proof (merge_sort_Permutation Z.le (map t_id (x :: l))) as Hperm. rewrite Hm in Hperm.
      by apply Permutation_nil_cons in Hperm. }
    split; [by eapply swept_weaken, Hsw|done|]. intros _ _.
    unfold legacy_spec, snapshot. rewrite Et, Ec, Ej, Hnil.
    split_and!; simpl; try done. by unfold after_purge; destruct dry.
Qed.

(** A stage without a period does nothing. *)
Lemma idle_stage Pt Pc Pj f report w :
  f (snapshot w report) ≡ snapshot w report -> stage Pt Pc Pj f w report w report.
Proof using. intros Hf. split; [apply swept_refl|done|]. intros _ _. by rewrite Hf. Qed.

Lemma sweep_orphans_stage agents agents' report w :
  keyed w -> agents ≡ₚ agents' ->
  exists w' report', sweep_orphans now_ms dry limits agents report w = (w', Ok report') /\
    stage (deleted (orphan_hit kv agents' now_ms)) nothing nothing (orphan_spec now_ms dry kv agents')
      w report w' report'.
Proof using Hlimits task_laws.
  intros Hk Hp. unfold sweep_orphans. rewrite Hlimits by (by left).
  destruct (configured_limit kv GLOBAL_NAMESPACE "task") as [ms|] eqn:Hms.
  2:{ exists w, report. split; [done|]. apply idle_stage. unfold orphan_spec. rewrite Hms.
      split_and!; simpl; try done. rewrite after_none; [done|]. intros x. unfold orphan_hit. by rewrite Hms. }
  destruct agents as [|a agents].
  { symmetry in Hp. apply Permutation_nil_r in Hp as ->. exists w, report. split; [done|]. apply idle_stage. unfold orphan_spec. rewrite Hms.
    split_and!; simpl; try done. rewrite after_none; [done|]. intros x. unfold orphan_hit. by rewrite Hms. }
  destruct agents' as [|b agents']; [by apply Permutation_length in Hp|].
  assert (forall x, orphan_hit kv (b :: agents') now_ms x = orphan_filter now_ms (map u_uuid (a :: agents)) ms x) as Hhit.
  { intros x. unfold orphan_hit. rewrite Hms. unfold orphan_filter. f_equal. f_equal.
    apply bool_decide_ext. change (map u_uuid) with (fmap (M:=list) u_uuid). by rewrite Hp. }
  set (p := orphan_filter now_ms (map u_uuid (a :: agents)) ms) in *.
  apply (task_stage p set_orphan (orphan_spec now_ms dry kv (b :: agents')) report) in Hk as (w' & r' & Hrun & Hst); [|done|].
  - exists w', r'. split; [done|]. eapply stage_weaken, Hst; try done.
    intros x _ [Hd Hx]. split; [done|]. by rewrite Hhit.
  - intros t c j r. unfold orphan_spec. rewrite Hms. split_and!; simpl; try done.
    + by rewrite (after_ext _ p).
    + by rewrite (count_ext _ p).
Qed.

Lemma sweep_crontab_result_stage report w :
  keyed w ->
  exists w' report', sweep_crontab_result now_ms dry limits report w = (w', Ok report') /\
    stage nothing (deleted (crontab_hit kv now_ms)) nothing (cron_spec now_ms dry kv) w report w' report'.
Proof using Hlimits cron_laws.
  intros Hk. unfold sweep_crontab_result. rewrite Hlimits by (right; by left).
  unfold cron_spec, crontab_hit.
  destruct (configured_limit kv GLOBAL_NAMESPACE "crontab_result") as [ms|]; [by apply cron_stage|].
  exists w, report. split; [done|]. apply idle_stage. split_and!; simpl; try done. by rewrite after_none.
Qed.

Lemma sweep_js_result_stage report w :
  keyed w ->
  exists w' report', sweep_js_result now_ms dry limits report w = (w', Ok report') /\
    stage nothing nothing (deleted (js_hit kv now_ms)) (js_spec now_ms dry kv) w report w' report'.
Proof using Hlimits js_laws.
  intros Hk. unfold sweep_js_result. rewrite Hlimits by (right; right; by left).
  unfold js_spec, js_hit.
  destruct (configured_limit kv GLOBAL_NAMESPACE "js_result") as [ms|]; [by apply js_stage|].
  exists w, report. split; [done|]. apply idle_stage. split_and!; simpl; try done. by rewrite after_none.
Qed.
End with_limits.

(** ** The whole sweep *)

(** A task row the policy lets a sweep delete, given all rows of the three tables it reads. *)
Definition task_expired (w : W) (x : TaskModel) : Prop :=
  dry = false /\
  ((exists agent, agent ∈ rows (rw_uuid w) /\ agent_hit uuid_display (rows (rw_kv w)) now_ms agent x = true) \/
   legacy_row (rows (rw_task w)) x \/
   orphan_hit (rows (rw_kv w)) (rows (rw_uuid w)) now_ms x = true).

Lemma agents_spec_perm kv agents agents' s :
  agents ≡ₚ agents' ->
  agents_spec uuid_display now_ms dry kv agents s ≡ agents_spec uuid_display now_ms dry kv agents' s.
Proof using.
  intros Hp. unfold agents_spec. rewrite (count_perm _ _ _ Hp).
  assert (forall sel x, hit_by uuid_display now_ms kv sel agents x = hit_by uuid_display now_ms kv sel agents' x) as H
    by (intros; by apply existsb_perm).
  rewrite (after_ext _ _ (s_task s) (H _)), !(count_ext _ _ (s_task s) (H _)). done.
Qed.

Lemma uuid_nodup (l : list UuidModel) : unique_rows uuid_conflict l = true -> NoDup (map u_uuid l).
Proof using.
  induction l as [|x l IH]; [constructor|]. intros [Hx Hl]%unique_rows_cons. simpl. constructor; [|auto].
  intros (y & Hy & Hin)%list_elem_of_In%in_map_iff. apply list_elem_of_In in Hin.
  specialize (Hx y Hin). unfold uuid_conflict in Hx. apply orb_false_iff in Hx as [_ Hx%bool_decide_eq_false].
  congruence.
Qed.

#[local] Notation swept_by_policy w :=
  (swept (task_expired w) (deleted (crontab_hit (rows (rw_kv w)) now_ms))
         (deleted (js_hit (rows (rw_kv w)) now_ms))).

(** The deletions of [sweep_once], once the limits and the agents have been read. *)
Definition sweep_purges (limits : Limits) (agents : list UuidModel) : Rm (T:=T) (C:=C) (J:=J) (K:=K) (U:=U) SweepReport :=
  let! report := sweep_agents uuid_display now_ms dry limits agents empty_report in
  let! report := sweep_legacy dry (Z.max margin MIN_LEGACY_ID_MARGIN) report in
  let! report := sweep_orphans now_ms dry limits agents report in
  let! report := sweep_crontab_result now_ms dry limits report in
  let! report := sweep_js_result now_ms dry limits report in
  mret report.

Lemma sweep_results_run kv limits report w :
  limits_ok kv limits -> keyed w ->
  exists w' report',
    (let! report := sweep_crontab_result now_ms dry limits report in
     let! report := sweep_js_result now_ms dry limits report in mret report) w = (w', Ok report') /\
    stage nothing (deleted (crontab_hit kv now_ms)) (deleted (js_hit kv now_ms))
      (fun s => js_spec now_ms dry kv (cron_spec now_ms dry kv s)) w report w' report'.
Proof using cron_laws js_laws.
  intros Hlim Hk. rewrite mbind_run.
  destruct (sweep_crontab_result_stage kv limits Hlim report w Hk) as (w1 & r1 & Hrun1 & St1).
  assert (keyed w1) as Hk1 by (eapply swept_keyed, Hk; apply St1).
  destruct (sweep_js_result_stage kv limits Hlim r1 w1 Hk1) as (w2 & r2 & Hrun2 & St2).
  exists w2, r2. rewrite Hrun1, mbind_run, Hrun2. split; [done|].
  eapply stage_trans; [apply _|by eapply stage_weaken, St1|by eapply stage_weaken, St2].
Qed.

Lemma sweep_purges_run limits agents w w0 :
  limits_ok (rows (rw_kv w)) limits -> agents ≡ₚ rows (rw_uuid w) ->
  NoDup (map u_uuid agents) -> keyed w0 ->
  rows (rw_task w0) = rows (rw_task w) -> rows (rw_crontab_result w0) = rows (rw_crontab_result w) ->
  rows (rw_js_result w0) = rows (rw_js_result w) -> rows (rw_kv w0) = rows (rw_kv w) ->
  rows (rw_uuid w0) = rows (rw_uuid w) ->
  exists w' r, sweep_purges limits agents w0 = (w', r) /\
    match r with
    | Ok report => stage (task_expired w) (deleted (crontab_hit (rows (rw_kv w)) now_ms))
                     (deleted (js_hit (rows (rw_kv w)) now_ms))
                     (sweep_spec uuid_display now_ms dry margin (rows (rw_kv w)) (rows (rw_uuid w)))
                     w empty_report w' report
    | Err _ => swept_by_policy w w w'
    end.
Proof using task_laws cron_laws js_laws.
  intros Hlim Hag Hnd Hk0 Et Ec Ej Ek Eu. unfold sweep_purges. rewrite mbind_run.
  destruct (sweep_agents_stage _ limits Hlim agents empty_report w0 Hnd Hk0) as (w1 & r1 & Hrun1 & St1).
  rewrite Hrun1, mbind_run. apply (stage_start _ _ _ _ w) in St1; [|done..].
  assert (keyed w1) as Hk1.
  { eapply swept_keyed; [apply St1|]. unfold keyed. by rewrite <-Et, <-Ec, <-Ej. }
  assert (stage (task_expired w) (deleted (crontab_hit (rows (rw_kv w)) now_ms))
            (deleted (js_hit (rows (rw_kv w)) now_ms))
            (agents_spec uuid_display now_ms dry (rows (rw_kv w)) (rows (rw_uuid w))) w empty_report w1 r1) as St1'.
  { destruct St1 as [S E X]. split; [|done|intros; rewrite <-(agents_spec_perm _ agents) by done; auto].
    eapply swept_weaken, S; try done. intros x _ (Hd & a & Ha & Hh). split; [done|]. left.
    exists a. split; [by rewrite <-Hag|done]. }
  destruct (sweep_legacy_stage r1 w1 Hk1) as (w2 & r2 & Hrun2 & St2). rewrite Hrun2.
  destruct r2 as [r2|e].
  2:{ exists w2, (Err e). split; [done|]. eapply swept_trans; [apply St1'|]. by eapply swept_weaken, St2. }
  assert (keyed w2) as Hk2 by (eapply swept_keyed, Hk1; apply St2). rewrite mbind_run.
  destruct (sweep_orphans_stage _ limits Hlim agents (rows (rw_uuid w)) r2 w2 Hk2 Hag) as (w3 & r3 & Hrun3 & St3).
  rewrite Hrun3. assert (keyed w3) as Hk3 by (eapply swept_keyed, Hk2; apply St3).
  destruct (sweep_results_run _ limits r3 w3 Hlim Hk3) as (w4 & r4 & Hrun4 & St4). rewrite Hrun4.
  exists w4, (Ok r4). split; [done|]. unfold sweep_spec.
  eapply (stage_trans _ _ _ _ (fun s => js_spec _ _ _ (cron_spec _ _ _ s)));
    [solve_proper| |by eapply stage_weaken, St4].
  eapply (stage_trans _ _ _ _ (orphan_spec _ _ _ _));
    [apply _| |eapply stage_weaken, St3; try done; intros x _ [Hd Hx]; split; [done|]; by right; right].
  eapply (stage_trans _ _ _ _ (legacy_spec _ _)); [apply _|exact St1'|eapply stage_weaken, St2; try done].
  intros x _ (Hd & y & Hy & Hx). split; [done|]. right. left. split; [done|]. exists y. split; [|done].
  eapply shrinks_elem, Hy. apply St1'.
Qed.

Lemma sweep_run w w' r :
  tables_unique w -> sweep_once uuid_display now_ms dry margin w = (w', r) ->
  swept_by_policy w w w' /\
  forall report, r = Ok report ->
    (0 <= errors report)%Z /\
    (errors report = 0 -> small w ->
     snapshot w' report ≡
     sweep_spec uuid_display now_ms dry margin (rows (rw_kv w)) (rows (rw_uuid w)) (snapshot w empty_report))%Z.
Proof using task_laws cron_laws js_laws kv_laws uuid_laws.
  intros Hu H. pose proof (tables_keyed w Hu) as Hk. destruct Hu as (_ & _ & _ & Hkv & Huu).
  unfold sweep_once in H. rewrite mbind_run in H.
  destruct (load_limits_run w Hkv) as (w1 & r1 & Hrun1 & Et1 & Ec1 & Ej1 & Ek1 & Eu1 & Hlim).
  rewrite Hrun1 in H.
  assert (swept_by_policy w w w1) as S1.
  { split; [by rewrite Et1; apply shrinks_perm|by rewrite Ec1; apply shrinks_perm
           |by rewrite Ej1; apply shrinks_perm|done|congruence]. }
  destruct r1 as [limits|e]; [|by injection H as <- <-].
  specialize (Hlim limits eq_refl). rewrite mbind_run in H. unfold on_uuid in H at 1.
  destruct (find_all _ (rw_uuid w1)) as [d2 r2] eqn:E2. pose proof (find_all_rows _ _ _ _ E2) as Ed2.
  set (w2 := {| rw_task := rw_task w1; rw_uuid := d2; rw_kv := rw_kv w1;
                rw_crontab_result := rw_crontab_result w1; rw_js_result := rw_js_result w1 |}) in *.
  destruct r2 as [agents|e]; [|injection H as <- <-; split; [destruct S1; split; simpl; [done..|congruence]|done]].
  apply find_all_ok in E2. rewrite List.filter_true, Eu1 in E2.
  assert (NoDup (map u_uuid agents)) as Hnd.
  { change (NoDup (u_uuid <$> agents)). rewrite E2. by apply uuid_nodup. }
  destruct (sweep_purges_run limits agents w w2) as (w3 & r3 & Hrun3 & St); try done; try (simpl; congruence).
  { unfold keyed. simpl. by rewrite Et1, Ec1, Ej1. }
  unfold sweep_purges in Hrun3. rewrite Hrun3 in H. injection H as <- <-.
  destruct r3 as [report|e]; [|done]. destruct St as [S E X]. split; [exact S|].
  by intros ? [= <-].
Qed.
End sweep_facts.
