(* ===== verification/RetentionThms.v ===== *)
(** * Guarantees of the retention sweep

    No outcome of [sweep_once] loses a row the policy protects; without failed statements
    it deletes exactly the expired rows and reports their number; a dry run changes nothing
    and forecasts the deletion. *)
From stdpp Require Import base strings gmap list numbers sorting.
From S2P Require Import Prelude Errors Json Db Permission KvStore KvRefine UuidCache TaskTypes Purge Retention RetentionSpec.

(** ** Periods have a floor *)

Lemma configured_limit_floor kv ns table ms :
  configured_limit kv ns table = Some ms -> (min_limit_ms table <= ms)%Z.
Proof.
  unfold configured_limit. destruct (List.find _ kv) as [row|]; [|done]. simpl.
  destruct (parse_limit_ms (r_value row)) as [v|]; [|done]. simpl.
  case_match; [done|]. intros [= <-]. lia.
Qed.

Lemma agent_period_floor uuid_display kv agent ms :
  agent_period uuid_display kv agent = Some ms -> (MIN_TASK_LIMIT_MS <= ms)%Z.
Proof.
  unfold agent_period. case_match; [by intros [= <-]|].
  case_match eqn:E; [intros [= <-]|intros E'].
  - by apply configured_limit_floor in E.
  - by apply configured_limit_floor in E'.
Qed.

(** A row younger than the period is not older than the cutoff. *)
Lemma young_not_older now ms floor c :
  (i64_min <= c)%Z -> (now <= i64_max)%Z -> (0 <= floor <= ms)%Z -> (now - floor <= c)%Z ->
  older_than (sat_sub_i64 now ms) (Some c) = false.
Proof. unfold older_than, sat_sub_i64. lia. Qed.

Section theorems.
Context {T C J K U : Type}.
Context {task_ops : TableOps T TaskModel} {cron_ops : TableOps C CrontabResult}.
Context {js_ops : TableOps J JsResultModel} {kv_ops : TableOps K KvRow}.
Context {uuid_ops : TableOps U UuidModel}.
Context {task_laws : TableLaws task_ops task_conflict}.
Context {cron_laws : TableLaws cron_ops crontab_result_conflict}.
Context {js_laws : TableLaws js_ops js_result_conflict}.
Context {kv_laws : TableLaws kv_ops kv_conflict}.
Context {uuid_laws : TableLaws uuid_ops uuid_conflict}.
Variable uuid_display : Uuid -> string.
Variables (now_ms : Z) (margin : Z).

#[local] Notation W := (RWorld T C J K U).
#[local] Notation sweep := (sweep_once uuid_display now_ms).

Lemma shrinks_keeps {Row} (P : Row -> Prop) l l' x : shrinks P l l' -> x ∈ l -> ~ P x -> x ∈ l'.
Proof using.
  intros (q & -> & HP) Hx Hn. apply list_filter_elem. split; [done|].
  destruct (q x) eqn:E; [done|]. exfalso. eauto.
Qed.

Lemma task_expired_old dry (w : W) x c :
  task_expired uuid_display now_ms dry margin w x -> t_created_at x = Some c ->
  (i64_min <= c)%Z -> (now_ms <= i64_max)%Z -> (c < now_ms - MIN_TASK_LIMIT_MS)%Z.
Proof using.
  intros (_ & Hx) Hc Hmin Hmax. apply Z.nle_gt. intros Hle.
  assert (forall ms, (MIN_TASK_LIMIT_MS <= ms)%Z -> older_than (sat_sub_i64 now_ms ms) (Some c) = false) as Hno.
  { intros ms Hms. apply (young_not_older _ _ MIN_TASK_LIMIT_MS); unfold MIN_TASK_LIMIT_MS in *; lia. }
  destruct Hx as [(agent & _ & Hh)|[(_ & y & _ & Hh)|Hh]].
  - unfold agent_hit in Hh. destruct (agent_period _ _ agent) as [ms|] eqn:E; [|done].
    apply agent_period_floor in E. unfold agent_filter in Hh. rewrite Hc, (Hno ms E) in Hh.
    by rewrite andb_false_r in Hh.
  - unfold legacy_filter in Hh. by rewrite Hc in Hh.
  - unfold orphan_hit in Hh. destruct (configured_limit _ _ _) as [ms|] eqn:E; [|done].
    apply configured_limit_floor in E. case_match; [done|]. unfold orphan_filter in Hh.
    by rewrite Hc, (Hno ms E) in Hh.
Qed.

(** whatever happens during a sweep (failed statements and an aborted sweep included), no
    row younger than the floor of its table is lost: ten minutes for a task that has a creation
    time, one hour for a crontab or worker result; and a dry run loses no row at all. *)
Theorem recent_rows_survive dry (w w' : W) r :
  tables_unique w -> sweep dry margin w = (w', r) -> (now_ms <= i64_max)%Z ->
  (forall x c, x ∈ rows (rw_task w) -> t_created_at x = Some c -> (i64_min <= c)%Z ->
     (now_ms - MIN_TASK_LIMIT_MS <= c)%Z -> x ∈ rows (rw_task w')) /\
  (forall x c, x ∈ rows (rw_crontab_result w) -> cr_run_time x = Some c -> (i64_min <= c)%Z ->
     (now_ms - MIN_RESULT_LIMIT_MS <= c)%Z -> x ∈ rows (rw_crontab_result w')) /\
  (forall x c, x ∈ rows (rw_js_result w) -> jr_start_time x = Some c -> (i64_min <= c)%Z ->
     (now_ms - MIN_RESULT_LIMIT_MS <= c)%Z -> x ∈ rows (rw_js_result w')) /\
  (dry = true -> rows (rw_task w') ≡ₚ rows (rw_task w) /\
     rows (rw_crontab_result w') ≡ₚ rows (rw_crontab_result w) /\
     rows (rw_js_result w') ≡ₚ rows (rw_js_result w)).
Proof using task_laws cron_laws js_laws kv_laws uuid_laws.
  intros Hu [[Ht Hc Hj _ _] _]%sweep_run Hnow; [|done].
  assert (forall kv ns table ms c, configured_limit kv ns table = Some ms -> String.eqb table "task" = false ->
    (i64_min <= c)%Z -> (now_ms - MIN_RESULT_LIMIT_MS <= c)%Z ->
    older_than (sat_sub_i64 now_ms ms) (Some c) = false) as Hres.
  { intros kv ns table ms c Hms%configured_limit_floor Htab Hmin Hle. unfold min_limit_ms in Hms. rewrite Htab in Hms.
    apply (young_not_older _ _ MIN_RESULT_LIMIT_MS); unfold MIN_RESULT_LIMIT_MS in *; lia. }
  split_and!.
  - intros x c Hx Hxc Hmin Hle. eapply shrinks_keeps; [exact Ht|done|].
    intros He. pose proof (task_expired_old _ _ _ _ He Hxc Hmin Hnow). lia.
  - intros x c Hx Hxc Hmin Hle. eapply shrinks_keeps; [exact Hc|done|].
    intros [_ He]. unfold crontab_hit in He. case_match eqn:E; [|done].
    unfold run_time_filter in He. rewrite Hxc in He. by erewrite Hres in He.
  - intros x c Hx Hxc Hmin Hle. eapply shrinks_keeps; [exact Hj|done|].
    intros [_ He]. unfold js_hit in He. case_match eqn:E; [|done].
    unfold start_time_filter in He. rewrite Hxc in He. by erewrite Hres in He.
  - intros ->.
    assert (forall Row (P : Row -> Prop) l l', shrinks P l l' -> (forall x, ~ P x) -> l' ≡ₚ l) as Hno.
    { intros Row P l l' (q & -> & HP) Hn.
      rewrite (filter_ext_elem q (fun _ => true)); [by rewrite List.filter_true|].
      intros x Hx. destruct (q x) eqn:E; [done|]. destruct (Hn x). auto. }
    split_and!; [eapply Hno; [exact Ht|]|eapply Hno; [exact Hc|]|eapply Hno; [exact Hj|]]; intros x [? _]; done.
Qed.

(** A sweep deletes nothing outside the policy, whatever fails: a task only when the
    period of its agent has passed (the configured one, or the grace period of a retired
    agent), or it is undated and lies at least 1000 ids below another row, or its agent is gone
    and the global period has passed; a result only when the global period has passed; the
    key-value table and the agents are left as they are. *)
Theorem sweep_only_expired dry (w w' : W) r :
  tables_unique w -> sweep dry margin w = (w', r) ->
  swept (task_expired uuid_display now_ms dry margin w)
    (fun x => dry = false /\ crontab_hit (rows (rw_kv w)) now_ms x = true)
    (fun x => dry = false /\ js_hit (rows (rw_kv w)) now_ms x = true) w w' /\
  (forall x, task_expired uuid_display now_ms dry margin w x -> t_created_at x = None -> (0 <= t_id x)%Z ->
     exists y, y ∈ rows (rw_task w) /\ (t_id x + MIN_LEGACY_ID_MARGIN <= t_id y)%Z).
Proof using task_laws cron_laws js_laws kv_laws uuid_laws.
  intros Hu [Hs _]%sweep_run; [|done]. split; [exact Hs|].
  intros x (_ & Hx) Hn Hid. destruct Hx as [(agent & _ & Hh)|[(_ & y & Hy & Hh)|Hh]].
  - unfold agent_hit, agent_filter in Hh. case_match; [|done]. rewrite Hn in Hh. by rewrite andb_false_r in Hh.
  - exists y. split; [done|]. unfold legacy_filter in Hh. rewrite Hn in Hh.
    unfold sat_sub_i64, MIN_LEGACY_ID_MARGIN, i64_min, i64_max in *. lia.
  - unfold orphan_hit in Hh. case_match; [|done]. case_match; [done|]. unfold orphan_filter in Hh. by rewrite Hn in Hh.
Qed.

(** ** The numbers of the report *)

Lemma count_app_disjoint {Row} (p q : Row -> bool) l :
  (forall x, p x = true -> q x = false) -> count (fun x => p x || q x) l = (count p l + count q l)%Z.
Proof using.
  intros H. unfold count. induction l as [|x l IH]; [done|]. simpl. specialize (H x).
  destruct (p x), (q x); simpl; try (by specialize (H eq_refl)); lia.
Qed.

Lemma count_after {Row} (p : Row -> bool) l :
  Z.of_nat (length l) = (count p l + Z.of_nat (length (after_purge false p l)))%Z.
Proof using.
  unfold count, after_purge. induction l as [|x l IH]; [done|]. simpl length. destruct (p x); simpl; lia.
Qed.

(** Every row hit by some agent is hit by the active agents or by the retired ones. *)
Lemma hit_by_split kv agents l :
  NoDup (map u_uuid agents) ->
  (count (hit_by uuid_display now_ms kv (fun a => negb (u_soft_delete a)) agents) l +
   count (hit_by uuid_display now_ms kv u_soft_delete agents) l)%Z =
  count (hit_by uuid_display now_ms kv (fun _ => true) agents) l.
Proof using.
  intros Hnd. rewrite <-count_app_disjoint.
  - apply count_ext. intros x. unfold hit_by. clear Hnd. induction agents as [|a agents IH]; [done|]. cbn [existsb].
    rewrite <-IH. destruct (u_soft_delete a), (agent_hit _ _ _ a x); simpl; try done. by rewrite orb_true_r.
  - intros x. unfold hit_by. induction agents as [|a agents IH]; [done|]. simpl.
    simpl in Hnd. apply NoDup_cons in Hnd as [Hn Hnd]. specialize (IH Hnd).
    destruct (agent_hit uuid_display kv now_ms a x) eqn:Eh.
    + pose proof (hit_by_other uuid_display now_ms kv (fun b => negb (u_soft_delete b)) a agents x Hn Eh) as H1.
      pose proof (hit_by_other uuid_display now_ms kv u_soft_delete a agents x Hn Eh) as H2.
      unfold hit_by in H1, H2. rewrite H1, H2. by destruct (u_soft_delete a).
    + by rewrite !andb_false_r.
Qed.

(** The rows of the tables together with those the report has counted. *)
Definition mass (s : Snapshot) : Z :=
  (total (s_report s) + Z.of_nat (length (s_task s)) + Z.of_nat (length (s_cron s)) + Z.of_nat (length (s_js s)))%Z.

Lemma agents_mass kv agents s :
  NoDup (map u_uuid agents) -> mass (agents_spec uuid_display now_ms false kv agents s) = mass s.
Proof using.
  intros Hnd. pose proof (hit_by_split kv agents (s_task s) Hnd) as Hs.
  pose proof (count_after (hit_by uuid_display now_ms kv (fun _ => true) agents) (s_task s)) as H1.
  unfold mass, total, agents_spec. cbn -[count after_purge hit_by Z.add]. lia.
Qed.

Lemma legacy_mass s : task_legacy (s_report s) = 0%Z -> mass (legacy_spec false margin s) = mass s.
Proof using.
  intros Hz. pose proof (count_after (legacy_hit margin (s_task s)) (s_task s)) as H1.
  unfold mass, total, legacy_spec. cbn -[count after_purge Z.add]. destruct (max_id (s_task s)) eqn:E; cbn -[count after_purge Z.add]; [lia|].
  unfold legacy_hit at 1. rewrite E, after_none by done. lia.
Qed.

Lemma orphan_mass kv agents s :
  task_orphan (s_report s) = 0%Z -> mass (orphan_spec now_ms false kv agents s) = mass s.
Proof using.
  intros Hz. pose proof (count_after (orphan_hit kv agents now_ms) (s_task s)) as H1.
  unfold mass, total, orphan_spec. cbn -[count after_purge Z.add].
  destruct (configured_limit kv GLOBAL_NAMESPACE "task") eqn:E, agents; cbn -[count after_purge Z.add]; try lia;
    (rewrite after_none; [lia|]; intros x; unfold orphan_hit; by rewrite E).
Qed.

Lemma cron_mass kv s :
  crontab_result (s_report s) = 0%Z -> mass (cron_spec now_ms false kv s) = mass s.
Proof using.
  intros Hz. pose proof (count_after (crontab_hit kv now_ms) (s_cron s)) as H1.
  unfold mass, total, cron_spec. cbn -[count after_purge Z.add].
  destruct (configured_limit _ _ _) eqn:E; cbn -[count after_purge Z.add]; [lia|].
  rewrite after_none; [lia|]. intros x. unfold crontab_hit. by rewrite E.
Qed.

Lemma js_mass kv s : js_result (s_report s) = 0%Z -> mass (js_spec now_ms false kv s) = mass s.
Proof using.
  intros Hz. pose proof (count_after (js_hit kv now_ms) (s_js s)) as H1.
  unfold mass, total, js_spec. cbn -[count after_purge Z.add].
  destruct (configured_limit _ _ _) eqn:E; cbn -[count after_purge Z.add]; [lia|].
  rewrite after_none; [lia|]. intros x. unfold js_hit. by rewrite E.
Qed.

Lemma sweep_spec_mass kv agents s :
  NoDup (map u_uuid agents) -> s_report s = empty_report ->
  mass (sweep_spec uuid_display now_ms false margin kv agents s) = mass s.
Proof using.
  intros Hnd Hr. unfold sweep_spec.
  rewrite js_mass, cron_mass, orphan_mass, legacy_mass, agents_mass; [done|done|..];
    unfold cron_spec, orphan_spec, legacy_spec, agents_spec; simpl; repeat case_match; simpl; by rewrite Hr.
Qed.

(** C5: a sweep in which no statement fails, over tables of at most a million rows, leaves
    exactly the rows that survive the five steps of the specification on row lists, with the
    report of the specification; the total of the report is the number of rows deleted. *)
Theorem sweep_exact (w w' : W) report :
  tables_unique w -> small w -> sweep false margin w = (w', Ok report) -> errors report = 0%Z ->
  snapshot w' report ≡
    sweep_spec uuid_display now_ms false margin (rows (rw_kv w)) (rows (rw_uuid w)) (snapshot w empty_report) /\
  (total report =
     (Z.of_nat (length (rows (rw_task w))) - Z.of_nat (length (rows (rw_task w')))) +
     (Z.of_nat (length (rows (rw_crontab_result w))) - Z.of_nat (length (rows (rw_crontab_result w')))) +
     (Z.of_nat (length (rows (rw_js_result w))) - Z.of_nat (length (rows (rw_js_result w')))))%Z.
Proof using task_laws cron_laws js_laws kv_laws uuid_laws.
  intros Hu Hs H He. pose proof Hu as (_ & _ & _ & _ & Huu). apply sweep_run in H as [_ H]; [|done].
  destruct (H report eq_refl) as [_ Hx]. specialize (Hx He Hs). split; [exact Hx|].
  pose proof (sweep_spec_mass (rows (rw_kv w)) (rows (rw_uuid w)) (snapshot w empty_report)
                (uuid_nodup _ Huu) eq_refl) as Hm.
  destruct Hx as (Ht & Hc & Hj & Hr). unfold mass in Hm. rewrite <-Hr, <-Ht, <-Hc, <-Hj in Hm.
  simpl in Hm. unfold total at 2 in Hm. simpl in Hm. lia.
Qed.

(** ** Dry run and deletion compared *)

Lemma count_after_disjoint {Row} dry (p q : Row -> bool) l :
  (forall x, p x = true -> q x = false) -> count q (after_purge dry p l) = count q l.
Proof using.
  intros H. unfold count, after_purge. destruct dry; [done|]. induction l as [|x l IH]; [done|].
  simpl. specialize (H x). destruct (p x); simpl; [by rewrite H, IH|]. destruct (q x); simpl; lia.
Qed.

Lemma hit_dated kv sel agents x :
  hit_by uuid_display now_ms kv sel agents x = true ->
  t_created_at x <> None /\ t_uuid x ∈ map u_uuid agents.
Proof using.
  unfold hit_by. intros (a & Ha & [_ Hh]%andb_true_iff)%existsb_exists.
  unfold agent_hit, agent_filter in Hh. case_match; [|done].
  apply andb_true_iff in Hh as [Hu%bool_decide_eq_true Ho]. split.
  - intros Hn. by rewrite Hn in Ho.
  - rewrite Hu. apply list_elem_of_In. by apply in_map.
Qed.

Lemma orphan_dated kv agents x :
  orphan_hit kv agents now_ms x = true -> t_created_at x <> None /\ t_uuid x ∉ map u_uuid agents.
Proof using.
  unfold orphan_hit. destruct (configured_limit _ _ _); [|done]. destruct agents as [|a agents]; [done|].
  unfold orphan_filter. intros [Ho Hn%negb_true_iff%bool_decide_eq_false]%andb_true_iff.
  split; [|done]. intros E. by rewrite E in Ho.
Qed.

Lemma orphan_count dry kv agents s :
  count (orphan_hit kv agents now_ms)
    (s_task (legacy_spec dry margin (agents_spec uuid_display now_ms dry kv agents s))) =
  count (orphan_hit kv agents now_ms) (s_task s).
Proof using.
  cbn [s_task legacy_spec]. rewrite count_after_disjoint.
  - cbn [s_task agents_spec]. apply count_after_disjoint. intros x [_ Hin]%hit_dated.
    apply not_true_iff_false. by intros [_ Hn]%orphan_dated.
  - intros x Hl. apply not_true_iff_false. intros [Hd _]%orphan_dated. apply Hd.
    unfold legacy_hit in Hl. case_match; [|done]. unfold legacy_filter in Hl. by case_match.
Qed.

Lemma max_id_max l m y : max_id l = Some m -> y ∈ l -> (t_id y <= m)%Z.
Proof using.
  unfold max_id. intros Hm Hy. apply last_Some in Hm as [k Hk].
  pose proof (StronglySorted_merge_sort Z.le (map t_id l)) as Hs. rewrite Hk in Hs.
  assert (t_id y ∈ k ++ [m]) as Hin.
  { rewrite <-Hk, merge_sort_Permutation. by apply list_elem_of_In, in_map, list_elem_of_In. }
  apply elem_of_app in Hin as [Hin|Hin%list_elem_of_singleton]; [|lia].
  eapply (StronglySorted_app_1_elem_of Z.le); [exact Hs|done|by left].
Qed.

(** Fewer rows put the watermark lower. *)
Lemma legacy_count_le p l :
  (count (legacy_hit margin (List.filter p l)) (List.filter p l) <= count (legacy_hit margin l) l)%Z.
Proof using.
  unfold count.
  assert (forall x, legacy_hit margin (List.filter p l) x = true -> legacy_hit margin l x = true) as Himp.
  { intros x. unfold legacy_hit. destruct (max_id (List.filter p l)) as [m1|] eqn:E1; [|done].
    apply max_id_elem in E1 as (y & Hy & <-). apply list_filter_elem in Hy as [Hy _].
    destruct (max_id l) as [m|] eqn:E.
    - pose proof (max_id_max _ _ _ E Hy). unfold legacy_filter. case_match; [done|].
      unfold sat_sub_i64. lia.
    - unfold max_id in E. apply last_None in E. exfalso.
      assert (t_id y ∈ merge_sort Z.le (map t_id l)) as Hin.
      { rewrite merge_sort_Permutation. by apply list_elem_of_In, in_map, list_elem_of_In. }
      rewrite E in Hin. by apply not_elem_of_nil in Hin. }
  generalize dependent (legacy_hit margin (List.filter p l)). generalize (legacy_hit margin l).
  intros q q' Himp. clear -Himp. induction l as [|x l IH]; [done|]. simpl. specialize (Himp x).
  destruct (p x), (q x); simpl; try (destruct (q' x); simpl); try lia; by specialize (Himp eq_refl).
Qed.

Lemma legacy_report_le kv agents s :
  s_report s = empty_report ->
  (task_legacy (s_report (legacy_spec false margin (agents_spec uuid_display now_ms false kv agents s))) <=
   task_legacy (s_report (legacy_spec true margin (agents_spec uuid_display now_ms true kv agents s))))%Z.
Proof using.
  intros Hr. set (p := fun x => negb (hit_by uuid_display now_ms kv (fun _ => true) agents x)).
  pose proof (legacy_count_le p (s_task s)) as Hle.
  unfold legacy_spec. cbn [s_report s_task agents_spec after_purge].
  assert (forall l r, task_legacy r = 0%Z ->
    task_legacy (match max_id l with Some _ => set_legacy (count (legacy_hit margin l) l) r | None => r end) =
    count (legacy_hit margin l) l) as Hval.
  { intros l r Hz. destruct (max_id l) as [m|] eqn:E; [done|].
    rewrite count_none; [done|]. intros x. unfold legacy_hit. by rewrite E. }
  rewrite !Hval; [exact Hle|by cbn; rewrite Hr..].
Qed.

(** Over the same tables a dry run and a deletion report the same numbers of expired
    tasks, orphans and results and of agents without a period; only the number of undated
    rows may be larger in the dry run, never smaller. *)
Theorem dry_run_forecast (w wd wr : W) planned actual :
  tables_unique w -> small w ->
  sweep true margin w = (wd, Ok planned) -> errors planned = 0%Z ->
  sweep false margin w = (wr, Ok actual) -> errors actual = 0%Z ->
  task_active planned = task_active actual /\ task_soft_deleted planned = task_soft_deleted actual /\
  task_orphan planned = task_orphan actual /\
  agents_without_limit planned = agents_without_limit actual /\
  crontab_result planned = crontab_result actual /\ js_result planned = js_result actual /\
  (task_legacy actual <= task_legacy planned)%Z.
Proof using task_laws cron_laws js_laws kv_laws uuid_laws.
  intros Hu Hs Hd Ed Hr Er. apply sweep_run in Hd as [_ Hd]; [|done]. apply sweep_run in Hr as [_ Hr]; [|done].
  destruct (Hd planned eq_refl) as [_ Xd]. destruct (Hr actual eq_refl) as [_ Xr].
  destruct (Xd Ed Hs) as (_ & _ & _ & Ep). destruct (Xr Er Hs) as (_ & _ & _ & Ea). cbn [s_report snapshot] in Ep, Ea.
  set (kv := rows (rw_kv w)) in *. set (agents := rows (rw_uuid w)) in *. set (s := snapshot w empty_report) in *.
  pose proof (legacy_report_le kv agents s eq_refl) as Hle.
  pose proof (orphan_count true kv agents s) as Ot. pose proof (orphan_count false kv agents s) as Of.
  rewrite Ep, Ea. unfold sweep_spec, js_spec, cron_spec, orphan_spec. cbn [s_report s_task s_cron s_js].
  rewrite Ot, Of.
  assert (forall d, s_cron (legacy_spec d margin (agents_spec uuid_display now_ms d kv agents s)) = s_cron s /\
                    s_js (legacy_spec d margin (agents_spec uuid_display now_ms d kv agents s)) = s_js s) as Hsame by done.
  destruct (Hsame true) as [-> ->]. destruct (Hsame false) as [-> ->].
  assert (forall d, let r := s_report (legacy_spec d margin (agents_spec uuid_display now_ms d kv agents s)) in
    let r0 := s_report (agents_spec uuid_display now_ms d kv agents s) in
    task_active r = task_active r0 /\ task_soft_deleted r = task_soft_deleted r0 /\ task_orphan r = 0 /\
    agents_without_limit r = agents_without_limit r0 /\ crontab_result r = 0 /\ js_result r = 0)%Z as Hf.
  { intros d. unfold legacy_spec. cbn [s_report]. case_match; done. }
  destruct (Hf true) as (A1 & A2 & A3 & A4 & A5 & A6). destruct (Hf false) as (B1 & B2 & B3 & B4 & B5 & B6).
  cbn [s_report agents_spec task_active task_soft_deleted agents_without_limit] in A1, A2, A4, B1, B2, B4.
  destruct (configured_limit kv GLOBAL_NAMESPACE "task"), agents,
    (configured_limit kv GLOBAL_NAMESPACE "crontab_result"), (configured_limit kv GLOBAL_NAMESPACE "js_result");
    cbn [set_orphan set_crontab_result set_js_result task_active task_soft_deleted task_orphan
         agents_without_limit crontab_result js_result task_legacy];
    rewrite ?A1, ?A2, ?A3, ?A4, ?A5, ?A6, ?B1, ?B2, ?B3, ?B4, ?B5, ?B6; split_and!; try done; exact Hle.
Qed.

(** ** Completion *)

(** No statement on any of the five tables fails. *)
Definition all_reliable : Prop :=
  reliable (ops:=task_ops) /\ reliable (ops:=cron_ops) /\ reliable (ops:=js_ops) /\
  (forall q d, is_ok (snd (find_all (TableOps:=kv_ops) q d)) = true) /\
  (forall q d, is_ok (snd (find_all (TableOps:=uuid_ops) q d)) = true).

(** A computation that keeps the error count and always yields a report. *)
Definition clean (m : SweepReport -> Rm (T:=T) (C:=C) (J:=J) (K:=K) (U:=U) SweepReport) : Prop :=
  forall report w, exists w' report', m report w = (w', Ok report') /\ errors report' = errors report.

Lemma isolated_clean (target : Rm (T:=T) (C:=C) (J:=J) (K:=K) (U:=U) Z) (upd : Z -> SweepReport -> SweepReport) :
  (forall n r, errors (upd n r) = errors r) -> (forall w, is_ok (snd (target w)) = true) ->
  clean (fun report => let! rd := purge_isolated target report in
                       let '(report, n) := rd in mret (upd n report)).
Proof using.
  intros Hupd Hok report w. rewrite mbind_run. unfold purge_isolated. specialize (Hok w).
  destruct (target w) as [w' [n|e]]; [|done]. exists w', (upd n report). by rewrite Hupd.
Qed.

Lemma clean_bind m m' : clean m -> clean m' -> clean (fun report => let! report := m report in m' report).
Proof using.
  intros Hm Hm' report w. rewrite mbind_run. destruct (Hm report w) as (w1 & r1 & -> & E1).
  destruct (Hm' r1 w1) as (w2 & r2 & -> & E2). exists w2, r2. split; [done|]. congruence.
Qed.

Lemma clean_ret f : (forall r, errors (f r) = errors r) -> clean (fun report => mret (f report)).
Proof using. intros Hf report w. by exists w, (f report). Qed.

Lemma purge_task_ok p dry (w : W) : reliable (ops:=task_ops) -> is_ok (snd (on_task (purge t_id p dry) w)) = true.
Proof using.
  intros Hr. unfold on_task. pose proof (purge_returns t_id p dry (rw_task w) Hr) as H.
  by destruct (purge t_id p dry (rw_task w)).
Qed.

Lemma purge_cron_ok p dry (w : W) :
  reliable (ops:=cron_ops) -> is_ok (snd (on_crontab_result (purge cr_id p dry) w)) = true.
Proof using.
  intros Hr. unfold on_crontab_result.
  pose proof (purge_returns cr_id p dry (rw_crontab_result w) Hr) as H.
  by destruct (purge cr_id p dry (rw_crontab_result w)).
Qed.

Lemma purge_js_ok p dry (w : W) : reliable (ops:=js_ops) -> is_ok (snd (on_js_result (purge jr_id p dry) w)) = true.
Proof using.
  intros Hr. unfold on_js_result.
  pose proof (purge_returns jr_id p dry (rw_js_result w) Hr) as H.
  by destruct (purge jr_id p dry (rw_js_result w)).
Qed.

Lemma sweep_agents_clean dry limits agents :
  reliable (ops:=task_ops) -> clean (sweep_agents uuid_display now_ms dry limits agents).
Proof using.
  intros Hr. induction agents as [|a agents IH]; [by apply clean_ret|].
  cbn [sweep_agents]. apply clean_bind; [|exact IH]. unfold sweep_agent.
  destruct (agent_limit uuid_display limits a) as [ms|]; [|by apply clean_ret].
  apply (isolated_clean _ (fun n r => if u_soft_delete a then add_soft_deleted n r else add_active n r)).
  - intros n r. by case_match.
  - intros w. by apply purge_task_ok.
Qed.

Lemma sweep_legacy_clean dry m : reliable (ops:=task_ops) -> clean (sweep_legacy dry m).
Proof using.
  intros Hr report w. unfold sweep_legacy, max_task_id. rewrite !mbind_run. unfold on_task at 1.
  destruct Hr as [Hf Hd]. pose proof (Hf (fun _ => true) (rw_task w)) as H.
  destruct (find_all _ (rw_task w)) as [d [l|e]]; [|done]. unfold mret at 1.
  destruct (last _) as [i|]; [|by eexists _, _]. apply isolated_clean; [done|].
  intros w'. by apply purge_task_ok.
Qed.

Lemma sweep_rest_clean dry limits agents : all_reliable ->
  clean (fun report => let! report := sweep_orphans now_ms dry limits agents report in
                       let! report := sweep_crontab_result now_ms dry limits report in
                       let! report := sweep_js_result now_ms dry limits report in mret report).
Proof using.
  intros (Ht & Hc & Hj & _). apply clean_bind; [|apply clean_bind; [|apply clean_bind; [|by apply (clean_ret id)]]].
  - unfold sweep_orphans. destruct (limit_for _ _ _), agents; try (by apply clean_ret).
    apply isolated_clean; [done|]. intros w. by apply purge_task_ok.
  - unfold sweep_crontab_result. destruct (limit_for _ _ _); [|by apply clean_ret].
    apply isolated_clean; [done|]. intros w. by apply purge_cron_ok.
  - unfold sweep_js_result. destruct (limit_for _ _ _); [|by apply clean_ret].
    apply isolated_clean; [done|]. intros w. by apply purge_js_ok.
Qed.

(** A sweep ends: each of its loops is bounded, and when no statement fails it returns a
    report without errors, whatever the tables hold. *)
Theorem sweep_completes dry (w : W) :
  all_reliable -> exists w' report, sweep dry margin w = (w', Ok report) /\ errors report = 0%Z.
Proof using.
  intros Hr. pose proof Hr as (Ht & _ & _ & Hkv & Huu). unfold sweep_once, load_limits. rewrite !mbind_run.
  unfold on_kv. specialize (Hkv (fun r => existsb (String.eqb (r_key r)) limit_keys) (rw_kv w)).
  destruct (find_all _ (rw_kv w)) as [k [l|e]]; [|done]. unfold mret at 1. rewrite mbind_run. unfold on_uuid.
  match goal with |- context [find_all ?q ?d] => specialize (Huu q d); destruct (find_all q d) as [u [agents|e]] end;
    [|done].
  eapply (clean_bind (sweep_agents uuid_display now_ms dry _ agents)
            (fun report => let! report := sweep_legacy dry _ report in _)); [by apply sweep_agents_clean|].
  apply clean_bind; [by apply sweep_legacy_clean|by apply sweep_rest_clean].
Qed.
End theorems.

(** ** Examples *)

#[global] Instance task_table : TableOps (ListTable TaskModel) TaskModel := ListTable_ops task_conflict.
#[global] Instance task_table_laws : TableLaws task_table task_conflict :=
  ListTable_laws task_conflict task_conflict_sym.

Lemma crontab_result_conflict_sym a b : crontab_result_conflict a b = crontab_result_conflict b a.
Proof. apply Z.eqb_sym. Qed.
Lemma js_result_conflict_sym a b : js_result_conflict a b = js_result_conflict b a.
Proof. apply Z.eqb_sym. Qed.

#[global] Instance crontab_result_table : TableOps (ListTable CrontabResult) CrontabResult :=
  ListTable_ops crontab_result_conflict.
#[global] Instance crontab_result_table_laws : TableLaws crontab_result_table crontab_result_conflict :=
  ListTable_laws crontab_result_conflict crontab_result_conflict_sym.
#[global] Instance js_result_table : TableOps (ListTable JsResultModel) JsResultModel :=
  ListTable_ops js_result_conflict.
#[global] Instance js_result_table_laws : TableLaws js_result_table js_result_conflict :=
  ListTable_laws js_result_conflict js_result_conflict_sym.

Definition sample_task (id : Z) (uuid : Uuid) (created : option Z) : TaskModel :=
  {| t_id := id; t_uuid := uuid; t_token := "t"; t_cron_source := None; t_timestamp := None;
     t_success := None; t_error_message := None; t_task_event_type := JNull;
     t_task_event_result := None; t_created_at := created |}.

Definition sample_result (id : Z) (time : option Z) : CrontabResult :=
  {| cr_id := id; cr_cron_id := 1; cr_cron_name := "c"; cr_relative_id := None; cr_run_time := time;
     cr_success := None; cr_message := None |}.

Definition plain_table {Row} (l : list Row) : ListTable Row := {| tbl := l; next_id := 5000; outages := [] |}.

(** Two agents, one retired; tasks of both, of an agent that is gone, and two undated ones. *)
Definition sample_world : RWorld (ListTable TaskModel) (ListTable CrontabResult) (ListTable JsResultModel)
    (ListTable KvRow) (ListTable UuidModel) := {|
  rw_task := plain_table
    [sample_task 1 10%N None; sample_task 2 10%N (Some 1000000); sample_task 3 10%N (Some 9900000);
     sample_task 4 20%N (Some 1000000); sample_task 5 30%N (Some 1000000); sample_task 3000 20%N (Some 9999999)]%Z;
  rw_crontab_result := plain_table [sample_result 1 (Some 1000000); sample_result 2 (Some 9000000)]%Z;
  rw_js_result := plain_table [];
  rw_kv := plain_table
    [{| r_id := 1; r_namespace := "global"; r_key := "database_limit_task"; r_value := JString " 3600000 " |};
     {| r_id := 2; r_namespace := "global"; r_key := "database_limit_crontab_result"; r_value := JNum (NumInt 3600000) |};
     {| r_id := 3; r_namespace := "global"; r_key := "database_limit_js_result"; r_value := JNum (NumInt 5) |}]%string%Z;
  rw_uuid := plain_table [{| u_id := 1; u_uuid := 10%N; u_soft_delete := false |};
                          {| u_id := 2; u_uuid := 20%N; u_soft_delete := true |}]%Z |}.

Definition no_display (u : Uuid) : string := "agent".

Lemma sample_unique : tables_unique sample_world.
Proof. by vm_compute. Qed.

Lemma sample_small : small sample_world.
Proof.
  assert (CHUNK_SIZE <= purge_cap)%nat as H by (apply Nat.le_mul_l; discriminate).
  assert (6 <= CHUNK_SIZE)%nat by (apply Nat.leb_le; reflexivity).
  split_and!; (etrans; [|exact H]); (etrans; [|done]); apply Nat.leb_le; reflexivity.
Qed.

Definition sample_run (dry : bool) := sweep_once no_display 10000000 dry 0 sample_world.

Example sample_sweep :
  map t_id (rows (rw_task (sample_run false).1)) = [3; 3000]%Z /\
  map cr_id (rows (rw_crontab_result (sample_run false).1)) = [2]%Z /\
  (sample_run false).2 =
    Ok {| task_active := 1; task_soft_deleted := 1; task_legacy := 1; task_orphan := 1;
          agents_without_limit := 0; crontab_result := 1; js_result := 0; errors := 0 |}.
Proof. vm_compute. auto. Qed.

Lemma recent_rows_survive_witness :
  sample_task 3 10%N (Some 9900000)%Z ∈ rows (rw_task (sample_run false).1).
Proof.
  destruct (sample_run false) as [w' r] eqn:E.
  eapply (recent_rows_survive no_display 10000000 0 false sample_world w' r sample_unique E); try reflexivity;
    [by vm_compute|do 2 right; by left|by vm_compute|by vm_compute].
Defined.

Lemma sweep_only_expired_witness :
  shrinks (fun x => false = false /\ crontab_hit (rows (rw_kv sample_world)) 10000000 x = true)
    (rows (rw_crontab_result sample_world)) (rows (rw_crontab_result (sample_run false).1)).
Proof.
  destruct (sample_run false) as [w' r] eqn:E.
  destruct (sweep_only_expired no_display 10000000 0 false sample_world w' r sample_unique E) as [[] _].
  assumption.
Defined.

Lemma sample_ok dry : exists report, (sample_run dry).2 = Ok report /\ errors report = 0%Z.
Proof. destruct dry; vm_compute; eexists; done. Qed.

Lemma sweep_exact_witness :
  exists report, (sample_run false).2 = Ok report /\
    snapshot (sample_run false).1 report ≡
      sweep_spec no_display 10000000 false 0 (rows (rw_kv sample_world)) (rows (rw_uuid sample_world))
        (snapshot sample_world empty_report).
Proof.
  destruct (sample_ok false) as (report & Hr & He).
  destruct (sample_run false) as [w' r] eqn:E. simpl in Hr. subst r. exists report. split; [done|].
  apply (sweep_exact no_display 10000000 0 sample_world w' report sample_unique sample_small E He).
Defined.

Lemma dry_run_forecast_witness :
  exists planned actual, (sample_run true).2 = Ok planned /\ (sample_run false).2 = Ok actual /\
    task_orphan planned = task_orphan actual.
Proof.
  destruct (sample_ok true) as (planned & Hp & Ep). destruct (sample_ok false) as (actual & Ha & Ea).
  destruct (sample_run true) as [wd rd] eqn:Ed. destruct (sample_run false) as [wr rr] eqn:Er.
  simpl in Hp, Ha. subst. exists planned, actual.
  split_and!; [done|done|].
  apply (dry_run_forecast no_display 10000000 0 sample_world wd wr planned actual sample_unique sample_small Ed Ep Er Ea).
Defined.

(** Tables whose connection never fails. *)
Definition steady {Row A} (m : M (ListTable Row) DbErr A) : M (ListTable Row) DbErr A :=
  fun t => m {| tbl := tbl t; next_id := next_id t; outages := [] |}.

Definition steady_ops {Row} (ops : TableOps (ListTable Row) Row) : TableOps (ListTable Row) Row := {|
  rows := rows; find_one p := steady (find_one p); find_all p := steady (find_all p);
  insert x := steady (insert x); insert_auto mk := steady (insert_auto mk);
  insert_many mks := steady (insert_many mks);
  upsert same upd mk := steady (upsert same upd mk); update_one p f := steady (update_one p f);
  update_many p f := steady (update_many p f);
  delete_many p := steady (delete_many p); transaction A body := transaction body;
  advance_sequence := steady advance_sequence; is_postgres := is_postgres |}.

Lemma steady_reliable {Row} (conflict : Row -> Row -> bool) : reliable (ops := steady_ops (ListTable_ops conflict)).
Proof. by split. Qed.

Lemma sweep_completes_witness :
  exists w' report,
    sweep_once (task_ops := steady_ops task_table) (cron_ops := steady_ops crontab_result_table)
      (js_ops := steady_ops js_result_table) (kv_ops := steady_ops kv_table) (uuid_ops := steady_ops uuid_table)
      no_display 10000000 false 0 sample_world = (w', Ok report) /\ errors report = 0%Z.
Proof.
  apply (sweep_completes (task_ops := steady_ops task_table) (cron_ops := steady_ops crontab_result_table)
      (js_ops := steady_ops js_result_table) (kv_ops := steady_ops kv_table) (uuid_ops := steady_ops uuid_table)).
  split_and!; [exact (steady_reliable task_conflict)|exact (steady_reliable crontab_result_conflict)
              |exact (steady_reliable js_result_conflict)|done|done].
Defined.

Lemma purge_exact_witness :
  rows (purge t_id (fun r => bool_decide (t_created_at r = None)) false (rw_task sample_world)).1 ≡ₚ
  List.filter (fun r => negb (bool_decide (t_created_at r = None))) (rows (rw_task sample_world)).
Proof.
  destruct (purge _ _ _ _) as [d' r] eqn:E.
  assert (exists t, r = Ok t) as [t ->] by (vm_compute in E; injection E; eauto).
  eapply (purge_exact t_id (conflict := task_conflict) (fun r => bool_decide (t_created_at r = None)) false (rw_task sample_world));
    [exact (unique_pk t_id _ (proj1 sample_unique))| |exact E].
  etrans; [apply List.filter_length_le|exact (proj1 sample_small)].
Defined.
