(* ===== verification/TaskManager.v ===== *)
(** * The task manager

    [TaskManager] of [ng-task/src/rpc/mod.rs]: the sessions of the connected agents and the
    callers waiting for a result.  A channel end is a reference: [channels] and [oneshots]
    hold the channels the ends point to, so that a clone of a sender and the entry of the
    session table reach the same queue. *)
From stdpp Require Import base strings gmap list numbers pretty.
From S2P Require Import Prelude Errors Json Permission TaskTypes.

(** [mpsc::channel(32)]: the queued events, and whether the receiver is still there. *)
Definition QUEUE_CAPACITY : nat := 32.
Record Channel : Type := { ch_queue : list TaskEvent; ch_open : bool }.

(** [oneshot::channel()] as its receiver sees it. *)
Inductive Oneshot : Type :=
| Waiting
| Sent (r : TaskEventResponse)
| SenderDropped.

Record TaskManager : Type := {
  peers : gmap Uuid (Uuid * nat);
  blocking_waiters : gmap Z nat;
  channels : gmap nat Channel;
  oneshots : gmap nat Oneshot;
  next_ref : nat;
}.

Definition new_manager : TaskManager :=
  {| peers := ∅; blocking_waiters := ∅; channels := ∅; oneshots := ∅; next_ref := 0 |}.

Inductive TaskSendError : Type :=
| NotConnected (uuid : Uuid)
| QueueFull (uuid : Uuid).

Definition send_error_uuid (e : TaskSendError) : Uuid :=
  match e with NotConnected uuid | QueueFull uuid => uuid end.

Definition is_not_connected (e : TaskSendError) : bool :=
  match e with NotConnected _ => true | QueueFull _ => false end.

Section manager.
(** [impl Display for Uuid]. *)
Variable uuid_display : Uuid -> string.

Definition send_error_message (e : TaskSendError) : string :=
  match e with
  | NotConnected uuid => "Agent " +:+ uuid_display uuid +:+ " is not connected"
  | QueueFull uuid => "Agent " +:+ uuid_display uuid +:+ " task queue is full"
  end.

Definition with_peers (p : gmap Uuid (Uuid * nat)) (m : TaskManager) : TaskManager :=
  {| peers := p; blocking_waiters := blocking_waiters m; channels := channels m;
     oneshots := oneshots m; next_ref := next_ref m |}.
Definition with_waiters (b : gmap Z nat) (o : gmap nat Oneshot) (m : TaskManager) : TaskManager :=
  {| peers := peers m; blocking_waiters := b; channels := channels m;
     oneshots := o; next_ref := next_ref m |}.
Definition with_channels (c : gmap nat Channel) (m : TaskManager) : TaskManager :=
  {| peers := peers m; blocking_waiters := blocking_waiters m; channels := c;
     oneshots := oneshots m; next_ref := next_ref m |}.

(** [mpsc::channel(32)]. *)
Definition new_channel (m : TaskManager) : nat * TaskManager :=
  (next_ref m,
   {| peers := peers m; blocking_waiters := blocking_waiters m;
      channels := <[next_ref m := {| ch_queue := []; ch_open := true |}]> (channels m);
      oneshots := oneshots m; next_ref := S (next_ref m) |}).

Definition add_session (uuid reg_id : Uuid) (tx : nat) (m : TaskManager) : TaskManager :=
  with_peers (<[uuid := (reg_id, tx)]> (peers m)) m.

Definition remove_session (uuid reg_id : Uuid) (m : TaskManager) : TaskManager :=
  match peers m !! uuid with
  | Some (current_reg_id, _) =>
      if bool_decide (current_reg_id = reg_id) then with_peers (delete uuid (peers m)) m else m
  | None => m
  end.

(** What [register_task] does once the client has been accepted. *)
Definition open_session (uuid reg_id : Uuid) (m : TaskManager) : nat * TaskManager :=
  let '(rx, m) := new_channel m in (rx, add_session uuid reg_id rx m).

(** [tx.try_send(event)]. *)
Inductive TrySendError : Type := TrySendFull | TrySendClosed.

Definition try_send (tx : nat) (event : TaskEvent) (m : TaskManager) : TaskManager * result TrySendError unit :=
  match channels m !! tx with
  | Some c =>
      if negb (ch_open c) then (m, Err TrySendClosed)
      else if (length (ch_queue c) <? QUEUE_CAPACITY)%nat
           then (with_channels (<[tx := {| ch_queue := ch_queue c ++ [event]; ch_open := true |}]> (channels m)) m, Ok tt)
           else (m, Err TrySendFull)
  | None => (m, Err TrySendClosed)
  end.

Definition send_event (uuid : Uuid) (event : TaskEvent) (m : TaskManager) : TaskManager * result TaskSendError unit :=
  match peers m !! uuid with
  | None => (m, Err (NotConnected uuid))
  | Some (_, tx) =>
      match try_send tx event m with
      | (m', Ok tt) => (m', Ok tt)
      | (m', Err TrySendFull) => (m', Err (QueueFull uuid))
      | (m', Err TrySendClosed) => (m', Err (NotConnected uuid))
      end
  end.

Definition is_connected (uuid : Uuid) (m : TaskManager) : bool := bool_decide (is_Some (peers m !! uuid)).

Definition connected_uuids (candidates : list Uuid) (m : TaskManager) : list Uuid :=
  List.filter (fun uuid => bool_decide (is_Some (peers m !! uuid))) candidates.

(** Dropping a sender that has not sent wakes its receiver with an error. *)
Definition drop_sender (slot : option nat) (o : gmap nat Oneshot) : gmap nat Oneshot :=
  match slot with
  | Some s => match o !! s with Some Waiting => <[s := SenderDropped]> o | _ => o end
  | None => o
  end.

Definition register_blocking_waiter (task_id : Z) (m : TaskManager) : nat * TaskManager :=
  let rx := next_ref m in
  (rx,
   {| peers := peers m; blocking_waiters := <[task_id := rx]> (blocking_waiters m);
      channels := channels m;
      oneshots := <[rx := Waiting]> (drop_sender (blocking_waiters m !! task_id) (oneshots m));
      next_ref := S rx |}).

Definition remove_blocking_waiter (task_id : Z) (m : TaskManager) : TaskManager :=
  with_waiters (delete task_id (blocking_waiters m))
    (drop_sender (blocking_waiters m !! task_id) (oneshots m)) m.

(** Sending on a channel whose receiver gave up fails; the result is ignored. *)
Definition oneshot_send (slot : nat) (response : TaskEventResponse) (o : gmap nat Oneshot) : gmap nat Oneshot :=
  match o !! slot with Some Waiting => <[slot := Sent response]> o | _ => o end.

Definition notify_blocking_waiter (task_id : Z) (response : TaskEventResponse) (m : TaskManager) :
    TaskManager * bool :=
  match blocking_waiters m !! task_id with
  | Some slot => (with_waiters (delete task_id (blocking_waiters m))
                    (oneshot_send slot response (oneshots m)) m, true)
  | None => (with_waiters (delete task_id (blocking_waiters m)) (oneshots m) m, false)
  end.

(** ** The forwarding coroutine of a subscription *)

(** It takes the next event ... *)
Definition forward_recv (rx : nat) (m : TaskManager) : TaskManager * option TaskEvent :=
  match channels m !! rx with
  | Some {| ch_queue := event :: queue; ch_open := true |} =>
      (with_channels (<[rx := {| ch_queue := queue; ch_open := true |}]> (channels m)) m, Some event)
  | _ => (m, None)
  end.

(** ... and when it stops it removes its session and drops the receiver. *)
Definition forward_end (uuid reg_id : Uuid) (rx : nat) (m : TaskManager) : TaskManager :=
  let m := remove_session uuid reg_id m in
  match channels m !! rx with
  | Some c => with_channels (<[rx := {| ch_queue := []; ch_open := false |}]> (channels m)) m
  | None => m
  end.

(** ** Properties *)

(** Events are delivered in order, to the session registered last; at most 32 wait. *)
Lemma send_event_spec uuid event m m' r :
  send_event uuid event m = (m', r) ->
  match r with
  | Ok _ => exists reg_id tx c, peers m !! uuid = Some (reg_id, tx) /\ channels m !! tx = Some c /\
      ch_open c = true /\ (length (ch_queue c) < QUEUE_CAPACITY)%nat /\
      m' = with_channels (<[tx := {| ch_queue := ch_queue c ++ [event]; ch_open := true |}]> (channels m)) m
  | Err (NotConnected u) => m' = m /\ u = uuid /\
      (peers m !! uuid = None \/ exists reg_id tx, peers m !! uuid = Some (reg_id, tx) /\
         forall c, channels m !! tx = Some c -> ch_open c = false)
  | Err (QueueFull u) => m' = m /\ u = uuid /\
      exists reg_id tx c, peers m !! uuid = Some (reg_id, tx) /\ channels m !! tx = Some c /\
        (QUEUE_CAPACITY <= length (ch_queue c))%nat
  end.
Proof using.
  unfold send_event, try_send. destruct (peers m !! uuid) as [[reg tx]|] eqn:Ep.
  2:{ intros [= <- <-]. auto. }
  destruct (channels m !! tx) as [c|] eqn:Ec.
  2:{ intros [= <- <-]. split_and!; [done|done|]. right. exists reg, tx. split; [done|]. intros c Hc. congruence. }
  destruct (ch_open c) eqn:Eo; simpl.
  - destruct (length (ch_queue c) <? QUEUE_CAPACITY)%nat eqn:El; intros [= <- <-].
    + apply Nat.ltb_lt in El. by exists reg, tx, c.
    + apply Nat.ltb_ge in El. split_and!; [done|done|]. by exists reg, tx, c.
  - intros [= <- <-]. split_and!; [done|done|]. right. exists reg, tx. split; [done|]. intros c' Hc. congruence.
Qed.

(** Sending leaves the sessions and the waiters alone. *)
Lemma send_event_frame uuid event m m' r :
  send_event uuid event m = (m', r) ->
  peers m' = peers m /\ blocking_waiters m' = blocking_waiters m /\ oneshots m' = oneshots m /\
  next_ref m' = next_ref m.
Proof using.
  intros H%send_event_spec. destruct r as [[]|[u|u]].
  - by destruct H as (? & ? & ? & _ & _ & _ & _ & ->).
  - by destruct H as (-> & _).
  - by destruct H as (-> & _).
Qed.
End manager.
