(* ===== verification/Tasks.v ===== *)
(** * Creating tasks and collecting their results

    [ng-task/src/rpc]: [create_task], [create_task_blocking], [upload_task_result] and the
    subscription [register_task].  [meanwhile] is what the other coroutines did to the
    sessions between the connection check and the dispatch; a blocking call is split at its
    [await], so that other requests run before it is resumed. *)
From stdpp Require Import base strings gmap list numbers pretty.
From S2P Require Import Prelude Errors Json Db Permission TokenCache TokenCheck KvAuth UuidCache TaskTypes TaskManager.

Record TaskWorld (DB U : Type) : Type := {
  tw_db : option DB;
  tw_manager : TaskManager;
  tw_uuid : option (UuidWorld U);   (** [MONITORING_UUID_PROVIDER] *)
}.
Arguments tw_db {DB U}. Arguments tw_manager {DB U}. Arguments tw_uuid {DB U}.

Definition validate_task_type (task_type : TaskEventType) : result anyhow unit :=
  match task_type with
  | Execute execute_task =>
      if trim_is_empty (ex_cmd execute_task)
      then fail_with (InvalidInput "Execute cmd cannot be empty") else Ok tt
  | _ => Ok tt
  end.

Definition id_response (task_id : Z) : Json := JObject [("id"%string, JNum (NumInt task_id))].

Section tasks.
Context {DB U : Type} {ops : TableOps DB TaskModel} {uuid_ops : TableOps U UuidModel}.
Context {serde : TaskSerde}.
Variable uuid_display : Uuid -> string.
Variable e : Env.

#[local] Notation W := (TaskWorld DB U).
Definition Tm (A : Type) : Type := M W anyhow A.

Definition on_manager {A} (f : TaskManager -> A * TaskManager) : Tm A := fun w =>
  let '(a, m) := f (tw_manager w) in
  ({| tw_db := tw_db w; tw_manager := m; tw_uuid := tw_uuid w |}, Ok a).

Definition task_db_missing : anyhow := OfNodeget (DatabaseError "DB not initialized").

Definition get_task_db : Tm unit := fun w =>
  match tw_db w with Some _ => (w, Ok tt) | None => (w, Err task_db_missing) end.

(** A statement on the [task] table. *)
Definition task_stmt {A} (prefix : string) (stmt : M DB DbErr A) : Tm A := fun w =>
  match tw_db w with
  | Some d => let '(d', r) := stmt d in
              ({| tw_db := Some d'; tw_manager := tw_manager w; tw_uuid := tw_uuid w |},
               map_err (fun err => OfNodeget (DatabaseError (prefix +:+ db_msg err))) r)
  | None => (w, Err task_db_missing)
  end.

Definition pending_row (uuid : Uuid) (token : string) (task_type : Json) (now : Z) (id : Z) : TaskModel :=
  {| t_id := id; t_uuid := uuid; t_token := token; t_cron_source := None; t_timestamp := None;
     t_success := None; t_error_message := None; t_task_event_type := task_type;
     t_task_event_result := None; t_created_at := Some now |}.

(** Registering the agent is best effort: its failure is only logged. *)
Definition ensure_uuid (uuid : Uuid) : Tm unit := fun w =>
  match tw_uuid w with
  | Some u => ({| tw_db := tw_db w; tw_manager := tw_manager w;
                  tw_uuid := Some (fst (get_or_insert uuid_display uuid u)) |}, Ok tt)
  | None => (w, Ok tt)
  end.

Definition has_task_id (id : Z) (r : TaskModel) : bool := (t_id r =? id)%Z.

(** [task::Entity::delete_by_id(task_id)]; tells whether it failed. *)
Definition rollback (task_id : Z) : Tm bool := fun w =>
  match task_stmt "" (delete_many (has_task_id task_id)) w with
  | (w', Ok _) => (w', Ok false)
  | (w', Err _) => (w', Ok true)
  end.

Definition rollback_note : string :=
  "; rollback also failed, see logs (task row may need manual cleanup)".

Definition send_failure (target_uuid : Uuid) (send_err : TaskSendError) (rollback_failed : bool) : anyhow :=
  let note := if rollback_failed then rollback_note else ""%string in
  OfNodeget (if is_not_connected send_err
             then AgentOffline ("Agent " +:+ uuid_display target_uuid +:+ " is not connected" +:+ note)
             else AgentConnectionError
                    ("Error sending task event: " +:+ send_error_message uuid_display send_err +:+ note)).

Definition dispatch (target_uuid : Uuid) (event : TaskEvent) : Tm (result TaskSendError unit) :=
  on_manager (fun m => let '(m', r) := send_event target_uuid event m in (r, m')).

Definition check_task_permission (token : string) (uuid : Uuid) (permissions : list Permission) (msg : string) :
    result anyhow unit :=
  let? token_or_auth := parse_token token in
  let? provider := require_permission_checker e in
  let? is_allowed := pc_check_token_limit provider token_or_auth [Scope_AgentUuid uuid] permissions in
  if negb (is_allowed : bool) then denied msg else Ok tt.

Section create.
(** The random token of the task, the clock, and what happened to the sessions meanwhile. *)
Variables (random : string) (now : Z) (meanwhile : TaskManager -> TaskManager).

(** The part both ways of creating a task share: checks, the row, the agent's registration. *)
Definition insert_task (token : string) (target_uuid : Uuid) (task_type : TaskEventType)
    (permissions : list Permission) (msg : string) : Tm Z :=
  let! _ := lift (validate_task_type task_type) in
  let! _ := lift (check_task_permission token target_uuid permissions msg) in
  let! connected := asks (fun w => is_connected target_uuid (tw_manager w)) in
  if negb connected
  then mfail (OfNodeget (AgentOffline ("Agent " +:+ uuid_display target_uuid +:+ " is not connected")))
  else
    let! _ := get_task_db in
    let! value := lift (map_err (fun err => OfNodeget (SerializationError (anyhow_display err)))
                     (try_set_json (task_type_to_value task_type))) in
    let! task_id := task_stmt "Database insert error: " (insert_auto (pending_row target_uuid random value now)) in
    let! _ := ensure_uuid target_uuid in
    let! _ := on_manager (fun m => (tt, meanwhile m)) in
    mret task_id.

Definition task_event (task_id : Z) (task_type : TaskEventType) : TaskEvent :=
  {| ev_task_id := cast_unsigned64 task_id; ev_task_token := random; ev_task_event_type := task_type |}.

Definition create_task (token : string) (target_uuid : Uuid) (task_type : TaskEventType) : Tm Json :=
  let! task_id := insert_task token target_uuid task_type [P_Task (Task_Create (task_name task_type))]
    ("Permission Denied: Missing Task Create (" +:+ task_name task_type +:+ ") permission for this Agent") in
  let! sent := dispatch target_uuid (task_event task_id task_type) in
  match sent with
  | Ok _ => mret (id_response task_id)
  | Err send_err =>
      let! rollback_failed := rollback task_id in
      mfail (send_failure target_uuid send_err rollback_failed)
  end.

(** A blocking call up to its [await]: the caller holds the id and the receiver. *)
Definition create_task_blocking_start (token : string) (target_uuid : Uuid) (task_type : TaskEventType) :
    Tm (Z * nat) :=
  let! task_id := insert_task token target_uuid task_type
    [P_Task (Task_Create (task_name task_type)); P_Task (Task_Read (task_name task_type))]
    ("Permission Denied: Missing Task Create or Read (" +:+ task_name task_type +:+ ") permission for this Agent") in
  let! rx := on_manager (register_blocking_waiter (cast_unsigned64 task_id)) in
  let! sent := dispatch target_uuid (task_event task_id task_type) in
  match sent with
  | Ok _ => mret (cast_unsigned64 task_id, rx)
  | Err send_err =>
      let! _ := on_manager (fun m => (tt, remove_blocking_waiter (cast_unsigned64 task_id) m)) in
      let! rollback_failed := rollback task_id in
      mfail (send_failure target_uuid send_err rollback_failed)
  end.
End create.

Definition MAX_TIMEOUT_MS : Z := 300000.
Definition clamp_timeout (timeout_ms : Z) : Z := Z.max 1 (Z.min timeout_ms MAX_TIMEOUT_MS).

(** How [timeout(duration, rx)] ended.  [Some] is the receiver's result; a receiver that is
    still waiting can only end by the timer. *)
Definition poll_receiver (rx : nat) (w : W) : option (result unit TaskEventResponse) :=
  match oneshots (tw_manager w) !! rx with
  | Some (Sent r) => Some (Ok r)
  | Some SenderDropped => Some (Err tt)
  | _ => None
  end.

Definition create_task_blocking_finish (task_id : Z) (rx : nat) (timeout_ms : Z) : Tm TaskEventResponse := fun w =>
  match poll_receiver rx w with
  | Some (Ok response) => (w, Ok response)
  | Some (Err _) =>
      (let! _ := on_manager (fun m => (tt, remove_blocking_waiter task_id m)) in
       mfail (OfNodeget (Other "Blocking waiter channel closed unexpectedly"))) w
  | None =>
      (let! _ := on_manager (fun m => (tt, remove_blocking_waiter task_id m)) in
       mfail (OfNodeget (Other ("Task " +:+ pretty task_id +:+ " timed out after " +:+ pretty timeout_ms +:+ "ms")))) w
  end.

(** [match process_logic.await]: the end of each of these methods. *)
Definition respond_rpc {A} (process_logic : Tm A) : M W ErrorObject A := fun w =>
  let '(w', r) := process_logic w in (w', rpc_result r).

(** ** Results *)

Definition any_task_write (agent : Uuid) (limits : list Limit) : bool :=
  existsb (fun limit =>
    existsb (fun s => match s with Scope_Global => true | Scope_AgentUuid u => bool_decide (u = agent) | _ => false end)
      (scopes limit) &&
    existsb (fun p => match p with P_Task (Task_Write _) => true | _ => false end) (permissions limit)) limits.

(** The check before the database is asked. *)
Definition precheck_upload (token_or_auth : TokenOrAuth) (provider : PermissionChecker) (agent : Uuid) :
    result anyhow unit :=
  let? is_super := map_err to_denied (pc_check_super_token provider token_or_auth) in
  if (is_super : bool) then Ok tt else
  let? token_data := map_err to_denied (pc_get_token provider token_or_auth) in
  if any_task_write agent (token_limit token_data) then Ok tt
  else denied "Permission Denied: Missing Task Write permission for this Agent".

Definition matches_response (r : TaskEventResponse) (m : TaskModel) : bool :=
  (t_id m =? cast_signed64 (tr_task_id r))%Z && bool_decide (t_uuid m = tr_agent_uuid r)
  && String.eqb (t_token m) (tr_task_token r).

Definition record_result (r : TaskEventResponse) (value : option Json) (m : TaskModel) : TaskModel :=
  {| t_id := t_id m; t_uuid := t_uuid m; t_token := t_token m; t_cron_source := t_cron_source m;
     t_timestamp := Some (cast_signed64 (tr_timestamp r)); t_success := Some (tr_success r);
     t_error_message := tr_error_message r; t_task_event_type := t_task_event_type m;
     t_task_event_result := value; t_created_at := t_created_at m |}.

Definition already_uploaded : anyhow := OfNodeget (InvalidInput "Task result has already been uploaded").

Definition encode_result (r : option TaskEventResult) : result anyhow (option Json) :=
  match r with
  | None => Ok None
  | Some v =>
      match task_result_to_value v with
      | Ok j => Ok (Some j)
      | Err m => Err (OfNodeget (SerializationError
                   (display (SerializationError ("Failed to serialize task event result: " +:+ m)))))
      end
  end.

Definition is_pending (m : TaskModel) : bool := match t_success m with None => true | Some _ => false end.

(** Everything before the update; other requests may run between the two. *)
Definition upload_check (token : string) (response : TaskEventResponse) : Tm (option Json) :=
  let! token_or_auth := lift (parse_token token) in
  let! provider := lift (require_permission_checker e) in
  let! _ := lift (precheck_upload token_or_auth provider (tr_agent_uuid response)) in
  let! _ := get_task_db in
  let! found := task_stmt "Database query error: " (find_one (matches_response response)) in
  let! task_model := lift (ok_or (OfNodeget (NotFound "Task validation failed: Invalid ID, UUID, or Token")) found) in
  if negb (is_pending task_model) then mfail already_uploaded else
  let! original := lift (map_err (fun m => OfNodeget (SerializationError ("Failed to parse original task type: " +:+ m)))
                           (task_type_from_value (t_task_event_type task_model))) in
  let name := task_name original in
  let! is_allowed := lift (pc_check_token_limit provider token_or_auth
                             [Scope_AgentUuid (tr_agent_uuid response)] [P_Task (Task_Write name)]) in
  if negb (is_allowed : bool)
  then mfail (OfNodeget (PermissionDenied
         ("Permission Denied: Missing Task Write (" +:+ name +:+ ") permission for this Agent")))
  else lift (encode_result (tr_task_event_result response)).

Definition upload_commit (response : TaskEventResponse) (value : option Json) : Tm Json :=
  let! rows_affected := task_stmt "Database update error: "
    (update_many (fun m => matches_response response m && is_pending m) (record_result response value)) in
  if (rows_affected =? 0)%Z then mfail already_uploaded else
  let! _ := on_manager (fun m => let '(m', b) := notify_blocking_waiter (tr_task_id response) response m in (b, m')) in
  mret (id_response (tr_task_id response)).

Definition upload_task_result (token : string) (response : TaskEventResponse) : Tm Json :=
  let! value := upload_check token response in
  upload_commit response value.

(** ** Subscriptions *)

Inductive Subscription : Type :=
| Rejected (err : ErrorObject)
| AcceptFailed
| Accepted (reg_id : Uuid) (rx : nat).

(** [accepted] tells whether the client was still there, [reg_id] is [Uuid::new_v4()]. *)
Definition register_task (token : string) (uuid : Uuid) (accepted : bool) (reg_id : Uuid) : Tm Subscription :=
  match from_full_token token with
  | Err _ => mret (Rejected {| code := 101; message := "Token Parse Error" |})
  | Ok token_or_auth =>
      match PERMISSION_CHECKER e with
      | None => mret (Rejected {| code := 101; message := "PermissionChecker not initialized" |})
      | Some provider =>
          match pc_check_token_limit provider token_or_auth [Scope_AgentUuid uuid] [P_Task Task_Listen] with
          | Ok true =>
              if negb accepted then mret AcceptFailed else
              let! rx := on_manager (open_session uuid reg_id) in
              mret (Accepted reg_id rx)
          | Ok false =>
              mret (Rejected {| code := 102;
                message := "Permission Denied: Missing Task Listen permission for this Agent" |})
          | Err err =>
              let nodeget_err := anyhow_to_nodeget_error err in
              mret (Rejected {| code := as_i32 (error_code nodeget_err); message := display nodeget_err |})
          end
      end
  end.
End tasks.
