(* ===== verification/TaskThms.v ===== *)
(** * Guarantees of the task service

    Creating a task is all or nothing, a result is recorded at most once, and a blocking
    caller gets the very response the agent uploaded. *)
From stdpp Require Import base strings gmap list numbers pretty relations.
From S2P Require Import Prelude Errors Json Db Permission TokenCache TokenCheck KvAuth UuidCache TaskTypes TaskManager Tasks.

Section facts.
Context {DB U : Type} {ops : TableOps DB TaskModel} {uuid_ops : TableOps U UuidModel}.
Context {laws : TableLaws ops task_conflict} {keys : KeyGenerator ops} {serde : TaskSerde}.
Variable uuid_display : Uuid -> string.
Variable e : Env.

#[local] Notation W := (TaskWorld DB U).

Definition task_rows (w : W) : list TaskModel := from_option rows [] (tw_db w).

Definition tasks_unique (w : W) : Prop := unique_rows task_conflict (task_rows w) = true.

(** The id has been handed out by the table. *)
Definition key_issued (w : W) (i : Z) : Prop := match tw_db w with Some d => issued d i | None => False end.

Lemma task_stmt_run {A} prefix (stmt : M DB DbErr A) (w w' : W) r :
  task_stmt prefix stmt w = (w', r) ->
  (w' = w /\ tw_db w = None /\ exists err, r = Err err) \/
  exists d d' r0, tw_db w = Some d /\ stmt d = (d', r0) /\
    w' = {| tw_db := Some d'; tw_manager := tw_manager w; tw_uuid := tw_uuid w |} /\
    r = map_err (fun err => OfNodeget (DatabaseError (prefix +:+ db_msg err))) r0.
Proof using.
  unfold task_stmt. destruct (tw_db w) as [d|] eqn:E.
  - destruct (stmt d) as [d' r0] eqn:Es. intros [= <- <-]. right. by exists d, d', r0.
  - intros [= <- <-]. left. eauto.
Qed.

(** ** Creation *)

Section creation.
Variables (random : string) (now : Z) (meanwhile : TaskManager -> TaskManager).

#[local] Notation insert_task := (insert_task uuid_display e random now meanwhile).

(** The row of a new task. *)
Definition new_row (target : Uuid) (task_type : TaskEventType) (id : Z) (x : TaskModel) : Prop :=
  in_i64 id /\ exists value, task_type_to_value task_type = Ok value /\ x = pending_row target random value now id.

Lemma insert_task_run token target task_type permissions msg (w w' : W) r :
  insert_task token target task_type permissions msg w = (w', r) ->
  match r with
  | Ok id => tw_manager w' = meanwhile (tw_manager w) /\ is_connected target (tw_manager w) = true /\
      check_task_permission e token target permissions msg = Ok tt /\
      validate_task_type task_type = Ok tt /\
      exists x, new_row target task_type id x /\ task_rows w' ≡ₚ x :: task_rows w /\
        no_match (task_conflict x) (task_rows w) /\ is_Some (tw_db w') /\ ~ key_issued w id /\ key_issued w' id
  | Err _ => task_rows w' = task_rows w /\ tw_manager w' = tw_manager w
  end.
Proof using laws keys.
  unfold Tasks.insert_task. rewrite mbind_lift.
  destruct (validate_task_type task_type) as [[]|err] eqn:Ev; [|by intros [= <- <-]].
  rewrite mbind_lift. destruct (check_task_permission _ _ _ _ _) as [[]|err] eqn:Ep; [|by intros [= <- <-]].
  rewrite mbind_asks. destruct (is_connected target (tw_manager w)) eqn:Ec; [|by intros [= <- <-]].
  cbn [negb]. rewrite mbind_run. unfold get_task_db.
  destruct (tw_db w) as [d|] eqn:Ed; [|by intros [= <- <-]].
  rewrite mbind_lift. unfold try_set_json. destruct (task_type_to_value task_type) as [value|m] eqn:Et; [simpl map_err|by intros [= <- <-]].
  cbn [map_err]. rewrite mbind_run. destruct (task_stmt _ _ w) as [w1 r1] eqn:Es.
  apply task_stmt_run in Es as [(_ & Hn & _)|(d0 & d' & r0 & Hd & Hi & -> & ->)]; [congruence|].
  rewrite Ed in Hd. injection Hd as <-. destruct r0 as [id|err].
  2:{ intros [= <- <-]. apply insert_auto_err in Hi as [Hi _]. split; [|done].
      unfold task_rows. simpl. by rewrite Hi, Ed. }
  pose proof (insert_auto_range _ _ _ _ Hi) as Hrange.
  destruct (proj2 (issued_insert_auto _ _ _ _ Hi) id eq_refl) as [Hnew Hissued]. apply insert_auto_ok in Hi as [Hrows Hno]. cbn [map_err].
  unfold ensure_uuid. cbn [tw_uuid tw_db tw_manager mbind].
  assert (task_rows w = rows d) as Hw by (unfold task_rows; by rewrite Ed).
  assert (exists x, new_row target task_type id x /\ rows d' ≡ₚ x :: task_rows w /\
            no_match (task_conflict x) (task_rows w)) as (x & Hx & Hr & Hn).
  { exists (pending_row target random value now id). rewrite Hw. split; [|done]. split; [done|]. by exists value. }
  destruct (tw_uuid w) as [u|]; intros [= <- <-]; (split; [done|]); (split; [done|]); (split; [done|]);
    (split; [done|]); exists x; unfold key_issued; rewrite Ed; by split_and!.
Qed.

Lemma rollback_run id (w w' : W) r :
  rollback id w = (w', r) ->
  tw_manager w' = tw_manager w /\
  exists failed, r = Ok failed /\
    task_rows w' ≡ₚ (if (failed : bool) then task_rows w
                     else List.filter (fun x => negb (has_task_id id x)) (task_rows w)).
Proof using laws.
  unfold rollback. destruct (task_stmt _ _ w) as [w1 r1] eqn:Es.
  apply task_stmt_run in Es as [(-> & Hn & err & ->)|(d & d' & r0 & Hd & Hdel & -> & ->)].
  - intros [= <- <-]. split; [done|]. exists true. done.
  - assert (task_rows w = rows d) as Hw by (unfold task_rows; by rewrite Hd).
    destruct r0 as [n|err]; simpl; intros [= <- <-]; (split; [done|]).
    + exists false. split; [done|]. apply delete_many_ok in Hdel as [Hr _]. by rewrite Hw.
    + exists true. split; [done|]. unfold task_rows. simpl. rewrite Hd. simpl.
      by rewrite (delete_many_err _ _ _ _ Hdel).
Qed.

(** Deleting the id of a new row takes back the insertion and nothing else. *)
Lemma rollback_exact id x l :
  t_id x = id -> no_match (task_conflict x) l ->
  List.filter (fun y => negb (has_task_id id y)) (x :: l) = l.
Proof using.
  intros <- Hno. simpl. unfold has_task_id at 1. rewrite Z.eqb_refl. simpl.
  rewrite <-(List.filter_true l) at 2. induction l as [|y l IH]; [done|]. simpl.
  assert (has_task_id (t_id x) y = false) as ->.
  { pose proof (Hno y (list_elem_of_here _ _)) as H. unfold task_conflict in H. unfold has_task_id. lia. }
  simpl. f_equal. apply IH. intros z Hz. apply Hno. by right.
Qed.

(** The table after a failed dispatch. *)
Definition withdrawn (target : Uuid) (task_type : TaskEventType) (before after : list TaskModel) (err : anyhow)
    (send_err : TaskSendError) : Prop :=
  (after ≡ₚ before /\ err = send_failure uuid_display target send_err false) \/
  (exists id x, new_row target task_type id x /\ no_match (task_conflict x) before /\ after ≡ₚ x :: before /\
     err = send_failure uuid_display target send_err true).

Lemma rollback_withdraws target task_type id x send_err (w w1 : W) :
  new_row target task_type id x -> no_match (task_conflict x) (task_rows w) ->
  task_rows w1 ≡ₚ x :: task_rows w ->
  exists w2 failed, rollback id w1 = (w2, Ok failed) /\ tw_manager w2 = tw_manager w1 /\
    withdrawn target task_type (task_rows w) (task_rows w2)
      (send_failure uuid_display target send_err failed) send_err.
Proof using laws.
  intros Hx Hno Hrows. destruct (rollback id w1) as [w2 r] eqn:Er.
  apply rollback_run in Er as (Hm & failed & -> & Hr). exists w2, failed. split_and!; [done|done|].
  destruct failed; [right|left].
  - exists id, x. split_and!; [done|done|by rewrite Hr|done].
  - split; [|done]. rewrite Hr, Hrows. rewrite rollback_exact; [done| |done].
    by destruct Hx as (_ & v & _ & ->).
Qed.

(** Why a dispatch failed, as the manager stands when it is tried. *)
Definition undeliverable (m : TaskManager) (target : Uuid) (send_err : TaskSendError) : Prop :=
  match send_err with
  | NotConnected u => u = target /\
      (peers m !! target = None \/ exists reg_id tx, peers m !! target = Some (reg_id, tx) /\
         forall c, channels m !! tx = Some c -> ch_open c = false)
  | QueueFull u => u = target /\ exists reg_id tx c, peers m !! target = Some (reg_id, tx) /\
      channels m !! tx = Some c /\ (QUEUE_CAPACITY <= length (ch_queue c))%nat
  end.

(** The event was appended to the queue of the agent's session. *)
Definition queued (m : TaskManager) (target : Uuid) (event : TaskEvent) (m' : TaskManager) : Prop :=
  exists reg_id tx c, peers m !! target = Some (reg_id, tx) /\ channels m !! tx = Some c /\
    ch_open c = true /\ (length (ch_queue c) < QUEUE_CAPACITY)%nat /\
    m' = with_channels (<[tx := {| ch_queue := ch_queue c ++ [event]; ch_open := true |}]> (channels m)) m.

Lemma dispatch_run target event (w w' : W) r :
  dispatch target event w = (w', r) ->
  tw_db w' = tw_db w /\
  match r with
  | Ok (Ok _) => queued (tw_manager w) target event (tw_manager w')
  | Ok (Err send_err) => w' = w /\ undeliverable (tw_manager w) target send_err
  | Err _ => False
  end.
Proof using.
  unfold dispatch, on_manager. destruct (send_event target event (tw_manager w)) as [m' r0] eqn:E.
  intros [= <- <-]. split; [done|]. apply send_event_spec in E. destruct r0 as [[]|[u|u]]; simpl.
  - exact E.
  - destruct E as (-> & -> & H). by destruct w.
  - destruct E as (-> & -> & H). by destruct w.
Qed.

Definition created (target : Uuid) (task_type : TaskEventType) (id : Z) (w w' : W) : Prop :=
  exists x, new_row target task_type id x /\ task_rows w' ≡ₚ x :: task_rows w /\
    no_match (task_conflict x) (task_rows w).

Lemma create_task_run token target task_type (w w' : W) r :
  create_task uuid_display e random now meanwhile token target task_type w = (w', r) ->
  match r with
  | Ok j => exists id, j = id_response id /\ created target task_type id w w' /\
      queued (meanwhile (tw_manager w)) target (task_event random id task_type) (tw_manager w')
  | Err err =>
      (task_rows w' = task_rows w /\ tw_manager w' = tw_manager w) \/
      (is_connected target (tw_manager w) = true /\ tw_manager w' = meanwhile (tw_manager w) /\
       exists send_err, undeliverable (meanwhile (tw_manager w)) target send_err /\
         withdrawn target task_type (task_rows w) (task_rows w') err send_err)
  end.
Proof using laws keys.
  unfold create_task. rewrite mbind_run. destruct (insert_task _ _ _ _ _ w) as [w1 [id|err]] eqn:Ei;
    apply insert_task_run in Ei; [|intros [= <- <-]; by left].
  destruct Ei as (Hm & Hc & _ & _ & x & Hx & Hrows & Hno & _). rewrite mbind_run.
  destruct (dispatch _ _ w1) as [w2 r2] eqn:Ed. apply dispatch_run in Ed as [Hdb Hd].
  destruct r2 as [[[]|send_err]|]; [| |done].
  - intros [= <- <-]. exists id. rewrite <-Hm. split_and!; [done| |done].
    exists x. unfold task_rows in *. by rewrite Hdb.
  - destruct Hd as [-> Hu]. rewrite mbind_run.
    destruct (rollback_withdraws target task_type id x send_err w w1 Hx Hno Hrows) as (w3 & failed & -> & Hm3 & Hw).
    intros [= <- <-]. right. rewrite Hm in Hu. split_and!; [done|congruence|]. by exists send_err.
Qed.

(** creating a task is all or nothing.  On success there is exactly one new row, pending,
    under a fresh id, and its event is the last in the queue of the session the agent has at
    that moment; on failure the table is as before, and the error code tells an agent that is
    not connected (109) from one whose queue is full (104); only when deleting the row fails
    as well does it stay behind, and the message says so. *)
Theorem create_task_atomic token target task_type (w w' : W) r :
  respond_rpc (create_task uuid_display e random now meanwhile token target task_type) w = (w', r) ->
  match r with
  | Ok j => exists id, j = id_response id /\ created target task_type id w w' /\
      queued (meanwhile (tw_manager w)) target (task_event random id task_type) (tw_manager w')
  | Err err =>
      (task_rows w' = task_rows w /\ tw_manager w' = tw_manager w) \/
      (is_connected target (tw_manager w) = true /\ tw_manager w' = meanwhile (tw_manager w) /\
       exists cause send_err, undeliverable (meanwhile (tw_manager w)) target send_err /\
         code err = (if is_not_connected send_err then 109 else 104)%Z /\
         err = to_rpc_error cause /\
         withdrawn target task_type (task_rows w) (task_rows w') cause send_err)
  end.
Proof using laws keys.
  unfold respond_rpc. destruct (create_task _ _ _ _ _ _ _ _ w) as [w1 r1] eqn:E.
  apply create_task_run in E. intros [= <- <-]. destruct r1 as [j|err]; simpl; [exact E|].
  destruct E as [E|(Hc & Hm & send_err & Hu & Hw)]; [by left|]. right. split_and!; [done|done|].
  exists err, send_err. split_and!; [done| |done|done].
  destruct Hw as [[_ ->]|(id & x & _ & _ & _ & ->)]; by destruct send_err.
Qed.

(** ** Blocking calls *)

Lemma blocking_start_run token target task_type (w w' : W) r :
  create_task_blocking_start uuid_display e random now meanwhile token target task_type w = (w', r) ->
  let m0 := meanwhile (tw_manager w) in
  match r with
  | Ok (tid, rx) => exists id, tid = cast_unsigned64 id /\ created target task_type id w w' /\
      ~ key_issued w id /\ key_issued w' id /\ rx = next_ref m0 /\
      queued (snd (register_blocking_waiter tid m0)) target (task_event random id task_type) (tw_manager w')
  | Err err =>
      (task_rows w' = task_rows w /\ tw_manager w' = tw_manager w) \/
      (exists id send_err, tw_manager w' = remove_blocking_waiter (cast_unsigned64 id)
                             (snd (register_blocking_waiter (cast_unsigned64 id) m0)) /\
         in_i64 id /\ ~ key_issued w id /\ undeliverable m0 target send_err /\
         withdrawn target task_type (task_rows w) (task_rows w') err send_err)
  end.
Proof using laws keys.
  cbv zeta. unfold create_task_blocking_start. rewrite mbind_run.
  destruct (insert_task _ _ _ _ _ w) as [w1 [id|err]] eqn:Ei;
    apply insert_task_run in Ei; [|intros [= <- <-]; by left].
  destruct Ei as (Hm & _ & _ & _ & x & Hx & Hrows & Hno & _ & Hnew & Hissued). rewrite mbind_run.
  unfold on_manager at 1. cbn [register_blocking_waiter]. rewrite mbind_run.
  match goal with |- context [dispatch _ _ ?w2] => set (w2' := w2) end.
  destruct (dispatch _ _ w2') as [w3 r3] eqn:Ed. apply dispatch_run in Ed as [Hdb Hd].
  assert (tw_manager w2' = snd (register_blocking_waiter (cast_unsigned64 id) (tw_manager w1))) as Hm2 by done.
  destruct r3 as [[[]|send_err]|]; [| |done].
  - intros [= <- <-]. exists id. rewrite Hm2, Hm in Hd. split_and!; [done| |done| |by rewrite <-Hm|done].
    + exists x. unfold task_rows in *. by rewrite Hdb.
    + unfold key_issued in *. by rewrite Hdb.
  - destruct Hd as [-> Hu]. rewrite mbind_run. unfold on_manager at 1. rewrite mbind_run.
    match goal with |- context [rollback id ?w4] => set (w4' := w4) end.
    destruct (rollback_withdraws target task_type id x send_err w w4' Hx Hno) as (w5 & failed & -> & Hm5 & Hw); [done|].
    intros [= <- <-]. right. exists id, send_err. split_and!; [|by destruct Hx|done| |done].
    + rewrite Hm5. simpl. by rewrite Hm.
    + rewrite Hm2, Hm in Hu. destruct send_err; exact Hu.
Qed.
End creation.

(** ** Results *)

Definition accepts (resp : TaskEventResponse) (x : TaskModel) : bool := matches_response resp x && is_pending x.

Lemma update_none (p : TaskModel -> bool) f l : no_match p l -> map (update_if p f) l = l.
Proof using.
  intros H. induction l as [|x l IH]; [done|]. simpl. unfold update_if at 1.
  rewrite (H x) by (by left). f_equal. apply IH. intros y Hy. apply H. by right.
Qed.

(** The check changes nothing; it passes only for a pending row with the right token. *)
Lemma upload_check_run token resp (w w' : W) r :
  upload_check e token resp w = (w', r) ->
  task_rows w' = task_rows w /\ tw_manager w' = tw_manager w /\
  forall value, r = Ok value -> encode_result (tr_task_event_result resp) = Ok value /\
    exists x, x ∈ task_rows w /\ accepts resp x = true.
Proof using laws.
  unfold upload_check. rewrite mbind_lift. destruct (parse_token token) as [t|]; [|by intros [= <- <-]].
  rewrite mbind_lift. destruct (require_permission_checker e) as [provider|]; [|by intros [= <- <-]].
  rewrite mbind_lift. destruct (precheck_upload _ _ _) as [[]|]; [|by intros [= <- <-]].
  rewrite mbind_run. unfold get_task_db. destruct (tw_db w) as [d|] eqn:Ed; [|by intros [= <- <-]].
  assert (task_rows w = rows d) as Hw by (unfold task_rows; by rewrite Ed).
  rewrite mbind_run. destruct (task_stmt _ (find_one _) w) as [w1 r1] eqn:E1.
  apply task_stmt_run in E1 as [(_ & Hn & _)|(d0 & d1 & r0 & Hd & Hf & -> & ->)]; [congruence|].
  rewrite Ed in Hd. injection Hd as <-. pose proof (find_one_rows _ _ _ _ Hf) as Hr1.
  assert (task_rows {| tw_db := Some d1; tw_manager := tw_manager w; tw_uuid := tw_uuid w |} = task_rows w) as Hsame.
  { unfold task_rows at 1. simpl. by rewrite Hr1, Hw. }
  destruct r0 as [found|err]; cbn [map_err]; [|intros [= <- <-]; by rewrite Hsame].
  rewrite mbind_lift. destruct found as [x|]; cbn [ok_or]; [|intros [= <- <-]; by rewrite Hsame].
  apply find_one_some in Hf as [Hx Hmx].
  destruct (is_pending x) eqn:Hp; cbn [negb]; [|intros [= <- <-]; by rewrite Hsame].
  rewrite mbind_lift. destruct (task_type_from_value _) as [ty|]; cbn [map_err]; [|intros [= <- <-]; by rewrite Hsame].
  rewrite mbind_lift. destruct (pc_check_token_limit _ _ _ _) as [[]|]; cbn [negb]; try (intros [= <- <-]; by rewrite Hsame).
  intros [= <- <-]. rewrite Hsame. split_and!; [done|done|]. intros value ->. split; [done|].
  exists x. rewrite Hw. split; [done|]. unfold accepts. by rewrite Hmx, Hp.
Qed.

Lemma upload_commit_run resp value (w w' : W) r :
  upload_commit resp value w = (w', r) ->
  match r with
  | Ok j => j = id_response (tr_task_id resp) /\
      (exists x, x ∈ task_rows w /\ accepts resp x = true) /\
      task_rows w' ≡ₚ map (update_if (accepts resp) (record_result resp value)) (task_rows w) /\
      tw_manager w' = fst (notify_blocking_waiter (tr_task_id resp) resp (tw_manager w))
  | Err _ => task_rows w' ≡ₚ task_rows w /\ tw_manager w' = tw_manager w
  end.
Proof using laws.
  unfold upload_commit. rewrite mbind_run. destruct (task_stmt _ (update_many _ _) _) as [w2 r2] eqn:E2.
  apply task_stmt_run in E2 as [(-> & Hn & err & ->)|(d & d' & r0 & Hd & Hu & -> & ->)]; [by intros [= <- <-]|].
  assert (task_rows w = rows d) as Hw by (unfold task_rows; by rewrite Hd).
  destruct r0 as [n|err]; cbn [map_err].
  2:{ intros [= <- <-]. apply update_many_err in Hu. split; [|done]. rewrite Hw. by unfold task_rows; simpl; rewrite Hu. }
  apply update_many_ok in Hu as [Hu ->]. fold (accepts resp) in *. rewrite <-Hw in Hu.
  destruct (Z.of_nat (length (List.filter _ _)) =? 0)%Z eqn:Hz.
  - intros [= <- <-]. split; [|done]. unfold task_rows at 1. simpl. rewrite Hu, update_none; [done|].
    apply Z.eqb_eq in Hz. intros y Hy. apply not_true_iff_false. intros Ha.
    assert (y ∈ List.filter (accepts resp) (rows d)) as Hin by (apply list_filter_elem; by rewrite <-Hw).
    destruct (List.filter _ (rows d)); [by apply not_elem_of_nil in Hin|done].
  - rewrite mbind_run. unfold on_manager. cbn [tw_manager].
    destruct (notify_blocking_waiter _ _ _) as [m' b] eqn:En. intros [= <- <-].
    split_and!; [done| |exact Hu|done]. rewrite Hw.
    destruct (List.filter _ (rows d)) as [|x l] eqn:Ef; [done|]. exists x.
    assert (x ∈ List.filter (accepts resp) (rows d)) as Hin by (rewrite Ef; by left).
    by apply list_filter_elem in Hin.
Qed.
End facts.

(** ** A table of tasks for the examples *)

#[global] Instance tasks_table : TableOps (ListTable TaskModel) TaskModel := ListTable_ops task_conflict.
#[global] Instance tasks_table_laws : TableLaws tasks_table task_conflict :=
  ListTable_laws task_conflict task_conflict_sym.

#[global] Instance tasks_table_keys : KeyGenerator tasks_table := ListTable_keys task_conflict.

(** serde's externally tagged format, for the pings. *)
#[global] Instance ping_serde : TaskSerde := {|
  task_type_to_value t := match t with
    | Ping host => Ok (JObject [("ping"%string, JString host)])
    | _ => Err "not a ping"%string end;
  task_type_from_value v := match v with
    | JObject [("ping"%string, JString host)] => Ok (Ping host)
    | _ => Err "not a ping"%string end;
  task_result_to_value r := match r with RPing ms => Ok (JNum (NumInt ms)) | _ => Err "not a ping"%string end;
|}.

(** Every token may do everything. *)
Definition open_env : Env := {|
  e_globals := e_globals sample_env; e_clock := e_clock sample_env;
  PERMISSION_CHECKER := Some {|
    pc_check_token_limit _ _ _ := Ok true; pc_check_super_token _ := Ok true;
    pc_get_token _ := Err (OfNodeget (NotFound "token")) |} |}.
