(* ===== verification/TaskSessions.v ===== *)
(** * Agent sessions over time

    Subscriptions of agents opening and closing in any order, with events sent meanwhile.
    [live] lists the forwarding coroutines that have not stopped: agent, registration,
    receiver. *)
From stdpp Require Import base strings gmap list numbers relations.
From S2P Require Import Prelude Errors Json Permission TaskTypes TaskManager.

Definition Session : Type := Uuid * Uuid * nat.
Definition s_uuid (s : Session) : Uuid := s.1.1.
Definition s_reg (s : Session) : Uuid := s.1.2.
Definition s_rx (s : Session) : nat := s.2.

(** [Uuid::new_v4()] gives a registration id no running coroutine has. *)
Inductive session_step : TaskManager * list Session -> TaskManager * list Session -> Prop :=
| session_open uuid reg_id m live :
    reg_id ∉ map s_reg live ->
    session_step (m, live)
      ((open_session uuid reg_id m).2, (uuid, reg_id, (open_session uuid reg_id m).1) :: live)
| session_recv s m live :
    s ∈ live -> session_step (m, live) ((forward_recv (s_rx s) m).1, live)
| session_close s m l1 l2 :
    session_step (m, l1 ++ s :: l2) (forward_end (s_uuid s) (s_reg s) (s_rx s) m, l1 ++ l2)
| session_send uuid event m live :
    session_step (m, live) ((send_event uuid event m).1, live).

Record sessions_ok (st : TaskManager * list Session) : Prop := {
  so_reg : NoDup (map s_reg st.2);
  so_rx : NoDup (map s_rx st.2);
  so_fresh : forall s, s ∈ st.2 -> (s_rx s < next_ref st.1)%nat;
  so_live : forall uuid reg tx, peers st.1 !! uuid = Some (reg, tx) -> (uuid, reg, tx) ∈ st.2;
  so_channel : forall s, s ∈ st.2 -> exists c, channels st.1 !! s_rx s = Some c /\ ch_open c = true /\
    (length (ch_queue c) <= QUEUE_CAPACITY)%nat;
}.

(** Changing the queue of one channel within its bounds. *)
Lemma sessions_queue m live k c c' :
  sessions_ok (m, live) -> channels m !! k = Some c -> ch_open c' = ch_open c ->
  (ch_open c = true -> length (ch_queue c) <= QUEUE_CAPACITY -> length (ch_queue c') <= QUEUE_CAPACITY)%nat ->
  sessions_ok (with_channels (<[k := c']> (channels m)) m, live).
Proof.
  intros [H1 H2 H3 H4 H5] Hk Ho Hl. split; simpl in *; try done.
  intros s Hs. destruct (H5 s Hs) as (d & Hd & Hop & Hle).
  destruct (decide (s_rx s = k)) as [<-|Hne].
  - rewrite Hd in Hk. injection Hk as <-. exists c'. rewrite lookup_insert_eq. split_and!; [done|congruence|auto].
  - exists d. by rewrite lookup_insert_ne.
Qed.

Lemma open_ok uuid reg_id m live :
  reg_id ∉ map s_reg live -> sessions_ok (m, live) ->
  sessions_ok ((open_session uuid reg_id m).2, (uuid, reg_id, (open_session uuid reg_id m).1) :: live).
Proof.
  intros Hreg [H1 H2 H3 H4 H5]. simpl in *. split; simpl.
  - by constructor.
  - constructor; [|done]. intros (s & Hs & Hin)%list_elem_of_In%in_map_iff.
    apply list_elem_of_In, H3 in Hin. lia.
  - intros s [->|Hs]%elem_of_cons; [simpl; lia|]. specialize (H3 s Hs). lia.
  - intros u reg tx [(<- & [= <- <-])|(_ & Hp)]%lookup_insert_Some; [by left|right; auto].
  - intros s [->|Hs]%elem_of_cons.
    + exists {| ch_queue := []; ch_open := true |}. simpl. rewrite lookup_insert_eq.
      split_and!; [done|done|]. unfold QUEUE_CAPACITY. lia.
    + destruct (H5 s Hs) as (c & Hc & Hop & Hle). exists c. rewrite lookup_insert_ne; [done|].
      specialize (H3 s Hs). lia.
Qed.

Lemma remove_session_frame uuid reg m :
  channels (remove_session uuid reg m) = channels m /\ next_ref (remove_session uuid reg m) = next_ref m.
Proof. unfold remove_session. destruct (peers m !! uuid) as [[r t]|]; [|done]. by case_match. Qed.

Lemma remove_session_peers uuid reg m u :
  peers (remove_session uuid reg m) !! u =
  match peers m !! u with
  | Some (r, t) => if bool_decide (u = uuid /\ r = reg) then None else Some (r, t)
  | None => None
  end.
Proof.
  unfold remove_session. destruct (decide (u = uuid)) as [->|Hne].
  - destruct (peers m !! uuid) as [[r t]|] eqn:E; simpl; [|by rewrite E].
    destruct (decide (r = reg)) as [->|Hr].
    + rewrite !bool_decide_true by done. simpl. apply lookup_delete_eq.
    + rewrite !bool_decide_false by naive_solver. by rewrite E.
  - assert (peers m !! u = match peers m !! u with
              | Some (r, t) => if bool_decide (u = uuid /\ r = reg) then None else Some (r, t)
              | None => None end) as <-.
    { destruct (peers m !! u) as [[r t]|]; [|done]. by rewrite bool_decide_false by naive_solver. }
    destruct (peers m !! uuid) as [[r t]|]; [|done]. case_match; [|done]. simpl. by apply lookup_delete_ne.
Qed.

Lemma close_ok s m l1 l2 :
  sessions_ok (m, l1 ++ s :: l2) ->
  sessions_ok (forward_end (s_uuid s) (s_reg s) (s_rx s) m, l1 ++ l2).
Proof.
  intros [H1 H2 H3 H4 H5]. simpl in *.
  assert (forall x, x ∈ l1 ++ l2 -> x ∈ l1 ++ s :: l2) as Hsub.
  { intros x. rewrite !elem_of_app, elem_of_cons. naive_solver. }
  rewrite map_app in H1, H2. simpl in H1, H2.
  rewrite <-Permutation_middle in H1, H2. apply NoDup_cons in H1 as [N1 H1], H2 as [N2 H2].
  rewrite <-map_app in H1, H2.
  assert (forall x, x ∈ l1 ++ l2 -> s_rx x <> s_rx s) as Hrx.
  { intros x Hx He. apply N2. rewrite elem_of_app, !list_elem_of_In, !in_map_iff.
    apply elem_of_app in Hx as [Hx|Hx]; [left|right]; exists x; by rewrite <-list_elem_of_In. }
  destruct (remove_session_frame (s_uuid s) (s_reg s) m) as [Ec En].
  destruct (H5 s) as (cs & Hcs & _ & _); [rewrite elem_of_app, elem_of_cons; auto|].
  unfold forward_end. rewrite Ec, Hcs. split; simpl.
  - done.
  - done.
  - intros x Hx. rewrite En. auto.
  - intros u reg tx. rewrite remove_session_peers. destruct (peers m !! u) as [[r t]|] eqn:E; [|done].
    case_bool_decide as Hd; [done|]. intros [= -> ->]. apply H4 in E.
    rewrite elem_of_app, elem_of_cons in E. rewrite elem_of_app.
    destruct E as [?|[Heq|?]]; [auto| |auto]. exfalso. apply Hd. by rewrite <-Heq.
  - intros x Hx. destruct (H5 x (Hsub x Hx)) as (c & Hc & Hop & Hle). exists c.
    rewrite lookup_insert_ne by (intros He; by apply (Hrx x Hx)). done.
Qed.

Lemma session_step_ok st st' : session_step st st' -> sessions_ok st -> sessions_ok st'.
Proof.
  destruct 1 as [uuid reg_id m live Hreg|s m live Hs|s m l1 l2|uuid event m live].
  - by apply open_ok.
  - intros Hok. unfold forward_recv. destruct (channels m !! s_rx s) as [[[|ev q] []]|] eqn:E; try done.
    eapply sessions_queue; [done|done|done|]. simpl. lia.
  - apply close_ok.
  - intros Hok. destruct (send_event uuid event m) as [m' r] eqn:E. simpl. apply send_event_spec in E.
    destruct r as [[]|[u|u]].
    + destruct E as (reg & tx & c & Hp & Hc & Ho & Hl & ->).
      eapply sessions_queue; [done|exact Hc|by rewrite Ho|]. simpl. rewrite length_app. simpl. lia.
    + by destruct E as (-> & _).
    + by destruct E as (-> & _).
Qed.

Lemma sessions_run st st' : rtc session_step st st' -> sessions_ok st -> sessions_ok st'.
Proof. induction 1; [done|]. eauto using session_step_ok. Qed.

Lemma empty_sessions_ok : sessions_ok (new_manager, []).
Proof.
  split; simpl; try constructor.
  - intros s ?%not_elem_of_nil. done.
  - intros uuid reg tx. by rewrite lookup_empty.
  - intros s ?%not_elem_of_nil. done.
Qed.

(** whatever order subscriptions open and close in, every registered session has a running
    coroutine and an open channel with at most 32 waiting events, so an agent is reported as
    not connected exactly when it has no session; and a coroutine of an old registration that
    stops late never takes down the session that replaced it. *)
Theorem sessions_deliverable m live :
  rtc session_step (new_manager, []) (m, live) ->
  (forall uuid event m', send_event uuid event m = (m', Err (NotConnected uuid)) <->
     m' = m /\ is_connected uuid m = false) /\
  (forall uuid event m', send_event uuid event m = (m', Err (QueueFull uuid)) ->
     exists reg tx c, peers m !! uuid = Some (reg, tx) /\ channels m !! tx = Some c /\
       length (ch_queue c) = QUEUE_CAPACITY) /\
  (forall s uuid reg tx, s ∈ live -> peers m !! uuid = Some (reg, tx) -> reg <> s_reg s ->
     peers (forward_end (s_uuid s) (s_reg s) (s_rx s) m) !! uuid = Some (reg, tx) /\
     channels (forward_end (s_uuid s) (s_reg s) (s_rx s) m) !! tx = channels m !! tx).
Proof.
  intros Hrun. pose proof (sessions_run _ _ Hrun empty_sessions_ok) as [H1 H2 H3 H4 H5]. simpl in *.
  split_and!.
  - intros uuid event m'. unfold send_event, is_connected. destruct (peers m !! uuid) as [[reg tx]|] eqn:E.
    + apply H4 in E. destruct (H5 _ E) as (c & Hc & Ho & _). unfold try_send. cbn in Hc.
      rewrite Hc, Ho. cbn [negb]. destruct (_ <? _)%nat; (split; [intros [= ]|intros [_ [= ]]]).
    + rewrite bool_decide_false by (by intros [? ?]). naive_solver.
  - intros uuid event m' (_ & _ & reg & tx & c & Hp & Hc & Hl)%send_event_spec.
    exists reg, tx, c. split_and!; [done|done|]. apply H4 in Hp as Hin.
    destruct (H5 _ Hin) as (c' & Hc' & _ & Hle). cbn in Hc'. rewrite Hc in Hc'. injection Hc' as <-. lia.
  - intros s uuid reg tx Hs Hp Hne.
    assert (tx <> s_rx s) as Htx.
    { intros ->. apply H4 in Hp. apply Hne. clear -H2 Hs Hp. induction live as [|x l IH]; [by apply not_elem_of_nil in Hs|].
      simpl in H2. apply NoDup_cons in H2 as [Hn H2].
      apply elem_of_cons in Hs as [->|Hs], Hp as [Heq|Hp]; [exact (f_equal s_reg Heq)| | |by auto].
      - exfalso. apply Hn, list_elem_of_In, in_map_iff. eexists. split; [|by apply list_elem_of_In]. done.
      - exfalso. apply Hn. rewrite <-Heq. apply list_elem_of_In, in_map_iff. exists s. split; [done|by apply list_elem_of_In]. }
    destruct (remove_session_frame (s_uuid s) (s_reg s) m) as [Ec _].
    pose proof (remove_session_peers (s_uuid s) (s_reg s) m uuid) as Hr. rewrite Hp in Hr.
    rewrite bool_decide_false in Hr by (intros [_ ?]; done).
    unfold forward_end. rewrite Ec. case_match; simpl; [|by rewrite Ec].
    by rewrite lookup_insert_ne.
Qed.

(** An agent that reconnects before its old coroutine has stopped. *)
Definition reconnected : TaskManager := (open_session 7%N 200%N (open_session 7%N 100%N new_manager).2).2.

Lemma reconnected_run :
  rtc session_step (new_manager, []) (reconnected, [(7%N, 200%N, 1%nat); (7%N, 100%N, 0%nat)]).
Proof.
  eapply rtc_l; [apply (session_open 7%N 100%N); set_solver|].
  eapply rtc_l; [apply (session_open 7%N 200%N); set_solver|]. apply rtc_refl.
Qed.

Lemma sessions_deliverable_witness :
  peers (forward_end 7%N 100%N 0 reconnected) !! 7%N = Some (200%N, 1%nat).
Proof.
  destruct (sessions_deliverable _ _ reconnected_run) as (_ & _ & H).
  apply (H (7%N, 100%N, 0%nat)); [right; by left|reflexivity|done].
Defined.
