(* ===== verification/TaskQuery.v ===== *)
(** * Querying and deleting tasks

    [ng-task/src/rpc/query.rs], [delete.rs] and [types/query.rs]: the conditions of a request,
    the permissions they ask for, and the rows they select.  The text form in which SQLite
    stores a JSON column is a parameter, as is the comparison of characters [LIKE] uses. *)
From stdpp Require Import base strings gmap list numbers sorting.
From Stdlib Require Import Ascii.
From S2P Require Import Prelude Errors Json Db Permission TokenCache TokenCheck KvAuth UuidCache TaskTypes TaskManager Tasks TaskThms Purge Selection RetentionSpec.

Inductive TaskQueryCondition : Type :=
| TaskId (id : Z)
| ByUuid (uuid : Uuid)
| TimestampFromTo (start end_ : Z)
| TimestampFrom (start : Z)
| TimestampTo (end_ : Z)
| IsSuccess
| IsFailure
| IsRunning
| ByType (type_key : string)
| CronSource (cron_source : string)
| LimitTo (n : Z)
| Last.

Definition DEFAULT_RESULT_QUERY_LIMIT : Z := 1000.

(** ** LIKE *)

Definition bslash : ascii := "\".
Definition percent : ascii := "%".
Definition underscore : ascii := "_".
Definition quote : ascii := "034".

(** [s.replace(c, "\c")]. *)
Definition escape_char (c : ascii) (s : list ascii) : list ascii :=
  flat_map (fun x => if Ascii.eqb x c then [bslash; c] else [x]) s.

Definition escape_like_pattern (pattern : list ascii) : list ascii :=
  escape_char underscore (escape_char percent (escape_char bslash pattern)).

Section like.
(** SQLite folds the case of ASCII letters, PostgreSQL does not. *)
Variable ceq : ascii -> ascii -> bool.

(** [text LIKE pattern ESCAPE '\']. *)
Fixpoint like (pattern text : list ascii) : bool :=
  match pattern with
  | [] => match text with [] => true | _ => false end
  | p :: pattern' =>
      if Ascii.eqb p percent then
        (fix any (t : list ascii) : bool :=
           like pattern' t || match t with [] => false | _ :: t' => any t' end) text
      else if Ascii.eqb p underscore then
        match text with [] => false | _ :: t => like pattern' t end
      else if Ascii.eqb p bslash then
        match pattern', text with
        | c :: pattern'', x :: t => ceq c x && like pattern'' t
        | _, _ => false
        end
      else match text with [] => false | x :: t => ceq p x && like pattern' t end
  end.

(** The text begins with, or has somewhere inside, the given characters. *)
Fixpoint begins (k text : list ascii) : bool :=
  match k, text with
  | [], _ => true
  | c :: k', x :: t => ceq c x && begins k' t
  | _ :: _, [] => false
  end.
Fixpoint contains_text (k text : list ascii) : bool :=
  begins k text || match text with [] => false | _ :: t => contains_text k t end.
End like.

(** The pattern of the [Type] condition. *)
Definition type_pattern (type_key : string) : list ascii :=
  percent :: quote :: escape_like_pattern (String.list_ascii_of_string type_key) ++ [quote; ":"%char; percent].

(** PostgreSQL's [jsonb ? key]. *)
Definition json_has (key : string) (v : Json) : bool :=
  match v with
  | JObject o => existsb (fun '(k, _) => String.eqb k key) o
  | JArray l => existsb (fun x => match x with JString s => String.eqb s key | _ => false end) l
  | JString s => String.eqb s key
  | _ => false
  end.

Section conditions.
Variables (ceq : ascii -> ascii -> bool) (json_text : Json -> string).

Definition ts_at_least (t : Z) (r : TaskModel) : bool := at_least t (t_timestamp r).
Definition ts_at_most (t : Z) (r : TaskModel) : bool := at_most t (t_timestamp r).

Definition cond_matches (postgres : bool) (cond : TaskQueryCondition) (r : TaskModel) : bool :=
  match cond with
  | TaskId id => (t_id r =? cast_signed64 id)%Z
  | ByUuid uuid => bool_decide (t_uuid r = uuid)
  | TimestampFromTo start end_ => ts_at_least start r && ts_at_most end_ r
  | TimestampFrom start => ts_at_least start r
  | TimestampTo end_ => ts_at_most end_ r
  | IsSuccess => bool_decide (t_success r = Some true)
  | IsFailure => bool_decide (t_success r = Some false)
  | IsRunning => bool_decide (t_success r = None)
  | ByType type_key =>
      if postgres then json_has type_key (t_task_event_type r)
      else like ceq (type_pattern type_key) (String.list_ascii_of_string (json_text (t_task_event_type r)))
  | CronSource cron_source => bool_decide (t_cron_source r = Some cron_source)
  | LimitTo _ | Last => true
  end.

Definition all_match (postgres : bool) (conds : list TaskQueryCondition) (r : TaskModel) : bool :=
  forallb (fun c => cond_matches postgres c r) conds.

Definition is_last (conds : list TaskQueryCondition) : bool :=
  existsb (fun c => match c with Last => true | _ => false end) conds.

(** A later [Limit] replaces an earlier one. *)
Definition limit_step (acc : option Z) (c : TaskQueryCondition) : option Z :=
  match c with LimitTo n => Some (Z.min n MAX_QUERY_LIMIT) | _ => acc end.
Definition limit_count (conds : list TaskQueryCondition) : option Z := fold_left limit_step conds None.

(** ** Permissions *)

Definition all_task_types : list string :=
  ["ping"; "tcp_ping"; "http_ping"; "http_request"; "web_shell"; "execute"; "read_config";
   "edit_config"; "ip"; "version"; "dns"; "self_update"]%string.

Definition condition_scopes (conds : list TaskQueryCondition) : list Scope :=
  let scopes := flat_map (fun c => match c with ByUuid u => [Scope_AgentUuid u] | _ => [] end) conds in
  match scopes with [] => [Scope_Global] | _ => scopes end.

Definition requested_types (conds : list TaskQueryCondition) : list string :=
  flat_map (fun c => match c with ByType t => [t] | _ => [] end) conds.

Definition condition_permissions (op : string -> Task) (conds : list TaskQueryCondition) : list Permission :=
  match requested_types conds with
  | [] => map (fun t => P_Task (op t)) all_task_types
  | types => map (fun t => P_Task (op t)) types
  end.

(** ** Order *)

(** [ORDER BY timestamp DESC, id DESC], and ascending. *)
Definition row_ge (postgres : bool) : TaskModel -> TaskModel -> Prop := desc_by_id t_timestamp t_id postgres.
#[global] Instance row_ge_dec postgres : RelDecision (row_ge postgres).
Proof using. unfold row_ge. apply _. Defined.
Definition row_le (postgres : bool) (a b : TaskModel) : Prop := row_ge postgres b a.
#[global] Instance row_le_dec postgres : RelDecision (row_le postgres).
Proof using. intros a b. unfold row_le. apply _. Defined.

Context {DB U : Type} {ops : TableOps DB TaskModel}.
Variable e : Env.

#[local] Notation W := (TaskWorld DB U).
#[local] Notation Tm := (Tm (DB := DB) (U := U)).

Definition backend : Tm bool := fun w => (w, Ok (match tw_db w with Some d => is_postgres d | None => false end)).

Definition check_query (token : string) (op : string -> Task) (conds : list TaskQueryCondition) (verb : string) :
    result anyhow unit :=
  let? token_or_auth := parse_token token in
  let? provider := require_permission_checker e in
  let? is_allowed := pc_check_token_limit provider token_or_auth (condition_scopes conds) (condition_permissions op conds) in
  if negb (is_allowed : bool)
  then denied ("Permission Denied: Insufficient permissions to " +:+ verb +:+ " requested task types") else Ok tt.

(** [query]: the selected rows, in order. *)
Definition query_tasks (token : string) (conds : list TaskQueryCondition) : Tm (list TaskModel) :=
  let! _ := lift (check_query token Task_Read conds "read") in
  let! _ := get_task_db in
  let! postgres := backend in
  let! found := task_stmt "Database query error: " (find_all (all_match postgres conds)) in
  mret (if is_last conds then take 1 (merge_sort (row_ge postgres) found)
        else match limit_count conds with
             | Some l => take (Z.to_nat l) (merge_sort (row_ge postgres) found)
             | None => take (Z.to_nat DEFAULT_RESULT_QUERY_LIMIT) (merge_sort (row_le postgres) found)
             end).

(** [delete]: the number of deleted rows. *)
Definition delete_tasks (token : string) (conds : list TaskQueryCondition) : Tm Z :=
  let! _ := lift (check_query token Task_Delete conds "delete") in
  let! _ := get_task_db in
  let! postgres := backend in
  if is_last conds || bool_decide (is_Some (limit_count conds)) then
    let limit := if is_last conds then 1%Z else default 0%Z (limit_count conds) in
    let! found := task_stmt "Database query error: " (find_all (all_match postgres conds)) in
    let ids := map t_id (take (Z.to_nat limit) (merge_sort (row_ge postgres) found)) in
    match ids with
    | [] => mret 0%Z
    | _ => task_stmt "Database delete error: " (delete_many (is_in t_id ids))
    end
  else task_stmt "Database delete error: " (delete_many (all_match postgres conds)).
End conditions.

(** ** The type pattern is literal *)

Section like_facts.
Context (ceq : ascii -> ascii -> bool).

Definition escape_one (c : ascii) : list ascii :=
  if Ascii.eqb c bslash || Ascii.eqb c percent || Ascii.eqb c underscore then [bslash; c] else [c].

Lemma escape_char_app c a b : escape_char c (a ++ b) = escape_char c a ++ escape_char c b.
Proof using. apply flat_map_app. Qed.

Lemma escape_like_cons c k : escape_like_pattern (c :: k) = escape_one c ++ escape_like_pattern k.
Proof using.
  unfold escape_like_pattern, escape_one. change (c :: k) with ([c] ++ k).
  rewrite !escape_char_app. f_equal. unfold escape_char. simpl.
  destruct (Ascii.eqb_spec c bslash) as [->|]; [done|]. simpl.
  destruct (Ascii.eqb_spec c percent) as [->|]; [done|]. simpl.
  destruct (Ascii.eqb_spec c underscore) as [->|]; done.
Qed.

(** An escaped character stands for itself. *)
Lemma like_escape_one c rest text :
  like ceq (escape_one c ++ rest) text = match text with [] => false | x :: t => ceq c x && like ceq rest t end.
Proof using.
  unfold escape_one. destruct (Ascii.eqb_spec c bslash) as [->|Hb]; [done|].
  destruct (Ascii.eqb_spec c percent) as [->|Hp]; [done|].
  destruct (Ascii.eqb_spec c underscore) as [->|Hu]; [done|]. simpl.
  destruct (Ascii.eqb_spec c percent); [done|]. destruct (Ascii.eqb_spec c underscore); [done|].
  destruct (Ascii.eqb_spec c bslash); done.
Qed.

Lemma like_any pattern text : like ceq (percent :: pattern) text =
  like ceq pattern text || match text with [] => false | _ :: t => like ceq (percent :: pattern) t end.
Proof using. by destruct text. Qed.

Lemma like_percent text : like ceq [percent] text = true.
Proof using. induction text as [|x t IH]; [done|]. rewrite like_any, IH. apply orb_true_r. Qed.

Lemma like_literal k : forall text, like ceq (escape_like_pattern k ++ [percent]) text = begins ceq k text.
Proof using.
  induction k as [|c k IH]; intros text; [by rewrite like_percent|].
  rewrite escape_like_cons, <-app_assoc, like_escape_one. destruct text as [|x t]; [done|]. by rewrite IH.
Qed.

Lemma escape_like_app a b : escape_like_pattern (a ++ b) = escape_like_pattern a ++ escape_like_pattern b.
Proof using. unfold escape_like_pattern. by rewrite !escape_char_app. Qed.

Lemma type_pattern_contains type_key text :
  like ceq (type_pattern type_key) text =
  contains_text ceq (quote :: String.list_ascii_of_string type_key ++ [quote; ":"%char]) text.
Proof using.
  set (k := quote :: String.list_ascii_of_string type_key ++ [quote; ":"%char]).
  assert (type_pattern type_key = percent :: escape_like_pattern k ++ [percent]) as ->.
  { unfold type_pattern, k. rewrite escape_like_cons, escape_like_app. simpl. by rewrite <-app_assoc. }
  induction text as [|x t IH]; rewrite like_any, like_literal; simpl; [done|]. by rewrite <-IH.
Qed.

(** On SQLite the type condition selects exactly the rows whose stored JSON text contains
    the requested key between quotes and followed by a colon: no character of the request
    acts as a wildcard. *)
Theorem type_pattern_literal json_text type_key r :
  cond_matches ceq json_text false (ByType type_key) r =
  contains_text ceq (quote :: String.list_ascii_of_string type_key ++ [quote; ":"%char])
    (String.list_ascii_of_string (json_text (t_task_event_type r))).
Proof using. apply type_pattern_contains. Qed.
End like_facts.

(** ** The order is total *)

#[global] Instance row_ge_total pg : Total (row_ge pg).
Proof. unfold row_ge. apply _. Qed.
#[global] Instance row_ge_trans pg : Transitive (row_ge pg).
Proof. unfold row_ge. apply _. Qed.
#[global] Instance row_le_total pg : Total (row_le pg).
Proof. intros a b. apply (row_ge_total pg b a). Qed.
#[global] Instance row_le_trans pg : Transitive (row_le pg).
Proof. intros a b c H1 H2. exact (row_ge_trans pg c b a H2 H1). Qed.

Section query_facts.
Context {DB U : Type} {ops : TableOps DB TaskModel} {laws : TableLaws ops task_conflict}.
Variables (ceq : ascii -> ascii -> bool) (json_text : Json -> string) (e : Env).

#[local] Notation W := (TaskWorld DB U).
#[local] Notation matching w conds :=
  (all_match ceq json_text (match tw_db w with Some d => is_postgres d | None => false end) conds).
#[local] Notation newer w := (row_ge (match tw_db w with Some d => is_postgres d | None => false end)).

Lemma limit_count_cap conds l : limit_count conds = Some l -> (l <= MAX_QUERY_LIMIT)%Z.
Proof using.
  unfold limit_count.
  assert (forall acc, (forall l, acc = Some l -> (l <= MAX_QUERY_LIMIT)%Z) ->
    forall l, fold_left limit_step conds acc = Some l -> (l <= MAX_QUERY_LIMIT)%Z) as H; [|by apply H].
  induction conds as [|c conds IH]; intros acc Hacc l'; simpl; [auto|]. apply IH.
  intros k. destruct c; simpl; try apply Hacc. intros [= <-]. lia.
Qed.

(** How many rows a limited deletion may take. *)
Definition row_limit (conds : list TaskQueryCondition) : option Z :=
  if is_last conds then Some 1%Z else limit_count conds.

(** The outcome of a deletion of the rows [gone]. *)
Definition deletes (w w' : W) (conds : list TaskQueryCondition) (n : Z) (kept gone : list TaskModel) : Prop :=
  task_rows w' ≡ₚ kept /\ deletion (newer w) (matching w conds) (row_limit conds) (task_rows w) n kept gone.

Lemma delete_limited_run limit conds (w w' : W) r d :
  tasks_unique w -> tw_db w = Some d ->
  (let! found := task_stmt "Database query error: " (find_all (matching w conds)) in
   let ids := map t_id (take (Z.to_nat limit) (merge_sort (newer w) found)) in
   match ids with
   | [] => mret 0%Z
   | _ => task_stmt "Database delete error: " (delete_many (is_in t_id ids))
   end) w = (w', r) ->
  tw_manager w' = tw_manager w /\
  match r with
  | Ok n => exists kept gone, task_rows w' ≡ₚ kept /\ deletion (newer w) (matching w conds) (Some limit) (task_rows w) n kept gone
  | Err _ => task_rows w' = task_rows w
  end.
Proof using laws.
  intros Hu Hd. rewrite mbind_run. destruct (task_stmt _ (find_all _) w) as [w1 r1] eqn:E1.
  apply task_stmt_run in E1 as [(_ & Hn & _)|(d0 & d1 & r0 & Hd0 & Hf & -> & ->)]; [congruence|].
  rewrite Hd in Hd0. injection Hd0 as <-. pose proof (find_all_rows _ _ _ _ Hf) as Hr1.
  assert (task_rows w = rows d) as Hw by (unfold task_rows; by rewrite Hd).
  destruct r0 as [found|err]; cbn [map_err].
  2:{ intros [= <- <-]. split; [done|]. unfold task_rows at 1. simpl. congruence. }
  apply find_all_ok in Hf. rewrite <-Hw in Hf. rewrite Hd in *.
  set (pg := is_postgres d) in *. set (p := all_match ceq json_text pg conds) in *.
  assert (pk_unique t_id (task_rows w)) as Hpk by (by apply unique_pk).
  pose proof (newest_deletion t_id (row_ge pg) p limit (task_rows w) found Hpk Hf) as Hdel.
  pose proof (delete_by_key t_id (row_ge pg) (task_rows w) p found limit Hpk Hf) as Hsel.
  cbv zeta in *. fold (newest (row_ge pg) limit found). 
  destruct (map t_id (newest (row_ge pg) limit found)) as [|i ids] eqn:Ei.
  - intros [= <- <-]. split; [done|]. apply map_eq_nil in Ei. rewrite Ei in Hdel.
    eexists _, []. split; [|exact Hdel]. unfold task_rows at 1. simpl. rewrite Hr1, <-Hw.
    clear. induction (task_rows w); simpl; by constructor.
  - destruct (task_stmt _ (delete_many _) _) as [w2 r2] eqn:E2. intros [= <- <-].
    apply task_stmt_run in E2 as [(_ & Hn & _)|(d2 & d3 & r0 & Hd2 & Hdm & -> & ->)]; [done|].
    simpl in Hd2. injection Hd2 as <-. split; [done|]. destruct r0 as [n|err]; cbn [map_err].
    + apply delete_many_ok in Hdm as [Hr3 ->]. rewrite Hr1, <-Hw in Hr3 |- *.
      eexists _, (newest (row_ge pg) limit found). split; [exact Hr3|]. rewrite Hsel. exact Hdel.
    + unfold task_rows at 1. simpl. rewrite (delete_many_err _ _ _ _ Hdm). congruence.
Qed.

(** A deletion request removes rows only with the permission to delete every requested
    type (all types if none is named) in every requested scope; the rows it removes match all
    its conditions; with [Last] or [Limit] they are at most one or at most [min(n, 10000)] and
    the newest matching ones, otherwise all matching ones; the number reported is the number
    removed, and a failed request removes nothing. *)
Theorem delete_within_conditions token conds (w w' : W) r :
  tasks_unique w -> delete_tasks ceq json_text e token conds w = (w', r) ->
  tw_manager w' = tw_manager w /\
  match r with
  | Ok n => check_query e token Task_Delete conds "delete" = Ok tt /\
      (exists kept gone, deletes w w' conds n kept gone) /\
      (forall l, row_limit conds = Some l -> (n <= MAX_QUERY_LIMIT)%Z)
  | Err _ => task_rows w' = task_rows w
  end.
Proof using laws.
  intros Hu. unfold delete_tasks. rewrite mbind_lift.
  destruct (check_query _ _ _ _ _) as [[]|err] eqn:Ec; [|by intros [= <- <-]].
  rewrite mbind_run. unfold get_task_db. destruct (tw_db w) as [d|] eqn:Ed; [|by intros [= <- <-]].
  rewrite mbind_run. unfold backend. rewrite Ed. unfold deletes, row_limit. rewrite Ed.
  destruct (is_last conds || bool_decide (is_Some (limit_count conds))) eqn:El.
  - set (limit := if is_last conds then 1%Z else default 0%Z (limit_count conds)).
    assert ((if is_last conds then Some 1%Z else limit_count conds) = Some limit /\ (Z.max 0 limit <= MAX_QUERY_LIMIT)%Z)
      as [Hlim Hcap].
    { unfold limit. destruct (is_last conds); [done|]. simpl in El. apply bool_decide_eq_true in El as [l Hl].
      pose proof (limit_count_cap _ _ Hl). rewrite Hl. simpl. split; [done|]. unfold MAX_QUERY_LIMIT in *. lia. }
    intros H. pose proof (delete_limited_run limit conds w w' r d Hu Ed) as Hrun. rewrite Ed in Hrun.
    destruct (Hrun H) as [Hm Hr]. split; [done|]. destruct r as [n|err]; [|done].
    destruct Hr as (kept & gone & H1 & H2). split_and!; [done| |intros l _; destruct H2 as (_ & _ & _ & ? & _); lia].
    exists kept, gone. rewrite Hlim. by split.
  - apply orb_false_iff in El as [-> El]. apply bool_decide_eq_false in El.
    assert (limit_count conds = None) as Hlim by (by destruct (limit_count conds); [destruct El|]).
    destruct (task_stmt _ _ w) as [w1 r1] eqn:E1. intros [= <- <-].
    apply task_stmt_run in E1 as [(_ & Hn & _)|(d0 & d1 & r0 & Hd & Hdel & -> & ->)]; [congruence|].
    rewrite Ed in Hd. injection Hd as <-. split; [done|].
    assert (task_rows w = rows d) as Hw by (unfold task_rows; by rewrite Ed).
    destruct r0 as [n|err]; cbn [map_err].
    + apply delete_many_ok in Hdel as [Hrows ->]. rewrite <-Hw in Hrows.
      split_and!; [done| |intros l Hl; congruence].
      exists (List.filter (fun x => negb (all_match ceq json_text (is_postgres d) conds x)) (task_rows w)),
        (List.filter (all_match ceq json_text (is_postgres d) conds) (task_rows w)). rewrite Hlim, Hw in *.
      split; [exact Hrows|]. split_and!; [apply filter_split|done| |].
      * by intros x [_ ?]%list_filter_elem.
      * by intros x [_ ?%negb_true_iff]%list_filter_elem.
    + rewrite Hw. unfold task_rows. simpl. by apply delete_many_err in Hdel.
Qed.

(** A query reads only, and returns matching rows: the newest [min(n, 10000)] or the newest
    one, newest first, or without a limit the oldest thousand, oldest first. *)
Theorem query_selects token conds (w w' : W) l :
  query_tasks ceq json_text e token conds w = (w', Ok l) ->
  task_rows w' = task_rows w /\ check_query e token Task_Read conds "read" = Ok tt /\
  (forall x, x ∈ l -> x ∈ task_rows w /\ matching w conds x = true) /\
  (Z.of_nat (length l) <= Z.max 0 (default DEFAULT_RESULT_QUERY_LIMIT (row_limit conds)) <= MAX_QUERY_LIMIT)%Z /\
  StronglySorted (if row_limit conds then newer w else fun a b => newer w b a) l.
Proof using laws.
  unfold query_tasks. rewrite mbind_lift. destruct (check_query _ _ _ _ _) as [[]|err]; [|done].
  rewrite mbind_run. unfold get_task_db. destruct (tw_db w) as [d|] eqn:Ed; [|done].
  rewrite mbind_run. unfold backend. rewrite Ed, mbind_run.
  destruct (task_stmt _ _ w) as [w1 r1] eqn:E1.
  apply task_stmt_run in E1 as [(_ & Hn & _)|(d0 & d1 & r0 & Hd & Hf & -> & ->)]; [congruence|].
  rewrite Ed in Hd. injection Hd as <-. destruct r0 as [found|]; [|done]. cbn [map_err].
  pose proof (find_all_rows _ _ _ _ Hf) as Hr. apply find_all_ok in Hf. intros [= <- Hl].
  assert (task_rows w = rows d) as Hw by (unfold task_rows; by rewrite Ed).
  split; [by rewrite Hw; unfold task_rows; simpl|]. split; [done|].
  assert (forall R `{!RelDecision R} n x, x ∈ take n (merge_sort R found) -> x ∈ task_rows w /\
    all_match ceq json_text (is_postgres d) conds x = true) as Hin.
  { intros R HR n x Hx. assert (x ∈ merge_sort R found) as Hxs
      by (rewrite <-(take_drop n (merge_sort R found)); apply elem_of_app; by left).
    rewrite merge_sort_Permutation, Hf in Hxs. rewrite Hw. by apply list_filter_elem in Hxs. }
  assert (forall (R : TaskModel -> TaskModel -> Prop) `{!RelDecision R, !Total R, !Transitive R} n,
    StronglySorted R (take n (merge_sort R found))) as Hsort.
  { intros R HR1 HR2 HR3 n. pose proof (StronglySorted_merge_sort R found) as Hs.
    rewrite <-(take_drop n (merge_sort R found)) in Hs. by apply StronglySorted_app_1_l in Hs. }
  assert (forall R `{!RelDecision R} n, (length (take n (merge_sort R found)) <= n)%nat) as Hlen
    by (intros; rewrite length_take; lia).
  unfold row_limit. destruct (is_last conds).
  - subst l. split_and!; [by apply Hin|pose proof (Hlen (row_ge (is_postgres d)) _ 1%nat); simpl in *; lia|done|apply Hsort; apply _].
  - destruct (limit_count conds) as [k|] eqn:Ek; subst l.
    + apply limit_count_cap in Ek. unfold MAX_QUERY_LIMIT in *.
      split_and!; [by apply Hin|pose proof (Hlen (row_ge (is_postgres d)) _ (Z.to_nat k)); simpl default; lia|simpl; lia|apply Hsort; apply _].
    + split_and!; [by apply Hin| |done|].
      * pose proof (Hlen (row_le (is_postgres d)) _ (Z.to_nat DEFAULT_RESULT_QUERY_LIMIT)). simpl default. unfold DEFAULT_RESULT_QUERY_LIMIT in *. lia.
      * apply (Hsort (row_le (is_postgres d))); apply _.
Qed.

Lemma begins_length k : forall text, begins ceq k text = true -> (length k <= length text)%nat.
Proof using.
  induction k as [|c k IH]; intros [|x t]; simpl; try done; try lia.
  intros [_ H]%andb_true_iff. apply IH in H. lia.
Qed.

Lemma contains_length k text : contains_text ceq k text = true -> (length k <= length text)%nat.
Proof using.
  induction text as [|x t IH]; simpl.
  - rewrite orb_false_r. apply begins_length.
  - intros [H%begins_length|H%IH]%orb_true_iff; simpl in *; lia.
Qed.

(** Task types without arguments are stored as a bare JSON string; there the key is not
    followed by a colon, so on SQLite asking for such a type finds none of its rows, while on
    PostgreSQL it finds them. *)
Theorem sqlite_misses_unit_types name (r : TaskModel) :
  (forall t, String.list_ascii_of_string (json_text (JString t)) =
             quote :: String.list_ascii_of_string t ++ [quote]) ->
  t_task_event_type r = JString name ->
  cond_matches ceq json_text false (ByType name) r = false /\
  cond_matches ceq json_text true (ByType name) r = true.
Proof using.
  intros Htext Hr. unfold cond_matches. rewrite Hr. split; [|apply String.eqb_refl].
  rewrite type_pattern_contains. apply not_true_iff_false. intros H%contains_length.
  rewrite Htext in H. simpl in H. rewrite !length_app in H. simpl in H. lia.
Qed.
End query_facts.

(** ** Examples *)

(** [{"ping": host}] in serde_json's compact text. *)
Definition demo_text (v : Json) : string :=
  let q := String.string_of_list_ascii [quote] in
  match v with
  | JObject [(k, JString s)] => "{" +:+ q +:+ k +:+ q +:+ ":" +:+ q +:+ s +:+ q +:+ "}"
  | JString s => q +:+ s +:+ q
  | _ => ""
  end.

Definition demo_task (id : Z) (stamp : option Z) (ty : Json) : TaskModel := {|
  t_id := id; t_uuid := 7%N; t_token := "t"; t_cron_source := None; t_timestamp := stamp; t_success := Some true;
  t_error_message := None; t_task_event_type := ty; t_task_event_result := None; t_created_at := Some 5%Z |}.

Definition demo_tasks : TaskWorld (ListTable TaskModel) (ListTable UuidModel) := {|
  tw_db := Some {| tbl := [demo_task 1 (Some 10%Z) (JObject [("ping"%string, JString "a")]);
                           demo_task 2 (Some 30%Z) (JObject [("ping"%string, JString "b")]);
                           demo_task 3 (Some 20%Z) (JString "ip")]; next_id := 9; outages := [] |};
  tw_manager := new_manager; tw_uuid := None |}.

Lemma delete_within_conditions_witness :
  exists kept gone, deletes Ascii.eqb demo_text demo_tasks
    (delete_tasks Ascii.eqb demo_text open_env "key:pass" [ByType "ping"; Last] demo_tasks).1
    [ByType "ping"; Last] 1 kept gone.
Proof.
  assert (tasks_unique demo_tasks) as Hu by reflexivity.
  destruct (delete_tasks _ _ _ _ _ demo_tasks) as [w' r] eqn:E.
  assert (r = Ok 1%Z) as -> by (vm_compute in E; by injection E).
  destruct (delete_within_conditions Ascii.eqb demo_text open_env "key:pass" [ByType "ping"%string; Last]
              demo_tasks w' (Ok 1%Z) Hu E) as (_ & _ & H & _).
  exact H.
Defined.

Example delete_last_ping :
  map t_id (task_rows (delete_tasks Ascii.eqb demo_text open_env "key:pass" [ByType "ping"; Last] demo_tasks).1) = [1; 3]%Z.
Proof. vm_compute. reflexivity. Qed.

Example wildcards_are_literal :
  (query_tasks Ascii.eqb demo_text open_env "key:pass" [ByType "p%"] demo_tasks).2 = Ok [].
Proof. vm_compute. reflexivity. Qed.
