(* ===== verification/Terminal.v ===== *)
(** * The web terminal relay

    [ng-terminal]: a browser and the shell of an agent are joined by two bounded channels.
    [handle_agent] registers a session under [(agent_uuid, terminal_id)], [handle_user] takes
    the receiving end out of it; each handler runs two forwarding tasks until one of them
    ends, then removes the session.  A session's channels are named by a number; the
    channel logs ([ch_sent], [ch_out]) are kept for the statements only. *)
From stdpp Require Import base strings gmap list numbers relations.
From S2P Require Import Prelude Errors Json Db Permission TokenCache TokenCheck KvAuth UuidCache TaskTypes TaskManager Tasks TaskThms.

Definition TERMINAL_CHANNEL_BUFFER_SIZE : nat := 4096.

(** [(agent_uuid, terminal_id)]. *)
Definition TerminalSessionKey : Type := Uuid * Uuid.

Record SessionSlots : Type := {
  tx_to_agent : nat;
  rx_from_agent : option nat;
  sl_task_token : string;
}.

Record TerminalParams : Type := {
  p_agent_uuid : string;
  p_task_id : option Z;
  p_task_token : option string;
  p_terminal_id : option Uuid;
  p_token : option string;
}.

Section terminal.
(** A WebSocket message. *)
Variable Message : Type.

(** A channel: what waits in it, and what was ever put into it and taken out of it. *)
Record Relay : Type := { rl_queue : list Message; rl_sent : list Message; rl_out : list Message }.

Definition empty_relay : Relay := {| rl_queue := []; rl_sent := []; rl_out := [] |}.
Definition relay_put (m : Message) (c : Relay) : Relay :=
  {| rl_queue := rl_queue c ++ [m]; rl_sent := rl_sent c ++ [m]; rl_out := rl_out c |}.

Record TerminalState : Type := {
  sessions : gmap TerminalSessionKey SessionSlots;
  to_agent : gmap nat Relay;
  to_user : gmap nat Relay;
  agents : gmap nat TerminalSessionKey;            (** running [handle_agent]s *)
  users : list (nat * TerminalSessionKey);         (** running [handle_user]s *)
  attached : gset nat;                             (** sessions a user has taken *)
  next_session : nat;
}.

Definition empty_terminal : TerminalState :=
  {| sessions := ∅; to_agent := ∅; to_user := ∅; agents := ∅; users := []; attached := ∅; next_session := 0 |}.

(** The [Entry] match of [handle_agent], and the spawned tasks. *)
Definition agent_insert (key : TerminalSessionKey) (task_token : string) (st : TerminalState) :
    option (nat * TerminalState) :=
  match sessions st !! key with
  | Some _ => None
  | None =>
      let i := next_session st in
      Some (i, {|
        sessions := <[key := {| tx_to_agent := i; rx_from_agent := Some i; sl_task_token := task_token |}]> (sessions st);
        to_agent := <[i := empty_relay]> (to_agent st);
        to_user := <[i := empty_relay]> (to_user st);
        agents := <[i := key]> (agents st);
        users := users st; attached := attached st; next_session := S i |})
  end.

Inductive SlotResult : Type :=
| Got (i : nat)
| AlreadyAttached
| SessionNotFound.

(** The slot block of [handle_user], and the spawned tasks. *)
Definition user_take (key : TerminalSessionKey) (st : TerminalState) : SlotResult * TerminalState :=
  match sessions st !! key with
  | Some slots =>
      match rx_from_agent slots with
      | Some rx =>
          (Got rx, {|
            sessions := <[key := {| tx_to_agent := tx_to_agent slots; rx_from_agent := None;
                                    sl_task_token := sl_task_token slots |}]> (sessions st);
            to_agent := to_agent st; to_user := to_user st; agents := agents st;
            users := (rx, key) :: users st; attached := {[rx]} ∪ attached st; next_session := next_session st |})
      | None => (AlreadyAttached, st)
      end
  | None => (SessionNotFound, st)
  end.

Definition with_relays (a u : gmap nat Relay) (st : TerminalState) : TerminalState :=
  {| sessions := sessions st; to_agent := a; to_user := u; agents := agents st; users := users st;
     attached := attached st; next_session := next_session st |}.

(** The end of [handle_agent]: both tasks are aborted, the key is removed. *)
Definition agent_cleanup (i : nat) (key : TerminalSessionKey) (st : TerminalState) : TerminalState :=
  {| sessions := delete key (sessions st); to_agent := to_agent st; to_user := to_user st;
     agents := delete i (agents st); users := users st; attached := attached st; next_session := next_session st |}.

(** The end of [handle_user]; [l] are the other running ones. *)
Definition user_cleanup (key : TerminalSessionKey) (l : list (nat * TerminalSessionKey)) (st : TerminalState) :
    TerminalState :=
  {| sessions := delete key (sessions st); to_agent := to_agent st; to_user := to_user st;
     agents := agents st; users := l; attached := attached st; next_session := next_session st |}.

(** Who holds an end of the channels of session [i]. *)
Definition user_on (i : nat) (st : TerminalState) : Prop := exists key, (i, key) ∈ users st.
Definition slot_sends (i : nat) (st : TerminalState) : Prop :=
  exists key s, sessions st !! key = Some s /\ tx_to_agent s = i.
Definition slot_receives (i : nat) (st : TerminalState) : Prop :=
  exists key s, sessions st !! key = Some s /\ rx_from_agent s = Some i.

(** [rx_from_user.recv()] returns [None]: nothing is queued and every sender is gone. *)
Definition no_senders (i : nat) (st : TerminalState) : Prop := ~ slot_sends i st /\ ~ user_on i st.
Definition agent_recv_ended (i : nat) (st : TerminalState) : Prop :=
  (exists c, to_agent st !! i = Some c /\ rl_queue c = []) /\ no_senders i st.

Inductive terminal_step : TerminalState -> TerminalState -> Prop :=
| agent_connects key token i st st' :
    agent_insert key token st = Some (i, st') -> terminal_step st st'
| user_connects key r st st' :
    user_take key st = (r, st') -> terminal_step st st'
| agent_says i key m c st :
    agents st !! i = Some key -> slot_receives i st \/ user_on i st ->
    to_user st !! i = Some c -> (length (rl_queue c) < TERMINAL_CHANNEL_BUFFER_SIZE)%nat ->
    terminal_step st (with_relays (to_agent st) (<[i := relay_put m c]> (to_user st)) st)
| user_says i key m c st :
    (i, key) ∈ users st -> is_Some (agents st !! i) ->
    to_agent st !! i = Some c -> (length (rl_queue c) < TERMINAL_CHANNEL_BUFFER_SIZE)%nat ->
    terminal_step st (with_relays (<[i := relay_put m c]> (to_agent st)) (to_user st) st)
| agent_gets i key m q c st :
    agents st !! i = Some key -> to_agent st !! i = Some c -> rl_queue c = m :: q ->
    terminal_step st (with_relays
      (<[i := {| rl_queue := q; rl_sent := rl_sent c; rl_out := rl_out c ++ [m] |}]> (to_agent st)) (to_user st) st)
| user_gets i key m q c st :
    (i, key) ∈ users st -> to_user st !! i = Some c -> rl_queue c = m :: q ->
    terminal_step st (with_relays (to_agent st)
      (<[i := {| rl_queue := q; rl_sent := rl_sent c; rl_out := rl_out c ++ [m] |}]> (to_user st)) st)
| agent_ends i key st :
    agents st !! i = Some key -> terminal_step st (agent_cleanup i key st)
| user_ends i key l1 l2 st :
    users st = l1 ++ (i, key) :: l2 -> terminal_step st (user_cleanup key (l1 ++ l2) st).

(** ** The invariant *)

Record terminal_ok (st : TerminalState) : Prop := {
  tk_users : NoDup (map fst (users st));
  tk_attached : forall i, user_on i st -> i ∈ attached st;
  tk_fresh : (forall i, i ∈ attached st -> (i < next_session st)%nat) /\
             (forall i, is_Some (agents st !! i) -> (i < next_session st)%nat);
  tk_slot : forall key s, sessions st !! key = Some s ->
    (tx_to_agent s < next_session st)%nat /\
    match rx_from_agent s with
    | Some i => i = tx_to_agent s /\ i ∉ attached st
    | None => tx_to_agent s ∈ attached st /\ (tx_to_agent s, key) ∈ users st
    end;
  tk_slot_inj : forall k1 k2 s1 s2, sessions st !! k1 = Some s1 -> sessions st !! k2 = Some s2 ->
    tx_to_agent s1 = tx_to_agent s2 -> k1 = k2;
  tk_relay : forall i c, to_agent st !! i = Some c \/ to_user st !! i = Some c ->
    rl_sent c = rl_out c ++ rl_queue c /\ (length (rl_queue c) <= TERMINAL_CHANNEL_BUFFER_SIZE)%nat;
  tk_agents : forall i, is_Some (agents st !! i) -> is_Some (to_agent st !! i);
}.

Lemma empty_ok : terminal_ok empty_terminal.
Proof using.
  split; simpl.
  - constructor.
  - by intros i [key ?%not_elem_of_nil].
  - split; intros i; [set_solver|rewrite lookup_empty; by intros [? ?]].
  - intros key s. by rewrite lookup_empty.
  - intros k1 k2 s1 s2. by rewrite lookup_empty.
  - intros i c. rewrite !lookup_empty. by intros [?|?].
  - intros i. rewrite lookup_empty. by intros [? ?].
Qed.

Lemma agent_insert_ok key token i st st' :
  agent_insert key token st = Some (i, st') -> terminal_ok st -> terminal_ok st'.
Proof using.
  unfold agent_insert. destruct (sessions st !! key) eqn:E; [done|]. intros [= <- <-].
  intros [H1 H2 [H3 H3'] H4 H5 H6 H7]. split; simpl.
  - done.
  - intros i [k Hk]. apply H2. by exists k.
  - split; intros i; [intros Hi%H3; lia|]. destruct (decide (i = next_session st)) as [->|]; [lia|].
    rewrite lookup_insert_ne by done. intros Hi%H3'. lia.
  - intros k s [(<- & <-)|(_ & Hs)]%lookup_insert_Some; simpl.
    + split_and!; [lia|done|]. intros Hi%H3. lia.
    + destruct (H4 k s Hs) as [Hlt Hrx]. split; [lia|done].
  - intros k1 k2 s1 s2 [(<- & <-)|(_ & Hs1)]%lookup_insert_Some [(<- & <-)|(_ & Hs2)]%lookup_insert_Some; simpl.
    + done.
    + destruct (H4 k2 s2 Hs2). lia.
    + destruct (H4 k1 s1 Hs1). lia.
    + eauto.
  - intros i c [[(_ & <-)|(_ & Hc)]%lookup_insert_Some|[(_ & <-)|(_ & Hc)]%lookup_insert_Some];
      [simpl; split; [done|lia]|by apply (H6 i); left|simpl; split; [done|lia]|by apply (H6 i); right].
  - intros i. destruct (decide (i = next_session st)) as [->|]; [by rewrite !lookup_insert_eq|].
    rewrite !lookup_insert_ne by done. apply H7.
Qed.

Lemma user_take_ok key r st st' : user_take key st = (r, st') -> terminal_ok st -> terminal_ok st'.
Proof using.
  unfold user_take. destruct (sessions st !! key) as [sl|] eqn:E; [|by intros [= <- <-]].
  destruct (rx_from_agent sl) as [rx|] eqn:Erx; [|by intros [= <- <-]]. intros [= <- <-].
  intros [H1 H2 [H3 H3'] H4 H5 H6 H7]. destruct (H4 key sl E) as [Hlt Hrx]. rewrite Erx in Hrx. destruct Hrx as [-> Hna].
  split; simpl.
  - constructor; [|done]. intros ([i k] & Hi & Hin)%list_elem_of_In%in_map_iff. simpl in Hi. subst i.
    apply Hna, H2. exists k. by apply list_elem_of_In.
  - intros i [k [[= <- <-]|Hk]%elem_of_cons]; [set_solver|]. apply elem_of_union_r, H2. by exists k.
  - split; [|done]. intros i [->%elem_of_singleton|Hi]%elem_of_union; [done|auto].
  - intros k s [(<- & <-)|(Hne & Hs)]%lookup_insert_Some; simpl.
    + split_and!; [done|set_solver|by left].
    + destruct (H4 k s Hs) as [Hl Hr]. split; [done|]. destruct (rx_from_agent s) as [i|].
      * destruct Hr as [-> Hni]. split; [done|]. intros [Hi%elem_of_singleton|Hi]%elem_of_union; [|done].
        apply Hne. by apply (H5 key k sl s).
      * destruct Hr as [Ha Hu]. split; [by apply elem_of_union_r|by right].
  - intros k1 k2 s1 s2 [(<- & <-)|(_ & Hs1)]%lookup_insert_Some [(<- & <-)|(_ & Hs2)]%lookup_insert_Some Heq; simpl in *.
    + done.
    + by eapply H5.
    + by eapply H5.
    + eauto.
  - done.
  - done.
Qed.

Lemma relay_get_ok (c : Relay) m q :
  rl_sent c = rl_out c ++ rl_queue c -> rl_queue c = m :: q -> rl_sent c = (rl_out c ++ [m]) ++ q.
Proof using. intros -> ->. by rewrite <-app_assoc. Qed.

(** Replacing one channel by one in good order. *)
Lemma with_relays_ok a u st :
  terminal_ok st ->
  (forall i c, a !! i = Some c \/ u !! i = Some c ->
     rl_sent c = rl_out c ++ rl_queue c /\ (length (rl_queue c) <= TERMINAL_CHANNEL_BUFFER_SIZE)%nat) ->
  (forall i, is_Some (to_agent st !! i) -> is_Some (a !! i)) -> terminal_ok (with_relays a u st).
Proof using. intros [H1 H2 H3 H4 H5 H6 H7] Hr Ha. split; simpl; auto. Qed.

Lemma relay_insert_ok st i c (a u : gmap nat Relay) :
  terminal_ok st ->
  rl_sent c = rl_out c ++ rl_queue c -> (length (rl_queue c) <= TERMINAL_CHANNEL_BUFFER_SIZE)%nat ->
  (a = <[i := c]> (to_agent st) /\ u = to_user st) \/ (a = to_agent st /\ u = <[i := c]> (to_user st)) ->
  terminal_ok (with_relays a u st).
Proof using.
  intros Hok Hs Hl Hau. pose proof (tk_relay st Hok) as Hr. apply with_relays_ok; [done| |].
  - intros j d Hd. destruct Hau as [[-> ->]|[-> ->]]; destruct Hd as [Hd|Hd]; try (apply (Hr j); by auto);
      apply lookup_insert_Some in Hd as [(_ & <-)|(_ & Hd)]; auto; apply (Hr j); auto.
  - intros j Hj. destruct Hau as [[-> _]|[-> _]]; [|done]. apply lookup_insert_is_Some'. auto.
Qed.

Lemma terminal_step_ok st st' : terminal_step st st' -> terminal_ok st -> terminal_ok st'.
Proof using.
  intros Hst Hok. pose proof (tk_relay st Hok) as Hr.
  destruct Hst as [key token i st st' H|key r st st' H|i key m c st Ha Hrx Hc Hl|i key m c st Hu Ha Hc Hl
    |i key m q c st Ha Hc Hq|i key m q c st Hu Hc Hq|i key st Ha|i key l1 l2 st Hu].
  - by eapply agent_insert_ok.
  - by eapply user_take_ok.
  - destruct (Hr i c (or_intror Hc)) as [Hs _]. eapply (relay_insert_ok st i (relay_put m c)); [done| | |by right].
    + simpl. rewrite Hs. by rewrite app_assoc.
    + simpl. rewrite length_app. simpl. lia.
  - destruct (Hr i c (or_introl Hc)) as [Hs _]. eapply (relay_insert_ok st i (relay_put m c)); [done| | |by left].
    + simpl. rewrite Hs. by rewrite app_assoc.
    + simpl. rewrite length_app. simpl. lia.
  - destruct (Hr i c (or_introl Hc)) as [Hs Hle]. eapply (relay_insert_ok st i); [done| | |by left]; simpl.
    + by eapply relay_get_ok.
    + rewrite Hq in Hle. simpl in Hle. lia.
  - destruct (Hr i c (or_intror Hc)) as [Hs Hle]. eapply (relay_insert_ok st i); [done| | |by right]; simpl.
    + by eapply relay_get_ok.
    + rewrite Hq in Hle. simpl in Hle. lia.
  - destruct Hok as [H1 H2 [H3 H3'] H4 H5 H6 H7]. split; simpl; try done.
    + split; [done|]. intros j [x [_ Hx]%lookup_delete_Some]. apply H3'. by exists x.
    + intros k s [_ Hs]%lookup_delete_Some. by apply H4.
    + intros k1 k2 s1 s2 [_ Hs1]%lookup_delete_Some [_ Hs2]%lookup_delete_Some. eauto.
    + intros j [x [_ Hx]%lookup_delete_Some]. apply H7. by exists x.
  - destruct Hok as [H1 H2 [H3 H3'] H4 H5 H6 H7]. rewrite Hu in H1.
    assert (forall x, x ∈ l1 ++ l2 -> x ∈ users st) as Hsub.
    { intros x. rewrite Hu, !elem_of_app, elem_of_cons. naive_solver. }
    rewrite map_app in H1. simpl in H1. rewrite <-Permutation_middle in H1. apply NoDup_cons in H1 as [Hn H1].
    split; simpl; try done.
    + by rewrite map_app.
    + intros j [k Hk]. apply H2. exists k. by apply Hsub.
    + intros k s [Hne Hs]%lookup_delete_Some. destruct (H4 k s Hs) as [Hlt Hrx]. split; [done|].
      destruct (rx_from_agent s); [done|]. destruct Hrx as [Ha Hin]. split; [done|].
      rewrite Hu, elem_of_app, elem_of_cons in Hin. rewrite elem_of_app.
      destruct Hin as [?|[[= _ ->]|?]]; [auto|done|auto].
    + intros k1 k2 s1 s2 [_ Hs1]%lookup_delete_Some [_ Hs2]%lookup_delete_Some. eauto.
Qed.

Lemma terminal_run_ok st st' : rtc terminal_step st st' -> terminal_ok st -> terminal_ok st'.
Proof using. induction 1; [done|]. eauto using terminal_step_ok. Qed.

(** ** Guarantees *)

(** at any moment a session has at most one attached user, and a user is turned away as
    already attached only while another user really is attached to that session. *)
Theorem one_user_per_session st :
  rtc terminal_step empty_terminal st ->
  NoDup (map fst (users st)) /\
  (forall key st', user_take key st = (AlreadyAttached, st') ->
     exists i s, sessions st !! key = Some s /\ tx_to_agent s = i /\ (i, key) ∈ users st).
Proof using.
  intros Hrun. destruct (terminal_run_ok _ _ Hrun empty_ok) as [H1 _ _ H4 _ _ _]. split; [done|].
  intros key st'. unfold user_take. destruct (sessions st !! key) as [s|] eqn:E; [|done].
  destruct (rx_from_agent s) eqn:Er; [done|]. intros _. destruct (H4 key s E) as [_ Hs]. rewrite Er in Hs.
  exists (tx_to_agent s), s. by destruct Hs.
Qed.

(** the relay neither loses nor reorders: in both directions what has been delivered,
    followed by what is queued, is exactly what was sent, and at most 4096 messages wait. *)
Theorem relay_in_order st i c :
  rtc terminal_step empty_terminal st -> to_agent st !! i = Some c \/ to_user st !! i = Some c ->
  rl_sent c = rl_out c ++ rl_queue c /\ (length (rl_queue c) <= TERMINAL_CHANNEL_BUFFER_SIZE)%nat.
Proof using. intros Hrun. apply (tk_relay st (terminal_run_ok _ _ Hrun empty_ok)). Qed.

(** A session whose user has come and gone. *)
Definition user_left (i : nat) (st : TerminalState) : Prop := i ∈ attached st /\ ~ user_on i st.

Lemma user_left_no_senders i st : terminal_ok st -> user_left i st -> no_senders i st.
Proof using.
  intros Hok [Ha Hu]. split; [|done]. intros (key & s & Hs & Hi).
  destruct (tk_slot st Hok key s Hs) as [_ Hr]. destruct (rx_from_agent s).
  - destruct Hr as [-> Hn]. by subst.
  - destruct Hr as [_ Hr]. apply Hu. exists key. by subst.
Qed.

(** The number of messages the agent still has to be sent. *)
Definition backlog (i : nat) (st : TerminalState) : nat :=
  match to_agent st !! i with Some c => length (rl_queue c) | None => 0 end.

(** A user that has left stays gone, and nothing is added for the agent. *)
Lemma user_left_step i st st' :
  terminal_ok st -> terminal_step st st' -> (i < next_session st)%nat -> user_left i st ->
  user_left i st' /\ (backlog i st' <= backlog i st)%nat /\ (i < next_session st')%nat.
Proof using.
  intros Hok Hst Hlt [Ha Hu]. unfold user_left, backlog, user_on in *.
  destruct Hst as [key token j st st' H|key r st st' H|j key m c st Hj Hrx Hc Hl|j key m c st Hus Hj Hc Hl
    |j key m q c st Hj Hc Hq|j key m q c st Hus Hc Hq|j key st Hj|j key l1 l2 st Hus]; simpl.
  - unfold agent_insert in H. destruct (sessions st !! key); [done|]. injection H as <- <-. simpl.
    rewrite lookup_insert_ne by lia. split_and!; [done|done|lia|lia].
  - unfold user_take in H. destruct (sessions st !! key) as [s|] eqn:E; [|by injection H as <- <-].
    destruct (rx_from_agent s) as [rx|] eqn:Er; [|by injection H as <- <-]. injection H as <- <-. simpl.
    split_and!; [set_solver| |lia|done]. intros [k [[= -> ->]|Hk]%elem_of_cons]; [|by eauto].
    destruct (tk_slot st Hok key s E) as [_ Hr]. rewrite Er in Hr. by destruct Hr as [_ ?].
  - by split_and!.
  - split_and!; [done|done| |done]. destruct (decide (i = j)) as [->|Hne]; [exfalso; eauto|].
    by rewrite lookup_insert_ne.
  - split_and!; [done|done| |done]. destruct (decide (i = j)) as [->|Hne]; [|by rewrite lookup_insert_ne].
    rewrite lookup_insert_eq, Hc, Hq. simpl. lia.
  - by split_and!.
  - by split_and!.
  - split_and!; [done| |done|done]. intros [k Hk]. apply Hu. exists k. rewrite Hus, elem_of_app, elem_of_cons.
    apply elem_of_app in Hk. naive_solver.
Qed.

Lemma user_left_run i st st' :
  terminal_ok st -> rtc terminal_step st st' -> (i < next_session st)%nat -> user_left i st ->
  user_left i st' /\ (backlog i st' <= backlog i st)%nat.
Proof using.
  intros Hok Hrun. induction Hrun as [|x y z Hst Hrun IH]; [done|]. intros Hlt Hl.
  destruct (user_left_step i x y Hok Hst Hlt Hl) as (Hl' & Hb & Hlt').
  destruct (IH (terminal_step_ok _ _ Hst Hok) Hlt' Hl') as [? ?]. split; [done|lia].
Qed.

(** The agent's forwarding task works off the backlog. *)
Lemma agent_drains n : forall i key st,
  terminal_ok st -> agents st !! i = Some key -> backlog i st = n -> user_left i st ->
  exists st', rtc terminal_step st st' /\ agents st' !! i = Some key /\ backlog i st' = 0%nat /\ user_left i st'.
Proof using.
  induction n as [|n IH]; intros i key st Hok Ha Hb Hl; [by exists st; split_and!|].
  unfold backlog in Hb. destruct (to_agent st !! i) as [c|] eqn:Hc; [|done].
  destruct (rl_queue c) as [|m q] eqn:Hq; [done|].
  pose proof (agent_gets i key m q c st Ha Hc Hq) as Hst.
  edestruct (IH i key) as (st' & Hrun & Ha' & Hb' & Hl'); [by eapply terminal_step_ok|exact Ha| | |].
  - unfold backlog. simpl. rewrite lookup_insert_eq. simpl. simpl in Hb. lia.
  - exact Hl.
  - exists st'. split_and!; [by eapply rtc_l|done|done|done].
Qed.

(** once the user of a session has left, the agent's side comes to an end by itself: no
    sender is left, the backlog never grows again whatever else happens, and after it has been
    worked off the receiving task finds its channel closed, which ends the handler. *)
Theorem agent_side_ends st i key :
  rtc terminal_step empty_terminal st -> agents st !! i = Some key -> user_left i st ->
  (forall st', rtc terminal_step st st' -> no_senders i st' /\ (backlog i st' <= backlog i st)%nat) /\
  (exists st', rtc terminal_step st st' /\ agents st' !! i = Some key /\ agent_recv_ended i st').
Proof using.
  intros Hrun Ha Hl. pose proof (terminal_run_ok _ _ Hrun empty_ok) as Hok.
  assert (i < next_session st)%nat as Hlt by (apply (tk_fresh st Hok); by eexists).
  split.
  - intros st' Hrun'. destruct (user_left_run i st st' Hok Hrun' Hlt Hl) as [Hl' Hb]. split; [|done].
    apply user_left_no_senders; [by eapply terminal_run_ok|done].
  - destruct (agent_drains _ i key st Hok Ha eq_refl Hl) as (st' & Hrun' & Ha' & Hb' & Hl').
    exists st'. split_and!; [done|done|]. pose proof (terminal_run_ok _ _ Hrun' Hok) as Hok'. split.
    + destruct (tk_agents st' Hok' i) as [c Hc]; [by eexists|]. exists c. split; [done|].
      unfold backlog in Hb'. rewrite Hc in Hb'. by apply nil_length_inv.
    + by apply user_left_no_senders.
Qed.

(** ** Whose relay it is *)

(** The session under a key belongs to the running [handle_agent] of that key. *)
Definition served (st : TerminalState) : Prop :=
  forall key s, sessions st !! key = Some s -> agents st !! tx_to_agent s = Some key.

Lemma served_step st st' : terminal_step st st' -> terminal_ok st -> served st -> served st'.
Proof using.
  intros Hst Hok Hs. destruct Hst as [key token j st st' H|key r st st' H| | | | |j key st Hj|j key l1 l2 st Hus];
    try exact Hs; intros k s; simpl.
  - unfold agent_insert in H. destruct (sessions st !! key); [done|]. injection H as <- <-. simpl.
    intros [(<- & <-)|(_ & Hk)]%lookup_insert_Some; simpl; [by rewrite lookup_insert_eq|].
    destruct (tk_slot st Hok k s Hk) as [Hlt _]. rewrite lookup_insert_ne by lia. by apply Hs.
  - unfold user_take in H. destruct (sessions st !! key) as [sl|] eqn:E; [|injection H as <- <-; apply Hs].
    destruct (rx_from_agent sl); injection H as <- <-; [|apply Hs]. simpl.
    intros [(<- & <-)|(_ & Hk)]%lookup_insert_Some; simpl; by apply Hs.
  - intros [Hne Hk%Hs]%lookup_delete_Some. rewrite lookup_delete_ne; [done|]. intros ->. congruence.
  - intros [_ Hk%Hs]%lookup_delete_Some. done.
Qed.

(** Relay [i] is that of [key]: nobody else sends to it, receives from it or can be given it. *)
Definition relay_of (i : nat) (key : TerminalSessionKey) (st : TerminalState) : Prop :=
  (i < next_session st)%nat /\ (forall k, agents st !! i = Some k -> k = key) /\ (forall k, (i, k) ∈ users st -> k = key) /\
  (forall k s, sessions st !! k = Some s -> tx_to_agent s = i -> k = key).

Lemma relay_of_step i key st st' : terminal_step st st' -> terminal_ok st -> relay_of i key st -> relay_of i key st'.
Proof using.
  intros Hst Hok (Hlt & Ha & Hu & Hs).
  destruct Hst as [k token j st st' H|k r st st' H| | | | |j k st Hj|j k l1 l2 st Hus]; try (by split_and!); unfold relay_of; simpl.
  - unfold agent_insert in H. destruct (sessions st !! k); [done|]. injection H as <- <-. simpl.
    rewrite lookup_insert_ne by lia. split_and!; [lia|done|done|].
    intros k' s [(<- & <-)|(_ & Hk)]%lookup_insert_Some; simpl; [lia|by eapply Hs].
  - unfold user_take in H. destruct (sessions st !! k) as [sl|] eqn:E; [|by injection H as <- <-].
    destruct (rx_from_agent sl) as [rx|] eqn:Er; injection H as <- <-; [|by split_and!]. simpl.
    destruct (tk_slot st Hok k sl E) as [_ Hr]. rewrite Er in Hr. destruct Hr as [-> _]. split_and!; [done|done| |].
    + intros k' [[= -> ->]|Hk]%elem_of_cons; [by eapply Hs|by apply Hu].
    + intros k' s [(<- & <-)|(_ & Hk)]%lookup_insert_Some; simpl; [by apply Hs|by eapply Hs].
  - split_and!; [done| |done|]; [intros k' [_ Hk]%lookup_delete_Some; by apply Ha|].
    intros k' s [_ Hk]%lookup_delete_Some. by eapply Hs.
  - split_and!; [done|done| |].
    + intros k' Hk. apply Hu. rewrite Hus. set_solver.
    + intros k' s [_ Hk]%lookup_delete_Some. by eapply Hs.
Qed.

Lemma relay_of_run i key st st' : rtc terminal_step st st' -> terminal_ok st -> relay_of i key st -> relay_of i key st'.
Proof using. induction 1; [done|]. eauto using terminal_step_ok, relay_of_step. Qed.

Lemma served_run st : rtc terminal_step empty_terminal st -> served st.
Proof using.
  assert (served empty_terminal) as H0 by (intros k s; simpl; by rewrite lookup_empty).
  intros Hrun. pose proof empty_ok as Hok. revert Hok H0. induction Hrun; [done|]. eauto using terminal_step_ok, served_step.
Qed.

(** A new session is the agent's own, with a relay nobody has used. *)
Lemma agent_insert_spec key token i st st' : rtc terminal_step empty_terminal st -> agent_insert key token st = Some (i, st') ->
  agents st !! i = None /\ sessions st !! key = None /\
  sessions st' = <[key := {| tx_to_agent := i; rx_from_agent := Some i; sl_task_token := token |}]> (sessions st) /\
  agents st' = <[i := key]> (agents st) /\ users st' = users st /\
  to_agent st' !! i = Some empty_relay /\ to_user st' !! i = Some empty_relay /\ relay_of i key st'.
Proof using.
  intros Hrun H. pose proof (terminal_run_ok _ _ Hrun empty_ok) as Hok. unfold agent_insert in H.
  destruct (sessions st !! key) eqn:E; [done|]. injection H as <- <-. destruct (tk_fresh st Hok) as [Hf Hf'].
  unfold relay_of. simpl. rewrite !lookup_insert_eq. split_and!; try done.
  - destruct (agents st !! next_session st) eqn:Ea; [|done]. specialize (Hf' (next_session st)). rewrite Ea in Hf'.
    specialize (Hf' (ex_intro _ _ eq_refl)). lia.
  - lia.
  - by intros k [= ->].
  - intros k Hk. specialize (Hf (next_session st) (tk_attached st Hok _ (ex_intro _ k Hk))). lia.
  - intros k s [(<- & <-)|(_ & Hk)]%lookup_insert_Some Heq; [done|]. destruct (tk_slot st Hok k s Hk). lia.
Qed.

(** A user gets the relay of the running handler of that very key, which had no user. *)
Lemma user_take_spec key i st st' : rtc terminal_step empty_terminal st -> user_take key st = (Got i, st') ->
  (exists token, sessions st !! key = Some {| tx_to_agent := i; rx_from_agent := Some i; sl_task_token := token |} /\
     sessions st' = <[key := {| tx_to_agent := i; rx_from_agent := None; sl_task_token := token |}]> (sessions st)) /\
  agents st !! i = Some key /\ ~ user_on i st /\ agents st' = agents st /\ users st' = (i, key) :: users st /\
  to_agent st' = to_agent st /\ to_user st' = to_user st /\ relay_of i key st'.
Proof using.
  intros Hrun H. pose proof (terminal_run_ok _ _ Hrun empty_ok) as Hok. pose proof (served_run st Hrun) as Hs. unfold user_take in H.
  destruct (sessions st !! key) as [sl|] eqn:E; [|done]. destruct (rx_from_agent sl) as [rx|] eqn:Er; [|done]. injection H as <- <-.
  destruct (tk_slot st Hok key sl E) as [Hlt Hr]. rewrite Er in Hr. destruct Hr as [-> Hna]. pose proof (Hs key sl E) as Ha.
  assert (~ user_on (tx_to_agent sl) st) as Hno by (intros Hu%(tk_attached st Hok); done).
  unfold relay_of. simpl. split_and!; try done.
  - exists (sl_task_token sl). split; [|done]. f_equal. destruct sl; simpl in *. by subst.
  - intros k Hk. congruence.
  - intros k [[= ->]|Hk]%elem_of_cons; [done|]. destruct Hno. by exists k.
  - intros k s [(<- & <-)|(_ & Hk)]%lookup_insert_Some Heq; [done|]. by eapply (tk_slot_inj st Hok k key s sl).
Qed.
End terminal.
Arguments empty_terminal {Message}. Arguments empty_relay {Message}. Arguments agent_insert {Message}.
Arguments user_take {Message}. Arguments terminal_step {Message}. Arguments users {Message}.
Arguments agents {Message}. Arguments sessions {Message}. Arguments to_agent {Message}.
Arguments to_user {Message}. Arguments agent_cleanup {Message}. Arguments user_cleanup {Message}.
Arguments no_senders {Message}. Arguments agent_recv_ended {Message}.

(** ** Admission *)

Inductive Connection : Type :=
| ConnRejected (err : ErrorObject)     (** an error message is sent, then the socket closes *)
| ConnClosed                           (** the socket closes without a message *)
| AgentRelay (i : nat)
| UserRelay (i : nat).

Section admission.
Context {DB U : Type} {ops : TableOps DB TaskModel} {serde : TaskSerde} {Message : Type}.
(** [impl Display for Uuid] and [Uuid::parse_str]. *)
Variables (uuid_display : Uuid -> string) (parse_uuid : string -> option Uuid).
Variable e : Env.

Record TermWorld : Type := { tm_tasks : TaskWorld DB U; tm_state : TerminalState Message }.

Definition bad_uuid : anyhow := OfNodeget (ParseError "Invalid Agent UUID format").

Definition agent_task_matches (uuid : Uuid) (token : string) (task_id : Z) (m : TaskModel) : bool :=
  (t_id m =? cast_signed64 task_id)%Z && bool_decide (t_uuid m = uuid) && String.eqb (t_token m) token
  && bool_decide (t_task_event_result m = None).

Definition check_agent (agent_uuid task_token : string) (task_id : Z) : Tm (DB := DB) (U := U) bool :=
  let! uuid := lift (ok_or bad_uuid (parse_uuid agent_uuid)) in
  let! _ := get_task_db in
  let! found := task_stmt "Database error: " (find_one (agent_task_matches uuid task_token task_id)) in
  match found with
  | None => mret false
  | Some task_model =>
      let! ty := lift (map_err (fun m => OfNodeget (SerializationError ("Failed to parse task_event_type: " +:+ m)))
                         (task_type_from_value (t_task_event_type task_model))) in
      match ty with
      | WebShell _ => mret true
      | _ => mfail (OfNodeget (PermissionDenied "Terminal connection is only allowed for WebShell tasks"))
      end
  end.

Definition check_terminal_connect_permission (token agent_uuid : string) : result anyhow unit :=
  let? uuid := ok_or bad_uuid (parse_uuid agent_uuid) in
  let? token_or_auth := parse_token token in
  let? checker := require_permission_checker e in
  let? has_agent_permission :=
    pc_check_token_limit checker token_or_auth [Scope_AgentUuid uuid] [P_Terminal Terminal_Connect] in
  if (has_agent_permission : bool) then Ok tt else
  let? has_global_permission :=
    pc_check_token_limit checker token_or_auth [Scope_Global] [P_Terminal Terminal_Connect] in
  if (has_global_permission : bool) then Ok tt else
  denied ("No terminal connect permission for agent '" +:+ uuid_display uuid +:+ "'").

Definition reject (c : Z) (m : string) : Connection := ConnRejected {| code := c; message := m |}.

Definition handle_agent (agent_uuid : string) (terminal_id : Uuid) (task_token : string) (id : Z) (w : TermWorld) :
    TermWorld * Connection :=
  match check_agent agent_uuid task_token id (tm_tasks w) with
  | (t, Err err) =>
      let nodeget_err := anyhow_to_nodeget_error err in
      ({| tm_tasks := t; tm_state := tm_state w |}, reject (error_code nodeget_err) (display nodeget_err))
  | (t, Ok false) =>
      ({| tm_tasks := t; tm_state := tm_state w |}, reject 102 "Permission Denied: Invalid Task Token or ID")
  | (t, Ok true) =>
      match parse_uuid agent_uuid with
      | None => ({| tm_tasks := t; tm_state := tm_state w |}, reject 108 "Invalid Agent UUID format")
      | Some uuid =>
          match agent_insert (uuid, terminal_id) task_token (tm_state w) with
          | None => ({| tm_tasks := t; tm_state := tm_state w |},
                     reject 108 ("Invalid Input: terminal_id '" +:+ uuid_display terminal_id +:+
                                 "' is already active for this agent"))
          | Some (i, st) => ({| tm_tasks := t; tm_state := st |}, AgentRelay i)
          end
      end
  end.

Definition handle_user (agent_uuid : string) (terminal_id : option Uuid) (token : option string) (w : TermWorld) :
    TermWorld * Connection :=
  match terminal_id with
  | None => (w, reject 108 "Invalid Input: Missing terminal_id for user terminal connection")
  | Some terminal_id =>
      match token with
      | None => (w, reject 108 "Invalid Input: Missing token for user terminal connection")
      | Some token =>
          match check_terminal_connect_permission token agent_uuid with
          | Err _ => (w, reject 102 "Permission Denied: Terminal connection permission denied")
          | Ok _ =>
              match parse_uuid agent_uuid with
              | None => (w, ConnClosed)
              | Some uuid =>
                  match user_take (uuid, terminal_id) (tm_state w) with
                  | (Got i, st) => ({| tm_tasks := tm_tasks w; tm_state := st |}, UserRelay i)
                  | (AlreadyAttached, _) => (w, reject 108 "Terminal session already has an attached user")
                  | (SessionNotFound, _) => (w, reject 108 "Terminal session not found")
                  end
              end
          end
      end
  end.

Definition handle_socket (params : TerminalParams) (w : TermWorld) : TermWorld * Connection :=
  match p_task_token params, p_task_id params with
  | Some task_token, Some id =>
      match p_terminal_id params with
      | Some terminal_id => handle_agent (p_agent_uuid params) terminal_id task_token id w
      | None => (w, reject 108 "Invalid Input: Missing terminal_id for agent terminal connection")
      end
  | _, _ => handle_user (p_agent_uuid params) (p_terminal_id params) (p_token params) w
  end.

Context {laws : TableLaws ops task_conflict}.

Lemma check_agent_run agent_uuid token id (w w' : TaskWorld DB U) r :
  check_agent agent_uuid token id w = (w', r) ->
  task_rows w' = task_rows w /\
  (r = Ok true -> exists uuid x shell, parse_uuid agent_uuid = Some uuid /\ x ∈ task_rows w /\
     agent_task_matches uuid token id x = true /\ task_type_from_value (t_task_event_type x) = Ok (WebShell shell)).
Proof using laws.
  unfold check_agent. rewrite mbind_lift. destruct (parse_uuid agent_uuid) as [uuid|]; cbn [ok_or]; [|by intros [= <- <-]].
  rewrite mbind_run. unfold get_task_db. destruct (tw_db w) as [d|] eqn:Ed; [|by intros [= <- <-]].
  rewrite mbind_run. destruct (task_stmt _ _ w) as [w1 r1] eqn:E1.
  apply task_stmt_run in E1 as [(_ & Hn & _)|(d0 & d1 & r0 & Hd & Hf & -> & ->)]; [congruence|].
  rewrite Ed in Hd. injection Hd as <-. pose proof (find_one_rows _ _ _ _ Hf) as Hr.
  assert (task_rows w = rows d) as Hw by (unfold task_rows; by rewrite Ed).
  assert (task_rows {| tw_db := Some d1; tw_manager := tw_manager w; tw_uuid := tw_uuid w |} = task_rows w) as Hs
    by (unfold task_rows at 1; simpl; congruence).
  destruct r0 as [[x|]|err]; cbn [map_err]; [|by intros [= <- <-]..].
  apply find_one_some in Hf as [Hx Hm]. rewrite mbind_lift.
  destruct (task_type_from_value _) as [ty|] eqn:Et; cbn [map_err]; [|by intros [= <- <-]].
  destruct ty; intros [= <- <-]; (split; [done|]); try done.
  intros _. exists uuid, x, t. rewrite Hw. by split_and!.
Qed.

(** The agent, if there is one, with that token of a task of its own. *)
Definition shell_task_of (uuid : Uuid) (params : TerminalParams) (w : TermWorld) (token : string) : Prop :=
  exists x shell id, p_task_token params = Some token /\ p_task_id params = Some id /\
    x ∈ task_rows (tm_tasks w) /\ agent_task_matches uuid token id x = true /\
    task_type_from_value (t_task_event_type x) = Ok (WebShell shell).

Definition may_connect (uuid : Uuid) (params : TerminalParams) : Prop :=
  exists t checker token, p_token params = Some token /\ parse_token token = Ok t /\ PERMISSION_CHECKER e = Some checker /\
    exists scope, (scope = Scope_AgentUuid uuid \/ scope = Scope_Global) /\
      pc_check_token_limit checker t [scope] [P_Terminal Terminal_Connect] = Ok true.

Lemma connect_permission token agent_uuid params :
  p_token params = Some token -> check_terminal_connect_permission token agent_uuid = Ok tt ->
  exists uuid, parse_uuid agent_uuid = Some uuid /\ may_connect uuid params.
Proof using.
  intros Ht Ec. unfold check_terminal_connect_permission in Ec. apply rbind_ok in Ec as (uuid & Ep%ok_or_ok & Ec).
  apply rbind_ok in Ec as (t & Et & Ec). apply rbind_ok in Ec as (checker & Ek%ok_or_ok & Ec).
  exists uuid. split; [done|]. exists t, checker, token. split_and!; [done..|].
  apply rbind_ok in Ec as ([] & E1 & Ec); [exists (Scope_AgentUuid uuid); auto|].
  apply rbind_ok in Ec as ([] & E2 & Ec); [exists Scope_Global; auto|done].
Qed.

(** What a request leaves behind: nothing; a new session under the key of the request; or the session
    under that key, with its user. *)
Definition admitted (params : TerminalParams) (w w' : TermWorld) (r : Connection) : Prop :=
  let st := tm_state w in let st' := tm_state w' in
  match r with
  | AgentRelay i => exists uuid tid token, parse_uuid (p_agent_uuid params) = Some uuid /\ p_terminal_id params = Some tid /\
      shell_task_of uuid params w token /\ agent_insert (uuid, tid) token st = Some (i, st')
  | UserRelay i => exists uuid tid, parse_uuid (p_agent_uuid params) = Some uuid /\ p_terminal_id params = Some tid /\
      may_connect uuid params /\ user_take (uuid, tid) st = (Got i, st')
  | _ => st' = st
  end.

Lemma handle_user_admits params w w' r :
  handle_user (p_agent_uuid params) (p_terminal_id params) (p_token params) w = (w', r) -> admitted params w w' r.
Proof using.
  unfold handle_user, admitted. destruct (p_terminal_id params) as [tid|]; [|by intros [= <- <-]].
  destruct (p_token params) as [token|] eqn:Et; [|by intros [= <- <-]].
  destruct (check_terminal_connect_permission token _) as [[]|] eqn:Ec; [|by intros [= <- <-]].
  apply (connect_permission _ _ params Et) in Ec as (uuid & Ep & Hm). rewrite Ep.
  destruct (user_take _ _) as [[i| |] st] eqn:Eu; intros [= <- <-]; [|done..]. by exists uuid, tid.
Qed.

Lemma handle_socket_admits params w w' r : handle_socket params w = (w', r) -> admitted params w w' r.
Proof using laws.
  unfold handle_socket. destruct (p_task_token params) as [token|] eqn:Et; [|apply handle_user_admits].
  destruct (p_task_id params) as [id|] eqn:Ei; [|apply handle_user_admits].
  destruct (p_terminal_id params) as [tid|] eqn:Ed; [|by intros [= <- <-]].
  unfold handle_agent. destruct (check_agent _ _ _ _) as [t rc] eqn:Ec. apply check_agent_run in Ec as [_ Hc].
  destruct rc as [[]|err]; [|by intros [= <- <-]..].
  destruct (Hc eq_refl) as (uuid & x & shell & Hp & Hx & Hm & Hty). rewrite Hp.
  destruct (agent_insert _ _ _) as [[i st]|] eqn:Ea; intros [= <- <-]; [|done].
  exists uuid, tid, token. split_and!; [done..| |done]. by exists x, shell, id.
Qed.

End admission.

(** ** Examples *)

Definition shell_key : TerminalSessionKey := (7%N, 70%N).

(** An agent connects, a user attaches, types, and leaves. *)
Definition t_connected : TerminalState nat := from_option snd empty_terminal (agent_insert shell_key "t" empty_terminal).
Definition t_attached : TerminalState nat := (user_take shell_key t_connected).2.
Definition t_typed : TerminalState nat :=
  with_relays nat (<[0%nat := relay_put nat 42%nat empty_relay]> (to_agent t_attached)) (to_user t_attached) t_attached.
Definition t_left : TerminalState nat := user_cleanup shell_key [] t_typed.

Lemma t_attached_run : rtc terminal_step empty_terminal t_attached.
Proof.
  eapply rtc_l; [by apply (agent_connects nat shell_key "t" 0%nat empty_terminal t_connected)|].
  eapply rtc_once. by apply (user_connects nat shell_key (Got 0%nat)).
Qed.

Lemma t_typed_run : rtc terminal_step empty_terminal t_typed.
Proof.
  eapply rtc_r; [exact t_attached_run|].
  apply (user_says nat 0%nat shell_key 42%nat empty_relay t_attached); [by left|by eexists|done|].
  simpl. unfold TERMINAL_CHANNEL_BUFFER_SIZE. lia.
Qed.

Lemma t_left_run : rtc terminal_step empty_terminal t_left.
Proof. eapply rtc_r; [exact t_typed_run|]. by apply (user_ends nat 0%nat shell_key [] []). Qed.

Lemma one_user_per_session_witness :
  exists i s, sessions t_attached !! shell_key = Some s /\ tx_to_agent s = i /\ (i, shell_key) ∈ users t_attached.
Proof. apply (proj2 (one_user_per_session nat t_attached t_attached_run) shell_key t_attached). reflexivity. Defined.

Lemma relay_in_order_witness :
  exists c, to_agent t_typed !! 0%nat = Some c /\ rl_sent nat c = rl_out nat c ++ rl_queue nat c.
Proof.
  eexists. split; [reflexivity|].
  apply (relay_in_order nat t_typed 0%nat _ t_typed_run). left. reflexivity.
Defined.

Lemma agent_side_ends_witness :
  exists st', rtc terminal_step t_left st' /\ agents st' !! 0%nat = Some shell_key /\ agent_recv_ended 0%nat st'.
Proof.
  apply (agent_side_ends nat t_left 0%nat shell_key t_left_run eq_refl).
  split; [by vm_compute|]. by intros [k ?%not_elem_of_nil].
Defined.

Definition shell_task : TaskModel := {|
  t_id := 1; t_uuid := 7%N; t_token := "secret"; t_cron_source := None; t_timestamp := None; t_success := None;
  t_error_message := None; t_task_event_type := JString "shell"; t_task_event_result := None; t_created_at := None |}.

#[local] Instance shell_serde : TaskSerde := {|
  task_type_to_value t := Err "unused"%string;
  task_type_from_value v := match v with
    | JString "shell"%string => Ok (WebShell {| ws_url := "wss://host/terminal"; ws_terminal_id := 70%N |})
    | _ => Err "unknown"%string end;
  task_result_to_value r := Err "unused"%string |}.

#[local] Instance shell_table : TableOps (ListTable TaskModel) TaskModel := ListTable_ops task_conflict.
#[local] Instance shell_table_laws : TableLaws shell_table task_conflict := ListTable_laws task_conflict task_conflict_sym.

Definition shell_world : TermWorld (DB := ListTable TaskModel) (U := unit) (Message := nat) := {|
  tm_tasks := {| tw_db := Some {| tbl := [shell_task]; next_id := 2; outages := [] |};
                 tw_manager := new_manager; tw_uuid := None |};
  tm_state := empty_terminal |}.

Definition shell_params : TerminalParams := {|
  p_agent_uuid := "seven"; p_task_id := Some 1%Z; p_task_token := Some "secret"; p_terminal_id := Some 70%N;
  p_token := None |}.

Definition shell_uuid (s : string) : option Uuid := if String.eqb s "seven" then Some 7%N else None.

Definition shell_open : TermWorld (DB := ListTable TaskModel) (U := unit) (Message := nat) :=
  (handle_socket show_uuid shell_uuid sample_env shell_params shell_world).1.

Lemma shell_open_run : rtc terminal_step empty_terminal (tm_state shell_open).
Proof. apply rtc_once. by eapply (agent_connects nat (7%N, 70%N) "secret" 0%nat). Qed.

Definition shell_user : TerminalParams := {|
  p_agent_uuid := "seven"; p_task_id := None; p_task_token := None; p_terminal_id := Some 70%N; p_token := Some "rootkey:rootsecret" |}.


(** The key is removed by whoever ends, whether or not the session under it is its own: when an
    agent reconnects under the same terminal id after its user has left and before its old
    handler has noticed, the old handler's end removes the new session.  The new agent is
    then still running, but no user can find it. *)
Theorem stale_cleanup_removes_new_session :
  exists st, rtc terminal_step (@empty_terminal nat) st /\
    agents st !! 0%nat = Some shell_key /\ agents st !! 1%nat = Some shell_key /\
    (exists s, sessions st !! shell_key = Some s /\ tx_to_agent s = 1%nat) /\
    terminal_step st (agent_cleanup 0%nat shell_key st) /\
    agents (agent_cleanup 0%nat shell_key st) !! 1%nat = Some shell_key /\
    fst (user_take shell_key (agent_cleanup 0%nat shell_key st)) = SessionNotFound.
Proof.
  set (st := from_option snd empty_terminal (agent_insert shell_key "t2" t_left)). exists st.
  split_and!; [|reflexivity|reflexivity|by eexists|by apply (agent_ends nat 0%nat shell_key st)|reflexivity|reflexivity].
  eapply rtc_r; [exact t_left_run|]. by apply (agent_connects nat shell_key "t2" 1%nat t_left st).
Qed.
