(* ===== verification/JsPool.v ===== *)
(** * The JavaScript worker pool

    [ng-js-runtime/src/runtime_pool.rs]: one worker thread per script, fed through a queue of
    256 commands.  The bytecode travels only when the handle does not believe the worker to
    have it already.  QuickJS is not part of the repository: [run] is the value an entry
    point computes, and an [Engine] tells how the engine fares on one command. *)
From stdpp Require Import base strings gmap list numbers relations.
From S2P Require Import Prelude Errors Json.

Definition Bytes : Type := list Z.

Inductive RunType : Type := RunCall | RunCron | RunRoute | RunInlineCall.

Definition run_type_str (r : RunType) : string :=
  match r with
  | RunCall => "call" | RunCron => "cron" | RunRoute => "route" | RunInlineCall => "inline_call"
  end.
Definition handler_name (r : RunType) : string :=
  match r with
  | RunCall => "onCall" | RunCron => "onCron" | RunRoute => "onRoute" | RunInlineCall => "onInlineCall"
  end.

(** ** Limits ([server_runtime.rs]) *)

Definition DEFAULT_MAX_RUN_TIME_MS : Z := 30000.
Definition DEFAULT_MAX_STACK_SIZE_BYTES : Z := 1024 * 1024.
Definition DEFAULT_MAX_HEAP_SIZE_BYTES : Z := 8 * 1024 * 1024.

Record RuntimeLimits : Type := { max_run_time_ms : Z; max_stack_size_bytes : Z; max_heap_size_bytes : Z }.

(** [usize] has 64 bits on the supported targets, so the conversions of positive values succeed. *)
Definition pos_or (v : option Z) (default : Z) : Z :=
  match v with Some n => if (0 <? n)%Z then n else default | None => default end.

Definition from_model (run stack heap : option Z) : RuntimeLimits := {|
  max_run_time_ms := pos_or run DEFAULT_MAX_RUN_TIME_MS;
  max_stack_size_bytes := pos_or stack DEFAULT_MAX_STACK_SIZE_BYTES;
  max_heap_size_bytes := pos_or heap DEFAULT_MAX_HEAP_SIZE_BYTES |}.

Definition effective_timeout (l : RuntimeLimits) (caller_soft_timeout : option Z) : Z :=
  match caller_soft_timeout with Some soft => Z.min (max_run_time_ms l) soft | None => max_run_time_ms l end.

(** The engine limits are positive: zero would mean no limit to QuickJS. *)
Lemma from_model_positive run stack heap :
  let l := from_model run stack heap in
  (0 < max_run_time_ms l)%Z /\ (0 < max_stack_size_bytes l)%Z /\ (0 < max_heap_size_bytes l)%Z.
Proof.
  assert (forall v d, (0 < d)%Z -> (0 < pos_or v d)%Z) as H.
  { intros [n|] d Hd; simpl; [|done]. destruct (Z.ltb_spec 0 n); lia. }
  simpl. split_and!; apply H; [done..].
Qed.

Section worker.
Variable hash_bytes : Bytes -> Z.
Variables (Args Value : Type) (run : Bytes -> Args -> Value).

(** ** The worker thread *)

(** A QuickJS context: the hash it was last loaded for, and the module whose default export
    is [__nodeget_entry]. *)
Record RuntimeState : Type := { loaded_bytecode_hash : option Z; entry : option Bytes }.

Inductive WorkerCommand : Type :=
| CmdExecute (bytecode : option Bytes) (bytecode_hash : Z) (args : Args) (response : nat)
| CmdShutdown.

(** How the engine fares: creating a context, loading the module, and the invocation itself. *)
Inductive Invocation : Type := Finished | ScriptFailed (m : string) | KilledByTimeout | IdleTimedOut.
Record Engine : Type := {
  en_create : result string unit;
  en_load : result string unit;
  en_invoke : Invocation;
}.

Definition execute_on_worker (en : Engine) (rs : option RuntimeState) (bytecode : Bytes) (bytecode_hash : Z)
    (args : Args) : option RuntimeState * result string Value :=
  match rs, en_create en with
  | None, Err m => (None, Err m)
  | _, _ =>
      let state := default {| loaded_bytecode_hash := None; entry := None |} rs in
      let loaded :=
        if bool_decide (loaded_bytecode_hash state = Some bytecode_hash) then Ok state
        else match en_load en with
             | Ok _ => Ok {| loaded_bytecode_hash := Some bytecode_hash; entry := Some bytecode |}
             | Err m => Err m
             end in
      match loaded with
      | Err m => (Some state, Err m)
      | Ok state =>
          match en_invoke en with
          | Finished => match entry state with
                        | Some b => (Some state, Ok (run b args))
                        | None => (Some state, Err "no entry point"%string)
                        end
          | ScriptFailed m => (Some state, Err m)
          | KilledByTimeout => (None, Err "JavaScript execution exceeded max_run_time_ms"%string)
          | IdleTimedOut => (None, Err "Runtime cleanup timed out"%string)
          end
      end
  end.

Record WorkerLocal : Type := { runtime_state : option RuntimeState; cached_bytecode : option Bytes }.

(** One round of [worker_loop] on an [Execute] command. *)
Definition worker_execute (en : Engine) (l : WorkerLocal) (bytecode : option Bytes) (bytecode_hash : Z) (args : Args) :
    WorkerLocal * result string Value :=
  let cached := match bytecode with Some bc => Some bc | None => cached_bytecode l end in
  let effective := default [] cached in
  let '(rs, r) := execute_on_worker en (runtime_state l) effective bytecode_hash args in
  ({| runtime_state := rs; cached_bytecode := cached |}, r).

(** ** The handle *)

Definition QUEUE_SIZE : nat := 256.

Record Worker : Type := {
  w_last_hash : Z;                                  (** [last_bytecode_hash] of the handle *)
  w_queue : list WorkerCommand;                     (** the [sync_channel] *)
  w_local : option WorkerLocal;                     (** [None] once the thread has ended *)
  w_responses : gmap nat (result string Value);     (** what was sent on each response channel *)
}.

Definition spawn_worker : Worker :=
  {| w_last_hash := 0; w_queue := []; w_local := Some {| runtime_state := None; cached_bytecode := None |};
     w_responses := ∅ |}.

(** [execute]: compare the hash, send, remember the hash. *)
Definition execute_load (bytecode : Bytes) (args : Args) (response : nat) (w : Worker) : WorkerCommand :=
  CmdExecute (if (w_last_hash w =? hash_bytes bytecode)%Z then None else Some bytecode)
    (hash_bytes bytecode) args response.

Definition execute_send (cmd : WorkerCommand) (w : Worker) : option Worker :=
  match w_local w with
  | Some _ =>
      if (length (w_queue w) <? QUEUE_SIZE)%nat
      then Some {| w_last_hash := w_last_hash w; w_queue := w_queue w ++ [cmd]; w_local := w_local w;
                   w_responses := w_responses w |}
      else None
  | None => None
  end.

Definition execute_store (bytecode : Bytes) (w : Worker) : Worker :=
  {| w_last_hash := hash_bytes bytecode; w_queue := w_queue w; w_local := w_local w; w_responses := w_responses w |}.

(** [None] is the error that the queue is full. *)
Definition execute (bytecode : Bytes) (args : Args) (response : nat) (w : Worker) : option Worker :=
  option_map (execute_store bytecode) (execute_send (execute_load bytecode args response w) w).

(** The thread takes its next command. *)
Definition worker_step (en : Engine) (w : Worker) : option Worker :=
  match w_queue w, w_local w with
  | CmdExecute bc h args response :: q, Some l =>
      let '(l', r) := worker_execute en l bc h args in
      Some {| w_last_hash := w_last_hash w; w_queue := q; w_local := Some l';
              w_responses := <[response := r]> (w_responses w) |}
  | CmdShutdown :: q, Some _ =>
      Some {| w_last_hash := w_last_hash w; w_queue := []; w_local := None; w_responses := w_responses w |}
  | _, _ => None
  end.

(** ** Requests one after the other *)

(** The scripts in use: no two hash alike, and none to the initial value of the handle. *)
Variable in_use : Bytes -> Prop.
Hypothesis no_collision : forall b b', in_use b -> in_use b' -> hash_bytes b = hash_bytes b' -> b = b'.
Hypothesis nonzero : forall b, in_use b -> hash_bytes b <> 0%Z.

(** A worker with the requests made to it; each has its own response channel. *)
Definition Pool1 : Type := Worker * gmap nat (Bytes * Args).

Inductive request_step : Pool1 -> Pool1 -> Prop :=
| req_execute bytecode args response w w' asked :
    in_use bytecode -> asked !! response = None -> execute bytecode args response w = Some w' ->
    request_step (w, asked) (w', <[response := (bytecode, args)]> asked)
| req_shutdown w w' asked :
    execute_send CmdShutdown w = Some w' -> request_step (w, asked) (w', asked)
| req_work en w w' asked :
    worker_step en w = Some w' -> request_step (w, asked) (w', asked).

(** Each queued command finds its own bytecode, given what is cached when it is reached;
    the last argument is what will be cached in the end. *)
Fixpoint queue_ok (asked : gmap nat (Bytes * Args)) (cached : option Bytes) (q : list WorkerCommand)
    (final : option Bytes) : Prop :=
  match q with
  | [] => cached = final
  | CmdExecute bc h args response :: q' =>
      exists b, asked !! response = Some (b, args) /\ in_use b /\ h = hash_bytes b /\
        (bc = Some b \/ bc = None /\ cached = Some b) /\ queue_ok asked (Some b) q' final
  | CmdShutdown :: q' => queue_ok asked cached q' final
  end.

Definition entry_ok (rs : option RuntimeState) : Prop :=
  match rs with
  | Some s => match loaded_bytecode_hash s, entry s with
              | Some h, Some b => in_use b /\ h = hash_bytes b
              | Some _, None => False
              | None, _ => True
              end
  | None => True
  end.

Record pool1_ok (p : Pool1) : Prop := {
  po_queue : exists final, match w_local p.1 with
                           | Some l => queue_ok p.2 (cached_bytecode l) (w_queue p.1) final /\ entry_ok (runtime_state l) /\
                               (final = None /\ w_last_hash p.1 = 0%Z \/
                                exists b, final = Some b /\ in_use b /\ w_last_hash p.1 = hash_bytes b)
                           | None => True
                           end;
  po_responses : forall response v, w_responses p.1 !! response = Some (Ok v) ->
    exists b args, p.2 !! response = Some (b, args) /\ v = run b args;
}.

Lemma queue_ok_extend asked asked' q : forall cached final,
  (forall r x, asked !! r = Some x -> asked' !! r = Some x) -> queue_ok asked cached q final -> queue_ok asked' cached q final.
Proof using.
  induction q as [|[bc h args r|] q IH]; intros cached final Hsub; simpl; [done| |auto].
  intros (b & Hb & Hu & Hh & Hc & Hq). exists b. split_and!; auto.
Qed.

Lemma queue_ok_app asked q q' : forall cached mid final,
  queue_ok asked cached q mid -> queue_ok asked mid q' final -> queue_ok asked cached (q ++ q') final.
Proof using.
  induction q as [|[bc h args r|] q IH]; intros cached mid final; simpl.
  - by intros ->.
  - intros (b & Hb & Hu & Hh & Hc & Hq) Hq'. exists b. split_and!; try done. eauto.
  - eauto.
Qed.

Lemma execute_ok_step bytecode args response w w' asked :
  in_use bytecode -> asked !! response = None -> execute bytecode args response w = Some w' ->
  pool1_ok (w, asked) -> pool1_ok (w', <[response := (bytecode, args)]> asked).
Proof using no_collision nonzero.
  intros Hin Hfresh He [[final Hq] Hr]. simpl in *. unfold execute, execute_send in He.
  destruct (w_local w) as [l|] eqn:El; [|done]. destruct (length (w_queue w) <? QUEUE_SIZE)%nat; [|done].
  injection He as <-. destruct Hq as (Hq & Hent & Hfin).
  assert (forall r x, asked !! r = Some x -> <[response := (bytecode, args)]> asked !! r = Some x) as Hsub.
  { intros r x Hx. rewrite lookup_insert_ne; [done|]. intros ->. congruence. }
  split; simpl.
  - exists (Some bytecode). split_and!; [|done|right; by exists bytecode].
    eapply queue_ok_app; [by eapply queue_ok_extend|]. simpl. exists bytecode.
    rewrite lookup_insert_eq. split_and!; try done.
    destruct (Z.eqb_spec (w_last_hash w) (hash_bytes bytecode)) as [Heq|Hne]; [right|by left]. split; [done|].
    destruct Hfin as [[-> Hz]|(b & -> & Hb & Hl)].
    + exfalso. apply (nonzero bytecode Hin). congruence.
    + f_equal. apply no_collision; [done..|congruence].
  - intros r v Hv. destruct (Hr r v Hv) as (b & a & Ha & Hval). exists b, a. auto.
Qed.

Lemma execute_on_worker_ok en rs b args rs' r :
  in_use b -> entry_ok rs -> execute_on_worker en rs b (hash_bytes b) args = (rs', r) ->
  entry_ok rs' /\ forall v, r = Ok v -> v = run b args.
Proof using no_collision.
  intros Hin Hent H. unfold execute_on_worker in H.
  assert (forall st, entry_ok (Some st) -> loaded_bytecode_hash st = Some (hash_bytes b) -> entry st = Some b) as Hload.
  { intros [h e] He Hh. simpl in *. subst h. destruct e as [b'|]; [|done]. destruct He as [Hb' Heq].
    f_equal. symmetry. by apply no_collision. }
  set (st := default {| loaded_bytecode_hash := None; entry := None |} rs) in *.
  assert (entry_ok (Some st)) as Hst by (unfold st; by destruct rs).
  assert (forall st', entry_ok (Some st') -> entry st' = Some b ->
    match en_invoke en with
    | Finished => match entry st' with
                  | Some b' => (Some st', Ok (run b' args))
                  | None => (Some st', Err "no entry point"%string)
                  end
    | ScriptFailed m => (Some st', Err m)
    | KilledByTimeout => (None, Err "JavaScript execution exceeded max_run_time_ms"%string)
    | IdleTimedOut => (None, Err "Runtime cleanup timed out"%string)
    end = (rs', r) -> entry_ok rs' /\ forall v, r = Ok v -> v = run b args) as Hinv.
  { intros st' Hok He. rewrite He. destruct (en_invoke en); intros [= <- <-]; (split; [done|]); try done.
    by intros v [= <-]. }
  assert ((rs' = None /\ exists m, r = Err m) \/ entry_ok rs' /\ forall v, r = Ok v -> v = run b args) as Hgoal.
  { destruct rs as [s0|]; [|destruct (en_create en); [|injection H as <- <-; by eauto]]; right;
    (destruct (decide (loaded_bytecode_hash st = Some (hash_bytes b))) as [Hc|Hc];
     [rewrite bool_decide_true in H by done; apply (Hinv st); [done|by apply Hload|exact H]|];
     rewrite bool_decide_false in H by done;
     destruct (en_load en); [|by injection H as <- <-]; eapply Hinv; [| |exact H]; done). }
  destruct Hgoal as [[-> [m ->]]|Hg]; [|exact Hg]. split; [done|]. by intros v [= ].
Qed.

Lemma request_step_ok p p' : request_step p p' -> pool1_ok p -> pool1_ok p'.
Proof using no_collision nonzero.
  destruct 1 as [bytecode args response w w' asked Hin Hf He|w w' asked He|en w w' asked He].
  - by apply execute_ok_step.
  - intros [[final Hq] Hr]. simpl in *. unfold execute_send in He.
    destruct (w_local w) as [l|] eqn:El; [|done]. destruct (_ <? _)%nat; [|done]. injection He as <-.
    destruct Hq as (Hq & Hent & Hfin). split; simpl; [|done]. exists final.
    split_and!; [|done|done]. by eapply queue_ok_app.
  - intros [[final Hq] Hr]. simpl in *. unfold worker_step in He.
    destruct (w_queue w) as [|[bc h args r|] q] eqn:Eq; [done| |]; destruct (w_local w) as [l|] eqn:El; try done.
    + destruct Hq as ((b & Hb & Hu & -> & Hc & Hq) & Hent & Hfin). unfold worker_execute in He.
      set (cached := match bc with Some bc => Some bc | None => cached_bytecode l end) in He.
      assert (cached = Some b) as Hcb by (unfold cached; by destruct Hc as [->|[-> ->]]).
      rewrite Hcb in He. change (default [] (Some b)) with b in He.
      destruct (execute_on_worker en (runtime_state l) b (hash_bytes b) args) as [rs' res] eqn:Ex.
      simpl in He. injection He as <-. apply execute_on_worker_ok in Ex as [Hent' Hres]; [|done|done].
      split; simpl; [by exists final|]. intros r' v. intros [(<- & Heq)|(_ & Hv)]%lookup_insert_Some; [|by apply Hr].
      exists b, args. split; [done|]. by apply Hres.
    + injection He as <-. split; simpl; [by exists None|done].
Qed.

(** as long as the requests of a script reach its worker one after the other, a request that
    succeeds was answered by the bytecode it came with, however often the script was replaced,
    loading or running failed, or the context was discarded in between. *)
Theorem worker_runs_requested p :
  rtc request_step (spawn_worker, ∅) p -> forall response v, w_responses p.1 !! response = Some (Ok v) ->
  exists bytecode args, p.2 !! response = Some (bytecode, args) /\ v = run bytecode args.
Proof using no_collision nonzero.
  intros Hrun. assert (pool1_ok (spawn_worker, ∅)) as H0.
  { split; simpl; [exists None; split_and!; [done|done|by left]|]. intros r v. by rewrite lookup_empty. }
  assert (pool1_ok p) as [_ Hr]; [|exact Hr].
  revert H0. clear -Hrun no_collision nonzero. induction Hrun; [done|]. eauto using request_step_ok.
Qed.
End worker.

(** ** The pool *)

(** A handle: references held outside the pool ([Arc::strong_count - 1]), requests in flight,
    the time of the last use, and the configured idle time. *)
Record Handle : Type := {
  h_refs : nat;
  active_requests : Z;
  last_used_ms : Z;
  runtime_clean_time_ms : Z;
  h_shutdown : bool;                  (** [Shutdown] has been sent *)
}.

Definition RUNTIME_CLEAN_TIME_NONE : Z := -1.

Definition set_runtime_clean_time (t : option Z) (h : Handle) : Handle :=
  {| h_refs := h_refs h; active_requests := active_requests h; last_used_ms := last_used_ms h;
     runtime_clean_time_ms := default RUNTIME_CLEAN_TIME_NONE t; h_shutdown := h_shutdown h |}.
Definition runtime_clean_time (h : Handle) : option Z :=
  if (runtime_clean_time_ms h <? 0)%Z then None else Some (runtime_clean_time_ms h).

(** [workers] and the handles taken out of it. *)
Record JsRuntimePool : Type := { workers : gmap string Handle; retired : list (string * Handle) }.

Definition fresh_handle (now : Z) : Handle :=
  {| h_refs := 0; active_requests := 0; last_used_ms := now;
     runtime_clean_time_ms := RUNTIME_CLEAN_TIME_NONE; h_shutdown := false |}.

(** [spawn] tells whether the thread could be started. *)
Definition get_or_init_worker (script_name : string) (now : Z) (spawn : result string unit) (p : JsRuntimePool) :
    JsRuntimePool * result string Handle :=
  match workers p !! script_name with
  | Some worker => (p, Ok worker)
  | None =>
      match spawn with
      | Ok _ => ({| workers := <[script_name := fresh_handle now]> (workers p); retired := retired p |}, Ok (fresh_handle now))
      | Err m => (p, Err ("Failed to spawn JS runtime worker thread: " +:+ m))
      end
  end.

Definition sat_sub (a b : Z) : Z := Z.max i64_min (Z.min i64_max (a - b)).

(** The condition both passes of [cleanup_idle_workers] test. *)
Definition reapable (now : Z) (h : Handle) : bool :=
  match runtime_clean_time h with
  | None => false
  | Some clean_ms =>
      negb (clean_ms <=? 0)%Z && negb (0 <? active_requests h)%Z && negb (0 <? h_refs h)%nat
      && (clean_ms <=? sat_sub now (last_used_ms h))%Z
  end.

Definition send_shutdown (h : Handle) : Handle :=
  {| h_refs := h_refs h; active_requests := active_requests h; last_used_ms := last_used_ms h;
     runtime_clean_time_ms := runtime_clean_time_ms h; h_shutdown := true |}.

Definition remove_worker (name : string) (h : Handle) (p : JsRuntimePool) : JsRuntimePool :=
  {| workers := delete name (workers p); retired := (name, send_shutdown h) :: retired p |}.

Definition reap (now : Z) (p : JsRuntimePool) (name : string) : JsRuntimePool :=
  match workers p !! name with
  | Some h => if reapable now h then remove_worker name h p else p
  | None => p
  end.

(** [meanwhile]: between the read lock and the write lock other threads may run. *)
Definition cleanup_idle_workers (now : Z) (meanwhile : JsRuntimePool -> JsRuntimePool) (p : JsRuntimePool) :
    JsRuntimePool :=
  let candidates := List.filter (fun '(_, h) => reapable now h) (map_to_list (workers p)) in
  match candidates with
  | [] => p
  | _ => fold_left (reap now) (map fst candidates) (meanwhile p)
  end.

Definition evict_worker (script_name : string) (p : JsRuntimePool) : JsRuntimePool * bool :=
  match workers p !! script_name with
  | Some h => (remove_worker script_name h p, true)
  | None => (p, false)
  end.

Record RuntimePoolWorkerInfo : Type := {
  wi_script_name : string; wi_active_requests : Z; wi_last_used_ms : Z; wi_idle_ms : Z;
  wi_runtime_clean_time_ms : option Z }.

Definition snapshot (now : Z) (p : JsRuntimePool) : nat * list RuntimePoolWorkerInfo :=
  let infos := map (fun '(name, h) => {|
    wi_script_name := name; wi_active_requests := active_requests h; wi_last_used_ms := last_used_ms h;
    wi_idle_ms := sat_sub now (last_used_ms h); wi_runtime_clean_time_ms := runtime_clean_time h |})
    (map_to_list (workers p)) in
  (length infos, infos).

Lemma reap_lookup now p names name :
  workers (fold_left (reap now) names p) !! name =
  match workers p !! name with
  | Some h => if bool_decide (name ∈ names) && reapable now h then None else Some h
  | None => None
  end.
Proof.
  revert p. induction names as [|x names IH]; intros p; cbn [fold_left].
  - by destruct (workers p !! name).
  - rewrite IH. unfold reap. destruct (decide (name = x)) as [->|Hne].
    + rewrite (bool_decide_true (x ∈ x :: names)) by (by left).
      destruct (workers p !! x) as [h|] eqn:E; [|by rewrite E].
      destruct (reapable now h) eqn:Er; simpl; [by rewrite lookup_delete_eq|]. rewrite E, Er. by rewrite andb_false_r.
    + assert (workers (match workers p !! x with Some h => if reapable now h then remove_worker x h p else p | None => p end)
                !! name = workers p !! name) as ->.
      { destruct (workers p !! x); [|done]. case_match; [|done]. simpl. by apply lookup_delete_ne. }
      destruct (workers p !! name); [|done].
      by rewrite (bool_decide_ext (name ∈ x :: names) (name ∈ names)) by (rewrite elem_of_cons; naive_solver).
Qed.

(** The periodic clean-up removes a worker only if it had been idle when it looked the first
    time and, at the moment of removal, has a positive idle time that has passed, no request
    in flight and no caller holding its handle; every other worker, new ones included, is left
    untouched. *)
Theorem cleanup_only_idle now meanwhile p name h :
  workers (meanwhile p) !! name = Some h ->
  (workers (cleanup_idle_workers now meanwhile p) !! name = None ->
     cleanup_idle_workers now meanwhile p <> p ->
     reapable now h = true /\ (active_requests h <= 0)%Z /\ h_refs h = 0%nat /\
     exists clean_ms, runtime_clean_time h = Some clean_ms /\ (0 < clean_ms <= sat_sub now (last_used_ms h))%Z /\
       exists h0, workers p !! name = Some h0 /\ reapable now h0 = true) /\
  (reapable now h = false -> cleanup_idle_workers now meanwhile p <> p ->
     workers (cleanup_idle_workers now meanwhile p) !! name = Some h).
Proof.
  intros Hh. unfold cleanup_idle_workers.
  destruct (List.filter _ (map_to_list (workers p))) as [|c cs] eqn:Ec; [by split; intros|].
  rewrite reap_lookup, Hh. split.
  - intros Hnone _. destruct (bool_decide (name ∈ map fst (c :: cs))) eqn:Ein; [|done]. cbn [andb] in Hnone.
    destruct (reapable now h) eqn:Er; [|done]. split; [done|].
    apply bool_decide_eq_true in Ein. rewrite <-Ec in Ein.
    apply list_elem_of_In, in_map_iff in Ein as ([n h0] & Hn & [Hin Hr]%filter_In). simpl in Hn. subst n.
    apply list_elem_of_In, elem_of_map_to_list in Hin.
    pose proof Er as Er'. unfold reapable in Er'. destruct (runtime_clean_time h) as [clean|]; [|done].
    apply andb_true_iff in Er' as [[[E1%negb_true_iff E2%negb_true_iff]%andb_true_iff E3%negb_true_iff]%andb_true_iff E4].
    apply Nat.ltb_ge in E3. split_and!; [lia|lia|]. exists clean. split_and!; [done|lia|lia|]. by exists h0.
  - intros -> _. by rewrite andb_false_r.
Qed.

(** ** Examples *)

Definition sum_hash (b : Bytes) : Z := fold_left Z.add b 1%Z.

Definition smooth : Engine := {| en_create := Ok tt; en_load := Ok tt; en_invoke := Finished |}.

#[local] Notation echo := (fun (b : Bytes) (_ : unit) => b).
#[local] Notation W1 := (Worker unit Bytes).
#[local] Notation exec b r := (execute sum_hash unit Bytes b tt r).
#[local] Notation work := (worker_step unit Bytes echo smooth).

(** Two versions of a script, the second replaced by the first again. *)
Definition versions_run : option W1 :=
  w ← exec [5%Z] 0%nat (spawn_worker unit Bytes); w ← work w;
  w ← exec [7%Z] 1%nat w; w ← exec [7%Z] 2%nat w; w ← exec [5%Z] 3%nat w;
  w ← work w; w ← work w; work w.

Example versions_run_answers :
  (fun w => map (fun r => w_responses unit Bytes w !! r) [0; 1; 2; 3]%nat) <$> versions_run =
  Some [Some (Ok [5%Z]); Some (Ok [7%Z]); Some (Ok [7%Z]); Some (Ok [5%Z])].
Proof. reflexivity. Qed.

Definition two_scripts (b : Bytes) : Prop := b = [5%Z] \/ b = [7%Z].

Lemma two_scripts_distinct b b' : two_scripts b -> two_scripts b' -> sum_hash b = sum_hash b' -> b = b'.
Proof. intros Hb Hb'. destruct Hb as [-> | ->], Hb' as [-> | ->]; done. Qed.

Lemma two_scripts_nonzero b : two_scripts b -> sum_hash b <> 0%Z.
Proof. intros Hb. destruct Hb as [-> | ->]; done. Qed.

Lemma versions_first_run : exists w,
  rtc (request_step sum_hash unit Bytes echo two_scripts) (spawn_worker unit Bytes, ∅)
    (w, {[0%nat := ([5%Z], tt)]}) /\ w_responses unit Bytes w !! 0%nat = Some (Ok [5%Z]).
Proof.
  eexists. split.
  - eapply rtc_l; [eapply (req_execute _ _ _ _ _ [5%Z] tt 0%nat); [by left|reflexivity|reflexivity]|].
    eapply rtc_once. eapply (req_work _ _ _ _ _ smooth). reflexivity.
  - reflexivity.
Qed.

Lemma worker_runs_requested_witness :
  exists bytecode args, ({[0%nat := ([5%Z], tt)]} : gmap nat (Bytes * unit)) !! 0%nat = Some (bytecode, args) /\
    [5%Z] = bytecode.
Proof.
  destruct versions_first_run as (w & Hrun & Hresp).
  apply (worker_runs_requested sum_hash unit Bytes echo two_scripts two_scripts_distinct two_scripts_nonzero
    (w, _) Hrun 0%nat [5%Z] Hresp).
Defined.

Definition idle_pool : JsRuntimePool := {|
  workers := {["a" := {| h_refs := 0; active_requests := 0; last_used_ms := 100; runtime_clean_time_ms := 50; h_shutdown := false |};
               "b" := {| h_refs := 0; active_requests := 1; last_used_ms := 100; runtime_clean_time_ms := 50; h_shutdown := false |}]}%string;
  retired := [] |}.

Lemma cleanup_only_idle_witness :
  workers (cleanup_idle_workers 1000 id idle_pool) !! "b"%string = workers idle_pool !! "b"%string.
Proof.
  assert (cleanup_idle_workers 1000 id idle_pool <> idle_pool) as Hne by (vm_compute; discriminate).
  destruct (workers idle_pool !! "b"%string) as [h|] eqn:E; [|discriminate E].
  apply (proj2 (cleanup_only_idle 1000 id idle_pool "b"%string h E)); [|exact Hne].
  vm_compute in E. injection E as <-. reflexivity.
Defined.

(** The handle's hash is compared, the command sent and the hash stored in three separate steps.
    When two requests with different versions overlap, the hash can be stored in the other
    order than the commands were sent; the next request then leaves its bytecode out and is
    answered by the other version. *)
Theorem overlapping_requests_mix_versions :
  let old := [5%Z] in let new := [7%Z] in
  let w0 := spawn_worker unit Bytes in
  let cmd_a := execute_load sum_hash unit Bytes old tt 0%nat w0 in
  let cmd_b := execute_load sum_hash unit Bytes new tt 1%nat w0 in
  exists w1 w2 w3,
    (w ← execute_send unit Bytes cmd_a w0; execute_send unit Bytes cmd_b w) = Some w1 /\
    exec old 2%nat (execute_store sum_hash unit Bytes old (execute_store sum_hash unit Bytes new w1)) = Some w2 /\
    (w ← work w2; w ← work w; work w) = Some w3 /\
    w_responses unit Bytes w3 !! 2%nat = Some (Ok new).
Proof. eexists _, _, _. split_and!; reflexivity. Qed.
