(* ===== verification/CronCache.v ===== *)
(** * Scheduled jobs: types, cache and due times

    [ng-crontab/src/cron_type.rs], [cache.rs] and the pure parts of [server_cron.rs].  A
    point in time is its number of nanoseconds since the epoch, as chrono's [DateTime<Utc>]
    resolves it.  The [cron] and [chrono] crates are parameters: parsing an expression, the
    first occurrence after a point in time, and the range of representable timestamps. *)
From stdpp Require Import base strings gmap list numbers.
From S2P Require Import Prelude Errors Json Db Permission TaskTypes.

(** ** Data *)

Inductive AgentCronType : Type := AgentTask (t : TaskEventType).
Inductive ServerCronType : Type := JsWorkerJob (name : string) (params : Json).
Inductive CronType : Type :=
| CronAgent (uuids : list Uuid) (a : AgentCronType)
| CronServer (s : ServerCronType).

(** A row of the [crontab] table. *)
Record CronModel : Type := {
  c_id : Z; c_name : string; c_enable : bool; c_expression : string; c_type : Json;
  c_last_run : option Z }.

Record Cron : Type := {
  job_id : Z; job_name : string; job_enable : bool; job_expression : string; job_type : CronType;
  job_last_run : option Z }.

(** The key and the name are unique. *)
Definition cron_conflict (a b : CronModel) : bool := (c_id a =? c_id b)%Z || String.eqb (c_name a) (c_name b).

Lemma cron_conflict_sym a b : cron_conflict a b = cron_conflict b a.
Proof. unfold cron_conflict. by rewrite Z.eqb_sym, String.eqb_sym. Qed.

Class CronSerde : Type := {
  cron_type_to_value : CronType -> result string Json;
  cron_type_from_value : Json -> result string CronType;
}.

Class CronSerdeLaws (S : CronSerde) : Prop := {
  cron_type_roundtrip : forall t v, cron_type_to_value t = Ok v -> cron_type_from_value v = Ok t;
}.

Definition SECOND : Z := 1000000000.
Definition MILLI : Z := 1000000.
Definition CHRONO_MAX_MS : Z := 8210266876799999.

(** [cron::Schedule] and [chrono]. *)
Class CronLib : Type := {
  Schedule : Type;
  parse_schedule : string -> result string Schedule;     (** [Schedule::from_str] *)
  next_after : Schedule -> Z -> option Z;                (** [schedule.after(&t).next()] *)
  timestamp_millis_opt : Z -> option Z;                  (** [Utc.timestamp_millis_opt(t).single()] *)
}.

Class CronLibLaws (L : CronLib) : Prop := {
  next_after_later : forall s t n, next_after s t = Some n -> (t < n)%Z;
  (** schedules have a resolution of one second *)
  next_after_second : forall s t n, next_after s t = Some n -> (n mod SECOND = 0)%Z;
  (** it is the first one: asking again before it gives it again *)
  next_after_first : forall s t u n,
    next_after s t = Some n -> (t <= u < n)%Z -> next_after s u = Some n;
  next_after_none : forall s t u, next_after s t = None -> (t <= u)%Z -> next_after s u = None;
  timestamp_millis_exact : forall t d, timestamp_millis_opt t = Some d -> d = (t * MILLI)%Z;
  (** chrono's range reaches the year 262142 *)
  timestamp_millis_range : forall t,
    (0 <= t <= CHRONO_MAX_MS)%Z -> timestamp_millis_opt t = Some (t * MILLI)%Z;
}.

(** [t.timestamp_millis()] and [duration.num_milliseconds()]. *)
Definition timestamp_millis (t : Z) : Z := (t / MILLI)%Z.
Definition num_milliseconds (duration : Z) : Z := Z.quot duration MILLI.

Section cache.
Context {L : CronLib} {serde : CronSerde} {ho : HashOrder}.

Record CachedCrontab : Type := {
  cc_model : CronModel; cc_schedule : Schedule; cc_type : CronType }.

Record CrontabCache : Type := {
  by_id : gmap Z CachedCrontab;
  last_run_times : gmap Z Z;
}.

Definition without_type (m : CronModel) : CronModel :=
  {| c_id := c_id m; c_name := c_name m; c_enable := c_enable m; c_expression := c_expression m;
     c_type := JNull; c_last_run := c_last_run m |}.

Definition parse_one (model : CronModel) : option CachedCrontab :=
  match parse_schedule (c_expression model) with
  | Err _ => None
  | Ok schedule =>
      match cron_type_from_value (c_type model) with
      | Err _ => None
      | Ok cron_type =>
          Some {| cc_model := without_type model; cc_schedule := schedule; cc_type := cron_type |}
      end
  end.

Definition build_maps (models : list CronModel) : gmap Z CachedCrontab :=
  fold_left (fun m model =>
    match parse_one model with
    | Some cached => <[c_id (cc_model cached) := cached]> m
    | None => m
    end) models ∅.

Definition build_cache (models : list CronModel) : CrontabCache :=
  {| by_id := build_maps models; last_run_times := ∅ |}.

Definition reload_from_models (models : list CronModel) (c : CrontabCache) : CrontabCache :=
  {| by_id := build_maps models; last_run_times := last_run_times c |}.

Definition upsert_entry (model : CronModel) (c : CrontabCache) : CrontabCache :=
  {| by_id := match parse_one model with
              | Some cached => <[c_id model := cached]> (by_id c)
              | None => delete (c_id model) (by_id c)
              end;
     last_run_times := last_run_times c |}.

Definition remove_entry (id : Z) (c : CrontabCache) : CrontabCache :=
  {| by_id := delete id (by_id c); last_run_times := delete id (last_run_times c) |}.

Definition entry_named (name : string) (c : CachedCrontab) : bool := String.eqb (c_name (cc_model c)) name.

Definition remove_by_name (name : string) (c : CrontabCache) : CrontabCache :=
  let ids_to_remove := (List.filter (fun e => entry_named name e.2) (hash_iter (by_id c))).*1 in
  fold_left (fun c id => remove_entry id c) ids_to_remove c.

Definition get_all_entries (c : CrontabCache) : list CachedCrontab := (hash_iter (by_id c)).*2.

Definition get_enabled_entries (c : CrontabCache) : list CachedCrontab :=
  List.filter (fun entry => c_enable (cc_model entry)) (get_all_entries c).

Definition get_last_run_time (id : Z) (model_last : option Z) (c : CrontabCache) : option Z :=
  match last_run_times c !! id with Some t => Some t | None => model_last end.

Definition update_last_run_time (id timestamp : Z) (c : CrontabCache) : CrontabCache :=
  {| by_id := by_id c; last_run_times := <[id := timestamp]> (last_run_times c) |}.

(** ** Due times *)

Definition effective_last (entry : CachedCrontab) (c : CrontabCache) : option Z :=
  get_last_run_time (c_id (cc_model entry)) (c_last_run (cc_model entry)) c.

(** A job that never ran counts as run a second ago; an unrepresentable time as the epoch. *)
Definition last_run (now : Z) (effective : option Z) : Z :=
  match effective with
  | None => (now - SECOND)%Z
  | Some t => match timestamp_millis_opt t with
              | Some d => d
              | None => match timestamp_millis_opt 0 with Some d => d | None => now end
              end
  end.

Definition should_run (now : Z) (c : CrontabCache) (entry : CachedCrontab) : bool :=
  match next_after (cc_schedule entry) (last_run now (effective_last entry c)) with
  | Some next_run => (next_run <=? now)%Z
  | None => false
  end.

Definition job_parsed (c : CrontabCache) (entry : CachedCrontab) : Cron :=
  {| job_id := c_id (cc_model entry); job_name := c_name (cc_model entry);
     job_enable := c_enable (cc_model entry); job_expression := c_expression (cc_model entry);
     job_type := cc_type entry; job_last_run := effective_last entry c |}.

(** The first phase of [process_crontab]. *)
Definition due_jobs (now : Z) (c : CrontabCache) : list Cron :=
  map (job_parsed c) (List.filter (should_run now c) (get_enabled_entries c)).

(** [compute_next_deadline]: how long to sleep, in milliseconds.  Here an unrepresentable
    time counts as [now]. *)
Definition deadline_last_run (now : Z) (effective : option Z) : Z :=
  match effective with
  | None => (now - SECOND)%Z
  | Some t => match timestamp_millis_opt t with Some d => d | None => now end
  end.

Definition earlier (earliest : option Z) (next_run : option Z) : option Z :=
  match next_run with
  | None => earliest
  | Some n => match earliest with
              | None => Some n
              | Some e => if (n <? e)%Z then Some n else Some e
              end
  end.

Definition CAP_MS : Z := 60000.

Definition compute_next_deadline (now : Z) (cache : option CrontabCache) : Z :=
  match cache with
  | None => CAP_MS
  | Some c =>
      let earliest := fold_left (fun acc entry =>
        earlier acc (next_after (cc_schedule entry) (deadline_last_run now (effective_last entry c))))
        (get_enabled_entries c) None in
      let earliest := match earliest with Some n => n | None => (now + 60 * SECOND)%Z end in
      Z.min (Z.max (num_milliseconds (earliest - now)) 0) CAP_MS
  end.
End cache.

(** ** Occurrences *)

Section occurrences.
Context {L : CronLib} {laws : CronLibLaws L}.

(** The schedule names the point [o]. *)
Definition occurs (s : Schedule) (o : Z) : Prop := next_after s (o - 1) = Some o.

Lemma next_occurs s t n : next_after s t = Some n -> occurs s n.
Proof using laws.
  intros H. apply (next_after_first _ t); [done|]. apply next_after_later in H. lia.
Qed.

Lemma occurs_second s o : occurs s o -> (o mod SECOND = 0)%Z.
Proof using laws. apply next_after_second. Qed.

(** [next_after] finds the least occurrence. *)
Lemma next_after_least s t o : occurs s o -> (t < o)%Z -> exists n, next_after s t = Some n /\ (n <= o)%Z.
Proof using laws.
  intros Ho Ht. destruct (next_after s t) as [n|] eqn:E.
  - exists n. split; [done|]. destruct (decide (n <= o)%Z); [done|].
    pose proof (next_after_first s t (o - 1) n E) as H. rewrite Ho in H by lia.
    assert (o = n) by (assert (Some o = Some n) as [=] by (apply H; lia); done). lia.
  - assert (next_after s (o - 1) = None) as H by (eapply next_after_none; [done|lia]).
    by rewrite Ho in H.
Qed.

Lemma due_occurrence s t now :
  match next_after s t with Some n => (n <=? now)%Z | None => false end = true <->
  exists o, occurs s o /\ (t < o <= now)%Z.
Proof using laws.
  split.
  - destruct (next_after s t) as [n|] eqn:E; [|done]. intros H%Z.leb_le. exists n.
    split; [by eapply next_occurs|]. apply next_after_later in E. lia.
  - intros (o & Ho & Ht & Hn). destruct (next_after_least s t o Ho Ht) as (n & -> & Hle).
    apply Z.leb_le. lia.
Qed.

(** An occurrence is a whole number of milliseconds. *)
Lemma occurs_milli s o t : occurs s o -> (timestamp_millis t * MILLI < o)%Z -> (t < o)%Z.
Proof using laws.
  intros H%occurs_second. unfold timestamp_millis, SECOND, MILLI in *.
  assert (o mod 1000000 = 0)%Z by (Z.div_mod_to_equations; lia).
  Z.div_mod_to_equations. lia.
Qed.
End occurrences.
