(* ===== verification/CronSched.v ===== *)
(** * The scheduling loop

    [process_crontab] and the loop of [init_crontab_worker] in [ng-crontab/src/server_cron.rs]:
    which jobs a pass starts, what it records, and how long the loop sleeps.  Passes
    alternate with sleeps; requests change the cache in between.  A sleep may end early (a
    notification) and late (by the delay of the timer); starting a pass' jobs and waiting
    for them takes time too. *)
From stdpp Require Import base strings gmap list numbers sorting.
From S2P Require Import Prelude Errors Json Db Permission TaskTypes CronCache.

Record CronWorld (C : Type) {L : CronLib} : Type := {
  cw_db : option C; cw_cache : option CrontabCache }.
Arguments cw_db {C L}. Arguments cw_cache {C L}.

Section sched.
Context {L : CronLib} {serde : CronSerde} {ho : HashOrder}.
Context {C : Type} {ops : TableOps C CronModel}.

Definition set_last_run (now_millis : Z) (m : CronModel) : CronModel :=
  {| c_id := c_id m; c_name := c_name m; c_enable := c_enable m; c_expression := c_expression m;
     c_type := c_type m; c_last_run := Some now_millis |}.

Definition advance_last_runs (now_millis : Z) (due : list Cron) (c : CrontabCache) : CrontabCache :=
  fold_left (fun c job => update_last_run_time (job_id job) now_millis c) due c.

(** The first two phases of [process_crontab]: the jobs that are due, recorded as run.  The
    cache is advanced whether or not the table could be updated. *)
Definition process_mark (now : Z) (w : CronWorld C) : CronWorld C * list Cron :=
  match cw_db w, cw_cache w with
  | Some d, Some c =>
      let due := due_jobs now c in
      match due with
      | [] => (w, [])
      | _ =>
          let due_ids := map job_id due in
          let '(d', _) := update_many (fun r => bool_decide (c_id r ∈ due_ids))
                            (set_last_run (timestamp_millis now)) d in
          ({| cw_db := Some d'; cw_cache := Some (advance_last_runs (timestamp_millis now) due c) |}, due)
      end
  | _, _ => (w, [])
  end.

(** ** The loop *)

Inductive LoopPhase : Type :=
| Ready (latest : Z)    (** asleep; the next pass starts at the latest then *)
| Ran.                  (** a pass has started its jobs *)

Record Loop : Type := {
  l_world : CronWorld C;
  l_clock : Z;
  l_phase : LoopPhase;
  l_fired : list (Z * Cron);   (** newest first *)
}.

Inductive config_change : CrontabCache -> CrontabCache -> Prop :=
| change_upsert m c : config_change c (upsert_entry m c)
| change_remove i c : config_change c (remove_entry i c)
| change_reload ms c : config_change c (reload_from_models ms c).

(** Running the jobs of a pass takes at most [busy], the timer is at most [delay] late, and
    requests make only [allowed] changes. *)
Variables (busy delay : Z) (allowed : CrontabCache -> CrontabCache -> Prop).

Inductive loop_step : Loop -> Loop -> Prop :=
| step_process w clock latest fired now w' due :
    (clock <= now <= latest)%Z ->
    process_mark now w = (w', due) ->
    loop_step {| l_world := w; l_clock := clock; l_phase := Ready latest; l_fired := fired |}
              {| l_world := w'; l_clock := now; l_phase := Ran; l_fired := map (pair now) due ++ fired |}
| step_sleep w clock fired now :
    (clock <= now <= clock + busy)%Z ->
    loop_step {| l_world := w; l_clock := clock; l_phase := Ran; l_fired := fired |}
              {| l_world := w; l_clock := now;
                 l_phase := Ready (now + compute_next_deadline now (cw_cache w) * MILLI + delay);
                 l_fired := fired |}
| step_change d c clock phase fired d' c' :
    config_change c c' -> allowed c c' ->
    loop_step {| l_world := {| cw_db := Some d; cw_cache := Some c |};
                 l_clock := clock; l_phase := phase; l_fired := fired |}
              {| l_world := {| cw_db := Some d'; cw_cache := Some c' |};
                 l_clock := clock; l_phase := phase; l_fired := fired |}.
End sched.

(** ** What is due *)

Section due.
Context {L : CronLib} {laws : CronLibLaws L} {serde : CronSerde} {ho : HashOrder}.

(** Entries sit under their own key, with the schedule their expression denotes. *)
Definition cache_wf (c : CrontabCache) : Prop :=
  forall i e, by_id c !! i = Some e ->
    c_id (cc_model e) = i /\ parse_schedule (c_expression (cc_model e)) = Ok (cc_schedule e).

Lemma parse_one_Some m e : parse_one m = Some e ->
  cc_model e = without_type m /\ parse_schedule (c_expression m) = Ok (cc_schedule e) /\
  cron_type_from_value (c_type m) = Ok (cc_type e).
Proof. unfold parse_one. repeat case_match; intros; by simplify_eq/=. Qed.

Lemma upsert_wf m c : cache_wf c -> cache_wf (upsert_entry m c).
Proof.
  intros H i e. unfold upsert_entry. simpl. destruct (parse_one m) as [x|] eqn:E.
  - apply parse_one_Some in E as (E1 & E2 & _).
    intros [[<- <-]|[_ Hl]]%lookup_insert_Some; [|by apply H]. by rewrite E1.
  - intros [_ Hl]%lookup_delete_Some. by apply H.
Qed.

Lemma remove_wf j c : cache_wf c -> cache_wf (remove_entry j c).
Proof. intros H i e. simpl. intros [_ Hl]%lookup_delete_Some. by apply H. Qed.

Lemma build_maps_fold_wf ms : forall m l,
  cache_wf {| by_id := m; last_run_times := l |} ->
  cache_wf {| by_id := fold_left (fun m model =>
    match parse_one model with Some cached => <[c_id (cc_model cached) := cached]> m | None => m end) ms m;
    last_run_times := l |}.
Proof.
  induction ms as [|x ms IH]; intros m l H; simpl; [done|]. apply IH.
  destruct (parse_one x) as [y|] eqn:E; [|done]. apply parse_one_Some in E as (E1 & E2 & _).
  intros i e. simpl. intros [[<- <-]|[_ Hl]]%lookup_insert_Some; [|by apply H].
  by rewrite E1.
Qed.

Lemma reload_wf ms c : cache_wf (reload_from_models ms c).
Proof. apply build_maps_fold_wf. intros i e. simpl. by intros ?%lookup_empty_Some. Qed.

Lemma change_wf c c' : config_change c c' -> cache_wf c -> cache_wf c'.
Proof. destruct 1; eauto using upsert_wf, remove_wf, reload_wf. Qed.

Lemma enabled_entries_elem c e :
  e ∈ get_enabled_entries c <-> (exists i, by_id c !! i = Some e) /\ c_enable (cc_model e) = true.
Proof.
  unfold get_enabled_entries, get_all_entries. rewrite list_filter_elem, list_elem_of_fmap.
  setoid_rewrite <-hash_iter_elem. split.
  - intros [([i x] & -> & Hx) He]. eauto.
  - intros [[i Hi] He]. split; [|done]. by exists (i, e).
Qed.

Lemma enabled_ids_NoDup c : cache_wf c -> NoDup (map (fun e => c_id (cc_model e)) (get_enabled_entries c)).
Proof.
  intros Hwf. unfold get_enabled_entries, get_all_entries.
  pose proof (hash_iter_keys_NoDup (by_id c)) as Hnd.
  assert (forall i e, (i, e) ∈ hash_iter (by_id c) -> c_id (cc_model e) = i) as Hk.
  { intros i e ?%hash_iter_elem. by apply Hwf. }
  induction (hash_iter (by_id c)) as [|[i e] l IH]; simpl; [constructor|].
  apply NoDup_cons in Hnd as [Hi Hnd].
  assert (NoDup (map (fun e => c_id (cc_model e)) (List.filter (fun e => c_enable (cc_model e)) l.*2))) as IH'.
  { apply IH; [done|]. intros j x Hj. apply Hk. by right. }
  destruct (c_enable (cc_model e)); [|done]. simpl. constructor; [|done].
  rewrite (Hk i e) by left. intros Hin. apply list_elem_of_fmap in Hin as (x & -> & Hx).
  apply list_filter_elem in Hx as [Hx _]. apply list_elem_of_fmap in Hx as ([j y] & -> & Hj).
  apply Hi. simpl. rewrite (Hk j y) by (by right). by apply (list_elem_of_fmap_2 fst _ _ Hj).
Qed.

Lemma should_run_spec now c e :
  should_run now c e = true <->
  exists o, occurs (cc_schedule e) o /\ (last_run now (effective_last e c) < o <= now)%Z.
Proof using laws. apply due_occurrence. Qed.

(** A job that has never run is started only by a pass within a second of the occurrence: a
    later pass, before the next occurrence, leaves it out. *)
Theorem first_run_missed now c x o :
  effective_last x c = None -> occurs (cc_schedule x) o -> (o + SECOND <= now)%Z ->
  (forall o', occurs (cc_schedule x) o' -> (o < o')%Z -> (now < o')%Z) ->
  should_run now c x = false.
Proof using laws.
  intros He Ho Hlate Hnext. apply not_true_iff_false. rewrite should_run_spec, He. simpl.
  intros (o' & Ho' & Hlt & Hle). pose proof (Hnext o' Ho'). unfold SECOND in *. lia.
Qed.

Lemma due_jobs_elem now c j :
  j ∈ due_jobs now c <->
  exists e, (exists i, by_id c !! i = Some e) /\ c_enable (cc_model e) = true /\
    should_run now c e = true /\ j = job_parsed c e.
Proof.
  unfold due_jobs. rewrite list_elem_of_fmap. setoid_rewrite list_filter_elem.
  setoid_rewrite enabled_entries_elem. naive_solver.
Qed.

Lemma due_ids_NoDup now c : cache_wf c -> NoDup (map job_id (due_jobs now c)).
Proof.
  intros H. unfold due_jobs. rewrite map_map. simpl.
  pose proof (enabled_ids_NoDup c H) as Hnd. revert Hnd.
  generalize (get_enabled_entries c) as l. induction l as [|e l IH]; simpl; [done|].
  intros [He Hnd]%NoDup_cons. destruct (should_run now c e); [|by apply IH]. simpl.
  constructor; [|by apply IH]. intros Hin. apply He.
  apply list_elem_of_fmap in Hin as (x & -> & [Hx _]%list_filter_elem).
  by apply (list_elem_of_fmap_2 (fun e => c_id (cc_model e))).
Qed.
End due.

(** ** Sleeping *)

Section deadline.
Context {L : CronLib} {laws : CronLibLaws L} {serde : CronSerde} {ho : HashOrder}.

Lemma fold_earlier_le {A} (f : A -> option Z) l : forall acc,
  (forall a, acc = Some a -> exists e, fold_left (fun acc x => earlier acc (f x)) l acc = Some e /\ (e <= a)%Z) /\
  (forall x n, x ∈ l -> f x = Some n ->
     exists e, fold_left (fun acc x => earlier acc (f x)) l acc = Some e /\ (e <= n)%Z).
Proof.
  induction l as [|y l IH]; intros acc; simpl; split.
  - intros a ->. exists a. split; [done|lia].
  - by intros x n ?%not_elem_of_nil.
  - intros a ->. unfold earlier at 2. destruct (f y) as [n|]; [|by apply IH].
    destruct (Z.ltb_spec n a); [|by apply IH].
    destruct (proj1 (IH (Some n)) n eq_refl) as (e & ? & ?). exists e. split; [done|lia].
  - intros x n [->|Hx]%elem_of_cons Hf; [|by eapply IH].
    unfold earlier at 2. rewrite Hf.
    assert (exists a, match acc with
      | Some e => if (n <? e)%Z then Some n else Some e | None => Some n end = Some a /\ (a <= n)%Z) as (a & -> & Ha).
    { destruct acc as [e|]; [|exists n; split; [done|lia]]. destruct (Z.ltb_spec n e); eexists; split; done || lia. }
    destruct (proj1 (IH (Some a)) a eq_refl) as (e & ? & ?). exists e. split; [done|lia].
Qed.

(** Waiting the computed time never oversleeps a point the fold has seen. *)
Lemma capped_wait earliest now o :
  (earliest <= o)%Z ->
  (now + Z.min (Z.max (num_milliseconds (earliest - now)) 0) CAP_MS * MILLI <= Z.max now o)%Z.
Proof.
  intros H. unfold num_milliseconds, CAP_MS, MILLI.
  destruct (Z.le_ge_cases (earliest - now) 0) as [Hle|Hge].
  - assert (Z.quot (earliest - now) 1000000 <= 0)%Z as Hq.
    { rewrite <-(Z.opp_involutive (earliest - now)), Z.quot_opp_l by lia.
      pose proof (Z.quot_pos (- (earliest - now)) 1000000). lia. }
    lia.
  - rewrite Z.quot_div_nonneg by lia. pose proof (Z.mul_div_le (earliest - now) 1000000). lia.
Qed.

Lemma deadline_range now cache : (0 <= compute_next_deadline now cache <= CAP_MS)%Z.
Proof. unfold compute_next_deadline, CAP_MS. destruct cache; lia. Qed.

Lemma deadline_occurrence now c e o :
  e ∈ get_enabled_entries c -> occurs (cc_schedule e) o ->
  (deadline_last_run now (effective_last e c) < o)%Z ->
  (now + compute_next_deadline now (Some c) * MILLI <= Z.max now o)%Z.
Proof using laws.
  intros He Ho Hlt. destruct (next_after_least _ _ _ Ho Hlt) as (n & Hn & Hle).
  destruct (proj2 (fold_earlier_le (fun entry => next_after (cc_schedule entry)
    (deadline_last_run now (effective_last entry c))) (get_enabled_entries c) None) e n He Hn) as (x & Hx & Hxn).
  unfold compute_next_deadline. rewrite Hx. apply capped_wait. lia.
Qed.

(** The scheduler sleeps at least 0 and at most 60 seconds, and never past the next
    occurrence of an enabled job: if it wakes on time, it wakes no later than that occurrence
    (or at once, when the occurrence has passed). *)
Theorem deadline_bounds now c :
  (0 <= compute_next_deadline now (Some c) <= CAP_MS)%Z /\
  forall e o, e ∈ get_enabled_entries c -> occurs (cc_schedule e) o ->
    (deadline_last_run now (effective_last e c) < o)%Z ->
    (now + compute_next_deadline now (Some c) * MILLI <= Z.max now o)%Z.
Proof using laws. split; [apply deadline_range|]. intros e o. apply deadline_occurrence. Qed.
End deadline.

(** ** Runs of the loop *)

Section loop.
Context {L : CronLib} {laws : CronLibLaws L} {serde : CronSerde} {ho : HashOrder}.
Context {C : Type} {ops : TableOps C CronModel}.

Lemma advance_lookup i t due : forall c,
  last_run_times (advance_last_runs t due c) !! i =
  if bool_decide (i ∈ map job_id due) then Some t else last_run_times c !! i.
Proof.
  induction due as [|j due IH]; intros c; [done|]. change (advance_last_runs t (j :: due) c)
    with (advance_last_runs t due (update_last_run_time (job_id j) t c)).
  rewrite IH. simpl map. destruct (decide (i ∈ map job_id due)) as [Hin|Hin].
  - rewrite !bool_decide_eq_true_2 by set_solver. done.
  - rewrite (bool_decide_eq_false_2 _ Hin). simpl. destruct (decide (i = job_id j)) as [->|Hne].
    + rewrite lookup_insert_eq, bool_decide_eq_true_2 by set_solver. done.
    + rewrite lookup_insert_ne, bool_decide_eq_false_2 by set_solver. done.
Qed.

Lemma advance_by_id t due : forall c, by_id (advance_last_runs t due c) = by_id c.
Proof. induction due as [|j due IH]; intros c; [done|]. simpl. by rewrite IH. Qed.

(** What a pass does, on every branch. *)
Lemma process_mark_spec now d c w' due :
  process_mark now {| cw_db := Some d; cw_cache := Some c |} = (w', due) ->
  due = due_jobs now c /\
  exists d' c', w' = {| cw_db := Some d'; cw_cache := Some c' |} /\ by_id c' = by_id c /\
    forall i, last_run_times c' !! i =
      if bool_decide (i ∈ map job_id due) then Some (timestamp_millis now) else last_run_times c !! i.
Proof.
  unfold process_mark. simpl. destruct (due_jobs now c) as [|j l] eqn:E.
  - intros [= <- <-]. split; [done|]. by exists d, c.
  - rewrite <-E. destruct (update_many _ _ d) as [d' r]. intros [= <- <-]. split; [done|].
    exists d', (advance_last_runs (timestamp_millis now) (due_jobs now c) c).
    split_and!; [done|apply advance_by_id|]. intros i. apply advance_lookup.
Qed.

#[local] Notation Loop := (Loop (C := C)).

(** The loop of a server whose database and cache are up. *)
Definition serving (l : Loop) (c : CrontabCache) : Prop :=
  exists d, l_world l = {| cw_db := Some d; cw_cache := Some c |}.

Section firing.
Variables (busy delay : Z) (i : Z).

(** Requests may edit, disable and reload jobs, but job [i] is not removed. *)
Definition keeps_run (c c' : CrontabCache) : Prop := last_run_times c' !! i = last_run_times c !! i.

(** [x] is a later run than [y]: if both are runs of job [i], an occurrence of the schedule
    of the later one lies between them. *)
Definition separated (x y : Z * Cron) : Prop :=
  job_id x.2 = i -> job_id y.2 = i ->
  exists s o, parse_schedule (job_expression x.2) = Ok s /\ occurs s o /\ (y.1 < o <= x.1)%Z.

Record log_inv (l : Loop) : Prop := {
  li_serving : exists c, serving l c /\ cache_wf c /\
    forall t j, (t, j) ∈ l_fired l -> job_id j = i ->
      exists r, last_run_times c !! i = Some r /\ (timestamp_millis t <= r)%Z /\ (0 <= r * MILLI <= l_clock l)%Z;
  li_sorted : StronglySorted separated (l_fired l);
  li_clock : (0 <= l_clock l)%Z;
}.

Lemma millis_below now : (0 <= now)%Z -> (0 <= timestamp_millis now * MILLI <= now)%Z.
Proof. unfold timestamp_millis, MILLI. intros. Z.div_mod_to_equations. lia. Qed.

Lemma last_run_representable now r :
  (0 <= r * MILLI)%Z -> (r * MILLI <= CHRONO_MAX_MS * MILLI)%Z -> last_run now (Some r) = (r * MILLI)%Z.
Proof using laws.
  intros H1 H2. unfold last_run. rewrite timestamp_millis_range; [done|]. unfold MILLI in *. lia.
Qed.

Lemma due_separated now c j t j1 r :
  cache_wf c -> j ∈ due_jobs now c -> job_id j = i ->
  last_run_times c !! i = Some r -> (timestamp_millis t <= r)%Z ->
  (0 <= r * MILLI)%Z -> (r * MILLI <= now)%Z -> (now <= CHRONO_MAX_MS * MILLI)%Z ->
  separated (now, j) (t, j1).
Proof using laws.
  intros Hwf Hj Hi Hr Ht H0 H1 Hmax _ _. simpl.
  apply due_jobs_elem in Hj as (e & [k He] & _ & Hrun & ->). destruct (Hwf k e He) as [Hk Hs].
  apply should_run_spec in Hrun as (o & Ho & Hlt & Hle). exists (cc_schedule e), o.
  split_and!; [done|done| |done]. apply (occurs_milli (cc_schedule e)); [done|].
  unfold effective_last, get_last_run_time in Hlt. simpl in Hi. rewrite Hi, Hr in Hlt.
  rewrite last_run_representable in Hlt by lia. unfold MILLI in *. lia.
Qed.

Lemma batch_sorted now due : NoDup (map job_id due) -> StronglySorted separated (map (pair now) due).
Proof.
  induction due as [|j due IH]; simpl; [constructor|]. intros [Hj Hnd]%NoDup_cons.
  constructor; [by apply IH|]. apply Forall_forall. intros [t x] Hx.
  apply list_elem_of_fmap in Hx as (y & [= -> ->] & Hy). intros Hi Hi'. simpl in *.
  destruct Hj. rewrite Hi, <-Hi'. by apply list_elem_of_fmap_2.
Qed.

Lemma log_inv_step l l' :
  loop_step busy delay keeps_run l l' -> (l_clock l' <= CHRONO_MAX_MS * MILLI)%Z -> log_inv l -> log_inv l'.
Proof using laws.
  intros Hstep Hmax [(c & [d Hd] & Hwf & Hlog) Hs Hc].
  destruct Hstep as [w clock latest fired now w' due Hnow Hp|w clock fired now Hnow
                    |d0 c0 clock phase fired d' c' Hch Hk]; simpl in *; subst.
  - apply process_mark_spec in Hp as (-> & d' & c' & -> & Hid & Hrun).
    split; simpl; [|apply StronglySorted_app_2; [|by apply batch_sorted, due_ids_NoDup|done]|lia].
    + exists c'. split_and!; [by exists d'|intros k e; rewrite Hid; apply Hwf|].
      intros t j Hin Hi. rewrite Hrun. case_bool_decide as Hdue.
      * exists (timestamp_millis now). split_and!; [done| |apply millis_below; lia..].
        apply elem_of_app in Hin as [Hin|Hin].
        -- apply list_elem_of_fmap in Hin as (y & [= -> ->] & Hy). done.
        -- destruct (Hlog t j Hin Hi) as (r & _ & Hr1 & Hr2). unfold timestamp_millis, MILLI in *.
           etrans; [done|]. apply Z.div_le_lower_bound; lia.
      * apply elem_of_app in Hin as [Hin|Hin].
        -- apply list_elem_of_fmap in Hin as (y & [= -> ->] & Hy). destruct Hdue. rewrite <-Hi.
           by apply list_elem_of_fmap_2.
        -- destruct (Hlog t j Hin Hi) as (r & Hr & Hr1 & Hr2). exists r. split_and!; [done|done|lia..].
    + intros [t2 j2] [t1 j1] H2 H1 Hi2 Hi1. apply list_elem_of_fmap in H2 as (y & [= -> ->] & Hy).
      destruct (Hlog t1 j1 H1 Hi1) as (r & Hr & Hr1 & Hr2). simpl in *.
      eapply due_separated; eauto; lia.
  - split; simpl; [|done|lia]. exists c. split_and!; [by exists d|done|].
    intros t j Hin Hi. destruct (Hlog t j Hin Hi) as (r & Hr & Hr1 & Hr2). exists r. split_and!; [done|done|lia..].
  - injection Hd as -> ->. split; simpl; [|done|done]. exists c'.
    split_and!; [by exists d'|by eapply change_wf|]. intros t j Hin Hi. rewrite Hk. by apply (Hlog t j).
Qed.

Lemma loop_clock l l' : loop_step busy delay keeps_run l l' -> (l_clock l <= l_clock l')%Z.
Proof. destruct 1; simpl; lia. Qed.

Lemma log_inv_run l l' :
  rtc (loop_step busy delay keeps_run) l l' -> (l_clock l' <= CHRONO_MAX_MS * MILLI)%Z -> log_inv l -> log_inv l'.
Proof using laws.
  intros H Hmax Hl. revert Hl. induction H as [|l m l' Hs Hr IH]; [done|]. intros Hl. apply IH; [done|].
  eapply log_inv_step; [done| |done]. etrans; [|exact Hmax].
  clear -Hr. induction Hr as [|x y z Hs _ IH]; [lia|]. etrans; [by eapply loop_clock|done].
Qed.

(** C7: no occurrence is served twice.  Whatever the passes, sleeps and changes to the
    configuration, as long as the job is not removed: between two runs of a job lies an
    occurrence of its schedule, later than the first run and not later than the second.  In
    particular a job runs at most once per pass, and missed occurrences are made up for by
    one run. *)
Theorem no_double_fire l0 l c0 l1 l2 t1 j1 t2 j2 :
  serving l0 c0 -> cache_wf c0 -> l_fired l0 = [] -> (0 <= l_clock l0)%Z ->
  rtc (loop_step busy delay keeps_run) l0 l -> (l_clock l <= CHRONO_MAX_MS * MILLI)%Z ->
  l_fired l = l1 ++ l2 -> (t2, j2) ∈ l1 -> (t1, j1) ∈ l2 -> job_id j1 = i -> job_id j2 = i ->
  exists s o, parse_schedule (job_expression j2) = Ok s /\ occurs s o /\ (t1 < o <= t2)%Z.
Proof using laws.
  intros Hsv Hwf Hf Hc Hrun Hmax Hsplit H2 H1 Hi1 Hi2.
  assert (log_inv l0) as Hinv.
  { split; [|rewrite Hf; constructor|done]. exists c0. split_and!; [done|done|].
    rewrite Hf. by intros t j ?%not_elem_of_nil. }
  destruct (log_inv_run _ _ Hrun Hmax Hinv) as [_ Hs _]. rewrite Hsplit in Hs.
  exact (StronglySorted_app_1_elem_of separated l1 l2 (t2, j2) (t1, j1) Hs H2 H1 Hi2 Hi1).
Qed.
End firing.

(** ** Every occurrence is served *)

Section serve.
Variables (busy delay : Z) (i : Z) (e : CachedCrontab).

(** Requests leave job [i] alone. *)
Definition leaves_job (c c' : CrontabCache) : Prop :=
  by_id c' !! i = by_id c !! i /\ last_run_times c' !! i = last_run_times c !! i.

(** The job has run before the occurrence [o], or the loop never falls a second behind. *)
Definition run_before (o : Z) (effective : option Z) : Prop :=
  match effective with
  | None => (busy + delay <= SECOND)%Z
  | Some t => (0 <= t <= CHRONO_MAX_MS)%Z /\ (t * MILLI < o)%Z
  end.

Definition pending (o : Z) (l : Loop) : Prop :=
  (0 <= l_clock l)%Z /\
  (exists c, serving l c /\ by_id c !! i = Some e /\ run_before o (effective_last e c)) /\
  match l_phase l with
  | Ran => (l_clock l < o)%Z
  | Ready latest => (l_clock l < o + busy)%Z /\ (latest < o + busy + delay)%Z
  end.

Definition served (o : Z) (l : Loop) : Prop :=
  exists t j, (t, j) ∈ l_fired l /\ job_id j = i /\ (o <= t < o + busy + delay)%Z.

Context (busy_pos : (0 < busy)%Z) (delay_pos : (0 <= delay)%Z).
Context (id_e : c_id (cc_model e) = i) (enabled_e : c_enable (cc_model e) = true).

Lemma fires_when_due o now c :
  by_id c !! i = Some e -> occurs (cc_schedule e) o -> run_before o (effective_last e c) ->
  (o <= now < o + busy + delay)%Z -> job_parsed c e ∈ due_jobs now c.
Proof using laws enabled_e.
  intros He Ho Hb Hnow. apply due_jobs_elem. exists e. split_and!; [by exists i|done| |done].
  apply should_run_spec. exists o. split; [done|]. split; [|lia].
  unfold run_before in Hb. destruct (effective_last e c) as [t|]; simpl; [|lia].
  rewrite timestamp_millis_range by lia. lia.
Qed.

(** A run before the occurrence leaves the job waiting for it. *)
Lemma run_before_mark o now c c' due :
  run_before o (effective_last e c) -> by_id c' = by_id c ->
  last_run_times c' !! i = (if bool_decide (i ∈ map job_id due) then Some (timestamp_millis now) else last_run_times c !! i) ->
  (0 <= now < o)%Z -> (o <= CHRONO_MAX_MS * MILLI)%Z -> run_before o (effective_last e c').
Proof using id_e.
  intros Hb _ Hl Hnow Hmax. unfold effective_last, get_last_run_time in *. rewrite id_e in *. rewrite Hl.
  case_bool_decide; [|done]. simpl. pose proof (millis_below now) as Hm. unfold MILLI in *. lia.
Qed.

Lemma pending_step o l l' :
  occurs (cc_schedule e) o -> (o <= CHRONO_MAX_MS * MILLI)%Z ->
  loop_step busy delay leaves_job l l' -> pending o l \/ served o l -> pending o l' \/ served o l'.
Proof using laws busy_pos delay_pos id_e enabled_e.
  intros Ho Hmax Hstep [(H0 & (c & [d Hd] & He & Hb) & Hph)|(t & j & Hin & Hj & Ht)].
  2: { right. exists t, j. split_and!; try done; try lia.
       destruct Hstep; simpl in *; [apply elem_of_app; by right|done|done]. }
  destruct Hstep as [w clock latest fired now w' due Hnow Hp|w clock fired now Hnow
                    |d0 c0 clock phase fired d' c' Hch [Hk1 Hk2]]; simpl in *; subst.
  - apply process_mark_spec in Hp as (-> & d' & c' & -> & Hid & Hrun).
    destruct (Z.lt_ge_cases now o) as [Hlt|Hge].
    + left. split_and!; simpl; [lia| |done]. exists c'. split_and!; [by exists d'|by rewrite Hid|].
      eapply run_before_mark; eauto; lia.
    + right. exists now, (job_parsed c e). split_and!; [|done|lia..]. simpl.
      apply elem_of_app. left. apply list_elem_of_fmap_2. eapply fires_when_due; eauto; lia.
  - left. split; cbn [l_clock l_phase l_world cw_cache]; [lia|]. split; [exists c; split_and!; [by exists d|done|done]|].
    split; [lia|].
    assert (now + compute_next_deadline now (Some c) * MILLI <= Z.max now o)%Z; [|lia].
    eapply deadline_occurrence; [|done|].
    + apply enabled_entries_elem. split; [by exists i|done].
    + unfold run_before in Hb. destruct (effective_last e c) as [t|]; simpl; [|lia].
      rewrite timestamp_millis_range by lia. lia.
  - left. injection Hd as -> ->. split_and!; simpl; [done| |done]. exists c'.
    split_and!; [by exists d'|by rewrite Hk1|].
    unfold effective_last, get_last_run_time in *. rewrite id_e in *. by rewrite Hk2.
Qed.

(** C6: every occurrence of an enabled job is served in time.  Suppose running the jobs of
    a pass takes at most [busy] and a wake-up is at most [delay] late.  If the job has a
    recorded run before the occurrence, or has never run and [busy + delay] is at most one
    second, then once the clock has passed the occurrence by [busy + delay], the job has been
    started for it, within that bound, whatever happened to the other jobs. *)
Theorem occurrence_served o l0 l :
  occurs (cc_schedule e) o -> (o <= CHRONO_MAX_MS * MILLI)%Z -> pending o l0 ->
  rtc (loop_step busy delay leaves_job) l0 l -> (o + busy + delay <= l_clock l)%Z -> served o l.
Proof using laws busy_pos delay_pos id_e enabled_e.
  intros Ho Hmax Hp Hrun Hc.
  assert (pending o l \/ served o l) as [(_ & _ & Hph)|Hs]; [|exfalso|done].
  - assert (pending o l0 \/ served o l0) as H by by left. clear Hp Hc.
    induction Hrun; [done|]. apply IHHrun. by eapply pending_step.
  - destruct (l_phase l); lia.
Qed.
End serve.
End loop.
