(* ===== verification/CronRpc.v ===== *)
(** * Administration of scheduled jobs

    [ng-crontab/src/rpc/crontab]: creating, editing, enabling, deleting and listing jobs,
    each an authorisation check, a statement on the [crontab] table and an incremental
    update of the cache.  Waking the scheduler early ([notify_crontab_changed]) changes no
    state and is part of the loop ([CronSched]). *)
From stdpp Require Import base strings gmap list numbers.
From Stdlib Require Import Ascii.
From S2P Require Import Prelude Errors Json Db Permission TokenCache TokenCheck KvAuth TaskTypes CronCache CronSched.

(** ** Names *)

(** [name.chars().count()]: the bytes that do not continue a character. *)
Definition chars_count (bytes : list Z) : nat :=
  length (List.filter (fun b => negb ((128 <=? b) && (b <? 192))%Z) bytes).

(** [c == '/' || c == '\\' || c.is_control()] for some character: the control characters are
    U+0000 to U+001F and U+007F to U+009F. *)
Fixpoint has_invalid_char (bytes : list Z) : bool :=
  match bytes with
  | [] => false
  | b :: rest =>
      ((b =? 47) || (b =? 92) || (b <? 32) || (b =? 127))%Z
      || match rest with
         | b2 :: _ => ((b =? 194) && (128 <=? b2) && (b2 <=? 159))%Z
         | [] => false
         end
      || has_invalid_char rest
  end.

Definition validate_cron_name (name : string) : result anyhow unit :=
  if str_is_empty name then fail_with (InvalidInput "name cannot be empty")
  else if (128 <? chars_count (as_bytes name))%nat then fail_with (InvalidInput "name too long (max 128 chars)")
  else if has_invalid_char (as_bytes name)
       then fail_with (InvalidInput "name contains invalid characters (path separators and control characters not allowed)")
       else Ok tt.

Section rpc.
Context {L : CronLib} {serde : CronSerde} {ho : HashOrder}.
Context {C : Type} {ops : TableOps C CronModel}.
(** The order in which a [HashSet<Scope>] gives its elements. *)
Variable set_order : list Scope -> list Scope.
Variable e : Env.

#[local] Notation W := (CronWorld C).

(** ** Authorisation *)

Definition scopes_from_cron_type (t : CronType) : list Scope :=
  let scopes := match t with
                | CronAgent uuids _ => map Scope_AgentUuid uuids
                | CronServer _ => [Scope_Global]
                end in
  set_order (remove_dups scopes).

Definition write_permissions_from_cron_type (t : CronType) : list Permission :=
  P_Crontab Crontab_Write ::
  match t with
  | CronAgent _ (AgentTask task_event_type) => [P_Task (Task_Create (task_name task_event_type))]
  | CronServer _ => []
  end.

Definition parse_cron_type (value : Json) (name : string) : result anyhow CronType :=
  map_err (fun m => OfNodeget (SerializationError
      ("Failed to parse cron_type for crontab '" +:+ name +:+ "': " +:+ m)))
    (cron_type_from_value value).

Definition is_crontab_write (p : Permission) : bool := bool_decide (p = P_Crontab Crontab_Write).

Definition ensure_crontab_payload_write_permission (t : TokenOrAuth) (cron_type : CronType) : result anyhow unit :=
  let? checker := require_permission_checker e in
  let scopes := scopes_from_cron_type cron_type in
  let permissions := write_permissions_from_cron_type cron_type in
  match cron_type with
  | CronAgent _ _ =>
      match scopes with
      | [] =>
          let? has_crontab_write := pc_check_token_limit checker t [Scope_Global] [P_Crontab Crontab_Write] in
          if (has_crontab_write : bool) then Ok tt
          else denied "Permission Denied: Missing Crontab Write permission for empty agent list"
      | _ =>
          let? is_allowed := pc_check_token_limit checker t scopes permissions in
          if (is_allowed : bool) then Ok tt
          else denied "Permission Denied: Insufficient Crontab/Task permissions for all target scopes"
      end
  | CronServer (JsWorkerJob worker_name _) =>
      let permissions := List.filter is_crontab_write permissions in
      let? has_crontab_write := pc_check_token_limit checker t scopes permissions in
      if negb (has_crontab_write : bool)
      then denied "Permission Denied: Missing crontab write permission in global scope"
      else if trim_is_empty worker_name
      then fail_with (InvalidInput "Invalid crontab payload: js worker name cannot be empty")
      else
        let? has_js_worker_run := pc_check_token_limit checker t [Scope_JsWorker worker_name]
                                    [P_JsWorker JsWorker_RunDefinedJsWorker] in
        if negb (has_js_worker_run : bool)
        then denied ("Permission Denied: Missing js_worker run permission for '" +:+ worker_name +:+ "'")
        else Ok tt
  end.

Definition ensure_crontab_scope_permission (t : TokenOrAuth) (cron_type : CronType) (permission : Permission)
    (denied_message : string) : result anyhow unit :=
  let scopes := match scopes_from_cron_type cron_type with [] => [Scope_Global] | s => s end in
  let? checker := require_permission_checker e in
  let? is_allowed := pc_check_token_limit checker t scopes [permission] in
  if (is_allowed : bool) then Ok tt else denied denied_message.

(** ** The table and the cache *)

Definition on_table {A} (stmt : M C DbErr A) : M W DbErr A := fun w =>
  match cw_db w with
  | Some d => let '(d', r) := stmt d in ({| cw_db := Some d'; cw_cache := cw_cache w |}, r)
  | None => (w, Err (DbFailure "Database not initialized"))
  end.

Definition mmap_err {S E F A} (f : E -> F) (m : M S E A) : M S F A := fun s =>
  let '(s', r) := m s in (s', map_err f r).

Definition db_error (err : DbErr) : anyhow := OfNodeget (DatabaseError (db_msg err)).

Definition get_cron_db : M W anyhow unit := fun w =>
  match cw_db w with
  | Some _ => (w, Ok tt)
  | None => (w, Err (OfNodeget (DatabaseError "DB not initialized")))
  end.

Definition load_all : M W anyhow (list CronModel) := fun w =>
  match cw_db w with
  | Some _ => mmap_err (fun err => OfText ("Failed to load from DB: " +:+ db_msg err)) (on_table (find_all (fun _ => true))) w
  | None => (w, Err (OfNodeget (ConfigNotFound "Database connection not initialized")))
  end.

Definition reload : M W anyhow unit := fun w =>
  match cw_cache w with
  | None => (w, Ok tt)
  | Some _ => (let! models := load_all in
               fun w => ({| cw_db := cw_db w; cw_cache := option_map (reload_from_models models) (cw_cache w) |}, Ok tt)) w
  end.

Definition init : M W anyhow unit :=
  let! models := load_all in
  fun w => match cw_cache w with
           | Some _ => reload w
           | None => ({| cw_db := cw_db w; cw_cache := Some (build_cache models) |}, Ok tt)
           end.

(** Bring the cache up to date after a change; a failed reload is only logged. *)
Definition refresh {E} (f : CrontabCache -> CrontabCache) : M W E unit := fun w =>
  match cw_cache w with
  | Some c => ({| cw_db := cw_db w; cw_cache := Some (f c) |}, Ok tt)
  | None => (fst (reload w), Ok tt)
  end.

Definition named (name : string) (r : CronModel) : bool := String.eqb (c_name r) name.
Definition same_key (m r : CronModel) : bool := (c_id r =? c_id m)%Z.

Definition delete_crontab_by_name (name : string) : M W DbErr bool :=
  let! rows_affected := on_table (delete_many (named name)) in
  let deleted := (0 <? rows_affected)%Z in
  if deleted
  then let! _ := refresh (remove_by_name name) in mret deleted
  else mret deleted.

Definition set_enabled (enable : bool) (m : CronModel) : CronModel :=
  {| c_id := c_id m; c_name := c_name m; c_enable := enable; c_expression := c_expression m;
     c_type := c_type m; c_last_run := c_last_run m |}.

Definition set_crontab_enable_by_name (name : string) (enable : bool) : M W DbErr (option bool) :=
  let! crontab_option := on_table (find_one (named name)) in
  match crontab_option with
  | Some model =>
      let! updated := on_table (update_one (same_key model) (set_enabled enable)) in
      let! _ := refresh (upsert_entry updated) in
      mret (Some (c_enable updated))
  | None => mret None
  end.

(** ** Handlers *)

Definition new_job (name expression : string) (type_json : Json) (id : Z) : CronModel :=
  {| c_id := id; c_name := name; c_enable := true; c_expression := expression; c_type := type_json;
     c_last_run := None |}.

Definition check_expression (expression : string) : result anyhow unit :=
  match parse_schedule expression with
  | Ok _ => Ok tt
  | Err m => fail_with (ParseError ("Invalid cron expression: " +:+ m))
  end.

Definition encode_cron_type (t : CronType) : result anyhow Json :=
  map_err (fun err => OfNodeget (SerializationError (anyhow_display err))) (try_set_json (cron_type_to_value t)).

Definition create (token name expression : string) (cron_type : CronType) : M W anyhow Json :=
  let! _ := lift (validate_cron_name name) in
  let! token_or_auth := lift (parse_token token) in
  let! _ := lift (ensure_crontab_payload_write_permission token_or_auth cron_type) in
  let! _ := lift (check_expression expression) in
  let! _ := get_cron_db in
  let! existing_job := mmap_err db_error (on_table (find_one (named name))) in
  match existing_job with
  | Some _ => mfail (OfNodeget (InvalidInput ("Crontab name already exists: " +:+ name)))
  | None =>
      let! type_json := lift (encode_cron_type cron_type) in
      let! res_id := mmap_err db_error (on_table (insert_auto (new_job name expression type_json))) in
      let! _ := refresh (upsert_entry (new_job name expression type_json res_id)) in
      mret (JObject [("id"%string, JNum (NumInt res_id))])
  end.

Definition find_job (name : string) : M W anyhow CronModel :=
  let! found := mmap_err db_error (on_table (find_one (named name))) in
  lift (ok_or (OfNodeget (NotFound ("Crontab not found: " +:+ name))) found).

Definition set_payload (expression : string) (type_json : Json) (m : CronModel) : CronModel :=
  {| c_id := c_id m; c_name := c_name m; c_enable := c_enable m; c_expression := expression;
     c_type := type_json; c_last_run := c_last_run m |}.

Definition edit (token name expression : string) (cron_type : CronType) : M W anyhow Json :=
  let! _ := lift (validate_cron_name name) in
  let! token_or_auth := lift (parse_token token) in
  let! _ := get_cron_db in
  let! original_model := find_job name in
  let! original_cron_type := lift (parse_cron_type (c_type original_model) name) in
  let! _ := lift (ensure_crontab_scope_permission token_or_auth original_cron_type (P_Crontab Crontab_Write)
                    "Permission Denied: Missing Crontab Write permission for all existing scopes") in
  let! _ := lift (ensure_crontab_payload_write_permission token_or_auth cron_type) in
  let! _ := lift (check_expression expression) in
  let! type_json := lift (encode_cron_type cron_type) in
  let! updated := mmap_err db_error (on_table (update_one (same_key original_model) (set_payload expression type_json))) in
  let! _ := refresh (upsert_entry updated) in
  mret (JObject [("id"%string, JNum (NumInt (c_id updated))); ("success"%string, JBool true)]).

Definition delete (token name : string) : M W anyhow Json :=
  let! _ := lift (validate_cron_name name) in
  let! token_or_auth := lift (parse_token token) in
  let! _ := get_cron_db in
  let! model := find_job name in
  let! cron_type := lift (parse_cron_type (c_type model) name) in
  let! _ := lift (ensure_crontab_scope_permission token_or_auth cron_type (P_Crontab Crontab_Delete)
                    "Permission Denied: Missing Crontab Delete permission for all target scopes") in
  let! deleted := mmap_err (fun err => OfNodeget (Other ("Failed to delete crontab: " +:+ db_msg err)))
                    (delete_crontab_by_name name) in
  if negb deleted then mfail (OfNodeget (NotFound ("Crontab not found: " +:+ name)))
  else mret (JObject [("success"%string, JBool deleted)]).

Definition set_enable (token name : string) (enable : bool) : M W anyhow Json :=
  let! _ := lift (validate_cron_name name) in
  let! token_or_auth := lift (parse_token token) in
  let! _ := get_cron_db in
  let! model := find_job name in
  let! cron_type := lift (parse_cron_type (c_type model) name) in
  let! _ := lift (ensure_crontab_scope_permission token_or_auth cron_type (P_Crontab Crontab_Write)
                    "Permission Denied: Missing Crontab Write permission for all target scopes") in
  let! result_state := mmap_err (fun err => OfNodeget (Other ("Failed to set crontab enable: " +:+ db_msg err)))
                         (set_crontab_enable_by_name name enable) in
  let! state := lift (ok_or (OfNodeget (NotFound ("Crontab not found: " +:+ name))) result_state) in
  mret (JObject [("success"%string, JBool true); ("enabled"%string, JBool state)]).

(** ** Listing *)

Definition reads_crontab (limit : Limit) : bool :=
  existsb (fun p => bool_decide (p = P_Crontab Crontab_Read)) (permissions limit).

Definition read_scopes (token_info : Token) : list Scope :=
  concat (map scopes (List.filter reads_crontab (token_limit token_info))).

Definition filter_entries_by_token (entries : list CachedCrontab) (token_info : Token) (c : CrontabCache) : list Cron :=
  let has_global := existsb (fun s => bool_decide (s = Scope_Global)) (read_scopes token_info) in
  let allowed_uuid u := existsb (fun s => bool_decide (s = Scope_AgentUuid u)) (read_scopes token_info) in
  map (job_parsed c)
    (List.filter (fun entry =>
       has_global || match cc_type entry with
                     | CronAgent agent_uuids _ => existsb allowed_uuid agent_uuids
                     | CronServer _ => false
                     end) entries).

Definition get `{Crypto} `{Serde} (token : string) : M W anyhow (list Cron) :=
  let! token_or_auth := lift (parse_token token) in
  let! is_super_token := lift (map_err to_denied (check_super_token (e_globals e) token_or_auth)) in
  let! cache := asks cw_cache in
  let! cache := lift (ok_or (OfNodeget (ConfigNotFound "CrontabCache not initialized")) cache) in
  let entries := get_all_entries cache in
  if (is_super_token : bool) then mret (map (job_parsed cache) entries) else
  let! token_info := lift (get_token (e_globals e) token_or_auth) in
  let! now := lift (get_local_timestamp_ms_i64 (e_clock e)) in
  if match timestamp_from token_info with Some from => (now <? from)%Z | None => false end
  then mfail (OfNodeget (PermissionDenied "Token is not yet valid"))
  else if match timestamp_to token_info with Some to => (to <? now)%Z | None => false end
  then mfail (OfNodeget (PermissionDenied "Token has expired"))
  else if negb (existsb reads_crontab (token_limit token_info))
  then mfail (OfNodeget (PermissionDenied "Permission Denied: Insufficient Crontab Read permission"))
  else mret (filter_entries_by_token entries token_info cache).
End rpc.
