(* ===== verification/CronThms.v ===== *)
(** * Scheduled jobs: the cache follows the table, and who may change what

    Every operation of [CronRpc] and every pass of the scheduler, on success and on failure,
    keeps the cache equal to what a full reload would give (up to the run times, which the
    cache tracks itself); jobs are created and edited only with authority over all the
    agents or workers they act on. *)
From stdpp Require Import base strings gmap list numbers.
From S2P Require Import Prelude Errors Json Db Permission TokenCache TokenCheck KvAuth TaskTypes CronCache CronSched CronRpc.

Section mirror.
Context {L : CronLib} {serde : CronSerde} {ho : HashOrder}.

Definition forget_last_run (x : CachedCrontab) : CachedCrontab :=
  {| cc_model := {| c_id := c_id (cc_model x); c_name := c_name (cc_model x); c_enable := c_enable (cc_model x);
                    c_expression := c_expression (cc_model x); c_type := c_type (cc_model x); c_last_run := None |};
     cc_schedule := cc_schedule x; cc_type := cc_type x |}.

Definition row_entry (l : list CronModel) (i : Z) (x : CachedCrontab) : Prop :=
  exists r y, r ∈ l /\ c_id r = i /\ parse_one r = Some y /\ x = forget_last_run y.

Definition cache_entry (c : CrontabCache) (i : Z) (x : CachedCrontab) : Prop :=
  exists y, by_id c !! i = Some y /\ x = forget_last_run y.

(** The cache holds exactly the rows that parse. *)
Definition mirrors (l : list CronModel) (c : CrontabCache) : Prop :=
  forall i x, cache_entry c i x <-> row_entry l i x.

#[global] Instance row_entry_perm : Proper ((≡ₚ) ==> (=) ==> (=) ==> iff) row_entry.
Proof. intros l l' Hp i ? <- x ? <-. unfold row_entry. by setoid_rewrite Hp. Qed.

Lemma cron_mirrors_perm l l' c : l ≡ₚ l' -> mirrors l c -> mirrors l' c.
Proof. intros Hp H i x. by rewrite <-Hp. Qed.

Lemma row_entry_cons m l i x :
  row_entry (m :: l) i x <->
  (c_id m = i /\ exists y, parse_one m = Some y /\ x = forget_last_run y) \/ row_entry l i x.
Proof. unfold row_entry. setoid_rewrite elem_of_cons. naive_solver. Qed.

(** What an upsert leaves under each key. *)
Lemma upsert_cache_entry m c i x :
  cache_entry (upsert_entry m c) i x <->
  (c_id m = i /\ exists y, parse_one m = Some y /\ x = forget_last_run y) \/
  (c_id m <> i /\ cache_entry c i x).
Proof.
  unfold cache_entry, upsert_entry. simpl. destruct (parse_one m) as [y|] eqn:E.
  - destruct (decide (c_id m = i)) as [<-|Hne].
    + rewrite lookup_insert_eq. naive_solver.
    + rewrite lookup_insert_ne by done. naive_solver.
  - destruct (decide (c_id m = i)) as [<-|Hne].
    + rewrite lookup_delete_eq. naive_solver.
    + rewrite lookup_delete_ne by done. naive_solver.
Qed.

Lemma cron_mirrors_insert l c m :
  (forall r, r ∈ l -> c_id r <> c_id m) -> mirrors l c -> mirrors (m :: l) (upsert_entry m c).
Proof.
  intros Hfresh H i x. rewrite upsert_cache_entry, row_entry_cons, (H i x). split; [naive_solver|].
  intros [?|Hr]; [by left|]. right. split; [|done]. destruct Hr as (r & y & Hr & <- & _).
  intros Heq. by apply (Hfresh r Hr).
Qed.

(** Replacing the row of one key. *)
Lemma mirrors_update l c (p : CronModel -> bool) (f : CronModel -> CronModel) r0 :
  unique_rows cron_conflict l = true ->
  (forall r, p r = true <-> c_id r = c_id r0) -> (forall r, c_id (f r) = c_id r) ->
  r0 ∈ l -> mirrors l c -> mirrors (map (update_if p f) l) (upsert_entry (f r0) c).
Proof.
  intros Hu Hp Hf H0 H i x. rewrite upsert_cache_entry, (H i x), Hf.
  assert (forall r, r ∈ l -> c_id r = c_id r0 -> r = r0) as Heq.
  { intros r Hr Hid. eapply (unique_rows_lookup cron_conflict); [apply cron_conflict_sym|done..|].
    unfold cron_conflict. by rewrite Hid, Z.eqb_refl. }
  unfold row_entry. split.
  - intros [(<- & y & Hy & ->)|(Hne & r & y & Hr & <- & Hy & ->)].
    + exists (f r0), y. split_and!; [|by rewrite Hf|done|done]. apply list_elem_of_fmap. exists r0.
      split; [|done]. unfold update_if. by rewrite (proj2 (Hp r0) eq_refl).
    + exists r, y. split_and!; [|done..]. apply list_elem_of_fmap. exists r. split; [|done].
      unfold update_if. destruct (p r) eqn:E; [|done]. by apply Hp in E.
  - intros (r & y & Hr & <- & Hy & ->). apply list_elem_of_fmap in Hr as (s & -> & Hs).
    unfold update_if in *. destruct (p s) eqn:E.
    + apply Hp in E. rewrite (Heq s Hs E) in *. left. rewrite Hf. eauto.
    + right. split; [|eauto 10]. intros Heq0. by rewrite (proj2 (Hp s)) in E.
Qed.

(** Removing the rows of a name. *)
Lemma fold_remove_lookup ids : forall c i,
  by_id (fold_left (fun c j => remove_entry j c) ids c) !! i =
  if bool_decide (i ∈ ids) then None else by_id c !! i.
Proof.
  induction ids as [|j ids IH]; intros c i; simpl; [done|]. rewrite IH. simpl.
  destruct (decide (i ∈ ids)) as [Hin|Hin].
  - rewrite !bool_decide_eq_true_2 by set_solver. done.
  - rewrite (bool_decide_eq_false_2 _ Hin). destruct (decide (i = j)) as [->|Hne].
    + rewrite lookup_delete_eq, bool_decide_eq_true_2 by set_solver. done.
    + rewrite lookup_delete_ne, bool_decide_eq_false_2 by set_solver. done.
Qed.

Lemma remove_by_name_lookup name c i :
  by_id (remove_by_name name c) !! i =
  match by_id c !! i with
  | Some y => if entry_named name y then None else Some y
  | None => None
  end.
Proof.
  unfold remove_by_name. rewrite fold_remove_lookup. case_bool_decide as Hin.
  - apply list_elem_of_fmap in Hin as ([j y] & -> & [Hj Hn]%list_filter_elem).
    apply hash_iter_elem in Hj. simpl in *. by rewrite Hj, Hn.
  - destruct (by_id c !! i) as [y|] eqn:E; [|done]. destruct (entry_named name y) eqn:En; [|done].
    destruct Hin. apply list_elem_of_fmap. exists (i, y). split; [done|].
    apply list_filter_elem. split; [by apply hash_iter_elem|done].
Qed.

Lemma parse_one_name r y : parse_one r = Some y -> c_name (cc_model y) = c_name r.
Proof. intros (-> & _)%parse_one_Some. done. Qed.

Lemma mirrors_remove l c name :
  mirrors l c -> mirrors (List.filter (fun r => negb (named name r)) l) (remove_by_name name c).
Proof.
  intros H i x. assert (cache_entry (remove_by_name name c) i x <->
    cache_entry c i x /\ c_name (cc_model x) <> name) as ->.
  { unfold cache_entry. rewrite remove_by_name_lookup. split.
    - intros (y & Hy & ->). destruct (by_id c !! i) as [z|]; [|done].
      unfold entry_named in Hy. destruct (String.eqb_spec (c_name (cc_model z)) name); [done|].
      injection Hy as ->. eauto.
    - intros [(y & -> & ->) Hn]. exists y. split; [|done]. unfold entry_named.
      simpl in Hn. destruct (String.eqb_spec (c_name (cc_model y)) name); [done|done]. }
  rewrite (H i x). unfold row_entry. setoid_rewrite list_filter_elem. setoid_rewrite negb_true_iff. unfold named.
  split.
  - intros [(r & y & Hr & <- & Hy & ->) Hn]. exists r, y. split_and!; try done.
    simpl in Hn. rewrite (parse_one_name _ _ Hy) in Hn. by apply String.eqb_neq.
  - intros (r & y & [Hr Hn] & <- & Hy & ->). split; [by exists r, y|].
    simpl. rewrite (parse_one_name _ _ Hy). by apply String.eqb_neq.
Qed.

(** Run times are not part of the mirror. *)
Lemma parse_one_set_last t r :
  option_map forget_last_run (parse_one (set_last_run t r)) = option_map forget_last_run (parse_one r).
Proof.
  unfold parse_one. simpl. destruct (parse_schedule _); [|done]. by destruct (cron_type_from_value _).
Qed.

Lemma cron_mirrors_mark l c c' (p : CronModel -> bool) t :
  by_id c' = by_id c -> mirrors l c -> mirrors (map (update_if p (set_last_run t)) l) c'.
Proof.
  intros Hid H i x. assert (cache_entry c' i x <-> cache_entry c i x) as ->.
  { unfold cache_entry. by rewrite Hid. }
  rewrite (H i x). clear H. induction l as [|r l IH]; [done|]. simpl. rewrite !row_entry_cons, IH.
  assert (c_id (update_if p (set_last_run t) r) = c_id r) as -> by (unfold update_if; by destruct (p r)).
  assert (option_map forget_last_run (parse_one (update_if p (set_last_run t) r)) =
          option_map forget_last_run (parse_one r)) as Hp.
  { unfold update_if. destruct (p r); [apply parse_one_set_last|done]. }
  assert ((exists y, parse_one (update_if p (set_last_run t) r) = Some y /\ x = forget_last_run y) <->
          (exists y, parse_one r = Some y /\ x = forget_last_run y)) as ->; [|done].
  destruct (parse_one (update_if _ _ r)) as [a|], (parse_one r) as [b|]; try discriminate Hp.
  - apply (inj Some) in Hp. split; intros (y & [= <-] & ->); eauto.
  - split; by intros (y & ? & _).
Qed.

(** A reload mirrors the table it has read. *)
Lemma build_fold_entry ms : forall m i x,
  unique_rows cron_conflict ms = true ->
  (cache_entry {| by_id := fold_left (fun m model =>
    match parse_one model with Some cached => <[c_id (cc_model cached) := cached]> m | None => m end) ms m;
    last_run_times := ∅ |} i x <->
   row_entry ms i x \/ ((forall r y, r ∈ ms -> parse_one r = Some y -> c_id r <> i) /\
                        cache_entry {| by_id := m; last_run_times := ∅ |} i x)).
Proof.
  induction ms as [|r ms IH]; intros m i x.
  { intros _. unfold row_entry. set_solver. }
  intros [Hr Hu]%unique_rows_cons. simpl. rewrite IH, row_entry_cons by done. setoid_rewrite elem_of_cons.
  assert (forall s, s ∈ ms -> c_id s <> c_id r) as Hne.
  { intros s Hs Heq. pose proof (Hr s Hs) as Hf. unfold cron_conflict in Hf. by rewrite Heq, Z.eqb_refl in Hf. }
  destruct (parse_one r) as [y|] eqn:E.
  - destruct (parse_one_Some _ _ E) as (Hm & _ & _).
    assert (c_id (cc_model y) = c_id r) as -> by by rewrite Hm.
    unfold cache_entry. simpl. destruct (decide (c_id r = i)) as [<-|Hi].
    + rewrite lookup_insert_eq. split.
      * intros [?|[_ (z & [= <-] & ->)]]; [by left; right|]. left. left. eauto.
      * intros [[[_ (z & [= <-] & ->)]|?]|[Hnone _]]; [|by left|by destruct (Hnone r y (or_introl eq_refl) E)].
        right. split; [|eauto]. intros s z Hs _. by apply Hne.
    + rewrite lookup_insert_ne by done. split.
      * intros [?|[? ?]]; [by left; right|]. right. split; [|done]. intros s z [->|Hs] Hz; [done|]. by eapply H.
      * intros [[[? _]|?]|[Hn ?]]; [done|by left|]. right. split; [|done]. intros s z Hs. apply Hn. by right.
  - split.
    + intros [?|[Hn ?]]; [by left; right|]. right. split; [|done]. intros s z [->|Hs] Hz; [congruence|]. by eapply Hn.
    + intros [[[_ (z & [=] & _)]|?]|[Hn ?]]; [by left|]. right. split; [|done]. intros s z Hs. apply Hn. by right.
Qed.

Lemma mirrors_reload ms c : unique_rows cron_conflict ms = true -> mirrors ms (reload_from_models ms c).
Proof.
  intros Hu i x. pose proof (build_fold_entry ms ∅ i x Hu) as H.
  transitivity (cache_entry {| by_id := build_maps ms; last_run_times := ∅ |} i x); [done|].
  rewrite H. split; [|by left]. intros [?|[_ (y & Hy & _)]]; [done|]. simpl in Hy. by rewrite lookup_empty in Hy.
Qed.
End mirror.

(** ** The invariant *)

Section admin.
Context {L : CronLib} {serde : CronSerde} {ho : HashOrder}.
Context {C : Type} {ops : TableOps C CronModel} {claws : TableLaws ops cron_conflict}.
Variable set_order : list Scope -> list Scope.

#[local] Notation W := (CronWorld C).

(** Keys and names are unique, and a cache that exists mirrors the table. *)
Definition in_step (w : W) : Prop :=
  match cw_db w with
  | Some d => unique_rows cron_conflict (rows d) = true /\
              match cw_cache w with Some c => cache_wf c /\ mirrors (rows d) c | None => True end
  | None => cw_cache w = None
  end.

Lemma mmap_err_preserves {S E F A} (P : S -> Prop) (f : E -> F) (m : M S E A) :
  preserves P m -> preserves P (mmap_err f m).
Proof. intros H s Hs. unfold mmap_err. specialize (H s Hs). by destruct (m s). Qed.

Lemma preserves_fail {S E A} (P : S -> Prop) (err : E) : preserves P (mfail (A := A) err).
Proof. by intros s Hs. Qed.

Lemma find_one_in_step p : preserves in_step (on_table (find_one p)).
Proof using claws.
  intros w Hw. unfold on_table, in_step in *. destruct (cw_db w) as [d|] eqn:E; [|simpl; by rewrite E].
  destruct (find_one p d) as [d' r] eqn:Ef. simpl. by rewrite (find_one_rows _ _ _ _ Ef).
Qed.

Lemma get_db_in_step : preserves in_step get_cron_db.
Proof. intros w Hw. unfold get_cron_db. by destruct (cw_db w). Qed.

(** A statement followed by the matching change of the cache. *)
Lemma stmt_refresh {E A B} (g : DbErr -> E) (stmt : M C DbErr A) (f : A -> CrontabCache -> CrontabCache) (k : A -> M W E B) w :
  in_step w ->
  (forall d d' r, stmt d = (d', r) -> unique_rows cron_conflict (rows d) = true ->
     unique_rows cron_conflict (rows d') = true) ->
  (forall d d' err, stmt d = (d', Err err) -> rows d' = rows d) ->
  (forall d d' a c, stmt d = (d', Ok a) -> unique_rows cron_conflict (rows d) = true ->
     cache_wf c -> mirrors (rows d) c -> cache_wf (f a c) /\ mirrors (rows d') (f a c)) ->
  (forall a, preserves in_step (k a)) ->
  in_step (fst ((let! a := mmap_err g (on_table stmt) in let! _ := refresh (f a) in k a) w)).
Proof.
  intros Hw Hu Herr Hok Hk. unfold in_step in Hw. rewrite mbind_run. unfold mmap_err, on_table.
  destruct (cw_db w) as [d|] eqn:Ed; [|simpl; unfold in_step; by rewrite Ed].
  destruct Hw as [Hd Hc]. destruct (stmt d) as [d' r] eqn:Es.
  pose proof (Hu _ _ _ Es Hd) as Hd'. destruct r as [a|err]; simpl.
  - rewrite mbind_run. unfold refresh. simpl. destruct (cw_cache w) as [c|] eqn:Ec.
    + apply Hk. unfold in_step. simpl. split; [done|]. destruct Hc. by apply (Hok d d' a).
    + apply Hk. unfold reload. simpl. unfold in_step. simpl. done.
  - unfold in_step. simpl. split; [done|]. by rewrite (Herr _ _ _ Es).
Qed.

Lemma insert_refresh mk d d' i c :
  insert_auto mk d = (d', Ok i) -> (forall j, c_id (mk j) = j) ->
  cache_wf c -> mirrors (rows d) c -> cache_wf (upsert_entry (mk i) c) /\ mirrors (rows d') (upsert_entry (mk i) c).
Proof using claws.
  intros Hi Hid Hwf Hm. apply insert_auto_ok in Hi as [Hp Hn]. split; [by apply upsert_wf|].
  eapply cron_mirrors_perm; [by symmetry|]. apply cron_mirrors_insert; [|done]. intros r Hr Heq.
  pose proof (Hn r Hr) as Hf. unfold cron_conflict in Hf. by rewrite Heq, Z.eqb_refl in Hf.
Qed.

Lemma update_refresh m f d d' r c :
  update_one (same_key m) f d = (d', Ok r) -> (forall x, c_id (f x) = c_id x) ->
  unique_rows cron_conflict (rows d) = true ->
  cache_wf c -> mirrors (rows d) c -> cache_wf (upsert_entry r c) /\ mirrors (rows d') (upsert_entry r c).
Proof using claws.
  intros Hup Hf Hu Hwf Hm. apply update_one_ok in Hup as (Hp & r0 & Hr0 & Hk & ->).
  split; [by apply upsert_wf|]. eapply cron_mirrors_perm; [by symmetry|].
  apply mirrors_update; try done. intros x. unfold same_key in *. apply Z.eqb_eq in Hk. rewrite Hk.
  by rewrite Z.eqb_eq.
Qed.

Lemma update_refresh_in_step {E B} (g : DbErr -> E) m f (k : CronModel -> M W E B) w :
  in_step w -> (forall x, c_id (f x) = c_id x) -> (forall a, preserves in_step (k a)) ->
  in_step (fst ((let! a := mmap_err g (on_table (update_one (same_key m) f)) in let! _ := refresh (upsert_entry a) in k a) w)).
Proof using claws.
  intros Hw Hf Hk. apply (stmt_refresh g _ upsert_entry); [done| | | |done].
  - intros d d' r. apply update_unique.
  - intros d d' err. apply update_one_err.
  - intros d d' a c H ? ? ?. by eapply update_refresh.
Qed.

(** Removing a name that no row carries leaves the cache's mirror as it is. *)
Lemma delete_in_step name : preserves in_step (delete_crontab_by_name name).
Proof using claws.
  intros w Hw. unfold delete_crontab_by_name. rewrite mbind_run. unfold in_step in Hw. unfold on_table.
  destruct (cw_db w) as [d|] eqn:Ed; [|unfold in_step; simpl; by rewrite Ed].
  destruct Hw as [Hu Hc]. destruct (delete_many (named name) d) as [d' r] eqn:Es.
  pose proof (delete_many_unique _ _ _ _ Es Hu) as Hu'. destruct r as [n|err].
  - pose proof (delete_many_count _ _ _ _ Es) as Hcount. apply delete_many_ok in Es as [Hp _].
    destruct (0 <? n)%Z eqn:En.
    + rewrite mbind_run. unfold refresh. simpl. destruct (cw_cache w) as [c|] eqn:Ec; unfold in_step; simpl; [|done].
      split; [done|]. destruct Hc as [Hwf Hm]. split.
      * intros i x. rewrite remove_by_name_lookup. destruct (by_id c !! i) as [z|] eqn:Ez; [|done].
        destruct (entry_named name z); [done|]. intros [= <-]. by apply Hwf.
      * eapply cron_mirrors_perm; [by symmetry|]. by apply mirrors_remove.
    + unfold mret, in_step. simpl. split; [done|]. destruct (cw_cache w) as [c|]; [|done].
      destruct Hc as [Hwf Hm]. split; [done|]. eapply cron_mirrors_perm; [|done]. rewrite Hp.
      apply proj1 in Hcount. specialize (Hcount eq_refl).
      assert (List.filter (fun r => negb (named name r)) (rows d) = rows d) as ->; [|done].
      clear -Hcount. induction (rows d) as [|x l IH]; [done|]. simpl. rewrite (Hcount x) by left. simpl.
      f_equal. apply IH. intros y Hy. apply Hcount. by right.
  - unfold in_step. simpl. split; [done|]. by rewrite (delete_many_err _ _ _ _ Es).
Qed.

Lemma set_enable_in_step name b : preserves in_step (set_crontab_enable_by_name name b).
Proof using claws.
  unfold set_crontab_enable_by_name. apply preserves_bind; [apply find_one_in_step|]. intros [m|]; [|apply preserves_ret].
  intros w Hw. pose proof (update_refresh_in_step (fun err : DbErr => err) m (set_enabled b)
    (fun updated => mret (Some (c_enable updated))) w Hw) as H.
  assert (forall {A} (x : M C DbErr A), mmap_err (fun err : DbErr => err) (on_table x) w = on_table x w) as Hid.
  { intros A x. unfold mmap_err. destruct (on_table x w) as [w' [a|err]]; done. }
  rewrite mbind_run, Hid, <-mbind_run in H. apply H; [done|]. intros a. apply preserves_ret.
Qed.

Lemma reload_in_step : preserves in_step reload.
Proof using claws.
  intros w Hw. unfold reload. destruct (cw_cache w) as [c|] eqn:Ec; [|done]. rewrite mbind_run.
  unfold load_all, mmap_err, on_table. unfold in_step in Hw. destruct (cw_db w) as [d|] eqn:Ed; [|by rewrite Ec in Hw].
  destruct Hw as [Hu Hc]. rewrite Ec in Hc. destruct (find_all _ d) as [d' r] eqn:Ef.
  pose proof (find_all_rows _ _ _ _ Ef) as Hr. destruct r as [ms|err]; unfold in_step; simpl; rewrite Ec, Hr; simpl.
  - split; [done|]. split; [apply reload_wf|]. apply find_all_ok in Ef.
    assert (List.filter (fun _ : CronModel => true) (rows d) = rows d) as Hall.
    { clear. induction (rows d) as [|x l IH]; simpl; congruence. }
    rewrite Hall in Ef. eapply cron_mirrors_perm; [exact Ef|]. apply mirrors_reload.
    eapply unique_rows_perm; [apply cron_conflict_sym|by symmetry|done].
  - done.
Qed.

Lemma pass_in_step now w : in_step w -> in_step (fst (process_mark now w)).
Proof using claws.
  intros Hw. unfold process_mark. unfold in_step in Hw. destruct (cw_db w) as [d|] eqn:Ed; [|unfold in_step; simpl; by rewrite Ed].
  destruct (cw_cache w) as [c|] eqn:Ec; [|unfold in_step; simpl; by rewrite Ed, Ec].
  destruct Hw as (Hu & Hwf & Hm). destruct (due_jobs now c) as [|j due] eqn:Edue.
  { unfold in_step. simpl. rewrite Ed, Ec. done. }
  destruct (update_many _ _ d) as [d' r] eqn:Es. unfold in_step. simpl fst. cbn [cw_db cw_cache].
  pose proof (update_many_unique _ _ _ _ _ Es Hu). split; [done|].
  set (c' := advance_last_runs _ _ _).
  assert (by_id c' = by_id c) as Hid by (unfold c'; by rewrite advance_by_id).
  split; [intros i x; rewrite Hid; apply Hwf|]. destruct r as [n|err].
  - apply update_many_ok in Es as [Hp _]. eapply cron_mirrors_perm; [by symmetry|]. by eapply cron_mirrors_mark.
  - rewrite (update_many_err _ _ _ _ _ Es). intros i x. rewrite <-(Hm i x). unfold cache_entry. by rewrite Hid.
Qed.

(** *** The handlers *)

Variable e : Env.

Lemma on_find_in_step name : preserves in_step (mmap_err db_error (on_table (find_one (named name)))).
Proof using claws. apply mmap_err_preserves, find_one_in_step. Qed.

Lemma find_job_in_step name : preserves in_step (find_job name).
Proof using claws. apply preserves_bind; [apply on_find_in_step|]. intros r. apply preserves_lift. Qed.

#[local] Hint Resolve get_db_in_step find_job_in_step on_find_in_step preserves_fail
  preserves_lift preserves_ret reload_in_step : nodeget.

Lemma create_in_step token name expression t : preserves in_step (create set_order e token name expression t).
Proof using claws.
  unfold create. do 6 (apply preserves_bind; [solve [eauto with nodeget]|intros ?]).
  match goal with |- preserves _ (match ?x with _ => _ end) => destruct x end; [apply preserves_fail|].
  apply preserves_bind; [apply preserves_lift|]. intros type_json w Hw.
  apply (stmt_refresh db_error _ (fun i => upsert_entry (new_job name expression type_json i))); [done| | | |].
  - intros d d' r. apply insert_auto_unique.
  - intros d d' err H. by apply insert_auto_err in H as [? _].
  - intros d d' i c H _ ? ?. by eapply insert_refresh.
  - intros i. apply preserves_ret.
Qed.

Lemma edit_in_step token name expression t : preserves in_step (edit set_order e token name expression t).
Proof using claws.
  unfold edit. do 9 (apply preserves_bind; [solve [eauto with nodeget]|intros ?]).
  intros w Hw. apply update_refresh_in_step; [done|done|]. intros u. apply preserves_ret.
Qed.

Lemma delete_rpc_in_step token name : preserves in_step (delete set_order e token name).
Proof using claws.
  unfold delete. preserve. apply mmap_err_preserves, delete_in_step.
Qed.

Lemma set_enable_rpc_in_step token name b : preserves in_step (set_enable set_order e token name b).
Proof using claws.
  unfold set_enable. preserve. apply mmap_err_preserves, set_enable_in_step.
Qed.

Lemma init_in_step : preserves in_step init.
Proof using claws.
  intros w Hw. unfold init. rewrite mbind_run. unfold load_all, mmap_err, on_table.
  destruct (cw_db w) as [d|] eqn:Ed; [|done]. pose proof Hw as Hw0. unfold in_step in Hw. rewrite Ed in Hw. destruct Hw as [Hu Hc].
  destruct (find_all _ d) as [d' r] eqn:Ef. pose proof (find_all_rows _ _ _ _ Ef) as Hr.
  assert (in_step {| cw_db := Some d'; cw_cache := cw_cache w |}) as Hw1.
  { unfold in_step. simpl. by rewrite Hr. }
  destruct r as [ms|err]; [|done]. simpl. destruct (cw_cache w) as [c|] eqn:Ec; [by apply reload_in_step|].
  unfold in_step. simpl. rewrite Hr. split; [done|]. change (build_cache ms) with (reload_from_models ms (build_cache ms)).
  split; [apply reload_wf|]. apply find_all_ok in Ef.
  assert (List.filter (fun _ : CronModel => true) (rows d) = rows d) as Hall.
  { clear. induction (rows d) as [|x l IH]; simpl; congruence. }
  rewrite Hall in Ef. eapply cron_mirrors_perm; [exact Ef|]. apply mirrors_reload.
  eapply unique_rows_perm; [apply cron_conflict_sym|by symmetry|done].
Qed.
End admin.

(** ** Histories *)

Section history.
Context {L : CronLib} {serde : CronSerde} {ho : HashOrder}.
Context {C : Type} {ops : TableOps C CronModel} {claws : TableLaws ops cron_conflict}.

(** A request (with what its authorisation check sees), the start-up, a reload, or a pass of
    the scheduler. *)
Inductive CronOp : Type :=
| OpCreate (e : Env) (token name expression : string) (t : CronType)
| OpEdit (e : Env) (token name expression : string) (t : CronType)
| OpDelete (e : Env) (token name : string)
| OpSetEnable (e : Env) (token name : string) (b : bool)
| OpInit
| OpReload
| OpPass (now : Z).

Variable set_order : list Scope -> list Scope.

Definition run_op (op : CronOp) (w : CronWorld C) : CronWorld C :=
  match op with
  | OpCreate e token name expression t => fst (create set_order e token name expression t w)
  | OpEdit e token name expression t => fst (edit set_order e token name expression t w)
  | OpDelete e token name => fst (delete set_order e token name w)
  | OpSetEnable e token name b => fst (set_enable set_order e token name b w)
  | OpInit => fst (init w)
  | OpReload => fst (reload w)
  | OpPass now => fst (process_mark now w)
  end.

(** C17: the job cache follows the table.  After any sequence of requests, reloads and
    scheduler passes, whatever fails in between, keys and names are unique, and the cache
    the scheduler works from holds exactly the stored jobs that parse, each with the name,
    switch, schedule and type its row has: the incremental updates agree with a full reload. *)
Theorem jobs_stay_in_step l w : in_step w -> in_step (fold_left (fun w op => run_op op w) l w).
Proof using claws.
  revert w. induction l as [|op l IH]; intros w Hw; [done|]. simpl. apply IH. destruct op; simpl.
  - by apply create_in_step.
  - by apply edit_in_step.
  - by apply delete_rpc_in_step.
  - by apply set_enable_rpc_in_step.
  - by apply init_in_step.
  - by apply reload_in_step.
  - by apply pass_in_step.
Qed.
End history.

(** ** Authority *)

Section authority.
Context {L : CronLib} {serde : CronSerde} {slaws : CronSerdeLaws serde} {ho : HashOrder}.
Context {C : Type} {ops : TableOps C CronModel} {claws : TableLaws ops cron_conflict}.
Variable set_order : list Scope -> list Scope.
Context (set_order_perm : forall l, set_order l ≡ₚ l).
Variable e : Env.

#[local] Notation W := (CronWorld C).

(** The scopes of exactly these agents. *)
Definition scopes_of (uuids : list Uuid) (ss : list Scope) : Prop :=
  forall s, s ∈ ss <-> exists u, u ∈ uuids /\ s = Scope_AgentUuid u.

(** What [t] must be granted to schedule [cron_type]. *)
Definition may_schedule (t : TokenOrAuth) (cron_type : CronType) : Prop :=
  exists checker, PERMISSION_CHECKER e = Some checker /\
  match cron_type with
  | CronAgent [] _ => pc_check_token_limit checker t [Scope_Global] [P_Crontab Crontab_Write] = Ok true
  | CronAgent uuids (AgentTask task) =>
      exists ss, scopes_of uuids ss /\
        pc_check_token_limit checker t ss [P_Crontab Crontab_Write; P_Task (Task_Create (task_name task))] = Ok true
  | CronServer (JsWorkerJob worker _) =>
      pc_check_token_limit checker t [Scope_Global] [P_Crontab Crontab_Write] = Ok true /\
      pc_check_token_limit checker t [Scope_JsWorker worker] [P_JsWorker JsWorker_RunDefinedJsWorker] = Ok true
  end.

Lemma scopes_agent uuids a : scopes_of uuids (scopes_from_cron_type set_order (CronAgent uuids a)).
Proof using set_order_perm.
  intros s. unfold scopes_from_cron_type. rewrite set_order_perm, elem_of_remove_dups, list_elem_of_fmap. naive_solver.
Qed.

Lemma scopes_server s : scopes_from_cron_type set_order (CronServer s) = [Scope_Global].
Proof using set_order_perm.
  unfold scopes_from_cron_type. simpl. apply Permutation_singleton_r. apply set_order_perm.
Qed.

Lemma require_checker provider : require_permission_checker e = Ok provider -> PERMISSION_CHECKER e = Some provider.
Proof. unfold require_permission_checker. by intros ?%ok_or_ok. Qed.

Lemma payload_permission t cron_type :
  ensure_crontab_payload_write_permission set_order e t cron_type = Ok tt -> may_schedule t cron_type.
Proof using set_order_perm.
  unfold ensure_crontab_payload_write_permission. intros H. inv_ok. rename x into checker.
  exists checker. split; [by apply require_checker|]. destruct cron_type as [uuids [task]|[worker params]].
  - pose proof (scopes_agent uuids (AgentTask task)) as Hs.
    destruct (scopes_from_cron_type set_order _) as [|s0 ss] eqn:Es.
    + inv_guards. destruct uuids as [|u uuids]; [by destruct x|].
      assert (Scope_AgentUuid u ∈ @nil Scope) as []%not_elem_of_nil by (apply Hs; exists u; split; [left|done]).
    + inv_guards. destruct uuids as [|u uuids].
      * assert (s0 ∈ s0 :: ss) as (u & []%not_elem_of_nil & _)%Hs by left.
      * exists (s0 :: ss). split; [done|]. destruct x; [done|done].
  - rewrite scopes_server in *. simpl in *. inv_guards.
    repeat match goal with H : negb ?x = false |- _ => apply negb_false_iff in H; subst x end. done.
Qed.

(** The table's contents. *)
Definition job_rows (w : W) : list CronModel := match cw_db w with Some d => rows d | None => [] end.

Lemma cron_db_run (w w' : W) (r : result anyhow unit) : get_cron_db w = (w', r) -> w' = w.
Proof. unfold get_cron_db. destruct (cw_db w); by intros [= <- _]. Qed.

Lemma find_named_run name w w' r :
  mmap_err db_error (on_table (find_one (named name))) w = (w', r) ->
  job_rows w' = job_rows w /\ cw_cache w' = cw_cache w /\
  match r with
  | Ok (Some m) => m ∈ job_rows w /\ c_name m = name
  | Ok None => forall m, m ∈ job_rows w -> c_name m <> name
  | Err _ => True
  end.
Proof using claws.
  unfold mmap_err, on_table, job_rows. destruct (cw_db w) as [d|] eqn:Ed.
  - destruct (find_one _ d) as [d' r0] eqn:Ef. intros [= <- <-]. simpl. pose proof (find_one_rows _ _ _ _ Ef) as ->.
    split_and!; [done|done|]. destruct r0 as [[m|]|err]; simpl; [| |done].
    + apply find_one_some in Ef as [? Hn]. by apply String.eqb_eq in Hn.
    + intros m Hm Heq. pose proof (find_one_none _ _ _ Ef m Hm) as Hf. unfold named in Hf. by rewrite Heq, String.eqb_refl in Hf.
  - intros [= <- <-]. rewrite Ed. done.
Qed.

Lemma refresh_run {E} f (w : W) : exists w', refresh (E := E) f w = (w', Ok tt) /\ job_rows w' = job_rows w /\
  cw_cache w' = option_map f (cw_cache w).
Proof.
  unfold refresh. destruct (cw_cache w) as [c|] eqn:Ec.
  - eexists. split; [reflexivity|]. done.
  - eexists. split; [reflexivity|]. unfold reload. rewrite Ec. done.
Qed.

Lemma insert_run mk w w' r :
  mmap_err db_error (on_table (insert_auto mk)) w = (w', r) ->
  cw_cache w' = cw_cache w /\
  match r with
  | Ok i => job_rows w' ≡ₚ mk i :: job_rows w
  | Err _ => job_rows w' = job_rows w
  end.
Proof using claws.
  unfold mmap_err, on_table, job_rows. destruct (cw_db w) as [d|] eqn:Ed; [|intros [= <- <-]; by rewrite Ed].
  destruct (insert_auto mk d) as [d' [i|err]] eqn:Ei; intros [= <- <-]; simpl; (split; [done|]).
  - by apply insert_auto_ok in Ei as [? _].
  - by apply insert_auto_err in Ei as [? _].
Qed.

Lemma cron_update_run m f w w' r :
  mmap_err db_error (on_table (update_one (same_key m) f)) w = (w', r) ->
  cw_cache w' = cw_cache w /\
  match r with
  | Ok x => job_rows w' ≡ₚ map (update_if (same_key m) f) (job_rows w) /\
            exists r0, r0 ∈ job_rows w /\ c_id r0 = c_id m /\ x = f r0
  | Err _ => job_rows w' = job_rows w
  end.
Proof using claws.
  unfold mmap_err, on_table, job_rows. destruct (cw_db w) as [d|] eqn:Ed; [|intros [= <- <-]; by rewrite Ed].
  destruct (update_one _ f d) as [d' [x|err]] eqn:Ei; intros [= <- <-]; simpl; (split; [done|]).
  - apply update_one_ok in Ei as (? & r0 & ? & Hk%Z.eqb_eq & ->). split; [done|]. by exists r0.
  - by apply update_one_err in Ei.
Qed.

Lemma check_expression_ok expression : check_expression expression = Ok tt <-> exists s, parse_schedule expression = Ok s.
Proof. unfold check_expression. destruct (parse_schedule expression); naive_solver. Qed.

Lemma encode_cron_type_ok t v : encode_cron_type t = Ok v <-> cron_type_to_value t = Ok v.
Proof. unfold encode_cron_type, try_set_json. by rewrite !map_err_ok. Qed.

(** A stored job as the scheduler will see it. *)
Definition scheduled (w : W) (i : Z) (name expression : string) (cron_type : CronType) : Prop :=
  forall c, cw_cache w = Some c -> exists x, by_id c !! i = Some x /\
    cc_type x = cron_type /\ parse_schedule expression = Ok (cc_schedule x) /\ c_name (cc_model x) = name.

Lemma upsert_scheduled m c t s :
  parse_schedule (c_expression m) = Ok s -> cron_type_from_value (c_type m) = Ok t ->
  exists x, by_id (upsert_entry m c) !! c_id m = Some x /\ cc_type x = t /\ cc_schedule x = s /\
    cc_model x = without_type m.
Proof. intros Hs Ht. unfold upsert_entry, parse_one. simpl. rewrite Hs, Ht. rewrite lookup_insert_eq. eauto. Qed.

(** Creating a job.  It succeeds only with authority over everything the job acts on
    (every agent in its list, with [Task Create] for its task type; or the global scope and
    the worker it runs), for a fresh, well-formed name and an expression that parses; then
    exactly one enabled row is added, which the scheduler sees with that schedule and type.
    A request that fails changes neither table nor cache. *)
Theorem create_spec token name expression cron_type w w' r :
  create set_order e token name expression cron_type w = (w', r) ->
  match r with
  | Ok response => exists t i value,
      parse_token token = Ok t /\ may_schedule t cron_type /\ validate_cron_name name = Ok tt /\
      (exists s, parse_schedule expression = Ok s) /\ (forall m, m ∈ job_rows w -> c_name m <> name) /\
      cron_type_to_value cron_type = Ok value /\
      job_rows w' ≡ₚ new_job name expression value i :: job_rows w /\
      scheduled w' i name expression cron_type /\ response = JObject [("id"%string, JNum (NumInt i))]
  | Err _ => job_rows w' = job_rows w /\ cw_cache w' = cw_cache w
  end.
Proof using slaws set_order_perm claws.
  unfold create. rewrite mbind_lift.
  destruct (validate_cron_name name) as [[]|] eqn:Ev; [|by intros [= <- <-]]. rewrite mbind_lift.
  destruct (parse_token token) as [t|] eqn:Et; [|by intros [= <- <-]]. rewrite mbind_lift.
  destruct (ensure_crontab_payload_write_permission _ e t cron_type) as [[]|] eqn:Ep; [|by intros [= <- <-]]. rewrite mbind_lift.
  destruct (check_expression expression) as [[]|] eqn:Ee; [|by intros [= <- <-]]. rewrite mbind_run.
  destruct (get_cron_db w) as [w1 [[]|]] eqn:Eg; pose proof (cron_db_run _ _ _ Eg) as ->; [|by intros [= <- <-]].
  rewrite mbind_run. destruct (mmap_err _ _ w) as [w2 r2] eqn:Ef. apply find_named_run in Ef as (Hr2 & Hc2 & Hf).
  destruct r2 as [[m|]|]; [by intros [= <- <-]| |by intros [= <- <-]]. rewrite mbind_lift.
  destruct (encode_cron_type cron_type) as [value|] eqn:En; [|by intros [= <- <-]]. rewrite mbind_run.
  destruct (mmap_err _ _ w2) as [w3 r3] eqn:Ei. apply insert_run in Ei as [Hc3 Hr3].
  destruct r3 as [i|]; [|intros [= <- <-]; split; congruence]. rewrite mbind_run.
  destruct (refresh_run (E := anyhow) (upsert_entry (new_job name expression value i)) w3) as (w4 & -> & Hr4 & Hc4).
  intros [= <- <-]. apply check_expression_ok in Ee as [s Hs]. apply encode_cron_type_ok in En.
  exists t, i, value. split_and!; try done; [by apply payload_permission|by exists s|by rewrite Hr4, Hr3, Hr2|].
  intros c. rewrite Hc4. destruct (cw_cache w3) as [c3|]; [|done]. intros [= <-].
  destruct (upsert_scheduled (new_job name expression value i) c3 cron_type s) as (x & Hx & Ht & Hsx & Hm);
    [done|by eapply cron_type_roundtrip|]. exists x. split_and!; [done|done|congruence|by rewrite Hm].
Qed.

(** Authority over what a stored job acts on. *)
Definition may_manage (t : TokenOrAuth) (cron_type : CronType) (p : Permission) : Prop :=
  exists checker ss, PERMISSION_CHECKER e = Some checker /\ pc_check_token_limit checker t ss [p] = Ok true /\
    match cron_type with
    | CronAgent [] _ | CronServer _ => ss = [Scope_Global]
    | CronAgent uuids _ => scopes_of uuids ss
    end.

Lemma scope_permission t cron_type p msg :
  ensure_crontab_scope_permission set_order e t cron_type p msg = Ok tt -> may_manage t cron_type p.
Proof using set_order_perm.
  unfold ensure_crontab_scope_permission. intros H. inv_guards.
  match goal with H : require_permission_checker e = Ok ?x |- _ => apply require_checker in H; exists x end.
  eexists. split; [done|]. split; [done|]. destruct cron_type as [uuids a|s]; [|by rewrite scopes_server].
  pose proof (scopes_agent uuids a) as Hs. destruct (scopes_from_cron_type set_order _) as [|s0 ss] eqn:Es.
  - destruct uuids as [|u uuids]; [done|].
    assert (Scope_AgentUuid u ∈ @nil Scope) as []%not_elem_of_nil by (apply Hs; exists u; split; [left|done]).
  - destruct uuids as [|u uuids]; [|done]. assert (s0 ∈ s0 :: ss) as (u & []%not_elem_of_nil & _)%Hs by left.
Qed.

(** Editing a job needs authority over the agents it acted on and over those it will
    act on.  It changes the expression and type of the one row of that name, keeping its
    key, switch and last run; the scheduler sees the new schedule and type.  A request that
    fails changes nothing. *)
Theorem edit_spec token name expression cron_type w w' r :
  edit set_order e token name expression cron_type w = (w', r) ->
  match r with
  | Ok _ => exists t m old value,
      parse_token token = Ok t /\ m ∈ job_rows w /\ c_name m = name /\
      cron_type_from_value (c_type m) = Ok old /\ may_manage t old (P_Crontab Crontab_Write) /\
      may_schedule t cron_type /\ cron_type_to_value cron_type = Ok value /\
      job_rows w' ≡ₚ map (update_if (same_key m) (set_payload expression value)) (job_rows w) /\
      (forall c, cw_cache w' = Some c -> exists x, by_id c !! c_id m = Some x /\
         cc_type x = cron_type /\ parse_schedule expression = Ok (cc_schedule x))
  | Err _ => job_rows w' = job_rows w /\ cw_cache w' = cw_cache w
  end.
Proof using slaws set_order_perm claws.
  unfold edit. rewrite mbind_lift.
  destruct (validate_cron_name name) as [[]|] eqn:Ev; [|by intros [= <- <-]]. rewrite mbind_lift.
  destruct (parse_token token) as [t|] eqn:Et; [|by intros [= <- <-]]. rewrite mbind_run.
  destruct (get_cron_db w) as [w1 [[]|]] eqn:Eg; pose proof (cron_db_run _ _ _ Eg) as ->; [|by intros [= <- <-]].
  rewrite mbind_run. unfold find_job. rewrite mbind_run.
  destruct (mmap_err _ _ w) as [w2 r2] eqn:Ef. apply find_named_run in Ef as (Hr2 & Hc2 & Hf).
  destruct r2 as [[m|]|]; [|by intros [= <- <-]..]. simpl ok_or. destruct Hf as [Hm Hn]. unfold lift at 1. rewrite mbind_lift.
  destruct (parse_cron_type (c_type m) name) as [old|] eqn:Eo; [|by intros [= <- <-]]. rewrite mbind_lift.
  destruct (ensure_crontab_scope_permission _ e t old _ _) as [[]|] eqn:Es; [|by intros [= <- <-]]. rewrite mbind_lift.
  destruct (ensure_crontab_payload_write_permission _ e t cron_type) as [[]|] eqn:Ep; [|by intros [= <- <-]]. rewrite mbind_lift.
  destruct (check_expression expression) as [[]|] eqn:Ee; [|by intros [= <- <-]]. rewrite mbind_lift.
  destruct (encode_cron_type cron_type) as [value|] eqn:En; [|by intros [= <- <-]]. rewrite mbind_run.
  destruct (mmap_err _ _ w2) as [w3 r3] eqn:Ei. apply cron_update_run in Ei as [Hc3 Hr3].
  destruct r3 as [x|]; [|intros [= <- <-]; split; congruence]. destruct Hr3 as (Hr3 & r0 & Hr0 & Hid & ->). rewrite mbind_run.
  destruct (refresh_run (E := anyhow) (upsert_entry (set_payload expression value r0)) w3) as (w4 & -> & Hr4 & Hc4).
  intros [= <- <-]. apply check_expression_ok in Ee as [s Hs]. apply encode_cron_type_ok in En.
  unfold parse_cron_type in Eo. apply map_err_ok in Eo.
  exists t, m, old, value. split_and!; try done; [by eapply scope_permission|by apply payload_permission|by rewrite Hr4, Hr3, Hr2|].
  intros c. rewrite Hc4. destruct (cw_cache w3) as [c3|]; [|done]. intros [= <-].
  destruct (upsert_scheduled (set_payload expression value r0) c3 cron_type s) as (x & Hx & Ht & Hsx & _);
    [done|by eapply cron_type_roundtrip|]. exists x. rewrite <-Hid. split_and!; [done|done|congruence].
Qed.
End authority.
