(* ===== verification/CronTask.v ===== *)
(** * Running scheduled jobs

    [ng-crontab/src/task.rs] and the job runners of [server_cron.rs]: handing a task to every
    connected agent of a job, withdrawing the rows of those it could not be handed to,
    and the [crontab_result] rows that report the run.  [meanwhile] is what other coroutines
    did to the sessions between the first look at them and the sends; the sends run
    concurrently and complete in any order ([send_order], [join_order]). *)
From stdpp Require Import base strings gmap list numbers pretty.
From Stdlib Require Import Ascii.
From S2P Require Import Prelude Errors Json Db Permission TaskTypes TaskManager Tasks TaskThms Retention TaskQuery CronCache.

Record DispatchPolicy : Type := { aggregate_success_result : bool }.
Definition default_policy : DispatchPolicy := {| aggregate_success_result := true |}.

(** [set_dispatch_policy] and [dispatch_policy]. *)
Definition set_dispatch_policy (policy : DispatchPolicy) (slot : option DispatchPolicy) : option DispatchPolicy :=
  Some policy.
Definition dispatch_policy (slot : option DispatchPolicy) : DispatchPolicy := default default_policy slot.

Definition ALL_OFFLINE_THROTTLE_MS : Z := 10 * 60 * 1000.
Definition ALL_OFFLINE_MESSAGE_PREFIX : string := "全部目标 Agent 离线".
Definition all_offline_like_pattern : list ascii := String.list_ascii_of_string (ALL_OFFLINE_MESSAGE_PREFIX +:+ "%").

Record RunWorld (T R : Type) : Type := {
  rw_task : option T;        (** the [task] table, through the one connection *)
  rw_result : R;             (** the [crontab_result] table *)
  rw_manager : TaskManager;
  rw_policy : option DispatchPolicy }.
Arguments rw_task {T R}. Arguments rw_result {T R}. Arguments rw_manager {T R}. Arguments rw_policy {T R}.

Definition result_row (cron_id : Z) (cron_name : string) (relative_id : option Z) (now : Z) (success : bool)
    (message : string) (id : Z) : CrontabResult :=
  {| cr_id := id; cr_cron_id := cron_id; cr_cron_name := cron_name; cr_relative_id := relative_id;
     cr_run_time := Some now; cr_success := Some success; cr_message := Some message |}.

(** What [JsWorkerScheduler::enqueue_run] of the injected scheduler returns. *)
Definition JsScheduler : Type := string -> Json -> result string Z.

Section run.
Context {T R : Type} {tops : TableOps T TaskModel} {rops : TableOps R CrontabResult} {serde : TaskSerde}.
Variables (uuid_display : Uuid -> string) (ceq : ascii -> ascii -> bool).
Variables (now : Z) (random : nat -> string) (meanwhile : TaskManager -> TaskManager).
Variables (send_order : list TaskModel -> list TaskModel).

#[local] Notation W := (RunWorld T R).
#[local] Notation Out := (Uuid * Z * result TaskSendError unit)%type.
Variable join_order : list Out -> list Out.

Definition with_task (t : T) (w : W) : W :=
  {| rw_task := Some t; rw_result := rw_result w; rw_manager := rw_manager w; rw_policy := rw_policy w |}.
Definition with_result (r : R) (w : W) : W :=
  {| rw_task := rw_task w; rw_result := r; rw_manager := rw_manager w; rw_policy := rw_policy w |}.
Definition with_manager (m : TaskManager) (w : W) : W :=
  {| rw_task := rw_task w; rw_result := rw_result w; rw_manager := m; rw_policy := rw_policy w |}.

(** ** The report when no agent is connected *)

Definition recent_offline_report (cron_id : Z) (r : CrontabResult) : bool :=
  (cr_cron_id r =? cron_id)%Z && bool_decide (cr_success r = Some false)
  && match cr_run_time r with Some t => (now - ALL_OFFLINE_THROTTLE_MS <=? t)%Z | None => false end
  && match cr_message r with
     | Some m => like ceq all_offline_like_pattern (String.list_ascii_of_string m)
     | None => false
     end.

Definition offline_message (skipped : nat) : string :=
  ALL_OFFLINE_MESSAGE_PREFIX +:+ "（" +:+ pretty skipped +:+
  " 个），本次未下发；请检查 Agent 是否在线且 allow_task 已开启（同一 cron 10 分钟内只记一条）".

Definition report_all_offline (cron_id : Z) (cron_name : string) (skipped : nat) (w : W) : W :=
  let '(r1, found) := find_one (recent_offline_report cron_id) (rw_result w) in
  let recently_reported := match found with Ok row => bool_decide (is_Some row) | Err _ => false end in
  if recently_reported then with_result r1 w
  else with_result (fst (insert_auto (result_row cron_id cron_name None now false (offline_message skipped)) r1)) w.

(** ** Handing out the tasks *)

Definition cron_task_row (cron_name : string) (value : Json) (uuid : Uuid) (token : string) (id : Z) : TaskModel :=
  {| t_id := id; t_uuid := uuid; t_token := token; t_cron_source := Some cron_name; t_timestamp := None;
     t_success := None; t_error_message := None; t_task_event_type := value; t_task_event_result := None;
     t_created_at := Some now |}.

Definition task_models (cron_name : string) (value : Json) (uuids : list Uuid) : list (Z -> TaskModel) :=
  imap (fun k uuid => cron_task_row cron_name value uuid (random k)) uuids.

Definition pair_task_ids (models : list TaskModel) : list (Z * Uuid * string) :=
  map (fun m => (cast_unsigned64 (t_id m), t_uuid m, t_token m)) models.

Fixpoint send_all (task_event_type : TaskEventType) (dispatch : list (Z * Uuid * string)) (m : TaskManager) :
    TaskManager * list Out :=
  match dispatch with
  | [] => (m, [])
  | (task_id, uuid, token) :: rest =>
      let event := {| ev_task_id := task_id; ev_task_token := token; ev_task_event_type := task_event_type |} in
      let '(m1, r) := send_event uuid event m in
      let '(m2, outs) := send_all task_event_type rest m1 in
      (m2, (uuid, cast_signed64 task_id, r) :: outs)
  end.

(** The counters and lists the loop over the completed sends fills. *)
Record Tally : Type := {
  ta_results : list (Z -> CrontabResult);
  ta_undelivered : list Z;
  ta_success_count : Z;
  ta_skipped_on_send : Z;
  ta_sole_success : option Z;
  ta_success_rows : list (Z -> CrontabResult);
}.

Definition empty_tally : Tally :=
  {| ta_results := []; ta_undelivered := []; ta_success_count := 0; ta_skipped_on_send := 0;
     ta_sole_success := None; ta_success_rows := [] |}.

Definition tally_step (cron_id : Z) (cron_name : string) (requested_count : nat) (aggregate_success : bool)
    (s : Tally) (out : Out) : Tally :=
  let '(uuid, task_id, send_result) := out in
  match send_result with
  | Ok _ =>
      {| ta_results := ta_results s; ta_undelivered := ta_undelivered s;
         ta_success_count := ta_success_count s + 1; ta_skipped_on_send := ta_skipped_on_send s;
         ta_sole_success := if (requested_count =? 1)%nat then Some task_id else ta_sole_success s;
         ta_success_rows :=
           if aggregate_success then ta_success_rows s
           else ta_success_rows s ++ [result_row cron_id cron_name (Some task_id) now true
                  ("任务下发成功，Agent：[" +:+ uuid_display uuid +:+ "]，relative_id：" +:+ pretty task_id)] |}
  | Err send_err =>
      if is_not_connected send_err
      then {| ta_results := ta_results s; ta_undelivered := ta_undelivered s ++ [task_id];
              ta_success_count := ta_success_count s; ta_skipped_on_send := ta_skipped_on_send s + 1;
              ta_sole_success := ta_sole_success s; ta_success_rows := ta_success_rows s |}
      else {| ta_results := ta_results s ++ [result_row cron_id cron_name None now false
                ("任务下发失败，Agent：[" +:+ uuid_display uuid +:+ "]，错误：" +:+ send_error_message uuid_display send_err)];
              ta_undelivered := ta_undelivered s ++ [task_id];
              ta_success_count := ta_success_count s; ta_skipped_on_send := ta_skipped_on_send s;
              ta_sole_success := ta_sole_success s; ta_success_rows := ta_success_rows s |}
  end.

Definition crontab_results (cron_id : Z) (cron_name : string) (requested_count skipped_at_precheck : nat)
    (aggregate_success : bool) (s : Tally) : list (Z -> CrontabResult) :=
  if aggregate_success then
    if (0 <? ta_success_count s)%Z then
      let skipped_total := (Z.of_nat skipped_at_precheck + ta_skipped_on_send s)%Z in
      let offline_note := if (0 <? skipped_total)%Z then "，离线跳过：" +:+ pretty skipped_total else ""%string in
      ta_results s ++
      [result_row cron_id cron_name (if (requested_count =? 1)%nat then ta_sole_success s else None) now true
         ("任务下发成功，Agent 数：" +:+ pretty (ta_success_count s) +:+ "/" +:+ pretty requested_count +:+ offline_note)]
    else ta_results s
  else ta_results s ++ ta_success_rows s.

Definition has_task_id_in (ids : list Z) (r : TaskModel) : bool := bool_decide (t_id r ∈ ids).

(** The two batch statements at the end; a failure is only logged. *)
Definition delete_undelivered (ids : list Z) (w : W) : W :=
  match ids, rw_task w with
  | _ :: _, Some t => with_task (fst (delete_many (has_task_id_in ids) t)) w
  | _, _ => w
  end.
Definition save_results (l : list (Z -> CrontabResult)) (w : W) : W :=
  match l with
  | [] => w
  | _ => with_result (fst (insert_many l (rw_result w))) w
  end.

Definition crontab_task (cron_id : Z) (cron_name : string) (uuids : list Uuid) (task_event_type : TaskEventType)
    (w : W) : W :=
  match rw_task w with
  | None => w
  | Some t =>
      let requested_count := length uuids in
      if (requested_count =? 0)%nat then w else
      let uuids := connected_uuids uuids (rw_manager w) in
      let agent_count := length uuids in
      let skipped_at_precheck := (requested_count - agent_count)%nat in
      if (agent_count =? 0)%nat then report_all_offline cron_id cron_name skipped_at_precheck w else
      match try_set_json (task_type_to_value task_event_type) with
      | Err _ => w
      | Ok value =>
          match insert_many (task_models cron_name value uuids) t with
          | (t1, Err _) => with_task t1 (with_manager (meanwhile (rw_manager w)) w)
          | (t1, Ok inserted) =>
              let '(m, outs) := send_all task_event_type (pair_task_ids (send_order inserted)) (meanwhile (rw_manager w)) in
              let aggregate_success := aggregate_success_result (dispatch_policy (rw_policy w)) in
              let s := fold_left (tally_step cron_id cron_name requested_count aggregate_success) (join_order outs) empty_tally in
              save_results (crontab_results cron_id cron_name requested_count skipped_at_precheck aggregate_success s)
                (delete_undelivered (ta_undelivered s) (with_task t1 (with_manager m w)))
          end
      end
  end.

(** ** Jobs that run a script *)

Definition js_success_message (script : string) (run_id : Z) : string :=
  "已触发 JsWorker 定时任务，脚本名：" +:+ script +:+ "，relative_id：" +:+ pretty run_id.
Definition js_failure_message (script err : string) : string :=
  "触发 JsWorker 定时任务失败，脚本名：" +:+ script +:+ "，错误：" +:+ err.

Definition run_js_worker_job (scheduler : option JsScheduler) (cron_id : Z) (cron_name js_script_name : string)
    (params : Json) (w : W) : W :=
  match rw_task w with
  | None => w
  | Some _ =>
      let run_result := match scheduler with
                        | Some enqueue_run => enqueue_run js_script_name params
                        | None => Err "JsWorkerScheduler not initialized"%string
                        end in
      let '(success, message, relative_id) :=
        match run_result with
        | Ok run_id => (true, js_success_message js_script_name run_id, Some run_id)
        | Err err => (false, js_failure_message js_script_name err, None)
        end in
      with_result (fst (insert_auto (result_row cron_id cron_name relative_id now success message) (rw_result w))) w
  end.

Definition run_job_logic (scheduler : option JsScheduler) (job : Cron) (w : W) : W :=
  match job_type job with
  | CronAgent uuids (AgentTask task_event_type) => crontab_task (job_id job) (job_name job) uuids task_event_type w
  | CronServer (JsWorkerJob js_script_name params) =>
      run_js_worker_job scheduler (job_id job) (job_name job) js_script_name params w
  end.
End run.

(** ** Theorems

    A run hands one task to every connected agent of the job: exactly the tasks that were
    queued for their agent keep a row, and the reported successes and failures account for
    all of them.  A run that finds no agent connected reports it once per throttle window. *)

Notation SendResult := (result TaskSendError unit).

Definition is_sent (r : SendResult) : bool := is_ok r.
Definition is_full (r : SendResult) : bool := match r with Err (QueueFull _) => true | _ => false end.
Definition is_offline (r : SendResult) : bool := match r with Err (NotConnected _) => true | _ => false end.

(** [x] was handed to its agent's session. *)
Definition queued (m : TaskManager) (ty : TaskEventType) (x : TaskModel) : Prop :=
  exists reg tx c, peers m !! t_uuid x = Some (reg, tx) /\ channels m !! tx = Some c /\
    {| ev_task_id := cast_unsigned64 (t_id x); ev_task_token := t_token x; ev_task_event_type := ty |} ∈ ch_queue c.

Lemma queued_send m m' ty x uuid event r :
  queued m ty x -> send_event uuid event m = (m', r) -> queued m' ty x.
Proof.
  intros (reg & tx & c & Hp & Hc & He) Hs. apply send_event_spec in Hs. destruct r as [[]|[u|u]].
  - destruct Hs as (reg' & tx' & c' & Hp' & Hc' & _ & _ & ->). exists reg, tx.
    destruct (decide (tx = tx')) as [<-|Hne].
    + eexists. split; [done|]. simpl. rewrite lookup_insert_eq. split; [done|]. simpl.
      rewrite Hc in Hc'. injection Hc' as <-. apply elem_of_app. by left.
    + exists c. split; [done|]. simpl. by rewrite lookup_insert_ne.
  - destruct Hs as (-> & _). by exists reg, tx, c.
  - destruct Hs as (-> & _). by exists reg, tx, c.
Qed.

Lemma send_all_queued ty l : forall m m' outs x,
  send_all ty l m = (m', outs) -> queued m ty x -> queued m' ty x.
Proof.
  induction l as [|[[id uuid] token] l IH]; intros m m' outs x; simpl; [by intros [= <- _]|].
  destruct (send_event uuid _ m) as [m1 r] eqn:Es. destruct (send_all ty l m1) as [m2 outs2] eqn:Ea.
  intros [= <- _] Hq. eapply IH; [done|]. by eapply queued_send.
Qed.

(** A reason not to deliver to an agent outlasts further sends. *)
Lemma undeliverable_send m m' target err uuid event r :
  undeliverable m target err -> send_event uuid event m = (m', r) -> undeliverable m' target err.
Proof.
  intros Hu Hs. apply send_event_spec in Hs. destruct r as [[]|[u|u]]; [|by destruct Hs as (-> & _)..].
  destruct Hs as (reg' & tx' & c' & _ & Hc' & Ho & Hl & ->). destruct err as [v|v]; simpl in *.
  - destruct Hu as [-> [Hn|(reg & tx & Hp & Hcl)]]; (split; [done|]); [by left|]. right. exists reg, tx. split; [done|].
    intros c [(<- & <-)|(_ & Hc)]%lookup_insert_Some; [|auto]. specialize (Hcl c' Hc'). congruence.
  - destruct Hu as (-> & reg & tx & c & Hp & Hc & Hlen). split; [done|]. exists reg, tx.
    destruct (decide (tx = tx')) as [->|Hne]; [rewrite Hc in Hc'; injection Hc' as <-; lia|].
    exists c. by rewrite lookup_insert_ne.
Qed.

Lemma send_all_undeliverable ty l : forall m m' outs target err,
  send_all ty l m = (m', outs) -> undeliverable m target err -> undeliverable m' target err.
Proof.
  induction l as [|[[id uuid] token] l IH]; intros m m' outs target err; simpl; [by intros [= <- _]|].
  destruct (send_event uuid _ m) as [m1 r] eqn:Es. destruct (send_all ty l m1) as [m2 outs2] eqn:Ea.
  intros [= <- _] Hq. eapply IH; [done|]. by eapply undeliverable_send.
Qed.

(** Sending touches neither the sessions nor the callers waiting for a result. *)
Lemma send_all_frame ty l : forall m m' outs, send_all ty l m = (m', outs) ->
  peers m' = peers m /\ blocking_waiters m' = blocking_waiters m /\ oneshots m' = oneshots m /\ next_ref m' = next_ref m.
Proof.
  induction l as [|[[id uuid] token] l IH]; intros m m' outs; simpl; [by intros [= <- _]|].
  destruct (send_event uuid _ m) as [m1 r] eqn:Es. destruct (send_all ty l m1) as [m2 outs2] eqn:Ea.
  intros [= <- _]. apply send_event_frame in Es as (<- & <- & <- & <-). by apply IH in Ea.
Qed.

(** What became of a task, as the sessions stand after the run: it is in the queue of its
    agent's session, or that session is gone or its queue is full. *)
Definition outcome (m : TaskManager) (ty : TaskEventType) (p : TaskModel * SendResult) : Prop :=
  match p.2 with
  | Ok _ => queued m ty p.1
  | Err err => undeliverable m (t_uuid p.1) err
  end.

Definition out_of (p : TaskModel * SendResult) : Uuid * Z * SendResult := (t_uuid p.1, t_id p.1, p.2).

(** The outcome of each send, with the row it belongs to. *)
Lemma send_all_spec ty models : forall m m' outs,
  Forall (fun x => in_i64 (t_id x)) models ->
  send_all ty (pair_task_ids models) m = (m', outs) ->
  exists pairs, map fst pairs = models /\ outs = map out_of pairs /\
    Forall (outcome m' ty) pairs.
Proof.
  induction models as [|x models IH]; intros m m' outs Hi; simpl.
  { intros [= <- <-]. by exists []. }
  apply Forall_cons in Hi as [Hx Hi].
  destruct (send_event _ _ m) as [m1 r] eqn:Es. destruct (send_all ty _ m1) as [m2 outs2] eqn:Ea.
  intros [= <- <-]. destruct (IH _ _ _ Hi Ea) as (pairs & Hp & -> & Hq).
  exists ((x, r) :: pairs). simpl. split_and!; [by rewrite Hp|unfold out_of at 1; simpl; by rewrite cast_signed_unsigned64|].
  constructor; [|done]. unfold outcome. simpl. destruct r as [[]|err].
  2:{ eapply send_all_undeliverable; [done|]. eapply undeliverable_send; [|exact Es].
      apply send_event_spec in Es. destruct err; by destruct Es as (_ & ? & ?). }
  eapply send_all_queued; [done|]. apply send_event_spec in Es as (reg & tx & c & Hpe & Hc & _ & _ & ->).
  exists reg, tx. eexists. split; [done|]. simpl. rewrite lookup_insert_eq. split; [done|]. simpl.
  apply elem_of_app. right. by left.
Qed.

(** ** The tally *)

Definition failed_ids (outs : list (Uuid * Z * SendResult)) : list Z :=
  map (fun o => o.1.2) (List.filter (fun o => negb (is_sent o.2)) outs).

Definition count (p : SendResult -> bool) (outs : list (Uuid * Z * SendResult)) : nat :=
  length (List.filter (fun o => p o.2) outs).

Lemma count_perm p outs outs' : outs ≡ₚ outs' -> count p outs = count p outs'.
Proof. unfold count. by intros ->. Qed.

(** Rows that report on this run. *)
Definition reports (cron_id : Z) (cron_name : string) (now : Z) (success : bool) (r : CrontabResult) : Prop :=
  cr_cron_id r = cron_id /\ cr_cron_name r = cron_name /\ cr_run_time r = Some now /\ cr_success r = Some success.

Section tally.
Variables (uuid_display : Uuid -> string) (now cron_id : Z) (cron_name : string) (requested : nat) (aggregate : bool).

#[local] Notation step := (tally_step uuid_display now cron_id cron_name requested aggregate).
#[local] Notation made b mk := (forall i, reports cron_id cron_name now b (mk i)).

Record tallied (outs : list (Uuid * Z * SendResult)) (s s' : Tally) : Prop := {
  td_undelivered : ta_undelivered s' = ta_undelivered s ++ failed_ids outs;
  td_success : ta_success_count s' = (ta_success_count s + Z.of_nat (count is_sent outs))%Z;
  td_skipped : ta_skipped_on_send s' = (ta_skipped_on_send s + Z.of_nat (count is_offline outs))%Z;
  td_results : exists l, ta_results s' = ta_results s ++ l /\ length l = count is_full outs /\
                 Forall (fun mk => made false mk) l;
  td_rows : exists l, ta_success_rows s' = ta_success_rows s ++ l /\
              length l = (if aggregate then 0 else count is_sent outs) /\ Forall (fun mk => made true mk) l;
}.

Lemma tallied_cons o outs s s' : tallied [o] s (step s o) -> tallied outs (step s o) s' -> tallied (o :: outs) s s'.
Proof.
  assert (forall p, count p (o :: outs) = count p [o] + count p outs) as Hc.
  { intros p. unfold count. simpl. by destruct (p o.2). }
  assert (failed_ids (o :: outs) = failed_ids [o] ++ failed_ids outs) as Hf.
  { unfold failed_ids. simpl. by destruct (negb _). }
  intros [U1 S1 K1 (l1 & R1 & N1 & F1) (q1 & Q1 & M1 & G1)] [U2 S2 K2 (l2 & R2 & N2 & F2) (q2 & Q2 & M2 & G2)].
  split.
  - by rewrite U2, U1, Hf, app_assoc.
  - rewrite S2, S1, Hc. lia.
  - rewrite K2, K1, Hc. lia.
  - exists (l1 ++ l2). rewrite R2, R1, app_assoc, length_app, Hc, N1, N2. split_and!; [done|done|by apply Forall_app].
  - exists (q1 ++ q2). rewrite Q2, Q1, app_assoc, length_app, Hc, M1, M2.
    split_and!; [done|by destruct aggregate|by apply Forall_app].
Qed.

Lemma tallied_step s o : tallied [o] s (step s o).
Proof.
  destruct o as [[uuid id] [[]|[u|u]]]; unfold tally_step; simpl.
  - split; simpl; try (by rewrite ?app_nil_r, ?Z.add_0_r); [exists []; by rewrite app_nil_r|].
    destruct aggregate; [exists []; by rewrite app_nil_r|]. eexists. split_and!; [done|done|].
    constructor; [|constructor]. by intros i.
  - split; simpl; try (by rewrite ?app_nil_r, ?Z.add_0_r); exists []; rewrite app_nil_r; split_and!; by try destruct aggregate.
  - split; simpl; try (by rewrite ?app_nil_r, ?Z.add_0_r).
    + eexists. split_and!; [done|done|]. constructor; [|constructor]. by intros i.
    + exists []. rewrite app_nil_r. split_and!; by try destruct aggregate.
Qed.

Lemma tally_spec outs : forall s, tallied outs s (fold_left step outs s).
Proof.
  induction outs as [|o outs IH]; intros s; simpl.
  - split; try (exists []; rewrite app_nil_r; split_and!; by try destruct aggregate);
      unfold failed_ids, count; simpl; rewrite ?app_nil_r; lia || done.
  - apply tallied_cons; [apply tallied_step|apply IH].
Qed.

(** The rows of the report: one per full queue, and the successes as the policy wants them. *)
Lemma crontab_results_spec precheck outs :
  let l := crontab_results now cron_id cron_name requested precheck aggregate (fold_left step outs empty_tally) in
  exists bad good, l = bad ++ good /\
    Forall (fun mk => made false mk) bad /\ Forall (fun mk => made true mk) good /\
    length bad = count is_full outs /\
    length good = (if aggregate then Nat.min 1 (count is_sent outs) else count is_sent outs).
Proof.
  destruct (tally_spec outs empty_tally) as [_ HS _ (bad & HR & HN & HF) (good & HQ & HM & HG)].
  cbv zeta. unfold crontab_results. rewrite HS, HR, HQ. cbn [ta_success_count ta_results ta_success_rows empty_tally app].
  destruct aggregate.
  - destruct (Z.ltb_spec 0 (0 + Z.of_nat (count is_sent outs))) as [Hlt|Hge].
    + exists bad. eexists. split_and!; [done|done| |done|cbn [length]; lia]. constructor; [|constructor]. by intros i.
    + exists bad, []. rewrite app_nil_r. split_and!; [done|done|constructor|done|cbn [length]; lia].
  - exists bad, good. done.
Qed.
End tally.

(** ** Which rows stay *)

(** Deleting by the keys of the failed sends keeps exactly the rows whose send succeeded. *)
Lemma keep_sent pairs :
  NoDup (map (fun p => t_id p.1) pairs) ->
  List.filter (fun x => negb (has_task_id_in (failed_ids (map out_of pairs)) x)) (map fst pairs) =
  map fst (List.filter (fun p => is_sent p.2) pairs).
Proof.
  induction pairs as [|[x r] pairs IH]; [done|]. cbn [map fst]. intros [Hx Hnd]%NoDup_cons. specialize (IH Hnd).
  assert (forall i, i ∈ failed_ids (map out_of pairs) -> i ∈ map (fun p => t_id p.1) pairs) as Hsub.
  { intros i. unfold failed_ids. rewrite !list_elem_of_fmap. intros (o & -> & [Ho _]%list_filter_elem).
    apply list_elem_of_fmap in Ho as (p & -> & Hp). by exists p. }
  assert (failed_ids (out_of (x, r) :: map out_of pairs) =
          if is_sent r then failed_ids (map out_of pairs) else t_id x :: failed_ids (map out_of pairs)) as ->.
  { unfold failed_ids. simpl. by destruct (is_sent r). }
  simpl List.filter. unfold has_task_id_in at 1. destruct (is_sent r) eqn:Er; simpl.
  - rewrite bool_decide_eq_false_2 by auto. simpl. by rewrite IH.
  - rewrite bool_decide_eq_true_2 by left. simpl. rewrite <-IH. apply filter_ext_in. intros y Hy.
    unfold has_task_id_in. f_equal. apply bool_decide_ext. rewrite elem_of_cons. split; [|by right].
    intros [Heq|?]; [|done]. destruct Hx. rewrite <-Heq. apply list_elem_of_In, list_elem_of_fmap in Hy as (p & -> & Hp).
    by apply (list_elem_of_fmap_2 (fun p => t_id p.1)).
Qed.

(** ** A run with connected agents *)

Section dispatch.
Context {T R : Type} {tops : TableOps T TaskModel} {rops : TableOps R CrontabResult} {serde : TaskSerde}.
Context {tlaws : TableLaws tops task_conflict} {rlaws : TableLaws rops crontab_result_conflict}.
Variables (uuid_display : Uuid -> string) (ceq : ascii -> ascii -> bool).
Variables (now : Z) (random : nat -> string) (meanwhile : TaskManager -> TaskManager).
Variables (send_order : list TaskModel -> list TaskModel)
  (join_order : list (Uuid * Z * SendResult) -> list (Uuid * Z * SendResult)).
Context (send_perm : forall l, send_order l ≡ₚ l) (join_perm : forall l, join_order l ≡ₚ l).

#[local] Notation W := (RunWorld T R).
#[local] Notation run := (crontab_task uuid_display ceq now random meanwhile send_order join_order).

Definition task_table_rows (w : W) : list TaskModel := match rw_task w with Some t => rows t | None => [] end.
Definition result_table_rows (w : W) : list CrontabResult := rows (rw_result w).

(** A fresh pending row of this run. *)
Definition cron_task (cron_name : string) (ty : TaskEventType) (x : TaskModel) : Prop :=
  in_i64 (t_id x) /\ exists value token,
    task_type_to_value ty = Ok value /\ x = cron_task_row now cron_name value (t_uuid x) token (t_id x).

Lemma inserted_models cron_name value uuids l ty :
  task_type_to_value ty = Ok value ->
  Forall2 (fun mk x => exists i, in_i64 i /\ x = mk i) (task_models now random cron_name value uuids) l ->
  map t_uuid l = uuids /\ Forall (cron_task cron_name ty) l.
Proof.
  intros Hv. unfold task_models. generalize random as f. revert l.
  induction uuids as [|u uuids IH]; intros l f; simpl; intros H.
  - apply Forall2_nil_inv_l in H as ->. done.
  - apply Forall2_cons_inv_l in H as (x & l' & (i & Hi & ->) & H & ->).
    destruct (IH l' (f ∘ S) H) as [<- Hl]. split; [done|]. constructor; [|done].
    split; [done|]. exists value, (f 0). done.
Qed.

Lemma task_ids_NoDup l : unique_rows task_conflict l = true -> NoDup (map t_id l).
Proof.
  induction l as [|x l IH]; [constructor|]. intros [Hx Hl]%unique_rows_cons. simpl. constructor; [|by apply IH].
  intros Hin. apply list_elem_of_fmap in Hin as (y & Hy & Hin). pose proof (Hx y Hin) as Hf.
  unfold task_conflict in Hf. by rewrite Hy, Z.eqb_refl in Hf.
Qed.

(** Deleting the undelivered rows of a batch leaves the delivered ones and all older rows. *)
Lemma delete_failed models pairs old ids t1 t2 n :
  ids ≡ₚ failed_ids (map out_of pairs) -> map fst pairs ≡ₚ models -> rows t1 ≡ₚ models ++ old -> unique_rows task_conflict (rows t1) = true ->
  delete_many (has_task_id_in ids) t1 = (t2, Ok n) ->
  rows t2 ≡ₚ map fst (List.filter (fun p => is_sent p.2) pairs) ++ old.
Proof using tlaws.
  intros Hids Hp Ht1 Hu Hd. apply delete_many_ok in Hd as [-> _].
  rewrite (filter_ext _ (fun x => negb (has_task_id_in (failed_ids (map out_of pairs)) x)))
    by (intros x; unfold has_task_id_in; f_equal; apply bool_decide_ext; by rewrite Hids).
  rewrite Ht1, <-Hp, List.filter_app.
  assert (NoDup (map t_id (map fst pairs ++ old))) as Hnd.
  { apply task_ids_NoDup. eapply unique_rows_perm; [apply task_conflict_sym| |exact Hu]. by rewrite Ht1, Hp. }
  rewrite map_app in Hnd. apply NoDup_app in Hnd as (Hnd & Hdisj & _).
  rewrite keep_sent by (rewrite map_map in Hnd; exact Hnd). apply Permutation_app_head.
  assert (List.filter (fun x => negb (has_task_id_in (failed_ids (map out_of pairs)) x)) old = old) as ->; [|done].
  assert (forall y, y ∈ old -> has_task_id_in (failed_ids (map out_of pairs)) y = false) as Hold.
  { intros y Hy. unfold has_task_id_in. apply bool_decide_eq_false_2. intros Hin.
    apply (Hdisj (t_id y)); [|by apply list_elem_of_fmap_2].
    unfold failed_ids in Hin. apply list_elem_of_fmap in Hin as (o & -> & [Ho _]%list_filter_elem).
    apply list_elem_of_fmap in Ho as (p & -> & Hp'). simpl. by apply list_elem_of_fmap_2, list_elem_of_fmap_2. }
  clear -Hold. induction old as [|y old IH]; [done|]. simpl. rewrite (Hold y) by left. simpl. f_equal.
  apply IH. intros z Hz. apply Hold. by right.
Qed.

(** The report that was stored. *)
Definition reported (cron_id : Z) (cron_name : string) (aggregate : bool) (outs : list (Uuid * Z * SendResult))
    (l : list CrontabResult) : Prop :=
  exists bad good, l = bad ++ good /\
    Forall (reports cron_id cron_name now false) bad /\ Forall (reports cron_id cron_name now true) good /\
    length bad = count is_full outs /\
    length good = (if aggregate then Nat.min 1 (count is_sent outs) else count is_sent outs).

Lemma save_results_run cron_id cron_name requested precheck aggregate outs outs' (w : W) :
  outs' ≡ₚ outs ->
  let w' := save_results (crontab_results now cron_id cron_name requested precheck aggregate
              (fold_left (tally_step uuid_display now cron_id cron_name requested aggregate) outs' empty_tally)) w in
  rw_task w' = rw_task w /\ rw_manager w' = rw_manager w /\
  ((exists l, reported cron_id cron_name aggregate outs l /\ result_table_rows w' ≡ₚ l ++ result_table_rows w) \/
   (result_table_rows w' = result_table_rows w /\
    is_ok (snd (insert_many (crontab_results now cron_id cron_name requested precheck aggregate
      (fold_left (tally_step uuid_display now cron_id cron_name requested aggregate) outs' empty_tally)) (rw_result w))) = false)).
Proof using rlaws.
  intros Hp. cbv zeta.
  destruct (crontab_results_spec uuid_display now cron_id cron_name requested aggregate precheck outs')
    as (bad & good & -> & Hb & Hg & Nb & Ng).
  rewrite (count_perm _ _ _ Hp) in Nb. rewrite (count_perm _ _ _ Hp) in Ng.
  assert (forall mks l b, Forall (fun mk => forall i, reports cron_id cron_name now b (mk i)) mks ->
    Forall2 (fun mk x => exists i, in_i64 i /\ x = mk i) mks l -> Forall (reports cron_id cron_name now b) l) as Hmade.
  { intros mks l b H H2. induction H2 as [|mk x mks l (i & _ & ->) H2 IH]; [constructor|].
    apply Forall_cons in H as [? ?]. constructor; auto. }
  unfold save_results, result_table_rows. destruct (bad ++ good) as [|mk mks] eqn:El.
  - split_and!; [done|done|]. left. apply app_eq_nil in El as [-> ->]. exists []. split; [|done].
    exists [], []. done.
  - rewrite <-El. split_and!; [done|done|]. destruct (insert_many (bad ++ good) (rw_result w)) as [r' [l|err]] eqn:Ei; simpl.
    + left. apply insert_many_ok in Ei as [Hr H2]. exists l. split; [|done].
      apply Forall2_app_inv_l in H2 as (lb & lg & H2b & H2g & ->). exists lb, lg.
      rewrite <-(Forall2_length _ _ _ H2b), <-(Forall2_length _ _ _ H2g). split_and!; eauto.
    + right. split; [by eapply insert_many_err|done].
Qed.

Lemma failed_ids_perm outs outs' : outs ≡ₚ outs' -> failed_ids outs ≡ₚ failed_ids outs'.
Proof. unfold failed_ids. by intros ->. Qed.

Lemma no_failures pairs : failed_ids (map out_of pairs) = [] -> List.filter (fun p => is_sent p.2) pairs = pairs.
Proof.
  unfold failed_ids. induction pairs as [|[x r] pairs IH]; [done|]. simpl. destruct (is_sent r); simpl; [|done].
  intros H. by rewrite IH.
Qed.

(** The rows after the clean-up. *)
Lemma cleanup_run models pairs old ids t1 (w : W) :
  ids ≡ₚ failed_ids (map out_of pairs) -> map fst pairs ≡ₚ models -> rows t1 ≡ₚ models ++ old ->
  unique_rows task_conflict (rows t1) = true ->
  let w' := delete_undelivered ids (with_task t1 w) in
  rw_result w' = rw_result w /\ rw_manager w' = rw_manager w /\
  (task_table_rows w' ≡ₚ map fst (List.filter (fun p => is_sent p.2) pairs) ++ old \/
   (task_table_rows w' ≡ₚ map fst pairs ++ old /\ ids <> [] /\ is_ok (snd (delete_many (has_task_id_in ids) t1)) = false)).
Proof using tlaws.
  intros Hids Hp Ht1 Hu. cbv zeta. unfold delete_undelivered, task_table_rows. destruct ids as [|i ids].
  - split_and!; [done|done|]. left. apply Permutation_nil_l in Hids. rewrite no_failures by done. simpl. by rewrite Ht1, Hp.
  - split_and!; [done|done|]. simpl. destruct (delete_many _ t1) as [t2 [n|err]] eqn:Ed; simpl.
    + left. by eapply delete_failed.
    + right. split; [rewrite (delete_many_err _ _ _ _ Ed); by rewrite Ht1, Hp|done].
Qed.

(** The rows of a run, one for each connected agent of the job, if the task has a JSON form. *)
Definition task_batch (cron_name : string) (ty : TaskEventType) (w : W) (uuids : list Uuid) : option (list (Z -> TaskModel)) :=
  match task_type_to_value ty with
  | Ok value => Some (task_models now random cron_name value (connected_uuids uuids (rw_manager w)))
  | Err _ => None
  end.

(** C10: a run of an agent job accounts for every connected agent.  Only if the task has no
    JSON form, or the one statement that inserts a row per connected agent fails, are both
    tables as before.  Otherwise each connected agent got one row; a task counted as sent
    is in the queue of its agent's session, under the id and token of its row, and every
    other one could not be delivered, because that session is gone or its queue is full; the rows of the sent ones are all that the run adds, unless the statement that
    deletes the others fails, and the report holds one failure per full queue and the
    successes, as one row or one each, unless the statement that stores it fails. *)
Theorem dispatch_accounts cron_id cron_name uuids ty t w :
  rw_task w = Some t -> unique_rows task_conflict (rows t) = true ->
  connected_uuids uuids (rw_manager w) <> [] ->
  let w' := run cron_id cron_name uuids ty w in
  let agg := aggregate_success_result (dispatch_policy (rw_policy w)) in
  match option_map (fun mks => insert_many mks t) (task_batch cron_name ty w uuids) with
  | None | Some (_, Err _) =>
      task_table_rows w' = task_table_rows w /\ result_table_rows w' = result_table_rows w
  | Some (t1, Ok inserted) => exists pairs,
      map fst pairs ≡ₚ inserted /\
      map (fun p => t_uuid p.1) pairs ≡ₚ connected_uuids uuids (rw_manager w) /\
      Forall (fun p => cron_task cron_name ty p.1) pairs /\
      peers (rw_manager w') = peers (meanwhile (rw_manager w)) /\
      Forall (outcome (rw_manager w') ty) pairs /\
      (task_table_rows w' ≡ₚ map fst (List.filter (fun p => is_sent p.2) pairs) ++ task_table_rows w \/
       (task_table_rows w' ≡ₚ map fst pairs ++ task_table_rows w /\
        exists ids, ids ≡ₚ failed_ids (map out_of pairs) /\ ids <> [] /\
          is_ok (snd (delete_many (has_task_id_in ids) t1)) = false)) /\
      ((exists l, reported cron_id cron_name agg (map out_of pairs) l /\
          result_table_rows w' ≡ₚ l ++ result_table_rows w) \/
       (result_table_rows w' = result_table_rows w /\
        is_ok (snd (insert_many (crontab_results now cron_id cron_name (length uuids)
                 (length uuids - length (connected_uuids uuids (rw_manager w))) agg
                 (fold_left (tally_step uuid_display now cron_id cron_name (length uuids) agg)
                    (join_order (map out_of pairs)) empty_tally)) (rw_result w))) = false))
  end.
Proof using tlaws rlaws send_perm join_perm.
  intros Ht Hu Hne. cbv zeta. unfold crontab_task, task_batch. rewrite Ht.
  assert (length uuids =? 0 = false)%nat as ->.
  { apply Nat.eqb_neq. intros H0. apply length_zero_iff_nil in H0 as ->. done. }
  assert (length (connected_uuids uuids (rw_manager w)) =? 0 = false)%nat as ->.
  { apply Nat.eqb_neq. intros H0. by apply length_zero_iff_nil in H0. }
  unfold try_set_json. destruct (task_type_to_value ty) as [value|] eqn:Ev; simpl map_err; [|done].
  cbv iota beta. cbn [option_map].
  destruct (insert_many (task_models now random cron_name value (connected_uuids uuids (rw_manager w))) t)
    as [t1 [inserted|err]] eqn:Ei.
  2:{ unfold task_table_rows, result_table_rows. simpl. by rewrite Ht, (insert_many_err _ _ _ _ Ei). }
  pose proof (insert_many_unique _ _ _ _ Ei Hu) as Hu1. apply insert_many_ok in Ei as [Hr1 H2].
  destruct (inserted_models _ _ _ _ ty Ev H2) as [Huuids Hcron].
  destruct (send_all ty _ _) as [m outs] eqn:Es. pose proof (send_all_frame _ _ _ _ _ Es) as (Hpeers & _).
  apply send_all_spec in Es as (pairs & Hp & -> & Hq).
  2:{ rewrite send_perm. eapply Forall_impl; [exact Hcron|]. by intros x [? _]. }
  assert (map fst pairs ≡ₚ inserted) as Hperm by by rewrite Hp.
  set (agg := aggregate_success_result _). set (n := length uuids).
  set (s := fold_left _ _ _).
  assert (ta_undelivered s ≡ₚ failed_ids (map out_of pairs)) as Hids.
  { destruct (tally_spec uuid_display now cron_id cron_name n agg (join_order (map out_of pairs)) empty_tally) as [Hs _ _ _ _].
    fold s in Hs. rewrite Hs. simpl. apply failed_ids_perm, join_perm. }
  destruct (cleanup_run inserted pairs (rows t) (ta_undelivered s) t1 (with_manager m w) Hids Hperm Hr1 Hu1)
    as (Hres & Hman & Hrows).
  set (w2 := delete_undelivered _ _) in *.
  destruct (save_results_run cron_id cron_name n (n - length (connected_uuids uuids (rw_manager w))) agg
              (map out_of pairs) (join_order (map out_of pairs)) w2 (join_perm _)) as (Ht3 & Hm3 & Hr3).
  fold s in Ht3, Hm3, Hr3.
  exists pairs. split_and!; [done| | | | | |].
  - rewrite <-Huuids, <-Hperm, map_map. done.
  - apply Forall_forall. intros p Hin. rewrite Forall_forall in Hcron. apply Hcron.
    rewrite <-Hperm. by apply list_elem_of_fmap_2.
  - rewrite Hm3, Hman. done.
  - rewrite Hm3, Hman. done.
  - unfold task_table_rows in *. rewrite Ht3, Ht. destruct Hrows as [Hrows|(Hrows & Hn & Hd)]; [by left|right].
    split; [exact Hrows|]. by exists (ta_undelivered s).
  - unfold result_table_rows in *. rewrite Hres in Hr3. exact Hr3.
Qed.

(** A run that finds all agents of a job offline touches neither tasks nor sessions,
    and reports the failure at most once per ten minutes: if such a report of this job is
    already stored, nothing is added; otherwise one failure row is, unless the database is
    down. *)
Theorem offline_report_throttled cron_id cron_name uuids ty t w :
  rw_task w = Some t -> uuids <> [] -> connected_uuids uuids (rw_manager w) = [] ->
  is_ok (snd (find_one (recent_offline_report ceq now cron_id) (rw_result w))) = true ->
  let w' := run cron_id cron_name uuids ty w in
  rw_task w' = rw_task w /\ rw_manager w' = rw_manager w /\
  (if existsb (recent_offline_report ceq now cron_id) (result_table_rows w)
   then result_table_rows w' = result_table_rows w
   else (exists x, result_table_rows w' ≡ₚ x :: result_table_rows w /\ reports cron_id cron_name now false x /\
          cr_message x = Some (offline_message (length uuids))) \/
        (result_table_rows w' = result_table_rows w /\ exists r1 mk, is_ok (snd (insert_auto (Row := CrontabResult) (DB := R) mk r1)) = false)).
Proof using rlaws.
  intros Ht Hne Hc Hok. cbv zeta. unfold crontab_task. rewrite Ht, Hc. simpl length. rewrite Nat.sub_0_r.
  assert (length uuids =? 0 = false)%nat as -> by (apply Nat.eqb_neq; by intros ?%length_zero_iff_nil).
  simpl. unfold report_all_offline, result_table_rows.
  destruct (find_one _ (rw_result w)) as [r1 [found|]] eqn:Ef; [|done]. pose proof (find_one_rows _ _ _ _ Ef) as Hr.
  destruct found as [x|]; simpl.
  - apply find_one_some in Ef as [Hx Hp]. split_and!; [done|done|].
    assert (existsb (recent_offline_report ceq now cron_id) (rows (rw_result w)) = true) as ->; [|done].
    apply existsb_exists. exists x. by rewrite <-list_elem_of_In.
  - split_and!; [done|done|]. apply find_one_none in Ef. apply existsb_no_match in Ef as ->.
    destruct (insert_auto (result_row cron_id cron_name None now false (offline_message (length uuids))) r1) as [r2 [i|err]] eqn:Ei; simpl.
    + left. apply insert_auto_ok in Ei as [Hp _]. eexists. rewrite Hp, Hr. done.
    + right. split; [by apply insert_auto_err in Ei as [-> _]|]. eexists _, _. by rewrite Ei.
Qed.
End dispatch.
