(* ===== verification/TaskRun.v ===== *)
(** * The task service over time

    Everything that touches the [task] table, interleaved: the handlers of [ng-task] (a
    blocking call up to and from its [await], an upload up to and from its update), the
    deletion of tasks, the retention sweep and the cron runs, and the single [DELETE]
    statements the last three issue, since other requests run between those.  [sys_calls] are
    the blocking calls that have been started and not resumed. *)
From stdpp Require Import base strings gmap list numbers pretty relations sorting.
From Stdlib Require Import Ascii.
From S2P Require Import Prelude Errors Json Db Permission TokenCache TokenCheck KvAuth KvStore KvRefine UuidCache Purge Selection TaskTypes Retention RetentionThms TaskManager CronTask TaskQuery Tasks TaskThms.

(** ** Identifiers travel as [u64] and are stored as [i64] *)

Lemma cast_unsigned_inj a b : in_i64 a -> in_i64 b -> cast_unsigned64 a = cast_unsigned64 b -> a = b.
Proof. intros Ha Hb H. by rewrite <-(cast_signed_unsigned64 a), H, cast_signed_unsigned64. Qed.

Section runs.
Context {DB U : Type} {ops : TableOps DB TaskModel} {uuid_ops : TableOps U UuidModel}.
Context {laws : TableLaws ops task_conflict} {keys : KeyGenerator ops} {serde : TaskSerde}.
(** The other tables of a sweep and of a cron run. *)
Context {C J K V : Type} {cron_ops : TableOps C CrontabResult} {js_ops : TableOps J JsResultModel}.
Context {kv_ops : TableOps K KvRow} {agent_ops : TableOps V UuidModel}.
Variable uuid_display : Uuid -> string.

#[local] Notation W := (TaskWorld DB U).

Record System : Type := { sys_world : W; sys_calls : gmap nat Z }.

(** What sessions coming and going do to the manager. *)
Definition session_only (f : TaskManager -> TaskManager) : Prop := forall m,
  blocking_waiters (f m) = blocking_waiters m /\ oneshots (f m) = oneshots m /\
  (next_ref m <= next_ref (f m))%nat.

Definition with_task_db (d : option DB) (w : W) : W := {| tw_db := d; tw_manager := tw_manager w; tw_uuid := tw_uuid w |}.

Inductive task_step : System -> System -> Prop :=
| step_create e random now meanwhile token target task_type w w' r calls :
    session_only meanwhile ->
    create_task uuid_display e random now meanwhile token target task_type w = (w', r) ->
    task_step {| sys_world := w; sys_calls := calls |} {| sys_world := w'; sys_calls := calls |}
| step_blocking_start e random now meanwhile token target task_type w w' r calls :
    session_only meanwhile ->
    create_task_blocking_start uuid_display e random now meanwhile token target task_type w = (w', r) ->
    task_step {| sys_world := w; sys_calls := calls |}
      {| sys_world := w';
         sys_calls := match r with Ok (task_id, rx) => <[rx := task_id]> calls | Err _ => calls end |}
| step_blocking_finish task_id rx timeout_ms w w' r calls :
    calls !! rx = Some task_id ->
    create_task_blocking_finish task_id rx timeout_ms w = (w', r) ->
    task_step {| sys_world := w; sys_calls := calls |} {| sys_world := w'; sys_calls := delete rx calls |}
| step_upload_check e token resp w w' r calls :
    upload_check e token resp w = (w', r) ->
    task_step {| sys_world := w; sys_calls := calls |} {| sys_world := w'; sys_calls := calls |}
| step_upload_commit resp value w w' r calls :
    in_u64 (tr_task_id resp) -> encode_result (tr_task_event_result resp) = Ok value ->
    upload_commit resp value w = (w', r) ->
    task_step {| sys_world := w; sys_calls := calls |} {| sys_world := w'; sys_calls := calls |}
| step_query ceq json_text e token conds w w' r calls :
    query_tasks ceq json_text e token conds w = (w', r) ->
    task_step {| sys_world := w; sys_calls := calls |} {| sys_world := w'; sys_calls := calls |}
| step_delete ceq json_text e token conds w w' r calls :
    delete_tasks ceq json_text e token conds w = (w', r) ->
    task_step {| sys_world := w; sys_calls := calls |} {| sys_world := w'; sys_calls := calls |}
| step_sweep now_ms dry_run margin (rw rw' : RWorld DB C J K V) r w calls :
    tw_db w = Some (Retention.rw_task rw) ->
    sweep_once uuid_display now_ms dry_run margin rw = (rw', r) ->
    task_step {| sys_world := w; sys_calls := calls |}
      {| sys_world := with_task_db (Some (Retention.rw_task rw')) w; sys_calls := calls |}
| step_cron ceq now random meanwhile send_order join_order cron_id cron_name uuids ty (cw : RunWorld DB C) w calls :
    session_only meanwhile -> tw_db w = rw_task cw -> tw_manager w = rw_manager cw ->
    let cw' := crontab_task uuid_display ceq now random meanwhile send_order join_order cron_id cron_name uuids ty cw in
    task_step {| sys_world := w; sys_calls := calls |}
      {| sys_world := {| tw_db := rw_task cw'; tw_manager := rw_manager cw'; tw_uuid := tw_uuid w |}; sys_calls := calls |}
| step_delete_statement p d d' r w calls :
    tw_db w = Some d -> delete_many p d = (d', r) ->
    task_step {| sys_world := w; sys_calls := calls |} {| sys_world := with_task_db (Some d') w; sys_calls := calls |}
| step_sessions f w calls :
    session_only f ->
    task_step {| sys_world := w; sys_calls := calls |}
      {| sys_world := {| tw_db := tw_db w; tw_manager := f (tw_manager w); tw_uuid := tw_uuid w |};
         sys_calls := calls |}.

(** The row carries the response. *)
Definition recorded (resp : TaskEventResponse) (x : TaskModel) : Prop :=
  tr_task_id resp = cast_unsigned64 (t_id x) /\ t_uuid x = tr_agent_uuid resp /\
  t_token x = tr_task_token resp /\ t_success x = Some (tr_success resp) /\
  t_timestamp x = Some (cast_signed64 (tr_timestamp resp)) /\
  t_error_message x = tr_error_message resp /\
  encode_result (tr_task_event_result resp) = Ok (t_task_event_result x).

(** A started call, by the rows with its id (one, or none once it has been deleted): it waits
    and the row is pending, or the response is in its channel and the row carries it. *)
Definition call_state (m : TaskManager) (rx : nat) (task_id : Z) (l : list TaskModel) : Prop :=
  (oneshots m !! rx = Some Waiting /\ blocking_waiters m !! task_id = Some rx /\
   forall x, x ∈ l -> cast_unsigned64 (t_id x) = task_id -> is_pending x = true) \/
  (exists resp, oneshots m !! rx = Some (Sent resp) /\ blocking_waiters m !! task_id = None /\
   forall x, x ∈ l -> cast_unsigned64 (t_id x) = task_id -> recorded resp x).

Record system_ok (s : System) : Prop := {
  ok_unique : tasks_unique (sys_world s);
  ok_ids : forall x, x ∈ task_rows (sys_world s) -> in_i64 (t_id x) /\ key_issued (sys_world s) (t_id x);
  ok_waiters : forall task_id rx, blocking_waiters (tw_manager (sys_world s)) !! task_id = Some rx ->
    sys_calls s !! rx = Some task_id;
  ok_calls : forall rx task_id, sys_calls s !! rx = Some task_id ->
    (rx < next_ref (tw_manager (sys_world s)))%nat /\
    (exists id, in_i64 id /\ cast_unsigned64 id = task_id /\ key_issued (sys_world s) id) /\
    call_state (tw_manager (sys_world s)) rx task_id (task_rows (sys_world s));
  ok_inj : forall rx1 rx2 task_id,
    sys_calls s !! rx1 = Some task_id -> sys_calls s !! rx2 = Some task_id -> rx1 = rx2;
}.

(** ** What the statements do to the table *)

(** Rows go, and new pending ones appear under ids that had not been handed out. *)
Definition evolves (d d' : DB) : Prop :=
  (unique_rows task_conflict (rows d) = true -> unique_rows task_conflict (rows d') = true) /\
  (forall i, issued d i -> issued d' i) /\
  (forall x, x ∈ rows d' -> x ∈ rows d \/
     (is_pending x = true /\ in_i64 (t_id x) /\ ~ issued d (t_id x) /\ issued d' (t_id x))).

Definition evolves_opt (d d' : option DB) : Prop :=
  match d, d' with Some a, Some b => evolves a b | None, None => True | _, _ => False end.

#[local] Instance evolves_preorder : PreOrder evolves.
Proof using.
  split; [by intros d; split_and!; auto|]. intros a b c (U1 & I1 & R1) (U2 & I2 & R2). split_and!; [auto..|].
  intros x [Hx|(Hp & Hi & Hn & Hs)]%R2.
  - destruct (R1 x Hx) as [?|(Hp & Hi & Hn & Hs)]; [by left|]. right. auto.
  - right. split_and!; auto.
Qed.
#[local] Instance evolves_opt_preorder : PreOrder evolves_opt.
Proof using.
  split; [intros [d|]; [by apply (reflexivity (R := evolves))|done]|]. intros [a|] [b|] [c|] H1 H2; try done.
  by apply (transitivity (R := evolves) (y := b)).
Qed.

Lemma evolves_same d d' : rows d' = rows d -> (forall i, issued d i -> issued d' i) -> evolves d d'.
Proof using. intros Hr Hi. unfold evolves. rewrite Hr. auto. Qed.

(** A computation on the table all of whose runs do that. *)
Definition keeps {A} (m : M DB DbErr A) : Prop := forall d, evolves d (m d).1.

Lemma keeps_find_one p : keeps (find_one p).
Proof using laws.
  intros d. destruct (find_one p d) as [d' r] eqn:E. apply evolves_same; [by eapply find_one_rows|by eapply issued_find_one].
Qed.
Lemma keeps_find_all p : keeps (find_all p).
Proof using laws.
  intros d. destruct (find_all p d) as [d' r] eqn:E. apply evolves_same; [by eapply find_all_rows|by eapply issued_find_all].
Qed.
Lemma keeps_delete_many p : keeps (delete_many p).
Proof using laws.
  intros d. destruct (delete_many p d) as [d' r] eqn:E. simpl. split_and!; [|by eapply issued_delete_many|].
  - intros Hu. exact (delete_many_unique p d d' r E Hu).
  - intros x. destruct r as [n|err]; [|rewrite (delete_many_err _ _ _ _ E); by left].
    apply delete_many_ok in E as [-> _]. intros [? _]%list_filter_elem. by left.
Qed.
Lemma keeps_insert_auto mk :
  (forall i, is_pending (mk i) = true /\ t_id (mk i) = i) -> keeps (insert_auto mk).
Proof using laws.
  intros Hmk d. destruct (insert_auto mk d) as [d' r] eqn:E. pose proof (issued_insert_auto _ _ _ _ E) as [Hi Hf].
  simpl. split_and!; [intros Hu; exact (insert_auto_unique mk d d' r E Hu)|done|].
  intros x. destruct r as [i|err]; [|apply insert_auto_err in E as [-> _]; by left].
  pose proof (insert_auto_range _ _ _ _ E). apply insert_auto_ok in E as [-> _].
  intros [->|Hx]%elem_of_cons; [right|by left]. destruct (Hmk i) as [? ->]. destruct (Hf i eq_refl). done.
Qed.
Lemma keeps_insert_many mks :
  Forall (fun mk => forall i, is_pending (mk i) = true /\ t_id (mk i) = i) mks -> keeps (insert_many mks).
Proof using laws.
  intros Hmk d. destruct (insert_many mks d) as [d' r] eqn:E. pose proof (issued_insert_many _ _ _ _ E) as [Hi Hf].
  simpl. split_and!; [by eapply insert_many_unique|done|].
  intros x. destruct r as [l|err]; [|rewrite (insert_many_err _ _ _ _ E); by left].
  apply insert_many_ok in E as [-> _]. intros [Hx|Hx]%elem_of_app; [right|by left].
  apply list_elem_of_lookup in Hx as [k Hx]. specialize (Hf l eq_refl).
  destruct (Forall2_lookup_r _ _ _ _ _ Hf Hx) as (mk & Hk & i & Hrange & -> & Hn & Hs).
  destruct (Forall_lookup_1 _ _ _ _ Hmk Hk i) as [? ->]. done.
Qed.

Lemma keeps_ret {A} (a : A) : keeps (mret a).
Proof using. by intros d. Qed.
Lemma keeps_bind {A B} (m : M DB DbErr A) (f : A -> M DB DbErr B) : keeps m -> (forall a, keeps (f a)) -> keeps (mbind m f).
Proof using.
  intros Hm Hf d. rewrite mbind_run. specialize (Hm d). destruct (m d) as [d1 [a|err]]; [|done]. simpl in Hm.
  etrans; [exact Hm|apply Hf].
Qed.
#[local] Hint Resolve keeps_find_one keeps_find_all keeps_delete_many keeps_ret keeps_bind : core.

Lemma keeps_purge (p : TaskModel -> bool) dry : keeps (purge t_id p dry).
Proof using laws.
  unfold purge. generalize (@None Z), 0%Z. induction MAX_CHUNKS_PER_TARGET as [|n IH]; intros cursor tot; simpl; [auto|].
  apply keeps_bind; [unfold select_ids; auto|]. intros ids. destruct (last ids) as [c|]; [|auto].
  apply keeps_bind; [destruct dry; auto|]. intros _. destruct (_ <? _)%nat; auto.
Qed.

(** *** The retention sweep *)

Definition sweeps {A} (m : Rm (T := DB) (C := C) (J := J) (K := K) (U := V) A) : Prop :=
  forall w, evolves (Retention.rw_task w) (Retention.rw_task (m w).1).

Lemma sweeps_ret {A} (a : A) : sweeps (mret a).
Proof using. by intros w. Qed.
Lemma sweeps_bind {A B} (m : Rm A) (f : A -> Rm B) : sweeps m -> (forall a, sweeps (f a)) -> sweeps (mbind m f).
Proof using.
  intros Hm Hf w. rewrite mbind_run. specialize (Hm w). destruct (m w) as [w1 [a|err]]; [|done]. simpl in Hm.
  etrans; [exact Hm|apply Hf].
Qed.
Lemma sweeps_task {A} (m : M DB DbErr A) : keeps m -> sweeps (on_task m).
Proof using. intros Hm w. specialize (Hm (Retention.rw_task w)). unfold on_task. by destruct (m _). Qed.
Lemma sweeps_other {A} (m : Rm A) : (forall w, Retention.rw_task (m w).1 = Retention.rw_task w) -> sweeps m.
Proof using. intros Hm w. by rewrite Hm. Qed.
Lemma sweeps_isolated (m : Rm Z) report : sweeps m -> sweeps (purge_isolated m report).
Proof using. intros Hm w. specialize (Hm w). unfold purge_isolated. by destruct (m w) as [w' []]. Qed.
Lemma sweeps_kv {A} (m : M K DbErr A) : sweeps (on_kv m).
Proof using. apply sweeps_other. intros w. unfold on_kv. by destruct (m _). Qed.
Lemma sweeps_uuid {A} (m : M V DbErr A) : sweeps (on_uuid m).
Proof using. apply sweeps_other. intros w. unfold on_uuid. by destruct (m _). Qed.
Lemma sweeps_cron {A} (m : M C DbErr A) : sweeps (on_crontab_result m).
Proof using. apply sweeps_other. intros w. unfold on_crontab_result. by destruct (m _). Qed.
Lemma sweeps_js {A} (m : M J DbErr A) : sweeps (on_js_result m).
Proof using. apply sweeps_other. intros w. unfold on_js_result. by destruct (m _). Qed.
#[local] Hint Resolve sweeps_ret sweeps_bind sweeps_task sweeps_isolated sweeps_kv sweeps_uuid sweeps_cron sweeps_js keeps_purge : core.

(** Step over a bind of the sweep. *)
Local Ltac sweep := apply sweeps_bind; [solve [auto]|intros ?].

Lemma sweep_agents_keeps now dry limits agents : forall report, sweeps (sweep_agents uuid_display now dry limits agents report).
Proof using laws.
  induction agents as [|agent agents IH]; intros report; simpl; [auto|]. apply sweeps_bind; [|auto].
  unfold sweep_agent. destruct (agent_limit _ _ _); [|auto]. sweep. case_match; auto.
Qed.

Lemma sweep_once_keeps now dry margin : sweeps (sweep_once uuid_display now dry margin).
Proof using laws.
  unfold sweep_once. cbv zeta. apply sweeps_bind; [unfold load_limits; auto|intros limits]. sweep.
  apply sweeps_bind; [apply sweep_agents_keeps|intros report].
  apply sweeps_bind.
  { unfold sweep_legacy, max_task_id. apply sweeps_bind; [auto|]. intros [m|]; [|auto]. sweep. case_match; auto. }
  intros r2. apply sweeps_bind.
  { unfold sweep_orphans. destruct (limit_for _ _ _); [|auto]. destruct a as [|a1 l]; [auto|]. sweep. case_match; auto. }
  intros r3. apply sweeps_bind.
  { unfold sweep_crontab_result. destruct (limit_for _ _ _); [|auto]. sweep. case_match; auto. }
  intros r4. apply sweeps_bind; [|auto].
  unfold sweep_js_result. destruct (limit_for _ _ _); [|auto]. sweep. case_match; auto.
Qed.

(** *** Requests and cron runs *)

Definition task_keeps {A} (m : Tm (DB := DB) (U := U) A) : Prop := forall w, evolves_opt (tw_db w) (tw_db (m w).1).

Lemma tm_other {A} (m : Tm A) : (forall w, tw_db (m w).1 = tw_db w) -> task_keeps m.
Proof using. intros Hm w. by rewrite Hm. Qed.
Lemma tm_bind {A B} (m : Tm A) (f : A -> Tm B) : task_keeps m -> (forall a, task_keeps (f a)) -> task_keeps (mbind m f).
Proof using.
  intros Hm Hf w. rewrite mbind_run. specialize (Hm w). destruct (m w) as [w1 [a|err]]; [|done]. simpl in Hm.
  etrans; [exact Hm|apply Hf].
Qed.
Lemma tm_lift {A} (r : result anyhow A) : task_keeps (lift r).
Proof using. by apply tm_other. Qed.
Lemma tm_ret {A} (a : A) : task_keeps (mret a).
Proof using. by apply tm_other. Qed.
Lemma tm_fail {A} err : task_keeps (A := A) (mfail err).
Proof using. by apply tm_other. Qed.
Lemma tm_get_db : task_keeps get_task_db.
Proof using. apply tm_other. intros w. unfold get_task_db. by destruct (tw_db w) eqn:E; simpl. Qed.
Lemma tm_manager {A} (f : TaskManager -> A * TaskManager) : task_keeps (on_manager f).
Proof using. apply tm_other. intros w. unfold on_manager. by destruct (f _). Qed.
Lemma tm_stmt {A} prefix (m : M DB DbErr A) : keeps m -> task_keeps (task_stmt prefix m).
Proof using.
  intros Hm w. unfold task_stmt. destruct (tw_db w) as [d|] eqn:E; [|simpl; by rewrite E]. specialize (Hm d).
  by destruct (m d).
Qed.
Lemma tm_uuid u : task_keeps (ensure_uuid uuid_display u).
Proof using. apply tm_other. intros w. unfold ensure_uuid. by destruct (tw_uuid w). Qed.
Lemma tm_backend : task_keeps backend.
Proof using. by apply tm_other. Qed.
Lemma tm_rollback id : task_keeps (rollback id).
Proof using laws.
  intros w. pose proof (tm_stmt "" _ (keeps_delete_many (has_task_id id)) w) as H. unfold rollback.
  by destruct (task_stmt _ _ w) as [w' []].
Qed.
#[local] Hint Resolve tm_bind tm_lift tm_ret tm_fail tm_get_db tm_manager tm_stmt tm_uuid tm_backend tm_rollback : core.
Local Ltac tm := apply tm_bind; [solve [auto]|intros ?].

Lemma insert_task_keeps e random now meanwhile token target ty perms msg :
  task_keeps (insert_task uuid_display e random now meanwhile token target ty perms msg).
Proof using laws.
  unfold insert_task. tm. tm. apply tm_bind; [by apply tm_other|]. intros []; simpl; [|auto]. tm. tm.
  apply tm_bind; [|auto]. apply tm_stmt, keeps_insert_auto. done.
Qed.

Lemma create_task_keeps e random now meanwhile token target ty :
  task_keeps (create_task uuid_display e random now meanwhile token target ty).
Proof using laws.
  unfold create_task, dispatch. apply tm_bind; [apply insert_task_keeps|intros id]. tm. destruct a; auto.
Qed.

Lemma blocking_start_keeps e random now meanwhile token target ty :
  task_keeps (create_task_blocking_start uuid_display e random now meanwhile token target ty).
Proof using laws.
  unfold create_task_blocking_start, dispatch. apply tm_bind; [apply insert_task_keeps|intros id]. tm. tm.
  destruct a0; auto.
Qed.

Lemma upload_check_keeps e token resp : task_keeps (upload_check e token resp).
Proof using laws.
  unfold upload_check. tm. tm. tm. tm. tm. tm. destruct (negb _); [auto|]. tm. tm. destruct (negb _); auto.
Qed.

Lemma query_keeps ceq json_text e token conds : task_keeps (query_tasks ceq json_text e token conds).
Proof using laws. unfold query_tasks. tm. tm. tm. tm. auto. Qed.

Lemma delete_step_keeps ceq json_text e token conds : task_keeps (delete_tasks ceq json_text e token conds).
Proof using laws.
  unfold delete_tasks. tm. tm. tm. destruct (_ || _); [|auto]. tm. cbv zeta. case_match; auto.
Qed.

(** The manager is left alone by reading and deleting. *)
Lemma query_manager ceq json_text e token conds (w : W) : tw_manager (query_tasks ceq json_text e token conds w).1 = tw_manager w.
Proof using.
  unfold query_tasks, get_task_db, backend, task_stmt, lift, mbind. repeat (case_match; simplify_eq/=; try done).
Qed.
Lemma delete_manager ceq json_text e token conds (w : W) : tw_manager (delete_tasks ceq json_text e token conds w).1 = tw_manager w.
Proof using.
  unfold delete_tasks, get_task_db, backend, task_stmt, lift, mbind. repeat (case_match; simplify_eq/=; try done).
Qed.

Lemma cron_keeps ceq now random meanwhile send_order join_order cron_id cron_name uuids ty (cw : RunWorld DB C) :
  let cw' := crontab_task uuid_display ceq now random meanwhile send_order join_order cron_id cron_name uuids ty cw in
  evolves_opt (rw_task cw) (rw_task cw').
Proof using laws.
  cbv zeta. unfold crontab_task. destruct (rw_task cw) as [t|] eqn:Et; [|by rewrite Et].
  destruct (_ =? 0)%nat; [by rewrite Et|]. destruct (_ =? 0)%nat.
  { unfold report_all_offline. destruct (find_one _ _) as [r1 found]. case_match; simpl; by rewrite Et. }
  destruct (try_set_json _) as [value|]; [|by rewrite Et].
  match goal with |- context [insert_many ?l t] => assert (keeps (insert_many l)) as Hk end.
  { apply keeps_insert_many, Forall_forall. intros mk Hmk. unfold task_models in Hmk.
    apply list_elem_of_lookup in Hmk as [k Hk]. rewrite list_lookup_imap in Hk.
    by apply fmap_Some in Hk as (u & _ & ->). }
  specialize (Hk t). destruct (insert_many _ t) as [t1 [inserted|err]]; [|exact Hk]. simpl in Hk.
  destruct (send_all _ _ _) as [m outs]. unfold save_results, delete_undelivered.
  assert (forall l, evolves t (delete_many (has_task_id_in l) t1).1) as Hd.
  { intros l. etrans; [exact Hk|apply keeps_delete_many]. }
  destruct (ta_undelivered _) as [|i ids]; destruct (crontab_results _ _ _ _ _ _ _); simpl; auto.
Qed.

Lemma cron_manager ceq now random meanwhile send_order join_order cron_id cron_name uuids ty (cw : RunWorld DB C) :
  session_only meanwhile ->
  let cw' := crontab_task uuid_display ceq now random meanwhile send_order join_order cron_id cron_name uuids ty cw in
  blocking_waiters (rw_manager cw') = blocking_waiters (rw_manager cw) /\
  oneshots (rw_manager cw') = oneshots (rw_manager cw) /\ (next_ref (rw_manager cw) <= next_ref (rw_manager cw'))%nat.
Proof using.
  intros Hs. cbv zeta. destruct (Hs (rw_manager cw)) as (Eb & Eo & En). unfold crontab_task.
  destruct (rw_task cw) as [t|]; [|done]. destruct (_ =? 0)%nat; [done|]. destruct (_ =? 0)%nat.
  { unfold report_all_offline. destruct (find_one _ _) as [r1 found]. by case_match. }
  destruct (try_set_json _) as [value|]; [|done]. destruct (insert_many _ t) as [t1 [inserted|err]]; [|done].
  destruct (send_all _ _ _) as [m outs] eqn:E. apply send_all_frame in E as (_ & Fb & Fo & Fn).
  unfold save_results, delete_undelivered.
  destruct (ta_undelivered _) as [|i ids]; destruct (crontab_results _ _ _ _ _ _ _); simpl; rewrite Fb, Fo, Fn; done.
Qed.

(** ** Preservation *)

(** A step that only lets the table evolve, the waiters as they were. *)
Record quiet (w w' : W) : Prop := {
  q_db : evolves_opt (tw_db w) (tw_db w');
  q_waiters : blocking_waiters (tw_manager w') = blocking_waiters (tw_manager w);
  q_channels : forall rx o, oneshots (tw_manager w) !! rx = Some o -> (rx < next_ref (tw_manager w))%nat ->
    oneshots (tw_manager w') !! rx = Some o;
  q_refs : (next_ref (tw_manager w) <= next_ref (tw_manager w'))%nat;
}.

Lemma evolves_rows (w w' : W) :
  evolves_opt (tw_db w) (tw_db w') ->
  (tasks_unique w -> tasks_unique w') /\ (forall i, key_issued w i -> key_issued w' i) /\
  (forall x, x ∈ task_rows w' -> x ∈ task_rows w \/
     (is_pending x = true /\ in_i64 (t_id x) /\ ~ key_issued w (t_id x) /\ key_issued w' (t_id x))).
Proof using.
  unfold tasks_unique, task_rows, key_issued. destruct (tw_db w), (tw_db w'); try done. intros _.
  split_and!; [done|done|]. by intros x ?%not_elem_of_nil.
Qed.

(** The rows with an id that has been handed out are among the former ones. *)
Lemma evolves_old (w w' : W) id x :
  evolves_opt (tw_db w) (tw_db w') -> in_i64 id -> key_issued w id ->
  x ∈ task_rows w' -> cast_unsigned64 (t_id x) = cast_unsigned64 id -> x ∈ task_rows w.
Proof using.
  intros He Hid Hk Hx Hc. destruct (proj2 (proj2 (evolves_rows w w' He)) x Hx) as [?|(_ & Hi & Hn & _)]; [done|].
  apply cast_unsigned_inj in Hc; [|done..]. congruence.
Qed.

Lemma quiet_keeps_ok w w' calls :
  quiet w w' -> system_ok {| sys_world := w; sys_calls := calls |} -> system_ok {| sys_world := w'; sys_calls := calls |}.
Proof using.
  intros [He Eb Eo En] [Hu Hi Hw Hc Hj]. destruct (evolves_rows w w' He) as (Eu & Ei & Er). split; simpl in *.
  - auto.
  - intros x [Hx|(_ & ? & _ & ?)]%Er; [|done]. destruct (Hi x Hx). auto.
  - intros tid rx. rewrite Eb. apply Hw.
  - intros rx tid Hrx. destruct (Hc rx tid Hrx) as (Hlt & (id & Hid & <- & Hk) & Hst). split_and!; [lia|by eauto|].
    unfold call_state. rewrite Eb.
    destruct Hst as [(Ho & Hb & Hp)|(resp & Ho & Hb & Hp)]; [left|right].
    + rewrite (Eo rx _ Ho Hlt). split_and!; [done|done|]. intros x Hx Hxid. apply Hp; [|done]. by eapply evolves_old.
    + exists resp. rewrite (Eo rx _ Ho Hlt). split_and!; [done|done|]. intros x Hx Hxid. apply Hp; [|done]. by eapply evolves_old.
  - done.
Qed.

Lemma queued_frame m target event m' :
  queued m target event m' ->
  blocking_waiters m' = blocking_waiters m /\ oneshots m' = oneshots m /\ next_ref m' = next_ref m.
Proof using. by intros (? & ? & ? & _ & _ & _ & _ & ->). Qed.

Lemma create_quiet e random now meanwhile token target ty w w' r :
  session_only meanwhile ->
  create_task uuid_display e random now meanwhile token target ty w = (w', r) -> quiet w w'.
Proof using laws.
  intros Hs H. pose proof (create_task_keeps e random now meanwhile token target ty w) as Hk. rewrite H in Hk.
  destruct (Hs (tw_manager w)) as (Eb & Eo & En). apply create_task_run in H. split; [exact Hk|..]; destruct r as [j|err].
  1,3,5: destruct H as (id & _ & _ & (Qb & Qo & Qn)%queued_frame); rewrite ?Qb, ?Qo, ?Qn, ?Eb, ?Eo; auto; lia.
  all: destruct H as [[_ Hm]|(_ & Hm & _)]; rewrite Hm; rewrite ?Eb, ?Eo; auto; lia.
Qed.

(** No call and no waiter uses an id that has not been handed out. *)
Lemma fresh_call s id :
  system_ok s -> in_i64 id -> ~ key_issued (sys_world s) id ->
  (forall rx, sys_calls s !! rx <> Some (cast_unsigned64 id)) /\
  blocking_waiters (tw_manager (sys_world s)) !! cast_unsigned64 id = None.
Proof using.
  intros [Hu Hi Hw Hc Hj] Hid Hno.
  assert (forall rx, sys_calls s !! rx <> Some (cast_unsigned64 id)) as Hnone.
  { intros rx Hrx. destruct (Hc rx _ Hrx) as (_ & (i & Hin & Heq & Hk) & _).
    apply cast_unsigned_inj in Heq; [|done..]. congruence. }
  split; [done|]. destruct (blocking_waiters _ !! cast_unsigned64 id) as [rx|] eqn:E; [|done].
  by apply Hw, Hnone in E.
Qed.

(** A registration that is taken back leaves the waiters as they were. *)
Lemma blocking_start_failed e random now meanwhile token target ty w w' err calls :
  session_only meanwhile ->
  create_task_blocking_start uuid_display e random now meanwhile token target ty w = (w', Err err) ->
  system_ok {| sys_world := w; sys_calls := calls |} -> quiet w w'.
Proof using laws.
  intros Hs H Hok. pose proof (blocking_start_keeps e random now meanwhile token target ty w) as Hk. rewrite H in Hk.
  destruct (Hs (tw_manager w)) as (Eb & Eo & En). apply blocking_start_run in H. cbv zeta in H.
  destruct H as [[_ Hm]|(id & send_err & Hm & Hid & Hnew & _)]; [by split; rewrite ?Hm|].
  destruct (fresh_call _ id Hok Hid Hnew) as [_ Hwait]. simpl in Hwait. split; [exact Hk|..]; rewrite Hm; simpl.
  - rewrite Eb. by apply delete_insert_id.
  - intros rx o Ho Hlt. rewrite lookup_insert_eq. simpl. rewrite Eb, Hwait, Eo. simpl.
    rewrite lookup_insert_eq, !lookup_insert_ne by lia. done.
  - lia.
Qed.

Lemma blocking_start_preserves e random now meanwhile token target ty w w' r calls :
  session_only meanwhile ->
  create_task_blocking_start uuid_display e random now meanwhile token target ty w = (w', r) ->
  system_ok {| sys_world := w; sys_calls := calls |} ->
  system_ok {| sys_world := w';
               sys_calls := match r with Ok (task_id, rx) => <[rx := task_id]> calls | Err _ => calls end |}.
Proof using laws.
  intros Hs H Hok. destruct r as [[tid rx]|err]; [|eapply quiet_keeps_ok; [by eapply blocking_start_failed|done]].
  pose proof (blocking_start_keeps e random now meanwhile token target ty w) as Hk. rewrite H in Hk. simpl in Hk.
  destruct (Hs (tw_manager w)) as (Eb & Eo & En).
  apply blocking_start_run in H. cbv zeta in H. set (m0 := meanwhile (tw_manager w)) in *.
  destruct H as (id & -> & Hcr & Hnew & Hiss & -> & (Qb & Qo & Qn)%queued_frame). simpl in Qb, Qo, Qn.
  destruct Hcr as (x0 & [Hid _] & _).
  destruct (fresh_call _ id Hok Hid Hnew) as [Hfresh Hwait]. simpl in Hfresh, Hwait.
  rewrite Eb, Hwait in Qo. simpl in Qo. rewrite Eb in Qb. rewrite Eo in Qo.
  destruct Hok as [Hu Hi Hw Hc Hj]. simpl in *. destruct (evolves_rows w w' Hk) as (Eu & Ei & Er).
  assert (forall rx tid, calls !! rx = Some tid -> rx <> next_ref m0 /\ tid <> cast_unsigned64 id) as Hne.
  { intros rx tid Hrx. destruct (Hc rx tid Hrx) as [Hlt _]. split; [lia|]. intros ->. by apply (Hfresh rx). }
  split; simpl; [auto| | | |].
  - intros x [Hx|(_ & ? & _ & ?)]%Er; [|done]. destruct (Hi x Hx). auto.
  - intros tid rx. rewrite Qb. intros [(<- & <-)|(Ht & Hrx)]%lookup_insert_Some; [by rewrite lookup_insert_eq|].
    apply Hw in Hrx. rewrite lookup_insert_ne; [done|]. by apply Hne in Hrx as [? _].
  - intros rx tid [(<- & <-)|(_ & Hrx)]%lookup_insert_Some.
    + split_and!; [rewrite Qn; lia|by exists id|]. left. rewrite Qo, Qb, !lookup_insert_eq.
      split_and!; [done|done|]. intros x Hx Hxid.
      destruct (Er x Hx) as [Hold|(? & _)]; [|done]. destruct (Hi x Hold) as [Hxi Hxk].
      apply cast_unsigned_inj in Hxid; [|done..]. congruence.
    + destruct (Hne rx tid Hrx) as [Hr1 Ht1]. destruct (Hc rx tid Hrx) as (Hlt & (i & Hin & <- & Hik) & Hst).
      split_and!; [rewrite Qn; lia|by eauto|]. unfold call_state. rewrite Qo, Qb, !lookup_insert_ne by done.
      destruct Hst as [(? & ? & Hp)|(resp & ? & ? & Hp)]; [left|right; exists resp]; (split_and!; [done|done|]);
        intros x Hx Hxid; (apply Hp; [|done]); by eapply evolves_old.
  - intros rx1 rx2 tid [(<- & <-)|(_ & H1)]%lookup_insert_Some [(<- & Ht)|(_ & H2)]%lookup_insert_Some.
    + done.
    + by apply Hfresh in H2.
    + subst. by apply Hfresh in H1.
    + eauto.
Qed.

(** What resuming a call does in a state that satisfies the invariant. *)
Lemma blocking_finish_run task_id rx timeout_ms (w w' : W) r calls :
  system_ok {| sys_world := w; sys_calls := calls |} -> calls !! rx = Some task_id ->
  create_task_blocking_finish task_id rx timeout_ms w = (w', r) ->
  tw_db w' = tw_db w /\
  ((exists resp, r = Ok resp /\ w' = w /\ oneshots (tw_manager w) !! rx = Some (Sent resp)) \/
   (r = Err (OfNodeget (Other ("Task " +:+ pretty task_id +:+ " timed out after " +:+ pretty timeout_ms +:+ "ms"))) /\
    tw_manager w' = remove_blocking_waiter task_id (tw_manager w) /\
    oneshots (tw_manager w) !! rx = Some Waiting)).
Proof using.
  intros [_ _ _ Hc _] Hrx H. destruct (Hc rx task_id Hrx) as (_ & _ & Hst). simpl in *.
  unfold create_task_blocking_finish, poll_receiver in H.
  destruct Hst as [(Ho & Hb & Hp)|(resp & Ho & Hb & Hrec)]; rewrite Ho in H; injection H as <- <-; (split; [done|]).
  - right. by split_and!.
  - left. by exists resp.
Qed.

Lemma blocking_finish_preserves task_id rx timeout_ms w w' r calls :
  calls !! rx = Some task_id -> create_task_blocking_finish task_id rx timeout_ms w = (w', r) ->
  system_ok {| sys_world := w; sys_calls := calls |} ->
  system_ok {| sys_world := w'; sys_calls := delete rx calls |}.
Proof using.
  intros Hrx H Hok. destruct (blocking_finish_run _ _ _ _ _ _ _ Hok Hrx H) as (Hdb & Hcase).
  assert (task_rows w' = task_rows w) as Hrows by (unfold task_rows; by rewrite Hdb).
  assert (forall i, key_issued w' i <-> key_issued w i) as Hkey by (unfold key_issued; by rewrite Hdb).
  destruct Hok as [Hu Hi Hw Hc Hj]. simpl in *.
  assert (blocking_waiters (tw_manager w') !! task_id = None /\
    next_ref (tw_manager w') = next_ref (tw_manager w) /\
    (forall t, t <> task_id -> blocking_waiters (tw_manager w') !! t = blocking_waiters (tw_manager w) !! t) /\
    (forall rx', rx' <> rx -> oneshots (tw_manager w') !! rx' = oneshots (tw_manager w) !! rx')) as (Hb & Hn & Hbt & Hot).
  { destruct (Hc rx task_id Hrx) as (_ & _ & Hst).
    destruct Hcase as [(resp & _ & -> & Ho)|(_ & -> & Ho)].
    - destruct Hst as [(Ho' & _)|(_ & _ & Hb & _)]; [congruence|]. done.
    - destruct Hst as [(_ & Hb & _)|(? & Ho' & _)]; [|congruence]. simpl. rewrite Hb. simpl. rewrite Ho.
      split_and!; [apply lookup_delete_eq|done|intros t Ht; by rewrite lookup_delete_ne|].
      intros rx' Hne. by rewrite lookup_insert_ne. }
  split; simpl; [by unfold tasks_unique; rewrite Hrows| | | |].
  - intros x. rewrite Hrows, Hkey. apply Hi.
  - intros t rx' Ht. destruct (decide (t = task_id)) as [->|Hne]; [congruence|].
    rewrite Hbt in Ht by done. apply Hw in Ht as Hcall. rewrite lookup_delete_ne; [done|]. congruence.
  - intros rx' t [Hne Ht]%lookup_delete_Some. destruct (Hc rx' t Ht) as (Hlt & Hid & Hst).
    assert (t <> task_id) as Hne' by (intros ->; apply Hne; eauto).
    rewrite Hn, Hrows. setoid_rewrite Hkey. split_and!; [done|done|]. unfold call_state. by rewrite Hbt, Hot.
  - intros rx1 rx2 t [_ H1]%lookup_delete_Some [_ H2]%lookup_delete_Some. eauto.
Qed.

(** ** Recording a result *)

Lemma update_elem (p : TaskModel -> bool) f l x :
  x ∈ map (update_if p f) l <-> exists y, y ∈ l /\ x = update_if p f y.
Proof using.
  rewrite list_elem_of_In, in_map_iff. setoid_rewrite list_elem_of_In. naive_solver.
Qed.

Lemma record_unique resp value l :
  unique_rows task_conflict l = true ->
  unique_rows task_conflict (map (update_if (accepts resp) (record_result resp value)) l) = true.
Proof using.
  assert (forall y, t_id (update_if (accepts resp) (record_result resp value) y) = t_id y) as Hid
    by (intros y; unfold update_if; by case_match).
  induction l as [|x l IH]; [done|]. rewrite unique_rows_cons. intros [Hx Hl]. simpl map.
  apply unique_rows_cons. split; [|auto]. intros y (z & Hz & ->)%update_elem.
  unfold task_conflict. rewrite !Hid. by apply Hx.
Qed.

Lemma accepts_id resp x : in_u64 (tr_task_id resp) -> accepts resp x = true -> cast_unsigned64 (t_id x) = tr_task_id resp.
Proof using.
  unfold accepts, matches_response. intros Hr [[[Hid _]%andb_true_iff _]%andb_true_iff _]%andb_true_iff.
  apply Z.eqb_eq in Hid. rewrite Hid. by apply cast_unsigned_signed64.
Qed.

Lemma record_recorded resp value x :
  in_u64 (tr_task_id resp) -> encode_result (tr_task_event_result resp) = Ok value ->
  accepts resp x = true -> recorded resp (record_result resp value x).
Proof using.
  intros Hr Hv Ha. pose proof (accepts_id resp x Hr Ha) as Hid.
  unfold accepts, matches_response in Ha.
  apply andb_true_iff in Ha as [[[_ Hu%bool_decide_eq_true]%andb_true_iff Ht%String.eqb_eq]%andb_true_iff _].
  by split_and!.
Qed.

(** What an accepted upload leaves behind; a refused one changes nothing. *)
Lemma upload_commit_frame resp value (w w' : W) r :
  upload_commit resp value w = (w', r) -> forall i, key_issued w i -> key_issued w' i.
Proof using keys.
  unfold upload_commit. rewrite mbind_run. destruct (task_stmt _ (update_many _ _) _) as [w2 r2] eqn:E2.
  assert (forall i, key_issued w i -> key_issued w2 i) as Hk.
  { apply task_stmt_run in E2 as [(-> & _)|(d & d' & r0 & Hd & Hu & -> & _)]; [done|].
    unfold key_issued. rewrite Hd. simpl. by eapply issued_update_many. }
  destruct r2 as [n|err]; [|by intros [= <- <-]]. destruct (n =? 0)%Z; [by intros [= <- <-]|].
  rewrite mbind_run. unfold on_manager. destruct (notify_blocking_waiter _ _ _). by intros [= <- <-].
Qed.

Lemma upload_refused resp value (w w' : W) err calls :
  upload_commit resp value w = (w', Err err) ->
  system_ok {| sys_world := w; sys_calls := calls |} -> system_ok {| sys_world := w'; sys_calls := calls |}.
Proof using laws.
  intros H [Hu Hi Hw Hc Hj]. pose proof (upload_commit_frame _ _ _ _ _ H) as Hk.
  apply upload_commit_run in H as [Hrows Hm]. simpl in *. split; simpl; rewrite ?Hm; [| |done| |done].
  - eapply unique_rows_perm; [exact task_conflict_sym|by symmetry|done].
  - intros x. rewrite Hrows. intros Hx. destruct (Hi x Hx). auto.
  - intros rx t Hrx. destruct (Hc rx t Hrx) as (Hlt & (i & ? & ? & ?) & Hst). split_and!; [done|by eauto|].
    unfold call_state in *. by setoid_rewrite Hrows.
Qed.

Lemma upload_commit_preserves resp value w w' r calls :
  in_u64 (tr_task_id resp) -> encode_result (tr_task_event_result resp) = Ok value ->
  upload_commit resp value w = (w', r) ->
  system_ok {| sys_world := w; sys_calls := calls |} -> system_ok {| sys_world := w'; sys_calls := calls |}.
Proof using laws.
  intros Hr Hv H Hok. destruct r as [j|err]; [|by eapply upload_refused].
  pose proof (upload_commit_frame _ _ _ _ _ H) as Hk. apply upload_commit_run in H.
  destruct H as (_ & (x0 & Hx0 & Ha0) & Hrows & Hm). destruct Hok as [Hu Hi Hw Hc Hj]. simpl in *.
  set (upd := update_if (accepts resp) (record_result resp value)) in *.
  assert (forall y, t_id (upd y) = t_id y) as Hid by (intros y; unfold upd, update_if; by case_match).
  (* the waiters and channels of other tasks are untouched *)
  assert (next_ref (tw_manager w') = next_ref (tw_manager w)) as Hn.
  { rewrite Hm. unfold notify_blocking_waiter. by case_match. }
  assert (blocking_waiters (tw_manager w') = delete (tr_task_id resp) (blocking_waiters (tw_manager w))) as Hb.
  { rewrite Hm. unfold notify_blocking_waiter. by case_match. }
  assert (forall rx t, calls !! rx = Some t -> t <> tr_task_id resp ->
            oneshots (tw_manager w') !! rx = oneshots (tw_manager w) !! rx) as Ho.
  { intros rx t Hrx Hne. rewrite Hm. unfold notify_blocking_waiter.
    destruct (blocking_waiters (tw_manager w) !! tr_task_id resp) as [slot|] eqn:Es; [|done]. simpl.
    apply Hw in Es. unfold oneshot_send. repeat case_match; try done. rewrite lookup_insert_ne; [done|]. congruence. }
  pose proof (accepts_id resp x0 Hr Ha0) as Hx0id.
  assert (is_pending x0 = true) as Hp0 by (by apply andb_true_iff in Ha0 as [_ ?]).
  split; simpl.
  - unfold tasks_unique in *. eapply unique_rows_perm; [exact task_conflict_sym|by symmetry|]. by apply record_unique.
  - intros y. rewrite Hrows. intros (z & Hz & ->)%update_elem. unfold upd in Hid. rewrite Hid.
    destruct (Hi z Hz). auto.
  - intros t rx. rewrite Hb. intros [_ Ht]%lookup_delete_Some. auto.
  - intros rx t Hrx. destruct (Hc rx t Hrx) as (Hlt & (i & Hin & Hit & Hik) & Hst). rewrite Hn. split_and!; [done|by eauto|].
    destruct (decide (t = tr_task_id resp)) as [->|Hne].
    + (* the call of this task *)
      destruct Hst as [(Hw1 & Hw2 & _)|(resp' & _ & _ & Hrec)].
      * right. exists resp. split_and!; [|rewrite Hb; apply lookup_delete_eq|].
        { rewrite Hm. unfold notify_blocking_waiter. rewrite Hw2. simpl. unfold oneshot_send. rewrite Hw1.
          apply lookup_insert_eq. }
        intros x. rewrite Hrows. intros (z & Hz & ->)%update_elem Hzid. unfold upd in Hid. rewrite Hid in Hzid.
        assert (z = x0) as ->; [|unfold upd, update_if; rewrite Ha0; by apply record_recorded].
        eapply (unique_rows_lookup task_conflict); [exact task_conflict_sym|exact Hu|done|done|].
        apply Z.eqb_eq, cast_unsigned_inj; [by apply Hi..|congruence].
      * destruct (Hrec x0 Hx0 Hx0id) as (_ & _ & _ & Hs & _). unfold is_pending in Hp0. by rewrite Hs in Hp0.
    + unfold call_state. rewrite Hb, lookup_delete_ne by done. rewrite (Ho rx t Hrx Hne).
      assert (forall x, x ∈ task_rows w' -> cast_unsigned64 (t_id x) = t -> x ∈ task_rows w) as Hsame.
      { intros x. rewrite Hrows. intros (z & Hz & ->)%update_elem Hzid. unfold upd in Hid. rewrite Hid in Hzid.
        unfold upd, update_if. destruct (accepts resp z) eqn:Ez; [|done]. apply accepts_id in Ez; [|done]. congruence. }
      destruct Hst as [(? & ? & Hp)|(resp' & ? & ? & Hp)]; [left|right; exists resp']; (split_and!; [done|done|auto]).
  - eauto.
Qed.

(** ** Runs *)

(** Every other step is quiet. *)
Lemma frame_quiet (w w' : W) :
  evolves_opt (tw_db w) (tw_db w') -> tw_manager w' = tw_manager w -> quiet w w'.
Proof using. intros He Hm. by split; rewrite ?Hm. Qed.

Lemma session_quiet (w w' : W) :
  evolves_opt (tw_db w) (tw_db w') ->
  blocking_waiters (tw_manager w') = blocking_waiters (tw_manager w) /\
  oneshots (tw_manager w') = oneshots (tw_manager w) /\ (next_ref (tw_manager w) <= next_ref (tw_manager w'))%nat ->
  quiet w w'.
Proof using. intros He (Eb & Eo & En). split; [done|done| |done]. intros rx o. by rewrite Eo. Qed.

(** A step is one of the three that touch a call, or quiet. *)
Inductive step_kind (s s' : System) : Prop :=
| kind_start e random now meanwhile token target ty tid rx :
    session_only meanwhile ->
    create_task_blocking_start uuid_display e random now meanwhile token target ty (sys_world s) = (sys_world s', Ok (tid, rx)) ->
    sys_calls s' = <[rx := tid]> (sys_calls s) -> step_kind s s'
| kind_finish task_id rx timeout_ms r :
    sys_calls s !! rx = Some task_id ->
    create_task_blocking_finish task_id rx timeout_ms (sys_world s) = (sys_world s', r) ->
    sys_calls s' = delete rx (sys_calls s) -> step_kind s s'
| kind_upload resp value r :
    in_u64 (tr_task_id resp) -> encode_result (tr_task_event_result resp) = Ok value ->
    upload_commit resp value (sys_world s) = (sys_world s', r) -> sys_calls s' = sys_calls s -> step_kind s s'
| kind_quiet : quiet (sys_world s) (sys_world s') -> sys_calls s' = sys_calls s -> step_kind s s'.

Lemma task_step_kind s s' : task_step s s' -> system_ok s -> step_kind s s'.
Proof using laws.
  intros Hst Hok. destruct Hst as
    [e random now meanwhile token target ty w w' r calls Hs H|e random now meanwhile token target ty w w' r calls Hs H
    |task_id rx timeout_ms w w' r calls Hrx H|e token resp w w' r calls H|resp value w w' r calls Hr Hv H
    |ceq jt e token conds w w' r calls H|ceq jt e token conds w w' r calls H|now dry margin rw rw' r w calls Hd H
    |ceq now random meanwhile so jo cid cname uuids ty cw w calls Hs Hd Hm cw'|p d d' r w calls Hd H|f w calls Hs].
  - apply kind_quiet; [by eapply create_quiet|done].
  - destruct r as [[tid rx]|err]; [by eapply kind_start|]. apply kind_quiet; [by eapply blocking_start_failed|done].
  - by eapply kind_finish.
  - apply kind_quiet; [|done]. apply frame_quiet; [|by apply upload_check_run in H as (_ & ? & _)].
    pose proof (upload_check_keeps e token resp w) as Hk. by rewrite H in Hk.
  - by eapply kind_upload.
  - apply kind_quiet; [|done]. pose proof (query_keeps ceq jt e token conds w) as Hk.
    pose proof (query_manager ceq jt e token conds w) as Hm. rewrite H in Hk, Hm. by apply frame_quiet.
  - apply kind_quiet; [|done]. pose proof (delete_step_keeps ceq jt e token conds w) as Hk.
    pose proof (delete_manager ceq jt e token conds w) as Hm. rewrite H in Hk, Hm. by apply frame_quiet.
  - apply kind_quiet; [|done]. pose proof (sweep_once_keeps now dry margin rw) as Hk. rewrite H in Hk.
    apply frame_quiet; [|done]. simpl. by rewrite Hd.
  - apply kind_quiet; [|done].
    pose proof (cron_keeps ceq now random meanwhile so jo cid cname uuids ty cw) as Hk.
    pose proof (cron_manager ceq now random meanwhile so jo cid cname uuids ty cw Hs) as Hman.
    apply session_quiet; simpl; [by rewrite Hd|by rewrite Hm].
  - apply kind_quiet; [|done]. pose proof (keeps_delete_many p d) as Hk. rewrite H in Hk.
    apply frame_quiet; [|done]. simpl. by rewrite Hd.
  - apply kind_quiet; [|done]. apply session_quiet; [done|]. simpl. apply Hs.
Qed.

Lemma task_step_ok s s' : task_step s s' -> system_ok s -> system_ok s'.
Proof using laws.
  intros Hst Hok. pose proof (task_step_kind s s' Hst Hok) as Hkind. destruct s as [w calls], s' as [w' calls'].
  destruct Hkind as [e random now meanwhile token target ty tid rx Hs H Hc|task_id rx timeout_ms r Hrx H Hc
    |resp value r Hr Hv H Hc|Hq Hc]; simpl in *; subst calls'.
  - by apply (blocking_start_preserves e random now meanwhile token target ty w w' (Ok (tid, rx)) calls).
  - by eapply blocking_finish_preserves.
  - by eapply upload_commit_preserves.
  - by eapply quiet_keeps_ok.
Qed.

Lemma task_run_ok s s' : rtc task_step s s' -> system_ok s -> system_ok s'.
Proof using laws. induction 1; [done|]. intros Hok. eauto using task_step_ok. Qed.

(** No blocking call has been started yet. *)
Definition idle (s : System) : Prop :=
  tasks_unique (sys_world s) /\
  (forall x, x ∈ task_rows (sys_world s) -> in_i64 (t_id x) /\ key_issued (sys_world s) (t_id x)) /\
  blocking_waiters (tw_manager (sys_world s)) = ∅ /\ sys_calls s = ∅.

Lemma idle_ok s : idle s -> system_ok s.
Proof using.
  intros (Hu & Hi & Hw & Hc). split; try done.
  - intros t rx. rewrite Hw. by rewrite lookup_empty.
  - intros rx t. rewrite Hc. by rewrite lookup_empty.
  - intros rx1 rx2 t. rewrite Hc. by rewrite lookup_empty.
Qed.

(** C4: whatever creates, settles, queries and deletes tasks meanwhile (requests, the retention
    sweep, cron runs), no waiter leaks: each registered waiter is that of a started blocking
    call.  And each such call either waits under its id, and no row with that id has been
    settled: its row is pending or was deleted; or it holds a response, is no longer
    registered, and its row, if it has not been deleted, carries exactly that response. *)
Theorem waiters_match_calls s s' :
  idle s -> rtc task_step s s' ->
  (forall task_id rx, blocking_waiters (tw_manager (sys_world s')) !! task_id = Some rx ->
     sys_calls s' !! rx = Some task_id) /\
  (forall rx task_id, sys_calls s' !! rx = Some task_id ->
     call_state (tw_manager (sys_world s')) rx task_id (task_rows (sys_world s'))).
Proof using laws.
  intros Hs Hrun. destruct (task_run_ok s s' Hrun (idle_ok s Hs)) as [_ _ Hw Hc _]. split; [exact Hw|].
  intros rx t Hrx. by destruct (Hc rx t Hrx) as (_ & _ & ?).
Qed.

(** A response in a channel stays there. *)
Definition holds_response (s : System) (rx : nat) (resp : TaskEventResponse) : Prop :=
  oneshots (tw_manager (sys_world s)) !! rx = Some (Sent resp).

Lemma drop_sender_sent slot o rx resp :
  o !! rx = Some (Sent resp) -> drop_sender slot o !! rx = Some (Sent resp).
Proof using.
  intros H. unfold drop_sender. destruct slot as [k|]; [|done].
  destruct (o !! k) as [[]|] eqn:E; try done. rewrite lookup_insert_ne; [done|]. congruence.
Qed.

Lemma holds_response_step s s' rx resp :
  task_step s s' -> system_ok s -> (rx < next_ref (tw_manager (sys_world s)))%nat ->
  holds_response s rx resp -> holds_response s' rx resp /\ (rx < next_ref (tw_manager (sys_world s')))%nat.
Proof using laws.
  unfold holds_response. intros Hst Hok Hlt Ho. destruct (task_step_kind s s' Hst Hok) as
    [e random now meanwhile token target ty tid rx' Hs H Hc|task_id rx' timeout_ms r Hrx H Hc
    |resp' value r Hr Hv H Hc|[_ Eb Eo En] Hc].
  - destruct (Hs (tw_manager (sys_world s))) as (Eb & Eo & En). apply blocking_start_run in H. cbv zeta in H.
    destruct H as (id & _ & _ & _ & _ & _ & (Qb & Qo & Qn)%queued_frame). rewrite Qo, Qn. simpl. split; [|lia].
    rewrite lookup_insert_ne by lia. apply drop_sender_sent. by rewrite Eo.
  - destruct s as [w calls]. destruct (blocking_finish_run _ _ _ _ _ _ _ Hok Hrx H) as (_ & [(? & _ & -> & _)|(_ & Hm & _)]); [done|].
    rewrite Hm. split; [by apply drop_sender_sent|done].
  - apply upload_commit_run in H. destruct r as [j|err]; [|destruct H as [_ ->]; done].
    destruct H as (_ & _ & _ & Hm). rewrite Hm. unfold notify_blocking_waiter. case_match; simpl; [|done]. split; [|done].
    unfold oneshot_send. repeat case_match; try done. rewrite lookup_insert_ne; [done|]. congruence.
  - split; [by apply Eo|lia].
Qed.

Lemma holds_response_run s s' rx resp :
  rtc task_step s s' -> system_ok s -> (rx < next_ref (tw_manager (sys_world s)))%nat ->
  holds_response s rx resp -> holds_response s' rx resp.
Proof using laws.
  intros Hrun. induction Hrun as [|x y z Hst _ IH]; [done|]. intros Hok Hlt Ho.
  destruct (holds_response_step x y rx resp Hst Hok Hlt Ho). eauto using task_step_ok.
Qed.

(** C8: a blocking caller is answered: after an upload for its task has been accepted, resuming
    the call returns that very response, whatever other requests ran in between, and the call
    leaves no waiter behind. *)
Theorem blocking_call_answered s0 s s2 rx task_id resp value w1 j timeout_ms :
  idle s0 -> rtc task_step s0 s -> sys_calls s !! rx = Some task_id ->
  tr_task_id resp = task_id -> in_u64 task_id -> encode_result (tr_task_event_result resp) = Ok value ->
  upload_commit resp value (sys_world s) = (w1, Ok j) ->
  rtc task_step {| sys_world := w1; sys_calls := sys_calls s |} s2 -> sys_calls s2 !! rx = Some task_id ->
  create_task_blocking_finish task_id rx timeout_ms (sys_world s2) = (sys_world s2, Ok resp) /\
  blocking_waiters (tw_manager (sys_world s2)) !! task_id = None.
Proof using laws.
  intros Hidle Hrun Hrx <- Hu Hv Hup Hrun2 Hrx2.
  pose proof (task_run_ok s0 s Hrun (idle_ok s0 Hidle)) as Hok. destruct s as [w calls]. simpl in *.
  assert (system_ok {| sys_world := w1; sys_calls := calls |}) as Hok1 by (by eapply upload_commit_preserves).
  pose proof (task_run_ok _ _ Hrun2 Hok1) as Hok2.
  assert (holds_response {| sys_world := w1; sys_calls := calls |} rx resp) as Hh.
  { destruct Hok as [Hun Hi _ Hc _]. destruct (Hc rx _ Hrx) as (_ & _ & Hst). simpl in *.
    apply upload_commit_run in Hup as (_ & (y & Hy & Ha) & _ & Hm). unfold holds_response. simpl. rewrite Hm.
    pose proof (accepts_id resp y Hu Ha) as Hid. apply andb_true_iff in Ha as [_ Hp].
    destruct Hst as [(Hw1 & Hw2 & _)|(resp' & _ & _ & Hrec)].
    - unfold notify_blocking_waiter. rewrite Hw2. simpl. unfold oneshot_send. rewrite Hw1. apply lookup_insert_eq.
    - destruct (Hrec y Hy Hid) as (_ & _ & _ & Hs & _). unfold is_pending in Hp. by rewrite Hs in Hp. }
  assert (holds_response s2 rx resp) as Hh2.
  { eapply holds_response_run; [exact Hrun2|exact Hok1| |exact Hh]. destruct Hok1 as [_ _ _ Hc _].
    by destruct (Hc rx _ Hrx) as [? _]. }
  unfold holds_response in Hh2. split.
  - unfold create_task_blocking_finish, poll_receiver. by rewrite Hh2.
  - destruct Hok2 as [_ _ _ Hc _]. destruct (Hc rx _ Hrx2) as (_ & _ & [(Ho & _)|(r' & _ & Hb & _)]); [congruence|done].
Qed.

(** ** Settled rows *)

(** The rows that may be there once [x] is: [x] itself under its id. *)
Definition only_row (x : TaskModel) (l : list TaskModel) : Prop := forall y, y ∈ l -> t_id y = t_id x -> y = x.

Lemma settled_step s s' x :
  task_step s s' -> system_ok s -> is_pending x = false -> key_issued (sys_world s) (t_id x) ->
  only_row x (task_rows (sys_world s)) ->
  key_issued (sys_world s') (t_id x) /\ only_row x (task_rows (sys_world s')).
Proof using laws.
  intros Hst Hok Hp Hk Hx.
  assert (forall w w' : W, evolves_opt (tw_db w) (tw_db w') -> key_issued w (t_id x) -> only_row x (task_rows w) ->
            key_issued w' (t_id x) /\ only_row x (task_rows w')) as Hev.
  { intros w w' He Hkw Hxw. destruct (evolves_rows w w' He) as (_ & Ei & Er). split; [auto|].
    intros y [Hy|(_ & _ & Hn & _)]%Er Hid; [auto|]. by rewrite Hid in Hn. }
  destruct (task_step_kind s s' Hst Hok) as
    [e random now meanwhile token target ty tid rx' Hs H Hc|task_id rx' timeout_ms r Hrx H Hc
    |resp' value r Hr Hv H Hc|[He _ _ _] Hc].
  - pose proof (blocking_start_keeps e random now meanwhile token target ty (sys_world s)) as He. rewrite H in He. eauto.
  - destruct s as [w calls]. destruct (blocking_finish_run _ _ _ _ _ _ _ Hok Hrx H) as (Hdb & _).
    unfold key_issued, task_rows in *. by rewrite Hdb.
  - pose proof (upload_commit_frame _ _ _ _ _ H) as Hmono. split; [auto|].
    apply upload_commit_run in H. destruct r as [j|err]; [|destruct H as [Hrows _]; intros y; rewrite Hrows; auto].
    destruct H as (_ & _ & Hrows & _). intros y. rewrite Hrows. intros (z & Hz & ->)%update_elem.
    unfold update_if. destruct (accepts resp' z) eqn:Ea; [|auto]. simpl. intros Hid. rewrite (Hx z Hz Hid) in Ea.
    unfold accepts in Ea. rewrite Hp in Ea. by rewrite andb_false_r in Ea.
  - eauto.
Qed.

Lemma settled_run s s' x :
  rtc task_step s s' -> system_ok s -> is_pending x = false -> key_issued (sys_world s) (t_id x) ->
  only_row x (task_rows (sys_world s)) -> only_row x (task_rows (sys_world s')).
Proof using laws.
  intros Hrun. induction Hrun as [|a b c Hst _ IH]; [done|]. intros Hok Hp Hk Hx.
  destruct (settled_step a b x Hst Hok Hp Hk Hx). eauto using task_step_ok.
Qed.

(** C9: a result is recorded once.  Once a row is settled, no request, sweep or cron run ever
    changes it: whatever has happened since, a row with its id is that very row, or it has
    been deleted and the id stays unused.  Every further upload for the id is refused and
    changes neither the table nor a waiting caller. *)
Theorem result_recorded_once s s' x resp value w' r :
  system_ok s -> rtc task_step s s' -> x ∈ task_rows (sys_world s) -> is_pending x = false ->
  in_u64 (tr_task_id resp) -> tr_task_id resp = cast_unsigned64 (t_id x) ->
  upload_commit resp value (sys_world s') = (w', r) ->
  (forall y, y ∈ task_rows (sys_world s') -> t_id y = t_id x -> y = x) /\ is_ok r = false /\
  task_rows w' ≡ₚ task_rows (sys_world s') /\ tw_manager w' = tw_manager (sys_world s').
Proof using laws.
  intros Hok Hrun Hx Hp Hu Hid Hup. pose proof Hok as [Hun Hi _ _ _].
  assert (only_row x (task_rows (sys_world s'))) as Honly.
  { eapply settled_run; [exact Hrun|exact Hok|done|by apply Hi|]. intros y Hy Hyid.
    eapply (unique_rows_lookup task_conflict); [exact task_conflict_sym|exact Hun|done|done|by apply Z.eqb_eq]. }
  split; [exact Honly|]. pose proof (task_run_ok s s' Hrun Hok) as [_ Hi' _ _ _].
  apply upload_commit_run in Hup. destruct r as [j|err]; [|done]. exfalso.
  destruct Hup as (_ & (y & Hy & Ha) & _). assert (t_id y = t_id x) as Hyx.
  { apply cast_unsigned_inj; [by apply Hi'|by apply Hi|]. by rewrite <-Hid, (accepts_id resp y). }
  rewrite (Honly y Hy Hyx) in Ha. apply andb_true_iff in Ha as [_ Ha]. by rewrite Hp in Ha.
Qed.
End runs.

(** ** Examples *)

#[local] Notation SW := (TaskWorld (ListTable TaskModel) (ListTable UuidModel)).

Definition agent_online : SW := {|
  tw_db := Some {| tbl := []; next_id := 1; outages := [] |};
  tw_manager := (open_session 7%N 100%N new_manager).2;
  tw_uuid := None |}.

Definition call_start : SW * result anyhow (Z * nat) :=
  create_task_blocking_start show_uuid open_env "secret" 1000 id "key:pass" 7%N (Ping "host") agent_online.

Definition ping_response : TaskEventResponse := {|
  tr_task_id := 1; tr_agent_uuid := 7%N; tr_task_token := "secret"; tr_timestamp := 2000;
  tr_success := true; tr_error_message := None; tr_task_event_result := Some (RPing 42) |}.

Example call_start_runs : call_start.2 = Ok (1%Z, 1%nat).
Proof. reflexivity. Qed.

Definition ping_recorded : SW * result anyhow Json :=
  upload_commit ping_response (Some (JNum (NumInt 42))) call_start.1.

Lemma create_task_atomic_witness :
  exists w' task_id, respond_rpc (create_task show_uuid open_env "secret" 1000 id "key:pass" 7%N (Ping "host")) agent_online
      = (w', Ok (id_response task_id)) /\
    created "secret" 1000 7%N (Ping "host") task_id agent_online w'.
Proof.
  destruct (respond_rpc _ agent_online) as [w' r] eqn:E.
  assert (r = Ok (id_response 1)) as -> by (vm_compute in E; by injection E).
  pose proof (create_task_atomic show_uuid open_env "secret" 1000 id "key:pass" 7%N (Ping "host")
                agent_online w' (Ok (id_response 1)) E) as (i & Hi & Hc & _).
  exists w', i. split; [by rewrite Hi|done].
Defined.

Lemma session_only_id : session_only id.
Proof. intros m. split_and!; done. Qed.

Lemma start_idle : idle {| sys_world := agent_online; sys_calls := ∅ |}.
Proof. split_and!; [done|by intros x ?%not_elem_of_nil|done|done]. Qed.

#[local] Notation step := (task_step (C := ListTable CrontabResult) (J := ListTable JsResultModel) (K := ListTable KvRow)
  (V := ListTable UuidModel) show_uuid).

Lemma start_run :
  rtc step {| sys_world := agent_online; sys_calls := ∅ |} {| sys_world := call_start.1; sys_calls := {[1%nat := 1%Z]} |}.
Proof.
  apply rtc_once. apply (step_blocking_start show_uuid open_env "secret" 1000 id "key:pass" 7%N (Ping "host")
    agent_online call_start.1 (Ok (1%Z, 1%nat)) ∅ session_only_id). reflexivity.
Qed.

(** Another client deletes the task while the caller waits. *)
Definition task_deleted : SW := (delete_tasks Ascii.eqb (fun _ => ""%string) open_env "key:pass" [TaskId 1] call_start.1).1.

Lemma deleted_run : rtc step {| sys_world := agent_online; sys_calls := ∅ |} {| sys_world := task_deleted; sys_calls := {[1%nat := 1%Z]} |}.
Proof.
  eapply rtc_r; [exact start_run|]. eapply step_delete. apply surjective_pairing.
Qed.

Lemma waiters_match_calls_witness :
  call_state (tw_manager call_start.1) 1 1 (task_rows call_start.1) /\
  task_rows task_deleted = [] /\ call_state (tw_manager task_deleted) 1 1 (task_rows task_deleted).
Proof.
  split; [|split; [reflexivity|]].
  - apply (proj2 (waiters_match_calls show_uuid _ _ start_idle start_run) 1%nat 1%Z). reflexivity.
  - apply (proj2 (waiters_match_calls show_uuid _ _ start_idle deleted_run) 1%nat 1%Z). reflexivity.
Defined.

Lemma blocking_call_answered_witness :
  create_task_blocking_finish 1 1 5000 ping_recorded.1 = (ping_recorded.1, Ok ping_response).
Proof.
  apply (blocking_call_answered show_uuid _ _ {| sys_world := ping_recorded.1; sys_calls := {[1%nat := 1%Z]} |}
    1 1 ping_response (Some (JNum (NumInt 42))) ping_recorded.1 (id_response 1) 5000 start_idle start_run);
    [reflexivity|reflexivity|by vm_compute|reflexivity|reflexivity|apply rtc_refl|reflexivity].
Defined.

Lemma result_recorded_once_witness :
  is_ok (upload_commit ping_response (Some (JNum (NumInt 7))) ping_recorded.1).2 = false.
Proof.
  destruct (upload_commit _ _ ping_recorded.1) as [w' r] eqn:E.
  assert (system_ok {| sys_world := ping_recorded.1; sys_calls := {[1%nat := 1%Z]} |}) as Hok.
  { eapply (upload_commit_preserves ping_response (Some (JNum (NumInt 42))) call_start.1);
      [by vm_compute|reflexivity|reflexivity|].
    eapply task_run_ok; [exact start_run|]. apply idle_ok, start_idle. }
  eapply (result_recorded_once show_uuid _ _ _ ping_response (Some (JNum (NumInt 7))) w' r Hok (rtc_refl _ _));
    [left|reflexivity|by vm_compute|reflexivity|exact E].
Defined.
