(* ===== verification/CronExamples.v ===== *)
(** * Scheduled jobs: a concrete run

    A small cron library (jobs that recur every so many seconds), a codec of job types and
    list tables, on which the definitions of the scheduler are run. *)
From stdpp Require Import base strings gmap list numbers.
From Stdlib Require Import Ascii.
From S2P Require Import Prelude Errors Json Db Permission TokenCache TokenCheck KvAuth UuidCache TaskTypes TaskManager Retention RetentionThms Tasks TaskThms TaskQuery CronCache CronSched CronRpc CronThms CronTask.

(** The expression is read as the period: its length in seconds. *)
#[global] Instance every_lib : CronLib := {|
  Schedule := positive;
  parse_schedule s := match String.length s with O => Err "empty"%string | S n => Ok (Pos.of_succ_nat n) end;
  next_after p t := Some ((t / (Zpos p * SECOND) + 1) * (Zpos p * SECOND))%Z;
  timestamp_millis_opt t := if ((0 <=? t) && (t <=? CHRONO_MAX_MS))%Z then Some (t * MILLI)%Z else None;
|}.

#[global] Instance every_laws : CronLibLaws every_lib.
Proof.
  assert (forall p, 0 < Zpos p * SECOND)%Z as Hp by (unfold SECOND; lia).
  split; simpl.
  - intros p t n [= <-]. specialize (Hp p). generalize dependent (Zpos p * SECOND)%Z. intros z Hz.
    Z.div_mod_to_equations. nia.
  - intros p t n [= <-]. rewrite Z.mul_assoc. apply Z.mod_mul. unfold SECOND. lia.
  - intros p t u n [= <-] [H1 H2]. f_equal. specialize (Hp p). generalize dependent (Zpos p * SECOND)%Z. intros z Hz H2.
    f_equal. f_equal. symmetry. apply (Z.div_unique_pos u z (t / z) (u - t / z * z)); [|lia].
    pose proof (Z.mul_div_le t z Hz). split; [lia|]. nia.
  - done.
  - intros t d. destruct (_ && _); [|done]. by intros [= <-].
  - intros t [H1 H2]. apply Z.leb_le in H1, H2. by rewrite H1, H2.
Qed.

#[global] Instance job_serde : CronSerde := {|
  cron_type_to_value t := match t with
    | CronServer (JsWorkerJob n p) => Ok (JArray [JString n; p])
    | CronAgent us (AgentTask (Ping h)) => Ok (JObject [("ping"%string, JString h); ("on"%string, JArray (map (fun u => JNum (NumInt (Z.of_N u))) us))])
    | _ => Err "unused"%string
    end;
  cron_type_from_value v := match v with
    | JArray [JString n; p] => Ok (CronServer (JsWorkerJob n p))
    | JObject [(_, JString h); (_, JArray l)] =>
        Ok (CronAgent (map (fun j => match j with JNum (NumInt z) => Z.to_N z | _ => 0%N end) l) (AgentTask (Ping h)))
    | _ => Err "unknown"%string
    end;
|}.

#[global] Instance job_serde_laws : CronSerdeLaws job_serde.
Proof.
  split. intros [us [[]]|[n p]] v; simpl; intros [= <-]; [|done]. do 2 f_equal.
  induction us as [|u us IH]; simpl; [done|]. rewrite N2Z.id. f_equal. exact IH.
Qed.

#[global] Instance cron_table : TableOps (ListTable CronModel) CronModel := ListTable_ops cron_conflict.
#[global] Instance cron_table_laws : TableLaws cron_table cron_conflict := ListTable_laws cron_conflict cron_conflict_sym.
#[local] Existing Instance list_order.

#[local] Notation CW := (CronWorld (ListTable CronModel)).

Definition blank : CW := {| cw_db := Some {| tbl := []; next_id := 1; outages := [] |}; cw_cache := Some (build_cache []) |}.

Definition ten_seconds : string := "0123456789".
Definition backup : CronType := CronServer (JsWorkerJob "backup" JNull).

Definition created : CW * result anyhow Json :=
  create (fun l => l) open_env "key:pass" "nightly" ten_seconds backup blank.

Lemma blank_in_step : in_step blank.
Proof.
  split; [done|]. split.
  - intros i x H. change ((∅ : gmap Z CachedCrontab) !! i = Some x) in H. by rewrite lookup_empty in H.
  - intros i x. split; intros H.
    { destruct H as (y & H & _). change ((∅ : gmap Z CachedCrontab) !! i = Some y) in H. by rewrite lookup_empty in H. }
    destruct H as (r & y & Hr & _). by apply not_elem_of_nil in Hr.
Qed.

Lemma same_order (l : list Scope) : (fun l : list Scope => l) l ≡ₚ l.
Proof. done. Qed.

Lemma create_spec_witness : exists i, job_rows created.1 ≡ₚ [new_job "nightly" ten_seconds (JArray [JString "backup"; JNull]) i] /\
  scheduled created.1 i "nightly" ten_seconds backup.
Proof.
  pose proof (create_spec (fun l => l) same_order open_env "key:pass" "nightly" ten_seconds backup blank created.1
    (Ok (JObject [("id"%string, JNum (NumInt 1))]))) as H.
  destruct H as (t & i & value & _ & _ & _ & _ & _ & Hv & Hr & Hs & _); [reflexivity|].
  exists i. injection Hv as <-. split; [exact Hr|exact Hs].
Defined.

Definition twenty_seconds : string := "01234567890123456789".
Definition edited : CW * result anyhow Json :=
  edit (fun l => l) open_env "key:pass" "nightly" twenty_seconds (CronAgent [7%N] (AgentTask (Ping "host"))) created.1.

Lemma edit_spec_witness : exists m old, m ∈ job_rows created.1 /\ cron_type_from_value (c_type m) = Ok old /\
  may_schedule open_env (Auth_Token "key" "pass") (CronAgent [7%N] (AgentTask (Ping "host"))).
Proof.
  pose proof (edit_spec (fun l => l) same_order open_env "key:pass" "nightly" twenty_seconds (CronAgent [7%N] (AgentTask (Ping "host")))
    created.1 edited.1 (Ok (JObject [("id"%string, JNum (NumInt 1)); ("success"%string, JBool true)]))) as H.
  destruct H as (t & m & old & value & Ht & Hm & _ & Ho & _ & Hs & _); [reflexivity|].
  exists m, old. split; [done|]. split; [done|]. injection Ht as <-. exact Hs.
Defined.

Definition some_requests : list CronOp :=
  [OpCreate open_env "key:pass" "nightly" ten_seconds backup; OpPass 10000000000;
   OpSetEnable open_env "key:pass" "nightly" false; OpReload; OpDelete open_env "key:pass" "nightly"].

Lemma jobs_stay_in_step_witness :
  in_step (fold_left (fun w op => run_op (fun l => l) op w) some_requests blank).
Proof. apply (jobs_stay_in_step (fun l => l) some_requests blank). exact blank_in_step. Defined.

(** Two edits whose statements ran in one order and whose cache updates ran in the other
    leave the scheduler with the superseded job. *)
Definition job_row : CronModel := new_job "nightly" ten_seconds (JArray [JString "backup"; JNull]) 1.
Definition edit_a : CronModel -> CronModel := set_payload twenty_seconds (JArray [JString "a"; JNull]).
Definition edit_b : CronModel -> CronModel := set_payload ten_seconds (JArray [JString "b"; JNull]).
Definition one_row (r : CronModel) : ListTable CronModel := {| tbl := [r]; next_id := 2; outages := [] |}.

Theorem racing_edits_stale_cache c :
  update_one (same_key job_row) edit_a (one_row job_row) = (one_row (edit_a job_row), Ok (edit_a job_row)) /\
  update_one (same_key job_row) edit_b (one_row (edit_a job_row)) = (one_row (edit_b job_row), Ok (edit_b job_row)) /\
  ~ mirrors (rows (one_row (edit_b job_row))) (upsert_entry (edit_a job_row) (upsert_entry (edit_b job_row) c)).
Proof.
  split; [reflexivity|]. split; [reflexivity|]. intros H.
  assert (exists y, parse_one (edit_a job_row) = Some y) as [y Hy] by by eexists.
  destruct (proj1 (H 1%Z (forget_last_run y))) as (r & z & Hr & _ & Hz & Heq).
  { apply upsert_cache_entry. left. split; [done|]. by exists y. }
  apply list_elem_of_singleton in Hr as ->. apply parse_one_Some in Hy as (_ & _ & Hy). apply parse_one_Some in Hz as (_ & _ & Hz).
  assert (cc_type y = cc_type z) as Ht by exact (f_equal cc_type Heq).
  rewrite Ht, <-Hz in Hy. discriminate Hy.
Qed.

(** ** The loop at work *)

Definition start : Loop (C := ListTable CronModel) :=
  {| l_world := created.1; l_clock := 9000000000; l_phase := Ready 9500000000; l_fired := [] |}.

Definition pass (l : Loop (C := ListTable CronModel)) (now : Z) : Loop :=
  let '(w', due) := process_mark now (l_world l) in
  {| l_world := w'; l_clock := now; l_phase := Ran; l_fired := map (pair now) due ++ l_fired l |}.
Definition sleep (delay : Z) (l : Loop (C := ListTable CronModel)) (now : Z) : Loop :=
  {| l_world := l_world l; l_clock := now;
     l_phase := Ready (now + compute_next_deadline now (cw_cache (l_world l)) * MILLI + delay); l_fired := l_fired l |}.

Lemma pass_step busy delay allowed l now latest :
  l_phase l = Ready latest -> (l_clock l <= now <= latest)%Z -> loop_step busy delay allowed l (pass l now).
Proof.
  destruct l as [w clock ph fired]. simpl. intros -> H. unfold pass. simpl.
  destruct (process_mark now w) as [w' due] eqn:E. by econstructor.
Qed.

Lemma sleep_step busy delay allowed l now :
  l_phase l = Ran -> (l_clock l <= now <= l_clock l + busy)%Z -> loop_step busy delay allowed l (sleep delay l now).
Proof. destruct l as [w clock ph fired]. simpl. intros -> H. by constructor. Qed.

(** A pass just before the occurrence at 10 s, one just after it, one at 20 s. *)
Definition pass1 : Loop := pass start 9400000000.
Definition sleep1 : Loop := sleep 100000000 pass1 9500000000.
Definition pass2 : Loop := pass sleep1 10050000000.
Definition sleep2 : Loop := sleep 100000000 pass2 10150000000.
Definition pass3 : Loop := pass sleep2 20000000000.

Definition nightly_job (last : option Z) : Cron :=
  {| job_id := 1; job_name := "nightly"; job_enable := true; job_expression := ten_seconds; job_type := backup;
     job_last_run := last |}.

Example fired_so_far : l_fired pass3 = [(20000000000%Z, nightly_job (Some 10050%Z)); (10050000000%Z, nightly_job None)].
Proof. reflexivity. Qed.

Lemma loop_run allowed : rtc (loop_step 200000000 100000000 allowed) start pass3.
Proof.
  eapply rtc_l; [apply (pass_step _ _ _ start 9400000000 9500000000); [reflexivity|split; discriminate]|].
  eapply rtc_l; [apply (sleep_step _ _ _ pass1 9500000000); [reflexivity|split; discriminate]|].
  eapply rtc_l; [apply (pass_step _ _ _ sleep1 10050000000 10100000000); [reflexivity|split; discriminate]|].
  eapply rtc_l; [apply (sleep_step _ _ _ pass2 10150000000); [reflexivity|split; discriminate]|].
  apply rtc_once. apply (pass_step _ _ _ sleep2 20000000000 20100000000); [reflexivity|split; discriminate].
Qed.

(** The job sits in the cache throughout. *)
Definition nightly_entry : CachedCrontab :=
  {| cc_model := without_type (new_job "nightly" ten_seconds (JArray [JString "backup"; JNull]) 1);
     cc_schedule := 10%positive; cc_type := backup |}.

Definition nightly_cache : CrontabCache := {| by_id := {[1%Z := nightly_entry]}; last_run_times := ∅ |}.

Lemma start_serving : serving start nightly_cache.
Proof. by eexists. Qed.

Lemma nightly_wf : cache_wf nightly_cache.
Proof. intros i e. simpl. intros [<- <-]%lookup_singleton_Some. done. Qed.

Lemma deadline_bounds_witness :
  (compute_next_deadline 9500000000 (Some nightly_cache) = 500 /\
   9500000000 + compute_next_deadline 9500000000 (Some nightly_cache) * MILLI <= Z.max 9500000000 10000000000)%Z.
Proof.
  split; [reflexivity|]. apply (deadline_bounds 9500000000 nightly_cache) with (e := nightly_entry); [|reflexivity|reflexivity].
  apply enabled_entries_elem. split; [|done]. exists 1%Z. reflexivity.
Defined.

Lemma no_double_fire_witness :
  exists s o, parse_schedule ten_seconds = Ok s /\ occurs s o /\ (10050000000 < o <= 20000000000)%Z.
Proof.
  apply (no_double_fire 200000000 100000000 1 start pass3 nightly_cache
           [(20000000000%Z, nightly_job (Some 10050%Z))] [(10050000000%Z, nightly_job None)]
           10050000000 (nightly_job None) 20000000000 (nightly_job (Some 10050%Z))).
  - exact start_serving.
  - exact nightly_wf.
  - reflexivity.
  - discriminate.
  - apply loop_run.
  - discriminate.
  - reflexivity.
  - left.
  - left.
  - reflexivity.
  - reflexivity.
Defined.

Lemma occurrence_served_witness : served 200000000 100000000 1 10000000000 pass3.
Proof.
  apply (occurrence_served 200000000 100000000 1 nightly_entry) with (l0 := start).
  - reflexivity.
  - discriminate.
  - reflexivity.
  - reflexivity.
  - reflexivity.
  - discriminate.
  - split; [discriminate|]. split; [|split; reflexivity]. exists nightly_cache. split; [exact start_serving|].
    split; [reflexivity|]. vm_compute. discriminate.
  - apply loop_run.
  - discriminate.
Defined.

(** ** A run of an agent job *)

#[local] Notation RW := (RunWorld (ListTable TaskModel) (ListTable CrontabResult)).

(** Agent 7 is connected, agent 8 is not. *)
Definition two_agents : RW := {|
  rw_task := Some {| tbl := []; next_id := 1; outages := [] |};
  rw_result := {| tbl := []; next_id := 1; outages := [] |};
  rw_manager := (open_session 7%N 100%N new_manager).2;
  rw_policy := None |}.

Definition run_once (uuids : list Uuid) : RW :=
  crontab_task show_uuid Ascii.eqb 5000 (fun _ => "secret"%string) (fun m => m) (fun l => l) (fun l => l)
    1 "ping all" uuids (Ping "host") two_agents.

Example one_task : task_table_rows (run_once [7%N; 8%N]) = [cron_task_row 5000 "ping all" (JObject [("ping"%string, JString "host")]) 7%N "secret" 1].
Proof. reflexivity. Qed.

Lemma dispatch_accounts_witness :
  exists x, task_table_rows (run_once [7%N; 8%N]) ≡ₚ [x] /\ queued (rw_manager (run_once [7%N; 8%N])) (Ping "host") x.
Proof.
  pose proof (dispatch_accounts (tlaws := tasks_table_laws) (rlaws := crontab_result_table_laws) show_uuid Ascii.eqb 5000 (fun _ => "secret"%string) (fun m => m) (fun l => l) (fun l => l)
    (fun l => Permutation_refl l) (fun l => Permutation_refl l) 1 "ping all" [7%N; 8%N] (Ping "host")
    {| tbl := []; next_id := 1; outages := [] |} two_agents eq_refl eq_refl ltac:(discriminate)) as H.
  cbv zeta in H. fold (run_once [7%N; 8%N]) in H. cbn [option_map task_batch] in H.
  destruct H as ([|p [|]] & Hins & _ & _ & _ & Hout & Hrows & _);
    [by apply Permutation_length in Hins|..|by apply Permutation_length in Hins].
  pose proof (Forall_inv Hout) as Hout1; clear Hout; rename Hout1 into Hout. exists p.1.
  destruct p as [x [[]|err]]; unfold outcome in Hout; simpl in *.
  - split; [|exact Hout]. by destruct Hrows as [Hr|(Hr & _)].
  - exfalso. destruct err; simpl in Hout.
    + destruct Hrows as [Hr|(_ & ids & Hi & _ & Hd)]; [by apply Permutation_length in Hr|by vm_compute in Hd].
    + destruct Hrows as [Hr|(_ & ids & Hi & _ & Hd)]; [by apply Permutation_length in Hr|by vm_compute in Hd].
Defined.

Lemma offline_report_throttled_witness :
  exists x, result_table_rows (run_once [8%N]) ≡ₚ [x] /\ cr_message x = Some (offline_message 1).
Proof.
  destruct (offline_report_throttled (tops := tasks_table) (rlaws := crontab_result_table_laws) show_uuid Ascii.eqb 5000 (fun _ => "secret"%string) (fun m => m) (fun l => l) (fun l => l)
    1 "ping all" [8%N] (Ping "host") {| tbl := []; next_id := 1; outages := [] |} two_agents eq_refl ltac:(discriminate) eq_refl eq_refl)
    as (_ & _ & [(x & Hx & _ & Hm)|(H & _)]); [|discriminate H].
  exists x. done.
Defined.
