(* ===== verification/CronResult.v ===== *)
(** * Results of scheduled jobs

    [ng-crontab/src/rpc/crontab_result] and [ng-crontab/src/query.rs]: querying and deleting
    the rows of [crontab_result], with permissions per job name. *)
From stdpp Require Import base strings gmap list numbers sorting.
From Stdlib Require Import Ascii.
From S2P Require Import Prelude Errors Json Db Permission TokenCache TokenCheck KvAuth TaskTypes Purge Selection Retention RetentionSpec RetentionThms Tasks TaskThms TaskQuery.

Inductive CrontabResultQueryCondition : Type :=
| RId (id : Z)
| RCronId (cron_id : Z)
| RCronName (cron_name : string)
| RRunTimeFromTo (start end_ : Z)
| RRunTimeFrom (start : Z)
| RRunTimeTo (end_ : Z)
| RIsSuccess
| RIsFailure
| RLimit (n : Z)
| RLast.

Definition result_matches (cond : CrontabResultQueryCondition) (r : CrontabResult) : bool :=
  match cond with
  | RId id => (cr_id r =? id)%Z
  | RCronId cron_id => (cr_cron_id r =? cron_id)%Z
  | RCronName cron_name => String.eqb (cr_cron_name r) cron_name
  | RRunTimeFromTo start end_ => at_least start (cr_run_time r) && at_most end_ (cr_run_time r)
  | RRunTimeFrom start => at_least start (cr_run_time r)
  | RRunTimeTo end_ => at_most end_ (cr_run_time r)
  | RIsSuccess => bool_decide (cr_success r = Some true)
  | RIsFailure => bool_decide (cr_success r = Some false)
  | RLimit _ | RLast => true
  end.

Definition results_match (conds : list CrontabResultQueryCondition) (r : CrontabResult) : bool :=
  forallb (fun c => result_matches c r) conds.

Definition result_is_last (conds : list CrontabResultQueryCondition) : bool :=
  existsb (fun c => match c with RLast => true | _ => false end) conds.
Definition result_limit_step (acc : option Z) (c : CrontabResultQueryCondition) : option Z :=
  match c with RLimit n => Some (Z.min n MAX_QUERY_LIMIT) | _ => acc end.
(** [Last] comes before any [Limit], of which the last one counts. *)
Definition result_limit (conds : list CrontabResultQueryCondition) : option Z :=
  if result_is_last conds then Some 1%Z else fold_left result_limit_step conds None.

Definition cron_names (conds : list CrontabResultQueryCondition) : list string :=
  flat_map (fun c => match c with RCronName n => [n] | _ => [] end) conds.

Section rpc.
Context {C : Type} {ops : TableOps C CrontabResult}.
(** The order in which a [HashSet<&str>] gives its elements. *)
Variable name_order : list string -> list string.
Variable e : Env.

(** ** Permissions *)

Definition check_crontab_result_read_permission (token cron_name : string) : result anyhow unit :=
  let? token_or_auth := parse_token token in
  let? checker := require_permission_checker e in
  let? has_global_read := pc_check_token_limit checker token_or_auth [Scope_Global]
                            [P_CrontabResult (CrontabResult_Read "*")] in
  if (has_global_read : bool) then Ok tt else
  let? has_specific_read := pc_check_token_limit checker token_or_auth [Scope_Global]
                              [P_CrontabResult (CrontabResult_Read cron_name)] in
  if (has_specific_read : bool) then Ok tt
  else denied ("No read permission for crontab_result with cron_name '" +:+ cron_name +:+ "'").

Definition check_crontab_result_delete_permission (token : string) (cron_name : option string) : result anyhow unit :=
  let? token_or_auth := parse_token token in
  let? checker := require_permission_checker e in
  let? has_global_delete := pc_check_token_limit checker token_or_auth [Scope_Global]
                              [P_CrontabResult (CrontabResult_Delete "*")] in
  if (has_global_delete : bool) then Ok tt else
  let refused := denied ("No delete permission for crontab_result with cron_name '" +:+ default "*" cron_name +:+ "'") in
  match cron_name with
  | Some name =>
      let? has_specific_delete := pc_check_token_limit checker token_or_auth [Scope_Global]
                                    [P_CrontabResult (CrontabResult_Delete name)] in
      if (has_specific_delete : bool) then Ok tt else refused
  | None => refused
  end.

(** Each distinct name is checked, the first refusal ends the request. *)
Fixpoint check_names (check : string -> result anyhow unit) (names : list string) : result anyhow unit :=
  match names with
  | [] => Ok tt
  | n :: names' => let? _ := check n in check_names check names'
  end.

Definition check_read (token : string) (conds : list CrontabResultQueryCondition) : result anyhow unit :=
  match cron_names conds with
  | [] => check_crontab_result_read_permission token "*"
  | names => check_names (check_crontab_result_read_permission token) (name_order (remove_dups names))
  end.

Definition check_delete (token : string) (conds : list CrontabResultQueryCondition) : result anyhow unit :=
  match cron_names conds with
  | [] => check_crontab_result_delete_permission token None
  | names => check_names (fun n => check_crontab_result_delete_permission token (Some n))
               (name_order (remove_dups names))
  end.

(** ** Methods *)

(** [get_db().ok_or_else(..)?] and a computation on the table. *)
Definition with_table {A} (m : M C anyhow A) : M (option C) anyhow A := fun db =>
  match db with
  | Some d => let '(d', r) := m d in (Some d', r)
  | None => (None, Err (OfNodeget (DatabaseError "DB not initialized")))
  end.

Definition query_results (token : string) (conds : list CrontabResultQueryCondition) :
    M (option C) anyhow (list CrontabResult) :=
  with_table (
    let! _ := lift (check_read token conds) in
    let! postgres := asks is_postgres in
    let! found := stmt_as "Failed to query crontab_result: " (find_all (results_match conds)) in
    mret (newest (desc cr_run_time postgres) (default 1000%Z (result_limit conds)) found)).

(** The number of deleted rows and of conditions. *)
Definition delete_results (token : string) (conds : list CrontabResultQueryCondition) : M (option C) anyhow (Z * nat) :=
  with_table (
    let! _ := lift (check_delete token conds) in
    let! postgres := asks is_postgres in
    let! deleted := delete_selected cr_id (desc_by_id cr_run_time cr_id postgres)
                      "Failed to select crontab_result ids for delete: " "Failed to delete crontab_result: "
                      (results_match conds) (result_limit conds) in
    mret (deleted, length conds)).

(** ** Theorems *)

Context {laws : TableLaws ops crontab_result_conflict}.
Context (name_order_perm : forall l, name_order l ≡ₚ l).

Lemma check_names_ok check names : check_names check names = Ok tt -> forall n, n ∈ names -> check n = Ok tt.
Proof using.
  induction names as [|m names IH]; simpl; [by intros _ n ?%not_elem_of_nil|].
  intros (u & H1 & H2)%rbind_ok n [->|Hn]%elem_of_cons; [by destruct u|auto].
Qed.

Lemma names_checked check conds :
  check_names check (name_order (remove_dups (cron_names conds))) = Ok tt ->
  forall n, n ∈ cron_names conds -> check n = Ok tt.
Proof using name_order_perm.
  intros H n Hn. apply (check_names_ok _ _ H). rewrite name_order_perm. by apply elem_of_remove_dups.
Qed.

(** Whoever may read the name [*] may read every name. *)
Lemma read_all_names token n :
  check_crontab_result_read_permission token "*" = Ok tt -> check_crontab_result_read_permission token n = Ok tt.
Proof using.
  unfold check_crontab_result_read_permission. destruct (parse_token token) as [t|]; [simpl|done].
  destruct (require_permission_checker e) as [pc|]; [simpl|done].
  destruct (pc_check_token_limit _ _ _ _) as [[]|]; simpl; done.
Qed.

Lemma delete_all_names token n :
  check_crontab_result_delete_permission token None = Ok tt ->
  check_crontab_result_delete_permission token (Some n) = Ok tt.
Proof using.
  unfold check_crontab_result_delete_permission. destruct (parse_token token) as [t|]; [simpl|done].
  destruct (require_permission_checker e) as [pc|]; [simpl|done].
  by destruct (pc_check_token_limit _ _ _ _) as [[]|].
Qed.

Lemma matching_names conds r n : results_match conds r = true -> n ∈ cron_names conds -> n = cr_cron_name r.
Proof using.
  unfold results_match, cron_names. rewrite forallb_forall. intros H Hn.
  apply list_elem_of_In, in_flat_map in Hn as (c & Hc & Hn). specialize (H c Hc).
  destruct c; simpl in *; try done. destruct Hn as [->|[]]. by apply String.eqb_eq in H.
Qed.

(** Only readable rows match an admitted query. *)
Lemma check_read_row token conds r :
  check_read token conds = Ok tt -> results_match conds r = true ->
  check_crontab_result_read_permission token (cr_cron_name r) = Ok tt.
Proof using name_order_perm.
  unfold check_read. destruct (cron_names conds) as [|n names] eqn:En; [by intros ?%(read_all_names _ (cr_cron_name r))|].
  rewrite <-En. intros H Hr. rewrite <-(matching_names conds r n Hr) by (rewrite En; by left).
  apply (names_checked _ _ H). rewrite En. by left.
Qed.

Lemma check_delete_row token conds r :
  check_delete token conds = Ok tt -> results_match conds r = true ->
  check_crontab_result_delete_permission token (Some (cr_cron_name r)) = Ok tt.
Proof using name_order_perm.
  unfold check_delete. destruct (cron_names conds) as [|n names] eqn:En; [by intros ?%(delete_all_names _ (cr_cron_name r))|].
  rewrite <-En. intros H Hr. rewrite <-(matching_names conds r n Hr) by (rewrite En; by left).
  apply (names_checked _ _ H). rewrite En. by left.
Qed.

Lemma result_limit_cap conds l : result_limit conds = Some l -> (l <= MAX_QUERY_LIMIT)%Z.
Proof using.
  unfold result_limit. destruct (result_is_last conds); [by intros [= <-]|].
  assert (forall acc, (forall l, acc = Some l -> (l <= MAX_QUERY_LIMIT)%Z) ->
    forall l, fold_left result_limit_step conds acc = Some l -> (l <= MAX_QUERY_LIMIT)%Z) as H; [|by apply H].
  induction conds as [|c conds IH]; intros acc Hacc l'; simpl; [auto|]. apply IH.
  intros k. destruct c; simpl; try apply Hacc. intros [= <-]. lia.
Qed.

(** A query leaves the table alone; the rows it returns are stored, match every condition,
    belong to jobs whose results the token may read, come newest first and are at most
    ten thousand (a thousand without a bound). *)
Theorem query_results_readable token conds d db' l :
  query_results token conds (Some d) = (db', Ok l) ->
  (exists d', db' = Some d' /\ rows d' = rows d) /\
  (forall r, r ∈ l -> r ∈ rows d /\ results_match conds r = true /\
     check_crontab_result_read_permission token (cr_cron_name r) = Ok tt) /\
  StronglySorted (desc cr_run_time (is_postgres d)) l /\
  (Z.of_nat (length l) <= Z.max 0 (default 1000 (result_limit conds)) <= MAX_QUERY_LIMIT)%Z.
Proof using laws name_order_perm.
  unfold query_results, with_table. rewrite mbind_lift.
  destruct (check_read token conds) as [[]|] eqn:Ec; [|done]. rewrite mbind_asks, mbind_run.
  destruct (stmt_as _ _ d) as [d1 r1] eqn:E1. apply stmt_as_run in E1 as (r0 & Hf & ->).
  destruct r0 as [found|]; cbn [map_err]; [|done]. pose proof (find_all_rows _ _ _ _ Hf) as Hr.
  apply find_all_ok in Hf. intros [= <- <-]. split; [by exists d1|]. split.
  { intros r Hin%newest_elem. rewrite Hf in Hin. apply list_filter_elem in Hin as [Hin Hm].
    split_and!; [done|done|by eapply check_read_row]. }
  split; [apply newest_sorted; apply _|]. split; [apply newest_length|].
  destruct (result_limit conds) as [k|] eqn:Ek; [|done]. apply result_limit_cap in Ek.
  unfold MAX_QUERY_LIMIT in *. simpl. lia.
Qed.

(** A deletion removes only matching rows of jobs whose results the token may delete, as
    many as it reports; with a bound they are the newest ones and at most ten thousand,
    otherwise all; a failed request removes nothing. *)
Theorem delete_results_permitted token conds d db' r :
  pk_unique cr_id (rows d) -> delete_results token conds (Some d) = (db', r) ->
  exists d', db' = Some d' /\
  match r with
  | Ok (n, count) => count = length conds /\
      (exists kept gone, rows d' ≡ₚ kept /\
         deletion (desc_by_id cr_run_time cr_id (is_postgres d)) (results_match conds) (result_limit conds)
           (rows d) n kept gone /\
         forall x, x ∈ gone -> check_crontab_result_delete_permission token (Some (cr_cron_name x)) = Ok tt) /\
      (is_Some (result_limit conds) -> (n <= MAX_QUERY_LIMIT)%Z)
  | Err _ => rows d' = rows d
  end.
Proof using laws name_order_perm.
  intros Hpk. unfold delete_results, with_table. rewrite mbind_lift.
  destruct (check_delete token conds) as [[]|] eqn:Ec; [|intros [= <- <-]; by exists d].
  rewrite mbind_asks, mbind_run. destruct (delete_selected _ _ _ _ _ _ d) as [d1 r1] eqn:E1.
  apply (delete_selected_run _ _ (conflict := crontab_result_conflict)) in E1; [|done].
  destruct r1 as [n|err]; [|intros [= <- <-]; by exists d1]. intros [= <- <-]. exists d1. split; [done|].
  destruct E1 as (kept & gone & Hdel & Hrows). split; [done|]. split.
  - exists kept, gone. split_and!; [done|done|]. intros x Hx. destruct Hdel as (_ & _ & Hm & _).
    eapply check_delete_row; [done|auto].
  - intros [l Hl]. pose proof (result_limit_cap _ _ Hl). rewrite Hl in Hdel.
    destruct Hdel as (_ & _ & _ & Hn & _). unfold MAX_QUERY_LIMIT in *. lia.
Qed.
End rpc.

(** ** Examples *)

Definition named_result (id : Z) (name : string) (time : Z) : CrontabResult :=
  {| cr_id := id; cr_cron_id := 1; cr_cron_name := name; cr_relative_id := None; cr_run_time := Some time;
     cr_success := Some true; cr_message := None |}.

Definition stored_results : ListTable CrontabResult :=
  plain_table [named_result 1 "nightly" 10; named_result 2 "hourly" 20; named_result 3 "nightly" 30].

Example newest_nightly :
  (query_results (fun l => l) open_env "key:pass" [RCronName "nightly"; RLimit 5] (Some stored_results)).2 =
  Ok [named_result 3 "nightly" 30; named_result 1 "nightly" 10].
Proof. reflexivity. Qed.

Example delete_last_nightly :
  match (delete_results (fun l => l) open_env "key:pass" [RCronName "nightly"; RLast] (Some stored_results)) with
  | (Some d, Ok (n, _)) => n = 1%Z /\ map cr_id (rows d) = [1; 2]%Z
  | _ => False
  end.
Proof. split; reflexivity. Qed.
