(* ===== verification/JsWorker.v ===== *)
(** * JavaScript workers

    [ng-js-worker]: the stored scripts ([js_worker]), their permissions ([auth.rs]) and the
    RPC methods [create], [read], [update], [delete], [list_all_js_worker] and
    [get_rt_pool].  QuickJS is not part of the repository: [JsEngine] is the compiler of the
    running engine.  [get_db()] is the optional connection of the world, which holds the
    [js_worker] and [js_result] tables. *)
From stdpp Require Import base strings pretty gmap list numbers sorting.
From Stdlib Require Import Ascii.
From S2P Require Import Prelude Errors Json Db Permission TokenCache TokenCheck KvAuth KvStore StaticBucket Retention JsPool.

(** ** [String::from_utf8] *)

Definition is_cont (b : Z) : bool := ((0x80 <=? b) && (b <=? 0xBF))%Z.
Definition between (lo b hi : Z) : bool := ((lo <=? b) && (b <=? hi))%Z.

(** The width of a character by its first byte; 0 for a byte that cannot start one. *)
Definition utf8_char_width (b : Z) : nat :=
  if (b <? 0x80)%Z then 1 else if between 0xC2 b 0xDF then 2
  else if between 0xE0 b 0xEF then 3 else if between 0xF0 b 0xF4 then 4 else 0.

Definition second_of_3 (first b : Z) : bool :=
  if (first =? 0xE0)%Z then between 0xA0 b 0xBF
  else if (first =? 0xED)%Z then between 0x80 b 0x9F else is_cont b.
Definition second_of_4 (first b : Z) : bool :=
  if (first =? 0xF0)%Z then between 0x90 b 0xBF
  else if (first =? 0xF4)%Z then between 0x80 b 0x8F else is_cont b.

(** [Utf8Error]: the valid prefix and the length of the bad sequence ([None] at the end of input). *)
Record Utf8Error : Type := { valid_up_to : nat; error_len : option nat }.

Fixpoint run_utf8_validation (fuel index : nat) (v : list Z) : result Utf8Error unit :=
  let err n := Err {| valid_up_to := index; error_len := n |} in
  match fuel, v with
  | _, [] => Ok tt
  | O, _ => Ok tt
  | S fuel, first :: v1 =>
      match utf8_char_width first, v1 with
      | 1, _ => run_utf8_validation fuel (index + 1) v1
      | 2, [] => err None
      | 2, b :: v2 => if is_cont b then run_utf8_validation fuel (index + 2) v2 else err (Some 1)
      | 3, [] => err None
      | 3, b :: v2 =>
          if negb (second_of_3 first b) then err (Some 1) else
          match v2 with
          | [] => err None
          | c :: v3 => if is_cont c then run_utf8_validation fuel (index + 3) v3 else err (Some 2)
          end
      | 4, [] => err None
      | 4, b :: v2 =>
          if negb (second_of_4 first b) then err (Some 1) else
          match v2 with
          | [] => err None
          | c :: v3 =>
              if negb (is_cont c) then err (Some 2) else
              match v3 with
              | [] => err None
              | d :: v4 => if is_cont d then run_utf8_validation fuel (index + 4) v4 else err (Some 3)
              end
          end
      | _, _ => err (Some 1)
      end
  end.

Definition utf8_display (e : Utf8Error) : string :=
  match error_len e with
  | Some n => "invalid utf-8 sequence of " +:+ pretty (N.of_nat n) +:+ " bytes from index " +:+ pretty (N.of_nat (valid_up_to e))
  | None => "incomplete utf-8 byte sequence from index " +:+ pretty (N.of_nat (valid_up_to e))
  end.

Definition string_of_bytes (v : list Z) : string :=
  String.string_of_list_ascii (map (fun b => ascii_of_N (Z.to_N b)) v).

Definition from_utf8 (v : list Z) : result Utf8Error string :=
  let? _ := run_utf8_validation (length v) 0 v in Ok (string_of_bytes v).

Example utf8_euro : is_ok (from_utf8 [0xE2; 0x82; 0xAC]%Z) = true.
Proof. reflexivity. Qed.
Example utf8_surrogate : from_utf8 [65; 0xED; 0xA0; 0x80]%Z = Err {| valid_up_to := 1; error_len := Some 1%nat |}.
Proof. reflexivity. Qed.
Example utf8_cut : from_utf8 [65; 0xF0; 0x9F]%Z = Err {| valid_up_to := 1; error_len := None |}.
Proof. reflexivity. Qed.

(** ** Data *)

Record JsWorkerModel : Type := {
  jw_id : Z;
  jw_name : string;
  jw_description : option string;
  jw_js_script : string;
  jw_js_byte_code : option Bytes;
  jw_route_name : option string;
  jw_env : option Json;
  jw_runtime_clean_time : option Z;
  jw_max_run_time : option Z;
  jw_max_stack_size : option Z;
  jw_max_heap_size : option Z;
  jw_create_at : Z;
  jw_update_at : Z;
}.

Definition same_route (a b : option string) : bool :=
  match a, b with Some x, Some y => String.eqb x y | _, _ => false end.

(** The primary key and the unique indexes on [name] and [route_name]. *)
Definition js_worker_conflict (a b : JsWorkerModel) : bool :=
  (jw_id a =? jw_id b)%Z || String.eqb (jw_name a) (jw_name b) || same_route (jw_route_name a) (jw_route_name b).

(** What [compile_js_module_to_bytecode] run on a blocking thread can end in. *)
Inductive CompileError : Type := JoinFailed (m : string) | CompileFailed (m : string).
Class JsEngine : Type := { compile : string -> result CompileError Bytes }.

(** A run handed to [tokio::spawn]: what is executed and the result row it reports to. *)
Inductive RunInput : Type :=
| RunBytecode (bytecode : Bytes) (runtime_clean_time : option Z)
| RunSource (source_code : string).
Record RunTask : Type := {
  rt_result_id : Z; rt_worker_name : string; rt_input : RunInput; rt_run_type : RunType;
  rt_params : Json; rt_env : Json; rt_limits : RuntimeLimits; rt_start_time : Z }.

Record JsWorld (W R : Type) : Type := {
  jw_db : option (W * R);
  jw_pool : JsRuntimePool;          (** [runtime_pool::global_pool()] *)
  jw_version : option Z;            (** [VERSION] of [current_bc_version] *)
  jw_spawned : list RunTask;        (** spawned and not finished *)
}.
Arguments jw_db {W R}. Arguments jw_pool {W R}. Arguments jw_version {W R}. Arguments jw_spawned {W R}.

(** ** Route names *)

Definition is_ascii_alphanumeric (c : ascii) : bool :=
  let b := byte_of c in (between 48 b 57 || between 65 b 90 || between 97 b 122)%Z.
Definition route_char (c : ascii) : bool :=
  is_ascii_alphanumeric c || Ascii.eqb c "-" || Ascii.eqb c "_" || Ascii.eqb c ".".

Definition normalize_route_name (route_name : option string) : result anyhow (option string) :=
  match route_name with
  | None => Ok None
  | Some raw =>
      let normalized := trim raw in
      if str_is_empty normalized then fail_with (InvalidInput "route_name cannot be empty string") else
      if (128 <? String.length normalized)%nat
      then fail_with (InvalidInput "route_name too long (max 128 chars)") else
      if negb (forallb route_char (String.list_ascii_of_string normalized))
      then fail_with (InvalidInput "route_name can only contain [a-zA-Z0-9._-]") else
      if forallb (fun c => Ascii.eqb c ".") (String.list_ascii_of_string normalized)
      then fail_with (InvalidInput "route_name cannot be '.' or '..'") else
      Ok (Some normalized)
  end.

(** ** Permissions ([auth.rs]) *)

(** [format!("{permission:?}")]. *)
Definition permission_name (p : JsWorker) : string :=
  match p with
  | JsWorker_ListAllJsWorker => "ListAllJsWorker" | JsWorker_Create => "Create" | JsWorker_Read => "Read"
  | JsWorker_Write => "Write" | JsWorker_Delete => "Delete"
  | JsWorker_RunDefinedJsWorker => "RunDefinedJsWorker" | JsWorker_RunRawJsWorker => "RunRawJsWorker"
  end.

Definition check_js_worker_permission (e : Env) (token worker_name : string) (permission : JsWorker) :
    result anyhow unit :=
  let? checker := require_permission_checker e in
  let? token_or_auth := parse_token token in
  let? is_allowed := pc_check_token_limit checker token_or_auth [Scope_JsWorker worker_name] [P_JsWorker permission] in
  if (is_allowed : bool) then Ok tt
  else denied ("Permission denied for js_worker '" +:+ worker_name +:+ "', required permission: "
               +:+ permission_name permission).

Definition check_get_rt_pool_permission (e : Env) (token : string) : result anyhow unit :=
  let? checker := require_permission_checker e in
  let? token_or_auth := parse_token token in
  let? is_allowed := pc_check_token_limit checker token_or_auth [Scope_Global] [P_NodeGet NodeGet_GetRtPool] in
  if (is_allowed : bool) then Ok tt else denied "Permission denied: missing nodeget.get_rt_pool permission".

Section auth.
Context `{Crypto} `{Serde}.

Definition token_time_valid (clk : Clock) (token : Token) : bool :=
  match get_local_timestamp_ms_i64 clk with Ok now => time_valid token now | Err _ => false end.

(** The names a token passes: all of them for the super token, none outside its period, and
    otherwise those with a limit that covers [perm]. *)
Definition filter_names (e : Env) (token_or_auth : TokenOrAuth) (perm : string -> Permission) (names : list string) :
    result anyhow (list string) :=
  let? super := check_super_token (e_globals e) token_or_auth in
  if (super : bool) then Ok names else
  let? token_info := get_token (e_globals e) token_or_auth in
  if negb (token_time_valid (e_clock e) token_info) then Ok [] else
  Ok (List.filter (fun n => check_limits_cover (token_limit token_info) (Scope_JsWorker n) (perm n)) names).

Definition filter_workers_by_list_permission (e : Env) (token : string) (worker_names : list string) :
    result anyhow (list string) :=
  let? token_or_auth := parse_token token in
  filter_names e token_or_auth (fun _ => P_JsWorker JsWorker_ListAllJsWorker) worker_names.

(** Filtering in one pass decides each name like a check of its own. *)
Lemma filter_names_spec e t perm names l n :
  filter_names e t perm names = Ok l ->
  (n ∈ l <-> n ∈ names /\ check_token_limit (e_globals e) (e_clock e) t [Scope_JsWorker n] [perm n] = Ok true).
Proof.
  unfold filter_names. rewrite check_limit_true.
  destruct (check_super_token _ t) as [[]|]; simpl; [|destruct (get_token _ t) as [tok|]; simpl; [|done]|done].
  { intros [= <-]. naive_solver. }
  unfold token_time_valid. destruct (get_local_timestamp_ms_i64 _) as [now|].
  - destruct (time_valid tok now) eqn:Ev; simpl.
    + intros [= <-]. rewrite list_filter_elem. split; [intros [Hn Hc]; split; [done|]; right; split; [done|]; by exists tok, now|].
      intros [Hn [?|(_ & ? & ? & [= <-] & [= <-] & _ & Hc)]]; done.
    + intros [= <-]. split; [by intros ?%not_elem_of_nil|]. intros [_ [?|(_ & ? & ? & [= <-] & [= <-] & ? & _)]]; congruence.
  - simpl. intros [= <-]. split; [by intros ?%not_elem_of_nil|]. intros [_ [?|(_ & ? & ? & _ & ? & _)]]; done.
Qed.

Lemma filter_names_keeps e t perm names l : filter_names e t perm names = Ok l -> l `sublist_of` names.
Proof.
  unfold filter_names. destruct (check_super_token _ t) as [[]|]; simpl; [by intros [= <-]| |done].
  destruct (get_token _ t) as [tok|]; simpl; [|done]. destruct (token_time_valid _ _); simpl.
  - intros [= <-]. clear. induction names as [|x names IH]; simpl; [constructor|].
    destruct (check_limits_cover _ _ _); by constructor.
  - intros [= <-]. apply sublist_nil_l.
Qed.
End auth.

(** ** RPC methods *)

Definition jint (z : Z) : Json := JNum (NumInt z).
Definition jopt {A} (f : A -> Json) (o : option A) : Json := match o with Some a => f a | None => JNull end.

(** The parameters [create] and [update] share. *)
Record WorkerParams : Type := {
  wp_description : option string;
  wp_js_script_base64 : string;
  wp_route_name : option string;
  wp_runtime_clean_time : option Z;
  wp_env : option Json;
  wp_max_run_time : option Z;
  wp_max_stack_size : option Z;
  wp_max_heap_size : option Z;
}.

Section methods.
Context {W R : Type} {wops : TableOps W JsWorkerModel} {b64 : Base64} {eng : JsEngine}.
#[local] Notation JW := (JsWorld W R).
Definition Jm (A : Type) : Type := M (JsWorld W R) anyhow A.

Definition no_db : anyhow := OfNodeget (DatabaseError "DB not initialized").
Definition db_fail (err : DbErr) : anyhow := OfNodeget (DatabaseError (db_msg err)).

Definition set_workers (d : W) (r : R) (w : JW) : JW :=
  {| jw_db := Some (d, r); jw_pool := jw_pool w; jw_version := jw_version w; jw_spawned := jw_spawned w |}.

(** [get_db().ok_or_else(..)?] and a statement on [js_worker]. *)
Definition on_workers {A} (m : M W DbErr A) : Jm A := fun w =>
  match jw_db w with
  | Some (d, r) => let '(d', res) := m d in (set_workers d' r w, map_err db_fail res)
  | None => (w, Err no_db)
  end.

Definition evict (name : string) : Jm unit := fun w =>
  ({| jw_db := jw_db w; jw_pool := (evict_worker name (jw_pool w)).1; jw_version := jw_version w;
      jw_spawned := jw_spawned w |}, Ok tt).

Definition worker_named (name : string) (m : JsWorkerModel) : bool := String.eqb (jw_name m) name.
Definition worker_routed (route : string) (m : JsWorkerModel) : bool := same_route (jw_route_name m) (Some route).
Definition worker_id (id : Z) (m : JsWorkerModel) : bool := (jw_id m =? id)%Z.

(** The decoded script: base64, UTF-8, not blank. *)
Definition decode_script (js_script_base64 : string) : result anyhow string :=
  if str_is_empty (trim js_script_base64) then fail_with (InvalidInput "js_script_base64 cannot be empty") else
  let? js_script_bytes := map_err (fun m => OfNodeget (ParseError ("Invalid js_script_base64: " +:+ m)))
                            (b64_decode js_script_base64) in
  let? js_script := map_err (fun u => OfNodeget (ParseError ("js_script_base64 is not valid UTF-8: " +:+ utf8_display u)))
                      (from_utf8 js_script_bytes) in
  if str_is_empty (trim js_script) then fail_with (InvalidInput "Decoded js_script cannot be empty") else
  Ok js_script.

Definition precompile (js_script : string) : result anyhow Bytes :=
  map_err (fun err => OfNodeget (Other (match err with
    | JoinFailed m => "JavaScript precompile task join failed: " +:+ m
    | CompileFailed m => "JavaScript precompile failed: " +:+ m
    end))) (compile js_script).

Definition new_worker (name js_script : string) (js_byte_code : Bytes) (route_name : option string) (p : WorkerParams)
    (now_ms id : Z) : JsWorkerModel := {|
  jw_id := id; jw_name := name; jw_description := wp_description p; jw_js_script := js_script;
  jw_js_byte_code := Some js_byte_code; jw_route_name := route_name; jw_env := wp_env p;
  jw_runtime_clean_time := wp_runtime_clean_time p; jw_max_run_time := wp_max_run_time p;
  jw_max_stack_size := wp_max_stack_size p; jw_max_heap_size := wp_max_heap_size p;
  jw_create_at := now_ms; jw_update_at := now_ms |}.

Definition create_response (m : JsWorkerModel) : Json := JObject [
  ("id", jint (jw_id m)); ("name", JString (jw_name m)); ("description", jopt JString (jw_description m));
  ("route_name", jopt JString (jw_route_name m)); ("runtime_clean_time", jopt jint (jw_runtime_clean_time m));
  ("max_run_time", jopt jint (jw_max_run_time m)); ("max_stack_size", jopt jint (jw_max_stack_size m));
  ("max_heap_size", jopt jint (jw_max_heap_size m)); ("create_at", jint (jw_create_at m));
  ("update_at", jint (jw_update_at m))]%string.

(** [get_local_timestamp_ms_i64().unwrap_or(0)]. *)
Definition now_or (clk : Clock) (d : Z) : Z :=
  match get_local_timestamp_ms_i64 clk with Ok now => now | Err _ => d end.

Definition create (e : Env) (token name0 : string) (p : WorkerParams) : Jm Json :=
  let name := trim name0 in
  if str_is_empty name then mfail (OfNodeget (InvalidInput "name cannot be empty")) else
  let! route_name := lift (normalize_route_name (wp_route_name p)) in
  let! _ := lift (check_js_worker_permission e token name JsWorker_Create) in
  let! js_script := lift (decode_script (wp_js_script_base64 p)) in
  let! existing := on_workers (find_one (worker_named name)) in
  match existing with
  | Some _ => mfail (OfNodeget (InvalidInput ("js_worker already exists: " +:+ name)))
  | None =>
      let! existing_route := match route_name with
                             | Some route => on_workers (find_one (worker_routed route))
                             | None => mret None
                             end in
      match existing_route with
      | Some _ => mfail (OfNodeget (InvalidInput ("route_name already exists: " +:+ default "" route_name)))
      | None =>
          let! js_byte_code := lift (precompile js_script) in
          let mk := new_worker name js_script js_byte_code route_name p (now_or (e_clock e) 0) in
          let! id := on_workers (insert_auto mk) in
          mret (create_response (mk id))
      end
  end.

Definition update_worker (js_script : string) (js_byte_code : Bytes) (route_name : option string) (p : WorkerParams)
    (now_ms : Z) (m : JsWorkerModel) : JsWorkerModel := {|
  jw_id := jw_id m; jw_name := jw_name m; jw_description := wp_description p; jw_js_script := js_script;
  jw_js_byte_code := Some js_byte_code; jw_route_name := route_name; jw_env := wp_env p;
  jw_runtime_clean_time := wp_runtime_clean_time p; jw_max_run_time := wp_max_run_time p;
  jw_max_stack_size := wp_max_stack_size p; jw_max_heap_size := wp_max_heap_size p;
  jw_create_at := jw_create_at m; jw_update_at := now_ms |}.

Definition update_response (m : JsWorkerModel) : Json := JObject [
  ("success", JBool true); ("name", JString (jw_name m)); ("description", jopt JString (jw_description m));
  ("route_name", jopt JString (jw_route_name m)); ("runtime_clean_time", jopt jint (jw_runtime_clean_time m));
  ("max_run_time", jopt jint (jw_max_run_time m)); ("max_stack_size", jopt jint (jw_max_stack_size m));
  ("max_heap_size", jopt jint (jw_max_heap_size m)); ("update_at", jint (jw_update_at m))]%string.

Definition worker_not_found (name : string) : anyhow := OfNodeget (NotFound ("js_worker not found: " +:+ name)).

Definition update (e : Env) (token name0 : string) (p : WorkerParams) : Jm Json :=
  let name := trim name0 in
  if str_is_empty name then mfail (OfNodeget (InvalidInput "name cannot be empty")) else
  let! route_name := lift (normalize_route_name (wp_route_name p)) in
  let! _ := lift (check_js_worker_permission e token name JsWorker_Write) in
  let! js_script := lift (decode_script (wp_js_script_base64 p)) in
  let! found := on_workers (find_one (worker_named name)) in
  let! model := lift (ok_or (worker_not_found name) found) in
  let! existing_route := match route_name with
                         | Some route => on_workers (find_one (fun m => worker_routed route m && negb (worker_named name m)))
                         | None => mret None
                         end in
  match existing_route with
  | Some _ => mfail (OfNodeget (InvalidInput ("route_name already exists: " +:+ default "" route_name)))
  | None =>
      let! js_byte_code := lift (precompile js_script) in
      let! updated := on_workers (update_one (worker_id (jw_id model))
                        (update_worker js_script js_byte_code route_name p (now_or (e_clock e) 0))) in
      let! _ := evict (jw_name updated) in
      mret (update_response updated)
  end.

Definition delete (e : Env) (token name0 : string) : Jm Json :=
  let name := trim name0 in
  if str_is_empty name then mfail (OfNodeget (InvalidInput "name cannot be empty")) else
  let! _ := lift (check_js_worker_permission e token name JsWorker_Delete) in
  let! rows_affected := on_workers (delete_many (worker_named name)) in
  if (rows_affected =? 0)%Z then mfail (worker_not_found name) else
  let! _ := evict name in
  mret (JObject [("success", JBool true); ("rows_affected", jint rows_affected)]%string).

Definition read_response (m : JsWorkerModel) : Json := JObject [
  ("name", JString (jw_name m)); ("description", jopt JString (jw_description m));
  ("route_name", jopt JString (jw_route_name m));
  ("js_script_base64", JString (b64_encode (as_bytes (jw_js_script m))));
  ("runtime_clean_time", jopt jint (jw_runtime_clean_time m)); ("max_run_time", jopt jint (jw_max_run_time m));
  ("max_stack_size", jopt jint (jw_max_stack_size m)); ("max_heap_size", jopt jint (jw_max_heap_size m));
  ("env", jopt (fun v => v) (jw_env m)); ("create_at", jint (jw_create_at m)); ("update_at", jint (jw_update_at m))]%string.

Definition read (e : Env) (token name0 : string) : Jm Json :=
  let name := trim name0 in
  if str_is_empty name then mfail (OfNodeget (InvalidInput "name cannot be empty")) else
  let! _ := lift (check_js_worker_permission e token name JsWorker_Read) in
  let! found := on_workers (find_one (worker_named name)) in
  let! model := lift (ok_or (worker_not_found name) found) in
  mret (read_response model).

Definition get_rt_pool (e : Env) (token : string) : Jm (nat * list RuntimePoolWorkerInfo) :=
  let! _ := lift (check_get_rt_pool_permission e token) in
  asks (fun w => snapshot (now_or (e_clock e) 0) (jw_pool w)).

Context {coll : Collation} `{Crypto} `{Serde}.

Definition list_all_js_worker (e : Env) (token : string) : Jm (list string) :=
  let! all_names := on_workers (fun d => let '(d', r) := find_all (fun _ => true) d in
                      (d', match r with Ok l => Ok (map jw_name (order_by_asc jw_name l)) | Err err => Err err end)) in
  lift (filter_workers_by_list_permission e token all_names).
End methods.
