(* ===== verification/JsRun.v ===== *)
(** * Running JavaScript workers

    [ng-js-worker/src/service.rs] and the [run] method: a run inserts a [js_result] row,
    executes on a background task and writes its outcome into the row.  A background task
    is an element of [jw_spawned] until it is finished; an inline call is split where it
    waits for the script. *)
From stdpp Require Import base strings gmap list numbers pretty.
From Stdlib Require Import Ascii SpecFloat.
From S2P Require Import Prelude Errors Json Db Permission TokenCache TokenCheck KvAuth KvStore StaticBucket Retention JsPool JsWorker.

(** [serde_json::from_str] and [to_string]. *)
Class JsonText : Type := {
  json_from_str : string -> result string Json;
  json_to_string : Json -> result string string;
}.

Inductive CompileMode : Type := ModeBytecode | ModeSource.

(** ** [Duration::from_secs_f64]: nanoseconds, rounded half to even; [None] is its panic *)

Definition round_half_even (n d : Z) : Z :=
  let q := (n / d)%Z in let r := (n mod d)%Z in
  if (2 * r <? d)%Z then q else if (d <? 2 * r)%Z then (q + 1)%Z else if Z.even q then q else (q + 1)%Z.

Definition NANOS_PER_SEC : Z := 1000000000.

Definition from_secs_f64 (x : spec_float) : option Z :=
  match x with
  | S754_zero _ => Some 0%Z
  | S754_finite false m e =>
      if (2 ^ 64 * 2 ^ Z.max 0 (- e) <=? Zpos m * 2 ^ Z.max 0 e)%Z then None
      else Some (round_half_even (Zpos m * 2 ^ Z.max 0 e * NANOS_PER_SEC) (2 ^ Z.max 0 (- e)))
  | _ => None
  end.

Definition is_finite_positive (x : spec_float) : bool :=
  match x with S754_finite false _ _ => true | _ => false end.

Definition MAX_INLINE_DEPTH : Z := 10.

(** How an inline call ends early: with an error, or by a panic of its task. *)
Inductive Abort : Type := Returned (err : anyhow) | Panicked (m : string).

Section service.
Context {W R : Type} {wops : TableOps W JsWorkerModel} {rops : TableOps R JsResultModel}.
Context {b64 : Base64} {eng : JsEngine} {jt : JsonText}.
#[local] Notation JW := (JsWorld W R).
#[local] Notation Jm := (@Jm W R).

Definition on_results {A} (m : M R DbErr A) : Jm A := fun w =>
  match jw_db w with
  | Some (d, r) => let '(r', res) := m r in (set_workers d r' w, map_err db_fail res)
  | None => (w, Err no_db)
  end.

Definition current_bc_version : Jm Z := fun w =>
  match jw_version w with
  | Some v => (w, Ok v)
  | None =>
      let v := match compile "0" with Ok (b :: _) => b | _ => 0%Z end in
      ({| jw_db := jw_db w; jw_pool := jw_pool w; jw_version := Some v; jw_spawned := jw_spawned w |}, Ok v)
  end.

Definition set_byte_code (bc : Bytes) (m : JsWorkerModel) : JsWorkerModel := {|
  jw_id := jw_id m; jw_name := jw_name m; jw_description := jw_description m; jw_js_script := jw_js_script m;
  jw_js_byte_code := Some bc; jw_route_name := jw_route_name m; jw_env := jw_env m;
  jw_runtime_clean_time := jw_runtime_clean_time m; jw_max_run_time := jw_max_run_time m;
  jw_max_stack_size := jw_max_stack_size m; jw_max_heap_size := jw_max_heap_size m;
  jw_create_at := jw_create_at m; jw_update_at := jw_update_at m |}.

Definition recompile (js_script : string) : result anyhow Bytes :=
  map_err (fun err => OfNodeget (Other (match err with
    | JoinFailed m => "Recompile task join failed: " +:+ m
    | CompileFailed m => "Bytecode recompile failed: " +:+ m
    end))) (compile js_script).

Definition ensure_bytecode_version (model : JsWorkerModel) : Jm Bytes :=
  match jw_js_byte_code model with
  | Some ((stored_version :: _) as bytecode) =>
      let! version := current_bc_version in
      if (stored_version =? version)%Z then mret bytecode else
      let! new_bytecode := lift (recompile (jw_js_script model)) in
      let! _ := on_workers (update_one (worker_id (jw_id model)) (set_byte_code new_bytecode)) in
      let! _ := evict (jw_name model) in
      mret new_bytecode
  | _ => mfail (OfNodeget (InvalidInput ("js_worker '" +:+ jw_name model +:+ "' has no precompiled bytecode")))
  end.

Definition new_result (worker_id : Z) (worker_name run_type_text : string) (params : Json) (start_time id : Z) :
    JsResultModel := {|
  jr_id := id; jr_js_worker_id := worker_id; jr_js_worker_name := worker_name; jr_run_type := run_type_text;
  jr_start_time := Some start_time; jr_finish_time := None; jr_param := Some params; jr_result := None;
  jr_error_message := None |}.

Definition insert_js_result_row (clk : Clock) (worker_id : Z) (worker_name run_type_text : string) (params : Json) : Jm Z :=
  on_results (insert_auto (new_result worker_id worker_name run_type_text params (now_or clk 0))).

Definition find_worker (script_name : string) : Jm JsWorkerModel :=
  let! found := on_workers (find_one (worker_named script_name)) in
  lift (ok_or (worker_not_found script_name) found).

Definition spawn (t : RunTask) : Jm unit := fun w =>
  ({| jw_db := jw_db w; jw_pool := jw_pool w; jw_version := jw_version w; jw_spawned := t :: jw_spawned w |}, Ok tt).

(** The override, the stored environment, or an empty object. *)
Definition resolve_env (env_override : option Json) (model : JsWorkerModel) : Json :=
  default (default (JObject []) (jw_env model)) env_override.

Definition limits_of (model : JsWorkerModel) : RuntimeLimits :=
  from_model (jw_max_run_time model) (jw_max_stack_size model) (jw_max_heap_size model).

(** [clk] is read when the run is set up, [clk_row] when its row is written. *)
Definition enqueue_defined_js_worker_run (clk clk_row : Clock) (js_script_name : string) (run_type : RunType)
    (params : Json) (env_override : option Json) : Jm Z :=
  let script_name := trim js_script_name in
  if str_is_empty script_name then mfail (OfNodeget (InvalidInput "js_script_name cannot be empty")) else
  let! model := find_worker script_name in
  let! bytecode := ensure_bytecode_version model in
  let! js_result_id := insert_js_result_row clk_row (jw_id model) (jw_name model) (run_type_str run_type) params in
  let! _ := spawn {| rt_result_id := js_result_id; rt_worker_name := jw_name model;
                     rt_input := RunBytecode bytecode (jw_runtime_clean_time model); rt_run_type := run_type;
                     rt_params := params; rt_env := resolve_env env_override model; rt_limits := limits_of model;
                     rt_start_time := now_or clk 0 |} in
  mret js_result_id.

Definition enqueue_source_js_worker_run (clk clk_row : Clock) (js_script_name : string) (run_type : RunType)
    (params : Json) (env_override : option Json) : Jm Z :=
  let script_name := trim js_script_name in
  if str_is_empty script_name then mfail (OfNodeget (InvalidInput "js_script_name cannot be empty")) else
  let! model := find_worker script_name in
  let! js_result_id := insert_js_result_row clk_row (jw_id model) (jw_name model) (run_type_str run_type) params in
  let! _ := spawn {| rt_result_id := js_result_id; rt_worker_name := jw_name model;
                     rt_input := RunSource (jw_js_script model); rt_run_type := run_type;
                     rt_params := params; rt_env := resolve_env env_override model; rt_limits := limits_of model;
                     rt_start_time := now_or clk 0 |} in
  mret js_result_id.

(** ** The end of a run *)

(** What executing a task gave: the value or error text of the pool, or, in source mode, of
    the script, or the failure of the blocking thread. *)
Inductive Outcome : Type :=
| PoolOutcome (r : result string Json)
| SourceOutcome (r : result string (result string Json)).

Definition run_outcome (o : Outcome) : result string Json :=
  match o with
  | PoolOutcome r => r
  | SourceOutcome (Ok (Ok value)) => Ok value
  | SourceOutcome (Ok (Err m)) => Err ("JavaScript execution error: " +:+ m)
  | SourceOutcome (Err m) => Err ("Source mode task join failed: " +:+ m)
  end.

(** [result] and [error_message], with the text for the case that both are missing. *)
Definition fill_error (empty_msg : string) (c : option Json * option string) : option Json * option string :=
  match c with (None, None) => (None, Some empty_msg) | _ => c end.

Definition outcome_columns (r : result string Json) : option Json * option string :=
  fill_error "JavaScript run finished without result or error"
    match r with
    | Ok value => (Some value, None)
    | Err m => (None, Some ("JavaScript runtime execution failed: " +:+ m))
    end.

Definition set_outcome (finish_time : Z) (c : option Json * option string) (r : JsResultModel) : JsResultModel := {|
  jr_id := jr_id r; jr_js_worker_id := jr_js_worker_id r; jr_js_worker_name := jr_js_worker_name r;
  jr_run_type := jr_run_type r; jr_start_time := jr_start_time r; jr_finish_time := Some finish_time;
  jr_param := jr_param r; jr_result := c.1; jr_error_message := c.2 |}.

Definition result_with_id (id : Z) (r : JsResultModel) : bool := (jr_id r =? id)%Z.

(** A failure of the statement is only logged. *)
Definition record_outcome (id finish_time : Z) (c : option Json * option string) (w : JW) : JW :=
  (on_results (update_many (result_with_id id) (set_outcome finish_time c)) w).1.

Definition drop_task (t : RunTask) (w : JW) : JW :=
  {| jw_db := jw_db w; jw_pool := jw_pool w; jw_version := jw_version w;
     jw_spawned := List.filter (fun u => negb (rt_result_id u =? rt_result_id t)%Z) (jw_spawned w) |}.

Definition finish_run (clk : Clock) (t : RunTask) (o : Outcome) (w : JW) : JW :=
  drop_task t (record_outcome (rt_result_id t) (now_or clk (rt_start_time t)) (outcome_columns (run_outcome o)) w).

(** ** Inline calls *)

Definition raise {A} (m : Jm A) : M JW Abort A := fun w => let '(w', r) := m w in (w', map_err Returned r).
Definition refuse {A} (err : NodegetError) : M JW Abort A := mfail (Returned (OfNodeget err)).

(** [show] is how [Display] prints a float. *)
Definition inline_timeout (show : spec_float -> string) (timeout_sec : option spec_float) : M JW Abort (option Z) :=
  match timeout_sec with
  | Some value =>
      if is_finite_positive value then
        match from_secs_f64 value with
        | Some d => mret (Some d)
        | None => mfail (Panicked "cannot convert float seconds to Duration: value is either too big or NaN")
        end
      else refuse (InvalidInput ("timeout_sec must be a positive finite number, got: " +:+ show value))
  | None => mret None
  end.

Record InlineRun : Type := {
  ir_result_id : Z; ir_bytecode : Bytes; ir_worker_name : string; ir_params : Json; ir_env : Json;
  ir_timeout : option Z; ir_limits : RuntimeLimits; ir_start_time : Z }.

Definition inline_call_start (show : spec_float -> string) (clk clk_row : Clock) (js_script_name params_json : string)
    (timeout_sec : option spec_float) (inline_depth : Z) : M JW Abort InlineRun :=
  if (MAX_INLINE_DEPTH <? inline_depth)%Z
  then refuse (Other ("inlineCall recursion depth limit reached (max 10): attempted to call '" +:+ js_script_name
                      +:+ "' at depth " +:+ pretty inline_depth)) else
  let script_name := trim js_script_name in
  if str_is_empty script_name then refuse (InvalidInput "js_worker_name cannot be empty") else
  let! params := match json_from_str params_json with
                 | Ok v => mret v
                 | Err m => refuse (InvalidInput ("inline_call params is not valid JSON: " +:+ m))
                 end in
  let! timeout_duration := inline_timeout show timeout_sec in
  let! model := raise (find_worker script_name) in
  let! bytecode := raise (ensure_bytecode_version model) in
  let! js_result_id := raise (insert_js_result_row clk_row (jw_id model) (jw_name model)
                                (run_type_str RunInlineCall) params) in
  mret {| ir_result_id := js_result_id; ir_bytecode := bytecode; ir_worker_name := jw_name model; ir_params := params;
          ir_env := default (JObject []) (jw_env model); ir_timeout := timeout_duration;
          ir_limits := limits_of model; ir_start_time := now_or clk 0 |}.

(** [outcome]: the blocking thread failed, or the script returned a value or an error. *)
Definition inline_call_finish (clk : Clock) (ir : InlineRun) (outcome : result string (result string Json)) : Jm string :=
  let! run_outcome := lift (map_err (fun m => OfNodeget (Other ("inline_call task join failed: " +:+ m))) outcome) in
  let finish_time := now_or clk (ir_start_time ir) in
  let! (columns, return_str) :=
    match run_outcome with
    | Ok value =>
        let! json_str := lift (map_err (fun m => OfText ("Failed to serialize inline_call result: " +:+ m))
                                 (json_to_string value)) in
        mret ((Some value, None), Ok json_str)
    | Err m =>
        let err := OfNodeget (Other ("JavaScript runtime execution failed: " +:+ m)) in
        mret ((None, Some (anyhow_display err)), Err err)
    end in
  fun w => (record_outcome (ir_result_id ir) finish_time
              (fill_error "JavaScript inline_call finished without result or error" columns) w, return_str).

(** ** The [run] method *)

Definition run (e : Env) (clk_row : Clock) (token js_script_name : string) (run_type : option RunType) (params : Json)
    (env : option Json) (compile_mode : option CompileMode) : Jm Json :=
  let run_type := default RunCall run_type in
  let script_name := trim js_script_name in
  if str_is_empty script_name then mfail (OfNodeget (InvalidInput "js_script_name cannot be empty")) else
  let! _ := lift (check_js_worker_permission e token script_name JsWorker_RunDefinedJsWorker) in
  let! js_result_id := match default ModeBytecode compile_mode with
    | ModeBytecode => enqueue_defined_js_worker_run (e_clock e) clk_row script_name run_type params env
    | ModeSource => enqueue_source_js_worker_run (e_clock e) clk_row script_name run_type params env
    end in
  mret (JObject [("id"%string, jint js_result_id)]).
End service.

Example from_secs_half : from_secs_f64 (S754_finite false 1 (-1)) = Some 500000000%Z.
Proof. reflexivity. Qed.
Example from_secs_huge : from_secs_f64 (S754_finite false 1 64) = None.
Proof. reflexivity. Qed.
