(* ===== verification/JsThms.v ===== *)
(** * Stored scripts and their runs: invariants

    The [js_worker] table keeps its unique names and routes and bytecode that belongs to the
    stored source; a run executes what is stored and its row is settled once. *)
From stdpp Require Import base strings gmap list numbers pretty relations.
From Stdlib Require Import Ascii SpecFloat.
From S2P Require Import Prelude Errors Json Db Permission TokenCache TokenCheck KvAuth KvStore StaticBucket Purge Selection Retention RetentionThms JsPool JsWorker JsRun.

(** A public route: a short, plain path segment. *)
Definition route_ok (r : string) : Prop :=
  r <> ""%string /\ (String.length r <= 128)%nat /\
  forallb route_char (String.list_ascii_of_string r) = true /\
  forallb (fun c => Ascii.eqb c ".") (String.list_ascii_of_string r) = false.

Lemma normalize_route_ok r r' : normalize_route_name r = Ok (Some r') -> route_ok r'.
Proof.
  unfold normalize_route_name. destruct r as [raw|]; [|done]. intros H.
  destruct (str_is_empty (trim raw)) eqn:E1; [done|]. destruct (128 <? _)%nat eqn:E2; [done|].
  destruct (forallb route_char _) eqn:E3; simpl in H; [|done]. destruct (forallb _ _) eqn:E4 in H; [done|].
  injection H as <-. apply Nat.ltb_ge in E2. split_and!; [by intros Hn; rewrite Hn in E1|done..].
Qed.

(** A path segment with these characters cannot leave its directory. *)
Lemma route_plain r : route_ok r -> contains_char "/" r = false /\ r <> "."%string /\ r <> ".."%string.
Proof.
  intros (Hn & _ & Hc & Hd). split_and!.
  - clear Hn Hd. induction r as [|c r IH]; [done|]. cbn [contains_char]. cbn [String.list_ascii_of_string forallb] in Hc. apply andb_true_iff in Hc as [Hc Hr].
    rewrite (IH Hr), orb_false_r. destruct (Ascii.eqb_spec "/" c) as [<-|]; [by vm_compute in Hc|done].
  - by intros ->.
  - by intros ->.
Qed.

(** The laws of the [base64] crate the methods rely on. *)
Class Base64Laws (B : Base64) : Prop := {
  b64_round : forall bs, Forall is_byte bs -> b64_decode (b64_encode bs) = Ok bs;
  b64_bytes : forall s bs, b64_decode s = Ok bs -> Forall is_byte bs;
}.

Lemma string_of_bytes_round bs : Forall is_byte bs -> as_bytes (string_of_bytes bs) = bs.
Proof.
  unfold string_of_bytes. induction 1 as [|b bs Hb _ IH]; [done|]. simpl. rewrite IH. f_equal.
  unfold byte_of. unfold is_byte in Hb. rewrite N_ascii_embedding by lia. lia.
Qed.

Section thms.
Context {W R : Type} {wops : TableOps W JsWorkerModel} {rops : TableOps R JsResultModel}.
Context {b64 : Base64} {eng : JsEngine} {jt : JsonText}.
Context {wlaws : TableLaws wops js_worker_conflict} {rlaws : TableLaws rops js_result_conflict}.
#[local] Notation JW := (JsWorld W R).

Definition wrows (w : JW) : list JsWorkerModel := match jw_db w with Some (d, _) => rows d | None => [] end.
Definition rrows (w : JW) : list JsResultModel := match jw_db w with Some (_, r) => rows r | None => [] end.

(** The version byte of the running engine. *)
Definition engine_version : Z := match compile "0" with Ok (b :: _) => b | _ => 0%Z end.
Definition version_ok (w : JW) : Prop := jw_version w = None \/ jw_version w = Some engine_version.

(** Bytecode of the running engine is that of the stored source. *)
Definition in_step (m : JsWorkerModel) : Prop :=
  forall bc, jw_js_byte_code m = Some bc -> head bc = Some engine_version -> compile (jw_js_script m) = Ok bc.

Definition worker_ok (m : JsWorkerModel) : Prop :=
  jw_name m <> ""%string /\ (forall r, jw_route_name m = Some r -> route_ok r) /\ in_step m.

Definition table_ok (l : list JsWorkerModel) : Prop := Forall worker_ok l /\ unique_rows js_worker_conflict l = true.
Definition workers_ok (w : JW) : Prop := table_ok (wrows w) /\ version_ok w.

(** ** The methods on [js_worker] *)

Lemma preserves_lift_bind {S E A B} (P : S -> Prop) (r : result E A) (k : A -> M S E B) :
  (forall a, r = Ok a -> preserves P (k a)) -> preserves P (mbind (lift r) k).
Proof using.
  intros Hk s Hs. rewrite mbind_lift. destruct r as [a|]; [|done]. by apply Hk.
Qed.

Lemma on_workers_ok {A} (m : M W DbErr A) :
  (forall d d' r, m d = (d', r) -> table_ok (rows d) -> table_ok (rows d')) -> preserves workers_ok (on_workers (R := R) m).
Proof using.
  intros Hm w [Ht Hv]. unfold on_workers, wrows in *. unfold workers_ok, wrows. destruct (jw_db w) as [[d r]|] eqn:E; [|simpl; by rewrite E].
  destruct (m d) as [d' res] eqn:Em. simpl. split; [by eapply Hm|done].
Qed.

Lemma find_ok p : preserves workers_ok (on_workers (R := R) (find_one p)).
Proof using wlaws. apply on_workers_ok. intros d d' r H. by rewrite (find_one_rows _ _ _ _ H). Qed.

Lemma evict_ok name : preserves workers_ok (evict (W := W) (R := R) name).
Proof using. by intros w. Qed.

Lemma mfail_ok {A} err : preserves workers_ok (mfail (A := A) err : Jm A).
Proof using. by intros w. Qed.

Lemma insert_worker_ok mk : (forall id, worker_ok (mk id)) -> preserves workers_ok (on_workers (R := R) (insert_auto mk)).
Proof using wlaws.
  intros Hmk. apply on_workers_ok. intros d d' r H [Hf Hu]. split; [|exact (insert_auto_unique _ _ _ _ H Hu)].
  destruct r as [i|err]; [|by apply insert_auto_err in H as [-> _]].
  apply insert_auto_ok in H as [-> _]. by constructor.
Qed.

Lemma update_rows_ok p f d d' r :
  update_one p f d = (d', r) -> (forall m, m ∈ rows d -> p m = true -> worker_ok m -> worker_ok (f m)) ->
  table_ok (rows d) -> table_ok (rows d').
Proof using wlaws.
  intros H Hf [Hok Hu]. split; [|exact (update_unique _ _ _ _ _ H Hu)].
  destruct r as [m|err]; [|by rewrite (update_one_err _ _ _ _ _ H)].
  apply update_one_ok in H as [-> _]. apply Forall_forall. intros x Hx%list_elem_of_In.
  apply in_map_iff in Hx as (y & <- & Hy%list_elem_of_In). unfold update_if. rewrite Forall_forall in Hok.
  destruct (p y) eqn:Ep; [apply Hf; auto|auto].
Qed.

Lemma update_stmt_ok p f :
  (forall m, worker_ok m -> worker_ok (f m)) -> preserves workers_ok (on_workers (R := R) (update_one p f)).
Proof using wlaws. intros Hf. apply on_workers_ok. intros d d' r H. eapply update_rows_ok; [exact H|auto]. Qed.

Lemma delete_workers_ok p : preserves workers_ok (on_workers (R := R) (delete_many p)).
Proof using wlaws.
  apply on_workers_ok. intros d d' r H [Hf Hu]. split; [|exact (delete_many_unique _ _ _ _ H Hu)].
  destruct r as [n|err]; [|by rewrite (delete_many_err _ _ _ _ H)].
  apply delete_many_ok in H as [-> _]. apply Forall_forall. intros x [Hx _]%list_filter_elem.
  rewrite Forall_forall in Hf. auto.
Qed.

#[local] Hint Resolve find_ok evict_ok mfail_ok delete_workers_ok : nodeget.

Lemma precompile_compile s bc : precompile s = Ok bc -> compile s = Ok bc.
Proof using. unfold precompile. by rewrite map_err_ok. Qed.

Lemma new_worker_ok name s bc r0 r p now id :
  str_is_empty name = false -> normalize_route_name r0 = Ok r -> precompile s = Ok bc -> worker_ok (new_worker name s bc r p now id).
Proof using.
  intros Hn Hr Hc. split_and!; simpl; [by intros ->|intros r' ->; by eapply normalize_route_ok|].
  intros bc' [= <-] _. by apply precompile_compile.
Qed.

Lemma update_model_ok s bc r0 r p now m :
  normalize_route_name r0 = Ok r -> precompile s = Ok bc -> worker_ok m -> worker_ok (update_worker s bc r p now m).
Proof using.
  intros Hr Hc (Hn & _ & _). split_and!; simpl; [done|intros r' ->; by eapply normalize_route_ok|].
  intros bc' [= <-] _. by apply precompile_compile.
Qed.

Lemma create_worker_ok e token name p : preserves workers_ok (create (W := W) (R := R) e token name p).
Proof using wlaws.
  unfold create. destruct (str_is_empty _) eqn:En; [auto with nodeget|].
  apply preserves_lift_bind. intros route Hr. apply preserves_lift_bind. intros _ _.
  apply preserves_lift_bind. intros s _. apply preserves_bind; [auto with nodeget|]. intros [x|]; [auto with nodeget|].
  apply preserves_bind; [destruct route; auto with nodeget|]. intros [x|]; [auto with nodeget|].
  apply preserves_lift_bind. intros bc Hc. apply preserves_bind; [|auto with nodeget].
  apply insert_worker_ok. intros id. by eapply new_worker_ok.
Qed.

Lemma update_worker_ok e token name p : preserves workers_ok (update (W := W) (R := R) e token name p).
Proof using wlaws.
  unfold update. destruct (str_is_empty _) eqn:En; [auto with nodeget|].
  apply preserves_lift_bind. intros route Hr. apply preserves_lift_bind. intros _ _.
  apply preserves_lift_bind. intros s _. apply preserves_bind; [auto with nodeget|]. intros found.
  apply preserves_lift_bind. intros m _.
  apply preserves_bind; [destruct route; auto with nodeget|]. intros [x|]; [auto with nodeget|].
  apply preserves_lift_bind. intros bc Hc. apply preserves_bind; [|intros; apply preserves_bind; auto with nodeget].
  apply update_stmt_ok. intros m'. by eapply update_model_ok.
Qed.

Lemma delete_worker_ok e token name : preserves workers_ok (JsWorker.delete (W := W) (R := R) e token name).
Proof using wlaws. unfold JsWorker.delete. preserve. Qed.

(** ** What the methods do *)

(** The tables, the pool and the runs are as before. *)
Definition same (w w' : JW) : Prop :=
  wrows w' = wrows w /\ rrows w' = rrows w /\ jw_pool w' = jw_pool w /\ jw_version w' = jw_version w /\
  jw_spawned w' = jw_spawned w.

#[global] Instance same_preorder : PreOrder same.
Proof using.
  split; [by intros w|]. intros w1 w2 w3 (H1 & H2 & H3 & H4 & H5) (K1 & K2 & K3 & K4 & K5). split_and!; congruence.
Qed.

(** A statement on [js_worker] changes nothing else. *)
Definition worker_stmt (w w' : JW) : Prop :=
  rrows w' = rrows w /\ jw_pool w' = jw_pool w /\ jw_version w' = jw_version w /\ jw_spawned w' = jw_spawned w.

Lemma on_workers_run {A} (m : M W DbErr A) (w : JW) w' r :
  on_workers m w = (w', r) ->
  (w' = w /\ r = Err no_db) \/
  exists d d' r0, rows d = wrows w /\ m d = (d', r0) /\ r = map_err db_fail r0 /\ wrows w' = rows d' /\ worker_stmt w w'.
Proof using.
  unfold on_workers. unfold worker_stmt, wrows, rrows. destruct (jw_db w) as [[d s]|]; [|intros [= <- <-]; by left].
  destruct (m d) as [d' r0] eqn:E. intros [= <- <-]. right. by exists d, d', r0.
Qed.

Lemma find_run p (w : JW) w' r :
  on_workers (find_one p) w = (w', r) ->
  same w w' /\ forall o, r = Ok o -> match o with
                                   | Some m => m ∈ wrows w /\ p m = true
                                   | None => no_match p (wrows w)
                                   end.
Proof using wlaws.
  intros [[-> ->]|(d & d' & r0 & Hd & Hf & -> & Hw & Hs)]%on_workers_run; [by split|].
  pose proof (find_one_rows _ _ _ _ Hf) as Hr. split; [split; [congruence|exact Hs]|].
  intros o Ho. destruct r0 as [o'|]; [|done]. injection Ho as ->. rewrite <-Hd. destruct o as [m|].
  - by apply find_one_some in Hf.
  - by apply find_one_none in Hf.
Qed.

(** The look-up for a route in use, when there is one to look for. *)
Lemma route_run (route : option string) p (w : JW) w' r :
  match route with Some rt => on_workers (find_one (p rt)) | None => mret None end w = (w', r) ->
  same w w' /\ (r = Ok None -> forall rt, route = Some rt -> no_match (p rt) (wrows w)).
Proof using wlaws.
  destruct route as [rt|]; [|intros [= <- <-]; by split].
  intros [Hs H]%find_run. split; [done|]. intros -> rt' [= <-]. by apply (H None).
Qed.

(** What a successful [create] stores: a fresh row under the trimmed name, with the decoded
    script and its bytecode. *)
Definition created (e : Env) (token name : string) (p : WorkerParams) (l l' : list JsWorkerModel) (j : Json) : Prop :=
  exists m bc route, l' ≡ₚ m :: l /\ no_match (js_worker_conflict m) l /\
    check_js_worker_permission e token (trim name) JsWorker_Create = Ok tt /\
    decode_script (wp_js_script_base64 p) = Ok (jw_js_script m) /\ compile (jw_js_script m) = Ok bc /\
    normalize_route_name (wp_route_name p) = Ok route /\
    m = new_worker (trim name) (jw_js_script m) bc route p (now_or (e_clock e) 0) (jw_id m) /\ j = create_response m.

Lemma create_worker_run e token name p (w : JW) w' r :
  create e token name p w = (w', r) ->
  match r with
  | Ok j => created e token name p (wrows w) (wrows w') j
  | Err _ => wrows w' = wrows w
  end /\ worker_stmt w w'.
Proof using wlaws.
  unfold create. destruct (str_is_empty _) eqn:En; [by intros [= <- <-]|].
  rewrite mbind_lift. destruct (normalize_route_name _) as [route|] eqn:Er; [|by intros [= <- <-]].
  rewrite mbind_lift. destruct (check_js_worker_permission _ _ _ _) as [[]|] eqn:Ec; [|by intros [= <- <-]].
  rewrite mbind_lift. destruct (decode_script _) as [s|] eqn:Ed; [|by intros [= <- <-]].
  rewrite mbind_run. destruct (on_workers (find_one _) w) as [w1 r1] eqn:E1. apply find_run in E1 as [Hs1 H1].
  destruct r1 as [[x|]|]; [intros [= <- <-]; by destruct Hs1| |intros [= <- <-]; by destruct Hs1].
  rewrite mbind_run. match goal with |- match ?m w1 with _ => _ end = _ -> _ => destruct (m w1) as [w2 r2] eqn:E2 end.
  apply (route_run route worker_routed) in E2 as [Hs2 H2]. pose proof (transitivity Hs1 Hs2) as Hs.
  destruct r2 as [[x|]|]; [intros [= <- <-]; by destruct Hs| |intros [= <- <-]; by destruct Hs].
  rewrite mbind_lift. destruct (precompile s) as [bc|] eqn:Ep; [|intros [= <- <-]; by destruct Hs].
  rewrite mbind_run. destruct (on_workers (insert_auto _) w2) as [w3 r3] eqn:E3.
  destruct Hs as [Hw Hrest].
  apply on_workers_run in E3 as [[-> ->]|(d & d' & r0 & Hd & Hi & -> & Hw3 & Hst)]; [intros [= <- <-]; done|].
  assert (worker_stmt w w3) as Hst'. { unfold worker_stmt in *. intuition congruence. }
  destruct r0 as [id|err]; cbn [map_err].
  - intros [= <- <-]. split; [|done]. apply insert_auto_ok in Hi as [Hp Hn].
    exists (new_worker (trim name) s bc route p (now_or (e_clock e) 0) id), bc, route.
    rewrite Hw3, <-Hw, <-Hd. split_and!; try done. by apply precompile_compile.
  - intros [= <- <-]. apply insert_auto_err in Hi as [Hi _]. split; [congruence|done].
Qed.

Definition updated (e : Env) (token name : string) (p : WorkerParams) (l l' : list JsWorkerModel) (j : Json) : Prop :=
  exists m s bc route, m ∈ l /\ jw_name m = trim name /\
    check_js_worker_permission e token (trim name) JsWorker_Write = Ok tt /\
    decode_script (wp_js_script_base64 p) = Ok s /\ compile s = Ok bc /\ normalize_route_name (wp_route_name p) = Ok route /\
    let f := update_worker s bc route p (now_or (e_clock e) 0) in
    l' ≡ₚ map (update_if (worker_named (trim name)) f) l /\ j = update_response (f m).

(** The key of the row found by name is the key of all rows with that name. *)
Lemma by_key l m : table_ok l -> m ∈ l -> forall x, x ∈ l -> worker_id (jw_id m) x = worker_named (jw_name m) x.
Proof using.
  intros [_ Hu] Hm x Hx. unfold worker_id, worker_named.
  assert (js_worker_conflict x m = true -> x = m) as Heq.
  { apply (unique_rows_lookup js_worker_conflict) with (l := l); try done. intros a b. unfold js_worker_conflict.
    rewrite (Z.eqb_sym (jw_id a)), (String.eqb_sym (jw_name a)). f_equal. unfold same_route.
    destruct (jw_route_name a), (jw_route_name b); try done. apply String.eqb_sym. }
  unfold js_worker_conflict in Heq. destruct (Z.eqb_spec (jw_id x) (jw_id m)) as [Hi|Hi]; simpl in Heq.
  - rewrite (Heq eq_refl). by rewrite String.eqb_refl.
  - destruct (String.eqb_spec (jw_name x) (jw_name m)) as [Hn|Hn]; [|done]. by rewrite (Heq eq_refl) in Hi.
Qed.

Lemma update_if_ext {A} (p q : A -> bool) f l :
  (forall x, x ∈ l -> p x = q x) -> map (update_if p f) l = map (update_if q f) l.
Proof using.
  intros H. apply map_ext_in. intros x Hx%list_elem_of_In. unfold update_if. by rewrite H.
Qed.

Lemma update_worker_run e token name p (w : JW) w' r :
  table_ok (wrows w) -> update e token name p w = (w', r) ->
  match r with
  | Ok j => updated e token name p (wrows w) (wrows w') j /\ workers (jw_pool w') !! trim name = None
  | Err _ => wrows w' = wrows w /\ jw_pool w' = jw_pool w
  end /\ rrows w' = rrows w /\ jw_version w' = jw_version w /\ jw_spawned w' = jw_spawned w.
Proof using wlaws.
  intros Hok. unfold update. destruct (str_is_empty _) eqn:En; [by intros [= <- <-]|].
  rewrite mbind_lift. destruct (normalize_route_name _) as [route|] eqn:Er; [|by intros [= <- <-]].
  rewrite mbind_lift. destruct (check_js_worker_permission _ _ _ _) as [[]|] eqn:Ec; [|by intros [= <- <-]].
  rewrite mbind_lift. destruct (decode_script _) as [s|] eqn:Ed; [|by intros [= <- <-]].
  rewrite mbind_run. destruct (on_workers (find_one _) w) as [w1 r1] eqn:E1. apply find_run in E1 as [Hs1 H1].
  destruct r1 as [found|]; [|intros [= <- <-]; by destruct Hs1 as (? & ? & ? & ? & ?)].
  rewrite mbind_lift. destruct found as [m|]; simpl ok_or; [|intros [= <- <-]; by destruct Hs1 as (? & ? & ? & ? & ?)].
  destruct (H1 (Some m) eq_refl) as [Hm Hnm]. unfold worker_named in Hnm. apply String.eqb_eq in Hnm.
  rewrite mbind_run. match goal with |- match ?m w1 with _ => _ end = _ -> _ => destruct (m w1) as [w2 r2] eqn:E2 end.
  apply (route_run route (fun rt x => worker_routed rt x && negb (worker_named (trim name) x))) in E2 as [Hs2 _].
  pose proof (transitivity Hs1 Hs2) as (Hw & Hr & Hp & Hv & Hsp).
  destruct r2 as [[x|]|]; [by intros [= <- <-]| |by intros [= <- <-]].
  rewrite mbind_lift. destruct (precompile s) as [bc|] eqn:Ep; [|by intros [= <- <-]].
  rewrite mbind_run. destruct (on_workers (update_one _ _) w2) as [w3 r3] eqn:E3.
  apply on_workers_run in E3 as [[-> ->]|(d & d' & r0 & Hd & Hi & -> & Hw3 & Hst)]; [by intros [= <- <-]|].
  destruct Hst as (Hr3 & Hp3 & Hv3 & Hsp3).
  destruct r0 as [m'|err]; cbn [map_err].
  - unfold evict. intros [= <- <-]. apply update_one_ok in Hi as [Hi (m0 & Hm0 & Hid & ->)].
    rewrite Hd, Hw in Hi, Hm0. pose proof (by_key _ m Hok Hm) as Hkey.
    assert (m0 = m) as ->.
    { apply Z.eqb_eq in Hid. destruct Hok as [_ Hu]. eapply unique_rows_lookup; [|exact Hu|done|done|].
      - intros a b. apply (conflict_sym (ops := wops)).
      - unfold js_worker_conflict. by rewrite Hid, Z.eqb_refl. }
    rewrite (update_if_ext _ _ _ _ Hkey), Hnm in Hi. unfold wrows, rrows in *. simpl in *. split; [|split_and!; congruence]. split.
    + exists m, s, bc, route. split_and!; try done; [by apply precompile_compile|]. by rewrite Hw3.
    + rewrite Hnm. unfold evict_worker. destruct (workers (jw_pool w3) !! trim name) eqn:El; simpl; [apply lookup_delete_eq|exact El].
  - intros [= <- <-]. apply update_one_err in Hi. split; [split; congruence|]. split_and!; congruence.
Qed.

Lemma delete_worker_run e token name (w : JW) w' r :
  JsWorker.delete e token name w = (w', r) ->
  match r with
  | Ok _ => check_js_worker_permission e token (trim name) JsWorker_Delete = Ok tt /\
      ~ no_match (worker_named (trim name)) (wrows w) /\
      wrows w' ≡ₚ List.filter (fun m => negb (worker_named (trim name) m)) (wrows w) /\
      workers (jw_pool w') !! trim name = None
  | Err _ => wrows w' ≡ₚ wrows w /\ jw_pool w' = jw_pool w
  end /\ rrows w' = rrows w /\ jw_version w' = jw_version w /\ jw_spawned w' = jw_spawned w.
Proof using wlaws.
  unfold JsWorker.delete. destruct (str_is_empty _) eqn:En; [by intros [= <- <-]|].
  rewrite mbind_lift. destruct (check_js_worker_permission _ _ _ _) as [[]|] eqn:Ec; [|by intros [= <- <-]].
  rewrite mbind_run. destruct (on_workers (delete_many _) w) as [w1 r1] eqn:E1.
  apply on_workers_run in E1 as [[-> ->]|(d & d' & r0 & Hd & Hi & -> & Hw1 & (Hr & Hp & Hv & Hs))]; [by intros [= <- <-]|].
  destruct r0 as [n|err]; cbn [map_err].
  - pose proof (delete_many_count _ _ _ _ Hi) as Hcnt. apply delete_many_ok in Hi as [Hrows Hn]. rewrite Hd in *.
    destruct (Z.eqb_spec n 0) as [->|Hne].
    + intros [= <- <-]. assert (no_match (worker_named (trim name)) (wrows w)) as Hno by (by apply Hcnt).
      split; [|split_and!; congruence]. split; [|done]. rewrite Hw1, Hrows.
      clear -Hno. induction (wrows w) as [|x l IH]; [done|]. simpl. rewrite (Hno x) by (by left). simpl.
      constructor. apply IH. intros y Hy. apply Hno. by right.
    + unfold evict. intros [= <- <-]. split; [|split_and!; try done; congruence]. split_and!; [done| |by unfold wrows in *; simpl; rewrite Hw1|].
      * intros Hno. apply Hcnt in Hno. lia.
      * simpl. unfold evict_worker. destruct (workers (jw_pool w1) !! trim name) eqn:El; simpl; [apply lookup_delete_eq|exact El].
  - intros [= <- <-]. apply delete_many_err in Hi. split; [|split_and!; congruence]. split; [|done]. by rewrite Hw1, Hi, Hd.
Qed.

(** A look-up by name finds the row of that name. *)
Lemma read_run e token name (w : JW) w' j :
  read e token name w = (w', Ok j) ->
  exists m, m ∈ wrows w /\ jw_name m = trim name /\ j = read_response m /\
    check_js_worker_permission e token (trim name) JsWorker_Read = Ok tt /\ same w w'.
Proof using wlaws.
  unfold read. destruct (str_is_empty _); [done|]. rewrite mbind_lift.
  destruct (check_js_worker_permission _ _ _ _) as [[]|] eqn:Ec; [|done].
  rewrite mbind_run. destruct (on_workers (find_one _) w) as [w1 r1] eqn:E1. apply find_run in E1 as [Hs H1].
  destruct r1 as [[m|]|]; [|done|done]. rewrite mbind_lift. intros [= <- <-].
  destruct (H1 _ eq_refl) as [Hm Hn%String.eqb_eq]. by exists m.
Qed.

Lemma decode_script_bytes {laws : Base64Laws b64} text script :
  decode_script text = Ok script -> b64_decode text = Ok (as_bytes script) /\ Forall is_byte (as_bytes script).
Proof using.
  unfold decode_script. destruct (str_is_empty _); [done|]. intros (bs & Hb & H)%rbind_ok. apply map_err_ok in Hb.
  apply rbind_ok in H as (s & Hs & H). apply map_err_ok in Hs. destruct (str_is_empty _); [done|]. injection H as ->.
  unfold from_utf8 in Hs. apply rbind_ok in Hs as (u & _ & [= <-]). pose proof (b64_bytes _ _ Hb) as Hby.
  by rewrite string_of_bytes_round.
Qed.

(** reading a worker back after it was created or updated gives the submitted description,
    environment, limits and route, and a text that decodes to the very bytes submitted. *)
Theorem script_roundtrip {laws : Base64Laws b64} e e' token token' name name' p (w w1 w2 : JW) j1 j2 :
  workers_ok w -> trim name' = trim name ->
  create e token name p w = (w1, Ok j1) \/ update e token name p w = (w1, Ok j1) ->
  read e' token' name' w1 = (w2, Ok j2) ->
  exists m, j2 = read_response m /\ jw_name m = trim name /\
    b64_decode (b64_encode (as_bytes (jw_js_script m))) = b64_decode (wp_js_script_base64 p) /\
    jw_description m = wp_description p /\ jw_env m = wp_env p /\
    jw_runtime_clean_time m = wp_runtime_clean_time p /\ jw_max_run_time m = wp_max_run_time p /\
    jw_max_stack_size m = wp_max_stack_size p /\ jw_max_heap_size m = wp_max_heap_size p /\
    normalize_route_name (wp_route_name p) = Ok (jw_route_name m).
Proof using wlaws rops.
  intros Hok Hname Hwrite (m & Hm & Hn & -> & _)%read_run. rewrite Hname in Hn. exists m. split; [done|]. split; [done|].
  assert ((exists s bc route, decode_script (wp_js_script_base64 p) = Ok s /\ normalize_route_name (wp_route_name p) = Ok route /\
    exists now id, m = new_worker (trim name) s bc route p now id) \/
    exists s bc route m0 now, decode_script (wp_js_script_base64 p) = Ok s /\ normalize_route_name (wp_route_name p) = Ok route /\
      m = update_worker s bc route p now m0) as Hcase.
  { destruct Hwrite as [H|H].
    - left. pose proof (create_worker_ok e token name p w Hok) as Hok1. rewrite H in Hok1. destruct Hok1 as [[_ Hu] _].
      apply create_worker_run in H as [(m' & bc & route & Hp & _ & _ & Hd & _ & Hr & Hm' & _) _].
      assert (m = m') as ->.
      { eapply (unique_rows_lookup js_worker_conflict); [|exact Hu|done|rewrite Hp; by left|].
        - intros a b. apply (conflict_sym (ops := wops)).
        - unfold js_worker_conflict. rewrite Hn, Hm'. simpl. by rewrite String.eqb_refl, orb_true_r. }
      exists (jw_js_script m'), bc, route. split_and!; [done..|]. by eexists _, _.
    - right. apply update_worker_run in H as [[(m' & s & bc & route & _ & _ & _ & Hd & _ & Hr & Hp & _) _] _]; [|apply Hok].
      cbv zeta in Hp. rewrite Hp in Hm. apply list_elem_of_In, in_map_iff in Hm as (m0 & Hm0 & _).
      unfold update_if, worker_named in Hm0. exists s, bc, route, m0, (now_or (e_clock e) 0). split_and!; [done..|].
      destruct (String.eqb_spec (jw_name m0) (trim name)) as [|Hne]; [done|]. subst m. done. }
  destruct Hcase as [(s & bc & route & Hd & Hr & now & id & ->)|(s & bc & route & m0 & now & Hd & Hr & ->)]; simpl;
    destruct (decode_script_bytes _ _ Hd) as [-> Hb]; rewrite (b64_round _ Hb); done.
Qed.

(** [create], [update] and [delete] change the stored scripts only with the permission for the
    worker they name, and then exactly as documented: a fresh row with the decoded script, its
    bytecode and a route nobody else has; new contents for the one row of that name, its worker
    evicted from the pool; the row gone and its worker evicted.  When they fail the scripts are as
    before.  Results and runs are never touched. *)
Theorem worker_writes_guarded e token name p (w : JW) :
  workers_ok w ->
  (forall w' r, create e token name p w = (w', r) ->
     match r with
     | Ok j => created e token name p (wrows w) (wrows w') j
     | Err _ => wrows w' = wrows w
     end /\ worker_stmt w w') /\
  (forall w' r, update e token name p w = (w', r) ->
     match r with
     | Ok j => updated e token name p (wrows w) (wrows w') j /\ workers (jw_pool w') !! trim name = None
     | Err _ => wrows w' = wrows w /\ jw_pool w' = jw_pool w
     end /\ rrows w' = rrows w /\ jw_version w' = jw_version w /\ jw_spawned w' = jw_spawned w) /\
  (forall w' r, JsWorker.delete e token name w = (w', r) ->
     match r with
     | Ok _ => check_js_worker_permission e token (trim name) JsWorker_Delete = Ok tt /\
         ~ no_match (worker_named (trim name)) (wrows w) /\
         wrows w' ≡ₚ List.filter (fun m => negb (worker_named (trim name) m)) (wrows w) /\
         workers (jw_pool w') !! trim name = None
     | Err _ => wrows w' ≡ₚ wrows w /\ jw_pool w' = jw_pool w
     end /\ rrows w' = rrows w /\ jw_version w' = jw_version w /\ jw_spawned w' = jw_spawned w).
Proof using wlaws.
  intros [Hok _]. split_and!; intros w' r H; [by apply create_worker_run|by apply update_worker_run|by apply (delete_worker_run _ _ _ _ _ _ H)].
Qed.

(** ** Runs *)

(** The tables but for the bytecode of one script, which may have been recompiled. *)
Definition recompiled (model : JsWorkerModel) (bc : Bytes) (w w' : JW) : Prop :=
  (wrows w' = wrows w \/ wrows w' ≡ₚ map (update_if (worker_id (jw_id model)) (set_byte_code bc)) (wrows w)) /\
  rrows w' = rrows w /\ jw_spawned w' = jw_spawned w.

Lemma version_run (w : JW) w' r :
  version_ok w -> current_bc_version w = (w', r) ->
  r = Ok engine_version /\ version_ok w' /\ wrows w' = wrows w /\ rrows w' = rrows w /\ jw_spawned w' = jw_spawned w.
Proof using.
  unfold version_ok, current_bc_version. intros [E|E]; rewrite E; intros [= <- <-]; split_and!; try done; by right.
Qed.

Lemma recompile_ok s bc : recompile s = Ok bc -> compile s = Ok bc.
Proof using. unfold recompile. by rewrite map_err_ok. Qed.

Lemma ensure_run model (w : JW) w' r :
  workers_ok w -> model ∈ wrows w -> ensure_bytecode_version model w = (w', r) ->
  workers_ok w' /\ rrows w' = rrows w /\ jw_spawned w' = jw_spawned w /\
  match r with
  | Ok bc => compile (jw_js_script model) = Ok bc /\ recompiled model bc w w'
  | Err _ => wrows w' = wrows w
  end.
Proof using wlaws.
  intros [Hok Hv] Hm. unfold ensure_bytecode_version.
  destruct (jw_js_byte_code model) as [[|v rest]|] eqn:Eb; [by intros [= <- <-]| |by intros [= <- <-]].
  rewrite mbind_run. destruct (current_bc_version w) as [w1 r1] eqn:E1.
  apply version_run in E1 as (-> & Hv1 & Hw1 & Hr1 & Hs1); [|done].
  assert (workers_ok w1) as Hok1. { split; [by rewrite Hw1|done]. }
  destruct (Z.eqb_spec v engine_version) as [->|Hne].
  { intros [= <- <-]. split; [done|]. split; [done|]. split; [done|]. split; [|split; [by left|done]].
    destruct Hok as [Hf _]. rewrite Forall_forall in Hf. destruct (Hf model Hm) as (_ & _ & Hstep). by apply Hstep. }
  rewrite mbind_lift. destruct (recompile _) as [bc|] eqn:Ec; [|by intros [= <- <-]]. apply recompile_ok in Ec.
  rewrite mbind_run. destruct (on_workers (update_one _ _) w1) as [w2 r2] eqn:E2.
  pose proof E2 as E2'. apply on_workers_run in E2' as [[-> ->]|(d & d' & r0 & Hd & Hu & -> & Hw2 & Hst)]; [by intros [= <- <-]|].
  destruct Hst as (Hr2 & Hp2 & Hv2 & Hs2).
  assert (table_ok (rows d')) as Hok2.
  { eapply update_rows_ok; [exact Hu| |by rewrite Hd, Hw1]. intros m Hin Hid (Hn & Hro & Hst). split_and!; simpl; [done|done|].
    intros bc' [= <-] _. simpl. rewrite Hd, Hw1 in Hin. apply Z.eqb_eq in Hid.
    assert (m = model) as ->; [|done]. destruct Hok as [_ Huniq]. eapply unique_rows_lookup; [|exact Huniq|done|done|].
    - intros a b. apply (conflict_sym (ops := wops)).
    - unfold js_worker_conflict. by rewrite Hid, Z.eqb_refl. }
  assert (version_ok w2) as Hv2' by (unfold version_ok in *; by rewrite Hv2).
  destruct r0 as [m'|err]; cbn [map_err].
  - unfold evict. intros [= <- <-]. unfold workers_ok, recompiled, wrows, rrows, version_ok in *. simpl in *. rewrite Hw2.
    apply update_one_ok in Hu as [Hu _]. rewrite Hd, Hw1 in Hu. split_and!; try done; try congruence. by right.
  - intros [= <- <-]. apply update_one_err in Hu. unfold workers_ok. rewrite Hw2. split_and!; try done; congruence.
Qed.

Lemma find_worker_run name (w : JW) w' r :
  find_worker name w = (w', r) -> same w w' /\ forall m, r = Ok m -> m ∈ wrows w /\ jw_name m = name.
Proof using wlaws.
  unfold find_worker. rewrite mbind_run. destruct (on_workers (find_one _) w) as [w1 r1] eqn:E1.
  apply find_run in E1 as [Hs H]. destruct r1 as [o|]; [|intros [= <- <-]; by split].
  unfold lift. intros [= <- <-]. split; [done|]. intros m Hm%ok_or_ok. subst o.
  destruct (H _ eq_refl) as [? ?%String.eqb_eq]. done.
Qed.

Lemma same_ok w w' : same w w' -> workers_ok w -> workers_ok w'.
Proof using. intros (Hw & _ & _ & Hv & _) [Ht Hk]. unfold workers_ok, version_ok. by rewrite Hw, Hv. Qed.

Lemma insert_result_run clk wid name ty params (w : JW) w' r :
  insert_js_result_row clk wid name ty params w = (w', r) ->
  wrows w' = wrows w /\ jw_version w' = jw_version w /\ jw_spawned w' = jw_spawned w /\
  match r with
  | Ok id => rrows w' ≡ₚ new_result wid name ty params (now_or clk 0) id :: rrows w /\
      no_match (result_with_id id) (rrows w)
  | Err _ => rrows w' = rrows w
  end.
Proof using rlaws.
  unfold insert_js_result_row, on_results. unfold wrows, rrows. destruct (jw_db w) as [[d s]|] eqn:Edb; [|intros [= <- <-]; by rewrite Edb].
  destruct (insert_auto _ s) as [s' r0] eqn:Ei. intros [= <- <-]. simpl. split_and!; [done..|].
  destruct r0 as [id|err]; cbn [map_err].
  - apply insert_auto_ok in Ei as [Hp Hn]. split; [done|]. intros x Hx. specialize (Hn x Hx).
    unfold js_result_conflict, result_with_id in *. simpl in Hn. by rewrite Z.eqb_sym.
  - by apply insert_auto_err in Ei as [? _].
Qed.

(** What queueing a run of [model] leaves: its pending row and its task. *)
Definition queued (clk clk_row : Clock) (model : JsWorkerModel) (input : RunInput) (ty : RunType) (params : Json)
    (env : option Json) (id : Z) (w w' : JW) : Prop :=
  rrows w' ≡ₚ new_result (jw_id model) (jw_name model) (run_type_str ty) params (now_or clk_row 0) id :: rrows w /\
  no_match (result_with_id id) (rrows w) /\
  jw_spawned w' = {| rt_result_id := id; rt_worker_name := jw_name model; rt_input := input; rt_run_type := ty;
                     rt_params := params; rt_env := resolve_env env model; rt_limits := limits_of model;
                     rt_start_time := now_or clk 0 |} :: jw_spawned w.

Lemma enqueue_defined_run clk clk_row name ty params env (w : JW) w' r :
  workers_ok w -> enqueue_defined_js_worker_run clk clk_row name ty params env w = (w', r) ->
  workers_ok w' /\
  match r with
  | Ok id => exists model bc, model ∈ wrows w /\ jw_name model = trim name /\ compile (jw_js_script model) = Ok bc /\
      queued clk clk_row model (RunBytecode bc (jw_runtime_clean_time model)) ty params env id w w'
  | Err _ => rrows w' = rrows w /\ jw_spawned w' = jw_spawned w
  end.
Proof using wlaws rlaws.
  intros Hok. unfold enqueue_defined_js_worker_run. destruct (str_is_empty _); [by intros [= <- <-]|].
  rewrite mbind_run. destruct (find_worker _ w) as [w1 r1] eqn:E1. apply find_worker_run in E1 as [Hs1 H1].
  pose proof (same_ok _ _ Hs1 Hok) as Hok1. destruct Hs1 as (Hw1 & Hr1 & _ & _ & Hsp1).
  destruct r1 as [model|]; [|by intros [= <- <-]]. destruct (H1 _ eq_refl) as [Hm Hn].
  rewrite mbind_run. destruct (ensure_bytecode_version model w1) as [w2 r2] eqn:E2.
  apply ensure_run in E2 as (Hok2 & Hr2 & Hsp2 & H2); [|done|by rewrite Hw1].
  destruct r2 as [bc|]; [|intros [= <- <-]; split; [done|split; congruence]].
  rewrite mbind_run. destruct (insert_js_result_row _ _ _ _ _ w2) as [w3 r3] eqn:E3.
  apply insert_result_run in E3 as (Hw3 & Hv3 & Hsp3 & H3).
  assert (workers_ok w3) as Hok3. { unfold workers_ok, version_ok in *. by rewrite Hw3, Hv3. }
  destruct r3 as [id|]; [|intros [= <- <-]; split; [done|split; congruence]].
  rewrite mbind_run. unfold spawn, mret. intros [= <- <-]. split; [done|]. exists model, bc. destruct H2 as [Hc _].
  split_and!; [done..|]. destruct H3 as [H3 H4]. rewrite Hr2, Hr1 in *. split_and!; [exact H3|done|]. simpl. congruence.
Qed.

Lemma enqueue_source_run clk clk_row name ty params env (w : JW) w' r :
  workers_ok w -> enqueue_source_js_worker_run clk clk_row name ty params env w = (w', r) ->
  workers_ok w' /\
  match r with
  | Ok id => exists model, model ∈ wrows w /\ jw_name model = trim name /\
      queued clk clk_row model (RunSource (jw_js_script model)) ty params env id w w'
  | Err _ => rrows w' = rrows w /\ jw_spawned w' = jw_spawned w
  end.
Proof using wlaws rlaws.
  intros Hok. unfold enqueue_source_js_worker_run. destruct (str_is_empty _); [by intros [= <- <-]|].
  rewrite mbind_run. destruct (find_worker _ w) as [w1 r1] eqn:E1. apply find_worker_run in E1 as [Hs1 H1].
  pose proof (same_ok _ _ Hs1 Hok) as Hok1. destruct Hs1 as (Hw1 & Hr1 & _ & _ & Hsp1).
  destruct r1 as [model|]; [|by intros [= <- <-]]. destruct (H1 _ eq_refl) as [Hm Hn].
  rewrite mbind_run. destruct (insert_js_result_row _ _ _ _ _ w1) as [w3 r3] eqn:E3.
  apply insert_result_run in E3 as (Hw3 & Hv3 & Hsp3 & H3).
  assert (workers_ok w3) as Hok3. { unfold workers_ok, version_ok in *. by rewrite Hw3, Hv3. }
  destruct r3 as [id|]; [|intros [= <- <-]; split; [done|split; congruence]].
  rewrite mbind_run. unfold spawn, mret. intros [= <- <-]. split; [done|]. exists model.
  split_and!; [done..|]. destruct H3 as [H3 H4]. rewrite Hr1 in *. split_and!; [exact H3|done|]. simpl. congruence.
Qed.
End thms.
