(* ===== verification/JsSystem.v ===== *)
(** * Interleaved runs

    Requests on scripts, queued runs, inline calls, their ends and deletions of results in
    any order.  Two ghost sets accompany the state: the keys [js_result] has handed out (its
    sequence never repeats one) and the rows whose outcome could not be written. *)
From stdpp Require Import base strings gmap list numbers pretty relations.
From Stdlib Require Import Ascii SpecFloat.
From S2P Require Import Prelude Errors Json Db Permission TokenCache TokenCheck KvAuth KvStore StaticBucket Purge Selection Retention RetentionThms Tasks TaskThms JsPool JsWorker JsRun JsThms.

Definition pending (r : JsResultModel) : Prop :=
  jr_finish_time r = None /\ jr_result r = None /\ jr_error_message r = None.
(** Finished, with a value or a message and not both. *)
Definition settled (r : JsResultModel) : Prop :=
  is_Some (jr_finish_time r) /\
  (is_Some (jr_result r) /\ jr_error_message r = None \/ jr_result r = None /\ is_Some (jr_error_message r)).

Section system.
Context {W R : Type} {wops : TableOps W JsWorkerModel} {rops : TableOps R JsResultModel}.
Context {b64 : Base64} {eng : JsEngine} {jt : JsonText}.
Variable show : spec_float -> string.
#[local] Notation JW := (JsWorld W R).

Record Sys : Type := {
  sy_w : JW;
  sy_inline : list InlineRun;     (** inline calls waiting for their script *)
  sy_ids : gset Z;                (** keys handed out so far *)
  sy_lost : gset Z;               (** rows whose outcome was not written *)
}.

Definition running (s : Sys) : list Z := map rt_result_id (jw_spawned (sy_w s)) ++ map ir_result_id (sy_inline s).

(** Whether the statement of [record_outcome] succeeds. *)
Definition recorded (id finish_time : Z) (c : option Json * option string) (w : JW) : bool :=
  is_ok (on_results (update_many (result_with_id id) (set_outcome finish_time c)) w).2.

Definition note_lost (ok : bool) (id : Z) (lost : gset Z) : gset Z := if ok then lost else {[id]} ∪ lost.

(** Whether [inline_call_finish] gets as far as writing the outcome, and succeeds. *)
Definition inline_recorded (clk : Clock) (ir : InlineRun) (o : result string (result string Json)) (w : JW) : bool :=
  let ft := now_or clk (ir_start_time ir) in
  match o with
  | Ok (Ok v) => is_ok (json_to_string v) && recorded (ir_result_id ir) ft (Some v, None) w
  | Ok (Err m) => recorded (ir_result_id ir) ft
                    (None, Some (anyhow_display (OfNodeget (Other ("JavaScript runtime execution failed: " +:+ m))))) w
  | Err _ => false
  end.

Inductive js_step : Sys -> Sys -> Prop :=
| step_create e token name p s :
    js_step s {| sy_w := (create e token name p (sy_w s)).1; sy_inline := sy_inline s; sy_ids := sy_ids s; sy_lost := sy_lost s |}
| step_update e token name p s :
    js_step s {| sy_w := (update e token name p (sy_w s)).1; sy_inline := sy_inline s; sy_ids := sy_ids s; sy_lost := sy_lost s |}
| step_delete e token name s :
    js_step s {| sy_w := (JsWorker.delete e token name (sy_w s)).1; sy_inline := sy_inline s; sy_ids := sy_ids s; sy_lost := sy_lost s |}
| step_enqueue clk clk_row mode name ty params env s w' r :
    (match mode with
     | ModeBytecode => enqueue_defined_js_worker_run clk clk_row name ty params env
     | ModeSource => enqueue_source_js_worker_run clk clk_row name ty params env
     end) (sy_w s) = (w', r) ->
    (forall id, r = Ok id -> id ∉ sy_ids s) ->
    js_step s {| sy_w := w'; sy_inline := sy_inline s;
                 sy_ids := match r with Ok id => {[id]} ∪ sy_ids s | Err _ => sy_ids s end; sy_lost := sy_lost s |}
| step_inline_start clk clk_row name params timeout depth s w' r :
    inline_call_start show clk clk_row name params timeout depth (sy_w s) = (w', r) ->
    (forall ir, r = Ok ir -> ir_result_id ir ∉ sy_ids s) ->
    js_step s {| sy_w := w'; sy_inline := match r with Ok ir => ir :: sy_inline s | Err _ => sy_inline s end;
                 sy_ids := match r with Ok ir => {[ir_result_id ir]} ∪ sy_ids s | Err _ => sy_ids s end; sy_lost := sy_lost s |}
| step_finish clk t o s :
    t ∈ jw_spawned (sy_w s) ->
    js_step s {| sy_w := finish_run clk t o (sy_w s); sy_inline := sy_inline s; sy_ids := sy_ids s;
                 sy_lost := note_lost (recorded (rt_result_id t) (now_or clk (rt_start_time t))
                                         (outcome_columns (run_outcome o)) (sy_w s)) (rt_result_id t) (sy_lost s) |}
| step_inline_finish clk ir o s :
    ir ∈ sy_inline s ->
    js_step s {| sy_w := (inline_call_finish clk ir o (sy_w s)).1;
                 sy_inline := List.filter (fun x => negb (ir_result_id x =? ir_result_id ir)%Z) (sy_inline s);
                 sy_ids := sy_ids s;
                 sy_lost := note_lost (inline_recorded clk ir o (sy_w s)) (ir_result_id ir) (sy_lost s) |}
| step_forget p s :
    js_step s {| sy_w := (on_results (delete_many p) (sy_w s)).1; sy_inline := sy_inline s; sy_ids := sy_ids s;
                 sy_lost := sy_lost s |}.

Record sys_ok (s : Sys) : Prop := {
  so_workers : workers_ok (sy_w s);
  so_keys : pk_unique jr_id (rrows (sy_w s));
  so_state : forall r, r ∈ rrows (sy_w s) ->
    (pending r /\ (jr_id r ∈ running s \/ jr_id r ∈ sy_lost s)) \/ (settled r /\ jr_id r ∉ running s);
  so_running : NoDup (running s);
  so_ids : forall r, r ∈ rrows (sy_w s) -> jr_id r ∈ sy_ids s;
  so_run_ids : forall i, i ∈ running s -> i ∈ sy_ids s;
}.

Context {wlaws : TableLaws wops js_worker_conflict} {rlaws : TableLaws rops js_result_conflict}.

(** ** Steps that leave results and runs alone *)

Lemma sys_ok_frame s w' :
  sys_ok s -> workers_ok w' -> rrows w' ≡ₚ rrows (sy_w s) -> jw_spawned w' = jw_spawned (sy_w s) ->
  sys_ok {| sy_w := w'; sy_inline := sy_inline s; sy_ids := sy_ids s; sy_lost := sy_lost s |}.
Proof using wlaws rlaws.
  intros [H1 H2 H3 H4 H5 H6] Hw Hr Hs. unfold running in *.
  split; simpl; [done|unfold pk_unique in *; by rewrite Hr| | | |]; unfold running; simpl; rewrite ?Hs; [|done| |done];
    intros r; rewrite Hr; auto.
Qed.

(** ** A new run *)

Lemma sys_ok_insert s w' id row spawned' inline' :
  sys_ok s -> workers_ok w' -> rrows w' ≡ₚ row :: rrows (sy_w s) -> jr_id row = id -> pending row -> id ∉ sy_ids s ->
  jw_spawned w' = spawned' ->
  map rt_result_id spawned' ++ map ir_result_id inline' ≡ₚ id :: running s ->
  sys_ok {| sy_w := w'; sy_inline := inline'; sy_ids := {[id]} ∪ sy_ids s; sy_lost := sy_lost s |}.
Proof using wlaws rlaws.
  intros [H1 H2 H3 H4 H5 H6] Hw Hr Hid Hp Hfresh Hs Hrun. rewrite <-Hs in Hrun.
  assert (running {| sy_w := w'; sy_inline := inline'; sy_ids := {[id]} ∪ sy_ids s; sy_lost := sy_lost s |} ≡ₚ id :: running s) as Hrun' by exact Hrun.
  split; simpl; [done| | | | |].
  - unfold pk_unique in *. rewrite Hr. simpl. apply list.NoDup_cons. split; [|done].
    rewrite Hid. intros (x & Hx & Hin)%list_elem_of_fmap. apply Hfresh. rewrite Hx. auto.
  - intros r. rewrite Hr, elem_of_cons. setoid_rewrite Hrun'. setoid_rewrite elem_of_cons.
    intros [->|Hin]; [left; split; [done|]; left; by left|].
    assert (jr_id r <> id) as Hne by (intros Heq; apply Hfresh; rewrite <-Heq; auto).
    destruct (H3 r Hin) as [[? ?]|[? ?]]; [left; split; [done|]; tauto|right; split; [done|]; tauto].
  - rewrite Hrun'. apply list.NoDup_cons. split; [|done]. intros Hin. by apply Hfresh, H6.
  - intros r. rewrite Hr, elem_of_cons. intros [->|Hin]; [set_solver|]. specialize (H5 r Hin). set_solver.
  - intros i. rewrite Hrun', elem_of_cons. intros [->|Hin]; [set_solver|]. specialize (H6 i Hin). set_solver.
Qed.

Lemma new_result_pending wid name ty params now id : pending (new_result wid name ty params now id).
Proof using wlaws rlaws. done. Qed.

Lemma enqueue_step_ok clk clk_row mode name ty params env s w' r :
  (match mode with
   | ModeBytecode => enqueue_defined_js_worker_run clk clk_row name ty params env
   | ModeSource => enqueue_source_js_worker_run clk clk_row name ty params env
   end) (sy_w s) = (w', r) ->
  (forall id, r = Ok id -> id ∉ sy_ids s) -> sys_ok s ->
  sys_ok {| sy_w := w'; sy_inline := sy_inline s;
            sy_ids := match r with Ok id => {[id]} ∪ sy_ids s | Err _ => sy_ids s end; sy_lost := sy_lost s |}.
Proof using wlaws rlaws.
  intros H Hfresh Hok. pose proof (so_workers _ Hok) as Hw.
  assert (workers_ok w' /\ match r with
    | Ok id => exists model input, queued clk clk_row model input ty params env id (sy_w s) w'
    | Err _ => rrows w' = rrows (sy_w s) /\ jw_spawned w' = jw_spawned (sy_w s) end) as [Hw' Hq].
  { destruct mode; [apply enqueue_defined_run in H|apply enqueue_source_run in H]; try done;
      destruct H as [? H]; (split; [done|]); destruct r; naive_solver. }
  destruct r as [id|err].
  - destruct Hq as (model & input & Hr & _ & Hs).
    eapply (sys_ok_insert s w' id _ _ _ Hok Hw' Hr); [done|done|by apply Hfresh|exact Hs|done].
  - destruct Hq as [Hr Hs]. apply sys_ok_frame; try done. by rewrite Hr.
Qed.

Lemma raise_run {A} (m : Jm A) (w : JW) w' r :
  raise m w = (w', r) -> exists r0, m w = (w', r0) /\ r = map_err Returned r0.
Proof using wlaws rlaws. unfold raise. destruct (m w) as [w1 r0]. intros [= <- <-]. by exists r0. Qed.

Lemma inline_timeout_state t (w : JW) : exists r, inline_timeout show t w = (w, r).
Proof using wlaws rlaws.
  unfold inline_timeout, refuse, mfail, mret. destruct t as [v|]; [|by eexists].
  destruct (is_finite_positive v); [destruct (from_secs_f64 v)|]; by eexists.
Qed.

Lemma inline_start_run clk clk_row name params timeout depth (w : JW) w' r :
  workers_ok w -> inline_call_start show clk clk_row name params timeout depth w = (w', r) ->
  workers_ok w' /\ jw_spawned w' = jw_spawned w /\
  match r with
  | Ok ir => exists model row, model ∈ wrows w /\ jw_name model = trim name /\ ir_worker_name ir = trim name /\
      compile (jw_js_script model) = Ok (ir_bytecode ir) /\ json_from_str params = Ok (ir_params ir) /\
      rrows w' ≡ₚ row :: rrows w /\ jr_id row = ir_result_id ir /\ pending row /\
      (depth <= MAX_INLINE_DEPTH)%Z
  | Err _ => rrows w' = rrows w
  end.
Proof using wlaws rlaws.
  intros Hok. unfold inline_call_start. destruct (Z.ltb_spec MAX_INLINE_DEPTH depth) as [|Hd]; [by intros [= <- <-]|].
  destruct (str_is_empty _); [by intros [= <- <-]|].
  destruct (json_from_str params) as [v|] eqn:Ej; [|by intros [= <- <-]].
  rewrite mbind_run. unfold mret at 1. rewrite mbind_run. destruct (inline_timeout_state timeout w) as [rt ->].
  destruct rt as [dur|]; [|by intros [= <- <-]].
  rewrite mbind_run. destruct (raise (find_worker _) w) as [w1 r1] eqn:E1. apply raise_run in E1 as (r0 & E1 & ->).
  apply find_worker_run in E1 as [Hs1 H1]. pose proof (same_ok _ _ Hs1 Hok) as Hok1.
  destruct Hs1 as (Hw1 & Hr1 & _ & _ & Hsp1).
  destruct r0 as [model|]; cbn [map_err]; [|by intros [= <- <-]]. destruct (H1 _ eq_refl) as [Hm Hn].
  rewrite mbind_run. destruct (raise (ensure_bytecode_version model) w1) as [w2 r2] eqn:E2.
  apply raise_run in E2 as (r0 & E2 & ->). apply ensure_run in E2 as (Hok2 & Hr2 & Hsp2 & H2); [|done|by rewrite Hw1].
  destruct r0 as [bc|]; cbn [map_err]; [|intros [= <- <-]; split_and!; [done|congruence|congruence]].
  rewrite mbind_run. destruct (raise (insert_js_result_row _ _ _ _ _) w2) as [w3 r3] eqn:E3.
  apply raise_run in E3 as (r0 & E3 & ->). apply insert_result_run in E3 as (Hw3 & Hv3 & Hsp3 & H3).
  assert (workers_ok w3) as Hok3. { unfold workers_ok, version_ok in *. by rewrite Hw3, Hv3. }
  destruct r0 as [id|]; cbn [map_err]; [|intros [= <- <-]; split_and!; [done|congruence|congruence]].
  intros [= <- <-]. split_and!; [done|congruence|]. destruct H3 as [H3 _]. destruct H2 as [Hc _]. rewrite Hr2, Hr1 in H3.
  eexists model, _. split_and!; [done|done|done|exact Hc|done|exact H3|done|done|done].
Qed.

(** ** The end of a run *)

(** [record_outcome] settles the row with this key, or changes nothing. *)
Lemma record_run id ft c (w : JW) :
  wrows (record_outcome id ft c w) = wrows w /\ jw_version (record_outcome id ft c w) = jw_version w /\
  jw_spawned (record_outcome id ft c w) = jw_spawned w /\
  (if recorded id ft c w then rrows (record_outcome id ft c w) ≡ₚ map (update_if (result_with_id id) (set_outcome ft c)) (rrows w)
   else rrows (record_outcome id ft c w) = rrows w).
Proof using wlaws rlaws.
  unfold record_outcome, recorded, on_results. unfold wrows, rrows. destruct (jw_db w) as [[d s]|] eqn:E; simpl; [|by rewrite E].
  destruct (update_many _ _ s) as [s' r0] eqn:Eu. simpl. split_and!; [done..|]. destruct r0 as [n|err]; simpl.
  - by apply update_many_ok in Eu as [? _].
  - by apply update_many_err in Eu.
Qed.

Lemma settle_ids id ft c l : map jr_id (map (update_if (result_with_id id) (set_outcome ft c)) l) = map jr_id l.
Proof using wlaws rlaws. rewrite map_map. apply map_ext. intros r. unfold update_if. by destruct (result_with_id id r). Qed.

Lemma settled_columns ft c r : (is_Some c.1 /\ c.2 = None \/ c.1 = None /\ is_Some c.2) -> settled (set_outcome ft c r).
Proof using wlaws rlaws. intros H. split; [by eexists|exact H]. Qed.

(** One run less. *)
Lemma sys_ok_end s id ft c ok w' inline' :
  sys_ok s -> id ∈ running s -> (is_Some c.1 /\ c.2 = None \/ c.1 = None /\ is_Some c.2) ->
  workers_ok w' ->
  (if (ok : bool) then rrows w' ≡ₚ map (update_if (result_with_id id) (set_outcome ft c)) (rrows (sy_w s))
   else rrows w' = rrows (sy_w s)) ->
  map rt_result_id (jw_spawned w') ++ map ir_result_id inline' = List.filter (fun i => negb (i =? id)%Z) (running s) ->
  sys_ok {| sy_w := w'; sy_inline := inline'; sy_ids := sy_ids s; sy_lost := note_lost ok id (sy_lost s) |}.
Proof using wlaws rlaws.
  intros [H1 H2 H3 H4 H5 H6] Hid Hc Hw Hr Hrun.
  set (s' := {| sy_w := w'; sy_inline := inline'; sy_ids := sy_ids s; sy_lost := note_lost ok id (sy_lost s) |}).
  assert (forall i, i ∈ running s' <-> i ∈ running s /\ i <> id) as Hin.
  { intros i. unfold running at 1. simpl. rewrite Hrun, list_filter_elem, negb_true_iff, Z.eqb_neq. done. }
  assert (forall r', r' ∈ rrows w' -> exists r, r ∈ rrows (sy_w s) /\ jr_id r' = jr_id r /\
            (r' = r /\ (ok = false \/ jr_id r <> id) \/ jr_id r = id /\ r' = set_outcome ft c r /\ ok = true)) as Hfrom.
  { intros r' Hr'. destruct ok.
    - rewrite Hr in Hr'. apply list_elem_of_In, in_map_iff in Hr' as (r & <- & Hr'%list_elem_of_In). exists r. split; [done|].
      unfold update_if, result_with_id. destruct (Z.eqb_spec (jr_id r) id) as [Heq|Hne]; [split; [done|]; by right|].
      split; [done|]. left. split; [done|]. by right.
    - rewrite Hr in Hr'. exists r'. split_and!; [done|done|]. left. split; [done|]. by left. }
  split; simpl; [done| | | | |].
  - unfold pk_unique in *. destruct ok; [|by rewrite Hr]. rewrite Hr. by rewrite settle_ids.
  - intros r' Hr'. destruct (Hfrom r' Hr') as (r & Hr0 & Hi & Hcase). rewrite Hin, Hi.
    destruct Hcase as [[-> Hor]|(Hid' & -> & ->)].
    + destruct (H3 r Hr0) as [[Hp Hrl]|[Hst Hnr]]; [left; split; [done|]|right; split; [done|tauto]].
      destruct (decide (jr_id r = id)) as [Heq|Hne].
      * right. destruct Hor as [->|?]; [|done]. unfold note_lost. set_solver.
      * destruct Hrl as [Hrl|Hl]; [by left|]. right. unfold note_lost. destruct ok; set_solver.
    + right. split; [by apply settled_columns|]. tauto.
  - unfold running. simpl. rewrite Hrun. apply NoDup_ListNoDup, List.NoDup_filter, NoDup_ListNoDup, H4.
  - intros r' Hr'. destruct (Hfrom r' Hr') as (r & Hr0 & -> & _). auto.
  - intros i. rewrite Hin. intros [? _]. auto.
Qed.

Lemma outcome_one r : let c := outcome_columns r in is_Some c.1 /\ c.2 = None \/ c.1 = None /\ is_Some c.2.
Proof using. destruct r; simpl; [left; split; [by eexists|done]|right; split; [done|by eexists]]. Qed.

Lemma filter_map_eq {A} (f : A -> Z) id (l : list A) :
  map f (List.filter (fun x => negb (f x =? id)%Z) l) = List.filter (fun i => negb (i =? id)%Z) (map f l).
Proof using. induction l as [|x l IH]; simpl; [done|]. destruct (f x =? id)%Z; simpl; by rewrite IH. Qed.

Lemma filter_keep id (l : list Z) : id ∉ l -> List.filter (fun i => negb (i =? id)%Z) l = l.
Proof using.
  induction l as [|x l IH]; simpl; [done|]. intros [Hne Hl]%not_elem_of_cons.
  destruct (Z.eqb_spec x id) as [->|]; [done|]. simpl. by rewrite IH.
Qed.

Lemma finish_step_ok clk t o s :
  t ∈ jw_spawned (sy_w s) -> sys_ok s ->
  sys_ok {| sy_w := finish_run clk t o (sy_w s); sy_inline := sy_inline s; sy_ids := sy_ids s;
            sy_lost := note_lost (recorded (rt_result_id t) (now_or clk (rt_start_time t))
                                    (outcome_columns (run_outcome o)) (sy_w s)) (rt_result_id t) (sy_lost s) |}.
Proof using wlaws rlaws.
  intros Ht Hok. unfold finish_run. set (c := outcome_columns (run_outcome o)). set (ft := now_or _ _). set (id := rt_result_id t).
  destruct (record_run id ft c (sy_w s)) as (Hw & Hv & Hs & Hr). pose proof (so_running _ Hok) as Hnd.
  assert (id ∈ map rt_result_id (jw_spawned (sy_w s))) as Hin by (by apply list_elem_of_fmap_2).
  eapply sys_ok_end; [done|unfold running; apply elem_of_app; by left|apply outcome_one| |exact Hr|].
  - pose proof (so_workers _ Hok) as [? ?]. unfold workers_ok, version_ok, wrows in *. simpl in *. by rewrite Hw, Hv.
  - simpl. rewrite Hs, filter_map_eq. unfold running. rewrite List.filter_app. f_equal. symmetry. apply filter_keep.
    unfold running in Hnd. apply NoDup_app in Hnd as (_ & Hd & _). by apply Hd.
Qed.

Lemma inline_finish_run clk ir o (w : JW) :
  exists c, (is_Some c.1 /\ c.2 = None \/ c.1 = None /\ is_Some c.2) /\
  let w' := (inline_call_finish clk ir o w).1 in
  let ft := now_or clk (ir_start_time ir) in
  wrows w' = wrows w /\ jw_version w' = jw_version w /\ jw_spawned w' = jw_spawned w /\
  (if inline_recorded clk ir o w then rrows w' ≡ₚ map (update_if (result_with_id (ir_result_id ir)) (set_outcome ft c)) (rrows w)
   else rrows w' = rrows w).
Proof using wlaws rlaws.
  unfold inline_call_finish, inline_recorded. rewrite mbind_lift. destruct o as [[v|m]|m]; cbn [map_err].
  - exists (Some v, None). split; [left; split; [by eexists|done]|]. rewrite mbind_run, mbind_lift.
    destruct (json_to_string v) as [js|]; cbn [map_err is_ok andb]; [|done]. unfold mret. apply record_run.
  - eexists (None, Some _). split; [right; split; [done|by eexists]|]. rewrite mbind_run. unfold mret. apply record_run.
  - exists (Some JNull, None). split; [left; split; [by eexists|done]|]. done.
Qed.

Lemma inline_finish_step_ok clk ir o s :
  ir ∈ sy_inline s -> sys_ok s ->
  sys_ok {| sy_w := (inline_call_finish clk ir o (sy_w s)).1;
            sy_inline := List.filter (fun x => negb (ir_result_id x =? ir_result_id ir)%Z) (sy_inline s);
            sy_ids := sy_ids s;
            sy_lost := note_lost (inline_recorded clk ir o (sy_w s)) (ir_result_id ir) (sy_lost s) |}.
Proof using wlaws rlaws.
  intros Hir Hok. destruct (inline_finish_run clk ir o (sy_w s)) as (c & Hc & Hw & Hv & Hs & Hr).
  pose proof (so_running _ Hok) as Hnd.
  assert (ir_result_id ir ∈ map ir_result_id (sy_inline s)) as Hin by (by apply list_elem_of_fmap_2).
  eapply sys_ok_end; [done|unfold running; apply elem_of_app; by right|exact Hc| |exact Hr|].
  - pose proof (so_workers _ Hok) as [? ?]. unfold workers_ok, version_ok in *. by rewrite Hw, Hv.
  - rewrite Hs, filter_map_eq. unfold running. rewrite List.filter_app. f_equal. symmetry. apply filter_keep.
    unfold running in Hnd. apply NoDup_app in Hnd as (_ & Hd & _). intros Hx. by apply (Hd _ Hx).
Qed.

Lemma forget_run p (w : JW) :
  let w' := (on_results (delete_many p) w).1 in
  wrows w' = wrows w /\ jw_version w' = jw_version w /\ jw_spawned w' = jw_spawned w /\
  (rrows w' = rrows w \/ rrows w' ≡ₚ List.filter (fun r => negb (p r)) (rrows w)).
Proof using wlaws rlaws.
  unfold on_results. unfold wrows, rrows. destruct (jw_db w) as [[d s]|] eqn:E; simpl; [|rewrite E; split_and!; [done..|by left]].
  destruct (delete_many p s) as [s' r0] eqn:Ed. simpl. split_and!; [done..|]. destruct r0 as [n|err].
  - apply delete_many_ok in Ed as [? _]. by right.
  - apply delete_many_err in Ed. by left.
Qed.

Lemma js_step_ok s s' : js_step s s' -> sys_ok s -> sys_ok s'.
Proof using wlaws rlaws.
  destruct 1 as [e token name p s|e token name p s|e token name s|clk clk_row mode name ty params env s w' r H Hf
    |clk clk_row name params timeout depth s w' r H Hf|clk t o s Ht|clk ir o s Hir|p s]; intros Hok;
    pose proof (so_workers _ Hok) as Hw.
  - destruct (create e token name p (sy_w s)) as [w' r] eqn:E. pose proof (create_worker_ok e token name p _ Hw) as Hw'.
    rewrite E in Hw'. apply create_worker_run in E as [_ (Hr & _ & _ & Hs)]. cbn [fst]. apply sys_ok_frame; try done. by rewrite Hr.
  - destruct (update e token name p (sy_w s)) as [w' r] eqn:E. pose proof (update_worker_ok e token name p _ Hw) as Hw'.
    rewrite E in Hw'. apply update_worker_run in E as [_ (Hr & _ & Hs)]; [|apply Hw]. cbn [fst]. apply sys_ok_frame; try done. by rewrite Hr.
  - destruct (JsWorker.delete e token name (sy_w s)) as [w' r] eqn:E. pose proof (delete_worker_ok e token name _ Hw) as Hw'.
    rewrite E in Hw'. apply delete_worker_run in E as [_ (Hr & _ & Hs)]. cbn [fst]. apply sys_ok_frame; try done. by rewrite Hr.
  - by eapply enqueue_step_ok.
  - apply inline_start_run in H as (Hw' & Hs & H); [|done]. destruct r as [ir|err].
    + destruct H as (model & row & _ & _ & _ & _ & _ & Hr & Hid & Hp & _).
      eapply (sys_ok_insert s w' (ir_result_id ir) row _ (ir :: sy_inline s) Hok Hw' Hr Hid Hp); [by apply Hf|exact Hs|].
      unfold running. simpl. by rewrite <-Permutation_middle.
    + apply sys_ok_frame; try done. by rewrite H.
  - by apply finish_step_ok.
  - by apply inline_finish_step_ok.
  - destruct (forget_run p (sy_w s)) as (H1 & H2 & H3 & H4). destruct H4 as [H4|H4].
    + apply sys_ok_frame; try done; [|by rewrite H4].
      unfold workers_ok, version_ok in *. by rewrite H1, H2.
    + destruct Hok as [K1 K2 K3 K4 K5 K6]. unfold running in *. split; unfold running; simpl; rewrite ?H3; try done.
      * unfold workers_ok, version_ok in *. by rewrite H1, H2.
      * unfold pk_unique in *. rewrite H4. apply NoDup_ListNoDup. apply NoDup_ListNoDup in K2. clear -K2.
        induction (rrows (sy_w s)) as [|x l IH]; simpl in *; [constructor|]. inversion K2; subst.
        destruct (p x); simpl; [by apply IH|]. constructor; [|by apply IH]. intros Hin. apply H1.
        apply in_map_iff in Hin as (y & Hy & [Hin _]%filter_In). rewrite <-Hy. by apply in_map.
      * intros r. rewrite H4. intros [Hr _]%list_filter_elem. auto.
      * intros r. rewrite H4. intros [Hr _]%list_filter_elem. auto.
Qed.

Lemma js_run_ok s s' : rtc js_step s s' -> sys_ok s -> sys_ok s'.
Proof using wlaws rlaws. induction 1; eauto using js_step_ok. Qed.

(** A row whose run is over is not written any more: it stays as it is, or is deleted. *)
Lemma finished_step s s' i :
  js_step s s' -> sys_ok s -> i ∈ sy_ids s -> i ∉ running s ->
  i ∈ sy_ids s' /\ i ∉ running s' /\ forall r, r ∈ rrows (sy_w s') -> jr_id r = i -> r ∈ rrows (sy_w s).
Proof using wlaws rlaws.
  intros Hstep Hok Hi Hnr. pose proof (so_workers _ Hok) as Hw.
  assert (forall id ft c l r, id ∈ running s -> l ≡ₚ map (update_if (result_with_id id) (set_outcome ft c)) (rrows (sy_w s)) ->
            r ∈ l -> jr_id r = i -> r ∈ rrows (sy_w s)) as Hupd.
  { intros id ft c l r Hrun Hl Hin Hid. rewrite Hl in Hin. apply list_elem_of_In, in_map_iff in Hin as (x & Hx & Hin%list_elem_of_In).
    unfold update_if, result_with_id in Hx. destruct (Z.eqb_spec (jr_id x) id) as [Heq|]; [|by subst x].
    exfalso. apply Hnr. rewrite <-Hid, <-Hx. simpl. by rewrite Heq. }
  assert (forall row l r, l ≡ₚ row :: rrows (sy_w s) -> jr_id row ∉ sy_ids s -> r ∈ l -> jr_id r = i -> r ∈ rrows (sy_w s)) as Hins.
  { intros row l r Hl Hfresh Hin Hid. rewrite Hl in Hin. apply elem_of_cons in Hin as [->|Hin]; [|done].
    exfalso. apply Hfresh. by rewrite Hid. }
  unfold running in *.
  destruct Hstep as [e token name p s|e token name p s|e token name s|clk clk_row mode name ty params env s w' r0 H Hf
    |clk clk_row name params timeout depth s w' r0 H Hf|clk t o s Ht|clk ir o s Hir|p s]; cbn [sy_w sy_ids sy_inline].
  - destruct (create e token name p (sy_w s)) as [w' r0] eqn:E. cbn [fst]. by apply create_worker_run in E as [_ (-> & _ & _ & ->)].
  - destruct (update e token name p (sy_w s)) as [w' r0] eqn:E. cbn [fst].
    by apply update_worker_run in E as [_ (-> & _ & ->)]; [|apply Hw].
  - destruct (JsWorker.delete e token name (sy_w s)) as [w' r0] eqn:E. cbn [fst]. by apply delete_worker_run in E as [_ (-> & _ & ->)].
  - assert (match r0 with
      | Ok id => exists model input, queued clk clk_row model input ty params env id (sy_w s) w'
      | Err _ => rrows w' = rrows (sy_w s) /\ jw_spawned w' = jw_spawned (sy_w s) end) as Hq.
    { destruct mode; [apply enqueue_defined_run in H|apply enqueue_source_run in H]; try done; destruct H as [_ H], r0; naive_solver. }
    destruct r0 as [id|]; [|by destruct Hq as [-> ->]]. destruct Hq as (model & input & Hr & _ & ->). specialize (Hf id eq_refl).
    split; [set_solver|]. split; [|intros r; by apply (Hins _ _ _ Hr)]. simpl. apply not_elem_of_cons. split; [by intros ->|done].
  - apply inline_start_run in H as (_ & -> & H); [|done]. destruct r0 as [ir|]; [|by rewrite H].
    destruct H as (model & row & _ & _ & _ & _ & _ & Hq & Hid & _). specialize (Hf ir eq_refl).
    split; [set_solver|]. split; [|intros r; apply (Hins _ _ _ Hq); by rewrite Hid].
    simpl. rewrite elem_of_app, elem_of_cons in *. intros [?|[->|?]]; tauto.
  - unfold finish_run. destruct (record_run (rt_result_id t) (now_or clk (rt_start_time t)) (outcome_columns (run_outcome o)) (sy_w s))
      as (_ & _ & Hsp & Hrec).
    split; [done|]. simpl. rewrite Hsp. split.
    + rewrite filter_map_eq. rewrite elem_of_app, list_filter_elem in *. tauto.
    + intros r. destruct (recorded _ _ _ _); [|by unfold rrows in *; simpl; rewrite Hrec].
      eapply Hupd; [|exact Hrec]. apply elem_of_app. left. by apply list_elem_of_fmap_2.
  - destruct (inline_finish_run clk ir o (sy_w s)) as (c & _ & _ & _ & Hsp & Hrec).
    split; [done|]. rewrite Hsp. split.
    + rewrite filter_map_eq. rewrite elem_of_app, list_filter_elem in *. tauto.
    + intros r. destruct (inline_recorded _ _ _ _); [|by rewrite Hrec].
      eapply Hupd; [|exact Hrec]. apply elem_of_app. right. by apply list_elem_of_fmap_2.
  - destruct (forget_run p (sy_w s)) as (_ & _ & -> & [->|Hd]); [done|]. split; [done|]. split; [done|].
    intros r. rewrite Hd. by intros [Hin _]%list_filter_elem.
Qed.

Lemma finished_run s s' i :
  rtc js_step s s' -> sys_ok s -> i ∈ sy_ids s -> i ∉ running s ->
  forall r, r ∈ rrows (sy_w s') -> jr_id r = i -> r ∈ rrows (sy_w s).
Proof using wlaws rlaws.
  induction 1 as [s|s s1 s2 Hstep _ IH]; [done|]. intros Hok Hi Hnr r Hr Hid.
  destruct (finished_step _ _ _ Hstep Hok Hi Hnr) as (Hi1 & Hnr1 & Hback).
  apply Hback; [|done]. apply IH; try done. by eapply js_step_ok.
Qed.

(** C25: whatever requests, runs, inline calls, deletions and failures came before, the stored
    scripts have unique non-empty names, unique plain route segments and bytecode that is
    the compiled stored source as far as it is of the running engine; and a run that is queued
    executes the bytecode of the source stored under its name at that moment. *)
Theorem runs_execute_stored_source s s' clk clk_row name ty params env w' id :
  rtc js_step s s' -> sys_ok s ->
  enqueue_defined_js_worker_run clk clk_row name ty params env (sy_w s') = (w', Ok id) ->
  workers_ok (sy_w s') /\ workers_ok w' /\
  exists model bc, model ∈ wrows (sy_w s') /\ jw_name model = trim name /\
    (forall m, m ∈ wrows (sy_w s') -> jw_name m = trim name -> m = model) /\
    compile (jw_js_script model) = Ok bc /\
    queued clk clk_row model (RunBytecode bc (jw_runtime_clean_time model)) ty params env id (sy_w s') w'.
Proof using wlaws rlaws.
  intros Hrun Hok H. pose proof (so_workers _ (js_run_ok _ _ Hrun Hok)) as Hw. split; [done|].
  apply enqueue_defined_run in H as [Hw' (model & bc & Hm & Hn & Hc & Hq)]; [|done]. split; [done|].
  exists model, bc. split_and!; try done. intros m Hin Hname. destruct Hw as [[_ Hu] _].
  eapply unique_rows_lookup; [|exact Hu|done|done|].
  - intros a b. apply (conflict_sym (ops := wops)).
  - unfold js_worker_conflict. by rewrite Hname, Hn, String.eqb_refl, orb_true_r.
Qed.

(** C26: every result row is untouched and its run in progress (or the outcome of that run could
    not be written), or it is settled: finished, with either a value or a message.  A settled
    row never changes again, whatever other runs and inline calls end in whatever order. *)
Theorem results_settle_once s s' :
  rtc js_step s s' -> sys_ok s ->
  (forall r', r' ∈ rrows (sy_w s') ->
     (pending r' /\ (jr_id r' ∈ running s' \/ jr_id r' ∈ sy_lost s')) \/ (settled r' /\ jr_id r' ∉ running s')) /\
  (forall r r', r ∈ rrows (sy_w s) -> settled r -> r' ∈ rrows (sy_w s') -> jr_id r' = jr_id r -> r' = r).
Proof using wlaws rlaws.
  intros Hrun Hok. split; [apply (so_state _ (js_run_ok _ _ Hrun Hok))|].
  intros r r' Hr Hset Hr' Hid.
  assert (jr_id r ∉ running s) as Hnr.
  { destruct (so_state _ Hok r Hr) as [[(Hf & _) _]|[_ ?]]; [|done]. destruct Hset as [[t Ht] _]. congruence. }
  pose proof (finished_run s s' _ Hrun Hok (so_ids _ Hok r Hr) Hnr r' Hr' Hid) as Hin.
  exact (pk_unique_eq jr_id _ r' r (so_keys _ Hok) Hin Hr Hid).
Qed.
End system.

(** ** Examples *)

(** An engine whose bytecode is a version byte and the source, and a codec that passes bytes on. *)
#[local] Instance engine2 : JsEngine := {| compile s := Ok (2%Z :: as_bytes s) |}.
#[local] Instance plain_b64 : Base64 := {| b64_encode := string_of_bytes; b64_decode s := Ok (as_bytes s) |}.
#[local] Instance quiet_json : JsonText := {| json_from_str _ := Ok JNull; json_to_string _ := Ok "null"%string |}.

Lemma as_bytes_range s : Forall is_byte (as_bytes s).
Proof.
  induction s as [|c s IH]; simpl; constructor; [|done]. unfold is_byte, byte_of. pose proof (N_ascii_bounded c). lia.
Qed.

#[local] Instance plain_b64_laws : Base64Laws plain_b64.
Proof. split; simpl; [intros bs Hb; by rewrite string_of_bytes_round|]. intros s bs [= <-]. apply as_bytes_range. Qed.

Lemma js_worker_conflict_sym a b : js_worker_conflict a b = js_worker_conflict b a.
Proof.
  unfold js_worker_conflict. rewrite (Z.eqb_sym (jw_id a)), (String.eqb_sym (jw_name a)). f_equal. unfold same_route.
  destruct (jw_route_name a), (jw_route_name b); try done. apply String.eqb_sym.
Qed.

#[global] Instance js_worker_table : TableOps (ListTable JsWorkerModel) JsWorkerModel := ListTable_ops js_worker_conflict.
#[global] Instance js_worker_table_laws : TableLaws js_worker_table js_worker_conflict :=
  ListTable_laws js_worker_conflict js_worker_conflict_sym.

#[local] Notation XW := (JsWorld (ListTable JsWorkerModel) (ListTable JsResultModel)).

Definition script_params (source : string) : WorkerParams := {|
  wp_description := None; wp_js_script_base64 := source; wp_route_name := Some " api "%string; wp_runtime_clean_time := None;
  wp_env := None; wp_max_run_time := Some 500%Z; wp_max_stack_size := None; wp_max_heap_size := None |}.

(** A worker compiled by an older engine. *)
Definition old_worker : JsWorkerModel := {|
  jw_id := 1; jw_name := "job"; jw_description := None; jw_js_script := "first"; jw_js_byte_code := Some (1%Z :: as_bytes "first");
  jw_route_name := None; jw_env := None; jw_runtime_clean_time := None; jw_max_run_time := None; jw_max_stack_size := None;
  jw_max_heap_size := None; jw_create_at := 0; jw_update_at := 0 |}.

Definition js_world (l : list JsWorkerModel) : XW := {|
  jw_db := Some (plain_table l, plain_table []); jw_pool := {| workers := ∅; retired := [] |}; jw_version := None; jw_spawned := [] |}.

Lemma js_world_ok : workers_ok (js_world [old_worker]).
Proof.
  split; [split; [|reflexivity]|by left]. constructor; [|constructor]. split_and!; [done|done|].
  intros bc [= <-] Hh. vm_compute in Hh. discriminate Hh.
Qed.

Definition js_start : Sys := {| sy_w := js_world [old_worker]; sy_inline := []; sy_ids := ∅; sy_lost := ∅ |}.

Lemma js_start_ok : sys_ok js_start.
Proof.
  split; [apply js_world_ok|constructor| |constructor| |]; cbn.
  - by intros r ?%not_elem_of_nil.
  - by intros r ?%not_elem_of_nil.
  - by intros r ?%not_elem_of_nil.
Qed.

Lemma run_ok {S E A} (x : S * result E A) : is_ok x.2 = true -> exists s a, x = (s, Ok a).
Proof. destruct x as [s [a|]]; [by eexists _, _|done]. Qed.

Lemma script_roundtrip_witness :
  exists w1 j1 w2 j2, create open_env "key:pass" " new " (script_params "second") (js_world [old_worker]) = (w1, Ok j1) /\
    read open_env "key:pass" "new" w1 = (w2, Ok j2) /\
    exists m, j2 = read_response m /\ jw_name m = "new"%string /\
      b64_decode (b64_encode (as_bytes (jw_js_script m))) = b64_decode "second".
Proof.
  assert (is_ok (create open_env "key:pass" " new " (script_params "second") (js_world [old_worker])).2 = true) as H1 by reflexivity.
  destruct (run_ok _ H1) as (w1 & j1 & E1).
  assert (is_ok (read open_env "key:pass" "new" w1).2 = true) as H2.
  { replace w1 with (create open_env "key:pass" " new " (script_params "second") (js_world [old_worker])).1 by (by rewrite E1). reflexivity. }
  destruct (run_ok _ H2) as (w2 & j2 & E2). exists w1, j1, w2, j2. split; [exact E1|]. split; [exact E2|].
  destruct (script_roundtrip open_env open_env "key:pass" "key:pass" " new " "new" (script_params "second")
    (js_world [old_worker]) w1 w2 j1 j2 js_world_ok eq_refl (or_introl E1) E2) as (m & Hj & Hn & Hb & _).
  exists m. split; [exact Hj|]. split; [exact Hn|exact Hb].
Defined.

Lemma worker_writes_guarded_witness :
  exists w' j, update open_env "key:pass" "job" (script_params "second") (js_world [old_worker]) = (w', Ok j) /\
    updated open_env "key:pass" "job" (script_params "second") (wrows (js_world [old_worker])) (wrows w') j.
Proof.
  assert (is_ok (update open_env "key:pass" "job" (script_params "second") (js_world [old_worker])).2 = true) as H1 by reflexivity.
  destruct (run_ok _ H1) as (w' & j & E).
  exists w', j. split; [exact E|].
  exact (proj1 (proj1 (proj1 (proj2 (worker_writes_guarded open_env "key:pass" "job" (script_params "second")
    (js_world [old_worker]) js_world_ok)) _ _ E))).
Defined.

#[local] Notation enqueue_job := (enqueue_defined_js_worker_run (e_clock open_env) (e_clock open_env) "job" RunCron JNull None).

(** A run of the old worker: it is recompiled first. *)
Definition job_queued : XW * result anyhow Z := enqueue_job (js_world [old_worker]).
Example job_queued_id : job_queued.2 = Ok 5000%Z.
Proof. reflexivity. Qed.

Definition job_task : RunTask := {|
  rt_result_id := 5000; rt_worker_name := "job"; rt_input := RunBytecode (2%Z :: as_bytes "first") None; rt_run_type := RunCron;
  rt_params := JNull; rt_env := JObject []; rt_limits := from_model None None None; rt_start_time := 4000 |}.

Definition sys_queued : Sys := {| sy_w := job_queued.1; sy_inline := []; sy_ids := {[5000%Z]} ∪ ∅; sy_lost := ∅ |}.
Definition job_value : Outcome := PoolOutcome (Ok (JBool true)).
Definition sys_finished : Sys := {|
  sy_w := finish_run (e_clock open_env) job_task job_value (sy_w sys_queued); sy_inline := []; sy_ids := sy_ids sys_queued;
  sy_lost := note_lost (recorded 5000 4000 (outcome_columns (run_outcome job_value)) (sy_w sys_queued)) 5000 ∅ |}.

Lemma job_runs show : rtc (js_step show) js_start sys_finished.
Proof.
  eapply rtc_l.
  - eapply (step_enqueue show (e_clock open_env) (e_clock open_env) ModeBytecode "job" RunCron JNull None js_start job_queued.1 job_queued.2).
    + unfold job_queued. by destruct (enqueue_job _).
    + intros id _. apply not_elem_of_empty.
  - apply rtc_once. apply (step_finish show (e_clock open_env) job_task job_value sys_queued). left.
Qed.

Definition no_show (_ : spec_float) : string := "".

Lemma results_settle_once_witness :
  exists r, r ∈ rrows (sy_w sys_finished) /\ settled r /\ jr_result r = Some (JBool true).
Proof.
  destruct (rrows (sy_w sys_finished)) as [|r l] eqn:E; [discriminate E|].
  pose proof (proj1 (results_settle_once no_show js_start sys_finished (job_runs no_show) js_start_ok) r) as H.
  rewrite E in H. specialize (H (list_elem_of_here _ _)). exists r. split; [left|].
  assert (jr_finish_time r = Some 4000%Z /\ jr_result r = Some (JBool true)) as [Hf Hr].
  { lazy in E. injection E as <- _. split; reflexivity. }
  split; [|exact Hr]. destruct H as [[(Hn & _) _]|[Hs _]]; [congruence|exact Hs].
Defined.

Lemma runs_execute_stored_source_witness :
  exists w' id model bc, enqueue_job (sy_w sys_finished) = (w', Ok id) /\
    jw_name model = "job"%string /\ compile (jw_js_script model) = Ok bc /\
    queued (e_clock open_env) (e_clock open_env) model (RunBytecode bc (jw_runtime_clean_time model)) RunCron JNull None id
      (sy_w sys_finished) w'.
Proof.
  assert (is_ok (enqueue_job (sy_w sys_finished)).2 = true) as H1 by reflexivity.
  destruct (run_ok _ H1) as (w' & id & E).
  destruct (runs_execute_stored_source no_show js_start sys_finished _ _ _ _ _ _ w' id (job_runs no_show) js_start_ok E)
    as (_ & _ & model & bc & _ & Hn & _ & Hc & Hq).
  exists w', id, model, bc. split; [exact E|]. split; [exact Hn|]. split; [exact Hc|exact Hq].
Defined.

(** Recompiling writes the bytecode of the row as it was read.  When [update] stores a new
    script in between, its bytecode is replaced by that of the old one; the version byte is
    now current, so that later runs execute the old script although the new one is stored. *)
Theorem recompile_overwrites_update :
  let w1 := (update open_env "key:pass" "job" (script_params "second") (js_world [old_worker])).1 in
  let w2 := (ensure_bytecode_version old_worker w1).1 in
  map jw_js_script (wrows w2) = ["second"%string] /\
  match (enqueue_job w2).1 with
  | {| jw_spawned := t :: _ |} => rt_input t = RunBytecode (2%Z :: as_bytes "first") None
  | _ => False
  end.
Proof. split; reflexivity. Qed.

(** A timeout that is finite but too long for a [Duration] makes the call panic instead of
    being refused. *)
Theorem huge_timeout_panics :
  (inline_call_start no_show (e_clock open_env) (e_clock open_env) "job" "null" (Some (S754_finite false 1 64)) 0
    (js_world [old_worker])).2 =
  Err (Panicked "cannot convert float seconds to Duration: value is either too big or NaN").
Proof. reflexivity. Qed.

(** When the thread of an inline call fails, the caller gets an error and the row of the call
    stays unfinished. *)
Theorem failed_inline_thread_leaves_row ir clk (w : XW) m :
  inline_call_finish clk ir (Err m) w = (w, Err (OfNodeget (Other ("inline_call task join failed: " +:+ m)))).
Proof. reflexivity. Qed.
