(* ===== verification/JsResults.v ===== *)
(** * Results of JavaScript workers

    [ng-js-worker/src/js_result] with the permissions of [ng-js-worker/src/auth.rs] and the
    conditions of [ng-core/src/js_result/query.rs]: querying and deleting rows of
    [js_result].  With worker names in the conditions each is authorised on its own;
    without, the request is confined to the workers the token may access. *)
From stdpp Require Import base strings gmap list numbers sorting.
From Stdlib Require Import Ascii.
From S2P Require Import Prelude Errors Json Db Permission TokenCache TokenCheck KvAuth KvStore KvRefine Purge Selection Retention RetentionThms Tasks TaskThms CronResult StaticBucket JsPool JsWorker.

Inductive JsResultQueryCondition : Type :=
| JId (id : Z)
| JJsWorkerId (js_worker_id : Z)
| JJsWorkerName (js_worker_name : string)
| JRunType (run_type : string)
| JStartTimeFromTo (start end_ : Z)
| JStartTimeFrom (start : Z)
| JStartTimeTo (end_ : Z)
| JFinishTimeFromTo (start end_ : Z)
| JFinishTimeFrom (start : Z)
| JFinishTimeTo (end_ : Z)
| JIsSuccess
| JIsFailure
| JIsRunning
| JLimit (limit : Z)
| JLast.

Definition is_null {A} (o : option A) : bool := match o with None => true | Some _ => false end.

Definition apply_filter_to_select (condition : JsResultQueryCondition) (r : JsResultModel) : bool :=
  match condition with
  | JId id => (jr_id r =? id)%Z
  | JJsWorkerId id => (jr_js_worker_id r =? id)%Z
  | JJsWorkerName name => String.eqb (jr_js_worker_name r) name
  | JRunType ty => String.eqb (jr_run_type r) ty
  | JStartTimeFromTo start end_ => at_least start (jr_start_time r) && at_most end_ (jr_start_time r)
  | JStartTimeFrom start => at_least start (jr_start_time r)
  | JStartTimeTo end_ => at_most end_ (jr_start_time r)
  | JFinishTimeFromTo start end_ => at_least start (jr_finish_time r) && at_most end_ (jr_finish_time r)
  | JFinishTimeFrom start => at_least start (jr_finish_time r)
  | JFinishTimeTo end_ => at_most end_ (jr_finish_time r)
  | JIsSuccess => negb (is_null (jr_result r)) && is_null (jr_error_message r)
  | JIsFailure => negb (is_null (jr_error_message r))
  | JIsRunning => is_null (jr_result r) && is_null (jr_error_message r)
  | JLimit _ | JLast => true
  end.

Definition js_filters (conds : list JsResultQueryCondition) (r : JsResultModel) : bool :=
  forallb (fun c => apply_filter_to_select c r) conds.

(** [is_last] and [limit_count] after the loop over the conditions. *)
Definition js_bound_step (acc : bool * option Z) (c : JsResultQueryCondition) : bool * option Z :=
  match c with
  | JLimit limit => (acc.1, Some (Z.min limit MAX_QUERY_LIMIT))
  | JLast => (true, acc.2)
  | _ => acc
  end.
Definition js_bound (conds : list JsResultQueryCondition) : option Z :=
  let '(is_last, limit_count) := fold_left js_bound_step conds (false, None) in
  if is_last then Some 1%Z else limit_count.

(** [Vec::dedup]: of equal neighbours the first stays. *)
Fixpoint dedup (l : list string) : list string :=
  match l with
  | x :: ((y :: _) as l') => if String.eqb x y then dedup l' else x :: dedup l'
  | _ => l
  end.

Definition requested_worker_names (conds : list JsResultQueryCondition) : list string :=
  dedup (merge_sort String.le (flat_map (fun c => match c with JJsWorkerName n => [n] | _ => [] end) conds)).

Inductive JsResultAction : Type := ActionRead | ActionDelete.

Definition build_required_permission (action : JsResultAction) (worker_name : string) : Permission :=
  match action with
  | ActionRead => P_JsResult (JsResult_Read worker_name)
  | ActionDelete => P_JsResult (JsResult_Delete worker_name)
  end.

Definition action_debug (action : JsResultAction) : string :=
  match action with ActionRead => "Read" | ActionDelete => "Delete" end.

Lemma dedup_cons2 x y l : dedup (x :: y :: l) = if String.eqb x y then dedup (y :: l) else x :: dedup (y :: l).
Proof. done. Qed.

Lemma dedup_elem x l : x ∈ dedup l <-> x ∈ l.
Proof.
  induction l as [|y [|z l] IH]; [done|done|]. rewrite dedup_cons2. destruct (String.eqb_spec y z) as [->|]; [|rewrite !elem_of_cons in *; tauto].
  rewrite IH, !elem_of_cons. tauto.
Qed.

(** On a sorted list nothing is left twice. *)
Lemma dedup_nodup (le : relation string) `{!PartialOrder le} (l : list string) : StronglySorted le l -> NoDup (dedup l).
Proof.
  induction 1 as [|x l Hs IH Hx]; [constructor|]. destruct l as [|y l]; [repeat constructor; by intros ?%not_elem_of_nil|].
  rewrite dedup_cons2. destruct (String.eqb_spec x y) as [->|Hne]; [done|].
  apply list.NoDup_cons. split; [|done]. rewrite dedup_elem. intros Hin. apply Hne.
  rewrite Forall_forall in Hx. inversion Hs as [|? ? Hs' Hy]; subst. rewrite Forall_forall in Hy.
  apply (anti_symm le); [apply Hx; by left|]. apply elem_of_cons in Hin as [->|Hin]; [done|auto].
Qed.

Section rpc.
Context {R : Type} {rops : TableOps R JsResultModel} {coll : Collation} {crypto : Crypto} {serde : Serde}.
Variable e : Env.

Definition ensure_js_result_permission (token worker_name : string) (action : JsResultAction) : result anyhow unit :=
  let? checker := require_permission_checker e in
  let? token_or_auth := parse_token token in
  let? is_allowed := pc_check_token_limit checker token_or_auth [Scope_JsWorker worker_name]
                       [build_required_permission action worker_name] in
  if (is_allowed : bool) then Ok tt
  else denied ("Permission denied for js_result on worker '" +:+ worker_name +:+ "', action: " +:+ action_debug action).

Definition stmt_plain {A} (m : M R DbErr A) : M R anyhow A := fun d =>
  let '(d', r) := m d in (d', map_err db_fail r).

Definition resolve_accessible_js_result_workers (token : string) (action : JsResultAction) : M R anyhow (list string) :=
  let! token_or_auth := lift (parse_token token) in
  let! found := stmt_plain (find_all (fun _ => true)) in
  let worker_names := dedup (order_by_asc (fun n => n) (map jr_js_worker_name found)) in
  lift (filter_names e token_or_auth (build_required_permission action) worker_names).

(** The filter on worker names a request starts from; [None] when nothing is accessible. *)
Definition name_filter (token : string) (action : JsResultAction) (conds : list JsResultQueryCondition) :
    M R anyhow (option (JsResultModel -> bool)) :=
  match requested_worker_names conds with
  | [] =>
      let! allowed_workers := resolve_accessible_js_result_workers token action in
      match allowed_workers with
      | [] => mret None
      | _ => mret (Some (fun r => bool_decide (jr_js_worker_name r ∈ allowed_workers)))
      end
  | names =>
      let! _ := lift (check_names (fun n => ensure_js_result_permission token n action) names) in
      mret (Some (fun _ => true))
  end.

Definition js_query (token : string) (conds : list JsResultQueryCondition) : M (option R) anyhow (list JsResultModel) :=
  with_table (
    let! base := name_filter token ActionRead conds in
    match base with
    | None => mret []
    | Some base =>
        let! postgres := asks is_postgres in
        let! found := stmt_as "Failed to query js_result: " (find_all (fun r => base r && js_filters conds r)) in
        mret (newest (desc_by_id jr_start_time jr_id postgres) (default 1000%Z (js_bound conds)) found)
    end).

(** The number of deleted rows and of conditions. *)
Definition js_delete (token : string) (conds : list JsResultQueryCondition) : M (option R) anyhow (Z * nat) :=
  with_table (
    let! base := name_filter token ActionDelete conds in
    match base with
    | None => mret (0%Z, length conds)
    | Some base =>
        let! postgres := asks is_postgres in
        let! deleted := delete_selected jr_id (desc_by_id jr_start_time jr_id postgres)
                          "Failed to select js_result ids for delete: " "Failed to delete js_result: "
                          (fun r => base r && js_filters conds r) (js_bound conds) in
        mret (deleted, length conds)
    end).

(** ** Theorems *)

Context {laws : TableLaws rops js_result_conflict}.
Context (server_checker : PERMISSION_CHECKER e = Some (ServerPermissionChecker (e_globals e) (e_clock e))).

Lemma ensure_authorised token n action :
  ensure_js_result_permission token n action = Ok tt <->
  authorised e token (Scope_JsWorker n) (build_required_permission action n).
Proof using server_checker.
  unfold ensure_js_result_permission, require_permission_checker, authorised. rewrite server_checker. simpl.
  destruct (parse_token token) as [t|]; simpl; [|naive_solver]. rewrite ok_exists.
  destruct (check_token_limit _ _ _ _ _) as [[]|]; simpl; naive_solver.
Qed.

Lemma requested_elem conds n : n ∈ requested_worker_names conds <-> JJsWorkerName n ∈ conds.
Proof using.
  unfold requested_worker_names. rewrite dedup_elem, merge_sort_Permutation, !list_elem_of_In, in_flat_map. split.
  - intros (c & Hc & Hn). destruct c; simpl in Hn; try done. by destruct Hn as [->|[]].
  - intros Hc. exists (JJsWorkerName n). split; [done|by left].
Qed.

(** Of the rows that match the conditions the base filter passes exactly those of workers the
    token has the permission for; the table is unchanged. *)
Lemma name_filter_run token action conds d d' r :
  name_filter token action conds d = (d', r) -> rows d' = rows d /\
  forall b, r = Ok b -> forall x, x ∈ rows d -> js_filters conds x = true ->
    (match b with Some base => base x | None => false end = true <->
     authorised e token (Scope_JsWorker (jr_js_worker_name x)) (build_required_permission action (jr_js_worker_name x))).
Proof using laws server_checker.
  unfold name_filter. destruct (requested_worker_names conds) as [|n names] eqn:En.
  - rewrite mbind_run. unfold resolve_accessible_js_result_workers. rewrite mbind_lift.
    destruct (parse_token token) as [t|] eqn:Et; [|intros [= <- <-]; done].
    rewrite mbind_run. unfold stmt_plain. destruct (find_all _ d) as [d1 r1] eqn:E1.
    pose proof (find_all_rows _ _ _ _ E1) as Hr. destruct r1 as [found|]; cbn [map_err]; [|intros [= <- <-]; done].
    apply find_all_ok in E1. unfold lift. destruct (filter_names _ _ _ _) as [allowed|] eqn:Ef; [|intros [= <- <-]; done].
    assert (forall x, x ∈ rows d -> (jr_js_worker_name x ∈ allowed <->
      authorised e token (Scope_JsWorker (jr_js_worker_name x)) (build_required_permission action (jr_js_worker_name x)))) as Hacc.
    { intros x Hx. rewrite (filter_names_spec _ _ _ _ _ _ Ef), dedup_elem, order_by_perm. unfold authorised. rewrite Et.
      assert (jr_js_worker_name x ∈ map jr_js_worker_name found) as Hin.
      { apply list_elem_of_fmap_2. rewrite E1. by apply list_filter_elem. }
      rewrite ok_exists. tauto. }
    destruct allowed as [|a allowed]; intros [= <- <-]; (split; [done|]); intros b [= <-] x Hx _; rewrite <-(Hacc x Hx).
    + split; [done|]. by intros ?%not_elem_of_nil.
    + apply bool_decide_eq_true.
  - rewrite mbind_lift. destruct (check_names _ _) as [[]|] eqn:Ec; [|intros [= <- <-]; done].
    intros [= <- <-]. split; [done|]. intros b [= <-] x Hx Hf. split; [intros _|done]. apply ensure_authorised.
    assert (n = jr_js_worker_name x) as <-.
    { assert (JJsWorkerName n ∈ conds) as Hn by (apply requested_elem; rewrite En; by left).
      unfold js_filters in Hf. rewrite forallb_forall in Hf. apply list_elem_of_In, Hf in Hn. simpl in Hn.
      by apply String.eqb_eq in Hn. }
    apply (check_names_ok _ _ Ec). by left.
Qed.

Lemma js_bound_cap conds l : js_bound conds = Some l -> (l <= MAX_QUERY_LIMIT)%Z.
Proof using.
  unfold js_bound. assert (forall acc, (forall l, acc.2 = Some l -> (l <= MAX_QUERY_LIMIT)%Z) ->
    forall l, (fold_left js_bound_step conds acc).2 = Some l -> (l <= MAX_QUERY_LIMIT)%Z) as H.
  { induction conds as [|c conds IH]; intros acc Hacc l'; simpl; [auto|]. apply IH.
    intros k. destruct c; simpl; try apply Hacc. intros [= <-]. lia. }
  specialize (H (false, None)). destruct (fold_left _ _ _) as [last lim]. simpl in H.
  destruct last; [by intros [= <-]|]. intros ->. by eapply H.
Qed.

(** A query changes nothing; its rows are stored, match every condition, belong to workers
    whose results the token may read, and come newest first, at most ten thousand. *)
Theorem js_query_readable token conds d db' l :
  js_query token conds (Some d) = (db', Ok l) ->
  (exists d', db' = Some d' /\ rows d' = rows d) /\
  (forall r, r ∈ l -> r ∈ rows d /\ js_filters conds r = true /\
     authorised e token (Scope_JsWorker (jr_js_worker_name r)) (P_JsResult (JsResult_Read (jr_js_worker_name r)))) /\
  (exists pg, StronglySorted (desc_by_id jr_start_time jr_id pg) l) /\
  (Z.of_nat (length l) <= Z.max 0 (default 1000 (js_bound conds)) <= MAX_QUERY_LIMIT)%Z.
Proof using laws server_checker.
  unfold js_query, with_table. rewrite mbind_run. destruct (name_filter _ _ _ d) as [d1 r1] eqn:E1.
  apply name_filter_run in E1 as (Hr1 & Hbase).
  assert (0 <= Z.max 0 (default 1000 (js_bound conds)) <= MAX_QUERY_LIMIT)%Z as Hcap.
  { destruct (js_bound conds) as [k|] eqn:Ek; [|done]. apply js_bound_cap in Ek. unfold MAX_QUERY_LIMIT in *. simpl. lia. }
  destruct r1 as [[base|]|]; [| |done].
  - specialize (Hbase _ eq_refl). simpl in Hbase. rewrite mbind_asks, mbind_run.
    destruct (stmt_as _ _ d1) as [d2 r2] eqn:E2. apply stmt_as_run in E2 as (r0 & Hf & ->).
    destruct r0 as [found|]; cbn [map_err]; [|done]. pose proof (find_all_rows _ _ _ _ Hf) as Hr2.
    apply find_all_ok in Hf. intros [= <- <-]. split; [exists d2; split; [done|congruence]|]. split.
    + intros r Hin%newest_elem. rewrite Hf, Hr1 in Hin. apply list_filter_elem in Hin as [Hin [Hb Hm]%andb_true_iff].
      split_and!; [done|done|by apply (Hbase _ Hin Hm)].
    + split; [eexists; apply newest_sorted; apply _|]. split; [apply newest_length|apply Hcap].
  - intros [= <- <-]. split; [by exists d1|]. split; [by intros r ?%not_elem_of_nil|]. split; [exists true; constructor|].
    split; [apply Hcap|apply Hcap].
Qed.

(** deleting results removes only matching rows of workers whose results the token may
    delete, as many as reported; with a bound the newest of them and at most ten thousand,
    otherwise all of them that are accessible.  A failed request removes nothing. *)
Theorem js_delete_permitted token conds d db' r :
  pk_unique jr_id (rows d) -> js_delete token conds (Some d) = (db', r) ->
  exists d', db' = Some d' /\
  match r with
  | Ok (n, count) => count = length conds /\
      (exists kept gone, rows d' ≡ₚ kept /\ rows d ≡ₚ kept ++ gone /\ n = Z.of_nat (length gone) /\
         (forall x, x ∈ gone -> js_filters conds x = true /\
            authorised e token (Scope_JsWorker (jr_js_worker_name x)) (P_JsResult (JsResult_Delete (jr_js_worker_name x)))) /\
         match js_bound conds with
         | Some l => (n <= Z.max 0 l)%Z
         | None => forall x, x ∈ kept -> js_filters conds x = true ->
             ~ authorised e token (Scope_JsWorker (jr_js_worker_name x)) (P_JsResult (JsResult_Delete (jr_js_worker_name x)))
         end) /\
      (is_Some (js_bound conds) -> (n <= MAX_QUERY_LIMIT)%Z)
  | Err _ => rows d' = rows d
  end.
Proof using laws server_checker.
  intros Hpk. unfold js_delete, with_table. rewrite mbind_run. destruct (name_filter _ _ _ d) as [d1 r1] eqn:E1.
  apply name_filter_run in E1 as (Hr1 & Hbase). destruct r1 as [[base|]|]; [| |intros [= <- <-]; by exists d1].
  - specialize (Hbase _ eq_refl). simpl in Hbase. rewrite mbind_asks, mbind_run.
    destruct (delete_selected _ _ _ _ _ _ d1) as [d2 r2] eqn:E2.
    apply (delete_selected_run _ _ (conflict := js_result_conflict)) in E2; [|by rewrite Hr1]. rewrite Hr1 in E2.
    destruct r2 as [n|err]; [|intros [= <- <-]; by exists d2]. intros [= <- <-]. exists d2. split; [done|].
    destruct E2 as (kept & gone & (Hl & Hn & Hm & Hb) & Hrows). split; [done|]. split.
    + exists kept, gone. split_and!; try done.
      * intros x Hx. assert (x ∈ rows d) as Hin by (rewrite Hl; apply elem_of_app; by right).
        apply Hm, andb_true_iff in Hx as [Hbx Hfx]. split; [done|by apply (Hbase _ Hin Hfx)].
      * destruct (js_bound conds); [apply Hb|]. intros x Hx Hf Ha. specialize (Hb x Hx). rewrite Hf, andb_true_r in Hb.
        assert (x ∈ rows d) as Hin by (rewrite Hl; apply elem_of_app; by left).
        apply (Hbase x Hin Hf) in Ha. congruence.
    + intros [l Hk]. pose proof (js_bound_cap _ _ Hk). rewrite Hk in Hb. destruct Hb as [Hb _]. unfold MAX_QUERY_LIMIT in *. lia.
  - specialize (Hbase _ eq_refl). intros [= <- <-]. exists d1. split; [done|]. split; [done|]. split; [|by intros _].
    exists (rows d), []. rewrite Hr1. split_and!; try done; [by rewrite app_nil_r|by intros x ?%not_elem_of_nil|].
    destruct (js_bound conds); [lia|]. intros x Hx Hf Ha. by apply (Hbase x Hx Hf) in Ha.
Qed.
End rpc.

(** ** Examples *)

Definition js_row (id : Z) (name : string) (start : Z) : JsResultModel := {|
  jr_id := id; jr_js_worker_id := 1; jr_js_worker_name := name; jr_run_type := "call"; jr_start_time := Some start;
  jr_finish_time := None; jr_param := None; jr_result := None; jr_error_message := None |}.

Definition stored_js : ListTable JsResultModel := plain_table [js_row 1 "a" 10; js_row 2 "b" 20; js_row 3 "a" 30].

Lemma stored_js_keys : pk_unique jr_id (rows stored_js).
Proof. apply (bool_decide_unpack _). vm_compute. exact I. Qed.

Lemma js_delete_permitted_witness :
  exists db', js_delete sample_env "rootkey:rootsecret" [JJsWorkerName "a"; JLast] (Some stored_js) = (db', Ok (1%Z, 2)) /\
    exists d', db' = Some d' /\ exists kept gone, rows d' ≡ₚ kept /\ rows stored_js ≡ₚ kept ++ gone /\ length gone = 1.
Proof.
  destruct (js_delete sample_env "rootkey:rootsecret" [JJsWorkerName "a"; JLast] (Some stored_js)) as [db' r] eqn:E.
  assert (r = Ok (1%Z, 2)) as ->.
  { assert (r = (js_delete sample_env "rootkey:rootsecret" [JJsWorkerName "a"; JLast] (Some stored_js)).2) as -> by (by rewrite E).
    vm_compute. reflexivity. }
  exists db'. split; [reflexivity|].
  destruct (js_delete_permitted sample_env eq_refl "rootkey:rootsecret" [JJsWorkerName "a"; JLast] stored_js db' (Ok (1%Z, 2))
              stored_js_keys E) as (d' & Hd & _ & (kept & gone & Hk & Hl & Hn & _) & _).
  exists d'. split; [exact Hd|]. exists kept, gone. split; [exact Hk|]. split; [exact Hl|]. lia.
Defined.
