(* ===== verification/Snapshots.v ===== *)
(** * Traffic snapshots

    [ng-monitoring/src/rpc/agent/write_traffic_snapshot.rs] and
    [delete_traffic_snapshot.rs]: the table [traffic_snapshot] of running totals, one row
    per agent, interface and time, from which the traffic of a period is computed. *)
From stdpp Require Import base strings pretty gmap list numbers sorting.
From Stdlib Require Import Ascii.
From S2P Require Import Prelude Errors Db Permission TokenCache TokenCheck KvAuth UuidCache Traffic TrafficFlush MonDelete CronRpc.

Record SnapshotRow : Type := {
  sn_id : Z; sn_uuid_id : Z; sn_interface_name : string; sn_snapshot_time : Z;
  sn_total_received : Z; sn_total_transmitted : Z }.
Record LossRow : Type := { lr_id : Z; lr_uuid_id : Z; lr_start_time : Z; lr_end_time : Z }.

Record TrafficSnapshotWrite : Type := {
  sw_uuid : Uuid; sw_interface_name : string; sw_snapshot_time : Z; sw_total_received : Z; sw_total_transmitted : Z }.

(** The columns of the unique index. *)
Definition sn_key (r : SnapshotRow) : Z * string * Z := (sn_uuid_id r, sn_interface_name r, sn_snapshot_time r).
Definition snapshot_conflict (a b : SnapshotRow) : bool := (sn_id a =? sn_id b)%Z || bool_decide (sn_key a = sn_key b).
Definition loss_conflict (a b : LossRow) : bool := (lr_id a =? lr_id b)%Z.

(** Of the rows of an [INSERT ... ON CONFLICT DO NOTHING], those that are stored: the first
    with each key that is not taken. *)
Fixpoint fresh (taken : list (Z * string * Z)) (mks : list (Z -> SnapshotRow)) : list (Z -> SnapshotRow) :=
  match mks with
  | [] => []
  | mk :: mks' =>
      if bool_decide (sn_key (mk 0%Z) ∈ taken) then fresh taken mks'
      else mk :: fresh (sn_key (mk 0%Z) :: taken) mks'
  end.

(** The two further statements on [traffic_snapshot], with the number of affected rows. *)
Class SnapshotOps (S : Type) : Type := {
  (** [insert_many(rows).on_conflict_do_nothing_on(key).exec_without_returning(db)] *)
  insert_ignore : list (Z -> SnapshotRow) -> M S DbErr Z;
  (** [DELETE ... WHERE id IN (SELECT id ... WHERE p LIMIT n)] *)
  delete_batch : (SnapshotRow -> bool) -> Z -> M S DbErr Z;
}.

Class SnapshotLaws {S : Type} {ops : TableOps S SnapshotRow} (sops : SnapshotOps S) : Prop := {
  insert_ignore_ok : forall mks d d' n, insert_ignore mks d = (d', Ok n) ->
    exists l, rows d' ≡ₚ l ++ rows d /\ n = Z.of_nat (length l) /\
      Forall2 (fun mk r => exists i, r = mk i) (fresh (map sn_key (rows d)) mks) l;
  insert_ignore_err : forall mks d d' err, insert_ignore mks d = (d', Err err) -> rows d' = rows d;
  delete_batch_ok : forall p limit d d' n, (0 <= limit)%Z -> delete_batch p limit d = (d', Ok n) ->
    exists gone, rows d ≡ₚ rows d' ++ gone /\ n = Z.of_nat (length gone) /\ (forall r, r ∈ gone -> p r = true) /\
      n = Z.min limit (Z.of_nat (length (List.filter p (rows d))));
  delete_batch_err : forall p limit d d' err, delete_batch p limit d = (d', Err err) -> rows d' = rows d;
}.

Definition MAX_SNAPSHOTS_PER_REQUEST : nat := Z.to_nat 10000.
Definition MAX_INTERFACE_NAME_CHARS : nat := 255.
Definition MAX_FUTURE_MS : Z := 60 * 1000.
Definition TRAFFIC_SNAPSHOT_COLUMNS : nat := 6.
Definition DELETE_BATCH_SIZE : Z := 5000.

(** ** Validation *)

Definition validate_snapshot (now : Z) (s : TrafficSnapshotWrite) : result NodegetError unit :=
  let name_chars := chars_count (as_bytes (sw_interface_name s)) in
  if (name_chars =? 0)%nat || (MAX_INTERFACE_NAME_CHARS <? name_chars)%nat
  then Err (InvalidInput "interface_name must be 1 to 255 characters") else
  if (sw_snapshot_time s <? 0)%Z || (sat_add_i64 now MAX_FUTURE_MS <? sw_snapshot_time s)%Z
  then Err (InvalidInput ("snapshot_time " +:+ pretty (sw_snapshot_time s) +:+ " of " +:+ sw_interface_name s
                          +:+ " is negative or more than 1 minute in the future")) else
  if (sw_total_received s <? 0)%Z || (sw_total_transmitted s <? 0)%Z
  then Err (InvalidInput ("total_received and total_transmitted of " +:+ sw_interface_name s +:+ " must not be negative")) else
  Ok tt.

Fixpoint validate_each (now : Z) (l : list TrafficSnapshotWrite) : result NodegetError unit :=
  match l with
  | [] => Ok tt
  | s :: l' => let? _ := validate_snapshot now s in validate_each now l'
  end.

Definition validate_snapshots (snapshots : list TrafficSnapshotWrite) (now : Z) : result NodegetError unit :=
  if (MAX_SNAPSHOTS_PER_REQUEST <? length snapshots)%nat
  then Err (InvalidInput "at most 10000 snapshots per request") else validate_each now snapshots.

(** ** Writing *)

Definition snapshot_row (uuid_id : Z) (s : TrafficSnapshotWrite) (id : Z) : SnapshotRow := {|
  sn_id := id; sn_uuid_id := uuid_id; sn_interface_name := sw_interface_name s; sn_snapshot_time := sw_snapshot_time s;
  sn_total_received := sw_total_received s; sn_total_transmitted := sw_total_transmitted s |}.

(** The number of an agent that has not been retired. *)
Definition active_id (c : MonitoringUuidCacheInner) (uuid : Uuid) : option Z :=
  match get_id c uuid with Some id => if is_active c uuid then Some id else None | None => None end.

(** The rows to write, and how many snapshots belong to unknown or retired agents. *)
Definition resolve_step (c : MonitoringUuidCacheInner) (acc : list (Z -> SnapshotRow) * Z) (s : TrafficSnapshotWrite) :
    list (Z -> SnapshotRow) * Z :=
  match active_id c (sw_uuid s) with
  | Some uuid_id => (acc.1 ++ [snapshot_row uuid_id s], acc.2)
  | None => (acc.1, (acc.2 + 1)%Z)
  end.
Definition resolve_snapshots (c : MonitoringUuidCacheInner) (snapshots : list TrafficSnapshotWrite) :
    list (Z -> SnapshotRow) * Z :=
  fold_left (resolve_step c) snapshots ([], 0%Z).

Section ops.
Context {T L : Type} {tops : TableOps T SnapshotRow} {sops : SnapshotOps T} {lops : TableOps L LossRow}.
Context {crypto : Crypto} {serde : Serde}.
(** The order in which a [HashSet<Uuid>] gives its elements. *)
Variable uuid_order : list Uuid -> list Uuid.
Variable uuid_display : Uuid -> string.
Variable e : Env.

Definition backend_of (d : T) : DatabaseBackend := if is_postgres d then Postgres else Sqlite.

Fixpoint insert_chunks (chunks : list (list (Z -> SnapshotRow))) (inserted : Z) : M T DbErr Z :=
  match chunks with
  | [] => mret inserted
  | chunk :: rest => let! count := insert_ignore chunk in insert_chunks rest (inserted + count)%Z
  end.

Definition insert_snapshots (rows : list (Z -> SnapshotRow)) : M T DbErr Z := fun d =>
  let chunk_rows := max_rows_per_statement (backend_of d) TRAFFIC_SNAPSHOT_COLUMNS in
  transaction (insert_chunks (chunks chunk_rows rows) 0) d.

(** [AgentRpcImpl::get_db()?] and a computation on a table. *)
Definition on_db {D A} (prefix : string) (m : M D DbErr A) : M (option D) anyhow A := fun db =>
  match db with
  | Some d => let '(d', r) := m d in
      (Some d', map_err (fun err => OfNodeget (DatabaseError (prefix +:+ db_msg err))) r)
  | None => (None, Err (OfNodeget (DatabaseError "DB not initialized")))
  end.

(** Inserted, ignored and skipped. *)
Definition write_traffic_snapshot (token : string) (cache : option MonitoringUuidCacheInner)
    (snapshots : list TrafficSnapshotWrite) : M (option T) anyhow (Z * Z * Z) :=
  let! t := lift (parse_token token) in
  match snapshots with
  | [] => mret (0, 0, 0)%Z
  | _ =>
      let scopes := map Scope_AgentUuid (uuid_order (remove_dups (map sw_uuid snapshots))) in
      let! _ := lift (require_allowed (check_token_limit (e_globals e) (e_clock e) t scopes
                                         [P_DynamicMonitoring DynamicMonitoring_Write])
                        "Permission Denied: Missing DynamicMonitoring Write permission") in
      let! now := lift (get_local_timestamp_ms_i64 (e_clock e)) in
      let! _ := lift (map_err OfNodeget (validate_snapshots snapshots now)) in
      let! c := lift (directory cache) in
      let '(rows, skipped) := resolve_snapshots c snapshots in
      let! inserted := on_db "traffic snapshot write: " (insert_snapshots rows) in
      mret (inserted, (Z.of_nat (length rows) - inserted)%Z, skipped)
  end.

(** ** Deleting *)

Definition snapshot_until (end_time : Z) (uuid_id : option Z) (r : SnapshotRow) : bool :=
  (sn_snapshot_time r <=? end_time)%Z && match uuid_id with Some u => (sn_uuid_id r =? u)%Z | None => true end.
Definition loss_until (end_time : Z) (uuid_id : option Z) (r : LossRow) : bool :=
  (lr_end_time r <=? end_time)%Z && match uuid_id with Some u => (lr_uuid_id r =? u)%Z | None => true end.

(** The loop; [None] when the fuel runs out. *)
Fixpoint delete_snapshots (fuel : nat) (p : SnapshotRow -> bool) (batch_size deleted_total : Z) : M T DbErr (option Z) :=
  match fuel with
  | O => mret None
  | S fuel =>
      let! deleted := delete_batch p batch_size in
      let deleted_total := (deleted_total + deleted)%Z in
      if (deleted <? batch_size)%Z then mret (Some deleted_total) else delete_snapshots fuel p batch_size deleted_total
  end.

Definition delete_possible_data_losses (end_time : Z) (uuid_id : option Z) : M L DbErr Z :=
  delete_many (loss_until end_time uuid_id).

Definition resolve_uuid (cache : option MonitoringUuidCacheInner) (uuid : Uuid) : result anyhow Z :=
  let? c := directory cache in
  ok_or (OfNodeget (NotFound ("Unknown agent UUID: " +:+ uuid_display uuid))) (get_id c uuid).

(** Both tables of the connection. *)
Definition on_fst {A} (m : M (option T) anyhow A) : M (option (T * L)) anyhow A := fun db =>
  match db with
  | Some (s, l) => let '(s', r) := m (Some s) in (match s' with Some s' => Some (s', l) | None => None end, r)
  | None => let '(_, r) := m None in (None, r)
  end.
Definition on_snd {A} (m : M (option L) anyhow A) : M (option (T * L)) anyhow A := fun db =>
  match db with
  | Some (s, l) => let '(l', r) := m (Some l) in (match l' with Some l' => Some (s, l') | None => None end, r)
  | None => let '(_, r) := m None in (None, r)
  end.

(** Deleted snapshots and data losses. *)
Definition delete_traffic_snapshot (fuel : nat) (token : string) (cache : option MonitoringUuidCacheInner) (end_time : Z)
    (uuid : option Uuid) : M (option (T * L)) anyhow (option Z * Z) :=
  let! t := lift (parse_token token) in
  let scope := match uuid with Some u => Scope_AgentUuid u | None => Scope_Global end in
  let! _ := lift (require_allowed (check_token_limit (e_globals e) (e_clock e) t [scope]
                                     [P_DynamicMonitoring DynamicMonitoring_Delete])
                    "Permission Denied: Missing DynamicMonitoring Delete permission") in
  let! uuid_id := lift (match uuid with
                        | Some u => let? i := resolve_uuid cache u in Ok (Some i)
                        | None => Ok None
                        end) in
  let! deleted := on_fst (on_db "traffic snapshot delete: "
                            (delete_snapshots fuel (snapshot_until end_time uuid_id) DELETE_BATCH_SIZE 0)) in
  let! losses := on_snd (on_db "traffic snapshot delete: " (delete_possible_data_losses end_time uuid_id)) in
  mret (deleted, losses).
End ops.

(** ** Theorems: writing and deleting snapshots: theorems *)

(** ** First come, first stored *)

(** The key of a row does not depend on its [id]. *)
Definition keyed (mk : Z -> SnapshotRow) : Prop := forall i, sn_key (mk i) = sn_key (mk 0%Z).

Definition stored_as (mks : list (Z -> SnapshotRow)) (l : list SnapshotRow) : Prop :=
  Forall2 (fun mk r => exists i, r = mk i) mks l.

Lemma fresh_ext t1 t2 mks : (forall k, k ∈ t1 <-> k ∈ t2) -> fresh t1 mks = fresh t2 mks.
Proof.
  revert t1 t2. induction mks as [|mk mks IH]; intros t1 t2 H; simpl; [done|].
  rewrite (bool_decide_ext _ _ (H _)). case_bool_decide; [by apply IH|]. f_equal. apply IH.
  intros k. rewrite !elem_of_cons, H. done.
Qed.

Lemma fresh_app t a b :
  fresh t (a ++ b) = fresh t a ++ fresh (map (fun mk => sn_key (mk 0%Z)) (fresh t a) ++ t) b.
Proof.
  revert t. induction a as [|mk a IH]; intros t; simpl; [done|]. case_bool_decide; [apply IH|]. simpl. rewrite IH.
  do 2 f_equal. apply fresh_ext. intros k. rewrite !elem_of_app, !elem_of_cons, elem_of_app. tauto.
Qed.

Lemma fresh_sub t mks mk : mk ∈ fresh t mks -> mk ∈ mks.
Proof.
  revert t. induction mks as [|m mks IH]; intros t; simpl; [done|]. case_bool_decide; rewrite ?elem_of_cons; naive_solver.
Qed.

(** Every row asked for is there afterwards, from before or stored now. *)
Lemma fresh_covers t mks mk :
  mk ∈ mks -> sn_key (mk 0%Z) ∈ t \/ sn_key (mk 0%Z) ∈ map (fun mk => sn_key (mk 0%Z)) (fresh t mks).
Proof.
  revert t. induction mks as [|m mks IH]; intros t; simpl; [by intros ?%not_elem_of_nil|].
  intros [->|Hin]%elem_of_cons; case_bool_decide; simpl; rewrite ?elem_of_cons; [tauto|tauto|by apply IH|].
  destruct (IH (sn_key (m 0%Z) :: t) Hin) as [[?|?]%elem_of_cons|?]; tauto.
Qed.

Lemma fresh_nil t mks : (forall mk, mk ∈ mks -> sn_key (mk 0%Z) ∈ t) -> fresh t mks = [].
Proof.
  induction mks as [|m mks IH]; intros H; simpl; [done|]. rewrite bool_decide_true by (apply H; by left).
  apply IH. intros mk Hmk. apply H. by right.
Qed.

Lemma fresh_length t mks : length (fresh t mks) <= length mks.
Proof.
  revert t. induction mks as [|m mks IH]; intros t; simpl; [done|]. case_bool_decide; simpl; [pose proof (IH t)|pose proof (IH (sn_key (m 0%Z) :: t))]; lia.
Qed.

Lemma stored_keys mks l : Forall keyed mks -> stored_as mks l -> map sn_key l = map (fun mk => sn_key (mk 0%Z)) mks.
Proof.
  intros Hk. induction 1 as [|mk r mks l (i & ->) _ IH]; [done|]. inversion Hk; subst. simpl. f_equal; [done|auto].
Qed.

Section thms.
Context {T L : Type} {tops : TableOps T SnapshotRow} {sops : SnapshotOps T} {lops : TableOps L LossRow}.
Context {crypto : Crypto} {serde : Serde}.
Variables (uuid_order : list Uuid -> list Uuid) (uuid_display : Uuid -> string) (e : Env).
Context {tlaws : TableLaws tops snapshot_conflict} {slaws : SnapshotLaws sops} {llaws : TableLaws lops loss_conflict}.
Context (uuid_order_perm : forall l, uuid_order l ≡ₚ l).

Lemma insert_chunks_run cs : forall n d d' m,
  Forall keyed (concat cs) -> insert_chunks cs n d = (d', Ok m) ->
  exists l, rows d' ≡ₚ l ++ rows d /\ m = (n + Z.of_nat (length l))%Z /\
    stored_as (fresh (map sn_key (rows d)) (concat cs)) l.
Proof using slaws.
  induction cs as [|c cs IH]; intros n d d' m Hk; simpl.
  { intros [= <- <-]. exists []. split_and!; [done|simpl; lia|constructor]. }
  rewrite mbind_run. destruct (insert_ignore c d) as [d1 r1] eqn:E1. destruct r1 as [count|]; [|done].
  apply insert_ignore_ok in E1 as (l1 & Hr1 & -> & Hs1). apply Forall_app in Hk as [Hkc Hk].
  intros (l2 & Hr2 & -> & Hs2)%IH; [|done]. exists (l1 ++ l2). split_and!.
  - rewrite Hr2, Hr1, !app_assoc. by rewrite (Permutation_app_comm l2 l1).
  - rewrite length_app. lia.
  - rewrite fresh_app. apply Forall2_app; [done|].
    assert (map (fun mk => sn_key (mk 0%Z)) (fresh (map sn_key (rows d)) c) = map sn_key l1) as ->.
    { symmetry. apply stored_keys; [|done]. apply Forall_forall. intros mk Hmk%fresh_sub. rewrite Forall_forall in Hkc. auto. }
    erewrite fresh_ext; [exact Hs2|]. intros k. by rewrite Hr1, map_app.
Qed.

Lemma insert_snapshots_run mks d d' r :
  Forall keyed mks -> insert_snapshots mks d = (d', r) ->
  match r with
  | Ok n => exists l, rows d' ≡ₚ l ++ rows d /\ n = Z.of_nat (length l) /\ stored_as (fresh (map sn_key (rows d)) mks) l
  | Err _ => rows d' = rows d
  end.
Proof using slaws tlaws.
  intros Hk. unfold insert_snapshots. set (n := max_rows_per_statement _ _).
  assert (concat (chunks n mks) = mks) as Hc.
  { apply chunks_concat. unfold n, max_rows_per_statement. apply Nat.le_max_r. }
  destruct r as [m|err].
  - intros (d1 & d2 & H1 & Hrun & H2)%transaction_ok. apply insert_chunks_run in Hrun as (l & Hl & Hm & Hs); [|by rewrite Hc].
    rewrite Hc, H1 in *. exists l. rewrite H2. split_and!; [done|lia|done].
  - by intros ?%transaction_err.
Qed.

Lemma resolve_keyed c snapshots mks skipped : resolve_snapshots c snapshots = (mks, skipped) ->
  Forall keyed mks /\ (Z.of_nat (length mks) + skipped = Z.of_nat (length snapshots))%Z /\ (0 <= skipped)%Z /\
  (forall mk, mk ∈ mks -> exists s uuid_id, s ∈ snapshots /\ active_id c (sw_uuid s) = Some uuid_id /\ mk = snapshot_row uuid_id s).
Proof using.
  unfold resolve_snapshots. clear uuid_order_perm.
  assert (forall l acc mks skipped, Forall keyed acc.1 -> (0 <= acc.2)%Z -> fold_left (resolve_step c) l acc = (mks, skipped) ->
    Forall keyed mks /\ (Z.of_nat (length mks) + skipped = Z.of_nat (length acc.1) + acc.2 + Z.of_nat (length l))%Z /\ (0 <= skipped)%Z /\
    forall mk, mk ∈ mks -> mk ∈ acc.1 \/ exists s uuid_id, s ∈ l /\ active_id c (sw_uuid s) = Some uuid_id /\ mk = snapshot_row uuid_id s) as H.
  { induction l as [|s l IH]; intros acc mks' sk Hk H0; simpl.
    { intros ->. simpl in *. split_and!; [done|lia|done|by left]. }
    intros (K1 & K2 & K3 & K4)%IH; unfold resolve_step in *; destruct (active_id c (sw_uuid s)) as [u|] eqn:Eu; simpl in *; try lia; try done.
    - rewrite length_app in K2. simpl in K2. split_and!; [done|lia|done|]. intros mk Hmk. destruct (K4 mk Hmk) as [Hin|(s' & u' & Hs' & ?)].
      + apply elem_of_app in Hin as [?|Hin]; [by left|]. apply list_elem_of_singleton in Hin as ->. right. exists s, u. split; [by left|done].
      + right. exists s', u'. split; [by right|done].
    - split_and!; [done|lia|done|]. intros mk Hmk. destruct (K4 mk Hmk) as [?|(s' & u' & Hs' & ?)]; [by left|].
      right. exists s', u'. split; [by right|done].
    - apply Forall_app. split; [done|]. constructor; [|constructor]. by intros i. }
  intros Hf. apply H in Hf as (K1 & K2 & K3 & K4); [|constructor|done]. simpl in K2. split_and!; [done|lia|done|].
  intros mk Hmk. destruct (K4 mk Hmk) as [?%not_elem_of_nil|?]; [done|]. done.
Qed.

(** A successful write: who may do it, and what is stored. *)
Definition snapshots_written (cache : option MonitoringUuidCacheInner) (snapshots : list TrafficSnapshotWrite)
    (l l' : list SnapshotRow) (inserted ignored skipped : Z) : Prop :=
  (exists c mks added, cache = Some c /\ resolve_snapshots c snapshots = (mks, skipped) /\
     l' ≡ₚ added ++ l /\ inserted = Z.of_nat (length added) /\ stored_as (fresh (map sn_key l) mks) added /\
     ignored = (Z.of_nat (length mks) - inserted)%Z) \/
  (snapshots = [] /\ l' = l /\ inserted = 0%Z /\ ignored = 0%Z /\ skipped = 0%Z).

Lemma write_run token cache snapshots d db' r :
  write_traffic_snapshot uuid_order e token cache snapshots (Some d) = (db', r) ->
  exists d', db' = Some d' /\
  match r with
  | Ok (i, g, s) => snapshots_written cache snapshots (rows d) (rows d') i g s /\
      (exists t, parse_token token = Ok t /\
         (snapshots <> [] -> check_token_limit (e_globals e) (e_clock e) t
            (map Scope_AgentUuid (uuid_order (remove_dups (map sw_uuid snapshots)))) [P_DynamicMonitoring DynamicMonitoring_Write] = Ok true)) /\
      (snapshots <> [] -> exists now, get_local_timestamp_ms_i64 (e_clock e) = Ok now /\ validate_snapshots snapshots now = Ok tt)
  | Err _ => rows d' = rows d
  end.
Proof using slaws tlaws.
  unfold write_traffic_snapshot. rewrite mbind_lift. destruct (parse_token token) as [t|] eqn:Et; [|intros [= <- <-]; by exists d].
  destruct snapshots as [|s0 snapshots].
  { intros [= <- <-]. exists d. split; [done|]. split_and!; [by right|by exists t|done]. }
  set (l := s0 :: snapshots) in *. rewrite mbind_lift. unfold require_allowed.
  destruct (check_token_limit _ _ _ _ _) as [[]|] eqn:Ec; simpl; [|intros [= <- <-]; by exists d|intros [= <- <-]; by exists d].
  rewrite mbind_lift. destruct (get_local_timestamp_ms_i64 _) as [now|] eqn:En; [|intros [= <- <-]; by exists d].
  rewrite mbind_lift. destruct (validate_snapshots l now) as [[]|] eqn:Ev; cbn [map_err]; [|intros [= <- <-]; by exists d].
  rewrite mbind_lift. destruct cache as [c|]; cbn [directory ok_or]; [|intros [= <- <-]; by exists d].
  destruct (resolve_snapshots c l) as [mks skipped] eqn:Er. pose proof (resolve_keyed _ _ _ _ Er) as (Hk & _).
  rewrite mbind_run. unfold on_db. destruct (insert_snapshots mks d) as [d1 r1] eqn:E1.
  apply insert_snapshots_run in E1; [|done]. destruct r1 as [n|]; cbn [map_err]; [|intros [= <- <-]; by exists d1].
  intros [= <- <-]. exists d1. split; [done|]. destruct E1 as (added & Ha & Hn & Hs). split_and!.
  - left. exists c, mks, added. split_and!; done.
  - exists t. split; [done|]. intros _. exact Ec.
  - intros _. by exists now.
Qed.

(** writing snapshots is all or nothing and safe to repeat.  A request succeeds only for a token
    that may write for every agent it names; every snapshot is then counted once as inserted,
    ignored or skipped, stored rows are never changed, of several with the same agent, interface
    and time the first wins, and sending the same request again stores nothing more.  A failed
    request stores nothing. *)
Theorem snapshots_written_once token cache snapshots d db' r :
  write_traffic_snapshot uuid_order e token cache snapshots (Some d) = (db', r) ->
  exists d', db' = Some d' /\
  match r with
  | Ok (i, g, s) =>
      snapshots_written cache snapshots (rows d) (rows d') i g s /\
      (i + g + s = Z.of_nat (length snapshots) /\ 0 <= i /\ 0 <= g /\ 0 <= s)%Z /\
      (forall x, x ∈ snapshots -> authorised e token (Scope_AgentUuid (sw_uuid x)) (P_DynamicMonitoring DynamicMonitoring_Write)) /\
      (forall db'' i2 g2 s2, write_traffic_snapshot uuid_order e token cache snapshots (Some d') = (db'', Ok (i2, g2, s2)) ->
         i2 = 0%Z /\ s2 = s /\ exists d'', db'' = Some d'' /\ rows d'' ≡ₚ rows d')
  | Err _ => rows d' = rows d
  end.
Proof using slaws tlaws uuid_order_perm.
  intros H. destruct (write_run _ _ _ _ _ _ H) as (d' & -> & Hd). exists d'. split; [done|].
  destruct r as [[[i g] s]|]; [|done]. destruct Hd as (Hw & (t & Et & Hperm) & _). split; [done|].
  assert (snapshots_written cache snapshots (rows d) (rows d') i g s -> (i + g + s = Z.of_nat (length snapshots) /\ 0 <= i /\ 0 <= g /\ 0 <= s)%Z) as Hcnt.
  { intros [(c & mks & added & _ & Hr & _ & -> & Hs & ->)|(-> & _ & -> & -> & ->)]; [|simpl; lia].
    apply resolve_keyed in Hr as (_ & Hlen & H0 & _). apply Forall2_length in Hs. pose proof (fresh_length (map sn_key (rows d)) mks). lia. }
  split; [by apply Hcnt|]. split.
  - intros x Hx. exists t. split; [done|]. assert (snapshots <> []) as Hne by (intros Hnil; rewrite Hnil in Hx; by apply not_elem_of_nil in Hx). specialize (Hperm Hne).
    apply (check_limit_each _ _ _ _ _ _ Hperm); [|by left]. apply list_elem_of_fmap_2. rewrite uuid_order_perm.
    apply elem_of_remove_dups. by apply list_elem_of_fmap_2.
  - intros db'' i2 g2 s2 H2. destruct (write_run _ _ _ _ _ _ H2) as (d'' & -> & Hw2 & _).
    destruct Hw as [(c & mks & added & -> & Hr & Hp & -> & Hs & ->)|(-> & Hd' & -> & -> & ->)].
    + destruct Hw2 as [(c' & mks' & added' & [= <-] & Hr' & Hp' & -> & Hs' & ->)|(-> & Hd' & -> & -> & ->)].
      * rewrite Hr in Hr'. injection Hr' as <- <-. pose proof (resolve_keyed _ _ _ _ Hr) as (Hk & _).
        rewrite fresh_nil in Hs'.
        { apply Forall2_nil_inv_l in Hs' as ->. split; [done|]. split; [done|]. by exists d''. }
        intros mk Hmk. rewrite Hp, map_app, elem_of_app.
        assert (map sn_key added = map (fun mk => sn_key (mk 0%Z)) (fresh (map sn_key (rows d)) mks)) as ->.
        { apply stored_keys; [|done]. apply Forall_forall. intros m Hm%fresh_sub. rewrite Forall_forall in Hk. auto. }
        destruct (fresh_covers (map sn_key (rows d)) mks mk Hmk); [by right|by left].
      * injection Hr as <- <-. split; [done|]. split; [done|]. exists d''. split; [done|]. by rewrite Hd'.
    + destruct Hw2 as [(c' & mks' & added' & _ & [= <- <-] & Hp' & -> & Hs' & ->)|(_ & Hd2 & -> & -> & ->)].
      * apply Forall2_nil_inv_l in Hs' as ->. split; [done|]. split; [done|]. by exists d''.
      * split; [done|]. split; [done|]. exists d''. split; [done|]. by rewrite Hd2.
Qed.

(** ** Deleting in batches *)

Lemma batch_split (p : SnapshotRow -> bool) l1 l2 gone :
  l1 ≡ₚ l2 ++ gone -> (forall r, r ∈ gone -> p r = true) ->
  length (List.filter p l1) = length (List.filter p l2) + length gone /\
  List.filter (fun r => negb (p r)) l1 ≡ₚ List.filter (fun r => negb (p r)) l2.
Proof using.
  clear. intros -> Hp. rewrite !List.filter_app, length_app.
  assert (List.filter p gone = gone /\ List.filter (fun r => negb (p r)) gone = []) as [-> ->].
  { induction gone as [|x gone IH]; [done|]. simpl. rewrite (Hp x) by (by left). simpl.
    destruct IH as [-> ->]; [|done]. intros r Hr. apply Hp. by right. }
  by rewrite app_nil_r.
Qed.

Lemma delete_loop fuel : forall p b acc d d' r,
  (0 < b)%Z -> (Z.of_nat (length (List.filter p (rows d))) < Z.of_nat fuel * b)%Z ->
  delete_snapshots fuel p b acc d = (d', r) ->
  match r with
  | Ok o => o = Some (acc + Z.of_nat (length (List.filter p (rows d))))%Z /\ rows d' ≡ₚ List.filter (fun x => negb (p x)) (rows d)
  | Err _ => exists gone, rows d ≡ₚ rows d' ++ gone /\ forall x, x ∈ gone -> p x = true
  end.
Proof using slaws.
  induction fuel as [|fuel IH]; intros p b acc d d' r Hb Hf; [exfalso; lia|]. cbn [delete_snapshots]. rewrite mbind_run.
  destruct (delete_batch p b d) as [d1 r1] eqn:E1. destruct r1 as [n|].
  - apply delete_batch_ok in E1 as (gone & Hg & Hn & Hp & Hmin); [|lia]. destruct (batch_split p _ _ _ Hg Hp) as [Hc Hrest].
    destruct (Z.ltb_spec n b) as [Hlt|Hge].
    + intros [= <- <-]. assert (length (List.filter p (rows d1)) = 0) as H0 by lia. split; [f_equal; lia|].
      rewrite Hrest. clear -H0. induction (rows d1) as [|x l IH]; simpl in *; [done|]. destruct (p x); simpl in *; [lia|]. by constructor; apply IH.
    + intros H. apply IH in H; [|done|lia]. destruct r as [o|].
      * destruct H as [-> H]. split; [f_equal; lia|]. by rewrite Hrest.
      * destruct H as (gone' & Hg' & Hp'). exists (gone' ++ gone). rewrite Hg, Hg'. split; [by rewrite app_assoc|].
        intros x [?|?]%elem_of_app; auto.
  - intros [= <- <-]. apply delete_batch_err in E1. exists []. rewrite E1. split; [by rewrite app_nil_r|by intros x ?%not_elem_of_nil].
Qed.

(** the deletion loop ends after one batch more than the rows fill, and when no statement fails it has
    then removed exactly the snapshots up to the end time of the one agent, or of all, and reported
    their number, and the same for the recorded data losses.  It takes the delete permission for that
    agent, or the global one.  When a statement fails, only such rows are gone. *)
Theorem delete_snapshots_exact token cache end_time uuid s l db' r fuel :
  (Z.of_nat (length (rows s)) < Z.of_nat fuel * DELETE_BATCH_SIZE)%Z ->
  delete_traffic_snapshot uuid_display e fuel token cache end_time uuid (Some (s, l)) = (db', r) ->
  exists s' l', db' = Some (s', l') /\
  match r with
  | Ok (n, k) =>
      authorised e token (match uuid with Some u => Scope_AgentUuid u | None => Scope_Global end) (P_DynamicMonitoring DynamicMonitoring_Delete) /\
      exists uuid_id, (forall u, uuid = Some u -> exists c i, cache = Some c /\ get_id c u = Some i /\ uuid_id = Some i) /\
        (uuid = None -> uuid_id = None) /\
        n = Some (Z.of_nat (length (List.filter (snapshot_until end_time uuid_id) (rows s)))) /\
        rows s' ≡ₚ List.filter (fun x => negb (snapshot_until end_time uuid_id x)) (rows s) /\
        k = Z.of_nat (length (List.filter (loss_until end_time uuid_id) (rows l))) /\
        rows l' ≡ₚ List.filter (fun x => negb (loss_until end_time uuid_id x)) (rows l)
  | Err _ => rows l' = rows l /\ exists gone, rows s ≡ₚ rows s' ++ gone /\
      forall x, x ∈ gone -> (sn_snapshot_time x <= end_time)%Z
  end.
Proof using slaws llaws.
  intros Hfuel. unfold delete_traffic_snapshot.
  assert (exists gone, rows s ≡ₚ rows s ++ gone /\ forall x, x ∈ gone -> (sn_snapshot_time x <= end_time)%Z) as Hnone.
  { exists []. rewrite app_nil_r. split; [done|by intros x ?%not_elem_of_nil]. }
  rewrite mbind_lift. destruct (parse_token token) as [t|] eqn:Et; [|intros [= <- <-]; by exists s, l].
  rewrite mbind_lift. unfold require_allowed. set (scope := match uuid with Some u => Scope_AgentUuid u | None => Scope_Global end).
  destruct (check_token_limit _ _ _ _ _) as [[]|] eqn:Ec; simpl; [|intros [= <- <-]; by exists s, l|intros [= <- <-]; by exists s, l].
  rewrite mbind_lift. destruct (match uuid with Some u => _ | None => Ok None end) as [uuid_id|] eqn:Eu; [|intros [= <- <-]; by exists s, l].
  rewrite mbind_run. unfold on_fst, on_db. destruct (delete_snapshots _ _ _ _ s) as [s1 r1] eqn:E1.
  apply delete_loop in E1; [|done|].
  2:{ pose proof (List.filter_length_le (snapshot_until end_time uuid_id) (rows s)). lia. }
  destruct r1 as [o|]; cbn [map_err].
  2:{ intros [= <- <-]. exists s1, l. split; [done|]. split; [done|]. destruct E1 as (gone & Hg & Hp). exists gone. split; [done|].
      intros x Hx. apply Hp in Hx. unfold snapshot_until in Hx. apply andb_true_iff in Hx as [Hx _]. lia. }
  destruct E1 as [-> Hs]. rewrite mbind_run. unfold on_snd, on_db, delete_possible_data_losses.
  destruct (delete_many _ l) as [l1 r2] eqn:E2. destruct r2 as [k|]; cbn [map_err]; intros [= <- <-]; exists s1, l1; (split; [done|]).
  - apply delete_many_ok in E2 as [Hl ->]. split; [by exists t|]. exists uuid_id. split_and!; try done.
    + intros u ->. unfold resolve_uuid in Eu. destruct cache as [c|]; cbn [directory ok_or rbind] in Eu; [|done].
      destruct (get_id c u) as [i|] eqn:Ei; cbn [ok_or rbind] in Eu; [|done]. injection Eu as <-. by exists c, i.
    + intros ->. by injection Eu as <-.
  - apply delete_many_err in E2. split; [done|].
    exists (List.filter (snapshot_until end_time uuid_id) (rows s)). split.
    + rewrite Hs. clear. induction (rows s) as [|x l IH]; [done|]. simpl. destruct (snapshot_until _ _ x); simpl; [|by constructor].
      rewrite <-Permutation_middle. by constructor.
    + intros x [_ Hx]%list_filter_elem. unfold snapshot_until in Hx. apply andb_true_iff in Hx as [Hx _]. lia.
Qed.
End thms.

(** ** A concrete table *)

Definition lt_insert_ignore (mks : list (Z -> SnapshotRow)) : M (ListTable SnapshotRow) DbErr Z :=
  stmt (fun t =>
    let l := imap (fun i mk => mk (next_id t + Z.of_nat i)%Z) (fresh (map sn_key (tbl t)) mks) in
    ((l ++ tbl t, (next_id t + Z.of_nat (length l))%Z), Ok (Z.of_nat (length l)))).

Fixpoint take_matching (n : nat) (p : SnapshotRow -> bool) (l : list SnapshotRow) : list SnapshotRow * list SnapshotRow :=
  match n, l with
  | S n', x :: l' => if p x then let '(k, g) := take_matching n' p l' in (k, x :: g)
                     else let '(k, g) := take_matching n p l' in (x :: k, g)
  | _, _ => (l, [])
  end.

Definition lt_delete_batch (p : SnapshotRow -> bool) (limit : Z) : M (ListTable SnapshotRow) DbErr Z :=
  stmt (fun t => let '(kept, gone) := take_matching (Z.to_nat limit) p (tbl t) in
                 ((kept, next_id t), Ok (Z.of_nat (length gone)))).

Lemma take_matching_spec p l : forall n k g, take_matching n p l = (k, g) ->
  l ≡ₚ k ++ g /\ (forall x, x ∈ g -> p x = true) /\ length g = Nat.min n (length (List.filter p l)).
Proof.
  assert (forall x : SnapshotRow, x ∈ [] -> p x = true) as Hnil by (by intros x ?%not_elem_of_nil).
  induction l as [|x l IH]; intros [|n] k g; simpl; try (intros [= <- <-]; rewrite ?app_nil_r; split_and!; (done || (simpl; lia))).
  destruct (p x) eqn:Ep.
  - destruct (take_matching n p l) as [k' g'] eqn:E. intros [= <- <-]. apply IH in E as (H1 & H2 & H3). split_and!.
    + rewrite <-Permutation_middle. by constructor.
    + intros y [->|Hy]%elem_of_cons; auto.
    + simpl. lia.
  - destruct (take_matching (S n) p l) as [k' g'] eqn:E. intros [= <- <-]. apply IH in E as (H1 & H2 & H3). split_and!.
    + simpl. by constructor.
    + done.
    + done.
Qed.

#[global] Instance snapshot_table : TableOps (ListTable SnapshotRow) SnapshotRow := ListTable_ops snapshot_conflict.
Lemma snapshot_conflict_sym a b : snapshot_conflict a b = snapshot_conflict b a.
Proof. unfold snapshot_conflict. rewrite Z.eqb_sym. f_equal. apply bool_decide_ext. split; congruence. Qed.
#[global] Instance snapshot_table_laws : TableLaws snapshot_table snapshot_conflict :=
  ListTable_laws snapshot_conflict snapshot_conflict_sym.
#[global] Instance loss_table : TableOps (ListTable LossRow) LossRow := ListTable_ops loss_conflict.
Lemma loss_conflict_sym a b : loss_conflict a b = loss_conflict b a.
Proof. apply Z.eqb_sym. Qed.
#[global] Instance loss_table_laws : TableLaws loss_table loss_conflict := ListTable_laws loss_conflict loss_conflict_sym.

#[global] Instance snapshot_list_ops : SnapshotOps (ListTable SnapshotRow) :=
  {| insert_ignore := lt_insert_ignore; delete_batch := lt_delete_batch |}.

Lemma imap_stored f : forall g : nat -> Z, stored_as f (imap (fun i mk => mk (g i)) f).
Proof. induction f as [|mk f IH]; intros g; simpl; constructor; [by eexists|]. apply (IH (g ∘ S)). Qed.

#[global] Instance snapshot_list_laws : SnapshotLaws snapshot_list_ops.
Proof.
  split; simpl.
  - intros mks d d' n. unfold lt_insert_ignore, stmt. destruct (outages d) as [|[] o]; [|done|];
      intros [= <- <-]; simpl; (eexists; split_and!; [done|done|]); apply (imap_stored _ (fun i => (next_id d + Z.of_nat i)%Z)).
  - intros mks d d' err. unfold lt_insert_ignore, stmt. destruct (outages d) as [|[] o]; by intros [= <- <-].
  - intros p limit d d' n H0. unfold lt_delete_batch, stmt.
    destruct (take_matching (Z.to_nat limit) p (tbl d)) as [k g] eqn:E. apply take_matching_spec in E as (H1 & H2 & H3).
    destruct (outages d) as [|[] o]; [|done|]; intros [= <- <-]; simpl; exists g; split_and!; try done; lia.
  - intros p limit d d' err. unfold lt_delete_batch, stmt. destruct (outages d) as [|[] o]; [|by intros [= <- <-]|];
      by destruct (take_matching _ _ _).
Qed.

(** ** Examples *)

Definition snap (uuid : Uuid) (name : string) (time received : Z) : TrafficSnapshotWrite := {|
  sw_uuid := uuid; sw_interface_name := name; sw_snapshot_time := time; sw_total_received := received; sw_total_transmitted := 0 |}.
Definition id_order (l : list Uuid) : list Uuid := l.
Lemma id_order_perm l : id_order l ≡ₚ l.
Proof. done. Qed.

Definition known_agents : MonitoringUuidCacheInner := build_cache sample_agents.
Definition no_snapshots : ListTable SnapshotRow := {| tbl := []; next_id := 1; outages := [] |}.
Definition demo_snapshots : list TrafficSnapshotWrite :=
  map (fun u => snap (u_uuid u) "eth0" 1000 5) (take 1 sample_agents) ++
  map (fun u => snap (u_uuid u) "eth0" 1000 9) (take 1 sample_agents) ++ [snap 99%N "eth0" 1000 5].

Definition demo_write := write_traffic_snapshot id_order sample_env "rootkey:rootsecret" (Some known_agents) demo_snapshots (Some no_snapshots).

Example demo_write_counts : demo_write.2 = Ok (1, 1, 1)%Z.
Proof. vm_compute. reflexivity. Qed.

Lemma snapshots_written_once_witness :
  exists d', demo_write = (Some d', Ok (1, 1, 1)%Z) /\ exists added, rows d' ≡ₚ added ++ [] /\ length added = 1.
Proof.
  destruct demo_write as [db' r] eqn:E.
  assert (r = Ok (1, 1, 1)%Z) as -> by (rewrite <-demo_write_counts, E; reflexivity).
  destruct (snapshots_written_once id_order sample_env id_order_perm "rootkey:rootsecret" (Some known_agents) demo_snapshots
              no_snapshots db' _ E) as (d' & Hd & [(c & mks & added & _ & _ & Hp & Hn & _)|(Hnil & _)] & _).
  - exists d'. split; [by rewrite Hd|]. exists added. split; [exact Hp|lia].
  - discriminate Hnil.
Defined.

Definition old_snapshots : ListTable SnapshotRow :=
  {| tbl := [snapshot_row 1 (snap 1%N "eth0" 1000 5) 1; snapshot_row 1 (snap 1%N "eth0" 2000 7) 2; snapshot_row 2 (snap 2%N "eth0" 1000 3) 3];
     next_id := 4; outages := [] |}.
Definition no_losses : ListTable LossRow := {| tbl := []; next_id := 1; outages := [] |}.

Definition demo_purge := delete_traffic_snapshot show_uuid sample_env 1 "rootkey:rootsecret" None 1500 None (Some (old_snapshots, no_losses)).

Example demo_purge_counts : demo_purge.2 = Ok (Some 2, 0)%Z.
Proof. vm_compute. reflexivity. Qed.

Lemma delete_snapshots_exact_witness :
  exists s' l', demo_purge = (Some (s', l'), Ok (Some 2, 0)%Z) /\
    rows s' ≡ₚ List.filter (fun x => negb (snapshot_until 1500 None x)) (rows old_snapshots).
Proof.
  destruct demo_purge as [db' r] eqn:E.
  assert (r = Ok (Some 2, 0)%Z) as -> by (rewrite <-demo_purge_counts, E; reflexivity).
  assert (Z.of_nat (length (rows old_snapshots)) < Z.of_nat 1 * DELETE_BATCH_SIZE)%Z as Hfuel by reflexivity.
  destruct (delete_snapshots_exact show_uuid sample_env "rootkey:rootsecret" None 1500 None old_snapshots no_losses db' _ 1 Hfuel E)
    as (s' & l' & Hd & _ & uuid_id & _ & Hnone & _ & Hrows & _).
  exists s', l'. split; [by rewrite Hd|]. rewrite (Hnone eq_refl) in Hrows. exact Hrows.
Defined.
