(* ===== verification/SnapshotQuery.v ===== *)
(** * Traffic queries

    [query_traffic_common.rs], [query_traffic_detail.rs], [query_traffic_total.rs],
    [query_traffic_range.rs] and [query_traffic_current.rs] of
    [ng-monitoring/src/rpc/agent].  Aggregates and orderings of the SELECT statements are
    computed over the matching rows; interface names are ordered as the database does. *)
From stdpp Require Import base strings pretty gmap list numbers sorting.
From Stdlib Require Import Ascii.
From S2P Require Import Prelude Errors Db Permission TokenCache TokenCheck KvAuth UuidCache Selection Traffic TrafficFlush MonDelete Snapshots.

(** How the database orders text columns: a total order. *)
Class NameOrder : Type := {
  name_le : relation string;
  #[global] name_le_dec :: RelDecision name_le;
  #[global] name_le_po :: PartialOrder name_le;
  #[global] name_le_total :: Total name_le;
}.

Definition DEFAULT_MONITORING_QUERY_LIMIT : Z := 10000.

Record TrafficCursor : Type := { cu_interface_name : string; cu_snapshot_time : Z }.
Record TrafficSnapshotItem : Type := {
  si_interface_name : string; si_snapshot_time : Z; si_total_received : Z; si_total_transmitted : Z }.

Definition check_time_order (start_time end_time : option Z) : result anyhow unit :=
  match start_time, end_time with
  | Some s, Some e => if (e <? s)%Z then fail_with (InvalidInput "start_time must not be later than end_time") else Ok tt
  | _, _ => Ok tt
  end.

Definition resolve_page_size (limit : option Z) : result anyhow Z :=
  match limit with
  | None => Ok DEFAULT_MONITORING_QUERY_LIMIT
  | Some limit => if (limit =? 0)%Z then fail_with (InvalidInput "limit must be greater than 0") else Ok (Z.min limit MAX_QUERY_LIMIT)
  end.

Definition within (start_time end_time : option Z) (t : Z) : bool :=
  match start_time with Some s => (s <=? t)%Z | None => true end &&
  match end_time with Some e => (t <=? e)%Z | None => true end.

Definition snapshot_selected (uuid_id : Z) (start_time end_time : option Z) (r : SnapshotRow) : bool :=
  (sn_uuid_id r =? uuid_id)%Z && within start_time end_time (sn_snapshot_time r).

(** The periods that overlap the window. *)
Definition loss_selected (uuid_id : Z) (start_time end_time : option Z) (r : LossRow) : bool :=
  (lr_uuid_id r =? uuid_id)%Z && match start_time with Some s => (s <=? lr_end_time r)%Z | None => true end
  && match end_time with Some e => (lr_start_time r <=? e)%Z | None => true end.

Definition loss_le (a b : LossRow) : Prop := (lr_start_time a <= lr_start_time b)%Z.
#[global] Instance loss_le_dec : RelDecision loss_le.
Proof. intros a b. unfold loss_le. apply _. Defined.

Section queries.
Context {T L : Type} {tops : TableOps T SnapshotRow} {lops : TableOps L LossRow} {no : NameOrder}.
Context {crypto : Crypto} {serde : Serde}.
Variables (uuid_display : Uuid -> string) (e : Env).

(** ** Authorisation and periods of data loss *)

Definition authorize_and_resolve (token : string) (cache : option MonitoringUuidCacheInner) (uuid : Uuid) : result anyhow Z :=
  let? t := parse_token token in
  let? _ := require_allowed (check_token_limit (e_globals e) (e_clock e) t [Scope_AgentUuid uuid]
                               [P_DynamicMonitoring (DynamicMonitoring_Read DField_Network)])
              "Permission Denied: Missing DynamicMonitoring Read(network) permission for this Agent" in
  resolve_uuid uuid_display cache uuid.

Definition query_stmt {D A} (m : M D DbErr A) : M D anyhow A := fun d =>
  let '(d', r) := m d in (d', map_err (fun err => OfNodeget (DatabaseError ("traffic query: " +:+ db_msg err))) r).

Definition query_possible_data_losses (uuid_id : Z) (start_time end_time : option Z) : M L anyhow (list (Z * Z)) :=
  let! losses := query_stmt (find_all (loss_selected uuid_id start_time end_time)) in
  mret (map (fun r => (lr_start_time r, lr_end_time r)) (merge_sort loss_le losses)).

(** ** Single snapshots, page by page *)

(** [ORDER BY interface_name, snapshot_time]. *)
Definition snap_le (a b : SnapshotRow) : Prop :=
  name_le (sn_interface_name a) (sn_interface_name b) /\
  (sn_interface_name a = sn_interface_name b -> (sn_snapshot_time a <= sn_snapshot_time b)%Z).
#[global] Instance snap_le_dec : RelDecision snap_le.
Proof using. intros a b. unfold snap_le. apply _. Defined.

Definition name_gt (a b : string) : bool := bool_decide (name_le b a) && negb (String.eqb a b).

Definition after_cursor (c : TrafficCursor) (r : SnapshotRow) : bool :=
  name_gt (sn_interface_name r) (cu_interface_name c)
  || String.eqb (sn_interface_name r) (cu_interface_name c) && (cu_snapshot_time c <? sn_snapshot_time r)%Z.

Definition snapshot_item (r : SnapshotRow) : TrafficSnapshotItem := {|
  si_interface_name := sn_interface_name r; si_snapshot_time := sn_snapshot_time r;
  si_total_received := cast_unsigned64 (sn_total_received r);
  si_total_transmitted := cast_unsigned64 (sn_total_transmitted r) |}.

Definition cursor_at (r : SnapshotRow) : TrafficCursor :=
  {| cu_interface_name := sn_interface_name r; cu_snapshot_time := sn_snapshot_time r |}.

Definition query_detail (uuid_id : Z) (start_time end_time : option Z) (page_size : Z) (cursor : option TrafficCursor) :
    M T anyhow (list TrafficSnapshotItem * option TrafficCursor) :=
  let! found := query_stmt (find_all (fun r => snapshot_selected uuid_id start_time end_time r
                                   && match cursor with Some c => after_cursor c r | None => true end)) in
  let snapshots := take (Z.to_nat (sat_add_u64 page_size 1)) (merge_sort snap_le found) in
  let has_more := (page_size <? Z.of_nat (length snapshots))%Z in
  let page := take (Z.to_nat page_size) snapshots in
  let next_cursor := if has_more then option_map cursor_at (last page) else None in
  mret (map snapshot_item page, next_cursor).

(** ** Totals and ranges per interface *)

(** The groups of a [GROUP BY interface_name ORDER BY interface_name]. *)
Definition groups (l : list SnapshotRow) : list (string * list SnapshotRow) :=
  map (fun n => (n, List.filter (fun r => String.eqb (sn_interface_name r) n) l))
    (merge_sort name_le (remove_dups (map sn_interface_name l))).

(** [MIN] and [MAX] of a column over a group. *)
Definition min_of (f : SnapshotRow -> Z) (g : list SnapshotRow) : Z :=
  match g with [] => 0%Z | r :: g' => fold_left (fun m x => Z.min m (f x)) g' (f r) end.
Definition max_of (f : SnapshotRow -> Z) (g : list SnapshotRow) : Z :=
  match g with [] => 0%Z | r :: g' => fold_left (fun m x => Z.max m (f x)) g' (f r) end.

Record InterfaceTrafficItem : Type := {
  it_interface_name : string; it_received : Z; it_transmitted : Z; it_first_snapshot_time : Z; it_last_snapshot_time : Z }.

Definition sat_sub_i64 (a b : Z) : Z := Z.max i64_min (Z.min i64_max (a - b)).

Definition interface_item (g : string * list SnapshotRow) : InterfaceTrafficItem := {|
  it_interface_name := g.1;
  it_received := cast_unsigned64 (sat_sub_i64 (max_of sn_total_received g.2) (min_of sn_total_received g.2));
  it_transmitted := cast_unsigned64 (sat_sub_i64 (max_of sn_total_transmitted g.2) (min_of sn_total_transmitted g.2));
  it_first_snapshot_time := min_of sn_snapshot_time g.2;
  it_last_snapshot_time := max_of sn_snapshot_time g.2 |}.

Definition query_total (uuid_id : Z) (start_time end_time : option Z) : M T anyhow (list InterfaceTrafficItem) :=
  let! found := query_stmt (find_all (snapshot_selected uuid_id start_time end_time)) in
  let items := map interface_item (List.filter (fun g => 2 <=? length g.2)%nat (groups found)) in
  match items with
  | [] => mfail (OfNodeget (NotFound "No interface has at least two traffic snapshots between start_time and end_time; make sure the traffic snapshot worker is installed and running, or query the snapshots with query_traffic_detail"))
  | _ => mret items
  end.

(** [Iterator::sum] of [u64], in a release build. *)
Definition sum_u64 (l : list Z) : Z := fold_left (fun a b => (a + b) mod 2 ^ 64)%Z l 0%Z.

Definition query_range (uuid_id : Z) : M T anyhow (list (string * Z * Z)) :=
  let! found := query_stmt (find_all (fun r => sn_uuid_id r =? uuid_id)%Z) in
  mret (map (fun g => (g.1, min_of sn_snapshot_time g.2, max_of sn_snapshot_time g.2)) (groups found)).

(** ** The methods *)

(** A read of one of the two tables. *)
Definition read_snaps {A} (m : M T anyhow A) : M (option (T * L)) anyhow A := fun db =>
  match db with
  | Some (s, l) => let '(s', r) := m s in (Some (s', l), r)
  | None => (None, Err (OfNodeget (DatabaseError "DB not initialized")))
  end.
Definition read_losses {A} (m : M L anyhow A) : M (option (T * L)) anyhow A := fun db =>
  match db with
  | Some (s, l) => let '(l', r) := m l in (Some (s, l'), r)
  | None => (None, Err (OfNodeget (DatabaseError "DB not initialized")))
  end.

Definition query_traffic_detail (token : string) (cache : option MonitoringUuidCacheInner) (uuid : Uuid)
    (start_time end_time limit : option Z) (cursor : option TrafficCursor) :
    M (option (T * L)) anyhow (list TrafficSnapshotItem * option TrafficCursor * list (Z * Z)) :=
  let! uuid_id := lift (authorize_and_resolve token cache uuid) in
  let! _ := lift (check_time_order start_time end_time) in
  let! page_size := lift (resolve_page_size limit) in
  let! losses := read_losses (query_possible_data_losses uuid_id start_time end_time) in
  let! (snapshots, next_cursor) := read_snaps (query_detail uuid_id start_time end_time page_size cursor) in
  mret (snapshots, next_cursor, losses).

(** The interfaces, the sums of both directions, and the periods of possible loss. *)
Definition query_traffic_total (token : string) (cache : option MonitoringUuidCacheInner) (uuid : Uuid)
    (start_time end_time : option Z) : M (option (T * L)) anyhow (list InterfaceTrafficItem * Z * Z * list (Z * Z)) :=
  let! uuid_id := lift (authorize_and_resolve token cache uuid) in
  let! _ := lift (check_time_order start_time end_time) in
  let! losses := read_losses (query_possible_data_losses uuid_id start_time end_time) in
  let! interfaces := read_snaps (query_total uuid_id start_time end_time) in
  mret (interfaces, sum_u64 (map it_received interfaces), sum_u64 (map it_transmitted interfaces), losses).

Definition query_traffic_range (token : string) (cache : option MonitoringUuidCacheInner) (uuid : Uuid) :
    M (option (T * L)) anyhow (list (string * Z * Z)) :=
  let! uuid_id := lift (authorize_and_resolve token cache uuid) in
  read_snaps (query_range uuid_id).

(** ** Reading all pages *)

(** A client that follows [next_cursor] until there is none; [None] when the fuel runs out. *)
Fixpoint read_all (fuel : nat) (uuid_id : Z) (start_time end_time : option Z) (page_size : Z) (cursor : option TrafficCursor) :
    M T anyhow (option (list TrafficSnapshotItem)) :=
  match fuel with
  | O => mret None
  | S fuel =>
      let! (items, next) := query_detail uuid_id start_time end_time page_size cursor in
      match next with
      | None => mret (Some items)
      | Some c => let! rest := read_all fuel uuid_id start_time end_time page_size (Some c) in
                  mret (option_map (app items) rest)
      end
  end.
End queries.
