(* ===== verification/SnapshotPages.v ===== *)
(** * Traffic queries: theorems

    Following the cursor of [query_traffic_detail] gives every snapshot once and in order;
    [query_traffic_total] gives what an interface moved between its first and last snapshot. *)
From stdpp Require Import base strings pretty gmap list numbers sorting.
From Stdlib Require Import Ascii.
From S2P Require Import Prelude Errors Db Permission TokenCache TokenCheck KvAuth UuidCache Selection Traffic TrafficFlush MonDelete Snapshots SnapshotQuery.

Section order.
Context {no : NameOrder}.

#[global] Instance snap_le_total : Total snap_le.
Proof using.
  intros a b. unfold snap_le. destruct (total name_le (sn_interface_name a) (sn_interface_name b)) as [H|H];
    destruct (decide (sn_interface_name a = sn_interface_name b)) as [Heq|Hne].
  - destruct (Z.le_ge_cases (sn_snapshot_time a) (sn_snapshot_time b)); [left|right]; rewrite Heq in *; split; auto.
  - left. split; [done|]. by intros ?.
  - destruct (Z.le_ge_cases (sn_snapshot_time a) (sn_snapshot_time b)); [left|right]; rewrite Heq in *; split; auto.
  - right. split; [done|]. by intros ?.
Qed.

#[global] Instance snap_le_trans : Transitive snap_le.
Proof using.
  intros a b c [H1 H1'] [H2 H2']. split; [by etrans|]. intros Heq.
  assert (sn_interface_name a = sn_interface_name b) as Hab by (apply (anti_symm name_le); [done|by rewrite Heq]).
  trans (sn_snapshot_time b); [by apply H1'|apply H2']. congruence.
Qed.

(** Rows of one agent are told apart by interface and time. *)
Definition distinct (u : Z) (l : list SnapshotRow) : Prop := NoDup (map sn_key l) /\ forall r, r ∈ l -> sn_uuid_id r = u.

Lemma distinct_eq u l a b : distinct u l -> a ∈ l -> b ∈ l ->
  sn_interface_name a = sn_interface_name b -> sn_snapshot_time a = sn_snapshot_time b -> a = b.
Proof using.
  intros [Hnd Hu] Ha Hb Hn Ht. assert (sn_key a = sn_key b) as Hk.
  { unfold sn_key. by rewrite Hn, Ht, (Hu a Ha), (Hu b Hb). }
  clear -Hnd Ha Hb Hk. induction l as [|x l IH]; [by apply not_elem_of_nil in Ha|]. simpl in Hnd.
  apply list.NoDup_cons in Hnd as [Hx Hnd]. apply elem_of_cons in Ha as [->|Ha], Hb as [->|Hb]; [done|..|by apply IH].
  - exfalso. apply Hx. rewrite Hk. by apply list_elem_of_fmap_2.
  - exfalso. apply Hx. rewrite <-Hk. by apply list_elem_of_fmap_2.
Qed.

Lemma snap_le_antisym u l a b : distinct u l -> a ∈ l -> b ∈ l -> snap_le a b -> snap_le b a -> a = b.
Proof using.
  intros Hd Ha Hb [H1 H1'] [H2 H2']. assert (sn_interface_name a = sn_interface_name b) as Hn by (by apply (anti_symm name_le)).
  eapply distinct_eq; try done. specialize (H1' Hn). specialize (H2' (eq_sym Hn)). lia.
Qed.

(** The cursor splits the order strictly. *)
Lemma after_cursor_spec x y :
  after_cursor (cursor_at x) y = true <-> snap_le x y /\ (sn_interface_name x, sn_snapshot_time x) <> (sn_interface_name y, sn_snapshot_time y).
Proof using.
  unfold after_cursor, name_gt, snap_le. simpl. destruct (String.eqb_spec (sn_interface_name y) (sn_interface_name x)) as [->|Hne]; simpl.
  - rewrite andb_false_r. simpl. rewrite Z.ltb_lt. split.
    + intros Hlt. split; [split; [done|lia]|]. intros [= ?]. lia.
    + intros [[_ H] Hk]. specialize (H eq_refl). assert (sn_snapshot_time x <> sn_snapshot_time y) by congruence. lia.
  - rewrite orb_false_r, andb_true_r, bool_decide_eq_true. split.
    + intros H. split; [split; [done|congruence]|congruence].
    + by intros [[H _] _].
Qed.

Lemma after_cursor_post u pre x post :
  distinct u (pre ++ x :: post) -> StronglySorted snap_le (pre ++ x :: post) ->
  List.filter (after_cursor (cursor_at x)) (pre ++ x :: post) = post.
Proof using.
  intros Hd Hs. rewrite List.filter_app. simpl.
  assert (after_cursor (cursor_at x) x = false) as ->.
  { apply not_true_iff_false. intros [_ H]%after_cursor_spec. done. }
  assert (List.filter (after_cursor (cursor_at x)) pre = []) as ->.
  { clear -Hd Hs. assert (forall y, y ∈ pre -> after_cursor (cursor_at x) y = false) as H.
    { intros y Hy. apply not_true_iff_false. intros [Hle Hk]%after_cursor_spec.
      assert (snap_le y x) as Hyx by (eapply (StronglySorted_app_1_elem_of snap_le); [exact Hs|done|by left]).
      assert (x = y) as ->; [|done]. eapply snap_le_antisym; [exact Hd| | |done|done]; apply elem_of_app; [right; by left|by left]. }
    induction pre as [|y pre IH]; [done|]. simpl. rewrite (H y) by (by left). apply IH.
    - destruct Hd as [Hn Hu]. simpl in Hn. apply list.NoDup_cons in Hn as [_ Hn]. split; [done|]. intros r Hr. apply Hu. by right.
    - by inversion Hs.
    - intros z Hz. apply H. by right. }
  assert (forall z, z ∈ post -> after_cursor (cursor_at x) z = true) as H.
  { intros z Hz. apply after_cursor_spec. apply StronglySorted_app_1_r in Hs. apply StronglySorted_inv in Hs as [_ Hx].
    rewrite Forall_forall in Hx. split; [by apply Hx|]. intros [= Hn Ht].
    assert (x = z) as <-.
    { eapply distinct_eq; [exact Hd| | |done|done]; apply elem_of_app; right; [by left|by right]. }
    destruct Hd as [Hnd _]. rewrite map_app in Hnd. apply NoDup_app in Hnd as (_ & _ & Hnd). simpl in Hnd.
    apply list.NoDup_cons in Hnd as [Hx' _]. apply Hx'. by apply list_elem_of_fmap_2. }
  clear -H. induction post as [|z post IH]; [done|]. simpl. rewrite (H z) by (by left). f_equal. apply IH. intros y Hy. apply H. by right.
Qed.
End order.

Section pages.
Context {T : Type} {tops : TableOps T SnapshotRow} {no : NameOrder}.
Context {tlaws : TableLaws tops snapshot_conflict}.

Definition all_selected (u : Z) (st en : option Z) (d : T) : list SnapshotRow :=
  merge_sort snap_le (List.filter (snapshot_selected u st en) (rows d)).

Lemma selected_distinct u st en (d : T) :
  unique_rows snapshot_conflict (rows d) = true -> distinct u (List.filter (snapshot_selected u st en) (rows d)).
Proof using.
  intros Hu. split.
  - apply (unique_rows_filter snapshot_conflict (snapshot_selected u st en)) in Hu. revert Hu.
    generalize (List.filter (snapshot_selected u st en) (rows d)). intros l. induction l as [|r l IH]; [constructor|].
    rewrite unique_rows_cons. intros [Hr Hl]. simpl. apply list.NoDup_cons. split; [|auto].
    intros (x & Hk & Hx)%list_elem_of_fmap. specialize (Hr x Hx). unfold snapshot_conflict in Hr.
    apply orb_false_iff in Hr as [_ Hr]. by apply bool_decide_eq_false in Hr.
  - intros r [_ Hr]%list_filter_elem. unfold snapshot_selected in Hr. apply andb_true_iff in Hr as [Hr _]. lia.
Qed.

Lemma distinct_perm u l l' : l ≡ₚ l' -> distinct u l -> distinct u l'.
Proof using. intros Hp [H1 H2]. split; [by rewrite <-Hp|]. intros r. rewrite <-Hp. auto. Qed.

Lemma all_selected_distinct u st en (d : T) :
  unique_rows snapshot_conflict (rows d) = true -> distinct u (all_selected u st en d).
Proof using.
  intros H. eapply distinct_perm; [|by apply (selected_distinct u st en d)]. symmetry. apply merge_sort_Permutation.
Qed.

Lemma filter_both {A} (p q : A -> bool) l : List.filter (fun x => p x && q x) l = List.filter q (List.filter p l).
Proof using. induction l as [|x l IH]; simpl; [done|]. destruct (p x); simpl; [by rewrite IH|done]. Qed.

Lemma StronglySorted_filter_bool {A} (R : relation A) (q : A -> bool) l : StronglySorted R l -> StronglySorted R (List.filter q l).
Proof using.
  induction 1 as [|x l Hl IH Hx]; simpl; [constructor|]. destruct (q x); [|done]. constructor; [done|].
  rewrite Forall_forall in *. intros y [Hy _]%list_filter_elem. auto.
Qed.

(** Sorting what the database returns gives the selected rows in order. *)
Lemma sorted_found u st en (d : T) q found :
  unique_rows snapshot_conflict (rows d) = true ->
  found ≡ₚ List.filter (fun r => snapshot_selected u st en r && q r) (rows d) ->
  merge_sort snap_le found = List.filter q (all_selected u st en d).
Proof using.
  intros Hu Hf. pose proof (all_selected_distinct u st en d Hu) as Hd.
  assert (found ≡ₚ List.filter q (all_selected u st en d)) as Hp.
  { rewrite Hf, filter_both. unfold all_selected. by rewrite merge_sort_Permutation. }
  apply (StronglySorted_unique_strong snap_le).
  - intros x1 x2 H1 H2. eapply snap_le_antisym; [exact Hd| |].
    + rewrite merge_sort_Permutation, Hp in H1. by apply list_filter_elem in H1 as [? _].
    + by apply list_filter_elem in H2 as [? _].
  - apply StronglySorted_merge_sort; apply _.
  - apply StronglySorted_filter_bool, StronglySorted_merge_sort; apply _.
  - by rewrite merge_sort_Permutation.
Qed.

Lemma query_detail_run u st en n cursor (d d' : T) r :
  unique_rows snapshot_conflict (rows d) = true -> (0 < n <= MAX_QUERY_LIMIT)%Z ->
  query_detail u st en n cursor d = (d', r) ->
  rows d' = rows d /\
  forall o, r = Ok o ->
    let rem := match cursor with Some c => List.filter (after_cursor c) (all_selected u st en d) | None => all_selected u st en d end in
    o = (map snapshot_item (take (Z.to_nat n) rem),
         if (Z.to_nat n <? length rem)%nat then option_map cursor_at (last (take (Z.to_nat n) rem)) else None).
Proof using tlaws.
  intros Hu Hn. unfold query_detail. rewrite mbind_run. unfold query_stmt. destruct (find_all _ d) as [d1 r1] eqn:E1.
  pose proof (find_all_rows _ _ _ _ E1) as Hr. destruct r1 as [found|]; cbn [map_err]; [|intros [= <- <-]; done].
  apply find_all_ok in E1. apply (sorted_found u st en d) in E1; [|done]. unfold mret. intros [= <- <-]. split; [done|].
  intros o Ho. injection Ho as <-. set (rem := match cursor with Some c => _ | None => _ end).
  assert (merge_sort snap_le found = rem) as ->.
  { rewrite E1. unfold rem. destruct cursor; [done|]. clear. induction (all_selected u st en d); simpl; by f_equal. }
  assert (Z.to_nat (sat_add_u64 n 1) = S (Z.to_nat n)) as ->. { unfold sat_add_u64, MAX_QUERY_LIMIT, u64_max in *. lia. }
  rewrite take_take, Nat.min_l by lia. f_equal. rewrite length_take.
  destruct (Nat.ltb_spec (Z.to_nat n) (length rem)); destruct (Z.ltb_spec n (Z.of_nat (S (Z.to_nat n) `min` length rem))); try done; lia.
Qed.

Lemma read_all_run u st en n : forall fuel cursor (d d' : T) r pre rem,
  unique_rows snapshot_conflict (rows d) = true -> (0 < n <= MAX_QUERY_LIMIT)%Z ->
  all_selected u st en d = pre ++ rem -> cursor = option_map cursor_at (last pre) -> (length rem < fuel)%nat ->
  read_all fuel u st en n cursor d = (d', r) ->
  rows d' = rows d /\ forall o, r = Ok o -> o = Some (map snapshot_item rem).
Proof using tlaws.
  induction fuel as [|fuel IH]; intros cursor d d' r pre rem Hu Hn Hsel Hcur Hfuel; [lia|]. cbn [read_all]. rewrite mbind_run.
  destruct (query_detail u st en n cursor d) as [d1 r1] eqn:E1. apply query_detail_run in E1 as [Hr1 H1]; [|done|done].
  destruct r1 as [[items next]|]; [|intros [= <- <-]; done].
  assert (match cursor with Some c => List.filter (after_cursor c) (all_selected u st en d) | None => all_selected u st en d end = rem) as Hrem.
  { rewrite Hsel. subst cursor. destruct pre as [|x pre] using rev_ind; [done|]. rewrite last_snoc. simpl.
    rewrite <-app_assoc in *. simpl in *. apply (after_cursor_post u).
    - rewrite <-Hsel. by apply all_selected_distinct.
    - rewrite <-Hsel. apply StronglySorted_merge_sort; apply _. }
  specialize (H1 _ eq_refl). cbv zeta in H1. rewrite Hrem in H1. injection H1 as -> ->.
  destruct (Nat.ltb_spec (Z.to_nat n) (length rem)) as [Hlt|Hge].
  - destruct (last (take (Z.to_nat n) rem)) as [x|] eqn:El.
    2:{ apply last_None in El. apply (f_equal length) in El. rewrite length_take in El. simpl in El. lia. }
    cbn [option_map]. rewrite mbind_run. destruct (read_all fuel u st en n (Some (cursor_at x)) d1) as [d2 r2] eqn:E2.
    apply (IH _ _ _ _ (pre ++ take (Z.to_nat n) rem) (drop (Z.to_nat n) rem)) in E2 as [Hr2 H2].
    + destruct r2 as [o2|]; [|intros [= <- <-]; split; [congruence|done]]. intros [= <- <-]. split; [congruence|].
      intros o [= <-]. rewrite (H2 _ eq_refl). simpl. f_equal. rewrite <-map_app. by rewrite take_drop.
    + by rewrite Hr1.
    + done.
    + unfold all_selected in *. rewrite Hr1, <-app_assoc, take_drop. done.
    + rewrite last_app, El. done.
    + rewrite length_drop. lia.
  - intros [= <- <-]. split; [done|]. intros o [= <-]. by rewrite take_ge by lia.
Qed.

(** C30: a client that follows [next_cursor] gets, after at most one page per snapshot and one more, a
    last page, and together the pages are exactly the snapshots of the agent in the period, each
    once, by interface and time. *)
Theorem detail_pages_complete u st en n (d d' : T) r :
  unique_rows snapshot_conflict (rows d) = true -> (0 < n <= MAX_QUERY_LIMIT)%Z ->
  read_all (S (length (List.filter (snapshot_selected u st en) (rows d)))) u st en n None d = (d', r) ->
  rows d' = rows d /\
  forall o, r = Ok o -> exists l, o = Some (map snapshot_item l) /\
    l ≡ₚ List.filter (snapshot_selected u st en) (rows d) /\ StronglySorted snap_le l.
Proof using tlaws.
  intros Hu Hn H. apply (read_all_run _ _ _ _ _ _ _ _ _ [] (all_selected u st en d)) in H as [Hr H]; try done.
  - split; [done|]. intros o Ho. exists (all_selected u st en d). split; [by apply H|]. split; [apply merge_sort_Permutation|].
    apply StronglySorted_merge_sort; apply _.
  - unfold all_selected. rewrite merge_sort_Permutation. lia.
Qed.

(** ** Traffic of a period *)

Lemma min_of_spec f g : g <> [] -> (exists x, x ∈ g /\ min_of f g = f x) /\ forall x, x ∈ g -> (min_of f g <= f x)%Z.
Proof using.
  destruct g as [|r g]; [done|]. intros _. simpl.
  assert (forall m, let v := fold_left (fun m x => Z.min m (f x)) g m in
    (v = m \/ exists x, x ∈ g /\ v = f x) /\ (v <= m)%Z /\ forall x, x ∈ g -> (v <= f x)%Z) as H.
  { clear. induction g as [|y g IH]; intros m; simpl; [split_and!; [by left|done|by intros x ?%not_elem_of_nil]|].
    destruct (IH (Z.min m (f y))) as (H1 & H2 & H3). split_and!.
    - destruct H1 as [->|(x & Hx & ->)]; [|right; exists x; split; [by right|done]].
      destruct (Z.min_spec m (f y)) as [[_ ->]|[_ ->]]; [by left|right; exists y; split; [by left|done]].
    - lia.
    - intros x [->|Hx]%elem_of_cons; [lia|by apply H3]. }
  destruct (H (f r)) as (H1 & H2 & H3). split.
  - destruct H1 as [->|(x & Hx & ->)]; [exists r; split; [by left|done]|exists x; split; [by right|done]].
  - intros x [->|Hx]%elem_of_cons; auto.
Qed.

Lemma max_of_spec f g : g <> [] -> (exists x, x ∈ g /\ max_of f g = f x) /\ forall x, x ∈ g -> (f x <= max_of f g)%Z.
Proof using.
  assert (max_of f g = (- min_of (fun x => - f x) g))%Z as ->.
  { destruct g as [|r g]; [done|]. simpl. assert (forall m, fold_left (fun m x => Z.max m (f x)) g m =
      (- fold_left (fun m x => Z.min m (- f x)) g (- m))%Z) as H; [|by rewrite H].
    clear. induction g as [|y g IH]; intros m; simpl; [lia|]. rewrite IH. do 2 f_equal. lia. }
  intros Hg. destruct (min_of_spec (fun x => (- f x)%Z) g Hg) as [(x & Hx & H1) H2]. split; [exists x; split; [done|lia]|].
  intros y Hy. specialize (H2 y Hy). lia.
Qed.

(** The snapshots of one interface among the selected ones. *)
Definition of_interface (name : string) (l : list SnapshotRow) : list SnapshotRow :=
  List.filter (fun r => String.eqb (sn_interface_name r) name) l.

(** Later totals are not smaller. *)
Definition counts_on (f : SnapshotRow -> Z) (g : list SnapshotRow) : Prop :=
  forall a b, a ∈ g -> b ∈ g -> (sn_snapshot_time a <= sn_snapshot_time b)%Z -> (f a <= f b)%Z.

Definition in_range (f : SnapshotRow -> Z) (g : list SnapshotRow) : Prop := forall a, a ∈ g -> (0 <= f a <= i64_max)%Z.

Lemma moved f g a b :
  in_range f g -> counts_on f g -> a ∈ g -> b ∈ g ->
  sn_snapshot_time a = min_of sn_snapshot_time g -> sn_snapshot_time b = max_of sn_snapshot_time g ->
  cast_unsigned64 (sat_sub_i64 (max_of f g) (min_of f g)) = (f b - f a)%Z.
Proof using.
  intros Hr Hc Ha Hb Hta Htb. assert (g <> []) as Hne by (intros ->; by apply not_elem_of_nil in Ha).
  destruct (min_of_spec f g Hne) as [(x & Hx & Hmin) Hlo]. destruct (max_of_spec f g Hne) as [(y & Hy & Hmax) Hhi].
  destruct (min_of_spec sn_snapshot_time g Hne) as [_ Htlo]. destruct (max_of_spec sn_snapshot_time g Hne) as [_ Hthi].
  assert (f a <= f x)%Z as H1. { apply Hc; try done. rewrite Hta. auto. }
  assert (f y <= f b)%Z as H2. { apply Hc; try done. rewrite Htb. auto. }
  assert (min_of f g = f a) as -> by (pose proof (Hlo a Ha); lia).
  assert (max_of f g = f b) as -> by (pose proof (Hhi b Hb); lia).
  pose proof (Hr a Ha). pose proof (Hr b Hb). pose proof (Hhi a Ha).
  assert (f a <= f b)%Z as H4. { apply Hc; try done. rewrite Hta, Htb. destruct (max_of_spec sn_snapshot_time g Hne) as [_ H5]. rewrite <-Hta. auto. }
  unfold sat_sub_i64. rewrite Z.max_r, Z.min_r by (unfold i64_min, i64_max in *; lia).
  unfold cast_unsigned64. destruct (Z.leb_spec 0 (f b - f a)); lia.
Qed.

Lemma sorted_sublist {A} (R : relation A) l l' : l `sublist_of` l' -> StronglySorted R l' -> StronglySorted R l.
Proof using.
  induction 1 as [|x l l' Hs IH|x l l' Hs IH]; intros H; [done| |]; apply StronglySorted_inv in H as [H Hx]; [|auto].
  constructor; [auto|]. rewrite Forall_forall in *. intros y Hy. apply Hx. by eapply sublist_subseteq.
Qed.

Lemma groups_elem l n g : (n, g) ∈ groups l <-> n ∈ map sn_interface_name l /\ g = of_interface n l.
Proof using.
  unfold groups, of_interface. rewrite list_elem_of_fmap. setoid_rewrite merge_sort_Permutation. setoid_rewrite elem_of_remove_dups. split.
  - intros (n' & [= -> ->] & Hn). done.
  - intros [Hn ->]. by exists n.
Qed.

Lemma groups_names l : NoDup (map fst (groups l)) /\ StronglySorted name_le (map fst (groups l)).
Proof using.
  unfold groups. rewrite map_map. simpl. rewrite map_id. split.
  - rewrite merge_sort_Permutation. apply NoDup_remove_dups.
  - apply StronglySorted_merge_sort; apply _.
Qed.

(** the traffic of a period lists, once each and in order, exactly the interfaces with at least two
    snapshots in it; as long as the stored totals of an interface are not negative and never
    decrease, its figures are the totals of its last snapshot minus those of its first. *)
Theorem period_traffic u st en (d d' : T) items :
  query_total u st en d = (d', Ok items) ->
  let sel := List.filter (snapshot_selected u st en) (rows d) in
  rows d' = rows d /\
  NoDup (map it_interface_name items) /\ StronglySorted name_le (map it_interface_name items) /\
  (forall name, name ∈ map it_interface_name items <-> (2 <= length (of_interface name sel))%nat) /\
  forall it, it ∈ items -> let g := of_interface (it_interface_name it) sel in
    (exists a b, a ∈ g /\ b ∈ g /\ sn_snapshot_time a = it_first_snapshot_time it /\ sn_snapshot_time b = it_last_snapshot_time it) /\
    (forall a b, a ∈ g -> b ∈ g -> sn_snapshot_time a = it_first_snapshot_time it -> sn_snapshot_time b = it_last_snapshot_time it ->
       (in_range sn_total_received g -> counts_on sn_total_received g ->
        it_received it = sn_total_received b - sn_total_received a)%Z /\
       (in_range sn_total_transmitted g -> counts_on sn_total_transmitted g ->
        it_transmitted it = sn_total_transmitted b - sn_total_transmitted a)%Z).
Proof using tlaws.
  cbv zeta. set (sel := List.filter (snapshot_selected u st en) (rows d)).
  unfold query_total. rewrite mbind_run. unfold query_stmt. destruct (find_all _ d) as [d1 r1] eqn:E1.
  pose proof (find_all_rows _ _ _ _ E1) as Hr. destruct r1 as [found|]; cbn [map_err]; [|done]. apply find_all_ok in E1.
  set (kept := List.filter (fun g => (2 <=? length g.2)%nat) (groups found)). intros H.
  assert (d' = d1 /\ items = map interface_item kept) as [-> ->].
  { destruct (map interface_item kept) eqn:Ek; [done|]. by injection H as <- <-. }
  split; [done|].
  assert (map it_interface_name (map interface_item kept) = map fst kept) as ->.
  { rewrite map_map. apply map_ext. done. }
  assert (sublist (map fst kept) (map fst (groups found))) as Hsub.
  { unfold kept. clear. induction (groups found) as [|g l IH]; [constructor|]. cbn [List.filter map].
    destruct (2 <=? length g.2)%nat; cbn [map]; [by apply sublist_skip|by apply sublist_cons]. }
  destruct (groups_names found) as [Hnd Hss]. split; [exact (sublist_NoDup _ _ Hnd Hsub)|].
  split; [by eapply sorted_sublist|].
  assert (forall name, of_interface name found ≡ₚ of_interface name sel) as Hperm by (intros name; unfold of_interface; by rewrite E1).
  split.
  - intros name. rewrite list_elem_of_fmap. split.
    + intros ([n g] & -> & [Hg Hlen]%list_filter_elem). apply groups_elem in Hg as [_ ->]. cbn [fst snd] in *. rewrite <-Hperm.
      by apply Nat.leb_le.
    + intros Hlen. exists (name, of_interface name found). split; [done|]. apply list_filter_elem. split.
      * apply groups_elem. split; [|done]. rewrite <-Hperm in Hlen. destruct (of_interface name found) as [|r l] eqn:El; [simpl in Hlen; lia|].
        assert (r ∈ of_interface name found) as [Hin <-%String.eqb_eq]%list_filter_elem by (rewrite El; by left). by apply list_elem_of_fmap_2.
      * apply Nat.leb_le. cbn [snd]. by rewrite Hperm.
  - intros it ([n g] & -> & [Hg Hlen]%list_filter_elem)%list_elem_of_fmap. apply groups_elem in Hg as [_ ->].
    apply Nat.leb_le in Hlen. cbn [fst snd interface_item it_interface_name it_first_snapshot_time it_last_snapshot_time it_received it_transmitted] in *. assert (of_interface n found <> []) as Hne by (intros Hz; rewrite Hz in Hlen; simpl in Hlen; lia).
    assert (forall f, in_range f (of_interface n sel) -> in_range f (of_interface n found)) as Hrange.
    { intros f Hf a. rewrite Hperm. apply Hf. }
    assert (forall f, counts_on f (of_interface n sel) -> counts_on f (of_interface n found)) as Hcount.
    { intros f Hf a b. rewrite !Hperm. apply Hf. }
    destruct (min_of_spec sn_snapshot_time _ Hne) as [(a & Ha & Hta) _]. destruct (max_of_spec sn_snapshot_time _ Hne) as [(b & Hb & Htb) _].
    rewrite Hperm in Ha, Hb. split; [by exists a, b|].
    intros a' b' Ha' Hb' Hta' Htb'. rewrite <-Hperm in Ha', Hb'. split; intros H1 H2; apply moved; auto.
Qed.
End pages.

(** ** Examples *)

#[global] Instance byte_names : NameOrder := {| name_le := String.le |}.

Definition row3 (id : Z) (name : string) (time received : Z) : SnapshotRow := snapshot_row 1 (snap 1%N name time received) id.
Definition three_pages : ListTable SnapshotRow :=
  {| tbl := [row3 1 "eth0" 2000 230; row3 2 "eth0" 1000 150; row3 3 "eth1" 1500 10; row3 4 "eth0" 0 100]; next_id := 5; outages := [] |}.

Lemma detail_pages_complete_witness :
  exists d' l, read_all 5 1 None None 2 None three_pages = (d', Ok (Some (map snapshot_item l))) /\
    l ≡ₚ List.filter (snapshot_selected 1 None None) (rows three_pages) /\ StronglySorted snap_le l.
Proof.
  destruct (read_all 5 1 None None 2 None three_pages) as [d' r] eqn:E.
  assert (exists o, r = Ok o) as [o ->].
  { assert (r = (read_all 5 1 None None 2 None three_pages).2) as -> by (by rewrite E). vm_compute. eexists. reflexivity. }
  assert (unique_rows snapshot_conflict (rows three_pages) = true) as Hu by (vm_compute; reflexivity).
  assert (0 < 2 <= MAX_QUERY_LIMIT)%Z as Hn by (vm_compute; split; [reflexivity|discriminate]).
  destruct (detail_pages_complete 1 None None 2 three_pages d' (Ok o) Hu Hn E) as [_ H].
  destruct (H o eq_refl) as (l & -> & Hl & Hs). exists d', l. split; [reflexivity|]. split; [exact Hl|exact Hs].
Defined.

Lemma period_traffic_witness :
  exists d' items, query_total 1 None None three_pages = (d', Ok items) /\ map it_interface_name items = ["eth0"%string] /\
    forall it, it ∈ items -> exists a b, a ∈ of_interface (it_interface_name it) (List.filter (snapshot_selected 1 None None) (rows three_pages)) /\
      b ∈ of_interface (it_interface_name it) (List.filter (snapshot_selected 1 None None) (rows three_pages)) /\
      sn_snapshot_time a = it_first_snapshot_time it /\ sn_snapshot_time b = it_last_snapshot_time it.
Proof.
  destruct (query_total 1 None None three_pages) as [d' r] eqn:E.
  assert (exists items, r = Ok items /\ map it_interface_name items = ["eth0"%string]) as (items & -> & Hn).
  { assert (r = (query_total 1 None None three_pages).2) as -> by (by rewrite E). vm_compute. eexists. split; reflexivity. }
  exists d', items. split; [reflexivity|]. split; [exact Hn|]. intros it Hit.
  exact (proj1 (proj2 (proj2 (proj2 (proj2 (period_traffic 1 None None three_pages d' items E)))) it Hit)).
Defined.
