(* ===== verification/TrafficCurrent.v ===== *)
(** * Current traffic

    [ng-monitoring/src/rpc/agent/query_traffic_current.rs]: the running totals in memory with
    the time of the newest stored snapshot of each interface. *)
From stdpp Require Import base strings gmap list numbers sorting.
From S2P Require Import Prelude Errors Db Permission TokenCache Concrete TokenCheck KvAuth UuidCache Selection Traffic TrafficFlush MonDelete Snapshots SnapshotQuery SnapshotPages.

Definition UUID_ID_CHUNK : nat := 500.

Record InterfaceCurrentTrafficItem : Type := {
  ci_interface_name : string; ci_total_received : Z; ci_total_transmitted : Z; ci_updated_at : Z;
  ci_last_snapshot_time : option Z }.

(** The first of each. *)
Fixpoint dedupe (seen : gset Uuid) (uuids : list Uuid) : list Uuid :=
  match uuids with
  | [] => []
  | u :: us => if bool_decide (u ∈ seen) then dedupe seen us else u :: dedupe ({[u]} ∪ seen) us
  end.
Definition dedupe_uuids (uuids : list Uuid) : list Uuid := dedupe ∅ uuids.

Definition select_totals (totals : list InterfaceCurrentTotal) (wanted : option (gset Z)) (resolve : Z -> option Uuid) :
    list (Uuid * InterfaceCurrentTotal) :=
  flat_map (fun total => match resolve (ct_uuid_id total) with Some uuid => [(uuid, total)] | None => [] end)
    (List.filter (fun total => match wanted with Some w => bool_decide (ct_uuid_id total ∈ w) | None => true end) totals).

#[local] Notation LastTimes := (gmap IfKey Z).

(** One row of the grouped SELECT: an agent, an interface and the newest time. *)
Definition group_of (found : list SnapshotRow) (k : IfKey) : list SnapshotRow :=
  List.filter (fun r => bool_decide ((sn_uuid_id r, sn_interface_name r) = k)) found.
Definition add_times (times : LastTimes) (found : list SnapshotRow) : LastTimes :=
  fold_left (fun t k => <[k := max_of sn_snapshot_time (group_of found k)]> t)
    (remove_dups (map (fun r => (sn_uuid_id r, sn_interface_name r) : IfKey) found)) times.

Definition current_item (last_snapshots : LastTimes) (total : InterfaceCurrentTotal) : InterfaceCurrentTrafficItem := {|
  ci_interface_name := ct_interface_name total; ci_total_received := ct_total_received total;
  ci_total_transmitted := ct_total_transmitted total; ci_updated_at := ct_updated_at total;
  ci_last_snapshot_time := last_snapshots !! (ct_uuid_id total, ct_interface_name total) |}.

Definition push_item (last_snapshots : LastTimes) (devices : gmap Uuid (list InterfaceCurrentTrafficItem))
    (x : Uuid * InterfaceCurrentTotal) : gmap Uuid (list InterfaceCurrentTrafficItem) :=
  <[x.1 := default [] (devices !! x.1) ++ [current_item last_snapshots x.2]]> devices.

Definition item_le (a b : InterfaceCurrentTrafficItem) : Prop := String.le (ci_interface_name a) (ci_interface_name b).
#[global] Instance item_le_dec : RelDecision item_le.
Proof. intros a b. unfold item_le. apply _. Defined.
Definition device_le (a b : Uuid * list InterfaceCurrentTrafficItem) : Prop := N.le a.1 b.1.
#[global] Instance device_le_dec : RelDecision device_le.
Proof. intros a b. unfold device_le. apply _. Defined.

(** The devices of a [BTreeMap<Uuid, _>], their interfaces sorted by name. *)
Definition assemble (selected : list (Uuid * InterfaceCurrentTotal)) (last_snapshots : LastTimes) :
    list (Uuid * list InterfaceCurrentTrafficItem) :=
  map (fun d => (d.1, merge_sort item_le d.2))
    (merge_sort device_le (map_to_list (fold_left (push_item last_snapshots) selected ∅))).

Section current.
Context {T : Type} {tops : TableOps T SnapshotRow} {crypto : Crypto} {serde : Serde} {ho : HashOrder}.
Variable id_order : list Z -> list Z.
Variable e : Env.

Fixpoint last_snapshot_loop (chunks : list (list Z)) (times : LastTimes) : M T anyhow LastTimes :=
  match chunks with
  | [] => mret times
  | chunk :: rest =>
      let! found := (fun d => let '(d', r) := find_all (fun r => bool_decide (sn_uuid_id r ∈ chunk)) d in
        (d', map_err (fun err => OfNodeget (DatabaseError ("traffic current query: " +:+ db_msg err))) r)) in
      last_snapshot_loop rest (add_times times found)
  end.
Definition last_snapshot_times (uuid_ids : list Z) : M T anyhow LastTimes :=
  last_snapshot_loop (chunks UUID_ID_CHUNK uuid_ids) ∅.

Definition active_uuid (c : MonitoringUuidCacheInner) (uuid_id : Z) : option Uuid :=
  match get_uuid c uuid_id with Some u => if is_active c u then Some u else None | None => None end.

Definition query_traffic_current (token : string) (cache : option MonitoringUuidCacheInner) (stats : option State)
    (uuids : option (list Uuid)) : M (option T) anyhow (list (Uuid * list InterfaceCurrentTrafficItem)) :=
  let! t := lift (parse_token token) in
  let requested := option_map dedupe_uuids uuids in
  match requested with
  | Some [] => mret []
  | _ =>
      let scopes := match requested with Some us => map Scope_AgentUuid us | None => [Scope_Global] end in
      let! _ := lift (require_allowed (check_token_limit (e_globals e) (e_clock e) t scopes
                                         [P_DynamicMonitoring (DynamicMonitoring_Read DField_Network)])
                        "Permission Denied: Missing DynamicMonitoring Read(network) permission") in
      let! c := lift (directory cache) in
      let wanted := option_map (fun us => list_to_set (flat_map (fun u => match get_id c u with Some i => [i] | None => [] end) us) : gset Z)
                      requested in
      let! s := lift (ok_or (OfNodeget (ConfigNotFound "TrafficStats not initialized")) stats) in
      let selected := select_totals (current_totals s) wanted (active_uuid c) in
      fun db =>
        match db with
        | None => (None, Err (OfNodeget (DatabaseError "DB not initialized")))
        | Some d =>
            let uuid_ids := id_order (remove_dups (map (fun x => ct_uuid_id x.2) selected)) in
            let '(d', r) := last_snapshot_times uuid_ids d in
            (Some d', let? last_snapshots := r in Ok (assemble selected last_snapshots))
        end
  end.
End current.

(** ** Assembling *)

Lemma push_lookup times selected : forall m u,
  default [] (fold_left (push_item times) selected m !! u) =
  default [] (m !! u) ++ map (fun x => current_item times x.2) (List.filter (fun x => bool_decide (x.1 = u)) selected).
Proof.
  induction selected as [|[v t] selected IH]; intros m u; simpl; [by rewrite app_nil_r|]. rewrite IH. unfold push_item. simpl.
  destruct (decide (v = u)) as [->|Hne].
  - rewrite lookup_insert_eq, bool_decide_true by done. simpl. by rewrite <-app_assoc.
  - rewrite lookup_insert_ne, bool_decide_false by done. done.
Qed.

Lemma push_dom times selected : forall m u,
  is_Some (fold_left (push_item times) selected m !! u) <-> is_Some (m !! u) \/ u ∈ map fst selected.
Proof.
  induction selected as [|[v t] selected IH]; intros m u; simpl.
  { split; [by left|]. intros [?|?%not_elem_of_nil]; done. }
  rewrite IH. unfold push_item. simpl. rewrite elem_of_cons. destruct (decide (v = u)) as [->|Hne].
  - rewrite lookup_insert_eq. split; [by right; left|]. intros _. left. by eexists.
  - rewrite lookup_insert_ne by done. split; [intros [?|?]; [by left|right; by right]|]. intros [?|[?|?]]; [by left|congruence|by right].
Qed.

#[global] Instance device_le_total : Total device_le.
Proof. intros a b. unfold device_le. lia. Qed.
#[global] Instance device_le_trans : Transitive device_le.
Proof. intros a b c. unfold device_le. lia. Qed.
#[global] Instance item_le_total : Total item_le.
Proof. intros a b. apply (total String.le). Qed.
#[global] Instance item_le_trans : Transitive item_le.
Proof. intros a b c. apply (transitivity (R := String.le)). Qed.

Lemma assemble_spec selected times :
  NoDup (map fst (assemble selected times)) /\ StronglySorted N.le (map fst (assemble selected times)) /\
  (forall u, u ∈ map fst (assemble selected times) <-> u ∈ map fst selected) /\
  forall u items, (u, items) ∈ assemble selected times ->
    StronglySorted item_le items /\
    items ≡ₚ map (fun x => current_item times x.2) (List.filter (fun x => bool_decide (x.1 = u)) selected).
Proof.
  unfold assemble. set (m := fold_left (push_item times) selected ∅). rewrite map_map. simpl.
  assert (map fst (merge_sort device_le (map_to_list m)) ≡ₚ (map_to_list m).*1) as Hp by (by rewrite merge_sort_Permutation).
  split_and!.
  - change (NoDup (map fst (merge_sort device_le (map_to_list m)))). rewrite Hp. apply NoDup_fst_map_to_list.
  - assert (StronglySorted device_le (merge_sort device_le (map_to_list m))) as Hs by (apply StronglySorted_merge_sort; apply _).
    clear -Hs. induction Hs as [|x l Hs IH Hx]; simpl; [constructor|]. constructor; [done|]. apply Forall_fmap. exact Hx.
  - intros u. change (u ∈ map fst (merge_sort device_le (map_to_list m)) <-> u ∈ map fst selected). rewrite Hp.
    rewrite list_elem_of_fmap. split.
    + intros ([u' items] & -> & Hin%elem_of_map_to_list). simpl. assert (is_Some (m !! u')) as Hs by eauto.
      apply push_dom in Hs as [[? Hs]|?]; [by rewrite lookup_empty in Hs|done].
    + intros Hu. destruct (proj2 (push_dom times selected ∅ u) (or_intror Hu)) as [items Hi]. exists (u, items). split; [done|].
      by apply elem_of_map_to_list.
  - intros u items ([u' l] & [= -> ->] & Hin)%list_elem_of_fmap. simpl in *. rewrite merge_sort_Permutation in Hin.
    apply elem_of_map_to_list in Hin. split; [apply StronglySorted_merge_sort; apply _|]. rewrite merge_sort_Permutation.
    pose proof (push_lookup times selected ∅ u') as H. unfold m in Hin. rewrite Hin in H. simpl in H. by rewrite H.
Qed.

(** ** The newest stored snapshots *)

Definition newest_time (l : list SnapshotRow) (k : IfKey) : option Z :=
  match group_of l k with [] => None | g => Some (max_of sn_snapshot_time g) end.

Lemma group_none l k : k ∉ map (fun r => (sn_uuid_id r, sn_interface_name r)) l -> group_of l k = [].
Proof.
  unfold group_of. induction l as [|r l IH]; simpl; [done|]. intros [Hne Hl]%not_elem_of_cons.
  rewrite bool_decide_false by congruence. auto.
Qed.

Lemma group_some l k : k ∈ map (fun r => (sn_uuid_id r, sn_interface_name r)) l -> group_of l k <> [].
Proof.
  intros (r & -> & Hr)%list_elem_of_fmap Hnil.
  assert (r ∈ group_of l (sn_uuid_id r, sn_interface_name r)) as Hin.
  { apply list_filter_elem. split; [done|]. by apply bool_decide_eq_true. }
  rewrite Hnil in Hin. by apply not_elem_of_nil in Hin.
Qed.

Lemma add_times_lookup found times k :
  add_times times found !! k = match newest_time found k with Some t => Some t | None => times !! k end.
Proof.
  unfold add_times, newest_time.
  assert (forall ks (times : LastTimes), fold_left (fun t k => <[k := max_of sn_snapshot_time (group_of found k)]> t) ks times !! k =
    if bool_decide (k ∈ ks) then Some (max_of sn_snapshot_time (group_of found k)) else times !! k) as H.
  { clear. induction ks as [|k' ks IH]; intros times; simpl; [done|]. rewrite IH.
    destruct (decide (k' = k)) as [->|Hne].
    - rewrite lookup_insert_eq, (bool_decide_true (k ∈ k :: ks)) by (by left). by destruct (bool_decide _).
    - rewrite lookup_insert_ne by done. by rewrite (bool_decide_ext (k ∈ k' :: ks) (k ∈ ks)) by (rewrite elem_of_cons; naive_solver). }
  rewrite H. case_bool_decide as Hk; rewrite elem_of_remove_dups in Hk.
  - pose proof (group_some _ _ Hk). by destruct (group_of found k).
  - by rewrite (group_none _ _ Hk).
Qed.

Section thms.
Context {T : Type} {tops : TableOps T SnapshotRow} {crypto : Crypto} {serde : Serde} {ho : HashOrder}.
Context {tlaws : TableLaws tops snapshot_conflict}.
Variables (id_order : list Z -> list Z) (e : Env).
Context (id_order_perm : forall l, id_order l ≡ₚ l).

Lemma max_of_perm f g g' : g ≡ₚ g' -> max_of f g = max_of f g'.
Proof using.
  intros Hp. destruct (decide (g = [])) as [->|Hne]; [by apply Permutation_nil_l in Hp as ->|].
  assert (g' <> []) as Hne' by (intros ->; by apply Permutation_nil_r in Hp).
  destruct (max_of_spec f g Hne) as [(x & Hx & Ex) Hle]. destruct (max_of_spec f g' Hne') as [(y & Hy & Ey) Hle'].
  apply Z.le_antisymm; [rewrite Ex; apply Hle'; by rewrite <-Hp|rewrite Ey; apply Hle; by rewrite Hp].
Qed.

Lemma newest_time_perm l l' k : l ≡ₚ l' -> newest_time l k = newest_time l' k.
Proof using.
  intros Hp. unfold newest_time. assert (group_of l k ≡ₚ group_of l' k) as Hg by (unfold group_of; by rewrite Hp).
  destruct (group_of l k) as [|a g].
  - by apply Permutation_nil_l in Hg as <-.
  - destruct (group_of l' k) as [|b g'] eqn:E; [by apply Permutation_nil_r in Hg|]. f_equal. by apply max_of_perm.
Qed.

Lemma times_loop_run cs : forall times d d' r,
  last_snapshot_loop cs times d = (d', r) ->
  rows d' = rows d /\ forall m, r = Ok m -> forall k, m !! k =
    if bool_decide (k.1 ∈ concat cs) then match newest_time (rows d) k with Some t => Some t | None => times !! k end else times !! k.
Proof using tlaws.
  induction cs as [|c cs IH]; intros times d d' r; cbn [last_snapshot_loop concat].
  { intros [= <- <-]. split; [done|]. by intros m [= <-] k. }
  rewrite mbind_run. destruct (find_all _ d) as [d1 r1] eqn:E1. pose proof (find_all_rows _ _ _ _ E1) as Hr.
  destruct r1 as [found|]; cbn [map_err]; [|intros [= <- <-]; done]. apply find_all_ok in E1.
  intros [Hr2 H2]%IH. split; [congruence|]. intros m Hm k. rewrite (H2 m Hm k), Hr, add_times_lookup.
  rewrite (newest_time_perm _ _ k E1).
  assert (newest_time (List.filter (fun r0 => bool_decide (sn_uuid_id r0 ∈ c)) (rows d)) k =
          if bool_decide (k.1 ∈ c) then newest_time (rows d) k else None) as ->.
  { unfold newest_time. assert (group_of (List.filter (fun r0 => bool_decide (sn_uuid_id r0 ∈ c)) (rows d)) k =
      if bool_decide (k.1 ∈ c) then group_of (rows d) k else []) as ->; [|by case_bool_decide].
    unfold group_of. clear. induction (rows d) as [|x l IHl]; simpl; [by case_bool_decide|].
    destruct (bool_decide (sn_uuid_id x ∈ c)) eqn:Ex; simpl; rewrite IHl; destruct (bool_decide ((sn_uuid_id x, sn_interface_name x) = k)) eqn:Ek;
      try done; apply bool_decide_eq_true in Ek; subst k; simpl; by rewrite Ex. }
  rewrite (bool_decide_ext (k.1 ∈ c ++ concat cs) (k.1 ∈ c \/ k.1 ∈ concat cs)) by apply elem_of_app.
  destruct (decide (k.1 ∈ c)) as [Hc|Hc], (decide (k.1 ∈ concat cs)) as [Hcs|Hcs];
    rewrite ?(bool_decide_true (k.1 ∈ c)), ?(bool_decide_false (k.1 ∈ c)), ?(bool_decide_true (k.1 ∈ concat cs)),
      ?(bool_decide_false (k.1 ∈ concat cs)), ?(bool_decide_true (_ \/ _)), ?(bool_decide_false (_ \/ _)) by tauto;
    destruct (newest_time (rows d) k); done.
Qed.

(** What one interface is reported with. *)
Definition reported (s : State) (l : list SnapshotRow) (uuid_id : Z) (name : string) (reading : NetworkInterfaceReading) :
    InterfaceCurrentTrafficItem := {|
  ci_interface_name := name; ci_total_received := received (total_of s (uuid_id, name));
  ci_total_transmitted := transmitted (total_of s (uuid_id, name)); ci_updated_at := updated_at reading;
  ci_last_snapshot_time := newest_time l (uuid_id, name) |}.

Lemma selected_elem s wanted c u t :
  (u, t) ∈ select_totals (current_totals s) wanted (active_uuid c) <->
  exists uuid_id name reading, prev_readings s !! (uuid_id, name) = Some reading /\ active_uuid c uuid_id = Some u /\
    match wanted with Some w => uuid_id ∈ w | None => True end /\
    t = {| ct_uuid_id := uuid_id; ct_interface_name := name; ct_total_received := received (total_of s (uuid_id, name));
           ct_total_transmitted := transmitted (total_of s (uuid_id, name)); ct_updated_at := updated_at reading |}.
Proof using.
  unfold select_totals, current_totals. rewrite list_elem_of_In, in_flat_map. split.
  - intros (x & [Hx Hw]%filter_In & Hu). apply in_map_iff in Hx as ([[i n] rd] & <- & Hin%list_elem_of_In). apply hash_iter_elem in Hin.
    simpl in *. destruct (active_uuid c i) as [v|] eqn:Ev; [|done]. destruct Hu as [[= -> <-]|[]]. exists i, n, rd. split_and!; try done.
    destruct wanted; [by apply bool_decide_eq_true in Hw|done].
  - intros (i & n & rd & Hr & Hu & Hw & ->). eexists. split; [apply filter_In; split; [apply in_map_iff; exists ((i, n), rd); split; [done|]|]|].
    + apply list_elem_of_In. by apply hash_iter_elem.
    + destruct wanted; [by apply bool_decide_eq_true|done].
    + simpl. rewrite Hu. by left.
Qed.

(** Each device comes once, in the order of the UUIDs; its interfaces are those of the agent
    in memory, active and asked for, with the running totals and the time of the newest stored
    snapshot. *)
Theorem current_traffic_spec token cache s uuids d db' devices :
  query_traffic_current id_order e token cache (Some s) uuids (Some d) = (db', Ok devices) ->
  uuids <> Some [] ->
  exists d' c, db' = Some d' /\ rows d' = rows d /\ cache = Some c /\
  NoDup (map fst devices) /\ StronglySorted N.le (map fst devices) /\
  forall u items it, (u, items) ∈ devices -> (it ∈ items <->
    exists uuid_id name reading, prev_readings s !! (uuid_id, name) = Some reading /\ active_uuid c uuid_id = Some u /\
      match uuids with Some us => exists v, v ∈ us /\ get_id c v = Some uuid_id | None => True end /\
      it = reported s (rows d) uuid_id name reading).
Proof using tlaws id_order_perm.
  intros H Hne. unfold query_traffic_current in H. rewrite mbind_lift in H. destruct (parse_token token) as [t|]; [|done].
  assert (forall us seen u, u ∈ dedupe seen us <-> u ∈ us /\ u ∉ seen) as Hded.
  { clear. induction us as [|v us IH]; intros seen u; simpl; [split; [by intros ?%not_elem_of_nil|by intros [?%not_elem_of_nil _]]|].
    case_bool_decide; rewrite ?elem_of_cons, IH; [|rewrite not_elem_of_union, not_elem_of_singleton].
    - split; [naive_solver|]. intros [[->|?] ?]; [done|naive_solver].
    - destruct (decide (u = v)) as [->|]; naive_solver. }
  assert (option_map dedupe_uuids uuids <> Some []) as Hreq.
  { destruct uuids as [[|v us]|]; [done| |done]. simpl. unfold dedupe_uuids. simpl. done. }
  set (requested := option_map dedupe_uuids uuids) in *.
  set (scopes := match requested with Some us => map Scope_AgentUuid us | None => [Scope_Global] end) in *.
  assert (forall A (x y : A), match requested with Some [] => x | _ => y end = y) as Hm.
  { intros A x y. destruct requested as [[|]|]; done. }
  rewrite Hm in H. clear Hm. rewrite mbind_lift in H. destruct (require_allowed _ _) as [[]|]; [|done].
  rewrite mbind_lift in H. destruct cache as [c|]; [|done]. cbn [directory ok_or] in H. rewrite mbind_lift in H. cbn [ok_or] in H.
  set (wanted := option_map _ requested) in H. set (selected := select_totals _ _ _) in H.
  unfold last_snapshot_times in H. destruct (last_snapshot_loop _ ∅ d) as [d1 r1] eqn:E1.
  apply times_loop_run in E1 as [Hr1 H1]. destruct r1 as [times|]; [|done]. cbn [rbind] in H. injection H as <- <-. specialize (H1 _ eq_refl).
  rewrite chunks_concat in H1 by (unfold UUID_ID_CHUNK; lia).
  destruct (assemble_spec selected times) as (Hnd & Hss & _ & Hitems). exists d1, c. split_and!; try done.
  intros u items it Hdev. destruct (Hitems u items Hdev) as [_ ->]. clear Hitems Hnd Hss Hdev.
  assert (forall i, match wanted with Some w => i ∈ w | None => True end <->
    match uuids with Some us => exists v, v ∈ us /\ get_id c v = Some i | None => True end) as Hwant.
  { intros i. unfold wanted, requested. destruct uuids as [us|]; [|done]. simpl. rewrite elem_of_list_to_set, list_elem_of_In, in_flat_map. split.
    - intros (v & Hv%list_elem_of_In & Hi). unfold dedupe_uuids in Hv. apply Hded in Hv as [Hv _]. exists v. split; [done|].
      destruct (get_id c v); [|done]. by destruct Hi as [->|[]].
    - intros (v & Hv & Hi). exists v. split; [apply list_elem_of_In, Hded; split; [done|apply not_elem_of_empty]|]. rewrite Hi. by left. }
  assert (forall x, x ∈ selected -> current_item times x.2 =
    {| ci_interface_name := ct_interface_name x.2; ci_total_received := ct_total_received x.2; ci_total_transmitted := ct_total_transmitted x.2;
       ci_updated_at := ct_updated_at x.2; ci_last_snapshot_time := newest_time (rows d) (ct_uuid_id x.2, ct_interface_name x.2) |}) as Hitem.
  { intros x Hx. unfold current_item. f_equal. rewrite H1. simpl. rewrite bool_decide_true.
    - destruct (newest_time _ _); [done|apply lookup_empty].
    - rewrite id_order_perm. apply elem_of_remove_dups. by apply (list_elem_of_fmap_2 (fun x => ct_uuid_id x.2)). }
  rewrite list_elem_of_fmap. split.
  - intros ([v tt] & -> & [Hin Hv%bool_decide_eq_true]%list_filter_elem). simpl in Hv. subst v. rewrite (Hitem _ Hin).
    unfold selected in Hin. apply selected_elem in Hin as (i & n & rd & Hrd & Hu & Hw & ->). exists i, n, rd. split_and!; try done. by apply Hwant.
  - intros (i & n & rd & Hrd & Hu & Hw & ->). eexists (u, _).
    assert ((u, {| ct_uuid_id := i; ct_interface_name := n; ct_total_received := received (total_of s (i, n));
      ct_total_transmitted := transmitted (total_of s (i, n)); ct_updated_at := updated_at rd |}) ∈ selected) as Hin.
    { apply selected_elem. exists i, n, rd. split_and!; try done. by apply Hwant. }
    split; [|apply list_filter_elem; split; [exact Hin|by apply bool_decide_eq_true]]. by rewrite (Hitem _ Hin).
Qed.
End thms.
