(* ===== verification/MonQuery.v ===== *)
(** * Queries of monitoring data

    [query_static.rs], [query_dynamic.rs], [query_dynamic_summary.rs] and their [_multi_last]
    variants in [ng-monitoring/src/rpc/agent], with [rename_and_fix_json] of
    [ng-core/src/utils/server_json.rs].  A query selects columns of rows by conditions and
    streams the rows, as the driver renders them in JSON, into an array; a [multi_last] method
    takes what it can from the cache of latest values and the rest from one [UNION ALL]. *)
From stdpp Require Import base strings gmap list numbers sorting.
From S2P Require Import Prelude Errors Json Db Permission TokenCache TokenCheck KvAuth UuidCache LastCache Reports Selection MonDelete JsRun SnapshotQuery.

(** ** Reading rows as a stream *)

Inductive StreamErr : Type := QueryFailed (err : DbErr) | ReadFailed (err : DbErr).

Definition stream_error (err : StreamErr) : anyhow :=
  OfNodeget (DatabaseError match err with
    | QueryFailed err => "Database query error: " +:+ db_msg err
    | ReadFailed err => "Stream read error: " +:+ db_msg err
    end).

Inductive SortOrder : Type := Asc | Desc.

Class StreamOps (D Row : Type) : Type := {
  (** [SELECT ... WHERE p ORDER BY timestamp o LIMIT n] *)
  select_rows : (Row -> bool) -> SortOrder -> Z -> M D StreamErr (list Row);
  (** [UNION ALL] over the given agents of [SELECT ... WHERE uuid_id = a ORDER BY timestamp DESC LIMIT 1] *)
  select_last : list Z -> M D StreamErr (list Row);
}.

Definition in_order {Row} (timestamp_col : Row -> Z) (o : SortOrder) (a b : Row) : Prop :=
  match o with
  | Asc => (timestamp_col a <= timestamp_col b)%Z
  | Desc => (timestamp_col b <= timestamp_col a)%Z
  end.

(** The row with the largest timestamp among those of an agent, if it has any. *)
Definition newest_of {Row} (uuid_id_col timestamp_col : Row -> Z) (l : list Row) (id : Z) (o : option Row) : Prop :=
  match o with
  | Some r => r ∈ l /\ uuid_id_col r = id /\
              forall r', r' ∈ l -> uuid_id_col r' = id -> (timestamp_col r' <= timestamp_col r)%Z
  | None => forall r, r ∈ l -> uuid_id_col r <> id
  end.

(** The rows of a [UNION ALL] come in any order. *)
Class StreamLaws {D Row : Type} {ops : TableOps D Row} (sops : StreamOps D Row) (uuid_id_col timestamp_col : Row -> Z) : Prop := {
  select_rows_state : forall p o n d d' r, select_rows p o n d = (d', r) -> rows d' = rows d;
  select_rows_ok : forall p o n d d' l, select_rows p o n d = (d', Ok l) ->
    exists sorted, sorted ≡ₚ List.filter p (rows d) /\ StronglySorted (in_order timestamp_col o) sorted /\
      l = take (Z.to_nat n) sorted;
  select_last_state : forall ids d d' r, select_last ids d = (d', r) -> rows d' = rows d;
  select_last_ok : forall ids d d' l, select_last ids d = (d', Ok l) ->
    exists found, Forall2 (newest_of uuid_id_col timestamp_col (rows d)) ids found /\ l ≡ₚ omap id found;
}.

(** ** Rows in JSON *)

(** [Map::remove]. *)
Definition assoc_remove {A} (k : string) (o : list (string * A)) : list (string * A) :=
  List.filter (fun kv => negb (String.eqb k kv.1)) o.

Definition number_as_i64 (n : JNumber) : option Z :=
  match n with
  | NumInt z => if ((i64_min <=? z) && (z <=? i64_max))%Z then Some z else None
  | NumFloat _ => None
  end.

(** [id as i16]. *)
Definition as_i16 (z : Z) : Z := ((z + 32768) mod 65536 - 32768)%Z.

Section rows.
Context {jt : JsonText}.
Variable uuid_display : Uuid -> string.

Definition fix_json (value : Json) : Json :=
  match value with
  | JString s => match json_from_str s with Ok parsed => parsed | Err _ => value end
  | _ => value
  end.

Definition rename_and_fix_json (map : list (string * Json)) (old_key new_key : string) : list (string * Json) :=
  match assoc old_key map with
  | Some value => assoc_insert new_key (fix_json value) (assoc_remove old_key map)
  | None => map
  end.

Definition translate_uuid (c : MonitoringUuidCacheInner) (obj : list (string * Json)) : list (string * Json) :=
  let rest := assoc_remove "uuid_id" obj in
  match assoc "uuid_id" obj with
  | Some (JNum n) =>
      match number_as_i64 n with
      | Some id => match get_uuid c (as_i16 id) with
                   | Some uuid => assoc_insert "uuid" (JString (uuid_display uuid)) rest
                   | None => rest
                   end
      | None => rest
      end
  | _ => rest
  end.

(** A selected row: its agent, its timestamp and the selected columns, a repeated column once. *)
Definition row_json (uuid_id timestamp : Z) (columns : list (string * Json)) : list (string * Json) :=
  fold_left (fun o '(k, v) => assoc_insert k v o)
    ([("uuid_id", JNum (NumInt uuid_id)); ("timestamp", JNum (NumInt timestamp))]%string ++ columns) [].

(** The treatment of a streamed row by the static and dynamic queries, and by the summary ones. *)
Definition fix_row (c : MonitoringUuidCacheInner) (field_mappings : list (string * string)) (obj : list (string * Json)) : Json :=
  JObject (fold_left (fun o '(old_key, new_key) => rename_and_fix_json o old_key new_key) field_mappings (translate_uuid c obj)).

Definition fix_summary_row (c : MonitoringUuidCacheInner) (obj : list (string * Json)) : Json :=
  JObject (apply_descaling_to_json_object (translate_uuid c obj)).

(** ** The text of the answer *)

Fixpoint push_items (first : bool) (items : list string) (output_buffer : string) : string :=
  match items with
  | [] => output_buffer +:+ "]"
  | item :: rest => push_items false rest ((if first then output_buffer else output_buffer +:+ ",") +:+ item)
  end.
Definition array_text (items : list string) : string := push_items true items "[".

Definition serialize (v : Json) : result anyhow string :=
  map_err (fun m => OfNodeget (SerializationError ("Serialization failed: " +:+ m))) (json_to_string v).

Fixpoint serialize_all (l : list Json) : result anyhow (list string) :=
  match l with
  | [] => Ok []
  | v :: rest => let? s := serialize v in let? ss := serialize_all rest in Ok (s :: ss)
  end.

Definition write_array (l : list Json) : result anyhow string :=
  let? items := serialize_all l in Ok (array_text items).
End rows.

(** ** Selecting rows by conditions *)

Definition query_scopes (conditions : list QueryCondition) : list Scope :=
  match omap (fun c => match c with QUuid uuid => Some (Scope_AgentUuid uuid) | _ => None end) conditions with
  | [] => [Scope_Global]
  | scopes => scopes
  end.

Section select.
Context {D Row : Type} {sops : StreamOps D Row}.
Variables (uuid_id_col timestamp_col : Row -> Z) (storage_time_col : Row -> option Z).
Variable uuid_display : Uuid -> string.

Fixpoint query_uuid_ids (c : MonitoringUuidCacheInner) (conditions : list QueryCondition) : result anyhow (list Z) :=
  match conditions with
  | [] => Ok []
  | QUuid uuid :: rest =>
      let? uuid_id := ok_or (OfNodeget (NotFound ("Unknown agent UUID: " +:+ uuid_display uuid))) (get_id c uuid) in
      let? ids := query_uuid_ids c rest in
      Ok (uuid_id :: ids)
  | _ :: rest => query_uuid_ids c rest
  end.

(** The filters added one after the other; [uuid_ids] is the iterator over the agents found. *)
Fixpoint query_filter (conditions : list QueryCondition) (uuid_ids : list Z) (r : Row) : bool :=
  match conditions with
  | [] => true
  | QUuid _ :: rest =>
      match uuid_ids with
      | uuid_id :: ids => (uuid_id_col r =? uuid_id)%Z && query_filter rest ids r
      | [] => false
      end
  | QTimestampFromTo from to :: rest =>
      (from <=? timestamp_col r)%Z && (timestamp_col r <=? to)%Z && query_filter rest uuid_ids r
  | QTimestampFrom from :: rest => (from <=? timestamp_col r)%Z && query_filter rest uuid_ids r
  | QTimestampTo to :: rest => (timestamp_col r <=? to)%Z && query_filter rest uuid_ids r
  | QStorageTimeFromTo from to :: rest =>
      at_least from (storage_time_col r) && at_most to (storage_time_col r) && query_filter rest uuid_ids r
  | QStorageTimeFrom from :: rest => at_least from (storage_time_col r) && query_filter rest uuid_ids r
  | QStorageTimeTo to :: rest => at_most to (storage_time_col r) && query_filter rest uuid_ids r
  | QLimit _ :: rest | QLast :: rest => query_filter rest uuid_ids r
  end.

(** Order and bound of a query. *)
Definition order_and_limit (conditions : list QueryCondition) : SortOrder * Z :=
  let '(clamped_limit, is_last) := extract_limit_and_last conditions in
  if is_last then (Desc, 1%Z)
  else match clamped_limit with
       | Some l => (Desc, l)
       | None => (Asc, DEFAULT_MONITORING_QUERY_LIMIT)
       end.

(** A method after the permission check: database, cache, conditions, statement, answer. *)
Definition query_body {jt : JsonText} (cache : option MonitoringUuidCacheInner) (conditions : list QueryCondition)
    (item : MonitoringUuidCacheInner -> Row -> Json) : M (option D) anyhow string := fun db =>
  match db with
  | None => (None, Err (OfNodeget (DatabaseError "DB not initialized")))
  | Some d =>
      match (let? c := directory cache in let? ids := query_uuid_ids c conditions in Ok (c, ids)) with
      | Err err => (Some d, Err err)
      | Ok (c, uuid_ids) =>
          let '(order, limit) := order_and_limit conditions in
          let '(d', r) := select_rows (query_filter conditions uuid_ids) order limit d in
          (Some d', let? found := map_err stream_error r in write_array (map (item c) found))
      end
  end.

(** ** The latest value of each agent *)

Inductive LastResult : Type := LRaw (s : string) | LValue (v : Json).

Fixpoint dedupe_from (seen : list Uuid) (uuids : list Uuid) : list Uuid :=
  match uuids with
  | [] => []
  | uuid :: rest => if bool_decide (uuid ∈ seen) then dedupe_from seen rest else uuid :: dedupe_from (uuid :: seen) rest
  end.
Definition dedupe_uuids (uuids : list Uuid) : list Uuid := dedupe_from [] uuids.

Fixpoint last_uuid_ids (c : MonitoringUuidCacheInner) (uuids : list Uuid) : result anyhow (list (Uuid * Z)) :=
  match uuids with
  | [] => Ok []
  | uuid :: rest =>
      let? uuid_id := ok_or (OfNodeget (NotFound ("Agent UUID not found in monitoring registry: " +:+ uuid_display uuid)))
                        (get_id c uuid) in
      let? pairs := last_uuid_ids c rest in
      Ok ((uuid, uuid_id) :: pairs)
  end.

(** One pass over the agents: what the cache has, and the positions and numbers of the others. *)
Definition look_up_step (cached : Uuid -> option LastResult) (acc : list (option LastResult) * list (nat * Z))
    (x : nat * (Uuid * Z)) : list (option LastResult) * list (nat * Z) :=
  let '(idx, (uuid, uuid_id)) := x in
  match cached uuid with
  | Some r => (<[idx := Some r]> acc.1, acc.2)
  | None => (acc.1, acc.2 ++ [(idx, uuid_id)])
  end.
Definition look_up (cached : Uuid -> option LastResult) (pairs : list (Uuid * Z)) :
    list (option LastResult) * list (nat * Z) :=
  fold_left (look_up_step cached) (imap pair pairs) (replicate (length pairs) None, []).

(** [miss_values.into_iter().zip(misses.iter())]. *)
Definition merge_misses (results : list (option LastResult)) (misses : list (nat * Z)) (miss_values : list Json) :
    list (option LastResult) :=
  fold_left (fun acc '(v, (idx, _)) => <[idx := Some (LValue v)]> acc) (zip miss_values misses) results.

Fixpoint result_texts {jt : JsonText} (l : list LastResult) : result anyhow (list string) :=
  match l with
  | [] => Ok []
  | LRaw s :: rest => let? ss := result_texts rest in Ok (s :: ss)
  | LValue v :: rest => let? s := serialize v in let? ss := result_texts rest in Ok (s :: ss)
  end.

Definition multi_last_body {jt : JsonText} (cache : option MonitoringUuidCacheInner) (last : option MonitoringLastCache)
    (uuids : list Uuid) (cached : MonitoringLastCache -> Uuid -> option LastResult)
    (item : MonitoringUuidCacheInner -> Row -> Json) : M (option D) anyhow string := fun db =>
  match db with
  | None => (None, Err (OfNodeget (DatabaseError "DB not initialized")))
  | Some d =>
      match (let? c := directory cache in
             let? pairs := last_uuid_ids c uuids in
             let? last_cache := ok_or (OfNodeget (ConfigNotFound "MonitoringLastCache not initialized")) last in
             Ok (c, pairs, last_cache)) with
      | Err err => (Some d, Err err)
      | Ok (c, pairs, last_cache) =>
          let '(results, misses) := look_up (cached last_cache) pairs in
          let finish (results : list (option LastResult)) : result anyhow string :=
            let? texts := result_texts (omap id results) in Ok (array_text texts) in
          match misses with
          | [] => (Some d, finish results)
          | _ =>
              let '(d', r) := select_last (map snd misses) d in
              (Some d', let? found := map_err stream_error r in
                        finish (merge_misses results misses (map (item c) found)))
          end
      end
  end.
End select.

(** ** The methods *)

Section methods.
Context {crypto : Crypto} {serde : Serde} {jt : JsonText}.
Variable uuid_display : Uuid -> string.
(** How the driver renders a JSON column: as the value, or as its text. *)
Variable render : Json -> Json.
Variable e : Env.

Definition static_column_name (f : StaticDataQueryField) : string :=
  match f with SField_Cpu => "cpu_data" | SField_System => "system_data" | SField_Gpu => "gpu_data" end.
Definition dynamic_column_name (f : DynamicDataQueryField) : string :=
  match f with
  | DField_Cpu => "cpu_data" | DField_Ram => "ram_data" | DField_Load => "load_data" | DField_System => "system_data"
  | DField_Disk => "disk_data" | DField_Network => "network_data" | DField_Gpu => "gpu_data"
  end.

Definition static_column (f : StaticDataQueryField) (r : StaticRow) : Json :=
  match f with SField_Cpu => sr_cpu_data r | SField_System => sr_system_data r | SField_Gpu => sr_gpu_data r end.
Definition dynamic_column (f : DynamicDataQueryField) (r : DynamicRow) : Json :=
  match f with
  | DField_Cpu => dr_cpu_data r | DField_Ram => dr_ram_data r | DField_Load => dr_load_data r
  | DField_System => dr_system_data r | DField_Disk => dr_disk_data r | DField_Network => dr_network_data r
  | DField_Gpu => dr_gpu_data r
  end.
(** A NULL column is rendered as [null]. *)
Definition summary_column (f : DynamicSummaryQueryField) (r : SummaryRow) : Json :=
  match mr_column r f with Some z => JNum (NumInt z) | None => JNull end.

Definition static_item (fields : list StaticDataQueryField) (c : MonitoringUuidCacheInner) (r : StaticRow) : Json :=
  fix_row uuid_display c (map (fun f => (static_column_name f, static_json_key f)) fields)
    (row_json (sr_uuid_id r) (sr_timestamp r) (map (fun f => (static_column_name f, render (static_column f r))) fields)).

Definition dynamic_item (fields : list DynamicDataQueryField) (c : MonitoringUuidCacheInner) (r : DynamicRow) : Json :=
  fix_row uuid_display c (map (fun f => (dynamic_column_name f, dynamic_json_key f)) fields)
    (row_json (dr_uuid_id r) (dr_timestamp r) (map (fun f => (dynamic_column_name f, render (dynamic_column f r))) fields)).

(** No fields means all columns. *)
Definition summary_selection (fields : list DynamicSummaryQueryField) : list DynamicSummaryQueryField :=
  match fields with [] => summary_fields | _ => fields end.
Definition summary_item (fields : list DynamicSummaryQueryField) (c : MonitoringUuidCacheInner) (r : SummaryRow) : Json :=
  fix_summary_row uuid_display c
    (row_json (mr_uuid_id r) (mr_timestamp r) (map (fun f => (summary_json_key f, summary_column f r)) (summary_selection fields))).

(** ** Permissions *)

Fixpoint any_allowed (t : TokenOrAuth) (ss : list Scope) (ps : list Permission) : result anyhow bool :=
  match ps with
  | [] => Ok false
  | p :: rest =>
      let? allowed := check_token_limit (e_globals e) (e_clock e) t ss [p] in
      if (allowed : bool) then Ok true else any_allowed t ss rest
  end.

Definition static_read_permission (f : StaticDataQueryField) : Permission := P_StaticMonitoring (StaticMonitoring_Read f).
Definition dynamic_read_permission (f : DynamicDataQueryField) : Permission := P_DynamicMonitoring (DynamicMonitoring_Read f).

Definition static_read_allowed (t : TokenOrAuth) (ss : list Scope) (fields : list StaticDataQueryField) : result anyhow bool :=
  match fields with
  | [] => any_allowed t ss (map static_read_permission [SField_Cpu; SField_System; SField_Gpu])
  | _ => check_token_limit (e_globals e) (e_clock e) t ss (map static_read_permission fields)
  end.

Definition dynamic_read_allowed (t : TokenOrAuth) (ss : list Scope) (fields : list DynamicDataQueryField) : result anyhow bool :=
  match fields with
  | [] => any_allowed t ss (map dynamic_read_permission
            [DField_Cpu; DField_Ram; DField_Load; DField_System; DField_Disk; DField_Network; DField_Gpu])
  | _ => check_token_limit (e_globals e) (e_clock e) t ss (map dynamic_read_permission fields)
  end.

Definition summary_read_allowed (t : TokenOrAuth) (ss : list Scope) : result anyhow bool :=
  check_token_limit (e_globals e) (e_clock e) t ss [P_DynamicMonitoringSummary Summary_Read].

Definition STATIC_READ_DENIED : string := "Permission Denied: Insufficient StaticMonitoring Read permissions".
Definition DYNAMIC_READ_DENIED : string := "Permission Denied: Insufficient DynamicMonitoring Read permissions".
Definition SUMMARY_READ_DENIED : string := "Permission Denied: Missing DynamicMonitoringSummary Read permission".

(** ** Queries *)

Definition query_static {S} {sops : StreamOps S StaticRow} (token : string) (cache : option MonitoringUuidCacheInner)
    (fields : list StaticDataQueryField) (condition : list QueryCondition) : M (option S) anyhow string :=
  let! t := lift (parse_token token) in
  let! _ := lift (require_allowed (static_read_allowed t (query_scopes condition) fields) STATIC_READ_DENIED) in
  query_body sr_uuid_id sr_timestamp sr_storage_time uuid_display cache condition (static_item fields).

Definition query_dynamic {S} {sops : StreamOps S DynamicRow} (token : string) (cache : option MonitoringUuidCacheInner)
    (fields : list DynamicDataQueryField) (condition : list QueryCondition) : M (option S) anyhow string :=
  let! t := lift (parse_token token) in
  let! _ := lift (require_allowed (dynamic_read_allowed t (query_scopes condition) fields) DYNAMIC_READ_DENIED) in
  query_body dr_uuid_id dr_timestamp dr_storage_time uuid_display cache condition (dynamic_item fields).

Definition query_dynamic_summary {S} {sops : StreamOps S SummaryRow} (token : string) (cache : option MonitoringUuidCacheInner)
    (fields : list DynamicSummaryQueryField) (condition : list QueryCondition) : M (option S) anyhow string :=
  let! t := lift (parse_token token) in
  let! _ := lift (require_allowed (summary_read_allowed t (query_scopes condition)) SUMMARY_READ_DENIED) in
  query_body mr_uuid_id mr_timestamp mr_storage_time uuid_display cache condition (summary_item fields).

(** ** Latest values *)

Definition is_all_static_fields (fields : list StaticDataQueryField) : bool :=
  forallb (fun f => bool_decide (f ∈ fields)) [SField_Cpu; SField_System; SField_Gpu].
Definition is_all_dynamic_fields (fields : list DynamicDataQueryField) : bool :=
  forallb (fun f => bool_decide (f ∈ fields))
    [DField_Cpu; DField_Ram; DField_Load; DField_System; DField_Disk; DField_Network; DField_Gpu].

Definition cached_static (fields : list StaticDataQueryField) (last : MonitoringLastCache) (uuid : Uuid) : option LastResult :=
  if is_all_static_fields fields then option_map LRaw (get_static_last_raw last uuid)
  else option_map LValue (get_static_last last uuid fields).
Definition cached_dynamic (fields : list DynamicDataQueryField) (last : MonitoringLastCache) (uuid : Uuid) : option LastResult :=
  if is_all_dynamic_fields fields then option_map LRaw (get_dynamic_last_raw last uuid)
  else option_map LValue (get_dynamic_last last uuid fields).

Definition descale_cached_summary (value : Json) : Json :=
  match value with JObject o => JObject (apply_descaling_to_json_object o) | v => v end.
Definition cached_summary (fields : list DynamicSummaryQueryField) (last : MonitoringLastCache) (uuid : Uuid) : option LastResult :=
  match fields with
  | [] => option_map LRaw (get_dynamic_summary_last_raw last uuid)
  | _ => option_map (LValue ∘ descale_cached_summary) (get_dynamic_summary_last last uuid fields)
  end.

Definition static_data_multi_last_query {S} {sops : StreamOps S StaticRow} (token : string)
    (cache : option MonitoringUuidCacheInner) (last : option MonitoringLastCache) (uuids : list Uuid)
    (fields : list StaticDataQueryField) : M (option S) anyhow string :=
  let! t := lift (parse_token token) in
  match dedupe_uuids uuids with
  | [] => mret "[]"%string
  | deduped =>
      let! _ := lift (require_allowed (static_read_allowed t (map Scope_AgentUuid deduped) fields) STATIC_READ_DENIED) in
      multi_last_body uuid_display cache last deduped (cached_static fields) (static_item fields)
  end.

Definition dynamic_data_multi_last_query {S} {sops : StreamOps S DynamicRow} (token : string)
    (cache : option MonitoringUuidCacheInner) (last : option MonitoringLastCache) (uuids : list Uuid)
    (fields : list DynamicDataQueryField) : M (option S) anyhow string :=
  let! t := lift (parse_token token) in
  match dedupe_uuids uuids with
  | [] => mret "[]"%string
  | deduped =>
      let! _ := lift (require_allowed (dynamic_read_allowed t (map Scope_AgentUuid deduped) fields) DYNAMIC_READ_DENIED) in
      multi_last_body uuid_display cache last deduped (cached_dynamic fields) (dynamic_item fields)
  end.

Definition dynamic_summary_multi_last_query {S} {sops : StreamOps S SummaryRow} (token : string)
    (cache : option MonitoringUuidCacheInner) (last : option MonitoringLastCache) (uuids : list Uuid)
    (fields : list DynamicSummaryQueryField) : M (option S) anyhow string :=
  let! t := lift (parse_token token) in
  match dedupe_uuids uuids with
  | [] => mret "[]"%string
  | deduped =>
      let! _ := lift (require_allowed (summary_read_allowed t (map Scope_AgentUuid deduped)) SUMMARY_READ_DENIED) in
      multi_last_body uuid_display cache last deduped (cached_summary fields) (summary_item fields)
  end.
End methods.
