(* ===== verification/MonQueryThms.v ===== *)
(** * What the monitoring queries answer

    Theorems on [MonQuery]: a query answers with exactly the rows its conditions select, under
    the permissions for them, and a [multi_last] method with one value per agent. *)
From stdpp Require Import base strings gmap list numbers sorting.
From S2P Require Import Prelude Errors Json Db Permission TokenCache Concrete TokenCheck KvAuth UuidCache LastCache Reports Selection MonDelete JsRun SnapshotQuery MonQuery.

(** ** Objects *)

Lemma assoc_remove_lookup {A} k k' (o : list (string * A)) :
  assoc k' (assoc_remove k o) = if String.eqb k k' then None else assoc k' o.
Proof.
  unfold assoc_remove. induction o as [|[k1 v1] o IH]; simpl; [by case_match|].
  destruct (String.eqb_spec k k1) as [->|Hn]; simpl.
  - rewrite IH. destruct (String.eqb_spec k1 k'); [done|]. destruct (String.eqb_spec k' k1); congruence.
  - destruct (String.eqb_spec k' k1) as [->|]; [|done]. destruct (String.eqb_spec k k1); congruence.
Qed.

(** Inserting in order: the last value given to a key. *)
Lemma inserted_lookup (l : list (string * Json)) k : forall o,
  assoc k (fold_left (fun o '(k, v) => assoc_insert k v o) l o) =
  match assoc k (rev l) with Some v => Some v | None => assoc k o end.
Proof.
  assert (forall (a b : list (string * Json)), assoc k (a ++ b) = match assoc k a with Some v => Some v | None => assoc k b end) as Happ.
  { intros a b. induction a as [|[k1 v1] a IH]; simpl; [done|]. by destruct (String.eqb k k1). }
  induction l as [|[k1 v1] l IH]; intros o; simpl; [done|]. rewrite IH, Happ, assoc_insert_lookup. simpl.
  destruct (assoc k (rev l)); [done|]. destruct (String.eqb_spec k k1) as [->|]; [by rewrite String.eqb_refl|].
  destruct (String.eqb_spec k1 k); congruence.
Qed.

Lemma assoc_in {A} k (l : list (string * A)) v : assoc k l = Some v -> k ∈ map fst l.
Proof.
  induction l as [|[k1 v1] l IH]; simpl; [done|]. destruct (String.eqb_spec k k1) as [->|]; [by left|right; auto].
Qed.

Section named.
Context {F A : Type} (name : F -> string) `{!Inj (=) (=) name} (g : F -> A).

Lemma assoc_map_in fs f : f ∈ fs -> assoc (name f) (map (fun f => (name f, g f)) fs) = Some (g f).
Proof.
  induction fs as [|x fs IH]; [by intros ?%not_elem_of_nil|]. intros [->|Hf]%elem_of_cons; simpl.
  - by rewrite String.eqb_refl.
  - destruct (String.eqb_spec (name f) (name x)) as [Heq|]; [by apply (inj name) in Heq as ->|auto].
Qed.

Lemma assoc_map_out fs k : (forall f, f ∈ fs -> k <> name f) -> assoc k (map (fun f => (name f, g f)) fs) = None.
Proof using.
  clear Inj0. induction fs as [|x fs IH]; intros H; simpl; [done|].
  destruct (String.eqb_spec k (name x)) as [Heq|]; [by destruct (H x ltac:(by left))|]. apply IH. intros f Hf. apply H. by right.
Qed.
End named.

Lemma as_i16_id z : in_i16 z -> as_i16 z = z.
Proof. unfold in_i16, as_i16, i16_min, i16_max. intros. rewrite Z.mod_small; lia. Qed.

Lemma i16_number z : in_i16 z -> number_as_i64 (NumInt z) = Some z.
Proof.
  unfold in_i16, number_as_i64, i16_min, i16_max, i64_min, i64_max. intros.
  destruct (Z.leb_spec (-9223372036854775808) z); [|lia]. by destruct (Z.leb_spec z 9223372036854775807); [|lia].
Qed.

Definition is_string (v : Json) : Prop := match v with JString _ => True | _ => False end.

(** The object of an agent with the given timestamp and fields, and nothing else. *)
Record shows (o : list (string * Json)) (agent : option string) (timestamp : Z) {F : Type} (fields : list F)
    (key : F -> string) (value : F -> Json) : Prop := {
  shows_agent : assoc "uuid" o = option_map JString agent;
  shows_timestamp : assoc "timestamp" o = Some (JNum (NumInt timestamp));
  shows_field : forall f, f ∈ fields -> ~ is_string (value f) -> assoc (key f) o = Some (value f);
  shows_only : forall k, k ∈ map fst o -> base_key k \/ exists f, f ∈ fields /\ k = key f;
}.

Lemma removed_keys {A} k (o : list (string * A)) k' : k' ∈ map fst (assoc_remove k o) -> k' <> k /\ k' ∈ map fst o.
Proof.
  unfold assoc_remove. rewrite !list_elem_of_fmap. intros ([k1 v] & -> & Hin).
  apply list_elem_of_In, filter_In in Hin as [Hin Hk]. apply negb_true_iff, String.eqb_neq in Hk.
  split; [simpl in *; congruence|]. exists (k1, v). split; [done|]. by apply list_elem_of_In.
Qed.

Lemma inserted_keys {A} k (v : A) o k' : k' ∈ map fst (assoc_insert k v o) -> k' = k \/ k' ∈ map fst o.
Proof.
  induction o as [|[k1 v1] o IH]; simpl.
  - intros [->|?%not_elem_of_nil]%elem_of_cons; auto; done.
  - destruct (String.eqb_spec k k1) as [->|]; simpl; rewrite !elem_of_cons; naive_solver.
Qed.

Lemma inserted_all_keys (l : list (string * Json)) k : forall o,
  k ∈ map fst (fold_left (fun o '(k, v) => assoc_insert k v o) l o) -> k ∈ map fst l \/ k ∈ map fst o.
Proof.
  induction l as [|[k1 v1] l IH]; intros o; simpl; [by right|]. intros [?|[->|?]%inserted_keys]%IH; rewrite elem_of_cons; auto.
Qed.

Section rows.
Context {jt : JsonText}.
Variable uuid_display : Uuid -> string.
Context (c : MonitoringUuidCacheInner).

Lemma rename_lookup o k1 k2 k : k1 <> k2 ->
  assoc k (rename_and_fix_json o k1 k2) =
  match assoc k1 o with
  | Some v => if String.eqb k2 k then Some (fix_json v) else if String.eqb k1 k then None else assoc k o
  | None => assoc k o
  end.
Proof.
  intros Hn. unfold rename_and_fix_json. destruct (assoc k1 o); [|done].
  by rewrite assoc_insert_lookup, assoc_remove_lookup.
Qed.

(** The base object: the columns with the agent in place of its number. *)
Lemma translated_lookup id ts cols k :
  in_i16 id -> k <> "uuid_id"%string ->
  (forall k', k' ∈ map fst cols -> k' <> "uuid"%string /\ k' <> "uuid_id"%string /\ k' <> "timestamp"%string) ->
  assoc k (translate_uuid uuid_display c (row_json id ts cols)) =
  if String.eqb "uuid" k then option_map (JString ∘ uuid_display) (get_uuid c id)
  else if String.eqb "timestamp" k then Some (JNum (NumInt ts)) else assoc k (rev cols).
Proof.
  intros Hid Hk Hcols. set (raw := row_json id ts cols).
  assert (forall k', assoc k' raw = match assoc k' (rev cols) with Some v => Some v | None =>
            if String.eqb k' "timestamp" then Some (JNum (NumInt ts)) else if String.eqb k' "uuid_id" then Some (JNum (NumInt id)) else None end) as Hraw.
  { intros k'. unfold raw, row_json. rewrite fold_left_app, inserted_lookup. destruct (assoc k' (rev cols)); [done|]. simpl.
    destruct (String.eqb_spec k' "timestamp") as [->|]; [done|]. by destruct (String.eqb k' "uuid_id"). }
  assert (forall k', ~ k' ∈ map fst cols -> assoc k' (rev cols) = None) as Hnone.
  { intros k' Hk'. destruct (assoc k' (rev cols)) eqn:E; [|done]. destruct Hk'. apply assoc_in in E.
    rewrite map_rev in E. by rewrite list_elem_of_In, <-in_rev, <-list_elem_of_In in E. }
  assert (assoc "uuid_id" raw = Some (JNum (NumInt id))) as Hu.
  { rewrite Hraw, Hnone; [done|]. intros (?&?&?)%Hcols. done. }
  assert (assoc "timestamp" raw = Some (JNum (NumInt ts))) as Ht.
  { rewrite Hraw, Hnone; [done|]. intros (?&?&?)%Hcols. done. }
  assert (assoc "uuid" raw = None) as Hnu.
  { rewrite Hraw, Hnone; [done|]. intros (?&?&?)%Hcols. done. }
  unfold translate_uuid. rewrite Hu, i16_number, as_i16_id by done.
  assert (forall k', k' <> "uuid_id"%string -> assoc k' (assoc_remove "uuid_id" raw) = assoc k' raw) as Hrest.
  { intros k' Hk'. rewrite assoc_remove_lookup. by destruct (String.eqb_spec "uuid_id" k') as [<-|]. }
  assert (k <> "uuid"%string -> k <> "timestamp"%string -> assoc k raw = assoc k (rev cols)) as Hother.
  { intros H1 H2. rewrite Hraw. destruct (assoc k (rev cols)); [done|].
    destruct (String.eqb_spec k "timestamp"); [done|]. by destruct (String.eqb_spec k "uuid_id"). }
  destruct (get_uuid c id) as [u|]; cbn [option_map]; rewrite ?assoc_insert_lookup, Hrest by done;
    (destruct (String.eqb_spec "uuid" k) as [<-|Hnu']; [done|]);
    (destruct (String.eqb_spec "timestamp" k) as [<-|Hnt']; [done|]); apply Hother; congruence.
Qed.

Lemma translated_keys id ts cols k :
  k ∈ map fst (translate_uuid uuid_display c (row_json id ts cols)) -> base_key k \/ k ∈ map fst cols.
Proof using.
  clear jt. assert (k ∈ map fst (assoc_remove "uuid_id" (row_json id ts cols)) -> base_key k \/ k ∈ map fst cols) as Hrest.
  { intros [Hk [Hin|[]%not_elem_of_nil]%inserted_all_keys]%removed_keys.
    rewrite map_app, elem_of_app in Hin. destruct Hin as [Hin|]; [|by right]. simpl in Hin.
    rewrite !elem_of_cons, elem_of_nil in Hin. destruct Hin as [|[->|[]]]; [done|]. left. by right. }
  unfold translate_uuid. repeat case_match; try exact Hrest.
  intros [->|?]%inserted_keys; [left; by left|auto].
Qed.

(** ** Renamed columns *)

Section fields.
Context {F : Type} (name key : F -> string) `{!Inj (=) (=) name} `{!Inj (=) (=) key}.
Hypothesis name_key : forall f g, name f <> key g.
Hypothesis name_base : forall f, name f <> "uuid"%string /\ name f <> "uuid_id"%string /\ name f <> "timestamp"%string.
Hypothesis key_base : forall f, key f <> "uuid"%string /\ key f <> "uuid_id"%string /\ key f <> "timestamp"%string.

#[local] Notation renamed fs o :=
  (fold_left (fun o '(old_key, new_key) => rename_and_fix_json o old_key new_key) (map (fun f => (name f, key f)) fs) o).

Lemma renamed_other fs k : forall o,
  (forall f, f ∈ fs -> k <> name f /\ k <> key f) -> assoc k (renamed fs o) = assoc k o.
Proof using name_key.
  induction fs as [|x fs IH]; intros o Hk; simpl; [done|]. rewrite IH by (intros f Hf; apply Hk; by right).
  rewrite rename_lookup by auto. destruct (Hk x ltac:(by left)) as [H1 H2].
  destruct (assoc (name x) o); [|done]. destruct (String.eqb_spec (key x) k); [congruence|].
  destruct (String.eqb_spec (name x) k); congruence.
Qed.

Lemma renamed_key fs f : forall o v,
  f ∈ fs -> assoc (name f) o = Some v -> assoc (key f) (renamed fs o) = Some (fix_json v).
Proof using Inj0 Inj1 name_key.
  (* Once the column is gone the key keeps its value. *)
  assert (forall fs o v, assoc (name f) o = None -> assoc (key f) o = Some v -> assoc (key f) (renamed fs o) = Some v) as Hkeep.
  { clear fs. induction fs as [|x fs IH]; intros o v Hn Hv; simpl; [done|]. apply IH; rewrite rename_lookup by auto.
    - destruct (assoc (name x) o) eqn:E; [|done]. destruct (String.eqb_spec (key x) (name f)) as [Heq|]; [by destruct (name_key f x)|].
      by destruct (String.eqb_spec (name x) (name f)).
    - destruct (assoc (name x) o) eqn:E; [|done]. destruct (String.eqb_spec (key x) (key f)) as [->%(inj key)|].
      + congruence.
      + by destruct (String.eqb_spec (name x) (key f)) as [Heq|]; [destruct (name_key x f)|]. }
  induction fs as [|x fs IH]; intros o v Hf Hv; [by apply not_elem_of_nil in Hf|]. simpl.
  destruct (String.eqb_spec (name x) (name f)) as [->%(inj name)|Hne].
  - apply Hkeep; rewrite rename_lookup, Hv by auto.
    + destruct (String.eqb_spec (key f) (name f)) as [Heq|]; [by destruct (name_key f f)|by rewrite String.eqb_refl].
    + by rewrite String.eqb_refl.
  - apply elem_of_cons in Hf as [->|Hf]; [done|]. apply IH; [done|]. rewrite rename_lookup by auto.
    destruct (assoc (name x) o); [|done]. destruct (String.eqb_spec (key x) (name f)) as [Heq|]; [by destruct (name_key f x)|].
    by destruct (String.eqb_spec (name x) (name f)).
Qed.

Lemma renamed_keys fs k : forall o,
  k ∈ map fst (renamed fs o) -> (k ∈ map fst o /\ forall f, f ∈ fs -> k <> name f) \/ exists f, f ∈ fs /\ k = key f.
Proof using name_key.
  induction fs as [|x fs IH]; intros o; simpl.
  { intros Hk. left. split; [done|]. by intros f ?%not_elem_of_nil. }
  intros [[Hk Hn]|(f & Hf & ->)]%IH; [|right; exists f; split; [by right|done]].
  unfold rename_and_fix_json in Hk. destruct (assoc (name x) o) eqn:E.
  - apply inserted_keys in Hk as [->|[Hne Hk]%removed_keys]; [right; exists x; split; [by left|done]|].
    left. split; [done|]. intros f [->|Hf]%elem_of_cons; auto.
  - left. split; [done|]. intros f [->|Hf]%elem_of_cons; [|auto]. intros ->.
    clear -Hk E. induction o as [|[k1 v1] o IH]; simpl in *; [by apply not_elem_of_nil in Hk|].
    destruct (String.eqb_spec (name x) k1) as [Heq|Hne]; [done|]. apply elem_of_cons in Hk as [Hk|Hk]; [done|auto].
Qed.

(** The driver gives a JSON column as it is or as its text. *)
Definition renders (render : Json -> Json) : Prop :=
  forall v, render v = v \/ exists s, render v = JString s /\ json_from_str s = Ok v.

Lemma fix_render render v : renders render -> ~ is_string v -> fix_json (render v) = v.
Proof using.
  clear. intros Hr Hv. destruct (Hr v) as [->|(s & -> & Hs)]; [by destruct v|]. simpl. by rewrite Hs.
Qed.

Lemma fix_row_shows render id ts fields value :
  renders render -> in_i16 id ->
  exists o, fix_row uuid_display c (map (fun f => (name f, key f)) fields)
              (row_json id ts (map (fun f => (name f, render (value f))) fields)) = JObject o /\
    shows o (option_map uuid_display (get_uuid c id)) ts fields key value.
Proof using All.
  intros Hr Hid. unfold fix_row. eexists. split; [reflexivity|].
  set (cols := map (fun f => (name f, render (value f))) fields).
  assert (map fst cols = map name fields) as Hfst by (unfold cols; rewrite map_map; done).
  assert (forall k', k' ∈ map fst cols -> k' <> "uuid"%string /\ k' <> "uuid_id"%string /\ k' <> "timestamp"%string) as Hcols.
  { rewrite Hfst. intros k' (f & -> & _)%list_elem_of_fmap. apply name_base. }
  split.
  - rewrite renamed_other, translated_lookup; try done; [simpl; by destruct (get_uuid c id)|].
    intros f Hf. destruct (name_base f) as (?&?&?), (key_base f) as (?&?&?). auto.
  - rewrite renamed_other, translated_lookup; try done.
    intros f Hf. destruct (name_base f) as (?&?&?), (key_base f) as (?&?&?). auto.
  - intros f Hf Hstr. rewrite <-(fix_render render (value f)) by done. apply renamed_key; [done|].
    destruct (name_base f) as (?&?&?). rewrite translated_lookup by done.
    destruct (String.eqb_spec "uuid" (name f)); [congruence|]. destruct (String.eqb_spec "timestamp" (name f)); [congruence|].
    unfold cols. rewrite <-map_rev, (assoc_map_in name (fun f => render (value f))); [done|].
    by rewrite list_elem_of_In, <-in_rev, <-list_elem_of_In.
  - intros k [[[?|Hk]%translated_keys Hn]|?]%renamed_keys; [by left| |by right].
    rewrite Hfst in Hk. apply list_elem_of_fmap in Hk as (f & -> & Hf). by destruct (Hn f Hf).
Qed.
End fields.

(** ** Summaries *)

Lemma descaled_lookup o k :
  assoc k (apply_descaling_to_json_object o) =
  if bool_decide (k ∈ SCALED_SUMMARY_COLUMNS) then option_map descale_value (assoc k o) else assoc k o.
Proof using.
  clear. unfold apply_descaling_to_json_object. simpl. rewrite !assoc_alter_lookup.
  case_bool_decide as Hk; unfold SCALED_SUMMARY_COLUMNS in Hk; rewrite !elem_of_cons, elem_of_nil in Hk.
  - destruct Hk as [->|[->|[->|[->|[]]]]]; reflexivity.
  - destruct (String.eqb_spec "load_fifteen" k), (String.eqb_spec "load_five" k), (String.eqb_spec "load_one" k), (String.eqb_spec "cpu_usage" k);
      subst; tauto.
Qed.

Lemma alter_keys {A} (f : A -> A) k o : map fst (assoc_alter f k o) = map fst o.
Proof using.
  clear. induction o as [|[k1 v1] o IH]; simpl; [done|]. destruct (String.eqb k k1); simpl; congruence.
Qed.

#[global] Instance summary_json_key_inj : Inj (=) (=) summary_json_key.
Proof using. clear. intros [] []; simpl; congruence. Qed.

(** The value of a summary column: a tenth of the stored one when it is scaled. *)
Definition summary_value (r : SummaryRow) (f : DynamicSummaryQueryField) : Json :=
  if is_scaled f then descale_value (summary_column f r) else summary_column f r.

Lemma summary_item_shows fields r :
  in_i16 (mr_uuid_id r) ->
  exists o, summary_item uuid_display fields c r = JObject o /\
    shows o (option_map uuid_display (get_uuid c (mr_uuid_id r))) (mr_timestamp r) (summary_selection fields) summary_json_key (summary_value r).
Proof using.
  clear. intros Hid. unfold summary_item, fix_summary_row. eexists. split; [reflexivity|].
  set (sel := summary_selection fields). set (cols := map (fun f => (summary_json_key f, summary_column f r)) sel).
  assert (map fst cols = map summary_json_key sel) as Hfst by (unfold cols; rewrite map_map; done).
  assert (forall f, summary_json_key f <> "uuid"%string /\ summary_json_key f <> "uuid_id"%string /\ summary_json_key f <> "timestamp"%string) as Hbase.
  { intros []; done. }
  assert (forall k', k' ∈ map fst cols -> k' <> "uuid"%string /\ k' <> "uuid_id"%string /\ k' <> "timestamp"%string) as Hcols.
  { rewrite Hfst. intros k' (f & -> & _)%list_elem_of_fmap. apply Hbase. }
  split.
  - rewrite descaled_lookup, translated_lookup; try done. simpl. by destruct (get_uuid c (mr_uuid_id r)).
  - by rewrite descaled_lookup, translated_lookup.
  - intros f Hf _. destruct (Hbase f) as (?&?&?). rewrite descaled_lookup, translated_lookup by done.
    destruct (String.eqb_spec "uuid" (summary_json_key f)); [congruence|].
    destruct (String.eqb_spec "timestamp" (summary_json_key f)); [congruence|].
    unfold cols. rewrite <-map_rev, (assoc_map_in summary_json_key (fun f => summary_column f r));
      [|by rewrite list_elem_of_In, <-in_rev, <-list_elem_of_In].
    unfold summary_value, is_scaled. by case_bool_decide.
  - intros k. unfold apply_descaling_to_json_object. simpl. rewrite !alter_keys.
    intros [?|Hk]%translated_keys; [by left|]. right. rewrite Hfst in Hk. apply list_elem_of_fmap in Hk as (f & -> & Hf). by exists f.
Qed.
End rows.

(** ** Selected rows *)

Lemma serialize_all_ok {jt : JsonText} l ss :
  serialize_all l = Ok ss -> Forall2 (fun v s => json_to_string v = Ok s) l ss.
Proof.
  revert ss. induction l as [|v l IH]; intros ss; simpl; [intros [= <-]; constructor|].
  intros (s & Hs & (ss' & Hss & [= <-])%rbind_ok)%rbind_ok. constructor; [|auto].
  unfold serialize in Hs. destruct (json_to_string v); simpl in Hs; congruence.
Qed.

Lemma require_allowed_ok r msg u : require_allowed r msg = Ok u -> r = Ok true.
Proof. unfold require_allowed. intros ([] & -> & H)%rbind_ok; [done|]. discriminate H. Qed.

Section select.
Context {D Row : Type} {ops : TableOps D Row} {sops : StreamOps D Row}.
Variables (uuid_id_col timestamp_col : Row -> Z) (storage_time_col : Row -> option Z).
Context {laws : StreamLaws sops uuid_id_col timestamp_col}.
Context {jt : JsonText} (uuid_display : Uuid -> string).

#[local] Notation satisfies := (row_satisfies uuid_id_col timestamp_col storage_time_col).

Lemma query_filter_spec c r conditions : forall ids,
  query_uuid_ids uuid_display c conditions = Ok ids ->
  query_filter uuid_id_col timestamp_col storage_time_col conditions ids r = true <->
  Forall (fun cond => satisfies c cond r) conditions.
Proof using.
  clear. induction conditions as [|cond rest IH]; intros ids; [intros [= <-]; split; [constructor|done]|].
  rewrite Forall_cons. destruct cond; simpl; try (intros H; rewrite ?andb_true_iff, ?Z.leb_le, (IH ids H)).
  - intros (id & Hid%ok_or_ok & (ids' & Hids & [= <-])%rbind_ok)%rbind_ok.
    rewrite andb_true_iff, Z.eqb_eq, (IH ids' Hids), Hid. naive_solver.
  - tauto.
  - done.
  - done.
  - unfold at_least, at_most. destruct (storage_time_col r); rewrite ?Z.leb_le; naive_solver.
  - unfold at_least. destruct (storage_time_col r); rewrite ?Z.leb_le; naive_solver.
  - unfold at_most. destruct (storage_time_col r); rewrite ?Z.leb_le; naive_solver.
  - tauto.
  - tauto.
Qed.

(** The rows of an answer: matching ones, in order, at most [limit]; a matching row that is
    missing comes after all of them, and the limit is then used up. *)
Definition selected (c : MonitoringUuidCacheInner) (conditions : list QueryCondition) (order : SortOrder) (limit : Z)
    (stored found : list Row) : Prop :=
  (exists p rest, (forall r, p r = true <-> Forall (fun cond => satisfies c cond r) conditions) /\
     found ++ rest ≡ₚ List.filter p stored /\
     (forall x y, x ∈ found -> y ∈ rest -> in_order timestamp_col order x y) /\
     (rest <> [] -> Z.of_nat (length found) = Z.max 0 limit)) /\
  StronglySorted (in_order timestamp_col order) found /\ (Z.of_nat (length found) <= Z.max 0 limit)%Z.

Lemma select_selected c conditions ids order limit d d' l :
  query_uuid_ids uuid_display c conditions = Ok ids ->
  select_rows (query_filter uuid_id_col timestamp_col storage_time_col conditions ids) order limit d = (d', Ok l) ->
  selected c conditions order limit (rows d) l.
Proof using laws.
  intros Hids H. apply select_rows_ok in H as (sorted & Hperm & Hsort & ->).
  rewrite <-(take_drop (Z.to_nat limit) sorted) in Hsort.
  split; [|split].
  - eexists _, (drop (Z.to_nat limit) sorted). split; [intros r; by apply query_filter_spec|]. rewrite take_drop. split; [done|].
    split; [intros x y; by apply StronglySorted_app_1_elem_of|].
    intros Hne. rewrite length_take. assert (length (drop (Z.to_nat limit) sorted) <> 0) as Hl by (by intros ?%nil_length_inv).
    rewrite length_drop in Hl. lia.
  - by eapply StronglySorted_app_1_l.
  - rewrite length_take. lia.
Qed.

(** What the conditions say of order and number: with [Last] the newest row, otherwise the newest
    of the last [Limit] and at most ten thousand, without either the oldest ten thousand. *)
Definition bound_of (conditions : list QueryCondition) : SortOrder * Z :=
  if existsb (fun c => match c with QLast => true | _ => false end) conditions then (Desc, 1%Z)
  else match last (omap (fun c => match c with QLimit n => Some n | _ => None end) conditions) with
       | Some n => (Desc, Z.min n 10000)
       | None => (Asc, 10000%Z)
       end.

Lemma order_and_limit_bound conditions : order_and_limit conditions = bound_of conditions.
Proof using.
  clear. unfold order_and_limit, bound_of, extract_limit_and_last.
  set (limit_of := fun c => match c with QLimit n => Some n | _ => None end).
  assert (forall acc, fold_left limit_and_last_step conditions acc =
    (match last (omap limit_of conditions) with Some n => Some (Z.min n 10000) | None => acc.1 end,
     existsb (fun c => match c with QLast => true | _ => false end) conditions || acc.2)) as ->; [|by destruct (existsb _ _), (last _)].
  induction conditions as [|c rest IH]; intros [l b]; [done|].
  cbn [fold_left]. rewrite IH. destruct c; try done; cbn -[omap last Z.min]; [|by rewrite orb_true_r].
  change (omap limit_of (QLimit n :: rest)) with (n :: omap limit_of rest). rewrite last_cons. by destruct (last _).
Qed.

(** The answer of a query method once it is authorised. *)
Definition answered (cache : option MonitoringUuidCacheInner) (conditions : list QueryCondition) (stored : list Row)
    (shown : MonitoringUuidCacheInner -> Row -> list (string * Json) -> Prop) (text : string) : Prop :=
  exists c found texts, cache = Some c /\
    selected c conditions (bound_of conditions).1 (bound_of conditions).2 stored found /\
    Forall2 (fun r s => exists o, shown c r o /\ json_to_string (JObject o) = Ok s) found texts /\
    text = array_text texts.

Lemma query_body_run cache conditions item shown d db' r :
  (forall c x, x ∈ rows d -> exists o, item c x = JObject o /\ shown c x o) ->
  query_body uuid_id_col timestamp_col storage_time_col uuid_display cache conditions item (Some d) = (db', r) ->
  (exists d', db' = Some d' /\ rows d' = rows d) /\ forall text, r = Ok text -> answered cache conditions (rows d) shown text.
Proof using laws.
  intros Hitem. unfold query_body. destruct (rbind _ _) as [[c ids]|err] eqn:E; [|intros [= <- <-]; split; [by exists d|done]].
  apply rbind_ok in E as (c' & ->%ok_or_ok & (ids' & Hids & [= -> ->])%rbind_ok).
  rewrite order_and_limit_bound. destruct (bound_of conditions) as [order limit] eqn:Eo.
  destruct (select_rows _ _ _ d) as [d' rr] eqn:Es. intros [= <- <-]. split; [exists d'; split; [done|]; by eapply select_rows_state|].
  intros text (found & Hfound & (texts & Htexts%serialize_all_ok & [= <-])%rbind_ok)%rbind_ok.
  destruct rr as [l|]; [|done]. injection Hfound as ->. pose proof (select_selected _ _ _ _ _ _ _ _ Hids Es) as Hsel.
  exists c, found, texts. rewrite Eo. split_and!; try done.
  apply Forall2_fmap_l in Htexts. assert (Forall (fun x => x ∈ rows d) found) as Hin.
  { apply Forall_forall. intros x Hx. destruct Hsel as [(p & rest & _ & Hperm & _) _].
    assert (x ∈ List.filter p (rows d)) as Hx' by (rewrite <-Hperm; apply elem_of_app; by left).
    apply list_elem_of_In, filter_In in Hx' as [Hx' _]. by apply list_elem_of_In. }
  clear -Htexts Hin Hitem. induction Htexts as [|x s found texts Hs _ IH]; constructor.
  - apply Forall_cons in Hin as [Hx _]. destruct (Hitem c x Hx) as (o & Ho & Hsh). exists o. rewrite <-Ho. done.
  - apply IH. by apply Forall_cons in Hin as [_ ?].
Qed.
End select.

(** ** Permissions *)

Section authority.
Context {crypto : Crypto} {serde : Serde} (e : Env).

(** The permission to read the fields for every scope, or without fields that for some field. *)
Definition may_read {F} (token : string) (ss : list Scope) (perm : F -> Permission) (fields : list F) : Prop :=
  match fields with
  | [] => exists f, forall s, s ∈ ss -> authorised e token s (perm f)
  | _ => forall s f, s ∈ ss -> f ∈ fields -> authorised e token s (perm f)
  end.

Lemma any_allowed_ok t ss ps : any_allowed e t ss ps = Ok true ->
  exists p, p ∈ ps /\ check_token_limit (e_globals e) (e_clock e) t ss [p] = Ok true.
Proof.
  induction ps as [|p ps IH]; simpl; [done|]. intros ([] & Hp & H)%rbind_ok.
  - exists p. split; [by left|done].
  - destruct (IH H) as (q & Hq & ?). exists q. split; [by right|done].
Qed.

Lemma allowed_each {F} token t ss (perm : F -> Permission) fields :
  parse_token token = Ok t -> check_token_limit (e_globals e) (e_clock e) t ss (map perm fields) = Ok true ->
  forall s f, s ∈ ss -> f ∈ fields -> authorised e token s (perm f).
Proof.
  intros Ht H s f Hs Hf. exists t. split; [done|]. apply (check_limit_each _ _ _ _ _ _ H); [done|]. by apply list_elem_of_fmap_2.
Qed.

Lemma any_allowed_read {F} token t ss (perm : F -> Permission) fields :
  parse_token token = Ok t -> any_allowed e t ss (map perm fields) = Ok true ->
  exists f, forall s, s ∈ ss -> authorised e token s (perm f).
Proof.
  intros Ht (p & Hp & H)%any_allowed_ok. apply list_elem_of_fmap in Hp as (f & -> & _). exists f. intros s Hs.
  exact (allowed_each token t ss perm [f] Ht H s f Hs ltac:(by left)).
Qed.

Lemma static_may_read token t ss fields :
  parse_token token = Ok t -> static_read_allowed e t ss fields = Ok true -> may_read token ss static_read_permission fields.
Proof. intros Ht. destruct fields; intros H; [exact (any_allowed_read _ _ _ _ _ Ht H)|exact (allowed_each _ _ _ _ _ Ht H)]. Qed.

Lemma dynamic_may_read token t ss fields :
  parse_token token = Ok t -> dynamic_read_allowed e t ss fields = Ok true -> may_read token ss dynamic_read_permission fields.
Proof. intros Ht. destruct fields; intros H; [exact (any_allowed_read _ _ _ _ _ Ht H)|exact (allowed_each _ _ _ _ _ Ht H)]. Qed.

Lemma summary_may_read token t ss s :
  parse_token token = Ok t -> summary_read_allowed e t ss = Ok true -> s ∈ ss ->
  authorised e token s (P_DynamicMonitoringSummary Summary_Read).
Proof. intros Ht H Hs. exists t. split; [done|]. apply (check_limit_each _ _ _ _ _ _ H Hs). by left. Qed.
End authority.

#[global] Instance static_column_name_inj : Inj (=) (=) static_column_name.
Proof. intros [] []; simpl; congruence. Qed.
#[global] Instance static_json_key_inj : Inj (=) (=) static_json_key.
Proof. intros [] []; simpl; congruence. Qed.
#[global] Instance dynamic_column_name_inj : Inj (=) (=) dynamic_column_name.
Proof. intros [] []; simpl; congruence. Qed.
#[global] Instance dynamic_json_key_inj : Inj (=) (=) dynamic_json_key.
Proof. intros [] []; simpl; congruence. Qed.

(** ** The three queries *)

Section queries.
Context {crypto : Crypto} {serde : Serde} {jt : JsonText}.
Variables (uuid_display : Uuid -> string) (render : Json -> Json) (e : Env).
Context {S1 S2 S3 : Type} {ops1 : TableOps S1 StaticRow} {ops2 : TableOps S2 DynamicRow} {ops3 : TableOps S3 SummaryRow}.
Context {sops1 : StreamOps S1 StaticRow} {sops2 : StreamOps S2 DynamicRow} {sops3 : StreamOps S3 SummaryRow}.
Context {laws1 : StreamLaws sops1 sr_uuid_id sr_timestamp} {laws2 : StreamLaws sops2 dr_uuid_id dr_timestamp}.
Context {laws3 : StreamLaws sops3 mr_uuid_id mr_timestamp}.

(** The column [uuid_id] is a [SMALLINT]. *)
Definition small_ids {Row} (uuid_id_col : Row -> Z) (l : list Row) : Prop := forall r, r ∈ l -> in_i16 (uuid_id_col r).

Definition shows_static (fields : list StaticDataQueryField) (c : MonitoringUuidCacheInner) (r : StaticRow) (o : list (string * Json)) : Prop :=
  shows o (option_map uuid_display (get_uuid c (sr_uuid_id r))) (sr_timestamp r) fields static_json_key (fun f => static_column f r).
Definition shows_dynamic (fields : list DynamicDataQueryField) (c : MonitoringUuidCacheInner) (r : DynamicRow) (o : list (string * Json)) : Prop :=
  shows o (option_map uuid_display (get_uuid c (dr_uuid_id r))) (dr_timestamp r) fields dynamic_json_key (fun f => dynamic_column f r).
Definition shows_summary (fields : list DynamicSummaryQueryField) (c : MonitoringUuidCacheInner) (r : SummaryRow) (o : list (string * Json)) : Prop :=
  shows o (option_map uuid_display (get_uuid c (mr_uuid_id r))) (mr_timestamp r) (summary_selection fields) summary_json_key (summary_value r).

Lemma static_item_shows fields c r : renders render -> in_i16 (sr_uuid_id r) ->
  exists o, static_item uuid_display render fields c r = JObject o /\ shows_static fields c r o.
Proof.
  intros Hr Hid. apply (fix_row_shows uuid_display c static_column_name static_json_key); try done.
  all: by intros []; try intros [].
Qed.

Lemma dynamic_item_shows fields c r : renders render -> in_i16 (dr_uuid_id r) ->
  exists o, dynamic_item uuid_display render fields c r = JObject o /\ shows_dynamic fields c r o.
Proof.
  intros Hr Hid. apply (fix_row_shows uuid_display c dynamic_column_name dynamic_json_key); try done.
  all: by intros []; try intros [].
Qed.

(** C31: a query of monitoring data is answered only to a token that may read the requested
    fields (without fields, some field) of every agent its conditions name, or globally when they
    name none.  The answer is the array of the matching rows in order of time: newest first
    and at most as many as requested, never more than ten thousand; without a bound the oldest ten thousand.
    A matching row is left out only behind all others.  Each entry has the agent, the time
    and exactly the requested fields of its row.  The tables are never changed. *)
Theorem monitoring_query_exact token cache conditions :
  renders render ->
  (forall fields d db' r, small_ids sr_uuid_id (rows d) ->
     query_static uuid_display render e token cache fields conditions (Some d) = (db', r) ->
     (exists d', db' = Some d' /\ rows d' = rows d) /\ forall text, r = Ok text ->
       may_read e token (query_scopes conditions) static_read_permission fields /\
       answered sr_uuid_id sr_timestamp sr_storage_time cache conditions (rows d) (shows_static fields) text) /\
  (forall fields d db' r, small_ids dr_uuid_id (rows d) ->
     query_dynamic uuid_display render e token cache fields conditions (Some d) = (db', r) ->
     (exists d', db' = Some d' /\ rows d' = rows d) /\ forall text, r = Ok text ->
       may_read e token (query_scopes conditions) dynamic_read_permission fields /\
       answered dr_uuid_id dr_timestamp dr_storage_time cache conditions (rows d) (shows_dynamic fields) text) /\
  (forall fields d db' r, small_ids mr_uuid_id (rows d) ->
     query_dynamic_summary uuid_display e token cache fields conditions (Some d) = (db', r) ->
     (exists d', db' = Some d' /\ rows d' = rows d) /\ forall text, r = Ok text ->
       (forall s, s ∈ query_scopes conditions -> authorised e token s (P_DynamicMonitoringSummary Summary_Read)) /\
       answered mr_uuid_id mr_timestamp mr_storage_time cache conditions (rows d) (shows_summary fields) text).
Proof using laws1 laws2 laws3.
  intros Hr. split_and!; intros fields d db' r Hids; [unfold query_static|unfold query_dynamic|unfold query_dynamic_summary].
  all: rewrite mbind_run; unfold lift at 1; destruct (parse_token token) as [t|] eqn:Et; [|intros [= <- <-]; split; [by exists d|done]];
    rewrite mbind_run; unfold lift at 1.
  - destruct (require_allowed _ _) as [[]|] eqn:Ea; [|intros [= <- <-]; split; [by exists d|done]].
    intros H. destruct (query_body_run sr_uuid_id sr_timestamp sr_storage_time uuid_display cache conditions _ (shows_static fields) d db' r
      (fun c x Hx => static_item_shows fields c x Hr (Hids x Hx)) H) as [Hd Hok]. split; [done|].
    intros text Htext. split; [eapply static_may_read, require_allowed_ok; done|by apply Hok].
  - destruct (require_allowed _ _) as [[]|] eqn:Ea; [|intros [= <- <-]; split; [by exists d|done]].
    intros H. destruct (query_body_run dr_uuid_id dr_timestamp dr_storage_time uuid_display cache conditions _ (shows_dynamic fields) d db' r
      (fun c x Hx => dynamic_item_shows fields c x Hr (Hids x Hx)) H) as [Hd Hok]. split; [done|].
    intros text Htext. split; [eapply dynamic_may_read, require_allowed_ok; done|by apply Hok].
  - destruct (require_allowed _ _) as [[]|] eqn:Ea; [|intros [= <- <-]; split; [by exists d|done]].
    intros H. destruct (query_body_run mr_uuid_id mr_timestamp mr_storage_time uuid_display cache conditions _ (shows_summary fields) d db' r
      (fun c x Hx => summary_item_shows uuid_display c fields x (Hids x Hx)) H) as [Hd Hok]. split; [done|].
    intros text Htext. split; [|by apply Hok]. intros s Hs. eapply summary_may_read; [done|by eapply require_allowed_ok|done].
Qed.
End queries.

(** ** Merging cached and stored values *)

Section merge.
Context (cached : Uuid -> option LastResult).

Fixpoint misses_from (n : nat) (pairs : list (Uuid * Z)) : list (nat * Z) :=
  match pairs with
  | [] => []
  | (u, i) :: rest => match cached u with Some _ => misses_from (S n) rest | None => (n, i) :: misses_from (S n) rest end
  end.

Lemma look_up_from pairs : forall f n pre ms,
  length pre = n -> (forall i x, f i x = (n + i, x)%nat) ->
  fold_left (look_up_step cached) (imap f pairs) (pre ++ replicate (length pairs) None, ms) =
  (pre ++ map (cached ∘ fst) pairs, ms ++ misses_from n pairs).
Proof.
  induction pairs as [|[u i] pairs IH]; intros f n pre ms Hn Hf; [by rewrite !app_nil_r|].
  cbn [length replicate imap fold_left]. rewrite Hf, Nat.add_0_r. cbn [look_up_step misses_from map compose fst snd].
  destruct (cached u) as [r|] eqn:Eu.
  - rewrite insert_app_r_alt, Hn, Nat.sub_diag by lia.
    change (<[0:=Some r]> (None :: replicate (length pairs) None)) with (Some r :: replicate (length pairs) None).
    rewrite !(cons_middle (Some r) pre), !(app_assoc pre [Some r]).
    apply (IH _ (S n)); [rewrite length_app; simpl; lia|intros; simpl; rewrite Hf; f_equal; lia].
  - rewrite !(cons_middle None pre), !(app_assoc pre [None]), (cons_middle (n, i) ms (misses_from _ _)), (app_assoc ms [(n, i)] (misses_from _ _)).
    apply (IH _ (S n)); [rewrite length_app; simpl; lia|intros; simpl; rewrite Hf; f_equal; lia].
Qed.

Lemma look_up_spec pairs : look_up cached pairs = (map (cached ∘ fst) pairs, misses_from 0 pairs).
Proof. exact (look_up_from pairs pair 0 [] [] eq_refl (fun _ _ => eq_refl)). Qed.

(** Empty places filled from the left. *)
Fixpoint fill_places {A} (places : list (option A)) (vs : list A) : list (option A) :=
  match places, vs with
  | [], _ => []
  | Some r :: rest, _ => Some r :: fill_places rest vs
  | None :: rest, v :: vs => Some v :: fill_places rest vs
  | None :: rest, [] => None :: fill_places rest []
  end.

Lemma fill_nil {A} (places : list (option A)) : fill_places places [] = places.
Proof. induction places as [|[]]; simpl; congruence. Qed.

Lemma merge_from pairs : forall n pre vs,
  length pre = n ->
  merge_misses (pre ++ map (cached ∘ fst) pairs) (misses_from n pairs) vs =
  pre ++ fill_places (map (cached ∘ fst) pairs) (map LValue vs).
Proof.
  unfold merge_misses. induction pairs as [|[u i] pairs IH]; intros n pre vs Hn; [by destruct vs|].
  cbn [misses_from map]. unfold compose at 1 3. cbn [fst]. destruct (cached u) as [r|] eqn:Eu.
  - rewrite (cons_middle (Some r) pre), (app_assoc pre [Some r]), (IH (S n)) by (rewrite length_app; simpl; lia).
    rewrite <-app_assoc. simpl. by destruct vs.
  - destruct vs as [|v vs]; [cbn [zip zip_with fold_left map]; by rewrite fill_nil|].
    cbn [zip zip_with fold_left map]. rewrite insert_app_r_alt, Hn, Nat.sub_diag by lia.
    change (<[0:=Some (LValue v)]> (None :: map (cached ∘ fst) pairs)) with (Some (LValue v) :: map (cached ∘ fst) pairs).
    rewrite (cons_middle (Some (LValue v)) pre), (app_assoc pre [Some (LValue v)]), (IH (S n)) by (rewrite length_app; simpl; lia).
    by rewrite <-app_assoc.
Qed.

Lemma fill_perm {A} (places : list (option A)) : forall vs,
  (length vs <= length (List.filter (fun o => match o with None => true | _ => false end) places))%nat ->
  omap id (fill_places places vs) ≡ₚ omap id places ++ vs.
Proof.
  induction places as [|[r|] places IH]; intros vs Hl; simpl in *.
  - by destruct vs; [|simpl in Hl; lia].
  - assert (omap id (Some r :: fill_places places vs) ≡ₚ r :: omap id places ++ vs) by (simpl; constructor; by apply IH).
    by destruct vs.
  - destruct vs as [|v vs]; simpl in *; [rewrite fill_nil; by rewrite app_nil_r|].
    rewrite <-Permutation_middle. constructor. apply IH. lia.
Qed.

(** The answer per agent: the cached value, or else what was found for it. *)
Fixpoint weave (pairs : list (Uuid * Z)) (found : list (option LastResult)) : list (option LastResult) :=
  match pairs with
  | [] => []
  | (u, _) :: rest =>
      match cached u, found with
      | Some r, _ => Some r :: weave rest found
      | None, o :: found => o :: weave rest found
      | None, [] => None :: weave rest []
      end
  end.

Lemma weave_perm pairs : forall n found,
  length found = length (misses_from n pairs) ->
  omap id (weave pairs found) ≡ₚ omap id (map (cached ∘ fst) pairs) ++ omap id found.
Proof.
  induction pairs as [|[u i] pairs IH]; intros n found Hl; [by destruct found|].
  cbn [misses_from weave map] in *. unfold compose at 1. cbn [fst]. destruct (cached u) as [r|] eqn:Eu.
  - assert (omap id (Some r :: weave pairs found) ≡ₚ r :: omap id (map (cached ∘ fst) pairs) ++ omap id found)
      by (cbn; constructor; by apply (IH (S n))). cbn. destruct found; done.
  - destruct found as [|o found]; [done|]. injection Hl as Hl. cbn. destruct o as [r|]; cbn.
    + rewrite <-Permutation_middle. constructor. by apply (IH (S n)).
    + by apply (IH (S n)).
Qed.

Lemma misses_count pairs : forall n,
  length (List.filter (fun o => match o with None => true | _ => false end) (map (cached ∘ fst) pairs)) = length (misses_from n pairs).
Proof.
  induction pairs as [|[u i] pairs IH]; intros n; [done|]. simpl. destruct (cached u); simpl; [apply IH|f_equal; apply IH].
Qed.
End merge.

(** ** The latest values *)

Lemma dedupe_from_spec uuids : forall seen,
  NoDup (dedupe_from seen uuids) /\ (forall u, u ∈ dedupe_from seen uuids <-> u ∈ uuids /\ u ∉ seen).
Proof.
  induction uuids as [|x l IH]; intros seen; simpl.
  { split; [constructor|]. intros u. split; [by intros ?%not_elem_of_nil|by intros [?%not_elem_of_nil _]]. }
  case_bool_decide as Hx.
  - destruct (IH seen) as [Hnd Hin]. split; [done|]. intros u. rewrite Hin, elem_of_cons. naive_solver.
  - destruct (IH (x :: seen)) as [Hnd Hin]. split.
    + constructor; [|done]. rewrite Hin. intros [_ Hn]. by destruct Hn; left.
    + intros u. rewrite !elem_of_cons, Hin, not_elem_of_cons. destruct (decide (u = x)) as [->|]; naive_solver.
Qed.

Lemma dedupe_spec uuids : NoDup (dedupe_uuids uuids) /\ forall u, u ∈ dedupe_uuids uuids <-> u ∈ uuids.
Proof.
  destruct (dedupe_from_spec uuids []) as [Hnd Hin]. split; [done|]. intros u. unfold dedupe_uuids. rewrite Hin.
  split; [tauto|]. intros ?. split; [done|apply not_elem_of_nil].
Qed.

Lemma last_uuid_ids_ok uuid_display c uuids pairs :
  last_uuid_ids uuid_display c uuids = Ok pairs -> map fst pairs = uuids /\ Forall (fun p => get_id c p.1 = Some p.2) pairs.
Proof.
  revert pairs. induction uuids as [|u l IH]; intros pairs; simpl; [intros [= <-]; split; [done|constructor]|].
  intros (id & Hid%ok_or_ok & (ps & Hps & [= <-])%rbind_ok)%rbind_ok. destruct (IH _ Hps) as [<- Hf]. split; [done|by constructor].
Qed.

Lemma omap_id_length {A} (l : list (option A)) : (length (omap id l) <= length l)%nat.
Proof. induction l as [|[a|] l IH]; cbn; unfold omap in *; lia. Qed.

Definition result_text {jt : JsonText} (r : LastResult) (s : string) : Prop :=
  match r with LRaw s' => s = s' | LValue v => json_to_string v = Ok s end.
(** The object a result is, or is the text of. *)
Definition result_object {jt : JsonText} (r : LastResult) (o : list (string * Json)) : Prop :=
  match r with LRaw s => json_to_string (JObject o) = Ok s | LValue v => v = JObject o end.

Lemma result_texts_ok {jt : JsonText} l ss : result_texts l = Ok ss -> Forall2 result_text l ss.
Proof.
  revert ss. induction l as [|[s|v] l IH]; intros ss; simpl; [intros [= <-]; constructor| |].
  - intros (ss' & Hss & [= <-])%rbind_ok. constructor; [done|auto].
  - intros (s & Hs & (ss' & Hss & [= <-])%rbind_ok)%rbind_ok. constructor; [|auto].
    unfold serialize in Hs. simpl. destruct (json_to_string v); simpl in Hs; congruence.
Qed.

Section latest.
Context {D Row : Type} {ops : TableOps D Row} {sops : StreamOps D Row}.
Variables (uuid_id_col timestamp_col : Row -> Z).
Context {laws : StreamLaws sops uuid_id_col timestamp_col}.
Context {jt : JsonText} (uuid_display : Uuid -> string).

(** One answer per agent: from the cache, or else its newest row, or none. *)
Definition agent_answer (c : MonitoringUuidCacheInner) (stored : list Row) (from_cache : Uuid -> list (string * Json) -> Prop)
    (lacks : Uuid -> Prop) (shown : MonitoringUuidCacheInner -> Row -> list (string * Json) -> Prop)
    (u : Uuid) (a : option LastResult) : Prop :=
  match a with
  | Some r => exists o, result_object r o /\
      (from_cache u o \/ lacks u /\ exists id row, get_id c u = Some id /\
         newest_of uuid_id_col timestamp_col stored id (Some row) /\ shown c row o)
  | None => lacks u /\ exists id, get_id c u = Some id /\ newest_of uuid_id_col timestamp_col stored id None
  end.

Definition latest_answered (c : MonitoringUuidCacheInner) (uuids : list Uuid) (stored : list Row)
    (from_cache : Uuid -> list (string * Json) -> Prop) (lacks : Uuid -> Prop)
    (shown : MonitoringUuidCacheInner -> Row -> list (string * Json) -> Prop) (text : string) : Prop :=
  exists answers results texts,
    Forall2 (agent_answer c stored from_cache lacks shown) uuids answers /\
    results ≡ₚ omap id answers /\ Forall2 result_text results texts /\ text = array_text texts.

Section body.
Context (cached : Uuid -> option LastResult) (item : MonitoringUuidCacheInner -> Row -> Json).
Context (from_cache : Uuid -> list (string * Json) -> Prop) (lacks : Uuid -> Prop).
Context (shown : MonitoringUuidCacheInner -> Row -> list (string * Json) -> Prop) (stored : list Row).
Hypothesis cached_some : forall u r, cached u = Some r -> exists o, result_object r o /\ from_cache u o.
Hypothesis cached_none : forall u, cached u = None -> lacks u.
Hypothesis item_shown : forall c x, x ∈ stored -> exists o, item c x = JObject o /\ shown c x o.

Lemma weave_answers c pairs : forall n found,
  Forall (fun p => get_id c p.1 = Some p.2) pairs ->
  Forall2 (newest_of uuid_id_col timestamp_col stored) (map snd (misses_from cached n pairs)) found ->
  Forall2 (agent_answer c stored from_cache lacks shown) (map fst pairs)
    (weave cached pairs (map (option_map (LValue ∘ item c)) found)).
Proof using cached_some cached_none item_shown.
  induction pairs as [|[u i] pairs IH]; intros n found Hids Hnew; [constructor|].
  apply Forall_cons in Hids as [Hid Hids]. cbn [misses_from map weave fst snd] in *. destruct (cached u) as [r|] eqn:Eu.
  - constructor; [|by apply (IH (S n))]. destruct (cached_some _ _ Eu) as (o & Ho & Hc). exists o. split; [done|by left].
  - apply Forall2_cons_inv_l in Hnew as (x & found' & Hx & Hnew & ->). cbn [map]. constructor; [|by apply (IH (S n))].
    destruct x as [row|]; simpl; [|split; [auto|by exists i]].
    destruct (item_shown c row) as (o & Ho & Hs); [by destruct Hx|]. exists o. split; [by rewrite Ho|]. right. split; [auto|].
    by exists i, row.
Qed.
End body.

Lemma multi_last_run cache last uuids cached item from_cache lacks shown d db' r :
  (forall c u x, last = Some c -> cached c u = Some x -> exists o, result_object x o /\ from_cache u o) ->
  (forall c u, last = Some c -> cached c u = None -> lacks u) ->
  (forall c x, x ∈ rows d -> exists o, item c x = JObject o /\ shown c x o) ->
  multi_last_body uuid_display cache last uuids cached item (Some d) = (db', r) ->
  (exists d', db' = Some d' /\ rows d' = rows d) /\
  forall text, r = Ok text -> exists c, cache = Some c /\ latest_answered c uuids (rows d) from_cache lacks shown text.
Proof using laws.
  intros Hsome Hnone Hitem. unfold multi_last_body.
  destruct (rbind _ _) as [[[c pairs] lc]|err] eqn:E; [|intros [= <- <-]; split; [by exists d|done]].
  apply rbind_ok in E as (c' & ->%ok_or_ok & (ps & Hps & (lc' & ->%ok_or_ok & [= -> -> ->])%rbind_ok)%rbind_ok).
  destruct (last_uuid_ids_ok _ _ _ _ Hps) as [<- Hids]. rewrite look_up_spec.
  pose proof (weave_answers (cached lc) item from_cache lacks shown (rows d) (fun u x => Hsome lc u x eq_refl)
                (fun u => Hnone lc u eq_refl) Hitem c pairs 0) as Hweave.
  pose proof (weave_perm (cached lc) pairs 0) as Hperm. pose proof (misses_count (cached lc) pairs 0) as Hcount.
  pose proof (merge_from (cached lc) pairs 0 []) as Hmerge.
  destruct (misses_from (cached lc) 0 pairs) as [|m ms] eqn:Em.
  - intros [= <- <-]. split; [by exists d|]. intros text (texts & Ht%result_texts_ok & [= <-])%rbind_ok. exists c. split; [done|].
    eexists _, _, texts. split; [apply (Hweave [] Hids); constructor|]. split; [|by split].
    rewrite Hperm by done. by rewrite app_nil_r.
  - destruct (select_last _ d) as [d' rr] eqn:Es. intros [= <- <-].
    split; [exists d'; split; [done|by eapply select_last_state]|].
    intros text (found & Hfound & (texts & Ht%result_texts_ok & [= <-])%rbind_ok)%rbind_ok.
    destruct rr as [l|]; [|done]. injection Hfound as ->. exists c. split; [done|].
    apply select_last_ok in Es as (os & Hnew & Hl). eexists _, _, texts. split; [by apply (Hweave os Hids)|]. split; [|by split].
    pose proof (Forall2_length _ _ _ Hnew) as Hlen. rewrite length_map in Hlen. specialize (Hmerge (map (item c) found) eq_refl).
    cbn [app] in Hmerge. rewrite Hmerge, fill_perm, Hperm by
      (rewrite ?length_map, ?Hcount; try done; rewrite Hl; pose proof (omap_id_length os); lia).
    f_equiv. rewrite map_map, Hl. clear. induction os as [|[]]; simpl; [done| |done]. by constructor.
Qed.
End latest.

(** ** The cache behind the latest values *)

Section last_cache.
Context {jt : JsonText} (uuid_display : Uuid -> string).

(** An entry is an object of its agent with known keys, and its text, when there is one, is
    that of the object as it is answered. *)
Definition entry_ok (keys : list string) (answered_as : list (string * Json) -> list (string * Json)) (u : Uuid) (x : CachedEntry) : Prop :=
  exists full, ce_value x = JObject full /\ assoc "uuid" full = Some (JString (uuid_display u)) /\
    (forall k v, assoc k full = Some v -> base_key k \/ k ∈ keys) /\
    forall s, ce_serialized x = Some s -> json_to_string (JObject (answered_as full)) = Ok s.

Definition all_static : list StaticDataQueryField := [SField_Cpu; SField_System; SField_Gpu].
Definition all_dynamic : list DynamicDataQueryField :=
  [DField_Cpu; DField_Ram; DField_Load; DField_System; DField_Disk; DField_Network; DField_Gpu].

Record last_ok (last : MonitoringLastCache) : Prop := {
  last_static : map_Forall (entry_ok (map static_json_key all_static) id) (static_cache last);
  last_dynamic : map_Forall (entry_ok (map dynamic_json_key all_dynamic) id) (dynamic_cache last);
  last_summary : map_Forall (entry_ok (map summary_json_key summary_fields) apply_descaling_to_json_object) (dynamic_summary_cache last);
}.

(** [serde_json::to_string(..).ok()]. *)
Definition json_text (v : Json) : option string := match json_to_string v with Ok s => Some s | Err _ => None end.

Lemma json_text_some v s : json_text v = Some s -> json_to_string v = Ok s.
Proof. unfold json_text. destruct (json_to_string v); congruence. Qed.

Lemma new_last_ok : last_ok new_last_cache.
Proof. split; apply map_Forall_empty. Qed.

Lemma built_full u ts parts (keys : list string) :
  (forall k, k ∈ map fst parts -> k ∈ keys /\ k <> "uuid"%string) ->
  exists full, object_of (value_head uuid_display u ts ++ parts) = JObject full /\
    assoc "uuid" full = Some (JString (uuid_display u)) /\ forall k v, assoc k full = Some v -> base_key k \/ k ∈ keys.
Proof.
  intros Hk. eexists. split; [reflexivity|]. split.
  - rewrite fold_left_app, inserted_lookup. destruct (assoc "uuid" (rev parts)) eqn:E; [|done].
    apply assoc_in in E. rewrite map_rev, list_elem_of_In, <-in_rev, <-list_elem_of_In in E. by apply Hk in E as [_ []].
  - intros k v Hv. apply assoc_in, inserted_all_keys in Hv as [Hv|[]%not_elem_of_nil].
    rewrite map_app in Hv. apply elem_of_app in Hv as [Hv|Hv]; [|right; by apply Hk].
    simpl in Hv. rewrite !elem_of_cons, elem_of_nil in Hv. left. destruct Hv as [->|[->|[]]]; [by left|by right].
Qed.

(** The reports keep the cache in this state. *)
Lemma update_static_ok last u ts cpu system gpu : last_ok last ->
  last_ok (update_static_prebuilt json_text u (build_static_value_prebuilt uuid_display u ts cpu system gpu) last).
Proof.
  intros [H1 H2 H3]. split; try done. apply map_Forall_insert_2; [|done].
  destruct (built_full u ts [("cpu", cpu); ("system", system); ("gpu", gpu)]%string (map static_json_key all_static)) as (full & Hf & Hu & Hk).
  - intros k. simpl. rewrite !elem_of_cons, elem_of_nil. intros [->|[->|[->|[]]]]; (split; [tauto|done]).
  - exists full. split_and!; try done. intros s Hs%json_text_some. unfold build_static_value_prebuilt in Hs. by rewrite Hf in Hs.
Qed.

Lemma update_dynamic_ok last u ts cpu ram load system disk network gpu : last_ok last ->
  last_ok (update_dynamic_prebuilt json_text u (build_dynamic_value_prebuilt uuid_display u ts cpu ram load system disk network gpu) last).
Proof.
  intros [H1 H2 H3]. split; try done. apply map_Forall_insert_2; [|done].
  destruct (built_full u ts [("cpu", cpu); ("ram", ram); ("load", load); ("system", system); ("disk", disk); ("network", network);
     ("gpu", gpu)]%string (map dynamic_json_key all_dynamic)) as (full & Hf & Hu & Hk).
  - intros k. simpl. rewrite !elem_of_cons, elem_of_nil. intros Hk. split; [tauto|]. naive_solver.
  - exists full. split_and!; try done. intros s Hs%json_text_some. unfold build_dynamic_value_prebuilt in Hs. by rewrite Hf in Hs.
Qed.

Lemma update_summary_ok last u ts data : last_ok last ->
  last_ok (update_dynamic_summary_prebuilt json_text u (build_dynamic_summary_value uuid_display u ts data) last).
Proof.
  intros [H1 H2 H3]. split; try done. apply map_Forall_insert_2; [|done]. unfold build_dynamic_summary_value.
  destruct (built_full u ts (flat_map (fun f => opt_field (summary_json_key f) (summary_field data f)) summary_fields)
              (map summary_json_key summary_fields)) as (full & Hf & Hu & Hk).
  - intros k (kv & -> & Hin)%list_elem_of_fmap. apply list_elem_of_In, in_flat_map in Hin as (f & Hf & Hin).
    unfold opt_field in Hin. destruct (summary_field data f); [|done]. destruct Hin as [<-|[]]. split; [|by destruct f].
    cbn [fst]. apply (list_elem_of_fmap_2 summary_json_key). by apply list_elem_of_In.
  - exists full. split_and!; try done. rewrite Hf. by intros s Hs%json_text_some.
Qed.

(** Part of an object: the base keys and the given ones. *)
Definition shows_part (o full : list (string * Json)) (keys : list string) : Prop :=
  forall k, assoc k o = if decide (base_key k \/ k ∈ keys) then assoc k full else None.

(** What the cache answers for an agent, and that it has nothing to answer. *)
Definition from_entry (m : gmap Uuid CachedEntry) (answered_as : list (string * Json) -> list (string * Json)) (keys : list string)
    (u : Uuid) (o : list (string * Json)) : Prop :=
  exists x full, m !! u = Some x /\ ce_value x = JObject full /\ assoc "uuid" full = Some (JString (uuid_display u)) /\
    shows_part o (answered_as full) keys.
Definition lacks_entry (m : gmap Uuid CachedEntry) (u : Uuid) : Prop :=
  forall x, m !! u = Some x -> ce_serialized x = None.

Lemma shows_all full keys (all : list string) :
  (forall k v, assoc k full = Some v -> base_key k \/ k ∈ all) -> (forall k, k ∈ all -> k ∈ keys) -> shows_part full full keys.
Proof.
  intros Hk Hall k. case_decide as Hd; [done|]. destruct (assoc k full) eqn:E; [|done]. destruct Hd.
  destruct (Hk _ _ E); [by left|right; auto].
Qed.

Lemma raw_from_entry m all f keys u s :
  map_Forall (entry_ok all f) m -> (forall o k, assoc k (f o) = None <-> assoc k o = None) -> (forall k, k ∈ all -> k ∈ keys) ->
  m !! u ≫= ce_serialized = Some s -> exists o, result_object (LRaw s) o /\ from_entry m f keys u o.
Proof.
  intros Hm Hf Hall (x & Hx & Hs)%bind_Some. destruct (Hm _ _ Hx) as (full & Hv & Hu & Hk & Htext).
  exists (f full). split; [by apply Htext|]. exists x, full. split_and!; try done.
  apply (shows_all _ _ all); [|done]. intros k v E. destruct (assoc k full) eqn:E'; [by eapply Hk|].
  apply Hf in E'. congruence.
Qed.

Lemma value_from_entry m all f keys u x :
  map_Forall (entry_ok all f) m ->
  (forall o, exists o', build_filtered_map o keys = JObject o' /\ shows_part (f o') (f o) keys) ->
  m !! u = Some x ->
  exists full o, as_object (ce_value x) = Some full /\ build_filtered_map full keys = JObject o /\ from_entry m f keys u (f o).
Proof.
  intros Hm Hfil Hx. destruct (Hm _ _ Hx) as (full & Hv & Hu & Hk & Htext).
  destruct (Hfil full) as (o & Ho & Hs). exists full, o. rewrite Hv. split_and!; try done. exists x, full. by split_and!.
Qed.

Lemma part_filtered keys (o : list (string * Json)) : exists o', build_filtered_map o keys = JObject o' /\ shows_part o' o keys.
Proof using.
  clear. eexists. split; [reflexivity|]. intros k. destruct (filtered_lookup o keys k) as (o' & [= <-] & Hk). exact Hk.
Qed.

Lemma part_descaled keys (o : list (string * Json)) :
  exists o', build_filtered_map o keys = JObject o' /\ shows_part (apply_descaling_to_json_object o') (apply_descaling_to_json_object o) keys.
Proof using.
  destruct (part_filtered keys o) as (o' & Ho & Hp). exists o'. split; [done|]. intros k. pose proof (Hp k) as Hk. rewrite !descaled_lookup.
  destruct (bool_decide _); rewrite Hk; by destruct (decide _).
Qed.

Section one_cache.
Context {F : Type} (key : F -> string) (all : list F) (m : gmap Uuid CachedEntry) (fields : list F).
Context (raw : bool) (f : list (string * Json) -> list (string * Json)).
Hypothesis entries : map_Forall (entry_ok (map key all) f) m.
Hypothesis raw_all : raw = true -> forall x, x ∈ all -> x ∈ fields.

(** The cached answer of a method: the kept text, or the fields picked from the value. *)
Definition kept_answer (u : Uuid) : option LastResult :=
  if raw then option_map LRaw (m !! u ≫= ce_serialized)
  else option_map (fun v => LValue match v with JObject o => JObject (f o) | v => v end)
         (x ← m !! u; full ← as_object (ce_value x); Some (build_filtered_map full (map key fields))).

Lemma kept_answer_some u r :
  (forall o k, assoc k (f o) = None <-> assoc k o = None) ->
  (forall o, exists o', build_filtered_map o (map key fields) = JObject o' /\ shows_part (f o') (f o) (map key fields)) ->
  kept_answer u = Some r -> exists o, result_object r o /\ from_entry m f (map key fields) u o.
Proof using entries raw_all.
  intros Hf Hpart. unfold kept_answer. destruct raw eqn:Er.
  - intros H. apply fmap_Some in H as (s & Hs & ->). eapply raw_from_entry in Hs; [exact Hs|done|done|].
    intros k (x & -> & Hx)%list_elem_of_fmap. apply list_elem_of_fmap_2. by apply raw_all.
  - intros H. apply fmap_Some in H as (v & (x & Hx & Hv)%bind_Some & ->).
    destruct (value_from_entry _ _ _ _ _ _ entries Hpart Hx) as (full & o & Hfull & Ho & Hfrom).
    rewrite Hfull in Hv. injection Hv as <-. rewrite Ho. by exists (f o).
Qed.

Lemma kept_answer_none u : kept_answer u = None -> lacks_entry m u.
Proof using entries.
  clear raw_all.  unfold kept_answer. intros H x Hx. rewrite Hx in H. cbn in H. destruct raw.
  - by destruct (ce_serialized x).
  - destruct (entries _ _ Hx) as (full & Hv & _). by rewrite Hv in H.
Qed.
End one_cache.
End last_cache.

(** ** The three methods *)

#[global] Instance static_field_inhabited : Inhabited StaticDataQueryField := populate SField_Cpu.
#[global] Instance dynamic_field_inhabited : Inhabited DynamicDataQueryField := populate DField_Cpu.

Section multi_last.
Context {crypto : Crypto} {serde : Serde} {jt : JsonText}.
Variables (uuid_display : Uuid -> string) (render : Json -> Json) (e : Env).
Context {S1 S2 S3 : Type} {ops1 : TableOps S1 StaticRow} {ops2 : TableOps S2 DynamicRow} {ops3 : TableOps S3 SummaryRow}.
Context {sops1 : StreamOps S1 StaticRow} {sops2 : StreamOps S2 DynamicRow} {sops3 : StreamOps S3 SummaryRow}.
Context {laws1 : StreamLaws sops1 sr_uuid_id sr_timestamp} {laws2 : StreamLaws sops2 dr_uuid_id dr_timestamp}.
Context {laws3 : StreamLaws sops3 mr_uuid_id mr_timestamp}.

Lemma descaled_none (o : list (string * Json)) k : assoc k (apply_descaling_to_json_object o) = None <-> assoc k o = None.
Proof. rewrite descaled_lookup. destruct (bool_decide _), (assoc k o); done. Qed.

Lemma is_all_static_spec fields : is_all_static_fields fields = true -> forall x, x ∈ all_static -> x ∈ fields.
Proof.
  unfold is_all_static_fields. rewrite forallb_forall. intros H x Hx%list_elem_of_In%H. by apply bool_decide_eq_true_1 in Hx.
Qed.
Lemma is_all_dynamic_spec fields : is_all_dynamic_fields fields = true -> forall x, x ∈ all_dynamic -> x ∈ fields.
Proof.
  unfold is_all_dynamic_fields. rewrite forallb_forall. intros H x Hx%list_elem_of_In%H. by apply bool_decide_eq_true_1 in Hx.
Qed.

Lemma cached_static_of fields last u :
  cached_static fields last u = kept_answer static_json_key (static_cache last) fields (is_all_static_fields fields) id u.
Proof.
  unfold cached_static, kept_answer, get_static_last, get_static_last_raw. destruct (is_all_static_fields fields); [done|].
  destruct (static_cache last !! u) as [x|]; [|done]. simpl. by destruct (as_object (ce_value x)).
Qed.
Lemma cached_dynamic_of fields last u :
  cached_dynamic fields last u = kept_answer dynamic_json_key (dynamic_cache last) fields (is_all_dynamic_fields fields) id u.
Proof.
  unfold cached_dynamic, kept_answer, get_dynamic_last, get_dynamic_last_raw. destruct (is_all_dynamic_fields fields); [done|].
  destruct (dynamic_cache last !! u) as [x|]; [|done]. simpl. by destruct (as_object (ce_value x)).
Qed.
Lemma cached_summary_of fields last u :
  cached_summary fields last u =
  kept_answer summary_json_key (dynamic_summary_cache last) (summary_selection fields)
    (match fields with [] => true | _ => false end) apply_descaling_to_json_object u.
Proof.
  unfold cached_summary, kept_answer, get_dynamic_summary_last, get_dynamic_summary_last_raw. destruct fields; [done|].
  destruct (dynamic_summary_cache last !! u) as [x|]; [|done]. simpl. by destruct (as_object (ce_value x)).
Qed.

(** The answer to a request for some agents. *)
Definition agents_answered {Row} (uuid_id_col timestamp_col : Row -> Z) (cache : option MonitoringUuidCacheInner) (uuids : list Uuid)
    (stored : list Row) (from_cache : Uuid -> list (string * Json) -> Prop) (lacks : Uuid -> Prop)
    (shown : MonitoringUuidCacheInner -> Row -> list (string * Json) -> Prop) (text : string) : Prop :=
  exists agents, NoDup agents /\ (forall u, u ∈ agents <-> u ∈ uuids) /\
    (agents = [] /\ text = "[]"%string \/
     exists c, cache = Some c /\ latest_answered uuid_id_col timestamp_col c agents stored from_cache lacks shown text).

#[local] Notation scopes_of uuids := (map Scope_AgentUuid uuids).

Lemma dedupe_nil uuids : dedupe_uuids uuids = [] -> uuids = [].
Proof.
  intros H. destruct uuids as [|u l]; [done|]. destruct (dedupe_spec (u :: l)) as [_ Hin].
  assert (u ∈ dedupe_uuids (u :: l)) as Hu by (apply Hin; by left). rewrite H in Hu. by apply not_elem_of_nil in Hu.
Qed.

(** A method: the token, the agents once each, the permission, and then the values. *)
Lemma multi_last_method {D Row} {ops : TableOps D Row} {sops : StreamOps D Row} (uuid_id_col timestamp_col : Row -> Z)
    {laws : StreamLaws sops uuid_id_col timestamp_col} token allowed msg cache last uuids cached item from_cache lacks shown d db' r :
  (forall c u x, last = Some c -> cached c u = Some x -> exists o, result_object x o /\ from_cache u o) ->
  (forall c u, last = Some c -> cached c u = None -> lacks u) ->
  (forall c x, x ∈ rows d -> exists o, item c x = JObject o /\ shown c x o) ->
  (let! t := lift (parse_token token) in
   match dedupe_uuids uuids with
   | [] => mret "[]"%string
   | deduped =>
       let! _ := lift (require_allowed (allowed t (scopes_of deduped)) msg) in
       multi_last_body uuid_display cache last deduped cached item
   end) (Some d) = (db', r) ->
  (exists d', db' = Some d' /\ rows d' = rows d) /\ forall text, r = Ok text ->
    (uuids = [] \/ exists t ss, parse_token token = Ok t /\ allowed t ss = Ok true /\ forall s, s ∈ scopes_of uuids -> s ∈ ss) /\
    agents_answered uuid_id_col timestamp_col cache uuids (rows d) from_cache lacks shown text.
Proof using.
  intros H1 H2 H3. rewrite mbind_run. unfold lift at 1. destruct (parse_token token) as [t|] eqn:Et;
    [|intros [= <- <-]; split; [by exists d|done]]. destruct (dedupe_spec uuids) as [Hnd Hin].
  destruct (dedupe_uuids uuids) as [|u l] eqn:Ed.
  - intros [= <- <-]. split; [by exists d|]. intros text [= <-]. split; [left; by apply dedupe_nil|].
    exists []. split_and!; [done|done|]. by left.
  - rewrite mbind_run. unfold lift at 1. destruct (require_allowed _ _) as [[]|] eqn:Ea; [|intros [= <- <-]; split; [by exists d|done]].
    intros H. destruct (multi_last_run uuid_id_col timestamp_col uuid_display cache last (u :: l) cached item from_cache lacks shown
                          d db' r H1 H2 H3 H) as [Hd Hok]. split; [done|]. intros text Htext. split.
    + right. exists t, (scopes_of (u :: l)). split_and!; [done|by eapply require_allowed_ok|].
      intros s (x & -> & Hx)%list_elem_of_fmap. apply list_elem_of_fmap_2. by apply Hin.
    + exists (u :: l). split_and!; [done|done|]. right. by apply Hok.
Qed.

Lemma may_read_sub {F} token ss ss' (perm : F -> Permission) fields :
  (forall s, s ∈ ss' -> s ∈ ss) -> may_read e token ss perm fields -> may_read e token ss' perm fields.
Proof. intros Hs. destruct fields; simpl; [intros (f & Hf); exists f; auto|auto]. Qed.

Lemma may_read_nothing {F} `{!Inhabited F} token (perm : F -> Permission) fields : may_read e token [] perm fields.
Proof. destruct fields; simpl; [exists inhabitant|]; by intros ? ?%not_elem_of_nil || by intros ? ? ?%not_elem_of_nil. Qed.

(** a request for the latest values of some agents is answered only to a token that may read
    the requested fields (without fields, some field; for summaries, summaries) of each of them.  The answer has
    exactly one entry per agent with a cached or a stored value, however often the agent was named:
    the cached value restricted to the requested fields, or else the newest stored row, with the
    agent, the time and exactly the requested fields.  The tables are never changed. *)
Theorem latest_values_exact token cache last uuids :
  renders render -> (forall c, last = Some c -> last_ok uuid_display c) ->
  (forall fields d db' r, small_ids sr_uuid_id (rows d) ->
     static_data_multi_last_query uuid_display render e token cache last uuids fields (Some d) = (db', r) ->
     (exists d', db' = Some d' /\ rows d' = rows d) /\ forall text, r = Ok text ->
       may_read e token (scopes_of uuids) static_read_permission fields /\
       agents_answered sr_uuid_id sr_timestamp cache uuids (rows d)
         (fun u o => exists c, last = Some c /\ from_entry uuid_display (static_cache c) id (map static_json_key fields) u o)
         (fun u => exists c, last = Some c /\ lacks_entry (static_cache c) u) (shows_static uuid_display fields) text) /\
  (forall fields d db' r, small_ids dr_uuid_id (rows d) ->
     dynamic_data_multi_last_query uuid_display render e token cache last uuids fields (Some d) = (db', r) ->
     (exists d', db' = Some d' /\ rows d' = rows d) /\ forall text, r = Ok text ->
       may_read e token (scopes_of uuids) dynamic_read_permission fields /\
       agents_answered dr_uuid_id dr_timestamp cache uuids (rows d)
         (fun u o => exists c, last = Some c /\ from_entry uuid_display (dynamic_cache c) id (map dynamic_json_key fields) u o)
         (fun u => exists c, last = Some c /\ lacks_entry (dynamic_cache c) u) (shows_dynamic uuid_display fields) text) /\
  (forall fields d db' r, small_ids mr_uuid_id (rows d) ->
     dynamic_summary_multi_last_query uuid_display e token cache last uuids fields (Some d) = (db', r) ->
     (exists d', db' = Some d' /\ rows d' = rows d) /\ forall text, r = Ok text ->
       (forall u, u ∈ uuids -> authorised e token (Scope_AgentUuid u) (P_DynamicMonitoringSummary Summary_Read)) /\
       agents_answered mr_uuid_id mr_timestamp cache uuids (rows d)
         (fun u o => exists c, last = Some c /\ from_entry uuid_display (dynamic_summary_cache c) apply_descaling_to_json_object
                                                (map summary_json_key (summary_selection fields)) u o)
         (fun u => exists c, last = Some c /\ lacks_entry (dynamic_summary_cache c) u) (shows_summary uuid_display fields) text).
Proof using laws1 laws2 laws3.
  intros Hr Hlast. split_and!; intros fields d db' r Hids H.
  - eapply (multi_last_method sr_uuid_id sr_timestamp token (fun t ss => static_read_allowed e t ss fields) STATIC_READ_DENIED) in H as [Hd Hok].
    + split; [exact Hd|]. intros text Ht. destruct (Hok text Ht) as [Ha Hans]. split; [|exact Hans].
      destruct Ha as [->|(t & ss & Et & Ha & Hs)]; [apply may_read_nothing|].
      eapply may_read_sub; [exact Hs|by eapply static_may_read].
    + intros c u x Hc. rewrite cached_static_of. intros Hx.
      destruct (kept_answer_some uuid_display static_json_key all_static (static_cache c) fields (is_all_static_fields fields) id
        (last_static _ _ (Hlast c Hc)) (is_all_static_spec fields) u x) as (o & Ho & Hfrom); [done|apply part_filtered|done|]. exists o. eauto.
    + intros c u Hc. rewrite cached_static_of. intros Hx%(kept_answer_none uuid_display _ _ _ _ _ _ (last_static _ _ (Hlast c Hc))). eauto.
    + intros c x Hx. apply static_item_shows; auto.
  - eapply (multi_last_method dr_uuid_id dr_timestamp token (fun t ss => dynamic_read_allowed e t ss fields) DYNAMIC_READ_DENIED) in H as [Hd Hok].
    + split; [exact Hd|]. intros text Ht. destruct (Hok text Ht) as [Ha Hans]. split; [|exact Hans].
      destruct Ha as [->|(t & ss & Et & Ha & Hs)]; [apply may_read_nothing|].
      eapply may_read_sub; [exact Hs|by eapply dynamic_may_read].
    + intros c u x Hc. rewrite cached_dynamic_of. intros Hx.
      destruct (kept_answer_some uuid_display dynamic_json_key all_dynamic (dynamic_cache c) fields (is_all_dynamic_fields fields) id
        (last_dynamic _ _ (Hlast c Hc)) (is_all_dynamic_spec fields) u x) as (o & Ho & Hfrom); [done|apply part_filtered|done|]. exists o. eauto.
    + intros c u Hc. rewrite cached_dynamic_of. intros Hx%(kept_answer_none uuid_display _ _ _ _ _ _ (last_dynamic _ _ (Hlast c Hc))). eauto.
    + intros c x Hx. apply dynamic_item_shows; auto.
  - eapply (multi_last_method mr_uuid_id mr_timestamp token (fun t ss => summary_read_allowed e t ss) SUMMARY_READ_DENIED) in H as [Hd Hok].
    + split; [exact Hd|]. intros text Ht. destruct (Hok text Ht) as [Ha Hans]. split; [|exact Hans].
      intros u Hu. destruct Ha as [->|(t & ss & Et & Ha & Hs)]; [by apply not_elem_of_nil in Hu|].
      eapply summary_may_read; [done|done|]. apply Hs. by apply list_elem_of_fmap_2.
    + intros c u x Hc. rewrite cached_summary_of. intros Hx.
      destruct (kept_answer_some uuid_display summary_json_key summary_fields (dynamic_summary_cache c) (summary_selection fields)
        (match fields with [] => true | _ => false end) apply_descaling_to_json_object
        (last_summary _ _ (Hlast c Hc)) ltac:(by destruct fields) u x) as (o & Ho & Hfrom); [apply descaled_none|apply part_descaled|done|]. exists o. eauto.
    + intros c u Hc. rewrite cached_summary_of. intros Hx%(kept_answer_none uuid_display _ _ _ _ _ _ (last_summary _ _ (Hlast c Hc))). eauto.
    + intros c x Hx. apply summary_item_shows; auto.
Qed.
End multi_last.
