(* ===== verification/MonQueryExamples.v ===== *)
(** * Examples of monitoring queries

    Streams over tables in memory, the witnesses of [MonQueryThms], and what a deletion does to
    the latest values. *)
From stdpp Require Import base strings gmap list numbers sorting pretty.
From Stdlib Require Import Ascii.
From S2P Require Import Prelude Errors Json Db Permission TokenCache Concrete TokenCheck KvAuth UuidCache LastCache Reports Selection MonDelete JsRun SnapshotQuery Snapshots MonQuery MonQueryThms.

(** ** Streams over a table in memory *)

#[global] Instance in_order_dec {Row} (ts : Row -> Z) o : RelDecision (in_order ts o).
Proof. intros a b. destruct o; simpl; apply _. Defined.
#[global] Instance in_order_total {Row} (ts : Row -> Z) o : Total (in_order ts o).
Proof. intros a b. destruct o; simpl; lia. Qed.
#[global] Instance in_order_trans {Row} (ts : Row -> Z) o : Transitive (in_order ts o).
Proof. intros a b c. destruct o; simpl; lia. Qed.

Section list_stream.
Context {Row : Type} (conflict : Row -> Row -> bool) (uid ts : Row -> Z).

Definition streamed (f : list Row -> list Row) : M (ListTable Row) StreamErr (list Row) := fun t =>
  let '(t', r) := stmt (fun t => ((tbl t, next_id t), Ok (f (tbl t)))) t in (t', map_err QueryFailed r).

Definition sorted_rows (p : Row -> bool) (o : SortOrder) (l : list Row) : list Row := merge_sort (in_order ts o) (List.filter p l).

#[local] Instance list_stream_ops : StreamOps (ListTable Row) Row := {|
  select_rows p o n := streamed (fun l => take (Z.to_nat n) (sorted_rows p o l));
  select_last ids := streamed (fun l => omap id (map (fun i => head (sorted_rows (fun r => (uid r =? i)%Z) Desc l)) ids)) |}.

Lemma streamed_run f t t' r : streamed f t = (t', r) -> tbl t' = tbl t /\ forall l, r = Ok l -> l = f (tbl t).
Proof. unfold streamed, stmt. destruct (outages t) as [|[] o]; intros [= <- <-]; (split; [done|]); intros l; simpl; congruence. Qed.

Lemma head_newest i l : newest_of uid ts l i (head (sorted_rows (fun r => (uid r =? i)%Z) Desc l)).
Proof.
  pose proof (merge_sort_Permutation (in_order ts Desc) (List.filter (fun r => (uid r =? i)%Z) l)) as Hp.
  pose proof (StronglySorted_merge_sort (in_order ts Desc) (List.filter (fun r => (uid r =? i)%Z) l)) as Hs.
  unfold sorted_rows. destruct (merge_sort _ _) as [|x rest]; simpl.
  - intros r Hr Hu. apply Permutation_nil_l in Hp. assert (In r (List.filter (fun r => (uid r =? i)%Z) l)) as Hin.
    { apply filter_In. split; [by apply list_elem_of_In|by apply Z.eqb_eq]. } by rewrite <-Hp in Hin.
  - assert (x ∈ List.filter (fun r => (uid r =? i)%Z) l) as Hx by (rewrite <-Hp; by left).
    apply list_elem_of_In, filter_In in Hx as [Hx Hu]. split_and!; [by apply list_elem_of_In|by apply Z.eqb_eq|].
    intros r Hr Hur. assert (r ∈ x :: rest) as Hin.
    { rewrite Hp. apply list_elem_of_In, filter_In. split; [by apply list_elem_of_In|by apply Z.eqb_eq]. }
    apply elem_of_cons in Hin as [->|Hin]; [done|]. apply StronglySorted_inv in Hs as [_ Hall]. rewrite Forall_forall in Hall. by apply Hall.
Qed.

#[local] Instance list_stream_table : TableOps (ListTable Row) Row := ListTable_ops conflict.
Lemma list_stream_laws : StreamLaws list_stream_ops uid ts.
Proof.
  split.
  - intros p o n d d' r [H _]%streamed_run. exact H.
  - intros p o n d d' l [_ H]%streamed_run. exists (sorted_rows p o (tbl d)). split_and!.
    + apply merge_sort_Permutation.
    + apply StronglySorted_merge_sort; apply _.
    + by apply H.
  - intros ids d d' r [H _]%streamed_run. exact H.
  - intros ids d d' l [_ H]%streamed_run. eexists. split; [|by rewrite (H l eq_refl)].
    clear H. induction ids; simpl; constructor; [apply head_newest|done].
Qed.
End list_stream.

#[global] Instance static_stream : StreamOps (ListTable StaticRow) StaticRow := list_stream_ops sr_uuid_id sr_timestamp.
#[global] Instance dynamic_stream : StreamOps (ListTable DynamicRow) DynamicRow := list_stream_ops dr_uuid_id dr_timestamp.
#[global] Instance summary_stream : StreamOps (ListTable SummaryRow) SummaryRow := list_stream_ops mr_uuid_id mr_timestamp.
#[global] Instance static_stream_laws : StreamLaws static_stream sr_uuid_id sr_timestamp := list_stream_laws static_conflict _ _.
#[global] Instance dynamic_stream_laws : StreamLaws dynamic_stream dr_uuid_id dr_timestamp := list_stream_laws dynamic_conflict _ _.
#[global] Instance summary_stream_laws : StreamLaws summary_stream mr_uuid_id mr_timestamp := list_stream_laws summary_conflict _ _.

(** ** A printer *)

Definition quoted (s : string) : string := String "034"%char (s +:+ String "034"%char EmptyString).
Fixpoint show_json (v : Json) : string :=
  match v with
  | JNull => "null"
  | JBool b => if b then "true" else "false"
  | JNum (NumInt z) => pretty z
  | JNum (NumFloat b) => "float " +:+ pretty b
  | JString s => quoted s
  | JArray l => "[" +:+ String.concat "," (map show_json l) +:+ "]"
  | JObject o => "{" +:+ String.concat "," (map (fun '(k, v) => quoted k +:+ ":" +:+ show_json v) o) +:+ "}"
  end.
#[local] Instance printed_json : JsonText := {| json_from_str _ := Err "not parsed"%string; json_to_string v := Ok (show_json v) |}.

Lemma plain_columns : renders (fun v => v).
Proof. intros v. by left. Qed.

(** ** Two agents, one of them with two reports *)

Definition report_row (id uuid_id timestamp cores : Z) : StaticRow :=
  {| sr_id := id; sr_uuid_id := uuid_id; sr_timestamp := timestamp; sr_storage_time := Some timestamp;
     sr_cpu_data := JNum (NumInt cores); sr_system_data := JNull; sr_gpu_data := JNull; sr_data_hash := [id] |}.
Definition report_table : ListTable StaticRow :=
  {| tbl := [report_row 1 1 100 4; report_row 2 1 200 8; report_row 3 2 150 2]; next_id := 4; outages := [] |}.

Lemma report_ids : small_ids sr_uuid_id (rows report_table).
Proof.
  intros r Hr. change (rows report_table) with (tbl report_table) in Hr. simpl in Hr. rewrite !elem_of_cons, elem_of_nil in Hr.
  destruct Hr as [->|[->|[->|[]]]]; unfold in_i16, i16_min, i16_max; simpl; lia.
Qed.

#[local] Notation query_cpu conditions :=
  (query_static show_uuid (fun v => v) sample_env "rootkey:rootsecret" (Some known_agents) [SField_Cpu] conditions (Some report_table)).
#[local] Notation latest_cpu last table :=
  (static_data_multi_last_query show_uuid (fun v => v) sample_env "rootkey:rootsecret" (Some known_agents) (Some last)
     [10%N; 20%N; 10%N] [SField_Cpu] (Some table)).

Definition newest_first : list QueryCondition := [QUuid 10%N; QLimit 5].
Definition cached_report : MonitoringLastCache :=
  update_static_prebuilt json_text 10%N (build_static_value_prebuilt show_uuid 10%N 300 (JNum (NumInt 16)) JNull JNull) new_last_cache.

Lemma monitoring_query_exact_witness : exists db' text,
  query_cpu newest_first = (db', Ok text) /\ may_read sample_env "rootkey:rootsecret" (query_scopes newest_first) static_read_permission [SField_Cpu] /\
  answered sr_uuid_id sr_timestamp sr_storage_time (Some known_agents) newest_first (rows report_table) (shows_static show_uuid [SField_Cpu]) text.
Proof.
  destruct (query_cpu newest_first) as [db' r] eqn:E.
  assert (exists text, r = Ok text) as [text ->].
  { assert (r = (query_cpu newest_first).2) as -> by (by rewrite E). vm_compute. eexists. reflexivity. }
  destruct (proj1 (monitoring_query_exact (S1 := ListTable StaticRow) (S2 := ListTable DynamicRow) (S3 := ListTable SummaryRow) show_uuid
    (fun v => v) sample_env "rootkey:rootsecret" (Some known_agents) newest_first plain_columns) _ _ _ _ report_ids E) as [_ H].
  exists db', text. split; [reflexivity|]. exact (H text eq_refl).
Defined.

Lemma cached_report_ok c : Some cached_report = Some c -> last_ok show_uuid c.
Proof. intros [= <-]. apply update_static_ok, new_last_ok. Qed.

Lemma latest_values_exact_witness : exists db' text,
  latest_cpu cached_report report_table = (db', Ok text) /\
  agents_answered sr_uuid_id sr_timestamp (Some known_agents) [10%N; 20%N; 10%N] (rows report_table)
    (fun u o => exists c, Some cached_report = Some c /\ from_entry show_uuid (static_cache c) id (map static_json_key [SField_Cpu]) u o)
    (fun u => exists c, Some cached_report = Some c /\ lacks_entry (static_cache c) u) (shows_static show_uuid [SField_Cpu]) text.
Proof.
  destruct (latest_cpu cached_report report_table) as [db' r] eqn:E.
  assert (exists text, r = Ok text) as [text ->].
  { assert (r = (latest_cpu cached_report report_table).2) as -> by (by rewrite E). vm_compute. eexists. reflexivity. }
  destruct (proj1 (latest_values_exact (S1 := ListTable StaticRow) (S2 := ListTable DynamicRow) (S3 := ListTable SummaryRow) show_uuid
    (fun v => v) sample_env "rootkey:rootsecret" (Some known_agents) (Some cached_report) [10%N; 20%N; 10%N] plain_columns cached_report_ok)
    _ _ _ _ report_ids E) as [_ H].
  exists db', text. split; [reflexivity|]. exact (proj2 (H text eq_refl)).
Defined.

(** ** Deleted values stay the latest *)

Lemma no_misses cached pairs n : Forall (fun u => cached u <> None) (map fst pairs) -> misses_from cached n pairs = [].
Proof.
  revert n. induction pairs as [|[u i] pairs IH]; intros n; simpl; [done|]. intros [Hu Hf]%Forall_cons.
  destruct (cached u); [by apply IH|done].
Qed.

(** What [multi_last] answers for cached agents does not depend on the table, so that it goes on
    to answer with values that were deleted, for which the query with [Last] finds nothing. *)
Theorem latest_survives_deletion `{Crypto} `{Serde} `{JsonText} {S} {ops : TableOps S StaticRow} {sops : StreamOps S StaticRow}
    display render e token cache last uuids fields (d d' : S) :
  (forall u, u ∈ uuids -> cached_static fields last u <> None) ->
  (static_data_multi_last_query display render e token cache (Some last) uuids fields (Some d)).2 =
  (static_data_multi_last_query display render e token cache (Some last) uuids fields (Some d')).2.
Proof.
  intros Hc. unfold static_data_multi_last_query. rewrite !mbind_run. unfold lift at 1 3. destruct (parse_token token) as [t|]; [|done].
  destruct (dedupe_spec uuids) as [_ Hin]. destruct (dedupe_uuids uuids) as [|u l] eqn:Ed; [done|]. rewrite !mbind_run. unfold lift.
  destruct (require_allowed _ _); [|done]. unfold multi_last_body. destruct (rbind _ _) as [[[c pairs] lc]|err] eqn:E; [|done].
  apply rbind_ok in E as (c' & _ & (ps & Hps & (lc' & [= <-] & [= -> -> <-])%rbind_ok)%rbind_ok).
  destruct (last_uuid_ids_ok _ _ _ _ Hps) as [Hfst _]. rewrite !look_up_spec, no_misses; [done|]. rewrite Hfst.
  apply Forall_forall. intros x Hx. apply Hc, Hin, Hx.
Qed.

Example deleted_still_latest :
  (query_static show_uuid (fun v => v) sample_env "rootkey:rootsecret" (Some known_agents) [SField_Cpu] [QUuid 10%N; QLast]
     (Some (no_rows (Row := StaticRow)))).2 = Ok "[]"%string /\
  (latest_cpu cached_report (no_rows (Row := StaticRow))).2 <> Ok "[]"%string.
Proof. split; vm_compute; [reflexivity|discriminate]. Qed.
