(* ===== verification/DbRegistry.v ===== *)
(** * User databases

    [ng-db/src/db_registry.rs] and the [db] methods of [ng-db/src/rpc/db]: SQLite databases that
    clients create, rename, query and delete.  A database is a row of the table [db_registry], a
    file on disk and, while it is open, a connection in the pool.  A file is known by an identity that
    survives renaming; a connection is the identity of the file it was opened on.  Disk and
    SQLite are an interface with laws. *)
From stdpp Require Import base strings gmap list numbers sorting pretty.
From Stdlib Require Import Ascii.
From S2P Require Import Prelude Errors Json Db Permission TokenCache TokenCheck KvAuth LastCache JsRun Selection SnapshotQuery MonQuery StaticPath.

Record DbModel : Type := {
  db_id : Z; db_name : string; db_max_lifetime_ms : option Z; db_created_at : Z }.

#[global] Instance db_model_eq_dec : EqDecision DbModel.
Proof. solve_decision. Defined.

(** The primary key and the unique index on the name. *)
Definition db_conflict (a b : DbModel) : bool := (db_id a =? db_id b)%Z || String.eqb (db_name a) (db_name b).

(** ** Parameters and results of statements *)

Inductive SeaValue : Type :=
| SvJson (v : option Json) | SvBool (b : bool) | SvBigInt (z : Z) | SvBigUnsigned (z : Z) | SvDouble (bits : Z)
| SvString (s : string).

Definition number_as_u64 (n : JNumber) : option Z :=
  match n with
  | NumInt z => if ((0 <=? z) && (z <=? u64_max))%Z then Some z else None
  | NumFloat _ => None
  end.

(** An integer outside both ranges does not occur in a parsed number. *)
Definition json_to_sea_value (json : Json) : SeaValue :=
  match json with
  | JNull => SvJson None
  | JBool b => SvBool b
  | JNum n =>
      match number_as_i64 n with
      | Some i => SvBigInt i
      | None => match number_as_u64 n with
                | Some u => SvBigUnsigned u
                | None => SvDouble (f64_to_bits (number_as_f64 n))
                end
      end
  | JString s => SvString s
  | JArray _ | JObject _ => SvJson (Some json)
  end.

(** A cell of a result: what the driver can read it as; [Some None] is NULL. *)
Record Cell : Type := {
  try_string : option (option string); try_i64 : option (option Z); try_u32 : option (option Z);
  try_f64 : option (option f64); try_bool : option (option bool); try_bytes : option (option (list Z));
  try_json : option (option Json) }.

Section cells.
Context {crypto : Crypto} (json_from_slice : list Z -> option Json).

Definition or_null {A} (f : A -> Json) (v : option A) : Json := match v with Some a => f a | None => JNull end.

Definition try_column_as_json (r : Cell) : Json :=
  match try_string r with Some v => or_null JString v | None =>
  match try_i64 r with Some v => or_null (fun n => JNum (NumInt n)) v | None =>
  match try_u32 r with Some v => or_null (fun n => JNum (NumInt n)) v | None =>
  match try_f64 r with
  | Some v => or_null (fun n => match number_from_f64 n with Some x => JNum x | None => JNull end) v
  | None =>
  match try_bool r with Some v => or_null JBool v | None =>
  match try_bytes r with
  | Some v => or_null (fun bytes => match json_from_slice bytes with Some j => j | None => JString (hex_encode bytes) end) v
  | None =>
  match try_json r with Some v => or_null (fun j => j) v | None => JNull end end end end end end end.

Definition row_to_json (r : list (string * Cell)) : Json :=
  JObject (fold_left (fun o '(col, c) => assoc_insert col (try_column_as_json c) o) r []).
End cells.

Definition EXEC_SQL_RESULT_TRUNCATE_LIMIT : nat := Z.to_nat MAX_QUERY_LIMIT.

(** ** Disk and SQLite *)

(** The files SQLite keeps beside a database. *)
Definition side_file (q : string) : Prop := exists p, q = p +:+ "-wal" \/ q = p +:+ "-shm".

Class DiskOps (F : Type) : Type := {
  (** the identity of the file at a path *)
  file_at : F -> string -> option Z;
  (** [Database::connect] with [mode=rwc] and the pragmas after it *)
  sqlite_connect : string -> M F DbErr Z;
  db_rename : string -> string -> M F string unit;
  db_remove : string -> M F string unit;
  query_all_raw : Z -> string -> list SeaValue -> M F DbErr (list (list (string * Cell)));
  (** the statement opens no other database: neither [ATTACH] nor [VACUUM INTO] *)
  confined : string -> Prop;
}.

Class DiskLaws {F : Type} (ops : DiskOps F) : Prop := {
  connect_frame : forall p d d' r q, sqlite_connect p d = (d', r) -> q <> p -> ~ side_file q -> file_at d' q = file_at d q;
  connect_ok : forall p d d' i, sqlite_connect p d = (d', Ok i) ->
    file_at d' p = Some i /\ (file_at d p = Some i \/ file_at d p = None /\ forall q, file_at d q <> Some i);
  connect_err : forall p d d' err, sqlite_connect p d = (d', Err err) ->
    file_at d' p = file_at d p \/ file_at d p = None /\ exists i, file_at d' p = Some i /\ forall q, file_at d q <> Some i;
  rename_ok : forall a b d d' q, a <> b -> db_rename a b d = (d', Ok tt) ->
    file_at d' q = (if String.eqb q b then file_at d a else if String.eqb q a then None else file_at d q);
  rename_err : forall a b d d' m q, db_rename a b d = (d', Err m) -> file_at d' q = file_at d q;
  remove_ok : forall p d d' q, db_remove p d = (d', Ok tt) -> file_at d' q = if String.eqb q p then None else file_at d q;
  remove_err : forall p d d' m q, db_remove p d = (d', Err m) -> file_at d' q = file_at d q;
  query_frame : forall i sql ps d d' r q, confined sql -> query_all_raw i sql ps d = (d', r) -> ~ side_file q -> file_at d' q = file_at d q;
}.

(** ** The manager *)

Record TrackedConnection : Type := { tc_conn : Z; tc_last_used_ms : Z }.
Record DbRegistryManager : Type := { mgr_db_path : string; mgr_pools : gmap string TrackedConnection }.

Fixpoint trim_end_slashes (s : string) : string :=
  match s with
  | EmptyString => EmptyString
  | String c s' => match trim_end_slashes s' with
                   | EmptyString => if Ascii.eqb c "/" then EmptyString else String c EmptyString
                   | t => String c t
                   end
  end.

Definition get_db_path (m : DbRegistryManager) (name : string) : string :=
  trim_end_slashes (mgr_db_path m) +:+ "/" +:+ name +:+ ".db".

Record DbWorld (R F : Type) : Type := { dw_main : option R; dw_disk : F; dw_mgr : option DbRegistryManager }.
Arguments dw_main {R F}. Arguments dw_disk {R F}. Arguments dw_mgr {R F}.

Definition valid_db_name (name : string) : bool :=
  negb (str_is_empty name) && (String.length name <=? 128)%nat && all_chars name_char name
  && negb (String.eqb name ".") && negb (String.eqb name "..").

Definition validate_db_name (name : string) : result anyhow unit :=
  if str_is_empty name then fail_with (InvalidInput "db name cannot be empty") else
  if (128 <? String.length name)%nat then fail_with (InvalidInput "db name too long (max 128 chars)") else
  if negb (all_chars name_char name)
  then fail_with (InvalidInput "db name contains invalid characters (only [A-Za-z0-9_.-] allowed)") else
  if String.eqb name "." || String.eqb name ".." then fail_with (InvalidInput "db name cannot be '.' or '..'")
  else Ok tt.

Definition db_debug (p : DbPerm) : string :=
  match p with
  | Db_List => "List" | Db_Read => "Read" | Db_Create => "Create" | Db_Update => "Update" | Db_Delete => "Delete"
  | Db_ExecSql => "ExecSql"
  end.

Definition check_db_permission (e : Env) (token db_name : string) (permission : DbPerm) : result anyhow unit :=
  let? token_or_auth := parse_token token in
  let? provider := require_permission_checker e in
  let? is_allowed := pc_check_token_limit provider token_or_auth [Scope_Db db_name] [P_Db permission] in
  if (is_allowed : bool) then Ok tt
  else denied ("Permission Denied: Requires Db::" +:+ db_debug permission +:+ " on Scope::Db(" +:+ db_name +:+ ")").

Section registry.
Context {R F : Type} {rops : TableOps R DbModel} {dops : DiskOps F}.
#[local] Notation DW := (DbWorld R F).
Definition Dm (A : Type) : Type := M DW anyhow A.

Definition set_main (x : R) (w : DW) : DW := {| dw_main := Some x; dw_disk := dw_disk w; dw_mgr := dw_mgr w |}.
Definition set_disk (x : F) (w : DW) : DW := {| dw_main := dw_main w; dw_disk := x; dw_mgr := dw_mgr w |}.
Definition set_pools (f : gmap string TrackedConnection -> gmap string TrackedConnection) (w : DW) : DW :=
  {| dw_main := dw_main w; dw_disk := dw_disk w;
     dw_mgr := option_map (fun m => {| mgr_db_path := mgr_db_path m; mgr_pools := f (mgr_pools m) |}) (dw_mgr w) |}.

(** [?] on a [DbErr]. *)
Definition db_err (err : DbErr) : anyhow := OfText (db_msg err).

Definition on_main {A} (absent : anyhow) (m : M R DbErr A) : Dm A := fun w =>
  match dw_main w with
  | Some d => let '(d', r) := m d in (set_main d' w, map_err db_err r)
  | None => (w, Err absent)
  end.
Definition on_disk {E A} (conv : E -> anyhow) (m : M F E A) : Dm A := fun w =>
  let '(d', r) := m (dw_disk w) in (set_disk d' w, map_err conv r).
(** A disk operation whose failure is only logged. *)
Definition try_disk {E A} (m : M F E A) : Dm unit := fun w => (set_disk (m (dw_disk w)).1 w, Ok tt).
Definition update_pools (f : gmap string TrackedConnection -> gmap string TrackedConnection) : Dm unit :=
  fun w => (set_pools f w, Ok tt).

(** [get_main_db] and, in the methods, [get_db]. *)
Definition no_main_db : anyhow := OfText "Main DB not initialized".
Definition main_not_initialized : anyhow := OfNodeget (DatabaseError "Main database not initialized").

Definition mgr_global : Dm DbRegistryManager := fun w =>
  (w, ok_or (OfNodeget (ConfigNotFound "DbRegistryManager not initialized")) (dw_mgr w)).

Definition named (name : string) (r : DbModel) : bool := String.eqb (db_name r) name.
Definition with_db_id (i : Z) (r : DbModel) : bool := (db_id r =? i)%Z.
Definition set_lifetime (max_lifetime_ms : option Z) (r : DbModel) : DbModel :=
  {| db_id := db_id r; db_name := db_name r;
     db_max_lifetime_ms := match max_lifetime_ms with Some _ => max_lifetime_ms | None => db_max_lifetime_ms r end;
     db_created_at := db_created_at r |}.
Definition set_db_name (name : string) (r : DbModel) : DbModel :=
  {| db_id := db_id r; db_name := name; db_max_lifetime_ms := db_max_lifetime_ms r; db_created_at := db_created_at r |}.

Definition has_conn (m : DbRegistryManager) (name : string) : bool :=
  match mgr_pools m !! name with Some _ => true | None => false end.

(** [now] is the clock, [now_ms_u64()]. *)
Definition get_conn (now : Z) (name : string) : Dm (option Z) := fun w =>
  match dw_mgr w ≫= fun m => mgr_pools m !! name with
  | Some tracked => (set_pools <[name := {| tc_conn := tc_conn tracked; tc_last_used_ms := now |}]> w, Ok (Some (tc_conn tracked)))
  | None => (w, Ok None)
  end.

(** The registry row of [create_conn]: inserted, or its lifetime set. *)
Definition register (now : Z) (name : string) (max_lifetime_ms : option Z) : Dm unit :=
  let! existing := on_main no_main_db (find_one (named name)) in
  match existing with
  | Some existing_model =>
      let! _ := on_main no_main_db (update_one (with_db_id (db_id existing_model)) (set_lifetime max_lifetime_ms)) in mret tt
  | None =>
      let! _ := on_main no_main_db (insert_auto (fun i =>
        {| db_id := i; db_name := name; db_max_lifetime_ms := max_lifetime_ms; db_created_at := cast_signed64 now |})) in mret tt
  end.

Definition create_conn (now : Z) (m : DbRegistryManager) (name : string) (max_lifetime_ms : option Z) : Dm Z :=
  let! conn := on_disk db_err (sqlite_connect (get_db_path m name)) in
  let! _ := register now name max_lifetime_ms in
  let! _ := update_pools <[name := {| tc_conn := conn; tc_last_used_ms := now |}]> in
  mret conn.

(** [if exists { remove_file }], a failure logged. *)
Definition remove_if_exists (path : string) : Dm unit := fun w =>
  match file_at (dw_disk w) path with
  | Some _ => try_disk (db_remove path) w
  | None => (w, Ok tt)
  end.

(** The deletion of the row; its failure is logged, that of the look-up returned. *)
Definition unregister (name : string) : Dm unit :=
  let! found := on_main no_main_db (find_one (named name)) in
  match found with
  | Some model => fun w => ((on_main no_main_db (delete_many (with_db_id (db_id model))) w).1, Ok tt)
  | None => mret tt
  end.

Definition remove_files (db_file : string) : Dm unit :=
  let! _ := remove_if_exists db_file in
  let! _ := remove_if_exists (db_file +:+ "-wal") in
  remove_if_exists (db_file +:+ "-shm").

Definition remove_conn (m : DbRegistryManager) (name : string) : Dm unit :=
  let! _ := update_pools (delete name) in
  let! _ := unregister name in
  remove_files (get_db_path m name).

(** ** Start-up and expiry *)

Fixpoint connect_all (now : Z) (m : DbRegistryManager) (entries : list DbModel) : Dm (list (string * TrackedConnection)) :=
  match entries with
  | [] => mret []
  | entry :: rest =>
      if negb (valid_db_name (db_name entry)) then connect_all now m rest else
      fun w =>
        let '(d', r) := sqlite_connect (get_db_path m (db_name entry)) (dw_disk w) in
        let '(w', built) := connect_all now m rest (set_disk d' w) in
        (w', let? l := built in
             Ok (match r with
                 | Ok conn => (db_name entry, {| tc_conn := conn; tc_last_used_ms := now |}) :: l
                 | Err _ => l
                 end))
  end.

Definition seed_from_dbreg (now : Z) (m : DbRegistryManager) : Dm unit :=
  let! entries := on_main no_main_db (find_all (fun _ => true)) in
  let! built := connect_all now m entries in
  update_pools (fun pools => fold_left (fun p '(name, tracked) => <[name := tracked]> p) built pools).

(** [elapsed >= lifetime], the elapsed time as an [i64]. *)
Definition expired (now last_used lifetime_ms : Z) : bool := (lifetime_ms <=? cast_signed64 (sat_sub_u64 now last_used))%Z.

Definition lifetime_of (entries : list DbModel) (name : string) : option Z :=
  list_find (fun r => db_name r = name) entries ≫= fun x => db_max_lifetime_ms x.2.

Definition to_remove (now : Z) (entries : list DbModel) (candidates : list (string * TrackedConnection)) : list string :=
  omap (fun '(name, tracked) =>
    match lifetime_of entries name with
    | Some lifetime_ms => if expired now (tc_last_used_ms tracked) lifetime_ms then Some name else None
    | None => None
    end) candidates.

Fixpoint remove_all (m : DbRegistryManager) (names : list string) : Dm unit :=
  match names with
  | [] => mret tt
  | name :: rest => fun w => remove_all m rest (remove_conn m name w).1
  end.

Definition cleanup_expired (now : Z) (m : DbRegistryManager) : Dm unit :=
  let! _ := fun w => (w, ok_or no_main_db (dw_main w)) in
  let! candidates := fun w => (w, Ok (match dw_mgr w with Some m => map_to_list (mgr_pools m) | None => [] end)) in
  let! all_entries := on_main no_main_db (find_all (fun _ => true)) in
  remove_all m (to_remove now all_entries candidates).

Record DbInfo : Type := {
  di_id : Z; di_name : string; di_file_path : string; di_max_lifetime_ms : option Z; di_created_at : Z; di_is_active : bool }.

#[local] Instance model_name_le_dec `{NameOrder} : RelDecision (fun a b : DbModel => name_le (db_name a) (db_name b)).
Proof. intros a b. apply _. Defined.

Definition list_all `{NameOrder} (m : DbRegistryManager) : Dm (list DbInfo) :=
  let! entries := on_main no_main_db (find_all (fun _ => true)) in
  fun w => (w, Ok (map (fun e => {|
    di_id := db_id e; di_name := db_name e; di_file_path := get_db_path m (db_name e);
    di_max_lifetime_ms := db_max_lifetime_ms e; di_created_at := db_created_at e;
    di_is_active := match dw_mgr w with Some m => has_conn m (db_name e) | None => false end |})
    (merge_sort (fun a b => name_le (db_name a) (db_name b)) entries))).

(** ** The methods *)

Definition jint (z : Z) : Json := JNum (NumInt z).

Definition create (e : Env) (now : Z) (token name : string) : Dm Json :=
  let! _ := lift (validate_db_name name) in
  let! _ := lift (check_db_permission e token name Db_Create) in
  let! existing := on_main main_not_initialized (find_one (named name)) in
  match existing with
  | Some _ => mfail (OfNodeget (InvalidInput ("Database '" +:+ name +:+ "' already exists")))
  | None =>
      let! mgr := mgr_global in
      let! _ := create_conn now mgr name None in
      mret (JObject [("success", JBool true);
                     ("data", JObject [("name", JString name); ("file_path", JString (get_db_path mgr name))])]%string)
  end.

Definition not_found_error (name : string) : anyhow := OfNodeget (NotFound ("Database '" +:+ name +:+ "' not found")).

Definition delete_db (e : Env) (token name : string) : Dm Json :=
  let! _ := lift (validate_db_name name) in
  let! _ := lift (check_db_permission e token name Db_Delete) in
  let! model := on_main main_not_initialized (find_one (named name)) in
  let! _ := lift (ok_or (not_found_error name) model) in
  let! mgr := mgr_global in
  let! _ := (fun w => let '(w', r) := remove_conn mgr name w in
                      (w', map_err (fun err => OfNodeget (DatabaseError ("Failed to delete database: " +:+ anyhow_display err))) r)) in
  mret (JObject [("success", JBool true)]%string).

Definition read_db (e : Env) (token name : string) : Dm Json :=
  let! _ := lift (check_db_permission e token name Db_Read) in
  let! found := on_main main_not_initialized (find_one (named name)) in
  let! model := lift (ok_or (not_found_error name) found) in
  let! mgr := mgr_global in
  mret (JObject [("success", JBool true);
                 ("data", JObject [("id", jint (db_id model)); ("name", JString (db_name model));
                                   ("created_at", jint (db_created_at model)); ("active", JBool (has_conn mgr name))])]%string).

(** Renaming the file and then, best effort, the files beside it. *)
Definition rename_side (old_file new_file ext : string) : Dm unit := fun w =>
  match file_at (dw_disk w) (old_file +:+ ext) with
  | Some _ => try_disk (db_rename (old_file +:+ ext) (new_file +:+ ext)) w
  | None => (w, Ok tt)
  end.
Definition rename_files (old_file new_file : string) : Dm unit := fun w =>
  match file_at (dw_disk w) old_file with
  | Some _ =>
      (let! _ := on_disk (fun m => OfNodeget (IoError ("Failed to rename db file: " +:+ m))) (db_rename old_file new_file) in
       let! _ := rename_side old_file new_file "-wal" in
       rename_side old_file new_file "-shm") w
  | None => (w, Ok tt)
  end.

Definition rollback_files (old_file new_file : string) : Dm unit := fun w =>
  match file_at (dw_disk w) new_file with
  | Some _ =>
      (let! _ := try_disk (db_rename new_file old_file) in
       let! _ := rename_side new_file old_file "-wal" in
       rename_side new_file old_file "-shm") w
  | None => (w, Ok tt)
  end.

(** The request up to the renamed file; the method goes on with [update_finish]. *)
Definition update_start (e : Env) (token name new_name : string) : Dm (DbModel * DbRegistryManager) :=
  let! _ := lift (validate_db_name name) in
  let! _ := lift (validate_db_name new_name) in
  let! _ := lift (check_db_permission e token name Db_Update) in
  let! _ := lift (check_db_permission e token new_name Db_Update) in
  let! found := on_main main_not_initialized (find_one (named name)) in
  let! model := lift (ok_or (not_found_error name) found) in
  let! existing := on_main main_not_initialized (find_one (named new_name)) in
  match existing with
  | Some _ => mfail (OfNodeget (InvalidInput ("Database '" +:+ new_name +:+ "' already exists")))
  | None =>
      let! mgr := mgr_global in
      let! _ := rename_files (get_db_path mgr name) (get_db_path mgr new_name) in
      mret (model, mgr)
  end.

Definition update_finish (now : Z) (name new_name : string) (model : DbModel) (mgr : DbRegistryManager) : Dm Json := fun w =>
  match on_main main_not_initialized (update_one (with_db_id (db_id model)) (set_db_name new_name)) w with
  | (w1, Ok updated) =>
      let w2 := (remove_conn mgr name w1).1 in
      let w3 := (create_conn now mgr new_name (db_max_lifetime_ms updated) w2).1 in
      (w3, Ok (JObject [("success", JBool true);
                        ("data", JObject [("id", jint (db_id updated)); ("name", JString (db_name updated));
                                          ("created_at", jint (db_created_at updated))])]%string))
  | (w1, Err err) =>
      ((rollback_files (get_db_path mgr name) (get_db_path mgr new_name) w1).1,
       Err (OfNodeget (DatabaseError ("Failed to update registry after rename: " +:+ anyhow_display err))))
  end.

Definition update_db (e : Env) (now : Z) (token name new_name : string) : Dm Json :=
  let! (model, mgr) := update_start e token name new_name in
  update_finish now name new_name model mgr.

Definition db_info_json (i : DbInfo) : Json := JObject [
  ("id", jint (di_id i)); ("name", JString (di_name i)); ("file_path", JString (di_file_path i));
  ("max_lifetime_ms", match di_max_lifetime_ms i with Some z => jint z | None => JNull end);
  ("created_at", jint (di_created_at i)); ("is_active", JBool (di_is_active i))]%string.

Definition list_dbs `{NameOrder} (e : Env) (token : string) : Dm Json :=
  let! token_or_auth := lift (parse_token token) in
  let! provider := lift (require_permission_checker e) in
  let! is_allowed := lift (pc_check_token_limit provider token_or_auth [Scope_Global] [P_Db Db_List]) in
  if negb is_allowed then mfail (OfNodeget (PermissionDenied "Permission Denied: Requires Db::List in Global scope")) else
  let! mgr := mgr_global in
  let! all := list_all mgr in
  mret (JObject [("success", JBool true); ("data", JArray (map db_info_json all))]%string).

Definition sea_params (params : option Json) : result anyhow (list SeaValue) :=
  match params with
  | Some (JArray arr) => Ok (map json_to_sea_value arr)
  | Some JNull | None => Ok []
  | _ => fail_with (InvalidInput "params must be an array or null")
  end.

Definition exec_sql_inner {crypto : Crypto} (json_from_slice : list Z -> option Json) (e : Env) (now : Z)
    (db_name sql : string) (params : option Json) (token : string) : Dm Json :=
  let! _ := lift (check_db_permission e token db_name Db_ExecSql) in
  let! _ := mgr_global in
  let! found := get_conn now db_name in
  let! db_conn := lift (ok_or (OfNodeget (DatabaseError ("Database '" +:+ db_name +:+ "' not found"))) found) in
  let! values := lift (sea_params params) in
  let! rows := on_disk db_err (query_all_raw db_conn sql values) in
  let truncated := (EXEC_SQL_RESULT_TRUNCATE_LIMIT <? length rows)%nat in
  let kept := if truncated then take EXEC_SQL_RESULT_TRUNCATE_LIMIT rows else rows in
  mret (JObject [("success", JBool true); ("data", JArray (map (row_to_json json_from_slice) kept));
                 ("row_count", jint (Z.of_nat (length rows))); ("truncated", JBool truncated)]%string).
End registry.

(** ** The main database on the console

    [ng-db/src/rpc/nodeget]: the methods with which an operator queries the main database of the server, here a
    parameter. *)

Inductive DbBackend : Type := BackendSqlite | BackendPostgres | BackendMySql | BackendOther (debug : string).
Record TableSizeRow : Type := { ts_table_name : string; ts_table_size : Z }.

Class MainDb (D : Type) : Type := {
  main_backend : D -> DbBackend;
  main_query_all : string -> list SeaValue -> D -> D * result string (list (list (string * Cell)));
  main_table_names : string -> list string -> D -> result string (list string);
  main_table_sizes : string -> list string -> D -> result string (list TableSizeRow);
}.

Definition EXCLUDED_TABLES : list string := ["seaql_migrations"%string].

Section console.
Context {D : Type} {main : MainDb D} {crypto : Crypto}.
Variable e : Env.

(** The check both methods with a permission of their own begin with. *)
Definition console_allowed (token : string) (permission : NodeGet) (name : string) : result anyhow unit :=
  let? token_or_auth := parse_token token in
  let? provider := require_permission_checker e in
  let? is_allowed := pc_check_token_limit provider token_or_auth [Scope_Global] [P_NodeGet permission] in
  if (is_allowed : bool) then Ok tt else denied ("Permission Denied: missing nodeget." +:+ name +:+ " permission").

Definition console_exec_sql (json_from_slice : list Z -> option Json) (token sql : string) (params : option Json) (d : option D) : option D * result anyhow Json :=
  match console_allowed token NodeGet_ExecSql "exec_sql" with
  | Err err => (d, Err err)
  | Ok _ =>
      match d with
      | None => (d, fail_with (DatabaseError "Database not initialized"))
      | Some db =>
          match sea_params params with
          | Err err => (d, Err err)
          | Ok values =>
              let '(db', r) := main_query_all sql values db in
              (Some db',
               let? rows := map_err OfText r in
               let truncated := (EXEC_SQL_RESULT_TRUNCATE_LIMIT <? length rows)%nat in
               let kept := if truncated then take EXEC_SQL_RESULT_TRUNCATE_LIMIT rows else rows in
               Ok (JObject [("success", JBool true); ("data", JArray (map (row_to_json json_from_slice) kept));
                            ("row_count", jint (Z.of_nat (length rows))); ("truncated", JBool truncated)]%string))
          end
      end
  end.

Definition get_database_type (token : string) (d : option D) : result anyhow Json :=
  let? _ := console_allowed token NodeGet_GetDatabaseType "get_database_type" in
  let? db := ok_or (OfNodeget (DatabaseError "Database not initialized")) d in
  let db_type := match main_backend db with
                 | BackendSqlite => "sqlite" | BackendPostgres => "postgres" | BackendMySql => "mysql" | BackendOther _ => "unknown"
                 end%string in
  Ok (JObject [("success", JBool true); ("data", JString db_type)]%string).

Definition discover_sql : string :=
  "SELECT tablename AS table_name FROM pg_tables WHERE schemaname = current_schema() AND tablename NOT IN (SELECT unnest($1::text[])) ORDER BY tablename".
Definition size_sql : string :=
  "SELECT t.name AS table_name, COALESCE(pg_total_relation_size(t.name::regclass), 0) AS table_size FROM unnest($1::text[]) AS t(name) ORDER BY t.name".
Definition sqlite_storage_sql : string :=
  "SELECT m.name AS table_name, COALESCE(d.pgsize, 0) AS table_size FROM sqlite_master m LEFT JOIN dbstat('main', 1) d ON d.name = m.name WHERE m.type = 'table'"
  +:+ " AND m.name NOT IN (" +:+ String.concat ", " (imap (fun i _ => "?" +:+ pretty (S i)) EXCLUDED_TABLES) +:+ ") ORDER BY m.name".

(** The statements are those of the source, white space aside.  A [BTreeMap] filled row by row. *)
Definition collect_sizes (rows : list TableSizeRow) : gmap string Z :=
  fold_left (fun m row => <[ts_table_name row := ts_table_size row]> m) rows ∅.
Definition query_postgres (db : D) : result anyhow (gmap string Z) :=
  let? table_names := map_err (fun m => OfNodeget (DatabaseError m)) (main_table_names discover_sql EXCLUDED_TABLES db) in
  match table_names with
  | [] => Ok ∅
  | _ => let? rows := map_err (fun m => OfNodeget (DatabaseError m)) (main_table_sizes size_sql table_names db) in Ok (collect_sizes rows)
  end.
Definition query_sqlite (db : D) : result anyhow (gmap string Z) :=
  let? rows := map_err (fun m => OfNodeget (DatabaseError m)) (main_table_sizes sqlite_storage_sql EXCLUDED_TABLES db) in Ok (collect_sizes rows).

(** The sizes, and their sum in 64 bits. *)
Definition database_storage (token : string) (d : option D) : result anyhow (gmap string Z * Z) :=
  let? token_or_auth := parse_token token in
  let? provider := require_permission_checker e in
  let? is_super := map_err to_denied (pc_check_super_token provider token_or_auth) in
  if negb is_super then denied "Permission Denied: Super token required" else
  let? db := ok_or (OfNodeget (DatabaseError "DB not initialized")) d in
  let? tables := match main_backend db with
                 | BackendPostgres => query_postgres db
                 | BackendSqlite => query_sqlite db
                 | BackendMySql => fail_with (Other "Unsupported database backend: MySql")
                 | BackendOther b => fail_with (Other ("Unsupported database backend: " +:+ b))
                 end in
  Ok (tables, cast_signed64 (map_fold (fun _ size total => total + size)%Z 0%Z tables mod 18446744073709551616)).
End console.
