(* ===== verification/DbRegistryThms.v ===== *)
(** * User databases stay apart

    Theorems on [DbRegistry]: an operation touches the databases it names and no other, and a
    connection in the pool is always one to the file of its own database. *)
From stdpp Require Import base strings gmap list numbers sorting.
From Stdlib Require Import Ascii.
From S2P Require Import Prelude Errors Json Db Permission TokenCache Concrete TokenCheck KvAuth LastCache JsRun Selection SnapshotQuery MonQuery StaticPath DbRegistry.

(** ** Paths *)

Lemma chars_app a b : String.list_ascii_of_string (a +:+ b) = String.list_ascii_of_string a ++ String.list_ascii_of_string b.
Proof. induction a as [|c a IH]; simpl; [done|]. by rewrite IH. Qed.

Lemma app_tail_inj (a b t : string) : a +:+ t = b +:+ t -> a = b.
Proof.
  intros H. apply (f_equal String.list_ascii_of_string) in H. rewrite !chars_app in H. apply app_inv_tail in H.
  by rewrite <-(String.string_of_list_ascii_of_string a), H, String.string_of_list_ascii_of_string.
Qed.

Definition path_of (base name : string) : string := trim_end_slashes base +:+ "/" +:+ name +:+ ".db".

Lemma path_of_inj base n n' : path_of base n = path_of base n' -> n = n'.
Proof. unfold path_of. intros H. apply (inj (String.app _)), (inj (String.app _)) in H. by apply app_tail_inj in H. Qed.

Lemma path_of_main base n : ~ side_file (path_of base n).
Proof.
  intros (p & H). unfold path_of in H. rewrite <-!string_app_assoc in H.
  destruct H as [H|H]; apply (f_equal (fun s => last (String.list_ascii_of_string s))) in H; rewrite !chars_app, !last_app in H; discriminate H.
Qed.

Lemma side_wal p : side_file (p +:+ "-wal").
Proof. exists p. by left. Qed.
Lemma side_shm p : side_file (p +:+ "-shm").
Proof. exists p. by right. Qed.

(** ** What an operation touches *)

Section touches.
Context {R F : Type} {rops : TableOps R DbModel} {dops : DiskOps F}.
Context {rlaws : TableLaws rops db_conflict} {dlaws : DiskLaws dops}.
#[local] Notation DW := (DbWorld R F).
Implicit Types (w : DW) (m : DbRegistryManager).

Definition drows w : list DbModel := match dw_main w with Some d => rows d | None => [] end.
Definition dfile w (q : string) : option Z := file_at (dw_disk w) q.
Definition dpool w (n : string) : option TrackedConnection := dw_mgr w ≫= fun m => mgr_pools m !! n.
Definition base_of w : option string := option_map mgr_db_path (dw_mgr w).

(** Everything but the databases [S] below [base] is as before. *)
Record touches (base : string) (S : string -> Prop) w w' : Prop := {
  touch_main : is_Some (dw_main w') <-> is_Some (dw_main w);
  touch_base : base_of w' = base_of w;
  touch_pool : forall n, ~ S n -> dpool w' n = dpool w n;
  touch_rows : forall r, ~ S (db_name r) -> r ∈ drows w' <-> r ∈ drows w;
  touch_files : forall q, ~ side_file q -> (forall n, S n -> q <> path_of base n) -> dfile w' q = dfile w q;
}.

Lemma touches_refl base S w : touches base S w w.
Proof using. by split. Qed.

Lemma touches_trans base S w1 w2 w3 : touches base S w1 w2 -> touches base S w2 w3 -> touches base S w1 w3.
Proof using.
  clear rlaws dlaws. intros [A1 A2 A3 A4 A5] [B1 B2 B3 B4 B5]. split.
  - by rewrite B1.
  - by rewrite B2.
  - intros n Hn. rewrite B3, A3 by done. done.
  - intros r Hr. rewrite B4, A4 by done. done.
  - intros q Hq Hn. rewrite B5, A5 by done. done.
Qed.

Lemma touches_mono base (S S' : string -> Prop) w w' : (forall n, S n -> S' n) -> touches base S w w' -> touches base S' w w'.
Proof using.
  clear rlaws dlaws. intros HS [A1 A2 A3 A4 A5]. split; try done; [intros n Hn|intros r Hr|intros q Hq Hn]; auto.
Qed.

(** The file of another database is untouched. *)
Lemma touches_file base (S : string -> Prop) w w' n : touches base S w w' -> ~ S n -> dfile w' (path_of base n) = dfile w (path_of base n).
Proof using.
  clear rlaws dlaws. intros Ht Hn. apply Ht; [apply path_of_main|]. intros n' Hn' Heq%path_of_inj. congruence.
Qed.

(** ** Statements on the registry *)

Definition uniq w : Prop := unique_rows db_conflict (drows w) = true.

Lemma on_main_run {A} absent (s : M R DbErr A) w w' r :
  on_main absent s w = (w', r) ->
  dw_main w = None /\ w' = w /\ r = Err absent \/
  exists d d' r0, dw_main w = Some d /\ s d = (d', r0) /\ w' = set_main d' w /\ r = map_err db_err r0.
Proof using.
  clear rlaws dlaws. unfold on_main. destruct (dw_main w) as [d|] eqn:E; [|intros [= <- <-]; by left].
  destruct (s d) as [d' r0] eqn:Es. intros [= <- <-]. right. by exists d, d', r0.
Qed.

Lemma find_row base S absent p w w' r :
  on_main absent (find_one p) w = (w', r) ->
  touches base S w w' /\ drows w' = drows w /\ dw_disk w' = dw_disk w /\ dw_mgr w' = dw_mgr w /\
  (forall x, r = Ok (Some x) -> x ∈ drows w /\ p x = true) /\ (r = Ok None -> no_match p (drows w)).
Proof using rlaws.
  clear dlaws. intros [(Hn & -> & ->)|(d & d' & r0 & Hd & Hs & -> & ->)]%on_main_run; [by split_and!; [apply touches_refl|..]|].
  pose proof (find_one_rows _ _ _ _ Hs) as Hrows. assert (drows (set_main d' w) = drows w) as Hdr by (unfold drows; simpl; by rewrite Hd).
  split_and!; try done.
  - split; [simpl; rewrite Hd; by split|done|done|intros x _; by rewrite Hdr|done].
  - intros x Hx. destruct r0 as [o|]; [|done]. injection Hx as ->. unfold drows. rewrite Hd. by eapply find_one_some.
  - intros Hx. destruct r0 as [o|]; [|done]. injection Hx as ->. unfold drows. rewrite Hd. by eapply find_one_none.
Qed.

Lemma conflict_by_id a b : db_id a = db_id b -> db_conflict a b = true.
Proof. intros H. unfold db_conflict. by rewrite H, Z.eqb_refl. Qed.
Lemma conflict_by_name a b : db_name a = db_name b -> db_conflict a b = true.
Proof. intros H. unfold db_conflict. by rewrite H, String.eqb_refl, orb_true_r. Qed.
Lemma db_conflict_sym a b : db_conflict a b = db_conflict b a.
Proof. unfold db_conflict. by rewrite Z.eqb_sym, String.eqb_sym. Qed.

Lemma same_id w a b : uniq w -> a ∈ drows w -> b ∈ drows w -> db_id a = db_id b -> a = b.
Proof using. intros Hu Ha Hb H. apply (unique_rows_lookup db_conflict db_conflict_sym (drows w)); try done. by apply conflict_by_id. Qed.
Lemma same_name w a b : uniq w -> a ∈ drows w -> b ∈ drows w -> db_name a = db_name b -> a = b.
Proof using. intros Hu Ha Hb H. apply (unique_rows_lookup db_conflict db_conflict_sym (drows w)); try done. by apply conflict_by_name. Qed.

(** Updating the row [model] by its key. *)
Lemma update_row base (S : string -> Prop) absent model f w w' r :
  uniq w -> model ∈ drows w -> S (db_name model) -> S (db_name (f model)) ->
  on_main absent (update_one (with_db_id (db_id model)) f) w = (w', r) ->
  touches base S w w' /\ uniq w' /\ dw_disk w' = dw_disk w /\ dw_mgr w' = dw_mgr w /\
  match r with
  | Ok x => x = f model /\ (forall y, y ∈ drows w' <-> y = f model \/ y ∈ drows w /\ y <> model)
  | Err _ => drows w' = drows w
  end.
Proof using rlaws.
  clear dlaws. intros Hu Hin H1 H2 [(Hn & -> & ->)|(d & d' & r0 & Hd & Hs & -> & ->)]%on_main_run; [by split_and!; [apply touches_refl|..]|].
  assert (drows w = rows d) as Hdr by (unfold drows; by rewrite Hd).
  assert (drows (set_main d' w) = rows d') as Hdr' by done.
  assert (uniq (set_main d' w)) as Hu' by (unfold uniq in *; rewrite Hdr', Hdr in *; by eapply update_unique).
  destruct r0 as [x|err].
  - apply update_one_ok in Hs as (Hp & x0 & Hx0 & Hid & ->). rewrite Hdr in *.
    apply Z.eqb_eq in Hid. assert (x0 = model) as -> by (by apply (same_id w); [done|rewrite Hdr..|]).
    assert (forall y, y ∈ drows (set_main d' w) <-> y = f model \/ y ∈ rows d /\ y <> model) as Hrows.
    { intros y. rewrite Hdr', Hp, list_elem_of_fmap. unfold update_if, with_db_id. split.
      - intros (z & -> & Hz). destruct (Z.eqb_spec (db_id z) (db_id model)) as [Heq|Hne].
        + assert (z = model) as -> by (by apply (same_id w); [done|rewrite Hdr..|]). by left.
        + right. split; [done|]. congruence.
      - intros [->|[Hy Hne]]; [exists model; by rewrite Z.eqb_refl|]. exists y. split; [|done].
        destruct (Z.eqb_spec (db_id y) (db_id model)) as [Heq|]; [|done]. destruct Hne. by apply (same_id w); [done|rewrite Hdr..|]. }
    split_and!; try done. split; [simpl; rewrite Hd; by split|done|done| |done].
    intros y Hy. rewrite Hrows, Hdr. split; [intros [->|[? _]]; done|]. intros Hy'. right. split; [done|]. intros ->. done.
  - pose proof (update_one_err _ _ _ _ _ Hs) as He. split_and!; try done; [|by rewrite Hdr', Hdr].
    split; [simpl; rewrite Hd; by split|done|done| |done]. intros y _. by rewrite Hdr', Hdr, He.
Qed.

(** The row after [create_conn]; without a row before, it is a new one without a lifetime but the given. *)
Lemma register_run base now name lt w w' r :
  uniq w -> register now name lt w = (w', r) ->
  touches base (fun n => n = name) w w' /\ uniq w' /\ dw_disk w' = dw_disk w /\ dw_mgr w' = dw_mgr w /\
  (forall x, x ∈ drows w -> exists x', x' ∈ drows w' /\ db_name x' = db_name x /\ db_id x' = db_id x /\ db_created_at x' = db_created_at x) /\
  (forall x', x' ∈ drows w' -> db_name x' = name \/ x' ∈ drows w) /\
  (r = Ok tt -> exists x, x ∈ drows w' /\ db_name x = name).
Proof using rlaws.
  clear dlaws. intros Hu. unfold register. rewrite mbind_run. destruct (on_main _ _ w) as [w1 r1] eqn:E1.
  apply (find_row base (fun n => n = name)) in E1 as (Ht & Hr & Hd & Hm & Hsome & Hnone).
  assert (uniq w1) as Hu1 by (unfold uniq in *; by rewrite Hr).
  assert (forall x, x ∈ drows w -> exists x', x' ∈ drows w1 /\ db_name x' = db_name x /\ db_id x' = db_id x /\ db_created_at x' = db_created_at x) as Hsame.
  { intros x Hx. exists x. by rewrite Hr. }
  destruct r1 as [[model|]|err].
  - destruct (Hsome model eq_refl) as [Hin Hname]. apply String.eqb_eq in Hname. rewrite mbind_run.
    destruct (on_main _ _ w1) as [w2 r2] eqn:E2.
    apply (update_row base (fun n => n = name)) in E2 as (Ht2 & Hu2 & Hd2 & Hm2 & Hrows); try done; [|by rewrite Hr].
    assert (touches base (fun n => n = name) w w2) as Ht' by (by eapply touches_trans).
    assert (dw_disk w2 = dw_disk w /\ dw_mgr w2 = dw_mgr w) as [Hd' Hm'] by (split; congruence).
    destruct r2 as [x|err]; intros [= <- <-]; split_and!; try done.
    + intros y Hy. destruct Hrows as [_ Hrows]. destruct (decide (y = model)) as [->|Hne].
      * exists (set_lifetime lt model). split_and!; try done. apply Hrows. by left.
      * exists y. split_and!; try done. apply Hrows. right. by rewrite Hr.
    + intros y [->|[Hy _]]%Hrows; [by left|right; by rewrite <-Hr].
    + intros _. exists (set_lifetime lt model). split; [|done]. apply Hrows. by left.
    + intros y Hy. rewrite Hrows. by apply Hsame.
    + intros y Hy. right. by rewrite Hrows, Hr in Hy.
  - specialize (Hnone eq_refl). rewrite mbind_run. destruct (on_main _ _ w1) as [w2 r2] eqn:E2.
    apply on_main_run in E2 as [(Hn & -> & ->)|(d & d' & r0 & Hd1 & Hs & -> & ->)].
    { intros [= <- <-]. split_and!; try done. intros y Hy. right. by rewrite <-Hr. }
    assert (drows w1 = rows d) as Hdr by (unfold drows; by rewrite Hd1).
    assert (uniq (set_main d' w1)) as Hu2 by (unfold uniq in *; rewrite Hdr in Hu1; by eapply insert_auto_unique).
    destruct r0 as [i|err].
    + apply insert_auto_ok in Hs as [Hp _]. intros [= <- <-].
      assert (forall y, y ∈ drows (set_main d' w1) <-> y = {| db_id := i; db_name := name; db_max_lifetime_ms := lt; db_created_at := cast_signed64 now |} \/ y ∈ drows w) as Hrows.
      { intros y. change (drows (set_main d' w1)) with (rows d'). by rewrite Hp, elem_of_cons, <-Hdr, Hr. }
      split_and!; try done.
      * eapply touches_trans; [done|]. split; [simpl; rewrite Hd1; by split|done|done| |done]. intros y Hy. rewrite Hrows, Hr.
        split; [intros [->|?]; done|by right].
      * intros y Hy. exists y. split_and!; try done. apply Hrows. by right.
      * intros y [->|Hy]%Hrows; [by left|by right].
      * intros _. eexists. split; [apply Hrows; by left|done].
    + apply insert_auto_err in Hs as [He _]. intros [= <- <-].
      assert (drows (set_main d' w1) = drows w) as Hrows by (change (rows d' = drows w); congruence).
      split_and!; try done.
      * eapply touches_trans; [done|]. split; [simpl; rewrite Hd1; by split|done|done| |done]. intros y Hy. by rewrite Hrows, Hr.
      * intros y Hy. exists y. by rewrite Hrows.
      * intros y Hy. right. by rewrite <-Hrows.
  - intros [= <- <-]. split_and!; try done. intros y Hy. right. by rewrite <-Hr.
Qed.

Lemma unregister_run base name w w' r :
  uniq w -> unregister name w = (w', r) ->
  touches base (fun n => n = name) w w' /\ uniq w' /\ dw_disk w' = dw_disk w /\ dw_mgr w' = dw_mgr w /\
  (forall x, x ∈ drows w' -> x ∈ drows w) /\ ((forall x, x ∈ drows w -> db_name x <> name) -> drows w' = drows w).
Proof using rlaws.
  clear dlaws. intros Hu. unfold unregister. rewrite mbind_run. destruct (on_main _ _ w) as [w1 r1] eqn:E1.
  apply (find_row base (fun n => n = name)) in E1 as (Ht & Hr & Hd & Hm & Hsome & Hnone).
  assert (uniq w1) as Hu1 by (unfold uniq in *; by rewrite Hr).
  assert (forall x, x ∈ drows w1 -> x ∈ drows w) as Hsub by (intros x; by rewrite Hr).
  destruct r1 as [[model|]|err]; [|by intros [= <- <-]|by intros [= <- <-]].
  destruct (Hsome model eq_refl) as [Hin Hname]. apply String.eqb_eq in Hname.
  destruct (on_main _ _ w1) as [w2 r2] eqn:E2. intros [= <- <-]. cbn [fst].
  apply on_main_run in E2 as [(Hn & -> & ->)|(d & d' & r0 & Hd1 & Hs & -> & ->)]; [done|].
  assert (drows w1 = rows d) as Hdr by (unfold drows; by rewrite Hd1).
  assert (uniq (set_main d' w1)) as Hu2 by (unfold uniq in *; rewrite Hdr in Hu1; by eapply delete_many_unique).
  split; [eapply touches_trans; [done|]|split_and!; try done].
  - split; [simpl; rewrite Hd1; by split|done|done| |done]. intros y Hy. change (drows (set_main d' w1)) with (rows d').
    destruct r0 as [n|err]; [|by rewrite (delete_many_err _ _ _ _ Hs), Hdr].
    apply delete_many_ok in Hs as [-> _]. rewrite list_filter_elem, <-Hdr. split; [by intros [? _]|]. intros Hy'. split; [done|].
    apply negb_true_iff, Z.eqb_neq. intros Heq. apply Hy. rewrite (same_id w1 y model Hu1 Hy') by (rewrite ?Hr; done). done.
  - intros y. change (drows (set_main d' w1)) with (rows d'). destruct r0 as [n|err].
    + apply delete_many_ok in Hs as [-> _]. rewrite list_filter_elem. intros [Hy _]. apply Hsub. by rewrite Hdr.
    + rewrite (delete_many_err _ _ _ _ Hs). intros Hy. apply Hsub. by rewrite Hdr.
  - intros Hno. by destruct (Hno model Hin).
Qed.

(** ** Files *)

Lemma disk_touches base (S : string -> Prop) w d' :
  (forall q, ~ side_file q -> (forall n, S n -> q <> path_of base n) -> file_at d' q = dfile w q) -> touches base S w (set_disk d' w).
Proof using. by split. Qed.

(** Opening a database leaves its file alone or creates a new one. *)
Definition opened (p : string) w w' : Prop :=
  dfile w' p = dfile w p \/ dfile w p = None /\ exists i, dfile w' p = Some i /\ forall q, ~ side_file q -> dfile w q <> Some i.

Lemma connect_run base name w d' r :
  sqlite_connect (path_of base name) (dw_disk w) = (d', r) ->
  touches base (fun n => n = name) w (set_disk d' w) /\ opened (path_of base name) w (set_disk d' w) /\
  forall i, r = Ok i -> dfile (set_disk d' w) (path_of base name) = Some i.
Proof using dlaws.
  clear rlaws. intros H. split_and!.
  - apply disk_touches. intros q Hq Hn. apply (connect_frame _ _ _ _ _ H); [by apply Hn|done].
  - destruct r as [i|err].
    + apply connect_ok in H as [H1 [H2|[H2 H3]]]; unfold opened, dfile; simpl; [left; congruence|right; eauto].
    + destruct (connect_err _ _ _ _ H) as [?|(? & i & ? & ?)]; [by left|right; eauto].
  - intros i ->. by apply connect_ok in H as [? _].
Qed.

(** Removing or moving a file beside a database. *)
Lemma remove_run base S p w w' r :
  remove_if_exists p w = (w', r) -> (side_file p \/ exists n, S n /\ p = path_of base n) ->
  touches base S w w' /\ dw_main w' = dw_main w /\ dw_mgr w' = dw_mgr w /\
  forall q, ~ side_file q -> dfile w' q = dfile w q \/ q = p /\ dfile w q <> None /\ dfile w' q = None.
Proof using dlaws.
  clear rlaws. intros H Hp. unfold remove_if_exists in H. destruct (file_at (dw_disk w) p) as [i|] eqn:E.
  - unfold try_disk in H. injection H as <- <-. destruct (db_remove p (dw_disk w)) as [d' r0] eqn:Er. cbn [fst].
    assert (forall q, file_at d' q = dfile w q \/ q = p /\ file_at d' q = None) as Hq.
    { intros q. destruct r0 as [[]|]; [|left; by apply (remove_err _ _ _ _ _ Er)].
      rewrite (remove_ok _ _ _ q Er). destruct (String.eqb_spec q p); auto. }
    split_and!; try done.
    + apply disk_touches. intros q Hq1 Hq2. destruct (Hq q) as [?|[-> _]]; [done|]. destruct Hp as [Hp|(n & Hn & ->)]; [done|].
      by destruct (Hq2 n Hn).
    + intros q _. destruct (Hq q) as [?|[-> ?]]; [by left|]. right. split_and!; try done. unfold dfile. congruence.
  - injection H as <- <-. split_and!; [apply touches_refl|done|done|by left].
Qed.

Lemma remove_files_run base name w w' r :
  remove_files (path_of base name) w = (w', r) ->
  touches base (fun n => n = name) w w' /\ dw_main w' = dw_main w /\ dw_mgr w' = dw_mgr w /\ r = Ok tt /\
  (dfile w' (path_of base name) = dfile w (path_of base name) \/ dfile w' (path_of base name) = None).
Proof using dlaws.
  clear rlaws. intros H. unfold remove_files in H. rewrite mbind_run in H. destruct (remove_if_exists _ w) as [w1 r1] eqn:E1.
  assert (forall p (w w' : DW) (r : result anyhow unit), remove_if_exists p w = (w', r) -> r = Ok tt) as Hok.
  { intros p u u' x. unfold remove_if_exists. destruct (file_at _ _); by intros [= _ <-]. }
  rewrite (Hok _ _ _ _ E1) in H. rewrite mbind_run in H. destruct (remove_if_exists _ w1) as [w2 r2] eqn:E2.
  rewrite (Hok _ _ _ _ E2) in H. pose proof (Hok _ _ _ _ H) as ->.
  apply (remove_run base (fun n => n = name)) in E1 as (T1 & M1 & G1 & F1); [|right; by exists name].
  apply (remove_run base (fun n => n = name)) in E2 as (T2 & M2 & G2 & F2); [|left; apply side_wal].
  apply (remove_run base (fun n => n = name)) in H as (T3 & M3 & G3 & F3); [|left; apply side_shm].
  split_and!; [eapply touches_trans; [done|by eapply touches_trans]|congruence|congruence|done|].
  pose proof (path_of_main base name) as Hmain.
  assert (dfile w' (path_of base name) = dfile w1 (path_of base name)) as ->.
  { destruct (F3 _ Hmain) as [->|(Heq & _)]; [|exfalso; apply Hmain; rewrite Heq; apply side_shm].
    destruct (F2 _ Hmain) as [->|(Heq & _)]; [done|exfalso; apply Hmain; rewrite Heq; apply side_wal]. }
  destruct (F1 _ Hmain) as [->|(_ & _ & ->)]; auto.
Qed.

Lemma pools_touches base S f w :
  (forall n, ~ S n -> forall p, f p !! n = p !! n) -> touches base S w (set_pools f w).
Proof using.
  clear rlaws dlaws. intros Hf. split; try done.
  - unfold base_of, set_pools. simpl. by destruct (dw_mgr w).
  - intros n Hn. unfold dpool, set_pools. simpl. destruct (dw_mgr w); simpl; [by apply Hf|done].
Qed.

Lemma set_pools_at f w n : dpool (set_pools f w) n = dw_mgr w ≫= fun m => f (mgr_pools m) !! n.
Proof using. clear. unfold dpool, set_pools. simpl. by destruct (dw_mgr w). Qed.

Lemma remove_conn_run base m name w w' r :
  mgr_db_path m = base -> uniq w -> remove_conn m name w = (w', r) ->
  touches base (fun n => n = name) w w' /\ uniq w' /\ dpool w' name = None /\
  (forall x, x ∈ drows w' -> x ∈ drows w) /\ ((forall x, x ∈ drows w -> db_name x <> name) -> drows w' = drows w) /\
  (dfile w' (path_of base name) = dfile w (path_of base name) \/ dfile w' (path_of base name) = None).
Proof using rlaws dlaws.
  intros Hb Hu. unfold remove_conn. rewrite mbind_run. cbn [update_pools]. set (w1 := set_pools (delete name) w).
  change (get_db_path m name) with (path_of (mgr_db_path m) name). rewrite Hb.
  assert (touches base (fun n => n = name) w w1) as T1 by (apply pools_touches; intros n Hn p; by apply lookup_delete_ne).
  assert (dpool w1 name = None) as P1 by (unfold w1; rewrite set_pools_at; destruct (dw_mgr w); simpl; [apply lookup_delete_eq|done]).
  rewrite mbind_run. destruct (unregister name w1) as [w2 r2] eqn:E2.
  apply (unregister_run base) in E2 as (T2 & U2 & D2 & G2 & S2 & N2); [|done].
  assert (dpool w2 name = None) as P2 by (unfold dpool in *; by rewrite G2).
  assert (dfile w2 (path_of base name) = dfile w (path_of base name)) as F2 by (unfold dfile; rewrite D2; done).
  destruct r2 as [[]|err].
  - intros H. apply remove_files_run in H as (T3 & M3 & G3 & _ & F3).
    assert (drows w' = drows w2) as R3 by (unfold drows; by rewrite M3).
    split_and!.
    + eapply touches_trans; [done|by eapply touches_trans].
    + unfold uniq. by rewrite R3.
    + unfold dpool in *. by rewrite G3.
    + intros x. rewrite R3. apply S2.
    + intros Hno. rewrite R3. by apply N2.
    + by rewrite <-F2.
  - intros [= <- <-]. split_and!; try done; [by eapply touches_trans|by left].
Qed.

Lemma create_conn_run base m now name lt w w' r :
  mgr_db_path m = base -> uniq w -> create_conn now m name lt w = (w', r) ->
  touches base (fun n => n = name) w w' /\ uniq w' /\ opened (path_of base name) w w' /\
  (forall x, x ∈ drows w -> exists x', x' ∈ drows w' /\ db_name x' = db_name x /\ db_id x' = db_id x /\ db_created_at x' = db_created_at x) /\
  (forall x', x' ∈ drows w' -> db_name x' = name \/ x' ∈ drows w) /\
  match r with
  | Ok i => dfile w' (path_of base name) = Some i /\ (exists x, x ∈ drows w' /\ db_name x = name) /\
            (is_Some (dw_mgr w) -> dpool w' name = Some {| tc_conn := i; tc_last_used_ms := now |})
  | Err _ => dpool w' name = dpool w name
  end.
Proof using rlaws dlaws.
  intros Hb Hu. unfold create_conn. change (get_db_path m name) with (path_of (mgr_db_path m) name). rewrite Hb.
  rewrite mbind_run. unfold on_disk at 1. destruct (sqlite_connect _ _) as [d1 r1] eqn:E1.
  apply (connect_run base) in E1 as (T1 & O1 & F1). set (w1 := set_disk d1 w) in *.
  assert (forall x, x ∈ drows w -> exists x', x' ∈ drows w1 /\ db_name x' = db_name x /\ db_id x' = db_id x /\ db_created_at x' = db_created_at x) as Hkeep
    by (intros x Hx; by exists x).
  destruct r1 as [i|err]; [|intros [= <- <-]; split_and!; try done; by right]. cbn [map_err].
  rewrite mbind_run. destruct (register now name lt w1) as [w2 r2] eqn:E2.
  apply (register_run base) in E2 as (T2 & U2 & D2 & G2 & K2 & S2 & X2); [|done].
  assert (opened (path_of base name) w w2) as O2 by (unfold opened, dfile in *; by rewrite D2).
  assert (touches base (fun n => n = name) w w2) as T2' by (by eapply touches_trans).
  destruct r2 as [[]|err].
  - rewrite mbind_run. cbn [update_pools]. intros [= <- <-]. split_and!; try done.
    + eapply touches_trans; [done|]. apply pools_touches. intros n Hn p. by apply lookup_insert_ne.
    + unfold dfile. simpl. rewrite D2. by apply F1.
    + destruct (X2 eq_refl) as (x & Hx & Hxn). by exists x.
    + intros [g Hg]. rewrite set_pools_at, G2. change (dw_mgr w1) with (dw_mgr w). rewrite Hg. simpl. apply lookup_insert_eq.
  - intros [= <- <-]. split_and!; try done. unfold dpool. by rewrite G2.
Qed.

(** ** Renaming *)

Lemma rename_side_run base S a b ext w w' r :
  (ext = "-wal" \/ ext = "-shm")%string -> a <> b -> rename_side a b ext w = (w', r) ->
  touches base S w w' /\ dw_main w' = dw_main w /\ dw_mgr w' = dw_mgr w /\ r = Ok tt /\ forall q, ~ side_file q -> dfile w' q = dfile w q.
Proof using dlaws.
  clear rlaws. intros Hext Hne H. unfold rename_side in H.
  assert (side_file (a +:+ ext) /\ side_file (b +:+ ext)) as [Ha Hb] by (destruct Hext as [->| ->]; split; (apply side_wal || apply side_shm)).
  destruct (file_at _ _); [|injection H as <- <-; split_and!; try done; apply touches_refl].
  unfold try_disk in H. injection H as <- <-. destruct (db_rename _ _ _) as [d' r0] eqn:Er. cbn [fst].
  assert (forall q, ~ side_file q -> file_at d' q = dfile w q) as Hq.
  { intros q Hq. destruct r0 as [[]|]; [|by apply (rename_err _ _ _ _ _ _ Er)].
    rewrite (rename_ok _ _ _ _ q (fun H => Hne (app_tail_inj _ _ _ H)) Er).
    destruct (String.eqb_spec q (b +:+ ext)) as [->|]; [done|]. destruct (String.eqb_spec q (a +:+ ext)) as [->|]; done. }
  split_and!; try done. apply disk_touches. auto.
Qed.

Lemma rename_sides_run base S a b w w' r :
  a <> b -> (let! _ := rename_side a b "-wal" in rename_side a b "-shm") w = (w', r) ->
  touches base S w w' /\ dw_main w' = dw_main w /\ dw_mgr w' = dw_mgr w /\ r = Ok tt /\ forall q, ~ side_file q -> dfile w' q = dfile w q.
Proof using dlaws.
  clear rlaws. intros Hne H. rewrite mbind_run in H. destruct (rename_side a b "-wal" w) as [w1 r1] eqn:E1.
  apply (rename_side_run base S) in E1 as (T1 & M1 & G1 & -> & F1); [|by left|done].
  apply (rename_side_run base S) in H as (T2 & M2 & G2 & -> & F2); [|by right|done].
  split_and!; [by eapply touches_trans|congruence|congruence|done|]. intros q Hq. rewrite F2, F1; done.
Qed.

(** The files after the file of [old] was moved to [new]. *)
Definition moved base (old new : string) w w' : Prop :=
  forall q, ~ side_file q -> dfile w' q =
    if String.eqb q (path_of base new) then match dfile w (path_of base old) with Some i => Some i | None => dfile w q end
    else if String.eqb q (path_of base old) then None else dfile w q.

Lemma rename_files_run base old new w w' r :
  old <> new -> rename_files (path_of base old) (path_of base new) w = (w', r) ->
  touches base (fun n => n = old \/ n = new) w w' /\ dw_main w' = dw_main w /\ dw_mgr w' = dw_mgr w /\
  match r with Ok _ => moved base old new w w' | Err _ => forall q, ~ side_file q -> dfile w' q = dfile w q end.
Proof using dlaws.
  clear rlaws. intros Hne H. assert (path_of base old <> path_of base new) as Hp by (intros ?%path_of_inj; done).
  unfold rename_files in H. destruct (file_at _ (path_of base old)) as [i|] eqn:E.
  - rewrite mbind_run in H. unfold on_disk at 1 in H. destruct (db_rename _ _ _) as [d1 r1] eqn:Er. set (w1 := set_disk d1 w) in *.
    destruct r1 as [[]|m]; cbn [map_err] in H.
    + apply (rename_sides_run base (fun n => n = old \/ n = new)) in H as (T2 & M2 & G2 & -> & F2); [|done].
      assert (moved base old new w w1) as Hm.
      { intros q Hq. unfold dfile at 1. cbn. rewrite (rename_ok _ _ _ _ q Hp Er). unfold dfile. rewrite E. done. }
      assert (touches base (fun n => n = old \/ n = new) w w1) as T1.
      { apply disk_touches. intros q Hq Hn. change (dfile w1 q = dfile w q). rewrite (Hm q Hq).
        destruct (String.eqb_spec q (path_of base new)); [by destruct (Hn new); auto|].
        destruct (String.eqb_spec q (path_of base old)); [by destruct (Hn old); auto|done]. }
      split_and!; [by eapply touches_trans|done|done|]. intros q Hq. by rewrite F2, (Hm q Hq).
    + injection H as <- <-. assert (forall q, file_at d1 q = dfile w q) as Hsame by (intros q; by apply (rename_err _ _ _ _ _ _ Er)).
      split_and!; [apply disk_touches; auto|done|done|intros q _; apply Hsame].
  - injection H as <- <-. split_and!; [apply touches_refl|done|done|]. intros q Hq. unfold dfile. rewrite E.
    destruct (String.eqb_spec q (path_of base new)); [done|]. by destruct (String.eqb_spec q (path_of base old)) as [->|].
Qed.

Lemma rollback_files_run base old new w w' r :
  old <> new -> rollback_files (path_of base old) (path_of base new) w = (w', r) ->
  touches base (fun n => n = old \/ n = new) w w' /\ dw_main w' = dw_main w /\ dw_mgr w' = dw_mgr w.
Proof using dlaws.
  clear rlaws. intros Hne H. assert (path_of base new <> path_of base old) as Hp by (intros ?%path_of_inj; done).
  unfold rollback_files in H. destruct (file_at _ (path_of base new)) as [i|] eqn:E.
  - rewrite mbind_run in H. unfold try_disk at 1 in H. destruct (db_rename _ _ _) as [d1 r1] eqn:Er. cbn [fst] in H. set (w1 := set_disk d1 w) in *.
    apply (rename_sides_run base (fun n => n = old \/ n = new)) in H as (T2 & M2 & G2 & -> & F2); [|done].
    split_and!; [|done|done]. eapply touches_trans; [|done]. apply disk_touches. intros q Hq Hn.
    destruct r1 as [[]|m]; [|by apply (rename_err _ _ _ _ _ _ Er)]. rewrite (rename_ok _ _ _ _ q Hp Er).
    destruct (String.eqb_spec q (path_of base old)); [by destruct (Hn old); auto|].
    destruct (String.eqb_spec q (path_of base new)); [by destruct (Hn new); auto|done].
  - injection H as <- <-. split_and!; [apply touches_refl|done|done].
Qed.

(** ** The methods *)

(** The registered checker grants the permission on the database. *)
Definition db_granted (e : Env) (token name : string) (p : DbPerm) : Prop :=
  exists t checker, parse_token token = Ok t /\ PERMISSION_CHECKER e = Some checker /\
    pc_check_token_limit checker t [Scope_Db name] [P_Db p] = Ok true.

Lemma check_granted e token name p : check_db_permission e token name p = Ok tt -> db_granted e token name p.
Proof using.
  clear. unfold check_db_permission. intros (t & Ht & (c & Hc%ok_or_ok & ([] & Ha & H)%rbind_ok)%rbind_ok)%rbind_ok; [|discriminate H].
  by exists t, c.
Qed.

Lemma validate_valid name : validate_db_name name = Ok tt -> valid_db_name name = true.
Proof using.
  clear. unfold validate_db_name, valid_db_name. destruct (str_is_empty name); [done|].
  destruct (Nat.ltb_spec 128 (String.length name)); [done|]. destruct (all_chars name_char name); [|done]. simpl.
  destruct (String.eqb name "."); [done|]. destruct (String.eqb name ".."); [done|]. intros _.
  simpl. by rewrite (proj2 (Nat.leb_le _ _)).
Qed.

Lemma valid_validate name : valid_db_name name = true -> validate_db_name name = Ok tt.
Proof using.
  clear. unfold validate_db_name, valid_db_name. rewrite !andb_true_iff, !negb_true_iff.
  intros ((((-> & H) & ->) & ->) & ->). apply Nat.leb_le in H. by destruct (Nat.ltb_spec 128 (String.length name)); [lia|].
Qed.

Lemma mgr_global_run w w' r : mgr_global w = (w', r) -> w' = w /\ forall m, r = Ok m -> dw_mgr w = Some m.
Proof using. clear. unfold mgr_global. intros [= <- <-]. split; [done|]. intros m H%ok_or_ok. done. Qed.

Lemma base_of_mgr w m base : base_of w = Some base -> dw_mgr w = Some m -> mgr_db_path m = base.
Proof using. clear. unfold base_of. intros H1 H2. rewrite H2 in H1. by injection H1. Qed.

(** A request is refused at the gate without any effect, or it names a valid database with permission. *)
Definition gate (ok : Prop) w w' : Prop := w' = w \/ ok.

#[local] Ltac failed H := injection H as <- <-; right; split_and!; first [done | apply touches_refl | by eexists].
#[local] Ltac refused H := (injection H as <- <-); (split; [by left|right; split_and!; first [done | apply touches_refl | by eexists]]).

Lemma db_create_run e now token name w w' r base :
  uniq w -> base_of w = Some base -> create e now token name w = (w', r) ->
  gate (valid_db_name name = true /\ db_granted e token name Db_Create) w w' /\
  ((exists w1 m r1, touches base (fun n => n = name) w w1 /\ drows w1 = drows w /\ dw_disk w1 = dw_disk w /\ dw_mgr w1 = dw_mgr w /\
      dw_mgr w = Some m /\ (forall x, x ∈ drows w -> db_name x <> name) /\ create_conn now m name None w1 = (w', r1) /\
      (forall j, r = Ok j -> exists i, r1 = Ok i)) \/
   (touches base (fun n => n = name) w w' /\ drows w' = drows w /\ dw_disk w' = dw_disk w /\ dw_mgr w' = dw_mgr w /\ exists err, r = Err err)).
Proof using rlaws.
  clear dlaws. intros Hu Hb H. unfold create in H. rewrite mbind_run in H. unfold lift at 1 in H.
  destruct (validate_db_name name) as [[]|] eqn:Ev;
    [|refused H].
  apply validate_valid in Ev. rewrite mbind_run in H. unfold lift at 1 in H.
  destruct (check_db_permission _ _ _ _) as [[]|] eqn:Ep;
    [|refused H].
  apply check_granted in Ep. split; [by right|]. rewrite mbind_run in H. destruct (on_main _ _ w) as [w1 r1] eqn:E1.
  apply (find_row base (fun n => n = name)) in E1 as (Ht & Hr & Hd & Hm & Hsome & Hnone).
  destruct r1 as [[x|]|err]; [failed H| |failed H].
  rewrite mbind_run in H. destruct (mgr_global w1) as [w2 r2] eqn:E2. apply mgr_global_run in E2 as [-> Hmgr].
  destruct r2 as [m|]; [|failed H].
  specialize (Hmgr m eq_refl). rewrite Hm in Hmgr.
  rewrite mbind_run in H. destruct (create_conn now m name None w1) as [w3 r3] eqn:E3. left. exists w1, m, r3. split_and!; try done.
  - intros x Hx Heq. assert (named name x = true) as Hn by (by apply String.eqb_eq). by rewrite (Hnone eq_refl x Hx) in Hn.
  - destruct r3; injection H as <- <-; done.
  - intros j ->. destruct r3 as [i|]; [by exists i|]. by injection H.
Qed.

Lemma db_delete_run e token name w w' r base :
  uniq w -> base_of w = Some base -> delete_db e token name w = (w', r) ->
  gate (valid_db_name name = true /\ db_granted e token name Db_Delete) w w' /\
  ((exists w1 m r1, touches base (fun n => n = name) w w1 /\ drows w1 = drows w /\ dw_disk w1 = dw_disk w /\ dw_mgr w1 = dw_mgr w /\
      dw_mgr w = Some m /\ (exists x, x ∈ drows w /\ db_name x = name) /\ remove_conn m name w1 = (w', r1)) \/
   (touches base (fun n => n = name) w w' /\ drows w' = drows w /\ dw_disk w' = dw_disk w /\ dw_mgr w' = dw_mgr w /\ exists err, r = Err err)).
Proof using rlaws.
  clear dlaws. intros Hu Hb H. unfold delete_db in H. rewrite mbind_run in H. unfold lift at 1 in H.
  destruct (validate_db_name name) as [[]|] eqn:Ev;
    [|refused H].
  apply validate_valid in Ev. rewrite mbind_run in H. unfold lift at 1 in H.
  destruct (check_db_permission _ _ _ _) as [[]|] eqn:Ep;
    [|refused H].
  apply check_granted in Ep. split; [by right|]. rewrite mbind_run in H. destruct (on_main _ _ w) as [w1 r1] eqn:E1.
  apply (find_row base (fun n => n = name)) in E1 as (Ht & Hr & Hd & Hm & Hsome & Hnone).
  destruct r1 as [[x|]|err]; [|failed H|failed H].
  destruct (Hsome x eq_refl) as [Hin Hname]. apply String.eqb_eq in Hname.
  rewrite mbind_run in H. unfold lift at 1 in H. cbn [ok_or] in H. rewrite mbind_run in H.
  destruct (mgr_global w1) as [w2 r2] eqn:E2. apply mgr_global_run in E2 as [-> Hmgr].
  destruct r2 as [m|]; [|failed H].
  specialize (Hmgr m eq_refl). rewrite Hm in Hmgr.
  rewrite mbind_run in H. destruct (remove_conn m name w1) as [w3 r3] eqn:E3. left. exists w1, m, r3. split_and!; try done.
  - by exists x.
  - destruct r3; injection H as <- <-; done.
Qed.

(** The two halves of a renaming, in a world that [update_start] was begun in. *)
Definition started base (name new_name : string) (model : DbModel) m w w1 : Prop :=
  name <> new_name /\ model ∈ drows w /\ db_name model = name /\ (forall x, x ∈ drows w -> db_name x <> new_name) /\
  dw_mgr w = Some m /\ drows w1 = drows w /\ dw_mgr w1 = dw_mgr w /\ moved base name new_name w w1.

Lemma update_start_run e token name new_name w w' r base :
  uniq w -> base_of w = Some base -> update_start e token name new_name w = (w', r) ->
  gate (valid_db_name name = true /\ valid_db_name new_name = true /\
        db_granted e token name Db_Update /\ db_granted e token new_name Db_Update) w w' /\
  touches base (fun n => n = name \/ n = new_name) w w' /\
  match r with
  | Ok (model, m) => (valid_db_name name = true /\ valid_db_name new_name = true /\
      db_granted e token name Db_Update /\ db_granted e token new_name Db_Update) /\ started base name new_name model m w w'
  | Err _ => drows w' = drows w /\ dw_mgr w' = dw_mgr w /\ forall q, ~ side_file q -> dfile w' q = dfile w q
  end.
Proof using rlaws dlaws.
  intros Hu Hb H. unfold update_start in H.
  do 4 (rewrite mbind_run in H; unfold lift at 1 in H;
        match type of H with (match ?g with _ => _ end) = _ => destruct g as [[]|] eqn:?G end;
        [|injection H as <- <-; split; [by left|split; [apply touches_refl|done]]]).
  apply validate_valid in G, G0. apply check_granted in G1, G2. split; [by right|].
  rewrite mbind_run in H. destruct (on_main _ _ w) as [w1 r1] eqn:E1.
  apply (find_row base (fun n => n = name \/ n = new_name)) in E1 as (T1 & R1 & D1 & M1 & S1 & _).
  assert (forall q, ~ side_file q -> dfile w1 q = dfile w q) as F1 by (intros q _; unfold dfile; by rewrite D1).
  destruct r1 as [o|err]; [|by injection H as <- <-]. rewrite mbind_run in H. unfold lift at 1 in H.
  destruct o as [model|]; [|by injection H as <- <-]. cbn [ok_or] in H. destruct (S1 model eq_refl) as [Hin Hname]. apply String.eqb_eq in Hname.
  rewrite mbind_run in H. destruct (on_main _ _ w1) as [w2 r2] eqn:E2.
  apply (find_row base (fun n => n = name \/ n = new_name)) in E2 as (T2 & R2 & D2 & M2 & _ & N2).
  assert (touches base (fun n => n = name \/ n = new_name) w w2) as T2' by (by eapply touches_trans).
  assert (drows w2 = drows w /\ dw_mgr w2 = dw_mgr w /\ forall q, ~ side_file q -> dfile w2 q = dfile w q) as (R2' & M2' & F2').
  { split_and!; [congruence|congruence|]. intros q Hq. rewrite <-F1 by done. unfold dfile. by rewrite D2. }
  destruct r2 as [[x|]|err]; [by injection H as <- <-| |by injection H as <- <-].
  assert (forall x, x ∈ drows w -> db_name x <> new_name) as Hnone.
  { intros x Hx Heq. assert (named new_name x = true) as Hn by (by apply String.eqb_eq). rewrite <-R1 in Hx. by rewrite (N2 eq_refl x Hx) in Hn. }
  assert (name <> new_name) as Hne by (intros Heq; apply (Hnone model Hin); congruence).
  rewrite mbind_run in H. destruct (mgr_global w2) as [w3 r3] eqn:E3. apply mgr_global_run in E3 as [-> Hmgr].
  destruct r3 as [m|]; [|by injection H as <- <-]. specialize (Hmgr m eq_refl). rewrite M2' in Hmgr.
  rewrite mbind_run in H. change (get_db_path m) with (path_of (mgr_db_path m)) in H. rewrite (base_of_mgr w m base Hb Hmgr) in H.
  destruct (rename_files _ _ w2) as [w4 r4] eqn:E4. apply rename_files_run in E4 as (T4 & MA4 & M4 & F4); [|done].
  assert (drows w4 = drows w) as R4 by (rewrite <-R2'; unfold drows; by rewrite MA4).
  destruct r4 as [[]|err]; injection H as <- <-; (split; [by eapply touches_trans|]).
  - split; [done|]. split_and!; try done; [congruence|]. intros q Hq. rewrite (F4 q Hq), !F2' by (try done; apply path_of_main). done.
  - split_and!; [done|congruence|]. intros q Hq. by rewrite F4, F2'.
Qed.

(** The whole renaming when it succeeds. *)
Lemma update_finish_run now name new_name model m w w1 w' r base :
  uniq w -> base_of w = Some base -> touches base (fun n => n = name \/ n = new_name) w w1 -> started base name new_name model m w w1 ->
  update_finish now name new_name model m w1 = (w', r) ->
  touches base (fun n => n = name \/ n = new_name) w w' /\ uniq w' /\
  match r with
  | Ok _ => (forall x, x ∈ drows w' -> db_name x = new_name \/ x ∈ drows w) /\ (forall x, x ∈ drows w' -> db_name x <> name) /\
            (exists x, x ∈ drows w' /\ db_name x = new_name /\ db_id x = db_id model /\ db_created_at x = db_created_at model) /\
            dpool w' name = None /\ (forall t, dpool w' new_name = Some t -> dfile w' (path_of base new_name) = Some (tc_conn t) \/ dpool w new_name = Some t) /\
            opened (path_of base new_name) w1 w' /\ dfile w' (path_of base name) = None
  | Err _ => drows w' = drows w /\ dw_mgr w' = dw_mgr w
  end.
Proof using rlaws dlaws.
  intros Hu Hb T1 (Hne & Hin & Hname & Hnone & Hmgr & R1 & M1 & Hmoved) H. unfold update_finish in H.
  assert (uniq w1) as U1 by (unfold uniq in *; by rewrite R1).
  assert (mgr_db_path m = base) as Hmb by (by eapply base_of_mgr).
  destruct (on_main _ _ w1) as [w2 r2] eqn:E2.
  apply (update_row base (fun n => n = name \/ n = new_name)) in E2 as (T2 & U2 & D2 & M2 & Hrows); [|done|by rewrite R1|by left|by right].
  assert (touches base (fun n => n = name \/ n = new_name) w w2) as T2' by (by eapply touches_trans).
  destruct r2 as [updated|err].
  - destruct Hrows as [-> Hrows]. destruct (remove_conn m name w2) as [w3 r3] eqn:E3. cbn [fst] in H.
    apply (remove_conn_run base) in E3 as (T3 & U3 & P3 & S3 & N3 & F3); [|done|done].
    assert (forall x, x ∈ drows w2 -> db_name x <> name) as Hgone.
    { intros x [->|[Hx Hxne]]%Hrows; [simpl; congruence|]. rewrite R1 in Hx. intros Heq. apply Hxne. apply (same_name w); try done. congruence. }
    specialize (N3 Hgone).
    destruct (create_conn now m new_name _ w3) as [w4 r4] eqn:E4. cbn [fst] in H. injection H as <- <-.
    apply (create_conn_run base) in E4 as (T4 & U4 & O4 & K4 & S4 & X4); [|done|done].
    assert (touches base (fun n => n = name \/ n = new_name) w3 w4) as T4' by (eapply touches_mono; [|done]; simpl; auto).
    assert (touches base (fun n => n = name \/ n = new_name) w2 w3) as T3' by (eapply touches_mono; [|done]; simpl; auto).
    assert (set_db_name new_name model ∈ drows w3) as Hnew by (rewrite N3; apply Hrows; by left).
    assert (forall q, dfile w2 q = dfile w1 q) as F2 by (intros q; unfold dfile; by rewrite D2).
    assert (dfile w1 (path_of base name) = None) as F1.
    { rewrite (Hmoved _ (path_of_main _ _)). destruct (String.eqb_spec (path_of base name) (path_of base new_name)) as [Heq%path_of_inj|]; [done|].
      by rewrite String.eqb_refl. }
    assert (dfile w3 (path_of base name) = None) as F3' by (rewrite F2 in F3; destruct F3; congruence).
    assert (dpool w2 new_name = dpool w new_name) as P2 by (unfold dpool; by rewrite M2, M1).
    assert (dpool w3 new_name = dpool w2 new_name) as P3' by (apply T3; congruence).
    split_and!; try done.
    + eapply touches_trans; [done|by eapply touches_trans].
    + intros x [?|Hx]%S4; [by left|]. rewrite N3 in Hx. apply Hrows in Hx as [->|[Hx _]]; [by left|]. right. by rewrite <-R1.
    + intros x [?|Hx]%S4; [congruence|]. rewrite N3 in Hx. by apply Hgone.
    + destruct (K4 _ Hnew) as (x & Hx & Hxn & Hxi & Hxc). by exists x.
    + rewrite (touch_pool _ _ _ _ T4) by congruence. done.
    + intros t Ht. destruct r4 as [i|err].
      * destruct X4 as (Hf & _ & Hp). left. rewrite Hp in Ht; [by injection Ht as <-|].
        destruct (dw_mgr w3) eqn:Eg; [by eexists|]. pose proof (touch_base _ _ _ _ T3) as Hbb. unfold base_of in Hbb. rewrite Eg, M2, M1, Hmgr in Hbb. done.
      * right. congruence.
    + assert (forall q, ~ side_file q -> dfile w3 q = dfile w1 q) as F31.
      { intros q Hq. destruct (decide (q = path_of base name)) as [->|Hqn]; [congruence|].
        rewrite (touch_files _ _ _ _ T3) by (try done; intros n -> Heq; congruence). apply F2. }
      destruct O4 as [O4|(O4 & i & Hi & Hfresh)]; [left; rewrite O4; apply F31, path_of_main|].
      right. split; [rewrite <-F31; [done|apply path_of_main]|]. exists i. split; [done|].
      intros q Hq. rewrite <-F31 by done. by apply Hfresh.
    + rewrite (touches_file _ _ _ _ name T4) by congruence. done.
  - destruct (rollback_files _ _ w2) as [w3 r3] eqn:E3. cbn [fst] in H. injection H as <- <-.
    change (get_db_path m) with (path_of (mgr_db_path m)) in E3. rewrite Hmb in E3.
    apply rollback_files_run in E3 as (T3 & MA3 & M3); [|done].
    assert (drows w3 = drows w) as R3 by (rewrite <-R1, <-Hrows; unfold drows; by rewrite MA3).
    split_and!; [by eapply touches_trans|unfold uniq in *; congruence|done|congruence].
Qed.
End touches.

(** ** The console *)

Section console_thms.
Context {D : Type} {main : MainDb D} `{Crypto}.
Context (e : Env) (Hpc : PERMISSION_CHECKER e = Some (ServerPermissionChecker (e_globals e) (e_clock e))).

Lemma console_allowed_ok token p name : console_allowed e token p name = Ok tt -> authorised e token Scope_Global (P_NodeGet p).
Proof using Hpc.
  unfold console_allowed, require_permission_checker, authorised. rewrite Hpc. simpl. intros (t & Ht & Hc)%rbind_ok. exists t. split; [done|].
  apply rbind_ok in Hc as (b & Hb & Hr). by destruct b.
Qed.

(** A statement reaches the main database only with the permission for it, and a kept answer has the first ten
    thousand rows and the true number of rows; the sizes of the tables are for the super token. *)
Theorem console_guarded slice token sql params d d' r r' : console_exec_sql e slice token sql params d = (d', r) ->
  (d' <> d \/ is_ok r = true -> authorised e token Scope_Global (P_NodeGet NodeGet_ExecSql) /\
    exists db db' values, d = Some db /\ d' = Some db' /\ sea_params params = Ok values /\ (main_query_all sql values db).1 = db' /\
      forall rows, (main_query_all sql values db).2 = Ok rows ->
      r = Ok (JObject [("success", JBool true); ("data", JArray (map (row_to_json slice) (take EXEC_SQL_RESULT_TRUNCATE_LIMIT rows)));
                       ("row_count", jint (Z.of_nat (length rows))); ("truncated", JBool (EXEC_SQL_RESULT_TRUNCATE_LIMIT <? length rows)%nat)]%string)) /\
  (database_storage e token d = Ok r' -> exists t, parse_token token = Ok t /\ check_super_token (e_globals e) t = Ok true).
Proof using Hpc.
  intros Hrun. split.
  - intros Hsome. unfold console_exec_sql in Hrun. destruct (console_allowed e token NodeGet_ExecSql "exec_sql") as [[]|err] eqn:Ea.
    2: { injection Hrun as <- <-. by destruct Hsome. }
    split; [by eapply console_allowed_ok|]. destruct d as [db|]; [|injection Hrun as <- <-; by destruct Hsome].
    destruct (sea_params params) as [values|]; [|injection Hrun as <- <-; by destruct Hsome].
    destruct (main_query_all sql values db) as [db' q] eqn:Eq. injection Hrun as <- <-. exists db, db', values. rewrite Eq. split_and!; try done.
    simpl. intros rows ->. simpl. destruct (Nat.ltb_spec EXEC_SQL_RESULT_TRUNCATE_LIMIT (length rows)) as [|Hle]; [done|]. by rewrite take_ge.
  - unfold database_storage, require_permission_checker. rewrite Hpc. simpl. intros (t & Ht & Hc)%rbind_ok. exists t. split; [done|].
    apply rbind_ok in Hc as (b & Hb%map_err_ok & Hr). by destruct b.
Qed.
End console_thms.
