(* ===== verification/DbSystem.v ===== *)
(** * User databases over time

    Sequences of requests on user databases, with outages of the main database and failing disk
    operations: the invariant of pool, registry and files, and the examples and defects. *)
From stdpp Require Import base strings gmap list numbers sorting.
From Stdlib Require Import Ascii.
From S2P Require Import Prelude Errors Json Db Permission TokenCache Concrete TokenCheck KvAuth LastCache JsRun Selection SnapshotQuery MonQuery StaticPath DbRegistry DbRegistryThms.

Section system.
Context {R F : Type} {rops : TableOps R DbModel} {dops : DiskOps F}.
Context {rlaws : TableLaws rops db_conflict} {dlaws : DiskLaws dops}.
#[local] Notation DW := (DbWorld R F).
Implicit Types (w : DW) (m : DbRegistryManager).

(** No file under two paths. *)
Definition inj_files w : Prop :=
  forall p q i, ~ side_file p -> ~ side_file q -> dfile w p = Some i -> dfile w q = Some i -> p = q.

Record db_ok w : Prop := {
  ok_uniq : uniq w;
  ok_valid : forall x, x ∈ drows w -> valid_db_name (db_name x) = true;
  ok_inj : inj_files w;
  ok_pool : forall base n t, base_of w = Some base -> dpool w n = Some t ->
    (exists x, x ∈ drows w /\ db_name x = n) /\ dfile w (path_of base n) = Some (tc_conn t);
}.

(** An operation that touches only [S] keeps the invariant when it does for [S]. *)
Lemma frame_ok base (S : string -> Prop) w w' :
  (forall n, S n \/ ~ S n) -> db_ok w -> base_of w = Some base -> touches base S w w' -> uniq w' ->
  (forall x, x ∈ drows w' -> valid_db_name (db_name x) = true) -> inj_files w' ->
  (forall n t, S n -> dpool w' n = Some t -> (exists x, x ∈ drows w' /\ db_name x = n) /\ dfile w' (path_of base n) = Some (tc_conn t)) ->
  db_ok w'.
Proof using.
  clear rlaws dlaws. intros Hdec [_ _ _ Hp] Hb Ht Hu Hv Hi HS. split; try done. intros base' n t Hb' Hn.
  assert (base' = base) as -> by (rewrite (touch_base _ _ _ _ Ht), Hb in Hb'; congruence).
  destruct (Hdec n) as [HSn|HSn]; [by apply HS|]. rewrite (touch_pool _ _ _ _ Ht n HSn) in Hn.
  destruct (Hp base n t Hb Hn) as [(x & Hx & Hxn) Hf]. split.
  - exists x. split; [|done]. apply Ht; [by rewrite Hxn|done].
  - by rewrite (touches_file _ _ _ _ n Ht HSn).
Qed.

Lemma inj_new p0 w w' :
  inj_files w -> (forall p, ~ side_file p -> p <> p0 -> dfile w' p = dfile w p) -> opened p0 w w' -> inj_files w'.
Proof using.
  clear rlaws dlaws. intros Hi Hsame Ho p q i Hp Hq.
  destruct (decide (p = p0)) as [->|Hpn], (decide (q = p0)) as [->|Hqn]; try done.
  - rewrite (Hsame q) by done. destruct Ho as [->|(_ & j & -> & Hfresh)]; [by apply Hi|]. intros [= ->] Hq'. by destruct (Hfresh q Hq).
  - rewrite (Hsame p) by done. destruct Ho as [->|(_ & j & -> & Hfresh)]; [by apply Hi|]. intros Hp' [= ->]. by destruct (Hfresh p Hp).
  - rewrite !Hsame by done. by apply Hi.
Qed.

Lemma inj_opened base n w w' :
  inj_files w -> touches base (fun x => x = n) w w' -> opened (path_of base n) w w' -> inj_files w'.
Proof using.
  clear rlaws dlaws. intros Hi Ht. apply inj_new; [done|]. intros p Hp Hne. apply Ht; [done|]. by intros n' ->.
Qed.

Lemma inj_removed base n w w' :
  inj_files w -> touches base (fun x => x = n) w w' ->
  dfile w' (path_of base n) = dfile w (path_of base n) \/ dfile w' (path_of base n) = None -> inj_files w'.
Proof using.
  clear rlaws dlaws. intros Hi Ht Ho p q i Hp Hq.
  assert (forall p, ~ side_file p -> dfile w' p = Some i -> dfile w p = Some i) as Hsame.
  { intros p' Hp'. destruct (decide (p' = path_of base n)) as [->|Hne].
    - destruct Ho as [->| ->]; done.
    - rewrite (touch_files _ _ _ _ Ht); [done|done|]. by intros n' ->. }
  intros H1 H2. apply (Hi p q i); auto.
Qed.

Lemma inj_moved base old new w w' : old <> new -> inj_files w -> moved base old new w w' -> inj_files w'.
Proof using.
  clear rlaws dlaws. intros Hne Hi Hm p q i Hp Hq. rewrite (Hm p Hp), (Hm q Hq).
  pose proof (path_of_main base old) as Ho.
  destruct (String.eqb_spec p (path_of base new)) as [->|Hpn], (String.eqb_spec q (path_of base new)) as [->|Hqn]; try done.
  - destruct (String.eqb_spec q (path_of base old)) as [->|Hqo]; [done|].
    destruct (dfile w (path_of base old)) as [j|] eqn:E; [|by apply Hi]. intros [= ->] Hj. by destruct Hqo; apply (Hi q (path_of base old) i).
  - destruct (String.eqb_spec p (path_of base old)) as [->|Hpo]; [done|].
    destruct (dfile w (path_of base old)) as [j|] eqn:E; [|by apply Hi]. intros Hj [= ->]. by destruct Hpo; apply (Hi p (path_of base old) i).
  - destruct (String.eqb_spec p (path_of base old)); [done|]. destruct (String.eqb_spec q (path_of base old)); [done|]. by apply Hi.
Qed.

(** ** The operations keep the invariant *)

Lemma create_conn_ok base now m n lt w w' r :
  db_ok w -> base_of w = Some base -> mgr_db_path m = base -> valid_db_name n = true ->
  (forall t, dpool w n = Some t -> False) -> create_conn now m n lt w = (w', r) -> db_ok w'.
Proof using rlaws dlaws.
  intros Hok Hb Hm Hv Hno H. destruct (create_conn_run base _ _ _ _ _ _ _ Hm (ok_uniq _ Hok) H) as (Ht & Hu & Ho & _ & Hs & Hr).
  apply (frame_ok base (fun x => x = n) w); try done.
  - intros x. destruct (decide (x = n)); auto.
  - intros x [->|Hx]%Hs; [done|]. by apply (ok_valid _ Hok).
  - eapply inj_opened; [apply (ok_inj _ Hok)|done|done].
  - intros x t -> Hp. destruct r as [i|err]; [|exfalso; rewrite Hr in Hp; by apply (Hno t)].
    destruct Hr as (Hf & Hx & Hpool). split; [done|]. rewrite Hpool in Hp; [by injection Hp as <-|].
    unfold base_of in Hb. destruct (dw_mgr w); [by eexists|done].
Qed.

Lemma remove_conn_ok base m n w w' r :
  db_ok w -> base_of w = Some base -> mgr_db_path m = base -> remove_conn m n w = (w', r) ->
  db_ok w' /\ base_of w' = Some base /\ touches base (fun x => x = n) w w'.
Proof using rlaws dlaws.
  intros Hok Hb Hm H. destruct (remove_conn_run base _ _ _ _ _ Hm (ok_uniq _ Hok) H) as (Ht & Hu & Hp & Hs & _ & Hf).
  split; [|split; [by rewrite (touch_base _ _ _ _ Ht)|done]]. apply (frame_ok base (fun x => x = n) w); try done.
  - intros x. destruct (decide (x = n)); auto.
  - intros x Hx%Hs. by apply (ok_valid _ Hok).
  - eapply inj_removed; [apply (ok_inj _ Hok)|done|done].
  - intros x t -> Hp'. congruence.
Qed.

(** Steps that leave registry and files alone. *)
Lemma db_same_ok w w' :
  db_ok w -> drows w' = drows w -> (forall q, ~ side_file q -> dfile w' q = dfile w q) -> base_of w' = base_of w ->
  (forall n, option_map tc_conn (dpool w' n) = option_map tc_conn (dpool w n)) -> db_ok w'.
Proof using.
  clear rlaws dlaws. intros [Hu Hv Hi Hp] Hr Hf Hb Hpool. split.
  - unfold uniq. by rewrite Hr.
  - intros x. rewrite Hr. apply Hv.
  - intros p q i H1 H2. rewrite !Hf by done. by apply Hi.
  - intros base n t Hbase Hn. rewrite Hr, Hf by apply path_of_main. specialize (Hpool n). rewrite Hn in Hpool.
    destruct (dpool w n) as [t'|] eqn:E; [|done]. injection Hpool as ->. apply Hp; [congruence|done].
Qed.

Lemma same_world_ok w w1 : db_ok w -> drows w1 = drows w -> dw_disk w1 = dw_disk w -> dw_mgr w1 = dw_mgr w -> db_ok w1.
Proof using.
  clear rlaws dlaws. intros Hok Hr Hd Hm. apply (db_same_ok w w1 Hok Hr); [intros q _; unfold dfile; by rewrite Hd|unfold base_of; by rewrite Hm|].
  intros n. unfold dpool. by rewrite Hm.
Qed.

Lemma db_create_ok e now token name w w' r base :
  db_ok w -> base_of w = Some base -> create e now token name w = (w', r) -> db_ok w'.
Proof using rlaws dlaws.
  intros Hok Hb H. destruct (db_create_run _ _ _ _ _ _ _ base (ok_uniq _ Hok) Hb H) as [Hg [(w1 & m & r1 & T1 & R1 & D1 & M1 & Hm & Hnone & Hc & _)|(_ & Hr & Hd & Hm & _)]];
    [|by eapply same_world_ok].
  destruct Hg as [->|[Hv _]]; [done|].
  assert (db_ok w1) as Hok1 by (by eapply same_world_ok). assert (base_of w1 = Some base) as Hb1 by (unfold base_of; by rewrite M1).
  eapply (create_conn_ok base); [exact Hok1|done|exact (base_of_mgr w m base Hb Hm)|done| |exact Hc].
  intros t Ht. destruct (ok_pool _ Hok1 base name t Hb1 Ht) as [(x & Hx & Hxn) _]. rewrite R1 in Hx. by destruct (Hnone x Hx).
Qed.

Lemma db_delete_ok e token name w w' r base :
  db_ok w -> base_of w = Some base -> delete_db e token name w = (w', r) -> db_ok w'.
Proof using rlaws dlaws.
  intros Hok Hb H. destruct (db_delete_run _ _ _ _ _ _ base (ok_uniq _ Hok) Hb H) as [_ [(w1 & m & r1 & T1 & R1 & D1 & M1 & Hm & _ & Hc)|(_ & Hr & Hd & Hm & _)]];
    [|by eapply same_world_ok].
  eapply (remove_conn_ok base); [by eapply same_world_ok|unfold base_of; by rewrite M1|exact (base_of_mgr w m base Hb Hm)|exact Hc].
Qed.

Lemma update_db_run e now token name new_name w w' r base :
  uniq w -> base_of w = Some base -> update_db e now token name new_name w = (w', r) ->
  gate (valid_db_name name = true /\ valid_db_name new_name = true /\
        db_granted e token name Db_Update /\ db_granted e token new_name Db_Update) w w' /\
  touches base (fun n => n = name \/ n = new_name) w w' /\ uniq w' /\
  match r with
  | Ok _ => exists model m w1, started base name new_name model m w w1 /\ update_finish now name new_name model m w1 = (w', r) /\
              touches base (fun n => n = name \/ n = new_name) w w1
  | Err _ => drows w' = drows w /\ dw_mgr w' = dw_mgr w
  end.
Proof using rlaws dlaws.
  intros Hu Hb H. unfold update_db in H. rewrite mbind_run in H. destruct (update_start _ _ _ _ w) as [w1 r1] eqn:E1.
  apply (update_start_run _ _ _ _ _ _ _ base) in E1 as (Hg & T1 & H1); [|done|done]. destruct r1 as [[model m]|err].
  - destruct H1 as [Hg1 H1]. destruct (update_finish_run now name new_name model m w w1 w' r base Hu Hb T1 H1 H) as (T2 & U2 & H2). split_and!; try done.
    + by right.
    + destruct r; [by exists model, m, w1|done].
  - injection H as <- <-. destruct H1 as (R1 & M1 & F1). split_and!; try done. unfold uniq in *. by rewrite R1.
Qed.

Lemma db_update_ok e now token name new_name w w' r base :
  db_ok w -> base_of w = Some base -> update_db e now token name new_name w = (w', r) ->
  (forall err, r = Err err -> forall q, ~ side_file q -> dfile w' q = dfile w q) -> db_ok w'.
Proof using rlaws dlaws.
  intros Hok Hb H Hback. destruct (update_db_run _ _ _ _ _ _ _ _ base (ok_uniq _ Hok) Hb H) as (Hg & Ht & Hu & Hr).
  destruct Hg as [->|(Hv & Hvn & _)]; [done|]. destruct r as [j|err].
  - destruct Hr as (model & m & w1 & Hst & Hfin & T1).
    destruct (update_finish_run _ _ _ _ _ _ _ _ _ base (ok_uniq _ Hok) Hb T1 Hst Hfin) as (_ & _ & Hs & Hgone & (x & Hx & Hxn & _) & Hp & Hpn & Ho & Hf).
    destruct Hst as (Hne & Hin & Hname & Hnone & Hm & R1 & M1 & Hmoved).
    assert (forall p, ~ side_file p -> p <> path_of base new_name -> dfile w' p = dfile w1 p) as Hsame.
    { intros p Hp1 Hp2. rewrite (Hmoved p Hp1). destruct (String.eqb_spec p (path_of base new_name)); [done|].
      destruct (String.eqb_spec p (path_of base name)) as [->|Hp3]; [done|]. apply Ht; [done|]. intros nm [->| ->]; done. }
    apply (frame_ok base (fun n => n = name \/ n = new_name) w); try done.
    + intros nm. destruct (decide (nm = name)); [by left; left|]. destruct (decide (nm = new_name)); [by left; right|]. right. tauto.
    + intros y [->|Hy]%Hs; [done|]. by apply (ok_valid _ Hok).
    + eapply inj_new; [eapply inj_moved; [exact Hne|apply (ok_inj _ Hok)|exact Hmoved]|exact Hsame|exact Ho].
    + intros nm t [->| ->] Hpool; [congruence|]. split; [by exists x|]. destruct (Hpn t Hpool) as [?|Hold]; [done|].
      destruct (ok_pool _ Hok base new_name t Hb Hold) as [(y & Hy & Hyn) _]. by destruct (Hnone y Hy).
  - destruct Hr as [R1 M1]. apply (db_same_ok w w' Hok R1); [by apply (Hback err)|unfold base_of; by rewrite M1|].
    intros nm. unfold dpool. by rewrite M1.
Qed.

(** ** Expiry *)

Lemma remove_all_ok base m names : forall w w' r,
  db_ok w -> base_of w = Some base -> mgr_db_path m = base -> remove_all m names w = (w', r) ->
  db_ok w' /\ base_of w' = Some base /\ touches base (fun n => n ∈ names) w w'.
Proof using rlaws dlaws.
  induction names as [|n names IH]; intros w w' r Hok Hb Hm; simpl; [intros [= <- <-]; split_and!; [done|done|apply touches_refl]|].
  destruct (remove_conn m n w) as [w1 r1] eqn:E1. cbn [fst]. intros H.
  destruct (remove_conn_ok base m n w w1 r1 Hok Hb Hm E1) as (Hok1 & Hb1 & T1).
  destruct (IH w1 w' r Hok1 Hb1 Hm H) as (Hok2 & Hb2 & T2). split_and!; try done.
  eapply touches_trans; (eapply touches_mono; [|done]); simpl; [intros x ->; by left|intros x Hx; by right].
Qed.

(** The databases that are due: open, with a lifetime, and unused for that long. *)
Definition due (now : Z) w (n : string) : Prop :=
  exists t x lifetime, dpool w n = Some t /\ x ∈ drows w /\ db_name x = n /\ db_max_lifetime_ms x = Some lifetime /\
    (lifetime <= cast_signed64 (sat_sub_u64 now (tc_last_used_ms t)))%Z.

Lemma db_cleanup_run now m w w' r base :
  db_ok w -> base_of w = Some base -> dw_mgr w = Some m -> cleanup_expired now m w = (w', r) ->
  db_ok w' /\ touches base (due now w) w w'.
Proof using rlaws dlaws.
  intros Hok Hb Hm H. unfold cleanup_expired in H. rewrite mbind_run in H.
  destruct (ok_or no_main_db (dw_main w)) eqn:E0; [|injection H as <- <-; split; [done|apply touches_refl]].
  rewrite mbind_run in H. rewrite mbind_run in H. destruct (on_main _ _ w) as [w1 r1] eqn:E1.
  apply on_main_run in E1 as [(Hn & -> & ->)|(d & d' & r0 & Hd & Hs & -> & ->)]; [injection H as <- <-; split; [done|apply touches_refl]|].
  pose proof (find_all_rows _ _ _ _ Hs) as Hrows. set (w1 := set_main d' w) in *.
  assert (drows w1 = drows w) as R1 by (unfold drows; simpl; by rewrite Hd).
  assert (db_ok w1) as Hok1 by (by eapply same_world_ok).
  assert (touches base (due now w) w w1) as T1.
  { split; [simpl; rewrite Hd; by split|done|done|intros y _; by rewrite R1|done]. }
  destruct r0 as [entries|err]; [|injection H as <- <-; by split]. cbn [map_err] in H.
  apply find_all_ok in Hs. apply (remove_all_ok base) in H as (Hok2 & Hb2 & T2); [|done|done|exact (base_of_mgr w m base Hb Hm)].
  split; [done|]. eapply touches_trans; [done|]. eapply touches_mono; [|done]. intros n Hn. rewrite Hm in Hn.
  unfold to_remove in Hn. apply list_elem_of_omap in Hn as ([n' t] & Hin & Hn).
  apply elem_of_map_to_list in Hin. destruct (lifetime_of entries n') as [l|] eqn:El; [|done].
  destruct (expired now (tc_last_used_ms t) l) eqn:Ee; [|done]. injection Hn as ->. unfold lifetime_of in El.
  apply bind_Some in El as ([i x] & (Hi & Hx & _)%list_find_Some & Hl). simpl in Hl, Hx.
  exists t, x, l. split_and!; try done.
  - unfold dpool. rewrite Hm. done.
  - apply list_elem_of_lookup_2 in Hi. rewrite Hs in Hi. apply list_filter_elem in Hi as [Hi _]. unfold drows. by rewrite Hd.
  - by apply Z.leb_le in Ee.
Qed.

(** ** Start-up *)

Lemma connect_all_run base now m entries : forall w w' r,
  mgr_db_path m = base -> connect_all now m entries w = (w', r) ->
  dw_main w' = dw_main w /\ dw_mgr w' = dw_mgr w /\ (inj_files w -> inj_files w') /\
  (forall p i, ~ side_file p -> dfile w p = Some i -> dfile w' p = Some i) /\
  exists l, r = Ok l /\ forall n t, (n, t) ∈ l ->
    (exists x, x ∈ entries /\ db_name x = n) /\ dfile w' (path_of base n) = Some (tc_conn t).
Proof using rops dlaws.
  clear rlaws. induction entries as [|x entries IH]; intros w w' r Hb; simpl.
  { intros [= <- <-]. split_and!; try done. exists []. split; [done|]. by intros n t ?%not_elem_of_nil. }
  destruct (valid_db_name (db_name x)); simpl.
  - change (get_db_path m (db_name x)) with (path_of (mgr_db_path m) (db_name x)). rewrite Hb.
    destruct (sqlite_connect _ _) as [d1 r1] eqn:E1. destruct (connect_all now m entries (set_disk d1 w)) as [w2 r2] eqn:E2.
    intros [= <- <-]. apply (connect_run base) in E1 as (T1 & O1 & F1).
    destruct (IH _ _ _ Hb E2) as (M2 & G2 & I2 & P2 & l & -> & Hl). split_and!; try done.
    + intros Hi. apply I2. by eapply inj_opened.
    + intros p i Hp Hf. apply P2; [done|]. destruct (decide (p = path_of base (db_name x))) as [->|Hne].
      * destruct O1 as [->|[Hnone _]]; [done|congruence].
      * rewrite (touch_files _ _ _ _ T1); [done|done|]. by intros n ->.
    + eexists. split; [reflexivity|]. intros n t Hin.
      assert ((n, t) ∈ l -> (exists y, y ∈ x :: entries /\ db_name y = n) /\ dfile w2 (path_of base n) = Some (tc_conn t)) as Hrest.
      { intros H. destruct (Hl n t H) as [(y & Hy & Hyn) Hf]. split; [|done]. exists y. split; [by right|done]. }
      destruct r1 as [i|err]; [|auto]. apply elem_of_cons in Hin as [[= -> ->]|Hin]; [|auto]. split; [exists x; split; [by left|done]|].
      apply P2; [apply path_of_main|]. by apply F1.
  - intros H. destruct (IH _ _ _ Hb H) as (M2 & G2 & I2 & P2 & l & -> & Hl). split_and!; try done.
    exists l. split; [done|]. intros n t Hin. destruct (Hl n t Hin) as [(y & Hy & Hyn) Hf]. split; [|done]. exists y. split; [by right|done].
Qed.

Lemma inserted_pools l n t : forall p : gmap string TrackedConnection,
  fold_left (fun p '(name, tracked) => <[name := tracked]> p) l p !! n = Some t -> (n, t) ∈ l \/ p !! n = Some t.
Proof using.
  clear. induction l as [|[n1 t1] l IH]; intros p; simpl; [by right|]. intros [?|H]%IH; [left; by right|].
  destruct (decide (n1 = n)) as [->|Hne]; [rewrite lookup_insert_eq in H; injection H as ->; left; by left|].
  rewrite lookup_insert_ne in H by done. by right.
Qed.

Lemma seed_ok now m w w' r base :
  db_ok w -> base_of w = Some base -> dw_mgr w = Some m -> seed_from_dbreg now m w = (w', r) -> db_ok w' /\ base_of w' = Some base.
Proof using rlaws dlaws.
  intros Hok Hb Hm H. unfold seed_from_dbreg in H. rewrite mbind_run in H. destruct (on_main _ _ w) as [w1 r1] eqn:E1.
  apply on_main_run in E1 as [(Hn & -> & ->)|(d & d' & r0 & Hd & Hs & -> & ->)]; [by injection H as <- <-|].
  pose proof (find_all_rows _ _ _ _ Hs) as Hrows. set (w1 := set_main d' w) in *.
  assert (drows w1 = drows w) as R1 by (unfold drows; simpl; by rewrite Hd).
  assert (db_ok w1) as Hok1 by (by eapply same_world_ok).
  destruct r0 as [entries|err]; [|by injection H as <- <-]. cbn [map_err] in H. apply find_all_ok in Hs.
  rewrite mbind_run in H. destruct (connect_all now m entries w1) as [w2 r2] eqn:E2.
  destruct (connect_all_run base _ _ _ _ _ _ (base_of_mgr w m base Hb Hm) E2) as (M2 & G2 & I2 & P2 & l & -> & Hl).
  cbn [update_pools] in H. injection H as <- <-.
  assert (drows (set_pools (fun pools => fold_left (fun p '(name, tracked) => <[name := tracked]> p) l pools) w2) = drows w) as R2
    by (unfold drows; simpl; rewrite M2; exact R1).
  assert (base_of w2 = Some base) as Hb2 by (unfold base_of; rewrite G2; exact Hb).
  split; [split|unfold base_of in *; simpl; by destruct (dw_mgr w2)].
  - unfold uniq. rewrite R2. apply (ok_uniq _ Hok).
  - intros x. rewrite R2. apply (ok_valid _ Hok).
  - exact (I2 (ok_inj _ Hok1)).
  - intros base' n t Hb' Hp. assert (base' = base) as ->.
    { unfold base_of in Hb', Hb2. simpl in Hb'. rewrite G2 in Hb', Hb2. destruct (dw_mgr w1); simpl in *; congruence. }
    rewrite R2. rewrite set_pools_at, G2 in Hp. change (dw_mgr w1) with (dw_mgr w) in Hp. rewrite Hm in Hp. simpl in Hp.
    apply inserted_pools in Hp as [Hin|Hold].
    + destruct (Hl n t Hin) as [(x & Hx & Hxn) Hf]. split; [|done]. exists x. split; [|done].
      rewrite Hs in Hx. apply list_filter_elem in Hx as [Hx _]. unfold drows. by rewrite Hd.
    + assert (dpool w n = Some t) as Hp by (unfold dpool; by rewrite Hm). destruct (ok_pool _ Hok base n t Hb Hp) as [Hx Hf]. split; [done|].
      apply P2; [apply path_of_main|exact Hf].
Qed.

(** ** Statements of clients *)

Lemma get_conn_run now n w w' r :
  get_conn now n w = (w', r) ->
  drows w' = drows w /\ dw_disk w' = dw_disk w /\ base_of w' = base_of w /\
  (forall n', option_map tc_conn (dpool w' n') = option_map tc_conn (dpool w n')) /\
  r = Ok (option_map tc_conn (dpool w n)).
Proof using.
  clear. unfold get_conn. change (dw_mgr w ≫= fun m => mgr_pools m !! n) with (dpool w n). destruct (dpool w n) as [t|] eqn:E; intros [= <- <-].
  - split_and!; try done.
    + unfold base_of, set_pools. simpl. by destruct (dw_mgr w).
    + intros n'. rewrite set_pools_at. unfold dpool in *. destruct (dw_mgr w) as [m|]; [|done]. simpl in *.
      destruct (decide (n = n')) as [->|Hne]; [by rewrite lookup_insert_eq, E|by rewrite lookup_insert_ne].
  - done.
Qed.

Lemma exec_sql_run {crypto : Crypto} slice e now n sql params token w w' r :
  exec_sql_inner slice e now n sql params token w = (w', r) ->
  drows w' = drows w /\ (confined sql -> forall q, ~ side_file q -> dfile w' q = dfile w q) /\ base_of w' = base_of w /\
  (forall n', option_map tc_conn (dpool w' n') = option_map tc_conn (dpool w n')) /\
  forall j, r = Ok j -> db_granted e token n Db_ExecSql /\
    exists t values d' result, dpool w n = Some t /\ sea_params params = Ok values /\
      query_all_raw (tc_conn t) sql values (dw_disk w) = (d', Ok result) /\ dw_disk w' = d' /\
      j = JObject [("success", JBool true); ("data", JArray (map (row_to_json slice) (take EXEC_SQL_RESULT_TRUNCATE_LIMIT result)));
                   ("row_count", jint (Z.of_nat (length result))); ("truncated", JBool (EXEC_SQL_RESULT_TRUNCATE_LIMIT <? length result)%nat)]%string.
Proof using rops dlaws.
  clear rlaws. intros H. unfold exec_sql_inner in H. rewrite mbind_run in H. unfold lift at 1 in H.
  destruct (check_db_permission _ _ _ _) as [[]|] eqn:Ep; [|by injection H as <- <-]. apply check_granted in Ep.
  rewrite mbind_run in H. destruct (mgr_global w) as [w1 r1] eqn:E1. apply mgr_global_run in E1 as [-> _].
  destruct r1 as [m|]; [|by injection H as <- <-]. rewrite mbind_run in H. destruct (get_conn now n w) as [w2 r2] eqn:E2.
  apply get_conn_run in E2 as (R2 & D2 & B2 & P2 & ->).
  assert (confined sql -> forall q, ~ side_file q -> dfile w2 q = dfile w q) as F2 by (intros _ q _; unfold dfile; by rewrite D2).
  rewrite mbind_run in H. unfold lift at 1 in H. destruct (dpool w n) as [t|] eqn:En; cbn [option_map ok_or] in H; [|by injection H as <- <-].
  rewrite mbind_run in H. unfold lift at 1 in H. destruct (sea_params params) as [values|]; [|by injection H as <- <-].
  rewrite mbind_run in H. unfold on_disk in H. rewrite D2 in H. destruct (query_all_raw _ _ _ _) as [d' rr] eqn:Eq.
  assert (confined sql -> forall q, ~ side_file q -> dfile (set_disk d' w2) q = dfile w q) as F3
    by (intros Hc q Hq; exact (query_frame _ _ _ _ _ _ q Hc Eq Hq)).
  destruct rr as [result|]; cbn [map_err] in H; injection H as <- <-; (split_and!; [done|done|done|exact P2|]); [|done].
  intros j [= <-]. split; [done|]. exists t, values, d', result. split_and!; try done. unfold jint. repeat f_equal.
  destruct (Nat.ltb_spec EXEC_SQL_RESULT_TRUNCATE_LIMIT (length result)); [done|]. rewrite take_ge; [done|lia].
Qed.

(** ** Sequences of requests *)

(** Requests run one after the other, whatever fails in them.  A step carries the condition under which it leaves the
    files of other databases alone: a statement is [confined] (it attaches no other database, writes no
    other file), a renaming that fails has put its file back.  The code enforces neither. *)
Inductive db_step : Prop -> DW -> DW -> Prop :=
| step_create e now token name w w' r : create e now token name w = (w', r) -> db_step True w w'
| step_update e now token name new_name w w' r :
    update_db e now token name new_name w = (w', r) ->
    db_step (is_ok r = true \/ forall q, ~ side_file q -> dfile w' q = dfile w q) w w'
| step_delete e token name w w' r : delete_db e token name w = (w', r) -> db_step True w w'
| step_exec crypto slice e now name sql params token w w' r :
    exec_sql_inner (crypto := crypto) slice e now name sql params token w = (w', r) -> db_step (confined sql) w w'
| step_cleanup now m w w' r : dw_mgr w = Some m -> cleanup_expired now m w = (w', r) -> db_step True w w'
| step_seed now m w w' r : dw_mgr w = Some m -> seed_from_dbreg now m w = (w', r) -> db_step True w w'.

Inductive db_run : Prop -> DW -> DW -> Prop :=
| run_none w : db_run True w w
| run_more c cs w w1 w' : db_step c w w1 -> db_run cs w1 w' -> db_run (c /\ cs) w w'.

Lemma create_touches e now token name w w' r base :
  uniq w -> base_of w = Some base -> create e now token name w = (w', r) -> touches base (fun n => n = name) w w'.
Proof using rlaws dlaws.
  intros Hu Hb H. destruct (db_create_run _ _ _ _ _ _ _ base Hu Hb H) as [_ [(w1 & m & r1 & T1 & R1 & _ & _ & Hm & _ & Hc & _)|(T & _)]]; [|done].
  eapply touches_trans; [exact T1|]. eapply (create_conn_run base); [exact (base_of_mgr w m base Hb Hm)|unfold uniq in *; by rewrite R1|exact Hc].
Qed.

Lemma delete_touches e token name w w' r base :
  uniq w -> base_of w = Some base -> delete_db e token name w = (w', r) -> touches base (fun n => n = name) w w'.
Proof using rlaws dlaws.
  intros Hu Hb H. destruct (db_delete_run _ _ _ _ _ _ base Hu Hb H) as [_ [(w1 & m & r1 & T1 & R1 & _ & _ & Hm & _ & Hc)|(T & _)]]; [|done].
  eapply touches_trans; [exact T1|]. eapply (remove_conn_run base); [exact (base_of_mgr w m base Hb Hm)|unfold uniq in *; by rewrite R1|exact Hc].
Qed.

Lemma db_step_ok base c w w' : db_step c w w' -> c -> db_ok w -> base_of w = Some base -> db_ok w' /\ base_of w' = Some base.
Proof using rlaws dlaws.
  destruct 1 as [e now token name w w' r H|e now token name new_name w w' r H|e token name w w' r H
    |crypto slice e now name sql params token w w' r H|now m w w' r Hm H|now m w w' r Hm H]; intros Hc Hok Hb.
  - split; [by eapply db_create_ok|]. by rewrite (touch_base _ _ _ _ (create_touches _ _ _ _ _ _ _ base (ok_uniq _ Hok) Hb H)).
  - split; [eapply db_update_ok; [done..|]; by destruct Hc as [Hr|?]; [intros err ->|]|].
    destruct (update_db_run _ _ _ _ _ _ _ _ base (ok_uniq _ Hok) Hb H) as (_ & T & _). by rewrite (touch_base _ _ _ _ T).
  - split; [by eapply db_delete_ok|]. by rewrite (touch_base _ _ _ _ (delete_touches _ _ _ _ _ _ base (ok_uniq _ Hok) Hb H)).
  - apply exec_sql_run in H as (R1 & F1 & B1 & P1 & _). split; [by eapply db_same_ok; [..|by apply F1| |]|congruence].
  - destruct (db_cleanup_run _ _ _ _ _ base Hok Hb Hm H) as [? T]. split; [done|]. by rewrite (touch_base _ _ _ _ T).
  - by eapply seed_ok.
Qed.

Lemma db_run_ok base c w w' : db_run c w w' -> c -> db_ok w -> base_of w = Some base -> db_ok w' /\ base_of w' = Some base.
Proof using rlaws dlaws.
  induction 1 as [|c cs w w1 w' Hs _ IH]; [done|]. intros [Hc Hcs] Hok Hb. destruct (db_step_ok base c w w1 Hs Hc Hok Hb). by apply IH.
Qed.

(** *** The registry, whatever the statements do *)

Record reg_ok base w : Prop := {
  rg_uniq : uniq w;
  rg_valid : forall x, x ∈ drows w -> valid_db_name (db_name x) = true;
  rg_base : base_of w = Some base;
}.

Lemma reg_same base w w' : drows w' = drows w -> base_of w' = base_of w -> reg_ok base w -> reg_ok base w'.
Proof using. clear rlaws dlaws. intros Hr Hb [Hu Hv Hw]. split; [unfold uniq; by rewrite Hr|by rewrite Hr|congruence]. Qed.

Lemma reg_remove base m n w w' r : reg_ok base w -> mgr_db_path m = base -> remove_conn m n w = (w', r) -> reg_ok base w'.
Proof using rlaws dlaws.
  intros [Hu Hv Hb] Hm H. destruct (remove_conn_run base _ _ _ _ _ Hm Hu H) as (Ht & Hu' & _ & Hs & _).
  split; [done|intros x Hx%Hs; by apply Hv|by rewrite (touch_base _ _ _ _ Ht)].
Qed.

Lemma reg_remove_all base m names : forall w w' r,
  reg_ok base w -> mgr_db_path m = base -> remove_all m names w = (w', r) -> reg_ok base w'.
Proof using rlaws dlaws.
  induction names as [|n names IH]; intros w w' r Hok Hm; simpl; [by intros [= <- <-]|].
  destruct (remove_conn m n w) as [w1 r1] eqn:E1. cbn [fst]. intros H. eapply (IH w1); [by eapply reg_remove|done|done].
Qed.

(** The first statement of an expiry run and of a start-up reads the registry. *)
Lemma reg_read {A} base conv (stmt : M R DbErr A) w w' r : (forall d d' x, stmt d = (d', x) -> rows d' = rows d) ->
  reg_ok base w -> on_main conv stmt w = (w', r) -> reg_ok base w' /\ dw_mgr w' = dw_mgr w.
Proof using.
  clear rlaws dlaws. intros Hs Hok H. apply on_main_run in H as [(_ & -> & _)|(d & d' & r0 & Hd & Hq & -> & _)]; [done|].
  split; [|done]. apply (reg_same base w); [|done|done]. unfold drows. simpl. by rewrite Hd, (Hs _ _ _ Hq).
Qed.

Lemma reg_cleanup base now m w w' r : reg_ok base w -> dw_mgr w = Some m -> cleanup_expired now m w = (w', r) -> reg_ok base w'.
Proof using rlaws dlaws.
  intros Hok Hm H. unfold cleanup_expired in H. rewrite mbind_run in H.
  destruct (ok_or no_main_db (dw_main w)) eqn:E0; [|by injection H as <- <-].
  rewrite mbind_run in H. rewrite mbind_run in H. destruct (on_main _ _ w) as [w1 r1] eqn:E1.
  destruct (reg_read base _ _ _ _ _ (find_all_rows _) Hok E1) as [Hok1 _]. destruct r1 as [entries|]; [|by injection H as <- <-].
  eapply reg_remove_all; [exact Hok1| |exact H]. exact (base_of_mgr w m base (rg_base _ _ Hok) Hm).
Qed.

Lemma reg_seed base now m w w' r : reg_ok base w -> dw_mgr w = Some m -> seed_from_dbreg now m w = (w', r) -> reg_ok base w'.
Proof using rlaws dlaws.
  intros Hok Hm H. unfold seed_from_dbreg in H. rewrite mbind_run in H. destruct (on_main _ _ w) as [w1 r1] eqn:E1.
  destruct (reg_read base _ _ _ _ _ (find_all_rows _) Hok E1) as [Hok1 _]. destruct r1 as [entries|]; [|by injection H as <- <-].
  rewrite mbind_run in H. destruct (connect_all now m entries w1) as [w2 r2] eqn:E2.
  destruct (connect_all_run base _ _ _ _ _ _ (base_of_mgr w m base (rg_base _ _ Hok) Hm) E2) as (M2 & G2 & _ & _ & l & -> & _).
  cbn [update_pools] in H. injection H as <- <-. apply (reg_same base w1); [unfold drows; simpl; by rewrite M2| |done].
  unfold base_of. simpl. rewrite G2. by destruct (dw_mgr w1).
Qed.

Lemma reg_step base c w w' : db_step c w w' -> reg_ok base w -> reg_ok base w'.
Proof using rlaws dlaws.
  destruct 1 as [e now token name w w' r H|e now token name new_name w w' r H|e token name w w' r H
    |crypto slice e now name sql params token w w' r H|now m w w' r Hm H|now m w w' r Hm H]; intros Hok; pose proof Hok as [Hu Hv Hb].
  - pose proof (create_touches _ _ _ _ _ _ _ base Hu Hb H) as T.
    destruct (db_create_run _ _ _ _ _ _ _ base Hu Hb H) as [Hg [(w1 & m & r1 & T1 & R1 & D1 & M1 & Hm & Hnone & Hc & _)|(_ & Hr & Hd & Hm & _)]];
      [|apply (reg_same base w); [done|unfold base_of; by rewrite Hm|done]].
    destruct Hg as [->|[Hvn _]]; [done|]. assert (uniq w1) as Hu1 by (unfold uniq in *; by rewrite R1).
    destruct (create_conn_run base _ _ _ _ _ _ _ (base_of_mgr w m base Hb Hm) Hu1 Hc) as (_ & Hu' & _ & _ & Hs & _).
    split; [done| |by rewrite (touch_base _ _ _ _ T)]. intros x [->|Hx]%Hs; [done|]. rewrite R1 in Hx. by apply Hv.
  - destruct (update_db_run _ _ _ _ _ _ _ _ base Hu Hb H) as (Hg & T & Hu' & Hr).
    destruct Hg as [->|(_ & Hvn & _)]; [done|]. split; [done| |by rewrite (touch_base _ _ _ _ T)]. destruct r as [j|err].
    + destruct Hr as (model & m & w1 & Hst & Hfin & T1).
      destruct (update_finish_run _ _ _ _ _ _ _ _ _ base Hu Hb T1 Hst Hfin) as (_ & _ & Hs & _). intros x [->|Hx]%Hs; [done|by apply Hv].
    + destruct Hr as [-> _]. exact Hv.
  - destruct (db_delete_run _ _ _ _ _ _ base Hu Hb H) as [_ [(w1 & m & r1 & T1 & R1 & D1 & M1 & Hm & _ & Hc)|(_ & Hr & Hd & Hm & _)]].
    + eapply reg_remove; [|exact (base_of_mgr w m base Hb Hm)|exact Hc]. apply (reg_same base w); [done|unfold base_of; by rewrite M1|done].
    + apply (reg_same base w); [done|unfold base_of; by rewrite Hm|done].
  - apply exec_sql_run in H as (R1 & _ & B1 & _ & _). by apply (reg_same base w).
  - by eapply reg_cleanup.
  - by eapply reg_seed.
Qed.

Lemma reg_run base c w w' : db_run c w w' -> reg_ok base w -> reg_ok base w'.
Proof using rlaws dlaws. induction 1; [done|]. eauto using reg_step. Qed.

(** ** Theorems *)

(** a request on user databases has an effect only with valid names and the permission for
    each database it names, and touches the row, the pooled connection and the file of these databases
    only.  The expiry run touches only databases that have a lifetime, are open and have been unused for
    at least that long. *)
Theorem databases_isolated base w :
  db_ok w -> base_of w = Some base ->
  (forall e now token name w' r, create e now token name w = (w', r) ->
     (w' = w \/ valid_db_name name = true /\ db_granted e token name Db_Create) /\ touches base (fun n => n = name) w w') /\
  (forall e token name w' r, delete_db e token name w = (w', r) ->
     (w' = w \/ valid_db_name name = true /\ db_granted e token name Db_Delete) /\ touches base (fun n => n = name) w w') /\
  (forall e now token name new_name w' r, update_db e now token name new_name w = (w', r) ->
     (w' = w \/ valid_db_name name = true /\ valid_db_name new_name = true /\
                db_granted e token name Db_Update /\ db_granted e token new_name Db_Update) /\
     touches base (fun n => n = name \/ n = new_name) w w') /\
  (forall now m w' r, dw_mgr w = Some m -> cleanup_expired now m w = (w', r) -> touches base (due now w) w w').
Proof using rlaws dlaws.
  intros Hok Hb. pose proof (ok_uniq _ Hok) as Hu. split_and!.
  - intros e now token name w' r H. split; [by destruct (db_create_run _ _ _ _ _ _ _ base Hu Hb H)|by eapply create_touches].
  - intros e token name w' r H. split; [by destruct (db_delete_run _ _ _ _ _ _ base Hu Hb H)|by eapply delete_touches].
  - intros e now token name new_name w' r H. by destruct (update_db_run _ _ _ _ _ _ _ _ base Hu Hb H) as (? & ? & _).
  - intros now m w' r Hm H. by destruct (db_cleanup_run _ _ _ _ _ base Hok Hb Hm H).
Qed.

(** C32: whatever requests, start-ups and expiry runs came before and whatever failed in them, registered names are valid and unique,
    and a statement of a client that is answered is run, with the permission for its database, once, on the connection pooled under
    that name; the answer has its first ten thousand rows and their true number.  When moreover no earlier statement
    reached beyond its own database (SQLite's ATTACH can) and every failed renaming put its file back,
    that connection is the one to the file of that name, and no other name has that file. *)
Theorem statements_on_own_file {crypto : Crypto} base orderly w w' slice e now n sql params token w'' j :
  db_run orderly w w' -> db_ok w -> base_of w = Some base ->
  exec_sql_inner slice e now n sql params token w' = (w'', Ok j) ->
  uniq w' /\ (forall x, x ∈ drows w' -> valid_db_name (db_name x) = true) /\ db_granted e token n Db_ExecSql /\
  exists t values d' result, dpool w' n = Some t /\
    sea_params params = Ok values /\ query_all_raw (tc_conn t) sql values (dw_disk w') = (d', Ok result) /\ dw_disk w'' = d' /\
    j = JObject [("success", JBool true); ("data", JArray (map (row_to_json slice) (take EXEC_SQL_RESULT_TRUNCATE_LIMIT result)));
                 ("row_count", jint (Z.of_nat (length result))); ("truncated", JBool (EXEC_SQL_RESULT_TRUNCATE_LIMIT <? length result)%nat)]%string /\
    (orderly -> (exists x, x ∈ drows w' /\ db_name x = n) /\ dfile w' (path_of base n) = Some (tc_conn t) /\
       forall n', dfile w' (path_of base n') = Some (tc_conn t) -> n' = n).
Proof using rlaws dlaws.
  intros Hrun Hok Hb H. destruct (reg_run base _ _ _ Hrun) as [Hu Hv _]; [by split; [apply Hok|apply (ok_valid _ Hok)|]|].
  apply exec_sql_run in H as (_ & _ & _ & _ & H). destruct (H j eq_refl) as (Hg & t & values & d' & result & Hp & Hval & Hq & Hd & Hj).
  split_and!; [done..|]. exists t, values, d', result. split_and!; try done. intros Hc.
  destruct (db_run_ok base _ _ _ Hrun Hc Hok Hb) as [Hok' Hb']. destruct (ok_pool _ Hok' base n t Hb' Hp) as [Hx Hf]. split_and!; [done|done|].
  intros n' Hn'. apply (path_of_inj base). by apply (ok_inj _ Hok' _ _ (tc_conn t)); try apply path_of_main.
Qed.

(** a successful renaming keeps the data: the file of the old name is now that of the new one, the
    row keeps its number and creation time under the new name, the old name is gone from registry, pool
    and disk, and the pool, if it has the new name, has it open on that file.  A failed renaming
    leaves registry and pool as they were. *)
Theorem rename_keeps_data base e now token name new_name w w' r :
  db_ok w -> base_of w = Some base -> update_db e now token name new_name w = (w', r) ->
  match r with
  | Ok _ =>
      (exists x x', x ∈ drows w /\ db_name x = name /\ x' ∈ drows w' /\ db_name x' = new_name /\
         db_id x' = db_id x /\ db_created_at x' = db_created_at x) /\
      (forall i, dfile w (path_of base name) = Some i -> dfile w' (path_of base new_name) = Some i) /\
      (forall x, x ∈ drows w' -> db_name x <> name) /\ dpool w' name = None /\ dfile w' (path_of base name) = None /\
      (forall t, dpool w' new_name = Some t -> dfile w' (path_of base new_name) = Some (tc_conn t))
  | Err _ => drows w' = drows w /\ dw_mgr w' = dw_mgr w
  end.
Proof using rlaws dlaws.
  intros Hok Hb H. destruct (update_db_run _ _ _ _ _ _ _ _ base (ok_uniq _ Hok) Hb H) as (_ & _ & _ & Hr).
  destruct r as [j|err]; [|done]. destruct Hr as (model & m & w1 & Hst & Hfin & T1).
  destruct (update_finish_run _ _ _ _ _ _ _ _ _ base (ok_uniq _ Hok) Hb T1 Hst Hfin) as (_ & _ & _ & Hgone & (x & Hx & Hxn & Hxi & Hxc) & Hp & Hpn & Ho & Hf).
  destruct Hst as (Hne & Hin & Hname & Hnone & Hm & R1 & M1 & Hmoved). split_and!; try done.
  - by exists model, x.
  - intros i Hi. specialize (Hmoved _ (path_of_main base new_name)). rewrite String.eqb_refl, Hi in Hmoved.
    destruct Ho as [->|[Hno _]]; congruence.
  - intros t Ht. destruct (Hpn t Ht) as [?|Hold]; [done|].
    destruct (ok_pool _ Hok base new_name t Hb Hold) as [(y & Hy & Hyn) _]. by destruct (Hnone y Hy).
Qed.
End system.

(** ** Examples

    A disk in memory, the witnesses of [DbSystem], and two defects: a deletion that reports success
    while the row stays, and a deletion that runs inside a renaming. *)

(** ** A disk in memory *)

#[local] Notation MemDisk := (gmap string Z).

#[global] Instance mem_disk : DiskOps MemDisk := {|
  file_at d p := d !! p;
  sqlite_connect p d :=
    match d !! p with
    | Some i => (d, Ok i)
    | None => let i := fresh (map_img (SA := gset Z) d) in (<[p := i]> d, Ok i)
    end;
  db_rename a b d := match d !! a with Some i => (<[b := i]> (delete a d), Ok tt) | None => (d, Err "not found"%string) end;
  db_remove p d := match d !! p with Some _ => (delete p d, Ok tt) | None => (d, Err "not found"%string) end;
  query_all_raw _ _ _ d := (d, Ok []);
  confined _ := True;
|}.

#[global] Instance mem_disk_laws : DiskLaws mem_disk.
Proof.
  split; cbn [file_at sqlite_connect db_rename db_remove query_all_raw mem_disk].
  - intros p d d' r q H Hne _. destruct (d !! p); injection H as <- <-; [done|]. by rewrite lookup_insert_ne.
  - intros p d d' i H. destruct (d !! p) as [j|] eqn:E; injection H as <- <-; [by split; [|left]|].
    rewrite lookup_insert_eq. split; [done|]. right. split; [done|]. intros q Hq. eapply (is_fresh (map_img (SA := gset Z) d)).
    apply elem_of_map_img. by exists q.
  - intros p d d' err H. by destruct (d !! p).
  - intros a b d d' q Hne H. destruct (d !! a) as [i|] eqn:E; [|done]. injection H as <-.
    destruct (String.eqb_spec q b) as [->|Hb]; [by rewrite lookup_insert_eq|]. rewrite lookup_insert_ne by done.
    destruct (String.eqb_spec q a) as [->|Ha]; [by rewrite lookup_delete_eq|by rewrite lookup_delete_ne].
  - intros a b d d' m q H. destruct (d !! a); by injection H as <-.
  - intros p d d' q H. destruct (d !! p) eqn:E; [|done]. injection H as <-.
    destruct (String.eqb_spec q p) as [->|Hp]; [by rewrite lookup_delete_eq|by rewrite lookup_delete_ne].
  - intros p d d' m q H. destruct (d !! p); by injection H as <-.
  - intros i sql ps d d' r q _ H _. by injection H as <- <-.
Qed.

#[global] Instance db_table : TableOps (ListTable DbModel) DbModel := ListTable_ops db_conflict.
#[global] Instance db_table_laws : TableLaws db_table db_conflict := ListTable_laws db_conflict db_conflict_sym.

(** ** One database, open *)

#[local] Notation W := (DbWorld (ListTable DbModel) MemDisk).

Definition db_shop : DbModel := {| db_id := 1; db_name := "shop"; db_max_lifetime_ms := None; db_created_at := 5 |}.
Definition db_table_with (scripted : list bool) : ListTable DbModel := {| tbl := [db_shop]; next_id := 2; outages := scripted |}.
Definition shop_mgr : DbRegistryManager :=
  {| mgr_db_path := "data/"; mgr_pools := {["shop" := {| tc_conn := 7; tc_last_used_ms := 10 |}]} |}.
Definition shop_with (scripted : list bool) : W :=
  {| dw_main := Some (db_table_with scripted); dw_disk := {["data/shop.db"%string := 7%Z]}; dw_mgr := Some shop_mgr |}.

#[local] Open Scope Z_scope.

Lemma shop_ok scripted : db_ok (shop_with scripted).
Proof.
  split.
  - done.
  - intros x Hx. apply list_elem_of_singleton in Hx as ->. done.
  - intros p q i _ _ Hp Hq. change (({["data/shop.db"%string := 7]} : MemDisk) !! p = Some i) in Hp. change (({["data/shop.db"%string := 7]} : MemDisk) !! q = Some i) in Hq.
    apply lookup_singleton_Some in Hp as [<- <-], Hq as [<- _]. done.
  - intros base n t [= <-] Hp. change (mgr_pools shop_mgr !! n = Some t) in Hp. unfold shop_mgr in Hp; cbn [mgr_pools] in Hp. apply lookup_singleton_Some in Hp as [<- <-]. split; [|done]. exists db_shop. split; [by left|done].
Qed.

Definition root_token : string := "rootkey:rootsecret".

(** ** Witnesses *)

Lemma databases_isolated_witness :
  touches (R := ListTable DbModel) "data/" (fun n => n = "shop"%string) (shop_with []) (delete_db sample_env root_token "shop" (shop_with [])).1.
Proof.
  destruct (delete_db sample_env root_token "shop" (shop_with [])) as [w' r] eqn:E.
  exact (proj2 (proj1 (proj2 (databases_isolated "data/" (shop_with []) (shop_ok []) eq_refl)) sample_env root_token "shop"%string w' r E)).
Defined.

Definition shop_run : W * result anyhow Json := exec_sql_inner (fun _ => None) sample_env 30 "stock" "select 1" None root_token
  (update_db sample_env 20 root_token "shop" "stock" (shop_with [])).1.

Lemma statements_on_own_file_witness :
  exists w'' j, shop_run = (w'', Ok j) /\ db_granted sample_env root_token "stock" Db_ExecSql /\
    dfile (update_db sample_env 20 root_token "shop" "stock" (shop_with [])).1 "data/stock.db" = Some 7%Z.
Proof.
  destruct shop_run as [w'' r] eqn:E. assert (exists j, r = Ok j) as [j ->].
  { assert (r = shop_run.2) as -> by (by rewrite E). vm_compute. eexists. reflexivity. }
  exists w'', j. split; [done|]. unfold shop_run in E. destruct (update_db sample_env 20 root_token "shop" "stock" (shop_with [])) as [w1 r1] eqn:E1.
  assert (exists j1, r1 = Ok j1) as [j1 ->].
  { assert (r1 = (update_db sample_env 20 root_token "shop" "stock" (shop_with [])).2) as -> by (by rewrite E1). vm_compute. eexists. reflexivity. }
  destruct (statements_on_own_file "data/" _ (shop_with []) w1 (fun _ => None) sample_env 30 "stock" "select 1" None root_token w'' j
    (run_more _ _ _ _ _ (step_update _ _ _ _ _ _ _ _ E1) (run_none w1)) (shop_ok []) eq_refl E) as (_ & _ & Hg & t & _ & _ & _ & Hp & _ & _ & _ & _ & H).
  split; [exact Hg|]. cbn [fst]. refine (eq_trans (proj1 (proj2 (H (conj (or_introl eq_refl) I)))) _). f_equal.
  assert (dpool (update_db sample_env 20 root_token "shop" "stock" (shop_with [])).1 "stock" = Some t) as Ht by (by rewrite E1).
  vm_compute in Ht. by injection Ht as <-.
Defined.

Lemma rename_keeps_data_witness :
  dfile (update_db sample_env 20 root_token "shop" "stock" (shop_with [])).1 "data/stock.db" = Some 7%Z.
Proof.
  destruct (update_db sample_env 20 root_token "shop" "stock" (shop_with [])) as [w1 r1] eqn:E1.
  assert (exists j1, r1 = Ok j1) as [j1 ->].
  { assert (r1 = (update_db sample_env 20 root_token "shop" "stock" (shop_with [])).2) as -> by (by rewrite E1). vm_compute. eexists. reflexivity. }
  destruct (rename_keeps_data "data/" sample_env 20 root_token "shop" "stock" (shop_with []) w1 (Ok j1) (shop_ok []) eq_refl E1) as (_ & H & _).
  exact (H 7%Z eq_refl).
Defined.

(** ** Defects *)

(** The statement that deletes the row fails: the request still answers with success, the file is
    gone, and the row of the database is left. *)
Theorem failed_deletion_reports_success :
  let '(w', r) := delete_db sample_env root_token "shop" (shop_with [false; false; true]) in
  r = Ok (JObject [("success", JBool true)]%string) /\ drows w' = [db_shop] /\ dfile w' "data/shop.db" = None /\ dpool w' "shop" = None.
Proof. vm_compute. split_and!; reflexivity. Qed.

(** A deletion runs between the two halves of a renaming.  The deletion answers with success, the
    renaming fails and puts the file back, and a new database of that name is opened on it. *)
Theorem deletion_inside_renaming :
  match update_start sample_env root_token "shop" "stock" (shop_with []) with
  | (w1, Ok (model, mgr)) =>
      let '(w2, deleted) := delete_db sample_env root_token "shop" w1 in
      let '(w3, renamed) := update_finish 20 "shop" "stock" model mgr w2 in
      let '(w4, created) := create sample_env 30 root_token "shop" w3 in
      is_ok deleted = true /\ is_ok renamed = false /\ drows w3 = [] /\ dfile w3 "data/shop.db" = Some 7%Z /\
      is_ok created = true /\ option_map tc_conn (dpool w4 "shop") = Some 7%Z
  | _ => False
  end.
Proof. vm_compute. split_and!; reflexivity. Qed.
