(* ===== verification/NgConfig.v ===== *)
(** * Configuration files

    [ng-config]: the configuration of agent and server, its defaults, the generation of the
    identifier ([replace_auto_gen_uuid]) and [get_and_parse_config] of both.  The TOML parser
    and the [uuid] crate are parameters; the disk is that of [StaticFs]. *)
From stdpp Require Import base strings gmap list numbers pretty.
From Stdlib Require Import Ascii.
From S2P Require Import Prelude Errors Permission StaticPath StaticFs JsWorker.

(** ** Text *)

Definition LF : ascii := "010"%char.
Definition CR : ascii := "013"%char.

(** [str::lines]. *)
Fixpoint lines (s : string) : list string :=
  match s with
  | EmptyString => []
  | String c s' =>
      if Ascii.eqb c LF then EmptyString :: lines s'
      else match s' with
           | String d _ => if Ascii.eqb c CR && Ascii.eqb d LF then lines s'
                           else match lines s' with l :: ls => String c l :: ls | [] => [String c EmptyString] end
           | EmptyString => [String c EmptyString]
           end
  end.

Definition to_ascii_lowercase (c : ascii) : ascii :=
  let b := byte_of c in if ((65 <=? b) && (b <=? 90))%Z then ascii_of_N (Z.to_N (b + 32)) else c.

Fixpoint eq_ignore_ascii_case (a b : string) : bool :=
  match a, b with
  | EmptyString, EmptyString => true
  | String c a', String d b' => Ascii.eqb (to_ascii_lowercase c) (to_ascii_lowercase d) && eq_ignore_ascii_case a' b'
  | _, _ => false
  end.

Definition trim_start (s : string) : string := String.string_of_list_ascii (trim_front (String.list_ascii_of_string s)).

(** [char::is_ascii_whitespace]: space, tab, line feed, form feed and carriage return. *)
Definition is_ascii_whitespace (c : ascii) : bool :=
  let b := byte_of c in ((b =? 32) || (b =? 9) || (b =? 10) || (b =? 12) || (b =? 13))%Z.

(** The text before the first [=] or white space. *)
Fixpoint before_key_end (s : string) : string :=
  match s with
  | EmptyString => EmptyString
  | String c s' => if Ascii.eqb c "=" || is_ascii_whitespace c then EmptyString else String c (before_key_end s')
  end.

(** [s.get(..n)] and [&s[n..]] for a boundary [n]. *)
Fixpoint split_at (n : nat) (s : string) : option (string * string) :=
  match n, s with
  | O, _ => Some (EmptyString, s)
  | S n', String c s' => match split_at n' s' with Some (a, b) => Some (String c a, b) | None => None end
  | S _, EmptyString => None
  end.

Definition AUTO_GEN : string := "auto_gen".
Definition is_quote (c : ascii) : bool := Ascii.eqb c "034" || Ascii.eqb c "'".

Definition replace_line (key uuid line : string) : string :=
  let trimmed := trim_start line in
  if starts_with trimmed "#" || str_is_empty trimmed then line else
  let found := before_key_end trimmed in
  if negb ((String.length found =? String.length key)%nat && eq_ignore_ascii_case found key) then line else
  match split_once "=" line with
  | None => line
  | Some (before, after) =>
      match trim_start after with
      | String first_char rest =>
          if is_quote first_char then
            match split_at 8 rest with
            | Some (value, after_value) =>
                if eq_ignore_ascii_case value AUTO_GEN
                then before +:+ "=" +:+ String first_char (uuid +:+ after_value) else line
            | None => line
            end
          else line
      | EmptyString => line
      end
  end.

Definition unlines (ls : list string) : string := fold_right (fun l s => l +:+ String LF s) EmptyString ls.

Definition replace_auto_gen_uuid (content key uuid : string) : string := unlines (map (replace_line key uuid) (lines content)).

Example replace_ex :
  replace_auto_gen_uuid "# c
agent_uuid = 'AUTO_GEN' # x
name = 'auto_gen'" "agent_uuid" "0-1" = "# c
agent_uuid ='0-1' # x
name = 'auto_gen'
".
Proof. reflexivity. Qed.

(** [Path::with_extension]: slashes and [.] at the end do not count. *)
Fixpoint drop_trailing (r : list ascii) : list ascii :=
  match r with
  | c :: r' => if Ascii.eqb c "/" then drop_trailing r'
               else match r' with
                    | d :: _ => if Ascii.eqb c "." && Ascii.eqb d "/" then drop_trailing r' else r
                    | [] => r
                    end
  | [] => []
  end.

(** The reversed file name split at its last dot: extension, stem. *)
Fixpoint split_name (r : list ascii) : option (list ascii * list ascii) :=
  match r with
  | [] => None
  | c :: r' => if Ascii.eqb c "/" then None
               else if Ascii.eqb c "." then Some ([], r')
               else match split_name r' with Some (e, s) => Some (c :: e, s) | None => None end
  end.

Definition at_name_start (r : list ascii) : bool := match r with [] => true | c :: _ => Ascii.eqb c "/" end.

Definition with_extension (path ext : string) : string :=
  let r := drop_trailing (rev (String.list_ascii_of_string path)) in
  if at_name_start r then path else
  match split_name r with
  | Some (e, stem) =>
      if at_name_start stem then
        (* ".x" has no extension; ".." is no name; "." only alone *)
        if (length e =? 0)%nat then path else String.string_of_list_ascii (rev r) +:+ "." +:+ ext
      else if (length e =? 0)%nat && match stem with c :: stem' => Ascii.eqb c "." && at_name_start stem' | [] => false end then path
      else String.string_of_list_ascii (rev stem) +:+ "." +:+ ext
  | None => String.string_of_list_ascii (rev r) +:+ "." +:+ ext
  end.

Example ext_1 : map (fun p => with_extension p "tmp") ["config.toml"; "/etc/n.g/conf"; "a/.rc"; ".."; "x/c.toml/"; "a.b.c"] =
  ["config.tmp"; "/etc/n.g/conf.tmp"; "a/.rc.tmp"; ".."; "x/c.tmp"; "a.b.tmp"].
Proof. reflexivity. Qed.

(** ** The agent's configuration *)

Inductive IpProvider : Type := IpInfo | Cloudflare.

Record Server : Type := {
  srv_name : string; srv_server_uuid : string; srv_token : string; srv_ws_url : string;
  srv_allow_task : option bool; srv_allow_icmp_ping : option bool; srv_allow_tcp_ping : option bool;
  srv_allow_http_ping : option bool; srv_allow_web_shell : option bool; srv_allow_read_config : option bool;
  srv_allow_edit_config : option bool; srv_allow_execute : option bool; srv_allow_http_request : option bool;
  srv_allow_ip : option bool; srv_allow_dns : option bool; srv_allow_version : option bool;
  srv_allow_self_update : option bool; srv_ignore_cert : option bool; srv_allow_task_type : option (list string) }.

Record AgentConfig : Type := {
  ac_log_level : option string;
  ac_dynamic_report_interval_ms : option Z;
  ac_dynamic_summary_report_interval_ms : option Z;
  ac_static_report_interval_ms : option Z;
  ac_agent_uuid : Uuid;
  ac_connect_timeout_ms : option Z;
  ac_exec_max_character : option Z;
  ac_terminal_shell : option string;
  ac_ip_provider : option IpProvider;
  ac_ntp_server : option string;
  ac_dynamic_summary_select_disk : option (list string);
  ac_dynamic_summary_select_network_interface : option (list string);
  ac_server : option (list Server) }.

Definition DEFAULT_DYNAMIC_REPORT_INTERVAL_MS : Z := 1000.
Definition DEFAULT_DYNAMIC_SUMMARY_REPORT_INTERVAL_MS : Z := 1000.
Definition DEFAULT_STATIC_REPORT_INTERVAL_MS : Z := 300000.
Definition DEFAULT_CONNECT_TIMEOUT_MS : Z := 1000.
Definition DEFAULT_EXEC_MAX_CHARACTER : Z := 10000.

Definition unwrap_or {A} (d : A) (o : option A) : A := match o with Some a => a | None => d end.

Definition dynamic_report_interval_ms_or_default (c : AgentConfig) : Z :=
  unwrap_or DEFAULT_DYNAMIC_REPORT_INTERVAL_MS (ac_dynamic_report_interval_ms c).
Definition dynamic_summary_report_interval_ms_or_default (c : AgentConfig) : Z :=
  unwrap_or DEFAULT_DYNAMIC_SUMMARY_REPORT_INTERVAL_MS (ac_dynamic_summary_report_interval_ms c).
Definition static_report_interval_ms_or_default (c : AgentConfig) : Z :=
  unwrap_or DEFAULT_STATIC_REPORT_INTERVAL_MS (ac_static_report_interval_ms c).
Definition connect_timeout_duration (c : AgentConfig) : Z := unwrap_or DEFAULT_CONNECT_TIMEOUT_MS (ac_connect_timeout_ms c).
Definition exec_max_character_or_default (c : AgentConfig) : Z := unwrap_or DEFAULT_EXEC_MAX_CHARACTER (ac_exec_max_character c).

(** ** The server's configuration *)

Record MonitoringBufferConfig : Type := {
  mb_flush_interval_ms : option Z; mb_max_batch_size : option Z; mb_channel_capacity : option Z }.
Record RetentionConfig : Type := {
  rt_enabled : option bool; rt_interval_secs : option Z; rt_initial_delay_secs : option Z; rt_legacy_id_margin : option Z }.
Record CrontabConfig : Type := { ct_aggregate_success_result : option bool }.
Record LoggingConfig : Type := {
  lg_log_filter : option string; lg_json_log_file : option string; lg_json_log_filter : option string;
  lg_memory_log_capacity : option Z; lg_memory_log_filter : option string }.
Record TimescaleConfig : Type := {
  tsc_enabled : option bool; tsc_chunk_interval_hours : option Z; tsc_compress_after_hours : option Z;
  tsc_chunk_interval_days : option Z; tsc_compress_after_days : option Z; tsc_retention_days : Z }.
Record DatabaseConfig : Type := {
  dbc_database_url : string; dbc_connect_timeout_ms : option Z; dbc_acquire_timeout_ms : option Z;
  dbc_idle_timeout_ms : option Z; dbc_max_lifetime_ms : option Z; dbc_max_connections : option Z;
  dbc_timescale : option TimescaleConfig }.
Record ServerConfig : Type := {
  sc_server_uuid : Uuid; sc_ws_listener : string; sc_jsonrpc_max_connections : option Z;
  sc_enable_unix_socket : option bool; sc_unix_socket_path : option string; sc_logging : option LoggingConfig;
  sc_database : DatabaseConfig; sc_monitoring_buffer : option MonitoringBufferConfig;
  sc_retention : option RetentionConfig; sc_crontab : option CrontabConfig;
  sc_max_request_body_size : option Z; sc_max_response_body_size : option Z;
  sc_tls_cert : option string; sc_tls_key : option string; sc_static_path : option string; sc_db_path : option string }.

(** [TimescaleConfig] ([ng-core/src/config.rs]). *)
Definition HOURS_PER_DAY : Z := 24.
Definition MAX_RETENTION_DAYS : Z := i64_max / (HOURS_PER_DAY * 3600 * 1000).
Definition DEFAULT_CHUNK_INTERVAL_HOURS : Z := 6.
Definition DEFAULT_COMPRESS_AFTER_HOURS : Z := 12.

Definition is_enabled (c : TimescaleConfig) : bool := unwrap_or true (tsc_enabled c).
Definition effective_hours (hours days : option Z) (default : Z) : Z :=
  match hours with
  | Some h => h
  | None => match days with Some d => sat_mul_u64 d HOURS_PER_DAY | None => default end
  end.
Definition effective_chunk_interval_hours (c : TimescaleConfig) : Z :=
  effective_hours (tsc_chunk_interval_hours c) (tsc_chunk_interval_days c) DEFAULT_CHUNK_INTERVAL_HOURS.
Definition effective_compress_after_hours (c : TimescaleConfig) : Z :=
  effective_hours (tsc_compress_after_hours c) (tsc_compress_after_days c) DEFAULT_COMPRESS_AFTER_HOURS.

Inductive TimescaleError : Type := RetentionTooLong | NoChunkInterval.
Definition validate (c : TimescaleConfig) : result TimescaleError unit :=
  if (MAX_RETENTION_DAYS <? tsc_retention_days c)%Z then Err RetentionTooLong else
  if (effective_chunk_interval_hours c =? 0)%Z then Err NoChunkInterval else Ok tt.

(** ** Loading *)

(** The [toml] and [uuid] crates.  [toml_agent] and [toml_server] are [toml::from_str] of the two
    records up to [deserialize_uuid_or_auto], which gets the text of the identifier. *)
Class ConfigCodec : Type := {
  toml_get_str : string -> string -> result string (option string);
  toml_agent : string -> result string (string * (Uuid -> AgentConfig));
  toml_server : string -> result string (string * (Uuid -> ServerConfig));
  uuid_parse_str : string -> result string Uuid;
}.

Section load.
Context {codec : ConfigCodec} {FS : Type} {fs : FsOps FS}.
Definition Lm (A : Type) : Type := M FS string A.

Definition deserialize_uuid_or_auto (s : string) : result string Uuid :=
  if eq_ignore_ascii_case s AUTO_GEN
  then Err "auto_gen is not supported here; use get_and_parse_config for auto-generation"%string
  else uuid_parse_str s.

Definition with_uuid {C} (r : result string (string * (Uuid -> C))) : result string C :=
  let? (text, build) := r in let? uuid := deserialize_uuid_or_auto text in Ok (build uuid).
Definition agent_from_str (text : string) : result string AgentConfig := with_uuid (toml_agent text).
Definition server_from_str (text : string) : result string ServerConfig := with_uuid (toml_server text).

(** [tokio::fs::read_to_string]. *)
Definition read_to_string (path : string) : Lm string := fun s =>
  (s, let? bytes := map_err io_msg (fs_read path s) in
      map_err (fun _ => "stream did not contain valid UTF-8"%string) (from_utf8 bytes)).

Definition io_call {A} (m : M FS IoErr A) : Lm A := fun s => let '(s', r) := m s in (s', map_err io_msg r).

Definition is_auto_gen (key content : string) : result string bool :=
  let? value := toml_get_str content key in
  Ok (match value with Some s => eq_ignore_ascii_case s AUTO_GEN | None => false end).

(** The text to parse: the file's, or the file's with the new identifier, written back. *)
Definition config_content (new_uuid path key content : string) : Lm string :=
  let! auto := lift (is_auto_gen key content) in
  if (auto : bool) then
    let new_content := replace_auto_gen_uuid content key new_uuid in
    let tmp_path := with_extension path "tmp" in
    let! _ := io_call (fs_write tmp_path (as_bytes new_content)) in
    let! _ := io_call (fs_rename tmp_path path) in
    mret new_content
  else mret content.

(** The first name that occurs a second time. *)
Fixpoint duplicate_name (seen : list string) (servers : list Server) : option string :=
  match servers with
  | [] => None
  | s :: rest => if bool_decide (srv_name s ∈ seen) then Some (srv_name s) else duplicate_name (srv_name s :: seen) rest
  end.

Definition check_agent_config (config : AgentConfig) : result string AgentConfig :=
  if match ac_connect_timeout_ms config with Some 0%Z => true | _ => false end
  then Err "connect_timeout_ms must be greater than 0"%string else
  match (match ac_server config with Some servers => duplicate_name [] servers | None => None end) with
  | Some name => Err ("Duplicate server name '" +:+ name +:+ "' in config")
  | None =>
      let dynamic_interval := dynamic_report_interval_ms_or_default config in
      let summary_interval := dynamic_summary_report_interval_ms_or_default config in
      if (summary_interval =? 0)%Z then Err "dynamic_summary_report_interval_ms must be greater than 0"%string else
      if (dynamic_interval =? 0)%Z then Err "dynamic_report_interval_ms must be greater than 0"%string else
      if negb (dynamic_interval mod summary_interval =? 0)%Z
      then Err ("dynamic_report_interval_ms (" +:+ pretty dynamic_interval +:+
            ") must be an integer multiple of dynamic_summary_report_interval_ms (" +:+ pretty summary_interval +:+ ")")
      else Ok config
  end.

(** [AgentConfig::get_and_parse_config] and [ServerConfig::get_and_parse_config]; [new_uuid] is the
    text of [Uuid::new_v4()]. *)
Definition load_agent_config (new_uuid path : string) : Lm AgentConfig :=
  let! content := read_to_string path in
  let! text := config_content new_uuid path "agent_uuid" content in
  let! config := lift (agent_from_str text) in
  lift (check_agent_config config).

Definition load_server_config (new_uuid path : string) : Lm ServerConfig :=
  let! content := read_to_string path in
  let! text := config_content new_uuid path "server_uuid" content in
  lift (server_from_str text).
End load.
