(* ===== verification/ConfigRpc.v ===== *)
(** * Loading and editing the configuration

    Theorems on [NgConfig]: what an accepted configuration satisfies, and that a generated
    identifier is kept.  [ng-config/src/server_rpc.rs]: [read_config] and [edit_config] of the server,
    and the reload of [server/src/main.rs] that follows an edit. *)
From stdpp Require Import base strings gmap list numbers pretty.
From Stdlib Require Import Ascii.
From S2P Require Import Prelude Errors Json Permission TokenCache TokenCheck KvAuth StaticPath StaticFs JsWorker NgConfig.

(** ** What a loaded configuration satisfies *)

Definition config_ok (c : AgentConfig) : Prop :=
  (0 <> connect_timeout_duration c)%Z /\ (0 <> dynamic_report_interval_ms_or_default c)%Z /\
  (0 <> dynamic_summary_report_interval_ms_or_default c)%Z /\
  (dynamic_summary_report_interval_ms_or_default c | dynamic_report_interval_ms_or_default c)%Z /\
  (forall servers, ac_server c = Some servers -> NoDup (map srv_name servers)).

Lemma duplicate_none seen servers :
  duplicate_name seen servers = None -> NoDup (map srv_name servers) /\ forall s, s ∈ servers -> srv_name s ∉ seen.
Proof.
  revert seen. induction servers as [|s rest IH]; intros seen; simpl; [split; [constructor|set_solver]|].
  case_bool_decide; [done|]. intros [Hn Hs]%IH. split.
  - constructor; [|done]. intros (s' & He & Hin)%list_elem_of_fmap.
    apply (Hs s' Hin). rewrite <-He. by left.
  - intros s' [->|Hin]%elem_of_cons; [done|]. intros Hx. apply (Hs s' Hin). by right.
Qed.

Lemma check_agent_ok c c' : check_agent_config c = Ok c' -> c' = c /\ config_ok c.
Proof.
  unfold check_agent_config. destruct (match ac_connect_timeout_ms c with Some 0%Z => true | _ => false end) eqn:Et; [done|].
  destruct (match ac_server c with Some servers => duplicate_name [] servers | None => None end) eqn:Ed; [done|]. cbv zeta.
  destruct (Z.eqb_spec (dynamic_summary_report_interval_ms_or_default c) 0) as [|Hs]; [done|].
  destruct (Z.eqb_spec (dynamic_report_interval_ms_or_default c) 0) as [|Hd]; [done|].
  destruct (Z.eqb_spec (dynamic_report_interval_ms_or_default c mod dynamic_summary_report_interval_ms_or_default c) 0) as [Hm|]; [|done].
  intros [= <-]. split; [done|]. split_and!; [|lia|lia|by apply Z.mod_divide|]; revert Et Ed.
  - unfold connect_timeout_duration. by destruct (ac_connect_timeout_ms c) as [[]|].
  - intros _ Ed servers Hv. rewrite Hv in Ed. by apply duplicate_none in Ed as [? _].
Qed.

(** ** Loading twice *)

Lemma string_of_as_bytes s : string_of_bytes (as_bytes s) = s.
Proof.
  unfold string_of_bytes. induction s as [|c s IH]; simpl; [done|]. unfold byte_of at 1. by rewrite N2Z.id, ascii_N_embedding, IH.
Qed.

Section loading.
Context {codec : ConfigCodec} {FS : Type} {fs : FsOps FS}.

Lemma read_to_string_run path s s' r : read_to_string path s = (s', r) -> s' = s.
Proof using. by intros [= <- _]. Qed.

Lemma io_call_run {A} (m : M FS IoErr A) s s' r :
  io_call m s = (s', r) -> exists r0, m s = (s', r0) /\ r = map_err io_msg r0.
Proof using. unfold io_call. destruct (m s) as [s1 r0]. intros [= <- <-]. eauto. Qed.

Context {cwd : list string} {file : FS -> list string -> option (list Z)} {fs_laws : FsLaws fs cwd file}.

Lemma read_to_string_ok path s text :
  (read_to_string path s).2 = Ok text -> exists bytes, file s (locate cwd path) = Some bytes /\ text = string_of_bytes bytes.
Proof using fs_laws.
  cbn [read_to_string snd]. intros (bytes & Hb & H)%rbind_ok.
  destruct (fs_read path s) as [b|] eqn:E; [|done]. injection Hb as ->. apply fs_read_ok in E. exists bytes. split; [done|].
  unfold from_utf8 in H. destruct (run_utf8_validation _ _ _); [|done]. by injection H as <-.
Qed.

(** What [toml] promises: the typed reading and the reading of one key are of the same document. *)
Definition same_document {C} (key : string) (parse : string -> result string (string * (Uuid -> C))) : Prop :=
  forall text u build, parse text = Ok (u, build) -> toml_get_str text key = Ok (Some u).

Definition different_place (p q : string) : Prop := locate cwd p <> locate cwd q.

(** The file holds the text that is parsed afterwards. *)
Lemma config_content_run new_uuid path key content s s' r :
  different_place (with_extension path "tmp") path -> (read_to_string path s).2 = Ok content ->
  config_content new_uuid path key content s = (s', r) ->
  match r with
  | Ok text => (forall t, (read_to_string path s').2 = Ok t -> t = text) /\
      (s' = s /\ text = content \/ text = replace_auto_gen_uuid content key new_uuid)
  | Err _ => True
  end.
Proof using fs_laws.
  intros Hne Hread H. unfold config_content in H. rewrite mbind_lift in H. destruct (is_auto_gen key content) as [[]|]; [| |by injection H as <- <-].
  - rewrite mbind_run in H. destruct (io_call _ s) as [s1 r1] eqn:E1. apply io_call_run in E1 as (r0 & E1 & ->).
    destruct r0 as [[]|]; [|by injection H as <- <-]. cbn [map_err] in H. rewrite mbind_run in H.
    destruct (io_call _ s1) as [s2 r2] eqn:E2. apply io_call_run in E2 as (r0 & E2 & ->).
    destruct r0 as [[]|]; [|by injection H as <- <-]. injection H as <- <-. split; [|by right].
    intros t (bytes & Hb & ->)%read_to_string_ok. apply fs_write_ok in E1.
    destruct (fs_rename_ok _ _ _ _ _ E2 Hne E1) as [Hf _]. rewrite Hf in Hb. injection Hb as <-. apply string_of_as_bytes.
  - injection H as <- <-. split; [intros t; rewrite Hread; congruence|by left].
Qed.

Section two_loads.
Context {C : Type} (key : string) (parse : string -> result string (string * (Uuid -> C))).
Hypothesis document : same_document key parse.

(** A text that parses is not given an identifier. *)
Lemma parsed_not_auto new_uuid path text c s :
  with_uuid (parse text) = Ok c -> config_content new_uuid path key text s = (s, Ok text).
Proof using document.
  intros ([u build] & Hp & H)%rbind_ok. apply rbind_ok in H as (uuid & Hu & _). unfold config_content, is_auto_gen.
  rewrite (document _ _ _ Hp). simpl. unfold deserialize_uuid_or_auto in Hu. by destruct (eq_ignore_ascii_case u AUTO_GEN).
Qed.

Definition load {A} (check : C -> result string A) (new_uuid path : string) : Lm (FS := FS) A :=
  let! content := read_to_string path in
  let! text := config_content new_uuid path key content in
  let! c := lift (with_uuid (parse text)) in
  lift (check c).

Lemma load_again {A} (check : C -> result string A) new_uuid new_uuid' path s s1 s2 a r :
  different_place (with_extension path "tmp") path ->
  load check new_uuid path s = (s1, Ok a) -> load check new_uuid' path s1 = (s2, r) ->
  s2 = s1 /\ (r = Ok a \/ is_ok (read_to_string path s1).2 = false).
Proof using document fs_laws.
  intros Hne H1 H2. unfold load in H1. rewrite mbind_run in H1. destruct (read_to_string path s) as [s0 r0] eqn:E0.
  pose proof (read_to_string_run _ _ _ _ E0) as ->. destruct r0 as [content|]; [|done]. rewrite mbind_run in H1.
  destruct (config_content _ _ _ _ s) as [s0 r0] eqn:Ec.
  apply (config_content_run _ _ _ _ _ _ _ Hne) in Ec; [|by rewrite E0]. destruct r0 as [text|]; [|done]. destruct Ec as [Hsame _].
  rewrite mbind_lift in H1. destruct (with_uuid (parse text)) as [c|] eqn:Ep; [|done]. unfold lift in H1. injection H1 as -> Hc.
  unfold load in H2. rewrite mbind_run in H2. destruct (read_to_string path s1) as [s3 r3] eqn:E3. pose proof (read_to_string_run _ _ _ _ E3) as ->.
  cbn [snd]. destruct r3 as [t|]; [|injection H2 as <- <-; by auto]. rewrite (Hsame t eq_refl) in *.
  rewrite mbind_run, (parsed_not_auto _ _ _ _ _ Ep), mbind_lift, Ep in H2. unfold lift in H2. rewrite Hc in H2. injection H2 as <- <-. by auto.
Qed.

Lemma load_checked {A} (check : C -> result string A) new_uuid path s s1 a :
  load check new_uuid path s = (s1, Ok a) -> exists c, check c = Ok a.
Proof using.
  unfold load. intros H. rewrite mbind_run in H. destruct (read_to_string path s) as [s0 []]; [|done].
  rewrite mbind_run in H. destruct (config_content _ _ _ _ _) as [s2 [text|]]; [|done].
  rewrite mbind_lift in H. destruct (with_uuid (parse text)) as [c|]; [|done]. injection H as _ H. by exists c.
Qed.
End two_loads.

Lemma load_server_eq u path s : load_server_config u path s = load "server_uuid" toml_server (fun c => Ok c) u path s.
Proof using.
  unfold load_server_config, load. rewrite !mbind_run. destruct (read_to_string path s) as [s0 []]; [|done].
  rewrite !mbind_run. destruct (config_content _ _ _ _ _) as [s2 [text|]]; [|done]. rewrite mbind_lift. unfold server_from_str.
  by destruct (with_uuid (toml_server text)).
Qed.
End loading.

(** a configuration the agent accepts has nonzero timeouts and intervals, the interval of full
    reports a multiple of that of summaries, and server names that differ.  For agent and server, a generated identifier is kept:
    loading again, on whatever disk the first load left, changes nothing and gives the same
    configuration, unless the file cannot be read. *)
Theorem config_loads_settle {codec : ConfigCodec} {FS} {fs : FsOps FS} {cwd file} {fs_laws : FsLaws fs cwd file} path u u' s :
  same_document "agent_uuid" toml_agent -> same_document "server_uuid" toml_server ->
  different_place (cwd := cwd) (with_extension path "tmp") path ->
  (forall s1 c, load_agent_config u path s = (s1, Ok c) -> config_ok c /\
     forall s2 r, load_agent_config u' path s1 = (s2, r) -> s2 = s1 /\ (r = Ok c \/ is_ok (read_to_string path s1).2 = false)) /\
  (forall s1 c, load_server_config u path s = (s1, Ok c) ->
     forall s2 r, load_server_config u' path s1 = (s2, r) -> s2 = s1 /\ (r = Ok c \/ is_ok (read_to_string path s1).2 = false)).
Proof.
  intros Ha Hs Hne. split; intros s1 c H1.
  - split; [|intros s2 r H2; exact (load_again "agent_uuid" toml_agent Ha check_agent_config u u' path s s1 s2 c r Hne H1 H2)].
    apply (load_checked "agent_uuid" toml_agent check_agent_config) in H1 as [c0 [-> H]%check_agent_ok]. exact H.
  - rewrite load_server_eq in H1. intros s2 r H2. rewrite load_server_eq in H2. by eapply load_again.
Qed.

(** ** The server's own configuration *)

(** [std::env::current_dir], [Path::canonicalize] and [Path::is_file]. *)
Class PathOps (FS : Type) : Type := {
  current_dir : FS -> result string string;
  canonicalize : string -> FS -> result string string;
  is_file : string -> FS -> bool;
}.

(** The path of the file ([SERVER_CONFIG_PATH]) and the permit of [RELOAD_NOTIFY]. *)
Record ConfWorld (FS : Type) : Type := { cw_fs : FS; cw_path : option string; cw_reload : option bool }.
Arguments cw_fs {FS}. Arguments cw_path {FS}. Arguments cw_reload {FS}.

Section server_rpc.
Context {crypto : Crypto} {serde : Serde} {codec : ConfigCodec} {FS : Type} {fs : FsOps FS} {paths : PathOps FS}.
#[local] Notation W := (ConfWorld FS).
Definition Cm (A : Type) : Type := M W anyhow A.

Definition ensure_super_token (e : Env) (token : string) : result anyhow unit :=
  let? token_or_auth := parse_token token in
  let? checker := ok_or (OfNodeget (Other "PermissionChecker not initialized")) (PERMISSION_CHECKER e) in
  let? is_super := map_err to_denied (pc_check_super_token checker token_or_auth) in
  if (is_super : bool) then Ok tt else denied "Permission Denied: Super token required".

Definition validate_config_path (config_path : string) (s : FS) : result anyhow unit :=
  let? dir := map_err (fun m => OfNodeget (Other ("Cannot determine working directory: " +:+ m))) (current_dir s) in
  let? canonical := map_err (fun m => OfNodeget (InvalidInput ("Invalid config path: " +:+ m))) (canonicalize config_path s) in
  if negb (path_starts_with canonical dir) then denied "Config path must be within working directory" else
  if negb (is_file canonical s) then fail_with (InvalidInput "Config path must be a regular file") else Ok tt.

Definition set_fs (s : FS) (w : W) : W := {| cw_fs := s; cw_path := cw_path w; cw_reload := cw_reload w |}.
Definition on_fs {A} (what : string) (m : M FS IoErr A) : Cm A := fun w =>
  let '(s', r) := m (cw_fs w) in (set_fs s' w, map_err (fun err => OfNodeget (Other (what +:+ io_msg err))) r).

Definition config_path_of : Cm string := fun w =>
  (w, let? p := ok_or (OfNodeget (Other "Server config path not initialized")) (cw_path w) in
      let? _ := validate_config_path p (cw_fs w) in Ok p).

Definition read_config (e : Env) (token : string) : Cm string :=
  let! _ := lift (ensure_super_token e token) in
  let! config_path := config_path_of in
  fun w => (w, map_err (fun m => OfNodeget (Other ("Failed to read config file: " +:+ m))) (read_to_string config_path (cw_fs w)).2).

(** [notify.notify_one()], when the signal exists. *)
Definition notify_reload : Cm unit := fun w =>
  ({| cw_fs := cw_fs w; cw_path := cw_path w; cw_reload := option_map (fun _ => true) (cw_reload w) |}, Ok tt).

(** [suffix] is the text of [Uuid::new_v4()]. *)
Definition edit_config (e : Env) (suffix token config_string : string) : Cm bool :=
  let! _ := lift (ensure_super_token e token) in
  let! _ := lift (map_err (fun m => OfNodeget (ParseError ("Config parse error: " +:+ m))) (server_from_str config_string)) in
  let! config_path := config_path_of in
  let temp_path := config_path +:+ ".tmp." +:+ suffix in
  let! _ := on_fs "Failed to write temp config file: " (fs_write temp_path (as_bytes config_string)) in
  let! _ := (fun w =>
    match on_fs "Failed to rename config file: " (fs_rename temp_path config_path) w with
    | (w1, Ok _) => (w1, Ok tt)
    | (w1, Err err) => (set_fs (remove_file temp_path (cw_fs w1)).1 w1, Err err)
    end) in
  let! _ := notify_reload in
  mret true.

(** The reload of [async_main]: a configuration that does not load leaves the current one. *)
Definition reload_config (new_uuid : string) (config : ServerConfig) (path : string) (s : FS) : FS * ServerConfig :=
  match load_server_config new_uuid path s with
  | (s', Ok reloaded) => (s', reloaded)
  | (s', Err _) => (s', config)
  end.
End server_rpc.

(** ** Edits *)

Definition holds_super_token (e : Env) (token : string) : Prop :=
  exists t checker, parse_token token = Ok t /\ PERMISSION_CHECKER e = Some checker /\ pc_check_super_token checker t = Ok true.

Lemma ensure_super e token : ensure_super_token e token = Ok tt -> holds_super_token e token.
Proof.
  unfold ensure_super_token. intros (t & Ht & (c & Hc%ok_or_ok & ([] & Hs & H)%rbind_ok)%rbind_ok)%rbind_ok; [|discriminate H].
  exists t, c. split_and!; try done. destruct (pc_check_super_token c t); [|done]. by injection Hs as ->.
Qed.

Section edits.
Context {crypto : Crypto} {serde : Serde} {codec : ConfigCodec} {FS : Type} {fs : FsOps FS} {paths : PathOps FS}.
Context {cwd : list string} {file : FS -> list string -> option (list Z)} {fs_laws : FsLaws fs cwd file}.
Implicit Types w : ConfWorld FS.

Definition file_of w (path : string) : option (list Z) := file (cw_fs w) (locate cwd path).

Lemma on_fs_run {A} what (m : M FS IoErr A) w w' r :
  on_fs what m w = (w', r) ->
  cw_path w' = cw_path w /\ cw_reload w' = cw_reload w /\
  exists r0, m (cw_fs w) = (cw_fs w', r0) /\ is_ok r = is_ok r0.
Proof using. clear. unfold on_fs. destruct (m (cw_fs w)) as [s r0]. intros [= <- <-]. split_and!; try done. exists r0. by destruct r0. Qed.

(** Writing the file through a temporary one: all or nothing. *)
Lemma replace_file temp path data w w1 w2 r :
  locate cwd temp <> locate cwd path ->
  on_fs "Failed to write temp config file: " (fs_write temp data) w = (w1, Ok tt) ->
  on_fs "Failed to rename config file: " (fs_rename temp path) w1 = (w2, r) ->
  match r with
  | Ok _ => file_of w2 path = Some data
  | Err _ => file_of w2 path = file_of w path /\ file (remove_file temp (cw_fs w2)).1 (locate cwd path) = file_of w path
  end.
Proof using fs_laws.
  intros Hne (_ & _ & r0 & E1 & H1)%on_fs_run (_ & _ & r2 & E2 & H2)%on_fs_run. destruct r0 as [[]|]; [|done].
  assert (file_of w1 path = file_of w path) as Hw.
  { unfold file_of. rewrite <-(fs_write_frame temp data (cw_fs w) (locate cwd path)) by done. by rewrite E1. }
  destruct r as [[]|], r2 as [[]|]; try done.
  - eapply fs_rename_ok; [exact E2|exact Hne|]. by eapply fs_write_ok.
  - assert (file_of w2 path = file_of w path) as H by (rewrite <-Hw; exact (fs_rename_err _ _ _ _ _ _ E2)). split; [done|].
    rewrite remove_file_frame by done. exact H.
Qed.

Definition temp_of (path suffix : string) : string := path +:+ ".tmp." +:+ suffix.

Lemma edit_config_run e suffix token text w w' r path :
  cw_path w = Some path -> locate cwd (temp_of path suffix) <> locate cwd path ->
  edit_config e suffix token text w = (w', r) ->
  match r with
  | Ok _ => holds_super_token e token /\ (exists c, server_from_str text = Ok c) /\ is_ok (validate_config_path path (cw_fs w)) = true /\
      file_of w' path = Some (as_bytes text) /\ cw_reload w' = option_map (fun _ => true) (cw_reload w)
  | Err _ => file_of w' path = file_of w path /\ cw_reload w' = cw_reload w
  end.
Proof using fs_laws.
  intros Hp Hne H. unfold edit_config in H. rewrite mbind_lift in H. destruct (ensure_super_token e token) as [[]|] eqn:Es; [|by injection H as <- <-].
  apply ensure_super in Es. rewrite mbind_lift in H. destruct (server_from_str text) as [c|] eqn:Ec; [|by injection H as <- <-]. cbn [map_err] in H.
  rewrite mbind_run in H. unfold config_path_of in H. rewrite Hp in H. cbn [ok_or rbind] in H.
  destruct (validate_config_path path (cw_fs w)) as [[]|] eqn:Ev; [|by injection H as <- <-]. cbn [rbind] in H. cbv zeta in H. fold (temp_of path suffix) in H.
  rewrite mbind_run in H. destruct (on_fs _ (fs_write _ _) w) as [w1 r1] eqn:E1. pose proof (on_fs_run _ _ _ _ _ E1) as (P1 & R1 & r0 & F1 & H1).
  destruct r1 as [[]|err].
  - rewrite mbind_run in H. destruct (on_fs _ (fs_rename _ _) w1) as [w2 r2] eqn:E2. pose proof (replace_file _ _ _ _ _ _ _ Hne E1 E2) as Hrep.
    apply on_fs_run in E2 as (P2 & R2 & _). destruct r2 as [[]|err]; injection H as <- <-.
    + split_and!; [done|by exists c|done|exact Hrep|]. simpl. by rewrite R2, R1.
    + split; [by apply Hrep|]. simpl. congruence.
  - injection H as <- <-. split; [|done]. unfold file_of. rewrite <-(fs_write_frame (temp_of path suffix) (as_bytes text) (cw_fs w)) by done. by rewrite F1.
Qed.

(** C24: the server's configuration is read and edited only with the super token.  An edit is
    all or nothing: on success the file holds exactly the new text, a configuration, and the reload that is
    signalled takes exactly this configuration, unless the file cannot be read, when the server keeps
    the one it has; on failure file and signal are as they were. *)
Theorem config_edits_guarded e suffix token text w path :
  cw_path w = Some path -> locate cwd (temp_of path suffix) <> locate cwd path -> same_document "server_uuid" toml_server ->
  (forall w' r, read_config e token w = (w', r) -> w' = w /\ (forall t, r = Ok t -> holds_super_token e token /\ (read_to_string path (cw_fs w)).2 = Ok t)) /\
  (forall w' r, edit_config e suffix token text w = (w', r) ->
    match r with
    | Ok _ => holds_super_token e token /\ cw_reload w' = option_map (fun _ => true) (cw_reload w) /\
        file_of w' path = Some (as_bytes text) /\
        exists c, server_from_str text = Ok c /\ forall u config s c', reload_config u config path (cw_fs w') = (s, c') ->
          s = cw_fs w' /\ (c' = c \/ c' = config /\ is_ok (read_to_string path (cw_fs w')).2 = false)
    | Err _ => file_of w' path = file_of w path /\ cw_reload w' = cw_reload w
    end).
Proof using fs_laws.
  intros Hp Hne Hdoc. split.
  - intros w' r H. unfold read_config in H. rewrite mbind_lift in H. destruct (ensure_super_token e token) as [[]|] eqn:Es; [|by injection H as <- <-].
    rewrite mbind_run in H. unfold config_path_of in H. rewrite Hp in H. cbn [ok_or rbind] in H.
    destruct (validate_config_path path (cw_fs w)); injection H as <- <-; [|done]. split; [done|]. intros t Ht.
    split; [by apply ensure_super|]. by apply map_err_ok in Ht.
  - intros w' r H. apply (edit_config_run _ _ _ _ _ _ _ _ Hp Hne) in H. destruct r as [b|]; [|done].
    destruct H as (Hs & (c & Hc) & _ & Hf & Hr). split_and!; try done. exists c. split; [done|]. intros u config s c' H.
    unfold reload_config in H. rewrite load_server_eq in H. unfold load in H. rewrite mbind_run in H.
    destruct (read_to_string path (cw_fs w')) as [s0 r0] eqn:E0. pose proof (read_to_string_run _ _ _ _ E0) as ->.
    destruct r0 as [t|]; [|injection H as <- <-; by auto].
    assert (t = text) as ->.
    { destruct (read_to_string_ok path (cw_fs w') t) as (bytes & Hb & ->); [by rewrite E0|]. unfold file_of in Hf. rewrite Hf in Hb.
      injection Hb as <-. apply string_of_as_bytes. }
    rewrite mbind_run, (parsed_not_auto "server_uuid" toml_server Hdoc _ _ _ c) in H by exact Hc. rewrite mbind_lift in H.
    unfold server_from_str in Hc. rewrite Hc in H. injection H as <- <-. by auto.
Qed.
End edits.

(** ** Examples *)

Definition quote : ascii := "034".
(** A document is one quoted text. *)
Definition quoted (text : string) : option string :=
  match split_once quote text with Some (_, rest) => option_map fst (split_once quote rest) | None => None end.
Definition toy_parse {C} (build : Uuid -> C) (text : string) : result string (string * (Uuid -> C)) :=
  match quoted text with Some u => Ok (u, build) | None => Err "no identifier"%string end.

Definition toy_agent (u : Uuid) : AgentConfig := {|
  ac_log_level := Some "info"%string; ac_dynamic_report_interval_ms := Some 5000%Z; ac_dynamic_summary_report_interval_ms := None;
  ac_static_report_interval_ms := None; ac_agent_uuid := u; ac_connect_timeout_ms := None; ac_exec_max_character := None;
  ac_terminal_shell := None; ac_ip_provider := None; ac_ntp_server := None; ac_dynamic_summary_select_disk := None;
  ac_dynamic_summary_select_network_interface := None; ac_server := None |}.
Definition toy_server (u : Uuid) : ServerConfig := {|
  sc_server_uuid := u; sc_ws_listener := "0.0.0.0:1"; sc_jsonrpc_max_connections := None; sc_enable_unix_socket := None;
  sc_unix_socket_path := None; sc_logging := None;
  sc_database := {| dbc_database_url := "sqlite://x"; dbc_connect_timeout_ms := None; dbc_acquire_timeout_ms := None;
    dbc_idle_timeout_ms := None; dbc_max_lifetime_ms := None; dbc_max_connections := None; dbc_timescale := None |};
  sc_monitoring_buffer := None; sc_retention := None; sc_crontab := None; sc_max_request_body_size := None;
  sc_max_response_body_size := None; sc_tls_cert := None; sc_tls_key := None; sc_static_path := None; sc_db_path := None |}.

#[local] Instance toy_codec : ConfigCodec := {|
  toml_get_str text _ := Ok (quoted text);
  toml_agent := toy_parse toy_agent;
  toml_server := toy_parse toy_server;
  uuid_parse_str s := Ok (N.of_nat (String.length s)) |}.

Lemma toy_document {C} (build : Uuid -> C) key : same_document key (toy_parse build).
Proof. intros text u k. unfold toy_parse. simpl. destruct (quoted text); [|done]. by intros [= -> _]. Qed.

#[local] Instance conf_fs : FsOps MemFs := mem_ops ["home"%string].
#[local] Instance conf_fs_laws : FsLaws conf_fs ["home"%string] mem_file := mem_laws ["home"%string].
#[local] Instance conf_paths : PathOps MemFs := {|
  current_dir _ := Ok "/home"%string; canonicalize p _ := Ok ("/home/" +:+ p); is_file _ _ := true |}.

Definition auto_text : string := "agent_uuid = " +:+ String quote ("AUTO_gen" +:+ String quote EmptyString).
Definition conf_disk : MemFs := {| mem := {[ ["home"; "config.toml"]%string := as_bytes auto_text ]}; read_only := false |}.

Lemma config_loads_settle_witness :
  exists s1 c, load_agent_config "12345678" "config.toml" conf_disk = (s1, Ok c) /\ ac_agent_uuid c = 8%N /\ config_ok c /\
    (load_agent_config "999" "config.toml" s1).1 = s1.
Proof.
  destruct (load_agent_config "12345678" "config.toml" conf_disk) as [s1 r] eqn:E.
  assert (r = Ok (toy_agent 8%N)) as ->.
  { assert (r = (load_agent_config "12345678" "config.toml" conf_disk).2) as -> by (by rewrite E). vm_compute. reflexivity. }
  exists s1, (toy_agent 8%N). split; [done|]. split; [done|].
  destruct (proj1 (config_loads_settle (cwd := ["home"%string]) "config.toml" "12345678" "999" conf_disk (toy_document toy_agent _) (toy_document toy_server _) ltac:(vm_compute; discriminate)) s1 (toy_agent 8%N) E) as [Hok Hagain].
  split; [exact Hok|]. destruct (load_agent_config "999" "config.toml" s1) as [s2 r2] eqn:E2. exact (proj1 (Hagain s2 r2 eq_refl)).
Defined.

Definition edited_text : string := "server_uuid = " +:+ String quote ("abc" +:+ String quote EmptyString).
Definition conf_world : ConfWorld MemFs := {| cw_fs := conf_disk; cw_path := Some "config.toml"%string; cw_reload := Some false |}.
Definition conf_edited : ConfWorld MemFs * result anyhow bool := edit_config sample_env "77" "rootkey:rootsecret" edited_text conf_world.

Lemma config_edits_guarded_witness :
  conf_edited.2 = Ok true /\ cw_reload conf_edited.1 = Some true /\ file_of (cwd := ["home"%string]) (file := mem_file) conf_edited.1 "config.toml" = Some (as_bytes edited_text).
Proof.
  assert (conf_edited.2 = Ok true) as Hr by (vm_compute; reflexivity). split; [exact Hr|].
  destruct (config_edits_guarded (cwd := ["home"%string]) (file := mem_file) sample_env "77" "rootkey:rootsecret" edited_text conf_world "config.toml" eq_refl
    ltac:(vm_compute; discriminate) (toy_document toy_server _)) as [_ H].
  specialize (H conf_edited.1 conf_edited.2 (surjective_pairing conf_edited)). rewrite Hr in H. destruct H as (_ & Hn & Hf & _). split; [exact Hn|exact Hf].
Defined.
