(* ===== verification/AgentConn.v ===== *)
(** * The agent's connections

    [agent/src/rpc/multi_server.rs]: one manager per configured server keeps a WebSocket
    connection, checks the server's identity, registers for tasks and forwards in both directions.
    The manager is a state machine between its [await]s; an input is what the [await] returned.
    The broadcast channels are those of [tokio::sync::broadcast]: a buffer of the last 32
    messages; a receiver is a position in the sequence of all messages, and a position the
    buffer no longer holds is reported as lag. *)
From stdpp Require Import base strings gmap list numbers pretty relations.
From Stdlib Require Import Ascii.
From S2P Require Import Prelude Errors Json Permission JsRun MonQuery DbRegistry NgConfig.

(** ** Broadcast channels *)

(** The buffer, and how many messages have fallen out of it. *)
Record Broadcast (A : Type) : Type := { bc_dropped : nat; bc_buffer : list A; bc_open : bool }.
Arguments bc_dropped {A}. Arguments bc_buffer {A}. Arguments bc_open {A}.

Definition CHANNEL_CAPACITY : nat := 32.

(** [broadcast::channel(32)]. *)
Definition new_broadcast {A} : Broadcast A := {| bc_dropped := 0; bc_buffer := []; bc_open := true |}.

(** The position after the last message. *)
Definition bc_end {A} (ch : Broadcast A) : nat := (bc_dropped ch + length (bc_buffer ch))%nat.

Inductive RecvResult (A : Type) : Type := Received (a : A) | Lagged (skipped : nat) | Closed | Empty.
Arguments Received {A}. Arguments Lagged {A}. Arguments Closed {A}. Arguments Empty {A}.

(** The next message for a receiver at [pos], and the receiver's new position. *)
Definition recv {A} (ch : Broadcast A) (pos : nat) : nat * RecvResult A :=
  if (pos <? bc_dropped ch)%nat then (bc_dropped ch, Lagged (bc_dropped ch - pos)) else
  match bc_buffer ch !! (pos - bc_dropped ch) with
  | Some a => (S pos, Received a)
  | None => (pos, if bc_open ch then Empty else Closed)
  end.

(** The oldest message makes room for the new one. *)
Definition send {A} (a : A) (ch : Broadcast A) : Broadcast A :=
  if (length (bc_buffer ch) <? CHANNEL_CAPACITY)%nat
  then {| bc_dropped := bc_dropped ch; bc_buffer := bc_buffer ch ++ [a]; bc_open := bc_open ch |}
  else {| bc_dropped := S (bc_dropped ch); bc_buffer := tail (bc_buffer ch) ++ [a]; bc_open := bc_open ch |}.

(** A new receiver sees what is sent from now on. *)
Definition subscribe {A} (ch : Broadcast A) : nat := bc_end ch.

(** ** Messages *)

Inductive Message : Type := Text (text : string) | NonText.
#[global] Instance message_eq_dec : EqDecision Message.
Proof. solve_decision. Defined.

Definition json_get (k : string) (v : Json) : option Json := as_object v ≫= assoc k.
Definition as_str (v : Json) : option string := match v with JString s => Some s | _ => None end.
Definition as_u64 (v : Json) : option Z := match v with JNum n => number_as_u64 n | _ => None end.

Section messages.
Context {json : JsonText}.

Definition json_or {A} (d : A) (r : result string A) : A := match r with Ok a => a | Err _ => d end.
Definition empty_json_string : string := String "034" (String "034" EmptyString).

(** The text of a request around a parameter that is already text. *)
Definition build_rpc_with_raw_data (method token data_json : string) : string :=
  let q := String "034" EmptyString in
  let token_json := json_or empty_json_string (json_to_string (JString token)) in
  "{" +:+ q +:+ "jsonrpc" +:+ q +:+ ":" +:+ q +:+ "2.0" +:+ q +:+ "," +:+ q +:+ "id" +:+ q +:+ ":1," +:+ q +:+ "method" +:+ q +:+ ":" +:+ q
  +:+ method +:+ q +:+ "," +:+ q +:+ "params" +:+ q +:+ ":[" +:+ token_json +:+ "," +:+ data_json +:+ "]}".

Definition rpc_request (method : string) (params : list Json) : Json := JObject [
  ("jsonrpc", JString "2.0"); ("id", JNum (NumInt 1)); ("method", JString method); ("params", JArray params)]%string.

Definition internal_error_text (e : string) : string :=
  let q := String "034" EmptyString in
  "{" +:+ q +:+ "jsonrpc" +:+ q +:+ ":" +:+ q +:+ "2.0" +:+ q +:+ "," +:+ q +:+ "id" +:+ q +:+ ":1," +:+ q +:+ "error" +:+ q +:+ ":{" +:+ q +:+ "code" +:+ q
  +:+ ":-32603," +:+ q +:+ "message" +:+ q +:+ ":" +:+ q +:+ "Internal error: failed to serialize request: " +:+ e +:+ q +:+ "}}".

Definition wrap_json_into_rpc_with_id_1 (method : string) (params : list Json) : string :=
  match json_to_string (rpc_request method params) with Ok s => s | Err e => internal_error_text e end.

(** The request that asks the server for its identity. *)
Definition uuid_request : string :=
  let q := String "034" EmptyString in
  "{" +:+ q +:+ "jsonrpc" +:+ q +:+ ":" +:+ q +:+ "2.0" +:+ q +:+ "," +:+ q +:+ "id" +:+ q +:+ ":1," +:+ q +:+ "method" +:+ q +:+ ":" +:+ q
  +:+ "nodeget-server_uuid" +:+ q +:+ "," +:+ q +:+ "params" +:+ q +:+ ":[]}".

(** What reading the next frame gave; [TimedOut] only where the code limits the time. *)
Inductive ReadOutcome : Type := Got (m : Message) | ReadError | StreamEnded | TimedOut.

Inductive UuidVerification : Type := VerOk | Transport (reason : string) | Mismatch (expected got : string).

Definition remote_uuid (text : string) : option string :=
  match json_from_str text with Ok v => json_get "result" v ≫= as_str | Err _ => None end.

Definition verify_server_uuid (expected_uuid : string) (written : bool) (read : ReadOutcome) : UuidVerification :=
  if negb written then Transport "write error" else
  match read with
  | Got (Text text) =>
      match remote_uuid text with
      | Some got => if String.eqb got expected_uuid then VerOk else Mismatch expected_uuid got
      | None => Transport "response missing `result` field"
      end
  | Got NonText => Transport "unexpected non-text frame during uuid check"
  | ReadError => Transport "read error"
  | StreamEnded => Transport "connection closed"
  | TimedOut => Transport "response timeout (5s)"
  end.

(** Whether the answer to the registration lets the connection go on; a frame that is not text
    does. *)
Definition registration_accepted (written : bool) (read : ReadOutcome) : bool :=
  written &&
  match read with
  | Got (Text text) =>
      match json_from_str text with
      | Ok v => bool_decide ((json_get "id" v ≫= as_u64) = Some 1%Z) && bool_decide (json_get "error" v = None)
                && negb (bool_decide (json_get "result" v = None))
      | Err _ => false
      end
  | Got NonText => true
  | ReadError | StreamEnded | TimedOut => false
  end.
End messages.

(** ** Waiting between attempts *)

Definition BASE_BACKOFF : Z := 1000.
Definition MAX_BACKOFF : Z := 60000.

(** [1u64.checked_shl(n).unwrap_or(1)]. *)
Definition checked_shl_1 (n : Z) : Z := if (n <? 64)%Z then Z.shiftl 1 n else 1%Z.

(** In milliseconds; [retry_count] has been increased. *)
Definition base_wait (retry_count : Z) : Z :=
  Z.min (sat_mul_u64 (BASE_BACKOFF / 1000) (checked_shl_1 (Z.min (sat_sub_u64 retry_count 1) 16)) * 1000)%Z MAX_BACKOFF.

(** [jitter] is the multiplication with a random factor. *)
Definition backoff (jitter : Z -> Z) (retry_count : Z) : Z := Z.min (jitter (base_wait retry_count)) MAX_BACKOFF.
Definition next_retry (retry_count : Z) : Z := Z.min u32_max (retry_count + 1).

(** ** The manager of one server *)

Inductive Phase : Type :=
| Connecting (retry_count : Z)
| BackingOff (retry_count : Z)
| Verifying
| Pausing
| Registering
| Running
| Exited.

Record Manager : Type := { m_phase : Phase; m_pos : nat }.

Inductive Input : Type :=
| IConnect (connected : bool) (jitter : Z -> Z)
| ISlept
| IVerify (written : bool) (read : ReadOutcome)
| IRegister (written : bool) (read : ReadOutcome)
| IUplink (written : bool)
| IRead (read : ReadOutcome)
| ITick (written : bool).

(** [Write] is a request of the manager itself, [Forward] a message of the channel, each with
    whether the write succeeded; [Skipped] is the warning about messages that fell out. *)
Inductive Action : Type :=
| Connected
| Sleep (ms : Z)
| Write (m : Message) (ok : bool)
| Forward (m : Message) (ok : bool)
| Skipped (n : nat)
| Broadcasts (v : Json).

Section manager.
Context {json : JsonText} (server : Server) (agent_uuid : string).

Definition allow_task : bool := unwrap_or false (srv_allow_task server).

Definition register_request : string :=
  build_rpc_with_raw_data "task_register_task" (srv_token server) (json_or empty_json_string (json_to_string (JString agent_uuid))).
Definition refresh_request : string :=
  wrap_json_into_rpc_with_id_1 "task_register_task" [JString (srv_token server); JString agent_uuid].

Definition at_phase (p : Phase) (m : Manager) : Manager := {| m_phase := p; m_pos := m_pos m |}.

(** The end of a connection in use. *)
Definition disconnect (m : Manager) (before : list Action) : Manager * list Action := (at_phase Pausing m, before ++ [Sleep 3000]).

(** A frame from the server: a text that is JSON goes to the subscribers. *)
Definition downlink (msg : Message) : list Action :=
  match msg with
  | Text text => match json_from_str text with Ok v => [Broadcasts v] | Err _ => [] end
  | NonText => []
  end.

(** One pass to the next [await]; [None] for an input that does not fit the phase. *)
Definition manager_step (uplink : Broadcast Message) (m : Manager) (i : Input) : option (Manager * list Action) :=
  match m_phase m, i with
  | Connecting n, IConnect true _ => Some (at_phase Verifying m, [Connected])
  | Connecting n, IConnect false jitter =>
      let retry_count := next_retry n in Some (at_phase (BackingOff retry_count) m, [Sleep (backoff jitter retry_count)])
  | BackingOff n, ISlept => Some (at_phase (Connecting n) m, [])
  | Verifying, IVerify written read =>
      let sent := Write (Text uuid_request) written in
      match verify_server_uuid (srv_server_uuid server) written read with
      | VerOk => Some (at_phase (if allow_task then Registering else Running) m, [sent])
      | Transport _ => Some (at_phase (Connecting 0) m, [sent])
      | Mismatch _ _ => Some (at_phase Pausing m, [sent; Sleep 30000])
      end
  | Pausing, ISlept => Some (at_phase (Connecting 0) m, [])
  | Registering, IRegister written read =>
      Some (at_phase (if registration_accepted written read then Running else Connecting 0) m, [Write (Text register_request) written])
  | Running, IUplink written =>
      let '(pos, r) := recv uplink (m_pos m) in
      let m' := {| m_phase := Running; m_pos := pos |} in
      match r with
      | Received msg => Some (if written then (m', [Forward msg true]) else disconnect m' [Forward msg false])
      | Lagged n => Some (m', [Skipped n])
      | Closed => Some (at_phase Exited m', [])
      | Empty => None
      end
  | Running, IRead read =>
      match read with
      | Got msg => Some (m, downlink msg)
      | ReadError | StreamEnded => Some (disconnect m [])
      | TimedOut => None
      end
  | Running, ITick written =>
      if negb allow_task then None
      else if written then Some (m, [Write (Text refresh_request) true]) else Some (disconnect m [Write (Text refresh_request) false])
  | _, _ => None
  end.

(** The manager with its channel, to which others send meanwhile: the inputs and actions of a
    step and the messages sent. *)
Inductive conn_step : Broadcast Message * Manager -> list Input * list Action * list Message -> Broadcast Message * Manager -> Prop :=
| conn_manager ch m i m' acts : manager_step ch m i = Some (m', acts) -> conn_step (ch, m) ([i], acts, []) (ch, m')
| conn_send ch m msg : bc_open ch = true -> conn_step (ch, m) ([], [], [msg]) (send msg ch, m)
| conn_close ch m : conn_step (ch, m) ([], [], []) ({| bc_dropped := bc_dropped ch; bc_buffer := bc_buffer ch; bc_open := false |}, m).

(** The oldest first. *)
Inductive conn_run : Broadcast Message * Manager -> list Input -> list Action -> list Message -> Broadcast Message * Manager -> Prop :=
| run_start s : conn_run s [] [] [] s
| run_more s ins acts sent s' i a msgs s'' :
    conn_run s ins acts sent s' -> conn_step s' (i, a, msgs) s'' -> conn_run s (ins ++ i) (acts ++ a) (sent ++ msgs) s''.

Definition new_manager : Manager := {| m_phase := Connecting 0; m_pos := 0 |}.
Definition new_channel : Broadcast Message := new_broadcast.
End manager.

(** ** The pool *)

Record ServerHandle : Type := { uplink_tx : Broadcast Message; downlink_tx : Broadcast Json }.
Definition ConnectionPool : Type := option (gmap string ServerHandle).

Definition new_handle : ServerHandle :=
  {| uplink_tx := new_broadcast; downlink_tx := new_broadcast |}.

(** A second call replaces the pool. *)
Definition init_connections (servers : list Server) (pool : ConnectionPool) : ConnectionPool :=
  Some (fold_left (fun m s => <[srv_name s := new_handle]> m) servers ∅).

Definition pool_not_initialized : NodegetError := Other "Connection pool not initialized".

(** [alive] tells whether the manager of the server still receives. *)
Definition send_to (alive : string -> bool) (server_name : string) (msg : Message) (pool : ConnectionPool) :
    ConnectionPool * result NodegetError unit :=
  match pool with
  | None => (pool, Err pool_not_initialized)
  | Some handles =>
      match handles !! server_name with
      | None => (pool, Err (Other ("Server not found: " +:+ server_name)))
      | Some handle =>
          if alive server_name
          then (Some (<[server_name := {| uplink_tx := send msg (uplink_tx handle); downlink_tx := downlink_tx handle |}]> handles), Ok tt)
          else (pool, Err (Other "Sending channel issue"))
      end
  end.

Definition subscribe_to (server_name : string) (pool : ConnectionPool) : result NodegetError nat :=
  match pool with
  | None => Err pool_not_initialized
  | Some handles =>
      match handles !! server_name with
      | None => Err (Other ("Server not found: " +:+ server_name))
      | Some handle => Ok (subscribe (downlink_tx handle))
      end
  end.

(** ** Theorems

    Messages and the token go only to a server that has shown its identity on that connection; what
    is sent to the channel is forwarded in order; the waiting times; and a defect of the
    reconnection. *)

Section thms.
Context {json : JsonText} (server : Server) (agent_uuid : string).

(** Since the last connection was made, the peer has answered with the expected identity. *)
Definition verified (ins : list Input) : Prop :=
  exists before text after, ins = before ++ IVerify true (Got (Text text)) :: after /\
    remote_uuid text = Some (srv_server_uuid server) /\ forall jitter, IConnect true jitter ∉ after.

Lemma verified_app ins i : verified ins -> (forall b j, i <> IConnect b j) -> verified (ins ++ [i]).
Proof using.
  intros (b & t & a & -> & Ht & Hno) Hi. exists b, t, (a ++ [i]). split_and!; [by rewrite <-app_assoc|done|].
  intros j. rewrite elem_of_app, list_elem_of_singleton. intros [?|He]; [by eapply Hno|]. by eapply Hi.
Qed.

Definition in_use (p : Phase) : bool := match p with Registering | Running => true | _ => false end.

Lemma verify_ok written read :
  verify_server_uuid (srv_server_uuid server) written read = VerOk ->
  written = true /\ exists text, read = Got (Text text) /\ remote_uuid text = Some (srv_server_uuid server).
Proof using.
  unfold verify_server_uuid. destruct written; [|done]. destruct read as [[text|]| | |]; try done. simpl.
  destruct (remote_uuid text) as [got|] eqn:E; [|done]. destruct (String.eqb_spec got (srv_server_uuid server)) as [->|]; [|done].
  intros _. split; [done|]. by exists text.
Qed.

(** What one pass does: by phase. *)
Lemma step_in_use ch m i m' acts ins :
  manager_step server agent_uuid ch m i = Some (m', acts) ->
  (in_use (m_phase m) = true -> verified ins) ->
  (in_use (m_phase m') = true -> verified (ins ++ [i])) /\
  (forall msg ok, Write msg ok ∈ acts \/ Forward msg ok ∈ acts -> msg = Text uuid_request \/ verified ins).
Proof using.
  intros H Hv. unfold manager_step in H. destruct (m_phase m) eqn:Ep, i; try done.
  - destruct connected; injection H as <- <-; split; try done; intros msg ok; rewrite !list_elem_of_singleton; intros [?|?]; done.
  - injection H as <- <-. split; [done|]. intros msg ok [?%not_elem_of_nil|?%not_elem_of_nil]; done.
  - cbv zeta in H. destruct (verify_server_uuid _ _ _) eqn:Ev; injection H as <- <-.
    + apply verify_ok in Ev as (-> & text & -> & Ht). split; [intros _; exists ins, text, []; split_and!; try done; set_solver|].
      intros msg ok. rewrite !list_elem_of_singleton. intros [[= -> _]|?]; [by left|done].
    + split; [done|]. intros msg ok. rewrite !list_elem_of_singleton. intros [[= -> _]|?]; [by left|done].
    + split; [done|]. intros msg ok. rewrite !elem_of_cons, !elem_of_nil. intros [[[= -> _]|[?|?]]|[?|[?|?]]]; by left.
  - injection H as <- <-. split; [done|]. intros msg ok [?%not_elem_of_nil|?%not_elem_of_nil]; done.
  - injection H as <- <-. split; [intros _; apply verified_app; [by apply Hv|done]|]. intros msg ok _. right. by apply Hv.
  - split; [|intros msg ok _; right; by apply Hv]. intros _. apply verified_app; [by apply Hv|done].
  - split; [|intros msg ok _; right; by apply Hv]. intros _. apply verified_app; [by apply Hv|done].
  - split; [|intros msg ok _; right; by apply Hv]. intros _. apply verified_app; [by apply Hv|done].
Qed.

Lemma run_in_use ins acts sent ch m :
  conn_run server agent_uuid (new_channel, new_manager) ins acts sent (ch, m) -> in_use (m_phase m) = true -> verified ins.
Proof using.
  intros H. remember (new_channel, new_manager) as s0 eqn:E0. remember (ch, m) as s eqn:E. revert ch m E.
  induction H as [s|s ins acts sent s' i a msgs s'' Hr IH Hs]; intros ch m E; subst; [by injection E as <- <-|].
  inversion Hs; simplify_eq.
  - intros Hu. eapply step_in_use; [done| |exact Hu]. by eapply IH.
  - rewrite app_nil_r. by eapply IH.
  - rewrite app_nil_r. by eapply IH.
Qed.

(** ** Forwarding *)

(** Follow the actions along the messages sent: a forwarded message is the next one, a warning
    passes over as many as it counts.  The messages still to come. *)
Fixpoint replay (acts : list Action) (sent : list Message) : option (list Message) :=
  match acts with
  | [] => Some sent
  | Forward m _ :: acts' =>
      match sent with
      | m' :: sent' => if decide (m = m') then replay acts' sent' else None
      | [] => None
      end
  | Skipped n :: acts' => if (n <=? length sent)%nat then replay acts' (drop n sent) else None
  | _ :: acts' => replay acts' sent
  end.

Lemma replay_app a : forall b sent, replay (a ++ b) sent = replay a sent ≫= replay b.
Proof using.
  induction a as [|x a IH]; intros b sent; simpl; [done|].
  destruct x; try apply IH; [destruct sent; [done|]|]; case_match; try done; apply IH.
Qed.

Lemma replay_more acts : forall sent rest msgs, replay acts sent = Some rest -> replay acts (sent ++ msgs) = Some (rest ++ msgs).
Proof using.
  induction acts as [|x acts IH]; intros sent rest msgs; simpl; [by intros [= <-]|].
  destruct x; try apply IH.
  - destruct sent as [|m' sent]; [done|]. simpl. case_match; [apply IH|done].
  - destruct (Nat.leb_spec n (length sent)); [|done]. rewrite length_app.
    destruct (Nat.leb_spec n (length sent + length msgs)); [|lia]. rewrite drop_app_le by done. apply IH.
Qed.

(** Actions that neither forward nor pass over a message. *)
Lemma replay_plain acts sent :
  (forall x, x ∈ acts -> match x with Forward _ _ | Skipped _ => False | _ => True end) -> replay acts sent = Some sent.
Proof using.
  induction acts as [|x l IH]; intros Hno; [done|]. pose proof (Hno x (list_elem_of_here _ _)). simpl.
  destruct x; try done; (apply IH; intros y Hy; apply Hno; by right).
Qed.

(** The buffer holds the last messages sent, 32 once as many have been sent. *)
Definition buffers (ch : Broadcast Message) (sent : list Message) : Prop :=
  bc_buffer ch = drop (bc_dropped ch) sent /\ bc_dropped ch = (length sent - CHANNEL_CAPACITY)%nat.

Lemma send_buffers ch sent msg : buffers ch sent -> buffers (send msg ch) (sent ++ [msg]).
Proof using.
  intros [Hb Hd]. unfold send, buffers. rewrite Hb, length_drop, Hd, length_app. unfold CHANNEL_CAPACITY. simpl.
  destruct (Nat.ltb_spec (length sent - (length sent - 32)) 32); simpl.
  - rewrite drop_app_le by lia. split; [done|lia].
  - split; [|lia]. rewrite (drop_app_le sent [msg] (S _)) by lia. f_equal.
    generalize (length sent - 32)%nat as n. clear. induction sent as [|x sent IH]; intros [|n]; simpl; done || apply IH.
Qed.

(** What a pass does to the receiver's position. *)
Lemma step_replay ch m i m' acts sent :
  buffers ch sent -> (m_pos m <= length sent)%nat -> manager_step server agent_uuid ch m i = Some (m', acts) ->
  (m_pos m' <= length sent)%nat /\ replay acts (drop (m_pos m) sent) = Some (drop (m_pos m') sent) /\
  (forall n, Skipped n ∈ acts -> length (drop (m_pos m) sent) = (CHANNEL_CAPACITY + n)%nat /\ (0 < n)%nat) /\
  (forall msg, Forward msg false ∈ acts -> m_phase m' = Pausing).
Proof using.
  intros [Hb Hd] Hle H. unfold manager_step in H.
  assert (forall acts' p, acts' = acts -> m_pos m' = m_pos m ->
    (forall x, x ∈ acts' -> match x with Forward _ _ | Skipped _ => False | _ => True end) ->
    (m_pos m' <= length sent)%nat /\ replay acts (drop (m_pos m) sent) = Some (drop (m_pos m') sent) /\
    (forall n, Skipped n ∈ acts -> length (drop (m_pos m) sent) = (CHANNEL_CAPACITY + n)%nat /\ (0 < n)%nat) /\
    (forall msg, Forward msg false ∈ acts -> m_phase m' = p)) as Hplain.
  { intros acts' p -> -> Hno. split_and!; [done| | |].
    - by apply replay_plain.
    - intros n Hn. by destruct (Hno _ Hn).
    - intros msg Hn. by destruct (Hno _ Hn). }
  destruct (m_phase m) eqn:Ep, i; try done.
  - destruct connected; injection H as <- <-; (eapply Hplain; [done|done|set_solver]).
  - injection H as <- <-. eapply Hplain; [done|done|set_solver].
  - cbv zeta in H. destruct (verify_server_uuid _ _ _); injection H as <- <-; (eapply Hplain; [done|done|set_solver]).
  - injection H as <- <-. eapply Hplain; [done|done|set_solver].
  - injection H as <- <-. eapply Hplain; [done|done|set_solver].
  - unfold recv in H. rewrite Hb, Hd in H. unfold CHANNEL_CAPACITY in *.
    destruct (Nat.ltb_spec (m_pos m) (length sent - 32)) as [Hlag|Hin].
    + injection H as <- <-. simpl. split_and!; [lia| | |].
      * rewrite length_drop. destruct (Nat.leb_spec (length sent - 32 - m_pos m) (length sent - m_pos m)); [|lia].
        rewrite drop_drop. do 2 f_equal. lia.
      * intros n [= ->]%list_elem_of_singleton. rewrite length_drop. lia.
      * by intros msg ?%list_elem_of_singleton.
    + rewrite lookup_drop in H. replace (length sent - 32 + (m_pos m - (length sent - 32)))%nat with (m_pos m) in H by lia.
      destruct (sent !! m_pos m) as [msg|] eqn:E.
      * assert (replay [Forward msg written] (drop (m_pos m) sent) = Some (drop (S (m_pos m)) sent)) as Hr.
        { rewrite (drop_S _ _ _ E). simpl. by rewrite decide_True. }
        apply lookup_lt_Some in E.
        destruct written; injection H as <- <-; unfold at_phase; cbn [m_pos m_phase];
          (split_and!; [lia|rewrite ?replay_app, ?Hr; done| |]).
        -- by intros n ?%list_elem_of_singleton.
        -- by intros msg' ?%list_elem_of_singleton.
        -- intros n. set_solver.
        -- done.
      * destruct (bc_open ch); [done|]. injection H as <- <-. eapply Hplain; [done|done|set_solver].
  - destruct read as [msg| | |]; injection H as <- <- || done; (eapply Hplain; [done|done|]); [|set_solver..].
    unfold downlink. destruct msg; [destruct (json_from_str text)|]; set_solver.
  - destruct (negb _); [done|]. destruct written; injection H as <- <-; (eapply Hplain; [done|done|set_solver]).
Qed.

Lemma run_replay ins acts sent ch m :
  conn_run server agent_uuid (new_channel, new_manager) ins acts sent (ch, m) ->
  buffers ch sent /\ (m_pos m <= length sent)%nat /\ replay acts sent = Some (drop (m_pos m) sent).
Proof using.
  intros H. remember (new_channel, new_manager) as s0 eqn:E0. remember (ch, m) as s eqn:E. revert ch m E.
  induction H as [s|s ins acts sent s' i a msgs s'' Hr IH Hs]; intros ch m E; subst.
  { by injection E as <- <-. }
  inversion Hs; simplify_eq.
  - destruct (IH eq_refl ch m0 eq_refl) as (Hb & Hle & Hrep). rewrite app_nil_r, replay_app, Hrep. simpl.
    match goal with Hm : manager_step _ _ _ _ _ = _ |- _ => destruct (step_replay _ _ _ _ _ _ Hb Hle Hm) as (? & ? & _) end. done.
  - destruct (IH eq_refl ch0 m eq_refl) as (Hb & Hle & Hrep). rewrite app_nil_r, length_app. split_and!; [by apply send_buffers|lia|].
    rewrite drop_app_le by done. by apply replay_more.
  - destruct (IH eq_refl ch0 m eq_refl) as (Hb & Hle & Hrep). by rewrite !app_nil_r.
Qed.

(** ** Theorems *)

(** C23: whatever the network does, everything the agent writes on a connection except the request for
    the server's identity (the token with the registration, reports and results) is
    written after the peer has shown the configured identity on this very connection.  The
    messages sent to a server are taken in the order they were sent, each once, up to the
    receiver's position: each is written to the connection, or lost with a write that fails and ends the
    connection, or passed over with a warning; and messages are passed over only when more than 32
    were waiting, as many as were too many. *)
Theorem uplink_only_to_verified ins acts sent ch m i m' a :
  conn_run server agent_uuid (new_channel, new_manager) ins acts sent (ch, m) ->
  manager_step server agent_uuid ch m i = Some (m', a) ->
  (forall msg ok, Write msg ok ∈ a \/ Forward msg ok ∈ a -> msg = Text uuid_request \/ verified ins) /\
  replay (acts ++ a) sent = Some (drop (m_pos m') sent) /\
  (forall msg, Forward msg false ∈ a -> m_phase m' = Pausing) /\
  (forall n, Skipped n ∈ a -> (0 < n)%nat /\ length (drop (m_pos m) sent) = (CHANNEL_CAPACITY + n)%nat).
Proof using.
  intros Hrun Hstep. split; [eapply step_in_use; [exact Hstep|]; by eapply run_in_use|].
  destruct (run_replay _ _ _ _ _ Hrun) as (Hb & Hle & Hrep).
  destruct (step_replay _ _ _ _ _ _ Hb Hle Hstep) as (_ & Hr & Hs & Hf).
  rewrite replay_app, Hrep. split_and!; [exact Hr|exact Hf|]. intros n [? ?]%Hs. done.
Qed.
End thms.

(** ** Waiting times *)

Lemma base_wait_eq n : (1 <= n)%Z -> base_wait n = Z.min (2 ^ (Z.min (n - 1) 16) * 1000) 60000.
Proof.
  intros Hn. unfold base_wait, checked_shl_1, sat_sub_u64, sat_mul_u64, BASE_BACKOFF, MAX_BACKOFF, u64_max.
  rewrite Z.max_r by lia. set (k := Z.min (n - 1) 16). destruct (Z.ltb_spec k 64); [|lia]. rewrite Z.shiftl_mul_pow2 by lia.
  change (1000 / 1000)%Z with 1%Z. assert (2 ^ k <= 65536)%Z by (change 65536%Z with (2 ^ 16)%Z; apply Z.pow_le_mono_r; lia). rewrite (Z.min_r 18446744073709551615) by lia. f_equal. lia.
Qed.

(** The wait before the [n]-th new attempt is within a fifth of [2^(n-1)] seconds and never more than a
    minute; from the seventh on it is at least 48 seconds. *)
Theorem backoff_bounds jitter n :
  (1 <= n)%Z -> (forall b, 0 <= b -> 4 * b <= 5 * jitter b /\ 5 * jitter b <= 6 * b)%Z ->
  (backoff jitter n <= 60000 /\ 5 * backoff jitter n <= 6 * (2 ^ (n - 1) * 1000) /\
   4 * Z.min (2 ^ (n - 1) * 1000) 60000 <= 5 * backoff jitter n)%Z.
Proof.
  intros Hn Hj. unfold backoff. rewrite (base_wait_eq n Hn). unfold MAX_BACKOFF.
  assert (2 ^ Z.min (n - 1) 16 <= 2 ^ (n - 1))%Z as H1 by (apply Z.pow_le_mono_r; lia).
  assert (0 < 2 ^ Z.min (n - 1) 16)%Z as H2 by (apply Z.pow_pos_nonneg; lia).
  assert (Z.min (2 ^ (n - 1) * 1000) 60000 <= Z.min (2 ^ Z.min (n - 1) 16 * 1000) 60000)%Z as H3.
  { destruct (Z.le_gt_cases (n - 1) 16); [by rewrite (Z.min_l (n - 1))|]. rewrite (Z.min_r (n - 1) 16) by lia. change (2 ^ 16)%Z with 65536%Z. lia. }
  generalize dependent (2 ^ Z.min (n - 1) 16)%Z. generalize (2 ^ (n - 1))%Z. intros x y H1 H2 H3.
  specialize (Hj (Z.min (y * 1000) 60000) ltac:(lia)). generalize dependent (jitter (Z.min (y * 1000) 60000)). lia.
Qed.

(** ** Examples and a defect *)

Section examples.
Context {json : JsonText} (server : Server) (agent_uuid : string).

(** A peer that takes the connection and closes it before it has answered. *)
Definition refused : list Input := [IConnect true (fun b => b); IVerify true StreamEnded].

Fixpoint rounds (n : nat) : list Input := match n with O => [] | S n => refused ++ rounds n end.

Fixpoint passes (ch : Broadcast Message) (m : Manager) (ins : list Input) : option (Manager * list Action) :=
  match ins with
  | [] => Some (m, [])
  | i :: rest =>
      match manager_step server agent_uuid ch m i with
      | Some (m', a) => match passes ch m' rest with Some (m'', b) => Some (m'', a ++ b) | None => None end
      | None => None
      end
  end.

Definition sleeps (acts : list Action) : list Z := omap (fun a => match a with Sleep ms => Some ms | _ => None end) acts.

(** After a failed identity check the next attempt is made at once, and the count of attempts starts
    anew: as long as the peer takes connections and closes them, the agent connects again and
    again without any wait. *)
Theorem failed_check_never_waits ch n :
  exists acts, passes ch new_manager (rounds n) = Some (new_manager, acts) /\ sleeps acts = [] /\
    length (omap (fun a => match a with Connected => Some tt | _ => None end) acts) = n.
Proof using.
  induction n as [|n (acts & H & Hs & Hc)]; [by exists []|]. exists (Connected :: Write (Text uuid_request) true :: acts).
  split_and!; [|done|cbn; f_equal; exact Hc]. change (rounds (S n)) with (refused ++ rounds n). simpl. unfold at_phase; simpl.
  change {| m_phase := Connecting 0; m_pos := 0 |} with new_manager. by rewrite H.
Qed.
End examples.

(** A new subscriber sees the first message sent after its subscription, however many were sent
    before. *)
Theorem subscriber_starts_now {A} (ch : Broadcast A) a :
  (length (bc_buffer ch) <= CHANNEL_CAPACITY)%nat -> recv (send a ch) (subscribe ch) = (S (subscribe ch), Received a).
Proof.
  unfold recv, send, subscribe, bc_end, CHANNEL_CAPACITY. intros Hl. destruct (Nat.ltb_spec (length (bc_buffer ch)) 32); simpl.
  - destruct (Nat.ltb_spec (bc_dropped ch + length (bc_buffer ch)) (bc_dropped ch)); [lia|].
    by rewrite Nat.add_comm, Nat.add_sub, list_lookup_middle.
  - destruct (Nat.ltb_spec (bc_dropped ch + length (bc_buffer ch)) (S (bc_dropped ch))); [lia|].
    rewrite list_lookup_middle; [done|]. destruct (bc_buffer ch); simpl in *; lia.
Qed.

(** ** Example *)

#[local] Instance answer_json : JsonText := {|
  json_from_str t := Ok (JObject [("result"%string, JString t)]); json_to_string _ := Ok ""%string |}.

Definition demo_server : Server := {|
  srv_name := "main"; srv_server_uuid := "u-1"; srv_token := "k:s"; srv_ws_url := "wss://s"; srv_allow_task := None;
  srv_allow_icmp_ping := None; srv_allow_tcp_ping := None; srv_allow_http_ping := None; srv_allow_web_shell := None;
  srv_allow_read_config := None; srv_allow_edit_config := None; srv_allow_execute := None; srv_allow_http_request := None;
  srv_allow_ip := None; srv_allow_dns := None; srv_allow_version := None; srv_allow_self_update := None; srv_ignore_cert := None;
  srv_allow_task_type := None |}.

Definition demo_channel : Broadcast Message := send (Text "report") new_channel.

Lemma uplink_only_to_verified_witness :
  exists ins acts, conn_run demo_server "a" (new_channel, new_manager) ins acts [Text "report"] (demo_channel, {| m_phase := Running; m_pos := 0 |}) /\
    verified demo_server ins /\ replay (acts ++ [Forward (Text "report") true]) [Text "report"] = Some [].
Proof.
  eexists _, _. assert (conn_run demo_server "a" (new_channel, new_manager) ((([] ++ []) ++ [IConnect true (fun b => b)]) ++ [IVerify true (Got (Text "u-1"))])
    ((([] ++ []) ++ [Connected]) ++ [Write (Text uuid_request) true]) ((([] ++ [Text "report"]) ++ []) ++ []) (demo_channel, {| m_phase := Running; m_pos := 0 |})) as Hrun.
  { eapply run_more; [eapply run_more; [eapply run_more; [apply run_start|apply (conn_send _ _ new_channel new_manager (Text "report") eq_refl)]|]|];
      apply conn_manager; reflexivity. }
  split; [exact Hrun|].
  destruct (uplink_only_to_verified demo_server "a" _ _ _ _ _ (IUplink true) {| m_phase := Running; m_pos := 1 |} [Forward (Text "report") true]
              Hrun eq_refl) as (Hw & Hall & _).
  split; [|exact Hall].
  destruct (Hw (Text "report") true) as [H|H]; [right; by left|discriminate H|exact H].
Defined.
