(* ===== verification/AgentTasks.v ===== *)
(** * The agent's tasks

    [agent/src/tasks/mod.rs]: which tasks a server may have executed, how a task is dispatched and
    limited in time, and the answer that is sent back.  What pings, requests, commands, terminals
    and updates do is outside: [AgentIo] gives for each the result and the time it takes, and for
    the last three what they leave of the file system. *)
From stdpp Require Import base strings gmap list numbers pretty.
From Stdlib Require Import Ascii SpecFloat.
From S2P Require Import Prelude Errors Json Permission StaticFs JsWorker JsRun LastCache TaskTypes NgConfig AgentConn.

(** ** Futures with a time *)

(** A value and when it is there, in milliseconds; [None] when it never is. *)
Record Fut (A : Type) : Type := { f_ms : option Z; f_val : A }.
Arguments f_ms {A}. Arguments f_val {A}.

Definition fut_map {A B} (f : A -> B) (x : Fut A) : Fut B := {| f_ms := f_ms x; f_val := f (f_val x) |}.
Definition after (ms : option Z) {A} (x : Fut A) : Fut A :=
  {| f_ms := match ms, f_ms x with Some a, Some b => Some (a + b)%Z | _, _ => None end; f_val := f_val x |}.

(** [tokio::time::timeout]. *)
Definition timeout {A} (limit : Z) (x : Fut A) : Fut (option A) :=
  match f_ms x with
  | Some t => if (t <=? limit)%Z then {| f_ms := Some t; f_val := Some (f_val x) |} else {| f_ms := Some limit; f_val := None |}
  | None => {| f_ms := Some limit; f_val := None |}
  end.

Definition TASK_MAX_TIMEOUT : Z := 600000.
Definition TASK_POOL_MAX_CONCURRENCY : nat := 10.
Definition TASK_POOL_PER_TASK_TIMEOUT : Z := 10000.
Definition WEBSHELL_MAX_SESSIONS : nat := 8.
(** [http_request.rs]. *)
Definition HTTP_REQUEST_TIMEOUT : Z := 30000.

(** [duration.as_secs_f64() * 1000.0], as bits. *)
Definition duration_millis (nanos : Z) : Z :=
  f64_to_bits (SFmul 53 1024 (SFadd 53 1024 (f64_of_int (nanos / 1000000000)) (f64_div (f64_of_int (nanos mod 1000000000)) (f64_of_int 1000000000)))
                 (f64_of_int 1000)).

Definition result_from_duration (t : TaskEventType) (nanos : Z) : option TaskEventResult :=
  match t with
  | Ping _ => Some (RPing (duration_millis nanos))
  | TcpPing _ => Some (RTcpPing (duration_millis nanos))
  | HttpPing _ => Some (RHttpPing (duration_millis nanos))
  | _ => None
  end.

(** ** What the agent calls *)

Class AgentIo (FS : Type) : Type := {
  ping_target : string -> Fut (result NodegetError Z);
  tcping_target : string -> Fut (result NodegetError Z);
  httping_target : string -> Fut (result NodegetError Z);
  execute_http_request : HttpRequestTask -> Fut (result anyhow HttpRequestTaskResult);
  (** [parse_url], then [handle_pty_url]; what is typed there may change files *)
  open_terminal : WebShellTask -> Z -> string -> bool -> FS -> FS * Fut (result NodegetError unit);
  (** a command may change files, also one that is cut off by the time limit *)
  execute_command : ExecuteTask -> FS -> FS * Fut (result NodegetError string);
  ip : Fut (option Z * option Z);
  query_dns : DnsTask -> Fut (result NodegetError (list DnsRecordResult));
  agent_version : NodeGetVersion;
  (** replaces the program *)
  self_update : string -> FS -> FS * Fut bool;
}.

(** serde's codec of the messages. *)
Class TaskWire : Type := {
  (** [JsonRpcTask]: the method and the event *)
  rpc_task_from_value : Json -> option (string * TaskEvent);
  response_to_value : TaskEventResponse -> result string Json;
}.

Record AgentWorld (FS : Type) : Type := {
  aw_fs : FS;
  aw_args_config : option string;
  aw_config : option AgentConfig;
  aw_pool : ConnectionPool;
  aw_shells : nat;
  aw_reload : bool;
  aw_restart : bool;
}.
Arguments aw_fs {FS}. Arguments aw_args_config {FS}. Arguments aw_config {FS}. Arguments aw_pool {FS}.
Arguments aw_shells {FS}. Arguments aw_reload {FS}. Arguments aw_restart {FS}.

Definition is_pool_managed (t : TaskEventType) : bool :=
  match t with Ping _ | TcpPing _ | HttpPing _ | HttpRequest _ | Ip | Dns _ => true | _ => false end.

Definition is_web_shell (t : TaskEventType) : bool := match t with WebShell _ => true | _ => false end.

Definition is_task_allowed (server : Server) (t : TaskEventType) : bool :=
  match srv_allow_task_type server with
  | Some (x :: l) => existsb (fun n => String.eqb n (task_name t)) (x :: l)
  | _ =>
      unwrap_or false
        match t with
        | Ping _ => srv_allow_icmp_ping server
        | TcpPing _ => srv_allow_tcp_ping server
        | HttpPing _ => srv_allow_http_ping server
        | HttpRequest _ => srv_allow_http_request server
        | WebShell _ => srv_allow_web_shell server
        | Execute _ => srv_allow_execute server
        | ReadConfig => srv_allow_read_config server
        | EditConfig _ => srv_allow_edit_config server
        | Ip => srv_allow_ip server
        | Dns _ => srv_allow_dns server
        | Version => srv_allow_version server
        | SelfUpdate _ => srv_allow_self_update server
        end
  end.

Section tasks.
Context {json : JsonText} {codec : ConfigCodec} {FS : Type} {io : AgentIo FS} {wire : TaskWire} {fs : FsOps FS}.
#[local] Notation W := (AgentWorld FS).

(** [.map_err(|e| NodegetError::Other(format!("{e}")).into())]. *)
Definition as_other (e : NodegetError) : anyhow := OfNodeget (Other (display e)).

Definition ping_result (t : TaskEventType) (invalid : string) (r : result NodegetError Z) : result anyhow TaskEventResult :=
  map_err as_other (let? d := r in ok_or (Other invalid) (result_from_duration t d)).

Definition set_aw_fs (s : FS) (w : W) : W :=
  {| aw_fs := s; aw_args_config := aw_args_config w; aw_config := aw_config w; aw_pool := aw_pool w; aw_shells := aw_shells w;
     aw_reload := aw_reload w; aw_restart := aw_restart w |}.
Definition set_pool (p : ConnectionPool) (w : W) : W :=
  {| aw_fs := aw_fs w; aw_args_config := aw_args_config w; aw_config := aw_config w; aw_pool := p; aw_shells := aw_shells w;
     aw_reload := aw_reload w; aw_restart := aw_restart w |}.
Definition set_signals (reload restart : bool) (w : W) : W :=
  {| aw_fs := aw_fs w; aw_args_config := aw_args_config w; aw_config := aw_config w; aw_pool := aw_pool w; aw_shells := aw_shells w;
     aw_reload := aw_reload w || reload; aw_restart := aw_restart w || restart |}.

Definition no_args : anyhow := OfNodeget (Other "Agent args not initialized").

Definition read_config_task (w : W) : result anyhow TaskEventResult :=
  let? path := ok_or no_args (aw_args_config w) in
  let? file := map_err (fun m => OfNodeget (Other ("Failed to read config file: " +:+ m))) (read_to_string path (aw_fs w)).2 in
  Ok (RReadConfig file).

Definition edit_config_task (config_string : string) : M W anyhow TaskEventResult :=
  let! _ := lift (map_err (fun m => OfNodeget (Other ("Config parse error: " +:+ m))) (agent_from_str config_string)) in
  let! path := (fun w => (w, ok_or no_args (aw_args_config w))) in
  let! _ := (fun w => let '(s', r) := fs_write path (as_bytes config_string) (aw_fs w) in
                      (set_aw_fs s' w, map_err (fun err => OfNodeget (Other ("Failed to write config file: " +:+ io_msg err))) r)) in
  mret (REditConfig true).

(** At once. *)
Definition now_ {A} (a : A) : Fut A := {| f_ms := Some 0%Z; f_val := a |}.

Definition execute_task_direct (t : TaskEventType) (task_id : Z) (task_token : string) (ignore_cert : bool) (w : W) :
    W * Fut (result anyhow TaskEventResult) :=
  match t with
  | Ping target => (w, fut_map (ping_result t "Invalid task type for ping duration") (ping_target target))
  | TcpPing target => (w, fut_map (ping_result t "Invalid task type for tcp ping duration") (tcping_target target))
  | HttpPing target => (w, fut_map (ping_result t "Invalid task type for http ping duration") (httping_target target))
  | HttpRequest request => (w, fut_map (fun r => let? x := r in Ok (RHttpRequest x)) (execute_http_request request))
  | WebShell web_shell =>
      let '(s, x) := open_terminal web_shell task_id task_token ignore_cert (aw_fs w) in
      (set_aw_fs s w, fut_map (fun r => map_err as_other (let? _ := r in Ok (RWebShell true))) x)
  | Execute command =>
      let '(s, x) := execute_command command (aw_fs w) in
      (set_aw_fs s w, fut_map (fun r => map_err as_other (let? x := r in Ok (RExecute x))) x)
  | ReadConfig => (w, now_ (read_config_task w))
  | EditConfig config_string => let '(w', r) := edit_config_task config_string w in (w', now_ r)
  | Ip => (w, fut_map (fun x => Ok (RIp x.1 x.2)) ip)
  | Dns dns_task => (w, fut_map (fun r => map_err as_other (let? x := r in Ok (RDns x))) (query_dns dns_task))
  | Version => (w, now_ (Ok (RVersion agent_version)))
  | SelfUpdate tag =>
      let '(s, x) := self_update tag (aw_fs w) in (set_aw_fs s w, fut_map (fun b => Ok (RSelfUpdate b)) x)
  end.

Definition pool_timeout_error : NodegetError :=
  Other ("Network task timed out after " +:+ pretty (TASK_POOL_PER_TASK_TIMEOUT / 1000)%Z +:+ "s (pool limit)").

(** [TaskPool::run]: [queued] is the wait for the permit. *)
Definition pool_run {A} (queued : option Z) (x : Fut (result anyhow A)) : Fut (result NodegetError A) :=
  after queued (fut_map (fun o => let? r := ok_or pool_timeout_error o in map_err (fun e => Other (anyhow_display e)) r)
                  (timeout TASK_POOL_PER_TASK_TIMEOUT x)).

Definition execute_task (queued : option Z) (t : TaskEventType) (task_id : Z) (task_token : string) (ignore_cert : bool) (w : W) :
    W * Fut (result anyhow TaskEventResult) :=
  let '(w', x) := execute_task_direct t task_id task_token ignore_cert w in
  (w', if is_pool_managed t then fut_map (map_err OfNodeget) (pool_run queued x) else x).

Definition task_timeout_error : anyhow := OfNodeget (Other ("Task timed out after " +:+ pretty (TASK_MAX_TIMEOUT / 1000)%Z +:+ "s")).
Definition shell_limit_error : anyhow :=
  OfNodeget (Other ("WebShell session limit reached (max " +:+ pretty (N.of_nat WEBSHELL_MAX_SESSIONS) +:+ " concurrent sessions)")).

(** The result of a task; the number of terminals in use is that at the start. *)
Definition run_task (server : Server) (queued : option Z) (ev : TaskEvent) (w : W) : W * Fut (result anyhow TaskEventResult) :=
  let t := ev_task_event_type ev in
  if negb (is_task_allowed server t) then (w, now_ (Err (OfNodeget (PermissionDenied "Permission Denied: Task not allowed")))) else
  if is_web_shell t && (WEBSHELL_MAX_SESSIONS <=? aw_shells w)%nat then (w, now_ (Err shell_limit_error)) else
  let '(w', x) := execute_task queued t (ev_task_id ev) (ev_task_token ev) (unwrap_or false (srv_ignore_cert server)) w in
  (w', if is_web_shell t then x
       else fut_map (fun o => match o with Some r => r | None => Err task_timeout_error end) (timeout TASK_MAX_TIMEOUT x)).

Definition should_restart (t : TaskEventType) (r : result anyhow TaskEventResult) : bool :=
  match t, r with EditConfig _, Ok (REditConfig true) => true | _, _ => false end.
Definition should_self_update_restart (t : TaskEventType) (r : result anyhow TaskEventResult) : bool :=
  match t, r with SelfUpdate _, Ok (RSelfUpdate true) => true | _, _ => false end.

Definition make_response (ev : TaskEvent) (agent_uuid : Uuid) (timestamp : Z) (r : result anyhow TaskEventResult) : TaskEventResponse :=
  {| tr_task_id := ev_task_id ev; tr_agent_uuid := agent_uuid; tr_task_token := ev_task_token ev; tr_timestamp := timestamp;
     tr_success := is_ok r;
     tr_error_message := match r with Ok _ => None | Err e => Some (anyhow_display e) end;
     tr_task_event_result := match r with Ok x => Some x | Err _ => None end |}.

(** The smaller response for one that could not be encoded, and an object written by hand for that. *)
Definition fallback_response (response : TaskEventResponse) (e : string) : TaskEventResponse :=
  {| tr_task_id := tr_task_id response; tr_agent_uuid := tr_agent_uuid response; tr_task_token := tr_task_token response;
     tr_timestamp := tr_timestamp response; tr_success := false;
     tr_error_message := Some ("agent failed to serialize task response: " +:+ e); tr_task_event_result := None |}.
Definition fallback_object (uuid_display : Uuid -> string) (response : TaskEventResponse) (e : string) : Json := JObject [
  ("task_id", JNum (NumInt (tr_task_id response))); ("agent_uuid", JString (uuid_display (tr_agent_uuid response)));
  ("task_token", JString (tr_task_token response)); ("timestamp", JNum (NumInt (tr_timestamp response))); ("success", JBool false);
  ("error_message", JString ("agent failed to serialize task response: " +:+ e)); ("task_event_result", JNull)]%string.

Definition response_value (uuid_display : Uuid -> string) (response : TaskEventResponse) : Json :=
  match response_to_value response with
  | Ok v => v
  | Err e => match response_to_value (fallback_response response e) with
             | Ok v => v
             | Err _ => fallback_object uuid_display response e
             end
  end.

(** The rest of the handler, once the result is there; [now] is the clock then. *)
Definition answer_task (uuid_display : Uuid -> string) (alive : string -> bool) (server : Server) (now : Clock) (ev : TaskEvent)
    (r : result anyhow TaskEventResult) (w : W) : W :=
  match aw_config w with
  | None => w
  | Some cfg =>
      let timestamp := json_or 0%Z (map_err anyhow_display (get_local_timestamp_ms now)) in
      let response := make_response ev (ac_agent_uuid cfg) timestamp r in
      let rpc := wrap_json_into_rpc_with_id_1 "task_upload_task_result" [JString (srv_token server); response_value uuid_display response] in
      let w' := set_pool (send_to alive (srv_name server) (Text rpc) (aw_pool w)).1 w in
      set_signals (should_restart (ev_task_event_type ev) r) (should_self_update_restart (ev_task_event_type ev) r) w'
  end.

(** A message of the downlink: the event it carries, if it is a task. *)
Definition task_of_message (message : Json) : option TaskEvent :=
  match rpc_task_from_value message with
  | Some (method, ev) => if String.eqb method "task_register_task" then Some ev else None
  | None => None
  end.

(** The whole handler of one message; it does not end when the task does not.  A server that
    may not give tasks at all has no receiver, so its messages are not looked at. *)
Definition handle_message (uuid_display : Uuid -> string) (alive : string -> bool) (server : Server) (queued : option Z) (now : Clock)
    (message : Json) (w : W) : option W :=
  if negb (unwrap_or false (srv_allow_task server)) then Some w else
  match task_of_message message with
  | None => Some w
  | Some ev =>
      let '(w', x) := run_task server queued ev w in
      match f_ms x with
      | Some _ => Some (answer_task uuid_display alive server now ev (f_val x) w')
      | None => None
      end
  end.
End tasks.
