(* ===== verification/AgentTaskThms.v ===== *)
(** * The agent's tasks: theorems

    Every task is answered, in bounded time and only as far as the configuration allows; the answer fits the
    row the server keeps; the limits on concurrent work; and defects. *)
From stdpp Require Import base strings gmap list numbers pretty relations.
From Stdlib Require Import Ascii SpecFloat.
From S2P Require Import Prelude Errors Json Db Permission TokenCache TokenCheck KvAuth UuidCache StaticFs JsWorker JsRun LastCache TaskTypes TaskManager Tasks TaskThms TaskRun NgConfig ConfigRpc AgentConn AgentTasks.

Section answers.
Context {json : JsonText} {codec : ConfigCodec} {FS : Type} {io : AgentIo FS} {wire : TaskWire} {fs : FsOps FS}.
#[local] Notation W := (AgentWorld FS).
Implicit Types (w : W) (ev : TaskEvent).

(** ** Results *)

Definition kind_ok (t : TaskEventType) (r : result anyhow TaskEventResult) : Prop :=
  forall x, r = Ok x -> result_task_name x = task_name t.

Lemma ping_kind t invalid r : kind_ok t (ping_result t invalid r).
Proof using.
  intros x H. unfold ping_result in H. apply map_err_ok, rbind_ok in H as (d & _ & H%ok_or_ok). destruct t; try discriminate H; by injection H as <-.
Qed.

(** What a task may do to the files: an edit writes the configuration, a command, a terminal and
    an update do what they do, the others nothing. *)
Definition files_after (t : TaskEventType) w w' : Prop :=
  aw_fs w' = aw_fs w \/
  (exists text path c, t = EditConfig text /\ agent_from_str text = Ok c /\ aw_args_config w = Some path /\
     aw_fs w' = (fs_write path (as_bytes text) (aw_fs w)).1) \/
  (exists command, t = Execute command /\ aw_fs w' = (execute_command command (aw_fs w)).1) \/
  (exists tag, t = SelfUpdate tag /\ aw_fs w' = (self_update tag (aw_fs w)).1) \/
  (exists shell id token cert, t = WebShell shell /\ aw_fs w' = (open_terminal shell id token cert (aw_fs w)).1).

(** A task changes nothing else, and an edit that succeeds has been written. *)
Definition only_files (t : TaskEventType) (r : result anyhow TaskEventResult) w w' : Prop :=
  (exists s, w' = set_aw_fs s w) /\ files_after t w w' /\
  (forall b, r = Ok (REditConfig b) -> exists text path c s, t = EditConfig text /\ agent_from_str text = Ok c /\ aw_args_config w = Some path /\
     fs_write path (as_bytes text) (aw_fs w) = (s, Ok tt) /\ w' = set_aw_fs s w).

Lemma set_aw_fs_id w : set_aw_fs (aw_fs w) w = w.
Proof using. by destruct w. Qed.

Lemma only_files_other t r w s :
  (forall b, r <> Ok (REditConfig b)) -> files_after t w (set_aw_fs s w) -> only_files t r w (set_aw_fs s w).
Proof using. intros H Hf. split_and!; [by exists s|done|]. intros b Hb. by destruct (H b). Qed.

Lemma only_files_same t r w : (forall b, r <> Ok (REditConfig b)) -> only_files t r w w.
Proof using. intros H. rewrite <-(set_aw_fs_id w) at 2. apply only_files_other; [done|by left]. Qed.

Lemma edit_task_run text w w' r : edit_config_task text w = (w', r) -> only_files (EditConfig text) r w w' /\ kind_ok (EditConfig text) r.
Proof using.
  unfold edit_config_task. rewrite mbind_lift. destruct (agent_from_str text) as [c|] eqn:Ec; cbn [map_err].
  2:{ intros [= <- <-]. split; [by apply only_files_same|by intros x]. }
  rewrite mbind_run. destruct (aw_args_config w) as [path|] eqn:Ep; cbn [ok_or].
  2:{ intros [= <- <-]. split; [by apply only_files_same|by intros x]. }
  rewrite mbind_run. destruct (fs_write path (as_bytes text) (aw_fs w)) as [s r0] eqn:E0.
  destruct r0 as [[]|err]; cbn [map_err]; intros [= <- <-].
  - split; [|by intros x [= <-]]. split_and!; [by exists s|right; left; exists text, path, c; by rewrite E0|].
    intros b _. by exists text, path, c, s.
  - split; [|by intros x]. split_and!; [by exists s|right; left; exists text, path, c; by rewrite E0|done].
Qed.

Lemma other_task t r w s :
  (forall text, t <> EditConfig text) -> files_after t w (set_aw_fs s w) -> kind_ok t r ->
  only_files t r w (set_aw_fs s w) /\ kind_ok t r.
Proof using.
  intros Ht Hf Hk. split; [|done]. apply only_files_other; [|done]. intros b Hb. apply Hk in Hb. destruct t; try discriminate Hb. by destruct (Ht text).
Qed.

Lemma other_task_same t r w : (forall text, t <> EditConfig text) -> kind_ok t r -> only_files t r w w /\ kind_ok t r.
Proof using. intros Ht Hk. rewrite <-(set_aw_fs_id w) at 2. apply other_task; [done|by left|done]. Qed.

Lemma execute_direct_run t id token cert w w' x :
  execute_task_direct t id token cert w = (w', x) -> only_files t (f_val x) w w' /\ kind_ok t (f_val x).
Proof using.
  destruct t; cbn [execute_task_direct].
  all: try (intros [= <- <-]; apply other_task_same; [done|]).
  all: try (match goal with |- context [let '(_, _) := ?m in _] => destruct m as [s x1] eqn:E end; intros [= <- <-];
            try (apply other_task; [done| |])).
  all: cbn [f_val fut_map now_].
  all: try apply ping_kind.
  all: try (intros y H; apply map_err_ok, rbind_ok in H as (? & _ & H); by injection H as <-).
  all: try (intros y H; apply rbind_ok in H as (? & _ & H); by injection H as <-).
  all: try (intros y H; by injection H as <-).
  all: try (intros y H; apply rbind_ok in H as (? & _ & H); apply rbind_ok in H as (? & _ & H); by injection H as <-).
  - do 4 right. eexists _, _, _, _. split; [done|]. by rewrite E.
  - do 2 right. left. eexists. split; [done|]. by rewrite E.
  - by apply edit_task_run.
  - do 3 right. left. eexists. split; [done|]. by rewrite E.
Qed.

(** ** Time *)

Lemma timeout_ms {A} limit (x : Fut A) : exists ms, f_ms (timeout limit x) = Some ms /\ (ms <= limit)%Z.
Proof using.
  unfold timeout. destruct (f_ms x) as [t|]; [|simpl; eauto with lia]. destruct (Z.leb_spec t limit); simpl; eauto with lia.
Qed.

Lemma run_task_run server q ev w w' x :
  run_task server q ev w = (w', x) ->
  let t := ev_task_event_type ev in
  only_files t (f_val x) w w' /\ kind_ok t (f_val x) /\
  (forall y, f_val x = Ok y -> is_task_allowed server t = true) /\
  (is_task_allowed server t = false -> w' = w /\ f_val x = Err (OfNodeget (PermissionDenied "Permission Denied: Task not allowed"))) /\
  (is_web_shell t = false -> exists ms, f_ms x = Some ms /\ (ms <= TASK_MAX_TIMEOUT)%Z).
Proof using.
  cbv zeta. unfold run_task. set (t := ev_task_event_type ev). destruct (is_task_allowed server t) eqn:Ea; cbn [negb].
  2:{ intros [= <- <-]. split_and!; [by apply only_files_same|by intros y|done|done|]. intros _. exists 0%Z. split; [done|]. unfold TASK_MAX_TIMEOUT. lia. }
  destruct (is_web_shell t && _) eqn:El.
  { intros [= <- <-]. split_and!; [by apply only_files_same|by intros y|done|done|]. intros Hs. by rewrite Hs in El. }
  unfold execute_task. destruct (execute_task_direct _ _ _ _ w) as [w1 x1] eqn:E1. intros [= <- <-].
  apply execute_direct_run in E1 as [Ho Hk]. fold t in Ho, Hk.
  set (x2 := if is_pool_managed t then _ else x1).
  assert (only_files t (f_val x2) w w1 /\ kind_ok t (f_val x2)) as [Ho2 Hk2].
  { subst x2. destruct (is_pool_managed t) eqn:Em; [|done].
    assert (forall y, f_val (fut_map (map_err OfNodeget) (pool_run q x1)) = Ok y -> f_val x1 = Ok y) as Hsame.
    { intros y H. cbn [f_val fut_map pool_run after] in H. apply map_err_ok, rbind_ok in H as (r & Hr%ok_or_ok & H%map_err_ok).
      unfold timeout in Hr. destruct (f_ms x1) as [ms|]; [destruct (_ <=? _)%Z|]; cbn [f_val] in Hr; congruence. }
    destruct Ho as (H1 & H2 & H3). split; [split_and!; [done|done|]|]; [intros b Hb%Hsame; by apply (H3 b)|intros y Hy%Hsame; by apply Hk]. }
  destruct (is_web_shell t) eqn:Es; [split; [exact Ho2|]; split; [exact Hk2|]; by split_and!|].
  assert (forall y, f_val (fut_map (fun o => match o with Some r => r | None => Err task_timeout_error end) (timeout TASK_MAX_TIMEOUT x2)) = Ok y -> f_val x2 = Ok y) as Hsame.
  { intros y H. cbn [f_val fut_map] in H. unfold timeout in H. destruct (f_ms x2) as [ms|]; [destruct (_ <=? _)%Z|]; done. }
  destruct Ho2 as (H1 & H2 & H3). split; [split; [done|]; split; [done|]; intros b Hb%Hsame; by apply (H3 b)|].
  split; [intros y Hy%Hsame; by apply Hk2|]. split; [done|]. split; [done|]. intros _. apply timeout_ms.
Qed.

(** ** Answers *)

Variables (uuid_display : Uuid -> string) (alive : string -> bool) (server : Server).

(** The request that uploads a response. *)
Definition upload_message (response : TaskEventResponse) : Message :=
  Text (wrap_json_into_rpc_with_id_1 "task_upload_task_result" [JString (srv_token server); response_value uuid_display response]).

Definition sent_up (msg : Message) (pool : ConnectionPool) (pool' : ConnectionPool) : Prop :=
  exists handles h, pool = Some handles /\ handles !! srv_name server = Some h /\
    pool' = Some (<[srv_name server := {| uplink_tx := send msg (uplink_tx h); downlink_tx := downlink_tx h |}]> handles).

Definition connected_to w : Prop :=
  alive (srv_name server) = true /\ exists handles h, aw_pool w = Some handles /\ handles !! srv_name server = Some h.

Lemma answer_run now ev r cfg w :
  aw_config w = Some cfg -> connected_to w ->
  let w' := answer_task uuid_display alive server now ev r w in
  sent_up (upload_message (make_response ev (ac_agent_uuid cfg) (json_or 0%Z (map_err anyhow_display (get_local_timestamp_ms now))) r))
    (aw_pool w) (aw_pool w') /\
  aw_fs w' = aw_fs w /\ aw_config w' = aw_config w /\
  aw_reload w' = aw_reload w || should_restart (ev_task_event_type ev) r /\
  aw_restart w' = aw_restart w || should_self_update_restart (ev_task_event_type ev) r.
Proof using.
  intros Hc (Ha & handles & h & Hp & Hh). cbv zeta. unfold answer_task. rewrite Hc. cbv zeta.
  split_and!; [|done..]. exists handles, h. split_and!; [done|done|]. cbn [set_signals set_pool aw_pool].
  unfold send_to. by rewrite Hp, Hh, Ha.
Qed.

End answers.

(** ** From the server and back *)

Section round_trip.
Context {DB U : Type} {ops : TableOps DB TaskModel} {uuid_ops : TableOps U UuidModel}.
Context {laws : TableLaws ops task_conflict} {keys : KeyGenerator ops} {serde : TaskSerde}.
Variable uuid_display : Uuid -> string.
#[local] Notation SW := (TaskWorld DB U).
Implicit Types w : SW.

Lemma answer_accepted random now target ty id x ts r :
  new_row random now target ty id x -> accepts (make_response (task_event random id ty) target ts r) x = true.
Proof using.
  intros (Hid & value & _ & ->). unfold accepts, matches_response. cbn [make_response tr_task_id tr_agent_uuid tr_task_token task_event ev_task_id ev_task_token].
  rewrite cast_signed_unsigned64 by done. cbn [pending_row t_id t_uuid t_token is_pending t_success].
  by rewrite Z.eqb_refl, bool_decide_true, String.eqb_refl.
Qed.

(** The row [x] once the agent has answered with [r]. *)
Definition settled (x : TaskModel) (ts : Z) (r : result anyhow TaskEventResult) (x' : TaskModel) : Prop :=
  t_id x' = t_id x /\ t_uuid x' = t_uuid x /\ t_token x' = t_token x /\ t_task_event_type x' = t_task_event_type x /\
  t_cron_source x' = t_cron_source x /\ t_created_at x' = t_created_at x /\
  t_timestamp x' = Some (cast_signed64 ts) /\ t_success x' = Some (is_ok r) /\
  match r with
  | Ok y => t_error_message x' = None /\ exists v, task_result_to_value y = Ok v /\ t_task_event_result x' = Some v
  | Err err => t_error_message x' = Some (anyhow_display err) /\ t_task_event_result x' = None
  end.

Lemma settled_record random id ty target ts r value x :
  encode_result (tr_task_event_result (make_response (task_event random id ty) target ts r)) = Ok value ->
  settled x ts r (record_result (make_response (task_event random id ty) target ts r) value x).
Proof using.
  cbn [make_response tr_task_event_result]. destruct r as [y|err]; cbn [encode_result].
  - destruct (task_result_to_value y) as [v|] eqn:Ev; [|done]. intros [= <-]. split_and!; [done..|]. by exists v.
  - intros [= <-]. by split_and!.
Qed.

(** A commit that finds the row waiting fails only with its statement. *)
Lemma commit_fails_with_statement resp value w d x :
  tw_db w = Some d -> x ∈ task_rows w -> accepts resp x = true ->
  is_ok (update_many (fun m => matches_response resp m && is_pending m) (record_result resp value) d).2 = true ->
  is_ok (upload_commit resp value w).2 = true.
Proof using laws.
  intros Hd Hx Ha Hok. unfold upload_commit. rewrite mbind_run. unfold task_stmt. rewrite Hd.
  destruct (update_many _ _ d) as [d' [n|]] eqn:Eu; [|done]. cbn [map_err]. apply update_many_ok in Eu as [_ ->].
  assert (x ∈ List.filter (fun m => matches_response resp m && is_pending m) (rows d)) as Hin.
  { apply list_filter_elem. split; [|exact Ha]. unfold task_rows in Hx. by rewrite Hd in Hx. }
  destruct (List.filter _ (rows d)) as [|y l]; [by apply not_elem_of_nil in Hin|].
  assert (Z.of_nat (length (y :: l)) =? 0 = false)%Z as -> by (simpl; lia).
  rewrite mbind_run. unfold on_manager. by destruct (notify_blocking_waiter _ _ _).
Qed.

(** C21: a task the server creates goes to the agent as an event whose answer fits exactly the row
    created.  Whatever the agent's result is and whatever happened in between, as long as the
    row is still there and pending: if the upload of the answer of the agent it was meant for
    succeeds, this row, and no other, has been settled, with the success, the time, the error text
    and the JSON form of the result of that answer; if it fails no row has changed; and
    once it has passed its checks it fails only if the update statement itself does. *)
Theorem task_settled_by_answer e random now meanwhile token target ty w0 w1 j :
  create_task uuid_display e random now meanwhile token target ty w0 = (w1, Ok j) ->
  exists id x, new_row random now target ty id x /\ x ∈ task_rows w1 /\
    TaskThms.queued (meanwhile (tw_manager w0)) target (task_event random id ty) (tw_manager w1) /\
    forall ts r w, x ∈ task_rows w -> tasks_unique w ->
      let answer := make_response (task_event random id ty) target ts r in
      (forall e' token' w' rr, upload_task_result e' token' answer w = (w', rr) ->
         match rr with
         | Ok _ => exists x', settled x ts r x' /\
             task_rows w' ≡ₚ map (fun y => if (t_id y =? t_id x)%Z then x' else y) (task_rows w)
         | Err _ => task_rows w' ≡ₚ task_rows w
         end) /\
      (forall d value, tw_db w = Some d ->
         is_ok (update_many (fun m => matches_response answer m && is_pending m) (record_result answer value) d).2 = true ->
         is_ok (upload_commit answer value w).2 = true).
Proof using laws keys.
  intros H. apply create_task_run in H as (id & _ & (x & Hx & Hrows & Hno) & Hq). exists id, x. split; [done|].
  split; [rewrite Hrows; by left|]. split; [done|]. intros ts r w Hin Hu. cbv zeta.
  set (resp := make_response (task_event random id ty) target ts r). pose proof (answer_accepted random now target ty id x ts r Hx) as Hacc.
  fold resp in Hacc. split; [|by intros d value Hd; eapply commit_fails_with_statement].
  intros e' token' w' rr. unfold upload_task_result. rewrite mbind_run.
  destruct (upload_check e' token' resp w) as [w2 r2] eqn:Ec. apply upload_check_run in Ec as (Hr2 & _ & Hok2).
  destruct r2 as [value|err]; [|intros [= <- <-]; by rewrite Hr2]. destruct (Hok2 value eq_refl) as [Henc _].
  intros Hc. apply upload_commit_run in Hc. rewrite Hr2 in Hc. destruct rr as [j'|err]; [|by destruct Hc].
  destruct Hc as (_ & _ & Hrows' & _). exists (record_result resp value x). split; [by apply settled_record|]. rewrite Hrows'.
  match goal with |- ?a ≡ₚ ?b => enough (a = b) as -> by done end. apply map_ext_in. intros y Hy%list_elem_of_In. unfold update_if.
  destruct (Z.eqb_spec (t_id y) (t_id x)) as [He|Hne].
  - assert (y = x) as ->; [|by rewrite Hacc].
    apply (unique_rows_lookup task_conflict task_conflict_sym (task_rows w) y x Hu Hy Hin). by apply Z.eqb_eq.
  - destruct (accepts resp y) eqn:Ey; [|done]. exfalso. apply Hne.
    unfold accepts, matches_response in Hacc, Ey. apply andb_true_iff in Hacc as [[[Hx1 _]%andb_true_iff _]%andb_true_iff _].
    apply andb_true_iff in Ey as [[[Hy1 _]%andb_true_iff _]%andb_true_iff _]. apply Z.eqb_eq in Hx1, Hy1. congruence.
Qed.
End round_trip.
