(* ===== verification/AgentPool.v ===== *)
(** * Limits on concurrent work of the agent

    [TaskPool] and the limit of terminals of [agent/src/tasks/mod.rs].  The semaphores are
    tokio's: [SemOps] are the calls the code makes on one and [SemLaws] what tokio documents about
    them (a permit goes to the waiter that has waited longest).  A run of [TaskPool::run] is a
    future that waits for its permit or, holding it, runs the task; it ends when the task does, when
    its ten seconds are up, or when its handler is dropped. *)
From stdpp Require Import base list numbers relations sets gmap.
From S2P Require Import Prelude AgentTasks.

(** ** Semaphores *)

Class SemOps (Sem : Type) : Type := {
  (** [Semaphore::new(n)] *)
  sem_new : nat -> Sem;
  (** [acquire()] of the future [id], when it is first polled: whether it has the permit; else it waits *)
  sem_acquire : nat -> Sem -> Sem * bool;
  (** [try_acquire()] *)
  sem_try_acquire : Sem -> Sem * bool;
  (** a permit is dropped; the waiter that gets it *)
  sem_drop_permit : Sem -> Sem * option nat;
  (** the future [id] is dropped while it waits *)
  sem_drop_waiter : nat -> Sem -> Sem;
  (** [available_permits()], and the futures that wait, the oldest first *)
  permits : Sem -> nat;
  queue : Sem -> list nat;
}.

Definition without (id : nat) (l : list nat) : list nat := List.filter (fun x => negb (x =? id)%nat) l.

Class SemLaws {Sem : Type} (ops : SemOps Sem) : Prop := {
  sem_new_spec : forall n, permits (sem_new n) = n /\ queue (sem_new n) = [];
  sem_acquire_free : forall id s s' b, sem_acquire id s = (s', b) -> queue s = [] -> (0 < permits s)%nat ->
    b = true /\ S (permits s') = permits s /\ queue s' = [];
  sem_acquire_busy : forall id s s' b, sem_acquire id s = (s', b) -> permits s = 0%nat ->
    b = false /\ permits s' = 0%nat /\ queue s' = queue s ++ [id];
  sem_try_free : forall s s' b, sem_try_acquire s = (s', b) -> queue s = [] -> (0 < permits s)%nat ->
    b = true /\ S (permits s') = permits s /\ queue s' = [];
  sem_try_busy : forall s s' b, sem_try_acquire s = (s', b) -> permits s = 0%nat -> b = false /\ s' = s;
  sem_drop_free : forall s s' o, sem_drop_permit s = (s', o) -> queue s = [] ->
    o = None /\ permits s' = S (permits s) /\ queue s' = [];
  sem_drop_next : forall s s' o id q, sem_drop_permit s = (s', o) -> queue s = id :: q ->
    o = Some id /\ permits s' = permits s /\ queue s' = q;
  sem_drop_waiter_spec : forall id s, permits (sem_drop_waiter id s) = permits s /\
    queue (sem_drop_waiter id s) = without id (queue s);
}.

(** ** The pool of network tasks *)

Section pool.
Context {Sem : Type} {ops : SemOps Sem}.

(** The runs that wait, and those that hold a permit with the time they started the task. *)
Record Pool : Type := { po_sem : Sem; po_waiting : gset nat; po_running : list (nat * Z); po_now : Z }.

(** [TaskPool::new]. *)
Definition pool_new (max_concurrency : nat) (now : Z) : Pool :=
  {| po_sem := sem_new max_concurrency; po_waiting := ∅; po_running := []; po_now := now |}.

(** [run], up to its first [await] that is not ready. *)
Definition run_begin (id : nat) (p : Pool) : Pool :=
  match sem_acquire id (po_sem p) with
  | (s, true) => {| po_sem := s; po_waiting := po_waiting p; po_running := po_running p ++ [(id, po_now p)]; po_now := po_now p |}
  | (s, false) => {| po_sem := s; po_waiting := {[id]} ∪ po_waiting p; po_running := po_running p; po_now := po_now p |}
  end.

Definition ended (id : nat) (l : list (nat * Z)) : list (nat * Z) := List.filter (fun r => negb (r.1 =? id)%nat) l.

(** The permit lives until the task has ended or timed out: only then does the next run start. *)
Definition run_end (id : nat) (p : Pool) : Pool :=
  match sem_drop_permit (po_sem p) with
  | (s, Some next) => {| po_sem := s; po_waiting := po_waiting p ∖ {[next]};
                         po_running := ended id (po_running p) ++ [(next, po_now p)]; po_now := po_now p |}
  | (s, None) => {| po_sem := s; po_waiting := po_waiting p; po_running := ended id (po_running p); po_now := po_now p |}
  end.

(** The handler of a run that waits is dropped. *)
Definition run_dropped (id : nat) (p : Pool) : Pool :=
  {| po_sem := sem_drop_waiter id (po_sem p); po_waiting := po_waiting p ∖ {[id]}; po_running := po_running p; po_now := po_now p |}.

(** Time passes only as far as the next timeout. *)
Definition pass (ms : Z) (p : Pool) : Pool :=
  {| po_sem := po_sem p; po_waiting := po_waiting p; po_running := po_running p; po_now := po_now p + ms |}.

Inductive pool_step : Pool -> Pool -> Prop :=
| pool_begin id p : id ∉ po_waiting p -> id ∉ map fst (po_running p) -> pool_step p (run_begin id p)
| pool_end id p : id ∈ map fst (po_running p) -> pool_step p (run_end id p)
| pool_dropped id p : id ∈ po_waiting p -> pool_step p (run_dropped id p)
| pool_pass ms p : (0 <= ms)%Z ->
    (forall r, r ∈ po_running p -> po_now p + ms <= r.2 + TASK_POOL_PER_TASK_TIMEOUT)%Z -> pool_step p (pass ms p).

(** ** The limit of terminals *)

Record Shells : Type := { sh_sem : Sem; sh_open : list nat }.
Definition shells_new : Shells := {| sh_sem := sem_new WEBSHELL_MAX_SESSIONS; sh_open := [] |}.

(** A terminal task: its session, or the refusal. *)
Definition shell_begin (id : nat) (p : Shells) : Shells * bool :=
  match sem_try_acquire (sh_sem p) with
  | (s, true) => ({| sh_sem := s; sh_open := sh_open p ++ [id] |}, true)
  | (s, false) => ({| sh_sem := s; sh_open := sh_open p |}, false)
  end.
Definition shell_end (id : nat) (p : Shells) : Shells :=
  {| sh_sem := (sem_drop_permit (sh_sem p)).1; sh_open := without id (sh_open p) |}.

Inductive shell_step : Shells -> Shells -> Prop :=
| shell_begins id p : id ∉ sh_open p -> shell_step p (shell_begin id p).1
| shell_ends id p : id ∈ sh_open p -> shell_step p (shell_end id p).
End pool.
Arguments Pool : clear implicits. Arguments Shells : clear implicits.

(** ** Lists *)

Lemma without_elem id l x : x ∈ without id l <-> x ∈ l /\ x <> id.
Proof. unfold without. rewrite !list_elem_of_In, filter_In, negb_true_iff, Nat.eqb_neq. done. Qed.

Lemma without_sublist id l : without id l `sublist_of` l.
Proof. induction l as [|x l IH]; simpl; [done|]. destruct (x =? id)%nat; simpl; by constructor. Qed.

Lemma without_absent id l : id ∉ l -> without id l = l.
Proof.
  induction l as [|x l IH]; [done|]. rewrite not_elem_of_cons. intros [Hne Hl]. simpl.
  destruct (Nat.eqb_spec x id); [by subst|]. simpl. by rewrite IH.
Qed.

Lemma without_length id l : NoDup l -> id ∈ l -> S (length (without id l)) = length l.
Proof.
  induction 1 as [|x l Hx Hl IH]; [by intros ?%not_elem_of_nil|]. rewrite elem_of_cons. simpl.
  destruct (Nat.eqb_spec x id) as [->|Hne]; simpl; intros [?|Hin]; subst; try done.
  - by rewrite without_absent.
  - f_equal. auto.
Qed.

Lemma ended_fst id l : map fst (ended id l) = without id (map fst l).
Proof. induction l as [|[x t] l IH]; simpl; [done|]. destruct (x =? id)%nat; simpl; by rewrite IH. Qed.

(** The runs that started at [t] or before. *)
Definition started_by (t : Z) (l : list (nat * Z)) : nat := length (List.filter (fun r => r.2 <=? t)%Z l).

Lemma started_by_app t a b : started_by t (a ++ b) = (started_by t a + started_by t b)%nat.
Proof. unfold started_by. by rewrite List.filter_app, length_app. Qed.

Lemma started_by_ended t id l : NoDup (map fst l) -> (started_by t l <= S (started_by t (ended id l)))%nat.
Proof.
  unfold started_by. induction l as [|[x s] l IH]; simpl; [lia|]. intros [Hx Hn]%NoDup_cons.
  destruct (Nat.eqb_spec x id) as [->|Hne]; simpl.
  - assert (ended id l = l) as ->; [|destruct (s <=? t)%Z; simpl; lia]. clear -Hx. induction l as [|[y u] l IH]; simpl in *; [done|].
    apply not_elem_of_cons in Hx as [Hne Hx]. destruct (Nat.eqb_spec y id) as [->|]; [done|]. simpl. by rewrite IH.
  - specialize (IH Hn). destruct (s <=? t)%Z; simpl; lia.
Qed.

(** ** Invariants *)

Section facts.
Context {Sem : Type} {ops : SemOps Sem} {laws : SemLaws ops}.
#[local] Notation P := (Pool Sem).

Record pool_ok (n : nat) (p : P) : Prop := {
  pool_count : (permits (po_sem p) + length (po_running p))%nat = n;
  pool_busy : queue (po_sem p) <> [] -> permits (po_sem p) = 0%nat;
  pool_queue : forall id, id ∈ queue (po_sem p) <-> id ∈ po_waiting p;
  pool_nodup : NoDup (map fst (po_running p) ++ queue (po_sem p));
  pool_times : forall r, r ∈ po_running p -> (r.2 <= po_now p <= r.2 + TASK_POOL_PER_TASK_TIMEOUT)%Z;
}.

Lemma timeout_pos : (0 <= TASK_POOL_PER_TASK_TIMEOUT)%Z.
Proof using. done. Qed.

(** A run that starts now. *)
Lemma times_app (l : list (nat * Z)) id now :
  (forall r, r ∈ l -> (r.2 <= now <= r.2 + TASK_POOL_PER_TASK_TIMEOUT)%Z) ->
  forall r, r ∈ l ++ [(id, now)] -> (r.2 <= now <= r.2 + TASK_POOL_PER_TASK_TIMEOUT)%Z.
Proof using. intros H r [Hr| ->%list_elem_of_singleton]%elem_of_app; [auto|]. simpl. pose proof timeout_pos. lia. Qed.

Lemma ended_elem id l r : r ∈ ended id l -> r ∈ l.
Proof using. unfold ended. rewrite !list_elem_of_In, filter_In. by intros [? _]. Qed.

Lemma run_begin_ok n id p :
  id ∉ po_waiting p -> id ∉ map fst (po_running p) -> pool_ok n p -> pool_ok n (run_begin id p).
Proof using laws.
  intros Hw Hr [Hc Hb Hq Hn Ht]. assert (id ∉ queue (po_sem p)) as Hnq by (by rewrite Hq).
  unfold run_begin. destruct (sem_acquire id (po_sem p)) as [s b] eqn:E.
  destruct (decide (permits (po_sem p) = 0%nat)) as [Hz|Hz].
  - destruct (sem_acquire_busy _ _ _ _ E Hz) as (-> & Hp & Hs). split; cbn [po_sem po_waiting po_running po_now].
    + lia.
    + done.
    + intros x. rewrite Hs, elem_of_app, list_elem_of_singleton, Hq. set_solver.
    + rewrite Hs, app_assoc. apply NoDup_app. split_and!; [done| |apply NoDup_singleton].
      intros x [Hx|Hx]%elem_of_app ->%list_elem_of_singleton; done.
    + done.
  - assert (queue (po_sem p) = []) as Hqn by (destruct (queue (po_sem p)); [done|]; by rewrite Hb in Hz).
    destruct (sem_acquire_free _ _ _ _ E Hqn ltac:(lia)) as (-> & Hp & Hs). split; cbn [po_sem po_waiting po_running po_now].
    + rewrite length_app. simpl. lia.
    + by rewrite Hs.
    + intros x. rewrite Hs, <-Hq, Hqn. done.
    + rewrite Hs, app_nil_r, map_app. rewrite Hqn, app_nil_r in Hn. apply NoDup_app. split_and!; [done| |apply NoDup_singleton].
      intros x Hx ->%list_elem_of_singleton. done.
    + by apply times_app.
Qed.

Lemma run_end_ok n id p : id ∈ map fst (po_running p) -> pool_ok n p -> pool_ok n (run_end id p).
Proof using laws.
  intros Hin [Hc Hb Hq Hn Ht]. apply NoDup_app in Hn as (Hh & Hd & Hw). unfold run_end.
  pose proof (without_length id _ Hh Hin) as Hlen. rewrite <-ended_fst, !length_map in Hlen.
  assert (NoDup (map fst (ended id (po_running p)))) as Hne.
  { rewrite ended_fst. eapply sublist_NoDup; [exact Hh|apply without_sublist]. }
  assert (forall x, x ∈ map fst (ended id (po_running p)) -> x ∈ map fst (po_running p)) as Hsub
    by (intros x; rewrite ended_fst; by intros [? _]%without_elem).
  destruct (sem_drop_permit (po_sem p)) as [s o] eqn:E. destruct (queue (po_sem p)) as [|next q] eqn:Eq.
  - destruct (sem_drop_free _ _ _ E Eq) as (-> & Hp & Hs). split; cbn [po_sem po_waiting po_running po_now].
    + lia.
    + by rewrite Hs.
    + intros x. rewrite Hs. apply Hq.
    + by rewrite Hs, app_nil_r.
    + intros r ?%ended_elem. auto.
  - destruct (sem_drop_next _ _ _ _ _ E Eq) as (-> & Hp & Hs). apply NoDup_cons in Hw as [Hnq Hw].
    split; cbn [po_sem po_waiting po_running po_now].
    + rewrite length_app. simpl. lia.
    + intros _. rewrite Hp. by apply Hb.
    + intros x. rewrite Hs, elem_of_difference, not_elem_of_singleton, <-Hq, elem_of_cons. set_solver.
    + rewrite Hs, map_app. simpl. rewrite <-app_assoc. simpl. apply NoDup_app. split_and!; [done| |by apply NoDup_cons].
      intros x Hx. apply Hd. auto.
    + apply times_app. intros r ?%ended_elem. auto.
Qed.

Lemma run_dropped_ok n id p : pool_ok n p -> pool_ok n (run_dropped id p).
Proof using laws.
  intros [Hc Hb Hq Hn Ht]. destruct (sem_drop_waiter_spec id (po_sem p)) as [Hp Hs]. unfold run_dropped.
  split; cbn [po_sem po_waiting po_running po_now].
  - lia.
  - rewrite Hs, Hp. intros Hne. apply Hb. intros Hnil. by rewrite Hnil in Hne.
  - intros x. rewrite Hs, without_elem, Hq. set_solver.
  - rewrite Hs. eapply sublist_NoDup; [exact Hn|]. apply sublist_app; [done|apply without_sublist].
  - done.
Qed.

Lemma pool_step_ok n p p' : pool_step p p' -> pool_ok n p -> pool_ok n p'.
Proof using laws.
  intros [id p0 H1 H2|id p0 H1|id p0 H1|ms p0 H1 H2] Hok;
    [by apply run_begin_ok|by apply run_end_ok|by apply run_dropped_ok|].
  destruct Hok as [Hc Hb Hq Hn Ht]. split; cbn [pass po_sem po_waiting po_running po_now]; try done.
  intros r Hr. specialize (H2 r Hr). specialize (Ht r Hr). lia.
Qed.

Lemma pool_run_ok n p p' : rtc pool_step p p' -> pool_ok n p -> pool_ok n p'.
Proof using laws. induction 1; eauto using pool_step_ok. Qed.

Lemma pool_new_ok n now : pool_ok n (pool_new n now).
Proof using laws.
  destruct (sem_new_spec n) as [Hp Hq]. unfold pool_new. split; cbn [po_sem po_waiting po_running po_now]; rewrite ?Hp, ?Hq.
  - simpl. lia.
  - done.
  - intros id. set_solver.
  - constructor.
  - by intros r ?%not_elem_of_nil.
Qed.

(** ** Waiting *)

(** [id] waits with [k] others ahead of it. *)
Definition ahead (id k : nat) (p : P) : Prop := exists front rest, queue (po_sem p) = front ++ id :: rest /\ length front = k.

(** A step takes [id] out of the queue, or it moves up at least as far as runs that started by [t]
    have ended. *)
Lemma step_ahead n t p p' id k :
  pool_ok n p -> pool_step p p' -> ahead id k p ->
  id ∉ po_waiting p' \/ exists k', ahead id k' p' /\ (k' + started_by t (po_running p) <= k + started_by t (po_running p'))%nat.
Proof using laws.
  intros Hok Hst (front & rest & Hq & <-). pose proof (pool_step_ok n p p' Hst Hok) as Hok'.
  pose proof Hok as [_ Hb Hwq Hn _]. rewrite Hq in Hn. apply NoDup_app in Hn as (Hh & _ & Hn).
  destruct Hst as [j p H1 H2|j p H1|j p H1|ms p H1 H2].
  - right. unfold run_begin. destruct (sem_acquire j (po_sem p)) as [s b] eqn:E.
    assert (permits (po_sem p) = 0%nat) as Hz by (apply Hb; rewrite Hq; by destruct front).
    destruct (sem_acquire_busy _ _ _ _ E Hz) as (-> & _ & Hs). exists (length front). split; [|done].
    exists front, (rest ++ [j]). cbn [po_sem]. by rewrite Hs, Hq, <-app_assoc.
  - unfold run_end in *. destruct (sem_drop_permit (po_sem p)) as [s o] eqn:E.
    pose proof (started_by_ended t j _ Hh) as Hle. destruct front as [|next front]; simpl in Hq.
    + destruct (sem_drop_next _ _ _ _ _ E Hq) as (-> & _ & Hs). left. cbn [po_waiting]. set_solver.
    + destruct (sem_drop_next _ _ _ _ _ E Hq) as (-> & _ & Hs). right. exists (length front). cbn [po_running].
      split; [by exists front, rest|]. rewrite started_by_app. simpl. lia.
  - unfold run_dropped. destruct (sem_drop_waiter_spec j (po_sem p)) as [_ Hs].
    destruct (decide (j = id)) as [->|Hne]; [left; cbn [po_waiting]; set_solver|]. right.
    exists (length (without j front)). split; [|cbn [po_running]; pose proof (sublist_length _ _ (without_sublist j front)); lia].
    exists (without j front), (without j rest). split; [|done]. cbn [po_sem]. rewrite Hs, Hq. unfold without.
    rewrite List.filter_app. simpl. by destruct (Nat.eqb_spec id j).
  - right. exists (length front). split; [by exists front, rest|]. unfold pass. cbn [po_running]. lia.
Qed.

(** A run that waits no longer does not begin to wait again by itself. *)
Definition begins (id : nat) (p p' : P) : Prop := pool_step p p' /\ id ∉ po_waiting p /\ id ∈ po_waiting p'.

Lemma run_ahead n t p p' id k :
  rtc (fun a b => pool_step a b /\ ~ begins id a b) p p' -> pool_ok n p -> ahead id k p ->
  id ∉ po_waiting p' \/ exists k', ahead id k' p' /\ (k' + started_by t (po_running p) <= k + started_by t (po_running p'))%nat.
Proof using laws.
  intros H. apply rtc_ind_r with (x := p) (z := p') (P := fun p' => pool_ok n p -> ahead id k p ->
    pool_ok n p' /\ (id ∉ po_waiting p' \/ exists k', ahead id k' p' /\ (k' + started_by t (po_running p) <= k + started_by t (po_running p'))%nat)) in H.
  - intros Hok Ha. by destruct (H Hok Ha).
  - intros Hok Ha. split; [done|]. right. exists k. split; [done|lia].
  - intros y z _ [Hst Hnb] IH Hok Ha. destruct (IH Hok Ha) as [Hoky Hy]. split; [by eapply pool_step_ok|].
    destruct Hy as [Hout|(k1 & Ha1 & Hk1)].
    + left. intros Hin. by apply Hnb.
    + destruct (step_ahead n t y z id k1 Hoky Hst Ha1) as [?|(k2 & Ha2 & Hk2)]; [by left|]. right. exists k2. split; [done|lia].
Qed.

(** ** Terminals *)

Record shells_ok (p : Shells Sem) : Prop := {
  shells_count : (permits (sh_sem p) + length (sh_open p))%nat = WEBSHELL_MAX_SESSIONS;
  shells_queue : queue (sh_sem p) = [];
  shells_nodup : NoDup (sh_open p);
}.

Lemma shell_begin_run id p p' b :
  shells_ok p -> shell_begin id p = (p', b) ->
  b = (length (sh_open p) <? WEBSHELL_MAX_SESSIONS)%nat /\ sh_open p' = (if b then sh_open p ++ [id] else sh_open p) /\
  (permits (sh_sem p') + length (sh_open p'))%nat = WEBSHELL_MAX_SESSIONS /\ queue (sh_sem p') = [].
Proof using laws.
  intros [Hc Hq _]. unfold shell_begin. destruct (sem_try_acquire (sh_sem p)) as [s b'] eqn:E.
  destruct (decide (permits (sh_sem p) = 0%nat)) as [Hz|Hz].
  - destruct (sem_try_busy _ _ _ E Hz) as [-> ->]. intros [= <- <-]. cbn [sh_sem sh_open]. split_and!; try done.
    symmetry. apply Nat.ltb_ge. lia.
  - destruct (sem_try_free _ _ _ E Hq ltac:(lia)) as (-> & Hp & Hq'). intros [= <- <-]. cbn [sh_sem sh_open].
    split_and!; [|done| |done]; [symmetry; apply Nat.ltb_lt; lia|rewrite length_app; simpl; lia].
Qed.

Lemma shells_run_ok p : rtc shell_step shells_new p -> shells_ok p.
Proof using laws.
  intros H. apply rtc_ind_r with (x := shells_new) (z := p) (P := shells_ok) in H; [done| |].
  - destruct (sem_new_spec WEBSHELL_MAX_SESSIONS) as [Hp Hq]. split; [cbn; lia|done|constructor].
  - intros y z _ [id q Hid|id q Hid] Hok.
    + destruct (shell_begin id q) as [q' b] eqn:E. destruct (shell_begin_run _ _ _ _ Hok E) as (_ & Ho & ? & ?).
      split; [done|done|]. cbn [fst]. rewrite Ho. destruct Hok as [_ _ Hn]. destruct b; [|done].
      apply NoDup_app. split_and!; [done| |apply NoDup_singleton]. by intros x Hx ->%list_elem_of_singleton.
    + destruct Hok as [Hc Hq Hn]. unfold shell_end. destruct (sem_drop_permit (sh_sem q)) as [s o] eqn:E.
      destruct (sem_drop_free _ _ _ E Hq) as (_ & Hp & Hs). pose proof (without_length id _ Hn Hid).
      split; cbn [sh_sem sh_open fst]; [lia|done|]. eapply sublist_NoDup; [exact Hn|apply without_sublist].
Qed.

(** C33: however network tasks arrive, end and are dropped, at most ten of them are executed at
    the same time, a permit being given back only when its task has ended or timed out, and
    none waits while fewer are executed.  A waiting task moves up ten places in ten seconds:
    when more have passed, it is executed (or was dropped), or ten fewer are ahead of it, so one with fewer
    than ten ahead of it no longer waits.  A terminal is refused exactly when eight are open. *)
Theorem pool_bounded_fair now p :
  rtc pool_step (pool_new TASK_POOL_MAX_CONCURRENCY now) p ->
  (length (po_running p) <= 10)%nat /\ (po_waiting p <> ∅ -> length (po_running p) = 10%nat) /\
  (forall id k p', ahead id k p -> rtc (fun a b => pool_step a b /\ ~ begins id a b) p p' -> (po_now p + 10000 < po_now p')%Z ->
     id ∉ po_waiting p' \/ exists k', ahead id k' p' /\ (k' + 10 <= k)%nat) /\
  (forall q id, rtc shell_step shells_new q ->
     (length (sh_open q) <= 8)%nat /\ ((shell_begin id q).2 = false <-> length (sh_open q) = 8%nat)).
Proof using laws.
  intros Hrun. pose proof (pool_run_ok _ _ _ Hrun (pool_new_ok _ _)) as Hok. pose proof Hok as [Hc Hb Hq Hn Ht].
  unfold TASK_POOL_MAX_CONCURRENCY, TASK_POOL_PER_TASK_TIMEOUT in *.
  assert (po_waiting p <> ∅ -> length (po_running p) = 10%nat) as Hfull.
  { intros [x Hx]%set_choose_L. apply Hq in Hx. rewrite Hb in Hc; [lia|]. intros Hnil. rewrite Hnil in Hx. by apply not_elem_of_nil in Hx. }
  split_and!; [lia|exact Hfull| |].
  - intros id k p' Ha Hr Hlate. destruct (run_ahead 10 (po_now p) p p' id k Hr Hok Ha) as [?|(k' & Ha' & Hk)]; [by left|]. right.
    exists k'. split; [done|].
    assert (started_by (po_now p) (po_running p) = 10%nat) as H1.
    { unfold started_by. rewrite (filter_ext_in _ (fun _ => true)), List.filter_true; [|by intros r [? _]%list_elem_of_In%Ht; lia].
      apply Hfull. destruct Ha as (f & r & Hf & _). assert (id ∈ po_waiting p) as Hin by (apply Hq; rewrite Hf; set_solver). set_solver. }
    assert (started_by (po_now p) (po_running p') = 0%nat) as H2; [|lia].
    assert (rtc pool_step p p') as Hrp by (eapply rtc_subrel; [|exact Hr]; by intros a b [? _]).
    destruct (pool_run_ok _ _ _ Hrp Hok) as [_ _ _ _ Ht']. unfold started_by, TASK_POOL_PER_TASK_TIMEOUT in *.
    rewrite (filter_ext_in _ (fun _ => false)), List.filter_false; [done|]. intros r [_ Hr']%list_elem_of_In%Ht'. lia.
  - intros q id Hr2. pose proof (shells_run_ok q Hr2) as Hs. destruct (shell_begin id q) as [q' b] eqn:E.
    destruct (shell_begin_run _ _ _ _ Hs E) as (-> & _). destruct Hs as [Hcount _ _]. unfold WEBSHELL_MAX_SESSIONS in *. cbn [snd].
    split; [lia|]. rewrite Nat.ltb_ge. lia.
Qed.
End facts.

(** ** Example *)

Record ListSem : Type := { ls_permits : nat; ls_queue : list nat }.

#[global] Instance list_sem : SemOps ListSem := {|
  sem_new n := {| ls_permits := n; ls_queue := [] |};
  sem_acquire id s := match ls_permits s with
    | S n => ({| ls_permits := n; ls_queue := ls_queue s |}, true)
    | O => ({| ls_permits := O; ls_queue := ls_queue s ++ [id] |}, false) end;
  sem_try_acquire s := match ls_permits s with
    | S n => ({| ls_permits := n; ls_queue := ls_queue s |}, true)
    | O => (s, false) end;
  sem_drop_permit s := match ls_queue s with
    | next :: rest => ({| ls_permits := ls_permits s; ls_queue := rest |}, Some next)
    | [] => ({| ls_permits := S (ls_permits s); ls_queue := [] |}, None) end;
  sem_drop_waiter id s := {| ls_permits := ls_permits s; ls_queue := without id (ls_queue s) |};
  permits := ls_permits; queue := ls_queue |}.

#[global] Instance list_sem_laws : SemLaws list_sem.
Proof.
  split; simpl; try done.
  - intros id [[|n] q] s' b; simpl; [lia|]. intros [= <- <-] -> _. done.
  - intros id [[|n] q] s' b; simpl; [|done]. intros [= <- <-] _. done.
  - intros [[|n] q] s' b; simpl; [lia|]. intros [= <- <-] -> _. done.
  - intros [[|n] q] s' b; simpl; [|done]. intros [= <- <-] _. done.
  - intros [n q] s' o; simpl. intros H ->. by injection H as <- <-.
  - intros [n q] s' o id q'; simpl. intros H ->. by injection H as <- <-.
Qed.

Definition crowd (n : nat) : Pool ListSem := fold_left (fun p i => run_begin i p) (seq 0 n) (pool_new 10 0).

Lemma crowd_run n :
  (forall k, k < n -> k ∉ po_waiting (crowd k) /\ k ∉ map fst (po_running (crowd k)))%nat -> rtc pool_step (pool_new 10 0) (crowd n).
Proof.
  unfold crowd. induction n as [|n IH]; intros H; [apply rtc_refl|]. rewrite seq_S, fold_left_app.
  eapply rtc_r; [apply IH; intros k Hk; apply H; lia|]. destruct (H n ltac:(lia)). by apply pool_begin.
Qed.

Lemma pool_bounded_fair_witness :
  length (po_running (crowd 12)) = 10%nat /\ queue (po_sem (crowd 12)) = [10; 11]%nat /\
  (forall p', rtc (fun a b => pool_step a b /\ ~ begins 11 a b) (crowd 12) p' -> (10000 < po_now p')%Z -> 11%nat ∉ po_waiting p').
Proof.
  assert (rtc pool_step (pool_new TASK_POOL_MAX_CONCURRENCY 0) (crowd 12)) as Hr.
  { apply crowd_run. intros k Hk.
    assert (forallb (fun k => bool_decide (k ∉ po_waiting (crowd k) /\ k ∉ map fst (po_running (crowd k)))) (seq 0 12) = true) as Hall
      by (vm_compute; reflexivity).
    rewrite forallb_forall in Hall. specialize (Hall k). rewrite bool_decide_eq_true in Hall. apply Hall, in_seq. lia. }
  destruct (pool_bounded_fair 0 (crowd 12) Hr) as (_ & _ & Hfair & _).
  split; [reflexivity|]. split; [reflexivity|]. intros p' Hp Hlate.
  destruct (Hfair 11%nat 1%nat p') as [?|(k' & _ & ?)]; [by exists [10%nat], []|exact Hp|exact Hlate|done|lia].
Defined.
