(* ===== verification/AgentMain.v ===== *)
(** * The agent's main loop

    [agent/src/main.rs]: a start, and each reload after it, loads the configuration, publishes it and opens
    one channel pair per server.  Examples of the agent's parts together, and defects. *)
From stdpp Require Import base strings gmap list numbers pretty relations.
From Stdlib Require Import Ascii SpecFloat.
From S2P Require Import Prelude Errors Json Db Permission TokenCache Concrete TokenCheck KvAuth UuidCache StaticPath StaticFs JsWorker JsRun LastCache TaskTypes TaskManager Tasks TaskThms TaskRun NgConfig ConfigRpc AgentConn AgentTasks AgentTaskThms.

Section main.
Context {json : JsonText} {codec : ConfigCodec} {FS : Type} {fs : FsOps FS}.
#[local] Notation W := (AgentWorld FS).
(** [Level::from_str] of the [log] crate, and the text of [Uuid::new_v4()]. *)
Variables (level_from_str : string -> option unit) (new_uuid : string).

Definition parse_log_level (config : AgentConfig) : result NodegetError unit :=
  let? log_level := ok_or (ParseError "log_level is not set") (ac_log_level config) in
  ok_or (ParseError "Invalid log_level") (level_from_str log_level).

Definition publish (config : AgentConfig) (servers : list Server) (w : W) : W :=
  {| aw_fs := aw_fs w; aw_args_config := aw_args_config w; aw_config := Some config;
     aw_pool := init_connections servers (aw_pool w); aw_shells := aw_shells w; aw_reload := false; aw_restart := aw_restart w |}.

(** The part of the loop up to the running agent; an error ends the process. *)
Definition agent_start (path : string) (w : W) : W * result NodegetError unit :=
  let '(s, r) := load_agent_config new_uuid path (aw_fs w) in
  let w1 := set_aw_fs s w in
  match r with
  | Err m => (w1, Err (ConfigNotFound ("Failed to load config: " +:+ m)))
  | Ok config =>
      match parse_log_level config with
      | Err e => (w1, Err e)
      | Ok _ =>
          match ac_server config with
          | None => (w1, Err (ConfigNotFound "No server configuration found"))
          | Some servers => (publish config servers w1, Ok tt)
          end
      end
  end.

Lemma pool_lookup servers n : forall m : gmap string ServerHandle,
  NoDup (map srv_name servers) ->
  fold_left (fun m s => <[srv_name s := new_handle]> m) servers m !! n =
    if bool_decide (n ∈ map srv_name servers) then Some new_handle else m !! n.
Proof using.
  clear. induction servers as [|s servers IH]; intros m; simpl; [done|]. intros [Hs Hn]%NoDup_cons. rewrite IH by done.
  destruct (decide (n = srv_name s)) as [->|Hne].
  - rewrite (bool_decide_false (_ ∈ map srv_name servers)) by done. by rewrite lookup_insert_eq, bool_decide_true by (by left).
  - rewrite lookup_insert_ne by done. repeat case_bool_decide; try done; exfalso.
    + by match goal with H : _ ∉ _ |- _ => apply H; right end.
    + by match goal with H : _ ∈ _ :: _ |- _ => apply elem_of_cons in H as [?|?] end.
Qed.

(** After a start that succeeds the configuration satisfies the checks and each server in it, and no
    other, has a new channel pair under its name. *)
Theorem agent_start_ready path w w' :
  agent_start path w = (w', Ok tt) ->
  exists config servers handles, aw_config w' = Some config /\ config_ok config /\ ac_server config = Some servers /\
    aw_pool w' = Some handles /\ forall n, handles !! n = if bool_decide (n ∈ map srv_name servers) then Some new_handle else None.
Proof using.
  unfold agent_start. destruct (load_agent_config new_uuid path (aw_fs w)) as [s [config|]] eqn:E; [|done].
  apply (load_checked "agent_uuid" toml_agent check_agent_config) in E as [c0 [-> Hok]%check_agent_ok].
  destruct (parse_log_level c0); [|done]. destruct (ac_server c0) as [servers|] eqn:Es; [|done]. intros [= <-].
  exists c0, servers, (fold_left (fun m s => <[srv_name s := new_handle]> m) servers ∅). split_and!; [done|done|done|done|].
  intros n. rewrite pool_lookup; [by rewrite lookup_empty|]. by apply Hok.
Qed.
End main.

(** ** Examples *)

#[local] Instance main_json : JsonText := {| json_from_str _ := Ok JNull; json_to_string _ := Ok "{}"%string |}.

Definition demo_version : NodeGetVersion := {|
  nv_binary_type := "agent"; nv_cargo_version := "0.1.0"; nv_git_branch := ""; nv_git_commit_sha := ""; nv_git_commit_date := "";
  nv_git_commit_message := ""; nv_build_time := ""; nv_cargo_target_triple := ""; nv_rustc_channel := ""; nv_rustc_version := "";
  nv_rustc_commit_date := ""; nv_rustc_commit_hash := ""; nv_rustc_llvm_version := "" |}.

(** Requests that take [http_ms] and commands that never end; updates fail. *)
Definition demo_io (http_ms : Z) : AgentIo MemFs := {|
  ping_target _ := {| f_ms := Some 30%Z; f_val := Ok 30000000%Z |};
  tcping_target _ := {| f_ms := Some 30%Z; f_val := Ok 30000000%Z |};
  httping_target _ := {| f_ms := Some 30%Z; f_val := Ok 30000000%Z |};
  execute_http_request _ := {| f_ms := Some http_ms; f_val := Ok {| hrr_status := 200; hrr_headers := []; hrr_body := None; hrr_body_base64 := None |} |};
  open_terminal _ _ _ _ s := (s, {| f_ms := None; f_val := Ok tt |});
  execute_command _ s := (s, {| f_ms := None; f_val := Ok ""%string |});
  ip := {| f_ms := Some 30%Z; f_val := (None, None) |};
  query_dns _ := {| f_ms := Some 30%Z; f_val := Ok [] |};
  agent_version := demo_version;
  self_update _ s := (s, {| f_ms := Some 30%Z; f_val := false |}) |}.

Definition demo_wire (ev : TaskEvent) : TaskWire := {|
  rpc_task_from_value _ := Some ("task_register_task"%string, ev);
  response_to_value r := Ok (JBool (tr_success r)) |}.

#[local] Instance main_codec : ConfigCodec := {|
  toml_get_str text _ := Ok (quoted text);
  toml_agent := toy_parse (fun u => {|
    ac_log_level := Some "info"%string; ac_dynamic_report_interval_ms := Some 1500%Z; ac_dynamic_summary_report_interval_ms := Some 1000%Z;
    ac_static_report_interval_ms := None; ac_agent_uuid := u; ac_connect_timeout_ms := None; ac_exec_max_character := None;
    ac_terminal_shell := None; ac_ip_provider := None; ac_ntp_server := None; ac_dynamic_summary_select_disk := None;
    ac_dynamic_summary_select_network_interface := None; ac_server := Some [] |});
  toml_server := toy_parse toy_server;
  uuid_parse_str s := Ok (N.of_nat (String.length s)) |}.
#[local] Instance main_fs : FsOps MemFs := mem_ops ["home"%string].

Definition main_server (types : list string) : Server := {|
  srv_name := "main"; srv_server_uuid := "u-1"; srv_token := "k:s"; srv_ws_url := "wss://s"; srv_allow_task := Some true;
  srv_allow_icmp_ping := None; srv_allow_tcp_ping := None; srv_allow_http_ping := None; srv_allow_web_shell := None;
  srv_allow_read_config := None; srv_allow_edit_config := None; srv_allow_execute := None; srv_allow_http_request := None;
  srv_allow_ip := None; srv_allow_dns := None; srv_allow_version := None; srv_allow_self_update := None; srv_ignore_cert := None;
  srv_allow_task_type := Some types |}.

Definition demo_agent : AgentWorld MemFs := {|
  aw_fs := {| mem := ∅; read_only := false |}; aw_args_config := Some "config.toml"%string;
  aw_config := Some (toy_agent 7%N); aw_pool := Some {[ "main"%string := new_handle ]}; aw_shells := 0; aw_reload := false; aw_restart := false |}.

Definition demo_clock : Clock := {| since_epoch_ms := Ok 1000%Z; NTP_OFFSET_MS := 0%Z |}.
Definition demo_event (t : TaskEventType) : TaskEvent := {| ev_task_id := 3; ev_task_token := "tok"; ev_task_event_type := t |}.
Definition show (u : Uuid) : string := "u".

Definition handled (http_ms : Z) (types : list string) (t : TaskEventType) : option (AgentWorld MemFs) :=
  handle_message (io := demo_io http_ms) (wire := demo_wire (demo_event t)) show (fun _ => true) (main_server types) (Some 0%Z) demo_clock JNull demo_agent.

Definition ran (http_ms : Z) (types : list string) (t : TaskEventType) : Fut (result anyhow TaskEventResult) :=
  (run_task (io := demo_io http_ms) (main_server types) (Some 0%Z) (demo_event t) demo_agent).2.


(** An answer of agent 7 settles the task. *)
Lemma task_settled_by_answer_witness :
  exists w1 i x w' j x', create_task show_uuid open_env "secret" 1000 id "key:pass" 7%N (Ping "host") agent_online = (w1, Ok (id_response 1)) /\ x ∈ task_rows w1 /\
    upload_task_result open_env "key:pass" (make_response (task_event "secret" i (Ping "host")) 7%N 2000 (Ok (RPing 42))) w1 = (w', Ok j) /\
    settled x 2000 (Ok (RPing 42)) x' /\ task_rows w' ≡ₚ [x'].
Proof.
  set (w1 := (create_task show_uuid open_env "secret" 1000 id "key:pass" 7%N (Ping "host") agent_online).1).
  assert (create_task show_uuid open_env "secret" 1000 id "key:pass" 7%N (Ping "host") agent_online = (w1, Ok (id_response 1))) as E by reflexivity.
  destruct (task_settled_by_answer show_uuid open_env "secret" 1000 id "key:pass" 7%N (Ping "host") agent_online w1 (id_response 1) E)
    as (i & x & (_ & v & Hv & Hxe) & Hx & _ & H).
  assert (x = pending_row 7%N "secret" (JObject [("ping"%string, JString "host")]) 1000 1) as Ex.
  { vm_compute in Hx. by apply list_elem_of_singleton in Hx. }
  assert (i = 1%Z) as -> by (rewrite Ex in Hxe; by injection Hxe).
  destruct (upload_task_result open_env "key:pass" (make_response (task_event "secret" 1 (Ping "host")) 7%N 2000 (Ok (RPing 42))) w1) as [w' rr] eqn:Eu.
  pose proof (proj1 (H 2000%Z (Ok (RPing 42)) w1 Hx eq_refl) open_env "key:pass"%string w' rr Eu) as Hs.
  assert (is_ok (upload_task_result open_env "key:pass" (make_response (task_event "secret" 1 (Ping "host")) 7%N 2000 (Ok (RPing 42))) w1).2 = true) as Hok by reflexivity.
  rewrite Eu in Hok. destruct rr as [j|]; [|discriminate Hok]. destruct Hs as (x' & Hset & Hrows).
  exists w1, 1%Z, x, w', j, x'. split; [exact E|]. split; [exact Hx|]. split; [exact Eu|]. split; [exact Hset|].
  rewrite Hrows, Ex. reflexivity.
Defined.

(** ** Defects *)

Definition edit_text : string := String quote ("abc" +:+ String quote EmptyString).

(** The text of an edit is checked only as far as it can be parsed: intervals that are no multiples of
    each other are accepted, answered with success and written, and the reload that follows ends the
    agent. *)
Theorem accepted_edit_stops_agent :
  f_val (ran 0 ["edit_config"%string] (EditConfig edit_text)) = Ok (REditConfig true) /\
  match handled 0 ["edit_config"%string] (EditConfig edit_text) with
  | Some w' => aw_reload w' = true /\ is_ok (agent_start (fun _ => Some tt) "new" "config.toml" w').2 = false
  | None => False
  end.
Proof. vm_compute. split_and!; reflexivity. Qed.

(** An update that fails is answered as a success with the result [false]. *)
Theorem failed_update_reported_success :
  f_val (ran 0 ["self_update"%string] (SelfUpdate "v9")) = Ok (RSelfUpdate false) /\
  tr_success (make_response (demo_event (SelfUpdate "v9")) 7%N 0 (f_val (ran 0 ["self_update"%string] (SelfUpdate "v9")))) = true.
Proof. vm_compute. split; reflexivity. Qed.

Definition demo_request : HttpRequestTask := {|
  hr_url := "https://x"; hr_method := "GET"; hr_headers := []; hr_body := None; hr_body_base64 := None; hr_ip := None |}.

(** A request that is answered after twenty seconds is within the thirty seconds of requests, but the
    pool gives it ten. *)
Theorem request_limit_unreachable :
  (20000 < HTTP_REQUEST_TIMEOUT)%Z /\ f_ms (execute_http_request (AgentIo := demo_io 20000) demo_request) = Some 20000%Z /\
  f_val (ran 20000 ["http_request"%string] (HttpRequest demo_request)) = Err (OfNodeget pool_timeout_error).
Proof. vm_compute. split_and!; reflexivity. Qed.
