(* ===== verification/AgentExec.v ===== *)
(** * Commands the agent executes

    [agent/src/tasks/execute.rs]: the output of a command as it is sent to the server, read with a limit,
    made valid UTF-8, and cut in the middle when it is too long.  A text is its bytes.  Starting, waiting
    for and killing the process are the operating system's. *)
From stdpp Require Import base strings gmap list numbers pretty.
From Stdlib Require Import Ascii.
From S2P Require Import Prelude Errors TaskTypes JsWorker NgConfig.

(** ** [String::from_utf8_lossy] *)

(** U+FFFD. *)
Definition REPLACEMENT : list Z := [0xEF; 0xBF; 0xBD]%Z.

Fixpoint from_utf8_lossy (fuel : nat) (v : list Z) : list Z :=
  match fuel with
  | O => []
  | S fuel =>
      match run_utf8_validation (length v) 0 v with
      | Ok _ => v
      | Err e => take (valid_up_to e) v ++ REPLACEMENT ++
                 match error_len e with
                 | Some n => from_utf8_lossy fuel (drop (valid_up_to e + n) v)
                 | None => []
                 end
      end
  end.
Definition lossy (v : list Z) : list Z := from_utf8_lossy (S (length v)) v.

Example lossy_ex : lossy [65; 0xFF; 66; 0xE2; 0x82]%Z = [65; 0xEF; 0xBF; 0xBD; 66; 0xEF; 0xBF; 0xBD]%Z.
Proof. reflexivity. Qed.

(** ** The output *)

(** [read_capped]: the first bytes; the rest is read and dropped. *)
Definition read_capped (bytes : list Z) (max_capture : nat) : list Z := take max_capture bytes.

(** How the process ended: its exit code, if it has one. *)
Record ExitStatus : Type := { exit_code : option Z }.
Definition success (s : ExitStatus) : bool := bool_decide (exit_code s = Some 0%Z).

Definition STDERR_MARK : list Z := as_bytes "
--- STDERR ---
".
Definition NO_OUTPUT : list Z := as_bytes "(No Output)".
Definition exit_text (s : ExitStatus) : list Z :=
  as_bytes ("

[Process exited with code " +:+ pretty (unwrap_or (-1)%Z (exit_code s)) +:+ "]").

Definition is_nil (l : list Z) : bool := match l with [] => true | _ => false end.

Definition full_output (s : ExitStatus) (stdout_buf stderr_buf : list Z) : list Z :=
  let out := lossy stdout_buf in
  let err := lossy stderr_buf in
  let result := out ++ (if negb (is_nil err) && negb (is_nil out) then STDERR_MARK else []) ++ err in
  let result := if is_nil result then NO_OUTPUT else result in
  result ++ (if success s then [] else exit_text s).

(** [str::is_char_boundary]. *)
Definition is_char_boundary (v : list Z) (i : nat) : bool :=
  (i =? 0)%nat || match v !! i with Some b => negb (is_cont b) | None => (i =? length v)%nat end.

(** The loops that move an index inwards. *)
Fixpoint head_boundary (v : list Z) (i : nat) : nat :=
  if is_char_boundary v i then i else match i with O => O | S j => head_boundary v j end.
Fixpoint tail_boundary (fuel : nat) (v : list Z) (i : nat) : nat :=
  match fuel with
  | O => i
  | S fuel => if (i <? length v)%nat && negb (is_char_boundary v i) then tail_boundary fuel v (S i) else i
  end.

Definition cut_mark (skipped original_len : nat) : list Z :=
  as_bytes ("
[... Output truncated, " +:+ pretty (N.of_nat skipped) +:+ " bytes omitted (original " +:+ pretty (N.of_nat original_len) +:+ " bytes) ...]
").

Definition truncate_output (max_chars : nat) (result : list Z) : list Z :=
  if (max_chars <? length result)%nat then
    let original_len := length result in
    let head_budget := (max_chars / 2)%nat in
    let tail_budget := (max_chars - head_budget)%nat in
    let head_end := head_boundary result (head_budget `min` original_len) in
    let tail_start := tail_boundary original_len result ((original_len - tail_budget) `max` head_end) in
    if (tail_start <=? head_end)%nat then take head_end result
    else take head_end result ++ cut_mark (tail_start - head_end) original_len ++ drop tail_start result
  else result.

Definition command_output (max_chars : nat) (s : ExitStatus) (stdout stderr : list Z) : list Z :=
  truncate_output max_chars (full_output s (read_capped stdout max_chars) (read_capped stderr max_chars)).

(** What running the command gave: it could not be started, it could not be waited for, it ended, or
    the minute was up. *)
Inductive ProcessOutcome : Type :=
| SpawnFailed | WaitFailed (m : string) | Ended (s : ExitStatus) (stdout stderr : list Z) | TimeUp.

Definition EXECUTE_TIMEOUT : Z := 60000.

Definition execute_command_result (config : option AgentConfig) (task : ExecuteTask) (outcome : ProcessOutcome) : result NodegetError (list Z) :=
  let? config := ok_or (Other "Agent config not initialized") config in
  let max_chars := Z.to_nat (exec_max_character_or_default config) in
  if trim_is_empty (ex_cmd task) then Err (InvalidInput "Execute command cannot be empty") else
  match outcome with
  | SpawnFailed => Err (Other "Command execution failed")
  | WaitFailed m => Err (Other ("Failed to wait for process: " +:+ m))
  | Ended s stdout stderr => Ok (command_output max_chars s stdout stderr)
  | TimeUp => Err (Other ("Execution timed out (Limit: " +:+ pretty (EXECUTE_TIMEOUT / 1000)%Z +:+ "s)"))
  end.

(** ** Valid UTF-8 *)

Inductive utf8_char : list Z -> Prop :=
| char1 a : utf8_char_width a = 1%nat -> utf8_char [a]
| char2 a b : utf8_char_width a = 2%nat -> is_cont b = true -> utf8_char [a; b]
| char3 a b c : utf8_char_width a = 3%nat -> second_of_3 a b = true -> is_cont c = true -> utf8_char [a; b; c]
| char4 a b c d : utf8_char_width a = 4%nat -> second_of_4 a b = true -> is_cont c = true -> is_cont d = true -> utf8_char [a; b; c; d].

Inductive utf8 : list Z -> Prop :=
| utf8_nil : utf8 []
| utf8_cons c v : utf8_char c -> utf8 v -> utf8 (c ++ v).

Lemma utf8_app a b : utf8 a -> utf8 b -> utf8 (a ++ b).
Proof. induction 1; [done|]. intros Hb. rewrite <-app_assoc. constructor; auto. Qed.

(** One step of the validation. *)
Lemma validation_cases fuel i v :
  v <> [] ->
  (exists c rest, v = c ++ rest /\ utf8_char c /\ run_utf8_validation (S fuel) i v = run_utf8_validation fuel (i + length c) rest) \/
  exists n, run_utf8_validation (S fuel) i v = Err {| valid_up_to := i; error_len := n |} /\ forall k, n = Some k -> (0 < k)%nat.
Proof.
  destruct v as [|a v]; [done|]. intros _. cbn [run_utf8_validation].
  destruct (utf8_char_width a) as [|[|[|[|[|]]]]] eqn:Ew.
  - right. exists (Some 1%nat). split; [done|]. intros k [= <-]. lia.
  - left. exists [a], v. split_and!; [done|by constructor|done].
  - destruct v as [|b v]; [right; by exists None|]. destruct (is_cont b) eqn:Eb.
    + left. exists [a; b], v. split_and!; [done|by constructor|done].
    + right. exists (Some 1%nat). split; [done|]. intros k [= <-]. lia.
  - destruct v as [|b v]; [right; by exists None|]. destruct (second_of_3 a b) eqn:Eb; cbn [negb].
    2:{ right. exists (Some 1%nat). split; [done|]. intros k [= <-]. lia. }
    destruct v as [|c v]; [right; by exists None|]. destruct (is_cont c) eqn:Ec.
    + left. exists [a; b; c], v. split_and!; [done|by constructor|done].
    + right. exists (Some 2%nat). split; [done|]. intros k [= <-]. lia.
  - destruct v as [|b v]; [right; by exists None|]. destruct (second_of_4 a b) eqn:Eb; cbn [negb].
    2:{ right. exists (Some 1%nat). split; [done|]. intros k [= <-]. lia. }
    destruct v as [|c v]; [right; by exists None|]. destruct (is_cont c) eqn:Ec; cbn [negb].
    2:{ right. exists (Some 2%nat). split; [done|]. intros k [= <-]. lia. }
    destruct v as [|d v]; [right; by exists None|]. destruct (is_cont d) eqn:Ed.
    + left. exists [a; b; c; d], v. split_and!; [done|by constructor|done].
    + right. exists (Some 3%nat). split; [done|]. intros k [= <-]. lia.
  - right. exists (Some 1%nat). split; [done|]. intros k [= <-]. lia.
Qed.

Lemma char_length c : utf8_char c -> (1 <= length c <= 4)%nat.
Proof. destruct 1; simpl; lia. Qed.

(** The validation accepts valid text, and otherwise finds where it stops to be. *)
Lemma validation_run fuel : forall i v, (length v <= fuel)%nat ->
  match run_utf8_validation fuel i v with
  | Ok _ => utf8 v
  | Err e => exists k, valid_up_to e = (i + k)%nat /\ (k < length v)%nat /\ utf8 (take k v) /\ forall n, error_len e = Some n -> (0 < n)%nat
  end.
Proof.
  induction fuel as [|fuel IH]; intros i v Hlen; [destruct v; [constructor|simpl in Hlen; lia]|].
  destruct v as [|a v]; [constructor|].
  destruct (validation_cases fuel i (a :: v)) as [(c & rest & Hv & Hc & ->)|(n & -> & Hn)]; [done| |].
  - pose proof (char_length c Hc) as Hl. rewrite Hv in *. rewrite length_app in Hlen. specialize (IH (i + length c)%nat rest ltac:(lia)).
    destruct (run_utf8_validation fuel (i + length c) rest) as [[]|e]; [by constructor|].
    destruct IH as (k & Hk & Hlt & Hu & Hn). exists (length c + k)%nat. split_and!; [lia|rewrite length_app; lia| |done].
    rewrite take_app_add. by constructor.
  - exists 0%nat. split_and!; [simpl; lia|simpl; lia|constructor|exact Hn].
Qed.

Lemma validation_accepts v : utf8 v -> forall fuel i, (length v <= fuel)%nat -> run_utf8_validation fuel i v = Ok tt.
Proof.
  induction 1 as [|c v Hc Hv IH]; intros fuel i Hlen; [by destruct fuel|]. pose proof (char_length c Hc) as Hl. rewrite length_app in Hlen.
  destruct fuel as [|fuel]; [lia|]. destruct Hc as [a Ha|a b Ha Hb|a b c Ha Hb Hc|a b c d Ha Hb Hc Hd];
    cbn [app run_utf8_validation]; rewrite Ha; rewrite ?Hb; cbn [negb]; rewrite ?Hc; cbn [negb]; rewrite ?Hd; apply IH; simpl in *; lia.
Qed.

Lemma lossy_valid fuel : forall v, (length v < fuel)%nat -> utf8 (from_utf8_lossy fuel v).
Proof.
  induction fuel as [|fuel IH]; intros v Hlen; [lia|]. simpl. pose proof (validation_run (length v) 0 v ltac:(lia)) as H.
  destruct (run_utf8_validation (length v) 0 v) as [[]|e]; [done|]. destruct H as (k & Hk & Hlt & Hu & Hn). simpl in Hk. rewrite Hk.
  apply utf8_app; [done|]. apply (utf8_cons REPLACEMENT); [by apply char3|]. destruct (error_len e) as [n|]; [|constructor].
  apply IH. specialize (Hn n eq_refl). rewrite length_drop. lia.
Qed.

(** ASCII text. *)
Lemma ascii_valid v : Forall (fun b => utf8_char_width b = 1%nat) v -> utf8 v.
Proof. induction 1; [constructor|]. apply (utf8_cons [x]); [by constructor|done]. Qed.

(** ** Cutting at boundaries *)

Lemma char_inside c i : utf8_char c -> (0 < i < length c)%nat -> exists b, c !! i = Some b /\ is_cont b = true.
Proof.
  assert (forall a b, second_of_3 a b = true -> is_cont b = true) as H3.
  { intros a b. unfold second_of_3, is_cont, between. repeat case_match; rewrite ?andb_true_iff, ?Z.leb_le; lia. }
  assert (forall a b, second_of_4 a b = true -> is_cont b = true) as H4.
  { intros a b. unfold second_of_4, is_cont, between. repeat case_match; rewrite ?andb_true_iff, ?Z.leb_le; lia. }
  destruct 1; simpl; intros Hi; do 4 (destruct i as [|i]; [first [lia|eexists; split; [reflexivity|eauto]]|]); lia.
Qed.

Lemma split_valid v i : utf8 v -> is_char_boundary v i = true -> utf8 (take i v) /\ utf8 (drop i v).
Proof.
  intros Hv. revert i. induction Hv as [|c v Hc Hv IH]; intros i Hb; [rewrite take_nil, drop_nil; split; constructor|].
  destruct (decide (i = 0)%nat) as [->|H0]; [split; [constructor|by constructor]|].
  destruct (decide (i < length c)%nat) as [Hlt|Hge].
  - exfalso. destruct (char_inside c i Hc ltac:(lia)) as (b & Hl & Hcb). unfold is_char_boundary in Hb.
    rewrite (lookup_app_l c v i Hlt), Hl, Hcb in Hb. destruct (Nat.eqb_spec i 0); done.
  - replace i with (length c + (i - length c))%nat by lia. rewrite take_app_add, drop_app_add.
    destruct (IH (i - length c)%nat) as [H1 H2]; [|split; [by constructor|done]].
    unfold is_char_boundary in *. rewrite lookup_app_r in Hb by lia. rewrite length_app in Hb. destruct (Nat.eqb_spec i 0); [lia|]. simpl in Hb.
    destruct (Nat.eqb_spec (i - length c) 0); [done|]. simpl. destruct (v !! (i - length c)%nat); [done|].
    apply Nat.eqb_eq in Hb. apply Nat.eqb_eq. lia.
Qed.

Lemma head_boundary_spec v i : (head_boundary v i <= i)%nat /\ is_char_boundary v (head_boundary v i) = true.
Proof.
  induction i as [|i [IH1 IH2]]; simpl; [done|]. destruct (is_char_boundary v (S i)) eqn:E; [done|]. split; [lia|done].
Qed.

Lemma end_boundary v : is_char_boundary v (length v) = true.
Proof. unfold is_char_boundary. rewrite lookup_ge_None_2 by done. by rewrite Nat.eqb_refl, orb_true_r. Qed.

Lemma tail_boundary_spec fuel : forall v i, (length v - i <= fuel)%nat -> (i <= length v)%nat ->
  (i <= tail_boundary fuel v i <= length v)%nat /\ is_char_boundary v (tail_boundary fuel v i) = true.
Proof.
  induction fuel as [|fuel IH]; intros v i Hf Hi; simpl.
  - assert (i = length v) as -> by lia. split; [lia|apply end_boundary].
  - destruct (Nat.ltb_spec i (length v)); simpl.
    + destruct (is_char_boundary v i) eqn:E; simpl; [by split|]. destruct (IH v (S i) ltac:(lia) ltac:(lia)). split; [lia|done].
    + assert (i = length v) as -> by lia. split; [lia|apply end_boundary].
Qed.

(** ** Numbers are ASCII *)

Definition ascii_char (c : ascii) : Prop := utf8_char_width (byte_of c) = 1%nat.
Definition ascii_text (s : string) : Prop := Forall ascii_char (String.list_ascii_of_string s).

Lemma ascii_text_app a b : ascii_text a -> ascii_text b -> ascii_text (a +:+ b).
Proof. unfold ascii_text. intros Ha Hb. induction a as [|c a IH]; [done|]. simpl in *. inversion Ha; subst. constructor; auto. Qed.

Lemma ascii_text_valid s : ascii_text s -> utf8 (as_bytes s).
Proof. intros H. apply ascii_valid. unfold ascii_text in H. induction s as [|c s IH]; simpl in *; [constructor|]. inversion H; subst. constructor; auto. Qed.

Lemma pretty_go_ascii x s : ascii_text s -> ascii_text (pretty_N_go x s).
Proof.
  revert s. induction (N.lt_wf_0 x) as [x _ IH]; intros s Hs. assert (x = 0 \/ 0 < x)%N as [->|Hx] by lia; [by rewrite pretty_N_go_0|].
  rewrite pretty_N_go_step by done. apply IH; [by apply N.div_lt|]. constructor; [|done]. unfold pretty_N_char. repeat case_match; done.
Qed.

Lemma pretty_N_ascii (x : N) : ascii_text (pretty x).
Proof. unfold pretty, pretty_N. case_decide; [repeat constructor|]. apply pretty_go_ascii. constructor. Qed.

Lemma pretty_Z_ascii (z : Z) : ascii_text (pretty z).
Proof.
  unfold pretty, pretty_Z. destruct z; [repeat constructor|apply pretty_N_ascii|]. apply (ascii_text_app "-"); [repeat constructor|apply pretty_N_ascii].
Qed.

Ltac ascii_solve := repeat first [apply pretty_N_ascii | apply pretty_Z_ascii | apply ascii_text_app | solve [repeat constructor]].

Lemma exit_text_valid s : utf8 (exit_text s).
Proof. apply ascii_text_valid. ascii_solve. Qed.
Lemma cut_mark_valid a b : utf8 (cut_mark a b).
Proof. apply ascii_text_valid. ascii_solve. Qed.

Lemma full_output_valid s out err : utf8 (full_output s out err).
Proof.
  assert (forall v, utf8 (lossy v)) as Hl by (intros v; apply lossy_valid; lia).
  unfold full_output. apply utf8_app; [|destruct (success s); [constructor|apply exit_text_valid]].
  match goal with |- utf8 (if is_nil ?r then _ else _) => destruct (is_nil r) end; [by apply ascii_text_valid; repeat constructor|].
  apply utf8_app; [done|]. apply utf8_app; [|done]. destruct (_ && _); [by apply ascii_text_valid; repeat constructor|constructor].
Qed.

(** ** Theorems *)

Lemma from_utf8_valid v : utf8 v -> is_ok (from_utf8 v) = true.
Proof. intros H. unfold from_utf8. by rewrite (validation_accepts v H (length v) 0). Qed.

(** What a command is meant to be answered with: both streams, the second behind a line of its own,
    and how the command ended unless it succeeded. *)
Definition report (s : ExitStatus) (stdout stderr : list Z) : list Z :=
  match stdout, stderr with
  | [], [] => NO_OUTPUT
  | _, [] => stdout
  | [], _ => stderr
  | _, _ => stdout ++ STDERR_MARK ++ stderr
  end ++ (if decide (exit_code s = Some 0%Z) then [] else exit_text s).

Lemma lossy_id v : utf8 v -> lossy v = v.
Proof. intros Hv. unfold lossy. simpl. by rewrite (validation_accepts v Hv) by done. Qed.

Lemma full_output_report s stdout stderr : utf8 stdout -> utf8 stderr -> full_output s stdout stderr = report s stdout stderr.
Proof.
  intros Ho He. unfold full_output, report. rewrite !lossy_id by done. unfold success.
  case_bool_decide; case_decide; try done; destruct stdout, stderr; simpl; by rewrite ?app_nil_r.
Qed.

(** The cut of a text that is too long. *)
Lemma truncate_cases max_chars full :
  utf8 full -> let out := truncate_output max_chars full in
  utf8 out /\ ((length full <= max_chars)%nat -> out = full) /\
  ((max_chars < length full)%nat -> exists h t, (h < t <= length full)%nat /\ (h + (length full - t) <= max_chars)%nat /\
     out = take h full ++ cut_mark (t - h) (length full) ++ drop t full).
Proof.
  intros Hv. cbv zeta. unfold truncate_output. destruct (Nat.ltb_spec max_chars (length full)) as [Hlt|Hge]; [|split_and!; [done|done|lia]].
  cbv zeta. set (h := head_boundary full _). set (t := tail_boundary _ _ _).
  destruct (head_boundary_spec full ((max_chars / 2) `min` length full)) as [Hh Hhb]. fold h in Hh, Hhb.
  pose proof (Nat.div_le_upper_bound max_chars 2 max_chars ltac:(lia) ltac:(lia)) as Hhalf.
  destruct (tail_boundary_spec (length full) full ((length full - (max_chars - max_chars / 2)) `max` h) ltac:(lia) ltac:(lia)) as [Ht Htb]. fold t in Ht, Htb.
  destruct (Nat.leb_spec t h); [lia|]. destruct (split_valid full h Hv Hhb) as [H1 _]. destruct (split_valid full t Hv Htb) as [_ H2].
  split_and!; [|lia|].
  - apply utf8_app; [done|]. by apply utf8_app; [apply cut_mark_valid|].
  - intros _. exists h, t. split_and!; [lia|lia|lia|done].
Qed.


(** A successful command that writes more than the limit, all of it ASCII: what is sent is cut off without
    any mark, for the limit on reading applies before the length is looked at. *)
Theorem long_output_cut_silently max_chars stdout :
  Forall (fun b => utf8_char_width b = 1%nat) stdout -> (0 < max_chars < length stdout)%nat ->
  command_output max_chars {| exit_code := Some 0%Z |} stdout [] = take max_chars stdout.
Proof.
  intros Ha Hlen. unfold command_output, read_capped. rewrite take_nil.
  assert (lossy (take max_chars stdout) = take max_chars stdout) as Hl.
  { by apply lossy_id, ascii_valid, Forall_take. }
  assert (full_output {| exit_code := Some 0%Z |} (take max_chars stdout) [] = take max_chars stdout) as ->.
  { unfold full_output. rewrite Hl. cbn [lossy length from_utf8_lossy run_utf8_validation is_nil negb andb app]. rewrite !app_nil_r.
    destruct (take max_chars stdout) eqn:E; [|done]. apply (f_equal length) in E. rewrite length_take in E. simpl in E. lia. }
  unfold truncate_output. rewrite length_take. destruct (Nat.ltb_spec max_chars (max_chars `min` length stdout)); [lia|done].
Qed.
