(* ===== verification/Summary.v ===== *)
(** * Monitoring summaries and the hash of static data

    [ng-monitoring/src/data_structure.rs]: the data an agent collects, its summary
    ([from_with_filter]) with the disks and interfaces that count, and the canonical text the
    hash of static data is taken of. *)
From Stdlib Require Import SpecFloat Ascii.
From stdpp Require Import base strings gmap list numbers sorting.
From S2P Require Import Prelude Errors Json Permission TokenCache LastCache SnapshotQuery NgConfig.

(** ** The data *)

Record DynamicPerCpuCoreData : Type := { core_id : Z; core_cpu_usage : f64; core_frequency_mhz : Z }.
Record DynamicCPUData : Type := { cpu_per_core : list DynamicPerCpuCoreData; total_cpu_usage : f64 }.
Record DynamicRamData : Type := {
  ram_total_memory : Z; ram_available_memory : Z; ram_used_memory : Z; ram_total_swap : Z; ram_used_swap : Z }.
Record DynamicLoadData : Type := { load_one : f64; load_five : f64; load_fifteen : f64 }.
Record DynamicSystemData : Type := { sys_boot_time : Z; sys_uptime : Z; sys_process_count : Z; sys_boot_id : option string }.
Inductive DiskKind : Type := Hdd | Ssd | DiskUnknown.
Record DynamicPerDiskData : Type := {
  disk_kind : DiskKind; disk_name : string; disk_file_system : string; disk_mount_point : string; disk_total_space : Z;
  disk_available_space : Z; disk_is_removable : bool; disk_is_read_only : bool; disk_read_speed : Z; disk_write_speed : Z }.
Record DynamicPerNetworkInterfaceData : Type := {
  if_name : string; if_total_received : Z; if_total_transmitted : Z; if_receive_speed : Z; if_transmit_speed : Z;
  if_ifindex : option Z; if_is_outlet : option bool }.
Record DynamicNetworkData : Type := {
  net_interfaces : list DynamicPerNetworkInterfaceData; net_udp_connections : Z; net_tcp_connections : Z }.
Record DynamicGpuData : Type := {
  gpu_id : Z; gpu_used_memory : Z; gpu_total_memory : Z; gpu_graphics_clock_mhz : Z; gpu_sm_clock_mhz : Z;
  gpu_memory_clock_mhz : Z; gpu_video_clock_mhz : Z; gpu_utilization_gpu : Z; gpu_utilization_memory : Z; gpu_temperature : Z }.
Record Collected : Type := {
  co_uuid : Uuid; co_time : Z; co_cpu : DynamicCPUData; co_ram : DynamicRamData; co_load : DynamicLoadData;
  co_system : DynamicSystemData; co_disk : list DynamicPerDiskData; co_network : DynamicNetworkData; co_gpu : list DynamicGpuData }.

(** ** What counts *)

Definition VIRTUAL_INTERFACE_PREFIXES : list string := [
  "br"; "cni"; "docker"; "podman"; "flannel"; "lo"; "veth"; "virbr"; "vmbr"; "tap"; "fwbr"; "fwpr"; "fwln"; "tun"; "vnet"; "kube";
  "tailscale"; "Meta"; "wg"; "ppp"; "zt"]%string.

Definition EXCLUDED_MOUNT_PREFIXES : list string := [
  "/tmp"; "/var/tmp"; "/dev"; "/run"; "/var/lib/containerd"; "/var/lib/containers"; "/var/lib/docker"; "/var/lib/kubelet/plugins";
  "/var/lib/kubelet/plugins_registry"; "/var/lib/kubelet/pods"; "/var/lib/rancher/k3s/agent/containerd";
  "/var/lib/rancher/k3s/agent/kubelet/plugins"; "/var/lib/rancher/k3s/agent/kubelet/plugins_registry";
  "/var/lib/rancher/k3s/agent/kubelet/pods"; "/proc"; "/sys"; "/sys/fs/cgroup"; "/etc/resolv.conf"; "/etc/host"; "/etc/hostname";
  "/etc/hosts"; "/nix/store"]%string.

Definition EXCLUDED_FILE_SYSTEMS : list string := [
  "autofs"; "bpf"; "cgroup"; "cgroup2"; "debugfs"; "devtmpfs"; "fusectl"; "nsfs"; "overlay"; "proc"; "pstore"; "securityfs"; "squashfs";
  "sysfs"; "tmpfs"; "tracefs"]%string.

Definition is_virtual_interface (name : string) : bool := existsb (starts_with name) VIRTUAL_INTERFACE_PREFIXES.

Definition mount_point_matches_prefix (mount_point prefix : string) : bool :=
  String.eqb mount_point prefix ||
  match strip_prefix prefix mount_point with Some rest => starts_with rest "/" | None => false end.

Definition is_excluded_mount (mount_point : string) : bool := existsb (mount_point_matches_prefix mount_point) EXCLUDED_MOUNT_PREFIXES.
Definition is_excluded_file_system (file_system : string) : bool := existsb (eq_ignore_ascii_case file_system) EXCLUDED_FILE_SYSTEMS.
Definition is_excluded_summary_disk (disk : DynamicPerDiskData) : bool :=
  is_excluded_mount (disk_mount_point disk) || is_excluded_file_system (disk_file_system disk).

(** The configured selection; without one, or with an empty one, the default. *)
Definition selected {A} (select : option (list string)) (key : A -> string) (default : A -> bool) (l : list A) : list A :=
  match select with
  | Some (x :: xs) => List.filter (fun a => existsb (fun s => String.eqb s (key a)) (x :: xs)) l
  | _ => List.filter default l
  end.

Definition counts_by_default (i : DynamicPerNetworkInterfaceData) : bool :=
  match if_is_outlet i with Some b => b | None => negb (is_virtual_interface (if_name i)) end.

(** ** Numbers *)

Definition u64_to_i64_saturating (v : Z) : Z := if (v <=? i64_max)%Z then v else i64_max.
Definition u64_to_i32_saturating (v : Z) : Z := if (v <=? i32_max)%Z then v else i32_max.

Definition is_finite (x : f64) : bool := match x with S754_zero _ | S754_finite _ _ _ => true | _ => false end.

(** The value is [m * 2^e]: its comparison with an integer, and [as] to an integer, toward zero. *)
Definition below_int (s : bool) (m : positive) (e z : Z) : bool :=
  let v := if s then Zneg m else Zpos m in
  if (0 <=? e)%Z then (v * 2 ^ e <? z)%Z else (v <? z * 2 ^ (- e))%Z.
Definition above_int (s : bool) (m : positive) (e z : Z) : bool :=
  let v := if s then Zneg m else Zpos m in
  if (0 <=? e)%Z then (z <? v * 2 ^ e)%Z else (z * 2 ^ (- e) <? v)%Z.
Definition truncated (s : bool) (m : positive) (e : Z) : Z :=
  let v := if s then Zneg m else Zpos m in
  if (0 <=? e)%Z then (v * 2 ^ e)%Z else Z.quot v (2 ^ (- e)).

(** [x.clamp(lo, hi) as i16]; a NaN is 0. *)
Definition clamp_to (lo hi : Z) (x : f64) : Z :=
  match x with
  | S754_nan => 0%Z
  | S754_infinity s => if s then lo else hi
  | S754_zero _ => if (0 <? lo)%Z then lo else if (hi <? 0)%Z then hi else 0%Z
  | S754_finite s m e => if below_int s m e lo then lo else if above_int s m e hi then hi else truncated s m e
  end.

Definition times_ten (x : f64) : f64 := SFmul 53 1024 x (f64_of_int 10).
Definition scale_cpu_percent_to_i16 (percent : f64) : option Z :=
  if is_finite percent then Some (clamp_to 0 1000 (times_ten percent)) else None.
Definition scale_load_to_i16 (load : f64) : option Z :=
  if is_finite load then Some (clamp_to i16_min i16_max (times_ten load)) else None.

Example scale_cpu : scale_cpu_percent_to_i16 (f64_of_bits 0x4049400000000000) = Some 505%Z.
Proof. reflexivity. Qed.

Definition from_with_filter (data : Collected) (select_disk select_network_interface : option (list string)) : DynamicMonitoringSummaryData :=
  let disks := selected select_disk disk_mount_point (fun d => negb (is_excluded_summary_disk d)) (co_disk data) in
  let ifaces := selected select_network_interface if_name counts_by_default (net_interfaces (co_network data)) in
  let disk_sum f := Some (u64_to_i64_saturating (sum_u64 (map f disks))) in
  let net_sum f := Some (u64_to_i64_saturating (sum_u64 (map f ifaces))) in
  {| su_uuid := co_uuid data; su_time := co_time data;
     su_cpu_usage := scale_cpu_percent_to_i16 (total_cpu_usage (co_cpu data));
     su_gpu_usage := option_map gpu_utilization_gpu (head (co_gpu data));
     su_used_swap := Some (u64_to_i64_saturating (ram_used_swap (co_ram data)));
     su_total_swap := Some (u64_to_i64_saturating (ram_total_swap (co_ram data)));
     su_used_memory := Some (u64_to_i64_saturating (ram_used_memory (co_ram data)));
     su_total_memory := Some (u64_to_i64_saturating (ram_total_memory (co_ram data)));
     su_available_memory := Some (u64_to_i64_saturating (ram_available_memory (co_ram data)));
     su_load_one := scale_load_to_i16 (load_one (co_load data));
     su_load_five := scale_load_to_i16 (load_five (co_load data));
     su_load_fifteen := scale_load_to_i16 (load_fifteen (co_load data));
     su_uptime := Some (u64_to_i32_saturating (sys_uptime (co_system data)));
     su_boot_time := Some (u64_to_i64_saturating (sys_boot_time (co_system data)));
     su_process_count := Some (u64_to_i32_saturating (sys_process_count (co_system data)));
     su_total_space := disk_sum disk_total_space; su_available_space := disk_sum disk_available_space;
     su_read_speed := disk_sum disk_read_speed; su_write_speed := disk_sum disk_write_speed;
     su_tcp_connections := Some (u64_to_i32_saturating (net_tcp_connections (co_network data)));
     su_udp_connections := Some (u64_to_i32_saturating (net_udp_connections (co_network data)));
     su_total_received := net_sum if_total_received; su_total_transmitted := net_sum if_total_transmitted;
     su_transmit_speed := net_sum if_transmit_speed; su_receive_speed := net_sum if_receive_speed |}.

(** ** Summaries fit their columns *)

Lemma clamp_range lo hi x : (lo <= 0 <= hi)%Z -> (lo <= clamp_to lo hi x <= hi)%Z.
Proof.
  intros H. destruct x as [s|s| |s m e]; simpl; [repeat case_match; lia|destruct s; lia|lia|].
  destruct (below_int s m e lo) eqn:Eb; [lia|]. destruct (above_int s m e hi) eqn:Ea; [lia|].
  unfold below_int, above_int, truncated in *. set (v := if s then Zneg m else Zpos m) in *.
  destruct (Z.leb_spec 0 e) as [He|He]; [apply Z.ltb_ge in Eb, Ea; lia|]. apply Z.ltb_ge in Eb, Ea.
  assert (0 < 2 ^ (- e))%Z as Hd by (apply Z.pow_pos_nonneg; lia). set (d := (2 ^ (- e))%Z) in *.
  destruct (Z.le_gt_cases 0 v) as [Hv|Hv].
  - rewrite Z.quot_div_nonneg by lia. split; [pose proof (Z.div_pos v d Hv Hd); lia|].
    apply Z.div_le_upper_bound; lia.
  - replace v with (- (- v))%Z by lia. rewrite Z.quot_opp_l, Z.quot_div_nonneg by lia.
    pose proof (Z.div_pos (- v) d ltac:(lia) Hd). split; [|lia].
    assert ((- v) / d <= - lo)%Z by (apply Z.div_le_upper_bound; lia). lia.
Qed.

Definition opt_in (P : Z -> Prop) (o : option Z) : Prop := forall z, o = Some z -> P z.

(** The columns of [dynamic_monitoring_summary]. *)
Record summary_fits (su : DynamicMonitoringSummaryData) : Prop := {
  fits_i16 : Forall (opt_in in_i16) [su_cpu_usage su; su_gpu_usage su; su_load_one su; su_load_five su; su_load_fifteen su];
  fits_i32 : Forall (opt_in in_i32) [su_uptime su; su_process_count su; su_tcp_connections su; su_udp_connections su];
  fits_i64 : Forall (opt_in in_i64) [su_used_swap su; su_total_swap su; su_used_memory su; su_total_memory su; su_available_memory su;
    su_boot_time su; su_total_space su; su_available_space su; su_read_speed su; su_write_speed su; su_total_received su;
    su_total_transmitted su; su_transmit_speed su; su_receive_speed su];
  fits_percent : opt_in (fun z => 0 <= z <= 1000)%Z (su_cpu_usage su);
}.

(** The machine types of the collected numbers that reach the summary. *)
Record collected_ok (d : Collected) : Prop := {
  col_ram : Forall in_u64 [ram_used_swap (co_ram d); ram_total_swap (co_ram d); ram_used_memory (co_ram d); ram_total_memory (co_ram d); ram_available_memory (co_ram d)];
  col_system : Forall in_u64 [sys_uptime (co_system d); sys_boot_time (co_system d); sys_process_count (co_system d);
    net_tcp_connections (co_network d); net_udp_connections (co_network d)];
  col_gpu : Forall (fun g => 0 <= gpu_utilization_gpu g <= 255)%Z (co_gpu d);
  col_disk : Forall (fun x => Forall in_u64 [disk_total_space x; disk_available_space x; disk_read_speed x; disk_write_speed x]) (co_disk d);
  col_net : Forall (fun i => Forall in_u64 [if_total_received i; if_total_transmitted i; if_receive_speed i; if_transmit_speed i])
    (net_interfaces (co_network d));
}.

Lemma sum_u64_range l : in_u64 (sum_u64 l).
Proof.
  unfold sum_u64. assert (in_u64 0) as H0 by (unfold in_u64, u64_max; lia). revert H0. generalize 0%Z.
  induction l as [|x l IH]; intros a Ha; simpl; [done|]. apply IH. unfold in_u64, u64_max.
  pose proof (Z.mod_pos_bound (a + x) 18446744073709551616 ltac:(lia)). change (2 ^ 64)%Z with 18446744073709551616%Z. lia.
Qed.

Lemma sat_i64 v : in_u64 v -> opt_in in_i64 (Some (u64_to_i64_saturating v)).
Proof. intros [H _] z [= <-]. unfold u64_to_i64_saturating, in_i64, i64_min, i64_max in *. destruct (Z.leb_spec v 9223372036854775807); lia. Qed.
Lemma sat_i32 v : in_u64 v -> opt_in in_i32 (Some (u64_to_i32_saturating v)).
Proof. intros [H _] z [= <-]. unfold u64_to_i32_saturating, in_i32, i32_min, i32_max in *. destruct (Z.leb_spec v 2147483647); lia. Qed.

Lemma cpu_range x : opt_in (fun z => 0 <= z <= 1000)%Z (scale_cpu_percent_to_i16 x).
Proof. intros z. unfold scale_cpu_percent_to_i16. destruct (is_finite x); [|done]. intros [= <-]. apply clamp_range. lia. Qed.
Lemma load_range x : opt_in in_i16 (scale_load_to_i16 x).
Proof.
  intros z. unfold scale_load_to_i16. destruct (is_finite x); [|done]. intros [= <-]. unfold in_i16, i16_min, i16_max.
  pose proof (clamp_range (-32768) 32767 (times_ten x)). lia.
Qed.

#[local] Hint Resolve sat_i64 sat_i32 sum_u64_range load_range : nodeget.

(** ** What is summed *)

Definition plain_sum (l : list Z) : Z := fold_right Z.add 0%Z l.

Lemma sum_u64_plain l : Forall (fun z => 0 <= z)%Z l -> (plain_sum l < 2 ^ 64)%Z -> sum_u64 l = plain_sum l.
Proof.
  intros Hp. unfold sum_u64. assert (forall a, 0 <= a -> a + plain_sum l < 2 ^ 64 -> fold_left (fun a b => (a + b) mod 2 ^ 64) l a = a + plain_sum l)%Z as H.
  { induction Hp as [|x l Hx Hl IH]; intros a Ha Hlt; simpl in *; [lia|].
    assert (0 <= plain_sum l)%Z by (clear -Hl; induction Hl; simpl; lia). rewrite Z.mod_small by lia. rewrite IH by lia. lia. }
  intros Hlt. rewrite H by lia. lia.
Qed.

Lemma sat_min v : u64_to_i64_saturating v = Z.min v i64_max.
Proof. unfold u64_to_i64_saturating. destruct (Z.leb_spec v i64_max); lia. Qed.
Lemma sat_min_32 v : u64_to_i32_saturating v = Z.min v i32_max.
Proof. unfold u64_to_i32_saturating. destruct (Z.leb_spec v i32_max); lia. Qed.

(** A column that holds the total over a list: exact up to [i64::MAX], which stands for anything above. *)
Definition totals {A} (f : A -> Z) (l : list A) (column : option Z) : Prop :=
  (plain_sum (map f l) < 2 ^ 64)%Z -> column = Some (Z.min (plain_sum (map f l)) i64_max).

Lemma totals_sum {A} (f : A -> Z) l : Forall (fun x => in_u64 (f x)) l -> totals f l (Some (u64_to_i64_saturating (sum_u64 (map f l)))).
Proof.
  intros Hp Hlt. rewrite sum_u64_plain; [by rewrite sat_min| |done]. apply Forall_fmap. eapply Forall_impl; [exact Hp|].
  intros x [? _]. done.
Qed.

(** [l'] are the elements of [l] that satisfy [P], in order. *)
Inductive picked {A} (P : A -> Prop) : list A -> list A -> Prop :=
| picked_nil : picked P [] []
| picked_in a l l' : P a -> picked P l l' -> picked P (a :: l) (a :: l')
| picked_out a l l' : ~ P a -> picked P l l' -> picked P (a :: l) l'.

Lemma picked_filter {A} (P : A -> Prop) (f : A -> bool) l : (forall a, f a = true <-> P a) -> picked P l (List.filter f l).
Proof.
  intros H. induction l as [|a l IH]; simpl; [constructor|]. destruct (f a) eqn:E; [apply picked_in|apply picked_out]; try done.
  - by apply H.
  - rewrite <-H, E. done.
Qed.

(** A selection by name, or a rule of its own where none is configured. *)
Definition chosen {A} (select : option (list string)) (key : A -> string) (by_default : A -> Prop) (a : A) : Prop :=
  match select with Some (x :: xs) => key a ∈ x :: xs | _ => by_default a end.

Lemma selected_picked {A} sel (key : A -> string) default (P : A -> Prop) l :
  (forall a, default a = true <-> P a) -> picked (chosen sel key P) l (selected sel key default l).
Proof.
  intros H. unfold selected, chosen. destruct sel as [[|x xs]|]; apply picked_filter; try done. intros a.
  rewrite existsb_exists. split.
  - intros (s & Hs & ->%String.eqb_eq). by apply list_elem_of_In.
  - intros Hs. exists (key a). split; [by apply list_elem_of_In|]. apply String.eqb_refl.
Qed.

Lemma picked_Forall {A} (P Q : A -> Prop) l l' : picked P l l' -> Forall Q l -> Forall Q l'.
Proof. induction 1; intros HQ; [done|..]; apply Forall_cons in HQ as [? ?]; auto. Qed.

Lemma strip_prefix_spec p s r : strip_prefix p s = Some r <-> s = p +:+ r.
Proof.
  revert s. induction p as [|c p IH]; intros s; simpl; [split; [by intros [= ->]|by intros ->]|].
  destruct s as [|d s]; [by split|]. destruct (Ascii.eqb_spec c d) as [->|Hne].
  - rewrite IH. split; [by intros ->|by intros [= ->]].
  - split; [done|by intros [= -> _]].
Qed.

Lemma matches_prefix_spec m p : mount_point_matches_prefix m p = true <-> m = p \/ exists rest, m = p +:+ "/" +:+ rest.
Proof.
  unfold mount_point_matches_prefix. rewrite orb_true_iff, String.eqb_eq. apply or_iff_compat_l.
  split.
  - destruct (strip_prefix p m) as [r|] eqn:E; [|done]. intros [rest ->]%starts_with_spec. exists rest. by apply strip_prefix_spec in E.
  - intros [rest E%strip_prefix_spec]. rewrite E. apply starts_with_spec. by exists rest.
Qed.

(** A disk that counts by default: not mounted on or below an excluded place, its file system not an excluded one. *)
Definition ordinary_disk (x : DynamicPerDiskData) : Prop :=
  (forall p, p ∈ EXCLUDED_MOUNT_PREFIXES -> disk_mount_point x <> p /\ forall rest, disk_mount_point x <> p +:+ "/" +:+ rest) /\
  (forall f, f ∈ EXCLUDED_FILE_SYSTEMS -> eq_ignore_ascii_case (disk_file_system x) f = false).

(** An interface that counts by default: an outlet, or, where the agent does not know, one whose name does not begin like
    that of a virtual one. *)
Definition ordinary_interface (i : DynamicPerNetworkInterfaceData) : Prop :=
  if_is_outlet i = Some true \/
  (if_is_outlet i = None /\ forall p rest, p ∈ VIRTUAL_INTERFACE_PREFIXES -> if_name i <> p +:+ rest).

Lemma excluded_disk_spec x : negb (is_excluded_summary_disk x) = true <-> ordinary_disk x.
Proof.
  unfold is_excluded_summary_disk, ordinary_disk. rewrite negb_true_iff, orb_false_iff.
  unfold is_excluded_mount, is_excluded_file_system. rewrite <- !not_true_iff_false, !existsb_exists. setoid_rewrite <- list_elem_of_In.
  setoid_rewrite matches_prefix_spec. split; intros [H1 H2]; split.
  - intros p Hp. split; [|intros rest]; intros E; apply H1; eauto.
  - intros f Hf. apply not_true_iff_false. eauto.
  - intros (p & Hp & [E|[rest E]]); destruct (H1 p Hp) as [H3 H4]; [done|by eapply H4].
  - intros (f & Hf & E). by rewrite (H2 f Hf) in E.
Qed.

Lemma counts_spec i : counts_by_default i = true <-> ordinary_interface i.
Proof.
  unfold counts_by_default, ordinary_interface. destruct (if_is_outlet i) as [[]|]; [naive_solver..|].
  unfold is_virtual_interface. rewrite negb_true_iff, <-not_true_iff_false, existsb_exists. setoid_rewrite <- list_elem_of_In. split.
  - intros H. right. split; [done|]. intros p rest Hp E. apply H. exists p. split; [done|]. apply starts_with_spec. eauto.
  - intros [?|[_ H]]; [done|]. intros (p & Hp & [rest E]%starts_with_spec). by eapply H.
Qed.

Lemma cpu_fits x : opt_in in_i16 (scale_cpu_percent_to_i16 x).
Proof. intros z Hz. apply cpu_range in Hz. unfold in_i16, i16_min, i16_max. lia. Qed.
Lemma gpu_fits l : Forall (fun g => 0 <= gpu_utilization_gpu g <= 255)%Z l -> opt_in in_i16 (option_map gpu_utilization_gpu (head l)).
Proof. intros Hl z Hz. destruct Hl as [|g l Hg Hl]; [done|]. simplify_eq/=. unfold in_i16, i16_min, i16_max. lia. Qed.

#[local] Hint Resolve cpu_range cpu_fits gpu_fits : nodeget.

Lemma fits_all d sel_disk sel_net : collected_ok d -> summary_fits (from_with_filter d sel_disk sel_net).
Proof.
  intros [Hram Hsys Hgpu _ _]. rewrite !Forall_cons in Hram, Hsys. destruct_and!.
  split; simpl; repeat first [apply Forall_nil_2 | apply Forall_cons_2]; auto with nodeget.
Qed.


Definition disk_at (mount fs : string) (size free : Z) : DynamicPerDiskData :=
  {| disk_kind := Ssd; disk_name := "sda"; disk_file_system := fs; disk_mount_point := mount; disk_total_space := size;
     disk_available_space := free; disk_is_removable := false; disk_is_read_only := false; disk_read_speed := 0; disk_write_speed := 0 |}.
Definition iface (name : string) (outlet : option bool) (rx tx : Z) : DynamicPerNetworkInterfaceData :=
  {| if_name := name; if_total_received := rx; if_total_transmitted := tx; if_receive_speed := 0; if_transmit_speed := 0;
     if_ifindex := None; if_is_outlet := outlet |}.
Definition sample_data : Collected :=
  {| co_uuid := 7%N; co_time := 1000; co_cpu := {| cpu_per_core := []; total_cpu_usage := f64_of_bits 0x4049400000000000 |};
     co_ram := {| ram_total_memory := 64; ram_available_memory := 32; ram_used_memory := 32; ram_total_swap := 0; ram_used_swap := 0 |};
     co_load := {| load_one := S754_nan; load_five := f64_of_int 1; load_fifteen := S754_zero false |};
     co_system := {| sys_boot_time := 1; sys_uptime := 5000000000; sys_process_count := 3; sys_boot_id := None |};
     co_disk := [disk_at "/" "ext4" 100 40; disk_at "/run/user" "ext4" 7 7; disk_at "/data" "TmpFS" 8 8; disk_at "/runner" "xfs" 20 1];
     co_network := {| net_interfaces := [iface "eth0" None 10 20; iface "docker0" None 1000 1000; iface "eth1" (Some false) 5 5];
                      net_udp_connections := 1; net_tcp_connections := 2 |};
     co_gpu := [] |}.


(** ** The hash of static data *)

Record StaticPerCpuCoreData : Type := { sc_id : Z; sc_name : string; sc_vendor_id : string; sc_brand : string }.
Record StaticCPUData : Type := { physical_cores : Z; logical_cores : Z; sc_per_core : list StaticPerCpuCoreData }.
Record StaticSystemData : Type := {
  system_name : string; system_kernel : string; system_kernel_version : string; system_os_version : string;
  system_os_long_version : string; distribution_id : string; system_host_name : string; arch : string; virtualization : string }.
Record StaticGpuData : Type := { sg_id : Z; sg_name : string; sg_cuda_cores : Z; sg_architecture : string }.

Definition num (z : Z) : Json := JNum (NumInt z).
Definition core_value (c : StaticPerCpuCoreData) : Json :=
  JObject [("id", num (sc_id c)); ("name", JString (sc_name c)); ("vendor_id", JString (sc_vendor_id c)); ("brand", JString (sc_brand c))]%string.
Definition cpu_value (c : StaticCPUData) : Json :=
  JObject [("physical_cores", num (physical_cores c)); ("logical_cores", num (logical_cores c)); ("per_core", JArray (map core_value (sc_per_core c)))]%string.
Definition system_value (s : StaticSystemData) : Json :=
  JObject [("system_name", JString (system_name s)); ("system_kernel", JString (system_kernel s));
    ("system_kernel_version", JString (system_kernel_version s)); ("system_os_version", JString (system_os_version s));
    ("system_os_long_version", JString (system_os_long_version s)); ("distribution_id", JString (distribution_id s));
    ("system_host_name", JString (system_host_name s)); ("arch", JString (arch s)); ("virtualization", JString (virtualization s))]%string.
Definition gpu_value (g : StaticGpuData) : Json :=
  JObject [("id", num (sg_id g)); ("name", JString (sg_name g)); ("cuda_cores", num (sg_cuda_cores g)); ("architecture", JString (sg_architecture g))]%string.

Section Hash.
  (** [serde_json::to_writer] on a scalar or a key, and SHA-256. *)
  Variable to_writer : Json -> string.
  Variable sha256 : string -> list Z.

Fixpoint write_canonical_json (v : Json) : string :=
  match v with
  | JObject map_ =>
      let rendered := map (fun kv => (kv.1, write_canonical_json kv.2)) map_ in
      let keys := merge_sort String.le (map fst map_) in
      "{" +:+ String.concat "," (map (fun k => to_writer (JString k) +:+ ":" +:+ default "" (assoc k rendered)) keys) +:+ "}"
  | JArray arr => "[" +:+ String.concat "," (map write_canonical_json arr) +:+ "]"
  | other => to_writer other
  end.

Definition compute_data_hash (cpu : StaticCPUData) (system : StaticSystemData) (gpu : list StaticGpuData) : list Z :=
  let nl := String "010"%char EmptyString in
  take 16 (sha256 (write_canonical_json (cpu_value cpu) +:+ nl +:+ write_canonical_json (system_value system) +:+ nl +:+
    write_canonical_json (JArray (map gpu_value gpu)))).

(** The same value with the members of its objects in another order. *)
Inductive json_equiv : Json -> Json -> Prop :=
| equiv_same v : json_equiv v v
| equiv_array l l' : Forall2 json_equiv l l' -> json_equiv (JArray l) (JArray l')
| equiv_object o p o' : NoDup (map fst o) -> Forall2 (fun a b => a.1 = b.1 /\ json_equiv a.2 b.2) o p -> Permutation p o' ->
    json_equiv (JObject o) (JObject o').

Lemma assoc_perm {A} (o p : list (string * A)) k : NoDup (map fst o) -> Permutation o p -> assoc k o = assoc k p.
Proof using.
  intros Hnd Hp. induction Hp as [|[k1 v1] l l' Hp IH|[k1 v1] [k2 v2] l|l l' l'' H1 IH1 H2 IH2]; simpl in *; [done|..].
  - apply NoDup_cons in Hnd as [_ Hnd]. by rewrite (IH Hnd).
  - destruct (String.eqb_spec k k1) as [E1|], (String.eqb_spec k k2) as [E2|]; try done. simplify_eq.
    apply NoDup_cons in Hnd as [Hn _]. destruct Hn. left.
  - rewrite (IH1 Hnd). apply IH2. by rewrite <- H1.
Qed.

Lemma canonical_order v w : json_equiv v w -> write_canonical_json v = write_canonical_json w.
Proof using.
  revert v w. fix IH 3. intros v w H. destruct H as [v|l l' Hl|o p o' Hnd Hf Hp]; simpl; [done|..].
  - do 3 f_equal. induction Hl as [|x y l l' Hx Hl IHl]; simpl; [done|]. by rewrite (IH _ _ Hx), IHl.
  - assert (map fst o = map fst p /\ map (fun kv => (kv.1, write_canonical_json kv.2)) o = map (fun kv => (kv.1, write_canonical_json kv.2)) p) as [Hk Hv].
    { clear Hnd Hp. induction Hf as [|[k1 v1] [k2 v2] o p Hx Hl IHl]; simpl; [done|]. destruct Hx as [Hk Hv]; simpl in *.
      destruct IHl as [-> ->]. rewrite (IH _ _ Hv), Hk. done. }
    rewrite Hv, Hk in *. assert (merge_sort String.le (map fst p) = merge_sort String.le (map fst o')) as ->.
    { apply (Sorted_unique String.le); [apply (Sorted_merge_sort _)..|]. by rewrite !merge_sort_Permutation, Hp. }
    f_equal. f_equal. f_equal. apply map_ext. intros key. do 3 f_equal. apply assoc_perm; [|by apply Permutation_map].
    by rewrite map_map.
Qed.

End Hash.
