(* ===== verification/StaticHttp.v ===== *)
(** * Static files over HTTP and WebDAV

    [ng-static/src/router.rs] and the routes of [server/src/subcommands/serve.rs] that serve
    files: the file server of a bucket, the bucket at the root of the site, and who gets to the
    WebDAV handler of a bucket. *)
From Stdlib Require Import Ascii.
From stdpp Require Import base strings gmap list numbers pretty.
From S2P Require Import Prelude Errors Db Permission TokenCache TokenCheck KvAuth JsWorker StaticPath StaticFs StaticBucket NgConfig.

(** ** Requests and responses *)

Inductive Method : Type := GET | HEAD | OPTIONS | OtherMethod (name : string).

(** A header value that is not visible ASCII has no text. *)
Record Request : Type := { rq_method : Method; rq_path : string; rq_headers : list (string * option string) }.
Record Response : Type := { rs_status : Z; rs_headers : list (string * string); rs_body : list Z }.

Definition header (name : string) (req : Request) : option (option string) :=
  option_map snd (List.find (fun h => String.eqb (fst h) name) (rq_headers req)).
Definition header_str (value : option (option string)) : option string := mjoin value.

Definition cors_header (cors : bool) : list (string * string) := if cors then [("access-control-allow-origin", "*")]%string else [].
Definition nosniff : string * string := ("x-content-type-options", "nosniff")%string.
Definition plain_text : string * string := ("content-type", "text/plain; charset=utf-8")%string.

Definition build_http_error (status : Z) (message : string) : Response :=
  {| rs_status := status; rs_headers := [plain_text; nosniff]; rs_body := as_bytes message |}.
Definition build_static_error (status : Z) (message : string) (cors : bool) : Response :=
  {| rs_status := status; rs_headers := [plain_text; nosniff] ++ cors_header cors; rs_body := as_bytes message |}.
Definition build_webdav_error (status : Z) (message : string) : Response := build_http_error status message.
Definition build_webdav_auth_required : Response :=
  {| rs_status := 401;
     rs_headers := [("www-authenticate", "Basic realm=" +:+ String "034" ("NodeGet Static WebDAV" +:+ String "034" EmptyString)); nosniff]%string;
     rs_body := as_bytes "Authentication required" |}.
Definition method_not_allowed (cors : bool) : Response :=
  {| rs_status := 405; rs_headers := ("allow", "GET, HEAD, OPTIONS")%string :: cors_header cors; rs_body := as_bytes "Method not allowed" |}.
Definition cors_preflight : Response :=
  {| rs_status := 204;
     rs_headers := [("access-control-allow-origin", "*"); ("access-control-allow-methods", "GET, HEAD, OPTIONS");
                    ("access-control-allow-headers", "*")]%string;
     rs_body := [] |}.

(** ** Content types and entity tags *)

(** [Path::extension]: what follows the last dot of the file name, unless that is its first character. *)
Fixpoint rsplit_dot (s : string) : option (string * string) :=
  match s with
  | EmptyString => None
  | String c s' => match rsplit_dot s' with
                   | Some (b, a) => Some (String c b, a)
                   | None => if Ascii.eqb c "." then Some (EmptyString, s') else None
                   end
  end.
Definition extension (path : string) : option string :=
  match last (components path) with
  | Some (Normal name) => match rsplit_dot name with
                          | Some (EmptyString, _) | None => None
                          | Some (_, after) => Some after
                          end
  | _ => None
  end.

Definition guess_mime_type (path : string) : string :=
  match extension path with
  | Some "html"%string | Some "htm"%string => "text/html; charset=utf-8"
  | Some "css"%string => "text/css; charset=utf-8"
  | Some "js"%string => "application/javascript; charset=utf-8"
  | Some "json"%string => "application/json; charset=utf-8"
  | Some "png"%string => "image/png"
  | Some "jpg"%string | Some "jpeg"%string => "image/jpeg"
  | Some "gif"%string => "image/gif"
  | Some "svg"%string => "image/svg+xml"
  | Some "ico"%string => "image/x-icon"
  | Some "woff2"%string => "font/woff2"
  | Some "woff"%string => "font/woff"
  | Some "ttf"%string => "font/ttf"
  | Some "txt"%string => "text/plain; charset=utf-8"
  | Some "xml"%string => "application/xml; charset=utf-8"
  | Some "wasm"%string => "application/wasm"
  | _ => "application/octet-stream"
  end.

Example mime_of_page : guess_mime_type "/srv/a.b/x.min.js" = "application/javascript; charset=utf-8".
Proof. reflexivity. Qed.
Example mime_of_dotfile : guess_mime_type "/srv/.html" = "application/octet-stream".
Proof. reflexivity. Qed.

Fixpoint split_char (c : ascii) (s : string) : list string :=
  match s with
  | EmptyString => [EmptyString]
  | String d s' => if Ascii.eqb d c then EmptyString :: split_char c s'
                   else match split_char c s' with seg :: segs => String d seg :: segs | [] => [String d EmptyString] end
  end.

Definition build_etag (mtime : option Z) (len : Z) : string :=
  String "034" (pretty (unwrap_or 0%Z mtime) +:+ "-" +:+ pretty len +:+ String "034" EmptyString).

Definition if_none_match_is_match (if_none_match : option string) (etag : string) : bool :=
  match if_none_match with
  | None => false
  | Some h =>
      String.eqb (trim h) "*" ||
      existsb (fun part => let p := trim part in String.eqb (unwrap_or p (strip_prefix "W/" p)) etag) (split_char "," h)
  end.

Fixpoint trim_start_slashes (s : string) : string :=
  match s with String "/" s' => trim_start_slashes s' | _ => s end.
Definition file_path_of (path : string) : string :=
  if str_is_empty path || String.eqb path "/" then "index.html" else trim_start_slashes path.

(** [Metadata::modified] in seconds, for a path that exists; [None] when there is none or it is before 1970. *)
Class FsTime (FS : Type) : Type := { fs_mtime : string -> FS -> option Z }.

Section serving.
Context {DB FS : Type} {ops : TableOps DB StaticModel} {fs : FsOps FS} {ft : FsTime FS} {b64 : Base64}.
#[local] Notation W := (SWorld DB FS).

(** The file to serve and its length: the path itself, or a page below it. *)
Definition stat_or_index (cors : bool) (resolved : string) (s : FS) : Response + string * Z :=
  match fs_len resolved s with
  | Ok len => inr (resolved, len)
  | Err e =>
      if is_not_found e then
        let index_html_path := path_push resolved "index.html" in
        match fs_len index_html_path s with
        | Ok len => inr (index_html_path, len)
        | Err _ => inl (build_static_error 404 "File not found" cors)
        end
      else inl (build_static_error 500 ("Failed to stat file: " +:+ io_msg e) cors)
  end.

Definition too_large_text (len : Z) : string :=
  "File too large (" +:+ pretty len +:+ " bytes, max " +:+ pretty MAX_STATIC_FILE_SIZE +:+ "); use WebDAV for large files".

Definition body_of (method : Method) (data : list Z) : list Z := match method with HEAD => [] | _ => data end.

Definition get_or_head (method : Method) : bool := match method with GET | HEAD => true | _ => false end.

(** [serve_static_file] of [ng-static], once the directory of the service is known. *)
Definition respond_with_file (static_path sub_path path : string) (cors : bool) (method : Method) (if_none_match : option string) (s : FS) : Response :=
  match resolve_safe_file_path static_path sub_path (file_path_of path) with
  | Err e => build_static_error 400 (display e) cors
  | Ok resolved =>
      match stat_or_index cors resolved s with
      | inl response => response
      | inr (found, len) =>
          if (MAX_STATIC_FILE_SIZE <? len)%Z then build_static_error 413 (too_large_text len) cors else
          let etag := build_etag (fs_mtime found s) len in
          if if_none_match_is_match if_none_match etag
          then {| rs_status := 304; rs_headers := [("etag", etag); nosniff]%string ++ cors_header cors; rs_body := [] |}
          else match fs_read found s with
               | Err _ => build_static_error 404 "File not found" cors
               | Ok data =>
                   {| rs_status := 200;
                      rs_headers := [("content-type", guess_mime_type found); ("etag", etag);
                                     ("content-length", pretty (Z.of_nat (length data))); nosniff]%string ++ cors_header cors;
                      rs_body := body_of method data |}
               end
      end
  end.

(** [get_static_path] remembers the configured directory the first time. *)
Definition with_static_path {A} (k : string -> FS -> A) (w : W) : W * A :=
  let w' := (get_static_path w).1 in (w', k (effective_path w) (sw_fs w)).

Definition serve_static_file (sub_path path : string) (cors : bool) (method : Method) (if_none_match : option string) (w : W) : W * Response :=
  if get_or_head method then with_static_path (fun static_path s => respond_with_file static_path sub_path path cors method if_none_match s) w
  else (w, method_not_allowed cors).

(** The routes [/nodeget/static/{name}] and [/nodeget/static/{name}/{*path}]. *)
Definition bucket_route (name path : string) (req : Request) (w : W) : W * Response :=
  match sw_cache w with
  | None => (w, build_http_error 500 "StaticCache not initialized")
  | Some cache =>
      match get_by_name cache name with
      | None => (w, build_http_error 404 "Static not found")
      | Some model =>
          if s_enable model then
            if match rq_method req with OPTIONS => s_cors model | _ => false end then (w, cors_preflight)
            else serve_static_file (s_path model) (if str_is_empty path then "/" else path) (s_cors model) (rq_method req)
                   (header_str (header "if-none-match" req)) w
          else (w, build_http_error 404 "Static not found")
      end
  end.

(** ** The root of the site *)

(** [serve_static_file] of [serve.rs]. *)
Definition respond_with_root_file (static_path sub_path path : string) (cors : bool) (method : Method) (if_none_match : option string) (s : FS) : Response :=
  let static_error status message := {| rs_status := status; rs_headers := plain_text :: cors_header cors; rs_body := as_bytes message |} in
  match resolve_safe_file_path static_path sub_path (file_path_of path) with
  | Err e => static_error 400%Z (display e)
  | Ok resolved =>
      let found := match fs_len resolved s with
                   | Ok len => Ok (resolved, len)
                   | Err e => if is_not_found e then
                                let index_html_path := path_push resolved "index.html" in
                                match fs_len index_html_path s with
                                | Ok len => Ok (index_html_path, len)
                                | Err _ => Err (static_error 404%Z "File not found"%string)
                                end
                              else Err (static_error 500%Z ("Failed to stat file: " +:+ io_msg e))
                   end in
      match found with
      | Err response => response
      | Ok (found, len) =>
          let etag := build_etag (fs_mtime found s) len in
          if if_none_match_is_match if_none_match etag
          then {| rs_status := 304; rs_headers := ("etag"%string, etag) :: cors_header cors; rs_body := [] |}
          else match fs_read found s with
               | Err _ => static_error 404%Z "File not found"%string
               | Ok data => {| rs_status := 200; rs_headers := [("content-type", guess_mime_type found); ("etag", etag)]%string ++ cors_header cors;
                               rs_body := body_of method data |}
               end
      end
  end.

Definition serve_root_file (sub_path path : string) (cors : bool) (method : Method) (if_none_match : option string) (w : W) : W * Response :=
  if get_or_head method then with_static_path (fun static_path s => respond_with_root_file static_path sub_path path cors method if_none_match s) w
  else (w, method_not_allowed cors).

(** A request goes to the JSON-RPC service, or is answered here. *)
Inductive Answer : Type := ToRpc | Reply (r : Response).

Definition is_websocket_upgrade (req : Request) : bool :=
  match header_str (header "upgrade" req) with Some v => eq_ignore_ascii_case v "websocket" | None => false end &&
  match header_str (header "connection" req) with
  | Some v => existsb (fun segment => eq_ignore_ascii_case (trim segment) "upgrade") (split_char "," v)
  | None => false
  end.

Definition serve_root (model : StaticModel) (req : Request) (w : W) : W * Answer :=
  let '(w', r) := serve_root_file (s_path model) (rq_path req) (s_cors model) (rq_method req) (header_str (header "if-none-match" req)) w in
  (w', Reply r).

Definition landing (html : string) : Response :=
  {| rs_status := 200; rs_headers := [("content-type", "text/html; charset=utf-8")]%string; rs_body := as_bytes html |}.

(** The routes [/] and [/nodeget/rpc]. *)
Definition handle_rpc_root (landing_html : string) (req : Request) (w : W) : W * Answer :=
  if is_websocket_upgrade req then (w, ToRpc) else
  match rq_method req with
  | GET => match sw_cache w ≫= get_http_root with
           | Some model => if s_enable model then serve_root model req w else (w, Reply (landing landing_html))
           | None => (w, Reply (landing landing_html))
           end
  | _ => (w, ToRpc)
  end.

(** Every path without a route of its own. *)
Definition fallback_route (req : Request) (w : W) : W * Answer :=
  if is_websocket_upgrade req then (w, ToRpc) else
  match sw_cache w ≫= get_http_root with
  | Some model => serve_root model req w
  | None => (w, ToRpc)
  end.

(** ** WebDAV *)

(** A refusal, or the handler that serves the directory. *)
Inductive DavAnswer : Type := DavReply (r : Response) | DavHandled (disk_path : string).

Definition get_or_create_dav_handler (bucket_name disk_path : string) (w : W) : W * string :=
  match sw_dav w !! bucket_name with
  | Some dir => (w, dir)
  | None => (set_dav (<[bucket_name := disk_path]> (sw_dav w)) w, disk_path)
  end.

Definition webdav_bucket (uri_path : string) : string :=
  let relative := match strip_prefix "/nodeget/static-webdav/" uri_path with Some r => r | None => trim_start_slashes uri_path end in
  match split_once "/" relative with Some (name, _) => name | None => relative end.

(** The credentials of [Authorization: Basic]. *)
Definition webdav_credentials (req : Request) : option TokenOrAuth :=
  match header_str (header "authorization" req) with
  | None => None
  | Some auth_str =>
      if negb (starts_with auth_str "Basic ") then None else
      match b64_decode (String.substring 6 (String.length auth_str) auth_str) with
      | Err _ => None
      | Ok bytes =>
          match from_utf8 bytes with
          | Err _ => None
          | Ok credentials =>
              let '(username, password) := match split_once ":" credentials with Some p => p | None => (credentials, EmptyString) end in
              match from_full_token (username +:+ ":" +:+ password) with
              | Ok t => Some t
              | Err _ => match from_full_token (username +:+ "|" +:+ password) with Ok t => Some t | Err _ => None end
              end
          end
      end
  end.

Definition webdav_permissions : list Permission := [
  P_StaticBucketFile StaticBucketFile_Read; P_StaticBucketFile StaticBucketFile_Write;
  P_StaticBucketFile StaticBucketFile_Delete; P_StaticBucketFile StaticBucketFile_List].

Definition static_webdav_handler (e : Env) (req : Request) (w : W) : W * DavAnswer :=
  let name := webdav_bucket (rq_path req) in
  if str_is_empty name then (w, DavReply (build_webdav_error 404 "Missing bucket name in WebDAV URL")) else
  match sw_cache w with
  | None => (w, DavReply (build_webdav_error 500 "StaticCache not initialized"))
  | Some cache =>
      match get_by_name cache name with
      | None => (w, DavReply (build_webdav_error 404 "Static bucket not found"))
      | Some model =>
          if negb (s_enable model) then (w, DavReply (build_webdav_error 404 "Static bucket not found")) else
          match webdav_credentials req with
          | None => (w, DavReply build_webdav_auth_required)
          | Some token_or_auth =>
              match PERMISSION_CHECKER e with
              | None => (w, DavReply (build_webdav_error 500 "PermissionChecker not initialized"))
              | Some checker =>
                  match pc_check_token_limit checker token_or_auth [Scope_StaticBucket name] webdav_permissions with
                  | Ok true =>
                      let w1 := (get_static_path w).1 in
                      let '(w2, dir) := get_or_create_dav_handler name (path_push (effective_path w) (s_path model)) w1 in
                      (w2, DavHandled dir)
                  | _ => (w, DavReply (build_webdav_error 403 "Forbidden: insufficient StaticBucketFile permissions"))
                  end
              end
          end
      end
  end.
End serving.
