(* ===== verification/StaticHttpThms.v ===== *)
(** * What is served, and to whom

    Theorems on [StaticHttp]: every file sent over HTTP is a file of the bucket asked for; the WebDAV
    handler of a bucket is reached only with all its permissions; and the places where the
    two copies of the file server, the enable flag and the comments disagree. *)
From Stdlib Require Import Ascii.
From stdpp Require Import base strings gmap list numbers pretty.
From S2P Require Import Prelude Errors Db Permission TokenCache TokenCheck KvAuth Concrete JsWorker StaticPath StaticFs StaticBucket StaticAdmin NgConfig StaticHttp.

Section theorems.
Context {DB FS : Type} {ops : TableOps DB StaticModel} {fs : FsOps FS} {ft : FsTime FS} {b64 : Base64}.
Context {cwd : list string} {file : FS -> list string -> option (list Z)} {fs_laws : FsLaws fs cwd file}.
#[local] Notation W := (SWorld DB FS).

(** The file a response may carry: one below the directory of the bucket. *)
Definition file_of_bucket (static_path sub_path : string) (s : FS) (data : list Z) : Prop :=
  exists q, under (locate cwd (path_push static_path sub_path)) q /\ file s q = Some data.

Lemma under_index static_path sub_path p resolved :
  resolve_safe_file_path static_path sub_path p = Ok resolved ->
  under (locate cwd (path_push static_path sub_path)) (locate cwd (path_push resolved "index.html")).
Proof using.
  intros Hr%(resolve_under cwd). eapply under_trans; [exact Hr|]. exists ["index.html"%string].
  apply (locate_below cwd (path_push resolved "index.html") resolved ["index.html"%string]).
  apply components_push_normal. vm_compute. done.
Qed.

(** What the look-up of a file finds. *)
Definition found_at (resolved found : string) : Prop := found = resolved \/ found = path_push resolved "index.html".

Lemma found_under static_path sub_path p resolved found :
  resolve_safe_file_path static_path sub_path p = Ok resolved -> found_at resolved found ->
  under (locate cwd (path_push static_path sub_path)) (locate cwd found).
Proof using. intros Hr [->| ->]; [by eapply resolve_under|by eapply under_index]. Qed.

Lemma stat_found cors resolved s found len :
  stat_or_index cors resolved s = inr (found, len) -> found_at resolved found /\ fs_len found s = Ok len.
Proof using.
  unfold stat_or_index, found_at. destruct (fs_len resolved s) as [n|e] eqn:E; [intros [= <- <-]; auto|].
  destruct (is_not_found e); [|done]. destruct (fs_len (path_push resolved "index.html") s) eqn:E'; [|done].
  intros [= <- <-]. auto.
Qed.

Lemma static_error_not_ok status m cors : rs_status (build_static_error status m cors) = status.
Proof using. done. Qed.

Lemma respond_ok static_path sub_path path cors method inm s r :
  respond_with_file static_path sub_path path cors method inm s = r -> rs_status r = 200%Z ->
  exists data, file_of_bucket static_path sub_path s data /\ (Z.of_nat (length data) <= MAX_STATIC_FILE_SIZE)%Z /\
    rs_body r = body_of method data.
Proof using fs_laws.
  unfold respond_with_file. destruct (resolve_safe_file_path _ _ _) as [resolved|e] eqn:Er; [|by intros <-].
  destruct (stat_or_index cors resolved s) as [r'|[found len]] eqn:Es.
  { intros <-. revert Es. unfold stat_or_index. repeat case_match; try done; by intros [= <-]. }
  apply stat_found in Es as [Hf Hl]. destruct (Z.ltb_spec MAX_STATIC_FILE_SIZE len) as [|Hs]; [by intros <-|]. cbv zeta.
  destruct (if_none_match_is_match _ _); [by intros <-|]. destruct (fs_read found s) as [data|] eqn:Ed; [|by intros <-].
  apply fs_read_ok in Ed. intros <- _. exists data. split; [|split; [|done]].
  - exists (locate cwd found). split; [by eapply found_under|done].
  - by rewrite <- (fs_len_ok _ _ _ _ Hl Ed).
Qed.

Lemma respond_root_ok static_path sub_path path cors method inm s r :
  respond_with_root_file static_path sub_path path cors method inm s = r -> rs_status r = 200%Z ->
  exists data, file_of_bucket static_path sub_path s data /\ rs_body r = body_of method data.
Proof using fs_laws.
  unfold respond_with_root_file. destruct (resolve_safe_file_path _ _ _) as [resolved|e] eqn:Er; [|by intros <-].
  match goal with |- context [match ?x with Ok _ => _ | Err _ => _ end = r] => destruct x as [[found len]|r'] eqn:Es end.
  - assert (found_at resolved found) as Hf.
    { revert Es. unfold found_at. repeat case_match; try done; intros [= <- <-]; auto. }
    cbv zeta. destruct (if_none_match_is_match _ _); [by intros <-|]. destruct (fs_read found s) as [data|] eqn:Ed; [|by intros <-].
    apply fs_read_ok in Ed. intros <- _. exists data. split; [|done].
    exists (locate cwd found). split; [by eapply found_under|done].
  - intros <-. revert Es. repeat case_match; try done; by intros [= <-].
Qed.

Lemma with_static_path_run {A} (k : string -> FS -> A) (w w' : W) a :
  with_static_path k w = (w', a) -> only_disk w w' /\ sw_fs w' = sw_fs w /\ sw_dav w' = sw_dav w /\ a = k (effective_path w) (sw_fs w).
Proof using.
  unfold with_static_path. destruct (get_static_path_run w) as (w1 & Hw & Hd & Hf). rewrite Hw. intros [= <- <-].
  split_and!; try done. unfold get_static_path in Hw. destruct (str_is_empty _); by injection Hw as <- _.
Qed.

(** Serving reads the disk and changes nothing but the remembered directory. *)
Definition reads_only (w w' : W) : Prop := only_disk w w' /\ sw_fs w' = sw_fs w /\ sw_dav w' = sw_dav w.

Lemma reads_only_refl w : reads_only w w.
Proof using. by split; [apply only_disk_refl|]. Qed.

Lemma serve_run sub_path path cors method inm (w w' : W) r :
  serve_static_file sub_path path cors method inm w = (w', r) -> reads_only w w' /\
  (rs_status r = 200%Z -> get_or_head method = true /\ exists data, file_of_bucket (effective_path w) sub_path (sw_fs w) data /\
     (Z.of_nat (length data) <= MAX_STATIC_FILE_SIZE)%Z /\ rs_body r = body_of method data).
Proof using fs_laws.
  unfold serve_static_file. destruct (get_or_head method).
  - intros (Hd & Hf & Hv & ->)%with_static_path_run. split; [done|]. intros H. split; [done|]. by eapply respond_ok.
  - intros [= <- <-]. split; [apply reads_only_refl|done].
Qed.

Lemma serve_root_run model req (w w' : W) a :
  serve_root model req w = (w', a) -> reads_only w w' /\ exists r, a = Reply r /\
  (rs_status r = 200%Z -> get_or_head (rq_method req) = true /\ exists data,
     file_of_bucket (effective_path w) (s_path model) (sw_fs w) data /\ rs_body r = body_of (rq_method req) data).
Proof using fs_laws.
  unfold serve_root, serve_root_file. destruct (get_or_head (rq_method req)).
  - destruct (with_static_path _ w) as [w1 r] eqn:E. apply with_static_path_run in E as (Hd & Hf & Hv & ->). intros [= <- <-].
    split; [done|]. eexists. split; [done|]. intros H. split; [done|]. by eapply respond_root_ok.
  - intros [= <- <-]. split; [apply reads_only_refl|]. eexists. split; [done|done].
Qed.

Lemma bucket_route_run name path req (w w' : W) r :
  bucket_route name path req w = (w', r) -> reads_only w w' /\
  (rs_status r = 200%Z -> exists c m data, sw_cache w = Some c /\ get_by_name c name = Some m /\ s_enable m = true /\
     file_of_bucket (effective_path w) (s_path m) (sw_fs w) data /\ (Z.of_nat (length data) <= MAX_STATIC_FILE_SIZE)%Z /\
     get_or_head (rq_method req) = true /\ rs_body r = body_of (rq_method req) data).
Proof using fs_laws.
  unfold bucket_route. destruct (sw_cache w) as [c|] eqn:Ec; [|intros [= <- <-]; split; [apply reads_only_refl|done]].
  destruct (get_by_name c name) as [m|] eqn:Em; [|intros [= <- <-]; split; [apply reads_only_refl|done]].
  destruct (s_enable m) eqn:Ee; [|intros [= <- <-]; split; [apply reads_only_refl|done]].
  destruct (match rq_method req with OPTIONS => s_cors m | _ => false end); [intros [= <- <-]; split; [apply reads_only_refl|done]|].
  intros [Hro H]%serve_run. split; [done|]. intros (Hm & data & Hd & Hl & Hb)%H. by exists c, m, data.
Qed.

Lemma header_none req : header_str (header "if-none-match" req) = None ->
  forall etag, if_none_match_is_match (header_str (header "if-none-match" req)) etag = false.
Proof using. by intros ->. Qed.

(** An enabled bucket answers for a file of at most eight megabytes with the file. *)
Lemma bucket_route_serves name path req (w : W) c m resolved len data :
  sw_cache w = Some c -> get_by_name c name = Some m -> s_enable m = true -> get_or_head (rq_method req) = true ->
  path <> ""%string -> header_str (header "if-none-match" req) = None ->
  resolve_safe_file_path (effective_path w) (s_path m) (file_path_of path) = Ok resolved ->
  fs_len resolved (sw_fs w) = Ok len -> (len <= MAX_STATIC_FILE_SIZE)%Z -> fs_read resolved (sw_fs w) = Ok data ->
  let r := (bucket_route name path req w).2 in
  rs_status r = 200%Z /\ rs_body r = body_of (rq_method req) data /\ ("content-type"%string, guess_mime_type resolved) ∈ rs_headers r.
Proof using.
  intros Hc Hm He Hg Hp Hi Hr Hl Hs Hd. unfold bucket_route. rewrite Hc, Hm, He.
  replace (match rq_method req with OPTIONS => s_cors m | _ => false end) with false by by destruct (rq_method req).
  replace (str_is_empty path) with false by by destruct path. unfold serve_static_file. rewrite Hg.
  unfold with_static_path, respond_with_file. simpl. rewrite Hr. unfold stat_or_index. rewrite Hl.
  destruct (Z.ltb_spec MAX_STATIC_FILE_SIZE len); [lia|]. rewrite (header_none _ Hi), Hd. simpl. split_and!; [done..|left].
Qed.

(** C14: an HTTP request never changes bucket, table or disk.  An answer with status 200 on the route of
    a bucket carries a file of at most eight megabytes below the directory of that bucket, which is enabled, and only its
    headers when the method is HEAD; at the root of the site it carries a file of the bucket with the
    root flag or, on the entry page, the landing page.  An enabled bucket answers every GET
    for such a file with exactly the file, unless the client has it already. *)
Theorem http_serves_own_files name path req html (w : W) :
  (forall w' r, bucket_route name path req w = (w', r) -> reads_only w w' /\
    (rs_status r = 200%Z -> exists c m data, sw_cache w = Some c /\ get_by_name c name = Some m /\ s_enable m = true /\
       file_of_bucket (effective_path w) (s_path m) (sw_fs w) data /\ (Z.of_nat (length data) <= MAX_STATIC_FILE_SIZE)%Z /\
       get_or_head (rq_method req) = true /\ rs_body r = body_of (rq_method req) data)) /\
  (forall w' r, handle_rpc_root html req w = (w', Reply r) \/ fallback_route req w = (w', Reply r) -> reads_only w w' /\
    (rs_status r = 200%Z -> r = landing html \/ exists c m data, sw_cache w = Some c /\ get_http_root c = Some m /\
       file_of_bucket (effective_path w) (s_path m) (sw_fs w) data /\ rs_body r = body_of (rq_method req) data)) /\
  (forall c m resolved len data, sw_cache w = Some c -> get_by_name c name = Some m -> s_enable m = true -> get_or_head (rq_method req) = true ->
    path <> ""%string -> header_str (header "if-none-match" req) = None ->
    resolve_safe_file_path (effective_path w) (s_path m) (file_path_of path) = Ok resolved ->
    fs_len resolved (sw_fs w) = Ok len -> (len <= MAX_STATIC_FILE_SIZE)%Z -> fs_read resolved (sw_fs w) = Ok data ->
    let r := (bucket_route name path req w).2 in
    rs_status r = 200%Z /\ rs_body r = body_of (rq_method req) data /\ ("content-type"%string, guess_mime_type resolved) ∈ rs_headers r).
Proof using fs_laws.
  split; [intros w' r; apply bucket_route_run|]. split; [|intros *; apply bucket_route_serves].
  assert (forall m w' r, sw_cache w ≫= get_http_root = Some m -> serve_root m req w = (w', Reply r) -> reads_only w w' /\
    (rs_status r = 200%Z -> r = landing html \/ exists c m data, sw_cache w = Some c /\ get_http_root c = Some m /\
       file_of_bucket (effective_path w) (s_path m) (sw_fs w) data /\ rs_body r = body_of (rq_method req) data)) as Hroot.
  { intros m w' r Hm (Hro & r' & [= <-] & H)%serve_root_run. split; [done|]. intros (_ & data & Hd & Hb)%H. right.
    apply bind_Some in Hm as (c & Hc & Hm). by exists c, m, data. }
  intros w' r [H|H]; revert H; unfold handle_rpc_root, fallback_route; (destruct (is_websocket_upgrade req); [done|]).
  - destruct (rq_method req) eqn:Eq; try done. destruct (sw_cache w ≫= get_http_root) as [m|] eqn:Em.
    + destruct (s_enable m); [by apply Hroot|]. intros [= <- <-]. split; [apply reads_only_refl|auto].
    + intros [= <- <-]. split; [apply reads_only_refl|auto].
  - destruct (sw_cache w ≫= get_http_root) as [m|] eqn:Em; [by apply Hroot|done].
Qed.

(** The handler of a bucket is reached only while the bucket is enabled and with credentials that have
    all four file permissions for it; it serves the directory of the bucket, unless a
    handler was made before and is still cached. *)
Theorem webdav_guarded e req (w w' : W) dir :
  static_webdav_handler e req w = (w', DavHandled dir) ->
  let name := webdav_bucket (rq_path req) in
  only_disk w w' /\ sw_fs w' = sw_fs w /\
  exists c m t checker, sw_cache w = Some c /\ get_by_name c name = Some m /\ s_enable m = true /\
    webdav_credentials req = Some t /\ PERMISSION_CHECKER e = Some checker /\
    pc_check_token_limit checker t [Scope_StaticBucket name] webdav_permissions = Ok true /\
    (sw_dav w !! name = Some dir \/ sw_dav w !! name = None /\ dir = path_push (effective_path w) (s_path m)).
Proof using.
  unfold static_webdav_handler. set (name := webdav_bucket (rq_path req)). destruct (str_is_empty name); [done|].
  destruct (sw_cache w) as [c|] eqn:Ec; [|done]. destruct (get_by_name c name) as [m|] eqn:Em; [|done].
  destruct (s_enable m) eqn:Ee; [|done]. destruct (webdav_credentials req) as [t|] eqn:Et; [|done].
  destruct (PERMISSION_CHECKER e) as [checker|] eqn:Ep; [|done].
  destruct (pc_check_token_limit checker t _ _) as [[]|] eqn:Ea; [|done..]. simpl.
  destruct (get_static_path_run w) as (w1 & Hw & Hd & Hf). rewrite Hw. simpl.
  assert (sw_dav w1 = sw_dav w) as Hv by (unfold get_static_path in Hw; destruct (str_is_empty _); by injection Hw as <- _).
  unfold get_or_create_dav_handler. rewrite Hv. destruct (sw_dav w !! name) as [d|] eqn:Ed; intros [= <- <-].
  - split_and!; [done..|]. exists c, m, t, checker. split_and!; auto.
  - split_and!; [by destruct Hd; split|done|]. exists c, m, t, checker. split_and!; auto.
Qed.

(** The second attempt to read the credentials is never made: [user:password] is always taken for a
    token, so nobody signs in with a user name and a password, although the comment offers it. *)
Theorem webdav_never_by_password req u p : webdav_credentials req <> Some (Auth_Auth u p).
Proof using.
  assert (forall a b t, from_full_token (a +:+ ":" +:+ b) = Ok t -> t <> Auth_Auth u p) as Ht.
  { intros a b t. unfold from_full_token. destruct (split_once ":" _) as [[k x]|] eqn:E; [by intros [= <-]|].
    apply split_once_None in E. rewrite contains_char_app in E. simpl in E. by rewrite orb_true_r in E. }
  unfold webdav_credentials. destruct (header_str _) as [h|]; [|done]. destruct (starts_with _ _); [|done]. cbn [negb].
  destruct (b64_decode _) as [bytes|]; [|done]. destruct (from_utf8 bytes) as [cr|]; [|done].
  destruct (match split_once ":" cr with Some p0 => p0 | None => (cr, EmptyString) end) as [a b].
  destruct (from_full_token (a +:+ ":" +:+ b)) as [t|] eqn:E; [intros Hs; apply (Ht a b t E); congruence|].
  unfold from_full_token in E. destruct (split_once ":" (a +:+ ":" +:+ b)) as [[k x]|] eqn:E'; [done|].
  apply split_once_None in E'. rewrite contains_char_app in E'. simpl in E'. by rewrite orb_true_r in E'.
Qed.
End theorems.

(** ** A disk with directories *)

(** [metadata] of a directory succeeds; reading it does not. *)
Definition dir_ops (cwd : list string) : FsOps MemFs :=
  let base := mem_ops cwd in {|
    create_dir_all := @create_dir_all _ base; remove_dir_all := @remove_dir_all _ base; fs_exists := @fs_exists _ base;
    fs_write := @fs_write _ base;
    fs_len p s := match mem s !! locate cwd p with
                  | Some d => Ok (Z.of_nat (length d))
                  | None => if @fs_exists _ base p s then Ok 4096%Z else Err enoent
                  end;
    fs_read := @fs_read _ base; remove_file := @remove_file _ base; fs_rename := @fs_rename _ base |}.

Lemma dir_laws cwd : FsLaws (dir_ops cwd) cwd mem_file.
Proof.
  destruct (mem_laws cwd). constructor; try assumption. intros p s n d. cbn [fs_len dir_ops]. unfold mem_file.
  destruct (mem s !! locate cwd p); [|done]. by intros [= <-] [= <-].
Qed.

#[local] Instance http_fs : FsOps MemFs := dir_ops ["srv"%string].
#[local] Instance http_fs_laws : FsLaws http_fs ["srv"%string] mem_file := dir_laws ["srv"%string].
#[local] Instance http_time : FsTime MemFs := {| fs_mtime _ _ := Some 1700000000%Z |}.
#[local] Instance http_b64 : Base64 := {| b64_encode := b64_enc; b64_decode := b64_dec |}.

Definition get_request (path : string) (headers : list (string * option string)) : Request :=
  {| rq_method := GET; rq_path := path; rq_headers := headers |}.

(** The bucket [site] at the root, with a page, and a directory that has one. *)
Definition http_world (enabled : bool) (outages : list bool) : SWorld (ListTable StaticModel) MemFs :=
  let rows := [ {| s_id := 1; s_name := "site"; s_path := "pub/site"; s_is_http_root := true; s_cors := false; s_enable := enabled |} ]%string in
  {| sw_db := Some {| tbl := rows; next_id := 10; outages := outages |}; sw_cache := Some (build_maps rows); sw_dav := ∅;
     sw_static_path := "static"; sw_config := None;
     sw_fs := {| mem := {[ ["srv"; "static"; "pub"; "site"; "page.html"]%string := [104; 105]%Z;
                           ["srv"; "static"; "pub"; "site"; "docs"; "index.html"]%string := [100]%Z ]}; read_only := false |} |}.

Lemma http_serves_own_files_witness :
  let r := (bucket_route "site" "page.html" (get_request "/nodeget/static/site/page.html" []) (http_world true [])).2 in
  rs_status r = 200%Z /\ rs_body r = [104; 105]%Z /\ ("content-type", "text/html; charset=utf-8")%string ∈ rs_headers r.
Proof.
  destruct (http_serves_own_files (cwd := ["srv"%string]) (file := mem_file) "site" "page.html"
    (get_request "/nodeget/static/site/page.html" []) "" (http_world true [])) as (_ & _ & H).
  exact (H _ {| s_id := 1; s_name := "site"; s_path := "pub/site"; s_is_http_root := true; s_cors := false; s_enable := true |}
    "static/pub/site/page.html"%string 2%Z [104; 105]%Z eq_refl eq_refl eq_refl eq_refl ltac:(done) eq_refl eq_refl eq_refl ltac:(done) eq_refl).
Defined.

(** ** Where the code and its comments disagree *)

(** A bucket that is switched off is refused on its own route and on the entry page, but the fallback, which
    serves every other path of the site, does not look at the flag. *)
Theorem disabled_root_served :
  let w := http_world false [] in let req := get_request "/page.html" [] in
  rs_status (bucket_route "site" "page.html" req w).2 = 404%Z /\
  handle_rpc_root "hello" (get_request "/" []) w = (w, Reply (landing "hello")) /\
  match (fallback_route req w).2 with Reply r => rs_status r = 200%Z /\ rs_body r = [104; 105]%Z | ToRpc => False end.
Proof. vm_compute. split_and!; reflexivity. Qed.

(** A directory is found by [metadata], so the page in it is never looked for: the request fails, although both
    comments say that a directory is answered with its [index.html]. *)
Theorem directory_index_unreachable :
  let w := http_world true [] in
  rs_status (bucket_route "site" "docs/index.html" (get_request "" []) w).2 = 200%Z /\
  rs_status (bucket_route "site" "docs" (get_request "" []) w).2 = 404%Z /\
  match (fallback_route (get_request "/docs/" []) w).2 with Reply r => rs_status r = 404%Z | ToRpc => False end.
Proof. vm_compute. split_and!; reflexivity. Qed.

(** On every disk where nothing lies below a path that does not exist, the fallback to [index.html] is dead code. *)
Theorem index_fallback_dead {FS} {fs : FsOps FS} cors resolved (s : FS) found len :
  (forall p n e, fs_len p s = Err e -> is_not_found e = true -> is_ok (fs_len (path_push p n) s) = false) ->
  stat_or_index cors resolved s = inr (found, len) -> found = resolved.
Proof.
  intros Hfs. unfold stat_or_index. destruct (fs_len resolved s) as [n|e] eqn:E; [by intros [= <- _]|].
  destruct (is_not_found e) eqn:En; [|done]. specialize (Hfs resolved "index.html"%string e E En).
  by destruct (fs_len (path_push resolved "index.html") s).
Qed.

(** The copy of the file server for the root of the site has no limit on the size of a file, which the
    other one has to keep large files out of memory. *)
Theorem root_has_no_limit {FS} {fs : FsOps FS} {ft : FsTime FS} static_path sub_path path cors (s : FS) resolved len data :
  resolve_safe_file_path static_path sub_path (file_path_of path) = Ok resolved ->
  fs_len resolved s = Ok len -> fs_read resolved s = Ok data -> (MAX_STATIC_FILE_SIZE < len)%Z ->
  rs_status (respond_with_file static_path sub_path path cors GET None s) = 413%Z /\
  rs_status (respond_with_root_file static_path sub_path path cors GET None s) = 200%Z /\
  rs_body (respond_with_root_file static_path sub_path path cors GET None s) = data.
Proof.
  intros Hr Hl Hd Hs. unfold respond_with_file, respond_with_root_file, stat_or_index. rewrite Hr, Hl, Hd.
  by destruct (Z.ltb_spec MAX_STATIC_FILE_SIZE len); [|lia].
Qed.

(** An update whose reload of the cache fails returns before the WebDAV handlers are dropped; the next
    reload, here of the creation of another bucket, brings the new directory into the cache, and from then
    on HTTP serves the new directory and WebDAV the old one. *)
Definition dav_request : Request :=
  {| rq_method := OtherMethod "PROPFIND"; rq_path := "/nodeget/static-webdav/site/";
     rq_headers := [("authorization", Some ("Basic " +:+ b64_enc (as_bytes "rootkey:rootsecret")))]%string |}.

Theorem stale_webdav_directory :
  let w0 := (static_webdav_handler sample_env dav_request (http_world true [false; false; true])).1 in
  let '(w1, r1) := update_static "site" "new/site" true false None w0 in
  let w2 := (create_static "other" "other" false false w1).1 in
  is_ok r1 = false /\
  (static_webdav_handler sample_env dav_request w2).2 = DavHandled "static/pub/site" /\
  option_map s_path (sw_cache w2 ≫= fun c => get_by_name c "site") = Some "new/site"%string.
Proof. vm_compute. split_and!; reflexivity. Qed.
