(* ===== verification/StaticRpc.v ===== *)
(** * Static buckets over RPC

    [ng-static/src/auth.rs] and the methods of [ng-static/src/rpc], before JSON serialisation. *)
From Stdlib Require Import Ascii.
From stdpp Require Import base strings gmap list numbers sorting.
From S2P Require Import Prelude Errors Db Permission TokenCache TokenCheck KvAuth StaticPath StaticFs StaticBucket StaticAdmin.

Definition bucket_debug (p : StaticBucket) : string :=
  match p with StaticBucket_Read => "Read" | StaticBucket_Write => "Write" | StaticBucket_Delete => "Delete" end.
Definition file_debug (p : StaticBucketFile) : string :=
  match p with
  | StaticBucketFile_Read => "Read" | StaticBucketFile_Write => "Write" | StaticBucketFile_Delete => "Delete" | StaticBucketFile_List => "List"
  end.

Definition check_static_bucket_permission (e : Env) (token name : string) (permission : StaticBucket) : result anyhow unit :=
  let? token_or_auth := parse_token token in
  let? checker := require_permission_checker e in
  let? is_allowed := pc_check_token_limit checker token_or_auth [Scope_StaticBucket name] [P_StaticBucket permission] in
  if (is_allowed : bool) then Ok tt
  else denied ("Permission denied for static-bucket '" +:+ name +:+ "', required permission: " +:+ bucket_debug permission).

Definition check_static_bucket_file_permission (e : Env) (token name : string) (permission : StaticBucketFile) : result anyhow unit :=
  let? token_or_auth := parse_token token in
  let? checker := require_permission_checker e in
  let? is_allowed := pc_check_token_limit checker token_or_auth [Scope_StaticBucket name] [P_StaticBucketFile permission] in
  if (is_allowed : bool) then Ok tt
  else denied ("Permission denied for static-bucket-file '" +:+ name +:+ "', required permission: " +:+ file_debug permission).

Definition check_super (e : Env) (token : string) : result anyhow bool :=
  let? token_or_auth := parse_token token in
  let? checker := require_permission_checker e in
  map_err (fun err => OfNodeget (PermissionDenied (anyhow_display err))) (pc_check_super_token checker token_or_auth).

Section methods.
Context {DB FS : Type} {ops : TableOps DB StaticModel} {fs : FsOps FS} {b64 : Base64}.
#[local] Notation W := (SWorld DB FS).

(** ** [static-bucket] *)

Definition create (e : Env) (token name path : string) (is_http_root cors : bool) : Sm (DB := DB) (FS := FS) StaticModel :=
  let! _ := lift (check_static_bucket_permission e token name StaticBucket_Write) in create_static name path is_http_root cors.

Definition read (e : Env) (token name : string) : Sm (DB := DB) (FS := FS) StaticModel :=
  let! _ := lift (check_static_bucket_permission e token name StaticBucket_Read) in
  let! found := read_static name in
  lift (ok_or (OfNodeget (static_not_found name)) found).

Definition update (e : Env) (token name path : string) (is_http_root cors : bool) (enable : option bool) : Sm (DB := DB) (FS := FS) StaticModel :=
  let! _ := lift (check_static_bucket_permission e token name StaticBucket_Write) in update_static name path is_http_root cors enable.

Definition delete (e : Env) (token name : string) : Sm (DB := DB) (FS := FS) unit :=
  let! _ := lift (check_static_bucket_permission e token name StaticBucket_Delete) in delete_static name.

Definition list_all_names (w : W) : list string :=
  match sw_cache w with
  | Some c => merge_sort String.le (map (fun kv => s_name kv.2) (map_to_list (by_name c)))
  | None => []
  end.

Definition list_rpc (e : Env) (token : string) : Sm (DB := DB) (FS := FS) (list string) := fun w =>
  (w, let? is_super_token := map_err (fun err => OfNodeget (PermissionDenied (anyhow_display err))) (check_super e token) in
      if (is_super_token : bool) then Ok (list_all_names w) else denied "Only SuperToken can list all static names").

(** ** [static-bucket-file] *)

Definition upload_file_rpc (e : Env) (token name path : string) (body : option (list Z)) (base64 : option string) : Sm (DB := DB) (FS := FS) unit :=
  let! _ := lift (check_static_bucket_file_permission e token name StaticBucketFile_Write) in upload_file name path body base64.
Definition read_file_rpc (e : Env) (token name path : string) : Sm (DB := DB) (FS := FS) string :=
  let! _ := lift (check_static_bucket_file_permission e token name StaticBucketFile_Read) in read_file name path.
Definition delete_file_rpc (e : Env) (token name path : string) : Sm (DB := DB) (FS := FS) unit :=
  let! _ := lift (check_static_bucket_file_permission e token name StaticBucketFile_Delete) in delete_file name path.
Definition rename_file_rpc (e : Env) (token name from to : string) : Sm (DB := DB) (FS := FS) unit :=
  let! _ := lift (check_static_bucket_file_permission e token name StaticBucketFile_Write) in
  let! _ := lift (check_static_bucket_file_permission e token name StaticBucketFile_Delete) in
  rename_file name from to.

(** ** Sequences of calls *)

Definition file_call (e : Env) (w : W) (call : string * (string * FileOp)) : W :=
  let '(token, (name, op)) := call in
  match op with
  | Upload p b s => (upload_file_rpc e token name p b s w).1
  | ReadFile p => (read_file_rpc e token name p w).1
  | DeleteFile p => (delete_file_rpc e token name p w).1
  | RenameFile f t => (rename_file_rpc e token name f t w).1
  end.
Definition file_calls (e : Env) (calls : list (string * (string * FileOp))) (w : W) : W := fold_left (file_call e) calls w.

Definition needs (op : FileOp) : list StaticBucketFile :=
  match op with
  | Upload _ _ _ => [StaticBucketFile_Write]
  | ReadFile _ => [StaticBucketFile_Read]
  | DeleteFile _ => [StaticBucketFile_Delete]
  | RenameFile _ _ => [StaticBucketFile_Write; StaticBucketFile_Delete]
  end.

(** The token has the permission for the bucket. *)
Definition bucket_granted (e : Env) (token name : string) (p : Permission) : Prop :=
  exists t checker, parse_token token = Ok t /\ PERMISSION_CHECKER e = Some checker /\
    pc_check_token_limit checker t [Scope_StaticBucket name] [p] = Ok true.

Lemma bucket_check_granted e token name p : is_ok (check_static_bucket_permission e token name p) = true -> bucket_granted e token name (P_StaticBucket p).
Proof using.
  unfold check_static_bucket_permission, require_permission_checker, bucket_granted. destruct (parse_token token) as [t|]; [|done].
  destruct (PERMISSION_CHECKER e) as [c|]; [|done]. simpl. destruct (pc_check_token_limit c t _ _) as [[]|] eqn:E; try done. eauto.
Qed.

Lemma file_check_granted e token name p : is_ok (check_static_bucket_file_permission e token name p) = true -> bucket_granted e token name (P_StaticBucketFile p).
Proof using.
  unfold check_static_bucket_file_permission, require_permission_checker, bucket_granted. destruct (parse_token token) as [t|]; [|done].
  destruct (PERMISSION_CHECKER e) as [c|]; [|done]. simpl. destruct (pc_check_token_limit c t _ _) as [[]|] eqn:E; try done. eauto.
Qed.

Definition permitted (e : Env) (call : string * (string * FileOp)) : option (string * FileOp) :=
  let '(token, (name, op)) := call in
  if forallb (fun p => is_ok (check_static_bucket_file_permission e token name p)) (needs op) then Some (name, op) else None.

Lemma lift_guard {A} (r : result anyhow unit) (m : Sm (DB := DB) (FS := FS) A) w : (let! _ := lift r in m) w = if is_ok r then m w else (w, match r with Ok _ => (m w).2 | Err err => Err err end).
Proof using. by destruct r as [[]|]. Qed.

Lemma file_call_run e w call : file_call e w call = match permitted e call with Some req => file_step w req | None => w end.
Proof using.
  destruct call as (token & name & op). destruct op; simpl;
    unfold upload_file_rpc, read_file_rpc, delete_file_rpc, rename_file_rpc; rewrite ?lift_guard;
    repeat match goal with |- context [is_ok ?x] => destruct (is_ok x); simpl; rewrite ?lift_guard end; done.
Qed.

Lemma file_calls_run e calls w : file_calls e calls w = file_run (omap (permitted e) calls) w.
Proof using.
  unfold file_calls, file_run. revert w. induction calls as [|call calls IH]; intros w; simpl; [done|].
  rewrite file_call_run. destruct (permitted e call); simpl; apply IH.
Qed.

Lemma permitted_spec e token name op req :
  permitted e (token, (name, op)) = Some req -> req = (name, op) /\ forall p, p ∈ needs op -> bucket_granted e token name (P_StaticBucketFile p).
Proof using.
  unfold permitted. destruct (forallb _ _) eqn:E; [|done]. intros [= <-]. split; [done|]. intros p Hp.
  rewrite forallb_forall in E. apply file_check_granted, E. by apply list_elem_of_In.
Qed.

(** ** Which bucket an administration method touches *)

Context {laws : TableLaws ops static_conflict}.

Definition bucket_rows (w : W) : list StaticModel := default [] (table w).

(** The rows of all buckets but [n] are the same. *)
Definition others_kept (n : string) (w w' : W) : Prop :=
  forall r, s_name r <> n -> r ∈ bucket_rows w <-> r ∈ bucket_rows w'.

#[local] Instance others_kept_preorder n : PreOrder (others_kept n).
Proof using. split; [by intros w r|]. intros a b c H1 H2 r Hr. by rewrite (H1 r Hr), (H2 r Hr). Qed.

Lemma same_table_kept n (w w' : W) : table w' = table w -> others_kept n w w'.
Proof using. intros H r _. unfold bucket_rows. by rewrite H. Qed.

Definition touches {A} (n : string) (m : Sm (DB := DB) (FS := FS) A) : Prop := forall w, static_ok w -> others_kept n w (m w).1.

Lemma touches_bind {A B} n (m : Sm A) (k : A -> Sm B) :
  preserves static_ok m -> touches n m -> (forall a, touches n (k a)) -> touches n (mbind m k).
Proof using.
  intros Hp Hm Hk w Hw. rewrite mbind_run. specialize (Hp w Hw). specialize (Hm w Hw). destruct (m w) as [w1 [a|]]; [|done].
  simpl in *. etrans; [exact Hm|by apply Hk].
Qed.
Lemma touches_same {A} n (m : Sm A) : (forall w, table (m w).1 = table w) -> touches n m.
Proof using. intros H w _. by apply same_table_kept. Qed.

Lemma find_touches {A} n conv (stmt : M DB DbErr A) :
  (forall d d' r, stmt d = (d', r) -> rows d' = rows d) -> touches n (exec conv stmt).
Proof using.
  intros H. apply touches_same. intros w. unfold exec, table. destruct (sw_db w) as [d|] eqn:E; [|simpl; by rewrite E].
  destruct (stmt d) as [d' r] eqn:Es. simpl. by rewrite (H _ _ _ Es).
Qed.

Lemma insert_touches n conv (mk : Z -> StaticModel) : (forall i, s_name (mk i) = n) -> touches n (exec conv (insert_auto mk)).
Proof using laws.
  intros Hn w _ r Hr. unfold exec, bucket_rows, table. destruct (sw_db w) as [d|] eqn:E; [|simpl; by rewrite E].
  destruct (insert_auto mk d) as [d' [i|err]] eqn:Ei; simpl.
  - apply insert_auto_ok in Ei as [-> _]. rewrite elem_of_cons. split; [by right|]. intros [->|?]; [|done]. by rewrite Hn in Hr.
  - by apply insert_auto_err in Ei as [-> _].
Qed.

(** A row is recognised by its id. *)
Lemma by_id (l : list StaticModel) x y : rows_ok l -> x ∈ l -> y ∈ l -> has_id (s_id x) y = true -> y = x.
Proof using.
  intros [Hu _] Hx Hy Hid%Z.eqb_eq. eapply (unique_rows_lookup static_conflict); [apply static_conflict_sym|done..|]. by apply static_conflict_id.
Qed.

Lemma update_touches conv x f (w : W) : static_ok w -> x ∈ bucket_rows w -> s_name (f x) = s_name x ->
  others_kept (s_name x) w (exec conv (update_one (has_id (s_id x)) f) w).1.
Proof using laws.
  intros [Hd _] Hx Hf r Hr. unfold exec, bucket_rows, table in *. destruct (sw_db w) as [d|] eqn:E; [|simpl; by rewrite E].
  specialize (Hd d eq_refl). simpl in Hx. destruct (update_one _ f d) as [d' [y|err]] eqn:Eu; simpl.
  2:{ by rewrite (update_one_err _ _ _ _ _ Eu). }
  apply update_one_ok in Eu as [-> _]. rewrite list_elem_of_fmap. unfold update_if. split.
  - intros Hin. exists r. destruct (has_id (s_id x) r) eqn:Eid; [|done]. by rewrite (by_id _ x r Hd Hx Hin Eid) in Hr.
  - intros (y0 & -> & Hy0). destruct (has_id (s_id x) y0) eqn:Eid; [|done]. by rewrite (by_id _ x y0 Hd Hx Hy0 Eid), Hf in Hr.
Qed.

Lemma remove_touches conv x (w : W) : static_ok w -> x ∈ bucket_rows w ->
  others_kept (s_name x) w (exec conv (delete_many (has_id (s_id x))) w).1.
Proof using laws.
  intros [Hd _] Hx r Hr. unfold exec, bucket_rows, table in *. destruct (sw_db w) as [d|] eqn:E; [|simpl; by rewrite E].
  specialize (Hd d eq_refl). simpl in Hx. destruct (delete_many _ d) as [d' [y|err]] eqn:Eu; simpl.
  2:{ by rewrite (delete_many_err _ _ _ _ Eu). }
  apply delete_many_ok in Eu as [-> _]. rewrite list_filter_elem, negb_true_iff. split; [|by intros [? _]].
  intros Hin. split; [done|]. destruct (has_id (s_id x) r) eqn:Eid; [|done]. by rewrite (by_id _ x r Hd Hx Hin Eid) in Hr.
Qed.

Lemma static_path_touches n : touches n get_static_path.
Proof using. apply touches_same. intros w. unfold get_static_path. by destruct (str_is_empty _). Qed.
Lemma disk_touches_none {A} n (call : M FS IoErr A) : touches n (disk_logged call).
Proof using. by apply touches_same. Qed.
Lemma reload_touches n : touches n reload.
Proof using laws.
  apply touches_same. intros w. unfold reload, load_all. destruct (sw_cache w); [|done]. rewrite mbind_run.
  unfold table. destruct (sw_db w) as [d|] eqn:E; [|simpl; by rewrite E].
  destruct (find_all _ d) as [d' [l|]] eqn:Ef; simpl; by rewrite (find_all_rows _ _ _ _ Ef).
Qed.
Lemma dir_touches n p : touches n (fun w => (fst (delete_static_bucket_dir (DB := DB) (FS := FS) p w), Ok tt)).
Proof using. apply touches_same. intros w. simpl. destruct (delete_static_bucket_dir p w) as [w' r] eqn:E. by apply delete_dir_table in E. Qed.
Lemma ret_touches {A} n (a : A) : touches n (mret a).
Proof using. by apply touches_same. Qed.

#[local] Hint Resolve static_path_touches disk_touches_none reload_touches dir_touches ret_touches : core.
#[local] Hint Resolve get_static_path_ok disk_logged_ok static_reload_ok clear_dav_ok get_db_static_ok : core.

(** The last steps of a creation and an update. *)
Lemma finish_touches {B} n p (k : Sm B) :
  touches n k -> touches n (let! static_path := get_static_path in
    let! _ := disk_logged (create_dir_all (path_push static_path p)) in let! _ := reload in k).
Proof using laws.
  intros Hk. apply touches_bind; [auto|auto|]. intros sp. apply touches_bind; [auto|auto|]. intros _. apply touches_bind; auto.
Qed.

Lemma find_one_step conv (p : StaticModel -> bool) (w : W) : static_ok w ->
  let '(w1, r) := exec conv (find_one p) w in
  static_ok w1 /\ table w1 = table w /\ forall x, r = Ok (Some x) -> x ∈ bucket_rows w1 /\ p x = true.
Proof using laws.
  intros Hw. destruct (exec conv (find_one p) w) as [w1 r] eqn:E.
  pose proof (preserves_run _ _ _ _ (exec_keeps conv _ (static_find_one_keeps p)) E Hw) as Hw1.
  assert (table w1 = table w) as Ht.
  { unfold exec, table in *. destruct (sw_db w) as [d|] eqn:Ed; [|injection E as <- _; by rewrite Ed].
    destruct (find_one p d) as [d' r0] eqn:Ef. injection E as <- _. simpl. by rewrite (find_one_rows _ _ _ _ Ef). }
  split_and!; [done|done|]. intros x ->. apply find_step in E as (_ & _ & l & Hl & Hx & Hp). unfold bucket_rows. by rewrite Ht, Hl.
Qed.

Lemma optional_find_step (c : bool) conv (p : StaticModel -> bool) (w : W) : static_ok w ->
  let out := (if c then exec conv (find_one p) else mret None : Sm _) w in static_ok out.1 /\ table out.1 = table w.
Proof using laws.
  intros Hw. destruct c; [|done]. simpl. pose proof (find_one_step conv p w Hw) as H. destruct (exec _ _ w). tauto.
Qed.

(** Creation, update and deletion touch the bucket called [trim name] only, whatever they return. *)
Lemma create_static_touches name path root cors : touches (trim name) (create_static (DB := DB) (FS := FS) name path root cors).
Proof using laws.
  intros w Hw. unfold create_static, pure. cbv zeta. rewrite mbind_run. unfold get_db. destruct (sw_db w); [|done].
  rewrite mbind_lift. destruct (validate_name (trim name)) as [[]|] eqn:Hn; [|done]. cbn [map_err].
  rewrite mbind_lift. destruct (validate_sub_path (trim path)) as [[]|] eqn:Hp; [|done]. cbn [map_err].
  rewrite mbind_run. pose proof (find_one_step db_any (has_name (trim name)) w Hw) as H1.
  destruct (exec db_any (find_one (has_name (trim name))) w) as [w1 [o|]]; [|by apply same_table_kept; destruct H1 as (_ & ? & _)].
  destruct H1 as (Hw1 & Ht1 & _). etrans; [by apply same_table_kept|]. destruct o; [done|].
  rewrite mbind_run. match goal with |- context [let (_, _) := ?t in _] =>
    assert (static_ok t.1 /\ table t.1 = table w1) as [Hw2 Ht2] by (by apply optional_find_step); destruct t as [w2 r2] end.
  cbn [fst] in Hw2, Ht2. etrans; [by apply same_table_kept|]. destruct r2 as [[x|]|]; [done| |done].
  clear Ht2. revert w2 Hw2. apply touches_bind.
  - apply exec_keeps, static_insert_keeps. by apply new_row_valid.
  - by apply insert_touches.
  - intros i. by apply finish_touches.
Qed.

Lemma update_static_touches name path root cors enable : touches (trim name) (update_static (DB := DB) (FS := FS) name path root cors enable).
Proof using laws.
  intros w Hw. unfold update_static, pure. cbv zeta. rewrite mbind_run. unfold get_db. destruct (sw_db w); [|done].
  rewrite mbind_lift. destruct (validate_name (trim name)) as [[]|] eqn:Hn; [|done]. cbn [map_err].
  rewrite mbind_lift. destruct (validate_sub_path (trim path)) as [[]|] eqn:Hp; [|done]. cbn [map_err].
  rewrite mbind_run. pose proof (find_one_step db_any (has_name (trim name)) w Hw) as H1.
  destruct (exec db_any (find_one (has_name (trim name))) w) as [w1 [o|]]; [|by apply same_table_kept; destruct H1 as (_ & ? & _)].
  destruct H1 as (Hw1 & Ht1 & Hx1). etrans; [by apply same_table_kept|]. rewrite mbind_lift. destruct o as [x|]; [|done]. cbn [ok_or].
  destruct (Hx1 x eq_refl) as [Hx Hxn%String.eqb_eq]. rewrite mbind_run.
  set (cond := root && negb (s_is_http_root x)). set (q := fun r => s_is_http_root r && negb (has_id (s_id x) r)).
  match goal with |- context [let (_, _) := ?t in _] =>
    assert (static_ok t.1 /\ table t.1 = table w1) as [Hw2 Ht2] by (by apply optional_find_step); destruct t as [w2 r2] end.
  cbn [fst] in Hw2, Ht2. etrans; [by apply same_table_kept|]. destruct r2 as [[y|]|]; [done| |done]. rewrite mbind_run.
  match goal with |- context [exec ?conv (update_one ?p ?f) w2] =>
    pose proof (update_touches conv x f w2 Hw2) as Hu; pose proof (exec_keeps conv _ (update_keeps p f (fun r => update_row_valid _ _ _ _ r Hp)) w2 Hw2) as Hk;
    destruct (exec conv (update_one p f) w2) as [w3 [y|]] end.
  all: rewrite Hxn in Hu; cbn [fst] in Hu, Hk.
  all: assert (others_kept (trim name) w2 w3) as Hu' by (apply Hu; [unfold bucket_rows; rewrite Ht2; exact Hx|done]).
  all: clear Hu; rename Hu' into Hu.
  2:{ exact Hu. }
  etrans; [exact Hu|]. apply finish_touches; [|exact Hk]. apply touches_bind; [auto|by apply touches_same|auto].
Qed.

Lemma delete_static_touches name : touches (trim name) (delete_static (DB := DB) (FS := FS) name).
Proof using laws.
  intros w Hw. unfold delete_static, pure. cbv zeta. rewrite mbind_run. unfold get_db. destruct (sw_db w); [|done].
  rewrite mbind_lift. destruct (validate_name (trim name)) as [[]|] eqn:Hn; [|done]. cbn [map_err].
  rewrite mbind_run. pose proof (find_one_step db_any (has_name (trim name)) w Hw) as H1.
  destruct (exec db_any (find_one (has_name (trim name))) w) as [w1 [o|]]; [|by apply same_table_kept; destruct H1 as (_ & ? & _)].
  destruct H1 as (Hw1 & Ht1 & Hx1). etrans; [by apply same_table_kept|]. rewrite mbind_lift. destruct o as [x|]; [|done]. cbn [ok_or].
  destruct (Hx1 x eq_refl) as [Hx Hxn%String.eqb_eq]. rewrite mbind_run.
  pose proof (remove_touches db_any x w1 Hw1 Hx) as Hu. pose proof (exec_keeps db_any _ (delete_keeps (has_id (s_id x))) w1 Hw1) as Hk.
  rewrite Hxn in Hu. destruct (exec db_any (delete_many _) w1) as [w2 [y|]]; cbn [fst] in Hu, Hk; [|done].
  etrans; [exact Hu|]. revert w2 Hu Hk. intros w2 _ Hk. revert w2 Hk. apply touches_bind; [|auto|].
  - intros w2 Hw2. pose proof (delete_dir_ok (s_path x) w2 Hw2) as H. by destruct (delete_static_bucket_dir (s_path x) w2).
  - intros _. apply touches_bind; [auto|auto|]. intros _. apply touches_bind; [auto|by apply touches_same|auto].
Qed.

Context {cwd : list string} {file : FS -> list string -> option (list Z)} {fs_laws : FsLaws fs cwd file}.

(** C13: whatever file methods are called, by whichever tokens and with whatever paths, a file keeps its
    contents unless it lies below the directory of a bucket for which one of the callers has the
    permissions of the method; table, cache and root directory are untouched.  A file is read only with
    the permission for its bucket, which it lies in, and whole.  Creating, changing or deleting a bucket does something only with
    the permission for the name given, and then, whether it succeeds or fails, to no row but that of the
    bucket called by that name without the blanks around it: after success that bucket is there as returned, or
    gone. *)
Theorem static_access_by_permission e calls (w : W) q :
  static_ok w ->
  ((forall token name op c m, (token, (name, op)) ∈ calls -> (forall p, p ∈ needs op -> bucket_granted e token name (P_StaticBucketFile p)) ->
      sw_cache w = Some c -> get_by_name c name = Some m -> ~ under (bucket_dir cwd w m) q) ->
    file (sw_fs (file_calls e calls w)) q = file (sw_fs w) q /\ only_disk w (file_calls e calls w)) /\
  (forall token name path w' x, read_file_rpc e token name path w = (w', Ok x) ->
    bucket_granted e token name (P_StaticBucketFile StaticBucketFile_Read) /\
    exists place_ data, place (cwd := cwd) w name path = Some place_ /\ file (sw_fs w) place_ = Some data /\ x = b64_encode data) /\
  (forall token name path root cors enable w' r,
    (create e token name path root cors w = (w', r) \/ update e token name path root cors enable w = (w', r) ->
       (w' = w \/ bucket_granted e token name (P_StaticBucket StaticBucket_Write)) /\ others_kept (trim name) w w' /\
       forall m, r = Ok m -> m ∈ bucket_rows w' /\ s_name m = trim name /\ s_path m = trim path /\ s_is_http_root m = root /\ s_cors m = cors)) /\
  (forall token name w' r, delete e token name w = (w', r) ->
     (w' = w \/ bucket_granted e token name (P_StaticBucket StaticBucket_Delete)) /\ others_kept (trim name) w w' /\
     (is_ok r = true -> forall m, m ∈ bucket_rows w' -> s_name m <> trim name)).
Proof using fs_laws laws.
  intros Hok. split; [|split; [|split]].
  - intros Hq. rewrite file_calls_run. apply bucket_isolation. intros name op c m Hin Hc Hm.
    apply list_elem_of_omap in Hin as ([token [n o]] & Hin & [[= -> ->] Hg]%permitted_spec). by eapply Hq.
  - intros token name path w' x. unfold read_file_rpc. rewrite lift_guard.
    destruct (is_ok (check_static_bucket_file_permission e token name StaticBucketFile_Read)) eqn:E; [|by destruct (check_static_bucket_file_permission _ _ _ _)].
    intros (place_ & data & Hp & Hf & -> & _)%read_ok. split; [by apply file_check_granted|eauto].
  - intros token name path root cors enable w' r. unfold create, update. rewrite !lift_guard.
    destruct (check_static_bucket_permission e token name StaticBucket_Write) as [[]|err] eqn:E; cbn [is_ok].
    2:{ intros [[= <- <-]|[= <- <-]]; (split_and!; [by left|done|done]). }
    assert (bucket_granted e token name (P_StaticBucket StaticBucket_Write)) as Hg by (apply bucket_check_granted; by rewrite E).
    intros [H|H]; (split; [by right|]).
    + split; [pose proof (create_static_touches name path root cors w Hok) as Ht; by rewrite H in Ht|]. intros m ->.
      apply create_run in H as (l & l' & _ & Hl' & _ & Hp & Hm & _); [|done]. unfold bucket_rows. rewrite Hl'. simpl. rewrite Hp.
      split_and!; [by left|by rewrite Hm..].
    + split; [pose proof (update_static_touches name path root cors enable w Hok) as Ht; by rewrite H in Ht|]. intros m ->.
      apply update_run in H as (l & l' & r0 & _ & Hl' & _ & Hin & Hn & -> & Hp & _); [|done]. unfold bucket_rows. rewrite Hl'. simpl. rewrite Hp.
      split_and!; [|done..]. apply list_elem_of_fmap. exists r0. split; [|done]. unfold update_if, has_id. by rewrite Z.eqb_refl.
  - intros token name w' r. unfold delete. rewrite lift_guard.
    destruct (check_static_bucket_permission e token name StaticBucket_Delete) as [[]|err] eqn:E; cbn [is_ok].
    2:{ intros [= <- <-]. split_and!; [by left|done|done]. }
    intros H. split; [right; apply bucket_check_granted; by rewrite E|].
    split; [pose proof (delete_static_touches name w Hok) as Ht; by rewrite H in Ht|]. destruct r as [[]|]; [|done]. intros _.
    apply delete_static_run in H as (l & l' & r0 & Hl & Hl' & _ & Hin & Hn & Hp & _); [|done]. unfold bucket_rows. rewrite Hl'. simpl.
    intros m. rewrite Hp, list_filter_elem, negb_true_iff. intros [Hm Hid] Hmn.
    assert (m = r0) as ->; [|unfold has_id in Hid; by rewrite Z.eqb_refl in Hid].
    unfold table in Hl. destruct (sw_db w) as [d|] eqn:Ed; [|done]. injection Hl as <-. destruct Hok as [Hd _]. destruct (Hd d Ed) as [Hu _].
    eapply (unique_rows_lookup static_conflict); [apply static_conflict_sym|done..|]. apply static_conflict_name. congruence.
Qed.

(** The listing has every cached bucket, sorted, and only the super token gets it. *)
Theorem list_rpc_spec e token (w w' : W) names : list_rpc e token w = (w', Ok names) ->
  w' = w /\ (exists t checker, parse_token token = Ok t /\ PERMISSION_CHECKER e = Some checker /\ pc_check_super_token checker t = Ok true) /\
  Sorted String.le names /\ (forall c n, sw_cache w = Some c -> n ∈ names <-> exists k m, get_by_name c k = Some m /\ s_name m = n).
Proof using.
  unfold list_rpc, check_super, require_permission_checker. destruct (parse_token token) as [t|] eqn:Et; [|done].
  destruct (PERMISSION_CHECKER e) as [checker|] eqn:Ec; [|done]. simpl. destruct (pc_check_super_token checker t) as [[]|] eqn:Es; try done.
  intros [= <- <-]. split; [done|]. split; [eauto|]. unfold list_all_names. split.
  - destruct (sw_cache w); [apply (Sorted_merge_sort _)|constructor].
  - intros c n Hw. rewrite Hw, merge_sort_Permutation, list_elem_of_fmap. split.
    + intros ([k m] & -> & Hk%elem_of_map_to_list). by exists k, m.
    + intros (k & m & Hk & <-). exists (k, m). split; [done|]. by apply elem_of_map_to_list.
Qed.
End methods.

#[local] Instance rpc_fs : FsOps MemFs := mem_ops ["srv"%string].
#[local] Instance rpc_fs_laws : FsLaws rpc_fs ["srv"%string] mem_file := mem_laws ["srv"%string].
#[local] Instance rpc_b64 : Base64 := {| b64_encode := b64_enc; b64_decode := b64_dec |}.

Lemma static_access_by_permission_witness :
  mem_file (sw_fs (file_calls sample_env [("rootkey:rootsecret", ("site", Upload "../../../secret" (Some [7%Z]) None)); ("nobody:x", ("docs", DeleteFile "a"))]%string
                     (demo_world demo_rows))) ["srv"; "secret"]%string = Some [1%Z].
Proof.
  destruct (static_access_by_permission (cwd := ["srv"%string]) (file := mem_file) sample_env
    [("rootkey:rootsecret", ("site", Upload "../../../secret" (Some [7%Z]) None)); ("nobody:x", ("docs", DeleteFile "a"))]%string
    (demo_world demo_rows) ["srv"; "secret"]%string demo_ok) as [H _].
  refine (eq_trans (proj1 (H _)) eq_refl). intros token name op c m Hin _ Hc Hm [ns Hns]. injection Hc as <-.
  assert (name = "site" \/ name = "docs")%string as [-> | ->] by set_solver; vm_compute in Hm; injection Hm as <-; vm_compute in Hns; discriminate.
Defined.

(** The permission is looked up under the name as given, but the bucket is the one called by the trimmed name: a token for the
    bucket " docs" only, which cannot exist, changes the bucket "docs". *)
Definition blank_env : Env := {|
  e_globals := e_globals sample_env; e_clock := e_clock sample_env;
  PERMISSION_CHECKER := Some {|
    pc_check_token_limit _ scopes _ := Ok (bool_decide (scopes = [Scope_StaticBucket " docs"]));
    pc_check_super_token _ := Ok false; pc_get_token _ := Err (OfNodeget (NotFound "token")) |} |}.

Theorem blank_name_passes_check :
  ~ bucket_granted blank_env "key:pass" "docs" (P_StaticBucket StaticBucket_Delete) /\
  is_ok (delete blank_env "key:pass" " docs" (demo_world demo_rows)).2 = true /\
  existsb (has_name "docs") (bucket_rows (demo_world demo_rows)) = true /\
  existsb (has_name "docs") (bucket_rows (delete blank_env "key:pass" " docs" (demo_world demo_rows)).1) = false.
Proof.
  split; [|by vm_compute]. intros (t & c & _ & [= <-] & H). by vm_compute in H.
Qed.
