(* ===== verification/JsRoute.v ===== *)
(** * Workers behind HTTP routes

    [handle_js_worker_route] of [server/src/subcommands/serve.rs]: the worker bound to a route gets the request
    and answers it.  The handler is split where it waits for the script. *)
From Stdlib Require Import Ascii.
From stdpp Require Import base strings gmap list numbers pretty.
From S2P Require Import Prelude Errors Json Db StaticBucket StaticAdmin Retention JsPool JsWorker JsRun JsThms JsSystem NgConfig StaticHttp.

Definition ROUTE_BODY_LIMIT_BYTES : Z := 8 * 1024 * 1024.
Definition ALLOWED_RESPONSE_HEADERS : list string := [
  "content-type"; "content-length"; "cache-control"; "last-modified"; "etag"; "access-control-allow-origin";
  "access-control-allow-methods"; "access-control-allow-headers"]%string.

(** A request as the server sees it: the peer's address if known, and a body that may fail to arrive. *)
Record RouteRequest : Type := {
  rr_peer_ip : option string; rr_method : string; rr_uri : string; rr_headers : list (string * option string);
  rr_body : result string Bytes }.

Record JsRouteHeader : Type := { jh_name : string; jh_value : string }.
Record JsRouteInput : Type := { ji_method : string; ji_url : string; ji_headers : list JsRouteHeader; ji_body_base64 : string }.
Record JsRouteOutput : Type := { jo_status : Z; jo_headers : list JsRouteHeader; jo_body_base64 : string }.

(** [serde_json::from_value], and the header types of the [http] crate: the name in lower case. *)
Class RouteCodec : Type := {
  route_output_from_value : Json -> result string JsRouteOutput;
  header_name_of : string -> option string;
  header_value_ok : string -> bool;
}.

Definition route_error (status : Z) (message : string) : Response :=
  {| rs_status := status; rs_headers := [plain_text]; rs_body := as_bytes message |}.

Definition header_text (name : string) (req : RouteRequest) : option string :=
  mjoin (option_map snd (List.find (fun h => String.eqb (fst h) name) (rr_headers req))).

Definition route_url (req : RouteRequest) : string :=
  let uri := rr_uri req in
  if starts_with uri "http://" || starts_with uri "https://" then uri
  else unwrap_or "http"%string (header_text "x-forwarded-proto" req) +:+ "://" +:+ unwrap_or "localhost"%string (header_text "host" req) +:+ uri.

Definition CONNECTING_IP : string := "ng-connecting-ip".
Definition is_connecting_ip (h : JsRouteHeader) : bool := eq_ignore_ascii_case (jh_name h) CONNECTING_IP.

(** The readable headers, without those that claim to be the peer's address, which is added. *)
Definition route_headers (req : RouteRequest) : list JsRouteHeader :=
  List.filter (fun h => negb (is_connecting_ip h))
    (omap (fun h => option_map (fun v => {| jh_name := h.1; jh_value := v |}) h.2) (rr_headers req)) ++
  [{| jh_name := CONNECTING_IP; jh_value := unwrap_or "127.0.0.1"%string (rr_peer_ip req) |}].

Definition read_body (req : RouteRequest) : result string Bytes :=
  let? bytes := rr_body req in
  if (ROUTE_BODY_LIMIT_BYTES <? Z.of_nat (length bytes))%Z then Err "length limit exceeded"%string else Ok bytes.

Definition route_params (i : JsRouteInput) : Json := JObject [
  ("method", JString (ji_method i)); ("url", JString (ji_url i));
  ("headers", JArray (map (fun h => JObject [("name", JString (jh_name h)); ("value", JString (jh_value h))]%string) (ji_headers i)));
  ("body_base64", JString (ji_body_base64 i))]%string.

(** What the pool is given. *)
Record RouteRun : Type := {
  ro_worker_name : string; ro_bytecode : Bytes; ro_params : Json; ro_env : Json; ro_clean_time : option Z; ro_limits : RuntimeLimits }.

Definition bound_to (route_name : string) (m : JsWorkerModel) : bool := bool_decide (jw_route_name m = Some route_name).

Section route.
Context {W R : Type} {wops : TableOps W JsWorkerModel} {rops : TableOps R JsResultModel}.
Context {b64 : Base64} {eng : JsEngine} {jt : JsonText} {codec : RouteCodec}.
#[local] Notation JW := (JsWorld W R).

Definition route_start (route_name0 : string) (req : RouteRequest) (w : JW) : JW * (Response + RouteRun) :=
  let route_name := trim route_name0 in
  if str_is_empty route_name then (w, inl (route_error 400 "route_name cannot be empty")) else
  match read_body req with
  | Err m => (w, inl (route_error 400 ("Failed to read request body: " +:+ m)))
  | Ok body_bytes =>
      match jw_db w with
      | None => (w, inl (route_error 500 "Database is not initialized"))
      | Some (d, r) =>
          let '(d', found) := find_one (bound_to route_name) d in
          let w1 := set_workers d' r w in
          match found with
          | Err err => (w1, inl (route_error 500 ("Database query failed: " +:+ db_msg err)))
          | Ok None => (w1, inl (route_error 404 "No js_worker bound to this route_name"))
          | Ok (Some model) =>
              match ensure_bytecode_version model w1 with
              | (w2, Err err) => (w2, inl (route_error 500 ("js_worker '" +:+ jw_name model +:+ "' bytecode error: " +:+ anyhow_display err)))
              | (w2, Ok bytecode) =>
                  let input := {| ji_method := rr_method req; ji_url := route_url req; ji_headers := route_headers req;
                                  ji_body_base64 := b64_encode body_bytes |} in
                  (w2, inr {| ro_worker_name := jw_name model; ro_bytecode := bytecode; ro_params := route_params input;
                              ro_env := default (JObject []) (jw_env model); ro_clean_time := jw_runtime_clean_time model;
                              ro_limits := limits_of model |})
              end
          end
      end
  end.

(** [StatusCode::from_u16(status).unwrap_or(OK)]. *)
Definition route_status (status : Z) : Z := if (100 <=? status)%Z && (status <=? 999)%Z then status else 200%Z.

Definition allowed_header (h : JsRouteHeader) : option (string * string) :=
  match header_name_of (jh_name h) with
  | Some name =>
      if header_value_ok (jh_value h) && existsb (fun allowed => eq_ignore_ascii_case allowed name) ALLOWED_RESPONSE_HEADERS
      then Some (name, jh_value h) else None
  | None => None
  end.

Definition route_finish (run_result : result string Json) : Response :=
  match run_result with
  | Err m => route_error 500 ("Route worker execution failed: " +:+ m)
  | Ok js_value =>
      match route_output_from_value js_value with
      | Err m => route_error 500 ("Invalid onRoute return format: " +:+ m)
      | Ok js_output =>
          match b64_decode (jo_body_base64 js_output) with
          | Err m => route_error 500 ("Failed to decode base64 body: " +:+ m)
          | Ok body_bytes =>
              {| rs_status := route_status (jo_status js_output); rs_headers := omap allowed_header (jo_headers js_output); rs_body := body_bytes |}
          end
      end
  end.

(** ** Requests and answers of a route *)

Definition param_headers (params : Json) : list Json :=
  match as_object params ≫= assoc "headers" with Some (JArray l) => l | _ => [] end.
Definition named (name : string) (h : Json) : bool :=
  match as_object h ≫= assoc "name" with Some (JString n) => eq_ignore_ascii_case n name | _ => false end.

Definition json_header (h : JsRouteHeader) : Json := JObject [("name", JString (jh_name h)); ("value", JString (jh_value h))]%string.

Lemma named_header name h : named name (json_header h) = eq_ignore_ascii_case (jh_name h) name.
Proof using. done. Qed.

Lemma connecting_ip_once req :
  List.filter (named CONNECTING_IP) (map json_header (route_headers req)) =
  [json_header {| jh_name := CONNECTING_IP; jh_value := unwrap_or "127.0.0.1"%string (rr_peer_ip req) |}].
Proof using.
  unfold route_headers. rewrite map_app, List.filter_app. induction (omap _ (rr_headers req)) as [|h l IH]; [done|]. simpl.
  destruct (is_connecting_ip h) eqn:E; simpl; [exact IH|]. rewrite named_header. unfold is_connecting_ip in E. by rewrite E.
Qed.

Lemma allowed_header_spec h n v : allowed_header h = Some (n, v) -> exists a, a ∈ ALLOWED_RESPONSE_HEADERS /\ eq_ignore_ascii_case a n = true.
Proof using.
  unfold allowed_header. destruct (header_name_of (jh_name h)) as [name|]; [|done]. destruct (header_value_ok _ && _) eqn:E; [|done].
  intros [= <- <-]. apply andb_true_iff in E as [_ (a & Ha & He)%existsb_exists]. exists a. split; [by apply list_elem_of_In|done].
Qed.

Lemma route_error_header status m n v : (n, v) ∈ rs_headers (route_error status m) -> exists a, a ∈ ALLOWED_RESPONSE_HEADERS /\ eq_ignore_ascii_case a n = true.
Proof using. intros [= -> ->]%list_elem_of_singleton. exists "content-type"%string. split; [left|reflexivity]. Qed.

Context {wlaws : TableLaws wops js_worker_conflict} {rlaws : TableLaws rops js_result_conflict}.

Lemma bound_unique (l : list JsWorkerModel) name a b :
  unique_rows js_worker_conflict l = true -> a ∈ l -> b ∈ l -> jw_route_name a = Some name -> jw_route_name b = Some name -> a = b.
Proof using wlaws.
  intros Hu Ha Hb Hra Hrb. eapply unique_rows_lookup; [|exact Hu|done|done|]; [intros x y; apply (conflict_sym (ops := wops))|].
  unfold js_worker_conflict, same_route. by rewrite Hra, Hrb, String.eqb_refl, orb_true_r.
Qed.

(** C29: a request to a worker route runs the one worker bound to that route, with bytecode compiled from its
    stored source, its limits and a body of at most eight megabytes; among the headers the script sees exactly one gives the
    address of the peer, whatever the client sent; nothing but that worker's bytecode is changed.  The
    answer carries only headers of the allowed list. *)
Theorem routes_guarded route_name req (w : JsWorld W R) :
  workers_ok w ->
  (forall w' ro, route_start route_name req w = (w', inr ro) -> workers_ok w' /\ rrows w' = rrows w /\ jw_spawned w' = jw_spawned w /\
    exists model body, model ∈ wrows w /\ jw_route_name model = Some (trim route_name) /\
      (forall m, m ∈ wrows w -> jw_route_name m = Some (trim route_name) -> m = model) /\
      ro_worker_name ro = jw_name model /\ ro_limits ro = limits_of model /\ compile (jw_js_script model) = Ok (ro_bytecode ro) /\
      recompiled model (ro_bytecode ro) w w' /\ rr_body req = Ok body /\ (Z.of_nat (length body) <= ROUTE_BODY_LIMIT_BYTES)%Z /\
      List.filter (named CONNECTING_IP) (param_headers (ro_params ro)) =
        [json_header {| jh_name := CONNECTING_IP; jh_value := unwrap_or "127.0.0.1"%string (rr_peer_ip req) |}]) /\
  (forall outcome n v, (n, v) ∈ rs_headers (route_finish outcome) -> exists a, a ∈ ALLOWED_RESPONSE_HEADERS /\ eq_ignore_ascii_case a n = true).
Proof using wlaws.
  intros Hok. split.
  - intros w' ro. unfold route_start. destruct (str_is_empty _); [done|]. destruct (read_body req) as [body|] eqn:Eb; [|done].
    destruct (jw_db w) as [[d r]|] eqn:Ed; [|done]. destruct (find_one _ d) as [d' found] eqn:Ef.
    destruct found as [[model|]|]; try done. pose proof (find_one_rows _ _ _ _ Ef) as Hrows. apply find_one_some in Ef as [Hm Hb].
    apply bool_decide_eq_true in Hb. assert (wrows w = rows d) as Hw by (unfold wrows; by rewrite Ed).
    assert (workers_ok (set_workers d' r w)) as Hok1.
    { destruct Hok as [Ht Hv]. split; [|done]. unfold wrows. simpl. rewrite Hrows. by rewrite <- Hw. }
    destruct (ensure_bytecode_version model _) as [w2 [bc|]] eqn:Ee; [|done].
    apply ensure_run in Ee as (Hok2 & Hr2 & Hs2 & Hc & Hrec); [|done|unfold wrows; simpl; by rewrite Hrows].
    intros [= <- <-]. split_and!; [done| | |].
    + rewrite Hr2. unfold rrows. simpl. by rewrite Ed.
    + by rewrite Hs2.
    + exists model, body. rewrite Hw. split_and!; try done.
      * intros m Hin Hrn. destruct Hok as [[_ Hu] _]. rewrite Hw in Hu. by eapply bound_unique.
      * destruct Hrec as (H1 & H2 & H3). split_and!.
        -- unfold wrows in *. simpl in *. rewrite Ed. by rewrite Hrows in H1.
        -- rewrite H2. unfold rrows. simpl. by rewrite Ed.
        -- by rewrite H3.
      * revert Eb. unfold read_body. destruct (rr_body req); [|done]. simpl. case_match; [done|]. by intros [= <-].
      * revert Eb. unfold read_body. destruct (rr_body req); [|done]. simpl. destruct (Z.ltb_spec ROUTE_BODY_LIMIT_BYTES (Z.of_nat (length a))); [done|]. intros [= <-]. lia.
      * apply connecting_ip_once.
  - intros outcome n v. unfold route_finish. destruct outcome as [j|]; [|apply route_error_header].
    destruct (route_output_from_value j) as [o|]; [|apply route_error_header]. destruct (b64_decode _); [|apply route_error_header]. simpl.
    intros (h & _ & H)%list_elem_of_omap. by eapply allowed_header_spec.
Qed.
End route.

(** ** Example *)

#[local] Existing Instance engine2.
#[local] Existing Instance plain_b64.
#[local] Existing Instance quiet_json.
#[local] Instance toy_route : RouteCodec := {|
  route_output_from_value _ := Ok {| jo_status := 1000; jo_headers := [{| jh_name := "Set-Cookie"; jh_value := "a" |}; {| jh_name := "etag"; jh_value := "b" |}]; jo_body_base64 := "ok" |};
  header_name_of n := Some n; header_value_ok _ := true |}%string.

Definition route_worker : JsWorkerModel := {|
  jw_id := 1; jw_name := "job"; jw_description := None; jw_js_script := "first"; jw_js_byte_code := Some (1%Z :: as_bytes "first");
  jw_route_name := Some "api"%string; jw_env := None; jw_runtime_clean_time := None; jw_max_run_time := None; jw_max_stack_size := None;
  jw_max_heap_size := None; jw_create_at := 0; jw_update_at := 0 |}.

Definition spoofed : RouteRequest := {|
  rr_peer_ip := Some "10.0.0.9"%string; rr_method := "GET"; rr_uri := "/worker-route/api";
  rr_headers := [("host", Some "example.org"); ("ng-connecting-ip", Some "1.2.3.4")]%string; rr_body := Ok [] |}.

Lemma route_worker_ok : workers_ok (js_world [route_worker]).
Proof.
  split; [split; [|reflexivity]|by left]. constructor; [|constructor]. split_and!; [done| |].
  - intros r [= <-]. split_and!; [done|vm_compute; lia|reflexivity|by vm_compute; split].
  - intros bc [= <-] Hh. vm_compute in Hh. discriminate Hh.
Qed.

Lemma routes_guarded_witness :
  exists ro, (route_start " api" spoofed (js_world [route_worker])).2 = inr ro /\ ro_worker_name ro = "job"%string /\
    compile "first" = Ok (ro_bytecode ro) /\
    List.filter (named CONNECTING_IP) (param_headers (ro_params ro)) = [json_header {| jh_name := CONNECTING_IP; jh_value := "10.0.0.9" |}] /\
    rs_headers (route_finish (Ok JNull)) = [("etag", "b")]%string /\ rs_status (route_finish (Ok JNull)) = 200%Z.
Proof.
  destruct (routes_guarded " api" spoofed (js_world [route_worker]) route_worker_ok) as [H _].
  destruct (route_start " api" spoofed (js_world [route_worker])) as [w' [r|ro]] eqn:E; [vm_compute in E; discriminate E|].
  destruct (H w' ro eq_refl) as (_ & _ & _ & m & body & Hm & Hr & Hu & Hn & _ & Hc & _ & _ & _ & Hip).
  assert (m = route_worker) as -> by (symmetry; apply Hu; [left|reflexivity]).
  exists ro. split; [reflexivity|]. split; [exact Hn|]. split; [exact Hc|]. split; [exact Hip|]. split; reflexivity.
Defined.
