(* ===== verification/AgentReports.v ===== *)
(** * The reports of the agent

    [agent/src/rpc/monitoring_data_report.rs]: the loops that collect and send static data, full
    reports and summaries; and [agent/src/monitoring/outlet_interface.rs]: which interfaces carry
    traffic to the outside. *)
From Stdlib Require Import Ascii SpecFloat.
From stdpp Require Import base strings gmap list numbers.
From S2P Require Import Prelude Errors Json Permission JsRun LastCache NgConfig ConfigRpc AgentConn Summary.

(** ** What is sent *)

(** A task spawned for one server; it sends one request. *)
Record Job : Type := { jb_server : Server; jb_method : string; jb_data : string }.

Definition jobs (method : string) (config : AgentConfig) (data : option string) : list Job :=
  match data with
  | Some text => map (fun s => {| jb_server := s; jb_method := method; jb_data := text |}) (unwrap_or [] (ac_server config))
  | None => []
  end.

Section reports.
Context {json : JsonText}.
(** [serialize_shared] of each kind of data. *)
Variable static_json : StaticCPUData * StaticSystemData * list StaticGpuData -> option string.
Variable dynamic_json : Collected -> option string.
Variable summary_json : DynamicMonitoringSummaryData -> option string.

Definition run_job (alive : string -> bool) (j : Job) (pool : ConnectionPool) : ConnectionPool :=
  (send_to alive (srv_name (jb_server j)) (Text (build_rpc_with_raw_data (jb_method j) (srv_token (jb_server j)) (jb_data j))) pool).1.

(** ** Static data *)

(** [tokio::time::interval]: a period of zero panics. *)
Definition new_interval (ms : Z) : option Z := if (ms =? 0)%Z then None else Some ms.

Definition static_start (config : AgentConfig) : option Z := new_interval (static_report_interval_ms_or_default config).

(** One tick: the interval of the next one, [None] when the task has panicked, and the tasks spawned. *)
Definition static_tick (config : option AgentConfig) (data : StaticCPUData * StaticSystemData * list StaticGpuData) (interval_ms : Z) : option Z * list Job :=
  match config with
  | None => (Some interval_ms, [])
  | Some agent_config =>
      let new_interval_ms := static_report_interval_ms_or_default agent_config in
      let out := jobs "agent_report_static" agent_config (static_json data) in
      if negb (new_interval_ms =? interval_ms)%Z
      then match new_interval new_interval_ms with Some ms => (Some ms, out) | None => (None, []) end
      else (Some interval_ms, out)
  end.

(** ** Full reports and summaries *)

Record ReportLoop : Type := { rl_dynamic_ms : Z; rl_summary_ms : Z; rl_ticks_per_dynamic : Z; rl_tick_count : Z }.

Definition with_intervals (config : AgentConfig) : ReportLoop :=
  let dynamic_ms := dynamic_report_interval_ms_or_default config in
  let summary_ms := dynamic_summary_report_interval_ms_or_default config in
  {| rl_dynamic_ms := dynamic_ms; rl_summary_ms := summary_ms; rl_ticks_per_dynamic := (dynamic_ms / summary_ms)%Z; rl_tick_count := 0 |}.
Definition dynamic_start (config : AgentConfig) : ReportLoop := with_intervals config.
Definition set_count (n : Z) (st : ReportLoop) : ReportLoop :=
  {| rl_dynamic_ms := rl_dynamic_ms st; rl_summary_ms := rl_summary_ms st; rl_ticks_per_dynamic := rl_ticks_per_dynamic st; rl_tick_count := n |}.

Definition dynamic_tick (config : option AgentConfig) (data : Collected) (st : ReportLoop) : ReportLoop * list Job :=
  let st := set_count (rl_tick_count st + 1) st in
  match config with
  | None => (st, [])
  | Some agent_config =>
      let changed := negb (dynamic_summary_report_interval_ms_or_default agent_config =? rl_summary_ms st)%Z
                     || negb (dynamic_report_interval_ms_or_default agent_config =? rl_dynamic_ms st)%Z in
      let st := if changed then with_intervals agent_config else st in
      let summary_data := from_with_filter data (ac_dynamic_summary_select_disk agent_config) (ac_dynamic_summary_select_network_interface agent_config) in
      let summaries := jobs "agent_report_dynamic_summary" agent_config (summary_json summary_data) in
      if (rl_ticks_per_dynamic st <=? rl_tick_count st)%Z
      then (set_count 0 st, summaries ++ jobs "agent_report_dynamic" agent_config (dynamic_json data))
      else (st, summaries)
  end.

(** The ticks under one configuration. *)
Fixpoint dynamic_ticks (config : AgentConfig) (datas : list Collected) (st : ReportLoop) : list (list Job) :=
  match datas with
  | [] => []
  | data :: rest => let '(st', out) := dynamic_tick (Some config) data st in out :: dynamic_ticks config rest st'
  end.

(** ** The schedule *)

(** What the tick number [n] sends: summaries always, full reports at multiples of the interval. *)
Definition scheduled (config : AgentConfig) (n : Z) (data : Collected) : list Job :=
  jobs "agent_report_dynamic_summary" config
    (summary_json (from_with_filter data (ac_dynamic_summary_select_disk config) (ac_dynamic_summary_select_network_interface config))) ++
  (if (n * dynamic_summary_report_interval_ms_or_default config mod dynamic_report_interval_ms_or_default config =? 0)%Z
   then jobs "agent_report_dynamic" config (dynamic_json data) else []).

Lemma mul_mod_multiple n s k : (0 < s)%Z -> (0 < k)%Z -> ((n * s) mod (k * s) =? 0)%Z = (n mod k =? 0)%Z.
Proof using. intros Hs Hk. rewrite Z.mul_mod_distr_r by lia. destruct (Z.eqb_spec (n mod k) 0) as [->|Hn]; [done|]. apply Z.eqb_neq. nia. Qed.

Lemma ticks_scheduled config datas c base :
  let k := rl_ticks_per_dynamic (with_intervals config) in
  (0 < dynamic_summary_report_interval_ms_or_default config)%Z -> (0 < k)%Z ->
  dynamic_report_interval_ms_or_default config = (k * dynamic_summary_report_interval_ms_or_default config)%Z ->
  (0 <= c < k)%Z -> (base mod k = c)%Z ->
  dynamic_ticks config datas (set_count c (with_intervals config)) = imap (fun i data => scheduled config (base + Z.of_nat i + 1) data) datas.
Proof using.
  intros k Hs Hk Hd. revert c base. induction datas as [|data datas IH]; intros c base Hc Hb; [done|].
  cbn [dynamic_ticks imap]. unfold dynamic_tick. cbn -[with_intervals k scheduled].
  change (rl_summary_ms (with_intervals config)) with (dynamic_summary_report_interval_ms_or_default config).
  change (rl_dynamic_ms (with_intervals config)) with (dynamic_report_interval_ms_or_default config). rewrite !Z.eqb_refl. cbn -[with_intervals k scheduled].
  change (rl_ticks_per_dynamic (with_intervals config)) with k.
  assert (scheduled config (base + 0 + 1) data =
    jobs "agent_report_dynamic_summary" config
      (summary_json (from_with_filter data (ac_dynamic_summary_select_disk config) (ac_dynamic_summary_select_network_interface config))) ++
    (if (k <=? c + 1)%Z then jobs "agent_report_dynamic" config (dynamic_json data) else [])) as Hout.
  { unfold scheduled. rewrite Hd, mul_mod_multiple by done. do 2 f_equal. rewrite Z.add_0_r, <- Zplus_mod_idemp_l, Hb.
    destruct (Z.leb_spec k (c + 1)) as [Hle|Hlt]; [|rewrite Z.mod_small by lia; destruct (Z.eqb_spec (c + 1) 0); [lia|done]].
    replace (c + 1)%Z with k by lia. by rewrite Z.mod_same by lia. }
  destruct (Z.leb_spec k (c + 1)) as [Hle|Hlt].
  - f_equal; [exact (eq_sym Hout)|]. change (set_count 0 (set_count (c + 1) (set_count c (with_intervals config)))) with (set_count 0 (with_intervals config)).
    rewrite (IH 0%Z (base + 1)%Z).
    + apply imap_ext. intros i x _. simpl. f_equal. lia.
    + lia.
    + rewrite <- Zplus_mod_idemp_l, Hb. replace (c + 1)%Z with k by lia. by apply Z.mod_same; lia.
  - f_equal; [rewrite app_nil_r in Hout; exact (eq_sym Hout)|]. change (set_count (c + 1) (set_count c (with_intervals config))) with (set_count (c + 1) (with_intervals config)).
    rewrite (IH (c + 1)%Z (base + 1)%Z).
    + apply imap_ext. intros i x _. simpl. f_equal. lia.
    + lia.
    + rewrite <- Zplus_mod_idemp_l, Hb. by apply Z.mod_small; lia.
Qed.

(** under a configuration the agent accepts, every tick sends a summary to every server, and full
    reports are sent exactly when a multiple of their interval has passed since the loop started.  A change of
    the intervals takes effect at the next tick, which sends summaries only and starts the count again. *)
Theorem reports_on_schedule config datas :
  check_agent_config config = Ok config -> in_u64 (dynamic_report_interval_ms_or_default config) -> in_u64 (dynamic_summary_report_interval_ms_or_default config) ->
  dynamic_ticks config datas (dynamic_start config) = imap (fun i data => scheduled config (Z.of_nat i + 1) data) datas /\
  (forall st data, rl_summary_ms st <> dynamic_summary_report_interval_ms_or_default config \/ rl_dynamic_ms st <> dynamic_report_interval_ms_or_default config ->
    dynamic_tick (Some config) data st =
      (dynamic_start config, jobs "agent_report_dynamic_summary" config
         (summary_json (from_with_filter data (ac_dynamic_summary_select_disk config) (ac_dynamic_summary_select_network_interface config))))).
Proof using.
  intros [_ (_ & Hd0 & Hs0 & Hdiv & _)]%check_agent_ok [Hd _] [Hs _]. destruct Hdiv as [k Hk].
  set (s := dynamic_summary_report_interval_ms_or_default config) in *. set (d := dynamic_report_interval_ms_or_default config) in *.
  assert (rl_ticks_per_dynamic (with_intervals config) = k) as Hkk by (simpl; fold s d; rewrite Hk; apply Z.div_mul; lia).
  assert (0 < k)%Z as Hkpos by nia. split.
  - change (dynamic_start config) with (set_count 0 (with_intervals config)).
    rewrite (ticks_scheduled config datas 0 0); rewrite ?Hkk; fold s d; [|try lia..]. { apply imap_ext. intros i x _. simpl. f_equal. } all: try done.
  - intros st data Hne. unfold dynamic_tick. cbn [rl_summary_ms rl_dynamic_ms set_count]. fold s d.
    replace (negb (s =? rl_summary_ms st)%Z || negb (d =? rl_dynamic_ms st)%Z) with true.
    2:{ destruct (Z.eqb_spec s (rl_summary_ms st)), (Z.eqb_spec d (rl_dynamic_ms st)); naive_solver. }
    rewrite Hkk. cbn [rl_tick_count with_intervals]. by destruct (Z.leb_spec k 0); [lia|].
Qed.

End reports.

(** ** Examples *)

Definition report_server : Server := {|
  srv_name := "main"; srv_server_uuid := "u"; srv_token := "k:s"; srv_ws_url := "wss://x"; srv_allow_task := None; srv_allow_icmp_ping := None;
  srv_allow_tcp_ping := None; srv_allow_http_ping := None; srv_allow_web_shell := None; srv_allow_read_config := None; srv_allow_edit_config := None;
  srv_allow_execute := None; srv_allow_http_request := None; srv_allow_ip := None; srv_allow_dns := None; srv_allow_version := None;
  srv_allow_self_update := None; srv_ignore_cert := None; srv_allow_task_type := None |}%string.
Definition report_config (dynamic summary static : Z) : AgentConfig := {|
  ac_log_level := Some "info"%string; ac_dynamic_report_interval_ms := Some dynamic; ac_dynamic_summary_report_interval_ms := Some summary;
  ac_static_report_interval_ms := Some static; ac_agent_uuid := 1%N; ac_connect_timeout_ms := None; ac_exec_max_character := None;
  ac_terminal_shell := None; ac_ip_provider := None; ac_ntp_server := None; ac_dynamic_summary_select_disk := None;
  ac_dynamic_summary_select_network_interface := None; ac_server := Some [report_server] |}.

Lemma reports_on_schedule_witness :
  map (map jb_method) (dynamic_ticks (fun _ => Some "{}"%string) (fun _ => Some "{}"%string) (report_config 3000 1500 1000)
    [sample_data; sample_data; sample_data] (dynamic_start (report_config 3000 1500 1000))) =
  [["agent_report_dynamic_summary"]; ["agent_report_dynamic_summary"; "agent_report_dynamic"]; ["agent_report_dynamic_summary"]]%string.
Proof.
  rewrite (proj1 (reports_on_schedule (fun _ => Some "{}"%string) (fun _ => Some "{}"%string) (report_config 3000 1500 1000)
    [sample_data; sample_data; sample_data] eq_refl ltac:(by vm_compute) ltac:(by vm_compute))). reflexivity.
Defined.

(** An interval of zero for static data passes the checks of the configuration, although those of the other
    two reports do not, and ends the task that sends static data by a panic. *)
Theorem zero_static_interval : forall config, config = report_config 1000 1000 0 ->
  check_agent_config config = Ok config /\ static_start config = None.
Proof. by intros config ->. Qed.

(** ** Interfaces to the outside *)

Record InterfaceFacts : Type := { fa_name : string; fa_ifindex : option Z; fa_is_virtual : bool }.
Definition Outlets : Type := list ((string * option Z) * bool).

Definition key_of (f : InterfaceFacts) : string * option Z := (fa_name f, fa_ifindex f).
Definition select_by_kernel (facts : list InterfaceFacts) : list (string * option Z) := map key_of (List.filter (fun f => negb (fa_is_virtual f)) facts).
Definition select_by_container (facts : list InterfaceFacts) : list (string * option Z) :=
  map key_of (List.filter (fun f => starts_with (fa_name f) "eth" || String.eqb (fa_name f) "venet0") facts).
Definition is_outlet_by_name (name : string) : bool := negb (is_virtual_interface name).

(** [OutletCache]: the map, and whether the warning for containers was given. *)
Record OutletCache : Type := { oc_identified : gmap (string * option Z) bool; oc_warned : bool }.

Definition insert_all (b : bool) (keys : list (string * option Z)) (m : gmap (string * option Z) bool) : gmap (string * option Z) bool :=
  fold_left (fun m k => <[k := b]> m) keys m.

(** [facts] is what the kernel lists now, [in_container] whether a file marks a container. *)
Definition identify_outlet (facts : list InterfaceFacts) (in_container : bool) (name : string) (ifindex : option Z) (c : OutletCache) : OutletCache * bool :=
  let key := (name, ifindex) in
  match oc_identified c !! key with
  | Some is_outlet => (c, is_outlet)
  | None =>
      match facts with
      | [] => let is_outlet := is_outlet_by_name name in ({| oc_identified := {[ key := is_outlet ]}; oc_warned := oc_warned c |}, is_outlet)
      | _ =>
          let by_kernel := select_by_kernel facts in
          let '(selected, warned) := match by_kernel with
            | [] => (select_by_container facts, oc_warned c || in_container)
            | _ => (by_kernel, oc_warned c)
            end in
          let m := insert_all true selected (insert_all false (map key_of facts) ∅) in
          ({| oc_identified := m; oc_warned := warned |}, default false (m !! key))
      end
  end.

Lemma outlets_insert_lookup b keys m k : insert_all b keys m !! k = if bool_decide (k ∈ keys) then Some b else m !! k.
Proof.
  unfold insert_all. revert m. induction keys as [|x keys IH]; intros m; simpl; [done|]. rewrite IH.
  destruct (decide (k = x)) as [->|Hne].
  - rewrite (bool_decide_eq_true_2 (x ∈ x :: keys)) by left. case_bool_decide; [done|]. by rewrite lookup_insert_eq.
  - rewrite lookup_insert_ne by done. case_bool_decide as H1; case_bool_decide as H2; try done; set_solver.
Qed.

(** The interfaces that count as outlets: those that are not virtual, or, if all are, the usual names in a container. *)
Definition outlets (facts : list InterfaceFacts) : list (string * option Z) :=
  match select_by_kernel facts with [] => select_by_container facts | l => l end.

(** The cache knows the interfaces of one reading, each with the right answer. *)
Definition cache_of (facts : list InterfaceFacts) (c : OutletCache) : Prop :=
  forall k, oc_identified c !! k = if bool_decide (k ∈ map key_of facts) then Some (bool_decide (k ∈ outlets facts)) else None.

Lemma outlets_listed facts k : k ∈ outlets facts -> k ∈ map key_of facts.
Proof.
  assert (forall p, k ∈ map key_of (List.filter p facts) -> k ∈ map key_of facts) as H.
  { intros p (f & -> & Hf)%list_elem_of_fmap. apply list_elem_of_fmap. exists f. split; [done|].
    apply list_elem_of_In. apply list_elem_of_In, filter_In in Hf. tauto. }
  unfold outlets. destruct (select_by_kernel facts) eqn:E; [apply H|]. rewrite <- E. apply H.
Qed.

(** An interface the cache does not know makes it read the list of interfaces again; afterwards it holds exactly
    the interfaces of that list, and an interface is an outlet exactly when it is listed and not virtual
    or, where every interface is virtual, has the name of a container's interface. *)
Theorem outlets_identified facts in_container name ifindex c c' b :
  facts <> [] -> oc_identified c !! (name, ifindex) = None -> identify_outlet facts in_container name ifindex c = (c', b) ->
  cache_of facts c' /\ b = bool_decide ((name, ifindex) ∈ outlets facts) /\
  forall facts' w n i, (n, i) ∈ map key_of facts -> identify_outlet facts' w n i c' = (c', bool_decide ((n, i) ∈ outlets facts)).
Proof.
  intros Hf Hn. unfold identify_outlet at 1. rewrite Hn. destruct facts as [|f facts0] eqn:Ef; [done|]. rewrite <- Ef in *. clear Ef.
  assert (exists warned, (match select_by_kernel facts with [] => (select_by_container facts, oc_warned c || in_container) | _ => (select_by_kernel facts, oc_warned c) end) = (outlets facts, warned)) as [warned Hsel].
  { unfold outlets. destruct (select_by_kernel facts); eauto. }
  rewrite Hsel. intros [= <- <-].
  assert (cache_of facts {| oc_identified := insert_all true (outlets facts) (insert_all false (map key_of facts) ∅); oc_warned := warned |}) as Hc.
  { intros k. cbn [oc_identified]. rewrite !outlets_insert_lookup, lookup_empty. case_bool_decide as H1; [|done].
    rewrite (bool_decide_eq_true_2 (k ∈ map key_of facts)) by by apply outlets_listed. done. }
  split; [done|]. split.
  - specialize (Hc (name, ifindex)). cbn [oc_identified] in Hc. rewrite Hc. case_bool_decide as H1; [done|]. simpl. symmetry. apply bool_decide_eq_false. intros H. by apply H1, outlets_listed.
  - intros facts' w n i Hin. unfold identify_outlet. specialize (Hc (n, i)). rewrite bool_decide_eq_true_2 in Hc by done. by rewrite Hc.
Qed.
