(* ===== verification/Logging.v ===== *)
(** * The log of the server

    [server/src/logging/mod.rs] and the methods [log] and [stream_log] of [server/src/rpc_nodeget.rs]: the ring of recent
    entries, virtual targets, the filters of subscribers and the delivery of entries to them.  The
    console and the log file are output only. *)
From Stdlib Require Import Ascii.
From stdpp Require Import base strings gmap list numbers sorting.
From S2P Require Import Prelude Errors Json Db Permission TokenCache Concrete TokenCheck KvAuth JsWorker NgConfig StaticHttp.

(** ** Events *)

Inductive Level : Type := ERROR | WARN | INFO | DEBUG | TRACE.
Inductive LevelFilter : Type := OFF | AtMost (l : Level).
Definition rank (l : Level) : nat := match l with ERROR => 1 | WARN => 2 | INFO => 3 | DEBUG => 4 | TRACE => 5 end.
Definition level_le (l : Level) (f : LevelFilter) : bool := match f with OFF => false | AtMost m => (rank l <=? rank m)%nat end.
Definition level_str (l : Level) : string :=
  match l with ERROR => "ERROR" | WARN => "WARN" | INFO => "INFO" | DEBUG => "DEBUG" | TRACE => "TRACE" end.

(** The typed values [tracing] hands to a visitor; [FvDebug] has its [Debug] text. *)
Inductive FieldValue : Type := FvF64 (bits : Z) | FvInt (z : Z) | FvBool (b : bool) | FvStr (s : string) | FvDebug (text : string).
Record LogEvent : Type := {
  le_level : Level; le_target : string; le_fields : list (string * FieldValue);
  le_spans : list (string * option string) }.   (** name and formatted fields *)

(** An [f64] that [json!] keeps as a number: its exponent is not all ones. *)
Definition f64_is_finite (bits : Z) : bool := negb (Z.land (Z.shiftr bits 52) 2047 =? 2047)%Z.

Record JsonFieldVisitor : Type := { vi_message : option string; vi_fields : list (string * Json) }.

Definition record_text (name text : string) (v : JsonFieldVisitor) : JsonFieldVisitor :=
  if String.eqb name "message" then {| vi_message := Some text; vi_fields := vi_fields v |}
  else {| vi_message := vi_message v; vi_fields := assoc_insert name (JString text) (vi_fields v) |}.
Definition record_value (name : string) (j : Json) (v : JsonFieldVisitor) : JsonFieldVisitor :=
  {| vi_message := vi_message v; vi_fields := assoc_insert name j (vi_fields v) |}.
Definition record_field (v : JsonFieldVisitor) (f : string * FieldValue) : JsonFieldVisitor :=
  match f.2 with
  | FvF64 bits => record_value f.1 (if f64_is_finite bits then JNum (NumFloat bits) else JNull) v
  | FvInt z => record_value f.1 (JNum (NumInt z)) v
  | FvBool b => record_value f.1 (JBool b) v
  | FvStr s | FvDebug s => record_text f.1 s v
  end.
Definition visit (fields : list (string * FieldValue)) : JsonFieldVisitor := fold_left record_field fields {| vi_message := None; vi_fields := [] |}.

Definition remap_target (target : string) : string := if starts_with target "sea_orm" || starts_with target "sqlx" then "db" else target.

(** [strip_ansi]: an escape drops the character after it and, for [\[], everything up to a letter. *)
Definition ESC : ascii := "027"%char.
Definition is_ascii_alphabetic (c : ascii) : bool :=
  let n := N_of_ascii c in ((65 <=? n) && (n <=? 90) || (97 <=? n) && (n <=? 122))%N.
Fixpoint drop_code (s : list ascii) : list ascii :=
  match s with [] => [] | c :: s' => if is_ascii_alphabetic c then s' else drop_code s' end.
Fixpoint strip_from (fuel : nat) (s : list ascii) : list ascii :=
  match fuel, s with
  | S fuel, c :: s' =>
      if Ascii.eqb c ESC then
        match s' with
        | [] => []
        | d :: _ => if Ascii.eqb d "[" then strip_from fuel (drop_code (tail s'))
                    else strip_from fuel (drop (utf8_char_width (byte_of d) `max` 1) s')
        end
      else c :: strip_from fuel s'
  | _, _ => []
  end.
Definition strip_ansi (s : string) : string :=
  let l := String.list_ascii_of_string s in String.string_of_list_ascii (strip_from (length l) l).

Definition span_value (span : string * option string) : Json :=
  JObject (("name"%string, JString span.1) ::
    match span.2 with Some f => if str_is_empty f then [] else [("fields"%string, JString (strip_ansi f))] | None => [] end).

(** [build_log_entry], with the text of the local time. *)
Definition build_log_entry (timestamp : string) (ev : LogEvent) : Json :=
  let v := visit (le_fields ev) in
  JObject [("timestamp", JString timestamp); ("level", JString (level_str (le_level ev))); ("target", JString (remap_target (le_target ev)));
           ("message", JString (unwrap_or EmptyString (vi_message v))); ("fields", JObject (vi_fields v)); ("spans", JArray (map span_value (le_spans ev)))]%string.

(** The line [NodeGetFormat] writes to the console; [fields] is the text of the event's fields. *)
Definition sgr (code : string) : string := String ESC ("[" +:+ code +:+ "m").
Definition level_ansi (l : Level) : string * string :=
  (sgr match l with ERROR => "31" | WARN => "33" | INFO => "32" | DEBUG => "34" | TRACE => "35" end, sgr "0").
Definition pad_left (width : nat) (s : string) : string := String.string_of_list_ascii (replicate (width - String.length s) " "%char) +:+ s.
Definition span_text (span : string * option string) : string :=
  match span.2 with Some f => if str_is_empty f then span.1 else span.1 +:+ "{" +:+ f +:+ "}" | None => span.1 end.
Definition format_event (ansi : bool) (timestamp fields : string) (ev : LogEvent) : string :=
  let level := pad_left 5 (level_str (le_level ev)) in
  let target := remap_target (le_target ev) in
  timestamp +:+ (if ansi then " " +:+ (level_ansi (le_level ev)).1 +:+ level +:+ (level_ansi (le_level ev)).2 +:+ " " else " " +:+ level +:+ " ")
  +:+ (if ansi then sgr "2" +:+ target +:+ sgr "0" +:+ ": " else target +:+ ": ") +:+ fields
  +:+ match le_spans ev with [] => EmptyString | spans => " [" +:+ String.concat " < " (map span_text spans) +:+ "]" end
  +:+ String "010"%char EmptyString.

(** ** The ring of recent entries *)

Definition DEFAULT_MEMORY_LOG_CAPACITY : nat := 500.
Definition memory_capacity (config : option LoggingConfig) : nat :=
  unwrap_or DEFAULT_MEMORY_LOG_CAPACITY (option_map Z.to_nat (config ≫= lg_memory_log_capacity)).

Fixpoint pop_front_to (cap : nat) (buf : list Json) : list Json :=
  match buf with [] => [] | _ :: rest => if (cap <=? length buf)%nat then pop_front_to cap rest else buf end.
Definition memory_log (cap : nat) (entry : Json) (buf : list Json) : list Json :=
  if (0 <? cap)%nat then pop_front_to cap buf ++ [entry] else buf.

(** ** Filters *)

Definition expand_directive (directive : string) : list string :=
  match strip_prefix "db=" directive with
  | Some level => ["db=" +:+ level; "sea_orm=" +:+ level; "sea_orm_migration=" +:+ level; "sqlx=" +:+ level]
  | None => if String.eqb directive "db" then ["db"; "sea_orm"; "sea_orm_migration"; "sqlx"]%string else [directive]
  end.
Definition directives (filter : string) : list string := List.filter (fun d => negb (str_is_empty d)) (map trim (split_char "," filter)).
Definition expand_virtual_targets (filter : string) : string := String.concat "," (concat (map expand_directive (directives filter))).

Definition parse_level_filter (s : string) : option LevelFilter :=
  if eq_ignore_ascii_case s "off" then Some OFF else
  if eq_ignore_ascii_case s "error" then Some (AtMost ERROR) else
  if eq_ignore_ascii_case s "warn" then Some (AtMost WARN) else
  if eq_ignore_ascii_case s "info" then Some (AtMost INFO) else
  if eq_ignore_ascii_case s "debug" then Some (AtMost DEBUG) else
  if eq_ignore_ascii_case s "trace" then Some (AtMost TRACE) else None.

Record StreamFilter : Type := { sf_default : LevelFilter; sf_targets : list (string * LevelFilter) }.

(** The stable sort by falling length. *)
Fixpoint insert_target (x : string * LevelFilter) (l : list (string * LevelFilter)) : list (string * LevelFilter) :=
  match l with
  | [] => [x]
  | y :: rest => if (String.length y.1 <=? String.length x.1)%nat then x :: l else y :: insert_target x rest
  end.
Definition sort_targets (l : list (string * LevelFilter)) : list (string * LevelFilter) := fold_right insert_target [] l.

Definition parse_directive (acc : LevelFilter * list (string * LevelFilter)) (directive : string) : LevelFilter * list (string * LevelFilter) :=
  let '(default_level, targets) := acc in
  match split_once "=" directive with
  | Some (target, level_str) =>
      match parse_level_filter (trim level_str) with Some level => (default_level, targets ++ [(trim target, level)]) | None => acc end
  | None => match parse_level_filter directive with Some level => (level, targets) | None => acc end
  end.
Definition parse_filter (filter_str : string) : StreamFilter :=
  let '(default_level, targets) := fold_left parse_directive (directives filter_str) (OFF, []) in
  {| sf_default := default_level; sf_targets := sort_targets targets |}.

Definition filter_enabled (f : StreamFilter) (ev : LogEvent) : bool :=
  match List.find (fun t => starts_with (le_target ev) t.1) (sf_targets f) with
  | Some (_, level) => level_le (le_level ev) level
  | None => level_le (le_level ev) (sf_default f)
  end.

(** The filters [init] gives the console, the log file and the ring: [RUST_LOG] comes before the configuration,
    the file and the ring fall back to the filter of the console; no ring without capacity.  The second component
    says whether the file could be opened. *)
Definition console_raw (rust_log : option string) (config : option LoggingConfig) : string :=
  unwrap_or (unwrap_or "info"%string (config ≫= lg_log_filter)) rust_log.
Definition init_filters (rust_log : option string) (config : option LoggingConfig) (opens : string -> bool) : string * option string * option string :=
  let console := console_raw rust_log config in
  (expand_virtual_targets console,
   path ← config ≫= lg_json_log_file; if opens path then Some (expand_virtual_targets (unwrap_or console (config ≫= lg_json_log_filter))) else None,
   if (0 <? memory_capacity config)%nat then Some (expand_virtual_targets (unwrap_or console (config ≫= lg_memory_log_filter))) else None).

(** ** Subscribers *)

Definition STREAM_QUEUE : nat := 512.
(** The receiver of a queue is dropped after its subscriber was removed, so a queue is open as long as it is found. *)
Record StreamLogSubscriber : Type := { sb_queue : list string; sb_filter : StreamFilter }.
Record StreamLogManager : Type := { sm_subscribers : gmap Uuid StreamLogSubscriber; sm_count : nat }.

(** The queue of a subscriber, with [try_send]. *)
Definition try_send (text : string) (s : StreamLogSubscriber) : StreamLogSubscriber :=
  if (length (sb_queue s) <? STREAM_QUEUE)%nat then {| sb_queue := sb_queue s ++ [text]; sb_filter := sb_filter s |} else s.

(** The two halves of [add_subscriber] and [remove_subscriber]: the map, and the count read from it and stored later. *)
Definition rcu_add (id : Uuid) (filter_str : string) (m : StreamLogManager) : StreamLogManager :=
  {| sm_subscribers := <[id := {| sb_queue := []; sb_filter := parse_filter (expand_virtual_targets filter_str) |}]> (sm_subscribers m);
     sm_count := sm_count m |}.
Definition rcu_remove (id : Uuid) (m : StreamLogManager) : StreamLogManager :=
  {| sm_subscribers := base.delete id (sm_subscribers m); sm_count := sm_count m |}.
Definition load_len (m : StreamLogManager) : nat := size (sm_subscribers m).
Definition store_count (n : nat) (m : StreamLogManager) : StreamLogManager := {| sm_subscribers := sm_subscribers m; sm_count := n |}.

Definition add_subscriber (id : Uuid) (filter_str : string) (m : StreamLogManager) : StreamLogManager :=
  let m' := rcu_add id filter_str m in store_count (load_len m') m'.
Definition remove_subscriber (id : Uuid) (m : StreamLogManager) : StreamLogManager :=
  let m' := rcu_remove id m in store_count (load_len m') m'.

Definition has_subscribers (m : StreamLogManager) : bool := (0 <? sm_count m)%nat.

(** [StreamLogLayer::on_event], with the text [serde_json] makes of an entry. *)
Definition stream_event (to_string : Json -> option string) (timestamp : string) (ev : LogEvent) (m : StreamLogManager) : StreamLogManager :=
  if negb (has_subscribers m) then m else
  match to_string (build_log_entry timestamp ev) with
  | None => m
  | Some t => {| sm_subscribers := (fun s => if filter_enabled (sb_filter s) ev then try_send t s else s) <$> sm_subscribers m; sm_count := sm_count m |}
  end.

(** The forwarding task takes the next entry of its queue; none and it waits. *)
Definition recv (id : Uuid) (m : StreamLogManager) : StreamLogManager * option string :=
  match sm_subscribers m !! id with
  | Some {| sb_queue := t :: rest; sb_filter := f |} =>
      ({| sm_subscribers := <[id := {| sb_queue := rest; sb_filter := f |}]> (sm_subscribers m); sm_count := sm_count m |}, Some t)
  | _ => (m, None)
  end.

(** ** Methods *)

Section methods.
Context {crypto : Crypto}.

(** [log]: the ring, for the super token. *)
Definition log_rpc (e : Env) (token : string) (buf : list Json) : result anyhow (list Json) :=
  let? token_or_auth := parse_token token in
  let? is_super := map_err (fun err => OfNodeget (PermissionDenied (anyhow_display err))) (check_super_token (e_globals e) token_or_auth) in
  if (is_super : bool) then Ok buf else denied "Permission Denied: Super token required".

(** [stream_log]: a code and text of a rejection, or a subscription. *)
Definition stream_log (e : Env) (sub_id : Uuid) (token log_filter : string) (m : StreamLogManager) : StreamLogManager * result (Z * string) unit :=
  match from_full_token token with
  | Err err => (m, Err (101%Z, "Token Parse Error: " +:+ err))
  | Ok token_or_auth =>
      match check_super_token (e_globals e) token_or_auth with
      | Err err => (m, Err (102%Z, "Permission check failed: " +:+ anyhow_display err))
      | Ok false => (m, Err (102%Z, "Permission Denied: Super token required"%string))
      | Ok true => (add_subscriber sub_id log_filter m, Ok tt)
      end
  end.
End methods.

(** ** Theorems

    The ring keeps the last entries in order, no escape code reaches the stored spans, a filter decides by
    the longest directive, a subscriber gets what it asked for while its queue has room, and the log is for the
    super token.  Two defects: the count of subscribers can fall behind the map, and a bare [db] is ignored. *)

(** ** The ring *)

Lemma pop_front_drop cap buf : (0 < cap)%nat -> pop_front_to cap buf = drop (S (length buf) - cap) buf.
Proof.
  intros Hc. induction buf as [|x buf IH]; [by rewrite drop_nil|]. cbn [pop_front_to length].
  destruct (Nat.leb_spec cap (S (length buf))) as [Hle|Hgt].
  - rewrite IH. replace (S (S (length buf)) - cap)%nat with (S (S (length buf) - cap))%nat by lia. done.
  - replace (S (S (length buf)) - cap)%nat with 0%nat by lia. done.
Qed.

Definition memory_logs (cap : nat) (entries : list Json) : list Json := fold_left (fun buf e => memory_log cap e buf) entries [].

Lemma memory_logs_last cap entries : (0 < cap)%nat -> memory_logs cap entries = drop (length entries - cap) entries.
Proof.
  intros Hc. unfold memory_logs. induction entries as [|e entries IH] using rev_ind; [done|].
  rewrite fold_left_app. simpl. rewrite IH. unfold memory_log. rewrite (proj2 (Nat.ltb_lt 0 cap) Hc), pop_front_drop, drop_drop by done.
  rewrite length_drop, length_app. simpl. rewrite drop_app_le by lia. do 2 f_equal. lia.
Qed.

(** ** Escape codes *)

Lemma drop_code_length s : (length (drop_code s) <= length s)%nat.
Proof. induction s as [|c s IH]; simpl; [lia|]. destruct (is_ascii_alphabetic c); simpl; lia. Qed.

Lemma strip_no_escape fuel s : ESC ∉ strip_from fuel s.
Proof.
  revert s. induction fuel as [|fuel IH]; intros [|c s]; simpl; try (intros []%elem_of_nil || apply not_elem_of_nil).
  destruct (Ascii.eqb_spec c ESC) as [->|Hn].
  - destruct s as [|d s]; [apply not_elem_of_nil|]. destruct (Ascii.eqb d "["); apply IH.
  - apply not_elem_of_cons. split; [congruence|apply IH].
Qed.

Lemma strip_plain fuel s : (length s <= fuel)%nat -> ESC ∉ s -> strip_from fuel s = s.
Proof.
  revert s. induction fuel as [|fuel IH]; intros [|c s]; simpl; intros Hl Hn; try done; [lia|].
  apply not_elem_of_cons in Hn as [Hc Hs]. destruct (Ascii.eqb_spec c ESC) as [->|_]; [done|]. by rewrite IH by (done || lia).
Qed.

(** The text of a span has no escape code left, and text without one is kept. *)
Theorem strip_ansi_spec s :
  ESC ∉ String.list_ascii_of_string (strip_ansi s) /\ (ESC ∉ String.list_ascii_of_string s -> strip_ansi s = s).
Proof.
  unfold strip_ansi. rewrite String.list_ascii_of_string_of_list_ascii. split; [apply strip_no_escape|].
  intros Hn. rewrite strip_plain by done. apply String.string_of_list_ascii_of_string.
Qed.

(** ** Filters *)

Definition longer (x y : string * LevelFilter) : Prop := (String.length y.1 <= String.length x.1)%nat.

Lemma insert_target_perm x l : insert_target x l ≡ₚ x :: l.
Proof. induction l as [|y l IH]; simpl; [done|]. destruct (_ <=? _)%nat; [done|]. rewrite IH. apply Permutation_swap. Qed.

Lemma insert_target_sorted x l : StronglySorted longer l -> StronglySorted longer (insert_target x l).
Proof.
  induction 1 as [|y l Hs IH Hy]; simpl; [repeat constructor|]. destruct (Nat.leb_spec (String.length y.1) (String.length x.1)) as [Hle|Hgt].
  - constructor; [by constructor|]. constructor; [done|]. eapply Forall_impl; [exact Hy|]. unfold longer. intros z ?. lia.
  - constructor; [done|]. rewrite insert_target_perm. constructor; [unfold longer; lia|done].
Qed.

Lemma sort_targets_perm l : sort_targets l ≡ₚ l.
Proof. induction l as [|x l IH]; simpl; [done|]. by rewrite insert_target_perm, IH. Qed.

Lemma sort_targets_sorted l : StronglySorted longer (sort_targets l).
Proof. induction l; simpl; [constructor|by apply insert_target_sorted]. Qed.

Lemma find_longest target l t : StronglySorted longer l -> List.find (fun t => starts_with target t.1) l = Some t ->
  t ∈ l /\ starts_with target t.1 = true /\ forall t', t' ∈ l -> starts_with target t'.1 = true -> (String.length t'.1 <= String.length t.1)%nat.
Proof.
  induction 1 as [|y l Hs IH Hy]; simpl; [done|]. destruct (starts_with target y.1) eqn:E.
  - intros [= <-]. split; [by left|]. split; [done|]. intros t' [->|Hin]%elem_of_cons _; [done|]. by apply (proj1 (Forall_forall _ _) Hy).
  - intros Hf. destruct (IH Hf) as (Hin & Ht & Hmax). split; [by right|]. split; [done|].
    intros t' [->|Hin']%elem_of_cons Ht'; [congruence|by apply Hmax].
Qed.

(** The directives a filter text gives: target and level. *)
Definition target_directive (d : string) : option (string * LevelFilter) :=
  '(target, level) ← split_once "=" d; level ← parse_level_filter (trim level); Some (trim target, level).

Lemma parse_targets ds acc : (fold_left parse_directive ds acc).2 = acc.2 ++ omap target_directive ds.
Proof.
  revert acc. induction ds as [|d ds IH]; intros acc; [by rewrite app_nil_r|]. cbn [fold_left]. rewrite IH. destruct acc as [dl ts].
  unfold parse_directive. cbn [omap list_omap]. unfold target_directive at 2. destruct (split_once "=" d) as [[t l]|]; simpl.
  - destruct (parse_level_filter (trim l)); simpl; [by rewrite <- app_assoc|done].
  - by destruct (parse_level_filter d).
Qed.

Lemma filter_targets s : sf_targets (parse_filter s) ≡ₚ omap target_directive (directives s).
Proof.
  unfold parse_filter. destruct (fold_left _ _ _) as [dl ts] eqn:E. simpl. rewrite sort_targets_perm.
  pose proof (parse_targets (directives s) (OFF, [])) as H. rewrite E in H. simpl in H. by subst.
Qed.

(** An event is let through by the level of a longest directive whose target begins the event's, and
    by the default level when there is none. *)
Definition decided_by_longest (s : string) (ev : LogEvent) : Prop :=
  let ts := omap target_directive (directives s) in
  (exists t, t ∈ ts /\ starts_with (le_target ev) t.1 = true /\
     (forall t', t' ∈ ts -> starts_with (le_target ev) t'.1 = true -> (String.length t'.1 <= String.length t.1)%nat) /\
     filter_enabled (parse_filter s) ev = level_le (le_level ev) t.2) \/
  (forall t, t ∈ ts -> starts_with (le_target ev) t.1 = false) /\
  filter_enabled (parse_filter s) ev = level_le (le_level ev) (sf_default (parse_filter s)).

Lemma filter_by_longest s ev : decided_by_longest s ev.
Proof.
  unfold decided_by_longest, filter_enabled. destruct (List.find _ _) as [[p l]|] eqn:E.
  - left. exists (p, l). assert (StronglySorted longer (sf_targets (parse_filter s))) as Hs
      by (unfold parse_filter; destruct (fold_left _ _ _); apply sort_targets_sorted).
    destruct (find_longest _ _ _ Hs E) as (Hin & Ht & Hmax). setoid_rewrite <- (filter_targets s). eauto.
  - right. split; [|done]. intros t Ht. rewrite <- (filter_targets s) in Ht. apply list_elem_of_In in Ht. by apply (find_none _ _ E).
Qed.

(** ** Subscribers *)

Inductive StreamStep : Type := SAdd (id : Uuid) (filter : string) | SRemove (id : Uuid) | SEvent (timestamp : string) (ev : LogEvent) | SRecv (id : Uuid).

Section streams.
Context (to_string : Json -> option string).

Definition stream_step (m : StreamLogManager) (s : StreamStep) : StreamLogManager :=
  match s with
  | SAdd id f => add_subscriber id f m
  | SRemove id => remove_subscriber id m
  | SEvent ts ev => stream_event to_string ts ev m
  | SRecv id => (recv id m).1
  end.
Definition stream_run (steps : list StreamStep) (m : StreamLogManager) : StreamLogManager := fold_left stream_step steps m.

(** What the task of a subscriber takes from its queue during the steps. *)
Fixpoint pulled (id : Uuid) (steps : list StreamStep) (m : StreamLogManager) : list string :=
  match steps with
  | [] => []
  | s :: steps =>
      match s with SRecv id' => if decide (id' = id) then option_list (recv id m).2 else [] | _ => [] end ++ pulled id steps (stream_step m s)
  end.

(** The entries of the events a filter lets through. *)
Definition wanted (f : StreamFilter) (s : StreamStep) : option string :=
  match s with SEvent ts ev => if filter_enabled f ev then to_string (build_log_entry ts ev) else None | _ => None end.
Definition keeps_subscription (id : Uuid) (s : StreamStep) : bool :=
  match s with SAdd id' _ | SRemove id' => negb (bool_decide (id' = id)) | _ => true end.

Definition counted (m : StreamLogManager) : Prop := sm_count m = size (sm_subscribers m).

Lemma step_counted m s : counted m -> counted (stream_step m s).
Proof using.
  unfold counted. destruct s as [id f|id|ts ev|id]; simpl; intros Hm; try done.
  - unfold stream_event. destruct (has_subscribers m); simpl; [|done]. destruct (to_string _); simpl; [|done]. by rewrite map_size_fmap.
  - unfold recv. destruct (sm_subscribers m !! id) as [[[|t q] f]|] eqn:E; simpl; try done. by rewrite map_size_insert, E.
Qed.

Lemma run_counted steps m : counted m -> counted (stream_run steps m).
Proof using. unfold stream_run. revert m. induction steps as [|s steps IH]; intros m Hm; simpl; [done|]. by apply IH, step_counted. Qed.

Lemma counted_has m id s : counted m -> sm_subscribers m !! id = Some s -> has_subscribers m = true.
Proof using.
  intros Hc Hs. unfold has_subscribers. rewrite Hc. apply Nat.ltb_lt. assert (size (sm_subscribers m) ≠ 0%nat); [|lia].
  rewrite map_size_ne_0_lookup. eauto.
Qed.

Lemma step_lookup m s id q f : counted m -> keeps_subscription id s = true -> sm_subscribers m !! id = Some {| sb_queue := q; sb_filter := f |} ->
  exists q', sm_subscribers (stream_step m s) !! id = Some {| sb_queue := q'; sb_filter := f |} /\
    (match s with SRecv id' => if decide (id' = id) then option_list (recv id m).2 else [] | _ => [] end ++ q' =
     q ++ (if (length q <? STREAM_QUEUE)%nat then option_list (wanted f s) else [])).
Proof using.
  intros Hc Hk Hl. destruct s as [id' g|id'|ts ev|id']; simpl in *.
  - apply negb_true_iff, bool_decide_eq_false in Hk. exists q. rewrite lookup_insert_ne by done. split; [done|]. destruct (_ <? _)%nat; by rewrite app_nil_r.
  - apply negb_true_iff, bool_decide_eq_false in Hk. exists q. rewrite lookup_delete_ne by done. split; [done|]. destruct (_ <? _)%nat; by rewrite app_nil_r.
  - unfold stream_event. rewrite (counted_has m id _ Hc Hl). simpl. destruct (filter_enabled f ev) eqn:Ef.
    + destruct (to_string _) as [t|]; simpl; [|exists q; split; [done|]; destruct (_ <? _)%nat; by rewrite app_nil_r].
      rewrite lookup_fmap, Hl. simpl. rewrite Ef. unfold try_send. simpl. destruct (_ <? _)%nat; simpl; [eauto|]. exists q. by rewrite app_nil_r.
    + exists q. split; [|destruct (_ <? _)%nat; by rewrite app_nil_r]. destruct (to_string _); simpl; [|done]. rewrite lookup_fmap, Hl. simpl. by rewrite Ef.
  - destruct (decide (id' = id)) as [->|Hn].
    + unfold recv. rewrite Hl. destruct q as [|t q]; simpl.
      * exists []. split; done.
      * exists q. rewrite lookup_insert_eq. split; [done|]. destruct (_ <? _)%nat; by rewrite app_nil_r.
    + exists q. split; [|destruct (_ <? _)%nat; by rewrite app_nil_r]. unfold recv. destruct (sm_subscribers m !! id') as [[[|t q'] f']|]; simpl; try done.
      by rewrite lookup_insert_ne.
Qed.

(** A subscriber is handed entries it wants, in the order of the events, none twice; all of them as
    long as no more than its queue holds were sent. *)
Lemma run_delivers steps m id q f : counted m -> Forall (fun s => keeps_subscription id s = true) steps ->
  sm_subscribers m !! id = Some {| sb_queue := q; sb_filter := f |} ->
  exists q', sm_subscribers (stream_run steps m) !! id = Some {| sb_queue := q'; sb_filter := f |} /\
    sublist (pulled id steps m ++ q') (q ++ omap (wanted f) steps) /\
    ((length (q ++ omap (wanted f) steps) <= STREAM_QUEUE)%nat -> pulled id steps m ++ q' = q ++ omap (wanted f) steps).
Proof using.
  revert m q. induction steps as [|s steps IH]; intros m q Hc Hk Hl.
  - exists q. simpl. rewrite app_nil_r. done.
  - apply Forall_cons in Hk as [Hk1 Hk]. destruct (step_lookup m s id q f Hc Hk1 Hl) as (q1 & Hl1 & Hq1).
    destruct (IH _ q1 (step_counted m s Hc) Hk Hl1) as (q' & Hl' & Hsub & Heq).
    exists q'. split; [done|]. cbn [pulled omap list_omap]. rewrite <- app_assoc.
    assert (forall l, match wanted f s with Some y => y :: l | None => l end = option_list (wanted f s) ++ l) as Hw by (by destruct (wanted f s)).
    rewrite Hw. split.
    + etrans; [apply sublist_app; [reflexivity|exact Hsub]|]. rewrite (app_assoc _ q1), Hq1, <- (app_assoc q).
      apply sublist_app; [reflexivity|]. apply sublist_app; [|reflexivity]. destruct (_ <? _)%nat; [reflexivity|apply sublist_nil_l].
    + intros Hlen. rewrite !length_app in Hlen.
      assert ((if (length q <? STREAM_QUEUE)%nat then option_list (wanted f s) else []) = option_list (wanted f s)) as Hroom.
      { destruct (Nat.ltb_spec (length q) STREAM_QUEUE) as [|Hge]; [done|]. destruct (wanted f s); simpl in *; [lia|done]. }
      rewrite Hroom in Hq1. assert (length q1 <= length q + length (option_list (wanted f s)))%nat as Hle
        by (rewrite <- (length_app q), <- Hq1, length_app; lia).
      rewrite Heq by (rewrite length_app; lia). by rewrite (app_assoc _ q1), Hq1, <- app_assoc.
Qed.
End streams.

(** ** Who sees the log *)

Definition of_super_token {crypto : Crypto} (e : Env) (token : string) : Prop := exists t, from_full_token token = Ok t /\ check_super_token (e_globals e) t = Ok true.

Lemma log_rpc_super {crypto : Crypto} e token buf l : log_rpc e token buf = Ok l -> of_super_token e token /\ l = buf.
Proof.
  unfold log_rpc, parse_token, of_super_token. destruct (from_full_token token) as [t|]; simpl; [|done].
  destruct (check_super_token _ t) as [[]|] eqn:E; simpl; try done. intros [= <-]. eauto.
Qed.

Lemma stream_log_cases {crypto : Crypto} e id token f m :
  (of_super_token e token /\ stream_log e id token f m = (add_subscriber id f m, Ok tt)) \/
  (~ of_super_token e token /\ exists rejection, stream_log e id token f m = (m, Err rejection)).
Proof.
  unfold stream_log, of_super_token. destruct (from_full_token token) as [t|err]; [|right; split; [intros (? & ? & _); congruence|eauto]].
  destruct (check_super_token _ t) as [[]|err] eqn:E; [left; eauto| |]; (right; split; [intros (? & [= <-] & ?); congruence|eauto]).
Qed.

Section claim.
Context {crypto : Crypto} (to_string : Json -> option string).

(** the log query answers the super token and nobody else, with the last entries in their order, as many as
    the ring holds.  A log stream is opened for the super token only; other callers leave the subscribers as
    they were.  An event passes a filter by the level of a longest directive whose target it begins with, else by
    the default level.  Once opened, whatever other subscribers come, go and read, its queue and what was read from it
    are entries of events its filter lets through, in order and without repetition, and all of them while
    no more were logged than the queue holds. *)
Theorem logs_kept_and_streamed e token filter cap entries id before after m :
  let m0 := stream_run to_string before m in
  let f := parse_filter (expand_virtual_targets filter) in
  (0 < cap)%nat -> counted m -> Forall (fun s => keeps_subscription id s = true) after ->
  (forall l, log_rpc e token (memory_logs cap entries) = Ok l -> of_super_token e token /\ l = drop (length entries - cap) entries) /\
  (~ of_super_token e token -> (stream_log e id token filter m0).1 = m0) /\
  (forall ev, decided_by_longest (expand_virtual_targets filter) ev) /\
  (of_super_token e token ->
     let m1 := (stream_log e id token filter m0).1 in
     exists q, sm_subscribers (stream_run to_string after m1) !! id = Some {| sb_queue := q; sb_filter := f |} /\
       sublist (pulled to_string id after m1 ++ q) (omap (wanted to_string f) after) /\
       ((length (omap (wanted to_string f) after) <= STREAM_QUEUE)%nat -> pulled to_string id after m1 ++ q = omap (wanted to_string f) after)).
Proof using.
  intros m0 f Hcap Hm Hafter. split; [|split; [|split; [intros ev; apply filter_by_longest|]]].
  - intros l [Hs ->]%log_rpc_super. by rewrite memory_logs_last.
  - intros Hn. destruct (stream_log_cases e id token filter m0) as [[Hs _]|[_ [r ->]]]; done.
  - intros Hs m1. assert (m1 = add_subscriber id filter m0) as -> by (unfold m1; destruct (stream_log_cases e id token filter m0) as [[_ ->]|[? _]]; done).
    apply (run_delivers to_string after (add_subscriber id filter m0) id [] f); [done|done|].
    unfold add_subscriber. simpl. by rewrite lookup_insert_eq.
Qed.
End claim.

Definition no_subscribers : StreamLogManager := {| sm_subscribers := ∅; sm_count := 0 |}.
Definition sample_event (level : Level) (target : string) : LogEvent :=
  {| le_level := level; le_target := target; le_fields := [("message"%string, FvStr "hello")]; le_spans := [] |}.
Definition message_of (entry : Json) : option string :=
  match entry with JObject o => match assoc "message" o, assoc "target" o with Some (JString s), Some (JString t) => Some (t +:+ ": " +:+ s) | _, _ => None end | _ => None end.

Lemma logs_kept_and_streamed_witness :
  exists q, sm_subscribers (stream_run message_of [SEvent "t" (sample_event INFO "sqlx::query"); SEvent "t" (sample_event DEBUG "sqlx"); SEvent "t" (sample_event WARN "rpc")]
      (stream_log sample_env 7%N "rootkey:rootsecret" "warn,db=info" no_subscribers).1) !! (7%N : Uuid) = Some {| sb_queue := q; sb_filter := parse_filter (expand_virtual_targets "warn,db=info") |} /\
    q = ["db: hello"; "rpc: hello"]%string.
Proof.
  pose (after := [SEvent "t" (sample_event INFO "sqlx::query"); SEvent "t" (sample_event DEBUG "sqlx"); SEvent "t" (sample_event WARN "rpc")]).
  destruct (logs_kept_and_streamed message_of sample_env "rootkey:rootsecret" "warn,db=info" 5 [] 7%N [] after no_subscribers) as (_ & _ & _ & H);
    [lia|reflexivity|repeat constructor|].
  destruct H as (q & Hl & _ & Hq); [exists (Auth_Token "rootkey" "rootsecret"); split; [reflexivity|vm_compute; reflexivity]|]. exists q. split; [exact Hl|].
  exact (Hq ltac:(apply Nat.leb_le; vm_compute; reflexivity)).
Defined.

(** ** Defects *)

(** A subscriber that joins while another leaves can be left with a count of zero, because the count is read from
    the map and stored in two steps: nothing is delivered to it until the next subscriber comes or goes. *)
Theorem count_falls_behind to_string (old new : Uuid) filter q f : old <> new ->
  let m := {| sm_subscribers := {[ old := {| sb_queue := q; sb_filter := f |} ]}; sm_count := 1 |} in
  let leaving := rcu_remove old m in
  let seen := load_len leaving in
  let m' := store_count seen (add_subscriber new filter leaving) in
  is_Some (sm_subscribers m' !! new) /\ forall events, fold_left (fun m ev => stream_event to_string ev.1 ev.2 m) events m' = m'.
Proof.
  intros Hn m leaving seen m'. split; [unfold m'; simpl; rewrite lookup_insert_eq; eauto|].
  assert (seen = 0%nat) as Hs by (unfold seen, load_len, leaving, m; simpl; rewrite delete_singleton_eq; apply map_size_empty).
  intros events. induction events as [|[ts ev] events IH]; [done|]. simpl.
  replace (stream_event to_string ts ev m') with m'; [exact IH|]. unfold stream_event, has_subscribers, m'. simpl. by rewrite Hs.
Qed.

(** [db] without a level enables the three database targets in an [EnvFilter]; the filter of a stream drops the directive. *)
Theorem bare_target_ignored ev : filter_enabled (parse_filter (expand_virtual_targets "db")) ev = false.
Proof. reflexivity. Qed.
