(* ===== verification/Timescale.v ===== *)
(** * Time series in TimescaleDB

    [ng-db/src/timescale.rs]: at start-up the tables of monitoring data become hypertables, and the policies
    that compress and delete their chunks are set to the configuration.  A statement has the text the
    code sends and the meaning TimescaleDB documents for it. *)
From Stdlib Require Import Ascii.
From stdpp Require Import base strings gmap list numbers pretty.
From S2P Require Import Prelude NgConfig.

Record TimescaleTable : Type := { tt_name : string; tt_pk_name : string; tt_time_column : string; tt_segment_by : string }.

Definition MS_PER_HOUR : Z := 3600000.
Definition MS_PER_DAY : Z := 86400000.
Definition NOW_FUNC : string := "ng_epoch_ms_now".

Definition TIMESCALE_TABLES : list TimescaleTable := [
  {| tt_name := "dynamic_monitoring"; tt_pk_name := "dynamic_monitoring_pkey"; tt_time_column := "timestamp"; tt_segment_by := "uuid_id" |};
  {| tt_name := "dynamic_monitoring_summary"; tt_pk_name := "dynamic_monitoring_summary_pkey"; tt_time_column := "timestamp"; tt_segment_by := "uuid_id" |};
  {| tt_name := "traffic_snapshot"; tt_pk_name := "traffic_snapshot_pkey"; tt_time_column := "snapshot_time"; tt_segment_by := "uuid_id" |}].

(** ** Durations *)

Definition duration_too_large (value : Z) (unit : string) : string := "timescale 时长配置过大（" +:+ pretty value +:+ " " +:+ unit +:+ "），超出 SQL BIGINT 毫秒上限".

(** [checked_mul] of [u64], then [i64::try_from]. *)
Definition duration_to_ms (value unit_ms : Z) (unit : string) : result string Z :=
  let ms := (value * unit_ms)%Z in
  if (u64_max <? ms)%Z then Err (duration_too_large value unit) else
  if (i64_max <? ms)%Z then Err (duration_too_large value unit) else Ok ms.
Definition hours_to_ms (hours : Z) : result string Z := duration_to_ms hours MS_PER_HOUR "小时".
Definition days_to_ms (days : Z) : result string Z := duration_to_ms days MS_PER_DAY "天".

Definition compression_schedule_ms (actual_chunk_ms : option Z) (fallback_ms : Z) : Z :=
  match actual_chunk_ms with Some ms => if (0 <? ms)%Z then ms else fallback_ms | None => fallback_ms end.

(** ** SQL texts *)

Definition interval_ms_literal (ms : Z) : string := pretty ms +:+ " * INTERVAL '1 millisecond'".

(** [str::replace] of one character by two of it. *)
Fixpoint double_char (c : ascii) (s : string) : string :=
  match s with
  | EmptyString => EmptyString
  | String a s' => if Ascii.eqb a c then String a (String a (double_char c s')) else String a (double_char c s')
  end.
Definition DQ : ascii := "034"%char.
Definition SQ : ascii := "039"%char.
Definition quote_ident (s : string) : string := String DQ (double_char DQ s +:+ String DQ EmptyString).
Definition regclass_literal (schema name : string) : string :=
  String SQ (double_char SQ (quote_ident schema +:+ "." +:+ quote_ident name) +:+ String SQ EmptyString).

Definition conversion_sql (table : TimescaleTable) (table_ref pk_ref table_regclass : string) (chunk_ms : Z) : string * string * string :=
  let time := quote_ident (tt_time_column table) in
  ("SELECT 1 FROM " +:+ table_ref +:+ " WHERE " +:+ time +:+ " IS NULL LIMIT 1",
   "ALTER TABLE " +:+ table_ref +:+ " DROP CONSTRAINT IF EXISTS " +:+ pk_ref +:+ "; ALTER TABLE " +:+ table_ref +:+ " ADD PRIMARY KEY (id, " +:+ time +:+ ");",
   "SELECT create_hypertable(" +:+ table_regclass +:+ ", '" +:+ tt_time_column table +:+ "', chunk_time_interval => " +:+ pretty chunk_ms +:+ ", migrate_data => true);").

Definition compression_enable_sql (table : TimescaleTable) (table_ref : string) : string :=
  "ALTER TABLE " +:+ table_ref +:+ " SET (timescaledb.compress, timescaledb.compress_segmentby = '" +:+ tt_segment_by table
  +:+ "', timescaledb.compress_orderby = '" +:+ tt_time_column table +:+ " DESC');".

Definition create_now_sql (func_ref : string) : string :=
  "CREATE OR REPLACE FUNCTION " +:+ func_ref
  +:+ "() RETURNS BIGINT LANGUAGE SQL STABLE PARALLEL SAFE AS $$ SELECT (extract(epoch FROM now()) * 1000)::BIGINT $$;".
Definition remove_retention_sql (table_regclass : string) : string := "SELECT remove_retention_policy(" +:+ table_regclass +:+ ", if_exists => true);".
Definition set_retention_sql (table_regclass : string) (ms : Z) : string :=
  remove_retention_sql table_regclass +:+ " SELECT add_retention_policy(" +:+ table_regclass +:+ ", drop_after => " +:+ pretty ms +:+ ");".
Definition set_compression_sql (table_regclass : string) (ms schedule_ms : Z) : string :=
  "SELECT remove_compression_policy(" +:+ table_regclass +:+ ", if_exists => true); SELECT add_compression_policy(" +:+ table_regclass
  +:+ ", compress_after => " +:+ pretty ms +:+ ", schedule_interval => " +:+ interval_ms_literal schedule_ms +:+ ");".

(** ** The database *)

(** What a table is to TimescaleDB: the chunk interval of a hypertable, rows without a time, the function
    for the present time, compression, its policy (delay and schedule) and the retention policy. *)
Record TableState : Type := {
  tb_hypertable : option Z; tb_wide_key : bool; tb_null_time : bool; tb_now_func : bool;
  tb_compressed : bool; tb_compression : option (Z * Z); tb_retention : option Z }.
Record TsState : Type := { tss_extension : bool; tss_schema : option string; tss_now : bool; tss_tables : gmap string TableState }.

Inductive Ddl : Type :=
| CreateNow
| WidenKey (table : string)
| CreateHypertable (table : string) (chunk_ms : Z)
| SetNowFunc (table : string)
| SetRetention (table : string) (drop_after : Z)
| RemoveRetention (table : string)
| EnableCompression (table : string)
| SetCompression (table : string) (after schedule : Z).
Record Stmt : Type := { st_sql : string; st_meaning : Ddl }.

Inductive Probe : Type -> Type :=
| HasExtension : Probe bool
| CurrentSchema : Probe (option (option string))   (** a row, and a value that may be NULL *)
| HasNull (table : string) : Probe bool
| IsHypertable (table : string) : Probe bool
| CompressionEnabled (table : string) : Probe bool
| HasNowFunc (table : string) : Probe bool
| ChunkInterval (table : string) : Probe (option Z).

Definition target (s : Ddl) : option string :=
  match s with
  | CreateNow => None
  | WidenKey t | CreateHypertable t _ | SetNowFunc t | SetRetention t _ | RemoveRetention t | EnableCompression t | SetCompression t _ _ => Some t
  end.

Definition table_effect (s : Ddl) (t : TableState) : TableState :=
  match s with
  | CreateNow => t
  | WidenKey _ => {| tb_hypertable := tb_hypertable t; tb_wide_key := true; tb_null_time := tb_null_time t; tb_now_func := tb_now_func t;
                     tb_compressed := tb_compressed t; tb_compression := tb_compression t; tb_retention := tb_retention t |}
  | CreateHypertable _ ms => {| tb_hypertable := Some ms; tb_wide_key := tb_wide_key t; tb_null_time := tb_null_time t; tb_now_func := tb_now_func t;
                     tb_compressed := tb_compressed t; tb_compression := tb_compression t; tb_retention := tb_retention t |}
  | SetNowFunc _ => {| tb_hypertable := tb_hypertable t; tb_wide_key := tb_wide_key t; tb_null_time := tb_null_time t; tb_now_func := true;
                     tb_compressed := tb_compressed t; tb_compression := tb_compression t; tb_retention := tb_retention t |}
  | SetRetention _ ms => {| tb_hypertable := tb_hypertable t; tb_wide_key := tb_wide_key t; tb_null_time := tb_null_time t; tb_now_func := tb_now_func t;
                     tb_compressed := tb_compressed t; tb_compression := tb_compression t; tb_retention := Some ms |}
  | RemoveRetention _ => {| tb_hypertable := tb_hypertable t; tb_wide_key := tb_wide_key t; tb_null_time := tb_null_time t; tb_now_func := tb_now_func t;
                     tb_compressed := tb_compressed t; tb_compression := tb_compression t; tb_retention := None |}
  | EnableCompression _ => {| tb_hypertable := tb_hypertable t; tb_wide_key := tb_wide_key t; tb_null_time := tb_null_time t; tb_now_func := tb_now_func t;
                     tb_compressed := true; tb_compression := tb_compression t; tb_retention := tb_retention t |}
  | SetCompression _ after schedule => {| tb_hypertable := tb_hypertable t; tb_wide_key := tb_wide_key t; tb_null_time := tb_null_time t; tb_now_func := tb_now_func t;
                     tb_compressed := tb_compressed t; tb_compression := Some (after, schedule); tb_retention := tb_retention t |}
  end.

Definition effect (s : Ddl) (st : TsState) : TsState :=
  match target s with
  | None => {| tss_extension := tss_extension st; tss_schema := tss_schema st; tss_now := true; tss_tables := tss_tables st |}
  | Some t => {| tss_extension := tss_extension st; tss_schema := tss_schema st; tss_now := tss_now st; tss_tables := alter (table_effect s) t (tss_tables st) |}
  end.

Definition on_table {A} (dflt : A) (f : TableState -> A) (t : string) (st : TsState) : A :=
  match tss_tables st !! t with Some x => f x | None => dflt end.
Definition answer {A} (p : Probe A) (st : TsState) : A :=
  match p in Probe A return A with
  | HasExtension => tss_extension st
  | CurrentSchema => Some (tss_schema st)
  | HasNull t => on_table false tb_null_time t st
  | IsHypertable t => on_table false (fun x => bool_decide (is_Some (tb_hypertable x))) t st
  | CompressionEnabled t => on_table false (fun x => bool_decide (is_Some (tb_hypertable x)) && tb_compressed x) t st
  | HasNowFunc t => on_table false tb_now_func t st
  | ChunkInterval t => on_table None tb_hypertable t st
  end.

(** The connection, and what is relied on: a statement is carried out whole or fails without effect, fails
    for a table that does not exist, and a query changes nothing. *)
Class TsOps (D : Type) : Type := {
  ts_is_postgres : D -> bool;
  ts_execute : Stmt -> D -> D * result string unit;
  ts_query : forall A, string -> Probe A -> D -> D * result string A }.
Arguments ts_query {D _ A} sql p d.

Class TsLaws {D} (ops : TsOps D) (state : D -> TsState) : Prop := {
  ts_execute_ok s d d' : ts_execute s d = (d', Ok tt) ->
    state d' = effect (st_meaning s) (state d) /\ (forall t, target (st_meaning s) = Some t -> is_Some (tss_tables (state d) !! t));
  ts_execute_err s d d' e : ts_execute s d = (d', Err e) -> state d' = state d;
  ts_query_same A sql (p : Probe A) d : state (ts_query sql p d).1 = state d;
  ts_query_ok A sql (p : Probe A) d d' a : ts_query sql p d = (d', Ok a) -> a = answer p (state d) }.

(** ** Set-up *)

Inductive TsOutcome : Type :=
| NotPostgres | Disabled | NoExtension | ProbeFailed | InvalidConfig | NoSchema | NoNowFunction
| Applied (failures : nat).

Definition default_timescale : TimescaleConfig :=
  {| tsc_enabled := None; tsc_chunk_interval_hours := None; tsc_compress_after_hours := None;
     tsc_chunk_interval_days := None; tsc_compress_after_days := None; tsc_retention_days := 0 |}.

Section setup.
Context {D : Type} {ops : TsOps D}.
#[local] Notation Ts := (M D string).

Definition run_stmt (sql : string) (meaning : Ddl) : Ts unit := fun d => ts_execute {| st_sql := sql; st_meaning := meaning |} d.

Definition has_timescale_extension : Ts bool := fun d => ts_query "SELECT 1 FROM pg_extension WHERE extname = 'timescaledb' LIMIT 1" HasExtension d.
Definition current_schema : Ts string :=
  let! row := (fun d => ts_query "SELECT current_schema() AS schema" CurrentSchema d) in
  let! value := lift (ok_or "failed to query current_schema()"%string row) in
  match value with
  | Some s => if str_is_empty s then mfail "current_schema() returned NULL/empty"%string else mret s
  | None => mfail "current_schema() returned NULL/empty"%string
  end.
(** The queries of the catalogue; the name of the table is their parameter. *)
Definition is_hypertable (table : string) : Ts bool := fun d =>
  ts_query "SELECT 1 FROM timescaledb_information.hypertables WHERE hypertable_name = $1 AND hypertable_schema = current_schema() LIMIT 1" (IsHypertable table) d.
Definition is_compression_enabled (table : string) : Ts bool := fun d =>
  ts_query "SELECT 1 FROM timescaledb_information.hypertables WHERE hypertable_name = $1 AND hypertable_schema = current_schema() AND compression_enabled LIMIT 1"
    (CompressionEnabled table) d.
Definition has_integer_now_func (table : string) : Ts bool := fun d =>
  ts_query "SELECT 1 FROM timescaledb_information.dimensions WHERE hypertable_name = $1 AND hypertable_schema = current_schema() AND integer_now_func IS NOT NULL LIMIT 1"
    (HasNowFunc table) d.
Definition chunk_interval_ms (table : string) : Ts (option Z) := fun d =>
  ts_query "SELECT COALESCE(integer_interval, (extract(epoch FROM time_interval) * 1000))::BIGINT AS ms FROM timescaledb_information.dimensions WHERE hypertable_name = $1 AND hypertable_schema = current_schema() ORDER BY dimension_number LIMIT 1"
    (ChunkInterval table) d.

Definition retention_unusable (config : TimescaleConfig) : bool :=
  (0 <? tsc_retention_days config)%Z && negb (is_ok (days_to_ms (tsc_retention_days config))).

Definition reconcile_table (schema : string) (d : D) (table : TimescaleTable) : D :=
  match is_hypertable (tt_name table) d with
  | (d', Ok false) => d'
  | (d', _) => (run_stmt (remove_retention_sql (regclass_literal schema (tt_name table))) (RemoveRetention (tt_name table)) d').1
  end.
Definition reconcile_retention_on_skip (config : TimescaleConfig) (d : D) : D :=
  if negb ((tsc_retention_days config =? 0)%Z || retention_unusable config) then d else
  match current_schema d with
  | (d', Err _) => d'
  | (d', Ok schema) => fold_left (reconcile_table schema) TIMESCALE_TABLES d'
  end.

Definition apply_retention_policy (table : TimescaleTable) (config : TimescaleConfig) (table_regclass : string) (d : D) : D * bool :=
  if (0 <? tsc_retention_days config)%Z then
    match days_to_ms (tsc_retention_days config) with
    | Err _ => (d, false)
    | Ok ms => let '(d', r) := run_stmt (set_retention_sql table_regclass ms) (SetRetention (tt_name table) ms) d in (d', is_ok r)
    end
  else let '(d', r) := run_stmt (remove_retention_sql table_regclass) (RemoveRetention (tt_name table)) d in (d', is_ok r).

Definition apply_compression (table : TimescaleTable) (config : TimescaleConfig) (table_ref table_regclass : string) : Ts unit :=
  let! enabled := is_compression_enabled (tt_name table) in
  let! _ := if enabled : bool then mret tt else run_stmt (compression_enable_sql table table_ref) (EnableCompression (tt_name table)) in
  let! configured_chunk_ms := lift (hours_to_ms (effective_chunk_interval_hours config)) in
  let! actual_chunk_ms := chunk_interval_ms (tt_name table) in
  let schedule_ms := compression_schedule_ms actual_chunk_ms configured_chunk_ms in
  let! compress_after_ms := lift (hours_to_ms (effective_compress_after_hours config)) in
  run_stmt (set_compression_sql table_regclass compress_after_ms schedule_ms) (SetCompression (tt_name table) compress_after_ms schedule_ms).

Definition null_time_text (table : TimescaleTable) : string :=
  "table " +:+ tt_name table +:+ " has rows with NULL " +:+ tt_time_column table +:+ "; cannot convert to hypertable. Remediation: `UPDATE "
  +:+ quote_ident (tt_name table) +:+ " SET " +:+ quote_ident (tt_time_column table) +:+ " = 0 WHERE " +:+ quote_ident (tt_time_column table)
  +:+ " IS NULL` (or delete those rows), then restart".

(** The conversion of a table that is not a hypertable yet. *)
Definition convert_table (table : TimescaleTable) (config : TimescaleConfig) (schema : string) : Ts unit :=
  let table_ref := quote_ident schema +:+ "." +:+ quote_ident (tt_name table) in
  let! chunk_ms := lift (hours_to_ms (effective_chunk_interval_hours config)) in
  let '(null_check_sql, pk_widen_sql, create_hypertable_sql) :=
    conversion_sql table table_ref (quote_ident (tt_pk_name table)) (regclass_literal schema (tt_name table)) chunk_ms in
  let! has_null_ts := (fun d => ts_query null_check_sql (HasNull (tt_name table)) d) in
  if has_null_ts : bool then mfail (null_time_text table) else
  let! _ := run_stmt pk_widen_sql (WidenKey (tt_name table)) in
  run_stmt create_hypertable_sql (CreateHypertable (tt_name table) chunk_ms).

Definition setup_table (table : TimescaleTable) (config : TimescaleConfig) (schema : string) : Ts bool :=
  let table_ref := quote_ident schema +:+ "." +:+ quote_ident (tt_name table) in
  let table_regclass := regclass_literal schema (tt_name table) in
  let! hypertable := is_hypertable (tt_name table) in
  let! _ := if hypertable : bool then mret tt else convert_table table config schema in
  let! registered := has_integer_now_func (tt_name table) in
  let! _ := if registered : bool then mret tt
            else run_stmt ("SELECT set_integer_now_func(" +:+ table_regclass +:+ ", " +:+ regclass_literal schema NOW_FUNC +:+ ");") (SetNowFunc (tt_name table)) in
  fun d =>
    let '(d1, retention_ok) := apply_retention_policy table config table_regclass d in
    let '(d2, compression) := apply_compression table config table_ref table_regclass d1 in
    (d2, Ok (is_ok compression && retention_ok)).

Definition setup_step (config : TimescaleConfig) (schema : string) (acc : D * nat) (table : TimescaleTable) : D * nat :=
  let '(d, failures) := acc in
  match setup_table table config schema d with
  | (d', Ok true) => (d', failures)
  | (d', _) => (d', S failures)
  end.

Definition setup_timescale_if_available (config : option TimescaleConfig) (d : D) : D * TsOutcome :=
  if negb (ts_is_postgres d) then (d, NotPostgres) else
  let config := unwrap_or default_timescale config in
  if negb (is_enabled config) then
    match has_timescale_extension d with
    | (d', Ok true) => (reconcile_retention_on_skip config d', Disabled)
    | (d', _) => (d', Disabled)
    end
  else
  match has_timescale_extension d with
  | (d', Ok false) => (d', NoExtension)
  | (d', Err _) => (d', ProbeFailed)
  | (d1, Ok true) =>
      match validate config with
      | Err _ => (reconcile_retention_on_skip config d1, InvalidConfig)
      | Ok _ =>
          match current_schema d1 with
          | (d2, Err _) => (d2, NoSchema)
          | (d2, Ok schema) =>
              match run_stmt (create_now_sql (quote_ident schema +:+ "." +:+ quote_ident NOW_FUNC)) CreateNow d2 with
              | (d3, Err _) => (reconcile_retention_on_skip config d3, NoNowFunction)
              | (d3, Ok _) =>
                  let '(d4, failures) := fold_left (setup_step config schema) TIMESCALE_TABLES (d3, 0%nat) in
                  (d4, Applied failures)
              end
          end
      end
  end.
End setup.

(** ** Theorems

    Set-up that reports no failure leaves every table as configured and changes nothing when it is run again;
    whatever fails, a retention policy is the old one or the configured one, and deletion stops when it is
    switched off; a failed look-up that leaves an old policy in place is exhibited. *)

Definition listed (t : string) : Prop := t ∈ map tt_name TIMESCALE_TABLES.

Lemma listed_table t : listed t -> exists tab, t = tt_name tab /\ tab ∈ TIMESCALE_TABLES.
Proof. apply list_elem_of_fmap. Qed.

Lemma table_names_nodup : NoDup (map tt_name TIMESCALE_TABLES).
Proof. apply (bool_decide_unpack (NoDup (map tt_name TIMESCALE_TABLES))). vm_compute. exact I. Qed.

(** What the configuration asks for. *)
Definition wanted_retention (config : TimescaleConfig) : option Z :=
  if (0 <? tsc_retention_days config)%Z then match days_to_ms (tsc_retention_days config) with Ok ms => Some ms | Err _ => None end else None.

Definition configured (config : TimescaleConfig) (x : TableState) : Prop :=
  exists chunk chunk_ms after, tb_hypertable x = Some chunk /\ tb_now_func x = true /\ tb_retention x = wanted_retention config /\ tb_compressed x = true /\
    hours_to_ms (effective_chunk_interval_hours config) = Ok chunk_ms /\ hours_to_ms (effective_compress_after_hours config) = Ok after /\
    tb_compression x = Some (after, compression_schedule_ms (Some chunk) chunk_ms).

(** The statements set-up may send. *)
Definition allowed (config : TimescaleConfig) (s : Ddl) : Prop :=
  (forall t, target s = Some t -> listed t) /\
  match s with
  | SetRetention _ ms => is_enabled config = true /\ is_ok (validate config) = true /\ wanted_retention config = Some ms
  | RemoveRetention _ => wanted_retention config = None
  | _ => is_enabled config = true /\ is_ok (validate config) = true
  end.

(** ** Statements sent *)

Inductive reach (P : Ddl -> Prop) : TsState -> TsState -> Prop :=
| reach_refl st : reach P st st
| reach_step s st st' : P s -> reach P (effect s st) st' -> reach P st st'.

Lemma reach_trans P a b c : reach P a b -> reach P b c -> reach P a c.
Proof. induction 1; [done|]. intros. by eapply reach_step; [|apply IHreach]. Qed.

Lemma reach_one (P : Ddl -> Prop) s st : P s -> reach P st (effect s st).
Proof. intros H. eapply reach_step; [done|constructor]. Qed.

Lemma reach_mono (P Q : Ddl -> Prop) a b : (forall s, P s -> Q s) -> reach P a b -> reach Q a b.
Proof. intros H. induction 1; [constructor|]. eapply reach_step; eauto. Qed.

Lemma effect_other s st t : target s <> Some t -> tss_tables (effect s st) !! t = tss_tables st !! t.
Proof. intros H. unfold effect. destruct (target s) as [t'|]; [|done]. simpl. rewrite lookup_alter_ne; [done|congruence]. Qed.

Lemma effect_own s st t x : target s = Some t -> tss_tables st !! t = Some x -> tss_tables (effect s st) !! t = Some (table_effect s x).
Proof. intros Ht Hx. unfold effect. rewrite Ht. simpl. by rewrite lookup_alter_eq, Hx. Qed.

Lemma reach_other P st st' t : (forall s, P s -> target s <> Some t) -> reach P st st' -> tss_tables st' !! t = tss_tables st !! t.
Proof. intros HP. induction 1 as [|s st st' Hs _ IH]; [done|]. rewrite IH. by apply effect_other, HP. Qed.

(** A relation on tables that every statement respects holds across a run. *)
Lemma reach_table (P : Ddl -> Prop) (R : TableState -> TableState -> Prop) `{!PreOrder R} st st' t x :
  (forall s y, P s -> target s = Some t -> R y (table_effect s y)) -> reach P st st' -> tss_tables st !! t = Some x ->
  exists x', tss_tables st' !! t = Some x' /\ R x x'.
Proof.
  intros HR Hr. revert x. induction Hr as [st|s st st' Hs _ IH]; intros x Hx; [by exists x|].
  destruct (decide (target s = Some t)) as [Ht|Hn].
  - destruct (IH _ (effect_own s st t x Ht Hx)) as (x' & Hx' & Hr). exists x'. split; [done|]. etrans; [by apply HR|done].
  - apply IH. by rewrite effect_other.
Qed.

Section runs.
Context {D : Type} {ops : TsOps D} {state : D -> TsState} {laws : TsLaws ops state}.

Definition issues {E A} (P : Ddl -> Prop) (m : M D E A) : Prop := forall d, reach P (state d) (state (m d).1).

Lemma issues_bind {E A B} P (m : M D E A) (k : A -> M D E B) : issues P m -> (forall a, issues P (k a)) -> issues P (mbind m k).
Proof using. intros Hm Hk d. unfold mbind. specialize (Hm d). destruct (m d) as [d' [a|e]]; simpl in *; [|done]. eapply reach_trans; [done|apply Hk]. Qed.
Lemma issues_pure {E A} P (r : result E A) : issues P (fun d : D => (d, r)).
Proof using. intros d. constructor. Qed.
Lemma issues_query {A} P sql (p : Probe A) : issues P (fun d => ts_query sql p d).
Proof using laws. intros d. rewrite (ts_query_same A sql p d). constructor. Qed.
Lemma execute_state sql m d d' r : run_stmt sql m d = (d', r) -> state d' = if is_ok r then effect m (state d) else state d.
Proof using laws. unfold run_stmt. destruct r as [[]|e]; simpl; intros H; [by apply ts_execute_ok in H as [? _]|by apply ts_execute_err in H]. Qed.
Lemma issues_execute (P : Ddl -> Prop) sql m : P m -> issues P (run_stmt sql m).
Proof using laws.
  intros Hm d. destruct (run_stmt sql m d) as [d' r] eqn:E. simpl. rewrite (execute_state _ _ _ _ _ E).
  destruct (is_ok r); [by apply reach_one|constructor].
Qed.

#[local] Hint Resolve issues_query issues_pure : core.
Ltac walk :=
  repeat match goal with
  | |- issues _ (mbind _ _) => apply issues_bind; [|intros ?]
  | |- issues _ (lift _) => apply issues_pure
  | |- issues _ (mret _) => apply issues_pure
  | |- issues _ (mfail _) => apply issues_pure
  | |- issues _ (match ?x with _ => _ end) => destruct x
  | |- issues _ (run_stmt _ _) => apply issues_execute
  | |- issues _ _ => solve [eauto]
  end.

Lemma schema_issues P : issues P current_schema.
Proof using laws. unfold current_schema. walk. Qed.

(** The statements about one table. *)
Definition about (t : TimescaleTable) (s : Ddl) : Prop := target s = Some (tt_name t).

Lemma apply_retention_issues config t cls d :
  is_enabled config = true -> is_ok (validate config) = true ->
  reach (fun s => about t s /\ (t ∈ TIMESCALE_TABLES -> allowed config s)) (state d) (state (apply_retention_policy t config cls d).1).
Proof using laws.
  intros He Hv. unfold apply_retention_policy. assert (t ∈ TIMESCALE_TABLES -> listed (tt_name t)) as Hl by (intros ?; apply list_elem_of_fmap; eauto).
  destruct (0 <? tsc_retention_days config)%Z eqn:Ed.
  - destruct (days_to_ms _) as [ms|] eqn:Em; [|constructor]. destruct (run_stmt _ _ d) as [d' r] eqn:E. simpl. rewrite (execute_state _ _ _ _ _ E).
    destruct (is_ok r); [|constructor]. apply reach_one. split; [done|]. intros Hin. split; [intros ? [= <-]; auto|].
    split; [done|]. split; [done|]. unfold wanted_retention. by rewrite Ed, Em.
  - destruct (run_stmt _ _ d) as [d' r] eqn:E. simpl. rewrite (execute_state _ _ _ _ _ E). destruct (is_ok r); [|constructor].
    apply reach_one. split; [done|]. intros Hin. split; [intros ? [= <-]; auto|]. unfold wanted_retention. by rewrite Ed.
Qed.

Lemma setup_table_issues config t schema :
  is_enabled config = true -> is_ok (validate config) = true ->
  issues (fun s => about t s /\ (t ∈ TIMESCALE_TABLES -> allowed config s)) (setup_table t config schema).
Proof using laws.
  intros He Hv. assert (t ∈ TIMESCALE_TABLES -> listed (tt_name t)) as Hl by (intros ?; apply list_elem_of_fmap; eauto).
  unfold setup_table, is_hypertable, has_integer_now_func, convert_table. walk.
  1-3: (split; [done|]; intros Hin; split; [intros ? [= <-]; auto|done]).
  intros d. destruct (apply_retention_policy _ _ _ d) as [d1 rok] eqn:Er.
  pose proof (apply_retention_issues config t (regclass_literal schema (tt_name t)) d He Hv) as H1. rewrite Er in H1.
  assert (issues (fun s => about t s /\ (t ∈ TIMESCALE_TABLES -> allowed config s)) (apply_compression t config (quote_ident schema +:+ "." +:+ quote_ident (tt_name t)) (regclass_literal schema (tt_name t)))) as H2.
  { unfold apply_compression, is_compression_enabled, chunk_interval_ms. walk. all: (split; [done|]; intros Hin; split; [intros ? [= <-]; auto|done]). }
  specialize (H2 d1). destruct (apply_compression _ _ _ _ d1) as [d2 r2]. simpl in *. eapply reach_trans; eauto.
Qed.

Lemma reconcile_issues config d :
  reach (fun s => allowed config s /\ exists t, s = RemoveRetention t) (state d) (state (reconcile_retention_on_skip config d)).
Proof using laws.
  unfold reconcile_retention_on_skip. destruct (negb _) eqn:En; [constructor|]. apply negb_false_iff, orb_true_iff in En.
  assert (wanted_retention config = None) as Hw.
  { unfold wanted_retention, retention_unusable in *. destruct En as [->%Z.eqb_eq|[-> Hn]%andb_true_iff]; [done|]. by destruct (days_to_ms _). }
  destruct (current_schema d) as [d1 [schema|e]] eqn:Es; [|pose proof (schema_issues (fun _ => False) d) as H; rewrite Es in H; eapply reach_mono; [|exact H]; done].
  eapply reach_trans; [pose proof (schema_issues (fun _ => False) d) as H; rewrite Es in H; eapply reach_mono; [|exact H]; done|]. cbn [fst].
  assert (forall l, (forall t, t ∈ l -> listed (tt_name t)) -> forall d, reach (fun s => allowed config s /\ exists t, s = RemoveRetention t) (state d) (state (fold_left (reconcile_table schema) l d))) as Hf.
  { clear -laws Hw. induction l as [|t l IH]; intros Hl d; [constructor|]. simpl. eapply reach_trans; [|apply IH; intros; apply Hl; by right].
    unfold reconcile_table, is_hypertable. pose proof (ts_query_same (ops := ops) (state := state) _ "SELECT 1 FROM timescaledb_information.hypertables WHERE hypertable_name = $1 AND hypertable_schema = current_schema() LIMIT 1" (IsHypertable (tt_name t)) d) as Hq.
    destruct (ts_query _ _ d) as [d' r] eqn:Eq. simpl in Hq. rewrite <- Hq.
    assert (reach (fun s => allowed config s /\ exists t, s = RemoveRetention t) (state d') (state (run_stmt (remove_retention_sql (regclass_literal schema (tt_name t))) (RemoveRetention (tt_name t)) d').1)) as He.
    { apply issues_execute. split; [|eauto]. split; [intros ? [= <-]; apply Hl; by left|done]. }
    destruct r as [[]|]; [exact He|constructor|exact He]. }
  apply Hf. intros t Ht. apply list_elem_of_fmap. eauto.
Qed.

Lemma setup_fold_issues config schema l : (forall t, t ∈ l -> t ∈ TIMESCALE_TABLES) -> is_enabled config = true -> is_ok (validate config) = true ->
  forall acc, reach (fun s => allowed config s /\ exists t, t ∈ l /\ about t s) (state acc.1) (state (fold_left (setup_step config schema) l acc).1).
Proof using laws.
  intros Hl He Hv. induction l as [|t l IH]; intros [d n]; [constructor|]. cbn [fold_left].
  eapply reach_trans; [|eapply reach_mono; [|apply IH; intros; apply Hl; by right]].
  - cbn [fst]. unfold setup_step. pose proof (setup_table_issues config t schema He Hv d) as H.
    destruct (setup_table t config schema d) as [d' [[]|]]; cbn [fst] in *;
      (eapply reach_mono; [|exact H]; intros s [Ha Hal]; split; [apply Hal, Hl; by left|exists t; split; [by left|done]]).
  - intros s (Ha & t' & Hin & Hab). split; [done|]. exists t'. split; [by right|done].
Qed.

Lemma setup_issues config0 d d' out : setup_timescale_if_available config0 d = (d', out) ->
  let config := unwrap_or default_timescale config0 in
  reach (fun s => allowed config s /\ (match out with Applied _ => True | _ => s = CreateNow \/ exists t, s = RemoveRetention t end)) (state d) (state d').
Proof using laws.
  intros H config. revert H. unfold setup_timescale_if_available. fold config.
  destruct (negb (ts_is_postgres d)); [intros [= <- <-]; constructor|].
  assert (forall d1 r, has_timescale_extension d = (d1, r) -> state d1 = state d) as Hext.
  { intros d1 r E. unfold has_timescale_extension in E. pose proof (ts_query_same (ops := ops) (state := state) _ "SELECT 1 FROM pg_extension WHERE extname = 'timescaledb' LIMIT 1" HasExtension d) as Hq. by rewrite E in Hq. }
  assert (forall d1 d2 r, current_schema d1 = (d2, r) -> state d2 = state d1) as Hsch.
  { intros d1 d2 r E. pose proof (schema_issues (fun _ => False) d1) as Hs. rewrite E in Hs. cbn [fst] in Hs. by inversion Hs. }
  destruct (negb (is_enabled config)) eqn:He; destruct (has_timescale_extension d) as [d1 [[]|]] eqn:Ee; pose proof (Hext _ _ eq_refl) as <-;
    try (intros [= <- <-]; constructor).
  - intros [= <- <-]. eapply reach_mono; [|apply reconcile_issues]. intros s [? ?]. split; [done|by right].
  - apply negb_false_iff in He. destruct (validate config) as [u|] eqn:Ev.
    2:{ intros [= <- <-]. eapply reach_mono; [|apply reconcile_issues]. intros s [? ?]. split; [done|by right]. }
    destruct (current_schema d1) as [d2 [schema|]] eqn:Es; pose proof (Hsch _ _ _ Es) as <-; [|intros [= <- <-]; constructor].
    destruct (run_stmt _ CreateNow d2) as [d3 r] eqn:En. apply execute_state in En.
    assert (forall Q : Ddl -> Prop, Q CreateNow -> reach Q (state d2) (state d3)) as H23 by (intros Q HQ; rewrite En; destruct (is_ok r); [by apply reach_one|constructor]).
    assert (allowed config CreateNow) as Hnow by (split; [done|by rewrite Ev]).
    destruct r as [u'|e].
    + destruct (fold_left _ _ _) as [d4 n] eqn:Ef. intros [= <- <-]. eapply reach_trans; [apply H23; done|].
      pose proof (setup_fold_issues config schema TIMESCALE_TABLES (fun t Ht => Ht) He ltac:(by rewrite Ev) (d3, 0%nat)) as Hf. rewrite Ef in Hf. cbn [fst] in Hf.
      eapply reach_mono; [|exact Hf]. naive_solver.
    + intros [= <- <-]. eapply reach_trans; [apply H23; auto|]. eapply reach_mono; [|apply reconcile_issues]. intros s [? ?]. split; [done|by right].
Qed.
End runs.

Section outcome.
Context {D : Type} {ops : TsOps D} {state : D -> TsState} {laws : TsLaws ops state}.

Lemma query_state {A} sql (p : Probe A) d d' r : ts_query sql p d = (d', r) -> state d' = state d.
Proof using laws. intros H. pose proof (ts_query_same A sql p d) as Hs. by rewrite H in Hs. Qed.

Lemma query_run {A} sql (p : Probe A) d d' a : ts_query sql p d = (d', Ok a) -> state d' = state d /\ a = answer p (state d).
Proof using laws.
  intros H. split; [by eapply query_state|by eapply ts_query_ok].
Qed.

Lemma execute_run sql m d d' : run_stmt sql m d = (d', Ok tt) -> forall t x, target m = Some t -> tss_tables (state d) !! t = Some x ->
  tss_tables (state d') !! t = Some (table_effect m x).
Proof using laws. intros H t x Ht Hx. apply execute_state in H. simpl in H. rewrite H. by apply effect_own. Qed.

Lemma execute_target sql m d d' : run_stmt sql m d = (d', Ok tt) -> forall t, target m = Some t -> is_Some (tss_tables (state d) !! t).
Proof using laws. intros H t Ht. unfold run_stmt in H. apply ts_execute_ok in H as [_ H]. by apply H. Qed.

Lemma hypertable_run t d d' b : is_hypertable t d = (d', Ok b) -> state d' = state d /\ b = on_table false (fun x => bool_decide (is_Some (tb_hypertable x))) t (state d).
Proof using laws. apply (query_run _ (IsHypertable t)). Qed.
Lemma now_func_run t d d' b : has_integer_now_func t d = (d', Ok b) -> state d' = state d /\ b = on_table false tb_now_func t (state d).
Proof using laws. apply (query_run _ (HasNowFunc t)). Qed.
Lemma compressed_run t d d' b : is_compression_enabled t d = (d', Ok b) ->
  state d' = state d /\ b = on_table false (fun x => bool_decide (is_Some (tb_hypertable x)) && tb_compressed x) t (state d).
Proof using laws. apply (query_run _ (CompressionEnabled t)). Qed.
Lemma chunk_run t d d' c : chunk_interval_ms t d = (d', Ok c) -> state d' = state d /\ c = on_table None tb_hypertable t (state d).
Proof using laws. apply (query_run _ (ChunkInterval t)). Qed.

(** The table is a hypertable after the first half. *)
Lemma convert_ok config schema t d d' : convert_table t config schema d = (d', Ok tt) ->
  exists x, tss_tables (state d') !! tt_name t = Some x /\ is_Some (tb_hypertable x).
Proof using laws.
  unfold convert_table. intros H. inv_ok. destruct (conversion_sql _ _ _ _ _) as [[q1 q2] q3]. inv_ok.
  match goal with H : (if ?b then _ else _) _ = _ |- _ => destruct b; [done|] end. inv_ok.
  match goal with H : run_stmt _ (CreateHypertable _ _) ?d = _ |- _ => destruct (execute_target _ _ _ _ H _ eq_refl) as [y Hy]; pose proof (execute_run _ _ _ _ H _ _ eq_refl Hy) end.
  eexists. split; [done|]. simpl. eauto.
Qed.

Lemma on_table_true f t st : on_table false f t st = true -> exists x, tss_tables st !! t = Some x /\ f x = true.
Proof using. unfold on_table. destruct (tss_tables st !! t); naive_solver. Qed.

Lemma retention_ok config t cls d d' x : tss_tables (state d) !! tt_name t = Some x -> apply_retention_policy t config cls d = (d', true) ->
  tss_tables (state d') !! tt_name t = Some (table_effect (match wanted_retention config with Some ms => SetRetention (tt_name t) ms | None => RemoveRetention (tt_name t) end) x).
Proof using laws.
  intros Hx. unfold apply_retention_policy, wanted_retention. destruct (0 <? tsc_retention_days config)%Z.
  - destruct (days_to_ms _) as [ms|]; [|done]. destruct (run_stmt _ _ d) as [d1 [[]|]] eqn:E; [|done]. intros [= <-].
    exact (execute_run _ _ _ _ E _ _ eq_refl Hx).
  - destruct (run_stmt _ _ d) as [d1 [[]|]] eqn:E; [|done]. intros [= <-]. exact (execute_run _ _ _ _ E _ _ eq_refl Hx).
Qed.

Lemma compression_ok config t ref cls d d' x chunk : tss_tables (state d) !! tt_name t = Some x -> tb_hypertable x = Some chunk ->
  apply_compression t config ref cls d = (d', Ok tt) ->
  exists chunk_ms after, hours_to_ms (effective_chunk_interval_hours config) = Ok chunk_ms /\ hours_to_ms (effective_compress_after_hours config) = Ok after /\
    tss_tables (state d') !! tt_name t =
      Some (table_effect (SetCompression (tt_name t) after (compression_schedule_ms (Some chunk) chunk_ms)) (table_effect (EnableCompression (tt_name t)) x)).
Proof using laws.
  intros Hx Hc. unfold apply_compression. intros H. apply mbind_ok in H as (d1 & b & [Hs ->]%compressed_run & H).
  apply mbind_ok in H as (d2 & [] & H2 & H). rewrite mbind_lift in H. destruct (hours_to_ms (effective_chunk_interval_hours config)) as [chunk_ms|]; [|done].
  apply mbind_ok in H as (d3 & c & [Hs' ->]%chunk_run & H). rewrite mbind_lift in H.
  destruct (hours_to_ms (effective_compress_after_hours config)) as [after|]; [|done]. exists chunk_ms, after. split; [done|]. split; [done|].
  assert (tss_tables (state d2) !! tt_name t = Some (table_effect (EnableCompression (tt_name t)) x)) as Hx2.
  { rewrite <- Hs in Hx. destruct (on_table _ _ _ _) eqn:Eo.
    - injection H2 as <-. rewrite Hx. unfold on_table in Eo. rewrite <- Hs, Hx in Eo. apply andb_true_iff in Eo as [_ Ec]. destruct x; simpl in *. by subst.
    - exact (execute_run _ _ _ _ H2 _ _ eq_refl Hx). }
  rewrite <- Hs' in Hx2. rewrite (execute_run _ _ _ _ H _ _ eq_refl Hx2). unfold on_table. rewrite <- Hs', Hx2. cbn [tb_hypertable table_effect]. by rewrite Hc.
Qed.

Lemma setup_table_ok config schema t d d' : setup_table t config schema d = (d', Ok true) ->
  exists x, tss_tables (state d') !! tt_name t = Some x /\ configured config x.
Proof using laws.
  unfold setup_table. intros H. apply mbind_ok in H as (d1 & h & [Hs ->]%hypertable_run & H). apply mbind_ok in H as (d2 & [] & H2 & H).
  assert (exists x, tss_tables (state d2) !! tt_name t = Some x /\ is_Some (tb_hypertable x)) as (x & Hx & chunk & Hc).
  { destruct (on_table _ _ _ _) eqn:Eo; [|by apply convert_ok in H2]. injection H2 as <-. rewrite Hs.
    apply on_table_true in Eo as (x & Hx & Hb%bool_decide_eq_true). eauto. }
  clear H2 Hs. apply mbind_ok in H as (d3 & n & [Hs ->]%now_func_run & H). rewrite <- Hs in Hx. apply mbind_ok in H as (d4 & [] & H4 & H).
  assert (exists y, tss_tables (state d4) !! tt_name t = Some y /\ tb_hypertable y = Some chunk /\ tb_now_func y = true) as (y & Hy & Hyc & Hyn).
  { destruct (on_table _ _ _ _) eqn:Eo.
    - injection H4 as <-. rewrite <- Hs in Eo. apply on_table_true in Eo as (y & Hy & Hn). exists y. rewrite Hx in Hy. by injection Hy as <-.
    - eexists. split; [exact (execute_run _ _ _ _ H4 _ _ eq_refl Hx)|]. done. }
  destruct (apply_retention_policy _ _ _ d4) as [d5 rok] eqn:Er. destruct (apply_compression _ _ _ _ d5) as [d6 [[]|]] eqn:Ec; [|done].
  injection H as <- Hr. simpl in Hr. subst rok. pose proof (retention_ok _ _ _ _ _ _ Hy Er) as Hr.
  eapply compression_ok in Ec as (chunk_ms & after & H1 & H2 & H3); [|exact Hr|by destruct (wanted_retention config)].
  eexists. split; [exact H3|]. exists chunk, chunk_ms, after. simpl. by destruct (wanted_retention config).
Qed.

(** Set-up of the tables of a list, one after the other. *)
Lemma setup_fold_ok config schema l : NoDup (map tt_name l) -> (forall t, t ∈ l -> t ∈ TIMESCALE_TABLES) -> is_enabled config = true -> is_ok (validate config) = true ->
  forall d n d', fold_left (setup_step config schema) l (d, n) = (d', 0%nat) ->
  n = 0%nat /\ forall t, t ∈ l -> exists x, tss_tables (state d') !! tt_name t = Some x /\ configured config x.
Proof using laws.
  intros Hnd Hl He Hv. induction l as [|t l IH]; intros d n d' H; [injection H as <- ->; split; [done|by intros ? ?%elem_of_nil]|].
  inversion_clear Hnd as [|? ? Hn Hnd']. rename Hnd' into Hnd. specialize (IH Hnd (fun t Ht => Hl t ltac:(by right))). cbn [fold_left] in H.
  destruct (setup_step config schema (d, n) t) as [d1 n1] eqn:E. destruct (IH _ _ _ H) as [-> Hrest].
  assert (setup_table t config schema d = (d1, Ok true) /\ n = 0%nat) as [Ht ->].
  { unfold setup_step in E. destruct (setup_table t config schema d) as [d2 [[]|]]; [by injection E as <- ->|discriminate E..]. }
  split; [done|]. intros t' [->|Hin]%elem_of_cons; [|by apply Hrest].
  apply setup_table_ok in Ht as (x & Hx & Hc). exists x. split; [|done]. rewrite <- Hx.
  pose proof (setup_fold_issues config schema l (fun t Ht => Hl t ltac:(by right)) He Hv (d1, 0%nat)) as Hr. rewrite H in Hr.
  eapply reach_other; [|exact Hr]. intros s (_ & t' & Hin & Hab) Heq. unfold about in Hab. apply Hn. rewrite Heq in Hab. injection Hab as ->.
  apply list_elem_of_fmap. eauto.
Qed.

(** ** Running set-up again *)

Lemma alter_idle {A} (f : A -> A) t (m : gmap string A) x : m !! t = Some x -> f x = x -> alter f t m = m.
Proof using.
  intros Hx Hf. apply map_eq. intros t'. destruct (decide (t = t')) as [<-|Hn]; [by rewrite lookup_alter_eq, Hx; simpl; rewrite Hf|by rewrite lookup_alter_ne].
Qed.

Lemma effect_idle m t st x : target m = Some t -> tss_tables st !! t = Some x -> table_effect m x = x -> tss_tables (effect m st) = tss_tables st.
Proof using. intros Ht Hx Hf. unfold effect. rewrite Ht. simpl. by eapply alter_idle. Qed.

Lemma execute_idle sql m t d x : target m = Some t -> tss_tables (state d) !! t = Some x -> table_effect m x = x ->
  tss_tables (state (run_stmt sql m d).1) = tss_tables (state d).
Proof using laws.
  intros Ht Hx Hf. destruct (run_stmt sql m d) as [d' r] eqn:E. simpl. rewrite (execute_state _ _ _ _ _ E). destruct (is_ok r); [|done]. by eapply effect_idle.
Qed.

Lemma retention_idle config x t : configured config x ->
  table_effect (match wanted_retention config with Some ms => SetRetention t ms | None => RemoveRetention t end) x = x.
Proof using. intros (? & ? & ? & _ & _ & Hr & _). destruct (wanted_retention config); destruct x; simpl in *; by subst. Qed.

Lemma apply_retention_idle config t cls d x : tss_tables (state d) !! tt_name t = Some x -> configured config x ->
  tss_tables (state (apply_retention_policy t config cls d).1) = tss_tables (state d).
Proof using laws.
  intros Hx Hc. pose proof (retention_idle config x (tt_name t) Hc) as Hr. revert Hr. unfold apply_retention_policy, wanted_retention.
  destruct (0 <? tsc_retention_days config)%Z; [destruct (days_to_ms _) as [ms|]; [|done]|]; intros Hr;
    match goal with |- context [run_stmt ?sql ?m d] => pose proof (execute_idle sql m (tt_name t) d x eq_refl Hx Hr) as H; destruct (run_stmt sql m d) end; exact H.
Qed.

Lemma apply_compression_idle config t ref cls d x : tss_tables (state d) !! tt_name t = Some x -> configured config x ->
  tss_tables (state (apply_compression t config ref cls d).1) = tss_tables (state d).
Proof using laws.
  intros Hx (chunk & chunk_ms & after & Hh & _ & _ & Hz & Hcm & Ha & Hp). unfold apply_compression.
  rewrite mbind_run. destruct (is_compression_enabled (tt_name t) d) as [d1 [b|e]] eqn:E1.
  2:{ apply query_state in E1. simpl. by rewrite E1. }
  apply compressed_run in E1 as [Hs ->]. unfold on_table. rewrite Hx, Hh, Hz. cbn [bool_decide]. rewrite bool_decide_true by eauto. cbn [andb].
  rewrite mbind_run. cbn [mret]. rewrite mbind_lift, Hcm, mbind_run.
  destruct (chunk_interval_ms (tt_name t) d1) as [d2 [c|e]] eqn:E2.
  2:{ apply query_state in E2. simpl. by rewrite E2, Hs. }
  apply chunk_run in E2 as [Hs2 ->]. unfold on_table. rewrite Hs, Hx, Hh, mbind_lift, Ha.
  rewrite (execute_idle _ _ (tt_name t) d2 x); [by rewrite Hs2, Hs|done|by rewrite Hs2, Hs|]. destruct x; simpl in *. by subst.
Qed.

Lemma setup_table_idle config schema t d x : tss_tables (state d) !! tt_name t = Some x -> configured config x ->
  tss_tables (state (setup_table t config schema d).1) = tss_tables (state d).
Proof using laws.
  intros Hx Hc. pose proof Hc as (chunk & chunk_ms & after & Hh & Hn & _). unfold setup_table.
  rewrite mbind_run. destruct (is_hypertable (tt_name t) d) as [d1 [b|e]] eqn:E1.
  2:{ apply query_state in E1. simpl. by rewrite E1. }
  apply hypertable_run in E1 as [Hs ->]. unfold on_table. rewrite Hx, Hh, bool_decide_true by eauto. rewrite mbind_run. cbn [mret]. rewrite mbind_run.
  destruct (has_integer_now_func (tt_name t) d1) as [d2 [b|e]] eqn:E2.
  2:{ apply query_state in E2. simpl. by rewrite E2, Hs. }
  apply now_func_run in E2 as [Hs2 ->]. unfold on_table. rewrite Hs, Hx, Hn, mbind_run. cbn [mret].
  assert (tss_tables (state d2) = tss_tables (state d)) as Hd2 by by rewrite Hs2, Hs. rewrite <- Hd2 in Hx |- *.
  pose proof (apply_retention_idle config t (regclass_literal schema (tt_name t)) d2 x Hx Hc) as Hr.
  destruct (apply_retention_policy _ _ _ d2) as [d3 rok]. simpl in Hr. rewrite <- Hr in Hx |- *.
  pose proof (apply_compression_idle config t (quote_ident schema +:+ "." +:+ quote_ident (tt_name t)) (regclass_literal schema (tt_name t)) d3 x Hx Hc) as H4.
  by destruct (apply_compression _ _ _ _ d3).
Qed.

Definition all_configured (config : TimescaleConfig) (st : TsState) : Prop :=
  forall t, t ∈ TIMESCALE_TABLES -> exists x, tss_tables st !! tt_name t = Some x /\ configured config x.

Lemma setup_fold_idle config schema l : (forall t, t ∈ l -> t ∈ TIMESCALE_TABLES) ->
  forall d n, all_configured config (state d) -> tss_tables (state (fold_left (setup_step config schema) l (d, n)).1) = tss_tables (state d).
Proof using laws.
  induction l as [|t l IH]; intros Hl d n Hc; [done|]. cbn [fold_left].
  destruct (Hc t (Hl t ltac:(by left))) as (x & Hx & Hcx). pose proof (setup_table_idle config schema t d x Hx Hcx) as Ht.
  unfold setup_step at 2. destruct (setup_table t config schema d) as [d1 r]. cbn [fst] in Ht.
  assert (all_configured config (state d1)) as Hc1 by (intros t' Ht'; rewrite Ht; by apply Hc).
  destruct r as [[]|]; (rewrite IH; [exact Ht|intros; apply Hl; by right|exact Hc1]).
Qed.

(** ** The whole set-up *)

Lemma setup_applied config0 d d' n : setup_timescale_if_available config0 d = (d', Applied n) ->
  let config := unwrap_or default_timescale config0 in
  exists d3 schema, tss_tables (state d3) = tss_tables (state d) /\ is_enabled config = true /\ is_ok (validate config) = true /\
    fold_left (setup_step config schema) TIMESCALE_TABLES (d3, 0%nat) = (d', n).
Proof using laws.
  intros H config. revert H. unfold setup_timescale_if_available. fold config. destruct (negb (ts_is_postgres d)); [done|].
  destruct (negb (is_enabled config)) eqn:He; destruct (has_timescale_extension d) as [d1 [[]|]] eqn:Ee; try done. apply negb_false_iff in He.
  apply query_state in Ee. destruct (validate config) as [u|] eqn:Ev; [|done].
  destruct (current_schema d1) as [d2 [schema|]] eqn:Es; [|done].
  assert (state d2 = state d1) as Hs. { pose proof (schema_issues (fun _ => False) d1) as Hr. rewrite Es in Hr. cbn [fst] in Hr. by inversion Hr. }
  destruct (run_stmt _ CreateNow d2) as [d3 [[]|]] eqn:En; [|done]. apply execute_state in En. cbn [is_ok] in En.
  destruct (fold_left _ _ _) as [d4 m] eqn:Ef. intros [= <- <-]. exists d3, schema. rewrite En. cbn [effect target tss_tables]. by rewrite Hs, Ee.
Qed.

Lemma skip_idle config st st' : all_configured config st ->
  reach (fun s => allowed config s /\ (s = CreateNow \/ exists t, s = RemoveRetention t)) st st' -> tss_tables st' = tss_tables st.
Proof using.
  intros Hc Hr. induction Hr as [|s st st' [[Hl Ha] Hs] _ IH]; [done|].
  assert (tss_tables (effect s st) = tss_tables st) as He.
  { destruct Hs as [->|[t ->]]; [done|]. destruct (listed_table t (Hl t eq_refl)) as (tab & -> & Hin).
    destruct (Hc tab Hin) as (x & Hx & Hcx). eapply (effect_idle _ (tt_name tab)); [done|done|].
    pose proof (retention_idle config x (tt_name tab) Hcx) as Hi. by rewrite Ha in Hi. }
  rewrite IH; [done|]. intros t Ht. rewrite He. by apply Hc.
Qed.

Lemma setup_idle config0 d d' out : let config := unwrap_or default_timescale config0 in
  all_configured config (state d) -> setup_timescale_if_available config0 d = (d', out) -> tss_tables (state d') = tss_tables (state d).
Proof using laws.
  intros config Hc H. pose proof (setup_issues _ _ _ _ H) as Hr. fold config in Hr.
  destruct out as [| | | | | | |n]; try (by eapply skip_idle in Hr).
  apply setup_applied in H as (d3 & schema & Ht & _ & _ & Hf). fold config in Hf.
  pose proof (setup_fold_idle config schema TIMESCALE_TABLES (fun t Hin => Hin) d3 0%nat) as Hi. rewrite Hf in Hi. simpl in Hi.
  rewrite Hi, Ht; [done|]. intros t Hin. rewrite Ht. by apply Hc.
Qed.

(** Equal but for the retention policy. *)
Definition same_but_retention (x y : TableState) : Prop :=
  tb_hypertable y = tb_hypertable x /\ tb_wide_key y = tb_wide_key x /\ tb_null_time y = tb_null_time x /\ tb_now_func y = tb_now_func x /\
  tb_compressed y = tb_compressed x /\ tb_compression y = tb_compression x.

Definition table_change (config : TimescaleConfig) (t : string) (x y : TableState) : Prop :=
  (tb_retention y = tb_retention x \/ tb_retention y = wanted_retention config) /\
  (~ listed t -> y = x) /\
  (is_enabled config = false \/ is_ok (validate config) = false -> same_but_retention x y).

#[local] Instance table_change_preorder config t : PreOrder (table_change config t).
Proof using.
  split.
  - intros x. split; [by left|]. split; [done|]. intros _. by repeat split.
  - intros x y z (H1 & H2 & H3) (H4 & H5 & H6). split; [|split].
    + destruct H4 as [->|H4]; [done|by right].
    + intros Hn. by rewrite H5, H2.
    + intros He. destruct (H3 He) as (? & ? & ? & ? & ? & ?), (H6 He) as (? & ? & ? & ? & ? & ?). repeat split; congruence.
Qed.

Lemma allowed_change config s t y : allowed config s -> target s = Some t -> table_change config t y (table_effect s y).
Proof using.
  intros [Hl Ha] Ht. split; [|split].
  - clear Hl Ht. destruct s; try (by left); right; [by destruct Ha as (_ & _ & ->)|by rewrite Ha].
  - intros Hn. by destruct Hn; apply Hl.
  - intros He. clear Hl Ht. destruct s; repeat split; try reflexivity;
      (exfalso; destruct Ha as [H1 H2]; destruct He as [He|He]; congruence).
Qed.

(** C19: however statements and queries fail during set-up, a table outside the list is untouched, the retention policy of a
    listed one is what it was or what the configuration asks for, and nothing else is changed while set-up is
    switched off or its configuration is invalid.  When set-up reports no failure, every listed
    table is a hypertable with the configured policies, compression running once per chunk; and from then on
    starting again with the same configuration changes no table, whatever fails. *)
Theorem timescale_follows_config config0 d d' out :
  let config := unwrap_or default_timescale config0 in
  setup_timescale_if_available config0 d = (d', out) ->
  (forall t x, tss_tables (state d) !! t = Some x -> exists x', tss_tables (state d') !! t = Some x' /\ table_change config t x x') /\
  (out = Applied 0 -> all_configured config (state d') /\
     forall later out', setup_timescale_if_available config0 d' = (later, out') -> tss_tables (state later) = tss_tables (state d')).
Proof using laws.
  intros config H. split.
  - intros t x. eapply reach_table; [apply _| |exact (setup_issues _ _ _ _ H)]. intros s y [Ha _] Ht. by apply allowed_change.
  - intros ->. assert (all_configured config (state d')) as Hc; [|split; [done|]; intros later out'; by apply setup_idle].
    apply setup_applied in H as (d3 & schema & _ & He & Hv & Hf). intros t Ht.
    refine (proj2 (setup_fold_ok config schema TIMESCALE_TABLES _ (fun t Hin => Hin) He Hv d3 0%nat d' Hf) t Ht).
    exact table_names_nodup.
Qed.
End outcome.

(** ** Switching deletion off *)

Section stopping.
Context {D : Type} {ops : TsOps D} {state : D -> TsState} {laws : TsLaws ops state}.

(** Queries and statements on tables that exist do not fail; creating the function may. *)
Definition reliable : Prop :=
  (forall sql m d t, target m = Some t -> is_Some (tss_tables (state d) !! t) -> is_ok (run_stmt sql m d).2 = true) /\
  (forall A sql (p : Probe A) d, is_ok (ts_query sql p d).2 = true).

(** A table without a policy, or a hypertable with one. *)
Definition policy_on_hypertable (x : TableState) : Prop := is_Some (tb_retention x) -> is_Some (tb_hypertable x).
Definition stopped_at (t : string) (st : TsState) : Prop := exists x, tss_tables st !! t = Some x /\ tb_retention x = None.

Lemma reliable_query A sql (p : Probe A) d : reliable -> exists d', ts_query sql p d = (d', Ok (answer p (state d))) /\ state d' = state d.
Proof using laws.
  intros [_ Hq]. specialize (Hq A sql p d). destruct (ts_query sql p d) as [d' [a|e]] eqn:E; [|done]. exists d'.
  destruct (query_run sql p d d' a E) as [Hs ->]. done.
Qed.

Lemma reliable_execute sql m t x d : reliable -> target m = Some t -> tss_tables (state d) !! t = Some x ->
  exists d', run_stmt sql m d = (d', Ok tt) /\ tss_tables (state d') !! t = Some (table_effect m x).
Proof using laws.
  intros [He _] Ht Hx. specialize (He sql m d t Ht ltac:(eauto)). destruct (run_stmt sql m d) as [d' r] eqn:E. cbn [snd] in He.
  destruct r as [[]|]; [|done]. exists d'. split; [done|]. exact (execute_run _ _ _ _ E _ _ Ht Hx).
Qed.

Lemma remove_stops sql t x d : reliable -> tss_tables (state d) !! t = Some x -> stopped_at t (state (run_stmt sql (RemoveRetention t) d).1).
Proof using laws. intros Hr Hx. destruct (reliable_execute sql (RemoveRetention t) t x d Hr eq_refl Hx) as (d' & -> & H). by eexists. Qed.

Lemma keeps_stopped P st st' t : (forall s ms, P s -> s <> SetRetention t ms) -> reach P st st' -> stopped_at t st -> stopped_at t st'.
Proof using.
  intros HP Hr (x & Hx & Hn).
  assert (PreOrder (fun x y : TableState => tb_retention x = None -> tb_retention y = None)) as Hpre by (split; [intros ? H; exact H|intros ? ? ? H1 H2 H; auto]).
  destruct (reach_table P (fun x y => tb_retention x = None -> tb_retention y = None) st st' t x) as (x' & Hx' & H); [|done|done|exists x'; auto].
  intros s y Hs Ht Hy. destruct s as [| | | |? ms| | |]; try done. injection Ht as ->. by destruct (HP _ ms Hs).
Qed.

Lemma reconcile_table_stops schema t x d : reliable -> tss_tables (state d) !! tt_name t = Some x -> policy_on_hypertable x -> stopped_at (tt_name t) (state (reconcile_table schema d t)).
Proof using laws.
  intros Hr Hx Hp. unfold reconcile_table, is_hypertable. edestruct (reliable_query bool) as (d' & -> & Hs); [done|]. cbn [answer]. unfold on_table. rewrite Hx.
  case_bool_decide as Hh; [apply (remove_stops _ _ x); by rewrite ?Hs|]. exists x. rewrite Hs. split; [done|].
  destruct (tb_retention x) eqn:E; [|done]. destruct Hh. apply Hp. by rewrite E.
Qed.

Lemma setup_table_stops config schema t x d : reliable -> tsc_retention_days config = 0%Z -> tss_tables (state d) !! tt_name t = Some x -> policy_on_hypertable x ->
  stopped_at (tt_name t) (state (setup_table t config schema d).1).
Proof using laws.
  intros Hr H0 Hx Hp. unfold setup_table, is_hypertable, has_integer_now_func. rewrite mbind_run.
  edestruct (reliable_query bool) as (d1 & -> & Hs); [done|]. cbn [answer]. unfold on_table. rewrite Hx.
  set (rest := fun _ : unit => _). (* the second half *)
  assert (forall d2 y, tss_tables (state d2) !! tt_name t = Some y -> stopped_at (tt_name t) (state (rest tt d2).1)) as Hrest.
  { intros d2 y Hy. unfold rest. rewrite mbind_run. edestruct (reliable_query bool) as (d3 & -> & Hs3); [done|]. rewrite <- Hs3 in Hy.
    assert (forall sql, exists d4 z, (if answer (HasNowFunc (tt_name t)) (state d2) then mret tt else run_stmt sql (SetNowFunc (tt_name t))) d3 = (d4, Ok tt)
              /\ tss_tables (state d4) !! tt_name t = Some z) as Hnow.
    { intros sql. destruct (answer _ _); [by exists d3, y|]. destruct (reliable_execute sql (SetNowFunc (tt_name t)) (tt_name t) y d3) as (d4 & E & H); [done|done|done|]. eauto. }
    rewrite mbind_run. match goal with |- context [run_stmt ?sql (SetNowFunc _)] => destruct (Hnow sql) as (d4 & z & E4 & Hz) end.
    rewrite E4. unfold apply_retention_policy. rewrite H0. cbn [Z.ltb Z.compare].
    pose proof (remove_stops (remove_retention_sql (regclass_literal schema (tt_name t))) (tt_name t) z d4 Hr Hz) as Hst.
    destruct (run_stmt _ _ d4) as [d5 r5]. cbn [fst] in Hst.
    pose proof (keeps_stopped (fun s => forall t ms, s <> SetRetention t ms) (state d5)) as Hk.
    assert (issues (state := state) (fun s => forall t ms, s <> SetRetention t ms) (apply_compression t config (quote_ident schema +:+ "." +:+ quote_ident (tt_name t)) (regclass_literal schema (tt_name t)))) as Hi.
    { unfold apply_compression, is_compression_enabled, chunk_interval_ms.
      apply issues_bind; [apply issues_query|intros b]. apply issues_bind; [destruct b; [apply issues_pure|by apply issues_execute]|intros _].
      apply issues_bind; [apply issues_pure|intros c]. apply issues_bind; [apply issues_query|intros a]. apply issues_bind; [apply issues_pure|intros af].
      by apply issues_execute. }
    specialize (Hi d5). destruct (apply_compression _ _ _ _ d5) as [d6 r6]. cbn [fst] in *. eapply Hk; [|exact Hi|exact Hst]. naive_solver. }
  rewrite mbind_run. case_bool_decide as Hh.
  - cbn [mret]. apply (Hrest d1 x). by rewrite Hs.
  - destruct (tb_retention x) eqn:Er; [destruct Hh; apply Hp; by rewrite Er|].
    assert (stopped_at (tt_name t) (state (convert_table t config schema d1).1)) as Hst.
    { assert (issues (state := state) (fun s => forall t ms, s <> SetRetention t ms) (convert_table t config schema)) as Hi.
      { unfold convert_table. apply issues_bind; [apply issues_pure|intros c]. destruct (conversion_sql _ _ _ _ _) as [[q1 q2] q3].
        apply issues_bind; [apply issues_query|intros b]. destruct b; [apply issues_pure|]. apply issues_bind; [by apply issues_execute|intros _; by apply issues_execute]. }
      eapply keeps_stopped; [|apply Hi|exists x; by rewrite Hs]. naive_solver. }
    destruct (convert_table t config schema d1) as [d2 [[]|e]]; [|exact Hst]. destruct Hst as (y & Hy & _). by apply (Hrest d2 y).
Qed.

(** Every listed table is there, and policies are on hypertables only. *)
Definition tables_ready (st : TsState) : Prop := forall t, t ∈ TIMESCALE_TABLES -> exists x, tss_tables st !! tt_name t = Some x /\ policy_on_hypertable x.

(** A pass over the tables, each step of which stops deletion on its own table and touches no other. *)
Lemma fold_stops {S} (dbof : S -> D) (step : S -> TimescaleTable -> S) :
  (forall acc t x, tss_tables (state (dbof acc)) !! tt_name t = Some x -> policy_on_hypertable x -> stopped_at (tt_name t) (state (dbof (step acc t)))) ->
  (forall acc t t', tt_name t' <> tt_name t -> tss_tables (state (dbof (step acc t))) !! tt_name t' = tss_tables (state (dbof acc)) !! tt_name t') ->
  forall l acc, NoDup (map tt_name l) -> (forall t, t ∈ l -> exists x, tss_tables (state (dbof acc)) !! tt_name t = Some x /\ policy_on_hypertable x) ->
  forall t, t ∈ l -> stopped_at (tt_name t) (state (dbof (fold_left step l acc))).
Proof using.
  intros Hstep Hframe. induction l as [|t l IH]; intros acc Hnd Hl t' Hin; [by apply elem_of_nil in Hin|]. inversion_clear Hnd as [|? ? Hn Hnd']. cbn [fold_left].
  assert (forall t', t' ∈ l -> tt_name t' <> tt_name t) as Hne by (intros u Hu Heq; apply Hn; rewrite <- Heq; apply list_elem_of_fmap; eauto).
  apply elem_of_cons in Hin as [->|Hin].
  - destruct (Hl t ltac:(by left)) as (x & Hx & Hp). destruct (Hstep acc t x Hx Hp) as (y & Hy & Hny). exists y. split; [|done]. rewrite <- Hy.
    clear -Hframe Hne. generalize (step acc t). induction l as [|u l IH]; intros acc'; [done|]. cbn [fold_left]. rewrite IH by (intros; apply Hne; by right).
    apply Hframe. symmetry. apply Hne. by left.
  - apply IH; [done| |done]. intros u Hu. rewrite Hframe by by apply Hne. apply Hl. by right.
Qed.

(** With retention switched off, deletion stops on every listed table, whether set-up is enabled,
    disabled, wrongly configured or lacks the right to create its function, as long as no statement fails. *)
Theorem deletion_stops config0 d d' out :
  tsc_retention_days (unwrap_or default_timescale config0) = 0%Z -> reliable -> ts_is_postgres d = true -> tss_extension (state d) = true ->
  (exists s, tss_schema (state d) = Some s /\ str_is_empty s = false) -> tables_ready (state d) ->
  setup_timescale_if_available config0 d = (d', out) -> forall t, t ∈ TIMESCALE_TABLES -> stopped_at (tt_name t) (state d').
Proof using laws.
  intros H0 Hr Hpg Hext (schema & Hsch & Hne) Hready. set (config := unwrap_or default_timescale config0) in *.
  assert (forall d1, state d1 = state d -> exists d2, current_schema d1 = (d2, Ok schema) /\ state d2 = state d1) as Hcur.
  { intros d1 Hs. unfold current_schema. rewrite mbind_run. edestruct (reliable_query (option (option string))) as (d2 & -> & Hs2); [done|].
    cbn [answer]. rewrite Hs, Hsch, mbind_lift. cbn [ok_or]. rewrite Hne. exists d2. by rewrite Hs2. }
  assert (forall d1, state d1 = state d -> forall t, t ∈ TIMESCALE_TABLES -> stopped_at (tt_name t) (state (reconcile_retention_on_skip config d1))) as Hskip.
  { intros d1 Hs. unfold reconcile_retention_on_skip. rewrite H0, Z.eqb_refl. cbn [orb negb]. destruct (Hcur d1 Hs) as (d2 & -> & Hs2).
    apply (fold_stops id); [intros acc t x; by apply reconcile_table_stops| |exact table_names_nodup|unfold id; by rewrite Hs2, Hs].
    intros acc t t' Hn. unfold id, reconcile_table, is_hypertable. edestruct (reliable_query bool) as (d3 & -> & Hs3); [done|]. cbn [answer].
    destruct (on_table _ _ _ _); [|by rewrite Hs3]. destruct (run_stmt _ _ d3) as [d4 r] eqn:E. apply execute_state in E. cbn [fst]. rewrite E, <- Hs3.
    destruct (is_ok r); [|done]. apply effect_other. cbn. congruence. }
  unfold setup_timescale_if_available. fold config. rewrite Hpg. cbn [negb].
  edestruct (reliable_query bool) as (d1 & E1 & Hs1); [exact Hr|]. unfold has_timescale_extension. rewrite E1. cbn [answer]. rewrite Hext.
  destruct (negb (is_enabled config)) eqn:He; [intros [= <- <-]; by apply Hskip|]. apply negb_false_iff in He.
  destruct (validate config) as [u|] eqn:Ev; [|intros [= <- <-]; by apply Hskip]. destruct (Hcur d1 Hs1) as (d2 & -> & Hs2).
  destruct (run_stmt _ CreateNow d2) as [d3 r3] eqn:E3.
  apply execute_state in E3. rewrite Hs2, Hs1 in E3. destruct r3 as [u3|]; [|intros [= <- <-]; by apply Hskip].
  destruct (fold_left _ _ _) as [d4 n] eqn:Ef. intros [= <- <-]. replace d4 with (fold_left (setup_step config schema) TIMESCALE_TABLES (d3, 0%nat)).1 by by rewrite Ef.
  apply (fold_stops fst (setup_step config schema)); [| |exact table_names_nodup|].
  - intros [dd k] t x Hx Hp. unfold setup_step. pose proof (setup_table_stops config schema t x dd Hr H0 Hx Hp) as Hst. by destruct (setup_table t config schema dd) as [? [[]|]].
  - intros [dd k] t t' Hn. unfold setup_step. pose proof (setup_table_issues config t schema He ltac:(by rewrite Ev) dd) as Hi.
    assert (tss_tables (state (setup_table t config schema dd).1) !! tt_name t' = tss_tables (state dd) !! tt_name t') as Hfr.
    { eapply reach_other; [|exact Hi]. intros s [Hab _] Heq. unfold about in Hab. congruence. }
    by destruct (setup_table t config schema dd) as [? [[]|]].
  - cbn [fst]. rewrite E3. cbn. exact Hready.
Qed.
End stopping.

(** ** A database with scripted outages *)

(** [true] at the head of the script: the next request fails. *)
Record Scripted : Type := { sp_state : TsState; sp_outages : list bool }.
Definition next_fails (d : Scripted) : bool := match sp_outages d with b :: _ => b | [] => false end.
Definition spent (d : Scripted) : Scripted := {| sp_state := sp_state d; sp_outages := tail (sp_outages d) |}.
Definition known_target (s : Ddl) (st : TsState) : bool := match target s with Some t => bool_decide (is_Some (tss_tables st !! t)) | None => true end.

#[export] Instance scripted_ops : TsOps Scripted := {|
  ts_is_postgres _ := true;
  ts_execute s d :=
    if next_fails d then (spent d, Err "connection lost"%string)
    else if known_target (st_meaning s) (sp_state d)
    then ({| sp_state := effect (st_meaning s) (sp_state d); sp_outages := tail (sp_outages d) |}, Ok tt)
    else (spent d, Err "relation does not exist"%string);
  ts_query A _ p d := (spent d, if next_fails d then Err "connection lost"%string else Ok (answer p (sp_state d))) |}.

#[export] Instance scripted_laws : TsLaws scripted_ops sp_state.
Proof.
  split.
  - intros s d d'. simpl. destruct (next_fails d); [done|]. unfold known_target. destruct (target (st_meaning s)) as [t|] eqn:Et.
    + case_bool_decide; [|done]. intros [= <-]. split; [done|]. intros t' [= <-]. done.
    + intros [= <-]. split; [done|]. done.
  - intros s d d' e. simpl. destruct (next_fails d); [by intros [= <- <-]|]. destruct (known_target _ _); [done|]. by intros [= <- <-].
  - done.
  - intros A sql p d d' a. simpl. destruct (next_fails d); [done|]. by intros [= <- <-].
Qed.

Definition plain_table : TableState :=
  {| tb_hypertable := None; tb_wide_key := false; tb_null_time := false; tb_now_func := false; tb_compressed := false; tb_compression := None; tb_retention := None |}.
Definition hypertable_with (retention : option Z) : TableState :=
  {| tb_hypertable := Some 21600000%Z; tb_wide_key := true; tb_null_time := false; tb_now_func := true; tb_compressed := true;
     tb_compression := Some (43200000, 21600000)%Z; tb_retention := retention |}.
Definition all_tables (x : TableState) : TsState :=
  {| tss_extension := true; tss_schema := Some "public"%string; tss_now := true; tss_tables := list_to_map (map (fun t => (tt_name t, x)) TIMESCALE_TABLES) |}.
Definition fresh_db (outages : list bool) : Scripted := {| sp_state := all_tables plain_table; sp_outages := outages |}.
Definition with_days (days : Z) : TimescaleConfig :=
  {| tsc_enabled := None; tsc_chunk_interval_hours := None; tsc_compress_after_hours := None; tsc_chunk_interval_days := None;
     tsc_compress_after_days := None; tsc_retention_days := days |}.

Definition after_setup : Scripted * TsOutcome := setup_timescale_if_available (Some (with_days 30)) (fresh_db []).

Lemma timescale_follows_config_witness :
  after_setup.2 = Applied 0 /\ all_configured (with_days 30) (sp_state after_setup.1) /\
  tss_tables (sp_state (setup_timescale_if_available (Some (with_days 30)) after_setup.1).1) = tss_tables (sp_state after_setup.1).
Proof.
  destruct (timescale_follows_config (state := sp_state) (Some (with_days 30)) (fresh_db []) after_setup.1 after_setup.2) as [_ H];
    [unfold after_setup; apply surjective_pairing|].
  destruct H as [Hc Hidle]; [vm_compute; reflexivity|]. split; [vm_compute; reflexivity|]. split; [exact Hc|].
  exact (Hidle _ _ (surjective_pairing _)).
Defined.

(** ** A defect *)

(** Deletion is switched off and set-up is enabled, but a query of the catalogue fails once before the policy
    is reached: the old policy stays on every table whose set-up was cut short, although nothing
    failed when it came to removing it. *)
Theorem failed_query_keeps_deleting :
  let d := {| sp_state := all_tables (hypertable_with (Some 86400000%Z)); sp_outages := [false; false; false; true] |} in
  let '(d', out) := setup_timescale_if_available (Some (with_days 0)) d in
  out = Applied 1 /\ option_map tb_retention (tss_tables (sp_state d') !! "dynamic_monitoring"%string) = Some (Some 86400000%Z) /\
  option_map tb_retention (tss_tables (sp_state d') !! "traffic_snapshot"%string) = Some None.
Proof. vm_compute. done. Qed.

(** Switched off altogether, set-up still removes the retention policies when the number of days is zero. *)
Theorem disabled_setup_removes_policies :
  let off := {| tsc_enabled := Some false; tsc_chunk_interval_hours := None; tsc_compress_after_hours := None; tsc_chunk_interval_days := None;
                tsc_compress_after_days := None; tsc_retention_days := 0 |} in
  let d := {| sp_state := all_tables (hypertable_with (Some 86400000%Z)); sp_outages := [] |} in
  let '(d', out) := setup_timescale_if_available (Some off) d in
  out = Disabled /\ option_map tb_retention (tss_tables (sp_state d') !! "dynamic_monitoring"%string) = Some None.
Proof. vm_compute. done. Qed.
