(* ===== verification/SelfUpdate.v ===== *)
(** * Self update

    [ng-core/src/self_update.rs], the task [agent/src/tasks/self_update.rs] and the method [self_update] of
    [server/src/rpc_nodeget.rs]: whether a release is wanted, where it is downloaded from, and how it
    takes the place of the running program.  Permission bits and the restart itself are not modelled. *)
From Stdlib Require Import Ascii.
From stdpp Require Import base strings gmap list numbers pretty.
From S2P Require Import Prelude Errors Permission TokenCache Concrete TokenCheck KvAuth StaticPath StaticFs StaticBucket TaskTypes.

(** ** Versions *)

(** [str::parse::<u32>()]: an optional plus and at least one digit, in range. *)
Definition parse_u32 (s : string) : option Z :=
  let in_range z := if (z <=? u32_max)%Z then Some z else None in
  match String.list_ascii_of_string s with
  | [] => None
  | c :: l =>
      if Ascii.eqb c "+" then match l with [] => None | _ => z ← parse_digits 0 l; in_range z end
      else z ← parse_digits 0 (c :: l); in_range z
  end.

Definition Version : Type := Z * Z * Z.

(** [splitn(3, '.')]: the third part is all the rest. *)
Definition parse_version_body (body : string) : option Version :=
  '(a, rest) ← split_once "." body; '(b, c) ← split_once "." rest;
  x ← parse_u32 a; y ← parse_u32 b; z ← parse_u32 c; Some (x, y, z).
Definition parse_version (s : string) : option Version := body ← strip_prefix "v" s; parse_version_body body.

(** [split_once(['-', '+'])]. *)
Fixpoint before_suffix (s : string) : option string :=
  match s with
  | EmptyString => None
  | String c s' => if Ascii.eqb c "-" || Ascii.eqb c "+" then Some EmptyString else option_map (String c) (before_suffix s')
  end.
Definition parse_current_version (body : string) : option (Version * bool) :=
  match before_suffix body with
  | Some core => v ← parse_version_body core; Some (v, true)
  | None => v ← parse_version_body body; Some (v, false)
  end.

Definition should_update (target current : Version) : bool := negb (bool_decide (target = current)).

Definition check_update (current tag : string) : Version * Version * bool :=
  match parse_version tag with
  | None => ((0, 0, 0), (0, 0, 0), false)%Z
  | Some target_version =>
      match parse_current_version current with
      | None => ((0, 0, 0)%Z, target_version, false)
      | Some (current_version, current_is_prerelease) =>
          (current_version, target_version, current_is_prerelease || should_update target_version current_version)
      end
  end.
Definition check_if_update_needed (self : NodeGetVersion) (tag : string) : Version * Version * bool := check_update (nv_cargo_version self) tag.

(** ** Releases *)

Definition ARCH_NAME : list (string * string) := [
  ("x86_64-unknown-linux-musl", "nodeget-agent-linux-x86_64-musl");
  ("x86_64-unknown-linux-gnu", "nodeget-agent-linux-x86_64-gnu");
  ("i686-unknown-linux-gnu", "nodeget-agent-linux-i686-gnu");
  ("i686-unknown-linux-musl", "nodeget-agent-linux-i686-musl");
  ("aarch64-unknown-linux-gnu", "nodeget-agent-linux-aarch64-gnu");
  ("aarch64-unknown-linux-musl", "nodeget-agent-linux-aarch64-musl");
  ("arm-unknown-linux-gnueabi", "nodeget-agent-linux-arm-gnueabi");
  ("arm-unknown-linux-gnueabihf", "nodeget-agent-linux-arm-gnueabihf");
  ("arm-unknown-linux-musleabi", "nodeget-agent-linux-arm-musleabi");
  ("arm-unknown-linux-musleabihf", "nodeget-agent-linux-arm-musleabihf");
  ("armv7-unknown-linux-gnueabi", "nodeget-agent-linux-armv7-gnueabi");
  ("armv7-unknown-linux-gnueabihf", "nodeget-agent-linux-armv7-gnueabihf");
  ("armv7-unknown-linux-musleabi", "nodeget-agent-linux-armv7-musleabi");
  ("armv7-unknown-linux-musleabihf", "nodeget-agent-linux-armv7-musleabihf");
  ("thumbv7neon-unknown-linux-gnueabihf", "nodeget-agent-linux-thumbv7neon-gnueabihf");
  ("riscv64gc-unknown-linux-gnu", "nodeget-agent-linux-riscv64gc-gnu");
  ("powerpc64-unknown-linux-gnu", "nodeget-agent-linux-powerpc64-gnu");
  ("powerpc64le-unknown-linux-gnu", "nodeget-agent-linux-powerpc64le-gnu");
  ("s390x-unknown-linux-gnu", "nodeget-agent-linux-s390x-gnu");
  ("sparc64-unknown-linux-gnu", "nodeget-agent-linux-sparc64-gnu");
  ("x86_64-pc-windows-msvc", "nodeget-agent-windows-x86_64.exe");
  ("i686-pc-windows-msvc", "nodeget-agent-windows-i686.exe");
  ("aarch64-pc-windows-msvc", "nodeget-agent-windows-aarch64.exe");
  ("aarch64-apple-darwin", "nodeget-agent-macos-aarch64")]%string.

Definition SERVER_ARCH_NAME : list (string * string) := [
  ("x86_64-unknown-linux-musl", "nodeget-server-linux-x86_64-musl");
  ("x86_64-unknown-linux-gnu", "nodeget-server-linux-x86_64-gnu");
  ("aarch64-unknown-linux-gnu", "nodeget-server-linux-aarch64-gnu");
  ("aarch64-unknown-linux-musl", "nodeget-server-linux-aarch64-musl");
  ("armv7-unknown-linux-gnueabi", "nodeget-server-linux-armv7-gnueabi");
  ("armv7-unknown-linux-gnueabihf", "nodeget-server-linux-armv7-gnueabihf");
  ("armv7-unknown-linux-musleabi", "nodeget-server-linux-armv7-musleabi");
  ("armv7-unknown-linux-musleabihf", "nodeget-server-linux-armv7-musleabihf");
  ("x86_64-pc-windows-msvc", "nodeget-server-windows-x86_64.exe");
  ("aarch64-apple-darwin", "nodeget-server-macos-aarch64")]%string.

Definition build_release_url (arch_name : list (string * string)) (self : NodeGetVersion) (tag : string) : option string :=
  '(_, binary_name) ← List.find (fun p => String.eqb (fst p) (nv_cargo_target_triple self)) arch_name;
  Some ("https://install.nodeget.com/releases/" +:+ binary_name +:+ "?tag=" +:+ tag).
Definition get_url : NodeGetVersion -> string -> option string := build_release_url ARCH_NAME.
Definition get_server_url : NodeGetVersion -> string -> option string := build_release_url SERVER_ARCH_NAME.

(** ** Replacing the program *)

(** The path without a final [.old], if a file name is left. *)
Definition without_old (path : list ascii) : option (list ascii) :=
  match rev path with
  | "d"%char :: "l"%char :: "o"%char :: "."%char :: rest =>
      match rest with [] => None | c :: _ => if Ascii.eqb c "/" then None else Some (rev rest) end
  | _ => None
  end.
Fixpoint strip_old (fuel : nat) (path : list ascii) : list ascii :=
  match fuel with
  | S fuel => match without_old path with Some p => strip_old fuel p | None => path end
  | 0 => path
  end.
(** [current_exe] may fail. *)
Definition canonical_exe_path (current_exe : option string) : option string :=
  option_map (fun p => let l := String.list_ascii_of_string p in String.string_of_list_ascii (strip_old (length l) l)) current_exe.

Section update.
Context {FS : Type} {fs : FsOps FS}.

Definition replace_binary (current_exe : option string) (binary : list Z) (s : FS) : FS * bool :=
  match canonical_exe_path current_exe with
  | None => (s, false)
  | Some current =>
      let backup := current +:+ ".old" in
      match fs_rename current backup s with
      | (s1, Err _) => (s1, false)
      | (s1, Ok _) =>
          match fs_write current binary s1 with
          | (s2, Err _) => ((fs_rename backup current s2).1, false)
          | (s2, Ok _) => (s2, true)
          end
      end
  end.

(** The answer to a download: a status with its text, and a body that may fail to arrive. *)
Record Download : Type := { dl_status : Z; dl_status_text : string; dl_body : result string (list Z) }.
Definition is_success (status : Z) : bool := (200 <=? status)%Z && (status <? 300)%Z.

Context (self : NodeGetVersion) (current_exe : option string) (fetch : string -> result string Download).

(** The task of the agent. *)
Definition agent_self_update (tag : string) (s : FS) : FS * bool :=
  match canonical_exe_path current_exe with
  | None => (s, false)
  | Some _ =>
      let '(_, _, update) := check_if_update_needed self tag in
      if negb update then (s, false) else
      match get_url self tag with
      | None => (s, false)
      | Some url =>
          match fetch url with
          | Err _ => (s, false)
          | Ok response =>
              if negb (is_success (dl_status response)) then (s, false) else
              match dl_body response with
              | Err _ => (s, false)
              | Ok bytes => if (Z.of_nat (length bytes) <? 1024)%Z then (s, false) else replace_binary current_exe bytes s
              end
          end
      end
  end.

Context {crypto : Crypto}.

(** The method of the server: the disk, and whether a restart was scheduled. *)
Definition server_self_update (e : Env) (token tag : string) (s : FS) : FS * result anyhow bool :=
  let fail m := Err (OfNodeget m) in
  match from_full_token token with
  | Err m => (s, fail (ParseError m))
  | Ok token_or_auth =>
      match check_super_token (e_globals e) token_or_auth with
      | Err err => (s, fail (PermissionDenied (anyhow_display err)))
      | Ok false => (s, fail (PermissionDenied "Permission Denied: Super token required"))
      | Ok true =>
          let '(_, _, update) := check_if_update_needed self tag in
          if negb update then (s, Ok false) else
          match get_server_url self tag with
          | None => (s, fail (Other ("Failed to get download URL for tag: " +:+ tag)))
          | Some url =>
              match fetch url with
              | Err m => (s, fail (Other ("Download request failed: " +:+ m)))
              | Ok response =>
                  if negb (is_success (dl_status response)) then (s, fail (Other ("Download failed with status: " +:+ dl_status_text response))) else
                  match dl_body response with
                  | Err m => (s, fail (Other ("Failed to read response body: " +:+ m)))
                  | Ok bytes =>
                      if (Z.of_nat (length bytes) <? 1024)%Z
                      then (s, fail (Other ("Downloaded file too small (" +:+ pretty (Z.of_nat (length bytes)) +:+ " bytes), aborting")))
                      else match replace_binary current_exe bytes s with
                           | (s', false) => (s', fail (Other "Failed to replace binary"))
                           | (s', true) => (s', Ok true)
                           end
                  end
              end
          end
      end
  end.
End update.

(** ** Versions as text *)

Lemma digit_value n : (n < 10)%N -> byte_of (pretty_N_char n) = (48 + Z.of_N n)%Z.
Proof. intros H. destruct n as [|p]; [done|]. do 4 (destruct p as [p|p|]; [| |by first [reflexivity | exfalso; lia]]); exfalso; lia. Qed.

Lemma parse_digits_cons n acc l : (n < 10)%N -> parse_digits acc (pretty_N_char n :: l) = parse_digits (acc * 10 + Z.of_N n) l.
Proof.
  intros H. cbn [parse_digits]. rewrite digit_value by done. replace (48 + Z.of_N n - 48)%Z with (Z.of_N n) by lia.
  destruct (Z.leb_spec 0 (Z.of_N n)), (Z.leb_spec (Z.of_N n) 9); try lia. done.
Qed.

Lemma parse_pretty_go x s : parse_digits 0 (String.list_ascii_of_string (pretty_N_go x s)) = parse_digits (Z.of_N x) (String.list_ascii_of_string s).
Proof.
  revert s. induction (N.lt_wf_0 x) as [x _ IH]; intros s. destruct (decide (x = 0)%N) as [->|Hx]; [by rewrite pretty_N_go_0|].
  rewrite pretty_N_go_step by lia. rewrite IH by (apply N.div_lt; lia). cbn [String.list_ascii_of_string]. rewrite parse_digits_cons by (by apply N.mod_lt).
  f_equal. pose proof (N.div_mod x 10 ltac:(done)). lia.
Qed.

Definition is_digit (c : ascii) : bool := let d := (byte_of c - 48)%Z in ((0 <=? d) && (d <=? 9))%Z.

Lemma pretty_go_digits x s : forallb is_digit (String.list_ascii_of_string s) = true -> forallb is_digit (String.list_ascii_of_string (pretty_N_go x s)) = true.
Proof.
  revert s. induction (N.lt_wf_0 x) as [x _ IH]; intros s Hs. destruct (decide (x = 0)%N) as [->|Hx]; [by rewrite pretty_N_go_0|].
  rewrite pretty_N_go_step by lia. apply IH; [apply N.div_lt; lia|]. cbn [String.list_ascii_of_string forallb]. rewrite Hs, andb_true_r.
  unfold is_digit. rewrite digit_value by (by apply N.mod_lt). pose proof (N.mod_lt x 10 ltac:(done)). set (m := (x `mod` 10)%N) in *. apply andb_true_iff. split; apply Z.leb_le; lia.
Qed.

Lemma pretty_digits (z : Z) : (0 <= z)%Z ->
  forallb is_digit (String.list_ascii_of_string (pretty z)) = true /\ parse_digits 0 (String.list_ascii_of_string (pretty z)) = Some z /\ pretty z <> EmptyString.
Proof.
  intros Hz. destruct z as [|p|p]; [done| |lia].
  assert (pretty (Zpos p) = pretty_N_go (Npos p) EmptyString) as -> by done.
  split; [by apply pretty_go_digits|]. split; [by rewrite parse_pretty_go|].
  intros H. pose proof (parse_pretty_go (Npos p) EmptyString) as Hp. rewrite H in Hp. done.
Qed.

Lemma parse_u32_pretty z : in_u32 z -> parse_u32 (pretty z) = Some z.
Proof.
  intros Hz. destruct (pretty_digits z ltac:(unfold in_u32 in Hz; lia)) as (Hd & Hp & Hne). unfold parse_u32.
  destruct (String.list_ascii_of_string (pretty z)) as [|c l] eqn:E.
  { destruct Hne. rewrite <- (String.string_of_list_ascii_of_string (pretty z)), E. done. }
  destruct (Ascii.eqb_spec c "+") as [->|_]; [done|]. rewrite Hp. simpl. destruct (Z.leb_spec z u32_max); [done|]. unfold in_u32 in Hz. lia.
Qed.

Lemma split_once_digits a rest : forallb is_digit (String.list_ascii_of_string a) = true -> split_once "." (a +:+ "." +:+ rest) = Some (a, rest).
Proof.
  induction a as [|c a IH]; intros H; [done|]. cbn [String.list_ascii_of_string forallb] in H. apply andb_true_iff in H as [Hc Ha]. change (String c a +:+ "." +:+ rest) with (String c (a +:+ "." +:+ rest)). cbn [split_once].
  destruct (Ascii.eqb_spec "." c) as [<-|_]; [done|]. by rewrite (IH Ha).
Qed.

(** A version written out is read back. *)
Theorem version_roundtrip x y z : in_u32 x -> in_u32 y -> in_u32 z ->
  parse_version ("v" +:+ pretty x +:+ "." +:+ pretty y +:+ "." +:+ pretty z) = Some (x, y, z).
Proof.
  intros Hx Hy Hz. change (parse_version_body (pretty x +:+ "." +:+ pretty y +:+ "." +:+ pretty z) = Some (x, y, z)). unfold parse_version_body.
  destruct (pretty_digits x) as (Hdx & _); [unfold in_u32 in Hx; lia|]. destruct (pretty_digits y) as (Hdy & _); [unfold in_u32 in Hy; lia|].
  rewrite (split_once_digits _ _ Hdx). simpl. rewrite (split_once_digits _ _ Hdy : split_once "." (pretty y +:+ String "." (pretty z)) = _). simpl.
  by rewrite !parse_u32_pretty.
Qed.

(** ** What a tag can be *)

Definition tag_char (c : ascii) : bool := is_digit c || Ascii.eqb c "." || Ascii.eqb c "+".

Lemma parse_digits_all acc l z : parse_digits acc l = Some z -> forallb is_digit l = true.
Proof. revert acc. induction l as [|c l IH]; intros acc; [done|]. cbn [parse_digits forallb]. unfold is_digit at 1. destruct (_ && _); [apply IH|done]. Qed.

Lemma digits_tag l : forallb is_digit l = true -> forallb tag_char l = true.
Proof. intros H. apply forallb_forall. intros c Hc. rewrite forallb_forall in H. unfold tag_char. by rewrite (H c Hc). Qed.

Lemma parse_u32_chars s z : parse_u32 s = Some z -> forallb tag_char (String.list_ascii_of_string s) = true.
Proof.
  unfold parse_u32. destruct (String.list_ascii_of_string s) as [|c l]; [done|]. destruct (Ascii.eqb_spec c "+") as [->|_].
  - destruct l as [|c' l]; [done|]. intros (v & Hv & _)%bind_Some. apply parse_digits_all, digits_tag in Hv. cbn [forallb] in *. by rewrite Hv.
  - intros (v & Hv & _)%bind_Some. by apply parse_digits_all, digits_tag in Hv.
Qed.

Lemma split_once_chars s a b : split_once "." s = Some (a, b) ->
  forallb tag_char (String.list_ascii_of_string a) = true -> forallb tag_char (String.list_ascii_of_string b) = true -> forallb tag_char (String.list_ascii_of_string s) = true.
Proof.
  revert a. induction s as [|c s IH]; intros a; [done|]. cbn [split_once]. destruct (Ascii.eqb_spec "." c) as [<-|_].
  - intros [= <- <-] _ Hb. cbn [String.list_ascii_of_string forallb]. by rewrite Hb.
  - destruct (split_once "." s) as [[a' b']|]; [|done]. intros [= <- <-] Ha Hb. cbn [String.list_ascii_of_string forallb] in *.
    apply andb_true_iff in Ha as [-> Ha]. by rewrite (IH a').
Qed.

Lemma parse_version_chars tag v : parse_version tag = Some v -> exists body, tag = String "v" body /\ forallb tag_char (String.list_ascii_of_string body) = true.
Proof.
  unfold parse_version, parse_version_body. intros (body & Hp & H)%bind_Some. exists body. split.
  - destruct tag as [|c tag]; [done|]. cbn [strip_prefix] in Hp. destruct (Ascii.eqb_spec "v" c) as [<-|_]; [by injection Hp as ->|done].
  - apply bind_Some in H as ([a rest] & Ha & H). apply bind_Some in H as ([b c] & Hb & H). apply bind_Some in H as (x & Hx & H).
    apply bind_Some in H as (y & Hy & H). apply bind_Some in H as (z & Hz & _).
    eapply split_once_chars; [exact Ha|by eapply parse_u32_chars|]. eapply split_once_chars; [exact Hb|by eapply parse_u32_chars..].
Qed.

(** A release is wanted: the tag is a version other than the running one, or the running one is no release. *)
Definition wanted_release (self : NodeGetVersion) (tag : string) : Prop :=
  exists target current prerelease, parse_version tag = Some target /\ parse_current_version (nv_cargo_version self) = Some (current, prerelease) /\
    (prerelease = true \/ target <> current).

Lemma check_wanted self tag : (check_if_update_needed self tag).2 = true -> wanted_release self tag.
Proof.
  unfold check_if_update_needed, check_update. destruct (parse_version tag) as [target|] eqn:Et; [|done].
  destruct (parse_current_version _) as [[current pre]|] eqn:Ec; [|done]. cbn [snd]. intros H. exists target, current, pre. split_and!; [done..|].
  unfold should_update in H. destruct pre; [by left|]. right. cbn [orb] in H. by apply negb_true_iff, bool_decide_eq_false in H.
Qed.

(** ** The program is never lost *)

Section replacing.
Context {FS : Type} {fs : FsOps FS} {cwd : list string} {file : FS -> list string -> option (list Z)} {laws : FsLaws fs cwd file}.

Definition backup_of (exe : string) : string := exe +:+ ".old".

(** Old and new contents of the program around an update. *)
Definition program_kept (exe : string) (old new : list Z) (ok : bool) (s s' : FS) : Prop :=
  let at_ := locate cwd exe in let backup := locate cwd (backup_of exe) in
  (if ok then file s' at_ = Some new /\ file s' backup = Some old else file s' at_ = Some old \/ file s' backup = Some old) /\
  (forall q, ~ under at_ q -> ~ under backup q -> file s' q = file s q).

Lemma under_refl d : under d d.
Proof using. exists []. by rewrite app_nil_r. Qed.

Lemma replace_keeps current_exe exe binary s s' ok old : canonical_exe_path current_exe = Some exe -> locate cwd exe <> locate cwd (backup_of exe) ->
  file s (locate cwd exe) = Some old -> replace_binary current_exe binary s = (s', ok) -> program_kept exe old binary ok s s'.
Proof using laws.
  intros He Hne Hold. unfold replace_binary. rewrite He. fold (backup_of exe).
  pose proof (fs_rename_frame exe (backup_of exe) s) as Hf1. destruct (fs_rename exe (backup_of exe) s) as [s1 [[]|e]] eqn:E1.
  2:{ intros [= <- <-]. split; [left; by rewrite (fs_rename_err _ _ _ _ _ _ E1)|]. intros q Hq1 Hq2. by apply Hf1. }
  apply (fs_rename_ok _ _ _ _ old) in E1 as [Hb _]; [|done|done].
  pose proof (fs_write_frame exe binary s1) as Hf2. destruct (fs_write exe binary s1) as [s2 [[]|e]] eqn:E2.
  - intros [= <- <-]. split.
    + split; [by eapply fs_write_ok|]. rewrite <- Hb. apply Hf2. congruence.
    + intros q Hq1 Hq2. cbn [fst] in *. rewrite Hf2 by (intros ->; apply Hq1, under_refl). by apply Hf1.
  - cbn [fst] in *. assert (file s2 (locate cwd (backup_of exe)) = Some old) as Hb2 by (rewrite <- Hb; apply Hf2; congruence).
    pose proof (fs_rename_frame (backup_of exe) exe s2) as Hf3. destruct (fs_rename (backup_of exe) exe s2) as [s3 [[]|e3]] eqn:E3; intros [= <- <-]; cbn [fst] in *.
    + apply (fs_rename_ok _ _ _ _ old) in E3 as [H _]; [|congruence|done]. split; [by left|]. intros q Hq1 Hq2. rewrite Hf3, Hf2 by (done || (intros ->; apply Hq1, under_refl)). by apply Hf1.
    + split; [right; by rewrite (fs_rename_err _ _ _ _ _ _ E3)|]. intros q Hq1 Hq2. rewrite Hf3, Hf2 by (done || (intros ->; apply Hq1, under_refl)). by apply Hf1.
Qed.

Context {crypto : Crypto}.

(** The bytes a download delivers for a wanted release of this platform. *)
Definition release_of (arch : list (string * string)) (self : NodeGetVersion) (fetch : string -> result string Download) (tag : string) (bytes : list Z) : Prop :=
  exists name body response, (nv_cargo_target_triple self, name) ∈ arch /\ tag = String "v" body /\ forallb tag_char (String.list_ascii_of_string body) = true /\
    fetch ("https://install.nodeget.com/releases/" +:+ name +:+ "?tag=" +:+ tag) = Ok response /\ is_success (dl_status response) = true /\
    dl_body response = Ok bytes /\ (1024 <= Z.of_nat (length bytes))%Z.

Lemma url_release arch self fetch tag url response bytes : (check_if_update_needed self tag).2 = true -> build_release_url arch self tag = Some url ->
  fetch url = Ok response -> is_success (dl_status response) = true -> dl_body response = Ok bytes -> (Z.of_nat (length bytes) <? 1024)%Z = false ->
  release_of arch self fetch tag bytes.
Proof using.
  intros (target & _ & _ & Hv & _)%check_wanted Hu Hf Hs Hb Hl. apply parse_version_chars in Hv as (body & -> & Hc).
  apply bind_Some in Hu as ([triple name] & Hfind & [= <-]). apply find_some in Hfind as [Hin Heq]. apply String.eqb_eq in Heq. simpl in Heq. subst.
  exists name, body, response. apply list_elem_of_In in Hin. apply Z.ltb_ge in Hl. done.
Qed.

(** C20: a server is updated for the super token only, an agent when its server asks; in both cases only to a release
    that differs from the running one, downloaded whole from the address of the platform's own program, whose
    tag is nothing but a version.  Whatever fails on the disk, the running program is kept, in its place or
    beside it, no other file is touched, and a success means that the new program is in place with the old beside it. *)
Theorem updates_guarded e self current_exe fetch token tag exe old s :
  canonical_exe_path current_exe = Some exe -> locate cwd exe <> locate cwd (backup_of exe) -> file s (locate cwd exe) = Some old ->
  (forall s' r, server_self_update self current_exe fetch e token tag s = (s', r) ->
    s' = s /\ r <> Ok true \/
    (exists t, from_full_token token = Ok t /\ check_super_token (e_globals e) t = Ok true) /\ wanted_release self tag /\
    exists bytes, release_of SERVER_ARCH_NAME self fetch tag bytes /\ program_kept exe old bytes (bool_decide (r = Ok true)) s s') /\
  (forall s' ok, agent_self_update self current_exe fetch tag s = (s', ok) ->
    s' = s /\ ok = false \/
    wanted_release self tag /\ exists bytes, release_of ARCH_NAME self fetch tag bytes /\ program_kept exe old bytes ok s s').
Proof using laws.
  intros He Hne Hold. split.
  - intros s' r. unfold server_self_update. destruct (from_full_token token) as [t|] eqn:Et; [|intros [= <- <-]; by left].
    destruct (check_super_token _ t) as [[]|] eqn:Es; [|intros [= <- <-]; by left..].
    destruct (check_if_update_needed self tag) as [[cv tv] []] eqn:Eu; [|intros [= <- <-]; by left]. cbn [negb].
    assert ((check_if_update_needed self tag).2 = true) as Hu by by rewrite Eu.
    destruct (get_server_url self tag) as [url|] eqn:Eurl; [|intros [= <- <-]; by left]. destruct (fetch url) as [response|] eqn:Ef; [|intros [= <- <-]; by left].
    destruct (is_success (dl_status response)) eqn:Est; [|intros [= <- <-]; by left]. destruct (dl_body response) as [bytes|] eqn:Eb; [|intros [= <- <-]; by left].
    cbn [negb]. destruct (_ <? _)%Z eqn:El; [intros [= <- <-]; by left|].
    destruct (replace_binary current_exe bytes s) as [s1 ok] eqn:Er. intros H. right. split; [eauto|]. split; [by apply check_wanted|].
    exists bytes. split; [by eapply url_release|]. eapply replace_keeps in Er; [|done..].
    destruct ok; injection H as <- <-; [by rewrite bool_decide_true|by rewrite bool_decide_false].
  - intros s' ok. unfold agent_self_update. rewrite He.
    destruct (check_if_update_needed self tag) as [[cv tv] []] eqn:Eu; [|intros [= <- <-]; by left]. cbn [negb].
    assert ((check_if_update_needed self tag).2 = true) as Hu by by rewrite Eu.
    destruct (get_url self tag) as [url|] eqn:Eurl; [|intros [= <- <-]; by left]. destruct (fetch url) as [response|] eqn:Ef; [|intros [= <- <-]; by left].
    destruct (is_success (dl_status response)) eqn:Est; [|intros [= <- <-]; by left]. destruct (dl_body response) as [bytes|] eqn:Eb; [|intros [= <- <-]; by left].
    cbn [negb]. destruct (_ <? _)%Z eqn:El; [intros [= <- <-]; by left|]. intros H. right. split; [by apply check_wanted|].
    exists bytes. split; [by eapply url_release|]. by eapply replace_keeps.
Qed.
End replacing.

(** The path found for the program never ends in the suffix of a backup. *)
Lemma without_old_shorter p q : without_old p = Some q -> (length q < length p)%nat.
Proof.
  unfold without_old. intros H. assert (length (rev p) = length p) as Hl by apply length_rev.
  destruct (rev p) as [|c1 [|c2 [|c3 [|c4 rest]]]]; repeat case_match; try done; injection H as <-; rewrite <- Hl; change @rev with @List.rev; rewrite ?length_rev; simpl; rewrite ?length_app; simpl; rewrite ?length_rev; simpl; lia.
Qed.

Lemma strip_old_settled fuel p : (length p <= fuel)%nat -> without_old (strip_old fuel p) = None.
Proof.
  revert p. induction fuel as [|fuel IH]; intros p Hl; [by destruct p; [|simpl in Hl; lia]|]. cbn [strip_old].
  destruct (without_old p) as [q|] eqn:E; [|done]. apply IH. apply without_old_shorter in E. lia.
Qed.

Theorem canonical_exe_settled current_exe exe : canonical_exe_path current_exe = Some exe -> without_old (String.list_ascii_of_string exe) = None.
Proof.
  destruct current_exe as [p|]; [|done]. intros [= <-]. rewrite String.list_ascii_of_string_of_list_ascii. by apply strip_old_settled.
Qed.

(** ** An update run *)

#[local] Instance update_fs : FsOps MemFs := mem_ops ["opt"%string].
#[local] Instance update_fs_laws : FsLaws update_fs ["opt"%string] mem_file := mem_laws ["opt"%string].

Definition old_release : NodeGetVersion := {|
  nv_binary_type := "Agent"; nv_cargo_version := "0.6.0-rc.1"; nv_git_branch := ""; nv_git_commit_sha := ""; nv_git_commit_date := "";
  nv_git_commit_message := ""; nv_build_time := ""; nv_cargo_target_triple := "aarch64-apple-darwin"; nv_rustc_channel := ""; nv_rustc_version := "";
  nv_rustc_commit_date := ""; nv_rustc_commit_hash := ""; nv_rustc_llvm_version := "" |}.
Definition release_bytes : list Z := replicate 1024 7%Z.
Definition release_site (url : string) : result string Download :=
  if String.eqb url "https://install.nodeget.com/releases/nodeget-agent-macos-aarch64?tag=v0.6.0"
  then Ok {| dl_status := 200; dl_status_text := "200 OK"; dl_body := Ok release_bytes |} else Err "no such host"%string.
Definition update_disk : MemFs := {| mem := {[ ["opt"; "ng"]%string := [1; 2; 3]%Z ]}; read_only := false |}.
Definition updated : MemFs * bool := agent_self_update old_release (Some "ng.old"%string) release_site "v0.6.0" update_disk.

Lemma updates_guarded_witness :
  updated.2 = true /\ mem_file updated.1 ["opt"; "ng"]%string = Some release_bytes /\ mem_file updated.1 ["opt"; "ng.old"]%string = Some [1; 2; 3]%Z.
Proof.
  destruct (updates_guarded (cwd := ["opt"%string]) (file := mem_file) sample_env old_release (Some "ng.old"%string) release_site "" "v0.6.0" "ng" [1; 2; 3]%Z update_disk)
    as [_ H]; [reflexivity|vm_compute; discriminate|reflexivity|].
  destruct (H updated.1 updated.2) as [[_ Hf]|(_ & bytes & (name & body & response & _ & [= <-] & _ & _ & _ & _ & _) & Hk)]; [unfold updated; apply surjective_pairing| |].
  - exfalso. revert Hf. vm_compute. discriminate.
  - split; [vm_compute; reflexivity|]. split; [vm_compute; reflexivity|]. destruct Hk as [Hk _]. revert Hk.
    replace updated.2 with true by (vm_compute; reflexivity). intros [_ Hk]. exact Hk.
Defined.
