(* ===== verification/AgentProbes.v ===== *)
(** * Network tasks of the agent

    [agent/src/tasks/http_request.rs], [ip.rs] and [dns.rs]: requests over HTTP with their clients, the
    addresses of the host, and queries of the domain name system with their resolvers.  The clients
    and resolvers themselves are libraries. *)
From Stdlib Require Import Ascii.
From stdpp Require Import base strings gmap list numbers pretty.
From S2P Require Import Prelude Errors Json Permission StaticBucket JsWorker JsRun TaskTypes NgConfig ConfigRpc AgentConn.

Inductive IpAddr : Type := V4 (n : Z) | V6 (n : Z).
#[export] Instance ip_addr_eq_dec : EqDecision IpAddr.
Proof. solve_decision. Defined.
#[export] Instance ip_addr_countable : Countable IpAddr.
Proof.
  refine (inj_countable' (fun ip => match ip with V4 n => (true, n) | V6 n => (false, n) end)
                         (fun p => match p with (true, n) => V4 n | (false, n) => V6 n end) _).
  by intros [].
Defined.
Definition UNSPECIFIED : Z := 0.
Definition is_ipv4 (ip : IpAddr) : bool := match ip with V4 _ => true | V6 _ => false end.
Definition is_ipv6 (ip : IpAddr) : bool := match ip with V4 _ => false | V6 _ => true end.

(** ** HTTP requests *)

Definition IP_BOUND_CLIENTS_MAX_CAPACITY : nat := 32.
Definition HTTP_RESPONSE_MAX_BYTES : Z := 64 * 1024 * 1024.

(** A client, by the address it sends from; [None] for the default one. *)
Record Client : Type := { cl_local_address : option IpAddr }.

Record HttpCall : Type := { hc_method : string; hc_url : string; hc_headers : list (string * string); hc_body : option (list Z) }.
(** An answer: headers with their value as text, if it is text, and as bytes; the chunks of the body as they arrive. *)
Record HttpAnswer : Type := { ha_status : Z; ha_headers : list (string * (option string * list Z)); ha_chunks : list (result string (list Z)) }.

(** [reqwest], [url] and the parsers of addresses. *)
Class HttpNet : Type := {
  method_from_bytes : string -> result string string;
  url_scheme : string -> string;
  parse_ip_addr : string -> result string IpAddr;
  build_client : IpAddr -> result string unit;
  send_request : Client -> HttpCall -> result string HttpAnswer;
}.

Definition to_ascii_uppercase (c : ascii) : ascii :=
  let b := byte_of c in if ((97 <=? b) && (b <=? 122))%Z then ascii_of_N (Z.to_N (b - 32)) else c.
Fixpoint string_to_ascii_uppercase (s : string) : string :=
  match s with EmptyString => EmptyString | String c s' => String (to_ascii_uppercase c) (string_to_ascii_uppercase s') end.

Section http.
Context {net : HttpNet} {b64 : Base64}.

(** The local address a task asks for, if any. *)
Definition requested_ip (task : HttpRequestTask) : result NodegetError (option IpAddr) :=
  match option_map trim (hr_ip task) with
  | Some ip_raw =>
      if str_is_empty ip_raw then Ok None else
      if eq_ignore_ascii_case ip_raw "ipv4 auto" then Ok (Some (V4 UNSPECIFIED)) else
      if eq_ignore_ascii_case ip_raw "ipv6 auto" then Ok (Some (V6 UNSPECIFIED)) else
      match parse_ip_addr ip_raw with
      | Ok ip => Ok (Some ip)
      | Err e => Err (InvalidInput ("Invalid http_request.ip '" +:+ ip_raw +:+ "': " +:+ e))
      end
  | None => Ok None
  end.

(** The client for it: the cache is emptied when it is full. *)
Definition client_for (ip : option IpAddr) (cache : gmap IpAddr Client) : gmap IpAddr Client * result NodegetError Client :=
  match ip with
  | None => (cache, Ok {| cl_local_address := None |})
  | Some ip =>
      match cache !! ip with
      | Some cached => (cache, Ok cached)
      | None =>
          let cache := if (IP_BOUND_CLIENTS_MAX_CAPACITY <=? size cache)%nat then ∅ else cache in
          match build_client ip with
          | Err e => (cache, Err (Other ("Failed to build HTTP client: " +:+ e)))
          | Ok _ => let client := {| cl_local_address := Some ip |} in (<[ip := client]> cache, Ok client)
          end
      end
  end.

Definition request_body (task : HttpRequestTask) : result NodegetError (option (list Z)) :=
  match hr_body task, hr_body_base64 task with
  | Some _, Some _ => Err (InvalidInput "http_request.body and http_request.body_base64 are mutually exclusive")
  | Some body, None => Ok (Some (as_bytes body))
  | None, Some text =>
      match b64_decode text with
      | Ok bytes => Ok (Some bytes)
      | Err e => Err (InvalidInput ("Invalid http_request.body_base64: " +:+ e))
      end
  | None, None => Ok None
  end.

Definition response_header (h : string * (option string * list Z)) : list (string * string) :=
  [(h.1, match h.2.1 with Some v => v | None => b64_encode h.2.2 end)].

(** The body, chunk by chunk, up to the limit. *)
Fixpoint read_chunks (bytes : list Z) (chunks : list (result string (list Z))) : result NodegetError (list Z) :=
  match chunks with
  | [] => Ok bytes
  | Ok chunk :: rest =>
      if (HTTP_RESPONSE_MAX_BYTES <? Z.of_nat (length bytes) + Z.of_nat (length chunk))%Z
      then Err (Other ("HTTP response body too large: exceeds " +:+ pretty HTTP_RESPONSE_MAX_BYTES +:+ " bytes"))
      else read_chunks (bytes ++ chunk) rest
  | Err e :: _ => Err (Other ("Failed to read HTTP response body: " +:+ e))
  end.

Definition request_result (response : HttpAnswer) (bytes : list Z) : HttpRequestTaskResult :=
  let '(body, body_base64) := match from_utf8 bytes with Ok s => (Some s, None) | Err _ => (None, Some (b64_encode bytes)) end in
  {| hrr_status := ha_status response; hrr_headers := map response_header (ha_headers response); hrr_body := body; hrr_body_base64 := body_base64 |}.

Definition execute_http_request (task : HttpRequestTask) (cache : gmap IpAddr Client) : gmap IpAddr Client * result NodegetError HttpRequestTaskResult :=
  match method_from_bytes (string_to_ascii_uppercase (trim (hr_method task))) with
  | Err e => (cache, Err (InvalidInput ("Invalid http_request.method: " +:+ e)))
  | Ok method =>
      let scheme := url_scheme (hr_url task) in
      if negb (String.eqb scheme "http") && negb (String.eqb scheme "https")
      then (cache, Err (InvalidInput ("http_request.url scheme must be http or https, got '" +:+ scheme +:+ "'"))) else
      match requested_ip task with
      | Err e => (cache, Err e)
      | Ok ip =>
          let '(cache', found) := client_for ip cache in
          (cache',
           let? client := found in
           let? body := request_body task in
           let? response := map_err (fun e => Other ("HTTP request failed: " +:+ e))
             (send_request client {| hc_method := method; hc_url := hr_url task; hc_headers := hr_headers task; hc_body := body |}) in
           let? bytes := read_chunks [] (ha_chunks response) in
           Ok (request_result response bytes))
      end
  end.
End http.

(** ** Addresses of the host *)

Inductive IpFamily : Type := Ipv4Only | Ipv6Only.
Record IPInfo : Type := { ip_v4 : option Z; ip_v6 : option Z }.

Definition ip_provider_or_default (config : AgentConfig) : IpProvider := unwrap_or Cloudflare (ac_ip_provider config).

(** [str::replace("ip=", "")]. *)
Fixpoint remove_ip_prefixes (fuel : nat) (s : string) : string :=
  match fuel with
  | S fuel =>
      match strip_prefix "ip=" s with
      | Some rest => remove_ip_prefixes fuel rest
      | None => match s with EmptyString => EmptyString | String c s' => String c (remove_ip_prefixes fuel s') end
      end
  | 0 => s
  end.

Definition parse_cloudflare_trace (body : string) : option string :=
  option_map (fun line => remove_ip_prefixes (String.length line) line) (List.find (fun line => starts_with line "ip=") (lines body)).

Definition parse_ipinfo_json {json : JsonText} (body : string) : option string :=
  match json_from_str body with
  | Ok (JObject o) => match assoc "ip" o with Some (JString s) => Some s | _ => None end
  | _ => None
  end.

Section ip.
Context {json : JsonText}.
(** [Ipv4Addr::from_str], [Ipv6Addr::from_str], and what is fetched with a client of a family. *)
Variable parse_v4 parse_v6 : string -> option Z.
Variable fetch_text : string -> IpFamily -> option string.

Definition ip_ipinfo : IPInfo :=
  {| ip_v4 := body ← fetch_text "https://ipinfo.io" Ipv4Only; ip_str ← parse_ipinfo_json body; parse_v4 ip_str;
     ip_v6 := body ← fetch_text "https://6.ipinfo.io" Ipv6Only; ip_str ← parse_ipinfo_json body; parse_v6 ip_str |}.
Definition ip_cloudflare : IPInfo :=
  {| ip_v4 := body ← fetch_text "https://1.1.1.1/cdn-cgi/trace" Ipv4Only; ip_str ← parse_cloudflare_trace body; parse_v4 ip_str;
     ip_v6 := body ← fetch_text "https://[2606:4700:4700::1111]/cdn-cgi/trace" Ipv6Only; ip_str ← parse_cloudflare_trace body; parse_v6 ip_str |}.

Definition ip (config : option AgentConfig) : IPInfo :=
  match unwrap_or Cloudflare (option_map ip_provider_or_default config) with
  | Cloudflare => ip_cloudflare
  | IpInfo => ip_ipinfo
  end.
End ip.

(** ** Domain names *)

Definition RESOLVER_CACHE_MAX : nat := 16.

(** A resolver, by the server it asks; [None] for the one of the system. *)
Record Resolver : Type := { rv_server : option string }.

(** [hickory_resolver]; addresses of servers are kept in the text the parser gives them. *)
Class DnsNet : Type := {
  parse_socket_addr : string -> result string string;
  read_system_conf : result string unit;
  ip_to_string : IpAddr -> string;
  parse_domain_ip : string -> result string IpAddr;
  lookup_ip : Resolver -> string -> result string (list IpAddr);
  txt_lookup : Resolver -> string -> result string (list string);
  reverse_lookup : Resolver -> IpAddr -> result string (list string);
  mx_lookup : Resolver -> string -> result string (list (Z * string));
  ns_lookup : Resolver -> string -> result string (list string);
  srv_lookup : Resolver -> string -> result string (list (Z * Z * Z * string));
  soa_lookup : Resolver -> string -> result string (list (string * string * Z * Z * Z * Z * Z));
  (** records of any type; [None] for another one *)
  cname_lookup : Resolver -> string -> result string (list (option string));
  caa_lookup : Resolver -> string -> result string (list (option (string * string)));
}.

Section dns.
Context {dns : DnsNet}.

Definition build_resolver (server : option string) (cache : gmap (option string) Resolver) : gmap (option string) Resolver * result NodegetError Resolver :=
  match match server with
        | Some server_str => match parse_socket_addr server_str with
                             | Ok addr => Ok (Some addr)
                             | Err e => Err (Other ("Invalid DNS server address '" +:+ server_str +:+ "': " +:+ e))
                             end
        | None => Ok None
        end with
  | Err e => (cache, Err e)
  | Ok key =>
      match cache !! key with
      | Some resolver => (cache, Ok resolver)
      | None =>
          match match key with
                | Some addr => Ok {| rv_server := Some addr |}
                | None => match read_system_conf with
                          | Ok _ => Ok {| rv_server := None |}
                          | Err e => Err (Other ("Failed to read system DNS config: " +:+ e))
                          end
                end with
          | Err e => (cache, Err e)
          | Ok resolver =>
              let cache := if (RESOLVER_CACHE_MAX <=? size cache)%nat then ∅ else cache in
              (<[key := resolver]> cache, Ok resolver)
          end
      end
  end.

Definition lookup_failed (kind e : string) : NodegetError := Other ("DNS " +:+ kind +:+ " lookup failed: " +:+ e).
Definition sp (words : list string) : string := String.concat " " words.

Definition query_single_type (resolver : Resolver) (domain : string) (record_type : DnsRecordType) : result NodegetError (list (DnsRecordType * string)) :=
  match record_type with
  | DnsA => let? l := map_err (lookup_failed "A") (lookup_ip resolver domain) in Ok (map (fun ip => (DnsA, ip_to_string ip)) (List.filter is_ipv4 l))
  | DnsAaaa => let? l := map_err (lookup_failed "AAAA") (lookup_ip resolver domain) in Ok (map (fun ip => (DnsAaaa, ip_to_string ip)) (List.filter is_ipv6 l))
  | DnsTxt => let? l := map_err (lookup_failed "TXT") (txt_lookup resolver domain) in Ok (map (pair DnsTxt) l)
  | DnsPtr =>
      let? ip := map_err (fun e => Other ("PTR record query requires a valid IP address as domain, got '" +:+ domain +:+ "': " +:+ e)) (parse_domain_ip domain) in
      let? l := map_err (lookup_failed "PTR") (reverse_lookup resolver ip) in Ok (map (pair DnsPtr) l)
  | DnsMx => let? l := map_err (lookup_failed "MX") (mx_lookup resolver domain) in
             Ok (map (fun '(preference, exchange) => (DnsMx, sp [pretty preference; exchange])) l)
  | DnsNs => let? l := map_err (lookup_failed "NS") (ns_lookup resolver domain) in Ok (map (pair DnsNs) l)
  | DnsSrv => let? l := map_err (lookup_failed "SRV") (srv_lookup resolver domain) in
              Ok (map (fun '(priority, weight, port, target) => (DnsSrv, sp [pretty priority; pretty weight; pretty port; target])) l)
  | DnsSoa => let? l := map_err (lookup_failed "SOA") (soa_lookup resolver domain) in
              Ok (map (fun '(mname, rname, serial, refresh, retry, expire, minimum) =>
                    (DnsSoa, sp [mname; rname; pretty serial; pretty refresh; pretty retry; pretty expire; pretty minimum])) l)
  | DnsCname => let? l := map_err (lookup_failed "CNAME") (cname_lookup resolver domain) in Ok (omap (option_map (pair DnsCname)) l)
  | DnsCaa => let? l := map_err (lookup_failed "CAA") (caa_lookup resolver domain) in
              Ok (omap (option_map (fun '(tag, value) => (DnsCaa, sp [tag; value]))) l)
  end.

(** The records of one type with the time its query took; a query that fails gives none. *)
Definition records_of (resolver : Resolver) (domain : string) (elapsed : DnsRecordType -> Z) (record_type : DnsRecordType) : list DnsRecordResult :=
  match query_single_type resolver domain record_type with
  | Ok records => map (fun r => {| drr_type := r.1; drr_time := elapsed record_type; drr_data := r.2 |}) records
  | Err _ => []
  end.

Definition query_dns (task : DnsTask) (elapsed : DnsRecordType -> Z) (cache : gmap (option string) Resolver) :
  gmap (option string) Resolver * result NodegetError (list DnsRecordResult) :=
  let '(cache', built) := build_resolver (dns_server task) cache in
  (cache',
   let? resolver := built in
   let results := concat (map (records_of resolver (dns_domain task) elapsed) (dns_record_types task)) in
   match results, dns_record_types task with
   | [], _ :: _ => Err (Other ("DNS query returned no results for domain '" +:+ dns_domain task +:+ "', all "
                               +:+ pretty (length (dns_record_types task)) +:+ " record types queried"))
   | _, _ => Ok results
   end).
End dns.

(** ** Requests carry what was asked, answers what arrived *)

Section http_thms.
Context {net : HttpNet} {b64 : Base64}.

(** The cache holds a bounded number of clients, each bound to its own address. *)
Definition clients_ok (cache : gmap IpAddr Client) : Prop :=
  (size cache <= IP_BOUND_CLIENTS_MAX_CAPACITY)%nat /\ forall ip c, cache !! ip = Some c -> cl_local_address c = Some ip.

Lemma client_for_ok ip cache cache' r : clients_ok cache -> client_for ip cache = (cache', r) ->
  clients_ok cache' /\ forall c, r = Ok c -> cl_local_address c = ip.
Proof using.
  intros [Hsize Hc]. unfold client_for. destruct ip as [ip|]; [|intros [= <- <-]; split; [done|]; by intros c [= <-]].
  destruct (cache !! ip) as [c|] eqn:E; [intros [= <- <-]; split; [done|]; intros ? [= <-]; by apply Hc|].
  set (cache1 := if (_ <=? _)%nat then ∅ else cache).
  assert ((size cache1 < IP_BOUND_CLIENTS_MAX_CAPACITY)%nat /\ forall ip c, cache1 !! ip = Some c -> cl_local_address c = Some ip) as [Hs1 H1].
  { unfold cache1. destruct (Nat.leb_spec IP_BOUND_CLIENTS_MAX_CAPACITY (size cache)); [|done]. split; [rewrite map_size_empty; unfold IP_BOUND_CLIENTS_MAX_CAPACITY; lia|].
    intros ? ? H0. by rewrite lookup_empty in H0. }
  destruct (build_client ip); intros [= <- <-].
  - split; [|by intros c [= <-]]. split.
    + rewrite map_size_insert. destruct (cache1 !! ip); simpl; lia.
    + intros ip' c [[<- <-]|[Hn H]]%lookup_insert_Some; [done|by apply H1].
  - split; [|done]. split; [lia|done].
Qed.

Lemma read_chunks_ok acc chunks bytes : (Z.of_nat (length acc) <= HTTP_RESPONSE_MAX_BYTES)%Z -> read_chunks acc chunks = Ok bytes ->
  exists pieces, chunks = map Ok pieces /\ bytes = acc ++ concat pieces /\ (Z.of_nat (length bytes) <= HTTP_RESPONSE_MAX_BYTES)%Z.
Proof using.
  revert acc. induction chunks as [|[c|e] chunks IH]; intros acc Hl; cbn [read_chunks].
  - intros [= <-]. exists []. by rewrite app_nil_r.
  - destruct (Z.ltb_spec HTTP_RESPONSE_MAX_BYTES (Z.of_nat (length acc) + Z.of_nat (length c))) as [|Hle]; [done|]. intros H.
    apply IH in H as (pieces & -> & -> & Hb); [|rewrite length_app; lia]. exists (c :: pieces). by rewrite <- app_assoc in *.
  - done.
Qed.

(** A body as it was received: text when it is text, else in base 64. *)
Definition carries (r : HttpRequestTaskResult) (bytes : list Z) : Prop :=
  (hrr_body r = Some (string_of_bytes bytes) /\ is_ok (from_utf8 bytes) = true /\ hrr_body_base64 r = None) \/
  (hrr_body r = None /\ is_ok (from_utf8 bytes) = false /\ hrr_body_base64 r = Some (b64_encode bytes)).

Lemma read_chunks_all acc pieces : (Z.of_nat (length (acc ++ concat pieces)) <= HTTP_RESPONSE_MAX_BYTES)%Z ->
  read_chunks acc (map Ok pieces) = Ok (acc ++ concat pieces).
Proof using.
  revert acc. induction pieces as [|c pieces IH]; intros acc Hl; cbn [read_chunks map concat] in *; [by rewrite app_nil_r|].
  rewrite app_assoc in *. pose proof Hl as Hl'. rewrite length_app, length_app in Hl'.
  destruct (Z.ltb_spec HTTP_RESPONSE_MAX_BYTES (Z.of_nat (length acc) + Z.of_nat (length c))); [lia|]. by apply IH.
Qed.

(** The request a task stands for, the client that sends it and its answer, in the pieces the body arrives in. *)
Record exchanged (task : HttpRequestTask) (cache : gmap IpAddr Client) (answer : HttpAnswer) (pieces : list (list Z)) : Prop := {
  ex_scheme : (url_scheme (hr_url task) = "http" \/ url_scheme (hr_url task) = "https")%string;
  ex_sent : exists method ip client body,
    method_from_bytes (string_to_ascii_uppercase (trim (hr_method task))) = Ok method /\ requested_ip task = Ok ip /\
    (client_for ip cache).2 = Ok client /\ cl_local_address client = ip /\ request_body task = Ok body /\
    send_request client {| hc_method := method; hc_url := hr_url task; hc_headers := hr_headers task; hc_body := body |} = Ok answer;
  ex_pieces : ha_chunks answer = map Ok pieces;
  ex_size : (Z.of_nat (length (concat pieces)) <= HTTP_RESPONSE_MAX_BYTES)%Z }.

Lemma request_result_carries answer bytes res : request_result answer bytes = res <->
  hrr_status res = ha_status answer /\ hrr_headers res = map response_header (ha_headers answer) /\ carries res bytes.
Proof using.
  destruct res as [st hd bd b6]. unfold request_result, carries, from_utf8. destruct (run_utf8_validation _ _ _) eqn:Eu; 
    (split; [intros [= <- <- <- <-]; simpl; auto 10|simpl; intros (-> & -> & [(-> & ? & ->)|(-> & ? & ->)]); done]).
Qed.

(** C37: a request task gives a result exactly when its request, over HTTP or HTTPS, with the method, headers and body of the
    task and from the local address the task asks for, is answered with a body that arrives whole and is at most 64 MB;
    the result is then the status, the headers and the body byte for byte, as text when it is text and
    else in base 64.  The cache never holds more than 32 clients, each bound to its own address. *)
Theorem http_request_exact task cache cache' r : clients_ok cache -> execute_http_request task cache = (cache', r) ->
  clients_ok cache' /\
  forall res, r = Ok res <-> exists answer pieces, exchanged task cache answer pieces /\
    hrr_status res = ha_status answer /\ hrr_headers res = map response_header (ha_headers answer) /\ carries res (concat pieces).
Proof using.
  intros Hc. setoid_rewrite <- request_result_carries. unfold execute_http_request.
  destruct (method_from_bytes _) as [method|] eqn:Em;
    [|intros [= <- <-]; split; [done|]; split; [done|intros (? & ? & [_ (? & ? & ? & ? & ? & _) _ _] & _); congruence]].
  destruct (negb (String.eqb (url_scheme (hr_url task)) "http") && negb (String.eqb (url_scheme (hr_url task)) "https")) eqn:Es.
  { intros [= <- <-]; split; [done|]; split; [done|]. intros (? & ? & [Hs _ _ _] & _). destruct Hs as [Hs|Hs]; by rewrite Hs in Es. }
  destruct (requested_ip task) as [ip|] eqn:Ei;
    [|intros [= <- <-]; split; [done|]; split; [done|intros (? & ? & [_ (? & ? & ? & ? & _ & ? & _) _ _] & _); congruence]].
  destruct (client_for ip cache) as [cache1 found] eqn:Ec. destruct (client_for_ok _ _ _ _ Hc Ec) as [Hc1 Hcl].
  intros [= <- <-]. split; [done|]. intros res. split.
  - intros H. apply rbind_ok in H as (client & -> & H). apply rbind_ok in H as (body & Hb & H). apply rbind_ok in H as (answer & Ha%map_err_ok & H).
    apply rbind_ok in H as (bytes & Hr & [= <-]). apply read_chunks_ok in Hr as (pieces & Hp & -> & Hlen); [|done].
    exists answer, pieces. split; [|done]. split; [|exists method, ip, client, body; rewrite Ec; split_and!; auto|done|done].
    apply andb_false_iff in Es as [Hs|Hs]; apply negb_false_iff, String.eqb_eq in Hs; auto.
  - intros (answer & pieces & [_ (m & i & client & body & Hm & Hi & Hf & _ & Hb & Ha) Hp Hl] & <-). assert (m = method) as -> by congruence. assert (i = ip) as -> by congruence. rewrite Ec in Hf. simpl in Hf. subst found.
    simpl. rewrite Hb. simpl. rewrite Ha. simpl. by rewrite Hp, read_chunks_all.
Qed.
End http_thms.

Section dns_thms.
Context {dns : DnsNet}.

Definition resolvers_ok (cache : gmap (option string) Resolver) : Prop :=
  (size cache <= RESOLVER_CACHE_MAX)%nat /\ forall key r, cache !! key = Some r -> rv_server r = key.

Lemma build_resolver_ok server cache cache' r : resolvers_ok cache -> build_resolver server cache = (cache', r) ->
  resolvers_ok cache' /\ forall v, r = Ok v -> match server with Some s => exists addr, parse_socket_addr s = Ok addr /\ rv_server v = Some addr | None => rv_server v = None end.
Proof using.
  intros [Hsize Hc]. unfold build_resolver.
  assert (forall key, (forall v : Resolver, rv_server v = key -> match server with Some s => exists addr, parse_socket_addr s = Ok addr /\ rv_server v = Some addr | None => rv_server v = None end) ->
    forall built, match cache !! key with
      | Some resolver => (cache, Ok resolver)
      | None => match built with
                | Err e => (cache, Err e)
                | Ok resolver => let cache := if (RESOLVER_CACHE_MAX <=? size cache)%nat then ∅ else cache in (<[key := resolver]> cache, Ok resolver)
                end
      end = (cache', r) -> (forall v, built = Ok v -> rv_server v = key) ->
    resolvers_ok cache' /\ forall v, r = Ok v -> match server with Some s => exists addr, parse_socket_addr s = Ok addr /\ rv_server v = Some addr | None => rv_server v = None end) as Hkey.
  { intros key Hv built H Hb. destruct (cache !! key) as [v|] eqn:E; [injection H as <- <-; split; [done|]; intros ? [= <-]; by apply Hv, Hc|].
    destruct built as [v|e]; [|injection H as <- <-; by split]. cbv zeta in H.
    remember (if (RESOLVER_CACHE_MAX <=? size cache)%nat then ∅ else cache) as cache2 eqn:E2 in H.
    assert ((size cache2 < RESOLVER_CACHE_MAX)%nat /\ forall key r, cache2 !! key = Some r -> rv_server r = key) as [Hs2 H2].
    { subst cache2. destruct (Nat.leb_spec RESOLVER_CACHE_MAX (size cache)); [|done].
      split; [rewrite map_size_empty; unfold RESOLVER_CACHE_MAX; lia|]. intros ? ? Hlk. by rewrite lookup_empty in Hlk. }
    injection H as <- <-. split; [|intros ? [= <-]; by apply Hv, Hb]. split.
    - rewrite map_size_insert. destruct (cache2 !! key); simpl; lia.
    - intros k x [[<- <-]|[_ Hx]]%lookup_insert_Some; [by apply Hb|by apply H2]. }
  destruct server as [s|].
  - destruct (parse_socket_addr s) as [addr|e] eqn:Ea; [|intros [= <- <-]; by split]. intros H.
    refine (Hkey (Some addr) _ (Ok {| rv_server := Some addr |}) H _); [intros v Hv; eauto|by intros v [= <-]].
  - destruct read_system_conf as [u|e] eqn:Er.
    + intros H. refine (Hkey None _ (Ok {| rv_server := None |}) H _); [done|by intros v [= <-]].
    + intros H. refine (Hkey None _ (Err _) H _); done.
Qed.

Lemma single_type_types resolver domain ty l : query_single_type resolver domain ty = Ok l -> Forall (fun r => r.1 = ty) l.
Proof using.
  destruct ty; simpl; intros H; inv_ok; rewrite Forall_forall; intros rec Hrec;
    match type of Hrec with
    | _ ∈ map _ _ => apply list_elem_of_fmap in Hrec as (y & -> & _); by repeat destruct y as [y ?]
    | _ => apply list_elem_of_omap in Hrec as (y & _ & Hy); destruct y as [y|]; [|done]; try destruct y; by injection Hy as <-
    end.
Qed.

(** A query asks the server the task names, and the records come back type by type in the order of the task,
    each of a type that was asked for; an error means that nothing was found or no resolver could be built.
    Sixteen resolvers are kept at most, each for its own server. *)
Theorem dns_query_exact task elapsed cache cache' r : resolvers_ok cache -> query_dns task elapsed cache = (cache', r) ->
  resolvers_ok cache' /\
  forall l, r = Ok l -> exists resolver,
    match dns_server task with Some s => exists addr, parse_socket_addr s = Ok addr /\ rv_server resolver = Some addr | None => rv_server resolver = None end /\
    l = concat (map (records_of resolver (dns_domain task) elapsed) (dns_record_types task)) /\
    (forall x, x ∈ l -> drr_type x ∈ dns_record_types task) /\ (dns_record_types task <> [] -> l <> []).
Proof using.
  intros Hc. unfold query_dns. destruct (build_resolver _ cache) as [cache1 built] eqn:Eb. destruct (build_resolver_ok _ _ _ _ Hc Eb) as [Hc1 Hv].
  intros [= <- <-]. split; [done|]. intros l H. apply rbind_ok in H as (resolver & -> & H). exists resolver. split; [by apply Hv|].
  set (all := concat _) in *. assert (l = all /\ (dns_record_types task <> [] -> l <> [])) as [-> Hne].
  { destruct all eqn:E; destruct (dns_record_types task); try done; injection H as <-; by split. }
  split; [done|]. split; [|done]. intros x Hx. unfold all in Hx. apply list_elem_of_In, in_concat in Hx as (part & Hpart & Hx). apply list_elem_of_In in Hx.
  apply in_map_iff in Hpart as (ty & <- & Hty). apply list_elem_of_In in Hty. unfold records_of in Hx.
  destruct (query_single_type _ _ ty) as [recs|] eqn:Eq; [|by apply elem_of_nil in Hx]. apply single_type_types in Eq.
  apply list_elem_of_fmap in Hx as (y & -> & Hy). simpl. rewrite Forall_forall in Eq. by rewrite (Eq y Hy).
Qed.
End dns_thms.

(** ** Examples *)

#[local] Instance demo_b64 : Base64 := {| b64_encode := string_of_bytes; b64_decode s := Ok (as_bytes s) |}.
#[local] Instance demo_net : HttpNet := {|
  method_from_bytes s := if str_is_empty s then Err "invalid HTTP method"%string else Ok s;
  url_scheme u := if starts_with u "http:" then "http"%string else if starts_with u "https:" then "https"%string else "ftp"%string;
  parse_ip_addr s := if String.eqb s "192.0.2.7" then Ok (V4 3221225991) else Err "invalid IP address syntax"%string;
  build_client _ := Ok tt;
  send_request c q := Ok {| ha_status := 200; ha_headers := [("server"%string, (Some "demo"%string, [])); ("x-raw"%string, (None, [255%Z]))];
                            ha_chunks := [Ok (as_bytes (hc_method q)); Ok (as_bytes " ok")] |} |}.

Definition demo_task : HttpRequestTask :=
  {| hr_url := "https://example.org/"; hr_method := " get "; hr_headers := []; hr_body := None; hr_body_base64 := None; hr_ip := Some "192.0.2.7"%string |}.
Definition demo_request : gmap IpAddr Client * result NodegetError HttpRequestTaskResult := execute_http_request demo_task ∅.

Lemma http_request_exact_witness : clients_ok demo_request.1 /\ option_map hrr_body match demo_request.2 with Ok r => Some r | Err _ => None end = Some (Some "GET ok"%string).
Proof.
  destruct (http_request_exact demo_task ∅ demo_request.1 demo_request.2) as [H _].
  - split; [vm_compute; lia|]. intros ip c Hlk. by rewrite lookup_empty in Hlk.
  - unfold demo_request. apply surjective_pairing.
  - split; [exact H|vm_compute; reflexivity].
Defined.

Example trace_parsed : parse_cloudflare_trace ("fl=1" +:+ String LF ("ip=2001:db8::1" +:+ String LF "ts=2")) = Some "2001:db8::1"%string.
Proof. reflexivity. Qed.
