(* ===== verification/AgentPty.v ===== *)
(** * The agent's end of a terminal

    [agent/src/tasks/pty.rs]: the address a terminal task connects to, the shell it runs, one session per
    terminal, and the two directions of a session, one of which ends it. *)
From Stdlib Require Import Ascii.
From stdpp Require Import base strings gmap sets list numbers pretty.
From S2P Require Import Prelude Errors Json Permission StaticPath JsRun NgConfig ConfigRpc DbRegistry AgentConn.

(** ** Where to connect *)

(** A parsed [Url]: [port] is [port_or_known_default], the query is its decoded pairs. *)
Record Url : Type := { u_scheme : string; u_host : option string; u_port : option Z; u_path : string; u_pairs : list (string * string); u_text : string }.

Definition set_or_replace_query_param (url : Url) (key value : string) : Url :=
  {| u_scheme := u_scheme url; u_host := u_host url; u_port := u_port url; u_path := u_path url;
     u_pairs := List.filter (fun p => negb (String.eqb p.1 key)) (u_pairs url) ++ [(key, value)]; u_text := u_text url |}.

Section urls.
Variable url_parse : string -> result string Url.
Variable show_uuid : Uuid -> string.

Definition auto_gen_text (scheme host : string) (port : Z) (agent_uuid : Uuid) (task_id : Z) (task_token terminal_id : string) : string :=
  scheme +:+ "://" +:+ host +:+ ":" +:+ pretty port +:+ "/terminal?agent_uuid=" +:+ show_uuid agent_uuid +:+ "&task_id=" +:+ pretty task_id
  +:+ "&task_token=" +:+ task_token +:+ "&terminal_id=" +:+ terminal_id.

Definition parse_url (config : option AgentConfig) (url : Url) (task_id : Z) (task_token terminal_id : string) : result string Url :=
  let scheme := u_scheme url in
  if negb (String.eqb scheme "ws" || String.eqb scheme "wss") then Err ("Invalid scheme: " +:+ scheme) else
  let? url :=
    if String.eqb (u_path url) "/auto_gen" then
      let? agent_uuid := ok_or "Agent config not initialized"%string (option_map ac_agent_uuid config) in
      let? host := ok_or ("Invalid host: " +:+ u_text url) (u_host url) in
      let? port := ok_or ("Invalid port: " +:+ u_text url) (u_port url) in
      map_err (fun e => "Invalid URL: " +:+ e) (url_parse (auto_gen_text scheme host port agent_uuid task_id task_token terminal_id))
    else Ok url in
  Ok (set_or_replace_query_param url "terminal_id" terminal_id).
End urls.

(** ** The shell *)

Section shell.
(** [Path::exists]. *)
Variable exists_ : string -> bool.

Definition default_terminal_shell : string := if exists_ "/bin/bash" then "/bin/bash" else "sh".

Definition terminal_shell (config : option AgentConfig) : result NodegetError string :=
  match config with
  | None => Err (Other "Agent config not initialized")
  | Some c =>
      let shell := match ac_terminal_shell c with
                   | None => default_terminal_shell
                   | Some s => let s := trim s in if str_is_empty s then default_terminal_shell else s
                   end in
      if (1 <? length (components shell))%nat && negb (exists_ shell)
      then Err (InvalidInput ("Configured terminal_shell does not exist: " +:+ shell))
      else Ok shell
  end.
End shell.

(** ** One session per terminal *)

Definition reserve_terminal_id (terminal_id : string) (pool : gset string) : gset string * result NodegetError unit :=
  if bool_decide (terminal_id ∈ pool) then (pool, Err (InvalidInput ("Terminal ID '" +:+ terminal_id +:+ "' is already connected")))
  else ({[ terminal_id ]} ∪ pool, Ok tt).
Definition release_terminal_id (terminal_id : string) (pool : gset string) : gset string := pool ∖ {[ terminal_id ]}.

(** [handle_pty_url] up to the session: the reservation, the connection within its limit, the shell.  A failure releases the
    terminal again. *)
Definition pty_begin (url : result string Url) (terminal_id : string) (connect : Url -> option (result string unit)) (shell : result NodegetError string)
    (pool : gset string) : gset string * result NodegetError string :=
  match url with
  | Err e => (pool, Err (Other e))
  | Ok url =>
      match reserve_terminal_id terminal_id pool with
      | (pool', Err e) => (pool', Err e)
      | (pool', Ok _) =>
          match connect url with
          | Some (Ok _) => match shell with Ok cmd => (pool', Ok cmd) | Err e => (release_terminal_id terminal_id pool', Err e) end
          | Some (Err e) => (release_terminal_id terminal_id pool', Err (AgentConnectionError ("Failed to connect to WebSocket: " +:+ e)))
          | None => (release_terminal_id terminal_id pool', Err (AgentConnectionError "WebSocket connect timed out after 10s"))
          end
      end
  end.
(** Its end, however the session ended. *)
Definition pty_end (terminal_id : string) (pool : gset string) : gset string := release_terminal_id terminal_id pool.

(** ** Messages of the user *)

Inductive WsMessage : Type := WsText (text : string) | WsBinary (data : list Z) | WsClose | WsOther.
Record NeedResize : Type := { nr_type : string; nr_cols : Z; nr_rows : Z }.
Inductive WsEffect : Type := Resize (r : NeedResize) | Input (data : list Z) | Nothing | Closed.

Definition U16_MAX : Z := 65535.
Definition u16_or_max (z : Z) : Z := if (z <=? U16_MAX)%Z then z else U16_MAX.

Definition resize_of (v : Json) : option NeedResize :=
  cols ← json_get "cols" v ≫= as_u64; rows ← json_get "rows" v ≫= as_u64;
  Some {| nr_type := unwrap_or "resize"%string (json_get "type" v ≫= as_str); nr_cols := u16_or_max cols; nr_rows := u16_or_max rows |}.

Definition handle_ws_message {json : JsonText} (msg : WsMessage) : WsEffect :=
  match msg with
  | WsText text =>
      match json_from_str text with
      | Ok (JObject o) =>
          match resize_of (JObject o) with
          | Some r => Resize r
          | None => if bool_decide (is_Some (assoc "type" o)) && bool_decide (is_Some (assoc "timestamp" o)) then Nothing else Input (as_bytes text)
          end
      | _ => Input (as_bytes text)
      end
  | WsBinary data => Input data
  | WsClose => Closed
  | WsOther => Nothing
  end.

(** ** A session *)

Definition PTY_QUEUE : nat := 4096.

(** What the shell has been given and its size, the reader and its queue, what was sent to the socket. *)
Record PtySession : Type := {
  py_input : list Z; py_size : Z * Z; py_reading : bool; py_queue : list (list Z); py_sent : list (list Z); py_running : bool }.
Definition new_session : PtySession :=
  {| py_input := []; py_size := (24, 80)%Z; py_reading := true; py_queue := []; py_sent := []; py_running := true |}.

Inductive PtyStep : Type :=
| Read (chunk : list Z)            (** the reader gets bytes of the shell *)
| ReadEnd                          (** end of file or an error *)
| Forward (ok : bool)              (** the sending task runs; [ok] says whether the socket takes the message *)
| Receive (msg : option WsMessage) (ok : bool).  (** a message or the end of the socket; [ok]: the shell takes the input *)

Definition stop_reading (s : PtySession) : PtySession :=
  {| py_input := py_input s; py_size := py_size s; py_reading := false; py_queue := py_queue s; py_sent := py_sent s; py_running := py_running s |}.
(** One direction has ended: the other is aborted and the shell is killed. *)
Definition end_session (s : PtySession) : PtySession :=
  {| py_input := py_input s; py_size := py_size s; py_reading := py_reading s; py_queue := py_queue s; py_sent := py_sent s; py_running := false |}.

Definition pty_step {json : JsonText} (s : PtySession) (step : PtyStep) : PtySession :=
  if negb (py_running s) then s else
  match step with
  | Read chunk =>
      if negb (py_reading s) || (length chunk =? 0)%nat then stop_reading s else
      if (length (py_queue s) <? PTY_QUEUE)%nat
      then {| py_input := py_input s; py_size := py_size s; py_reading := true; py_queue := py_queue s ++ [chunk]; py_sent := py_sent s; py_running := true |}
      else stop_reading s
  | ReadEnd => stop_reading s
  | Forward ok =>
      match py_queue s with
      | [] => if py_reading s then s else end_session s
      | data :: rest =>
          let s' := {| py_input := py_input s; py_size := py_size s; py_reading := py_reading s; py_queue := rest;
                       py_sent := if ok : bool then py_sent s ++ [data] else py_sent s; py_running := py_running s |} in
          if ok : bool then s' else end_session s'
      end
  | Receive None _ => end_session s
  | Receive (Some msg) ok =>
      match handle_ws_message msg with
      | Closed => end_session s
      | Nothing => s
      | Resize r => {| py_input := py_input s; py_size := if ok : bool then (nr_rows r, nr_cols r) else py_size s; py_reading := py_reading s;
                       py_queue := py_queue s; py_sent := py_sent s; py_running := true |}
      | Input data =>
          if ok : bool
          then {| py_input := py_input s ++ data; py_size := py_size s; py_reading := py_reading s; py_queue := py_queue s; py_sent := py_sent s; py_running := true |}
          else end_session s
      end
  end.
Definition pty_run {json : JsonText} (steps : list PtyStep) (s : PtySession) : PtySession := fold_left pty_step steps s.

(** ** What a session does *)

Section sessions.
Context {json : JsonText}.

(** A text the protocol takes for a message of the terminal page: a JSON object with the numbers [cols] and [rows], or
    with [type] and [timestamp]. *)
Definition unsigned (v : option Json) : Prop := exists z, v = Some (JNum (NumInt z)) /\ (0 <= z <= u64_max)%Z.
Definition control (text : string) : Prop :=
  exists o, json_from_str text = Ok (JObject o) /\
    ((unsigned (assoc "cols" o) /\ unsigned (assoc "rows" o)) \/ (is_Some (assoc "type" o) /\ is_Some (assoc "timestamp" o))).

(** What a message of the user types: binary data as it is, a text unless it is such a message. *)
Definition typed (step : PtyStep) (data : list Z) : Prop :=
  match step with
  | Receive (Some (WsBinary bytes)) _ => data = bytes
  | Receive (Some (WsText text)) _ => (control text /\ data = []) \/ (~ control text /\ data = as_bytes text)
  | _ => data = []
  end.

(** What the shell wrote, and what reaches the shell, message by message. *)
Definition output_of (step : PtyStep) : option (list Z) :=
  match step with Read chunk => if (length chunk =? 0)%nat then None else Some chunk | _ => None end.
Definition input_of (step : PtyStep) : list Z :=
  match step with Receive (Some msg) _ => match handle_ws_message msg with Input data => data | _ => [] end | _ => [] end.
Definition outputs (steps : list PtyStep) : list (list Z) := omap output_of steps.
Definition inputs (steps : list PtyStep) : list Z := concat (map input_of steps).

Record session_ok (steps : list PtyStep) (s : PtySession) : Prop := {
  so_sent : py_sent s `prefix_of` outputs steps;
  so_running : py_running s = true -> py_sent s ++ py_queue s `prefix_of` outputs steps;
  so_reading : py_running s = true -> py_reading s = true -> py_sent s ++ py_queue s = outputs steps;
  so_input : py_input s `prefix_of` inputs steps;
  so_typed : py_running s = true -> py_input s = inputs steps;
  so_queue : (length (py_queue s) <= PTY_QUEUE)%nat;
  so_size : (0 <= (py_size s).1 <= U16_MAX)%Z /\ (0 <= (py_size s).2 <= U16_MAX)%Z }.

Lemma inputs_snoc steps step : inputs (steps ++ [step]) = inputs steps ++ input_of step.
Proof using. unfold inputs. rewrite map_app, concat_app. simpl. by rewrite app_nil_r. Qed.
Lemma outputs_snoc steps step : outputs (steps ++ [step]) = outputs steps ++ option_list (output_of step).
Proof using. unfold outputs. rewrite omap_app. simpl. by destruct (output_of step). Qed.

(** A session that has ended, or a step that concerns neither direction, changes nothing. *)
Lemma ended_ok steps step s : session_ok steps s -> session_ok (steps ++ [step]) (end_session s).
Proof using.
  intros [H1 H2 H3 H4 H5 H6 H7]. split; simpl; try done; rewrite ?inputs_snoc, ?outputs_snoc; by apply prefix_app_r.
Qed.
Lemma over_ok steps step s : session_ok steps s -> py_running s = false -> session_ok (steps ++ [step]) s.
Proof using.
  intros [H1 H2 H3 H4 H5 H6 H7] Hr. split; simpl; try congruence; try done; rewrite ?inputs_snoc, ?outputs_snoc; by apply prefix_app_r.
Qed.
Lemma quiet_ok steps step s : session_ok steps s -> output_of step = None -> input_of step = [] -> session_ok (steps ++ [step]) s.
Proof using.
  intros [H1 H2 H3 H4 H5 H6 H7] Ho Hi. split; rewrite ?inputs_snoc, ?outputs_snoc, ?Ho, ?Hi; cbn [option_list]; rewrite ?app_nil_r; done.
Qed.
Lemma deaf_ok steps step s : session_ok steps s -> input_of step = [] -> session_ok (steps ++ [step]) (stop_reading s).
Proof using.
  intros [H1 H2 H3 H4 H5 H6 H7] Hi. split; simpl; rewrite ?inputs_snoc, ?outputs_snoc, ?Hi, ?app_nil_r; try done; intros; apply prefix_app_r; auto.
Qed.

Lemma as_u64_nonneg v z : as_u64 v = Some z -> (0 <= z)%Z.
Proof using. unfold as_u64, number_as_u64. intros H. repeat case_match; simplify_eq; lia. Qed.

Lemma resize_bounds v r : resize_of v = Some r -> (0 <= nr_rows r <= U16_MAX)%Z /\ (0 <= nr_cols r <= U16_MAX)%Z.
Proof using.
  unfold resize_of. intros (cols & Hc & H)%bind_Some. apply bind_Some in H as (rows & Hr & [= <-]). apply bind_Some in Hc as (? & _ & Hc%as_u64_nonneg).
  apply bind_Some in Hr as (? & _ & Hr%as_u64_nonneg). simpl. unfold u16_or_max, U16_MAX. split; destruct (Z.leb_spec rows 65535), (Z.leb_spec cols 65535); lia.
Qed.

Lemma message_resize msg r : handle_ws_message msg = Resize r -> (0 <= nr_rows r <= U16_MAX)%Z /\ (0 <= nr_cols r <= U16_MAX)%Z.
Proof using.
  destruct msg as [text|d| |]; simpl; try done. destruct (json_from_str text) as [[]|]; try done.
  destruct (resize_of _) as [r'|] eqn:E; [intros [= <-]; by eapply resize_bounds|]. by destruct (_ && _).
Qed.

Lemma step_ok steps step s : session_ok steps s -> session_ok (steps ++ [step]) (pty_step s step).
Proof using.
  intros Hs. unfold pty_step. destruct (py_running s) eqn:Er; [cbn [negb]|by apply over_ok]. pose proof Hs as [H1 H2 H3 H4 H5 H6 H7].
  destruct step as [chunk| |ok|[msg|] ok].
  - destruct (py_reading s) eqn:Ed; [|by apply deaf_ok]. cbn [negb orb]. destruct (length chunk =? 0)%nat eqn:El; [by apply deaf_ok|].
    destruct (Nat.ltb_spec (length (py_queue s)) PTY_QUEUE) as [Hlt|]; [|by apply deaf_ok].
    assert (output_of (Read chunk) = Some chunk) as Ho by (simpl; by rewrite El).
    split; simpl; rewrite ?inputs_snoc, ?outputs_snoc, ?Ho; cbn [option_list input_of]; rewrite ?app_nil_r; try done; try (by rewrite Er).
    + by apply prefix_app_r.
    + intros _. by rewrite app_assoc, H3.
    + intros _ _. by rewrite app_assoc, H3.
    + intros _. by apply H5.
    + rewrite length_app. simpl. lia.
  - by apply deaf_ok.
  - destruct (py_queue s) as [|data rest] eqn:Eq.
    + destruct (py_reading s); [by apply quiet_ok|by apply ended_ok].
    + assert (py_sent s ++ data :: rest = (py_sent s ++ [data]) ++ rest) as Hassoc by by rewrite <- app_assoc.
      assert (length rest <= PTY_QUEUE)%nat as Hrest by (simpl in H6; lia).
      destruct ok; simpl.
      * apply quiet_ok; [|done|done]. split; simpl; rewrite ?Er; try done.
        -- specialize (H2 Er). rewrite Hassoc in H2. etrans; [|exact H2]. by apply prefix_app_r.
        -- intros _. rewrite <- Hassoc. by apply H2.
        -- intros _ ?. rewrite <- Hassoc. by apply H3.
        -- intros _. by apply H5.
      * apply over_ok; [|done]. split; simpl; done.
  - destruct (handle_ws_message msg) as [r|data| |] eqn:Em.
    + apply quiet_ok; [|done|simpl; by rewrite Em]. split; simpl; auto. destruct ok; [|done]. by eapply message_resize.
    + assert (input_of (Receive (Some msg) ok) = data) as Hi by (simpl; by rewrite Em).
      destruct ok; [|by apply ended_ok].
      split; simpl; rewrite ?inputs_snoc, ?outputs_snoc, ?Hi; cbn [option_list output_of]; rewrite ?app_nil_r; auto; by rewrite (H5 Er).
    + apply quiet_ok; [done|done|simpl; by rewrite Em].
    + by apply ended_ok.
  - by apply ended_ok.
Qed.

Lemma run_session_ok steps : session_ok steps (pty_run steps new_session).
Proof using.
  unfold pty_run. induction steps as [|step steps IH] using rev_ind; [by split; simpl; unfold PTY_QUEUE, U16_MAX; [..|lia|lia]|]. rewrite fold_left_app. by apply step_ok.
Qed.

Lemma release_reserved id pool : id ∉ pool -> release_terminal_id id ({[ id ]} ∪ pool) = pool.
Proof using. intros H. unfold release_terminal_id. apply set_eq. set_solver. Qed.

Lemma pty_begin_cases url id connect shell pool pool' r : pty_begin url id connect shell pool = (pool', r) ->
  match r with Ok _ => id ∉ pool /\ pool' = {[ id ]} ∪ pool | Err _ => pool' = pool end.
Proof using.
  unfold pty_begin, reserve_terminal_id. destruct url as [u|]; [|by intros [= <- <-]]. case_bool_decide as Hin; [by intros [= <- <-]|].
  destruct (connect u) as [[]|]; [destruct shell|..]; intros [= <- <-]; try done; by apply release_reserved.
Qed.

Lemma json_unsigned k o : is_Some (json_get k (JObject o) ≫= as_u64) <-> unsigned (assoc k o).
Proof using.
  unfold json_get, unsigned. simpl. split.
  - intros [z Hz]. destruct (assoc k o) as [v|]; [|done]. simpl in Hz. unfold as_u64, number_as_u64 in Hz.
    destruct v as [| |[i|]| | |]; try done. destruct (_ && _) eqn:E; [|done]. exists i. split; [done|lia].
  - intros (z & -> & Hz). cbn. unfold number_as_u64. destruct ((0 <=? z)%Z && (z <=? u64_max)%Z) eqn:E; [by eexists|]. lia.
Qed.

Lemma resize_of_some o : is_Some (resize_of (JObject o)) <-> unsigned (assoc "cols" o) /\ unsigned (assoc "rows" o).
Proof using.
  rewrite <-!json_unsigned. unfold resize_of. destruct (json_get "cols" (JObject o) ≫= as_u64) as [c|]; simpl; [|split; [by intros []|by intros [[] _]]].
  destruct (json_get "rows" (JObject o) ≫= as_u64) as [r|]; simpl; [|split; [by intros []|by intros [_ []]]].
  split; intros _; [split|]; by eexists.
Qed.

(** The messages are told apart as the protocol says. *)
Lemma input_typed step : typed step (input_of step).
Proof using.
  destruct step as [| | |[[text|data| |]|] ok]; try done. cbn [typed input_of handle_ws_message].
  destruct (json_from_str text) as [[| | | | |o]|] eqn:Ej; try (right; split; [|done]; intros (o & Ho & _); congruence).
  destruct (resize_of (JObject o)) as [r|] eqn:Er.
  - left. split; [|done]. exists o. split; [done|]. left. apply resize_of_some. by eexists.
  - assert (~ (unsigned (assoc "cols" o) /\ unsigned (assoc "rows" o))) as Hno by (rewrite <-resize_of_some, Er; apply is_Some_None).
    repeat case_bool_decide; cbn [andb]; [left; split; [|done]; exists o; by auto|..];
      right; (split; [|done]); intros (o' & Ho & [Hc|[Ht Hs]]); rewrite Ej in Ho; injection Ho as <-; by auto.
Qed.

Lemma inputs_typed steps : Forall2 typed steps (map input_of steps).
Proof using. induction steps; constructor; [apply input_typed|done]. Qed.

(** C34: whatever shell, socket and user do, the chunks a terminal task has sent are those the shell wrote, in order
    and none twice, and as long as the session runs and the reader reads, all of them are sent or wait in the queue.  What
    the shell has been given is the beginning of what the user typed, and all of it as long as the session runs; typed is
    every binary message and every text but JSON objects with the numbers [cols] and [rows] or with [type] and
    [timestamp], which are taken for messages of the page even if the user typed them.  The queue stays within its
    bound and the size within 16 bits.  A terminal has one session at a time, a refused or failed one leaves no
    trace, and the address it connects to names the terminal exactly once. *)
Theorem terminal_session_faithful steps url_parse show_uuid config url0 task_id token id connect shell pool :
  (let s := pty_run steps new_session in
   py_sent s `prefix_of` outputs steps /\
   (py_running s = true -> py_reading s = true -> py_sent s ++ py_queue s = outputs steps) /\
   (exists typings, Forall2 typed steps typings /\ py_input s `prefix_of` concat typings /\
      (py_running s = true -> py_input s = concat typings)) /\
   (length (py_queue s) <= PTY_QUEUE)%nat /\
   (0 <= (py_size s).1 <= U16_MAX)%Z /\ (0 <= (py_size s).2 <= U16_MAX)%Z) /\
  (let '(pool', r) := pty_begin url0 id connect shell pool in
   match r with
   | Ok _ => id ∉ pool /\ (forall connect' shell' url', (pty_begin (Ok url') id connect' shell' pool').1 = pool' /\ is_ok (pty_begin (Ok url') id connect' shell' pool').2 = false) /\
             pty_end id pool' = pool
   | Err _ => pool' = pool
   end) /\
  (forall url u, parse_url url_parse show_uuid config url task_id token id = Ok u ->
    (u_scheme url = "ws" \/ u_scheme url = "wss")%string /\ List.filter (fun p => String.eqb p.1 "terminal_id") (u_pairs u) = [("terminal_id"%string, id)]).
Proof using.
  split.
  { cbv zeta. destruct (run_session_ok steps) as [H1 _ H3 H4 H5 H6 [H7 H8]]. split_and!; try done; [|lia..].
    exists (map input_of steps). split; [apply inputs_typed|]. done. }
  split.
  - destruct (pty_begin url0 id connect shell pool) as [pool' r] eqn:E. apply pty_begin_cases in E. destruct r as [cmd|e]; [|done].
    destruct E as [Hn ->]. split; [done|]. split; [|by apply release_reserved]. intros connect' shell' url'. unfold pty_begin, reserve_terminal_id.
    rewrite bool_decide_true by set_solver. done.
  - intros url u. unfold parse_url. destruct (negb _) eqn:Es; [done|]. apply negb_false_iff, orb_true_iff in Es. intros (u' & _ & [= <-])%rbind_ok.
    split; [rewrite <- !String.eqb_eq; done|]. simpl. rewrite List.filter_app. simpl.
    replace (List.filter _ (List.filter _ (u_pairs u'))) with (@nil (string * string)); [done|].
    induction (u_pairs u') as [|p l IH]; [done|]. simpl. destruct (String.eqb p.1 "terminal_id") eqn:Ep; simpl; [done|]. by rewrite Ep.
Qed.

(** When the socket is too slow the reader stops for good, and the session ends with the queue although the shell
    still runs: output is neither held back nor dropped. *)
Theorem full_queue_ends_session s chunk : py_running s = true -> py_reading s = true -> chunk <> [] -> (PTY_QUEUE <= length (py_queue s))%nat ->
  py_running (pty_run (Read chunk :: replicate (S (length (py_queue s))) (Forward true)) s) = false.
Proof using.
  intros Hr Hd Hc Hq. unfold pty_run. cbn [fold_left]. unfold pty_step at 2. rewrite Hr, Hd. cbn [negb orb].
  destruct (length chunk =? 0)%nat eqn:El; [by apply Nat.eqb_eq, nil_length_inv in El|]. destruct (Nat.ltb_spec (length (py_queue s)) PTY_QUEUE); [lia|].
  assert (forall q s, py_queue s = q -> py_reading s = false -> py_running s = true ->
    py_running (fold_left pty_step (replicate (S (length q)) (Forward true)) s) = false) as Hdrain.
  { clear. intros q. induction q as [|d q IH]; intros s Hq Hd Hr.
    - cbn. unfold pty_step. by rewrite Hr, Hq, Hd.
    - cbn [length replicate]. change (replicate (S (S (length q))) (Forward true)) with (Forward true :: replicate (S (length q)) (Forward true)).
      cbn [fold_left]. apply IH; unfold pty_step; rewrite Hr, Hq; done. }
  by apply (Hdrain (py_queue s) (stop_reading s)).
Qed.
End sessions.
