(* ===== verification/JsAudit.v ===== *)
(** * The audit of scripts

    [ng-js-runtime/src/js_audit.rs] and [nodeget.rs]: every call a script makes to the server is
    count_call under the worker that runs on its thread, with a bounded table that is written to the key-value
    store; scripts hold the super token, so the audit must not depend on what they say. *)
From Stdlib Require Import Ascii.
From stdpp Require Import base strings gmap list numbers pretty.
From S2P Require Import Prelude Errors Json Db Permission TokenCache Concrete TokenCheck KvAuth KvStore KvRefine KvRpc CronRpc JsWorker NgConfig.

Definition AUDIT_NAMESPACE : string := "__js_audit".
Definition POLICY_NAMESPACE : string := "__js_policy".
Definition AUDIT_SWITCH_KEY : string := "__audit".
Definition UNKNOWN_WORKER : string := "<unknown>".
Definition MAX_ENTRIES : nat := 4096.
Definition OVERFLOW_WORKER : string := "<overflow>".
Definition OVERFLOW_METHOD : string := "<overflow>".
Definition MAX_KEY_CHARS : nat := 128.

Definition SENSITIVE_METHODS : list string := [
  "nodeget-server_exec_sql"; "nodeget-server_get_database_type"; "db_";
  "nodeget-server_edit_config"; "nodeget-server_self_update"; "nodeget-server_read_config";
  "token_"; "terminal"; "kv_delete"; "kv_set_value"; "task_delete"; "js-worker_delete"; "js-worker_update"; "js-worker_create";
  "js-worker_run"; "js-result_delete"; "crontab_delete"; "crontab-result_delete"; "static-bucket_delete"; "static-bucket-file_delete";
  "static-bucket-file_upload"; "agent_delete"; "agent-uuid_delete" ]%string.

Definition is_sensitive (method : string) : bool := existsb (starts_with method) SENSITIVE_METHODS.

(** [u64] and [u32] counters wrap. *)
Definition U64 : Z := 18446744073709551616.
Definition U32 : Z := 4294967296.

Record Entry : Type := { en_count : Z; en_first_seen_ms : Z; en_last_seen_ms : Z; en_warned : Z }.
Abbreviation AuditTable := (gmap (string * string) Entry).

(** The switch, the table, the number of mismatches, and for each thread the worker it runs. *)
Record Audit : Type := { au_enabled : bool; au_table : AuditTable; au_mismatches : Z; au_threads : gmap nat string }.
Definition new_audit : Audit := {| au_enabled := true; au_table := ∅; au_mismatches := 0; au_threads := ∅ |}.

(** ** Who runs *)

Definition set_current_worker (thread : nat) (name : option string) (a : Audit) : Audit :=
  {| au_enabled := au_enabled a; au_table := au_table a; au_mismatches := au_mismatches a;
     au_threads := partial_alter (fun _ => name) thread (au_threads a) |}.
Definition enter_worker (thread : nat) (name : option string) (a : Audit) : Audit * option string :=
  (set_current_worker thread name a, au_threads a !! thread).
(** [Drop] of the scope. *)
Definition leave_worker (thread : nat) (previous : option string) (a : Audit) : Audit := set_current_worker thread previous a.

(** ** Counting a call *)

(** [chars().take(n)]. *)
Fixpoint take_chars (n : nat) (bytes : list Z) : list Z :=
  match bytes with
  | [] => []
  | b :: rest =>
      if ((128 <=? b) && (b <? 192))%Z then b :: take_chars n rest
      else match n with O => [] | S n' => b :: take_chars n' rest end
  end.
Definition bounded (value : string) : string :=
  let chars := chars_count (as_bytes value) in
  if (chars <=? MAX_KEY_CHARS)%nat then value
  else string_of_bytes (take_chars MAX_KEY_CHARS (as_bytes value)) +:+ "…(" +:+ pretty chars +:+ " chars)".

Inductive AuditWarn : Type :=
| IdentityMismatch (worker hint method : string) (occurred : Z)
| RpcCall (worker method : string) (first_seen sensitive : bool).

(** The worker of a call, and the name the script claims instead. *)
Definition attribution (authoritative worker_hint : option string) : string * option string :=
  match authoritative with
  | Some real => (real, match worker_hint with Some hint => if String.eqb hint real then None else Some hint | None => None end)
  | None => (UNKNOWN_WORKER, worker_hint)
  end.

Definition mismatch_warning (seen : Z) : bool := ((seen <=? 10) || (seen mod 1000 =? 0))%Z.
Definition call_warning (count : Z) : bool := ((count <=? 3) || (count mod 60 =? 0))%Z.

Definition table_key (t : AuditTable) (key : string * string) : string * string :=
  if (MAX_ENTRIES <=? size t)%nat && negb (bool_decide (is_Some (t !! key))) then (OVERFLOW_WORKER, OVERFLOW_METHOD) else key.

Definition count_call (now : Z) (e : option Entry) : Entry :=
  let e := unwrap_or {| en_count := 0; en_first_seen_ms := now; en_last_seen_ms := now; en_warned := 0 |} e in
  let count := ((en_count e + 1) mod U64)%Z in
  {| en_count := count; en_first_seen_ms := en_first_seen_ms e; en_last_seen_ms := now;
     en_warned := if call_warning count then ((en_warned e + 1) mod U32)%Z else en_warned e |}.

Definition record (thread : nat) (worker_hint : option string) (method : string) (now : Z) (a : Audit) : Audit * list AuditWarn :=
  if negb (au_enabled a) then (a, []) else
  let '(worker, mismatch) := attribution (au_threads a !! thread) worker_hint in
  let seen := ((au_mismatches a + 1) mod U64)%Z in
  let '(mismatches, warns) := match mismatch with
    | Some hint => (seen, if mismatch_warning seen then [IdentityMismatch worker hint (bounded method) seen] else [])
    | None => (au_mismatches a, [])
    end in
  let worker := bounded worker in
  let method := bounded method in
  let key := table_key (au_table a) (worker, method) in
  let e := count_call now (au_table a !! key) in
  let first := (en_count e =? 1)%Z in
  let sensitive := is_sensitive method in
  ({| au_enabled := au_enabled a; au_table := <[key := e]> (au_table a); au_mismatches := mismatches; au_threads := au_threads a |},
   warns ++ if sensitive && call_warning (en_count e) || first then [RpcCall worker method first sensitive] else []).

(** [swap(true)], and back when the loop cannot be started. *)
Definition ensure_flusher (spawned : bool) (started : bool) : bool := if started then true else spawned.

(** ** Calls of a script *)

(** The method a request names, and whether its text holds it without escapes: a [&str] is borrowed from the text and
    cannot be had otherwise.  The items of a batch. *)
Class RequestText : Type := {
  request_method : string -> option (string * bool);
  raw_items : string -> result string (list string);
}.
Definition method_of {rt : RequestText} (request : string) : string :=
  match request_method request with Some (method, true) => method | _ => "<unparsed>" end.

(** The server behind the script: its runtime, its methods. *)
Class RpcModule (W : Type) : Type := {
  runtime_ready : W -> bool;
  service_ready : W -> bool;
  raw_json_request : string -> W -> W * result string string;
}.

Section calls.
Context {rt : RequestText} {W : Type} {rpc : RpcModule W}.

Definition JsError : Type := string * string.
Definition js_error (stage message : string) : JsError := (stage, message).

Fixpoint record_all (thread : nat) (worker : option string) (requests : list (string * Z)) (a : Audit) : Audit * list AuditWarn :=
  match requests with
  | [] => (a, [])
  | (request, now) :: rest =>
      let '(a1, w1) := record thread worker (method_of request) now a in
      let '(a2, w2) := record_all thread worker rest a1 in (a2, w1 ++ w2)
  end.

(** The sub-requests one after the other; the first failure ends the batch. *)
Fixpoint dispatch_requests (requests : list string) (w : W) : W * result string (list string) :=
  match requests with
  | [] => (w, Ok [])
  | request :: rest =>
      match raw_json_request request w with
      | (w1, Err e) => (w1, Err e)
      | (w1, Ok resp) => let '(w2, r) := dispatch_requests rest w1 in (w2, let? l := r in Ok (resp :: l))
      end
  end.

Definition on_server (requests : list string) (w : W) : W * result JsError (list string) :=
  if negb (runtime_ready w) then (w, Err (js_error "jsonrpc_module" "server runtime handle is not initialized")) else
  if negb (service_ready w) then (w, Err (js_error "jsonrpc_module" "JsWorkerService not initialized")) else
  let '(w', r) := dispatch_requests requests w in (w', map_err (js_error "jsonrpc_module") r).

(** [now] gives the time of each record. *)
Definition js_nodeget (thread : nat) (json : string) (worker : option string) (now : nat -> Z) (a : Audit) (w : W) :
    Audit * list AuditWarn * (W * result JsError string) :=
  let trimmed := trim json in
  if starts_with trimmed "[" then
    match raw_items trimmed with
    | Err e => (a, [], (w, Err (js_error "jsonrpc_parse" e)))
    | Ok items =>
        let '(a', warns) := record_all thread worker (imap (fun i item => (item, now i)) items) a in
        let '(w', r) := on_server items w in
        (a', warns, (w', let? responses := r in Ok ("[" +:+ String.concat "," responses +:+ "]")))
    end
  else
    let '(a', warns) := record thread worker (method_of trimmed) (now 0%nat) a in
    let '(w', r) := on_server [trimmed] w in
    (a', warns, (w', let? responses := r in Ok (String.concat "" responses))).

(** ** A run *)

(** A call of the script: the request, the name it claims, the times. *)
Record JsCall : Type := { jc_request : string; jc_hint : option string; jc_now : nat -> Z }.
Fixpoint run_calls (thread : nat) (calls : list JsCall) (a : Audit) (w : W) : Audit * list AuditWarn * W :=
  match calls with
  | [] => (a, [], w)
  | c :: rest =>
      let '(a1, w1, (s1, _)) := js_nodeget thread (jc_request c) (jc_hint c) (jc_now c) a w in
      let '(a2, w2, s2) := run_calls thread rest a1 s1 in (a2, w1 ++ w2, s2)
  end.

(** [js_runner] around the engine, which makes [calls] and ends, fails or runs out of time. *)
Definition runner_outcome {V} (run : option (result JsError V)) (killed : bool) (max_run_time_ms : Z) : result JsError V :=
  let outcome := match run with Some r => r | None => Err (js_error "js_runner" "JavaScript execution timed out") end in
  if killed && negb (is_ok outcome) then Err (js_error "js_runner" ("JavaScript execution exceeded max_run_time_ms=" +:+ pretty max_run_time_ms))
  else outcome.
Definition js_runner {V} (thread : nat) (current_script_name : option string) (calls : list JsCall) (run : option (result JsError V)) (killed : bool)
    (max_run_time_ms : Z) (a : Audit) (w : W) : Audit * list AuditWarn * W * result JsError V :=
  let '(a1, previous) := enter_worker thread current_script_name a in
  let '(a2, warns, w') := run_calls thread calls a1 w in
  (leave_worker thread previous a2, warns, w', runner_outcome run killed max_run_time_ms).
End calls.

(** ** Writing the table to the store *)

Definition json_int (z : Z) : Json := JNum (NumInt z).
Definition entry_json (e : Entry) : Json :=
  JObject [("count", json_int (en_count e)); ("first_seen_ms", json_int (en_first_seen_ms e)); ("last_seen_ms", json_int (en_last_seen_ms e))]%string.

Section flush.
Context {DB : Type} {ops : TableOps DB KvRow} {coll : Collation} {ho : HashOrder}.

Definition group_entry (grouped : gmap string (list (string * Json))) (x : (string * string) * Entry) : gmap string (list (string * Json)) :=
  let '((worker, method), e) := x in
  <[worker := assoc_insert method (entry_json e) (unwrap_or [] (grouped !! worker))]> grouped.
Definition worker_json (updated_at_ms : Z) (worker : string) (methods : list (string * Json)) : Json :=
  JObject [("worker", JString worker); ("updated_at_ms", json_int updated_at_ms); ("methods", JObject methods)]%string.
Definition snapshot (now : Z) (t : AuditTable) : list (string * Json) :=
  if bool_decide (t = ∅) then [] else
  map (fun x => (x.1, worker_json now x.1 x.2)) (hash_iter (fold_left group_entry (hash_iter t) ∅)).

Fixpoint write_workers (l : list (string * Json)) : Kv unit :=
  match l with
  | [] => mret tt
  | (worker, payload) :: rest => fun w => let '(w', _) := set_v_to_kv AUDIT_NAMESPACE worker payload w in write_workers rest w'
  end.
Definition flush_once (now : Z) (a : Audit) : Kv unit :=
  let snap := snapshot now (au_table a) in
  if bool_decide (snap = []) then mret tt else
  let! _ := get_or_create_kv AUDIT_NAMESPACE in
  write_workers snap.

Definition with_enabled (b : bool) (a : Audit) : Audit :=
  {| au_enabled := b; au_table := au_table a; au_mismatches := au_mismatches a; au_threads := au_threads a |}.
Definition as_bool (v : Json) : option bool := match v with JBool b => Some b | _ => None end.
Definition refresh_switch (a : Audit) (w : option DB) : option DB * Audit :=
  match get_v_from_kv_lenient POLICY_NAMESPACE AUDIT_SWITCH_KEY w with
  | (w', Ok (Some value)) => (w', with_enabled (unwrap_or true ((as_object value ≫= assoc "enabled") ≫= as_bool)) a)
  | (w', Ok None) => (w', with_enabled true a)
  | (w', Err _) => (w', a)
  end.
(** One round of [flush_loop]. *)
Definition flush_round (now : Z) (a : Audit) (w : option DB) : option DB * Audit :=
  let '(w1, a') := refresh_switch a w in ((flush_once now a' w1).1, a').
End flush.

(** ** What the table says *)

Definition overflow_key : string * string := (OVERFLOW_WORKER, OVERFLOW_METHOD).

(** The calls, executions and switches of all threads, in the order they reach the audit. *)
Inductive AuditStep : Type :=
| Enter (thread : nat) (name : option string)
| Leave (thread : nat) (previous : option string)
| Call (thread : nat) (hint : option string) (method : string) (now : Z)
| Switch (enabled : bool).
Definition audit_step (s : AuditStep) (a : Audit) : Audit * list AuditWarn :=
  match s with
  | Enter thread name => ((enter_worker thread name a).1, [])
  | Leave thread previous => (leave_worker thread previous a, [])
  | Call thread hint method now => record thread hint method now a
  | Switch b => (with_enabled b a, [])
  end.
Definition audit_run (steps : list AuditStep) : Audit := fold_left (fun a s => (audit_step s a).1) steps new_audit.

(** The worker and method a step stands for, by the thread it is made on. *)
Definition true_key (a : Audit) (s : AuditStep) : option (string * string) :=
  match s with
  | Call thread _ method _ => if au_enabled a then Some (bounded (unwrap_or UNKNOWN_WORKER (au_threads a !! thread)), bounded method) else None
  | _ => None
  end.
Fixpoint made (a : Audit) (steps : list AuditStep) : list (string * string) :=
  match steps with [] => [] | s :: rest => option_list (true_key a s) ++ made (audit_step s a).1 rest end.
Definition calls_made (steps : list AuditStep) : list (string * string) := made new_audit steps.

(** A step with another claim of the script. *)
Definition same_but_hint (s s' : AuditStep) : Prop :=
  match s, s' with Call t _ m now, Call t' _ m' now' => t = t' /\ m = m' /\ now = now' | _, _ => s = s' end.

Lemma attribution_true o hint : (attribution o hint).1 = unwrap_or UNKNOWN_WORKER o.
Proof. by destruct o as [real|]. Qed.

(** A record changes the entry of its key only, whatever the script claims. *)
Lemma record_table thread hint method now a :
  au_table (record thread hint method now a).1 =
    match true_key a (Call thread hint method now) with
    | None => au_table a
    | Some key => let key := table_key (au_table a) key in <[key := count_call now (au_table a !! key)]> (au_table a)
    end /\
  au_enabled (record thread hint method now a).1 = au_enabled a /\ au_threads (record thread hint method now a).1 = au_threads a.
Proof.
  unfold record, true_key. destruct (au_enabled a) eqn:E; [cbn [negb]|done]. pose proof (attribution_true (au_threads a !! thread) hint) as Ht.
  destruct (attribution _ hint) as [worker [h|]]; simpl in Ht; subst worker; simpl; by rewrite ?E.
Qed.

Lemma step_threads s a : au_threads (audit_step s a).1 = match s with Enter t n | Leave t n => partial_alter (fun _ => n) t (au_threads a) | _ => au_threads a end.
Proof. destruct s; simpl; try done. by apply record_table. Qed.

(** How often a key was booked: calls without a room of their own count for the overflow. *)
Definition books (key : string * string) (t : AuditTable) (k : string * string) : bool :=
  if bool_decide (key = overflow_key) then bool_decide (k = overflow_key) || negb (bool_decide (is_Some (t !! k))) else bool_decide (k = key).
Definition booked (key : string * string) (t : AuditTable) (l : list (string * string)) : nat := length (List.filter (books key t) l).

Record table_ok (t : AuditTable) (l : list (string * string)) : Prop := {
  to_size : (size t <= S MAX_ENTRIES)%nat;
  to_over : size t = S MAX_ENTRIES -> is_Some (t !! overflow_key);
  to_when : is_Some (t !! overflow_key) -> overflow_key ∈ l \/ size t = S MAX_ENTRIES;
  to_keys : forall k, k ∈ l -> is_Some (t !! k) \/ (MAX_ENTRIES <= size t)%nat /\ is_Some (t !! overflow_key);
  to_count : forall k e, t !! k = Some e -> en_count e = (Z.of_nat (booked k t l) mod U64)%Z;
  to_real : forall k, is_Some (t !! k) -> (0 < booked k t l)%nat }.

Lemma booked_snoc key t l k : booked key t (l ++ [k]) = (booked key t l + if books key t k then 1 else 0)%nat.
Proof. unfold booked. rewrite List.filter_app, length_app. simpl. by destruct (books key t k). Qed.

Lemma booked_ext key t t' l : (forall k, k ∈ l -> books key t k = books key t' k) -> booked key t l = booked key t' l.
Proof. intros H. unfold booked. f_equal. apply List.filter_ext_in. intros k Hk. by apply H, list_elem_of_In. Qed.

Lemma booked_none key t l : (forall k, k ∈ l -> books key t k = false) -> booked key t l = 0%nat.
Proof.
  intros H. unfold booked. induction l as [|k l IH]; [done|]. simpl. rewrite H by constructor. apply IH. intros k' Hk'. apply H. by constructor.
Qed.

(** A call takes a key that is there, a new one while there is room, or the overflow. *)
Lemma table_key_cases t k :
  (table_key t k = k /\ is_Some (t !! k)) \/ (table_key t k = k /\ t !! k = None /\ (size t < MAX_ENTRIES)%nat) \/
  (table_key t k = overflow_key /\ t !! k = None /\ (MAX_ENTRIES <= size t)%nat).
Proof.
  unfold table_key. destruct (Nat.leb_spec MAX_ENTRIES (size t)); case_bool_decide as Hk; cbn [negb andb]; rewrite <- ?eq_None_not_Some in Hk; auto.
Qed.

(** A key without an entry has no bookings. *)
Lemma booked_absent t l key : table_ok t l -> t !! key = None -> (size t < MAX_ENTRIES)%nat \/ key = overflow_key -> booked key t l = 0%nat.
Proof.
  intros [_ _ _ Hk _ _] Hn Hc. apply booked_none. intros k Hin. unfold books. destruct (Hk k Hin) as [Hs|[Hm Ho]].
  - case_bool_decide as He; [|apply bool_decide_false; intros ->; rewrite Hn in Hs; by destruct Hs]. subst key. rewrite (bool_decide_true _ Hs). rewrite orb_false_r.
    apply bool_decide_false. intros ->. rewrite Hn in Hs. by destruct Hs.
  - destruct Hc as [ | -> ]; [lia|]. rewrite Hn in Ho. by destruct Ho.
Qed.

(** An insertion does not move the bookings of other calls. *)
Lemma books_insert t l key e j k : table_ok t l -> k ∈ l -> (key = overflow_key \/ is_Some (t !! key) \/ (size t < MAX_ENTRIES)%nat) ->
  books j (<[key := e]> t) k = books j t k.
Proof.
  intros [_ _ _ Hk _ _] Hin Hc. unfold books. case_bool_decide; [|done]. destruct (decide (k = overflow_key)) as [->|Hne]; [done|].
  rewrite (bool_decide_false (k = overflow_key)) by done. cbn [orb]. apply (f_equal negb), bool_decide_ext.
  destruct (decide (k = key)) as [->|Hd]; [|rewrite lookup_insert_ne by congruence; done]. rewrite lookup_insert_eq. split; [intros _|done].
  destruct Hc as [->|[?|Hs]]; [done|done|]. destruct (Hk _ Hin) as [?|[? _]]; [done|lia].
Qed.

Lemma table_ok_step t l k now : table_ok t l -> table_ok (<[table_key t k := count_call now (t !! table_key t k)]> t) (l ++ [k]).
Proof.
  intros Hok. pose proof Hok as [H1 H2 H0 H3 H4 H5]. pose proof (table_key_cases t k) as Hc. generalize dependent (table_key t k). intros key Hc.
  set (e := count_call now (t !! key)).
  assert (key = overflow_key \/ is_Some (t !! key) \/ (size t < MAX_ENTRIES)%nat) as Hkey by (destruct Hc as [[-> ?]|[(-> & _ & ?)|(-> & _ & _)]]; auto).
  assert (forall j, booked j (<[key := e]> t) l = booked j t l) as Hold.
  { intros j. apply booked_ext. intros k' Hk'. by eapply books_insert. }
  assert (books key (<[key := e]> t) k = true) as Hnew.
  { unfold books. destruct Hc as [[-> Hs]|[(-> & Hn & ?)|(-> & Hn & ?)]].
    1,2: case_bool_decide as Ho; [done|by apply bool_decide_true].
    rewrite bool_decide_true by done. destruct (decide (k = overflow_key)) as [->|Hne]; [by rewrite (bool_decide_true (overflow_key = overflow_key)) by done|].
    rewrite lookup_insert_ne by congruence. rewrite Hn. rewrite orb_true_iff. right. by rewrite bool_decide_false by (intros [? ?]; done). }
  assert (forall j, j <> key -> is_Some (t !! j) -> books j (<[key := e]> t) k = false) as Hother.
  { intros j Hj Hs. unfold books. case_bool_decide as Ho.
    - assert (key = k) as Hk by (destruct Hc as [[? _]|[[? _]|[? _]]]; congruence). rewrite bool_decide_false by congruence.
      rewrite <- Hk, lookup_insert_eq. by rewrite bool_decide_true.
    - apply bool_decide_false. intros ->. destruct Hc as [[? _]|[[? _]|(_ & Hn & _)]]; [congruence..|]. rewrite Hn in Hs. by destruct Hs. }
  assert (t !! key = None -> booked key t l = 0%nat) as Hzero.
  { intros Hn. apply booked_absent; [done|done|]. destruct Hkey as [|[[? ?]|]]; [auto|congruence|auto]. }
  assert (size (<[key := e]> t) <= S MAX_ENTRIES)%nat as Hsize.
  { rewrite map_size_insert. destruct (t !! key) as [x|] eqn:Ek; [done|]. simpl.
    destruct (decide (size t = S MAX_ENTRIES)) as [Hs|]; [|lia]. destruct Hkey as [->|[[? ?]|]]; [|congruence|lia]. rewrite Ek in H2. by destruct (H2 Hs). }
  split; [done|..].
  - rewrite map_size_insert. intros Hs. destruct (decide (key = overflow_key)) as [->|Hne]; [by rewrite lookup_insert_eq|]. rewrite lookup_insert_ne by done.
    destruct (t !! key) eqn:Ek; simpl in Hs; [by apply H2|]. destruct Hkey as [|[[? ?]|]]; [done|congruence|lia].
  - intros Ho. rewrite elem_of_app, list_elem_of_singleton. rewrite map_size_insert in *. destruct (t !! overflow_key) as [x|] eqn:Eo.
    + destruct (H0 ltac:(eauto)) as [?|Hs]; [auto|]. right. destruct (t !! key); simpl in *; lia.
    + apply lookup_insert_is_Some' in Ho as [->|[? ?]]; [|congruence]. rewrite Eo in *. simpl in *.
      destruct Hc as [[<- _]|[[<- _]|(_ & _ & Hm)]]; [by left; right..|]. right. lia.
  - intros j Hj. rewrite map_size_insert. apply elem_of_app in Hj as [Hj|Hj%list_elem_of_singleton].
    + destruct (H3 j Hj) as [Hs|[Hm Ho]]; [left|right]; rewrite ?lookup_insert_is_Some'; [by right|]. split; [destruct (t !! key); simpl; lia|by right].
    + subst j. destruct Hc as [[-> Hs]|[(-> & _ & _)|(-> & _ & ?)]]; [left|left|right]; rewrite ?lookup_insert_eq; try done.
      split; [destruct (t !! overflow_key); simpl; lia|done].
  - intros j x. destruct (decide (j = key)) as [->|Hj].
    + rewrite lookup_insert_eq. intros [= <-]. rewrite booked_snoc, Hold, Hnew. unfold e, count_call. destruct (t !! key) as [y|] eqn:Ey; cbn [unwrap_or en_count].
      * rewrite (H4 _ _ Ey), Zplus_mod_idemp_l. f_equal. lia.
      * by rewrite Hzero.
    + rewrite lookup_insert_ne by done. intros Hx. rewrite booked_snoc, Hold, Hother by eauto. rewrite Nat.add_0_r. by apply H4.
  - intros j. destruct (decide (j = key)) as [->|Hj].
    + intros _. rewrite booked_snoc, Hnew. lia.
    + rewrite lookup_insert_ne by done. intros Hx. rewrite booked_snoc, Hold. apply H5 in Hx. lia.
Qed.

Lemma run_table_ok steps : table_ok (au_table (audit_run steps)) (calls_made steps).
Proof.
  assert (forall a l, table_ok (au_table a) l -> table_ok (au_table (fold_left (fun a s => (audit_step s a).1) steps a)) (l ++ made a steps)) as H.
  { induction steps as [|s steps IH]; intros a l Hok; simpl; [by rewrite app_nil_r|]. rewrite app_assoc. apply IH.
    destruct s as [t n|t n|t h m now|b]; cbn [audit_step true_key option_list]; rewrite ?app_nil_r; try done.
    destruct (record_table t h m now a) as (-> & _ & _). cbn [true_key]. destruct (au_enabled a); cbn [option_list]; [by apply table_ok_step|by rewrite app_nil_r]. }
  apply (H new_audit []). cbn [au_table new_audit]. split; rewrite ?map_size_empty.
  - lia.
  - discriminate.
  - intros [? Hk]. by rewrite lookup_empty in Hk.
  - intros k Hk. by apply not_elem_of_nil in Hk.
  - intros k e Hk. by rewrite lookup_empty in Hk.
  - intros k [? Hk]. by rewrite lookup_empty in Hk.
Qed.

Lemma run_hints steps steps' : Forall2 same_but_hint steps steps' ->
  au_table (audit_run steps) = au_table (audit_run steps') /\ calls_made steps = calls_made steps'.
Proof.
  unfold audit_run, calls_made. generalize new_audit as a. intros a.
  assert (forall a a', au_table a = au_table a' -> au_enabled a = au_enabled a' -> au_threads a = au_threads a' -> Forall2 same_but_hint steps steps' ->
    au_table (fold_left (fun a s => (audit_step s a).1) steps a) = au_table (fold_left (fun a s => (audit_step s a).1) steps' a') /\ made a steps = made a' steps') as H;
    [|by apply H].
  clear a. intros a a' Ht He Hth HF. revert a a' Ht He Hth. induction HF as [|s s' steps steps' Hs HF IH]; intros a a' Ht He Hth; [done|].
  assert (true_key a s = true_key a' s') as Hk.
  { destruct s, s'; simpl in *; simplify_eq; try done. destruct Hs as (-> & -> & ->). by rewrite He, Hth. }
  destruct (IH (audit_step s a).1 (audit_step s' a').1) as [H1 H2]; [..|simpl; by rewrite Hk, H2].
  - destruct s, s'; simpl in *; simplify_eq; try done. destruct Hs as (-> & -> & ->). destruct (record_table thread0 hint method0 now0 a) as [-> _].
    destruct (record_table thread0 hint0 method0 now0 a') as [-> _]. simpl in *. rewrite Hk. by rewrite Ht.
  - destruct s, s'; simpl in *; simplify_eq; try done. by rewrite !(proj1 (proj2 (record_table _ _ _ _ _))).
  - rewrite !step_threads. destruct s, s'; simpl in *; simplify_eq; by rewrite ?Hth.
Qed.

Lemma counted_booked t l k now : table_ok t l ->
  en_count (count_call now (t !! table_key t k)) = (Z.of_nat (S (booked (table_key t k) t l)) mod U64)%Z.
Proof.
  intros Hok. unfold count_call. destruct (t !! table_key t k) as [e|] eqn:E; cbn [unwrap_or en_count].
  - rewrite (to_count _ _ Hok _ _ E), Zplus_mod_idemp_l. f_equal. lia.
  - rewrite (booked_absent _ _ _ Hok E); [done|]. destruct (table_key_cases t k) as [[He [? ?]]|[(_ & _ & ?)|(? & _ & _)]]; [congruence|auto|auto].
Qed.

(** While the different calls fit, each has an entry of its own. *)
Lemma enough_room t l : table_ok t l -> (size (list_to_set l : gset (string * string)) <= MAX_ENTRIES)%nat -> forall k, k ∈ l -> is_Some (t !! k).
Proof.
  intros [_ _ Hw Hk _ Hr] Hsize k Hin. destruct (t !! k) as [e|] eqn:E; [done|]. exfalso. destruct (Hk k Hin) as [Hs|[Hm Ho]]; [rewrite E in Hs; by destruct Hs|].
  assert (forall j, is_Some (t !! j) -> j <> overflow_key -> j ∈ l) as Hl.
  { intros j Hj Hne. apply Hr in Hj. unfold booked in Hj. destruct (List.filter (books j t) l) as [|x r] eqn:Ef; [simpl in Hj; lia|].
    assert (In x (List.filter (books j t) l)) as Hx by (rewrite Ef; by left). apply filter_In in Hx as [Hx%list_elem_of_In Hb].
    unfold books in Hb. rewrite bool_decide_false in Hb by done. apply bool_decide_eq_true in Hb. by subst. }
  set (calls := list_to_set l : gset (string * string)) in *.
  assert (forall j, is_Some (t !! j) -> j <> k) as Hnk by (intros j [? ?] ->; congruence).
  assert (k ∈ calls) as Hkc by by apply elem_of_list_to_set.
  assert (size (calls ∖ {[ k ]}) = size calls - 1)%nat as Hsub by (rewrite size_difference by set_solver; by rewrite size_singleton).
  assert (0 < size calls)%nat as Hpos by (assert (size calls <> 0)%nat; [|lia]; rewrite size_non_empty_iff; set_solver).
  destruct (Hw Ho) as [Hol|Hs].
  - assert (dom t ⊆ calls ∖ {[ k ]}) as Hd%subseteq_size; [|rewrite size_dom in Hd; lia].
    intros j Hj%elem_of_dom. apply elem_of_difference. split; [|apply not_elem_of_singleton; by apply Hnk]. apply elem_of_list_to_set.
    destruct (decide (j = overflow_key)) as [->|]; [done|by apply Hl].
  - assert (dom t ∖ {[ overflow_key ]} ⊆ calls ∖ {[ k ]}) as Hd%subseteq_size.
    { intros j [Hj%elem_of_dom Hne%not_elem_of_singleton]%elem_of_difference. apply elem_of_difference.
      split; [|apply not_elem_of_singleton; by apply Hnk]. apply elem_of_list_to_set. by apply Hl. }
    rewrite size_difference in Hd by (apply elem_of_dom in Ho; set_solver). rewrite size_dom, size_singleton in Hd. lia.
Qed.

Lemma record_reports thread hint method now a first : au_enabled a = true ->
  let key := (bounded (unwrap_or UNKNOWN_WORKER (au_threads a !! thread)), bounded method) in
  let count := en_count (count_call now (au_table a !! table_key (au_table a) key)) in
  first = (count =? 1)%Z ->
  RpcCall key.1 key.2 first (is_sensitive key.2) ∈ (record thread hint method now a).2 <-> is_sensitive key.2 && call_warning count || (count =? 1)%Z = true.
Proof.
  intros He key count ->. unfold record. rewrite He. cbn [negb]. pose proof (attribution_true (au_threads a !! thread) hint) as Ht.
  destruct (attribution _ hint) as [worker mis]; simpl in Ht; subst worker.
  assert (forall l, (forall w m f s, RpcCall w m f s ∉ l) -> RpcCall key.1 key.2 (count =? 1)%Z (is_sensitive key.2) ∈
      l ++ (if is_sensitive key.2 && call_warning count || (count =? 1)%Z then [RpcCall key.1 key.2 (count =? 1)%Z (is_sensitive key.2)] else []) <->
      is_sensitive key.2 && call_warning count || (count =? 1)%Z = true) as H.
  { intros l Hl. rewrite elem_of_app. destruct (_ || _); split; try done; [by right; constructor|].
    intros [?%Hl|?%not_elem_of_nil]; done. }
  destruct mis as [h|]; cbn [fst snd]; apply H; intros w m f s'; [|apply not_elem_of_nil].
  destruct (mismatch_warning _); [rewrite list_elem_of_singleton; done|apply not_elem_of_nil].
Qed.

(** ** Who runs where, by the steps alone *)

(** What [thread] was last told to run, and how the switch was last set. *)
Definition running (thread : nat) (steps : list AuditStep) : option string :=
  fold_left (fun o s => match s with Enter t n | Leave t n => if decide (t = thread) then n else o | _ => o end) steps None.
Definition switched_on (steps : list AuditStep) : bool :=
  fold_left (fun b s => match s with Switch b' => b' | _ => b end) steps true.

(** The worker and method of a call made after [before], and of all calls. *)
Definition call_key (before : list AuditStep) (thread : nat) (method : string) : string * string :=
  (bounded (unwrap_or UNKNOWN_WORKER (running thread before)), bounded method).
Fixpoint calls_after (before steps : list AuditStep) : list (string * string) :=
  match steps with
  | [] => []
  | s :: rest =>
      match s with
      | Call thread _ method _ => if switched_on before then call_key before thread method :: calls_after (before ++ [s]) rest else calls_after (before ++ [s]) rest
      | _ => calls_after (before ++ [s]) rest
      end
  end.

Lemma run_threads steps : (forall thread, au_threads (audit_run steps) !! thread = running thread steps) /\ au_enabled (audit_run steps) = switched_on steps.
Proof.
  unfold audit_run, running, switched_on. induction steps as [|s steps [IHt IHe]] using rev_ind; [split; [|done]; intros t; simpl; by rewrite lookup_empty|].
  split; [intros thread|]; rewrite !fold_left_app; cbn [fold_left].
  - rewrite step_threads, <- IHt. destruct s as [t n|t n|t h m now|b]; try done; destruct (decide (t = thread)) as [->|]; by rewrite ?lookup_partial_alter_eq, ?lookup_partial_alter_ne.
  - rewrite <- IHe. destruct s as [t n|t n|t h m now|b]; try done. by apply record_table.
Qed.

Lemma calls_made_after steps : calls_made steps = calls_after [] steps.
Proof.
  unfold calls_made. change new_audit with (audit_run []). generalize (@nil AuditStep) as before. induction steps as [|s steps IH]; intros before; [done|].
  cbn [made calls_after]. replace (audit_step s (audit_run before)).1 with (audit_run (before ++ [s])) by (unfold audit_run; by rewrite fold_left_app).
  rewrite IH. destruct s as [t n|t n|t h m now|b]; try done. cbn [true_key]. destruct (run_threads before) as [Ht ->]. unfold call_key. rewrite Ht.
  by destruct (switched_on before).
Qed.

Lemma booked_own key t l : key <> overflow_key -> booked key t l = length (List.filter (fun k => bool_decide (k = key)) l).
Proof. intros H. unfold booked. f_equal. apply List.filter_ext. intros k. unfold books. by rewrite bool_decide_false. Qed.

Lemma booked_le key t l : (booked key t l <= length l)%nat.
Proof. apply List.filter_length_le. Qed.

(** When the [before + 1]st call of an entry is reported. *)
Definition reported (before : nat) (sensitive : bool) : Prop :=
  before = 0%nat \/ sensitive = true /\ ((before < 3)%nat \/ (Z.of_nat (S before) mod 60 = 0)%Z).

Lemma record_reported thread hint method now a l key : table_ok (au_table a) l -> (Z.of_nat (length l) + 1 < U64)%Z -> au_enabled a = true ->
  key = (bounded (unwrap_or UNKNOWN_WORKER (au_threads a !! thread)), bounded method) ->
  let before := booked (table_key (au_table a) key) (au_table a) l in
  RpcCall key.1 key.2 (before =? 0)%nat (is_sensitive key.2) ∈ (record thread hint method now a).2 <-> reported before (is_sensitive key.2).
Proof.
  intros Hok Hl He -> before. pose proof (counted_booked _ l (bounded (unwrap_or UNKNOWN_WORKER (au_threads a !! thread)), bounded method) now Hok) as Hc.
  fold before in Hc. pose proof (booked_le (table_key (au_table a) (bounded (unwrap_or UNKNOWN_WORKER (au_threads a !! thread)), bounded method)) (au_table a) l) as Hle.
  fold before in Hle. rewrite Z.mod_small in Hc by lia. rewrite record_reports; [|done|].
  - rewrite Hc. unfold reported, call_warning. rewrite orb_true_iff, andb_true_iff, orb_true_iff, Z.leb_le, !Z.eqb_eq. split; [intros [[? [?|?]]|?]|intros [?|[? [?|?]]]]; lia || auto.
    all: try (right; split; [done|]; lia). all: try (left; split; [done|]; lia).
  - rewrite Hc. destruct (Nat.eqb_spec before 0), (Z.eqb_spec (Z.of_nat (S before)) 1); lia.
Qed.

(** C27: whatever scripts run on which threads, whatever they call and whatever worker they claim to be, a thread is taken to run
    the worker it last entered or went back to.  Names of up to 128 characters are kept as they are, longer ones are cut.  The table of the audit
    has at most 4097 entries, and each counts exactly the calls made, while the audit was on, by that worker with that method (for the
    overflow entry those without one of their own); while no more than 4096 different calls are made, each has its own
    entry.  What scripts claim has no influence.  A call with an entry of its own is reported exactly when it is the first of its worker and
    method or the method is sensitive and it is one of the first three or every sixtieth; calls that share the overflow entry
    are counted, and so reported, together.  (The counts are those of the first 2^64 - 2 calls.) *)
Theorem audit_faithful steps :
  let a := audit_run steps in let t := au_table a in let l := calls_after [] steps in
  (forall thread, au_threads a !! thread = running thread steps) /\
  (forall name, (chars_count (as_bytes name) <= MAX_KEY_CHARS)%nat -> bounded name = name) /\
  (size t <= S MAX_ENTRIES)%nat /\
  (forall key e, t !! key = Some e -> en_count e = (Z.of_nat (booked key t l) mod U64)%Z /\ (0 < booked key t l)%nat) /\
  ((size (list_to_set l : gset (string * string)) <= MAX_ENTRIES)%nat -> forall key, key ∈ l -> is_Some (t !! key)) /\
  (forall steps', Forall2 same_but_hint steps steps' -> au_table (audit_run steps') = t /\ calls_after [] steps' = l) /\
  (forall thread hint method now, switched_on steps = true -> (Z.of_nat (length l) + 1 < U64)%Z ->
     let key := call_key steps thread method in
     let reports before := RpcCall key.1 key.2 (before =? 0)%nat (is_sensitive key.2) ∈ (record thread hint method now a).2 in
     let own := length (List.filter (fun k => bool_decide (k = key)) l) in
     let shared := booked overflow_key t l in
     (key <> overflow_key -> is_Some (t !! key) \/ (size t < MAX_ENTRIES)%nat -> reports own <-> reported own (is_sensitive key.2)) /\
     (key = overflow_key \/ t !! key = None /\ (MAX_ENTRIES <= size t)%nat -> reports shared <-> reported shared (is_sensitive key.2))).
Proof.
  intros a t l. pose proof (run_table_ok steps) as Hok. rewrite calls_made_after in Hok. fold a t l in Hok. destruct (run_threads steps) as [Hth Hen].
  split; [done|]. split; [intros name Hn; unfold bounded; by rewrite (proj2 (Nat.leb_le _ _) Hn)|].
  split; [apply Hok|]. split; [|split; [by apply enough_room|split]].
  - intros key e Hk. split; [by apply Hok|]. apply Hok. by rewrite Hk.
  - intros steps' Hs. apply run_hints in Hs as [? ?]. split; [done|]. rewrite <- calls_made_after. unfold l. rewrite <- calls_made_after. done.
  - intros thread hint method now He Hl key reports own shared.
    pose proof (record_reported thread hint method now a l key Hok Hl ltac:(by rewrite <- Hen in He) ltac:(unfold key, call_key; by rewrite Hth)) as Hr.
    cbv zeta in Hr. fold t in Hr. pose proof (table_key_cases t key) as Hc. split.
    + intros Hne Hroom. assert (table_key t key = key) as Hk by (destruct Hc as [[? _]|[[? _]|(_ & Hn & ?)]]; [done|done|]; destruct Hroom as [[? ?]|?]; [congruence|lia]).
      rewrite Hk, booked_own in Hr by done. exact Hr.
    + intros Hfull. assert (table_key t key = overflow_key) as Hk; [|rewrite Hk in Hr; exact Hr].
      destruct Hfull as [Heq|[Hn Hm]]; [destruct Hc as [[? _]|[[? _]|[? _]]]; congruence|]. destruct Hc as [[_ [? ?]]|[(_ & _ & ?)|[? _]]]; [congruence|lia|done].
Qed.

(** ** A run is attributed to its worker *)

Section runs.
Context {rt : RequestText} {W : Type} {rpc : RpcModule W}.

(** The records a call of a script leads to. *)
Definition call_steps (thread : nat) (c : JsCall) : list AuditStep :=
  let trimmed := trim (jc_request c) in
  if starts_with trimmed "[" then
    match raw_items trimmed with
    | Err _ => []
    | Ok items => imap (fun i item => Call thread (jc_hint c) (method_of item) (jc_now c i)) items
    end
  else [Call thread (jc_hint c) (method_of trimmed) (jc_now c 0%nat)].
Definition run_steps (thread : nat) (name previous : option string) (calls : list JsCall) : list AuditStep :=
  Enter thread name :: concat (map (call_steps thread) calls) ++ [Leave thread previous].

Lemma record_all_steps thread hint l a :
  (record_all thread hint l a).1 = fold_left (fun a s => (audit_step s a).1) (map (fun x => Call thread hint (method_of x.1) x.2) l) a.
Proof using.
  revert a. induction l as [|[request now] l IH]; intros a; [done|]. cbn [record_all map fold_left audit_step fst snd].
  destruct (record thread hint (method_of request) now a) as [a1 w1]. cbn [fst]. rewrite <- IH. by destruct (record_all thread hint l a1).
Qed.

Lemma js_nodeget_steps thread c a w :
  (js_nodeget thread (jc_request c) (jc_hint c) (jc_now c) a w).1.1 = fold_left (fun a s => (audit_step s a).1) (call_steps thread c) a.
Proof using.
  unfold js_nodeget, call_steps. destruct (starts_with _ _).
  - destruct (raw_items _) as [items|]; [|done].
    pose proof (record_all_steps thread (jc_hint c) (imap (fun i item => (item, jc_now c i)) items) a) as H.
    destruct (record_all _ _ _ a) as [a' ws]. destruct (on_server items w) as [w' r]. simpl in *. subst a'. f_equal. apply fmap_imap.
  - simpl. destruct (record _ _ _ _ a) as [a' ws]. by destruct (on_server _ w).
Qed.

(** A run is an execution of its worker on its thread: entering, the calls, leaving, however it ends. *)
Lemma js_runner_steps {V} thread name calls (run : option (result JsError V)) killed limit a w :
  (js_runner thread name calls run killed limit a w).1.1.1 =
  fold_left (fun a s => (audit_step s a).1) (run_steps thread name (au_threads a !! thread) calls) a.
Proof using.
  unfold js_runner, run_steps. cbn [enter_worker fold_left audit_step fst]. rewrite fold_left_app. set (a1 := set_current_worker thread name a).
  assert ((run_calls thread calls a1 w).1.1 = fold_left (fun a s => (audit_step s a).1) (concat (map (call_steps thread) calls)) a1) as H.
  { generalize a1 w. clear. induction calls as [|c calls IH]; intros a w; [done|]. cbn [run_calls map concat]. rewrite fold_left_app, <- (js_nodeget_steps thread c a w).
    destruct (js_nodeget _ _ _ _ a w) as [[a1 w1] [s1 r]]. cbn [fst]. rewrite <- (IH a1 s1). by destruct (run_calls thread calls a1 s1) as [[? ?] ?]. }
  destruct (run_calls thread calls a1 w) as [[a2 ws] w']. simpl in *. by subst.
Qed.

Lemma calls_keep_threads thread calls a :
  au_threads (fold_left (fun a s => (audit_step s a).1) (concat (map (call_steps thread) calls)) a) = au_threads a.
Proof using.
  assert (Forall (fun s => match s with Call _ _ _ _ => True | _ => False end) (concat (map (call_steps thread) calls))) as H.
  { apply Forall_concat, Forall_map, Forall_true. intros c. unfold call_steps. destruct (starts_with _ _); [|by repeat constructor].
    destruct (raw_items _) as [items|]; [|constructor]. generalize (jc_now c) as now. induction items as [|x items IH]; intros now; constructor; [done|]. apply (IH (now ∘ S)). }
  revert a. induction H as [|s l Hs _ IH]; intros a; [done|]. simpl. rewrite IH, step_threads. by destruct s.
Qed.

(** After a run, however it ends, every thread runs what it ran before. *)
Theorem run_restores_identity {V} thread name calls (run : option (result JsError V)) killed limit a w :
  au_threads (js_runner thread name calls run killed limit a w).1.1.1 = au_threads a.
Proof using.
  rewrite js_runner_steps. unfold run_steps. cbn [fold_left]. rewrite fold_left_app. cbn [fold_left]. rewrite step_threads, calls_keep_threads, step_threads.
  apply map_eq. intros i. destruct (decide (i = thread)) as [->|Hi]; [by rewrite lookup_partial_alter_eq|by rewrite !lookup_partial_alter_ne by done].
Qed.
End runs.

(** A request that writes a letter of its method as an escape is audited as one that could not be parsed, and
    reported no more than any other, although the server runs it. *)
Theorem escaped_method_hidden {rt : RequestText} request method : request_method request = Some (method, false) ->
  method_of request = "<unparsed>"%string /\ is_sensitive (bounded (method_of request)) = false.
Proof. intros H. unfold method_of. rewrite H. by vm_compute. Qed.

(** ** The record is out of reach of scripts *)

Lemma group_lookup (L : list ((string * string) * Entry)) : NoDup L.*1 -> forall w m v,
  (fold_left group_entry L ∅ !! w ≫= assoc m) = Some v <-> exists e, ((w, m), e) ∈ L /\ v = entry_json e.
Proof.
  induction L as [|[[w0 m0] e0] L IH] using rev_ind; intros Hnd w m v.
  { simpl. rewrite lookup_empty. split; [done|]. intros (e & He & _). by apply not_elem_of_nil in He. }
  rewrite fmap_app in Hnd. apply NoDup_app in Hnd as (Hl & Hfresh & _). specialize (IH Hl). rewrite fold_left_app. cbn [fold_left group_entry].
  setoid_rewrite elem_of_app. setoid_rewrite list_elem_of_singleton.
  assert ((w, m) = (w0, m0) -> forall e, ((w, m), e) ∈ L -> False) as Hnew.
  { intros [= -> ->] e He. apply (Hfresh (w0, m0)); [apply list_elem_of_fmap; by exists ((w0, m0), e)|]. simpl. by constructor. }
  destruct (decide (w = w0)) as [->|Hw].
  - rewrite lookup_insert_eq. simpl. rewrite assoc_insert_lookup. destruct (String.eqb_spec m0 m) as [->|Hm].
    + split; [intros [= <-]; exists e0; auto|]. intros (e & [He|[= ->]] & ->); [by edestruct Hnew|done].
    + transitivity ((fold_left group_entry L ∅ !! w0 ≫= assoc m) = Some v); [by destruct (fold_left group_entry L ∅ !! w0)|]. rewrite IH.
      split; intros (e & He & ->); exists e; [auto|]. destruct He as [?|[= ]]; [done|congruence].
  - rewrite lookup_insert_ne by done. rewrite IH. split; intros (e & He & ->); exists e; [auto|]. destruct He as [?|[= ]]; [done|congruence].
Qed.

Section kept.
Context `{Crypto} `{Serde}.
Context {DB : Type} {ops : TableOps DB KvRow} {laws : TableLaws ops kv_conflict} {coll : Collation} {ho : HashOrder}.

(** The snapshot has one document per worker, with exactly the entries of the table. *)
Lemma snapshot_exact now t worker payload : (worker, payload) ∈ snapshot now t -> exists methods, payload = worker_json now worker methods /\
  forall m, assoc m methods = option_map entry_json (t !! (worker, m)).
Proof using.
  unfold snapshot. case_bool_decide; [by intros ?%not_elem_of_nil|]. intros ([w methods] & [= -> ->] & Hin%hash_iter_elem)%list_elem_of_fmap.
  exists methods. split; [done|]. intros m.
  assert (NoDup (hash_iter t).*1) as Hnd by (rewrite hash_iter_perm; apply NoDup_fst_map_to_list).
  pose proof (group_lookup (hash_iter t) Hnd w m) as Hg. rewrite Hin in Hg. simpl in Hg. setoid_rewrite hash_iter_elem in Hg.
  destruct (t !! (w, m)) as [e|] eqn:E; simpl; [apply Hg; eauto|]. destruct (assoc m methods) as [v|]; [|done].
  destruct (proj1 (Hg v) eq_refl) as (e & [=] & _).
Qed.
Lemma snapshot_complete now t worker m e : t !! (worker, m) = Some e -> exists payload, (worker, payload) ∈ snapshot now t.
Proof using.
  intros He. unfold snapshot. rewrite bool_decide_false by (intros ->; by rewrite lookup_empty in He).
  assert (NoDup (hash_iter t).*1) as Hnd by (rewrite hash_iter_perm; apply NoDup_fst_map_to_list).
  assert ((fold_left group_entry (hash_iter t) ∅ !! worker ≫= assoc m) = Some (entry_json e)) as Hg.
  { apply group_lookup; [done|]. exists e. split; [|done]. by apply hash_iter_elem. }
  apply bind_Some in Hg as (methods & Hg & _). eexists. apply list_elem_of_fmap. exists (worker, methods). split; [done|]. by apply hash_iter_elem.
Qed.
Lemma snapshot_nodup now t : NoDup (snapshot now t).*1.
Proof using.
  unfold snapshot. case_bool_decide; [constructor|]. set (g := fold_left _ _ _).
  replace (map _ _).*1 with (hash_iter g).*1; [rewrite hash_iter_perm; apply NoDup_fst_map_to_list|].
  induction (hash_iter g) as [|x l IH]; [done|]. simpl. by f_equal.
Qed.

(** Every statement of a flush succeeds. *)
Fixpoint writes_succeed (l : list (string * Json)) (w : option DB) : bool :=
  match l with
  | [] => true
  | (worker, payload) :: rest => let '(w', r) := set_v_to_kv AUDIT_NAMESPACE worker payload w in is_ok r && writes_succeed rest w'
  end.

(** Writing the documents changes the keys of the workers only, and all of them when nothing fails. *)
Lemma write_workers_effect l w S m : kv_rel w S -> S !! AUDIT_NAMESPACE = Some m -> exists S' m', kv_rel (write_workers l w).1 S' /\
  (forall n, n <> AUDIT_NAMESPACE -> S' !! n = S !! n) /\ S' !! AUDIT_NAMESPACE = Some m' /\
  (forall k, m' !! k = m !! k \/ exists payload, (k, payload) ∈ l /\ m' !! k = Some payload) /\
  (NoDup l.*1 -> writes_succeed l w = true -> forall k payload, (k, payload) ∈ l -> is_marker k = false -> m' !! k = Some payload).
Proof using laws coll.
  revert w S m. induction l as [|[worker payload] l IH]; intros w S m Hw Hm; simpl.
  { exists S, m. split_and!; auto. intros _ _ k p Hp. by apply not_elem_of_nil in Hp. }
  pose proof (sim_set S AUDIT_NAMESPACE worker payload w Hw) as Hs. cbn [spec] in Hs. rewrite Hm in Hs.
  destruct (set_v_to_kv AUDIT_NAMESPACE worker payload w) as [w1 r]. destruct Hs as [[Hf [t Ht]]|[Hr Hres]]; cbn [fst snd] in *; subst r.
  - destruct (IH w1 S m Hf Hm) as (S' & m' & H1 & H2 & H3 & H4 & _). exists S', m'. split_and!; auto; [|done]. intros k.
    destruct (H4 k) as [|(p & Hp & Hk)]; [auto|]. right. exists p. split; [by constructor|done].
  - destruct (IH w1 _ (set_cell m worker payload) Hr ltac:(by rewrite lookup_insert_eq)) as (S' & m' & H1 & H2 & H3 & H4 & H5). exists S', m'.
    split_and!; auto; [intros n Hn; rewrite H2 by done; by rewrite lookup_insert_ne|..].
    + intros k. destruct (H4 k) as [Hk|(p & Hp & Hk)]; [|right; exists p; split; [by constructor|done]]. unfold set_cell in Hk. destruct (is_marker worker); [auto|].
      destruct (decide (k = worker)) as [->|Hne]; [right; exists payload; rewrite lookup_insert_eq in Hk; split; [constructor|done]|].
      rewrite lookup_insert_ne in Hk by done. auto.
    + intros Hnd Hok k p Hp Hmk. inversion_clear Hnd as [|? ? Hni Hnd']. apply elem_of_cons in Hp as [[= -> ->]|Hp]; [|by apply H5].
      destruct (H4 worker) as [->|(p & Hp & _)]; [unfold set_cell; rewrite Hmk; by rewrite lookup_insert_eq|].
      exfalso. apply Hni, list_elem_of_fmap. by exists (worker, p).
Qed.

Definition keeps (n : string) (S : Spaces) (w' : option DB) : Prop := exists S', kv_rel w' S' /\ S' !! n = S !! n.

Lemma handler_keeps {A B} n S w ns (chk : result anyhow unit) (m : Kv A) r (abstract : Spaces * result anyhow B) :
  is_reserved_namespace n = true -> kv_rel w S -> sim S m (abstract.1, r) ->
  match abstract.2 with Ok _ => exists a, r = Ok a | Err er => r = Err er /\ abstract.1 = S end ->
  (n <> ns -> abstract.1 !! n = S !! n) ->
  keeps n S (respond (let! _ := lift (ensure_namespace_writable ns) in let! _ := lift chk in m) w).1.
Proof using.
  intros Hn Hw Hm Hr Hs. destruct (guarded_handler S w ns chk (chk = Ok tt) m r abstract Hw (iff_refl _) Hm Hr) as [[Hk _]|(Hns & _ & _ & Hk & _)].
  - by exists S.
  - exists abstract.1. split; [done|]. apply Hs. congruence.
Qed.
Lemma spec_elsewhere {A} (op : KvOp A) n ns S :
  match op with CreateKv x | SetV x _ _ | DeleteKey x _ | DeleteKv x => x = ns | _ => False end -> n <> ns -> (spec op S).1 !! n = S !! n.
Proof using.
  intros Hop Hn. destruct op; try done; subst; simpl; repeat case_match; simpl; by rewrite ?lookup_insert_ne, ?lookup_delete_ne by done.
Qed.

(** The stored policy turns the audit off: its document says so in so many words. *)
Definition policy_disables (v : option Json) : Prop := exists fields, v = Some (JObject fields) /\ assoc "enabled" fields = Some (JBool false).

Lemma policy_read v : unwrap_or true ((as_object v ≫= assoc "enabled") ≫= as_bool) = false <-> policy_disables (Some v).
Proof using.
  split.
  - destruct v as [| | | | |fields]; try done. simpl. destruct (assoc "enabled" fields) as [[|[]| | | |]|] eqn:E; try done. intros _. by exists fields.
  - intros (fields & [= ->] & E). simpl. by rewrite E.
Qed.

(** C28: scripts hold the super token, yet no token lets the writing methods of the key-value store change a reserved
    namespace, so neither the record of the audit nor its switch.  When the stored policy can be read the audit is off exactly when
    the policy says so; when it cannot, the audit keeps its state.  Writing the record changes its own namespace only, and
    when the statements succeed the store holds, for every worker whose name is not that of a marker of the store, exactly the counts of the table. *)
Theorem audit_kept e token ns k v now a w S : kv_rel w S ->
  (forall n, is_reserved_namespace n = true ->
    keeps n S (KvRpc.create e token ns w).1 /\ keeps n S (KvRpc.set_value e token ns k v w).1 /\
    keeps n S (KvRpc.delete_key e token ns k w).1 /\ keeps n S (KvRpc.delete_namespace e token ns w).1) /\
  (is_reserved_namespace AUDIT_NAMESPACE = true /\ is_reserved_namespace POLICY_NAMESPACE = true) /\
  (let '(w', a') := refresh_switch a w in kv_rel w' S /\ au_table a' = au_table a /\
    (if is_ok (get_v_from_kv_lenient POLICY_NAMESPACE AUDIT_SWITCH_KEY w).2
     then au_enabled a' = false <-> policy_disables (cell_value S POLICY_NAMESPACE AUDIT_SWITCH_KEY) else au_enabled a' = au_enabled a)) /\
  (exists S', kv_rel (flush_once now a w).1 S' /\ (forall n, n <> AUDIT_NAMESPACE -> S' !! n = S !! n) /\
    (is_ok (flush_once now a w).2 = true -> writes_succeed (snapshot now (au_table a)) (get_or_create_kv AUDIT_NAMESPACE w).1 = true ->
     forall worker m en, au_table a !! (worker, m) = Some en -> is_marker worker = false ->
     exists methods, cell_value S' AUDIT_NAMESPACE worker = Some (worker_json now worker methods) /\
       forall m', assoc m' methods = option_map entry_json (au_table a !! (worker, m')))).
Proof using laws coll ho.
  intros Hw. split; [|split; [done|split]].
  - intros n Hn. split_and!; (eapply handler_keeps; [done|exact Hw|..]).
    + rewrite <- surjective_pairing. apply sim_create.
    + apply create_result.
    + by apply spec_elsewhere.
    + apply (sim_then S _ success), sim_set.
    + apply spec_result.
    + by apply spec_elsewhere.
    + apply (sim_then S _ success), sim_delete_key.
    + apply spec_result.
    + by apply spec_elsewhere.
    + apply (sim_then S _ success), sim_delete_kv.
    + apply spec_result.
    + by apply spec_elsewhere.
  - unfold refresh_switch. pose proof (sim_get_lenient S POLICY_NAMESPACE AUDIT_SWITCH_KEY w Hw) as Hg. cbn [spec] in Hg.
    destruct (get_v_from_kv_lenient _ _ w) as [w1 r]. destruct Hg as [[Hf [t Ht]]|[Hr Hres]]; cbn [fst snd] in *; subst r; [done|].
    destruct (cell_value S POLICY_NAMESPACE AUDIT_SWITCH_KEY) as [v'|]; (split_and!; [done|done|]); cbn [is_ok]; [apply policy_read|].
    split; [done|]. by intros (? & ? & _).
  - unfold flush_once. case_bool_decide as Hempty.
    { exists S. split_and!; [done|done|]. intros _ _ worker m en He _. destruct (snapshot_complete now _ _ _ _ He) as [p Hp]. rewrite Hempty in Hp.
      by apply not_elem_of_nil in Hp. }
    pose proof (sim_get_or_create S AUDIT_NAMESPACE w Hw) as Hg. cbn [spec] in Hg. unfold mbind.
    destruct (get_or_create_kv AUDIT_NAMESPACE w) as [w1 r]. destruct Hg as [[Hf [t Ht]]|[Hr Hres]]; cbn [fst snd] in *; subst r.
    { exists S. split_and!; [done|done|]. done. }
    assert (exists S1 m, kv_rel w1 S1 /\ S1 !! AUDIT_NAMESPACE = Some m /\ (forall n, n <> AUDIT_NAMESPACE -> S1 !! n = S !! n)) as (S1 & m & Hw1 & Hm & Hoth).
    { destruct (S !! AUDIT_NAMESPACE) as [m|] eqn:E; cbn [fst] in Hr; [by exists S, m|]. exists (<[AUDIT_NAMESPACE := ∅]> S), ∅.
      split_and!; [done|by rewrite lookup_insert_eq|]. intros n Hn. by rewrite lookup_insert_ne. }
    destruct (write_workers_effect (snapshot now (au_table a)) w1 S1 m Hw1 Hm) as (S' & m' & H1 & H2 & H3 & _ & H5). exists S'.
    split_and!; [by destruct (S !! AUDIT_NAMESPACE)|intros n Hn; rewrite H2 by done; by apply Hoth|]. intros _ Hok worker mth en He Hmk.
    destruct (snapshot_complete now _ _ _ _ He) as [p Hp]. destruct (snapshot_exact _ _ _ _ Hp) as (methods & -> & Hms).
    exists methods. split; [|done]. unfold cell_value. rewrite Hmk, H3. simpl. apply H5; [apply snapshot_nodup|done|done|done].
Qed.
End kept.

(** ** Examples *)

#[local] Existing Instance list_order.

Definition audited : Audit := audit_run [Enter 1 (Some "deploy"%string); Call 1 (Some "other"%string) "kv_set_value" 100; Call 1 None "kv_set_value" 200].
Definition audited_kv : option (ListTable KvRow) := (flush_once 300 audited one_ns_kv).1.

Lemma audit_kept_witness :
  keeps AUDIT_NAMESPACE (<["conf"%string := ∅]> ∅) (delete_namespace sample_env "rootkey:rootsecret" "__js_audit" one_ns_kv).1 /\
  en_count <$> au_table audited !! ("deploy"%string, "kv_set_value"%string) = Some 2%Z.
Proof.
  split; [|vm_compute; reflexivity].
  destruct (audit_kept sample_env "rootkey:rootsecret" "__js_audit" "deploy" JNull 300 audited one_ns_kv (<["conf"%string := ∅]> ∅) one_ns_rel) as [H _].
  apply (H AUDIT_NAMESPACE). reflexivity.
Defined.

(** A script that claims another name is booked under its own, and is reported. *)
Example claim_reported : (record 1 (Some "other"%string) "kv_set_value" 300 audited).2 =
  [IdentityMismatch "deploy" "other" "kv_set_value" 2; RpcCall "deploy" "kv_set_value" false true].
Proof. vm_compute. reflexivity. Qed.

Example record_stored : (get_v_from_kv AUDIT_NAMESPACE "deploy" audited_kv).2 =
  Ok (Some (worker_json 300 "deploy" [("kv_set_value"%string, JObject [("count", json_int 2); ("first_seen_ms", json_int 100); ("last_seen_ms", json_int 200)]%string)])).
Proof. vm_compute. reflexivity. Qed.

(** A sensitive method is not reported at every call: the fourth call in a row is silent. *)
Example sensitive_rate_limited :
  let run := audit_run (Enter 1 (Some "deploy"%string) :: replicate 3 (Call 1 None "token_delete" 100)) in
  (record 1 None "token_delete" 200 run).2 = [] /\ is_sensitive "token_delete" = true.
Proof. vm_compute. by split. Qed.
